(* ===== verification/_CoqProject ===== *)
-Q . S2P
Prelude.v
CString.v
Error.v
CFormat.v
Unicode.v
Mem.v
LibString.v
Rect.v
Socket.v
SocketFd.v
ProtocolTypes.v
Protocol.v
Base64.v
ProtocolSpec.v
Parser.v
ParserSpec.v
Wire.v
EndToEnd.v
CommandAcl.v
CommandAclSpec.v
SshInput.v
RecordUpdate.v
Run.v
Threads.v
Fifo.v
TermTypes.v
TermPalette.v
TermColors.v
TermBuffer.v
TermRowSpec.v
TermBufferSpec.v
TermScrollbar.v
TermDisplay.v
Terminal.v
TermHandlers.v
TermDisplaySpec.v
TermFlush.v
TermSpec.v
TermHandlersSpec.v
TermTextSpec.v
CommandLogger.v
CommandLoggerSpec.v
Pool.v
Paths.v
RdpFs.v
RdpFsSpec.v
Iconv.v
Json.v
KubernetesUrl.v
GuacdConf.v
GuacdConfSpec.v
Streams.v
CNumbers.v
StateRun.v
UserInput.v
UserInputSpec.v
Handshake.v
HandshakeSpec.v
ClientUsers.v
RwLock.v
ClientLocks.v
UserArgs.v
Display.v
DisplayPlan.v
DisplayFlush.v
DisplayDraftSpec.v
DisplayCreateSpec.v
DisplayRectSpec.v
DisplayHashSpec.v
DisplayPassSpec.v
DisplayCopySpec.v
DisplayCombineSpec.v
DisplayOptimiseSpec.v
DisplayCommitSpec.v
DisplayResizeSpec.v
DisplayScreen.v
DisplayApplySpec.v
DisplayWorkerSpec.v
DisplayInterleaveSpec.v
DisplayShown.v
