(* ===== verification/Prelude.v ===== *)
(** * guacamole-server: a verification library

    guacamole-server is the C side of Apache Guacamole: [libguac] (the protocol,
    the sockets, the users of a connection and the helpers shared by everything),
    the daemon [guacd], which speaks the Guacamole protocol to the web
    application, and one plugin per remote desktop protocol, which turns what the
    remote side shows into Guacamole instructions; the terminal emulator and the
    directories [common] and [common-ssh] are shared by plugins.  Everything
    crosses one narrow place: an instruction is a sequence of elements
    [LENGTH.VALUE,...;], written by the functions [guac_protocol_send_*] through
    a [guac_socket] and read back by a [guac_parser].

    This file holds what every other file uses: bytes, machine integers, C
    strings, the tactics and the hint databases.

    ** The files

    Names of definitions are those of the code; a loop of a function is a
    definition of its own, named after the function.  A file [XSpec] holds the
    specification of [X] and the proof that [X] keeps it.

    What the code is written in:
    - [CString]: the C library's string functions that the code relies on, on
      memories and offsets where they write ([strtok], [fgets]); [CFormat]: the
      conversions of [snprintf]; [CNumbers]: [strtol] and [atoi].
    - [RecordUpdate], [Run], [StateRun]: records with one field replaced; the
      monad of computations that may abort, leave the defined behaviour of C or
      run out of fuel, alone and over a state, with their triples.
    - [Threads]: programs of threads over a recursive mutex and a condition,
      interleaved, with the simulation and termination lemmas.

    The protocol ([libguac]):
    - [Error] (error.c), [Unicode] (unicode.c), [Mem] (mem.c; the allocator is
      the class [Allocator]), [LibString] (string.c), [Rect] (rect.c).
    - [Socket] (socket.c): the handlers of a [guac_socket] are the class
      [SocketOps] over the state of the socket's implementation; what an
      implementation owes is stated by [LawfulSocket] (writing),
      [BoundedReader] and [Stream] (reading).  [SocketFd] (socket-fd.c,
      wait-fd.c): the system calls are the class [Os], with the laws [LawfulOs],
      [LawfulOsReader] and [OsStream]; its instances discharge the interface of
      [Socket].  [Wire]: a concrete system for the witnesses.
    - [ProtocolTypes], [Protocol] (protocol.c), [ProtocolSpec]: an instruction is
      an opcode with arguments, [encode] its text, and every send function
      emits the text of its instruction on any lawful socket.  [Base64]: the
      decoder of protocol.c against the encoder of socket.c.
    - [Parser] (parser.c), [ParserSpec]: the parser against the same [encode].
      [EndToEnd]: sender, wire and parser composed, and what can go wrong.

    Clients and users ([libguac]):
    - [Pool] (pool.c), [Fifo] (flag.c, fifo.c, on the machine of [Threads]).
    - [Streams] (client.c, user.c): streams, objects, layers and buffers, numbered
      by pools.
    - [UserInput], [UserInputSpec] (user-handlers.c): the instructions of a user.
    - [Handshake], [HandshakeSpec] (user-handshake.c): the connection of a user
      from the announced arguments to what is freed at its end.
    - [ClientUsers] (client.c): the doubly linked lists of users.
    - [RwLock] (rwlock.c): reentrant locks and a machine of threads that use
      them; [ClientLocks] (client.c): the end of a client on that machine.
    - [UserArgs] (user.c, client.c): parameters and features.

    The terminal emulator ([terminal]):
    - [TermTypes], [TermPalette], [TermColors]: cells, colours by name and value.
    - [TermBuffer], [TermRowSpec], [TermBufferSpec] (buffer.c): rows of text.
    - [TermScrollbar], [TermDisplay], [TermDisplaySpec], [TermFlush]
      (scrollbar.c, display.c): what is drawn.
    - [Terminal], [TermHandlers], [TermSpec], [TermHandlersSpec], [TermTextSpec]
      (terminal.c, select.c, terminal-handlers.c): the emulator and the escape
      sequences, and what every byte of output does to them.

    The plugins and the daemon:
    - [CommandAcl], [CommandAclSpec], [SshInput], [CommandLogger],
      [CommandLoggerSpec] (ssh): what is typed into an SSH session, checked against
      a list and logged.
    - [Paths], [RdpFs], [RdpFsSpec] (rdp/fs.c, common-ssh/sftp.c): normal paths
      and the shared drive.
    - [Iconv], [Json] (common), [KubernetesUrl] (kubernetes/url.c).
    - [GuacdConf], [GuacdConfSpec] (guacd): the configuration file.

    The display ([libguac]):
    - [Display] (display-layer.c, display-layer-list.c), [DisplayPlan]
      (display-plan*.c), [DisplayFlush] (display-flush.c, display-worker.c): the
      layers, the plan of a frame with its passes, the end of a frame and
      the workers.
    - [DisplayDraftSpec], [DisplayCreateSpec], [DisplayRectSpec],
      [DisplayHashSpec], [DisplayPassSpec], [DisplayCopySpec],
      [DisplayCombineSpec], [DisplayOptimiseSpec]: a plan covers what has
      changed, and each pass keeps that.
    - [DisplayCommitSpec], [DisplayResizeSpec]: the copy of the pending frame, and
      resizing.  [DisplayScreen]: what a client shows of the instructions sent.
      [DisplayApplySpec], [DisplayWorkerSpec], [DisplayInterleaveSpec],
      [DisplayShown]: the instructions of a frame make the screen show it.

    ** How the model reads

    A value of a C integer type is a [Z] in the type's range, with the wrap
    written out ([i32], [u32], [i64], [u64]) where an operation can leave it; where
    the code relies on signed arithmetic not overflowing, leaving the range is
    a [Fault].  A buffer is a list of bytes, with offsets for the pointers into
    it where the code edits it in place.  State is passed explicitly, a result
    that the code signals out of band (an error in [guac_error], an abort) is
    a value of a sum, an option or the monad [run].  Calls that leave the
    program (drawing, system calls, handlers of plugins, messages) are recorded
    in order as lists of events.

    What is not part of src/ is a parameter: the socket's implementation, the
    allocator, the operating system ([Os], [respond]), the remote side of an
    SSH session ([LineEditor]), the width of a character ([Wcwidth]), the metrics
    of the font, the contents of fresh memory, [fnmatch], [atof], the
    functions of a plugin ([plugin], [join]).  The theorems state what they
    need of it, and their witnesses instantiate it.

    Threads: a function that holds a lock from its first access to its last is
    one step.  Where the interleaving matters the steps are those of a machine:
    [Threads] for flags and queues, [RwLock] for the locks of a client.

    Loops that are not structural take fuel, and a theorem says that the fuel
    their callers give is enough: [guac_socket_write] gets one round for every
    byte and as many as a lawful socket may accept nothing in a row;
    [guac_parser_read] gets enough for every byte its buffer can take and the
    states it passes through ([parser_read_terminates]); the loops over a
    string, a file or a list get its length; the bounded search gets its
    bound; the two functions of the terminal's buffer that call each other get the
    depth of the calls ([buffer_well_formed] excludes running out); the walks
    over the users get the number of users ([client_users_refine]).

    ** What is proved

    - The protocol: each send function writes exactly its instruction
      ([send_instruction_emits]); the parser reads any encoded instruction back,
      however its bytes arrive ([parser_reads_encoded]), terminates and stays
      within its buffer ([append_bounds]); together, [instruction_end_to_end].
      Base64 data survives ([base64_round_trip]) and large data is cut into
      blobs ([send_blobs_chunks]).  What the path does not survive has a
      concrete run each: a timeout within an instruction, a failed write of
      base64 data, a wrapped length, a log message cut within a character.
    - Users: the handshake leaves the last value of each kind and owns what it
      allocated ([handshake_negotiates]), a connection frees all of it
      ([connection_frees_all]); a user cannot make a stream's functions run out
      of order ([input_streams_protocol]); open streams and objects have indices of
      their own ([streams_never_collide], [pool_unique]); the lists of users
      are lists ([client_users_refine]); locks exclude
      ([rwlock_exclusion], [lock_code_refines]).
    - Queues: every interleaving is one of atomic operations on a bounded queue
      ([fifo_refines_queue]) and no wakeup is lost ([fifo_comes_to_rest]).
    - The terminal: every byte of output keeps it well formed and within its
      memory, but for the sequences that [byte_safe] names
      ([terminal_output_safe], [buffer_well_formed]); text appears as written
      ([text_appears]); merged clears paint the same screen
      ([flush_clear_equiv]).
    - Command control: loading refines a grammar, a command is refused for
      exactly three reasons, the session executes the lines typed, the refused
      ones replaced by empty lines ([ssh_input_filters_lines]), the log records
      the lines entered ([logger_records_lines]).
    - The drive: every path the system is asked about lies within the drive
      ([drive_session_safe], [normalize_path_normal]).
    - Text: transcoding, JSON, URLs and the configuration file read back what
      was written.
    - Defects of the code, each with a theorem that exhibits it: a parser
      freed twice, a client whose end waits for itself, arguments that are not
      there, a screen scrolled as a whole, files that were never opened, commands
      longer than the buffer.
    - The display: after a frame the screen shows the pending frame, whatever the
      plan's passes made of it, however the images are encoded and the workers
      interleave ([frame_shown]).  The rolling hash is that of a window
      ([hash_windows]), and resizing keeps the picture ([resize_keeps]).
      What a client does is a parameter: [composite], [paint], [decode], and the
      relation [near] of what lossy encodings may change ([client_laws]).

    ** What is not modelled

    Code whose work is a call of another library: image and video encoders,
    Pango and Cairo drawing, libssh2, FreeRDP, libvncclient, libtelnet, audio,
    the processes of guacd, guacenc, and the plugins' glue between these and
    libguac; the broadcast of a socket to the users and its keep-alive thread.
    The display's Cairo contexts, cursors and render thread, which wait for
    time and call Cairo.

    Nor modelled: the keyboard of RDP, the settings of the plugins, surfaces
    ([common/surface.c], which the display replaces) and the remaining functions
    of terminal.c (keyboard and mouse).
    [guac_error] is a value returned, not a thread-local variable.  Allocation
    can fail in [Mem], [RdpFs] and in the duplicates of [LibString] only.
    Freeing is modelled where it matters to a claim (the handshake, the names of
    closed files, a string logged after it was freed). *)

From Stdlib Require Export ZArith Lia Strings.Byte Strings.String.
From stdpp Require Export base list strings numbers option.

#[global] Set Default Goal Selector "!".

(** ** Scope of the development's notations *)

Declare Scope guac_scope.
Delimit Scope guac_scope with guac.

(** ** Bytes

    A C [unsigned char] is a [Byte.byte] together with its value [bz]; a plain
    [char], which is signed on every platform the project is built for, is
    the same byte read through [sc]. *)

#[export] Instance byte_eq_decision : EqDecision byte := Byte.byte_eq_dec.
#[export] Instance byte_inhabited : Inhabited byte := populate x00.

Definition bz (b : byte) : Z := Z.of_N (Byte.to_N b).

Definition sc (b : byte) : Z :=
  if (bz b <? 128)%Z then bz b else (bz b - 256)%Z.

Definition zb (z : Z) : byte := default x00 (Byte.of_N (Z.to_N (z `mod` 256))).

(** String literals are lists of bytes. *)

Definition lit (s : string) : list byte := list_byte_of_string s.
Arguments lit _%_string_scope.

Definition all_bytes : list byte := zb <$> seqZ 0 256.

Lemma bz_range b : (0 ≤ bz b < 256)%Z.
Proof. unfold bz. pose proof (Byte.to_N_bounded b). lia. Qed.

Lemma zb_bz b : zb (bz b) = b.
Proof.
  unfold zb. rewrite Z.mod_small by apply bz_range.
  unfold bz. rewrite N2Z.id. by rewrite Byte.of_to_N.
Qed.

Lemma bz_zb z : bz (zb z) = (z `mod` 256)%Z.
Proof.
  unfold bz, zb. pose proof (Z.mod_pos_bound z 256 ltac:(lia)) as Hb.
  destruct (Byte.of_N (Z.to_N (z `mod` 256))) as [b|] eqn:E.
  - change (default x00 (Some b)) with b. apply Byte.to_of_N in E. rewrite E. lia.
  - apply Byte.of_N_None_iff in E. lia.
Qed.

Lemma bz_zb_small z : (0 ≤ z < 256)%Z → bz (zb z) = z.
Proof. intros. by rewrite bz_zb, Z.mod_small. Qed.

Lemma bz_inj b1 b2 : bz b1 = bz b2 → b1 = b2.
Proof. intros E. by rewrite <-(zb_bz b1), E, zb_bz. Qed.

Lemma bz_eqb b1 b2 : (bz b1 =? bz b2)%Z = bool_decide (b1 = b2).
Proof.
  case_bool_decide as E.
  - subst. apply Z.eqb_refl.
  - apply Z.eqb_neq. intros ?. by apply E, bz_inj.
Qed.

(** A boolean property of bytes holds of every byte when it evaluates to true
    on the 256 of them. *)

Lemma byte_forall (P : byte → bool) :
  forallb P all_bytes = true → ∀ b, P b = true.
Proof.
  intros H b. rewrite forallb_forall in H. apply H.
  apply list_elem_of_In. unfold all_bytes. apply list_elem_of_fmap.
  exists (bz b). rewrite zb_bz. split; [done|].
  apply elem_of_seqZ. pose proof (bz_range b). lia.
Qed.

(** ** Machine integers

    A value of a C integer type is a [Z]; the operations that can leave the
    type's range are followed by the conversion to the type, two's complement
    for the signed ones. *)

Definition i32 (z : Z) : Z := ((z + 2^31) `mod` 2^32 - 2^31)%Z.
Definition u32 (z : Z) : Z := (z `mod` 2^32)%Z.
Definition i64 (z : Z) : Z := ((z + 2^63) `mod` 2^64 - 2^63)%Z.
Definition u64 (z : Z) : Z := (z `mod` 2^64)%Z.

Definition INT_MAX : Z := (2^31 - 1)%Z.
Definition SIZE_MAX : Z := (2^64 - 1)%Z.

Definition is_i32 (z : Z) : Prop := (- 2^31 ≤ z < 2^31)%Z.
Definition is_i64 (z : Z) : Prop := (- 2^63 ≤ z < 2^63)%Z.
Definition is_u64 (z : Z) : Prop := (0 ≤ z < 2^64)%Z.

Lemma i32_small z : is_i32 z → i32 z = z.
Proof. unfold is_i32, i32. intros. rewrite Z.mod_small; lia. Qed.

Lemma i64_small z : is_i64 z → i64 z = z.
Proof. unfold is_i64, i64. intros. rewrite Z.mod_small; lia. Qed.

Lemma u64_small z : is_u64 z → u64 z = z.
Proof. unfold is_u64, u64. intros. by rewrite Z.mod_small. Qed.

Lemma i32_range z : is_i32 (i32 z).
Proof.
  unfold is_i32, i32. pose proof (Z.mod_pos_bound (z + 2^31) (2^32) ltac:(lia)). lia.
Qed.

Lemma u64_range z : is_u64 (u64 z).
Proof. unfold is_u64, u64. apply Z.mod_pos_bound. lia. Qed.

(** C's [&&], [||] and [!] yield an [int]. *)

Definition b2z (b : bool) : Z := if b then 1%Z else 0%Z.

(** ** C strings

    The contents of a C string are the bytes up to its terminator. A string
    argument is modelled by these contents, memory holding a string by the
    bytes of the memory. *)

Fixpoint c_str (mem : list byte) : list byte :=
  match mem with
  | [] => []
  | x00 :: _ => []
  | c :: mem' => c :: c_str mem'
  end.

Definition no_nul (s : list byte) : Prop := Forall (λ c, c ≠ x00) s.

Lemma no_nul_app s t : no_nul (s ++ t) ↔ no_nul s ∧ no_nul t.
Proof. apply Forall_app. Qed.

Lemma no_nul_cons c s : no_nul (c :: s) ↔ c ≠ x00 ∧ no_nul s.
Proof. apply Forall_cons_iff. Qed.

Lemma c_str_app s r : no_nul s → c_str (s ++ x00 :: r) = s.
Proof.
  induction 1 as [|c s Hc Hs IH]; [done|].
  cbn [app c_str]. rewrite IH. by destruct c.
Qed.

Lemma c_str_id s : no_nul s → c_str s = s.
Proof.
  induction 1 as [|c s Hc Hs IH]; [done|]. cbn [c_str]. rewrite IH. by destruct c.
Qed.

Lemma no_nul_c_str mem : no_nul (c_str mem).
Proof.
  induction mem as [|c mem IH]; [constructor|].
  destruct (decide (c = x00)) as [->|Hc]; [constructor|].
  replace (c_str (c :: mem)) with (c :: c_str mem) by (by destruct c).
  by constructor.
Qed.

(** ** Lists *)

Lemma drop_cons_lookup {A} (l : list A) i x r :
  drop i l = x :: r → l !! i = Some x ∧ drop (S i) l = r.
Proof.
  intros H. split.
  - rewrite <-(Nat.add_0_r i), <-lookup_drop, H. done.
  - rewrite <-Nat.add_1_r, <-drop_drop, H. done.
Qed.

(** Induction over a list three elements at a time. *)

Lemma list_ind3 {A} (P : list A → Prop) :
  P [] → (∀ a, P [a]) → (∀ a b, P [a; b]) →
  (∀ a b c l, P l → P (a :: b :: c :: l)) → ∀ l, P l.
Proof.
  intros H0 H1 H2 H3. enough (H : ∀ n l, (length l ≤ n)%nat → P l) by eauto.
  induction n as [|n IH]; intros l Hl.
  - destruct l; [done|cbn in *; lia].
  - destruct l as [|a [|b [|c l]]]; [done..|]. apply H3, IH. cbn in *. lia.
Qed.

(** A boolean property of the integers of a range holds when it evaluates to true on each. *)

Lemma range_forall (P : Z → bool) a n :
  forallb P (seqZ a n) = true → ∀ x, (a ≤ x < a + n)%Z → P x = true.
Proof.
  intros H x Hx. rewrite forallb_forall in H. apply H, list_elem_of_In, elem_of_seqZ. lia.
Qed.

(** ** Bits *)

Lemma lor_shiftl k r x :
  (0 ≤ k → 0 ≤ x < 2 ^ k → Z.lor (Z.shiftl r k) x = 2 ^ k * r + x)%Z.
Proof.
  intros Hk Hx. assert (Hd : Z.land (Z.shiftl r k) x = 0%Z).
  { apply Z.bits_inj'. intros i Hi. rewrite Z.land_spec, Z.bits_0.
    destruct (decide (i < k)%Z).
    - by rewrite Z.shiftl_spec_low.
    - rewrite <-(Z.mod_small x (2 ^ k)), Z.mod_pow2_bits_high by lia.
      apply andb_false_r. }
  rewrite <-Z.lxor_lor, <-Z.add_nocarry_lxor by done.
  rewrite Z.shiftl_mul_pow2 by lia. lia.
Qed.

(** The low bits of a wrapped value are those of the value. *)

Lemma i32_byte z k :
  (0 ≤ k ≤ 24 → Z.land (Z.shiftr (i32 z) k) 0xFF = (z `div` 2 ^ k) `mod` 256)%Z.
Proof.
  intros Hk. change 0xFF%Z with (Z.ones 8). rewrite Z.land_ones, Z.shiftr_div_pow2 by lia.
  assert (E : (∃ q, i32 z = z + q * 2 ^ 24 * 2 ^ 8)%Z).
  { exists (- ((z + 2 ^ 31) `div` 2 ^ 32))%Z. unfold i32.
    pose proof (Z.div_mod (z + 2 ^ 31) (2 ^ 32) ltac:(lia)). lia. }
  destruct E as [q ->].
  replace (q * 2 ^ 24 * 2 ^ 8)%Z with ((q * 2 ^ (24 - k) * 2 ^ 8) * 2 ^ k)%Z.
  - rewrite Z.div_add by (apply Z.pow_nonzero; lia). by rewrite Z.mod_add by lia.
  - replace (2 ^ 24)%Z with (2 ^ (24 - k) * 2 ^ k)%Z; [lia|].
    rewrite <-Z.pow_add_r by lia. f_equal. lia.
Qed.

(** ** Automation *)

Create HintDb guac.
Create Rewrite HintDb guac.
#[export] Hint Resolve bz_range i32_range u64_range no_nul_c_str : guac.
#[export] Hint Rewrite zb_bz bz_zb_small using lia : guac.

(** [dlia] is [lia] with divisions and remainders by constants. *)

Ltac dlia := Z.to_euclidean_division_equations; lia.

(** [byte_check] closes a goal [∀ b, P b = true] by evaluation on every byte. *)

Ltac byte_check := apply byte_forall; vm_compute; reflexivity.

(** [zbool] turns the boolean comparisons of [Z] and [nat] in the context and the goal into
    propositions and splits on those of the goal. *)

Ltac zbool_hyps :=
  repeat match goal with
  | H : (_ && _)%bool = true |- _ => apply andb_true_iff in H; destruct H
  | H : (_ || _)%bool = false |- _ => apply orb_false_iff in H; destruct H
  | H : (_ <? _)%Z = true |- _ => apply Z.ltb_lt in H
  | H : (_ <? _)%Z = false |- _ => apply Z.ltb_ge in H
  | H : (_ <=? _)%Z = true |- _ => apply Z.leb_le in H
  | H : (_ <=? _)%Z = false |- _ => apply Z.leb_gt in H
  | H : (_ =? _)%Z = true |- _ => apply Z.eqb_eq in H
  | H : (_ =? _)%Z = false |- _ => apply Z.eqb_neq in H
  | H : (_ <? _)%nat = true |- _ => apply Nat.ltb_lt in H
  | H : (_ <? _)%nat = false |- _ => apply Nat.ltb_ge in H
  | H : (_ <=? _)%nat = true |- _ => apply Nat.leb_le in H
  | H : (_ <=? _)%nat = false |- _ => apply Nat.leb_gt in H
  | H : (_ =? _)%nat = true |- _ => apply Nat.eqb_eq in H
  | H : (_ =? _)%nat = false |- _ => apply Nat.eqb_neq in H
  end.

(** [zif] splits on the leftmost comparison that a conditional of the goal tests. *)

Ltac zif :=
  match goal with
  | |- context [if ?b then _ else _] =>
      match type of b with bool => destruct b eqn:? end
  end; zbool_hyps.

(** [napp] associates every append to the right. *)

Ltac napp := repeat progress (rewrite <-?app_assoc; cbn [app]).

(** [simpl_decide] decides the equations of the goal that [done] settles. *)

Ltac simpl_decide :=
  repeat match goal with
  | |- context [decide (?x = ?y)] =>
      first [ rewrite (decide_True (P := x = y)) by done
            | rewrite (decide_False (P := x = y)) by done ]
  end.
