(* ===== verification/CString.v ===== *)
(** * The C string functions the servers' own code is written with

    [isspace], [strchr], [strstr], [strncpy], [strtok] and [fgets] as the C
    standard defines them (in the "C" locale).  The functions that write into
    their argument ([strtok] puts a terminator after each token) work on the
    memory that holds the string and on offsets into it, so that a client that
    mutates a buffer while it walks it is modelled with its aliasing; the
    others work on the contents of their arguments. *)

From S2P Require Import Prelude.

(** ** Memory holding strings *)

(** The byte at an offset. *)

Definition mem_at (mem : list byte) (p : nat) : byte := nth p mem x00.

(** The string that starts at an offset. *)

Definition str_at (mem : list byte) (p : nat) : list byte := c_str (drop p mem).

Lemma mem_at_app_r (pre mem : list byte) i : mem_at (pre ++ mem) (length pre + i) = mem_at mem i.
Proof. unfold mem_at. rewrite app_nth2 by lia. by rewrite Nat.add_comm, Nat.add_sub. Qed.

Lemma mem_at_0 (pre mem : list byte) : mem_at (pre ++ mem) (length pre) = mem_at mem 0.
Proof. rewrite <-(mem_at_app_r pre mem 0). by rewrite Nat.add_0_r. Qed.

Lemma str_at_app (pre s post : list byte) :
  no_nul s → str_at (pre ++ s ++ x00 :: post) (length pre) = s.
Proof. intros. unfold str_at. rewrite drop_app_length. by apply c_str_app. Qed.

Lemma c_str_app_nul (m r : list byte) : x00 ∈ m → c_str (m ++ r) = c_str m.
Proof.
  induction m as [|c m IH]; intros Hin; [by apply elem_of_nil in Hin|].
  destruct (decide (c = x00)) as [->|Hc]; [done|].
  apply elem_of_cons in Hin as [?|Hin]; [congruence|].
  cbn [app c_str]. rewrite (IH Hin). done.
Qed.

(** What lies behind the terminator of a string is not part of it. *)

Lemma str_at_frame (m r r' : list byte) p :
  x00 ∈ drop p m → str_at (m ++ r) p = str_at (m ++ r') p.
Proof.
  intros Hin. assert (Hp : (p ≤ length m)%nat).
  { destruct (decide (p ≤ length m)%nat); [done|].
    rewrite drop_ge in Hin by lia. by apply elem_of_nil in Hin. }
  unfold str_at. rewrite !drop_app_le by done. by rewrite !c_str_app_nul.
Qed.

Lemma mem_at_nul_str mem p : mem_at mem p = x00 ↔ str_at mem p = [].
Proof.
  unfold mem_at, str_at. rewrite <-(Nat.add_0_r p) at 1. rewrite <-nth_skipn.
  fold (drop p mem). destruct (drop p mem) as [|c m]; [done|].
  cbn [nth c_str]. by destruct c.
Qed.

(** ** [isspace] *)

Definition isspace (c : byte) : bool := ((9 <=? bz c) && (bz c <=? 13) || (bz c =? 32))%Z.

Lemma isspace_nul : isspace x00 = false.
Proof. done. Qed.

(** ** Searching *)

Fixpoint strchr (s : list byte) (c : byte) : option nat :=
  match s with
  | [] => None
  | d :: s' => if decide (d = c) then Some O else S <$> strchr s' c
  end.

(** [strncmp (s, prefix, strlen (prefix)) == 0] *)

Definition strncmp_eq (s t : list byte) (n : nat) : bool := bool_decide (take n s = take n t).

Fixpoint strstr (s p : list byte) : option nat :=
  if decide (take (length p) s = p) then Some O
  else match s with
       | [] => None
       | _ :: s' => S <$> strstr s' p
       end.

(** [strncpy (dest, s, n - 1); dest[n - 1] = '\0']: the string that results. *)

Definition strncpy_term (s : list byte) (n : nat) : list byte := take (n - 1) s.

(** The string [p] occurs in [s]. *)

Definition occurs (p s : list byte) : Prop := ∃ a b, s = a ++ p ++ b.

Lemma strchr_Some s c i :
  strchr s c = Some i ↔ s !! i = Some c ∧ c ∉ take i s.
Proof.
  revert i. induction s as [|d s IH]; intros i; cbn [strchr].
  - rewrite lookup_nil. split; [done|by intros []].
  - destruct (decide (d = c)) as [->|Hd].
    + split.
      * intros [= <-]. split; [done|]. apply not_elem_of_nil.
      * destruct i as [|i]; [done|]. cbn [take]. intros [_ Hn].
        destruct Hn. apply elem_of_cons. by left.
    + destruct i as [|i].
      * split; [by destruct (strchr s c)|]. intros [[= ?] _]. done.
      * rewrite fmap_Some. split.
        -- intros (j & Hj & [= <-]). apply IH in Hj as [? ?]. split; [done|].
           cbn [take]. rewrite not_elem_of_cons. split; [congruence|done].
        -- cbn [take lookup list_lookup]. rewrite not_elem_of_cons. intros (Hi & _ & Hn).
           exists i. split; [|done]. by apply IH.
Qed.

Lemma strchr_None s c : strchr s c = None ↔ c ∉ s.
Proof.
  induction s as [|d s IH]; cbn [strchr].
  - split; [intros _; apply not_elem_of_nil|done].
  - rewrite not_elem_of_cons. destruct (decide (d = c)) as [->|Hd].
    + split; [done|by intros []].
    + rewrite fmap_None, IH. split; [by split; [congruence|]|by intros []].
Qed.

(** A string without the character, then the character: the first occurrence is there. *)

Lemma strchr_app s c r : c ∉ s → strchr (s ++ c :: r) c = Some (length s).
Proof.
  intros Hn. apply strchr_Some. split.
  - by rewrite list_lookup_middle.
  - by rewrite take_app_length.
Qed.

Lemma strncmp_prefix s p : strncmp_eq s p (length p) = true ↔ p `prefix_of` s.
Proof.
  unfold strncmp_eq. rewrite bool_decide_eq_true, (take_ge p) by done. split.
  - intros E. exists (drop (length p) s). by rewrite <-E at 1; rewrite take_drop.
  - intros [r ->]. by rewrite take_app_length.
Qed.

Lemma strstr_is_Some s p : is_Some (strstr s p) ↔ occurs p s.
Proof.
  induction s as [|c s IH]; cbn [strstr].
  - destruct (decide _) as [E|E].
    + split; [|eauto]. intros _. exists [], []. rewrite take_nil in E. by subst.
    + split; [by intros []|]. intros (a & b & H).
      symmetry in H. apply app_eq_nil in H as [-> H]. apply app_eq_nil in H as [-> ->]. done.
  - destruct (decide _) as [E|E].
    + split; [|eauto]. intros _. exists [], (drop (length p) (c :: s)).
      by rewrite <-E at 1; rewrite app_nil_l, take_drop.
    + rewrite fmap_is_Some, IH. split.
      * intros (a & b & ->). by exists (c :: a), b.
      * intros (a & b & H). destruct a as [|x a].
        -- destruct E. rewrite H. cbn [app]. by rewrite take_app_length.
        -- cbn [app] in H. injection H as <- ->. by exists a, b.
Qed.

(** The result of [strstr] is the first occurrence. *)

Lemma strstr_Some s p i :
  strstr s p = Some i →
  take (length p) (drop i s) = p ∧ (i ≤ length s)%nat ∧
  ∀ j, (j < i)%nat → take (length p) (drop j s) ≠ p.
Proof.
  revert i. induction s as [|c s IH]; intros i; cbn [strstr]; destruct (decide _) as [E|E].
  - intros [= <-]. split_and!; [done|done|lia].
  - done.
  - intros [= <-]. split_and!; [done|cbn; lia|lia].
  - intros (j & Hj & ->)%fmap_Some. apply IH in Hj as (Ht & Hl & Hlt).
    split_and!; [done|cbn; lia|]. intros [|k] Hk; [done|]. apply Hlt. lia.
Qed.

Definition strstr_b (s p : list byte) : bool := bool_decide (is_Some (strstr s p)).

Lemma strstr_b_true s p : strstr_b s p = true ↔ occurs p s.
Proof. unfold strstr_b. by rewrite bool_decide_eq_true, strstr_is_Some. Qed.

(** ** Splitting at a delimiter *)

Fixpoint split_on (d : byte) (s : list byte) : list (list byte) :=
  match s with
  | [] => [[]]
  | c :: s' =>
      if decide (c = d) then [] :: split_on d s'
      else match split_on d s' with
           | [] => [[c]]
           | f :: fs => (c :: f) :: fs
           end
  end.

Lemma split_on_none d s : d ∉ s → split_on d s = [s].
Proof.
  induction s as [|c s IH]; [done|]. rewrite not_elem_of_cons. intros [Hc Hs].
  cbn [split_on]. rewrite decide_False by done. by rewrite (IH Hs).
Qed.

Lemma split_on_app d s r : d ∉ s → split_on d (s ++ d :: r) = s :: split_on d r.
Proof.
  induction s as [|c s IH]; intros Hs; cbn [app split_on].
  - by rewrite decide_True.
  - apply not_elem_of_cons in Hs as [Hc Hs]. rewrite decide_False by done. by rewrite (IH Hs).
Qed.

(** ** [strtok] with one delimiter

    [strspn] and [strcspn] are the lengths of the runs that [strtok] skips. *)

Fixpoint strspn (s : list byte) (d : byte) : nat :=
  match s with
  | c :: s' => if decide (c = d) then S (strspn s' d) else O
  | [] => O
  end.

Definition strcspn (s : list byte) (d : byte) : nat := default (length s) (strchr s d).

(** [strtok mem save d]: the memory after the call, the new saved pointer and the token. *)

Definition strtok (mem : list byte) (save : nat) (d : byte) : list byte * nat * option nat :=
  let s := (save + strspn (str_at mem save) d)%nat in
  if decide (mem_at mem s = x00) then (mem, s, None)
  else
    let e := (s + strcspn (str_at mem s) d)%nat in
    if decide (mem_at mem e = x00) then (mem, e, Some s)
    else (<[e := x00]> mem, S e, Some s).

Lemma strspn_split s d :
  ∃ r, s = replicate (strspn s d) d ++ r ∧ head r ≠ Some d.
Proof.
  induction s as [|c s (r & E & H)]; cbn [strspn].
  - by exists [].
  - destruct (decide (c = d)) as [->|Hc].
    + exists r. split; [|done]. cbn [replicate app]. by f_equal.
    + exists (c :: s). split; [done|]. cbn. congruence.
Qed.

(** The three results of [strtok] on memory that holds [s] behind the saved pointer: no token
    left, the last token, a token with more behind it. *)

Inductive strtok_result (d : byte) (pre s post : list byte) :
    list byte * nat * option nat → Prop :=
  | strtok_none n :
      s = replicate n d →
      strtok_result d pre s post (pre ++ s ++ x00 :: post, length pre + n, None)%nat
  | strtok_last n t :
      s = replicate n d ++ t → t ≠ [] → d ∉ t →
      strtok_result d pre s post
        (pre ++ s ++ x00 :: post, length pre + n + length t, Some (length pre + n))%nat
  | strtok_more n t r :
      s = replicate n d ++ t ++ d :: r → t ≠ [] → d ∉ t →
      strtok_result d pre s post
        (pre ++ replicate n d ++ t ++ x00 :: r ++ x00 :: post,
         S (length pre + n + length t), Some (length pre + n))%nat.

Lemma strtok_spec d pre s post :
  no_nul s → d ≠ x00 →
  strtok_result d pre s post (strtok (pre ++ s ++ x00 :: post) (length pre) d).
Proof.
  intros Hs Hd. unfold strtok. rewrite str_at_app by done.
  destruct (strspn_split s d) as (r & E & Hr). set (n := strspn s d) in *. clearbody n.
  subst s. apply no_nul_app in Hs as [Hn Hs].
  replace (pre ++ (replicate n d ++ r) ++ x00 :: post)
    with ((pre ++ replicate n d) ++ r ++ x00 :: post) by (by rewrite <-!app_assoc).
  replace (length pre + n)%nat with (length (pre ++ replicate n d))
    by (rewrite length_app, length_replicate; lia).
  rewrite mem_at_0, str_at_app by done. destruct r as [|c r'].
  { rewrite decide_True by done. rewrite app_nil_r. cbn [app].
    rewrite length_app, length_replicate.
    replace ((pre ++ replicate n d) ++ x00 :: post)
      with (pre ++ replicate n d ++ x00 :: post) by (by rewrite app_assoc).
    by apply strtok_none. }
  set (s := c :: r') in *. rewrite decide_False; last first.
  { apply no_nul_cons in Hs as [Hc _]. done. }
  unfold strcspn. destruct (strchr s d) as [i|] eqn:Ei; cbn [default from_option id].
  - apply strchr_Some in Ei as [Hi Hni].
    rewrite <-(take_drop_middle s i d Hi) in Hs, Hr |- *.
    set (t := take i s) in *. set (r := drop (S i) s) in *.
    assert (Ht : length t = i).
    { unfold t. apply length_take_le. apply lookup_lt_Some in Hi. lia. }
    clearbody t r. rewrite mem_at_app_r. rewrite <-Ht.
    rewrite <-app_assoc. cbn [app]. rewrite mem_at_0.
    rewrite decide_False by done.
    rewrite insert_app_r, <-(Nat.add_0_r (length t)), insert_app_r.
    cbn [insert list_insert]. rewrite Nat.add_0_r, <-app_assoc.
    rewrite length_app, length_replicate. apply strtok_more; [done| |done].
    intros ->. cbn in Hr. done.
  - apply strchr_None in Ei. rewrite mem_at_app_r, mem_at_0, decide_True by done.
    rewrite length_app, length_replicate, <-app_assoc.
    rewrite (app_assoc (replicate n d)). by apply strtok_last.
Qed.

(** ** [fgets] *)

Definition newline : byte := x0a.

(** At most [n] bytes, up to and including a newline. *)

Fixpoint fgets_chunk (n : nat) (file : list byte) : list byte :=
  match n, file with
  | S n', c :: file' => c :: (if decide (c = newline) then [] else fgets_chunk n' file')
  | _, _ => []
  end.

(** [fgets (line, n, file)]: the buffer after the call and what is left of the file; [None] is
    the end of the file. *)

Definition fgets (line : list byte) (n : nat) (file : list byte) : option (list byte * list byte) :=
  match file with
  | [] => None
  | _ =>
      let chunk := fgets_chunk (n - 1) file in
      Some (chunk ++ x00 :: drop (S (length chunk)) line, drop (length chunk) file)
  end.

Lemma fgets_chunk_prefix n file :
  file = fgets_chunk n file ++ drop (length (fgets_chunk n file)) file.
Proof.
  revert file. induction n as [|n IH]; intros [|c file]; cbn [fgets_chunk]; [done..|].
  destruct (decide (c = newline)) as [->|Hc]; [done|].
  cbn [length drop app]. f_equal. apply IH.
Qed.

Lemma fgets_chunk_pos n file : (0 < n)%nat → file ≠ [] → (0 < length (fgets_chunk n file))%nat.
Proof. destruct n, file; cbn; intros; [lia|lia|done|lia]. Qed.

(** A line that fits is read whole. *)

Lemma fgets_chunk_line n s r :
  newline ∉ s → (length s < n)%nat → fgets_chunk n (s ++ newline :: r) = s ++ [newline].
Proof.
  revert n. induction s as [|c s IH]; intros n Hs Hn; (destruct n as [|n]; [cbn in *; lia|]).
  - cbn [app fgets_chunk]. by rewrite decide_True.
  - apply not_elem_of_cons in Hs as [Hc Hs]. cbn [app fgets_chunk].
    rewrite decide_False by done. rewrite IH; [done|done|cbn in *; lia].
Qed.
