(* ===== verification/Error.v ===== *)
(** * Status codes (src/src/libguac/error.c, guacamole/error-types.h)

    The status codes that the other components leave in [guac_error], their
    values and their texts.  The thread-local storage of [guac_error] itself
    is that of the platform: a component that sets it carries it in its state. *)

From S2P Require Import Prelude.
Local Open Scope Z_scope.

(** [GUAC_STATUS_NOT_INPLEMENTED] is an older name of [GUAC_STATUS_NOT_IMPLEMENTED]. *)

Inductive guac_status : Type :=
| GUAC_STATUS_SUCCESS
| GUAC_STATUS_NO_MEMORY
| GUAC_STATUS_CLOSED
| GUAC_STATUS_TIMEOUT
| GUAC_STATUS_SEE_ERRNO
| GUAC_STATUS_IO_ERROR
| GUAC_STATUS_INVALID_ARGUMENT
| GUAC_STATUS_INTERNAL_ERROR
| GUAC_STATUS_NO_SPACE
| GUAC_STATUS_INPUT_TOO_LARGE
| GUAC_STATUS_RESULT_TOO_LARGE
| GUAC_STATUS_PERMISSION_DENIED
| GUAC_STATUS_BUSY
| GUAC_STATUS_NOT_AVAILABLE
| GUAC_STATUS_NOT_SUPPORTED
| GUAC_STATUS_NOT_IMPLEMENTED
| GUAC_STATUS_TRY_AGAIN
| GUAC_STATUS_PROTOCOL_ERROR
| GUAC_STATUS_NOT_FOUND
| GUAC_STATUS_CANCELED
| GUAC_STATUS_OUT_OF_RANGE
| GUAC_STATUS_REFUSED
| GUAC_STATUS_TOO_MANY
| GUAC_STATUS_WOULD_BLOCK.

#[export] Instance guac_status_eq_dec : EqDecision guac_status.
Proof. solve_decision. Defined.

Definition guac_status_value (status : guac_status) : Z :=
  match status with
  | GUAC_STATUS_SUCCESS => 0
  | GUAC_STATUS_NO_MEMORY => 1
  | GUAC_STATUS_CLOSED => 2
  | GUAC_STATUS_TIMEOUT => 3
  | GUAC_STATUS_SEE_ERRNO => 4
  | GUAC_STATUS_IO_ERROR => 5
  | GUAC_STATUS_INVALID_ARGUMENT => 6
  | GUAC_STATUS_INTERNAL_ERROR => 7
  | GUAC_STATUS_NO_SPACE => 8
  | GUAC_STATUS_INPUT_TOO_LARGE => 9
  | GUAC_STATUS_RESULT_TOO_LARGE => 10
  | GUAC_STATUS_PERMISSION_DENIED => 11
  | GUAC_STATUS_BUSY => 12
  | GUAC_STATUS_NOT_AVAILABLE => 13
  | GUAC_STATUS_NOT_SUPPORTED => 14
  | GUAC_STATUS_NOT_IMPLEMENTED => 15
  | GUAC_STATUS_TRY_AGAIN => 16
  | GUAC_STATUS_PROTOCOL_ERROR => 17
  | GUAC_STATUS_NOT_FOUND => 18
  | GUAC_STATUS_CANCELED => 19
  | GUAC_STATUS_OUT_OF_RANGE => 20
  | GUAC_STATUS_REFUSED => 21
  | GUAC_STATUS_TOO_MANY => 22
  | GUAC_STATUS_WOULD_BLOCK => 23
  end.

Definition all_statuses : list guac_status :=
  [GUAC_STATUS_SUCCESS; GUAC_STATUS_NO_MEMORY; GUAC_STATUS_CLOSED;
   GUAC_STATUS_TIMEOUT; GUAC_STATUS_SEE_ERRNO; GUAC_STATUS_IO_ERROR;
   GUAC_STATUS_INVALID_ARGUMENT; GUAC_STATUS_INTERNAL_ERROR; GUAC_STATUS_NO_SPACE;
   GUAC_STATUS_INPUT_TOO_LARGE; GUAC_STATUS_RESULT_TOO_LARGE; GUAC_STATUS_PERMISSION_DENIED;
   GUAC_STATUS_BUSY; GUAC_STATUS_NOT_AVAILABLE; GUAC_STATUS_NOT_SUPPORTED;
   GUAC_STATUS_NOT_IMPLEMENTED; GUAC_STATUS_TRY_AGAIN; GUAC_STATUS_PROTOCOL_ERROR;
   GUAC_STATUS_NOT_FOUND; GUAC_STATUS_CANCELED; GUAC_STATUS_OUT_OF_RANGE;
   GUAC_STATUS_REFUSED; GUAC_STATUS_TOO_MANY; GUAC_STATUS_WOULD_BLOCK].

(** The status of a value, if it has one. *)

Definition guac_status_of_value (v : Z) : option guac_status :=
  list_find (λ s, guac_status_value s = v) all_statuses ≫= λ '(_, s), Some s.

(** [strerror] is the text the C library has for [errno]. *)

Definition guac_status_string (strerror : list byte) (status : Z) : list byte :=
  match guac_status_of_value status with
  | Some GUAC_STATUS_SUCCESS => lit "Success"
  | Some GUAC_STATUS_NO_MEMORY => lit "Insufficient memory"
  | Some GUAC_STATUS_CLOSED => lit "Closed"
  | Some GUAC_STATUS_TIMEOUT => lit "Timed out"
  | Some GUAC_STATUS_SEE_ERRNO => strerror
  | Some GUAC_STATUS_IO_ERROR => lit "Input/output error"
  | Some GUAC_STATUS_INVALID_ARGUMENT => lit "Invalid argument"
  | Some GUAC_STATUS_INTERNAL_ERROR => lit "Internal error"
  | Some GUAC_STATUS_NO_SPACE => lit "Insufficient space"
  | Some GUAC_STATUS_INPUT_TOO_LARGE => lit "Input too large"
  | Some GUAC_STATUS_RESULT_TOO_LARGE => lit "Result too large"
  | Some GUAC_STATUS_PERMISSION_DENIED => lit "Permission denied"
  | Some GUAC_STATUS_BUSY => lit "Resource busy"
  | Some GUAC_STATUS_NOT_AVAILABLE => lit "Resource not available"
  | Some GUAC_STATUS_NOT_SUPPORTED => lit "Not supported"
  | Some GUAC_STATUS_NOT_IMPLEMENTED => lit "Not implemented"
  | Some GUAC_STATUS_TRY_AGAIN => lit "Temporary failure"
  | Some GUAC_STATUS_PROTOCOL_ERROR => lit "Protocol violation"
  | Some GUAC_STATUS_NOT_FOUND => lit "Not found"
  | Some GUAC_STATUS_CANCELED => lit "Canceled"
  | Some GUAC_STATUS_OUT_OF_RANGE => lit "Value out of range"
  | Some GUAC_STATUS_REFUSED => lit "Operation refused"
  | Some GUAC_STATUS_TOO_MANY => lit "Insufficient resources"
  | Some GUAC_STATUS_WOULD_BLOCK => lit "Operation would block"
  | None => lit "UNKNOWN STATUS CODE"
  end.

Lemma status_of_value s : guac_status_of_value (guac_status_value s) = Some s.
Proof. by destruct s. Qed.

(** The texts tell the statuses apart, provided that of [errno] is none of them. *)

Lemma status_string_inj strerror s1 s2 :
  (∀ s, s ≠ GUAC_STATUS_SEE_ERRNO →
     strerror ≠ guac_status_string strerror (guac_status_value s)) →
  guac_status_string strerror (guac_status_value s1)
  = guac_status_string strerror (guac_status_value s2) → s1 = s2.
Proof.
  intros Hs. pose proof (Hs s1) as H1. pose proof (Hs s2) as H2. clear Hs.
  unfold guac_status_string in *. rewrite !status_of_value in *.
  destruct s1, s2; intros E; first [reflexivity|discriminate E|exfalso; eauto using eq_sym|exfalso].
  all: (by apply H1) || (by apply H2).
Qed.
