(* ===== verification/CFormat.v ===== *)
(** * The conversions of C's formatted output that libguac relies on

    [snprintf] with the conversions [%d]/[PRIi64], [%02X] and [%.16g], as the
    C standard defines them.  Protocol elements are built from their results,
    so what matters downstream is proved here: the digits read back to the
    number, and every byte produced is a printable ASCII character. *)

From S2P Require Import Prelude.
From Stdlib Require Import Floats.SpecFloat.
Local Open Scope Z_scope.

(** ** Decimal integers *)

(** The decimal digits of [n], most significant first; [fuel] bounds their number. *)

Fixpoint dec_aux (fuel : nat) (n : Z) (acc : list byte) : list byte :=
  match fuel with
  | O => acc
  | S fuel' =>
      let acc' := zb (48 + n `mod` 10) :: acc in
      if n <? 10 then acc' else dec_aux fuel' (n `div` 10) acc'
  end.

(** A number has no more decimal than binary digits. *)

Definition dec (n : Z) : list byte := dec_aux (S (Z.to_nat (Z.log2 n))) n [].

Definition fmt_d (n : Z) : list byte :=
  if n <? 0 then lit "-" ++ dec (- n) else dec n.

(** The value of a string of digits, the accumulated value on its left. *)

Definition digit_value (c : byte) : Z := bz c - 48.
Definition dec_value (acc : Z) (s : list byte) : Z :=
  foldl (λ a c, a * 10 + digit_value c) acc s.

Definition is_digit (c : byte) : bool := (48 <=? bz c) && (bz c <=? 57).

(** Printable ASCII. *)

Definition is_print (c : byte) : bool := (32 <=? bz c) && (bz c <? 127).

(** [snprintf(buffer, n, ...)] stores at most [n - 1] bytes of its output. *)

Definition snprintf (n : nat) (s : list byte) : list byte := take (n - 1) s.

(** ** Hexadecimal: [%02X] applied to an [int] *)

Definition hex_digit (v : Z) : byte :=
  if v <? 10 then zb (48 + v) else zb (55 + v).

Fixpoint hex_aux (fuel : nat) (n : Z) (acc : list byte) : list byte :=
  match fuel with
  | O => acc
  | S fuel' =>
      let acc' := hex_digit (n `mod` 16) :: acc in
      if n <? 16 then acc' else hex_aux fuel' (n `div` 16) acc'
  end.

(** The argument of [%X] is reinterpreted as an [unsigned int]: at most 8 digits. *)

Definition fmt_02X (n : Z) : list byte :=
  let s := hex_aux 8 (u32 n) [] in
  replicate (2 - length s) x30 ++ s.

(** ** [%.16g]

    A [double] is a [spec_float]; its magnitude is the fraction [num/den]. *)

Fixpoint count_tenfold (fuel : nat) (num den : Z) : Z :=
  match fuel with
  | O => 0
  | S fuel' => if den <=? num then 0 else 1 + count_tenfold fuel' (num * 10) den
  end.

(** The decimal exponent of [num/den], as [%e] would print it without rounding. *)

Definition exponent10 (num den : Z) : Z :=
  if den <=? num then Z.of_nat (length (dec (num `div` den))) - 1
  else - count_tenfold (S (Z.to_nat (Z.log2 den))) num den.

Definition round_half_even (num den : Z) : Z :=
  let q := num `div` den in
  let r := num `mod` den in
  if 2 * r <? den then q
  else if den <? 2 * r then q + 1
  else if Z.even q then q else q + 1.

(** Trailing zeros, and a decimal point left without decimals, are removed. *)

Fixpoint drop_leading (c : byte) (s : list byte) : list byte :=
  match s with
  | d :: s' => if decide (d = c) then drop_leading c s' else s
  | [] => []
  end.

Definition strip_zeros (s : list byte) : list byte := rev (drop_leading x30 (rev s)).

(** [point l r]: the digits [l], then a point and the digits [r] unless these are all zeros. *)

Definition point (l r : list byte) : list byte :=
  match strip_zeros r with
  | [] => l
  | r' => l ++ lit "." ++ r'
  end.

Definition fmt_exp (x : Z) : list byte :=
  let s := dec (Z.abs x) in
  lit "e" ++ (if x <? 0 then lit "-" else lit "+")
    ++ replicate (2 - length s) x30 ++ s.

Definition fmt_g16_pos (num den : Z) : list byte :=
  let x0 := exponent10 num den in
  let n0 := round_half_even (num * 10 ^ Z.max 0 (15 - x0))
                            (den * 10 ^ Z.max 0 (x0 - 15)) in
  let x := if n0 =? 10 ^ 16 then x0 + 1 else x0 in
  let ds := dec (if n0 =? 10 ^ 16 then 10 ^ 15 else n0) in
  if (-4 <=? x) && (x <? 16) then
    if 0 <=? x then point (take (Z.to_nat (x + 1)) ds) (drop (Z.to_nat (x + 1)) ds)
    else point (lit "0") (replicate (Z.to_nat (- x - 1)) x30 ++ ds)
  else point (take 1 ds) (drop 1 ds) ++ fmt_exp x.

Definition fmt_g16 (d : spec_float) : list byte :=
  match d with
  | S754_nan => lit "nan"
  | S754_infinity s => (if s then lit "-" else []) ++ lit "inf"
  | S754_zero s => (if s then lit "-" else []) ++ lit "0"
  | S754_finite s m e =>
      (if s then lit "-" else [])
        ++ fmt_g16_pos (Zpos m * 2 ^ Z.max 0 e) (2 ^ Z.max 0 (- e))
  end.

(** ** Sample conversions *)

Example fmt_d_samples :
  fmt_d 0 = lit "0" ∧ fmt_d 1234567890 = lit "1234567890" ∧
  fmt_d (- 2 ^ 63) = lit "-9223372036854775808".
Proof. vm_compute. done. Qed.

Example fmt_02X_samples :
  fmt_02X 32 = lit "20" ∧ fmt_02X 5 = lit "05" ∧ fmt_02X (-61) = lit "FFFFFFC3".
Proof. vm_compute. done. Qed.

(** [0.1], [-2.5], [1e+22], [1.5e-05], [3.141592653589793] and the largest double. *)

Example fmt_g16_samples :
  fmt_g16 (S754_finite false 7205759403792794 (-56)) = lit "0.1" ∧
  fmt_g16 (S754_finite true 5 (-1)) = lit "-2.5" ∧
  fmt_g16 (S754_finite false 4768371582031250 21) = lit "1e+22" ∧
  fmt_g16 (S754_finite false 8854437155380585 (-69)) = lit "1.5e-05" ∧
  fmt_g16 (S754_finite false 7074237752028440 (-51)) = lit "3.141592653589793" ∧
  fmt_g16 (S754_finite false 9007199254740991 971) = lit "1.797693134862316e+308".
Proof. vm_compute. done. Qed.

(** ** Decimal digits read back *)

Lemma is_digit_zb r : 0 ≤ r < 10 → is_digit (zb (48 + r)) = true.
Proof. intros. unfold is_digit. rewrite bz_zb_small by lia. lia. Qed.

Lemma is_digit_spec c : is_digit c = true ↔ 48 ≤ bz c ≤ 57.
Proof. unfold is_digit. lia. Qed.

Lemma is_digit_print c : is_digit c = true → is_print c = true.
Proof. unfold is_digit, is_print. lia. Qed.

Lemma digits_print s :
  Forall (λ c, is_digit c = true) s → Forall (λ c, is_print c = true) s.
Proof. intros H. induction H; constructor; auto using is_digit_print. Qed.

Lemma is_print_no_nul s : Forall (λ c, is_print c = true) s → no_nul s.
Proof. apply Forall_impl. by intros c Hc ->. Qed.

Lemma dec_aux_app fuel n acc : dec_aux fuel n acc = dec_aux fuel n [] ++ acc.
Proof.
  revert n acc. induction fuel as [|fuel IH]; intros n acc; [done|].
  cbn [dec_aux]. zif; [done|].
  rewrite IH, (IH _ [_]), <-app_assoc. done.
Qed.

Lemma dec_aux_digits fuel n :
  0 ≤ n → Forall (λ c, is_digit c = true) (dec_aux fuel n []).
Proof.
  revert n. induction fuel as [|fuel IH]; intros n Hn; [constructor|].
  pose proof (Z.mod_pos_bound n 10 ltac:(lia)).
  assert (Forall (λ c, is_digit c = true) [zb (48 + n `mod` 10)]).
  { repeat constructor. by apply is_digit_zb. }
  cbn [dec_aux]. zif; [done|].
  rewrite dec_aux_app. apply Forall_app. split; [|done].
  apply IH. apply Z.div_pos; lia.
Qed.

Lemma dec_value_app acc s t : dec_value acc (s ++ t) = dec_value (dec_value acc s) t.
Proof. apply foldl_app. Qed.

Lemma pow10_succ fuel : 10 ^ Z.of_nat (S fuel) = 10 * 10 ^ Z.of_nat fuel.
Proof. rewrite Nat2Z.inj_succ, Z.pow_succ_r by lia. done. Qed.

Lemma dec_aux_value fuel n :
  0 ≤ n < 10 ^ Z.of_nat fuel → dec_value 0 (dec_aux fuel n []) = n.
Proof.
  revert n. induction fuel as [|fuel IH]; intros n Hn.
  { cbn in *. lia. }
  rewrite pow10_succ in Hn. pose proof (Z.div_mod n 10 ltac:(lia)).
  pose proof (Z.mod_pos_bound n 10 ltac:(lia)).
  cbn [dec_aux]. zif.
  - cbn. unfold digit_value. rewrite bz_zb_small, Z.mod_small by lia. lia.
  - rewrite dec_aux_app, dec_value_app, IH.
    + cbn. unfold digit_value. rewrite bz_zb_small by lia. lia.
    + split; [apply Z.div_pos; lia | apply Z.div_lt_upper_bound; lia].
Qed.

Lemma dec_aux_length fuel n k :
  0 ≤ n < 10 ^ Z.of_nat (S k) → (length (dec_aux fuel n []) ≤ S k)%nat.
Proof.
  revert n k. induction fuel as [|fuel IH]; intros n k Hn; [cbn; lia|].
  cbn [dec_aux]. zif; [cbn; lia|].
  destruct k as [|k]; [cbn in *; lia|].
  rewrite dec_aux_app, length_app. cbn [length].
  enough (length (dec_aux fuel (n `div` 10) []) ≤ S k)%nat by lia.
  apply IH. rewrite pow10_succ in Hn.
  split; [apply Z.div_pos; lia | apply Z.div_lt_upper_bound; lia].
Qed.

Lemma dec_fuel n : 0 ≤ n → n < 10 ^ Z.of_nat (S (Z.to_nat (Z.log2 n))).
Proof.
  intros Hn. destruct (decide (n = 0)) as [->|]; [done|].
  pose proof (Z.log2_spec n ltac:(lia)) as [_ Hlt].
  pose proof (Z.log2_nonneg n).
  rewrite Nat2Z.inj_succ, Z2Nat.id by done.
  eapply Z.lt_le_trans; [done|]. apply Z.pow_le_mono_l. lia.
Qed.

Lemma dec_digits n : 0 ≤ n → Forall (λ c, is_digit c = true) (dec n).
Proof. apply dec_aux_digits. Qed.

Lemma dec_read_back n : 0 ≤ n → dec_value 0 (dec n) = n.
Proof. intros Hn. apply dec_aux_value. split; [done | by apply dec_fuel]. Qed.

Lemma dec_length n k : 0 ≤ n < 10 ^ Z.of_nat (S k) → (length (dec n) ≤ S k)%nat.
Proof. apply dec_aux_length. Qed.

Lemma dec_nonempty n : dec n ≠ [].
Proof.
  unfold dec. cbn [dec_aux]. zif; [done|].
  rewrite dec_aux_app. by destruct (dec_aux _ _ []).
Qed.

Lemma fmt_d_nonneg n : 0 ≤ n → fmt_d n = dec n.
Proof. intros. unfold fmt_d. zif; [lia|done]. Qed.

(** Reading digits never decreases the value read so far. *)

Lemma dec_value_mono acc s :
  0 ≤ acc → Forall (λ c, is_digit c = true) s → acc ≤ dec_value acc s.
Proof.
  intros Ha Hs. revert acc Ha. induction Hs as [|c s Hc Hs IH]; intros acc Ha; [done|].
  cbn. apply is_digit_spec in Hc.
  etransitivity; [|apply IH; unfold digit_value; lia].
  unfold digit_value. lia.
Qed.

(** ** Printable output *)

Lemma fmt_d_print n : Forall (λ c, is_print c = true) (fmt_d n).
Proof.
  unfold fmt_d. zif.
  - apply Forall_app. split; [by repeat constructor|].
    apply digits_print, dec_digits. lia.
  - apply digits_print, dec_digits. lia.
Qed.

Lemma fmt_d_length n : is_i64 n → (length (fmt_d n) ≤ 20)%nat.
Proof.
  unfold is_i64. intros Hn. unfold fmt_d.
  assert (Hd : ∀ m, 0 ≤ m ≤ 2 ^ 63 → (length (dec m) ≤ 19)%nat).
  { intros m Hm. apply dec_length. change (10 ^ Z.of_nat 19) with 10000000000000000000. lia. }
  zif.
  - rewrite length_app. pose proof (Hd (- n) ltac:(lia)). change (length (lit "-")) with 1%nat. lia.
  - pose proof (Hd n ltac:(lia)). lia.
Qed.

Lemma snprintf_fmt_d n k : is_i64 n → (21 ≤ k)%nat → snprintf k (fmt_d n) = fmt_d n.
Proof.
  intros Hn Hk. unfold snprintf. apply take_ge. pose proof (fmt_d_length n Hn). lia.
Qed.

Lemma drop_leading_Forall (P : byte → Prop) c s :
  Forall P s → Forall P (drop_leading c s).
Proof.
  induction 1 as [|d s Hd Hs IH]; [constructor|].
  cbn. case_decide; [done|]. by constructor.
Qed.

Lemma strip_zeros_Forall (P : byte → Prop) s : Forall P s → Forall P (strip_zeros s).
Proof.
  intros Hs. unfold strip_zeros. apply Forall_rev, drop_leading_Forall.
  by apply Forall_rev.
Qed.

Lemma point_print l r :
  Forall (λ c, is_print c = true) l → Forall (λ c, is_print c = true) r →
  Forall (λ c, is_print c = true) (point l r).
Proof.
  intros Hl Hr. apply strip_zeros_Forall in Hr. unfold point.
  destruct (strip_zeros r); [done|].
  repeat (apply Forall_app; split); [done|by repeat constructor|done].
Qed.

Lemma dec_print n : 0 ≤ n → Forall (λ c, is_print c = true) (dec n).
Proof. intros. by apply digits_print, dec_digits. Qed.

Lemma zeros_print k : Forall (λ c, is_print c = true) (replicate k x30).
Proof. by apply Forall_replicate. Qed.

#[export] Hint Resolve fmt_d_print point_print dec_print zeros_print : guac.

Lemma fmt_exp_print x : Forall (λ c, is_print c = true) (fmt_exp x).
Proof.
  unfold fmt_exp. repeat (apply Forall_app; split); auto with guac lia.
  - by repeat constructor.
  - by zif; repeat constructor.
Qed.

Lemma round_half_even_nonneg num den :
  0 ≤ num → 0 < den → 0 ≤ round_half_even num den.
Proof.
  intros. pose proof (Z.div_pos num den). unfold round_half_even.
  repeat zif; lia.
Qed.

Lemma fmt_g16_pos_print num den :
  0 ≤ num → 0 < den → Forall (λ c, is_print c = true) (fmt_g16_pos num den).
Proof.
  intros Hn Hd. unfold fmt_g16_pos.
  set (n0 := round_half_even _ _).
  assert (0 ≤ n0).
  { apply round_half_even_nonneg.
    - apply Z.mul_nonneg_nonneg; [done|]. apply Z.pow_nonneg. lia.
    - apply Z.mul_pos_pos; [done|]. apply Z.pow_pos_nonneg; lia. }
  set (x := if n0 =? 10 ^ 16 then _ else _).
  set (ds := dec _).
  assert (Forall (λ c, is_print c = true) ds).
  { apply dec_print. zif; lia. }
  clearbody ds x.
  destruct ((-4 <=? x) && (x <? 16)); [destruct (0 <=? x)|].
  - apply point_print; [by apply Forall_take | by apply Forall_drop].
  - apply point_print; [by repeat constructor|]. apply Forall_app. auto with guac.
  - apply Forall_app. split; [|apply fmt_exp_print].
    apply point_print; [by apply Forall_take | by apply Forall_drop].
Qed.

Lemma fmt_g16_print d : Forall (λ c, is_print c = true) (fmt_g16 d).
Proof.
  destruct d as [s|s| |s m e]; try (destruct s; by repeat constructor); [|].
  { by repeat constructor. }
  apply Forall_app. split; [destruct s; by repeat constructor|].
  apply fmt_g16_pos_print.
  - apply Z.mul_nonneg_nonneg; [done|]. apply Z.pow_nonneg. lia.
  - apply Z.pow_pos_nonneg; lia.
Qed.

Lemma snprintf_print n s :
  Forall (λ c, is_print c = true) s → Forall (λ c, is_print c = true) (snprintf n s).
Proof. apply Forall_take. Qed.

#[export] Hint Resolve fmt_g16_print snprintf_print is_print_no_nul : guac.
