(* ===== verification/Unicode.v ===== *)
(** * UTF-8 (src/src/libguac/unicode.c)

    [guac_utf8_charsize], [guac_utf8_strlen], [guac_utf8_write] and
    [guac_utf8_read].  The length prefixes of the Guacamole protocol count
    characters with these functions, so the last part relates the count to
    the bytes: [complete n s] says that [s] splits into exactly [n]
    characters. *)

From S2P Require Import Prelude.
From S2P Require Import CFormat.
Local Open Scope Z_scope.

(** ** The code *)

Definition guac_utf8_charsize (c : byte) : Z :=
  if Z.lor (bz c) 0x7F =? 0x7F then 1
  else if Z.lor (bz c) 0x1F =? 0xDF then 2
  else if Z.lor (bz c) 0x0F =? 0xEF then 3
  else if Z.lor (bz c) 0x07 =? 0xF7 then 4
  else 1.

(** The loop of [guac_utf8_strlen] over the bytes from [str] on. *)

Fixpoint utf8_strlen_loop (str : list byte) (length skip : Z) : Z :=
  match str with
  | [] => length
  | x00 :: _ => length
  | c :: str' =>
      if 0 <? skip then utf8_strlen_loop str' length (skip - 1)
      else utf8_strlen_loop str' (i32 (length + 1)) (guac_utf8_charsize c - 1)
  end.

Definition guac_utf8_strlen (str : list byte) : Z := utf8_strlen_loop str 0 0.

(** The trailing bytes are stored from the last to the first: the result is the
    remaining code point and the bytes in the order of the buffer. *)

Fixpoint utf8_write_trailing (n : nat) (codepoint : Z) (stored : list byte)
    : Z * list byte :=
  match n with
  | O => (codepoint, stored)
  | S n' =>
      utf8_write_trailing n' (Z.shiftr codepoint 6)
        (zb (Z.lor 0x80 (Z.land codepoint 0x3F)) :: stored)
  end.

(** The result is the value returned and the bytes stored from [utf8] on. *)

Definition guac_utf8_write (codepoint length : Z) : Z * list byte :=
  if length <=? 0 then (0, [])
  else
    let put mask bytes :=
      if length <? bytes then (0, [])
      else
        let '(codepoint', stored) :=
          utf8_write_trailing (Z.to_nat (bytes - 1)) codepoint [] in
        (bytes, zb (Z.lor mask codepoint') :: stored)
    in
    if codepoint <=? 0x7F then put 0x00 1
    else if codepoint <=? 0x7FF then put 0xC0 2
    else if codepoint <=? 0xFFFF then put 0xE0 3
    else if codepoint <=? 0x1FFFFF then put 0xF0 4
    else (1, lit "?").

Fixpoint utf8_read_trailing (n : nat) (utf8 : list byte) (result : Z) : Z :=
  match n with
  | O => result
  | S n' =>
      utf8_read_trailing n' (tail utf8)
        (Z.lor (Z.shiftl result 6) (Z.land (bz (utf8 !!! 0%nat)) 0x3F))
  end.

(** The result is the value returned and what is stored through [codepoint], if anything is. *)

Definition guac_utf8_read (utf8 : list byte) (length : Z) : Z * option Z :=
  if length <=? 0 then (0, None)
  else
    let initial := bz (utf8 !!! 0%nat) in
    let get result bytes :=
      if length <? bytes then (0, None)
      else (bytes, Some (utf8_read_trailing (Z.to_nat (bytes - 1)) (tail utf8) result))
    in
    if Z.lor initial 0x7F =? 0x7F then get initial 1
    else if Z.lor initial 0x1F =? 0xDF then get (Z.land initial 0x1F) 2
    else if Z.lor initial 0x0F =? 0xEF then get (Z.land initial 0x0F) 3
    else if Z.lor initial 0x07 =? 0xF7 then get (Z.land initial 0x07) 4
    else (1, Some 0xFFFD).

(** ** Strings that split into whole characters *)

Inductive complete : nat → list byte → Prop :=
| complete_nil : complete 0 []
| complete_char n c cs s :
    Z.of_nat (S (length cs)) = guac_utf8_charsize c →
    complete n s → complete (S n) ((c :: cs) ++ s).

(** ** Bytes of a character *)

Lemma charsize_range c : 1 ≤ guac_utf8_charsize c ≤ 4.
Proof.
  enough ((1 <=? guac_utf8_charsize c) && (guac_utf8_charsize c <=? 4) = true) by lia.
  revert c. byte_check.
Qed.

Lemma charsize_print c : is_print c = true → guac_utf8_charsize c = 1.
Proof.
  intros Hc.
  enough (implb (is_print c) (guac_utf8_charsize c =? 1) = true) as H.
  { rewrite Hc in H. cbn in H. lia. }
  clear Hc. revert c. byte_check.
Qed.

Lemma lor_shiftl_6 r x : 0 ≤ x < 64 → Z.lor (Z.shiftl r 6) x = 64 * r + x.
Proof. intros Hx. by apply (lor_shiftl 6). Qed.

Lemma land_3F x : Z.land x 0x3F = x `mod` 64.
Proof. change 0x3F with (Z.ones 6). by rewrite Z.land_ones by lia. Qed.

(** The trailing byte stored for the low six bits of a code point reads back to them. *)

Lemma trailing_byte cp :
  Z.land (bz (zb (Z.lor 0x80 (Z.land cp 0x3F)))) 0x3F = cp `mod` 64.
Proof.
  rewrite (land_3F cp). apply Z.eqb_eq.
  pose proof (Z.mod_pos_bound cp 64 ltac:(lia)) as Hm. revert Hm.
  generalize (cp `mod` 64). intros x Hx.
  apply (range_forall (λ x, Z.land (bz (zb (Z.lor 0x80 x))) 0x3F =? x) 0 64); [|lia].
  vm_compute. reflexivity.
Qed.

Lemma trailing_step r cp rest :
  Z.lor (Z.shiftl r 6)
    (Z.land (bz ((zb (Z.lor 0x80 (Z.land cp 0x3F)) :: rest) !!! 0%nat)) 0x3F)
  = 64 * r + cp `mod` 64.
Proof.
  change (?a :: _) with ([a] ++ rest). cbn [lookup_total list_lookup_total app].
  rewrite trailing_byte. apply lor_shiftl_6. apply Z.mod_pos_bound. lia.
Qed.

(** What [guac_utf8_read] finds in the initial byte of a character of 1 to 4 bytes. *)

Lemma initial_byte_1 x : 0 ≤ x < 128 →
  let i := bz (zb (Z.lor 0 x)) in Z.lor i 0x7F = 0x7F ∧ i = x.
Proof.
  intros Hx i. subst i. rewrite bz_zb_small; rewrite Z.lor_0_l; [|lia].
  split; [|done]. apply Z.eqb_eq.
  apply (range_forall (λ x, Z.lor x 0x7F =? 0x7F) 0 128); [vm_compute; done | lia].
Qed.

Lemma initial_byte_2 x : 0 ≤ x < 32 →
  let i := bz (zb (Z.lor 0xC0 x)) in
  (Z.lor i 0x7F =? 0x7F) = false ∧ (Z.lor i 0x1F =? 0xDF) = true ∧ Z.land i 0x1F = x.
Proof.
  intros Hx i. subst i.
  pose proof (range_forall (λ x, let i := bz (zb (Z.lor 0xC0 x)) in
    negb (Z.lor i 0x7F =? 0x7F) && (Z.lor i 0x1F =? 0xDF) && (Z.land i 0x1F =? x))
    0 32 eq_refl x ltac:(lia)) as H.
  cbn zeta in H. rewrite !andb_true_iff, !negb_true_iff, (Z.eqb_eq _ x) in H. tauto.
Qed.

Lemma initial_byte_3 x : 0 ≤ x < 16 →
  let i := bz (zb (Z.lor 0xE0 x)) in
  (Z.lor i 0x7F =? 0x7F) = false ∧ (Z.lor i 0x1F =? 0xDF) = false ∧
  (Z.lor i 0x0F =? 0xEF) = true ∧ Z.land i 0x0F = x.
Proof.
  intros Hx i. subst i.
  pose proof (range_forall (λ x, let i := bz (zb (Z.lor 0xE0 x)) in
    negb (Z.lor i 0x7F =? 0x7F) && negb (Z.lor i 0x1F =? 0xDF)
    && (Z.lor i 0x0F =? 0xEF) && (Z.land i 0x0F =? x)) 0 16 eq_refl x ltac:(lia)) as H.
  cbn zeta in H. rewrite !andb_true_iff, !negb_true_iff, (Z.eqb_eq _ x) in H. tauto.
Qed.

Lemma initial_byte_4 x : 0 ≤ x < 8 →
  let i := bz (zb (Z.lor 0xF0 x)) in
  (Z.lor i 0x7F =? 0x7F) = false ∧ (Z.lor i 0x1F =? 0xDF) = false ∧
  (Z.lor i 0x0F =? 0xEF) = false ∧ (Z.lor i 0x07 =? 0xF7) = true ∧ Z.land i 0x07 = x.
Proof.
  intros Hx i. subst i.
  pose proof (range_forall (λ x, let i := bz (zb (Z.lor 0xF0 x)) in
    negb (Z.lor i 0x7F =? 0x7F) && negb (Z.lor i 0x1F =? 0xDF)
    && negb (Z.lor i 0x0F =? 0xEF) && (Z.lor i 0x07 =? 0xF7) && (Z.land i 0x07 =? x))
    0 8 eq_refl x ltac:(lia)) as H.
  cbn zeta in H. rewrite !andb_true_iff, !negb_true_iff, (Z.eqb_eq _ x) in H. tauto.
Qed.

(** ** Round trip *)

Lemma read_trailing_cons n b rest r :
  utf8_read_trailing (S n) (b :: rest) r
  = utf8_read_trailing n rest (Z.lor (Z.shiftl r 6) (Z.land (bz b) 0x3F)).
Proof. done. Qed.

Lemma read_trailing_written n cp rest r :
  utf8_read_trailing (S n) (zb (Z.lor 0x80 (Z.land cp 0x3F)) :: rest) r
  = utf8_read_trailing n rest (64 * r + cp `mod` 64).
Proof.
  rewrite read_trailing_cons, trailing_byte, lor_shiftl_6; [done|].
  apply Z.mod_pos_bound. lia.
Qed.

Lemma shiftr_6 x : Z.shiftr x 6 = x `div` 64.
Proof. by rewrite Z.shiftr_div_pow2. Qed.

(** A code point of the range UTF-8 can encode, written to a buffer that has room for it, is
    read back from the bytes stored, whatever follows them. *)

Theorem utf8_write_read cp length n s rest length' :
  0 ≤ cp ≤ 0x1FFFFF →
  guac_utf8_write cp length = (n, s) → 0 < n → n ≤ length' →
  guac_utf8_read (s ++ rest) length' = (n, Some cp).
Proof.
  intros Hcp Hw Hn Hl. unfold guac_utf8_write in Hw.
  destruct (length <=? 0); [simplify_eq; lia|].
  unfold guac_utf8_read. destruct (Z.leb_spec length' 0); [lia|].
  destruct (Z.leb_spec cp 0x7F); [|destruct (Z.leb_spec cp 0x7FF);
    [|destruct (Z.leb_spec cp 0xFFFF); [|destruct (Z.leb_spec cp 0x1FFFFF); [|lia]]]];
    (case_match eqn:Hlen; [simplify_eq; lia|]);
    injection Hw as <- <-; cbn [app tail lookup_total list_lookup_total]; rewrite ?shiftr_6.
  - destruct (initial_byte_1 cp ltac:(lia)) as [-> ->].
    rewrite Z.eqb_refl. zif; [lia|]. done.
  - destruct (initial_byte_2 (cp `div` 64) ltac:(dlia)) as (-> & -> & ->).
    zif; [lia|]. change (Z.to_nat (2 - 1)) with 1%nat.
    rewrite read_trailing_written. do 2 f_equal. cbn. dlia.
  - destruct (initial_byte_3 ((cp `div` 64) `div` 64) ltac:(dlia)) as (-> & -> & -> & ->).
    zif; [lia|]. change (Z.to_nat (3 - 1)) with 2%nat.
    rewrite !read_trailing_written. do 2 f_equal. cbn. dlia.
  - destruct (initial_byte_4 (((cp `div` 64) `div` 64) `div` 64) ltac:(dlia))
      as (-> & -> & -> & -> & ->).
    zif; [lia|]. change (Z.to_nat (4 - 1)) with 3%nat.
    rewrite !read_trailing_written. do 2 f_equal. cbn. dlia.
Qed.

Lemma utf8_write_read_witness :
  guac_utf8_write 0x20AC 4 = (3, [xe2; x82; xac]) ∧
  guac_utf8_read ([xe2; x82; xac] ++ [x41]) 3 = (3, Some 0x20AC).
Proof.
  split; [reflexivity|]. apply (utf8_write_read 0x20AC 4); [lia|reflexivity|lia|lia].
Defined.

Lemma utf8_write_trailing_length n cp acc :
  length (utf8_write_trailing n cp acc).2 = (n + length acc)%nat.
Proof.
  revert cp acc. induction n as [|n IH]; intros cp acc; [done|].
  cbn [utf8_write_trailing]. rewrite IH. cbn. lia.
Qed.

(** [guac_utf8_write] returns the number of bytes it stores, at most [length] and at most four;
    it stores a whole character or nothing, and four bytes of room are always enough. *)

Theorem utf8_write_bounds cp len :
  let '(n, s) := guac_utf8_write cp len in
  n = Z.of_nat (length s) ∧ 0 ≤ n ≤ Z.max 0 len ∧ n ≤ 4 ∧ (0 < len → 4 ≤ len → 0 < n).
Proof.
  assert (Hput : ∀ k mask, 1 ≤ k ≤ 4 → 0 < len →
    let '(n, s) := if len <? k then (0, []) else
      let '(cp', stored) := utf8_write_trailing (Z.to_nat (k - 1)) cp [] in
      (k, zb (Z.lor mask cp') :: stored) in
    n = Z.of_nat (length s) ∧ 0 ≤ n ≤ Z.max 0 len ∧ n ≤ 4 ∧ (0 < len → 4 ≤ len → 0 < n)).
  { intros k mask Hk Hlen. zif; [cbn; lia|].
    pose proof (utf8_write_trailing_length (Z.to_nat (k - 1)) cp []) as Hl.
    destruct (utf8_write_trailing _ _ _) as [cp' stored]. cbn in *. lia. }
  unfold guac_utf8_write. zif; [cbn; lia|]. repeat (zif; [by apply Hput; lia|]).
  cbn. lia.
Qed.

(** ** Counting characters *)

Lemma complete_app n m s t : complete n s → complete m t → complete (n + m) (s ++ t).
Proof.
  induction 1 as [|n c cs s Hc Hs IH]; intros Ht; [done|].
  rewrite <-app_assoc. constructor; [done|]. by apply IH.
Qed.

Lemma complete_ascii s : Forall (λ c, is_print c = true) s → complete (length s) s.
Proof.
  induction 1 as [|c s Hc Hs IH]; [constructor|].
  apply (complete_char _ c []); [|done]. by rewrite charsize_print.
Qed.

Lemma complete_length n s : complete n s → (n ≤ length s)%nat.
Proof. induction 1; [done|]. rewrite length_app. cbn. lia. Qed.

Lemma strlen_skip cs s len :
  no_nul cs → utf8_strlen_loop (cs ++ s) len (Z.of_nat (length cs)) = utf8_strlen_loop s len 0.
Proof.
  induction 1 as [|c cs Hc Hcs IH]; [done|].
  assert (E : utf8_strlen_loop ((c :: cs) ++ s) len (Z.of_nat (length (c :: cs)))
    = if 0 <? Z.of_nat (length (c :: cs))
      then utf8_strlen_loop (cs ++ s) len (Z.of_nat (length (c :: cs)) - 1)
      else utf8_strlen_loop (cs ++ s) (i32 (len + 1)) (guac_utf8_charsize c - 1))
    by (by destruct c).
  rewrite E. zif; [|cbn in *; lia].
  rewrite <-IH. f_equal. cbn. lia.
Qed.

Lemma strlen_char c cs s len :
  no_nul (c :: cs) → Z.of_nat (S (length cs)) = guac_utf8_charsize c →
  utf8_strlen_loop ((c :: cs) ++ s) len 0 = utf8_strlen_loop s (i32 (len + 1)) 0.
Proof.
  intros [Hc Hcs]%no_nul_cons Hsize.
  assert (E : utf8_strlen_loop ((c :: cs) ++ s) len 0
    = utf8_strlen_loop (cs ++ s) (i32 (len + 1)) (guac_utf8_charsize c - 1))
    by (by destruct c).
  rewrite E, <-Hsize, <-(strlen_skip cs s) by done. f_equal. lia.
Qed.

Lemma strlen_loop_complete n s len :
  complete n s → no_nul s → 0 ≤ len → len + Z.of_nat n ≤ INT_MAX →
  utf8_strlen_loop s len 0 = len + Z.of_nat n.
Proof.
  intros Hs. revert len. induction Hs as [|n c cs s Hc Hs IH]; intros len Hn Hlen Hmax.
  { cbn. lia. }
  apply no_nul_app in Hn as [Hn Hn'].
  rewrite strlen_char by done. unfold INT_MAX in *.
  rewrite i32_small by (unfold is_i32; lia). rewrite IH by (done || lia). lia.
Qed.

(** [guac_utf8_strlen] counts the characters of a string of whole characters. *)

Theorem utf8_strlen_complete n s :
  complete n s → no_nul s → Z.of_nat n ≤ INT_MAX → guac_utf8_strlen s = Z.of_nat n.
Proof. intros. unfold guac_utf8_strlen. by rewrite (strlen_loop_complete n). Qed.

Lemma utf8_strlen_complete_witness : guac_utf8_strlen [x61; xe2; x82; xac; x62] = 3.
Proof.
  apply (utf8_strlen_complete 3).
  - apply (complete_char _ x61 []); [reflexivity|].
    apply (complete_char _ xe2 [x82; xac]); [reflexivity|].
    apply (complete_char _ x62 []); [reflexivity|]. apply complete_nil.
  - repeat (constructor; [discriminate|]). constructor.
  - unfold INT_MAX. lia.
Defined.

Lemma strlen_loop_i32 s len skip : is_i32 len → is_i32 (utf8_strlen_loop s len skip).
Proof.
  revert len skip. induction s as [|c s IH]; intros len skip Hl; [done|].
  cbn [utf8_strlen_loop].
  destruct (0 <? skip); [|pose proof (i32_range (len + 1))]; destruct c; auto.
Qed.

Lemma strlen_i32 s : is_i32 (guac_utf8_strlen s).
Proof. apply strlen_loop_i32. unfold is_i32. lia. Qed.
