(* ===== verification/Mem.v ===== *)
(** * Checked size arithmetic and allocation (src/src/libguac/mem.c)

    The overflow-checked product, sum and difference of [size_t] values and
    the allocation functions built on the product.  The C library's
    allocator is a parameter of the model. *)

From S2P Require Import Prelude Error.
Local Open Scope Z_scope.

(** ** Checked arithmetic

    An operation that returns zero stores a result, [Some]; one that returns
    non-zero stores nothing, [None].  The array of operands is a list, its
    length the operand count. *)

Fixpoint ckd_mul_loop (size : Z) (factors : list Z) : option Z :=
  match factors with
  | [] => Some size
  | factor :: factors' =>
      if size =? 0 then Some size
      else if SIZE_MAX `div` size <? factor then None
      else ckd_mul_loop (u64 (size * factor)) factors'
  end.

Definition PRIV_guac_mem_ckd_mul (factors : list Z) : option Z :=
  match factors with
  | [] => None
  | size :: factors' => ckd_mul_loop size factors'
  end.

Fixpoint ckd_add_loop (size : Z) (terms : list Z) : option Z :=
  match terms with
  | [] => Some size
  | term :: terms' =>
      if u64 (SIZE_MAX - size) <? term then None
      else ckd_add_loop (u64 (size + term)) terms'
  end.

Definition PRIV_guac_mem_ckd_add (terms : list Z) : option Z :=
  match terms with
  | [] => None
  | size :: terms' => ckd_add_loop size terms'
  end.

Fixpoint ckd_sub_loop (size : Z) (terms : list Z) : option Z :=
  match terms with
  | [] => Some size
  | term :: terms' =>
      if size <? term then None
      else ckd_sub_loop (u64 (size - term)) terms'
  end.

Definition PRIV_guac_mem_ckd_sub (terms : list Z) : option Z :=
  match terms with
  | [] => None
  | size :: terms' => ckd_sub_loop size terms'
  end.

(** The [_or_die] forms abort the process where the checked form fails. *)

Inductive outcome (A : Type) : Type :=
| Returns (a : A)
| Aborts.
Arguments Returns {A} _.
Arguments Aborts {A}.

Definition or_die {A} (o : option A) : outcome A :=
  match o with
  | Some a => Returns a
  | None => Aborts
  end.

Definition PRIV_guac_mem_ckd_mul_or_die (factors : list Z) : outcome Z :=
  or_die (PRIV_guac_mem_ckd_mul factors).

Definition PRIV_guac_mem_ckd_add_or_die (terms : list Z) : outcome Z :=
  or_die (PRIV_guac_mem_ckd_add terms).

Definition PRIV_guac_mem_ckd_sub_or_die (terms : list Z) : outcome Z :=
  or_die (PRIV_guac_mem_ckd_sub terms).

(** ** Allocation

    A pointer is an address, [None] for NULL.  The state is the C library's
    heap together with the thread's [guac_error]. *)

Class Allocator (heap : Type) := {
  malloc : Z → heap → option Z * heap;
  calloc : Z → Z → heap → option Z * heap;
  realloc : option Z → Z → heap → option Z * heap;
  free : option Z → heap → heap;
}.

Section alloc.
Context {heap : Type} `{Allocator heap}.

Record mem_state := mk_mem_state {
  guac_error : guac_status;
  the_heap : heap;
}.

(** What the three allocation functions do with the result of the C library. *)

Definition note_failure (error : guac_status) (r : option Z * heap) : option Z * mem_state :=
  let '(mem, h) := r in
  (mem, {| guac_error := if mem is Some _ then error else GUAC_STATUS_NO_MEMORY; the_heap := h |}).

Definition PRIV_guac_mem_alloc (factors : list Z) (s : mem_state) : option Z * mem_state :=
  match PRIV_guac_mem_ckd_mul factors with
  | None => (None, {| guac_error := GUAC_STATUS_NO_MEMORY; the_heap := the_heap s |})
  | Some size =>
      if size =? 0 then (None, s)
      else note_failure (guac_error s) (malloc size (the_heap s))
  end.

Definition PRIV_guac_mem_zalloc (factors : list Z) (s : mem_state) : option Z * mem_state :=
  match PRIV_guac_mem_ckd_mul factors with
  | None => (None, {| guac_error := GUAC_STATUS_NO_MEMORY; the_heap := the_heap s |})
  | Some size =>
      if size =? 0 then (None, s)
      else note_failure (guac_error s) (calloc 1 size (the_heap s))
  end.

Definition PRIV_guac_mem_free (mem : option Z) (s : mem_state) : mem_state :=
  {| guac_error := guac_error s; the_heap := free mem (the_heap s) |}.

Definition PRIV_guac_mem_realloc (mem : option Z) (factors : list Z) (s : mem_state)
    : option Z * mem_state :=
  match PRIV_guac_mem_ckd_mul factors with
  | None => (None, {| guac_error := GUAC_STATUS_NO_MEMORY; the_heap := the_heap s |})
  | Some size =>
      if size =? 0 then (None, PRIV_guac_mem_free mem s)
      else note_failure (guac_error s) (realloc mem size (the_heap s))
  end.

Definition PRIV_guac_mem_realloc_or_die (mem : option Z) (factors : list Z) (s : mem_state)
    : outcome (option Z * mem_state) :=
  let s := {| guac_error := GUAC_STATUS_SUCCESS; the_heap := the_heap s |} in
  let '(resized_mem, s) := PRIV_guac_mem_realloc mem factors s in
  if decide (resized_mem ≠ None ∨ guac_error s = GUAC_STATUS_SUCCESS)
  then Returns (resized_mem, s)
  else Aborts.
End alloc.

Arguments mem_state : clear implicits.

(** ** What the checks guarantee *)

Fixpoint product (l : list Z) : Z :=
  match l with
  | [] => 1
  | x :: l' => x * product l'
  end.

Fixpoint total (l : list Z) : Z :=
  match l with
  | [] => 0
  | x :: l' => x + total l'
  end.

Definition sizes (l : list Z) : Prop := Forall is_u64 l.

Lemma total_nonneg l : sizes l → 0 ≤ total l.
Proof. unfold sizes, is_u64. induction 1; cbn [total]; lia. Qed.

Lemma product_ge_1 l : sizes l → 0 ∉ l → 1 ≤ product l.
Proof.
  unfold sizes, is_u64. induction 1 as [|x l Hx Hl IH]; intros Hn; [done|].
  apply not_elem_of_cons in Hn as [? ?]. specialize (IH ltac:(done)).
  cbn [product]. nia.
Qed.

Lemma mul_check size factor :
  0 < size → 0 ≤ factor → (SIZE_MAX `div` size <? factor) = false ↔ size * factor ≤ SIZE_MAX.
Proof.
  intros. rewrite Z.ltb_ge. split; intros Hx.
  - transitivity (size * (SIZE_MAX `div` size)); [nia|]. apply Z.mul_div_le. lia.
  - apply Z.div_le_lower_bound; lia.
Qed.

Lemma ckd_mul_loop_exact size l :
  is_u64 size → sizes l → size * product l ≤ SIZE_MAX → 0 ∉ l →
  ckd_mul_loop size l = Some (size * product l).
Proof.
  intros Hs Hl. revert size Hs. induction Hl as [|x l Hx Hl IH]; intros size Hs Hle Hn.
  { cbn. f_equal. lia. }
  apply not_elem_of_cons in Hn as [Hx0 Hn].
  cbn [product] in *.
  pose proof (product_ge_1 l Hl Hn). unfold is_u64 in *.
  cbn [ckd_mul_loop]. destruct (Z.eqb_spec size 0) as [->|]; [done|].
  assert (size * x ≤ SIZE_MAX) by nia.
  rewrite (proj2 (mul_check size x ltac:(lia) ltac:(lia))) by done.
  unfold SIZE_MAX in *. rewrite u64_small by (unfold is_u64; nia).
  rewrite IH; [f_equal; lia|nia|lia|done].
Qed.

Lemma ckd_mul_loop_some size l r :
  is_u64 size → sizes l → ckd_mul_loop size l = Some r →
  r = size * product l ∧ is_u64 r.
Proof.
  intros Hs Hl. revert size Hs. induction Hl as [|x l Hx Hl IH]; intros size Hs Hr.
  { cbn in *. simplify_eq. split; [lia|done]. }
  cbn [product ckd_mul_loop] in *.
  destruct (Z.eqb_spec size 0) as [->|]; [by simplify_eq|].
  destruct (SIZE_MAX `div` size <? x) eqn:E; [done|]. unfold is_u64 in *.
  apply mul_check in E; [|lia..]. unfold SIZE_MAX in *.
  rewrite u64_small in Hr by (unfold is_u64; nia).
  apply IH in Hr as [-> ?]; [|nia]. split; [lia|done].
Qed.

(** A product that is returned is the exact product; without a zero factor it is returned
    exactly when it fits in a [size_t]. *)

Theorem ckd_mul_exact l :
  sizes l →
  (∀ r, PRIV_guac_mem_ckd_mul l = Some r → r = product l ∧ is_u64 r) ∧
  (l ≠ [] → 0 ∉ l → is_Some (PRIV_guac_mem_ckd_mul l) ↔ product l ≤ SIZE_MAX).
Proof.
  intros Hl. destruct Hl as [|x l Hx Hl]; [done|].
  assert (Hsome : ∀ r, PRIV_guac_mem_ckd_mul (x :: l) = Some r →
    r = product (x :: l) ∧ is_u64 r) by (intros r; by apply ckd_mul_loop_some).
  split; [done|]. intros _ Hn. split.
  - intros [r Hr]. apply Hsome in Hr as [<- ?]. unfold is_u64, SIZE_MAX in *. lia.
  - intros Hle. apply not_elem_of_cons in Hn as [_ Hn].
    eexists. by apply ckd_mul_loop_exact.
Qed.

Lemma ckd_mul_exact_witness :
  sizes [3; 5; 7] ∧ PRIV_guac_mem_ckd_mul [3; 5; 7] = Some 105 ∧
  ¬ is_Some (PRIV_guac_mem_ckd_mul [2 ^ 40; 2 ^ 40]).
Proof.
  assert (H1 : sizes [3; 5; 7]) by (unfold sizes, is_u64; repeat constructor; lia).
  assert (H2 : sizes [2 ^ 40; 2 ^ 40]) by (unfold sizes, is_u64; repeat constructor; lia).
  split; [exact H1|]. split.
  - destruct (proj2 (proj2 (ckd_mul_exact [3; 5; 7] H1) ltac:(discriminate) ltac:(apply (bool_decide_unpack _); vm_compute; exact I)))
      as [r Hr]; [unfold SIZE_MAX; cbn; lia|].
    rewrite Hr. f_equal. apply (ckd_mul_exact [3; 5; 7] H1) in Hr as [-> _]. reflexivity.
  - intros Hs. apply (ckd_mul_exact [2 ^ 40; 2 ^ 40] H2) in Hs; [|discriminate|apply (bool_decide_unpack _); vm_compute; exact I].
    unfold SIZE_MAX in Hs. cbn in Hs. lia.
Defined.

Lemma ckd_add_loop_spec size l :
  is_u64 size → sizes l →
  ckd_add_loop size l = if size + total l <=? SIZE_MAX then Some (size + total l) else None.
Proof.
  intros Hs Hl. revert size Hs. induction Hl as [|x l Hx Hl IH]; intros size Hs.
  { cbn. unfold is_u64, SIZE_MAX in *. rewrite Z.add_0_r. zif; [done|lia]. }
  pose proof (total_nonneg l Hl). cbn [total ckd_add_loop].
  unfold is_u64, SIZE_MAX in *. rewrite (u64_small (_ - _)) by (unfold is_u64; lia).
  destruct (Z.ltb_spec (2^64 - 1 - size) x).
  - zif; [lia|done].
  - rewrite u64_small by (unfold is_u64; lia).
    rewrite IH by lia. by rewrite Z.add_assoc.
Qed.

(** The sum is returned exactly when it fits in a [size_t]. *)

Theorem ckd_add_exact l :
  sizes l → l ≠ [] →
  PRIV_guac_mem_ckd_add l = if total l <=? SIZE_MAX then Some (total l) else None.
Proof. intros [|x l' Hx Hl]; [done|]. intros _. by apply ckd_add_loop_spec. Qed.

Lemma ckd_add_exact_witness :
  PRIV_guac_mem_ckd_add [1; 2; 3] = Some 6 ∧ PRIV_guac_mem_ckd_add [SIZE_MAX; 1] = None.
Proof.
  split; (rewrite ckd_add_exact; [reflexivity| |discriminate]);
    unfold sizes, is_u64, SIZE_MAX; repeat constructor; lia.
Defined.

Lemma ckd_sub_loop_spec size l :
  is_u64 size → sizes l →
  ckd_sub_loop size l = if total l <=? size then Some (size - total l) else None.
Proof.
  intros Hs Hl. revert size Hs. induction Hl as [|x l Hx Hl IH]; intros size Hs.
  { cbn. unfold is_u64 in *. rewrite Z.sub_0_r. zif; [done|lia]. }
  pose proof (total_nonneg l Hl). cbn [total ckd_sub_loop].
  unfold is_u64 in *. destruct (Z.ltb_spec size x).
  - zif; [lia|done].
  - rewrite u64_small by (unfold is_u64; lia). rewrite IH by lia.
    repeat zif; [f_equal; lia|lia|lia|done].
Qed.

(** The difference is returned exactly when it is not negative. *)

Theorem ckd_sub_exact x l :
  sizes (x :: l) →
  PRIV_guac_mem_ckd_sub (x :: l) = if total l <=? x then Some (x - total l) else None.
Proof. intros [Hx Hl]%Forall_cons_iff. by apply ckd_sub_loop_spec. Qed.

Lemma ckd_sub_exact_witness :
  PRIV_guac_mem_ckd_sub [9; 2; 3] = Some 4 ∧ PRIV_guac_mem_ckd_sub [1; 2] = None.
Proof.
  split; (rewrite ckd_sub_exact; [reflexivity|]);
    unfold sizes, is_u64; repeat constructor; lia.
Defined.

(** ** Reallocating or dying *)

(** The process survives in two cases only: the requested size is zero and
    the block is freed, or the C library's [realloc] succeeds. NULL is
    returned in the first alone, so a caller that asked for memory has it. *)

Theorem realloc_or_die_outcome {heap} `{Allocator heap} mem factors (s : mem_state heap) :
  PRIV_guac_mem_realloc_or_die mem factors s =
  match PRIV_guac_mem_ckd_mul factors with
  | None => Aborts
  | Some size =>
      if size =? 0 then
        Returns (None, {| guac_error := GUAC_STATUS_SUCCESS; the_heap := free mem (the_heap s) |})
      else
        match realloc mem size (the_heap s) with
        | (None, _) => Aborts
        | (Some p, h) =>
            Returns (Some p, {| guac_error := GUAC_STATUS_SUCCESS; the_heap := h |})
        end
  end.
Proof.
  unfold PRIV_guac_mem_realloc_or_die, PRIV_guac_mem_realloc. cbn [guac_error the_heap].
  destruct (PRIV_guac_mem_ckd_mul factors) as [size|].
  - zif.
    + rewrite decide_True by naive_solver. done.
    + destruct (realloc mem size (the_heap s)) as [[p|] h]; cbn.
      * rewrite decide_True by naive_solver. done.
      * rewrite decide_False by naive_solver. done.
  - cbn. rewrite decide_False by naive_solver. done.
Qed.
