(* ===== verification/LibString.v ===== *)
(** * The string functions of libguac (libguac/string.c)

    The bounded copy, append and join, the bounded search and the duplicates.
    A destination is a memory with an offset; a source string its contents.
    [strlcpy] and [strlcat] are the definitions of the file itself, which the
    C library's own replace where it has them with the same contract.  Sizes
    are natural numbers: the sizes of objects in memory, whose sums here stay
    far below [SIZE_MAX]. *)

From S2P Require Import Prelude CString CFormat Mem.

(** [write_at mem p s]: the bytes [s] stored from the offset [p]. *)

Definition write_at (mem : list byte) (p : nat) (s : list byte) : list byte :=
  take p mem ++ s ++ drop (p + length s) mem.

(** [REMAINING (n, length)] *)

Definition REMAINING (n length : nat) : nat := if (n <? length)%nat then 0 else n - length.

(** ** Numbers

    [%i] reads the [unsigned int] as an [int].  The first call measures, the second writes the
    string and its terminator. *)

Definition guac_itoa (dest : list byte) (p : nat) (integer : Z) : list byte * Z :=
  let s := fmt_d (i32 integer) in
  let str_size := length s in
  (write_at dest p (take str_size s ++ [x00]), Z.of_nat str_size).

(** ** Copying *)

Definition guac_strlcpy (mem : list byte) (dest : nat) (src : list byte) (n : nat)
    : list byte * nat :=
  let length := length src in
  if (n =? 0)%nat then (mem, length)
  else
    let copy_length := if (n <=? length)%nat then (n - 1)%nat else length in
    (write_at mem dest (take copy_length src ++ [x00]), length).

Definition strnlen (s : list byte) (n : nat) : nat := length (c_str (take n s)).

Definition guac_strlcat (mem : list byte) (dest : nat) (src : list byte) (n : nat)
    : list byte * nat :=
  let length := strnlen (drop dest mem) n in
  let '(mem, r) := guac_strlcpy mem (dest + length)%nat src (REMAINING n length) in
  (mem, (length + r)%nat).

(** The loop of [guac_strljoin] over the elements after the first. *)

Fixpoint strljoin_loop (mem : list byte) (dest : nat) (elements : list (list byte))
    (delim : list byte) (n length : nat) : list byte * nat :=
  match elements with
  | [] => (mem, length)
  | current :: elements' =>
      let '(mem, r) := guac_strlcat mem (dest + length) delim (REMAINING n length) in
      let length := (length + r)%nat in
      let '(mem, r) := guac_strlcat mem (dest + length) current (REMAINING n length) in
      let length := (length + r)%nat in
      strljoin_loop mem dest elements' delim n length
  end.

(** The elements are the first [nmemb] of the array. *)

Definition guac_strljoin (mem : list byte) (dest : nat) (elements : list (list byte))
    (nmemb : Z) (delim : list byte) (n : nat) : list byte * nat :=
  match take (Z.to_nat nmemb) elements with
  | [] => guac_strlcpy mem dest [] n
  | first :: rest =>
      let '(mem, length) := guac_strlcpy mem dest first n in
      strljoin_loop mem dest rest delim n length
  end.

(** ** Searching

    [memchr] over the bytes left finds a candidate, [memcmp] tests it; each round moves on by at
    least a byte.  The haystack is the memory from the pointer on. *)

Fixpoint strnstr_loop (fuel : nat) (haystack needle : list byte) (len off : nat) : option nat :=
  match fuel with
  | O => None
  | S fuel' =>
      if (off <? len)%nat then
        match strchr (take (len - off) (drop off haystack)) (mem_at needle 0) with
        | None => None
        | Some i =>
            let off := (off + i)%nat in
            if (len <? off + length needle)%nat then None
            else if decide (take (length needle) (drop off haystack) = needle) then Some off
            else strnstr_loop fuel' haystack needle len (S off)
        end
      else None
  end.

Definition guac_strnstr (haystack needle : list byte) (len : nat) : option nat :=
  if (length needle =? 0)%nat then Some O
  else strnstr_loop (S len) haystack needle len 0.

(** ** Duplicating

    The copy is a new block of memory, [None] when there is none; [alloc] tells whether the
    allocator has a block of the size asked for. *)

Definition guac_strndup (alloc : Z → bool) (str : option (list byte)) (n : nat)
    : option (list byte) :=
  match str with
  | None => None
  | Some str =>
      let length_to_copy := strnlen str n in
      match PRIV_guac_mem_ckd_add [Z.of_nat length_to_copy; 1%Z] with
      | None => None
      | Some length =>
          if alloc length then Some (take length_to_copy str ++ [x00]) else None
      end
  end.

Definition guac_strdup (alloc : Z → bool) (str : option (list byte)) : option (list byte) :=
  match str with
  | None => None
  | Some s => guac_strndup alloc str (length (c_str s))
  end.

(** ** Bounded writing

    [put mem p n s]: [s] written into the [n] bytes at [p], cut to leave room for the terminator. *)

Definition put (mem : list byte) (p n : nat) (s : list byte) : list byte :=
  if (n =? 0)%nat then mem else write_at mem p (take (n - 1) s ++ [x00]).

Lemma length_write_at mem p s :
  (p + length s ≤ length mem)%nat → length (write_at mem p s) = length mem.
Proof. intros. unfold write_at. rewrite !length_app, length_take, length_drop. lia. Qed.

Lemma write_at_app pre s post t :
  length s = length t → write_at (pre ++ s ++ post) (length pre) t = pre ++ t ++ post.
Proof.
  intros E. unfold write_at. rewrite take_app_length. do 2 f_equal.
  rewrite <-E, drop_app_add, drop_app_length. done.
Qed.

Lemma strlcpy_put mem p s n : guac_strlcpy mem p s n = (put mem p n s, length s).
Proof.
  unfold guac_strlcpy, put. destruct (n =? 0)%nat eqn:E; [done|]. zif; [done|].
  by rewrite !take_ge by lia.
Qed.

Lemma REMAINING_sub n l : REMAINING n l = (n - l)%nat.
Proof. unfold REMAINING. zif; lia. Qed.

(** A memory split at the buffer. *)

Lemma put_split mem p n s :
  (0 < n)%nat → (p + n ≤ length mem)%nat →
  put mem p n s = take p mem ++ take (n - 1) s ++ x00 :: drop (p + S (Nat.min (n - 1) (length s))) mem.
Proof.
  intros Hn Hp. unfold put. destruct (n =? 0)%nat eqn:E; zbool_hyps; [lia|].
  unfold write_at. rewrite <-app_assoc. cbn [app]. rewrite length_app, length_take. cbn [length].
  by rewrite Nat.add_1_r.
Qed.

(** Appending to a string that a bounded write left is writing the longer string. *)

Lemma put_put mem p n s t :
  (p + n ≤ length mem)%nat →
  put (put mem p n s) (p + length s) (n - length s) t = put mem p n (s ++ t).
Proof.
  intros Hp. destruct (decide (length s < n)%nat) as [Hs|Hs].
  - rewrite (put_split mem p n s) by lia.
    rewrite put_split; [|lia|rewrite !length_app, !length_take; cbn [length]; rewrite length_drop; lia].
    rewrite put_split by lia. rewrite (take_ge s) by lia.
    assert (El : (p + length s)%nat = length (take p mem ++ s))
      by (rewrite length_app, length_take_le by lia; done).
    rewrite El, (app_assoc (take p mem) s), take_app_length, drop_app_add. cbn [drop].
    rewrite drop_drop, take_app_ge, length_app by lia. rewrite <-!app_assoc.
    replace (n - 1 - length s)%nat with (n - length s - 1)%nat by lia.
    replace (p + S ((n - 1) `min` length s) + (n - length s - 1) `min` length t)%nat
      with (p + S ((n - 1) `min` (length s + length t)))%nat by lia. done.
  - replace (n - length s)%nat with 0%nat by lia. unfold put at 1. cbn [Nat.eqb].
    destruct (decide (n = 0)%nat) as [->|Hn]; [done|]. rewrite !put_split by lia.
    rewrite take_app_le by lia. rewrite length_app.
    by replace ((n - 1) `min` (length s + length t))%nat with ((n - 1) `min` length s)%nat by lia.
Qed.

(** The string a bounded write leaves. *)

Lemma drop_put mem p n s :
  (0 < n)%nat → (p + n ≤ length mem)%nat →
  drop p (put mem p n s) = take (n - 1) s ++ x00 :: drop (p + S (Nat.min (n - 1) (length s))) mem.
Proof.
  intros Hn Hp. rewrite put_split by done. rewrite drop_app_ge by (rewrite length_take; lia).
  rewrite length_take_le by lia. by rewrite Nat.sub_diag.
Qed.

Lemma str_at_put mem p n s :
  no_nul s → (0 < n)%nat → (p + n ≤ length mem)%nat → str_at (put mem p n s) p = take (n - 1) s.
Proof.
  intros Hs Hn Hp. unfold str_at. rewrite drop_put by done. apply c_str_app. by apply Forall_take.
Qed.

(** Only the buffer is written. *)

Lemma put_frame mem p n s :
  (p + n ≤ length mem)%nat →
  length (put mem p n s) = length mem ∧ take p (put mem p n s) = take p mem ∧
  drop (p + n) (put mem p n s) = drop (p + n) mem.
Proof.
  intros Hp. unfold put. destruct (n =? 0)%nat eqn:E; zbool_hyps; [done|].
  assert (Hl : (length (take (n - 1) s ++ [x00]) ≤ n)%nat)
    by (rewrite length_app, length_take; cbn; lia).
  split_and!.
  - apply length_write_at. lia.
  - unfold write_at. rewrite take_app_le by (rewrite length_take; lia).
    rewrite take_take. f_equal. lia.
  - unfold write_at. rewrite app_assoc, drop_app_ge by (rewrite length_app, length_take; lia).
    rewrite length_app, length_take_le, drop_drop by lia. f_equal. lia.
Qed.

(** ** Appending and joining *)

Lemma strnlen_put mem p n s :
  (p + n ≤ length mem)%nat → strnlen (drop (p + length s) (put mem p n s)) (n - length s) = 0%nat.
Proof.
  intros Hp. unfold strnlen. destruct (decide (length s < n)%nat).
  - rewrite <-drop_drop, drop_put by lia.
    rewrite (take_ge s) by lia. rewrite drop_app_length.
    by replace (n - length s)%nat with (S (n - length s - 1)) by lia.
  - by replace (n - length s)%nat with 0%nat by lia.
Qed.

Lemma strlcat_put mem p n s t :
  (p + n ≤ length mem)%nat →
  guac_strlcat (put mem p n s) (p + length s) t (REMAINING n (length s))
  = (put mem p n (s ++ t), length t).
Proof.
  intros Hp. unfold guac_strlcat. rewrite (REMAINING_sub n), strnlen_put by done.
  rewrite strlcpy_put, REMAINING_sub, Nat.sub_0_r, Nat.add_0_r, put_put by done. done.
Qed.

(** Writing over a string what it holds already. *)

Lemma put_same mem p n d r :
  drop p mem = d ++ x00 :: r → (p ≤ length mem)%nat → (length d < n)%nat → put mem p n d = mem.
Proof.
  intros E Hp Hn. unfold put. destruct (n =? 0)%nat eqn:E0; zbool_hyps; [lia|].
  rewrite take_ge by lia. unfold write_at. rewrite length_app. cbn [length].
  rewrite <-drop_drop, E, Nat.add_1_r, drop_app_ge by lia.
  replace (S (length d) - length d)%nat with 1%nat by lia. cbn [drop].
  rewrite <-app_assoc. cbn [app]. rewrite drop_0, <-E. apply take_drop.
Qed.

(** What a bounded write promises: the string, cut to the room there is, and nothing outside the
    buffer; the result is the length that was wanted. *)

Definition writes_string (mem : list byte) (p n : nat) (s : list byte) (r : list byte * nat) : Prop :=
  snd r = length s ∧
  ((0 < n)%nat → str_at (fst r) p = take (n - 1) s) ∧
  length (fst r) = length mem ∧ take p (fst r) = take p mem ∧
  drop (p + n) (fst r) = drop (p + n) mem.

Lemma put_writes mem p n s :
  no_nul s → (p + n ≤ length mem)%nat → writes_string mem p n s (put mem p n s, length s).
Proof.
  intros Hs Hp. split; [done|]. cbn [fst]. split; [intros; by apply str_at_put|].
  by apply put_frame.
Qed.

Lemma strlcpy_writes mem p src n :
  no_nul src → (p + n ≤ length mem)%nat → writes_string mem p n src (guac_strlcpy mem p src n).
Proof. intros. rewrite strlcpy_put. by apply put_writes. Qed.

(** [strlcat] appends to the string of the buffer; a buffer without a terminator is left alone. *)

Lemma strlcat_writes mem p d r src n :
  drop p mem = d ++ x00 :: r → no_nul d → no_nul src → (length d < n)%nat →
  (p + n ≤ length mem)%nat →
  writes_string mem p n (d ++ src) (guac_strlcat mem p src n).
Proof.
  intros E Hd Hs Hn Hp. unfold guac_strlcat.
  assert (El : strnlen (drop p mem) n = length d).
  { unfold strnlen. rewrite E, take_app_ge by lia.
    replace (n - length d)%nat with (S (n - length d - 1)) by lia. cbn [take].
    by rewrite c_str_app. }
  rewrite El, strlcpy_put, REMAINING_sub.
  replace (put mem (p + length d) (n - length d) src) with (put mem p n (d ++ src))
    by (by rewrite <-(put_put mem p n d src Hp), (put_same mem p n d r E) by lia).
  rewrite <-length_app. apply put_writes; [by apply no_nul_app|done].
Qed.

Lemma strlcat_unterminated mem p src n :
  no_nul (take n (drop p mem)) → (p + n ≤ length mem)%nat →
  guac_strlcat mem p src n = (mem, n + length src)%nat.
Proof.
  intros Hn Hp. unfold guac_strlcat, strnlen. rewrite c_str_id by done.
  rewrite length_take_le by (rewrite length_drop; lia).
  by rewrite strlcpy_put, REMAINING_sub, Nat.sub_diag.
Qed.

(** [join delim l]: the strings of [l] with the delimiter between them. *)

Definition join (delim : list byte) (l : list (list byte)) : list byte :=
  match l with
  | [] => []
  | e :: l' => e ++ concat ((λ x, delim ++ x) <$> l')
  end.

Lemma strljoin_loop_put mem p n s elements delim :
  (p + n ≤ length mem)%nat →
  strljoin_loop (put mem p n s) p elements delim n (length s)
  = let r := s ++ concat ((λ x, delim ++ x) <$> elements) in (put mem p n r, length r).
Proof.
  intros Hp. revert s. induction elements as [|e elements IH]; intros s; cbn [strljoin_loop].
  { cbn. by rewrite app_nil_r. }
  rewrite strlcat_put, <-length_app by done. rewrite strlcat_put, <-length_app by done.
  rewrite IH. cbn [fmap list_fmap concat]. by rewrite <-!app_assoc.
Qed.

Lemma no_nul_concat l : Forall no_nul l → no_nul (concat l).
Proof. induction 1; [constructor|]. cbn [concat]. by apply no_nul_app. Qed.

Lemma join_no_nul delim l : no_nul delim → Forall no_nul l → no_nul (join delim l).
Proof.
  intros Hd Hl. destruct Hl as [|e l He Hl]; [constructor|]. cbn [join]. apply no_nul_app.
  split; [done|]. apply no_nul_concat, Forall_fmap. eapply Forall_impl; [|exact Hl].
  intros x Hx. by apply no_nul_app.
Qed.

(** Joining strings within a buffer: [guac_strljoin] leaves the elements with
    the delimiter between them, cut to the [n] bytes of the buffer and
    terminated whenever [n] is not zero, touches nothing outside the buffer,
    and returns the length of the whole string, so that a result of [n] or more
    tells that it was cut.  The copies and appends it is made of keep to the
    same contract. *)
Theorem strljoin_spec mem p elements nmemb delim n :
  Forall no_nul elements → no_nul delim → (p + n ≤ length mem)%nat →
  writes_string mem p n (join delim (take (Z.to_nat nmemb) elements))
    (guac_strljoin mem p elements nmemb delim n).
Proof.
  intros He Hd Hp. unfold guac_strljoin. apply (Forall_take _ (Z.to_nat nmemb)) in He.
  destruct (take (Z.to_nat nmemb) elements) as [|e l].
  { apply strlcpy_writes; [constructor|done]. }
  rewrite strlcpy_put, strljoin_loop_put by done. apply put_writes; [|done].
  by apply (join_no_nul delim (e :: l)).
Qed.

Lemma strljoin_spec_witness :
  writes_string (replicate 12 x2a) 1 10 (lit "usr/local/x")
    (guac_strljoin (replicate 12 x2a) 1 [lit "usr"; lit "local"; lit "x"] 3 (lit "/") 10) ∧
  guac_strljoin (replicate 12 x2a) 1 [lit "usr"; lit "local"; lit "x"] 3 (lit "/") 10
  = (lit "*usr/local" ++ [x00] ++ lit "*", 11%nat).
Proof.
  split; [|vm_compute; reflexivity].
  apply (strljoin_spec (replicate 12 x2a) 1 [lit "usr"; lit "local"; lit "x"] 3 (lit "/") 10).
  - repeat constructor; discriminate.
  - repeat constructor; discriminate.
  - vm_compute. lia.
Defined.

(** ** The bounded search *)

(** The first occurrence lies behind every offset tried in vain. *)

Lemma strstr_skip s p i :
  (i ≤ length s)%nat → (∀ j, (j < i)%nat → take (length p) (drop j s) ≠ p) →
  strstr s p = (λ k, i + k)%nat <$> strstr (drop i s) p.
Proof.
  revert s. induction i as [|i IH]; intros s Hi Hn.
  { by destruct (strstr s p) eqn:E; rewrite drop_0, E. }
  destruct s as [|c s]; [cbn in Hi; lia|]. cbn [strstr drop].
  rewrite decide_False by (apply (Hn 0%nat); lia). rewrite IH.
  - by destruct (strstr (drop i s) p).
  - cbn in Hi. lia.
  - intros j Hj. apply (Hn (S j)). lia.
Qed.

Lemma strstr_short s p : (length s < length p)%nat → strstr s p = None.
Proof.
  intros Hl. apply eq_None_not_Some. rewrite strstr_is_Some. intros (a & b & ->).
  rewrite !length_app in Hl. lia.
Qed.

Lemma take_drop_within {A} (l : list A) n off k :
  (off + k ≤ n)%nat → take k (drop off (take n l)) = take k (drop off l).
Proof. intros. rewrite skipn_firstn_comm, take_take. f_equal. lia. Qed.

Lemma strnstr_loop_spec fuel haystack c needle len off :
  (len ≤ length haystack)%nat → (len - off < fuel)%nat → (off ≤ len)%nat →
  strnstr_loop fuel haystack (c :: needle) len off
  = (λ k, off + k)%nat <$> strstr (drop off (take len haystack)) (c :: needle).
Proof.
  intros Hlen. revert off. induction fuel as [|fuel IH]; intros off Hf Ho; [lia|].
  cbn [strnstr_loop]. zif; last first.
  { rewrite drop_ge by (rewrite length_take; lia). done. }
  change (mem_at (c :: needle) 0) with c.
  replace (take (len - off) (drop off haystack)) with (drop off (take len haystack))
    by (by rewrite skipn_firstn_comm).
  set (h := drop off (take len haystack)).
  assert (Hh : length h = (len - off)%nat) by (unfold h; rewrite length_drop, length_take; lia).
  assert (Hno : ∀ j, c ∉ take j h → ∀ k, (k < j)%nat → take (length (c :: needle)) (drop k h) ≠ c :: needle).
  { intros j Hj k Hk E. apply Hj. cbn [length] in E. destruct (drop k h) as [|d r] eqn:Ed; [done|].
    cbn [take] in E. injection E as -> _. apply drop_cons_lookup in Ed as [Ed _].
    apply list_elem_of_lookup. exists k. by rewrite lookup_take_lt. }
  destruct (strchr h c) as [i|] eqn:Ei; last first.
  { apply strchr_None in Ei. rewrite (strstr_skip h _ (length h)).
    - by rewrite drop_all.
    - done.
    - apply Hno. by rewrite firstn_all. }
  apply strchr_Some in Ei as [Hi Hni]. pose proof (lookup_lt_Some _ _ _ Hi) as Hil.
  rewrite (strstr_skip h _ i) by (lia || by apply Hno).
  assert (Ed : drop i h = drop (off + i) (take len haystack)).
  { unfold h. rewrite drop_drop. done. }
  zif.
  { rewrite strstr_short; [done|]. rewrite Ed, length_drop, length_take. lia. }
  rewrite <-(take_drop_within haystack len) by lia. rewrite <-Ed.
  destruct (drop i h) as [|d r] eqn:Edr; [apply (f_equal length) in Edr; rewrite length_drop in Edr; cbn in Edr; lia|].
  cbn [strstr].
  destruct (decide _) as [Em|Em]; [cbn; f_equal; lia|].
  rewrite IH by lia. replace (drop (S (off + i)) (take len haystack)) with r.
  - destruct (strstr r (c :: needle)); cbn; [f_equal; lia|done].
  - change r with (drop 1 (d :: r)). rewrite Ed, drop_drop. f_equal. lia.
Qed.

(** The bounded search is the reference search cut to the bound: over a
    haystack of at least [len] bytes, whatever bytes they are, [guac_strnstr]
    finds the needle exactly where it first occurs within the first [len]
    bytes, and in particular never looks behind them. *)
Theorem strnstr_equiv haystack needle len :
  (len ≤ length haystack)%nat →
  guac_strnstr haystack needle len = strstr (take len haystack) needle.
Proof.
  intros Hl. unfold guac_strnstr. destruct needle as [|c needle].
  { cbn [length Nat.eqb]. by destruct (take len haystack). }
  cbn [length Nat.eqb]. rewrite strnstr_loop_spec by lia. rewrite drop_0.
  by destruct (strstr (take len haystack) (c :: needle)).
Qed.

Lemma strnstr_equiv_witness :
  (11 ≤ length (lit "xaabaabaac!"))%nat ∧
  guac_strnstr (lit "xaabaabaac!") (lit "aabaac") 11 = Some 4%nat ∧
  strstr (take 11 (lit "xaabaabaac!")) (lit "aabaac") = Some 4%nat.
Proof.
  assert (H : (11 ≤ length (lit "xaabaabaac!"))%nat) by (vm_compute; lia).
  split; [exact H|]. rewrite (strnstr_equiv _ (lit "aabaac") 11 H).
  split; vm_compute; reflexivity.
Defined.

(** [guac_itoa] does not convert an unsigned integer: from 2^31 on the
    string written is that of the negative number with the same bits. *)
Theorem itoa_is_signed mem p integer :
  (2 ^ 31 ≤ integer < 2 ^ 32)%Z →
  fst (guac_itoa mem p integer) = write_at mem p (lit "-" ++ dec (2 ^ 32 - integer) ++ [x00]).
Proof.
  intros Hi. unfold guac_itoa. cbn [fst]. rewrite firstn_all.
  assert (E : i32 integer = (integer - 2 ^ 32)%Z).
  { unfold i32. rewrite (Z.mod_eq (integer + 2 ^ 31)) by lia.
    rewrite <-(Z.div_unique (integer + 2 ^ 31) (2 ^ 32) 1 (integer - 2 ^ 31)) by lia. lia. }
  rewrite E. unfold fmt_d. replace (integer - 2 ^ 32 <? 0)%Z with true
    by (symmetry; apply Z.ltb_lt; lia).
  rewrite <-app_assoc. by replace (- (integer - 2 ^ 32))%Z with (2 ^ 32 - integer)%Z by lia.
Qed.

Lemma itoa_is_signed_witness :
  (2 ^ 31 ≤ 4294967295 < 2 ^ 32)%Z ∧
  fst (guac_itoa (replicate 4 x2a) 0 4294967295) = lit "-1" ++ [x00] ++ lit "*".
Proof.
  assert (H : (2 ^ 31 ≤ 4294967295 < 2 ^ 32)%Z) by lia.
  split; [exact H|]. rewrite (itoa_is_signed (replicate 4 x2a) 0 4294967295 H).
  vm_compute. reflexivity.
Defined.


(** ** Duplicates

    A duplicate is a block of the size of the copy and its terminator, or nothing when the
    allocator has none. *)

Lemma strndup_block alloc s n :
  no_nul s → (Z.of_nat (length s) < SIZE_MAX)%Z →
  guac_strndup alloc (Some s) n
  = if alloc (Z.of_nat (Nat.min n (length s)) + 1)%Z then Some (take n s ++ [x00]) else None.
Proof.
  intros Hs Hl. unfold guac_strndup, strnlen. rewrite c_str_id by (by apply Forall_take).
  rewrite length_take. unfold PRIV_guac_mem_ckd_add, ckd_add_loop.
  set (k := Z.of_nat (n `min` length s)). assert (Hk : (0 ≤ k < SIZE_MAX)%Z) by lia.
  rewrite (u64_small (SIZE_MAX - k)) by (unfold is_u64, SIZE_MAX in *; lia).
  replace (SIZE_MAX - k <? 1)%Z with false by (symmetry; apply Z.ltb_ge; lia).
  rewrite u64_small by (unfold is_u64, SIZE_MAX in *; lia).
  destruct (alloc (k + 1)%Z); [|done]. do 2 f_equal.
  destruct (decide (n ≤ length s)%nat).
  - by rewrite Nat.min_l by lia.
  - by rewrite Nat.min_r, !take_ge by lia.
Qed.

Lemma strdup_block alloc s :
  no_nul s → (Z.of_nat (length s) < SIZE_MAX)%Z →
  guac_strdup alloc (Some s)
  = if alloc (Z.of_nat (length s) + 1)%Z then Some (s ++ [x00]) else None.
Proof.
  intros Hs Hl. unfold guac_strdup. rewrite c_str_id, strndup_block by done.
  by rewrite Nat.min_id, firstn_all.
Qed.
