(* ===== verification/Rect.v ===== *)
(** * Rectangles (src/src/libguac/rect.c)

    Every operation on [guac_rect].  The specification is the set of pixels a
    rectangle covers: constraining is intersection, the intersection test
    asks for a common pixel, aligning is the least enclosing rectangle on the
    grid, shrinking keeps the result within the limits. *)

From S2P Require Import Prelude.
Local Open Scope Z_scope.

Record guac_rect := mk_guac_rect {
  left : Z;
  top : Z;
  right : Z;
  bottom : Z;
}.

Definition GUAC_RECT_ROUND_NEG (value mask : Z) : Z := Z.land value (Z.lnot mask).

Definition GUAC_RECT_ROUND_POS (value mask : Z) : Z :=
  Z.land (i32 (value + mask)) (Z.lnot mask).

Definition guac_rect_init (x y width height : Z) : guac_rect :=
  {| left := x;
     top := y;
     right := if 0 <? width then i32 (x + width) else x;
     bottom := if 0 <? height then i32 (y + height) else y |}.

Definition guac_rect_is_empty (rect : guac_rect) : bool :=
  (right rect <=? left rect) || (bottom rect <=? top rect).

Definition guac_rect_width (rect : guac_rect) : Z :=
  let width := i32 (right rect - left rect) in
  if 0 <? width then width else 0.

Definition guac_rect_height (rect : guac_rect) : Z :=
  let height := i32 (bottom rect - top rect) in
  if 0 <? height then height else 0.

Definition guac_rect_extend (rect min : guac_rect) : guac_rect :=
  if guac_rect_is_empty rect then min
  else
    {| left := if left min <? left rect then left min else left rect;
       top := if top min <? top rect then top min else top rect;
       right := if right rect <? right min then right min else right rect;
       bottom := if bottom rect <? bottom min then bottom min else bottom rect |}.

Definition guac_rect_constrain (rect max : guac_rect) : guac_rect :=
  {| left := if left rect <? left max then left max else left rect;
     top := if top rect <? top max then top max else top rect;
     right := if right max <? right rect then right max else right rect;
     bottom := if bottom max <? bottom rect then bottom max else bottom rect |}.

(** [None]: an integer division by zero. C's division truncates towards zero. *)

Definition guac_rect_shrink (rect : guac_rect) (max_width max_height : Z)
    : option guac_rect :=
  let original_width := guac_rect_width rect in
  let original_height := guac_rect_height rect in
  let max_width := if original_width <? max_width then original_width else max_width in
  let max_height :=
    if original_height <? max_height then original_height else max_height in
  let '(scale_numerator, scale_denominator) :=
    if i32 (max_width * original_height) <? i32 (max_height * original_width)
    then (max_width, original_width)
    else (max_height, original_height) in
  if scale_denominator =? 0 then None
  else
    Some
      {| left := left rect;
         top := top rect;
         right := i32 (left rect
           + Z.quot (i32 (original_width * scale_numerator)) scale_denominator);
         bottom := i32 (top rect
           + Z.quot (i32 (original_height * scale_numerator)) scale_denominator) |}.

Definition guac_rect_align (rect : guac_rect) (bits : Z) : guac_rect :=
  if bits =? 0 then rect
  else
    let factor := i32 (Z.shiftl 1 bits) in
    let mask := i32 (factor - 1) in
    {| left := GUAC_RECT_ROUND_NEG (left rect) mask;
       top := GUAC_RECT_ROUND_NEG (top rect) mask;
       right := GUAC_RECT_ROUND_POS (right rect) mask;
       bottom := GUAC_RECT_ROUND_POS (bottom rect) mask |}.

Definition guac_rect_intersects (a b : guac_rect) : bool :=
  negb ((right b <=? left a) || (right a <=? left b)
     || (bottom b <=? top a) || (bottom a <=? top b)).

(** ** Specification: the pixels of a rectangle *)

Definition in_rect (x y : Z) (r : guac_rect) : Prop :=
  left r ≤ x < right r ∧ top r ≤ y < bottom r.

(** Coordinates for which no [int] computation on the rectangle overflows. *)

Definition rect_ok (r : guac_rect) : Prop :=
  - 2^30 < left r < 2^30 ∧ - 2^30 < top r < 2^30 ∧
  - 2^30 < right r < 2^30 ∧ - 2^30 < bottom r < 2^30.

Lemma is_empty_spec r : guac_rect_is_empty r = true ↔ ∀ x y, ¬ in_rect x y r.
Proof.
  unfold guac_rect_is_empty, in_rect. rewrite orb_true_iff, !Z.leb_le. split.
  - lia.
  - intros H. specialize (H (left r) (top r)). lia.
Qed.

Lemma is_empty_false r :
  guac_rect_is_empty r = false ↔ left r < right r ∧ top r < bottom r.
Proof. unfold guac_rect_is_empty. rewrite orb_false_iff, !Z.leb_gt. lia. Qed.

Lemma width_spec r : rect_ok r → guac_rect_width r = Z.max 0 (right r - left r).
Proof.
  unfold rect_ok, guac_rect_width. intros H.
  rewrite i32_small by (unfold is_i32; lia). zif; lia.
Qed.

Lemma height_spec r : rect_ok r → guac_rect_height r = Z.max 0 (bottom r - top r).
Proof.
  unfold rect_ok, guac_rect_height. intros H.
  rewrite i32_small by (unfold is_i32; lia). zif; lia.
Qed.

(** Constraining is intersection. *)

Theorem rect_constrain_spec r m x y :
  in_rect x y (guac_rect_constrain r m) ↔ in_rect x y r ∧ in_rect x y m.
Proof.
  unfold in_rect, guac_rect_constrain. cbn [left top right bottom].
  repeat zif; lia.
Qed.

Lemma extend_covers r m x y :
  guac_rect_is_empty m = false →
  in_rect x y r ∨ in_rect x y m → in_rect x y (guac_rect_extend r m).
Proof.
  intros Hm Hr. unfold guac_rect_extend.
  destruct (guac_rect_is_empty r) eqn:E.
  - pose proof (proj1 (is_empty_spec r) E x y). tauto.
  - apply is_empty_false in E, Hm. unfold in_rect in *. cbn [left top right bottom].
    repeat zif; lia.
Qed.

(** The result of extending is the least rectangle that covers both: whatever contains the
    two contains the result, and the result contains the two. *)

Theorem rect_extend_least r m r' :
  guac_rect_is_empty m = false →
  (∀ x y, in_rect x y (guac_rect_extend r m) → in_rect x y r') ↔
  (∀ x y, in_rect x y r ∨ in_rect x y m → in_rect x y r').
Proof.
  intros Hm. split; [eauto using extend_covers|].
  intros H x y. unfold guac_rect_extend.
  destruct (guac_rect_is_empty r) eqn:E; [by eauto|].
  apply is_empty_false in E, Hm. unfold in_rect in *. cbn [left top right bottom].
  pose proof (H (left r) (top r)). pose proof (H (right r - 1) (bottom r - 1)).
  pose proof (H (left m) (top m)). pose proof (H (right m - 1) (bottom m - 1)).
  repeat zif; lia.
Qed.

Lemma rect_extend_least_witness :
  guac_rect_is_empty (mk_guac_rect 5 5 9 9) = false ∧
  ∀ x y, in_rect x y (mk_guac_rect 0 0 3 3) ∨ in_rect x y (mk_guac_rect 5 5 9 9) →
    in_rect x y (mk_guac_rect 0 0 9 9).
Proof.
  split; [reflexivity|].
  apply (rect_extend_least (mk_guac_rect 0 0 3 3) (mk_guac_rect 5 5 9 9)); [reflexivity|].
  intros x y. exact id.
Defined.

(** Two rectangles that are not empty intersect when they have a pixel in common. *)

Theorem rect_intersects_spec a b :
  guac_rect_is_empty a = false → guac_rect_is_empty b = false →
  guac_rect_intersects a b = true ↔ ∃ x y, in_rect x y a ∧ in_rect x y b.
Proof.
  rewrite !is_empty_false. intros Ha Hb. unfold guac_rect_intersects, in_rect.
  rewrite negb_true_iff, !orb_false_iff, !Z.leb_gt. split.
  - intros H. exists (Z.max (left a) (left b)), (Z.max (top a) (top b)). lia.
  - intros (x & y & H). lia.
Qed.

Lemma rect_intersects_spec_witness :
  ∃ x y, in_rect x y (mk_guac_rect 0 0 4 4) ∧ in_rect x y (mk_guac_rect 3 3 9 9).
Proof.
  apply (rect_intersects_spec (mk_guac_rect 0 0 4 4) (mk_guac_rect 3 3 9 9)); reflexivity.
Defined.

(** ** Alignment *)

Section align.
Context (bits : Z) (Hbits : 0 < bits < 30).

Let size := 2 ^ bits.

Lemma align_mask : i32 (i32 (Z.shiftl 1 bits) - 1) = Z.ones bits.
Proof using Hbits.
  assert (2 ^ bits < 2 ^ 30) by (apply Z.pow_lt_mono_r; lia).
  assert (0 < 2 ^ bits) by (apply Z.pow_pos_nonneg; lia).
  rewrite Z.shiftl_1_l, !i32_small; unfold is_i32; rewrite ?i32_small; unfold is_i32; try lia.
  rewrite Z.ones_equiv. lia.
Qed.

Lemma round_down v : Z.land v (Z.lnot (Z.ones bits)) = size * (v `div` size).
Proof using Hbits.
  rewrite <-Z.ldiff_land, Z.ldiff_ones_r by lia.
  rewrite Z.shiftl_mul_pow2, Z.shiftr_div_pow2 by lia. subst size. lia.
Qed.

Lemma size_bounds : 0 < size < 2 ^ 30.
Proof using Hbits.
  subst size. split; [apply Z.pow_pos_nonneg | apply Z.pow_lt_mono_r]; lia.
Qed.

Lemma round_neg_spec v :
  GUAC_RECT_ROUND_NEG v (Z.ones bits) = size * (v `div` size).
Proof using Hbits. apply round_down. Qed.

Lemma round_pos_spec v :
  - 2^30 < v < 2^30 →
  GUAC_RECT_ROUND_POS v (Z.ones bits) = size * ((v + size - 1) `div` size).
Proof using Hbits.
  intros Hv. pose proof size_bounds. unfold GUAC_RECT_ROUND_POS.
  rewrite Z.ones_equiv. fold size. rewrite i32_small by (unfold is_i32; lia).
  unfold Z.pred. rewrite <-round_down, Z.ones_equiv. fold size. do 2 f_equal. lia.
Qed.

(** Aligning yields the least rectangle that covers the original and whose edges are
    multiples of [2^bits]. *)

Lemma align_edges r : rect_ok r →
  let a := guac_rect_align r bits in
  (size | left a) ∧ (size | top a) ∧ (size | right a) ∧ (size | bottom a) ∧
  left a ≤ left r < left a + size ∧ top a ≤ top r < top a + size ∧
  right a - size < right r ≤ right a ∧ bottom a - size < bottom r ≤ bottom a.
Proof using Hbits.
  intros Hr. unfold rect_ok in Hr. unfold guac_rect_align. pose proof size_bounds.
  destruct (Z.eqb_spec bits 0) as [|_]; [lia|]. cbn [left top right bottom].
  rewrite align_mask, !round_neg_spec, !round_pos_spec by lia.
  clearbody size.
  repeat split; try (by apply Z.divide_factor_l);
    match goal with |- context [?x `div` size] =>
      pose proof (Z.div_mod x size ltac:(lia)); pose proof (Z.mod_pos_bound x size ltac:(lia))
    end; lia.
Qed.

End align.

Lemma multiple_le s a b : 0 < s → (s | a) → (s | b) → a < b + s → a ≤ b.
Proof.
  intros Hs [j ->] [k ->] Hlt. apply Z.mul_le_mono_nonneg_r; [lia|].
  enough (j < k + 1) by lia. apply (Z.mul_lt_mono_pos_r s); lia.
Qed.

(** Aligning yields the least rectangle with edges on the grid that covers the original. *)

Theorem rect_align_least r bits g :
  rect_ok r → 0 < bits < 30 →
  (2 ^ bits | left g) → (2 ^ bits | top g) → (2 ^ bits | right g) → (2 ^ bits | bottom g) →
  left g ≤ left r → top g ≤ top r → right r ≤ right g → bottom r ≤ bottom g →
  let a := guac_rect_align r bits in
  ((2 ^ bits | left a) ∧ (2 ^ bits | top a) ∧ (2 ^ bits | right a) ∧ (2 ^ bits | bottom a)) ∧
  (left g ≤ left a ≤ left r ∧ top g ≤ top a ≤ top r ∧
   right r ≤ right a ≤ right g ∧ bottom r ≤ bottom a ≤ bottom g).
Proof.
  intros Hr Hb Hgl Hgt Hgr Hgb H1 H2 H3 H4 a.
  pose proof (align_edges bits Hb r Hr) as (Hl & Ht & Hri & Hbo & H).
  fold a in Hl, Ht, Hri, Hbo, H.
  pose proof (size_bounds bits Hb) as Hs. set (s := 2 ^ bits) in *.
  split; [done|].
  pose proof (multiple_le s (left g) (left a)). pose proof (multiple_le s (top g) (top a)).
  pose proof (multiple_le s (right a) (right g)).
  pose proof (multiple_le s (bottom a) (bottom g)). intuition lia.
Qed.

Lemma rect_align_least_witness :
  let a := guac_rect_align (mk_guac_rect (-3) 5 17 30) 4 in
  -16 ≤ left a ≤ -3 ∧ right a ≤ 32.
Proof.
  assert (Hd : ∀ k, (2 ^ 4 | 16 * k)) by (intros k; exists k; lia).
  pose proof (rect_align_least (mk_guac_rect (-3) 5 17 30) 4 (mk_guac_rect (-16) 0 32 32)
    ltac:(unfold rect_ok; cbn; lia) ltac:(lia) (Hd (-1)) (Hd 0) (Hd 2) (Hd 2)
    ltac:(cbn; lia) ltac:(cbn; lia) ltac:(cbn; lia) ltac:(cbn; lia)) as [_ (H1 & _ & H2 & _)].
  cbn [left right] in H1, H2. split; [exact H1|]. apply H2.
Defined.

(** ** Shrinking *)

(** A rectangle without height is divided by its height: nothing checks it. *)

Theorem rect_shrink_zero_height r max_width max_height :
  rect_ok r → bottom r ≤ top r → 0 ≤ max_width → 0 ≤ max_height →
  guac_rect_shrink r max_width max_height = None.
Proof.
  intros Hr He Hw Hh. unfold guac_rect_shrink.
  assert (guac_rect_height r = 0) as E0 by (rewrite height_spec by done; lia).
  rewrite E0. rewrite (Z.mul_comm (if guac_rect_width r <? _ then _ else _) 0), Z.mul_0_l.
  assert ((if 0 <? max_height then 0 else max_height) = 0) as E1 by (zif; lia).
  rewrite E1, Z.mul_0_l. done.
Qed.

Lemma rect_shrink_zero_height_witness :
  guac_rect_shrink (guac_rect_init 0 0 640 0) 8192 8192 = None.
Proof.
  apply (rect_shrink_zero_height (mk_guac_rect 0 0 640 0)); unfold rect_ok;
    cbn [left top right bottom]; lia.
Defined.

(** Within 16-bit dimensions no product overflows: the result keeps the corner, fits in the
    limits and in the original rectangle, and one of the two dimensions is exactly the one it is
    limited to. *)

Theorem rect_shrink_fits r max_width max_height :
  rect_ok r →
  right r - left r < 2^15 → 0 < bottom r - top r < 2^15 → left r < right r →
  0 ≤ max_width → 0 ≤ max_height →
  ∃ r', guac_rect_shrink r max_width max_height = Some r' ∧
    left r' = left r ∧ top r' = top r ∧
    0 ≤ right r' - left r' ≤ Z.min max_width (right r - left r) ∧
    0 ≤ bottom r' - top r' ≤ Z.min max_height (bottom r - top r) ∧
    (right r' - left r' = Z.min max_width (right r - left r) ∨
     bottom r' - top r' = Z.min max_height (bottom r - top r)).
Proof.
  intros Hr Hw Hh Hlr Hmw Hmh. unfold guac_rect_shrink.
  rewrite width_spec, height_spec by done. unfold rect_ok in Hr.
  rewrite (Z.max_r 0 (right r - left r)), (Z.max_r 0 (bottom r - top r)) by lia.
  set (w := right r - left r) in *. set (h := bottom r - top r) in *.
  assert (Emw : (if w <? max_width then w else max_width) = Z.min max_width w) by (zif; lia).
  assert (Emh : (if h <? max_height then h else max_height) = Z.min max_height h)
    by (zif; lia).
  rewrite Emw, Emh.
  set (mw := Z.min max_width w). set (mh := Z.min max_height h).
  assert (0 ≤ mw ≤ w) by lia. assert (0 ≤ mh ≤ h) by lia.
  assert (Hm : ∀ a b, 0 ≤ a < 2^15 → 0 ≤ b < 2^15 → 0 ≤ a * b < 2^30) by nia.
  pose proof (Hm mw h). pose proof (Hm mh w). pose proof (Hm w mw). pose proof (Hm h mh).
  pose proof (Hm w mh). pose proof (Hm h mw).
  rewrite !(i32_small (_ * _)) by (unfold is_i32; lia).
  destruct (Z.ltb_spec (mw * h) (mh * w)).
  - destruct (Z.eqb_spec w 0); [lia|].
    rewrite !(i32_small (_ * mw)) by (unfold is_i32; lia).
    rewrite !Z.quot_div_nonneg by lia.
    rewrite (Z.mul_comm w mw), Z.div_mul by lia.
    assert (0 ≤ (h * mw) `div` w ≤ mh).
    { split; [apply Z.div_pos; lia|]. apply Z.div_le_upper_bound; lia. }
    eexists; split; [done|]. cbn [left top right bottom].
    rewrite !i32_small by (unfold is_i32; lia). lia.
  - destruct (Z.eqb_spec h 0); [lia|].
    rewrite !(i32_small (_ * mh)) by (unfold is_i32; lia).
    rewrite !Z.quot_div_nonneg by lia.
    rewrite (Z.mul_comm h mh), Z.div_mul by lia.
    assert (0 ≤ (w * mh) `div` h ≤ mw).
    { split; [apply Z.div_pos; lia|]. apply Z.div_le_upper_bound; lia. }
    eexists; split; [done|]. cbn [left top right bottom].
    rewrite !i32_small by (unfold is_i32; lia). lia.
Qed.

Lemma rect_shrink_fits_witness :
  ∃ r', guac_rect_shrink (mk_guac_rect 0 0 1920 1080) 640 640 = Some r' ∧
    left r' = 0 ∧ top r' = 0 ∧
    0 ≤ right r' - left r' ≤ 640 ∧ 0 ≤ bottom r' - top r' ≤ 640 ∧
    (right r' - left r' = 640 ∨ bottom r' - top r' = 640).
Proof.
  apply (rect_shrink_fits (mk_guac_rect 0 0 1920 1080) 640 640); unfold rect_ok; cbn; lia.
Defined.
