(* ===== verification/Socket.v ===== *)
(** * Sockets (src/src/libguac/socket.c)

    A [guac_socket] carries the private data of its implementation and the
    buffers of its base64 encoder; what it does is decided by the handlers
    its implementation installs, the class [SocketOps].  Operations are
    computations of the monad [M]: they thread the socket, and [None] means
    that the call does not return or leaves the memory it was given.

    [LawfulSocket] is what an implementation promises: bytes are delivered in
    order, and a failed write is remembered.  [emits m bs] is the contract
    proved of every writing function against that promise. *)

From S2P Require Import Prelude CFormat.
Local Open Scope Z_scope.

Definition GUAC_SOCKET_BASE64_READY_BUFFER_SIZE : nat := 768.
Definition GUAC_SOCKET_BASE64_ENCODED_BUFFER_SIZE : nat := 1024.

(** ** The interface of an implementation

    A handler that is not installed is [None].  [zero_write_limit] bounds how
    often in one call of [guac_socket_write] the write handler may accept
    nothing before the model stops following the retries. *)

Class SocketOps (D : Type) := {
  guac_timestamp_current : D → Z * D;
  read_handler : option (D → nat → option (Z * list byte * D));
  write_handler : option (D → list byte → option (Z * D));
  select_handler : option (D → Z → option (Z * D));
  flush_handler : option (D → option (Z * D));
  lock_handler : option (D → option D);
  unlock_handler : option (D → option D);
  zero_write_limit : nat;
}.

Inductive guac_socket_state : Type := GUAC_SOCKET_OPEN | GUAC_SOCKET_CLOSED.

Record guac_socket (D : Type) := mk_guac_socket {
  data : D;
  state : guac_socket_state;
  last_write_timestamp : Z;
  __ready : nat;
  __ready_buf : list byte;
  __encoded_buf : list byte;
  __keep_alive_enabled : bool;
}.
Arguments mk_guac_socket {D}.
Arguments data {D} _.
Arguments state {D} _.
Arguments last_write_timestamp {D} _.
Arguments __ready {D} _.
Arguments __ready_buf {D} _.
Arguments __encoded_buf {D} _.
Arguments __keep_alive_enabled {D} _.

Section update.
Context {D : Type}.
Implicit Types sk : guac_socket D.

Definition set_data (d : D) sk : guac_socket D :=
  {| data := d; state := state sk; last_write_timestamp := last_write_timestamp sk;
     __ready := __ready sk; __ready_buf := __ready_buf sk;
     __encoded_buf := __encoded_buf sk; __keep_alive_enabled := __keep_alive_enabled sk |}.

Definition set_last_write_timestamp (t : Z) sk : guac_socket D :=
  {| data := data sk; state := state sk; last_write_timestamp := t;
     __ready := __ready sk; __ready_buf := __ready_buf sk;
     __encoded_buf := __encoded_buf sk; __keep_alive_enabled := __keep_alive_enabled sk |}.

Definition set_ready (n : nat) (buf : list byte) sk : guac_socket D :=
  {| data := data sk; state := state sk; last_write_timestamp := last_write_timestamp sk;
     __ready := n; __ready_buf := buf;
     __encoded_buf := __encoded_buf sk; __keep_alive_enabled := __keep_alive_enabled sk |}.

Definition set_encoded_buf (buf : list byte) sk : guac_socket D :=
  {| data := data sk; state := state sk; last_write_timestamp := last_write_timestamp sk;
     __ready := __ready sk; __ready_buf := __ready_buf sk;
     __encoded_buf := buf; __keep_alive_enabled := __keep_alive_enabled sk |}.
End update.

(** ** The monad *)

Definition M (D A : Type) : Type := guac_socket D → option (A * guac_socket D).

#[export] Instance M_ret D : MRet (M D) := λ A a sk, Some (a, sk).
#[export] Instance M_bind D : MBind (M D) := λ A B f m sk,
  match m sk with
  | Some (a, sk') => f a sk'
  | None => None
  end.

Definition diverge {D A} : M D A := λ _, None.
Definition get {D} : M D (guac_socket D) := λ sk, Some (sk, sk).
Definition modify {D} (f : guac_socket D → guac_socket D) : M D unit := λ sk, Some (tt, f sk).

(** A call of a handler on the private data. *)

Definition call {D A} (h : D → option (A * D)) : M D A := λ sk,
  match h (data sk) with
  | Some (a, d) => Some (a, set_data d sk)
  | None => None
  end.

Lemma bind_run {D A B} (m : M D A) (f : A → M D B) sk a sk' :
  m sk = Some (a, sk') → (m ≫= f) sk = f a sk'.
Proof. unfold mbind, M_bind. by intros ->. Qed.

Lemma modify_run {D B} (f : guac_socket D → guac_socket D) (k : M D B) sk :
  (modify f;; k) sk = k (f sk).
Proof. done. Qed.

Lemma get_run {D B} (f : guac_socket D → M D B) sk : (get ≫= f) sk = f sk sk.
Proof. done. Qed.

(** C's [a || b] on computations returning an integer. *)

Definition c_or {D} (a b : M D Z) : M D Z :=
  x ← a;
  if x =? 0 then (y ← b; mret (b2z (negb (y =? 0)))) else mret 1.

Notation "a <||> b" := (c_or a b) (at level 61, left associativity) : guac_scope.
Local Open Scope guac_scope.

(** ** The code *)

Section socket.
Context {D : Type} `{SocketOps D}.

Definition __guac_socket_write (buf : list byte) : M D Z :=
  now ← call (λ d, Some (guac_timestamp_current d));
  modify (set_last_write_timestamp now);;
  match write_handler with
  | Some handler => call (λ d, handler d buf)
  | None => mret (Z.of_nat (length buf))
  end.

(** [written] is an [int]; a count outside [0..count] would move [buffer] out of the memory
    it points to. *)

Fixpoint guac_socket_write_loop (fuel : nat) (buffer : list byte) : M D Z :=
  match fuel with
  | O => diverge
  | S fuel' =>
      match buffer with
      | [] => mret 0
      | _ =>
          written ← __guac_socket_write buffer;
          let written := i32 written in
          if written =? -1 then mret 1
          else if (0 <=? written) && (written <=? Z.of_nat (length buffer)) then
            guac_socket_write_loop fuel' (drop (Z.to_nat written) buffer)
          else diverge
      end
  end.

Definition guac_socket_write (buf : list byte) : M D Z :=
  guac_socket_write_loop (zero_write_limit + S (length buf)) buf.

(** The result is the value returned and the bytes stored in the buffer. *)

Definition guac_socket_read (count : nat) : M D (Z * list byte) :=
  match read_handler with
  | Some handler => call (λ d, handler d count)
  | None => mret (0, [])
  end.

Definition guac_socket_select (usec_timeout : Z) : M D Z :=
  match select_handler with
  | Some handler => call (λ d, handler d usec_timeout)
  | None => mret 1
  end.

Definition guac_socket_flush : M D Z :=
  match flush_handler with
  | Some handler => call handler
  | None => mret 0
  end.

Definition guac_socket_instruction_begin : M D unit :=
  match lock_handler with
  | Some handler => call (λ d, pair tt <$> handler d)
  | None => mret tt
  end.

Definition guac_socket_instruction_end : M D unit :=
  match unlock_handler with
  | Some handler => call (λ d, pair tt <$> handler d)
  | None => mret tt
  end.

Definition guac_socket_write_int (i : Z) : M D Z :=
  guac_socket_write (snprintf 128 (fmt_d i)).

Definition guac_socket_write_string (str : list byte) : M D Z :=
  r ← guac_socket_write str;
  if r =? 0 then mret 0 else mret 1.

(** The fields [guac_socket_alloc] initialises; it leaves the two buffers uninitialised. *)

Definition guac_socket_alloc (d : D) (ready_buf encoded_buf : list byte) : guac_socket D :=
  let '(now, d) := guac_timestamp_current d in
  {| data := d; state := GUAC_SOCKET_OPEN; last_write_timestamp := now;
     __ready := 0; __ready_buf := ready_buf; __encoded_buf := encoded_buf;
     __keep_alive_enabled := false |}.

(** *** Base64 *)

Definition __guac_socket_BASE64_CHARACTERS : list byte :=
  lit "ABCDEFGHIJKLMNOPQRSTUVWXYZabcdefghijklmnopqrstuvwxyz0123456789+/".

Definition base64_char (i : Z) : byte := __guac_socket_BASE64_CHARACTERS !!! Z.to_nat i.

(** The four characters stored in [output]. *)

Definition __guac_socket_encode_base64 (a b c : Z) : list byte :=
  base64_char (Z.shiftr (Z.land a 0xFC) 2) ::
  (if 0 <=? b then
     base64_char (Z.lor (Z.shiftl (Z.land a 0x03) 4) (Z.shiftr (Z.land b 0xF0) 4)) ::
     (if 0 <=? c then
        [base64_char (Z.lor (Z.shiftl (Z.land b 0x0F) 2) (Z.shiftr (Z.land c 0xC0) 6));
         base64_char (Z.land c 0x3F)]
      else
        [base64_char (Z.shiftl (Z.land b 0x0F) 2); x3d])
   else
     [base64_char (Z.shiftl (Z.land a 0x03) 4); x3d; x3d]).

(** The encoding loop of [guac_socket_flush_base64] over the bytes of the ready buffer. *)

Fixpoint encode_ready (src : list byte) : list byte :=
  match src with
  | a :: b :: c :: src' =>
      __guac_socket_encode_base64 (bz a) (bz b) (bz c) ++ encode_ready src'
  | [a; b] => __guac_socket_encode_base64 (bz a) (bz b) (-1)
  | [a] => __guac_socket_encode_base64 (bz a) (-1) (-1)
  | [] => []
  end.

Definition guac_socket_flush_base64 : M D Z :=
  sk ← get;
  let encoded := encode_ready (take (__ready sk) (__ready_buf sk)) in
  modify (set_encoded_buf (encoded ++ drop (length encoded) (__encoded_buf sk)));;
  retval ← guac_socket_write encoded;
  if (i32 retval <? 0) then mret (i32 retval)
  else
    modify (λ sk, set_ready 0 (__ready_buf sk) sk);;
    mret 0.

(** [memcpy(buf + at, src, length)] *)

Definition splice (at' : nat) (src buf : list byte) : list byte :=
  take at' buf ++ src ++ drop (at' + length src) buf.

(** How much of [src] is taken: as much as fits the ready buffer. *)

Definition base64_chunk (ready : nat) (src : list byte) : nat :=
  let len := (GUAC_SOCKET_BASE64_READY_BUFFER_SIZE - ready)%nat in
  if (length src <? len)%nat then length src else len.

Fixpoint guac_socket_write_base64_loop (fuel : nat) (src : list byte) : M D Z :=
  match fuel with
  | O => diverge
  | S fuel' =>
      match src with
      | [] => mret 0
      | _ =>
          sk ← get;
          let len := base64_chunk (__ready sk) src in
          modify (set_ready (__ready sk + len)
                    (splice (__ready sk) (take len src) (__ready_buf sk)));;
          let src' := drop len src in
          if (__ready sk + len =? GUAC_SOCKET_BASE64_READY_BUFFER_SIZE)%nat then
            retval ← guac_socket_flush_base64;
            if (i32 retval <? 0) then mret (i32 retval)
            else guac_socket_write_base64_loop fuel' src'
          else guac_socket_write_base64_loop fuel' src'
      end
  end.

(** Every turn but possibly the first one takes at least one byte. *)

Definition guac_socket_write_base64 (buf : list byte) : M D Z :=
  guac_socket_write_base64_loop (2 + length buf) buf.
End socket.

(** ** What an implementation promises

    [inv d] is the implementation's own invariant;
    [sent d] is what has been accepted for delivery so far, in order;
    [failed d] records that a write or flush has failed; [locked d] that the
    instruction lock is held.  Nothing is promised of [sent] once a write has
    failed. *)

Class LawfulSocket (D : Type) `{SocketOps D} := {
  inv : D → Prop;
  sent : D → list byte;
  failed : D → bool;
  locked : D → bool;
  timestamp_law d :
    let d' := (guac_timestamp_current d).2 in
    inv d → inv d' ∧ sent d' = sent d ∧ failed d' = failed d ∧ locked d' = locked d;
  write_law d buf :
    inv d → buf ≠ [] → Z.of_nat (length buf) ≤ INT_MAX →
    ∃ handler r d', write_handler = Some handler ∧ handler d buf = Some (r, d') ∧
      inv d' ∧ locked d' = locked d ∧
      ((r = -1 ∧ failed d' = true) ∨
       (1 ≤ r ≤ Z.of_nat (length buf) ∧ failed d' = failed d ∧
        sent d' = sent d ++ take (Z.to_nat r) buf));
  flush_law handler d :
    flush_handler = Some handler → inv d →
    ∃ r d', handler d = Some (r, d') ∧ inv d' ∧ locked d' = locked d ∧
      ((r ≠ 0 ∧ failed d' = true) ∨
       (r = 0 ∧ failed d' = failed d ∧ sent d' = sent d));
  lock_law handler d :
    lock_handler = Some handler → inv d → locked d = false →
    ∃ d', handler d = Some d' ∧ inv d' ∧ locked d' = true ∧
      failed d' = failed d ∧ sent d' = sent d;
  unlock_law handler d :
    unlock_handler = Some handler → inv d → locked d = true →
    ∃ d', handler d = Some d' ∧ inv d' ∧ locked d' = false ∧
      failed d' = failed d ∧ sent d' = sent d;
  lock_pair : lock_handler = None ↔ unlock_handler = None;
}.

(** ** The contract of a function that writes

    [pending p sk]: the bytes [p] wait in the ready buffer.  Between two
    instructions nothing does.  [emits_from p q strict m bs]: called with [p]
    pending, [m] returns; unless a write fails meanwhile it returns zero
    having sent exactly [bs] and leaves [q] pending.  With [strict], zero is
    returned only if no write has failed. *)

Definition pending {D} (p : list byte) (sk : guac_socket D) : Prop :=
  __ready sk = length p ∧ (length p < GUAC_SOCKET_BASE64_READY_BUFFER_SIZE)%nat ∧
  take (length p) (__ready_buf sk) = p ∧
  length (__ready_buf sk) = GUAC_SOCKET_BASE64_READY_BUFFER_SIZE ∧
  length (__encoded_buf sk) = GUAC_SOCKET_BASE64_ENCODED_BUFFER_SIZE.

Definition same_buffers {D} (sk sk' : guac_socket D) : Prop :=
  __ready sk' = __ready sk ∧ __ready_buf sk' = __ready_buf sk ∧
  __encoded_buf sk' = __encoded_buf sk.

Lemma same_buffers_trans {D} (sk1 sk2 sk3 : guac_socket D) :
  same_buffers sk1 sk2 → same_buffers sk2 sk3 → same_buffers sk1 sk3.
Proof. unfold same_buffers. intuition congruence. Qed.

Lemma same_buffers_pending {D} p (sk sk' : guac_socket D) :
  same_buffers sk sk' → pending p sk → pending p sk'.
Proof. unfold same_buffers, pending. intros (-> & -> & ->). done. Qed.

Section emits.
Context {D : Type} `{LawfulSocket D}.
Implicit Types sk : guac_socket D.

Definition progress (strict : bool) (bs : list byte) sk (r : Z) sk' : Prop :=
  inv (data sk') ∧
  locked (data sk') = locked (data sk) ∧
  (failed (data sk') = false →
     r = 0 ∧ failed (data sk) = false ∧ sent (data sk') = sent (data sk) ++ bs) ∧
  (strict = true → failed (data sk) = false → r = 0 → failed (data sk') = false).

Definition emits_from (p q : list byte) (strict : bool) (m : M D Z) (bs : list byte) : Prop :=
  ∀ sk, pending p sk → inv (data sk) →
    ∃ r sk', m sk = Some (r, sk') ∧ pending (if r =? 0 then q else []) sk' ∧
      progress strict bs sk r sk'.

Definition emits := emits_from [] [].

Lemma progress_refl strict sk : inv (data sk) → progress strict [] sk 0 sk.
Proof. unfold progress. rewrite app_nil_r. tauto. Qed.

Lemma progress_inv strict bs sk r sk' : progress strict bs sk r sk' → inv (data sk').
Proof. by intros []. Qed.

Lemma progress_trans strict bs1 bs2 sk1 sk2 sk3 r :
  progress strict bs1 sk1 0 sk2 → progress strict bs2 sk2 r sk3 →
  progress strict (bs1 ++ bs2) sk1 r sk3.
Proof.
  unfold progress. intros (I1 & L1 & P1 & S1) (I2 & L2 & P2 & S2).
  split; [done|]. split; [congruence|]. split; [|tauto].
  intros (-> & Hf2 & ->)%P2. apply P1 in Hf2 as (_ & ? & ->). by rewrite app_assoc.
Qed.

Lemma progress_weaken strict bs sk r sk' :
  progress true bs sk r sk' → progress strict bs sk r sk'.
Proof. unfold progress. destruct strict; intuition done. Qed.

(** A result other than zero that comes with a failed write. *)

Lemma progress_failed strict bs bs' sk r r' sk' :
  progress strict bs sk r sk' → r ≠ 0 → r' ≠ 0 → progress strict bs' sk r' sk'.
Proof. unfold progress. intuition. Qed.

Lemma progress_strict_true strict bs sk sk' :
  progress strict bs sk 0 sk' →
  (strict = true → failed (data sk) = false → failed (data sk') = false).
Proof. unfold progress. intuition. Qed.

(** Composition with [||]. *)

Lemma emits_or p q r strict (a b : M D Z) x y :
  emits_from p q strict a x → emits_from q r strict b y →
  emits_from p r strict (a <||> b) (x ++ y).
Proof.
  intros Ha Hb sk Hsk Hi. destruct (Ha sk Hsk Hi) as (ra & sk1 & Ea & Hp1 & P1).
  unfold c_or, mbind, M_bind. rewrite Ea. destruct (Z.eqb_spec ra 0) as [->|Hra].
  - destruct (Hb sk1 Hp1 (progress_inv _ _ _ _ _ P1)) as (rb & sk2 & Eb & Hp2 & P2). rewrite Eb.
    eexists _, sk2. split; [done|].
    destruct (Z.eqb_spec rb 0) as [->|Hrb]; cbn; (split; [done|]).
    + by eapply progress_trans.
    + eapply progress_failed; [by eapply progress_trans|done..].
  - eexists _, sk1. split; [done|]. split; [done|]. by eapply progress_failed.
Qed.

Lemma emits_or' p q strict (a b : M D Z) x y z :
  z = x ++ y →
  emits_from p [] strict a x → emits_from [] q strict b y →
  emits_from p q strict (a <||> b) z.
Proof. intros ->. apply emits_or. Qed.

Lemma emits_weaken p q strict m bs : emits_from p q true m bs → emits_from p q strict m bs.
Proof.
  intros Hm sk Hsk Hi. destruct (Hm sk Hsk Hi) as (r & sk' & ? & ? & ?).
  eauto 6 using progress_weaken.
Qed.

(** ** Plain writes *)

Definition writes (m : M D Z) (bs : list byte) : Prop :=
  ∀ sk, inv (data sk) →
    ∃ r sk', m sk = Some (r, sk') ∧ same_buffers sk sk' ∧ progress true bs sk r sk'.

Lemma writes_emits m bs : writes m bs → emits true m bs.
Proof.
  intros Hm sk Hsk Hi. destruct (Hm sk Hi) as (r & sk' & ? & ? & ?).
  exists r, sk'. split; [done|]. split; [|done].
  destruct (r =? 0); by eapply same_buffers_pending.
Qed.

Lemma write_step buf sk :
  inv (data sk) → buf ≠ [] → Z.of_nat (length buf) ≤ INT_MAX →
  ∃ r sk', __guac_socket_write buf sk = Some (r, sk') ∧ same_buffers sk sk' ∧
    inv (data sk') ∧ locked (data sk') = locked (data sk) ∧
    ((r = -1 ∧ failed (data sk') = true) ∨
     (1 ≤ r ≤ Z.of_nat (length buf) ∧ failed (data sk') = failed (data sk) ∧
      sent (data sk') = sent (data sk) ++ take (Z.to_nat r) buf)).
Proof.
  intros Hi Hb Hl. unfold __guac_socket_write, call, modify, mbind, M_bind. cbn.
  pose proof (timestamp_law (data sk) Hi) as (Hti & Hts & Htf & Htl).
  destruct (guac_timestamp_current (data sk)) as [t d] eqn:E. cbn in *.
  destruct (write_law d buf Hti Hb Hl) as (h & r & d' & Eh & Er & Ei & Elk & Hr).
  rewrite Eh. cbn. rewrite Er. eexists r, _. split; [done|]. cbn.
  split; [done|]. split; [done|]. split; [congruence|]. rewrite <-Hts, <-Htf. done.
Qed.

Lemma write_loop_writes fuel buf :
  (length buf < fuel)%nat → Z.of_nat (length buf) ≤ INT_MAX →
  writes (guac_socket_write_loop fuel buf) buf.
Proof.
  revert buf. induction fuel as [|fuel IH]; intros buf Hf Hl; [lia|].
  intros sk Hi. destruct buf as [|c buf].
  { exists 0, sk. split; [done|]. split; [done|]. by apply progress_refl. }
  cbn [guac_socket_write_loop].
  destruct (write_step (c :: buf) sk Hi ltac:(done) Hl)
    as (r & sk1 & E & Hsame & Hi1 & Hlk & Hr).
  rewrite (bind_run _ _ _ _ _ E). clear E. remember (c :: buf) as b eqn:Eb.
  assert (0 < length b)%nat by (subst; cbn; lia).
  destruct Hr as [[-> Hfail]|(Hr & Hfail & Hsent)].
  { exists 1, sk1. split; [done|]. split; [done|].
    split; [done|]. split; [done|]. split; [congruence|done]. }
  unfold INT_MAX in *. rewrite i32_small by (unfold is_i32; lia).
  destruct (Z.eqb_spec r (-1)); [lia|].
  rewrite (proj2 (andb_true_iff _ _)) by lia.
  destruct (IH (drop (Z.to_nat r) b)) with (sk := sk1) as (r2 & sk2 & -> & Hsame2 & P2);
    [rewrite length_drop; lia..|done|].
  exists r2, sk2. split; [done|]. split; [by eapply same_buffers_trans|].
  rewrite <-(take_drop (Z.to_nat r) b). eapply progress_trans; [|done].
  split; [done|]. split; [done|]. split; [|congruence].
  intros. split; [done|]. split; congruence.
Qed.

Lemma socket_write_writes buf :
  Z.of_nat (length buf) ≤ INT_MAX → writes (guac_socket_write buf) buf.
Proof. intros. apply write_loop_writes; [lia|done]. Qed.

Lemma write_string_writes s :
  Z.of_nat (length s) ≤ INT_MAX → writes (guac_socket_write_string s) s.
Proof.
  intros Hl sk Hi. destruct (socket_write_writes s Hl sk Hi) as (r & sk' & E & Hs & P).
  unfold guac_socket_write_string. rewrite (bind_run _ _ _ _ _ E).
  destruct (Z.eqb_spec r 0) as [->|Hr].
  - by exists 0, sk'.
  - exists 1, sk'. split; [done|]. split; [done|]. by eapply progress_failed.
Qed.

Lemma write_int_writes i : is_i64 i → writes (guac_socket_write_int i) (fmt_d i).
Proof.
  intros Hi. unfold guac_socket_write_int.
  rewrite snprintf_fmt_d by (done || lia). apply socket_write_writes.
  pose proof (fmt_d_length i Hi). unfold INT_MAX. lia.
Qed.

(** ** Base64 output *)

Lemma encode_base64_length a b c : length (__guac_socket_encode_base64 a b c) = 4%nat.
Proof. unfold __guac_socket_encode_base64. by repeat zif. Qed.

Lemma encode_ready_length src :
  Z.of_nat (length (encode_ready src)) = ((Z.of_nat (length src) + 2) `div` 3) * 4.
Proof.
  induction src as [|a|a b|a b c src IH] using list_ind3.
  - done.
  - cbn [encode_ready]. by rewrite encode_base64_length.
  - cbn [encode_ready]. by rewrite encode_base64_length.
  - cbn [encode_ready]. rewrite length_app, encode_base64_length.
    cbn [length]. dlia.
Qed.

Lemma encode_ready_app x y :
  (Z.of_nat (length x)) `mod` 3 = 0 → encode_ready (x ++ y) = encode_ready x ++ encode_ready y.
Proof.
  induction x as [|a|a b|a b c x IH] using list_ind3; intros Hm.
  - done.
  - done.
  - done.
  - cbn [app encode_ready]. rewrite IH, app_assoc; [done|]. cbn [length] in Hm. dlia.
Qed.

Definition holds (p : list byte) sk : Prop :=
  __ready sk = length p ∧ (length p ≤ GUAC_SOCKET_BASE64_READY_BUFFER_SIZE)%nat ∧
  take (length p) (__ready_buf sk) = p ∧
  length (__ready_buf sk) = GUAC_SOCKET_BASE64_READY_BUFFER_SIZE ∧
  length (__encoded_buf sk) = GUAC_SOCKET_BASE64_ENCODED_BUFFER_SIZE.

Lemma pending_holds p sk :
  pending p sk ↔ holds p sk ∧ (length p < GUAC_SOCKET_BASE64_READY_BUFFER_SIZE)%nat.
Proof. unfold pending, holds. intuition lia. Qed.

(** [guac_socket_write] reports an error as 1: it never returns a negative value. *)

Lemma socket_write_zero_one buf sk r sk' :
  guac_socket_write buf sk = Some (r, sk') → r = 0 ∨ r = 1.
Proof.
  unfold guac_socket_write. generalize (zero_write_limit + S (length buf))%nat as fuel.
  intros fuel. revert buf sk. induction fuel as [|fuel IH]; intros b sk E; [done|].
  cbn [guac_socket_write_loop] in E. destruct b as [|c b]; [injection E; auto|].
  unfold mbind, M_bind in E. destruct (__guac_socket_write _ _) as [[w sk3]|]; [|done].
  destruct (i32 w =? -1); [injection E; auto|].
  destruct (_ && _); [by eapply IH|done].
Qed.

(** A flush of the base64 buffer returns zero, whatever happens to the write. *)

Lemma flush_base64_run p sk :
  holds p sk → inv (data sk) →
  ∃ sk', guac_socket_flush_base64 sk = Some (0, sk') ∧ pending [] sk' ∧
    progress false (encode_ready p) sk 0 sk'.
Proof.
  unfold holds. unfold GUAC_SOCKET_BASE64_READY_BUFFER_SIZE.
  intros (Hr & Hl & Ht & Hb & He) Hi.
  pose proof (encode_ready_length p) as Hlen.
  assert (Hmax : (length (encode_ready p) ≤ 1024)%nat) by dlia.
  unfold guac_socket_flush_base64. rewrite get_run, Hr, Ht, modify_run.
  set (enc := encode_ready p) in *.
  set (sk1 := set_encoded_buf _ sk).
  destruct (socket_write_writes enc) with (sk := sk1) as (r & sk2 & E & Hs & P);
    [unfold INT_MAX; lia|done|].
  rewrite (bind_run _ _ _ _ _ E).
  assert (Hr2 : (i32 r <? 0) = false)
    by (by destruct (socket_write_zero_one enc _ _ _ E) as [->| ->]).
  rewrite Hr2. eexists. split; [done|]. destruct Hs as (Hs1 & Hs2 & Hs3). split.
  - unfold pending, set_ready, GUAC_SOCKET_BASE64_READY_BUFFER_SIZE,
      GUAC_SOCKET_BASE64_ENCODED_BUFFER_SIZE in *. cbn.
    rewrite Hs2, Hs3. subst sk1. cbn. rewrite length_app, length_drop.
    repeat split; [lia|done|lia].
  - destruct P as (Pi & P1 & P2 & _). do 2 (split; [done|]). split; [|done].
    intros Hf. apply P2 in Hf as (_ & ? & ?). done.
Qed.

Lemma flush_base64_emits p :
  (length p ≤ GUAC_SOCKET_BASE64_READY_BUFFER_SIZE)%nat →
  emits_from p [] false guac_socket_flush_base64 (encode_ready p).
Proof.
  intros Hp sk [Hh _]%pending_holds Hi.
  destruct (flush_base64_run p sk Hh Hi) as (sk' & ? & ? & ?).
  by exists 0, sk'.
Qed.

Lemma splice_holds p x sk :
  holds p sk → (length p + length x ≤ GUAC_SOCKET_BASE64_READY_BUFFER_SIZE)%nat →
  holds (p ++ x) (set_ready (__ready sk + length x) (splice (__ready sk) x (__ready_buf sk)) sk).
Proof.
  unfold holds, splice. intros (Hr & Hl & Ht & Hb & He) Hx. cbn.
  rewrite Hr, Ht, !length_app, length_drop. repeat split; [lia| |lia|done].
  rewrite app_assoc, take_app_le by (rewrite length_app; lia).
  by rewrite take_ge by (rewrite length_app; lia).
Qed.

Lemma base64_chunk_bounds (p s : list byte) :
  (length p < GUAC_SOCKET_BASE64_READY_BUFFER_SIZE)%nat → s ≠ [] →
  let len := base64_chunk (length p) s in
  (0 < len ∧ len ≤ length s ∧ length p + len ≤ GUAC_SOCKET_BASE64_READY_BUFFER_SIZE ∧
   (length p + len ≠ GUAC_SOCKET_BASE64_READY_BUFFER_SIZE → len = length s))%nat.
Proof.
  intros Hp Hs. destruct s as [|c s]; [done|]. unfold base64_chunk.
  cbn [length]. zif; lia.
Qed.

(** One turn of the loop: the chunk joins the pending bytes, and a full buffer is flushed. *)

Lemma write_base64_step fuel (p s : list byte) sk :
  s ≠ [] → pending p sk →
  let len := base64_chunk (length p) s in
  let p' := p ++ take len s in
  let k := guac_socket_write_base64_loop fuel (drop len s) in
  ∃ sk1, data sk1 = data sk ∧ holds p' sk1 ∧
    guac_socket_write_base64_loop (S fuel) s sk =
    (if (length p' =? GUAC_SOCKET_BASE64_READY_BUFFER_SIZE)%nat then
      retval ← guac_socket_flush_base64;
      if (i32 retval <? 0) then mret (i32 retval) else k
    else k) sk1.
Proof.
  intros Hs [Hh Hp]%pending_holds. pose proof (base64_chunk_bounds p s Hp Hs) as Hlen.
  cbn zeta in *. set (len := base64_chunk (length p) s) in *.
  eexists. split; [|split].
  2: { apply (splice_holds p (take len s) sk Hh). rewrite length_take. lia. }
  - done.
  - destruct Hh as (Hr & _). destruct s as [|c s]; [done|].
    cbn [guac_socket_write_base64_loop]. rewrite get_run, Hr. fold len.
    rewrite modify_run, length_app, length_take, Nat.min_l by lia. done.
Qed.

Lemma write_base64_loop_run fuel src p :
  (length src < fuel)%nat → (length p < GUAC_SOCKET_BASE64_READY_BUFFER_SIZE)%nat →
  ∃ q out, encode_ready (p ++ src) = out ++ encode_ready q ∧
    (length q < GUAC_SOCKET_BASE64_READY_BUFFER_SIZE)%nat ∧
    ∀ sk, pending p sk → inv (data sk) →
      ∃ sk', guac_socket_write_base64_loop fuel src sk = Some (0, sk') ∧
      pending q sk' ∧ progress false out sk 0 sk'.
Proof.
  revert src p. induction fuel as [|fuel IH]; intros src p Hf Hp; [lia|].
  destruct (decide (src = [])) as [->|Hs].
  { exists p, []. rewrite app_nil_r. split; [done|]. split; [done|].
    intros sk Hsk Hi. exists sk. do 2 (split; [done|]). by apply progress_refl. }
  pose proof (base64_chunk_bounds p src Hp Hs) as (H1 & H2 & H3 & H4).
  pose proof (λ sk, write_base64_step fuel p src sk Hs) as Hstep. cbn zeta in *.
  set (len := base64_chunk (length p) src) in *. set (p' := p ++ take len src) in *.
  assert (Hp' : length p' = (length p + len)%nat)
    by (subst p'; rewrite length_app, length_take; lia).
  assert (Ex : p ++ src = p' ++ drop len src)
    by (subst p'; by rewrite <-app_assoc, take_drop).
  rewrite Ex. rewrite Hp' in Hstep.
  destruct (Nat.eqb_spec (length p + len) GUAC_SOCKET_BASE64_READY_BUFFER_SIZE) as [E|E].
  - destruct (IH (drop len src) []) as (q & out & Eq & Hq & Hrun);
      [rewrite length_drop; lia|cbn; unfold GUAC_SOCKET_BASE64_READY_BUFFER_SIZE in *; lia|].
    exists q, (encode_ready p' ++ out). split.
    { rewrite encode_ready_app, <-app_assoc, <-Eq; [done|]. by rewrite Hp', E. }
    split; [done|]. intros sk Hsk Hi. destruct (Hstep sk Hsk) as (sk1 & Ed & Hh & ->).
    destruct (flush_base64_run p' sk1 Hh) as (sk2 & E2 & Hp2 & P2); [by rewrite Ed|].
    rewrite (bind_run _ _ _ _ _ E2).
    destruct (Hrun sk2 Hp2 (progress_inv _ _ _ _ _ P2)) as (sk3 & E3 & Hp3 & P3).
    exists sk3. split; [done|]. split; [done|]. eapply progress_trans; [|done].
    unfold progress in *. by rewrite Ed in P2.
  - specialize (H4 E). rewrite drop_ge by lia. rewrite app_nil_r.
    rewrite drop_ge in Hstep by lia.
    exists p', []. split; [done|]. split; [lia|]. intros sk Hsk Hi.
    destruct (Hstep sk Hsk) as (sk1 & Ed & Hh & ->).
    exists sk1. destruct fuel; [lia|]. split; [done|].
    split; [apply pending_holds; split; [done|lia]|].
    unfold progress. rewrite Ed, app_nil_r. tauto.
Qed.

(** Writing data and flushing sends its base64 encoding, unless a write fails. *)

Lemma write_base64_emits src :
  ∃ q out, encode_ready src = out ++ encode_ready q ∧
    (length q ≤ GUAC_SOCKET_BASE64_READY_BUFFER_SIZE)%nat ∧
    emits_from [] q false (guac_socket_write_base64 src) out.
Proof.
  destruct (write_base64_loop_run (2 + length src) src []) as (q & out & E & Hq & Hrun);
    [lia|cbn; unfold GUAC_SOCKET_BASE64_READY_BUFFER_SIZE; lia|].
  exists q, out. split; [done|]. split; [lia|].
  intros sk Hsk Hi. destruct (Hrun sk Hsk Hi) as (sk' & ? & ? & ?). by exists 0, sk'.
Qed.
End emits.

(** ** What a reader relies on

    [BoundedReader]: the calls return, with at most as many bytes as were
    asked for.  [Stream]: there is a peer whose bytes [remaining d] arrive in
    order, in pieces of any size, and until they are exhausted neither a
    timeout nor an error comes in between. *)

Class BoundedReader (D : Type) `{SocketOps D} := {
  select_returns handler d usec_timeout :
    select_handler = Some handler → ∃ r d', handler d usec_timeout = Some (r, d');
  read_returns handler d n :
    read_handler = Some handler → (0 < n)%nat → Z.of_nat n ≤ INT_MAX →
    ∃ r bytes d', handler d n = Some (r, bytes, d') ∧
      (i32 r ≤ 0 ∨ length bytes = Z.to_nat (i32 r) ∧ (length bytes ≤ n)%nat);
}.

Class Stream (D : Type) `{SocketOps D} := {
  remaining : D → list byte;
  stream_select handler d usec_timeout :
    select_handler = Some handler → remaining d ≠ [] →
    ∃ r d', handler d usec_timeout = Some (r, d') ∧ 0 < r ∧ remaining d' = remaining d;
  stream_read d n :
    (0 < n)%nat → Z.of_nat n ≤ INT_MAX → remaining d ≠ [] →
    ∃ handler bytes d', read_handler = Some handler ∧
      handler d n = Some (Z.of_nat (length bytes), bytes, d') ∧
      (0 < length bytes ≤ n)%nat ∧ remaining d = bytes ++ remaining d';
}.

Section reading.
Context {D : Type} `{SocketOps D}.
Implicit Types sk : guac_socket D.

Lemma select_run `{!BoundedReader D} t sk :
  ∃ r d, guac_socket_select t sk = Some (r, set_data d sk).
Proof.
  unfold guac_socket_select. destruct select_handler as [h|] eqn:E.
  - destruct (select_returns h (data sk) t E) as (r & d & Eh). unfold call. rewrite Eh. eauto.
  - exists 1, (data sk). by destruct sk.
Qed.

Lemma read_run `{!BoundedReader D} n sk :
  (0 < n)%nat → Z.of_nat n ≤ INT_MAX →
  ∃ r bytes d, guac_socket_read n sk = Some (r, bytes, set_data d sk) ∧
    (i32 r ≤ 0 ∨ length bytes = Z.to_nat (i32 r) ∧ (length bytes ≤ n)%nat).
Proof.
  intros Hn Hm. unfold guac_socket_read. destruct read_handler as [h|] eqn:E.
  - destruct (read_returns h (data sk) n E Hn Hm) as (r & bytes & d & Eh & Hr).
    unfold call. rewrite Eh. by exists r, bytes, d.
  - exists 0, [], (data sk). split; [by destruct sk|]. by left.
Qed.

Lemma select_stream `{!Stream D} t sk :
  remaining (data sk) ≠ [] →
  ∃ r d, guac_socket_select t sk = Some (r, set_data d sk) ∧ 0 < r ∧
    remaining d = remaining (data sk).
Proof.
  intros Hr. unfold guac_socket_select. destruct select_handler as [h|] eqn:E.
  - destruct (stream_select h (data sk) t E Hr) as (r & d & Eh & ? & ?).
    unfold call. rewrite Eh. eauto.
  - exists 1, (data sk). split; [by destruct sk|]. done.
Qed.

Lemma read_stream `{!Stream D} n sk :
  (0 < n)%nat → Z.of_nat n ≤ INT_MAX → remaining (data sk) ≠ [] →
  ∃ bytes d, guac_socket_read n sk = Some (Z.of_nat (length bytes), bytes, set_data d sk) ∧
    (0 < length bytes ≤ n)%nat ∧ remaining (data sk) = bytes ++ remaining d.
Proof.
  intros Hn Hm Hr. destruct (stream_read (data sk) n Hn Hm Hr) as (h & bytes & d & E & Eh & ? & ?).
  unfold guac_socket_read, call. rewrite E, Eh. eauto.
Qed.
End reading.
