(* ===== verification/SocketFd.v ===== *)
(** * Sockets over a file descriptor (src/src/libguac/socket-fd.c, wait-fd.c)

    The handlers [guac_socket_open] installs, over an operating system given
    by the class [Os]; the instance [fd_lawful] discharges the promise that
    Socket.v asks of an implementation, from what POSIX documents of
    [write] (the class [LawfulOs]). *)

From S2P Require Import Prelude Error Socket.
Local Open Scope Z_scope.

Definition GUAC_SOCKET_OUTPUT_BUFFER_SIZE : nat := Z.to_nat 8192.

(** ** The operating system

    [os_write w buf] is [write] on the descriptor, [os_read w n] is [read]
    with the bytes it stores, [os_poll w ms] is [poll] for input on the
    descriptor and [os_now w] the clock. [os_zero_writes] bounds how often
    [write] may accept nothing in the course of one call of
    [guac_socket_fd_write]. *)

Class Os (W : Type) := {
  os_write : W → list byte → Z * W;
  os_read : W → nat → Z * list byte * W;
  os_poll : W → Z → Z * W;
  os_now : W → Z;
  os_zero_writes : nat;
}.

(** ** The state: [guac_socket_fd_data], and the calling thread's [guac_error] *)

Record guac_socket_fd_data (W : Type) := mk_fd_data {
  world : W;
  guac_error : guac_status;
  written : nat;
  out_buf : list byte;
  socket_lock : bool;
  buffer_lock : bool;
}.
Arguments mk_fd_data {W}.
Arguments world {W} _.
Arguments guac_error {W} _.
Arguments written {W} _.
Arguments out_buf {W} _.
Arguments socket_lock {W} _.
Arguments buffer_lock {W} _.

Section fd.
Context {W : Type} `{Os W}.
Implicit Types d : guac_socket_fd_data W.

Definition set_world (w : W) (e : guac_status) d : guac_socket_fd_data W :=
  mk_fd_data w e (written d) (out_buf d) (socket_lock d) (buffer_lock d).

Definition set_buffer (n : nat) (buf : list byte) d : guac_socket_fd_data W :=
  mk_fd_data (world d) (guac_error d) n buf (socket_lock d) (buffer_lock d).

Definition set_socket_lock (b : bool) d : guac_socket_fd_data W :=
  mk_fd_data (world d) (guac_error d) (written d) (out_buf d) b (buffer_lock d).

Definition set_buffer_lock (b : bool) d : guac_socket_fd_data W :=
  mk_fd_data (world d) (guac_error d) (written d) (out_buf d) (socket_lock d) b.

(** ** The code

    [None]: the call does not return, or leaves the memory it was given. *)

Fixpoint fd_write_loop (fuel : nat) (buffer : list byte) d
    : option (Z * guac_socket_fd_data W) :=
  match fuel with
  | O => None
  | S fuel' =>
      match buffer with
      | [] => Some (0, d)
      | _ =>
          let '(retval, w) := os_write (world d) buffer in
          let retval := i32 retval in
          if retval <? 0 then Some (retval, set_world w GUAC_STATUS_SEE_ERRNO d)
          else if retval <=? Z.of_nat (length buffer) then
            fd_write_loop fuel' (drop (Z.to_nat retval) buffer) (set_world w (guac_error d) d)
          else None
      end
  end.

Definition guac_socket_fd_write d (buf : list byte) : option (Z * guac_socket_fd_data W) :=
  fd_write_loop (os_zero_writes + S (length buf)) buf d.

Definition guac_socket_fd_read_handler d (count : nat)
    : option (Z * list byte * guac_socket_fd_data W) :=
  let '(retval, bytes, w) := os_read (world d) count in
  let retval := i32 retval in
  Some (retval, bytes,
    set_world w (if retval <? 0 then GUAC_STATUS_SEE_ERRNO else guac_error d) d).

Definition guac_socket_fd_flush d : option (Z * guac_socket_fd_data W) :=
  if (0 <? written d)%nat then
    match guac_socket_fd_write d (take (written d) (out_buf d)) with
    | Some (r, d') =>
        if r =? 0 then Some (0, set_buffer 0 (out_buf d') d') else Some (1, d')
    | None => None
    end
  else Some (0, d).

(** A lock taken twice by its holder never returns. *)

Definition with_buffer_lock {A} (f : guac_socket_fd_data W → option (A * guac_socket_fd_data W))
    d : option (A * guac_socket_fd_data W) :=
  if buffer_lock d then None
  else
    match f (set_buffer_lock true d) with
    | Some (a, d') => Some (a, set_buffer_lock false d')
    | None => None
    end.

Definition guac_socket_fd_flush_handler d : option (Z * guac_socket_fd_data W) :=
  with_buffer_lock guac_socket_fd_flush d.

(** [remaining] is zero once the buffer is full; the retry after a flush is a turn of the loop. *)

Fixpoint fd_write_buffered_loop (fuel : nat) (current : list byte) d
    : option (bool * guac_socket_fd_data W) :=
  match fuel with
  | O => None
  | S fuel' =>
      match current with
      | [] => Some (true, d)
      | _ =>
          let remaining := (GUAC_SOCKET_OUTPUT_BUFFER_SIZE - written d)%nat in
          if (remaining =? 0)%nat then
            match guac_socket_fd_flush d with
            | Some (r, d') =>
                if r =? 0 then fd_write_buffered_loop fuel' current d' else Some (false, d')
            | None => None
            end
          else
            let chunk_size :=
              if (remaining <? length current)%nat then remaining else length current in
            fd_write_buffered_loop fuel' (drop chunk_size current)
              (set_buffer (written d + chunk_size)
                 (splice (written d) (take chunk_size current) (out_buf d)) d)
      end
  end.

Definition guac_socket_fd_write_buffered (buf : list byte) d
    : option (Z * guac_socket_fd_data W) :=
  match fd_write_buffered_loop (2 + 2 * length buf) buf d with
  | Some (true, d') => Some (Z.of_nat (length buf), d')
  | Some (false, d') => Some (-1, d')
  | None => None
  end.

(** [retval] is an [int]. *)

Definition guac_socket_fd_write_handler d (buf : list byte)
    : option (Z * guac_socket_fd_data W) :=
  match with_buffer_lock (guac_socket_fd_write_buffered buf) d with
  | Some (r, d') => Some (i32 r, d')
  | None => None
  end.

(** wait-fd.c: the timeout is rounded up to whole milliseconds; a negative one waits for ever. *)

Definition guac_wait_for_fd (w : W) (usec_timeout : Z) : Z * W :=
  if usec_timeout <? 0 then os_poll w (-1)
  else os_poll w (Z.quot (i32 (usec_timeout + 999)) 1000).

Definition guac_socket_fd_select_handler d (usec_timeout : Z)
    : option (Z * guac_socket_fd_data W) :=
  let '(retval, w) := guac_wait_for_fd (world d) usec_timeout in
  let e :=
    if retval <? 0 then GUAC_STATUS_SEE_ERRNO
    else if retval =? 0 then GUAC_STATUS_TIMEOUT else guac_error d in
  Some (retval, set_world w e d).

Definition guac_socket_fd_lock_handler d : option (guac_socket_fd_data W) :=
  if socket_lock d then None else Some (set_socket_lock true d).

Definition guac_socket_fd_unlock_handler d : option (guac_socket_fd_data W) :=
  if socket_lock d then Some (set_socket_lock false d) else None.

(** The handlers that [guac_socket_open] installs. *)

#[export] Instance fd_ops : SocketOps (guac_socket_fd_data W) := {
  guac_timestamp_current d := (os_now (world d), d);
  read_handler := Some guac_socket_fd_read_handler;
  write_handler := Some guac_socket_fd_write_handler;
  select_handler := Some guac_socket_fd_select_handler;
  flush_handler := Some guac_socket_fd_flush_handler;
  lock_handler := Some guac_socket_fd_lock_handler;
  unlock_handler := Some guac_socket_fd_unlock_handler;
  zero_write_limit := 0;
}.

(** [out_buf], and the buffers of the socket, are not initialised. *)

Definition guac_socket_open (w : W) (e : guac_status) (out ready_buf encoded_buf : list byte)
    : guac_socket (guac_socket_fd_data W) :=
  guac_socket_alloc (mk_fd_data w e 0 out false false) ready_buf encoded_buf.
End fd.

(** ** What is relied on of the operating system

    [delivered w] is what [write] has accepted, in order; [broken w] records
    that a [write] has failed. *)

Class LawfulOs (W : Type) `{Os W} := {
  delivered : W → list byte;
  broken : W → bool;
  os_write_law w buf :
    buf ≠ [] → Z.of_nat (length buf) ≤ INT_MAX →
    let '(r, w') := os_write w buf in
    (r = -1 ∧ broken w' = true) ∨
    (1 ≤ r ≤ Z.of_nat (length buf) ∧ broken w' = broken w ∧
     delivered w' = delivered w ++ take (Z.to_nat r) buf);
}.

Section fd_proofs.
Context {W : Type} `{LawfulOs W}.
Implicit Types d : guac_socket_fd_data W.

Definition buffer_ok d : Prop :=
  (written d ≤ GUAC_SOCKET_OUTPUT_BUFFER_SIZE)%nat ∧
  length (out_buf d) = GUAC_SOCKET_OUTPUT_BUFFER_SIZE.

Definition fd_sent d : list byte := delivered (world d) ++ take (written d) (out_buf d).

Definition same_locks d d' : Prop :=
  socket_lock d' = socket_lock d ∧ buffer_lock d' = buffer_lock d.

Lemma fd_write_loop_run fuel buf d :
  (length buf < fuel)%nat → Z.of_nat (length buf) ≤ INT_MAX →
  ∃ r w e, fd_write_loop fuel buf d = Some (r, set_world w e d) ∧
    ((r ≠ 0 ∧ broken w = true) ∨
     (r = 0 ∧ broken w = broken (world d) ∧ delivered w = delivered (world d) ++ buf)).
Proof.
  revert buf d. induction fuel as [|fuel IH]; intros buf d Hf Hl; [lia|].
  destruct buf as [|c buf].
  { exists 0, (world d), (guac_error d). rewrite app_nil_r. destruct d. auto. }
  cbn [fd_write_loop]. set (b := c :: buf) in *.
  pose proof (os_write_law (world d) b ltac:(done) Hl) as Hw.
  destruct (os_write (world d) b) as [r w]. unfold INT_MAX in *.
  assert (is_i32 r) by (unfold is_i32; destruct Hw as [[-> _]|[? _]]; lia).
  rewrite i32_small by done. destruct (Z.ltb_spec r 0) as [Hr|Hr].
  { exists r, w, GUAC_STATUS_SEE_ERRNO. split; [done|]. left. split; [lia|].
    destruct Hw as [[_ ?]|[? _]]; [done|lia]. }
  destruct Hw as [[? _]|(Hr1 & Hb & Hd)]; [lia|].
  destruct (Z.leb_spec r (Z.of_nat (length b))); [|lia].
  destruct (IH (drop (Z.to_nat r) b) (set_world w (guac_error d) d)) as (r2 & w2 & e2 & E & Hr2);
    [rewrite length_drop; subst b; cbn [length] in *; lia..|].
  exists r2, w2, e2. split; [by rewrite E|]. cbn in Hr2.
  rewrite Hb, Hd in Hr2. destruct Hr2 as [?|(-> & ? & Ed)]; [by left|right].
  split; [done|]. split; [done|]. by rewrite Ed, <-app_assoc, take_drop.
Qed.

Lemma fd_flush_run d :
  buffer_ok d →
  ∃ r d', guac_socket_fd_flush d = Some (r, d') ∧ buffer_ok d' ∧ same_locks d d' ∧
    ((r ≠ 0 ∧ broken (world d') = true) ∨
     (r = 0 ∧ written d' = 0%nat ∧ broken (world d') = broken (world d) ∧
      fd_sent d' = fd_sent d)).
Proof.
  intros [Hw Hb]. unfold guac_socket_fd_flush. destruct (Nat.ltb_spec 0 (written d)).
  - unfold guac_socket_fd_write, GUAC_SOCKET_OUTPUT_BUFFER_SIZE in *.
    edestruct (fd_write_loop_run (os_zero_writes + S (length (take (written d) (out_buf d))))
      (take (written d) (out_buf d)) d) as (r & w & e & -> & Hr);
      [lia|rewrite length_take; unfold INT_MAX; lia|].
    destruct (Z.eqb_spec r 0) as [->|Hn]; eexists _, _; (split; [done|]).
    + destruct Hr as [[? _]|(_ & ? & Ed)]; [done|]. split; [split; cbn; [lia|done]|].
      split; [done|]. right. do 3 (split; [done|]). unfold fd_sent. cbn.
      by rewrite app_nil_r.
    + split; [done|]. split; [done|]. left. split; [done|].
      destruct Hr as [[_ ?]|(? & _)]; done.
  - exists 0, d. do 3 (split; [done|]). right. do 3 (split; [lia || done|]). done.
Qed.

Lemma fd_chunk_sent d (current : list byte) k :
  buffer_ok d → (k ≤ length current)%nat →
  (written d + k ≤ GUAC_SOCKET_OUTPUT_BUFFER_SIZE)%nat →
  let d' := set_buffer (written d + k) (splice (written d) (take k current) (out_buf d)) d in
  buffer_ok d' ∧ fd_sent d' = fd_sent d ++ take k current.
Proof.
  intros [Hw Hb] Hk Hs. cbn. unfold buffer_ok, fd_sent, splice. cbn.
  assert (Hl : length (take (written d) (out_buf d)) = written d) by (rewrite length_take; lia).
  assert (Hk' : length (take k current) = k) by (rewrite length_take; lia).
  split; [split; [done|]|].
  - rewrite !length_app, Hl, Hk', length_drop. lia.
  - rewrite <-app_assoc. f_equal. rewrite app_assoc, take_app_le by (rewrite length_app; lia).
    by rewrite take_ge by (rewrite length_app; lia).
Qed.

(** A turn that finds the buffer full is followed by one that does not. *)

Lemma fd_write_buffered_run fuel current d :
  (2 * length current + Nat.b2n (written d =? GUAC_SOCKET_OUTPUT_BUFFER_SIZE)%nat < fuel)%nat →
  buffer_ok d →
  ∃ ok d', fd_write_buffered_loop fuel current d = Some (ok, d') ∧ buffer_ok d' ∧
    same_locks d d' ∧
    ((ok = false ∧ broken (world d') = true) ∨
     (ok = true ∧ broken (world d') = broken (world d) ∧ fd_sent d' = fd_sent d ++ current)).
Proof.
  revert current d. induction fuel as [|fuel IH]; intros current d Hf Hok; [lia|].
  destruct current as [|c current].
  { exists true, d. do 3 (split; [done|]). right. rewrite app_nil_r. done. }
  cbn [fd_write_buffered_loop]. set (cur := c :: current) in *.
  assert (0 < length cur)%nat by (subst cur; cbn; lia).
  destruct (Nat.eqb_spec (GUAC_SOCKET_OUTPUT_BUFFER_SIZE - written d) 0) as [Hfull|Hroom].
  - assert (Ew : written d = GUAC_SOCKET_OUTPUT_BUFFER_SIZE) by (destruct Hok; lia).
    rewrite Ew, Nat.eqb_refl in Hf. cbn [Nat.b2n] in Hf.
    destruct (fd_flush_run d Hok) as (r & d1 & -> & Hok1 & [Hs1 Hs2] & Hr).
    destruct Hr as [[Hr Hbr]|(-> & Hw1 & Hbr & Hsent)].
    + apply Z.eqb_neq in Hr. rewrite Hr. exists false, d1. do 3 (split; [done|]). by left.
    + cbn [Z.eqb]. destruct (IH cur d1) as (ok & d2 & -> & Hok2 & [Hs3 Hs4] & Hr2);
        [rewrite Hw1; change (0 =? _)%nat with false; cbn [Nat.b2n]; lia|done|].
      exists ok, d2. split; [done|]. split; [done|]. split; [split; congruence|].
      by rewrite Hbr, Hsent in Hr2.
  - set (k := if (_ <? length cur)%nat then _ else _).
    assert (Hk : (0 < k ≤ length cur)%nat ∧
      (written d + k ≤ GUAC_SOCKET_OUTPUT_BUFFER_SIZE)%nat) by (subst k; zif; lia).
    destruct (fd_chunk_sent d cur k Hok) as [Hok1 Hsent]; [lia..|].
    set (d1 := set_buffer _ _ d) in *.
    destruct (IH (drop k cur) d1) as (ok & d2 & -> & Hok2 & Hs & Hr2); [|done|].
    { rewrite length_drop. destruct (_ =? _)%nat in Hf |- *;
        destruct (_ =? _)%nat; cbn [Nat.b2n] in *; lia. }
    exists ok, d2. do 3 (split; [done|]). rewrite Hsent, <-app_assoc, take_drop in Hr2. done.
Qed.

(** ** The promise of Socket.v *)

Definition fd_inv d : Prop := buffer_ok d ∧ buffer_lock d = false.

Lemma fd_write_handler_run d buf :
  fd_inv d → Z.of_nat (length buf) ≤ INT_MAX →
  ∃ r d', guac_socket_fd_write_handler d buf = Some (r, d') ∧ fd_inv d' ∧
    socket_lock d' = socket_lock d ∧
    ((r = -1 ∧ broken (world d') = true) ∨
     (r = Z.of_nat (length buf) ∧ broken (world d') = broken (world d) ∧
      fd_sent d' = fd_sent d ++ buf)).
Proof.
  intros [Hok Hl] Hb. unfold guac_socket_fd_write_handler, with_buffer_lock. rewrite Hl.
  unfold guac_socket_fd_write_buffered.
  destruct (fd_write_buffered_run (2 + 2 * length buf) buf (set_buffer_lock true d))
    as (ok & d' & -> & Hok' & [Hs _] & Hr); [destruct (_ =? _)%nat; cbn [Nat.b2n]; lia|done|].
  destruct Hr as [[-> Hbr]|(-> & Hbr & Hsent)]; eexists _, _; (split; [done|]);
    (split; [done|]); (split; [done|]).
  - by left.
  - right. split; [|done]. apply i32_small. unfold is_i32, INT_MAX in *. lia.
Qed.

#[export] Program Instance fd_lawful : LawfulSocket (guac_socket_fd_data W) := {|
  inv := fd_inv;
  sent := fd_sent;
  failed d := broken (world d);
  locked := socket_lock;
|}.
Next Obligation. done. Qed.
Next Obligation.
  intros d buf Hi Hb Hl. destruct (fd_write_handler_run d buf Hi Hl) as (r & d' & E & ? & ? & Hr).
  eexists _, r, d'. split; [done|]. do 3 (split; [done|]).
  destruct Hr as [?|(-> & ? & Hs)]; [by left|right].
  split; [destruct buf; [done|cbn [length]; lia]|]. split; [done|].
  by rewrite Nat2Z.id, take_ge by lia.
Qed.
Next Obligation.
  intros h d [= <-] [Hok Hl]. unfold guac_socket_fd_flush_handler, with_buffer_lock. rewrite Hl.
  destruct (fd_flush_run (set_buffer_lock true d) Hok) as (r & d' & -> & ? & [Hs _] & Hr).
  eexists r, _. split; [done|]. split; [done|]. split; [done|].
  destruct Hr as [?|(? & _ & ?)]; [by left|by right].
Qed.
Next Obligation.
  intros h d [= <-] ? Hl. cbn in Hl. unfold guac_socket_fd_lock_handler. rewrite Hl.
  eexists. split; [done|]. done.
Qed.
Next Obligation.
  intros h d [= <-] ? Hl. cbn in Hl. unfold guac_socket_fd_unlock_handler. rewrite Hl.
  eexists. split; [done|]. done.
Qed.
Next Obligation. done. Qed.

(** The write handler of a file descriptor's socket takes the whole of any buffer: it returns
    its length once every byte has been delivered or waits in the output buffer, behind the bytes
    written before, or -1 when a [write] failed. In between it flushes the output buffer whenever
    that is full, and never stores outside of it. *)

Theorem fd_write_handler_total d buf :
  fd_inv d → Z.of_nat (length buf) ≤ INT_MAX →
  ∃ r d', guac_socket_fd_write_handler d buf = Some (r, d') ∧ fd_inv d' ∧
    ((r = -1 ∧ broken (world d') = true) ∨
     (r = Z.of_nat (length buf) ∧ broken (world d') = broken (world d) ∧
      delivered (world d') ++ take (written d') (out_buf d')
      = delivered (world d) ++ take (written d) (out_buf d) ++ buf)).
Proof.
  intros Hi Hl. destruct (fd_write_handler_run d buf Hi Hl) as (r & d' & ? & ? & _ & Hr).
  exists r, d'. unfold fd_sent in Hr. rewrite <-app_assoc in Hr. done.
Qed.

(** A flush that returns zero has handed every buffered byte to [write], in order, and left
    the output buffer empty; any other result comes with a failed [write]. *)

Theorem fd_flush_delivers d :
  fd_inv d →
  ∃ r d', guac_socket_fd_flush_handler d = Some (r, d') ∧ fd_inv d' ∧
    ((r ≠ 0 ∧ broken (world d') = true) ∨
     (r = 0 ∧ written d' = 0%nat ∧
      delivered (world d') = delivered (world d) ++ take (written d) (out_buf d))).
Proof.
  intros [Hok Hl]. unfold guac_socket_fd_flush_handler, with_buffer_lock. rewrite Hl.
  destruct (fd_flush_run (set_buffer_lock true d) Hok) as (r & d' & -> & ? & _ & Hr).
  eexists r, _. split; [done|]. split; [done|].
  destruct Hr as [?|(? & Hw & _ & Hs)]; [by left|right]. split; [done|]. split; [done|].
  unfold fd_sent in Hs. by rewrite Hw, take_0, app_nil_r in Hs.
Qed.
End fd_proofs.

(** ** Reading *)

Class LawfulOsReader (W : Type) `{Os W} := {
  os_read_law w n :
    (0 < n)%nat →
    let '(r, bytes, _) := os_read w n in
    r = -1 ∨ (0 ≤ r ≤ Z.of_nat n ∧ length bytes = Z.to_nat r);
}.

(** [arriving w]: what the peer will have sent. *)

Class OsStream (W : Type) `{Os W} := {
  arriving : W → list byte;
  os_poll_stream w msec :
    arriving w ≠ [] → let '(r, w') := os_poll w msec in 0 < r ∧ arriving w' = arriving w;
  os_read_stream w n :
    (0 < n)%nat → arriving w ≠ [] →
    let '(r, bytes, w') := os_read w n in
    r = Z.of_nat (length bytes) ∧ (0 < length bytes ≤ n)%nat ∧ arriving w = bytes ++ arriving w';
}.

#[export] Program Instance fd_bounded {W} `{LawfulOsReader W} :
  BoundedReader (guac_socket_fd_data W).
Next Obligation.
  intros W H H0 h d t [= <-]. unfold guac_socket_fd_select_handler.
  destruct (guac_wait_for_fd _ _) as [r w]. eauto.
Qed.
Next Obligation.
  intros W H H0 h d n [= <-] Hn Hm. unfold guac_socket_fd_read_handler.
  pose proof (os_read_law (world d) n Hn) as Hr.
  destruct (os_read (world d) n) as [[r bytes] w]. eexists _, _, _. split; [done|].
  unfold INT_MAX in *. destruct Hr as [->|[Hr Hl]]; [left; vm_compute; discriminate|right].
  rewrite !(i32_small r) by (unfold is_i32; lia). lia.
Qed.

#[export] Program Instance fd_stream {W} `{OsStream W} : Stream (guac_socket_fd_data W) := {|
  remaining d := arriving (world d);
|}.
Next Obligation.
  intros W H H0 h d t [= <-] Hr. unfold guac_socket_fd_select_handler, guac_wait_for_fd.
  pose proof (os_poll_stream (world d)) as Hp.
  destruct (t <? 0);
    [specialize (Hp (-1) Hr)|specialize (Hp (Z.quot (i32 (t + 999)) 1000) Hr)];
    destruct (os_poll (world d) _) as [r w]; eexists _, _; (split; [done|]); done.
Qed.
Next Obligation.
  intros W H H0 d n Hn Hm Hr. pose proof (os_read_stream (world d) n Hn Hr) as Hrd.
  destruct (os_read (world d) n) as [[r bytes] w] eqn:E. destruct Hrd as (-> & Hb & Ha).
  eexists _, bytes, _. split; [done|]. unfold guac_socket_fd_read_handler, INT_MAX in *.
  rewrite E, i32_small by (unfold is_i32; lia). split; [reflexivity|]. by split; [|exact Ha].
Qed.
