(* ===== verification/ProtocolTypes.v ===== *)
(** * Types of the Guacamole protocol
    (src/src/libguac/guacamole/protocol-types.h, layer.h, stream.h, object.h)

    The enumerations whose numeric values travel in instructions, and the
    layers, streams and objects instructions refer to by index. *)

From S2P Require Import Prelude.
Local Open Scope Z_scope.

Inductive guac_protocol_status : Type :=
| GUAC_PROTOCOL_STATUS_SUCCESS
| GUAC_PROTOCOL_STATUS_UNSUPPORTED
| GUAC_PROTOCOL_STATUS_SERVER_ERROR
| GUAC_PROTOCOL_STATUS_SERVER_BUSY
| GUAC_PROTOCOL_STATUS_UPSTREAM_TIMEOUT
| GUAC_PROTOCOL_STATUS_UPSTREAM_ERROR
| GUAC_PROTOCOL_STATUS_RESOURCE_NOT_FOUND
| GUAC_PROTOCOL_STATUS_RESOURCE_CONFLICT
| GUAC_PROTOCOL_STATUS_RESOURCE_CLOSED
| GUAC_PROTOCOL_STATUS_UPSTREAM_NOT_FOUND
| GUAC_PROTOCOL_STATUS_UPSTREAM_UNAVAILABLE
| GUAC_PROTOCOL_STATUS_SESSION_CONFLICT
| GUAC_PROTOCOL_STATUS_SESSION_TIMEOUT
| GUAC_PROTOCOL_STATUS_SESSION_CLOSED
| GUAC_PROTOCOL_STATUS_CLIENT_BAD_REQUEST
| GUAC_PROTOCOL_STATUS_CLIENT_UNAUTHORIZED
| GUAC_PROTOCOL_STATUS_CLIENT_FORBIDDEN
| GUAC_PROTOCOL_STATUS_CLIENT_TIMEOUT
| GUAC_PROTOCOL_STATUS_CLIENT_OVERRUN
| GUAC_PROTOCOL_STATUS_CLIENT_BAD_TYPE
| GUAC_PROTOCOL_STATUS_CLIENT_TOO_MANY.

Definition guac_protocol_status_value (e : guac_protocol_status) : Z :=
  match e with
  | GUAC_PROTOCOL_STATUS_SUCCESS => 0x0000
  | GUAC_PROTOCOL_STATUS_UNSUPPORTED => 0x0100
  | GUAC_PROTOCOL_STATUS_SERVER_ERROR => 0x0200
  | GUAC_PROTOCOL_STATUS_SERVER_BUSY => 0x0201
  | GUAC_PROTOCOL_STATUS_UPSTREAM_TIMEOUT => 0x0202
  | GUAC_PROTOCOL_STATUS_UPSTREAM_ERROR => 0x0203
  | GUAC_PROTOCOL_STATUS_RESOURCE_NOT_FOUND => 0x0204
  | GUAC_PROTOCOL_STATUS_RESOURCE_CONFLICT => 0x0205
  | GUAC_PROTOCOL_STATUS_RESOURCE_CLOSED => 0x0206
  | GUAC_PROTOCOL_STATUS_UPSTREAM_NOT_FOUND => 0x0207
  | GUAC_PROTOCOL_STATUS_UPSTREAM_UNAVAILABLE => 0x0208
  | GUAC_PROTOCOL_STATUS_SESSION_CONFLICT => 0x0209
  | GUAC_PROTOCOL_STATUS_SESSION_TIMEOUT => 0x020A
  | GUAC_PROTOCOL_STATUS_SESSION_CLOSED => 0x020B
  | GUAC_PROTOCOL_STATUS_CLIENT_BAD_REQUEST => 0x300
  | GUAC_PROTOCOL_STATUS_CLIENT_UNAUTHORIZED => 0x0301
  | GUAC_PROTOCOL_STATUS_CLIENT_FORBIDDEN => 0x0303
  | GUAC_PROTOCOL_STATUS_CLIENT_TIMEOUT => 0x308
  | GUAC_PROTOCOL_STATUS_CLIENT_OVERRUN => 0x30D
  | GUAC_PROTOCOL_STATUS_CLIENT_BAD_TYPE => 0x30F
  | GUAC_PROTOCOL_STATUS_CLIENT_TOO_MANY => 0x31D
  end.

Inductive guac_composite_mode : Type :=
| GUAC_COMP_ROUT
| GUAC_COMP_ATOP
| GUAC_COMP_XOR
| GUAC_COMP_ROVER
| GUAC_COMP_OVER
| GUAC_COMP_PLUS
| GUAC_COMP_RIN
| GUAC_COMP_IN
| GUAC_COMP_OUT
| GUAC_COMP_RATOP
| GUAC_COMP_SRC.

Definition guac_composite_mode_value (e : guac_composite_mode) : Z :=
  match e with
  | GUAC_COMP_ROUT => 0x2
  | GUAC_COMP_ATOP => 0x6
  | GUAC_COMP_XOR => 0xA
  | GUAC_COMP_ROVER => 0xB
  | GUAC_COMP_OVER => 0xE
  | GUAC_COMP_PLUS => 0xF
  | GUAC_COMP_RIN => 0x1
  | GUAC_COMP_IN => 0x4
  | GUAC_COMP_OUT => 0x8
  | GUAC_COMP_RATOP => 0x9
  | GUAC_COMP_SRC => 0xC
  end.

(** Several transfer functions have two names: the enumeration is a set of constants. *)

Definition guac_transfer_function : Type := Z.

Definition GUAC_TRANSFER_BINARY_BLACK : guac_transfer_function := 0x0.
Definition GUAC_TRANSFER_BINARY_WHITE : guac_transfer_function := 0xF.
Definition GUAC_TRANSFER_BINARY_SRC : guac_transfer_function := 0x3.
Definition GUAC_TRANSFER_BINARY_DEST : guac_transfer_function := 0x5.
Definition GUAC_TRANSFER_BINARY_NSRC : guac_transfer_function := 0xC.
Definition GUAC_TRANSFER_BINARY_NDEST : guac_transfer_function := 0xA.
Definition GUAC_TRANSFER_BINARY_AND : guac_transfer_function := 0x1.
Definition GUAC_TRANSFER_BINARY_NAND : guac_transfer_function := 0xE.
Definition GUAC_TRANSFER_BINARY_OR : guac_transfer_function := 0x7.
Definition GUAC_TRANSFER_BINARY_NOR : guac_transfer_function := 0x8.
Definition GUAC_TRANSFER_BINARY_XOR : guac_transfer_function := 0x6.
Definition GUAC_TRANSFER_BINARY_XNOR : guac_transfer_function := 0x9.
Definition GUAC_TRANSFER_BINARY_NSRC_AND : guac_transfer_function := 0x4.
Definition GUAC_TRANSFER_BINARY_NSRC_NAND : guac_transfer_function := 0xB.
Definition GUAC_TRANSFER_BINARY_NSRC_OR : guac_transfer_function := 0xD.
Definition GUAC_TRANSFER_BINARY_NSRC_NOR : guac_transfer_function := 0x2.
Definition GUAC_TRANSFER_BINARY_NDEST_AND : guac_transfer_function := 0x2.
Definition GUAC_TRANSFER_BINARY_NDEST_NAND : guac_transfer_function := 0xD.
Definition GUAC_TRANSFER_BINARY_NDEST_OR : guac_transfer_function := 0xB.
Definition GUAC_TRANSFER_BINARY_NDEST_NOR : guac_transfer_function := 0x4.

Inductive guac_line_cap_style : Type :=
| GUAC_LINE_CAP_BUTT
| GUAC_LINE_CAP_ROUND
| GUAC_LINE_CAP_SQUARE.

Definition guac_line_cap_style_value (e : guac_line_cap_style) : Z :=
  match e with
  | GUAC_LINE_CAP_BUTT => 0x0
  | GUAC_LINE_CAP_ROUND => 0x1
  | GUAC_LINE_CAP_SQUARE => 0x2
  end.

Inductive guac_line_join_style : Type :=
| GUAC_LINE_JOIN_BEVEL
| GUAC_LINE_JOIN_MITER
| GUAC_LINE_JOIN_ROUND.

Definition guac_line_join_style_value (e : guac_line_join_style) : Z :=
  match e with
  | GUAC_LINE_JOIN_BEVEL => 0x0
  | GUAC_LINE_JOIN_MITER => 0x1
  | GUAC_LINE_JOIN_ROUND => 0x2
  end.

Inductive guac_protocol_version : Type :=
| GUAC_PROTOCOL_VERSION_UNKNOWN
| GUAC_PROTOCOL_VERSION_1_0_0
| GUAC_PROTOCOL_VERSION_1_1_0
| GUAC_PROTOCOL_VERSION_1_3_0
| GUAC_PROTOCOL_VERSION_1_5_0.

Definition guac_protocol_version_value (e : guac_protocol_version) : Z :=
  match e with
  | GUAC_PROTOCOL_VERSION_UNKNOWN => 0x000000
  | GUAC_PROTOCOL_VERSION_1_0_0 => 0x010000
  | GUAC_PROTOCOL_VERSION_1_1_0 => 0x010100
  | GUAC_PROTOCOL_VERSION_1_3_0 => 0x010300
  | GUAC_PROTOCOL_VERSION_1_5_0 => 0x010500
  end.

Inductive guac_message_type : Type :=
| GUAC_MESSAGE_USER_JOINED
| GUAC_MESSAGE_USER_LEFT.

Definition guac_message_type_value (e : guac_message_type) : Z :=
  match e with
  | GUAC_MESSAGE_USER_JOINED => 0x0001
  | GUAC_MESSAGE_USER_LEFT => 0x0002
  end.

(** Layers, streams and objects: what an instruction says of them is their index. *)

Record guac_layer := mk_guac_layer { layer_index : Z }.
Record guac_stream := mk_guac_stream { stream_index : Z }.
Record guac_object := mk_guac_object { object_index : Z }.
