(* ===== verification/Protocol.v ===== *)
(** * Writing the Guacamole protocol (src/src/libguac/protocol.c)

    One definition per function of protocol.c: the length-prefixed elements,
    the instructions, the base64 decoder of received blobs and the protocol
    versions.  ProtocolSpec.v states what the instructions are and proves
    that these functions send them. *)

From S2P Require Import Prelude CFormat Unicode Socket ProtocolTypes.
From Stdlib Require Import Floats.SpecFloat.
Local Open Scope Z_scope.
Local Open Scope guac_scope.

Definition GUACAMOLE_PROTOCOL_VERSION : list byte := lit "VERSION_1_5_0".
Definition GUAC_PROTOCOL_BLOB_MAX_LENGTH : nat := 6048.

(** ** Protocol versions *)

Definition guac_protocol_version_table : list (guac_protocol_version * list byte) :=
  [(GUAC_PROTOCOL_VERSION_1_0_0, lit "VERSION_1_0_0");
   (GUAC_PROTOCOL_VERSION_1_1_0, lit "VERSION_1_1_0");
   (GUAC_PROTOCOL_VERSION_1_3_0, lit "VERSION_1_3_0");
   (GUAC_PROTOCOL_VERSION_1_5_0, lit "VERSION_1_5_0")].

Fixpoint string_to_version_from (table : list (guac_protocol_version * list byte))
    (version_string : list byte) : guac_protocol_version :=
  match table with
  | [] => GUAC_PROTOCOL_VERSION_UNKNOWN
  | (version, s) :: table' =>
      if decide (s = version_string) then version
      else string_to_version_from table' version_string
  end.

Definition guac_protocol_string_to_version (version_string : list byte)
    : guac_protocol_version :=
  string_to_version_from guac_protocol_version_table version_string.

(** NULL is [None]. *)

Fixpoint version_to_string_from (table : list (guac_protocol_version * list byte))
    (version : guac_protocol_version) : option (list byte) :=
  match table with
  | [] => None
  | (v, s) :: table' =>
      if guac_protocol_version_value v =? guac_protocol_version_value version then Some s
      else version_to_string_from table' version
  end.

Definition guac_protocol_version_to_string (version : guac_protocol_version)
    : option (list byte) :=
  version_to_string_from guac_protocol_version_table version.

(** ** Decoding base64

    The string is decoded in place: [input] and [output] are indices into
    the same memory.  The loop ends at the terminator at the latest. *)

Definition __guac_base64_value (c : byte) : Z :=
  if (65 <=? sc c) && (sc c <=? 90) then sc c - 65
  else if (97 <=? sc c) && (sc c <=? 122) then sc c - 97 + 26
  else if (48 <=? sc c) && (sc c <=? 57) then sc c - 48 + 52
  else if sc c =? 43 then 62
  else if sc c =? 47 then 63
  else 0.

Fixpoint decode_base64_loop (fuel : nat) (mem : list byte) (input output : nat)
    (length bits_read value : Z) : Z * list byte :=
  match fuel with
  | O => (length, mem)
  | S fuel' =>
      let current := mem !!! input in
      if decide (current = x00) then (length, mem)
      else if decide (current = x3d) then (length, mem)
      else
        let value := i32 (Z.lor (i32 (Z.shiftl value 6)) (__guac_base64_value current)) in
        let bits_read := bits_read + 6 in
        if 8 <=? bits_read then
          decode_base64_loop fuel'
            (<[output := zb (Z.land (Z.shiftr value (Z.rem bits_read 8)) 0xFF)]> mem)
            (S input) (S output) (length + 1) (bits_read - 8) value
        else decode_base64_loop fuel' mem (S input) output length bits_read value
  end.

(** The value returned and the memory afterwards. *)

Definition guac_protocol_decode_base64 (base64 : list byte) : Z * list byte :=
  decode_base64_loop (length base64) base64 0 0 0 0 0.

(** ** Instructions *)

(** [if (m) return -1; k] *)

Definition or_fail {D} (m k : M D Z) : M D Z :=
  r ← m; if r =? 0 then k else mret (-1).

Section protocol.
Context {D : Type} `{SocketOps D}.

Definition __guac_socket_write_length_string (str : list byte) : M D Z :=
  guac_socket_write_int (guac_utf8_strlen str)
  <||> guac_socket_write_string (lit ".")
  <||> guac_socket_write_string str.

Definition __guac_socket_write_length_int (i : Z) : M D Z :=
  __guac_socket_write_length_string (snprintf 128 (fmt_d i)).

Definition __guac_socket_write_length_double (d : spec_float) : M D Z :=
  __guac_socket_write_length_string (snprintf 128 (fmt_g16 d)).

Fixpoint guac_socket_write_array (array : list (list byte)) : M D Z :=
  match array with
  | [] => mret 0
  | s :: array' =>
      or_fail (guac_socket_write_string (lit ","))
        (or_fail (__guac_socket_write_length_string s)
          (guac_socket_write_array array'))
  end.

Definition __guac_protocol_send_args (args : list (list byte)) : M D Z :=
  or_fail (guac_socket_write_string (lit "4.args"))
    (or_fail (guac_socket_write_string (lit ",")
              <||> __guac_socket_write_length_string GUACAMOLE_PROTOCOL_VERSION)
      (or_fail (guac_socket_write_array args)
        (guac_socket_write_string (lit ";")))).

Definition guac_protocol_send_args (args : list (list byte)) : M D Z :=
  guac_socket_instruction_begin;;
  ret_val ← __guac_protocol_send_args args;
  guac_socket_instruction_end;;
  mret ret_val.

Definition __guac_protocol_send_connect (args : list (list byte)) : M D Z :=
  or_fail (guac_socket_write_string (lit "7.connect"))
    (or_fail (guac_socket_write_array args)
      (guac_socket_write_string (lit ";"))).

Definition guac_protocol_send_connect (args : list (list byte)) : M D Z :=
  guac_socket_instruction_begin;;
  ret_val ← __guac_protocol_send_connect args;
  guac_socket_instruction_end;;
  mret ret_val.

(** [data] holds the [count] bytes to send. *)

Definition guac_protocol_send_blob (stream : guac_stream) (data : list byte) : M D Z :=
  let count := Z.of_nat (length data) in
  let base64_length := i32 (Z.quot (i32 (count + 2)) 3 * 4) in
  guac_socket_instruction_begin;;
  ret_val ←
    (guac_socket_write_string (lit "4.blob,")
     <||> __guac_socket_write_length_int (stream_index stream)
     <||> guac_socket_write_string (lit ",")
     <||> guac_socket_write_int base64_length
     <||> guac_socket_write_string (lit ".")
     <||> guac_socket_write_base64 data
     <||> guac_socket_flush_base64
     <||> guac_socket_write_string (lit ";"));
  guac_socket_instruction_end;;
  mret ret_val.

(** Every turn takes at least one byte of the data. *)

Fixpoint send_blobs_loop (fuel : nat) (stream : guac_stream) (data : list byte)
    (ret_val : Z) : M D Z :=
  match fuel with
  | O => diverge
  | S fuel' =>
      if (0 <? length data)%nat && (ret_val =? 0) then
        let blob_size :=
          if (GUAC_PROTOCOL_BLOB_MAX_LENGTH <? length data)%nat
          then GUAC_PROTOCOL_BLOB_MAX_LENGTH else length data in
        ret_val ← guac_protocol_send_blob stream (take blob_size data);
        send_blobs_loop fuel' stream (drop blob_size data) ret_val
      else mret ret_val
  end.

Definition guac_protocol_send_blobs (stream : guac_stream) (data : list byte) : M D Z :=
  send_blobs_loop (S (length data)) stream data 0.

(** [text] is what the C library's formatting yields for the format and its arguments. *)

Definition vguac_protocol_send_log (text : list byte) : M D Z :=
  let message := snprintf 4096 text in
  guac_socket_instruction_begin;;
  ret_val ←
    (guac_socket_write_string (lit "3.log,")
     <||> __guac_socket_write_length_string message
     <||> guac_socket_write_string (lit ";"));
  guac_socket_instruction_end;;
  mret ret_val.

Definition guac_protocol_send_log (text : list byte) : M D Z :=
  vguac_protocol_send_log text.

Definition guac_protocol_send_ack (stream : guac_stream) (error : list byte)
    (status : guac_protocol_status) : M D Z :=
  guac_socket_instruction_begin;;
  ret_val ←
    (guac_socket_write_string (lit "3.ack,")
     <||> __guac_socket_write_length_int (stream_index stream)
     <||> guac_socket_write_string (lit ",")
     <||> __guac_socket_write_length_string error
     <||> guac_socket_write_string (lit ",")
     <||> __guac_socket_write_length_int (guac_protocol_status_value status)
     <||> guac_socket_write_string (lit ";"));
  guac_socket_instruction_end;;
  mret ret_val.

Definition guac_protocol_send_argv (stream : guac_stream) (mimetype name : list byte)
    : M D Z :=
  guac_socket_instruction_begin;;
  ret_val ←
    (guac_socket_write_string (lit "4.argv,")
     <||> __guac_socket_write_length_int (stream_index stream)
     <||> guac_socket_write_string (lit ",")
     <||> __guac_socket_write_length_string mimetype
     <||> guac_socket_write_string (lit ",")
     <||> __guac_socket_write_length_string name
     <||> guac_socket_write_string (lit ";"));
  guac_socket_instruction_end;;
  mret ret_val.

Definition guac_protocol_send_arc (layer : guac_layer) (x y radius : Z)
    (startAngle endAngle : spec_float) (negative : Z) : M D Z :=
  guac_socket_instruction_begin;;
  ret_val ←
    (guac_socket_write_string (lit "3.arc,")
     <||> __guac_socket_write_length_int (layer_index layer)
     <||> guac_socket_write_string (lit ",")
     <||> __guac_socket_write_length_int x
     <||> guac_socket_write_string (lit ",")
     <||> __guac_socket_write_length_int y
     <||> guac_socket_write_string (lit ",")
     <||> __guac_socket_write_length_int radius
     <||> guac_socket_write_string (lit ",")
     <||> __guac_socket_write_length_double startAngle
     <||> guac_socket_write_string (lit ",")
     <||> __guac_socket_write_length_double endAngle
     <||> guac_socket_write_string (lit ",")
     <||> guac_socket_write_string (if negative =? 0 then lit "1.0" else lit "1.1")
     <||> guac_socket_write_string (lit ";"));
  guac_socket_instruction_end;;
  mret ret_val.

Definition guac_protocol_send_audio (stream : guac_stream) (mimetype : list byte)
    : M D Z :=
  guac_socket_instruction_begin;;
  ret_val ←
    (guac_socket_write_string (lit "5.audio,")
     <||> __guac_socket_write_length_int (stream_index stream)
     <||> guac_socket_write_string (lit ",")
     <||> __guac_socket_write_length_string mimetype
     <||> guac_socket_write_string (lit ";"));
  guac_socket_instruction_end;;
  mret ret_val.

Definition guac_protocol_send_body (object : guac_object) (stream : guac_stream)
    (mimetype name : list byte) : M D Z :=
  guac_socket_instruction_begin;;
  ret_val ←
    (guac_socket_write_string (lit "4.body,")
     <||> __guac_socket_write_length_int (object_index object)
     <||> guac_socket_write_string (lit ",")
     <||> __guac_socket_write_length_int (stream_index stream)
     <||> guac_socket_write_string (lit ",")
     <||> __guac_socket_write_length_string mimetype
     <||> guac_socket_write_string (lit ",")
     <||> __guac_socket_write_length_string name
     <||> guac_socket_write_string (lit ";"));
  guac_socket_instruction_end;;
  mret ret_val.

Definition guac_protocol_send_cfill (mode : guac_composite_mode) (layer : guac_layer)
    (r g b a : Z) : M D Z :=
  guac_socket_instruction_begin;;
  ret_val ←
    (guac_socket_write_string (lit "5.cfill,")
     <||> __guac_socket_write_length_int (guac_composite_mode_value mode)
     <||> guac_socket_write_string (lit ",")
     <||> __guac_socket_write_length_int (layer_index layer)
     <||> guac_socket_write_string (lit ",")
     <||> __guac_socket_write_length_int r
     <||> guac_socket_write_string (lit ",")
     <||> __guac_socket_write_length_int g
     <||> guac_socket_write_string (lit ",")
     <||> __guac_socket_write_length_int b
     <||> guac_socket_write_string (lit ",")
     <||> __guac_socket_write_length_int a
     <||> guac_socket_write_string (lit ";"));
  guac_socket_instruction_end;;
  mret ret_val.

Definition guac_protocol_send_close (layer : guac_layer) : M D Z :=
  guac_socket_instruction_begin;;
  ret_val ←
    (guac_socket_write_string (lit "5.close,")
     <||> __guac_socket_write_length_int (layer_index layer)
     <||> guac_socket_write_string (lit ";"));
  guac_socket_instruction_end;;
  mret ret_val.

Definition guac_protocol_send_clip (layer : guac_layer) : M D Z :=
  guac_socket_instruction_begin;;
  ret_val ←
    (guac_socket_write_string (lit "4.clip,")
     <||> __guac_socket_write_length_int (layer_index layer)
     <||> guac_socket_write_string (lit ";"));
  guac_socket_instruction_end;;
  mret ret_val.

Definition guac_protocol_send_clipboard (stream : guac_stream) (mimetype : list byte)
    : M D Z :=
  guac_socket_instruction_begin;;
  ret_val ←
    (guac_socket_write_string (lit "9.clipboard,")
     <||> __guac_socket_write_length_int (stream_index stream)
     <||> guac_socket_write_string (lit ",")
     <||> __guac_socket_write_length_string mimetype
     <||> guac_socket_write_string (lit ";"));
  guac_socket_instruction_end;;
  mret ret_val.

Definition guac_protocol_send_copy (srcl : guac_layer) (srcx srcy w h : Z)
    (mode : guac_composite_mode) (dstl : guac_layer) (dstx dsty : Z) : M D Z :=
  guac_socket_instruction_begin;;
  ret_val ←
    (guac_socket_write_string (lit "4.copy,")
     <||> __guac_socket_write_length_int (layer_index srcl)
     <||> guac_socket_write_string (lit ",")
     <||> __guac_socket_write_length_int srcx
     <||> guac_socket_write_string (lit ",")
     <||> __guac_socket_write_length_int srcy
     <||> guac_socket_write_string (lit ",")
     <||> __guac_socket_write_length_int w
     <||> guac_socket_write_string (lit ",")
     <||> __guac_socket_write_length_int h
     <||> guac_socket_write_string (lit ",")
     <||> __guac_socket_write_length_int (guac_composite_mode_value mode)
     <||> guac_socket_write_string (lit ",")
     <||> __guac_socket_write_length_int (layer_index dstl)
     <||> guac_socket_write_string (lit ",")
     <||> __guac_socket_write_length_int dstx
     <||> guac_socket_write_string (lit ",")
     <||> __guac_socket_write_length_int dsty
     <||> guac_socket_write_string (lit ";"));
  guac_socket_instruction_end;;
  mret ret_val.

Definition guac_protocol_send_cstroke (mode : guac_composite_mode) (layer : guac_layer)
    (cap : guac_line_cap_style) (join : guac_line_join_style) (thickness r g b a : Z)
    : M D Z :=
  guac_socket_instruction_begin;;
  ret_val ←
    (guac_socket_write_string (lit "7.cstroke,")
     <||> __guac_socket_write_length_int (guac_composite_mode_value mode)
     <||> guac_socket_write_string (lit ",")
     <||> __guac_socket_write_length_int (layer_index layer)
     <||> guac_socket_write_string (lit ",")
     <||> __guac_socket_write_length_int (guac_line_cap_style_value cap)
     <||> guac_socket_write_string (lit ",")
     <||> __guac_socket_write_length_int (guac_line_join_style_value join)
     <||> guac_socket_write_string (lit ",")
     <||> __guac_socket_write_length_int thickness
     <||> guac_socket_write_string (lit ",")
     <||> __guac_socket_write_length_int r
     <||> guac_socket_write_string (lit ",")
     <||> __guac_socket_write_length_int g
     <||> guac_socket_write_string (lit ",")
     <||> __guac_socket_write_length_int b
     <||> guac_socket_write_string (lit ",")
     <||> __guac_socket_write_length_int a
     <||> guac_socket_write_string (lit ";"));
  guac_socket_instruction_end;;
  mret ret_val.

Definition guac_protocol_send_cursor (x y : Z) (srcl : guac_layer) (srcx srcy w h : Z)
    : M D Z :=
  guac_socket_instruction_begin;;
  ret_val ←
    (guac_socket_write_string (lit "6.cursor,")
     <||> __guac_socket_write_length_int x
     <||> guac_socket_write_string (lit ",")
     <||> __guac_socket_write_length_int y
     <||> guac_socket_write_string (lit ",")
     <||> __guac_socket_write_length_int (layer_index srcl)
     <||> guac_socket_write_string (lit ",")
     <||> __guac_socket_write_length_int srcx
     <||> guac_socket_write_string (lit ",")
     <||> __guac_socket_write_length_int srcy
     <||> guac_socket_write_string (lit ",")
     <||> __guac_socket_write_length_int w
     <||> guac_socket_write_string (lit ",")
     <||> __guac_socket_write_length_int h
     <||> guac_socket_write_string (lit ";"));
  guac_socket_instruction_end;;
  mret ret_val.

Definition guac_protocol_send_curve (layer : guac_layer) (cp1x cp1y cp2x cp2y x y : Z)
    : M D Z :=
  guac_socket_instruction_begin;;
  ret_val ←
    (guac_socket_write_string (lit "5.curve,")
     <||> __guac_socket_write_length_int (layer_index layer)
     <||> guac_socket_write_string (lit ",")
     <||> __guac_socket_write_length_int cp1x
     <||> guac_socket_write_string (lit ",")
     <||> __guac_socket_write_length_int cp1y
     <||> guac_socket_write_string (lit ",")
     <||> __guac_socket_write_length_int cp2x
     <||> guac_socket_write_string (lit ",")
     <||> __guac_socket_write_length_int cp2y
     <||> guac_socket_write_string (lit ",")
     <||> __guac_socket_write_length_int x
     <||> guac_socket_write_string (lit ",")
     <||> __guac_socket_write_length_int y
     <||> guac_socket_write_string (lit ";"));
  guac_socket_instruction_end;;
  mret ret_val.

Definition guac_protocol_send_disconnect : M D Z :=
  guac_socket_instruction_begin;;
  ret_val ←
    (guac_socket_write_string (lit "10.disconnect;"));
  guac_socket_instruction_end;;
  mret ret_val.

Definition guac_protocol_send_dispose (layer : guac_layer) : M D Z :=
  guac_socket_instruction_begin;;
  ret_val ←
    (guac_socket_write_string (lit "7.dispose,")
     <||> __guac_socket_write_length_int (layer_index layer)
     <||> guac_socket_write_string (lit ";"));
  guac_socket_instruction_end;;
  mret ret_val.

Definition guac_protocol_send_distort (layer : guac_layer) (a b c d e f : spec_float)
    : M D Z :=
  guac_socket_instruction_begin;;
  ret_val ←
    (guac_socket_write_string (lit "7.distort,")
     <||> __guac_socket_write_length_int (layer_index layer)
     <||> guac_socket_write_string (lit ",")
     <||> __guac_socket_write_length_double a
     <||> guac_socket_write_string (lit ",")
     <||> __guac_socket_write_length_double b
     <||> guac_socket_write_string (lit ",")
     <||> __guac_socket_write_length_double c
     <||> guac_socket_write_string (lit ",")
     <||> __guac_socket_write_length_double d
     <||> guac_socket_write_string (lit ",")
     <||> __guac_socket_write_length_double e
     <||> guac_socket_write_string (lit ",")
     <||> __guac_socket_write_length_double f
     <||> guac_socket_write_string (lit ";"));
  guac_socket_instruction_end;;
  mret ret_val.

Definition guac_protocol_send_end (stream : guac_stream) : M D Z :=
  guac_socket_instruction_begin;;
  ret_val ←
    (guac_socket_write_string (lit "3.end,")
     <||> __guac_socket_write_length_int (stream_index stream)
     <||> guac_socket_write_string (lit ";"));
  guac_socket_instruction_end;;
  mret ret_val.

Definition guac_protocol_send_error (error : list byte) (status : guac_protocol_status)
    : M D Z :=
  guac_socket_instruction_begin;;
  ret_val ←
    (guac_socket_write_string (lit "5.error,")
     <||> __guac_socket_write_length_string error
     <||> guac_socket_write_string (lit ",")
     <||> __guac_socket_write_length_int (guac_protocol_status_value status)
     <||> guac_socket_write_string (lit ";"));
  guac_socket_instruction_end;;
  mret ret_val.

Definition guac_protocol_send_msg (msg : guac_message_type) (args : list (list byte))
    : M D Z :=
  guac_socket_instruction_begin;;
  ret_val ←
    (guac_socket_write_string (lit "3.msg,")
     <||> __guac_socket_write_length_int (guac_message_type_value msg)
     <||> guac_socket_write_array args
     <||> guac_socket_write_string (lit ";"));
  guac_socket_instruction_end;;
  mret ret_val.

Definition guac_protocol_send_file (stream : guac_stream) (mimetype name : list byte)
    : M D Z :=
  guac_socket_instruction_begin;;
  ret_val ←
    (guac_socket_write_string (lit "4.file,")
     <||> __guac_socket_write_length_int (stream_index stream)
     <||> guac_socket_write_string (lit ",")
     <||> __guac_socket_write_length_string mimetype
     <||> guac_socket_write_string (lit ",")
     <||> __guac_socket_write_length_string name
     <||> guac_socket_write_string (lit ";"));
  guac_socket_instruction_end;;
  mret ret_val.

Definition guac_protocol_send_filesystem (object : guac_object) (name : list byte)
    : M D Z :=
  guac_socket_instruction_begin;;
  ret_val ←
    (guac_socket_write_string (lit "10.filesystem,")
     <||> __guac_socket_write_length_int (object_index object)
     <||> guac_socket_write_string (lit ",")
     <||> __guac_socket_write_length_string name
     <||> guac_socket_write_string (lit ";"));
  guac_socket_instruction_end;;
  mret ret_val.

Definition guac_protocol_send_identity (layer : guac_layer) : M D Z :=
  guac_socket_instruction_begin;;
  ret_val ←
    (guac_socket_write_string (lit "8.identity,")
     <||> __guac_socket_write_length_int (layer_index layer)
     <||> guac_socket_write_string (lit ";"));
  guac_socket_instruction_end;;
  mret ret_val.

Definition guac_protocol_send_key (keysym pressed timestamp : Z) : M D Z :=
  guac_socket_instruction_begin;;
  ret_val ←
    (guac_socket_write_string (lit "3.key,")
     <||> __guac_socket_write_length_int keysym
     <||> guac_socket_write_string (if pressed =? 0 then lit ",1.0," else lit ",1.1,")
     <||> __guac_socket_write_length_int timestamp
     <||> guac_socket_write_string (lit ";"));
  guac_socket_instruction_end;;
  mret ret_val.

Definition guac_protocol_send_lfill (mode : guac_composite_mode) (layer srcl : guac_layer)
    : M D Z :=
  guac_socket_instruction_begin;;
  ret_val ←
    (guac_socket_write_string (lit "5.lfill,")
     <||> __guac_socket_write_length_int (guac_composite_mode_value mode)
     <||> guac_socket_write_string (lit ",")
     <||> __guac_socket_write_length_int (layer_index layer)
     <||> guac_socket_write_string (lit ",")
     <||> __guac_socket_write_length_int (layer_index srcl)
     <||> guac_socket_write_string (lit ";"));
  guac_socket_instruction_end;;
  mret ret_val.

Definition guac_protocol_send_line (layer : guac_layer) (x y : Z) : M D Z :=
  guac_socket_instruction_begin;;
  ret_val ←
    (guac_socket_write_string (lit "4.line,")
     <||> __guac_socket_write_length_int (layer_index layer)
     <||> guac_socket_write_string (lit ",")
     <||> __guac_socket_write_length_int x
     <||> guac_socket_write_string (lit ",")
     <||> __guac_socket_write_length_int y
     <||> guac_socket_write_string (lit ";"));
  guac_socket_instruction_end;;
  mret ret_val.

Definition guac_protocol_send_lstroke (mode : guac_composite_mode) (layer : guac_layer)
    (cap : guac_line_cap_style) (join : guac_line_join_style) (thickness : Z)
    (srcl : guac_layer) : M D Z :=
  guac_socket_instruction_begin;;
  ret_val ←
    (guac_socket_write_string (lit "7.lstroke,")
     <||> __guac_socket_write_length_int (guac_composite_mode_value mode)
     <||> guac_socket_write_string (lit ",")
     <||> __guac_socket_write_length_int (layer_index layer)
     <||> guac_socket_write_string (lit ",")
     <||> __guac_socket_write_length_int (guac_line_cap_style_value cap)
     <||> guac_socket_write_string (lit ",")
     <||> __guac_socket_write_length_int (guac_line_join_style_value join)
     <||> guac_socket_write_string (lit ",")
     <||> __guac_socket_write_length_int thickness
     <||> guac_socket_write_string (lit ",")
     <||> __guac_socket_write_length_int (layer_index srcl)
     <||> guac_socket_write_string (lit ";"));
  guac_socket_instruction_end;;
  mret ret_val.

Definition guac_protocol_send_mouse (x y button_mask timestamp : Z) : M D Z :=
  guac_socket_instruction_begin;;
  ret_val ←
    (guac_socket_write_string (lit "5.mouse,")
     <||> __guac_socket_write_length_int x
     <||> guac_socket_write_string (lit ",")
     <||> __guac_socket_write_length_int y
     <||> guac_socket_write_string (lit ",")
     <||> __guac_socket_write_length_int button_mask
     <||> guac_socket_write_string (lit ",")
     <||> __guac_socket_write_length_int timestamp
     <||> guac_socket_write_string (lit ";"));
  guac_socket_instruction_end;;
  mret ret_val.

Definition guac_protocol_send_touch (id x y x_radius y_radius : Z)
    (angle force : spec_float) (timestamp : Z) : M D Z :=
  guac_socket_instruction_begin;;
  ret_val ←
    (guac_socket_write_string (lit "5.touch,")
     <||> __guac_socket_write_length_int id
     <||> guac_socket_write_string (lit ",")
     <||> __guac_socket_write_length_int x
     <||> guac_socket_write_string (lit ",")
     <||> __guac_socket_write_length_int y
     <||> guac_socket_write_string (lit ",")
     <||> __guac_socket_write_length_int x_radius
     <||> guac_socket_write_string (lit ",")
     <||> __guac_socket_write_length_int y_radius
     <||> guac_socket_write_string (lit ",")
     <||> __guac_socket_write_length_double angle
     <||> guac_socket_write_string (lit ",")
     <||> __guac_socket_write_length_double force
     <||> guac_socket_write_string (lit ",")
     <||> __guac_socket_write_length_int timestamp
     <||> guac_socket_write_string (lit ";"));
  guac_socket_instruction_end;;
  mret ret_val.

Definition guac_protocol_send_move (layer parent : guac_layer) (x y z : Z) : M D Z :=
  guac_socket_instruction_begin;;
  ret_val ←
    (guac_socket_write_string (lit "4.move,")
     <||> __guac_socket_write_length_int (layer_index layer)
     <||> guac_socket_write_string (lit ",")
     <||> __guac_socket_write_length_int (layer_index parent)
     <||> guac_socket_write_string (lit ",")
     <||> __guac_socket_write_length_int x
     <||> guac_socket_write_string (lit ",")
     <||> __guac_socket_write_length_int y
     <||> guac_socket_write_string (lit ",")
     <||> __guac_socket_write_length_int z
     <||> guac_socket_write_string (lit ";"));
  guac_socket_instruction_end;;
  mret ret_val.

Definition guac_protocol_send_name (name : list byte) : M D Z :=
  guac_socket_instruction_begin;;
  ret_val ←
    (guac_socket_write_string (lit "4.name,")
     <||> __guac_socket_write_length_string name
     <||> guac_socket_write_string (lit ";"));
  guac_socket_instruction_end;;
  mret ret_val.

Definition guac_protocol_send_nest (index : Z) (data : list byte) : M D Z :=
  guac_socket_instruction_begin;;
  ret_val ←
    (guac_socket_write_string (lit "4.nest,")
     <||> __guac_socket_write_length_int index
     <||> guac_socket_write_string (lit ",")
     <||> __guac_socket_write_length_string data
     <||> guac_socket_write_string (lit ";"));
  guac_socket_instruction_end;;
  mret ret_val.

Definition guac_protocol_send_nop : M D Z :=
  guac_socket_instruction_begin;;
  ret_val ←
    (guac_socket_write_string (lit "3.nop;"));
  guac_socket_instruction_end;;
  mret ret_val.

Definition guac_protocol_send_pipe (stream : guac_stream) (mimetype name : list byte)
    : M D Z :=
  guac_socket_instruction_begin;;
  ret_val ←
    (guac_socket_write_string (lit "4.pipe,")
     <||> __guac_socket_write_length_int (stream_index stream)
     <||> guac_socket_write_string (lit ",")
     <||> __guac_socket_write_length_string mimetype
     <||> guac_socket_write_string (lit ",")
     <||> __guac_socket_write_length_string name
     <||> guac_socket_write_string (lit ";"));
  guac_socket_instruction_end;;
  mret ret_val.

Definition guac_protocol_send_img (stream : guac_stream) (mode : guac_composite_mode)
    (layer : guac_layer) (mimetype : list byte) (x y : Z) : M D Z :=
  guac_socket_instruction_begin;;
  ret_val ←
    (guac_socket_write_string (lit "3.img,")
     <||> __guac_socket_write_length_int (stream_index stream)
     <||> guac_socket_write_string (lit ",")
     <||> __guac_socket_write_length_int (guac_composite_mode_value mode)
     <||> guac_socket_write_string (lit ",")
     <||> __guac_socket_write_length_int (layer_index layer)
     <||> guac_socket_write_string (lit ",")
     <||> __guac_socket_write_length_string mimetype
     <||> guac_socket_write_string (lit ",")
     <||> __guac_socket_write_length_int x
     <||> guac_socket_write_string (lit ",")
     <||> __guac_socket_write_length_int y
     <||> guac_socket_write_string (lit ";"));
  guac_socket_instruction_end;;
  mret ret_val.

Definition guac_protocol_send_pop (layer : guac_layer) : M D Z :=
  guac_socket_instruction_begin;;
  ret_val ←
    (guac_socket_write_string (lit "3.pop,")
     <||> __guac_socket_write_length_int (layer_index layer)
     <||> guac_socket_write_string (lit ";"));
  guac_socket_instruction_end;;
  mret ret_val.

Definition guac_protocol_send_push (layer : guac_layer) : M D Z :=
  guac_socket_instruction_begin;;
  ret_val ←
    (guac_socket_write_string (lit "4.push,")
     <||> __guac_socket_write_length_int (layer_index layer)
     <||> guac_socket_write_string (lit ";"));
  guac_socket_instruction_end;;
  mret ret_val.

Definition guac_protocol_send_ready (id : list byte) : M D Z :=
  guac_socket_instruction_begin;;
  ret_val ←
    (guac_socket_write_string (lit "5.ready,")
     <||> __guac_socket_write_length_string id
     <||> guac_socket_write_string (lit ";"));
  guac_socket_instruction_end;;
  mret ret_val.

Definition guac_protocol_send_rect (layer : guac_layer) (x y width height : Z)
    : M D Z :=
  guac_socket_instruction_begin;;
  ret_val ←
    (guac_socket_write_string (lit "4.rect,")
     <||> __guac_socket_write_length_int (layer_index layer)
     <||> guac_socket_write_string (lit ",")
     <||> __guac_socket_write_length_int x
     <||> guac_socket_write_string (lit ",")
     <||> __guac_socket_write_length_int y
     <||> guac_socket_write_string (lit ",")
     <||> __guac_socket_write_length_int width
     <||> guac_socket_write_string (lit ",")
     <||> __guac_socket_write_length_int height
     <||> guac_socket_write_string (lit ";"));
  guac_socket_instruction_end;;
  mret ret_val.

Definition guac_protocol_send_required (required : list (list byte)) : M D Z :=
  guac_socket_instruction_begin;;
  ret_val ←
    (guac_socket_write_string (lit "8.required")
     <||> guac_socket_write_array required
     <||> guac_socket_write_string (lit ";")
     <||> guac_socket_flush);
  guac_socket_instruction_end;;
  mret ret_val.

Definition guac_protocol_send_reset (layer : guac_layer) : M D Z :=
  guac_socket_instruction_begin;;
  ret_val ←
    (guac_socket_write_string (lit "5.reset,")
     <||> __guac_socket_write_length_int (layer_index layer)
     <||> guac_socket_write_string (lit ";"));
  guac_socket_instruction_end;;
  mret ret_val.

Definition guac_protocol_send_set (layer : guac_layer) (name value : list byte)
    : M D Z :=
  guac_socket_instruction_begin;;
  ret_val ←
    (guac_socket_write_string (lit "3.set,")
     <||> __guac_socket_write_length_int (layer_index layer)
     <||> guac_socket_write_string (lit ",")
     <||> __guac_socket_write_length_string name
     <||> guac_socket_write_string (lit ",")
     <||> __guac_socket_write_length_string value
     <||> guac_socket_write_string (lit ";"));
  guac_socket_instruction_end;;
  mret ret_val.

Definition guac_protocol_send_set_int (layer : guac_layer) (name : list byte) (value : Z)
    : M D Z :=
  guac_socket_instruction_begin;;
  ret_val ←
    (guac_socket_write_string (lit "3.set,")
     <||> __guac_socket_write_length_int (layer_index layer)
     <||> guac_socket_write_string (lit ",")
     <||> __guac_socket_write_length_string name
     <||> guac_socket_write_string (lit ",")
     <||> __guac_socket_write_length_int value
     <||> guac_socket_write_string (lit ";"));
  guac_socket_instruction_end;;
  mret ret_val.

Definition guac_protocol_send_select (protocol : list byte) : M D Z :=
  guac_socket_instruction_begin;;
  ret_val ←
    (guac_socket_write_string (lit "6.select,")
     <||> __guac_socket_write_length_string protocol
     <||> guac_socket_write_string (lit ";"));
  guac_socket_instruction_end;;
  mret ret_val.

Definition guac_protocol_send_shade (layer : guac_layer) (a : Z) : M D Z :=
  guac_socket_instruction_begin;;
  ret_val ←
    (guac_socket_write_string (lit "5.shade,")
     <||> __guac_socket_write_length_int (layer_index layer)
     <||> guac_socket_write_string (lit ",")
     <||> __guac_socket_write_length_int a
     <||> guac_socket_write_string (lit ";"));
  guac_socket_instruction_end;;
  mret ret_val.

Definition guac_protocol_send_size (layer : guac_layer) (w h : Z) : M D Z :=
  guac_socket_instruction_begin;;
  ret_val ←
    (guac_socket_write_string (lit "4.size,")
     <||> __guac_socket_write_length_int (layer_index layer)
     <||> guac_socket_write_string (lit ",")
     <||> __guac_socket_write_length_int w
     <||> guac_socket_write_string (lit ",")
     <||> __guac_socket_write_length_int h
     <||> guac_socket_write_string (lit ";"));
  guac_socket_instruction_end;;
  mret ret_val.

Definition guac_protocol_send_start (layer : guac_layer) (x y : Z) : M D Z :=
  guac_socket_instruction_begin;;
  ret_val ←
    (guac_socket_write_string (lit "5.start,")
     <||> __guac_socket_write_length_int (layer_index layer)
     <||> guac_socket_write_string (lit ",")
     <||> __guac_socket_write_length_int x
     <||> guac_socket_write_string (lit ",")
     <||> __guac_socket_write_length_int y
     <||> guac_socket_write_string (lit ";"));
  guac_socket_instruction_end;;
  mret ret_val.

Definition guac_protocol_send_sync (timestamp frames : Z) : M D Z :=
  guac_socket_instruction_begin;;
  ret_val ←
    (guac_socket_write_string (lit "4.sync,")
     <||> __guac_socket_write_length_int timestamp
     <||> guac_socket_write_string (lit ",")
     <||> __guac_socket_write_length_int frames
     <||> guac_socket_write_string (lit ";"));
  guac_socket_instruction_end;;
  mret ret_val.

Definition guac_protocol_send_transfer (srcl : guac_layer) (srcx srcy w h : Z)
    (fn : guac_transfer_function) (dstl : guac_layer) (dstx dsty : Z) : M D Z :=
  guac_socket_instruction_begin;;
  ret_val ←
    (guac_socket_write_string (lit "8.transfer,")
     <||> __guac_socket_write_length_int (layer_index srcl)
     <||> guac_socket_write_string (lit ",")
     <||> __guac_socket_write_length_int srcx
     <||> guac_socket_write_string (lit ",")
     <||> __guac_socket_write_length_int srcy
     <||> guac_socket_write_string (lit ",")
     <||> __guac_socket_write_length_int w
     <||> guac_socket_write_string (lit ",")
     <||> __guac_socket_write_length_int h
     <||> guac_socket_write_string (lit ",")
     <||> __guac_socket_write_length_int fn
     <||> guac_socket_write_string (lit ",")
     <||> __guac_socket_write_length_int (layer_index dstl)
     <||> guac_socket_write_string (lit ",")
     <||> __guac_socket_write_length_int dstx
     <||> guac_socket_write_string (lit ",")
     <||> __guac_socket_write_length_int dsty
     <||> guac_socket_write_string (lit ";"));
  guac_socket_instruction_end;;
  mret ret_val.

Definition guac_protocol_send_transform (layer : guac_layer) (a b c d e f : spec_float)
    : M D Z :=
  guac_socket_instruction_begin;;
  ret_val ←
    (guac_socket_write_string (lit "9.transform,")
     <||> __guac_socket_write_length_int (layer_index layer)
     <||> guac_socket_write_string (lit ",")
     <||> __guac_socket_write_length_double a
     <||> guac_socket_write_string (lit ",")
     <||> __guac_socket_write_length_double b
     <||> guac_socket_write_string (lit ",")
     <||> __guac_socket_write_length_double c
     <||> guac_socket_write_string (lit ",")
     <||> __guac_socket_write_length_double d
     <||> guac_socket_write_string (lit ",")
     <||> __guac_socket_write_length_double e
     <||> guac_socket_write_string (lit ",")
     <||> __guac_socket_write_length_double f
     <||> guac_socket_write_string (lit ";"));
  guac_socket_instruction_end;;
  mret ret_val.

Definition guac_protocol_send_undefine (object : guac_object) : M D Z :=
  guac_socket_instruction_begin;;
  ret_val ←
    (guac_socket_write_string (lit "8.undefine,")
     <||> __guac_socket_write_length_int (object_index object)
     <||> guac_socket_write_string (lit ";"));
  guac_socket_instruction_end;;
  mret ret_val.

Definition guac_protocol_send_video (stream : guac_stream) (layer : guac_layer)
    (mimetype : list byte) : M D Z :=
  guac_socket_instruction_begin;;
  ret_val ←
    (guac_socket_write_string (lit "5.video,")
     <||> __guac_socket_write_length_int (stream_index stream)
     <||> guac_socket_write_string (lit ",")
     <||> __guac_socket_write_length_int (layer_index layer)
     <||> guac_socket_write_string (lit ",")
     <||> __guac_socket_write_length_string mimetype
     <||> guac_socket_write_string (lit ";"));
  guac_socket_instruction_end;;
  mret ret_val.
End protocol.
