(* ===== verification/Base64.v ===== *)
(** * Base64: what is sent decodes to the data

    The encoder of socket.c ([encode_ready]) against the decoder of
    protocol.c ([guac_protocol_decode_base64]), which works in place. *)

From S2P Require Import Prelude CFormat Unicode Socket Protocol.
Local Open Scope Z_scope.

(** ** The sextets of one to three bytes *)

Definition sextets (a b c : Z) : Z * Z * Z * Z :=
  (a `div` 4, (a `mod` 4) * 16 + b `div` 16, (b `mod` 16) * 4 + c `div` 64, c `mod` 64).

Lemma byte_bits a :
  Z.shiftr (Z.land (bz a) 0xFC) 2 = bz a `div` 4 ∧
  Z.land (bz a) 0x03 = bz a `mod` 4 ∧
  Z.shiftr (Z.land (bz a) 0xF0) 4 = bz a `div` 16 ∧
  Z.land (bz a) 0x0F = bz a `mod` 16 ∧
  Z.shiftr (Z.land (bz a) 0xC0) 6 = bz a `div` 64 ∧
  Z.land (bz a) 0x3F = bz a `mod` 64.
Proof.
  rewrite <-!Z.eqb_eq, <-!andb_true_iff. revert a. byte_check.
Qed.

Lemma encode_base64_3 a b c :
  __guac_socket_encode_base64 (bz a) (bz b) (bz c) =
  let '(w1, w2, w3, w4) := sextets (bz a) (bz b) (bz c) in
  [base64_char w1; base64_char w2; base64_char w3; base64_char w4].
Proof.
  pose proof (bz_range b). pose proof (bz_range c).
  unfold __guac_socket_encode_base64, sextets.
  destruct (Z.leb_spec 0 (bz b)), (Z.leb_spec 0 (bz c)); try lia.
  destruct (byte_bits a) as (-> & -> & _), (byte_bits b) as (_ & _ & -> & -> & _),
    (byte_bits c) as (_ & _ & _ & _ & -> & ->).
  rewrite (lor_shiftl 4), (lor_shiftl 2) by dlia.
  rewrite (Z.mul_comm _ 16), (Z.mul_comm _ 4). done.
Qed.

Lemma encode_base64_2 a b :
  __guac_socket_encode_base64 (bz a) (bz b) (-1) =
  let '(w1, w2, w3, _) := sextets (bz a) (bz b) 0 in
  [base64_char w1; base64_char w2; base64_char w3; x3d].
Proof.
  pose proof (bz_range b). unfold __guac_socket_encode_base64, sextets.
  destruct (Z.leb_spec 0 (bz b)); [|lia].
  destruct (byte_bits a) as (-> & -> & _), (byte_bits b) as (_ & _ & -> & -> & _).
  rewrite (lor_shiftl 4) by dlia. rewrite Z.shiftl_mul_pow2 by lia.
  rewrite (Z.mul_comm _ 16), Z.div_0_l, Z.add_0_r by lia. done.
Qed.

Lemma encode_base64_1 a :
  __guac_socket_encode_base64 (bz a) (-1) (-1) =
  let '(w1, w2, _, _) := sextets (bz a) 0 0 in
  [base64_char w1; base64_char w2; x3d; x3d].
Proof.
  unfold __guac_socket_encode_base64, sextets. cbn [Z.leb Z.compare].
  destruct (byte_bits a) as (-> & -> & _).
  rewrite Z.shiftl_mul_pow2 by lia. rewrite Z.div_0_l, Z.add_0_r by lia. done.
Qed.

Lemma sextets_range a b c :
  0 ≤ a < 256 → 0 ≤ b < 256 → 0 ≤ c < 256 →
  let '(w1, w2, w3, w4) := sextets a b c in
  0 ≤ w1 < 64 ∧ 0 ≤ w2 < 64 ∧ 0 ≤ w3 < 64 ∧ 0 ≤ w4 < 64.
Proof. unfold sextets. intros. dlia. Qed.

(** ** The alphabet *)

Lemma base64_alphabet w :
  0 ≤ w < 64 →
  __guac_base64_value (base64_char w) = w ∧ is_print (base64_char w) = true ∧
  base64_char w ≠ x3d.
Proof.
  intros Hw.
  pose proof (range_forall (λ w, (__guac_base64_value (base64_char w) =? w)
    && is_print (base64_char w) && bool_decide (base64_char w ≠ x3d)) 0 64 eq_refl w
    ltac:(lia)) as H.
  cbn beta in H. rewrite !andb_true_iff, Z.eqb_eq, bool_decide_eq_true in H. tauto.
Qed.

Lemma base64_print w : 0 ≤ w < 64 → is_print (base64_char w) = true.
Proof. apply base64_alphabet. Qed.

(** The encoding is printable ASCII: an element of the protocol whose length in characters is
    its length in bytes. *)

Lemma encode_ready_print src : Forall (λ c, is_print c = true) (encode_ready src).
Proof.
  induction src as [|a|a b|a b c src IH] using list_ind3; cbn [encode_ready].
  - constructor.
  - rewrite encode_base64_1. pose proof (sextets_range (bz a) 0 0). pose proof (bz_range a).
    repeat constructor; apply base64_print; unfold sextets in *; lia.
  - rewrite encode_base64_2. pose proof (sextets_range (bz a) (bz b) 0).
    pose proof (bz_range a). pose proof (bz_range b).
    repeat constructor; apply base64_print; unfold sextets in *; lia.
  - apply Forall_app. split; [|done]. rewrite encode_base64_3.
    pose proof (sextets_range (bz a) (bz b) (bz c)).
    pose proof (bz_range a). pose proof (bz_range b). pose proof (bz_range c).
    repeat constructor; apply base64_print; unfold sextets in *; lia.
Qed.

(** ** Decoding *)

(** One character: six more bits, and a byte stored once eight are there. *)

Lemma decode_step fuel mem input output len bits value w :
  0 ≤ w < 64 → mem !! input = Some (base64_char w) →
  decode_base64_loop (S fuel) mem input output len bits value =
  let v := i32 (Z.lor (i32 (Z.shiftl value 6)) w) in
  if 8 <=? bits + 6 then
    decode_base64_loop fuel
      (<[output := zb (Z.land (Z.shiftr v (Z.rem (bits + 6) 8)) 0xFF)]> mem)
      (S input) (S output) (len + 1) (bits + 6 - 8) v
  else decode_base64_loop fuel mem (S input) output len (bits + 6) v.
Proof.
  intros Hw Hl. cbn [decode_base64_loop].
  rewrite (list_lookup_total_correct _ _ _ Hl).
  destruct (base64_alphabet w Hw) as (-> & Hp & Hn).
  rewrite decide_False by (intros E; by rewrite E in Hp). rewrite decide_False by done. done.
Qed.

Lemma decode_stop fuel mem input output len bits value c :
  c = x00 ∨ c = x3d → mem !! input = Some c →
  decode_base64_loop (S fuel) mem input output len bits value = (len, mem).
Proof.
  intros Hc Hl. cbn [decode_base64_loop].
  rewrite (list_lookup_total_correct _ _ _ Hl). by destruct Hc as [-> | ->].
Qed.

Lemma i32_lor value w :
  0 ≤ w < 64 → ∃ q, i32 (Z.lor (i32 (Z.shiftl value 6)) w) = 64 * value + w + q * 2 ^ 32.
Proof.
  intros Hw. assert (E : ∃ q, i32 (Z.shiftl value 6) = Z.shiftl (value + q * 2 ^ 26) 6).
  { exists (- ((Z.shiftl value 6 + 2 ^ 31) `div` 2 ^ 32)).
    unfold i32. rewrite !Z.shiftl_mul_pow2 by lia.
    pose proof (Z.div_mod (value * 2 ^ 6 + 2 ^ 31) (2 ^ 32) ltac:(lia)). lia. }
  destruct E as [q ->]. rewrite lor_shiftl by lia. set (x := 2 ^ 6 * _ + w).
  exists (q - (x + 2 ^ 31) `div` 2 ^ 32). unfold i32.
  pose proof (Z.div_mod (x + 2 ^ 31) (2 ^ 32) ltac:(lia)). subst x. lia.
Qed.

Lemma stored_byte x k a :
  0 ≤ k → (x `div` 2 ^ k) `mod` 256 = bz a → zb (Z.land (Z.shiftr x k) 0xFF) = a.
Proof.
  intros Hk E. change 0xFF with (Z.ones 8). rewrite Z.land_ones, Z.shiftr_div_pow2 by lia.
  change (2 ^ 8) with 256. by rewrite E, zb_bz.
Qed.

(** The characters from the first one of a group on: what each stores. *)

Section group.
Context (a b c : byte) (mem : list byte) (i o : nat).

Lemma decode_1 fuel len v :
  let '(w1, w2, _, _) := sextets (bz a) (bz b) (bz c) in
  mem !! i = Some (base64_char w1) → mem !! S i = Some (base64_char w2) →
  ∃ v', v' `mod` 16 = bz b `div` 16 ∧
    decode_base64_loop (S (S fuel)) mem i o len 0 v =
    decode_base64_loop fuel (<[o := a]> mem) (S (S i)) (S o) (len + 1) 4 v'.
Proof.
  pose proof (bz_range a). pose proof (bz_range b).
  pose proof (sextets_range (bz a) (bz b) (bz c)) as Hw. unfold sextets in *.
  destruct Hw as (Hw1 & Hw2 & _); [done|done|apply bz_range|]. intros H1 H2.
  rewrite (decode_step _ _ _ _ _ _ _ _ Hw1 H1). cbn [Z.leb Z.compare Z.add].
  rewrite (decode_step _ _ _ _ _ _ _ _ Hw2 H2). cbn zeta.
  destruct (i32_lor v _ Hw1) as [q1 ->]. set (x := 64 * v + _ + _).
  destruct (i32_lor x _ Hw2) as [q2 ->].
  change (8 <=? 0 + 6) with false. change (8 <=? 0 + 6 + 6) with true.
  change (Z.rem (0 + 6 + 6) 8) with 4. change (0 + 6 + 6 - 8) with 4. cbn iota.
  rewrite (stored_byte _ _ a); [|lia|].
  - eexists. split; [|done]. subst x. clear H1 H2. dlia.
  - subst x. clear H1 H2. change (2 ^ 4) with 16. dlia.
Qed.

(** The third character completes the second byte, the fourth the third one. *)

Lemma decode_2 fuel len v' :
  let '(_, _, w3, _) := sextets (bz a) (bz b) (bz c) in
  v' `mod` 16 = bz b `div` 16 → mem !! i = Some (base64_char w3) →
  ∃ v'', v'' `mod` 4 = bz c `div` 64 ∧
    decode_base64_loop (S fuel) mem i o len 4 v' =
    decode_base64_loop fuel (<[o := b]> mem) (S i) (S o) (len + 1) 2 v''.
Proof.
  pose proof (bz_range b). pose proof (bz_range c).
  pose proof (sextets_range (bz a) (bz b) (bz c)) as Hw. unfold sextets in *.
  destruct Hw as (_ & _ & Hw3 & _); [apply bz_range|done|done|]. intros Hv H1.
  rewrite (decode_step _ _ _ _ _ _ _ _ Hw3 H1). cbn zeta.
  destruct (i32_lor v' _ Hw3) as [q ->].
  change (8 <=? 4 + 6) with true. change (Z.rem (4 + 6) 8) with 2.
  change (4 + 6 - 8) with 2. cbn iota. rewrite (stored_byte _ _ b); [|lia|].
  - eexists. split; [|done]. clear H1. dlia.
  - clear H1. change (2 ^ 2) with 4. dlia.
Qed.

Lemma decode_3 fuel len v'' :
  let '(_, _, w3, w4) := sextets (bz a) (bz b) (bz c) in
  v'' `mod` 4 = bz c `div` 64 → mem !! i = Some (base64_char w4) →
  ∃ v3, decode_base64_loop (S fuel) mem i o len 2 v'' =
    decode_base64_loop fuel (<[o := c]> mem) (S i) (S o) (len + 1) 0 v3.
Proof.
  pose proof (bz_range c).
  pose proof (sextets_range (bz a) (bz b) (bz c)) as Hw. unfold sextets in *.
  destruct Hw as (_ & _ & _ & Hw4); [apply bz_range|apply bz_range|done|]. intros Hv H1.
  rewrite (decode_step _ _ _ _ _ _ _ _ Hw4 H1). cbn zeta.
  destruct (i32_lor v'' _ Hw4) as [q ->].
  change (8 <=? 2 + 6) with true. change (Z.rem (2 + 6) 8) with 0.
  change (2 + 6 - 8) with 0. cbn iota. rewrite (stored_byte _ _ c); [|lia|].
  - by eexists.
  - clear H1. change (2 ^ 0) with 1. dlia.
Qed.
End group.

(** Four characters are read by their four lookups. *)

Lemma drop_lookups (mem : list byte) i c1 c2 c3 c4 r :
  drop i mem = c1 :: c2 :: c3 :: c4 :: r →
  mem !! i = Some c1 ∧ mem !! S i = Some c2 ∧ mem !! S (S i) = Some c3 ∧
  mem !! S (S (S i)) = Some c4 ∧ drop (S (S (S (S i)))) mem = r.
Proof.
  intros H. apply drop_cons_lookup in H as [? H]. apply drop_cons_lookup in H as [? H].
  apply drop_cons_lookup in H as [? H]. apply drop_cons_lookup in H as [? H]. done.
Qed.

Lemma lookup_before (mem : list byte) o i x : (o < i)%nat → <[o := x]> mem !! i = mem !! i.
Proof. intros. apply list_lookup_insert_ne. lia. Qed.

Lemma inserts_3 (mem : list byte) o a b c src :
  list_inserts (S (S (S o))) src (<[S (S o) := c]> (<[S o := b]> (<[o := a]> mem)))
  = list_inserts o (a :: b :: c :: src) mem.
Proof.
  cbn [list_inserts]. rewrite !list_insert_inserts_lt by lia. f_equal.
  rewrite (list_insert_insert_ne _ (S (S o)) (S o)) by lia.
  rewrite (list_insert_insert_ne _ (S (S o)) o) by lia.
  by rewrite (list_insert_insert_ne _ (S o) o) by lia.
Qed.

Lemma decode_run src fuel mem i o len v rest :
  drop i mem = encode_ready src ++ x00 :: rest → (o ≤ i)%nat →
  (length (encode_ready src) < fuel)%nat →
  decode_base64_loop fuel mem i o len 0 v
  = (len + Z.of_nat (length src), list_inserts o src mem).
Proof.
  revert fuel mem i o len v.
  induction src as [|a|a b|a b c src IH] using list_ind3;
    intros fuel mem i o len v Hm Ho Hf; cbn [encode_ready] in *.
  - apply drop_cons_lookup in Hm as [Hl _]. destruct fuel; [cbn in Hf; lia|].
    rewrite (decode_stop _ _ _ _ _ _ _ x00) by auto. cbn. f_equal. lia.
  - rewrite encode_base64_1 in *. cbn [sextets length app] in *.
    apply drop_lookups in Hm as (H1 & H2 & H3 & _).
    do 3 (destruct fuel as [|fuel]; [lia|]).
    destruct (decode_1 a x00 x00 mem i o (S fuel) len v H1 H2) as (v' & _ & ->).
    rewrite (decode_stop _ _ _ _ _ _ _ x3d); [done|auto|by rewrite lookup_before by lia].
  - rewrite encode_base64_2 in *. cbn [sextets length app] in *.
    apply drop_lookups in Hm as (H1 & H2 & H3 & H4 & _).
    do 4 (destruct fuel as [|fuel]; [lia|]).
    destruct (decode_1 a b x00 mem i o (S (S fuel)) len v H1 H2) as (v' & Hv' & ->).
    destruct (decode_2 a b x00 (<[o := a]> mem) (S (S i)) (S o) (S fuel) (len + 1) v' Hv')
      as (v'' & _ & ->); [by rewrite lookup_before by lia|].
    rewrite (decode_stop _ _ _ _ _ _ _ x3d); [|auto|by rewrite !lookup_before by lia].
    cbn [length list_inserts]. rewrite list_insert_insert_ne by lia. f_equal. lia.
  - rewrite encode_base64_3 in *. cbn [sextets app] in *.
    rewrite !length_cons in Hf.
    apply drop_lookups in Hm as (H1 & H2 & H3 & H4 & Hm).
    do 4 (destruct fuel as [|fuel]; [lia|]).
    destruct (decode_1 a b c mem i o (S (S fuel)) len v H1 H2) as (v' & Hv' & ->).
    destruct (decode_2 a b c (<[o := a]> mem) (S (S i)) (S o) (S fuel) (len + 1) v' Hv')
      as (v'' & Hv'' & ->); [by rewrite lookup_before by lia|].
    edestruct (decode_3 a b c) as (v3 & ->); [done|by rewrite !lookup_before by lia|].
    rewrite IH; [|by rewrite !drop_insert_lt by lia|lia|lia].
    rewrite inserts_3. cbn [length]. f_equal. lia.
Qed.

(** The memory a received blob lies in: its base64 text, terminated. *)

Definition base64_text (src rest : list byte) : list byte := encode_ready src ++ x00 :: rest.

Lemma decode_encoded src rest :
  guac_protocol_decode_base64 (base64_text src rest)
  = (Z.of_nat (length src), src ++ drop (length src) (base64_text src rest)).
Proof.
  unfold base64_text, guac_protocol_decode_base64.
  rewrite (decode_run src _ _ _ _ _ _ rest); [|done|lia|rewrite length_app; cbn; lia].
  f_equal. pose proof (encode_ready_length src) as Hlen.
  rewrite <-(take_drop (length src) (encode_ready src ++ _)) at 1.
  rewrite list_inserts_0_r; [done|].
  rewrite length_take, length_app. dlia.
Qed.

(** C7. Decoding what [encode_ready] yields for some data returns the length of the data and leaves
    the data at the start of the memory; the rest of the memory is as it was. *)

Theorem base64_round_trip src rest :
  guac_protocol_decode_base64 (base64_text src rest)
  = (Z.of_nat (length src), src ++ drop (length src) (base64_text src rest)).
Proof. apply decode_encoded. Qed.
