(* ===== verification/ProtocolSpec.v ===== *)
(** * What the senders of protocol.c send

    [instruction] lists the instructions protocol.c can send with the values
    they carry; [opcode] and [arguments] say what each means on the wire and
    [encode] how elements are written.  [send_instruction_emits] is the
    refinement: each function of protocol.c sends exactly the encoding of its
    instruction and leaves the socket ready for the next one. *)

From S2P Require Import Prelude CFormat Unicode Socket ProtocolTypes Protocol Base64.
From Stdlib Require Import Floats.SpecFloat.
Local Open Scope Z_scope.
Local Open Scope guac_scope.

(** ** Elements *)

Inductive arg : Type :=
| AInt (z : Z)
| AStr (s : list byte)
| ADouble (d : spec_float)
| ABlob (data : list byte).

Definition arg_bytes (a : arg) : list byte :=
  match a with
  | AInt z => fmt_d z
  | AStr s => s
  | ADouble d => snprintf 128 (fmt_g16 d)
  | ABlob data => encode_ready data
  end.

(** The values the C types of the parameters can hold. *)

Definition arg_ok (a : arg) : Prop :=
  match a with
  | AInt z => is_i64 z
  | AStr s => no_nul s ∧ Z.of_nat (length s) ≤ INT_MAX
  | ADouble _ => True
  | ABlob data => Z.of_nat (length (encode_ready data)) ≤ INT_MAX - 6
  end.

(** An element is its length in characters, a point and its contents. *)

Definition element (e : list byte) : list byte :=
  fmt_d (guac_utf8_strlen e) ++ lit "." ++ e.

Fixpoint encode_tail (es : list (list byte)) : list byte :=
  match es with
  | [] => lit ";"
  | e :: es' => lit "," ++ element e ++ encode_tail es'
  end.

Definition encode (es : list (list byte)) : list byte :=
  match es with
  | [] => []
  | e :: es' => element e ++ encode_tail es'
  end.

(** ** Instructions *)

Inductive instruction : Type :=
| I_ack (stream : guac_stream) (error : list byte) (status : guac_protocol_status)
| I_argv (stream : guac_stream) (mimetype name : list byte)
| I_arc (layer : guac_layer) (x y radius : Z)
    (startAngle endAngle : spec_float) (negative : Z)
| I_audio (stream : guac_stream) (mimetype : list byte)
| I_body (object : guac_object) (stream : guac_stream) (mimetype name : list byte)
| I_cfill (mode : guac_composite_mode) (layer : guac_layer) (r g b a : Z)
| I_close (layer : guac_layer)
| I_clip (layer : guac_layer)
| I_clipboard (stream : guac_stream) (mimetype : list byte)
| I_copy (srcl : guac_layer) (srcx srcy w h : Z)
    (mode : guac_composite_mode) (dstl : guac_layer) (dstx dsty : Z)
| I_cstroke (mode : guac_composite_mode) (layer : guac_layer)
    (cap : guac_line_cap_style) (join : guac_line_join_style) (thickness r g b a : Z)
| I_cursor (x y : Z) (srcl : guac_layer) (srcx srcy w h : Z)
| I_curve (layer : guac_layer) (cp1x cp1y cp2x cp2y x y : Z)
| I_disconnect
| I_dispose (layer : guac_layer)
| I_distort (layer : guac_layer) (a b c d e f : spec_float)
| I_end (stream : guac_stream)
| I_error (error : list byte) (status : guac_protocol_status)
| I_msg (msg : guac_message_type) (args : list (list byte))
| I_file (stream : guac_stream) (mimetype name : list byte)
| I_filesystem (object : guac_object) (name : list byte)
| I_identity (layer : guac_layer)
| I_key (keysym pressed timestamp : Z)
| I_lfill (mode : guac_composite_mode) (layer srcl : guac_layer)
| I_line (layer : guac_layer) (x y : Z)
| I_lstroke (mode : guac_composite_mode) (layer : guac_layer) (cap : guac_line_cap_style)
    (join : guac_line_join_style) (thickness : Z) (srcl : guac_layer)
| I_mouse (x y button_mask timestamp : Z)
| I_touch (id x y x_radius y_radius : Z) (angle force : spec_float) (timestamp : Z)
| I_move (layer parent : guac_layer) (x y z : Z)
| I_name (name : list byte)
| I_nest (index : Z) (data : list byte)
| I_nop
| I_pipe (stream : guac_stream) (mimetype name : list byte)
| I_img (stream : guac_stream) (mode : guac_composite_mode)
    (layer : guac_layer) (mimetype : list byte) (x y : Z)
| I_pop (layer : guac_layer)
| I_push (layer : guac_layer)
| I_ready (id : list byte)
| I_rect (layer : guac_layer) (x y width height : Z)
| I_required (required : list (list byte))
| I_reset (layer : guac_layer)
| I_set (layer : guac_layer) (name value : list byte)
| I_set_int (layer : guac_layer) (name : list byte) (value : Z)
| I_select (protocol : list byte)
| I_shade (layer : guac_layer) (a : Z)
| I_size (layer : guac_layer) (w h : Z)
| I_start (layer : guac_layer) (x y : Z)
| I_sync (timestamp frames : Z)
| I_transfer (srcl : guac_layer) (srcx srcy w h : Z)
    (fn : guac_transfer_function) (dstl : guac_layer) (dstx dsty : Z)
| I_transform (layer : guac_layer) (a b c d e f : spec_float)
| I_undefine (object : guac_object)
| I_video (stream : guac_stream) (layer : guac_layer) (mimetype : list byte)
| I_args (args : list (list byte))
| I_connect (args : list (list byte))
| I_blob (stream : guac_stream) (data : list byte)
| I_log (text : list byte).

Definition opcode (i : instruction) : list byte :=
  match i with
  | I_ack _ _ _ => lit "ack"
  | I_argv _ _ _ => lit "argv"
  | I_arc _ _ _ _ _ _ _ => lit "arc"
  | I_audio _ _ => lit "audio"
  | I_body _ _ _ _ => lit "body"
  | I_cfill _ _ _ _ _ _ => lit "cfill"
  | I_close _ => lit "close"
  | I_clip _ => lit "clip"
  | I_clipboard _ _ => lit "clipboard"
  | I_copy _ _ _ _ _ _ _ _ _ => lit "copy"
  | I_cstroke _ _ _ _ _ _ _ _ _ => lit "cstroke"
  | I_cursor _ _ _ _ _ _ _ => lit "cursor"
  | I_curve _ _ _ _ _ _ _ => lit "curve"
  | I_disconnect => lit "disconnect"
  | I_dispose _ => lit "dispose"
  | I_distort _ _ _ _ _ _ _ => lit "distort"
  | I_end _ => lit "end"
  | I_error _ _ => lit "error"
  | I_msg _ _ => lit "msg"
  | I_file _ _ _ => lit "file"
  | I_filesystem _ _ => lit "filesystem"
  | I_identity _ => lit "identity"
  | I_key _ _ _ => lit "key"
  | I_lfill _ _ _ => lit "lfill"
  | I_line _ _ _ => lit "line"
  | I_lstroke _ _ _ _ _ _ => lit "lstroke"
  | I_mouse _ _ _ _ => lit "mouse"
  | I_touch _ _ _ _ _ _ _ _ => lit "touch"
  | I_move _ _ _ _ _ => lit "move"
  | I_name _ => lit "name"
  | I_nest _ _ => lit "nest"
  | I_nop => lit "nop"
  | I_pipe _ _ _ => lit "pipe"
  | I_img _ _ _ _ _ _ => lit "img"
  | I_pop _ => lit "pop"
  | I_push _ => lit "push"
  | I_ready _ => lit "ready"
  | I_rect _ _ _ _ _ => lit "rect"
  | I_required _ => lit "required"
  | I_reset _ => lit "reset"
  | I_set _ _ _ => lit "set"
  | I_set_int _ _ _ => lit "set"
  | I_select _ => lit "select"
  | I_shade _ _ => lit "shade"
  | I_size _ _ _ => lit "size"
  | I_start _ _ _ => lit "start"
  | I_sync _ _ => lit "sync"
  | I_transfer _ _ _ _ _ _ _ _ _ => lit "transfer"
  | I_transform _ _ _ _ _ _ _ => lit "transform"
  | I_undefine _ => lit "undefine"
  | I_video _ _ _ => lit "video"
  | I_args _ => lit "args"
  | I_connect _ => lit "connect"
  | I_blob _ _ => lit "blob"
  | I_log _ => lit "log"
  end.

Definition arguments (i : instruction) : list arg :=
  match i with
  | I_ack stream error status => [AInt (stream_index stream); AStr error; AInt
      (guac_protocol_status_value status)]
  | I_argv stream mimetype name => [AInt (stream_index stream); AStr mimetype; AStr
      name]
  | I_arc layer x y radius startAngle endAngle negative => [AInt (layer_index layer);
      AInt x; AInt y; AInt radius; ADouble startAngle; ADouble endAngle; AInt (if
      negative =? 0 then 0 else 1)]
  | I_audio stream mimetype => [AInt (stream_index stream); AStr mimetype]
  | I_body object stream mimetype name => [AInt (object_index object); AInt
      (stream_index stream); AStr mimetype; AStr name]
  | I_cfill mode layer r g b a => [AInt (guac_composite_mode_value mode); AInt
      (layer_index layer); AInt r; AInt g; AInt b; AInt a]
  | I_close layer => [AInt (layer_index layer)]
  | I_clip layer => [AInt (layer_index layer)]
  | I_clipboard stream mimetype => [AInt (stream_index stream); AStr mimetype]
  | I_copy srcl srcx srcy w h mode dstl dstx dsty => [AInt (layer_index srcl); AInt
      srcx; AInt srcy; AInt w; AInt h; AInt (guac_composite_mode_value mode); AInt
      (layer_index dstl); AInt dstx; AInt dsty]
  | I_cstroke mode layer cap join thickness r g b a => [AInt (guac_composite_mode_value
      mode); AInt (layer_index layer); AInt (guac_line_cap_style_value cap); AInt
      (guac_line_join_style_value join); AInt thickness; AInt r; AInt g; AInt b; AInt a]
  | I_cursor x y srcl srcx srcy w h => [AInt x; AInt y; AInt (layer_index srcl); AInt
      srcx; AInt srcy; AInt w; AInt h]
  | I_curve layer cp1x cp1y cp2x cp2y x y => [AInt (layer_index layer); AInt cp1x; AInt
      cp1y; AInt cp2x; AInt cp2y; AInt x; AInt y]
  | I_disconnect => []
  | I_dispose layer => [AInt (layer_index layer)]
  | I_distort layer a b c d e f => [AInt (layer_index layer); ADouble a; ADouble b;
      ADouble c; ADouble d; ADouble e; ADouble f]
  | I_end stream => [AInt (stream_index stream)]
  | I_error error status => [AStr error; AInt (guac_protocol_status_value status)]
  | I_msg msg args => [AInt (guac_message_type_value msg)] ++ (AStr <$> args)
  | I_file stream mimetype name => [AInt (stream_index stream); AStr mimetype; AStr
      name]
  | I_filesystem object name => [AInt (object_index object); AStr name]
  | I_identity layer => [AInt (layer_index layer)]
  | I_key keysym pressed timestamp => [AInt keysym; AInt (if pressed =? 0 then 0 else
      1); AInt timestamp]
  | I_lfill mode layer srcl => [AInt (guac_composite_mode_value mode); AInt (layer_index
      layer); AInt (layer_index srcl)]
  | I_line layer x y => [AInt (layer_index layer); AInt x; AInt y]
  | I_lstroke mode layer cap join thickness srcl => [AInt (guac_composite_mode_value
      mode); AInt (layer_index layer); AInt (guac_line_cap_style_value cap); AInt
      (guac_line_join_style_value join); AInt thickness; AInt (layer_index srcl)]
  | I_mouse x y button_mask timestamp => [AInt x; AInt y; AInt button_mask; AInt
      timestamp]
  | I_touch id x y x_radius y_radius angle force timestamp => [AInt id; AInt x; AInt y;
      AInt x_radius; AInt y_radius; ADouble angle; ADouble force; AInt timestamp]
  | I_move layer parent x y z => [AInt (layer_index layer); AInt (layer_index parent);
      AInt x; AInt y; AInt z]
  | I_name name => [AStr name]
  | I_nest index data => [AInt index; AStr data]
  | I_nop => []
  | I_pipe stream mimetype name => [AInt (stream_index stream); AStr mimetype; AStr
      name]
  | I_img stream mode layer mimetype x y => [AInt (stream_index stream); AInt
      (guac_composite_mode_value mode); AInt (layer_index layer); AStr mimetype; AInt x;
      AInt y]
  | I_pop layer => [AInt (layer_index layer)]
  | I_push layer => [AInt (layer_index layer)]
  | I_ready id => [AStr id]
  | I_rect layer x y width height => [AInt (layer_index layer); AInt x; AInt y; AInt
      width; AInt height]
  | I_required required => (AStr <$> required)
  | I_reset layer => [AInt (layer_index layer)]
  | I_set layer name value => [AInt (layer_index layer); AStr name; AStr value]
  | I_set_int layer name value => [AInt (layer_index layer); AStr name; AInt value]
  | I_select protocol => [AStr protocol]
  | I_shade layer a => [AInt (layer_index layer); AInt a]
  | I_size layer w h => [AInt (layer_index layer); AInt w; AInt h]
  | I_start layer x y => [AInt (layer_index layer); AInt x; AInt y]
  | I_sync timestamp frames => [AInt timestamp; AInt frames]
  | I_transfer srcl srcx srcy w h fn dstl dstx dsty => [AInt (layer_index srcl); AInt
      srcx; AInt srcy; AInt w; AInt h; AInt fn; AInt (layer_index dstl); AInt dstx; AInt
      dsty]
  | I_transform layer a b c d e f => [AInt (layer_index layer); ADouble a; ADouble b;
      ADouble c; ADouble d; ADouble e; ADouble f]
  | I_undefine object => [AInt (object_index object)]
  | I_video stream layer mimetype => [AInt (stream_index stream); AInt (layer_index
      layer); AStr mimetype]
  | I_args args => [AStr GUACAMOLE_PROTOCOL_VERSION] ++ (AStr <$> args)
  | I_connect args => (AStr <$> args)
  | I_blob stream data => [AInt (stream_index stream); ABlob data]
  | I_log text => [AStr (snprintf 4096 text)]
  end.

Definition elements (i : instruction) : list (list byte) :=
  opcode i :: (arg_bytes <$> arguments i).

Definition wf_instruction (i : instruction) : Prop := Forall arg_ok (arguments i).

(** The sender of an instruction. *)

Definition send {D} `{SocketOps D} (i : instruction) : M D Z :=
  match i with
  | I_ack stream error status => guac_protocol_send_ack stream error status
  | I_argv stream mimetype name => guac_protocol_send_argv stream mimetype name
  | I_arc layer x y radius startAngle endAngle negative => guac_protocol_send_arc layer x y radius startAngle endAngle negative
  | I_audio stream mimetype => guac_protocol_send_audio stream mimetype
  | I_body object stream mimetype name => guac_protocol_send_body object stream mimetype name
  | I_cfill mode layer r g b a => guac_protocol_send_cfill mode layer r g b a
  | I_close layer => guac_protocol_send_close layer
  | I_clip layer => guac_protocol_send_clip layer
  | I_clipboard stream mimetype => guac_protocol_send_clipboard stream mimetype
  | I_copy srcl srcx srcy w h mode dstl dstx dsty => guac_protocol_send_copy srcl srcx srcy w h mode dstl dstx dsty
  | I_cstroke mode layer cap join thickness r g b a => guac_protocol_send_cstroke mode layer cap join thickness r g b a
  | I_cursor x y srcl srcx srcy w h => guac_protocol_send_cursor x y srcl srcx srcy w h
  | I_curve layer cp1x cp1y cp2x cp2y x y => guac_protocol_send_curve layer cp1x cp1y cp2x cp2y x y
  | I_disconnect => guac_protocol_send_disconnect 
  | I_dispose layer => guac_protocol_send_dispose layer
  | I_distort layer a b c d e f => guac_protocol_send_distort layer a b c d e f
  | I_end stream => guac_protocol_send_end stream
  | I_error error status => guac_protocol_send_error error status
  | I_msg msg args => guac_protocol_send_msg msg args
  | I_file stream mimetype name => guac_protocol_send_file stream mimetype name
  | I_filesystem object name => guac_protocol_send_filesystem object name
  | I_identity layer => guac_protocol_send_identity layer
  | I_key keysym pressed timestamp => guac_protocol_send_key keysym pressed timestamp
  | I_lfill mode layer srcl => guac_protocol_send_lfill mode layer srcl
  | I_line layer x y => guac_protocol_send_line layer x y
  | I_lstroke mode layer cap join thickness srcl => guac_protocol_send_lstroke mode layer cap join thickness srcl
  | I_mouse x y button_mask timestamp => guac_protocol_send_mouse x y button_mask timestamp
  | I_touch id x y x_radius y_radius angle force timestamp => guac_protocol_send_touch id x y x_radius y_radius angle force timestamp
  | I_move layer parent x y z => guac_protocol_send_move layer parent x y z
  | I_name name => guac_protocol_send_name name
  | I_nest index data => guac_protocol_send_nest index data
  | I_nop => guac_protocol_send_nop 
  | I_pipe stream mimetype name => guac_protocol_send_pipe stream mimetype name
  | I_img stream mode layer mimetype x y => guac_protocol_send_img stream mode layer mimetype x y
  | I_pop layer => guac_protocol_send_pop layer
  | I_push layer => guac_protocol_send_push layer
  | I_ready id => guac_protocol_send_ready id
  | I_rect layer x y width height => guac_protocol_send_rect layer x y width height
  | I_required required => guac_protocol_send_required required
  | I_reset layer => guac_protocol_send_reset layer
  | I_set layer name value => guac_protocol_send_set layer name value
  | I_set_int layer name value => guac_protocol_send_set_int layer name value
  | I_select protocol => guac_protocol_send_select protocol
  | I_shade layer a => guac_protocol_send_shade layer a
  | I_size layer w h => guac_protocol_send_size layer w h
  | I_start layer x y => guac_protocol_send_start layer x y
  | I_sync timestamp frames => guac_protocol_send_sync timestamp frames
  | I_transfer srcl srcx srcy w h fn dstl dstx dsty => guac_protocol_send_transfer srcl srcx srcy w h fn dstl dstx dsty
  | I_transform layer a b c d e f => guac_protocol_send_transform layer a b c d e f
  | I_undefine object => guac_protocol_send_undefine object
  | I_video stream layer mimetype => guac_protocol_send_video stream layer mimetype
  | I_args args => guac_protocol_send_args args
  | I_connect args => guac_protocol_send_connect args
  | I_blob stream data => guac_protocol_send_blob stream data
  | I_log text => guac_protocol_send_log text
  end.

(** ** The pieces of an instruction *)

(** [sends strict m bs]: the contract of a whole instruction, called with the instruction lock
    free. *)

Definition sends {D} `{LawfulSocket D} (strict : bool) (m : M D Z) (bs : list byte) : Prop :=
  ∀ sk, pending [] sk → inv (data sk) → locked (data sk) = false →
    ∃ r sk', m sk = Some (r, sk') ∧ pending [] sk' ∧ progress strict bs sk r sk'.

Section pieces.
Context {D : Type} `{LawfulSocket D}.
Implicit Types sk : guac_socket D.

Lemma emits_eq p q strict (m : M D Z) x y :
  emits_from p q strict m x → x = y → emits_from p q strict m y.
Proof. by intros ? <-. Qed.

Lemma emits_both strict (a b : M D Z) x y :
  emits strict a x → emits strict b y → emits strict (a <||> b) (x ++ y).
Proof. apply emits_or. Qed.

Lemma emits_string strict s :
  Z.of_nat (length s) ≤ INT_MAX → emits strict (guac_socket_write_string s) s.
Proof. intros. by apply emits_weaken, writes_emits, write_string_writes. Qed.

Lemma emits_small strict s : (length s ≤ 16)%nat → emits strict (guac_socket_write_string s) s.
Proof. intros. apply emits_string. unfold INT_MAX. lia. Qed.

Lemma emits_int strict i : is_i64 i → emits strict (guac_socket_write_int i) (fmt_d i).
Proof. intros. by apply emits_weaken, writes_emits, write_int_writes. Qed.

Lemma emits_strlen strict s :
  emits strict (guac_socket_write_int (guac_utf8_strlen s)) (fmt_d (guac_utf8_strlen s)).
Proof.
  apply emits_int. pose proof (strlen_i32 s). unfold is_i32, is_i64 in *. lia.
Qed.

Lemma emits_length_string strict s :
  Z.of_nat (length s) ≤ INT_MAX →
  emits strict (__guac_socket_write_length_string s) (element s).
Proof.
  intros Hs. eapply emits_eq.
  - eapply emits_or; [eapply emits_or|].
    + apply emits_strlen.
    + by apply emits_string.
    + by apply emits_string.
  - unfold element. by rewrite <-app_assoc.
Qed.

Lemma emits_length_int strict i :
  is_i64 i → emits strict (__guac_socket_write_length_int i) (element (fmt_d i)).
Proof.
  intros Hi. unfold __guac_socket_write_length_int.
  rewrite snprintf_fmt_d by (done || lia). apply emits_length_string.
  pose proof (fmt_d_length i Hi). unfold INT_MAX. lia.
Qed.

Lemma snprintf_length n s : (length (snprintf n s) ≤ n - 1)%nat.
Proof. unfold snprintf. rewrite length_take. lia. Qed.

Lemma emits_length_double strict d :
  emits strict (__guac_socket_write_length_double d) (element (snprintf 128 (fmt_g16 d))).
Proof.
  apply emits_length_string. pose proof (snprintf_length 128 (fmt_g16 d)).
  unfold INT_MAX. lia.
Qed.

Lemma emits_flush strict : emits strict guac_socket_flush [].
Proof.
  intros sk Hsk Hi. unfold guac_socket_flush. destruct flush_handler as [h|] eqn:E.
  - destruct (flush_law h (data sk) E Hi) as (r & d & Eh & Hi' & Hl & Hr).
    unfold call. rewrite Eh. exists r, (set_data d sk). split; [done|].
    split; [by destruct (r =? 0)|]. unfold progress. cbn. rewrite app_nil_r.
    destruct Hr as [[? ?]|(-> & ? & ?)]; intuition congruence.
  - exists 0, sk. split; [done|]. split; [done|]. by apply progress_refl.
Qed.

(** [if (m) return -1; k] composes as [||] does. *)

Lemma emits_or_fail strict (m k : M D Z) x y :
  emits strict m x → emits strict k y → emits strict (or_fail m k) (x ++ y).
Proof.
  intros Hm Hk sk Hsk Hi. destruct (Hm sk Hsk Hi) as (r & sk1 & E & Hp & P).
  unfold or_fail. rewrite (bind_run _ _ _ _ _ E). destruct (Z.eqb_spec r 0) as [->|Hr].
  - destruct (Hk sk1 Hp (progress_inv _ _ _ _ _ P)) as (r2 & sk2 & E2 & Hp2 & P2). exists r2, sk2.
    split; [done|]. split; [done|]. by eapply progress_trans.
  - exists (-1), sk1. split; [done|]. split; [done|]. by eapply progress_failed.
Qed.

Definition array_bytes (es : list (list byte)) : list byte :=
  concat ((λ e, lit "," ++ element e) <$> es).

Lemma encode_tail_array es : encode_tail es = array_bytes es ++ lit ";".
Proof.
  unfold array_bytes. induction es as [|e es IH]; [done|].
  cbn [encode_tail fmap list_fmap concat]. by rewrite IH, <-!app_assoc.
Qed.

Lemma emits_array strict es :
  Forall (λ e, Z.of_nat (length e) ≤ INT_MAX) es →
  emits strict (guac_socket_write_array es) (array_bytes es).
Proof.
  induction 1 as [|e es He Hes IH].
  - intros sk Hsk Hi. exists 0, sk. split; [done|]. split; [done|]. by apply progress_refl.
  - cbn [guac_socket_write_array]. eapply emits_eq.
    + apply emits_or_fail; [by apply emits_string|].
      apply emits_or_fail; [by apply emits_length_string|done].
    + unfold array_bytes. cbn [fmap list_fmap concat]. by rewrite <-!app_assoc.
Qed.

(** Taking and releasing the instruction lock. *)

Lemma begin_run sk :
  inv (data sk) → locked (data sk) = false →
  ∃ sk', guac_socket_instruction_begin sk = Some (tt, sk') ∧ same_buffers sk sk' ∧
    inv (data sk') ∧
    (lock_handler (D := D) ≠ None → locked (data sk') = true) ∧
    (lock_handler (D := D) = None → locked (data sk') = false) ∧
    failed (data sk') = failed (data sk) ∧ sent (data sk') = sent (data sk).
Proof.
  intros Hi Hl. unfold guac_socket_instruction_begin. destruct lock_handler as [h|] eqn:E.
  - destruct (lock_law h (data sk) E Hi Hl) as (d & Eh & ? & ? & ? & ?).
    unfold call. rewrite Eh. eexists. by repeat split.
  - exists sk. by repeat split.
Qed.

Lemma end_run sk :
  inv (data sk) →
  (lock_handler (D := D) ≠ None → locked (data sk) = true) →
  (lock_handler (D := D) = None → locked (data sk) = false) →
  ∃ sk', guac_socket_instruction_end sk = Some (tt, sk') ∧ same_buffers sk sk' ∧
    inv (data sk') ∧ locked (data sk') = false ∧
    failed (data sk') = failed (data sk) ∧ sent (data sk') = sent (data sk).
Proof.
  intros Hi Hl Hn. unfold guac_socket_instruction_end. destruct (lock_pair (D := D)) as [Hp1 Hp2].
  destruct unlock_handler as [h|] eqn:E.
  - destruct (unlock_law h (data sk) E Hi) as (d & Eh & ? & ? & ? & ?); [naive_solver|].
    unfold call. rewrite Eh. eexists. by repeat split.
  - exists sk. repeat split; try done. naive_solver.
Qed.

(** An instruction is its chain of writes between the two. *)

Lemma sends_intro strict (m : M D Z) bs :
  emits strict m bs →
  sends strict (guac_socket_instruction_begin;; r ← m; guac_socket_instruction_end;; mret r) bs.
Proof.
  intros Hm sk Hp Hi Hl.
  destruct (begin_run sk Hi Hl) as (sk1 & E1 & B1 & I1 & L1 & L1' & F1 & S1).
  rewrite (bind_run _ _ _ _ _ E1).
  destruct (Hm sk1) as (r & sk2 & E2 & Hp2 & P2); [by eapply same_buffers_pending|done|].
  rewrite (bind_run _ _ _ _ _ E2). destruct P2 as (I2 & L2 & P2 & P2').
  destruct (end_run sk2) as (sk3 & E3 & B3 & I3 & L3 & F3 & S3); [intuition congruence..|].
  rewrite (bind_run _ _ _ _ _ E3). exists r, sk3. split; [done|].
  split.
  - eapply same_buffers_pending; [done|]. by destruct (r =? 0).
  - unfold progress. rewrite L3, F3, S3, <-F1, <-S1, Hl. auto.
Qed.
End pieces.

(** ** Blobs

    The length of a blob element is computed from the size of the data; it is the length of the
    base64 text, which is ASCII. *)

Lemma ascii_strlen s :
  Forall (λ c, is_print c = true) s → Z.of_nat (length s) ≤ INT_MAX →
  guac_utf8_strlen s = Z.of_nat (length s).
Proof.
  intros Hs Hl. apply strlen_loop_complete with (len := 0) (n := length s);
    [by apply complete_ascii|by apply is_print_no_nul|lia|lia].
Qed.

Lemma blob_length data :
  Z.of_nat (length (encode_ready data)) ≤ INT_MAX - 6 →
  i32 (Z.quot (i32 (Z.of_nat (length data) + 2)) 3 * 4)
  = guac_utf8_strlen (encode_ready data).
Proof.
  intros Hl. rewrite ascii_strlen; [|apply encode_ready_print|lia].
  pose proof (encode_ready_length data) as E. rewrite E in *. unfold INT_MAX in *.
  rewrite (i32_small (_ + 2)) by (unfold is_i32; dlia).
  rewrite Z.quot_div_nonneg by lia. apply i32_small. unfold is_i32. dlia.
Qed.

Section blob.
Context {D : Type} `{LawfulSocket D}.

Lemma emits_base64 data :
  emits false (guac_socket_write_base64 data <||> guac_socket_flush_base64)
    (encode_ready data).
Proof.
  destruct (write_base64_emits data) as (q & out & -> & Hq & Hw).
  eapply emits_or; [done|by apply flush_base64_emits].
Qed.

(** [||] does not depend on how its operands are grouped. *)

Lemma c_or_assoc (a b c : M D Z) sk : (a <||> b <||> c) sk = (a <||> (b <||> c)) sk.
Proof.
  unfold c_or, mbind, M_bind, mret, M_ret. destruct (a sk) as [[ra sk1]|]; [|done].
  destruct (ra =? 0); cbn; [|done]. destruct (b sk1) as [[rb sk2]|]; [|done].
  destruct (rb =? 0); cbn; [|done]. destruct (c sk2) as [[rc sk3]|]; [|done].
  by destruct (rc =? 0).
Qed.

Lemma emits_or_assoc p q strict (a b c : M D Z) bs :
  emits_from p q strict (a <||> (b <||> c)) bs →
  emits_from p q strict (a <||> b <||> c) bs.
Proof. intros Hm sk Hsk Hi. rewrite c_or_assoc. by apply Hm. Qed.
End blob.

(** ** The refinement *)

(** Only the base64 encoder loses the result of a write (see [flush_base64_result]). *)

Definition strict_of (i : instruction) : bool := if i is I_blob _ _ then false else true.

(** [emits_chain] walks a chain of writes; each string or number is covered by a fact about its
    size in the context. *)

Ltac emits_chain :=
  lazymatch goal with
  | |- emits _ (c_or _ _) _ => eapply emits_both; [emits_chain|emits_chain]
  | |- emits _ (__guac_socket_write_length_int _) _ => apply emits_length_int; assumption
  | |- emits _ (__guac_socket_write_length_string _) _ => apply emits_length_string; tauto
  | |- emits _ (__guac_socket_write_length_double _) _ => apply emits_length_double
  | |- emits _ (guac_socket_write_array _) _ => apply emits_array; assumption
  | |- emits _ (guac_socket_write_int (guac_utf8_strlen _)) _ => apply emits_strlen
  | |- emits _ guac_socket_flush _ => apply emits_flush
  | |- emits _ (guac_socket_write_string _) _ => apply emits_small; vm_compute; lia
  end.

Section refinement.
Context {D : Type} `{LawfulSocket D}.

Lemma sends_chain strict (m : M D Z) x y :
  emits strict m x → x = y →
  sends strict (guac_socket_instruction_begin;; r ← m; guac_socket_instruction_end;; mret r) y.
Proof. intros Hm <-. by apply sends_intro. Qed.

Lemma strings_ok (l : list (list byte)) :
  Forall arg_ok (AStr <$> l) → Forall (λ e, Z.of_nat (length e) ≤ INT_MAX) l.
Proof. rewrite Forall_fmap. induction 1 as [|e l [_ He] Hl IH]; by constructor. Qed.

Lemma args_bytes_strings (l : list (list byte)) : arg_bytes <$> (AStr <$> l) = l.
Proof. rewrite <-list_fmap_compose. apply list_fmap_id. Qed.

(** Instructions with a list of strings. *)

Lemma encode_strings op (l : list (list byte)) :
  encode (op :: (arg_bytes <$> (AStr <$> l))) = element op ++ array_bytes l ++ lit ";".
Proof. unfold encode. by rewrite args_bytes_strings, encode_tail_array. Qed.

Lemma encode_strings_1 op a (l : list (list byte)) :
  encode (op :: (arg_bytes <$> ([a] ++ (AStr <$> l))))
  = element op ++ lit "," ++ element (arg_bytes a) ++ array_bytes l ++ lit ";".
Proof.
  unfold encode. rewrite fmap_app, args_bytes_strings.
  cbn [app fmap list_fmap encode_tail]. by rewrite encode_tail_array.
Qed.

Lemma send_args_emits l :
  Forall (λ e, Z.of_nat (length e) ≤ INT_MAX) l →
  sends true (guac_protocol_send_args (D := D) l) (encode (elements (I_args l))).
Proof.
  intros Hl. apply sends_intro. unfold __guac_protocol_send_args. eapply emits_eq.
  - apply emits_or_fail; [apply emits_small; cbn; lia|].
    apply emits_or_fail; [apply emits_both|apply emits_or_fail].
    + apply emits_small. cbn. lia.
    + by apply emits_length_string; vm_compute.
    + by apply emits_array.
    + apply emits_small. cbn. lia.
  - unfold elements, arguments. rewrite encode_strings_1, <-!app_assoc. reflexivity.
Qed.

Lemma send_connect_emits l :
  Forall (λ e, Z.of_nat (length e) ≤ INT_MAX) l →
  sends true (guac_protocol_send_connect (D := D) l) (encode (elements (I_connect l))).
Proof.
  intros Hl. apply sends_intro. unfold __guac_protocol_send_connect. eapply emits_eq.
  - apply emits_or_fail; [apply emits_small; cbn; lia|].
    apply emits_or_fail; [by apply emits_array|apply emits_small; cbn; lia].
  - unfold elements, arguments. by rewrite encode_strings.
Qed.

Lemma send_blob_emits stream data :
  wf_instruction (I_blob stream data) →
  sends false (guac_protocol_send_blob (D := D) stream data)
    (encode (elements (I_blob stream data))).
Proof.
  unfold wf_instruction, arguments. rewrite !Forall_cons_iff. cbn [arg_ok].
  intros (Hs & Hd & _). apply sends_intro. cbn zeta. rewrite (blob_length _ Hd).
  eapply emits_eq.
  - apply emits_both; [apply emits_or_assoc, emits_both|].
    + emits_chain.
    + apply emits_base64.
    + apply emits_small. cbn. lia.
  - unfold elements, encode. cbn [arguments opcode fmap list_fmap encode_tail arg_bytes].
    unfold element at 4. rewrite <-!app_assoc. reflexivity.
Qed.

Lemma send_emits i :
  wf_instruction i →
  sends (strict_of i) (send (D := D) i) (encode (elements i)).
Proof.
  unfold wf_instruction. intros Hw.
  destruct i; cbn [arguments strict_of send app] in *;
    repeat match goal with
    | Hx : Forall arg_ok (_ :: _) |- _ => apply Forall_cons_iff in Hx as [? Hx]
    end; cbn [arg_ok] in *; try apply strings_ok in Hw.
  all: try (eapply sends_chain; [emits_chain|rewrite <-?app_assoc; reflexivity]).
  - unfold guac_protocol_send_arc, elements. cbn [arguments]. destruct (negative =? 0).
    all: eapply sends_chain; [emits_chain|rewrite <-?app_assoc; reflexivity].
  - eapply sends_chain; [emits_chain|]. unfold elements, arguments.
    rewrite encode_strings_1, <-!app_assoc. reflexivity.
  - unfold guac_protocol_send_key, elements. cbn [arguments]. destruct (pressed =? 0).
    all: eapply sends_chain; [emits_chain|rewrite <-?app_assoc; reflexivity].
  - eapply sends_chain; [emits_chain|]. unfold elements, arguments.
    rewrite encode_strings, <-!app_assoc. by rewrite app_nil_r.
  - by apply send_args_emits.
  - by apply send_connect_emits.
  - apply send_blob_emits. by do 2 (constructor; [done|]).
Qed.

(** C4. Each function of protocol.c sends its instruction: called on a socket whose instruction
    lock is free and whose encoder is empty it returns and leaves the socket so again, and unless
    a write or flush fails it returns zero having sent exactly the encoding of the instruction,
    nothing more and nothing less.  A failed write is reported by a result other than zero by
    every function but [guac_protocol_send_blob]. *)

Theorem send_instruction_emits i :
  wf_instruction i →
  sends (strict_of i) (send (D := D) i) (encode (elements i)).
Proof. apply send_emits. Qed.

(** Sending one instruction after another. *)

Lemma sends_seq strict m (k : Z → M D Z) x y :
  sends strict m x →
  (∀ r, r ≠ 0 → k r = mret r) → sends strict (k 0) y →
  sends strict (m ≫= k) (x ++ y).
Proof.
  intros Hm Hr Hk sk Hp Hi Hl. destruct (Hm sk Hp Hi Hl) as (r & sk1 & E & Hp1 & P1).
  rewrite (bind_run _ _ _ _ _ E). destruct (Z.eqb_spec r 0) as [->|Hn].
  - destruct (Hk sk1 Hp1) as (r2 & sk2 & E2 & Hp2 & P2);
      [by destruct P1|by rewrite (proj1 (proj2 P1))|].
    exists r2, sk2. split; [done|]. split; [done|]. by eapply progress_trans.
  - rewrite Hr by done. exists r, sk1. split; [done|]. split; [done|].
    by eapply progress_failed.
Qed.

Definition blobs_bytes (stream : guac_stream) (chunks : list (list byte)) : list byte :=
  concat ((λ chunk, encode (elements (I_blob stream chunk))) <$> chunks).

Lemma blob_chunk_wf stream (chunk : list byte) :
  is_i64 (stream_index stream) → (length chunk ≤ GUAC_PROTOCOL_BLOB_MAX_LENGTH)%nat →
  wf_instruction (I_blob stream chunk).
Proof.
  intros Hs Hc. constructor; [done|]. constructor; [|constructor].
  cbn [arg_ok]. rewrite encode_ready_length.
  apply Nat2Z.inj_le in Hc. change (Z.of_nat GUAC_PROTOCOL_BLOB_MAX_LENGTH) with 6048 in Hc.
  unfold INT_MAX. dlia.
Qed.

Lemma blobs_loop_sends fuel stream data :
  is_i64 (stream_index stream) → (length data < fuel)%nat →
  ∃ chunks, concat chunks = data ∧
    Forall (λ c, (0 < length c ≤ GUAC_PROTOCOL_BLOB_MAX_LENGTH)%nat) chunks ∧
    sends false (send_blobs_loop (D := D) fuel stream data 0) (blobs_bytes stream chunks).
Proof.
  intros Hs. revert data. induction fuel as [|fuel IH]; intros data Hf; [lia|].
  destruct data as [|c data].
  { exists []. split; [done|]. split; [constructor|]. intros sk Hp Hi Hl. exists 0, sk.
    split; [done|]. split; [done|]. by apply progress_refl. }
  cbn [send_blobs_loop]. set (d := c :: data) in *.
  replace (0 <? length d)%nat with true by done. cbn [andb Z.eqb].
  set (size := if (_ <? length d)%nat then _ else _).
  assert (Hsize : (0 < size ≤ GUAC_PROTOCOL_BLOB_MAX_LENGTH)%nat ∧ (size ≤ length d)%nat).
  { assert (0 < GUAC_PROTOCOL_BLOB_MAX_LENGTH)%nat by (by apply Nat.ltb_lt).
    subst size. zif; subst d; cbn [length] in *; lia. }
  destruct (IH (drop size d)) as (chunks & Ec & Hc & Hsend); [rewrite length_drop; lia|].
  exists (take size d :: chunks). split; [|split].
  - cbn [concat]. by rewrite Ec, take_drop.
  - constructor; [|done]. rewrite length_take. lia.
  - apply sends_seq; [|intros r Hr|done].
    + apply send_blob_emits, blob_chunk_wf; [done|]. rewrite length_take. lia.
    + destruct fuel; [subst d; cbn in *; lia|]. cbn [send_blobs_loop].
      by rewrite (proj2 (Z.eqb_neq r 0)), andb_false_r.
Qed.

(** C27. [guac_protocol_send_blobs] terminates for data of any size and sends the data as blob
    instructions whose chunks have 1 to [GUAC_PROTOCOL_BLOB_MAX_LENGTH] bytes and make up the
    data. *)

Theorem send_blobs_chunks stream data :
  is_i64 (stream_index stream) →
  ∃ chunks, concat chunks = data ∧
    Forall (λ c, (0 < length c ≤ GUAC_PROTOCOL_BLOB_MAX_LENGTH)%nat) chunks ∧
    sends false (guac_protocol_send_blobs (D := D) stream data) (blobs_bytes stream chunks).
Proof. intros. apply blobs_loop_sends; [done|lia]. Qed.
End refinement.
