(* ===== verification/Parser.v ===== *)
(** * Parsing the Guacamole protocol (src/src/libguac/parser.c)

    A parser keeps the bytes it has received in a buffer of its own and
    points into it: pointers are offsets into the buffer the parser is given
    data from.  ParserSpec.v states what instruction a parser has read and
    proves that it reads what ProtocolSpec.v encodes. *)

From S2P Require Import Prelude Error Unicode Socket.
Local Open Scope Z_scope.

Definition GUAC_INSTRUCTION_MAX_LENGTH : Z := 8192.
Definition GUAC_INSTRUCTION_MAX_ELEMENTS : nat := 128.

(** The size of [__instructionbuf]. *)

Definition INSTRUCTIONBUF_SIZE : nat := Z.to_nat 32768.

Lemma INSTRUCTIONBUF_SIZE_eq : Z.of_nat INSTRUCTIONBUF_SIZE = 32768.
Proof. apply Z2Nat.id. lia. Qed.

#[global] Opaque INSTRUCTIONBUF_SIZE.

Inductive guac_parse_state : Type :=
| GUAC_PARSE_LENGTH
| GUAC_PARSE_CONTENT
| GUAC_PARSE_COMPLETE
| GUAC_PARSE_ERROR.

#[export] Instance guac_parse_state_eq_dec : EqDecision guac_parse_state.
Proof. solve_decision. Defined.

(** [opcode] is [None] for NULL. [argv] is an index into [__elementv]. *)

Record guac_parser := mk_guac_parser {
  opcode : option nat;
  argc : Z;
  argv : option nat;
  state : guac_parse_state;
  __element_length : Z;
  __elementc : nat;
  __elementv : list nat;
  __instructionbuf_unparsed_start : nat;
  __instructionbuf_unparsed_end : nat;
  __instructionbuf : list byte;
}.

Definition set_state (s : guac_parse_state) (p : guac_parser) : guac_parser :=
  mk_guac_parser (opcode p) (argc p) (argv p) s (__element_length p) (__elementc p)
    (__elementv p) (__instructionbuf_unparsed_start p) (__instructionbuf_unparsed_end p)
    (__instructionbuf p).

Definition set_element_length (n : Z) (p : guac_parser) : guac_parser :=
  mk_guac_parser (opcode p) (argc p) (argv p) (state p) n (__elementc p)
    (__elementv p) (__instructionbuf_unparsed_start p) (__instructionbuf_unparsed_end p)
    (__instructionbuf p).

Definition set_elementv (v : list nat) (p : guac_parser) : guac_parser :=
  mk_guac_parser (opcode p) (argc p) (argv p) (state p) (__element_length p) (__elementc p)
    v (__instructionbuf_unparsed_start p) (__instructionbuf_unparsed_end p)
    (__instructionbuf p).

Definition set_unparsed (s e : nat) (p : guac_parser) : guac_parser :=
  mk_guac_parser (opcode p) (argc p) (argv p) (state p) (__element_length p) (__elementc p)
    (__elementv p) s e (__instructionbuf p).

Definition set_buf (buf : list byte) (p : guac_parser) : guac_parser :=
  mk_guac_parser (opcode p) (argc p) (argv p) (state p) (__element_length p) (__elementc p)
    (__elementv p) (__instructionbuf_unparsed_start p) (__instructionbuf_unparsed_end p) buf.

(** [parser->__elementv[parser->__elementc++] = pos] *)

Definition push_element (pos : nat) (p : guac_parser) : guac_parser :=
  mk_guac_parser (opcode p) (argc p) (argv p) (state p) (__element_length p)
    (S (__elementc p)) (<[__elementc p := pos]> (__elementv p))
    (__instructionbuf_unparsed_start p) (__instructionbuf_unparsed_end p)
    (__instructionbuf p).

(** What is stored at the end of an instruction. *)

Definition complete_instruction (p : guac_parser) : guac_parser :=
  mk_guac_parser (Some (__elementv p !!! 0%nat)) (Z.of_nat (__elementc p) - 1) (Some 1%nat)
    (state p) (__element_length p) (__elementc p) (__elementv p)
    (__instructionbuf_unparsed_start p) (__instructionbuf_unparsed_end p)
    (__instructionbuf p).

Definition guac_parser_reset (p : guac_parser) : guac_parser :=
  mk_guac_parser None 0 (argv p) GUAC_PARSE_LENGTH 0 0 (__elementv p)
    (__instructionbuf_unparsed_start p) (__instructionbuf_unparsed_end p)
    (__instructionbuf p).

(** The allocation succeeds here; [elementv] and [buf] are what the memory held. *)

Definition guac_parser_alloc (elementv : list nat) (buf : list byte) : guac_parser :=
  guac_parser_reset
    (mk_guac_parser None 0 None GUAC_PARSE_LENGTH 0 0 elementv 0 0 buf).

(** ** Appending data

    [append_length_loop n mem pos len]: [n] bytes are left at [pos]; the
    result is the state afterwards, the position and the length so far. *)

Fixpoint append_length_loop (n : nat) (mem : list byte) (pos : nat) (parsed_length : Z)
    : guac_parse_state * nat * Z :=
  match n with
  | O => (GUAC_PARSE_LENGTH, pos, parsed_length)
  | S n' =>
      let c := sc (mem !!! pos) in
      if (48 <=? c) && (c <=? 57) then
        append_length_loop n' mem (S pos) (i32 (parsed_length * 10 + c - 48))
      else if c =? 46 then (GUAC_PARSE_CONTENT, S pos, parsed_length)
      else (GUAC_PARSE_ERROR, S pos, parsed_length)
  end.

(** The content from [pos] on, up to [end_pos]; every turn but the last takes a character of at
    least one byte, so as many turns as there are bytes are enough. *)

Fixpoint append_content_loop (n : nat) (mem : list byte) (pos end_pos : nat) (len : Z)
    : guac_parse_state * nat * Z * list byte :=
  match n with
  | O => (GUAC_PARSE_CONTENT, pos, len, mem)
  | S n' =>
      if (pos <? end_pos)%nat && (0 <=? len) then
        let c := mem !!! pos in
        let char_length := Z.to_nat (guac_utf8_charsize c) in
        if (end_pos <? pos + char_length)%nat then (GUAC_PARSE_CONTENT, pos, len, mem)
        else if len =? 0 then
          let mem := <[pos := x00]> mem in
          if decide (c = x3b) then (GUAC_PARSE_COMPLETE, (pos + char_length)%nat, len, mem)
          else if decide (c = x2c) then (GUAC_PARSE_LENGTH, (pos + char_length)%nat, len, mem)
          else (GUAC_PARSE_ERROR, (pos + char_length)%nat, len, mem)
        else append_content_loop n' mem (pos + char_length) end_pos (len - 1)
      else (GUAC_PARSE_CONTENT, pos, len, mem)
  end.

(** The element length: the parser afterwards and the position reached. *)

Definition append_length (p : guac_parser) (mem : list byte) (off length : nat)
    : guac_parser * nat :=
  let '(s, pos, parsed_length) :=
    append_length_loop length mem off (__element_length p) in
  let p := if decide (s = GUAC_PARSE_CONTENT) then push_element pos p else p in
  if decide (s = GUAC_PARSE_ERROR) then (set_state GUAC_PARSE_ERROR p, pos)
  else if GUAC_INSTRUCTION_MAX_LENGTH <? parsed_length then (set_state GUAC_PARSE_ERROR p, pos)
  else (set_element_length parsed_length (set_state s p), pos).

(** The element content from [pos] on, of the [length] bytes at [off]. *)

Definition append_content (p : guac_parser) (mem : list byte) (off length pos : nat)
    : Z * guac_parser * list byte :=
  let '(s, pos, len, mem) :=
    append_content_loop (off + length - pos) mem pos (off + length) (__element_length p) in
  let p := set_element_length len (set_state s p) in
  match s with
  | GUAC_PARSE_COMPLETE => (Z.of_nat (pos - off), complete_instruction p, mem)
  | GUAC_PARSE_ERROR => (0, p, mem)
  | _ => (Z.of_nat (pos - off), p, mem)
  end.

(** [mem] is the memory [buffer] points into, at [off]. The result is the value returned, the
    parser and the memory afterwards. *)

Definition guac_parser_append (p : guac_parser) (mem : list byte) (off length : nat)
    : Z * guac_parser * list byte :=
  if (__elementc p =? GUAC_INSTRUCTION_MAX_ELEMENTS)%nat
     && bool_decide (state p ≠ GUAC_PARSE_COMPLETE)
  then (0, set_state GUAC_PARSE_ERROR p, mem)
  else
    let '(p, pos) :=
      if decide (state p = GUAC_PARSE_LENGTH) then append_length p mem off length
      else (p, off) in
    if decide (state p = GUAC_PARSE_ERROR) then (0, p, mem)
    else if decide (state p = GUAC_PARSE_CONTENT) then append_content p mem off length pos
    else (Z.of_nat (pos - off), p, mem).

(** ** Reading an instruction *)

Section read.
Context {D : Type} `{SocketOps D}.

(** The outcome of reading: the value returned, what is stored in [guac_error], the parser. *)

Definition read_result : Type := Z * option guac_status * guac_parser.

(** Room is made by moving the unfinished instruction to the start of the buffer. *)

Definition shift_buffer (instr_start unparsed_end : nat) (p : guac_parser) : guac_parser :=
  let moved := take (unparsed_end - instr_start) (drop instr_start (__instructionbuf p)) in
  set_elementv
    (((λ v, v - instr_start)%nat <$> take (__elementc p) (__elementv p))
       ++ drop (__elementc p) (__elementv p))
    (set_buf (splice 0 moved (__instructionbuf p)) p).

Definition make_room (unparsed_start unparsed_end instr_start : nat) (p : guac_parser)
    : nat * nat * nat * guac_parser :=
  if (unparsed_end =? INSTRUCTIONBUF_SIZE)%nat then
    (unparsed_start - instr_start, unparsed_end - instr_start, 0,
     shift_buffer instr_start unparsed_end p)%nat
  else (unparsed_start, unparsed_end, instr_start, p).

Fixpoint parser_read_loop (fuel : nat) (usec_timeout : Z)
    (unparsed_start unparsed_end instr_start : nat) (p : guac_parser) : M D read_result :=
  match fuel with
  | O => diverge
  | S fuel' =>
      if decide (state p = GUAC_PARSE_COMPLETE) then
        mret (0, None, set_unparsed unparsed_start unparsed_end p)
      else if decide (state p = GUAC_PARSE_ERROR) then
        mret (-1, Some GUAC_STATUS_PROTOCOL_ERROR, p)
      else
        let '(parsed, p, mem) :=
          guac_parser_append p (__instructionbuf p) unparsed_start
            (unparsed_end - unparsed_start) in
        let p := set_buf mem p in
        if (parsed =? 0) && bool_decide (state p ≠ GUAC_PARSE_ERROR) then
          let full := (unparsed_end =? INSTRUCTIONBUF_SIZE)%nat in
          if full && (instr_start =? 0)%nat then
            mret (-1, Some GUAC_STATUS_NO_MEMORY, p)
          else
            let '(unparsed_start, unparsed_end, instr_start, p) :=
              make_room unparsed_start unparsed_end instr_start p in
            retval ← guac_socket_select usec_timeout;
            if retval <=? 0 then mret (-1, None, p)
            else
              '(retval, bytes) ← guac_socket_read (INSTRUCTIONBUF_SIZE - unparsed_end);
              let retval := i32 retval in
              if retval <? 0 then mret (-1, Some GUAC_STATUS_SEE_ERRNO, p)
              else if retval =? 0 then mret (-1, Some GUAC_STATUS_CLOSED, p)
              else if (length bytes =? Z.to_nat retval)%nat
                   && (unparsed_end + length bytes <=? INSTRUCTIONBUF_SIZE)%nat then
                parser_read_loop fuel' usec_timeout unparsed_start
                  (unparsed_end + length bytes) instr_start
                  (set_buf (splice unparsed_end bytes (__instructionbuf p)) p)
              else diverge
        else
          parser_read_loop fuel' usec_timeout (unparsed_start + Z.to_nat parsed)
            unparsed_end instr_start p
  end.

(** Every turn parses or reads a byte, or is one of the last two; a byte is read at most twice
    into each place of the buffer (see [parser_read_terminates]). *)

Definition guac_parser_read (p : guac_parser) (usec_timeout : Z) : M D read_result :=
  let start := __instructionbuf_unparsed_start p in
  let p := if decide (state p = GUAC_PARSE_COMPLETE) then guac_parser_reset p else p in
  parser_read_loop (5 * INSTRUCTIONBUF_SIZE + 3) usec_timeout start
    (__instructionbuf_unparsed_end p) start p.

(** The C string an offset points to. *)

Definition string_at (p : guac_parser) (off : nat) : list byte :=
  c_str (drop off (__instructionbuf p)).

Definition guac_parser_expect (p : guac_parser) (usec_timeout : Z) (op : list byte)
    : M D read_result :=
  '(r, e, p) ← guac_parser_read p usec_timeout;
  if r =? 0 then
    match opcode p with
    | Some off =>
        if decide (string_at p off = op) then
          mret (b2z (bool_decide (state p ≠ GUAC_PARSE_COMPLETE)), e, p)
        else mret (-1, Some GUAC_STATUS_PROTOCOL_ERROR, p)
    | None => diverge
    end
  else mret (-1, e, p).
End read.

(** ** What has been received and not parsed *)

Definition guac_parser_length (p : guac_parser) : Z :=
  Z.of_nat (__instructionbuf_unparsed_end p) - Z.of_nat (__instructionbuf_unparsed_start p).

(** The number of bytes copied, the bytes, and the parser afterwards. *)

Definition guac_parser_shift (p : guac_parser) (length : nat) : nat * list byte * guac_parser :=
  let copy_start := __instructionbuf_unparsed_start p in
  let copy_end := __instructionbuf_unparsed_end p in
  let copy_end :=
    if (length <? copy_end - copy_start)%nat then (copy_start + length)%nat else copy_end in
  let length := (copy_end - copy_start)%nat in
  (length, take length (drop copy_start (__instructionbuf p)),
   set_unparsed copy_end (__instructionbuf_unparsed_end p) p).

(** ** Failure is final *)

(** A parser that has failed stays failed: it takes no more bytes, and every later read fails
    with [GUAC_STATUS_PROTOCOL_ERROR], without touching the socket. *)

Theorem parser_error_sticky {D} `{SocketOps D} p (sk : guac_socket D) mem off len t :
  state p = GUAC_PARSE_ERROR →
  guac_parser_append p mem off len = (0, set_state GUAC_PARSE_ERROR p, mem) ∧
  guac_parser_read p t sk = Some ((-1, Some GUAC_STATUS_PROTOCOL_ERROR, p), sk).
Proof.
  intros Hs. split.
  - unfold guac_parser_append. assert (set_state GUAC_PARSE_ERROR p = p) as ->
      by (destruct p; cbn in Hs; by subst).
    destruct (_ && _); [done|]. by rewrite !decide_False, decide_True by (rewrite ?Hs; done).
  - unfold guac_parser_read. rewrite decide_False, Nat.add_comm by (by rewrite Hs).
    cbn [Nat.add parser_read_loop]. by rewrite decide_False, decide_True by (rewrite ?Hs; done).
Qed.
