(* ===== verification/ParserSpec.v ===== *)
(** * What a parser reads

    [guac_parser_append] never leaves the memory it is given and
    [guac_parser_read] always returns ([append_bounds],
    [parser_read_terminates]); and a parser reads back, however the bytes are
    cut up on their way, the elements that ProtocolSpec.v encodes
    ([parser_reads_encoded]). *)

From S2P Require Import Prelude Error CFormat Unicode Socket ProtocolSpec Parser.
Local Open Scope Z_scope.

(** ** The loop over a length *)

Definition digits (s : list byte) : Prop := Forall (λ c, is_digit c = true) s.

Lemma sc_digit c : is_digit c = true → sc c = bz c ∧ 48 ≤ bz c ≤ 57.
Proof. rewrite is_digit_spec. intros. unfold sc. zif; lia. Qed.

Lemma length_loop_digit n mem pos len c :
  mem !! pos = Some c → is_digit c = true → 0 ≤ len → dec_value len [c] ≤ INT_MAX →
  append_length_loop (S n) mem pos len = append_length_loop n mem (S pos) (dec_value len [c]).
Proof.
  intros Hc [Hs Hd]%sc_digit Hl Hm. cbn [append_length_loop].
  rewrite (list_lookup_total_correct _ _ _ Hc), Hs.
  rewrite (proj2 (andb_true_iff _ _)) by lia.
  unfold INT_MAX in Hm. cbn in *. unfold digit_value in *.
  rewrite i32_small by (unfold is_i32; lia). f_equal. lia.
Qed.

(** All that is there are digits: they are added to the length. *)

Lemma length_loop_prefix ds mem pos len :
  take (length ds) (drop pos mem) = ds → digits ds → 0 ≤ len →
  dec_value len ds ≤ INT_MAX →
  append_length_loop (length ds) mem pos len
  = (GUAC_PARSE_LENGTH, (pos + length ds)%nat, dec_value len ds).
Proof.
  revert pos len. induction ds as [|c ds IH]; intros pos len Hm Hd Hl Hmax.
  { cbn. by rewrite Nat.add_0_r. }
  apply Forall_cons_iff in Hd as [Hc Hd].
  destruct (drop pos mem) as [|c' r] eqn:E; [done|]. injection Hm as -> Hm.
  apply drop_cons_lookup in E as [El Ed].
  change (c :: ds) with ([c] ++ ds) in Hmax. rewrite dec_value_app in Hmax.
  assert (0 ≤ dec_value len [c]) by (apply sc_digit in Hc; cbn; unfold digit_value; lia).
  pose proof (dec_value_mono (dec_value len [c]) ds ltac:(done) Hd).
  cbn [length]. rewrite (length_loop_digit _ _ _ _ c) by (done || lia).
  rewrite IH by (rewrite ?Ed; done). by rewrite Nat.add_succ_r.
Qed.

(** The period is there: the content begins behind it. *)

Lemma length_loop_period ds n mem pos len r :
  drop pos mem = ds ++ x2e :: r → (length ds < n)%nat → digits ds → 0 ≤ len →
  dec_value len ds ≤ INT_MAX →
  append_length_loop n mem pos len
  = (GUAC_PARSE_CONTENT, (pos + length ds + 1)%nat, dec_value len ds).
Proof.
  revert n pos len. induction ds as [|c ds IH]; intros n pos len Hm Hn Hd Hl Hmax;
    (destruct n as [|n]; [cbn in Hn; lia|]); apply drop_cons_lookup in Hm as [El Ed].
  - cbn [append_length_loop]. rewrite (list_lookup_total_correct _ _ _ El). cbn.
    do 2 f_equal. lia.
  - apply Forall_cons_iff in Hd as [Hc Hd].
    change (c :: ds) with ([c] ++ ds) in Hmax. rewrite dec_value_app in Hmax.
    assert (0 ≤ dec_value len [c]) by (apply sc_digit in Hc; cbn; unfold digit_value; lia).
    pose proof (dec_value_mono (dec_value len [c]) ds ltac:(done) Hd).
    rewrite (length_loop_digit _ _ _ _ c) by (done || lia). cbn [length] in *.
    rewrite IH by (done || lia). f_equal. f_equal. lia.
Qed.

(** ** The loop over the content *)

Definition terminator (es : list (list byte)) : byte := if es is [] then x3b else x2c.

Definition after_terminator (es : list (list byte)) : guac_parse_state :=
  if es is [] then GUAC_PARSE_COMPLETE else GUAC_PARSE_LENGTH.

Lemma avail_head {A} m pos (mem : list A) a r :
  take m (drop pos mem) = a :: r → mem !! pos = Some a.
Proof.
  intros H. destruct (drop pos mem) as [|x l] eqn:E; [by rewrite take_nil in H|].
  apply drop_cons_lookup in E as [-> _]. destruct m; [done|]. by injection H as ->.
Qed.

Lemma avail_drop {A} m k pos (mem : list A) :
  take (m - k) (drop (pos + k) mem) = drop k (take m (drop pos mem)).
Proof.
  rewrite <-drop_drop, take_drop_commute. destruct (decide (k ≤ m)%nat).
  - do 2 f_equal. lia.
  - rewrite !drop_ge; rewrite ?length_take; (lia || done).
Qed.

(** [k] characters [s] of the element are left, and then its terminator; [avail] is what is
    there of them.  Either the bytes end within them, and as many whole characters are taken as
    there are, or the terminator is reached and replaced. *)

Lemma content_loop_run k s es n mem pos end_pos avail fut tail :
  complete k s → take (end_pos - pos) (drop pos mem) = avail →
  (pos ≤ end_pos)%nat → length avail = (end_pos - pos)%nat → (end_pos - pos ≤ n)%nat →
  avail ++ fut = s ++ terminator es :: tail →
  (∃ k' s1 s2, s = s1 ++ s2 ∧ complete k' s2 ∧ (k' ≤ k)%nat ∧
     (length s1 ≤ length avail ≤ length s)%nat ∧
     append_content_loop n mem pos end_pos (Z.of_nat k)
     = (GUAC_PARSE_CONTENT, (pos + length s1)%nat, Z.of_nat k', mem)) ∨
  ((length s < length avail)%nat ∧
   append_content_loop n mem pos end_pos (Z.of_nat k)
   = (after_terminator es, (pos + length s + 1)%nat, 0, <[(pos + length s)%nat := x00]> mem)).
Proof.
  intros Hc. revert n pos avail.
  induction Hc as [|k c cs s Hcs Hc IH]; intros n pos avail Hav Hle Hla Hn Heq.
  - destruct avail as [|a avail].
    + left. exists 0%nat, [], []. split; [done|]. split; [constructor|]. split; [lia|].
      split; [cbn; lia|]. cbn in Hla.
      assert (pos = end_pos) as -> by lia. cbn [length]. rewrite Nat.add_0_r.
      destruct n; [done|]. cbn [append_content_loop]. by rewrite Nat.ltb_irrefl.
    + right. cbn in Hla, Heq. injection Heq as -> _. split; [cbn; lia|].
      destruct n as [|n]; [lia|]. cbn [append_content_loop length].
      rewrite (proj2 (Nat.ltb_lt pos end_pos)) by lia. cbn [Z.of_nat Z.leb Z.compare andb].
      pose proof (avail_head _ _ _ _ _ Hav) as El.
      rewrite (list_lookup_total_correct _ _ _ El), !Nat.add_0_r.
      assert (guac_utf8_charsize (terminator es) = 1) as -> by by destruct es.
      change (Z.to_nat 1) with 1%nat.
      destruct (Nat.ltb_spec end_pos (pos + 1)); [lia|]. cbn [Z.eqb].
      by destruct es.
  - pose proof (charsize_range c) as Hr. set (ch := c :: cs) in *.
    assert (Hlc : Z.of_nat (length ch) = guac_utf8_charsize c) by (subst ch; done).
    destruct (decide (length avail < length ch)%nat) as [Hshort|Hlong].
    + left. exists (S k), [], (ch ++ s). split; [done|]. split; [by constructor|].
      split; [lia|]. rewrite length_app. split; [cbn; lia|].
      cbn [length]. rewrite Nat.add_0_r.
      destruct n as [|n]; [done|]. cbn [append_content_loop].
      destruct (Nat.ltb_spec pos end_pos); [|done]. cbn [andb].
      rewrite (proj2 (Z.leb_le 0 _)) by lia.
      assert (mem !! pos = Some c) as El.
      { destruct avail as [|a avail]; [cbn in Hla; lia|]. injection Heq as -> _.
        by eapply avail_head. }
      rewrite (list_lookup_total_correct _ _ _ El).
      destruct (Nat.ltb_spec end_pos (pos + Z.to_nat (guac_utf8_charsize c))); [done|lia].
    + assert (Hch : take (length ch) avail = ch).
      { apply (f_equal (take (length ch))) in Heq.
        rewrite take_app_le in Heq by lia. rewrite <-app_assoc in Heq.
        by rewrite take_app_length in Heq. }
      destruct avail as [|a avail]; [subst ch; cbn in Hlong; lia|].
      assert (a = c) as -> by (subst ch; cbn in Hch; by injection Hch).
      pose proof (avail_head _ _ _ _ _ Hav) as El.
      destruct n as [|n]; [cbn in Hla; lia|].
      assert (Hstep : append_content_loop (S n) mem pos end_pos (Z.of_nat (S k))
        = append_content_loop n mem (pos + length ch) end_pos (Z.of_nat k)).
      { cbn [append_content_loop]. rewrite (proj2 (Nat.ltb_lt pos end_pos)) by (cbn in Hla; lia).
        rewrite (proj2 (Z.leb_le 0 _)), (list_lookup_total_correct _ _ _ El) by lia.
        rewrite <-Hlc, Nat2Z.id. destruct (Nat.ltb_spec end_pos (pos + length ch)); [lia|].
        rewrite (proj2 (Z.eqb_neq _ 0)) by lia. cbn [andb]. f_equal. lia. }
      rewrite Hstep. clear Hstep.
      destruct (IH n (pos + length ch)%nat (drop (length ch) (c :: avail)))
        as [(k' & s1 & s2 & -> & Hk & Hle1 & Hle2 & E)|[Hlt E]].
      * rewrite Nat.sub_add_distr. by rewrite avail_drop, Hav.
      * lia.
      * rewrite length_drop. lia.
      * lia.
      * rewrite <-app_assoc in Heq. apply (f_equal (drop (length ch))) in Heq.
        rewrite drop_app_length, drop_app_le in Heq by lia. done.
      * rewrite length_drop in Hle2. rewrite E.
        left. exists k', (ch ++ s1), s2. rewrite !length_app in *.
        split; [by rewrite app_assoc|]. split; [done|]. split; [lia|]. split; [lia|].
        by rewrite Nat.add_assoc.
      * rewrite length_drop in Hlt. rewrite E. right. rewrite length_app. split; [lia|].
        by rewrite !Nat.add_assoc.
Qed.

(** ** The parser within an instruction *)

(** An element a parser can read: whole characters, few enough, none of them NUL. *)

Definition wf_element (e : list byte) : Prop :=
  ∃ k, complete k e ∧ Z.of_nat k ≤ GUAC_INSTRUCTION_MAX_LENGTH ∧ no_nul e.

(** [e] lies at [v], terminated, between [lo] and [hi]. *)

Definition stored (buf : list byte) (lo hi : nat) (v : nat) (e : list byte) : Prop :=
  (lo ≤ v ∧ v + length e + 1 ≤ hi)%nat ∧ take (length e + 1) (drop v buf) = e ++ [x00].

Definition holds_elements (p : guac_parser) (buf : list byte) (lo hi : nat)
    (es : list (list byte)) : Prop :=
  length (__elementv p) = GUAC_INSTRUCTION_MAX_ELEMENTS ∧
  Forall2 (stored buf lo hi) (take (length es) (__elementv p)) es.

(** [at_point p buf lo us es bytes]: the parser has read all but [bytes] of the instruction of
    elements [es]; what it has read lies between [lo] and [us]. *)

Inductive at_point (p : guac_parser) (buf : list byte) (lo us : nat)
    : list (list byte) → list byte → Prop :=
| at_length done e todo ds k :
    state p = GUAC_PARSE_LENGTH → __elementc p = length done →
    holds_elements p buf lo us done →
    digits ds → 0 ≤ __element_length p →
    dec_value (__element_length p) ds = Z.of_nat k → complete k e →
    Z.of_nat k ≤ GUAC_INSTRUCTION_MAX_LENGTH →
    at_point p buf lo us (done ++ e :: todo) (ds ++ x2e :: e ++ encode_tail todo)
| at_content done s1 s2 todo v k :
    state p = GUAC_PARSE_CONTENT → __elementc p = S (length done) →
    holds_elements p buf lo us done →
    __elementv p !! length done = Some v → (lo ≤ v)%nat → (v + length s1 = us)%nat →
    take (length s1) (drop v buf) = s1 →
    __element_length p = Z.of_nat k → complete k s2 →
    at_point p buf lo us (done ++ (s1 ++ s2) :: todo) (s2 ++ encode_tail todo).

(** The parser has read the instruction of elements [es]. *)

Definition has_read (p : guac_parser) (buf : list byte) (lo us : nat) (es : list (list byte))
    : Prop :=
  state p = GUAC_PARSE_COMPLETE ∧ __elementc p = length es ∧
  holds_elements p buf lo us es ∧
  opcode p = Some (__elementv p !!! 0%nat) ∧ argc p = Z.of_nat (length es) - 1 ∧
  argv p = Some 1%nat.

Lemma stored_weaken buf buf' lo hi hi' v e :
  (hi ≤ hi')%nat → take (length e + 1) (drop v buf') = take (length e + 1) (drop v buf) →
  stored buf lo hi v e → stored buf' lo hi' v e.
Proof. unfold stored. intros ? -> [? ?]. split; [lia|done]. Qed.

Lemma take_drop_insert {A} n v i (x : A) (l : list A) :
  (v + n ≤ i)%nat → take n (drop v (<[i:=x]> l)) = take n (drop v l).
Proof.
  intros. rewrite drop_insert_ge by lia. rewrite take_insert_ge by lia. done.
Qed.

Lemma holds_insert p buf lo us hi i x es :
  (us ≤ i)%nat → (us ≤ hi)%nat →
  holds_elements p buf lo us es → holds_elements p (<[i:=x]> buf) lo hi es.
Proof.
  intros Hi Hh [Hl He]. split; [done|]. eapply Forall2_impl; [|exact He].
  intros v e Hs. eapply stored_weaken; [done| |done].
  destruct Hs. apply take_drop_insert. lia.
Qed.

Lemma holds_advance p buf lo us hi es :
  (us ≤ hi)%nat → holds_elements p buf lo us es → holds_elements p buf lo hi es.
Proof.
  intros Hh [Hl He]. split; [done|]. eapply Forall2_impl; [|exact He].
  intros v e Hs. by eapply stored_weaken.
Qed.

(** An element is stored once its terminator has been replaced. *)

Lemma stored_new buf lo v e :
  (lo ≤ v)%nat → (v + length e < length buf)%nat → take (length e) (drop v buf) = e →
  stored (<[(v + length e)%nat := x00]> buf) lo (v + length e + 1) v e.
Proof.
  intros Hlo Hl He. split; [lia|]. rewrite drop_insert_ge by lia.
  replace (v + length e - v)%nat with (length e) by lia.
  rewrite insert_take_drop by (rewrite length_drop; lia). rewrite He.
  rewrite take_app_ge by lia. f_equal.
  by replace (length e + 1 - length e)%nat with 1%nat by lia.
Qed.

Lemma holds_snoc p buf lo hi es v e :
  holds_elements p buf lo hi es → __elementv p !! length es = Some v →
  stored buf lo hi v e → holds_elements p buf lo hi (es ++ [e]).
Proof.
  intros [Hl He] Hv Hs. split; [done|].
  rewrite length_app, Nat.add_1_r, (take_S_r _ _ _ Hv).
  apply Forall2_app; [done|]. by constructor.
Qed.

(** ** Appending within an instruction

    [step_ok] is what holds after an append of the bytes [avail] at [us], when [fut] is still to
    come and [bytes], then [rest], are expected: the parser is at [us'], at the end of the
    instruction or within it, and if it did not move the bytes ended within the instruction. *)

Definition step_ok (lo us : nat) (es : list (list byte)) (bytes avail fut rest buf : list byte)
    (us' : nat) (p' : guac_parser) (buf' : list byte) : Prop :=
  (us ≤ us' ≤ us + length avail)%nat ∧ length buf' = length buf ∧ drop us' buf' = drop us' buf ∧
  ((us < us')%nat ∧ has_read p' buf' lo us' es ∧ drop (us' - us) avail ++ fut = rest ∨
   ∃ bytes', at_point p' buf' lo us' es bytes' ∧
     drop (us' - us) avail ++ fut = bytes' ++ rest ∧
     (us' + length bytes' = us + length bytes)%nat ∧
     (us' = us → (length avail < length bytes')%nat)).

Lemma element_cons e r : element e ++ r = fmt_d (guac_utf8_strlen e) ++ x2e :: e ++ r.
Proof. unfold element. by rewrite <-!app_assoc. Qed.

(** The length of a well-formed element is announced by digits that count its characters. *)

Lemma wf_element_length e :
  wf_element e → ∃ k, complete k e ∧ Z.of_nat k ≤ GUAC_INSTRUCTION_MAX_LENGTH ∧
    digits (fmt_d (guac_utf8_strlen e)) ∧
    dec_value 0 (fmt_d (guac_utf8_strlen e)) = Z.of_nat k.
Proof.
  intros (k & Hc & Hk & Hn). exists k. do 2 (split; [done|]).
  unfold GUAC_INSTRUCTION_MAX_LENGTH in Hk.
  assert (guac_utf8_strlen e = Z.of_nat k) as ->
    by (apply (strlen_loop_complete k e 0); [done|done|lia|unfold INT_MAX; lia]).
  rewrite fmt_d_nonneg by lia. split; [apply dec_digits; lia|apply dec_read_back; lia].
Qed.

(** The first element, or the one after a comma. *)

Lemma at_element_start p buf lo us es e todo :
  state p = GUAC_PARSE_LENGTH → __elementc p = length es → __element_length p = 0 →
  holds_elements p buf lo us es → wf_element e →
  at_point p buf lo us (es ++ e :: todo) (element e ++ encode_tail todo).
Proof.
  intros Hs Hc Hl Hh (k & Hk & Hm & Hd & Hv)%wf_element_length.
  rewrite element_cons. eapply at_length; rewrite ?Hl; (done || lia).
Qed.

Lemma encode_tail_terminator todo :
  ∃ tail, encode_tail todo = terminator todo :: tail ∧
    match todo with
    | [] => tail = []
    | e :: todo' => tail = element e ++ encode_tail todo'
    end.
Proof. destruct todo; by eexists. Qed.

(** The end of an element: its terminator is replaced and the element stored. *)

Lemma terminated p buf lo us s1 s2 done v :
  holds_elements p buf lo us done → __elementv p !! length done = Some v → (lo ≤ v)%nat →
  (v + length s1 = us)%nat → take (length s1) (drop v buf) = s1 →
  take (length s2) (drop us buf) = s2 → (us + length s2 < length buf)%nat →
  holds_elements p (<[(us + length s2)%nat := x00]> buf) lo (us + length s2 + 1)
    (done ++ [s1 ++ s2]).
Proof.
  intros Hh Hv Hlo Hus H1 H2 Hlt. eapply holds_snoc; [|done|].
  - eapply holds_insert; [| |done]; lia.
  - assert (E : (us + length s2 = v + length (s1 ++ s2))%nat) by (rewrite length_app; lia).
    rewrite E in *. apply stored_new; [done|done|].
    rewrite length_app, <-take_take_drop, drop_drop, Hus, H1, H2. done.
Qed.

Lemma append_content_at p buf lo us off end_pos fut rest done s1 s2 todo v k :
  state p = GUAC_PARSE_CONTENT → __elementc p = S (length done) →
  holds_elements p buf lo us done →
  __elementv p !! length done = Some v → (lo ≤ v)%nat → (v + length s1 = us)%nat →
  take (length s1) (drop v buf) = s1 →
  __element_length p = Z.of_nat k → complete k s2 → Forall wf_element todo →
  (off ≤ us ≤ end_pos)%nat → (end_pos ≤ length buf)%nat →
  let avail := take (end_pos - us) (drop us buf) in
  let bytes := s2 ++ encode_tail todo in
  avail ++ fut = bytes ++ rest →
  ∃ us' p' buf', append_content p buf off (end_pos - off) us = (Z.of_nat (us' - off), p', buf') ∧
    step_ok lo us (done ++ (s1 ++ s2) :: todo) bytes avail fut rest buf us' p' buf'.
Proof.
  intros Hs Hc Hh Hv Hlo Hus H1 Hl Hk Htodo Hoff Hend avail bytes Heq.
  assert (Hla : length avail = (end_pos - us)%nat)
    by (subst avail; rewrite length_take, length_drop; lia).
  destruct (encode_tail_terminator todo) as (tail & Et & Htail). subst bytes. rewrite Et in *.
  rewrite <-app_assoc in Heq. cbn [app] in Heq.
  unfold append_content. replace (off + (end_pos - off))%nat with end_pos by lia. rewrite Hl.
  destruct (content_loop_run k s2 todo (end_pos - us) buf us end_pos avail fut (tail ++ rest))
    as [(k' & t1 & t2 & -> & Hk' & Hle & Hlen & ->)|[Hlt ->]]; [done|done|lia|done|done|done| |].
  - assert (Ht1 : take (length t1) avail = t1).
    { apply (f_equal (take (length t1))) in Heq.
      rewrite take_app_le in Heq by lia.
      by rewrite <-app_assoc, take_app_length in Heq. }
    eexists _, _, _. split; [done|]. split; [lia|]. do 2 (split; [done|]). right.
    exists (t2 ++ encode_tail todo). rewrite Et. split; [|split; [|split]].
    + rewrite <-Et, app_assoc. eapply (at_content _ _ _ _ done (s1 ++ t1) t2 todo v k');
        try done.
      * eapply holds_advance; [|done]. lia.
      * rewrite length_app. lia.
      * rewrite length_app, <-take_take_drop, drop_drop, Hus, H1.
        subst avail. rewrite take_take in Ht1. rewrite Nat.min_l in Ht1 by lia. by rewrite Ht1.
    + rewrite Nat.add_comm, Nat.add_sub.
      apply (f_equal (drop (length t1))) in Heq. rewrite drop_app_le in Heq by lia.
      rewrite Heq, <-!app_assoc, drop_app_length. done.
    + rewrite !length_app. cbn [length]. lia.
    + rewrite !length_app in *. cbn [length]. lia.
  - assert (Ht : take (length s2) (drop us buf) = s2).
    { apply (f_equal (take (length s2))) in Heq. rewrite take_app_le in Heq by lia.
      rewrite take_app_length in Heq. subst avail.
      rewrite take_take, Nat.min_l in Heq by lia. done. }
    pose proof (terminated p buf lo us s1 s2 done v Hh Hv Hlo Hus H1 Ht ltac:(lia)) as Hh'.
    assert (Hrest : drop (us + length s2 + 1 - us) avail ++ fut = tail ++ rest).
    { apply (f_equal (drop (length s2 + 1))) in Heq.
      rewrite drop_app_le in Heq by lia.
      replace (us + length s2 + 1 - us)%nat with (length s2 + 1)%nat by lia.
      rewrite Heq, <-drop_drop, drop_app_length. done. }
    destruct todo as [|e todo]; cbn [after_terminator]; eexists _, _, _;
      (split; [done|]); (split; [lia|]); rewrite length_insert; (split; [done|]);
      (split; [apply drop_insert_lt; lia|]).
    + left. subst tail. split; [lia|]. split; [|done].
      unfold has_read. rewrite length_app. cbn. rewrite Hc.
      split; [done|]. split; [lia|]. split; [by destruct Hh'|]. split; [done|].
      split; [lia|done].
    + right. subst tail. exists (element e ++ encode_tail todo). apply Forall_cons_iff in Htodo as [He _].
      split; [|split; [done|split]].
      * rewrite cons_middle, app_assoc. apply at_element_start; try done.
        cbn. rewrite length_app, Hc. cbn. lia.
      * rewrite !length_app. cbn [length]. rewrite ?length_app. lia.
      * lia.
Qed.

Lemma holds_push p buf lo us hi v es :
  (us ≤ hi)%nat → __elementc p = length es → holds_elements p buf lo us es →
  holds_elements (push_element v p) buf lo hi es.
Proof.
  intros Hh Hc [Hl He]. split; [by cbn; rewrite length_insert|].
  cbn. rewrite Hc, take_insert_ge by lia. by apply (holds_advance p buf lo us).
Qed.

(** The length and, if the period is there, what there is of the content. *)

Lemma append_length_at p buf lo us end_pos fut rest done e todo ds k :
  state p = GUAC_PARSE_LENGTH → __elementc p = length done →
  holds_elements p buf lo us done → (length done < GUAC_INSTRUCTION_MAX_ELEMENTS)%nat →
  digits ds → 0 ≤ __element_length p →
  dec_value (__element_length p) ds = Z.of_nat k → complete k e →
  Z.of_nat k ≤ GUAC_INSTRUCTION_MAX_LENGTH → Forall wf_element todo →
  (lo ≤ us ≤ end_pos)%nat → (end_pos ≤ length buf)%nat →
  let avail := take (end_pos - us) (drop us buf) in
  let bytes := ds ++ x2e :: e ++ encode_tail todo in
  avail ++ fut = bytes ++ rest →
  ∃ us' p' buf', guac_parser_append p buf us (end_pos - us) = (Z.of_nat (us' - us), p', buf') ∧
    step_ok lo us (done ++ e :: todo) bytes avail fut rest buf us' p' buf'.
Proof.
  intros Hs Hc Hh Hmax Hd Hl0 Hv Hk Hkm Htodo Hlo Hend avail bytes Heq.
  assert (Hla : length avail = (end_pos - us)%nat)
    by (subst avail; rewrite length_take, length_drop; lia).
  subst bytes. rewrite <-app_assoc in Heq. cbn [app] in Heq.
  unfold guac_parser_append. rewrite Hc, (proj2 (Nat.eqb_neq _ _)) by lia. cbn [andb].
  rewrite decide_True by done. unfold append_length, GUAC_INSTRUCTION_MAX_LENGTH in *.
  destruct (decide (length avail ≤ length ds)%nat) as [Hshort|Hlong].
  - assert (Eds : ds = avail ++ drop (length avail) ds).
    { rewrite <-(take_drop (length avail) ds) at 1. f_equal.
      apply (f_equal (take (length avail))) in Heq.
      rewrite take_app_length, take_app_le in Heq by lia. done. }
    set (ds2 := drop (length avail) ds) in *.
    assert (Hd1 : digits avail ∧ digits ds2) by (apply Forall_app; by rewrite <-Eds).
    rewrite Eds, dec_value_app in Hv.
    assert (0 ≤ dec_value (__element_length p) avail).
    { etrans; [exact Hl0|]. apply dec_value_mono; [done|apply Hd1]. }
    pose proof (dec_value_mono _ ds2 ltac:(done) (proj2 Hd1)).
    rewrite <-Hla, (length_loop_prefix avail buf us);
      [|by rewrite Hla|apply Hd1|done|unfold INT_MAX; lia].
    simpl_decide. destruct (Z.ltb_spec 8192 (dec_value (__element_length p) avail)); [lia|].
    cbn [state set_element_length set_state]. simpl_decide.
    eexists (us + length avail)%nat, _, _. split; [done|]. split; [lia|]. do 2 (split; [done|]).
    right. exists (ds2 ++ x2e :: e ++ encode_tail todo). split; [|split; [|split]].
    + eapply at_length; try done; [|apply Hd1]. eapply holds_advance; [|done]. lia.
    + rewrite Nat.add_comm, Nat.add_sub, drop_all. rewrite Eds, <-!app_assoc in Heq.
      apply app_inv_head in Heq. rewrite Heq. by napp.
    + rewrite Eds, !length_app. lia.
    + rewrite length_app. cbn [length]. lia.
  - assert (Eav : avail = ds ++ x2e :: drop (length ds + 1) avail).
    { rewrite <-(take_drop (length ds + 1) avail) at 1.
      apply (f_equal (take (length ds + 1))) in Heq. rewrite take_app_le in Heq by lia.
      rewrite Heq, take_app_ge by lia. replace (length ds + 1 - length ds)%nat with 1%nat by lia.
      cbn. by rewrite <-app_assoc. }
    set (pos := (us + length ds + 1)%nat).
    assert (Ebuf : drop us buf = ds ++ x2e :: drop (length ds + 1) avail ++ drop end_pos buf).
    { rewrite <-(take_drop (end_pos - us) (drop us buf)) at 1. fold avail. rewrite drop_drop.
      replace (us + (end_pos - us))%nat with end_pos by lia. rewrite Eav at 1. by napp. }
    rewrite (length_loop_period ds _ buf us _ _ Ebuf);
      [|lia|done|done|unfold INT_MAX; lia].
    simpl_decide. rewrite Hv.
    destruct (Z.ltb_spec 8192 (Z.of_nat k)); [lia|].
    cbn [state set_element_length set_state]. simpl_decide.
    fold pos. set (p1 := set_element_length _ _).
    assert (Eav1 : take (end_pos - pos) (drop pos buf) = drop (length ds + 1) avail).
    { subst avail pos. rewrite <-avail_drop. f_equal; [lia|]. f_equal. lia. }
    destruct (append_content_at p1 buf lo pos us end_pos fut rest done [] e todo pos k)
      as (us' & p' & buf' & E & H1 & H2 & H3 & H4); try done; try lia.
    + by cbn; rewrite Hc.
    + apply (holds_push p buf lo us); [lia|done|done].
    + cbn. rewrite Hc. apply list_lookup_insert_eq. by rewrite (proj1 Hh).
    + rewrite Eav1. rewrite Eav in Heq. rewrite <-app_assoc in Heq. apply app_inv_head in Heq.
      injection Heq as Heq. rewrite Heq. by napp.
    + exists us', p', buf'. split; [done|].
      rewrite Eav1 in *. rewrite drop_drop in H4.
      replace (length ds + 1 + (us' - pos))%nat with (us' - us)%nat in H4 by lia.
      rewrite length_drop in H1. split; [lia|]. do 2 (split; [done|]).
      destruct H4 as [(? & ? & ?)|(bytes' & ? & ? & Hb & _)]; [left; split; [lia|done]|right].
      exists bytes'. do 2 (split; [done|]). split; [|lia].
      rewrite length_app. cbn [length]. lia.
Qed.

Lemma append_at_point p buf lo us es bytes end_pos fut rest :
  at_point p buf lo us es bytes → Forall wf_element es →
  (length es < GUAC_INSTRUCTION_MAX_ELEMENTS)%nat →
  (lo ≤ us ≤ end_pos)%nat → (end_pos ≤ length buf)%nat →
  let avail := take (end_pos - us) (drop us buf) in
  avail ++ fut = bytes ++ rest →
  ∃ us' p' buf', guac_parser_append p buf us (end_pos - us) = (Z.of_nat (us' - us), p', buf') ∧
    step_ok lo us es bytes avail fut rest buf us' p' buf'.
Proof.
  intros Hat Hes Hlen Hlo Hend avail Heq.
  destruct Hat as [dn e todo ds k Hs Hc Hh Hd Hl Hv Hk Hm|dn s1 s2 todo v k Hs Hc Hh Hv Hlv Hus H1 Hl Hk];
    apply Forall_app in Hes as [_ [_ Htodo]%Forall_cons_iff];
    rewrite length_app in Hlen; cbn [length] in Hlen.
  - eapply append_length_at; try done. lia.
  - unfold guac_parser_append. rewrite Hc, (proj2 (Nat.eqb_neq _ _)) by lia. cbn [andb].
    rewrite Hs. simpl_decide. rewrite Hs. simpl_decide.
    eapply append_content_at; try done; lia.
Qed.

(** ** Moving the buffer under a parser *)

(** [same_at buf buf' off lo hi]: what [buf] has from [lo] to [hi], [buf'] has [off] lower. *)

Definition same_at (buf buf' : list byte) (off lo hi : nat) : Prop :=
  ∀ v m, (lo ≤ v → v + m ≤ hi → take m (drop (v - off) buf') = take m (drop v buf))%nat.

Lemma holds_moved p p' buf buf' off lo us es :
  (off ≤ lo)%nat → same_at buf buf' off lo us →
  length (__elementv p') = length (__elementv p) →
  take (length es) (__elementv p') = (λ v, v - off)%nat <$> take (length es) (__elementv p) →
  holds_elements p buf lo us es → holds_elements p' buf' (lo - off) (us - off) es.
Proof.
  intros Hoff Hsame Hlen Hv [Hl He]. split; [congruence|]. rewrite Hv.
  apply Forall2_fmap_l. eapply Forall2_impl; [|exact He].
  intros v e [Hb Ht]. split; [lia|]. by rewrite Hsame by lia.
Qed.

Lemma at_point_moved p p' buf buf' off lo us es bytes :
  (off ≤ lo)%nat → same_at buf buf' off lo us →
  state p' = state p → __elementc p' = __elementc p →
  __element_length p' = __element_length p →
  length (__elementv p') = length (__elementv p) →
  take (__elementc p) (__elementv p')
  = (λ v, v - off)%nat <$> take (__elementc p) (__elementv p) →
  at_point p buf lo us es bytes → at_point p' buf' (lo - off) (us - off) es bytes.
Proof.
  intros Hoff Hsame Es Ec El Hlen Hv Hat.
  destruct Hat as [dn e todo ds k Hs Hc Hh Hd Hl0 Hvl Hk Hm
                  |dn s1 s2 todo v k Hs Hc Hh Hel Hlv Hus H1 Hl Hk].
  - apply (at_length _ _ _ _ dn e todo ds k); rewrite ?Es, ?Ec, ?El; try done.
    eapply holds_moved; try done. by rewrite Hc in Hv.
  - assert (Hsub : ∀ m, (m ≤ S (length dn))%nat →
      take m (__elementv p') = (λ v, v - off)%nat <$> take m (__elementv p)).
    { intros m Hm. apply (f_equal (take m)) in Hv. rewrite Hc in Hv.
      by rewrite <-fmap_take, !take_take, !Nat.min_l in Hv by lia. }
    apply (at_content _ _ _ _ dn s1 s2 todo (v - off) k); rewrite ?Es, ?Ec, ?El; try done.
    + eapply holds_moved; try done. apply Hsub. lia.
    + specialize (Hsub (S (length dn)) ltac:(lia)).
      rewrite <-(lookup_take_lt _ (S (length dn))), Hsub by lia.
      rewrite list_lookup_fmap, lookup_take_lt, Hel by lia. done.
    + lia.
    + lia.
    + rewrite Hsame by lia. done.
Qed.

Lemma at_point_same p p' buf buf' lo us es bytes :
  same_at buf buf' 0 lo us →
  state p' = state p → __elementc p' = __elementc p →
  __element_length p' = __element_length p → __elementv p' = __elementv p →
  at_point p buf lo us es bytes → at_point p' buf' lo us es bytes.
Proof.
  intros Hsame Es Ec El Ev Hat.
  rewrite <-(Nat.sub_0_r lo), <-(Nat.sub_0_r us). eapply at_point_moved; try done; [lia|by rewrite Ev|].
  rewrite Ev. symmetry. erewrite list_fmap_ext; [apply list_fmap_id|]. intros. cbn. lia.
Qed.

Lemma splice_length at' (src buf : list byte) :
  (at' + length src ≤ length buf)%nat → length (splice at' src buf) = length buf.
Proof. intros. unfold splice. rewrite !length_app, length_take, length_drop. lia. Qed.

Lemma splice_same_below at' (src buf : list byte) lo us :
  (us ≤ at')%nat → (at' ≤ length buf)%nat → same_at buf (splice at' src buf) 0 lo us.
Proof.
  intros Hu Ha v m _ Hv. rewrite Nat.sub_0_r. unfold splice.
  rewrite drop_app_le by (rewrite length_take; lia).
  rewrite take_app_le by (rewrite length_drop, length_take; lia).
  rewrite <-(take_drop at' buf) at 2.
  rewrite drop_app_le by (rewrite length_take; lia).
  by rewrite take_app_le by (rewrite length_drop, length_take; lia).
Qed.

Lemma splice_avail at' (src buf : list byte) us :
  (us ≤ at')%nat → (at' ≤ length buf)%nat →
  take (at' + length src - us) (drop us (splice at' src buf))
  = take (at' - us) (drop us buf) ++ src.
Proof.
  intros Hu Ha. unfold splice. rewrite drop_app_le by (rewrite length_take; lia).
  rewrite take_drop_commute. replace (us + (at' - us))%nat with at' by lia.
  assert (Hl : length (drop us (take at' buf)) = (at' - us)%nat)
    by (rewrite length_drop, length_take; lia).
  rewrite app_assoc, take_app_le by (rewrite length_app; lia).
  by rewrite take_ge by (rewrite length_app; lia).
Qed.

Lemma shift_same (buf : list byte) lo ue :
  (lo ≤ ue ≤ length buf)%nat →
  same_at buf (splice 0 (take (ue - lo) (drop lo buf)) buf) lo lo ue.
Proof.
  intros Hle v m Hv Hm. unfold splice. rewrite take_0. cbn [app].
  rewrite drop_app_le by (rewrite length_take, length_drop; lia).
  rewrite take_app_le by (rewrite length_drop, length_take, length_drop; lia).
  rewrite <-avail_drop. replace (lo + (v - lo))%nat with v by lia.
  by rewrite take_take, Nat.min_l by lia.
Qed.

Lemma shift_elements p lo ue :
  (__elementc p ≤ length (__elementv p))%nat →
  length (__elementv (shift_buffer lo ue p)) = length (__elementv p) ∧
  take (__elementc p) (__elementv (shift_buffer lo ue p))
  = (λ v, v - lo)%nat <$> take (__elementc p) (__elementv p).
Proof.
  intros Hc. cbn. split.
  - rewrite length_app, length_fmap, length_take, length_drop. lia.
  - rewrite take_app_le by (rewrite length_fmap, length_take; lia).
    by rewrite take_ge by (rewrite length_fmap, length_take; lia).
Qed.

(** ** Reading an instruction *)

Section read.
Context {D : Type} `{Stream D}.
Implicit Types sk : guac_socket D.

(** The bytes received and not parsed. *)

Definition unparsed (p : guac_parser) : list byte :=
  take (__instructionbuf_unparsed_end p - __instructionbuf_unparsed_start p)
    (drop (__instructionbuf_unparsed_start p) (__instructionbuf p)).

Definition buffer_ok (p : guac_parser) : Prop :=
  length (__elementv p) = GUAC_INSTRUCTION_MAX_ELEMENTS ∧
  length (__instructionbuf p) = INSTRUCTIONBUF_SIZE ∧
  (__instructionbuf_unparsed_start p ≤ __instructionbuf_unparsed_end p
    ≤ INSTRUCTIONBUF_SIZE)%nat.

(** How many turns the loop can still take. *)

Definition turns (us ue lo : nat) : nat :=
  (2 * (INSTRUCTIONBUF_SIZE - ue) + (ue - us) + (if lo =? 0 then 0 else 2 * INSTRUCTIONBUF_SIZE))%nat.

Definition read_done (rest : list byte) (es : list (list byte)) (p : guac_parser) sk : Prop :=
  buffer_ok p ∧ unparsed p ++ remaining (data sk) = rest ∧
  ∃ lo, has_read p (__instructionbuf p) lo (__instructionbuf_unparsed_start p) es.

Lemma at_point_state p buf lo us es bytes :
  at_point p buf lo us es bytes →
  state p ≠ GUAC_PARSE_COMPLETE ∧ state p ≠ GUAC_PARSE_ERROR ∧
  length (__elementv p) = GUAC_INSTRUCTION_MAX_ELEMENTS ∧
  ((length es < GUAC_INSTRUCTION_MAX_ELEMENTS)%nat →
     (__elementc p ≤ length (__elementv p))%nat).
Proof.
  destruct 1 as [dn e todo ds k Hs Hc [Hh _]|dn s1 s2 todo v k Hs Hc [Hh _]];
    rewrite Hs, Hc, Hh, length_app; cbn [length]; split_and!; (done || lia).
Qed.

(** One turn that reads: room is made if need be, and the bytes that arrive are appended. *)

Lemma make_room_spec p us ue lo es bytes :
  at_point p (__instructionbuf p) lo us es bytes →
  (length es < GUAC_INSTRUCTION_MAX_ELEMENTS)%nat →
  (lo ≤ us ≤ ue)%nat → (ue ≤ INSTRUCTIONBUF_SIZE)%nat →
  length (__instructionbuf p) = INSTRUCTIONBUF_SIZE →
  (ue = INSTRUCTIONBUF_SIZE → lo ≠ 0)%nat →
  let '(us', ue', lo', p') := make_room us ue lo p in
  at_point p' (__instructionbuf p') lo' us' es bytes ∧
  (lo' ≤ us' ≤ ue' ∧ ue' < INSTRUCTIONBUF_SIZE)%nat ∧
  length (__instructionbuf p') = INSTRUCTIONBUF_SIZE ∧
  (us' - lo' = us - lo)%nat ∧ (turns us' ue' lo' ≤ turns us ue lo)%nat ∧
  take (ue' - us') (drop us' (__instructionbuf p')) = take (ue - us) (drop us (__instructionbuf p)).
Proof.
  intros Hat Hes Hle Hue Hbuf Hfull. unfold make_room.
  destruct (Nat.eqb_spec ue INSTRUCTIONBUF_SIZE) as [E|E]; [|split_and!; try done; lia].
  specialize (Hfull E). destruct (at_point_state _ _ _ _ _ _ Hat) as (_ & _ & _ & Hc).
  destruct (shift_elements p lo ue (Hc Hes)) as [He1 He2].
  pose proof (shift_same (__instructionbuf p) lo ue ltac:(lia)) as Hsame.
  split_and!; try lia.
  - replace 0%nat with (lo - lo)%nat by lia.
    apply (at_point_moved p _ (__instructionbuf p) _ lo lo us es bytes); try done.
    intros v m Hv Hm. apply Hsame; lia.
  - cbn. rewrite splice_length; [done|]. rewrite length_take, length_drop. lia.
  - unfold turns. rewrite (proj2 (Nat.eqb_neq lo 0)) by done. cbn [Nat.eqb]. lia.
  - replace (ue - lo - (us - lo))%nat with (ue - us)%nat by lia. cbn. apply Hsame; lia.
Qed.

(** A parser between two instructions. *)

Definition parser_ready (p : guac_parser) : Prop :=
  buffer_ok p ∧
  (state p = GUAC_PARSE_COMPLETE ∨
   state p = GUAC_PARSE_LENGTH ∧ __elementc p = 0%nat ∧ __element_length p = 0).

(** A turn that reads leads, with the state of the loop it continues with. *)

Definition loop_state : Type := nat * nat * nat * guac_parser.

Definition at_loop (es : list (list byte)) (bytes rest : list byte) (s : loop_state) sk : Prop :=
  let '(us, ue, lo, p) := s in
  at_point p (__instructionbuf p) lo us es bytes ∧
  (lo ≤ us ≤ ue)%nat ∧ (ue ≤ INSTRUCTIONBUF_SIZE)%nat ∧
  length (__instructionbuf p) = INSTRUCTIONBUF_SIZE ∧
  (us + length bytes ≤ lo + INSTRUCTIONBUF_SIZE)%nat ∧
  take (ue - us) (drop us (__instructionbuf p)) ++ remaining (data sk) = bytes ++ rest.

Definition loop_turns (s : loop_state) : nat := let '(us, ue, lo, _) := s in turns us ue lo.

Definition read_loop (fuel : nat) (t : Z) (s : loop_state) : M D read_result :=
  let '(us, ue, lo, p) := s in parser_read_loop fuel t us ue lo p.

(** The part of a turn that reads. *)

Definition read_turn (fuel : nat) (t : Z) (s : loop_state) : M D read_result :=
  let '(us, ue, lo, p) := s in
  if (ue =? INSTRUCTIONBUF_SIZE)%nat && (lo =? 0)%nat then
    mret (-1, Some GUAC_STATUS_NO_MEMORY, p)
  else
    let '(us, ue, lo, p) := make_room us ue lo p in
    retval ← guac_socket_select t;
    if retval <=? 0 then mret (-1, None, p)
    else
      '(retval, bytes) ← guac_socket_read (INSTRUCTIONBUF_SIZE - ue);
      let retval := i32 retval in
      if retval <? 0 then mret (-1, Some GUAC_STATUS_SEE_ERRNO, p)
      else if retval =? 0 then mret (-1, Some GUAC_STATUS_CLOSED, p)
      else if (length bytes =? Z.to_nat retval)%nat
           && (ue + length bytes <=? INSTRUCTIONBUF_SIZE)%nat then
        parser_read_loop fuel t us (ue + length bytes) lo
          (set_buf (splice ue bytes (__instructionbuf p)) p)
      else diverge.

Lemma read_turn_runs fuel t us ue lo p sk es bytes rest :
  at_loop es bytes rest (us, ue, lo, p) sk →
  (length es < GUAC_INSTRUCTION_MAX_ELEMENTS)%nat → (ue - us < length bytes)%nat →
  ∃ s' sk', read_turn fuel t (us, ue, lo, p) sk = read_loop fuel t s' sk' ∧
    at_loop es bytes rest s' sk' ∧ (loop_turns s' < turns us ue lo)%nat.
Proof.
  intros (Hat & Hle & Hue & Hbuf & Htot & Heq) Hes Hshort. unfold read_turn.
  pose proof INSTRUCTIONBUF_SIZE_eq as HB.
  assert (Hroom : (ue = INSTRUCTIONBUF_SIZE → lo ≠ 0)%nat) by lia.
  pose proof (make_room_spec p us ue lo es bytes Hat Hes Hle Hue Hbuf Hroom) as Hmk.
  replace ((ue =? INSTRUCTIONBUF_SIZE)%nat && (lo =? 0)%nat) with false
    by (symmetry; apply andb_false_iff; rewrite !Nat.eqb_neq; lia).
  destruct (make_room us ue lo p) as [[[us1 ue1] lo1] p1].
  destruct Hmk as (Hat1 & [Hle1 Hue1] & Hbuf1 & Hd1 & Ht1 & Hav1).
  rewrite <-Hav1 in Heq.
  assert (Hla : length (take (ue1 - us1) (drop us1 (__instructionbuf p1))) = (ue1 - us1)%nat)
    by (rewrite length_take, length_drop; lia).
  assert (Hla0 : length (take (ue - us) (drop us (__instructionbuf p))) = (ue - us)%nat)
    by (rewrite length_take, length_drop; lia).
  rewrite Hav1, Hla0 in Hla.
  assert (Hrem : remaining (data sk) ≠ []).
  { intros E. apply (f_equal length) in Heq. rewrite E, !length_app, Hav1 in Heq. cbn in Heq. lia. }
  destruct (select_stream t sk Hrem) as (r & d & Es & Hr & Erem).
  rewrite (bind_run _ _ _ _ _ Es). rewrite (proj2 (Z.leb_gt r 0)) by lia.
  destruct (read_stream (INSTRUCTIONBUF_SIZE - ue1) (set_data d sk)) as (bs & d2 & Er & Hbs & Ebs);
    [lia|unfold INT_MAX; lia|by cbn; rewrite Erem|].
  rewrite (bind_run _ _ _ _ _ Er). cbn [data set_data] in Ebs. rewrite Erem in Ebs.
  rewrite i32_small by (unfold is_i32; lia).
  rewrite (proj2 (Z.ltb_ge _ 0)), (proj2 (Z.eqb_neq _ 0)), Nat2Z.id, Nat.eqb_refl by lia.
  rewrite (proj2 (Nat.leb_le _ _)) by lia. cbn [andb].
  exists (us1, ue1 + length bs, lo1, set_buf (splice ue1 bs (__instructionbuf p1)) p1)%nat.
  exists (set_data d2 (set_data d sk)). split; [done|]. split.
  - unfold at_loop. cbn [set_buf __instructionbuf data set_data]. split_and!; try lia.
    + eapply (at_point_same p1 _ (__instructionbuf p1));
        [apply splice_same_below; lia|reflexivity..|exact Hat1].
    + rewrite splice_length; lia.
    + rewrite splice_avail by lia. by rewrite <-app_assoc, <-Ebs.
  - unfold loop_turns, turns in *. lia.
Qed.
(** An element is read back in any number of turns. *)

Lemma loop_step fuel t us ue lo p sk :
  state p ≠ GUAC_PARSE_COMPLETE → state p ≠ GUAC_PARSE_ERROR →
  parser_read_loop (S fuel) t us ue lo p sk =
  (let '(parsed, p, mem) := guac_parser_append p (__instructionbuf p) us (ue - us) in
   let p := set_buf mem p in
   if (parsed =? 0) && bool_decide (state p ≠ GUAC_PARSE_ERROR)
   then read_turn fuel t (us, ue, lo, p) sk
   else parser_read_loop fuel t (us + Z.to_nat parsed) ue lo p sk).
Proof.
  intros H1 H2. cbn [parser_read_loop]. rewrite !decide_False by done.
  destruct (guac_parser_append _ _ _ _) as [[parsed p1] mem].
  cbn zeta. destruct (_ && _); [|done]. unfold read_turn. destruct (_ && _); [done|].
  by destruct (make_room us ue lo (set_buf mem p1)) as [[[us1 ue1] lo1] p2].
Qed.

Lemma parser_loop_reads fuel t s sk es bytes rest :
  at_loop es bytes rest s sk → Forall wf_element es →
  (length es < GUAC_INSTRUCTION_MAX_ELEMENTS)%nat → (loop_turns s + 1 < fuel)%nat →
  ∃ p' sk', read_loop fuel t s sk = Some ((0, None, p'), sk') ∧ read_done rest es p' sk'.
Proof.
  intros Hl Hwf Hes. revert s sk bytes Hl.
  induction fuel as [|fuel IH]; intros [[[us ue] lo] p] sk bytes Hl Hf; [lia|].
  cbn [loop_turns] in Hf. pose proof Hl as (Hat & Hle & Hue & Hbuf & Htot & Heq).
  destruct (at_point_state _ _ _ _ _ _ Hat) as (Hs1 & Hs2 & _).
  destruct (append_at_point p (__instructionbuf p) lo us es bytes ue (remaining (data sk)) rest)
    as (us1 & p1 & buf1 & Happ & Hb & Hlen & Hdrop & Hstep); [done..|lia|lia|done|].
  assert (Hla : length (take (ue - us) (drop us (__instructionbuf p))) = (ue - us)%nat)
    by (rewrite length_take, length_drop; lia).
  assert (Hav1 : take (ue - us1) (drop us1 buf1)
    = drop (us1 - us) (take (ue - us) (drop us (__instructionbuf p)))).
  { rewrite Hdrop, <-avail_drop. f_equal; [lia|]. f_equal. lia. }
  rewrite Hla in *. unfold read_loop. rewrite loop_step, Happ by done. cbn zeta.
  destruct Hstep as [(Hlt & Hread & Hrest)|(bytes' & Hat1 & Hrest & Htot1 & Hshort)].
  - rewrite (proj2 (Z.eqb_neq _ _)) by lia. cbn [andb].
    destruct fuel as [|fuel]; [lia|]. cbn [parser_read_loop].
    rewrite decide_True by apply Hread.
    eexists _, sk. split; [reflexivity|]. unfold read_done, buffer_ok, unparsed. cbn.
    replace (us + Z.to_nat (Z.of_nat (us1 - us)))%nat with us1 by lia.
    rewrite Hav1. split; [|split; [done|by exists lo]].
    split_and!; [apply Hread|congruence|lia..].
  - assert (Hl1 : at_loop es bytes' rest (us1, ue, lo, set_buf buf1 p1) sk).
    { split_and!; cbn [set_buf __instructionbuf]; try (lia || congruence).
      eapply (at_point_same p1 _ buf1); [by intros v m _ _; rewrite Nat.sub_0_r|reflexivity..|done]. }
    destruct (at_point_state _ _ _ _ _ _ Hat1) as (_ & Ht2 & _).
    destruct (decide (us1 = us)) as [->|Hne].
    + rewrite Nat.sub_diag. cbn [Z.of_nat Z.eqb andb].
      rewrite bool_decide_eq_true_2 by done.
      destruct (read_turn_runs fuel t us ue lo _ sk es bytes' rest Hl1 Hes)
        as (s' & sk' & -> & Hs' & Ht); [lia|]. apply (IH s' sk' bytes'); [done|lia].
    + rewrite (proj2 (Z.eqb_neq _ _)) by lia. cbn [andb].
      replace (us + Z.to_nat (Z.of_nat (us1 - us)))%nat with us1 by lia.
      apply (IH (us1, ue, lo, set_buf buf1 p1) sk bytes'); [done|].
      cbn [loop_turns]. unfold turns in *. lia.
Qed.

Lemma parser_reads p t sk es rest :
  parser_ready p → es ≠ [] → Forall wf_element es → (length es < GUAC_INSTRUCTION_MAX_ELEMENTS)%nat →
  (length (encode es) ≤ INSTRUCTIONBUF_SIZE)%nat →
  unparsed p ++ remaining (data sk) = encode es ++ rest →
  ∃ p' sk', guac_parser_read p t sk = Some ((0, None, p'), sk') ∧
    parser_ready p' ∧ state p' = GUAC_PARSE_COMPLETE ∧
    (string_at p' <$> opcode p') = head es ∧
    argc p' = Z.of_nat (length es) - 1 ∧
    (string_at p' <$> take (length es) (__elementv p')) = es ∧
    unparsed p' ++ remaining (data sk') = rest.
Proof.
  intros [(Hv & Hb & Hse) Hst] Hne Hwf Hes Htot Heq.
  unfold guac_parser_read. set (p0 := if decide _ then _ else p).
  assert (Hp0 : state p0 = GUAC_PARSE_LENGTH ∧ __elementc p0 = 0%nat ∧ __element_length p0 = 0 ∧
    __elementv p0 = __elementv p ∧ __instructionbuf p0 = __instructionbuf p ∧
    __instructionbuf_unparsed_end p0 = __instructionbuf_unparsed_end p).
  { subst p0. case_decide; [done|]. destruct Hst as [?|(? & ? & ?)]; [done|]. done. }
  destruct Hp0 as (Hs & Hc & Hl & Hv0 & Hb0 & He0). rewrite He0.
  set (us := __instructionbuf_unparsed_start p) in *.
  set (ue := __instructionbuf_unparsed_end p) in *.
  destruct (parser_loop_reads (5 * INSTRUCTIONBUF_SIZE + 3) t (us, ue, us, p0) sk es (encode es) rest)
    as (p' & sk' & E & Hok' & Hrest & lo & Hr1 & Hr2 & [_ Hr3] & Hr4 & Hr5 & _); [|done|done| |].
  - destruct es as [|e es]; [done|]. apply Forall_cons_iff in Hwf as [He _].
    split_and!; rewrite ?Hb0; try (done || lia).
    apply (at_element_start p0 _ us us [] e es); try done. split; [by rewrite Hv0|constructor].
  - unfold loop_turns, turns. destruct (us =? 0)%nat; lia.
  - exists p', sk'. split; [exact E|]. split; [by split; [|left]|]. split; [done|].
    assert (Hall : string_at p' <$> take (length es) (__elementv p') = es).
    { clear -Hr3 Hwf. induction Hr3 as [|v e vs es [_ Hve] Hr IH] in Hwf |- *; [done|].
      apply Forall_cons_iff in Hwf as [(k & _ & _ & Hnn) Hwf]. cbn. rewrite IH by done. f_equal.
      unfold string_at. rewrite <-(take_drop (length e + 1) (drop v _)), Hve, <-app_assoc.
      by apply c_str_app. }
    rewrite Hr4, Hr5. split_and!; try done. rewrite <-Hall at 1.
    destruct es as [|e es]; [done|]. destruct (__elementv p') as [|v vs]; [|done].
    by inversion Hr3.
Qed.

(** C3. A parser between two instructions, on a socket whose peer sends the encoding of the
    elements [es], in pieces of any size, reads exactly these elements: [guac_parser_read]
    returns zero, the opcode and the arguments point to the elements, and what was sent after the
    instruction is still there to be read.  Fewer than 128 elements of at most 8192 characters
    that make up at most 32768 bytes are enough. *)

Theorem parser_reads_encoded p t sk es rest :
  parser_ready p → es ≠ [] → Forall wf_element es → (length es < GUAC_INSTRUCTION_MAX_ELEMENTS)%nat →
  (length (encode es) ≤ INSTRUCTIONBUF_SIZE)%nat →
  unparsed p ++ remaining (data sk) = encode es ++ rest →
  ∃ p' sk', guac_parser_read p t sk = Some ((0, None, p'), sk') ∧
    parser_ready p' ∧ state p' = GUAC_PARSE_COMPLETE ∧
    (string_at p' <$> opcode p') = head es ∧
    argc p' = Z.of_nat (length es) - 1 ∧
    (string_at p' <$> take (length es) (__elementv p')) = es ∧
    unparsed p' ++ remaining (data sk') = rest.
Proof. apply parser_reads. Qed.
End read.

(** ** Whatever the bytes are *)

Lemma length_loop_bounds n mem pos len :
  let '(s, pos', len') := append_length_loop n mem pos len in
  (pos ≤ pos' ≤ pos + n)%nat ∧ (s = GUAC_PARSE_CONTENT → pos < pos')%nat ∧
  s ≠ GUAC_PARSE_COMPLETE.
Proof.
  revert pos len. induction n as [|n IH]; intros pos len; cbn [append_length_loop].
  - split_and!; (done || lia).
  - zif.
    + specialize (IH (S pos) (i32 (len * 10 + sc (mem !!! pos) - 48))).
      destruct (append_length_loop n mem _ _) as [[s pos'] len'].
      destruct IH as (? & ? & ?). split_and!; (done || lia).
    + zif; split_and!; (done || lia).
Qed.

Lemma content_loop_bounds n mem pos end_pos len :
  (pos ≤ end_pos)%nat →
  let '(s, pos', len', mem') := append_content_loop n mem pos end_pos len in
  (pos ≤ pos' ≤ end_pos)%nat ∧ length mem' = length mem ∧
  (∀ i, i < pos ∨ end_pos ≤ i → mem' !! i = mem !! i)%nat.
Proof.
  revert pos len. induction n as [|n IH]; intros pos len Hle; cbn [append_content_loop].
  { split_and!; (done || lia). }
  destruct (Nat.ltb_spec pos end_pos) as [Hlt|]; cbn [andb]; [|split_and!; (done || lia)].
  destruct (0 <=? len); [|split_and!; (done || lia)].
  pose proof (charsize_range (mem !!! pos)).
  destruct (Nat.ltb_spec end_pos (pos + Z.to_nat (guac_utf8_charsize (mem !!! pos))));
    [split_and!; (done || lia)|].
  destruct (len =? 0).
  - assert (Hi : length (<[pos:=x00]> mem) = length mem ∧
      (∀ i, i < pos ∨ end_pos ≤ i → <[pos:=x00]> mem !! i = mem !! i)%nat).
    { split; [apply length_insert|]. intros i Hi. apply list_lookup_insert_ne. lia. }
    destruct Hi as [Hi1 Hi2]. repeat case_decide; split_and!; (done || lia).
  - specialize (IH (pos + Z.to_nat (guac_utf8_charsize (mem !!! pos)))%nat (len - 1)).
    destruct (append_content_loop n mem _ _ _) as [[[s pos'] len'] mem'].
    destruct IH as (? & ? & Hm); [lia|]. split_and!; try (done || lia).
    intros i Hi. apply Hm. lia.
Qed.

(** What an append leaves of the parser, [pos] being where the last element of it begins. *)

Definition elements_in (p p' : guac_parser) (off hi : nat) : Prop :=
  length (__elementv p') = length (__elementv p) ∧
  (__elementc p ≤ __elementc p' ≤ S (__elementc p))%nat ∧
  (∀ j, (j < __elementc p)%nat → __elementv p' !! j = __elementv p !! j) ∧
  (∀ v, __elementc p' = S (__elementc p) →
     __elementv p' !! __elementc p = Some v → (off < v ≤ hi)%nat) ∧
  __instructionbuf p' = __instructionbuf p ∧
  __instructionbuf_unparsed_start p' = __instructionbuf_unparsed_start p ∧
  __instructionbuf_unparsed_end p' = __instructionbuf_unparsed_end p.

Lemma elements_in_refl p off hi : elements_in p p off hi.
Proof. unfold elements_in. split_and!; (done || lia). Qed.

Lemma append_length_bounds p mem off len :
  (__elementc p < length (__elementv p))%nat →
  let '(p', pos) := append_length p mem off len in
  (off ≤ pos ≤ off + len)%nat ∧ elements_in p p' off (off + len) ∧
  state p' ≠ GUAC_PARSE_COMPLETE.
Proof.
  intros Hc. unfold append_length.
  pose proof (length_loop_bounds len mem off (__element_length p)) as Hb.
  destruct (append_length_loop _ _ _ _) as [[s pos] parsed]. destruct Hb as (Hb & Hp & Hs).
  assert (Hpush : pos ≠ off → elements_in p (push_element pos p) off (off + len)).
  { intros Hne. unfold elements_in. cbn. split_and!; try (done || lia).
    - apply length_insert.
    - intros j Hj. apply list_lookup_insert_ne. lia.
    - intros v _. rewrite list_lookup_insert_eq by done. intros [= <-]. lia. }
  pose proof (elements_in_refl p off (off + len)).
  destruct (decide (s = GUAC_PARSE_CONTENT)) as [->|Hn]; [specialize (Hp eq_refl)|];
    case_decide; try zif; (split; [done|]); (split; [|done]); (done || apply Hpush; lia).
Qed.

Lemma append_safe p mem off len :
  length (__elementv p) = GUAC_INSTRUCTION_MAX_ELEMENTS →
  (__elementc p ≤ GUAC_INSTRUCTION_MAX_ELEMENTS)%nat →
  let '(r, p', mem') := guac_parser_append p mem off len in
  0 ≤ r ≤ Z.of_nat len ∧ (state p' = GUAC_PARSE_ERROR → r = 0) ∧
  length mem' = length mem ∧
  (∀ i, i < off ∨ off + len ≤ i → mem' !! i = mem !! i)%nat ∧
  elements_in p p' off (off + len) ∧
  (__elementc p' ≤ GUAC_INSTRUCTION_MAX_ELEMENTS)%nat.
Proof.
  intros Hl Hc. unfold guac_parser_append.
  destruct (Nat.eqb_spec (__elementc p) GUAC_INSTRUCTION_MAX_ELEMENTS) as [E|E]; cbn [andb].
  - destruct (bool_decide (state p ≠ GUAC_PARSE_COMPLETE)) eqn:Es.
    { split_and!; try (done || lia); apply (elements_in_refl p off (off + len)). }
    apply bool_decide_eq_false, dec_stable in Es. rewrite Es. simpl_decide.
    cbn. rewrite Es. simpl_decide. rewrite Nat.sub_diag.
    split_and!; try (done || lia). apply elements_in_refl.
  - assert (Hl' : (__elementc p < length (__elementv p))%nat) by lia.
    pose proof (append_length_bounds p mem off len Hl') as Hb.
    set (q := if decide (state p = GUAC_PARSE_LENGTH) then _ else (p, off)).
    assert (Hq : (off ≤ q.2 ≤ off + len)%nat ∧ elements_in p q.1 off (off + len)).
    { subst q. case_decide; [|split; [cbn; lia|apply elements_in_refl]].
      destruct (append_length p mem off len). tauto. }
    destruct q as [p1 pos]. cbn [fst snd] in Hq. destruct Hq as [Hpos Hel].
    assert (__elementc p1 ≤ GUAC_INSTRUCTION_MAX_ELEMENTS)%nat by (destruct Hel; lia).
    case_decide; [split_and!; (done || lia)|].
    case_decide; [|split_and!; try (done || lia)].
    unfold append_content.
    pose proof (content_loop_bounds (off + len - pos) mem pos (off + len)
      (__element_length p1) ltac:(lia)) as Hc'.
    destruct (append_content_loop _ _ _ _ _) as [[[s pos'] len'] mem'].
    destruct Hc' as (Hp & Hm & Hi).
    destruct s; split_and!; try (done || lia); intros i Hi'; apply Hi; lia.
Qed.

(** C6. Whatever bytes it is given, [guac_parser_append] writes within the [length]
    bytes of its buffer only, stores no more than 128 elements, each pointing into that buffer,
    and returns between zero and [length], zero when it fails. *)

Theorem append_bounds p mem off len :
  length (__elementv p) = GUAC_INSTRUCTION_MAX_ELEMENTS →
  (__elementc p ≤ GUAC_INSTRUCTION_MAX_ELEMENTS)%nat →
  let '(r, p', mem') := guac_parser_append p mem off len in
  0 ≤ r ≤ Z.of_nat len ∧ (state p' = GUAC_PARSE_ERROR → r = 0) ∧
  length mem' = length mem ∧
  (∀ i, i < off ∨ off + len ≤ i → mem' !! i = mem !! i)%nat ∧
  elements_in p p' off (off + len) ∧
  (__elementc p' ≤ GUAC_INSTRUCTION_MAX_ELEMENTS)%nat.
Proof. apply append_safe. Qed.

Section termination.
Context {D : Type} `{BoundedReader D}.
Implicit Types sk : guac_socket D.

Definition parser_ok (p : guac_parser) : Prop :=
  buffer_ok p ∧ (__elementc p ≤ GUAC_INSTRUCTION_MAX_ELEMENTS)%nat.

(** The outcome of a read: success is a complete instruction. *)

Definition read_returns_ok (m : M D read_result) sk : Prop :=
  ∃ r e p' sk', m sk = Some ((r, e, p'), sk') ∧ parser_ok p' ∧
    (r = 0 ∧ e = None ∧ state p' = GUAC_PARSE_COMPLETE ∨ r = -1).

Definition loop_ok (s : loop_state) : Prop :=
  let '(us, ue, lo, p) := s in
  (lo ≤ us ≤ ue)%nat ∧ (ue ≤ INSTRUCTIONBUF_SIZE)%nat ∧ parser_ok p.

Lemma parser_ok_set_buf p buf :
  parser_ok p → length buf = INSTRUCTIONBUF_SIZE → parser_ok (set_buf buf p).
Proof. unfold parser_ok, buffer_ok. cbn. tauto. Qed.

Lemma parser_ok_set_unparsed p us ue :
  parser_ok p → (us ≤ ue ≤ INSTRUCTIONBUF_SIZE)%nat → parser_ok (set_unparsed us ue p).
Proof. unfold parser_ok, buffer_ok. cbn. tauto. Qed.

Lemma make_room_ok us ue lo p :
  loop_ok (us, ue, lo, p) → (ue = INSTRUCTIONBUF_SIZE → lo ≠ 0)%nat →
  let '(us', ue', lo', p') := make_room us ue lo p in
  loop_ok (us', ue', lo', p') ∧ (ue' < INSTRUCTIONBUF_SIZE)%nat ∧
  (turns us' ue' lo' ≤ turns us ue lo)%nat.
Proof.
  intros (Hle & Hue & Hok) Hfull. unfold make_room.
  destruct (Nat.eqb_spec ue INSTRUCTIONBUF_SIZE) as [E|E]; [|split_and!; (done || lia)].
  specialize (Hfull E). destruct Hok as [(Hv & Hb & Hse) Hc].
  destruct (shift_elements p lo ue) as [He _]; [lia|].
  assert (Hok' : parser_ok (shift_buffer lo ue p)).
  { split; [split; [congruence|split; [|done]]|done]. cbn.
    rewrite splice_length; [done|]. rewrite length_take, length_drop. lia. }
  split; [split; [lia|split; [lia|done]]|split; [lia|]].
  unfold turns. rewrite (proj2 (Nat.eqb_neq lo 0)) by done. cbn [Nat.eqb]. lia.
Qed.

Lemma fail_ok e (p : guac_parser) sk : parser_ok p → read_returns_ok (mret (-1, e, p)) sk.
Proof. intros. exists (-1), e, p, sk. split; [done|]. split; [done|]. by right. Qed.

Lemma read_turn_ok fuel t us ue lo p sk :
  loop_ok (us, ue, lo, p) →
  (∀ s sk', loop_ok s → (loop_turns s < turns us ue lo)%nat →
     read_returns_ok (read_loop fuel t s) sk') →
  read_returns_ok (read_turn fuel t (us, ue, lo, p)) sk.
Proof.
  intros Hok IH. unfold read_turn.
  destruct ((ue =? INSTRUCTIONBUF_SIZE)%nat && (lo =? 0)%nat) eqn:Efull.
  { apply fail_ok. apply Hok. }
  assert (Hroom : (ue = INSTRUCTIONBUF_SIZE → lo ≠ 0)%nat)
    by (apply andb_false_iff in Efull; rewrite !Nat.eqb_neq in Efull; lia).
  pose proof (make_room_ok us ue lo p Hok Hroom) as Hmk.
  destruct (make_room us ue lo p) as [[[us1 ue1] lo1] p1].
  destruct Hmk as ((Hle1 & _ & Hok1) & Hlt & Hturns).
  destruct (select_run t sk) as (r & d & Es). unfold read_returns_ok.
  rewrite (bind_run _ _ _ _ _ Es). destruct (r <=? 0); [by apply fail_ok|].
  destruct (read_run (INSTRUCTIONBUF_SIZE - ue1) (set_data d sk)) as (r2 & bs & d2 & Er & Hr);
    [lia|pose proof INSTRUCTIONBUF_SIZE_eq; unfold INT_MAX; lia|].
  rewrite (bind_run _ _ _ _ _ Er). cbn zeta.
  destruct (Z.ltb_spec (i32 r2) 0); [by apply fail_ok|].
  destruct (Z.eqb_spec (i32 r2) 0); [by apply fail_ok|].
  destruct Hr as [?|[Hl Hn]]; [lia|].
  rewrite <-Hl, Nat.eqb_refl, (proj2 (Nat.leb_le _ _)) by lia. cbn [andb].
  apply (IH (us1, ue1 + length bs, lo1, set_buf (splice ue1 bs (__instructionbuf p1)) p1)%nat).
  - split_and!; [lia|lia|lia|]. apply parser_ok_set_buf; [done|].
    rewrite splice_length; [apply Hok1|]. rewrite (proj1 (proj2 (proj1 Hok1))). lia.
  - unfold loop_turns, turns in *. lia.
Qed.

Lemma parser_loop_ok fuel t s sk :
  loop_ok s → (loop_turns s + 2 < fuel)%nat → read_returns_ok (read_loop fuel t s) sk.
Proof.
  revert s sk. induction fuel as [|fuel IH]; intros [[[us ue] lo] p] sk Hok Hf; [lia|].
  pose proof Hok as (Hle & Hue & Hp). cbn [loop_turns] in Hf. unfold read_returns_ok.
  destruct (decide (state p = GUAC_PARSE_COMPLETE)) as [E|Hs1].
  { cbn [read_loop parser_read_loop]. rewrite decide_True by done.
    eexists _, _, _, _. split; [reflexivity|]. split; [|by left].
    apply parser_ok_set_unparsed; [done|lia]. }
  destruct (decide (state p = GUAC_PARSE_ERROR)) as [E|Hs2].
  { cbn [read_loop parser_read_loop]. rewrite decide_False, decide_True by done.
    by apply fail_ok. }
  unfold read_loop. rewrite loop_step by done. destruct Hp as [(Hv & Hb & Hse) Hc].
  pose proof (append_safe p (__instructionbuf p) us (ue - us) Hv Hc) as Happ.
  destruct (guac_parser_append _ _ _ _) as [[r p1] buf1]. cbn zeta.
  destruct Happ as (Hr & Herr & Hlen & _ & (Hl1 & _ & _ & _ & _ & Hst & Hen) & Hc1).
  assert (Hok1 : loop_ok (us, ue, lo, set_buf buf1 p1)).
  { unfold loop_ok, parser_ok, buffer_ok. cbn. rewrite Hst, Hen, Hl1, Hlen. split_and!; (done || lia). }
  destruct (Z.eqb_spec r 0) as [->|Hn]; cbn [andb].
  - destruct (bool_decide _) eqn:Eb.
    + apply read_turn_ok; [done|]. intros s sk' Hs Ht. apply IH; [done|lia].
    + apply bool_decide_eq_false, dec_stable in Eb. destruct fuel as [|fuel]; [lia|].
      cbn [parser_read_loop]. rewrite decide_False, decide_True by (done || by rewrite Eb).
      apply fail_ok, Hok1.
  - apply (IH (us + Z.to_nat r, ue, lo, set_buf buf1 p1)%nat).
    + destruct Hok1 as (? & ? & ?). split_and!; (done || lia).
    + unfold loop_turns, turns in *. lia.
Qed.

(** C5. [guac_parser_read] returns, whatever the peer sends and however the bytes arrive, provided
    the socket's own calls return with no more bytes than they were asked for: with zero and a
    complete instruction, or with -1.  The buffer is never overrun: what is received goes to its
    free part, and the parser it leaves is one that can be read with again. *)

Theorem parser_read_terminates p t sk :
  parser_ok p →
  ∃ r e p' sk', guac_parser_read p t sk = Some ((r, e, p'), sk') ∧ parser_ok p' ∧
    (r = 0 ∧ e = None ∧ state p' = GUAC_PARSE_COMPLETE ∨ r = -1).
Proof.
  intros Hp. unfold guac_parser_read. set (p0 := if decide _ then _ else p).
  assert (Hp0 : parser_ok p0).
  { subst p0. case_decide; [|done]. destruct Hp as [(? & ? & ?) ?].
    split; [done|]. apply Nat.le_0_l. }
  pose proof (proj2 (proj2 (proj1 Hp))) as Hse.
  pose proof (parser_loop_ok (5 * INSTRUCTIONBUF_SIZE + 3) t (__instructionbuf_unparsed_start p,
    __instructionbuf_unparsed_end p0, __instructionbuf_unparsed_start p, p0) sk) as Hloop.
  unfold read_returns_ok, read_loop in Hloop. apply Hloop; clear Hloop.
  - split; [split; [lia|]|split; [|done]]; subst p0; case_decide; cbn; lia.
  - assert (__instructionbuf_unparsed_end p0 = __instructionbuf_unparsed_end p) as ->
      by (subst p0; by case_decide).
    unfold loop_turns, turns. destruct (_ =? 0)%nat; lia.
Qed.
End termination.
