(* ===== verification/Wire.v ===== *)
(** * A concrete operating system

    An instance of the class [Os] to evaluate the development on: [write] and
    [read] move at most as many bytes at a time as the schedules of the wire
    say, and a [write] scheduled with zero fails.  The concrete instances of
    the theorems about sockets are in this file. *)

From S2P Require Import Prelude Error Socket SocketFd ProtocolTypes Protocol ProtocolSpec.
Local Open Scope Z_scope.

Record wire := mk_wire {
  out : list byte;
  failure : bool;
  write_plan : list nat;
  incoming : list byte;
  read_plan : list nat;
}.

(** An exhausted schedule accepts everything. *)

Definition next_count (plan : list nat) (n : nat) : nat * list nat :=
  match plan with
  | [] => (n, [])
  | k :: plan' => (Nat.min k n, plan')
  end.

Definition wire_write (w : wire) (buf : list byte) : Z * wire :=
  let '(k, plan) := next_count (write_plan w) (length buf) in
  if (k =? 0)%nat then (-1, mk_wire (out w) true plan (incoming w) (read_plan w))
  else (Z.of_nat k, mk_wire (out w ++ take k buf) (failure w) plan (incoming w) (read_plan w)).

Definition wire_read (w : wire) (n : nat) : Z * list byte * wire :=
  let '(k, plan) := next_count (read_plan w) n in
  let k := Nat.max 1 k in
  let bytes := take k (incoming w) in
  (Z.of_nat (length bytes), bytes,
   mk_wire (out w) (failure w) (write_plan w) (drop k (incoming w)) plan).

#[export] Instance wire_os : Os wire := {|
  os_write := wire_write;
  os_read := wire_read;
  os_poll w _ := (1, w);
  os_now _ := 0;
  os_zero_writes := 0;
|}.

#[export] Program Instance wire_lawful : LawfulOs wire := {|
  delivered := out;
  broken := failure;
|}.
Next Obligation.
  intros w buf Hb Hl. cbn. unfold wire_write.
  assert (Hn : (0 < length buf)%nat) by (destruct buf; [done|cbn; lia]).
  assert (Hk : ((next_count (write_plan w) (length buf)).1 ≤ length buf)%nat)
    by (unfold next_count; destruct (write_plan w); cbn; lia).
  destruct (next_count _ _) as [k plan]. cbn in Hk.
  destruct (Nat.eqb_spec k 0); [by left|right]. cbn. rewrite Nat2Z.id.
  split; [lia|]. done.
Qed.

Lemma wire_read_bytes w n :
  (0 < n)%nat →
  let '(r, bytes, w') := wire_read w n in
  r = Z.of_nat (length bytes) ∧ (length bytes ≤ n)%nat ∧ incoming w = bytes ++ incoming w' ∧
  (incoming w ≠ [] → 0 < length bytes)%nat.
Proof.
  intros Hn. unfold wire_read.
  assert (Hk : ((next_count (read_plan w) n).1 ≤ n)%nat)
    by (unfold next_count; destruct (read_plan w); cbn; lia).
  destruct (next_count _ _) as [k plan]. cbn [fst incoming] in *. rewrite length_take.
  split; [done|]. split; [lia|]. split; [by rewrite take_drop|].
  intros. destruct (incoming w); [done|cbn [length]; lia].
Qed.

#[export] Program Instance wire_reader : LawfulOsReader wire.
Next Obligation.
  intros w n Hn. cbn. pose proof (wire_read_bytes w n Hn) as Hr.
  destruct (wire_read w n) as [[r bytes] w']. right. destruct Hr as (-> & ? & _). lia.
Qed.

#[export] Program Instance wire_stream : OsStream wire := {| arriving := incoming |}.
Next Obligation. done. Qed.
Next Obligation.
  intros w n Hn Ha. cbn. pose proof (wire_read_bytes w n Hn) as Hr.
  destruct (wire_read w n) as [[r bytes] w']. destruct Hr as (-> & ? & ? & Hl).
  split; [done|]. split; [|done]. split; [by apply Hl|done].
Qed.

(** A socket over a wire, with nothing buffered. *)

Definition wire_socket (w : wire) : guac_socket (guac_socket_fd_data wire) :=
  guac_socket_open w GUAC_STATUS_SUCCESS (replicate GUAC_SOCKET_OUTPUT_BUFFER_SIZE x00)
    (replicate GUAC_SOCKET_BASE64_READY_BUFFER_SIZE x00)
    (replicate GUAC_SOCKET_BASE64_ENCODED_BUFFER_SIZE x00).

Definition quiet_wire : wire := mk_wire [] false [3%nat; 1%nat] [] [].

Lemma wire_socket_ready w :
  pending [] (wire_socket w) ∧ inv (data (wire_socket w)) ∧
  locked (data (wire_socket w)) = false.
Proof. repeat split; vm_compute; lia. Qed.

(** ** Instances of the theorems about sockets *)

Definition sample_size : instruction := I_size (mk_guac_layer 3) 640 480.

Lemma sample_size_wf : wf_instruction sample_size.
Proof. repeat constructor; vm_compute; congruence. Qed.

Lemma send_instruction_emits_witness :
  sends (D := guac_socket_fd_data wire) true (send sample_size)
    (lit "4.size,1.3,3.640,3.480;").
Proof.
  exact (send_instruction_emits (D := guac_socket_fd_data wire) sample_size sample_size_wf).
Defined.

Lemma send_blobs_chunks_witness :
  is_i64 (stream_index (mk_guac_stream 1)) ∧
  ∃ chunks, concat chunks = lit "some data" ∧
    Forall (λ c, (0 < length c ≤ GUAC_PROTOCOL_BLOB_MAX_LENGTH)%nat) chunks ∧
    sends false
      (guac_protocol_send_blobs (D := guac_socket_fd_data wire) (mk_guac_stream 1) (lit "some data"))
      (blobs_bytes (mk_guac_stream 1) chunks).
Proof.
  assert (Hs : is_i64 (stream_index (mk_guac_stream 1))) by (unfold is_i64; cbn; lia).
  split; [exact Hs|].
  exact (send_blobs_chunks (D := guac_socket_fd_data wire) (mk_guac_stream 1) (lit "some data") Hs).
Defined.

Lemma wire_fd_inv w : fd_inv (data (wire_socket w)).
Proof. repeat split; vm_compute; lia. Qed.

Lemma fd_write_handler_total_witness :
  ∃ r d', guac_socket_fd_write_handler (data (wire_socket quiet_wire)) (lit "abc") = Some (r, d') ∧
    fd_inv d' ∧
    ((r = -1 ∧ broken (world d') = true) ∨
     (r = 3 ∧ broken (world d') = false ∧
      delivered (world d') ++ take (written d') (out_buf d') = lit "abc")).
Proof.
  exact (fd_write_handler_total (data (wire_socket quiet_wire)) (lit "abc")
    (wire_fd_inv quiet_wire) ltac:(vm_compute; discriminate)).
Defined.

Lemma fd_flush_delivers_witness :
  ∃ r d', guac_socket_fd_flush_handler (data (wire_socket quiet_wire)) = Some (r, d') ∧
    fd_inv d' ∧
    ((r ≠ 0 ∧ broken (world d') = true) ∨
     (r = 0 ∧ written d' = 0%nat ∧ delivered (world d') = [] ++ [])).
Proof.
  exact (fd_flush_delivers (data (wire_socket quiet_wire)) (wire_fd_inv quiet_wire)).
Defined.

(** The bytes themselves: the wire takes three, then one, then the rest. *)

Example wire_sends_size :
  ((send sample_size;; guac_socket_flush) (wire_socket quiet_wire)
    ≫= λ '(r, sk), Some (r, out (world (data sk))))
  = Some (0, lit "4.size,1.3,3.640,3.480;").
Proof. vm_compute. reflexivity. Qed.

(** ** A blob whose data is lost

    Ten bytes of the output buffer are free when the base64 text of a blob is
    written, and the [write] that is to make room fails. *)

Definition nearly_full : guac_socket (guac_socket_fd_data wire) :=
  set_data (mk_fd_data (mk_wire [] false [0%nat] [] []) GUAC_STATUS_SUCCESS
    (Z.to_nat 8168) (replicate GUAC_SOCKET_OUTPUT_BUFFER_SIZE x2e) false false)
    (wire_socket quiet_wire).

(** [guac_protocol_send_blob] can return zero although its data was not sent:
    [guac_socket_flush_base64] looks for a negative result of [guac_socket_write], which reports
    failure as one. *)

Theorem send_blob_loses_data :
  pending [] nearly_full ∧ inv (data nearly_full) ∧ locked (data nearly_full) = false ∧
  failed (data nearly_full) = false ∧
  ∃ sk', guac_protocol_send_blob (mk_guac_stream 1) (lit "twelve bytes") nearly_full
         = Some (0, sk') ∧
    failed (data sk') = true ∧
    drop (Z.to_nat 8168) (sent (data sk')) = lit "4.blob,1.1,16.dHdlbHZlIG;".
Proof.
  split; [repeat split; vm_compute; lia|]. split; [repeat split; vm_compute; lia|].
  split; [done|]. split; [done|].
  eexists. split; [vm_compute; reflexivity|]. split; vm_compute; reflexivity.
Qed.
