(* ===== verification/EndToEnd.v ===== *)
(** * From sender to receiver

    What a sender of protocol.c writes to one socket, a parser of parser.c
    reads back from another: the refinements of ProtocolSpec.v and
    ParserSpec.v composed.  Then the parser evaluated on inputs at the edge
    of what it accepts. *)

From S2P Require Import Prelude Error CFormat Unicode Socket SocketFd ProtocolTypes Protocol Base64 ProtocolSpec Parser ParserSpec Wire.
Local Open Scope Z_scope.

(** ** Instructions a parser can read *)

Definition readable_arg (a : arg) : Prop :=
  match a with
  | AStr s => wf_element s
  | ABlob data => (length data ≤ 6144)%nat
  | AInt _ | ADouble _ => True
  end.

Definition readable (i : instruction) : Prop :=
  Forall readable_arg (arguments i) ∧
  (length (elements i) < GUAC_INSTRUCTION_MAX_ELEMENTS)%nat ∧
  (length (encode (elements i)) ≤ INSTRUCTIONBUF_SIZE)%nat.

Lemma wf_print s :
  Forall (λ c, is_print c = true) s → Z.of_nat (length s) ≤ GUAC_INSTRUCTION_MAX_LENGTH →
  wf_element s.
Proof.
  intros Hs Hl. exists (length s). split; [by apply complete_ascii|]. split; [done|].
  by apply is_print_no_nul.
Qed.

Lemma opcode_wf i : wf_element (ProtocolSpec.opcode i).
Proof. destruct i; (apply wf_print; [by repeat constructor|done]). Qed.

Lemma arg_wf a : arg_ok a → readable_arg a → wf_element (arg_bytes a).
Proof.
  unfold GUAC_INSTRUCTION_MAX_LENGTH.
  destruct a as [z|s|d|data]; cbn [arg_ok readable_arg arg_bytes]; intros Ha Hr.
  - apply wf_print; [apply fmt_d_print|]. pose proof (fmt_d_length z Ha).
    unfold GUAC_INSTRUCTION_MAX_LENGTH. lia.
  - done.
  - apply wf_print; [apply snprintf_print, fmt_g16_print|].
    pose proof (snprintf_length 128 (fmt_g16 d)). unfold GUAC_INSTRUCTION_MAX_LENGTH. lia.
  - apply wf_print; [apply encode_ready_print|]. rewrite encode_ready_length.
    unfold GUAC_INSTRUCTION_MAX_LENGTH.
    apply Nat2Z.inj_le in Hr. change (Z.of_nat 6144) with 6144 in Hr. dlia.
Qed.

Lemma elements_wf i : wf_instruction i → readable i → Forall wf_element (elements i).
Proof.
  intros Hw [Hr _]. constructor; [apply opcode_wf|]. unfold wf_instruction in Hw.
  induction Hw as [|a l Ha Hl IH]; [constructor|]. apply Forall_cons_iff in Hr as [Hr1 Hr2].
  constructor; [by apply arg_wf|by apply IH].
Qed.

(** C1. An instruction sent is the instruction received.  If the peer's parser has to read what
    a send function wrote without failing, before anything else, then [guac_parser_read] returns
    zero with the opcode and the arguments of the instruction, and what follows is left to be
    read. *)

Theorem instruction_end_to_end {D1 D2} `{LawfulSocket D1} `{Stream D2} i (sk : guac_socket D1) :
  wf_instruction i → readable i →
  pending [] sk → inv (data sk) → locked (data sk) = false →
  ∃ r sk', send i sk = Some (r, sk') ∧
    (failed (data sk') = false →
     r = 0 ∧ ∃ bytes, sent (data sk') = sent (data sk) ++ bytes ∧
     ∀ p t (rk : guac_socket D2) rest,
       parser_ready p → unparsed p ++ remaining (data rk) = bytes ++ rest →
       ∃ p' rk', guac_parser_read p t rk = Some ((0, None, p'), rk') ∧ parser_ready p' ∧
         (string_at p' <$> Parser.opcode p') = Some (ProtocolSpec.opcode i) ∧
         argc p' = Z.of_nat (length (arguments i)) ∧
         (string_at p' <$> drop 1 (take (S (length (arguments i))) (__elementv p')))
         = arg_bytes <$> arguments i ∧
         unparsed p' ++ remaining (data rk') = rest).
Proof.
  intros Hw Hr Hp Hi Hl. pose proof (elements_wf i Hw Hr) as Hwf.
  destruct Hr as (_ & Hlen & Htot).
  destruct (send_emits i Hw sk Hp Hi Hl) as (r & sk' & E & _ & (_ & _ & P & _)).
  exists r, sk'. split; [done|]. intros (-> & _ & Hs)%P. split; [done|].
  exists (encode (elements i)). split; [done|]. intros p t rk rest Hpr Heq.
  destruct (parser_reads p t rk (elements i) rest) as
    (p' & rk' & Er & Hpr' & _ & Hop & Hargc & Hall & Hrest); try done.
  exists p', rk'. split; [done|]. split; [done|]. split; [done|].
  assert (Hn : length (elements i) = S (length (arguments i)))
    by (unfold elements; cbn; by rewrite length_fmap).
  rewrite Hn in *. split; [lia|]. split; [|done].
  rewrite fmap_drop, Hall. done.
Qed.

(** ** Concrete parsers and sockets *)

Definition fresh_parser : guac_parser :=
  guac_parser_alloc (replicate GUAC_INSTRUCTION_MAX_ELEMENTS 0%nat)
    (replicate INSTRUCTIONBUF_SIZE x00).

(** A socket over a wire on which [bytes] arrive, in pieces of the sizes [plan]. *)

Definition arriving_on (bytes : list byte) (plan : list nat)
    : guac_socket (guac_socket_fd_data wire) :=
  wire_socket (mk_wire [] false [] bytes plan).

(** The opcode and all elements a parser has read. *)

Definition read_elements (p : guac_parser) : list (list byte) :=
  string_at p <$> take (__elementc p) (__elementv p).

Definition outcome_of {D} (o : option (read_result * guac_socket D))
    : option (Z * option guac_status * list (list byte)) :=
  match o with
  | Some ((r, e, p), _) => Some (r, e, read_elements p)
  | None => None
  end.

Example reads_size :
  outcome_of (guac_parser_read fresh_parser 1000000
    (arriving_on (lit "4.size,1.3,3.640,3.480;4.sync") [1%nat; 7%nat; 2%nat]))
  = Some (0, None, [lit "size"; lit "3"; lit "640"; lit "480"]).
Proof. vm_compute. reflexivity. Qed.

Lemma fresh_ready : parser_ready fresh_parser.
Proof.
  split; [|by right]. split; [apply length_replicate|]. split; [apply length_replicate|].
  split; [apply Nat.le_refl|apply Nat.le_0_l].
Qed.

Lemma sample_elements_wf : Forall wf_element [lit "size"; lit "3"].
Proof. repeat constructor; (apply wf_print; [by repeat constructor|vm_compute; discriminate]). Qed.

(** ** Instances of the theorems about the parser *)

Definition sample_read_from : guac_socket (guac_socket_fd_data wire) :=
  arriving_on (lit "4.size,1.3;4.sync,") [1%nat; 7%nat; 2%nat].

Lemma unparsed_fresh (bytes : list byte) : unparsed fresh_parser ++ bytes = bytes.
Proof. reflexivity. Qed.

Lemma parser_reads_encoded_witness :
  ∃ p' sk', guac_parser_read fresh_parser 0 sample_read_from = Some ((0, None, p'), sk') ∧
    parser_ready p' ∧ Parser.state p' = GUAC_PARSE_COMPLETE ∧
    (string_at p' <$> Parser.opcode p') = head [lit "size"; lit "3"] ∧
    argc p' = 1 ∧
    (string_at p' <$> take 2 (__elementv p')) = [lit "size"; lit "3"] ∧
    unparsed p' ++ remaining (data sk') = lit "4.sync,".
Proof.
  apply (parser_reads_encoded fresh_parser 0 sample_read_from [lit "size"; lit "3"] (lit "4.sync,"));
    [exact fresh_ready|discriminate|exact sample_elements_wf| | |reflexivity].
  - apply Nat.ltb_lt. reflexivity.
  - apply Nat2Z.inj_le. rewrite INSTRUCTIONBUF_SIZE_eq. vm_compute. discriminate.
Defined.

Lemma append_bounds_witness :
  let '(r, p', mem') := guac_parser_append fresh_parser (lit "1.a,2.b;x;") 0 9 in
  0 ≤ r ≤ 9 ∧ (Parser.state p' = GUAC_PARSE_ERROR → r = 0) ∧
  length mem' = 10%nat ∧
  (∀ i, i < 0 ∨ 9 ≤ i → mem' !! i = lit "1.a,2.b;x;" !! i)%nat ∧
  elements_in fresh_parser p' 0 9 ∧ (__elementc p' ≤ GUAC_INSTRUCTION_MAX_ELEMENTS)%nat.
Proof.
  exact (append_bounds fresh_parser (lit "1.a,2.b;x;") 0 9 (proj1 (proj1 fresh_ready))
    (Nat.le_0_l _)).
Defined.

Lemma fresh_ok : parser_ok fresh_parser.
Proof. split; [apply fresh_ready|apply Nat.le_0_l]. Qed.

Lemma parser_read_terminates_witness :
  ∃ r e p' sk', guac_parser_read fresh_parser 0 sample_read_from = Some ((r, e, p'), sk') ∧
    parser_ok p' ∧ (r = 0 ∧ e = None ∧ Parser.state p' = GUAC_PARSE_COMPLETE ∨ r = -1).
Proof. exact (parser_read_terminates fresh_parser 0 sample_read_from fresh_ok). Defined.

Definition failed_parser : guac_parser :=
  (guac_parser_append fresh_parser (lit "4x") 0 2).1.2.

Lemma parser_error_sticky_witness :
  guac_parser_read failed_parser 0 sample_read_from
  = Some ((-1, Some GUAC_STATUS_PROTOCOL_ERROR, failed_parser), sample_read_from).
Proof.
  apply (parser_error_sticky failed_parser sample_read_from [] 0 0 0). reflexivity.
Defined.

Lemma sample_readable : readable sample_size.
Proof.
  split; [by repeat constructor|]. split; [by apply Nat.ltb_lt|].
  apply Nat2Z.inj_le. rewrite INSTRUCTIONBUF_SIZE_eq. vm_compute. discriminate.
Qed.

Lemma instruction_end_to_end_witness :
  ∃ r sk', send sample_size (wire_socket quiet_wire) = Some (r, sk') ∧
    (failed (data sk') = false →
     r = 0 ∧ ∃ bytes, sent (data sk') = [] ++ bytes ∧
     ∀ p t (rk : guac_socket (guac_socket_fd_data wire)) rest,
       parser_ready p → unparsed p ++ remaining (data rk) = bytes ++ rest →
       ∃ p' rk', guac_parser_read p t rk = Some ((0, None, p'), rk') ∧ parser_ready p' ∧
         (string_at p' <$> Parser.opcode p') = Some (lit "size") ∧
         argc p' = 3 ∧
         (string_at p' <$> drop 1 (take 4 (__elementv p'))) = [lit "3"; lit "640"; lit "480"] ∧
         unparsed p' ++ remaining (data rk') = rest).
Proof.
  destruct (wire_socket_ready quiet_wire) as (Hp & Hi & Hl).
  exact (instruction_end_to_end (D1 := guac_socket_fd_data wire)
    (D2 := guac_socket_fd_data wire) sample_size (wire_socket quiet_wire)
    sample_size_wf sample_readable Hp Hi Hl).
Defined.

(** ** At the edges *)

(** Whether an instruction of 128 elements is accepted depends on how its bytes arrive: it is
    read when they arrive at once, and is a protocol error when they arrive in two pieces the
    second of which begins within the last element. *)

Theorem element_limit_depends_on_chunks :
  let bytes := encode (replicate GUAC_INSTRUCTION_MAX_ELEMENTS (lit "a")) in
  outcome_of (guac_parser_read fresh_parser 0 (arriving_on bytes []))
  = Some (0, None, replicate GUAC_INSTRUCTION_MAX_ELEMENTS (lit "a")) ∧
  exists es, outcome_of (guac_parser_read fresh_parser 0 (arriving_on bytes [510%nat]))
  = Some (-1, Some GUAC_STATUS_PROTOCOL_ERROR, es).
Proof. split; [vm_compute; reflexivity|]. eexists. vm_compute. reflexivity. Qed.

Lemma negative_takes_nothing p mem off len :
  Parser.state p = GUAC_PARSE_CONTENT → __element_length p < 0 →
  (__elementc p < GUAC_INSTRUCTION_MAX_ELEMENTS)%nat →
  guac_parser_append p mem off len = (0, p, mem).
Proof.
  intros Hs Hl Hc. unfold guac_parser_append.
  rewrite (proj2 (Nat.eqb_neq _ _)), Hs by lia. cbn [andb]. simpl_decide.
  rewrite Hs. simpl_decide. unfold append_content.
  assert (append_content_loop (off + len - off) mem off (off + len) (__element_length p)
    = (GUAC_PARSE_CONTENT, off, __element_length p, mem)) as ->.
  { destruct (off + len - off)%nat; [done|]. cbn [append_content_loop].
    by rewrite (proj2 (Z.leb_gt 0 _)), andb_false_r by lia. }
  rewrite Nat.sub_diag. destruct p. cbn in Hs. by subst.
Qed.

(** The length of an element is accumulated in an [int] that is only checked against
    [GUAC_INSTRUCTION_MAX_LENGTH] from above, whatever the number of digits: with two's complement
    wrap-around a length of 4294967295 becomes -1 and is accepted, and from then on the parser takes
    nothing, whatever it is given. *)

Theorem negative_length_stalls :
  let p' := (guac_parser_append fresh_parser (lit "4294967295.") 0 11).1.2 in
  Parser.state p' = GUAC_PARSE_CONTENT ∧ __element_length p' = -1 ∧
  ∀ mem off len, guac_parser_append p' mem off len = (0, p', mem).
Proof.
  intros p'. assert (Hs : Parser.state p' = GUAC_PARSE_CONTENT) by (vm_compute; reflexivity).
  assert (Hl : __element_length p' = -1) by (vm_compute; reflexivity).
  assert (Hc : __elementc p' = 1%nat) by (vm_compute; reflexivity).
  split; [exact Hs|]. split; [exact Hl|]. intros mem off len.
  apply negative_takes_nothing; [exact Hs|rewrite Hl; done|].
  rewrite Hc. by apply Nat.ltb_lt.
Qed.

(** A socket that follows a script: bytes arrive, or a timeout elapses. *)

Definition script : Type := list (option (list byte)).

Definition script_ops : SocketOps script := {|
  guac_timestamp_current d := (0, d);
  read_handler := Some (λ d _,
    match d with
    | Some bytes :: d' => Some (Z.of_nat (length bytes), bytes, d')
    | _ => Some (0, [], d)
    end);
  write_handler := None;
  select_handler := Some (λ d _,
    match d with
    | None :: d' => Some (0, d')
    | _ => Some (1, d)
    end);
  flush_handler := None;
  lock_handler := None;
  unlock_handler := None;
  zero_write_limit := 0;
|}.

Definition script_socket (d : script) : guac_socket script :=
  @guac_socket_alloc script script_ops d [] [].

Definition script_read (p : guac_parser) (d : script)
    : option (read_result * guac_socket script) :=
  @guac_parser_read script script_ops p 0 (script_socket d).

(** After a timeout within an instruction the instruction cannot be read on: [guac_parser_read]
    has advanced the state of the parser but not saved the place it has reached, so that the next
    call stores what arrives over what it has read, and returns zero with another opcode. *)

Theorem timeout_loses_progress :
  outcome_of (script_read fresh_parser [Some (lit "4.na"); Some (lit "me;")])
  = Some (0, None, [lit "name"]) ∧
  match script_read fresh_parser [Some (lit "4.na"); None] with
  | Some ((r, e, p), _) =>
      r = -1 ∧ e = None ∧
      outcome_of (script_read p [Some (lit "me;")]) = Some (0, None, [lit ""])
  | None => False
  end.
Proof. split; vm_compute; [reflexivity|]. split; [reflexivity|]. by split. Qed.

(** A log message is cut at 4095 bytes, possibly within a character: its length then counts a
    character whose bytes are missing, the parser takes the terminator for one of them, and the
    connection ends in a protocol error at the next instruction. *)

Theorem log_cut_within_character :
  let text := replicate (Z.to_nat 4094) x61 ++ [xc3; xa9] in
  let bytes := encode (elements (I_log text)) in
  ∃ es, outcome_of (guac_parser_read fresh_parser 0 (arriving_on (bytes ++ lit "3.nop;") []))
  = Some (-1, Some GUAC_STATUS_PROTOCOL_ERROR, es).
Proof. eexists. vm_compute. reflexivity. Qed.
