(* ===== verification/CommandAcl.v ===== *)
(** * The command access control list of the SSH server

    [protocols/ssh/command-acl.c] and [command-acl.h]: the configuration file
    is read line by line into a table of rules ([guac_ssh_acl_load_config]),
    the rule of a connection is selected ([guac_ssh_acl_get_rule]), and each
    command typed is checked against it ([guac_ssh_acl_check_command]).

    The buffers that the code edits in place while it points into them (the
    line read, the copies of the lists that [strtok] takes apart) are memories
    with offsets; the specifications below are about the strings they hold.
    A pointer to the rule being filled in is a reference into the
    configuration.  Allocation failures ([strdup], [guac_mem_zalloc] returning
    [NULL]) are not modelled, except that memory given back to the allocator
    can no longer be read, and releasing the configuration is not modelled.  The
    files and the SSH session are outside. *)

From S2P Require Import Prelude CString.

(** ** Strings with white space around them *)

Fixpoint drop_spaces (s : list byte) : list byte :=
  match s with
  | c :: s' => if isspace c then drop_spaces s' else s
  | [] => []
  end.

(** The string without the white space at its ends. *)

Definition trim (s : list byte) : list byte := reverse (drop_spaces (reverse (drop_spaces s))).

(** The two loops of [trim_whitespace]: up to the first byte that is no space, and down to the last. *)

Fixpoint skip_spaces (fuel : nat) (mem : list byte) (p : nat) : nat :=
  match fuel with
  | O => p
  | S fuel' => if isspace (mem_at mem p) then skip_spaces fuel' mem (S p) else p
  end.

Fixpoint trim_end (mem : list byte) (str e : nat) : nat :=
  match e with
  | O => O
  | S e' => if (str <? e)%nat && isspace (mem_at mem e) then trim_end mem str e' else e
  end.

(** Edits the string in place and returns the memory and the new start. *)

Definition trim_whitespace (mem : list byte) (str : nat) : list byte * nat :=
  if decide (mem_at mem str = x00) then (mem, str)
  else
    let str := skip_spaces (length mem) mem str in
    if decide (mem_at mem str = x00) then (mem, str)
    else
      let e := trim_end mem str (str + length (str_at mem str) - 1)%nat in
      (<[S e := x00]> mem, str).

Definition starts_with (str prefix : list byte) : bool :=
  strncmp_eq str prefix (length prefix).

Definition is_alias_or_function_definition (command : list byte) : bool :=
  match command with
  | [] => false
  | _ =>
      let command := drop_spaces command in
      starts_with command (lit "alias ")
      || strstr_b command (lit "function ")
      || strstr_b command (lit "() {")
      || starts_with command (lit "source ")
      || (starts_with command (lit ". ") && negb (bool_decide (mem_at command 2 = x2e)))
  end.

Definition command_matches_pattern (command pattern : list byte) : bool :=
  strstr_b command pattern.

(** ** Rules and the configuration *)

Record guac_ssh_acl_rule := AclRule {
  blacklist : option (list byte);
  whitelist : option (list byte);
  blocked_message : list byte
}.

Definition GUAC_SSH_ACL_MAX_RULES : nat := 128.

Definition GUAC_SSH_ACL_DEFAULT_MESSAGE : list byte :=
  [x0d; x0a] ++ lit "*** Command blocked by security policy ***" ++ [x0d; x0a].

Definition create_rule : guac_ssh_acl_rule := AclRule None None GUAC_SSH_ACL_DEFAULT_MESSAGE.

(** The rules in use of the two arrays, each with its key or its username; their counts are the
    lengths of the lists. *)

Record guac_ssh_acl_config := AclConfig {
  global : option guac_ssh_acl_rule;
  connection_rules : list (list byte * guac_ssh_acl_rule);
  user_rules : list (list byte * guac_ssh_acl_rule)
}.

(** A [guac_ssh_acl_rule*] into the configuration. *)

Inductive rule_ref := RGlobal | RConnection (i : nat) | RUser (i : nat).

#[export] Instance rule_ref_eq_dec : EqDecision rule_ref.
Proof. solve_decision. Defined.

Definition rule_at (c : guac_ssh_acl_config) (r : rule_ref) : option guac_ssh_acl_rule :=
  match r with
  | RGlobal => global c
  | RConnection i => snd <$> connection_rules c !! i
  | RUser i => snd <$> user_rules c !! i
  end.

(** Writing through the pointer. *)

Definition update_rule (f : guac_ssh_acl_rule → guac_ssh_acl_rule) (c : guac_ssh_acl_config)
    (r : rule_ref) : guac_ssh_acl_config :=
  match r with
  | RGlobal => AclConfig (f <$> global c) (connection_rules c) (user_rules c)
  | RConnection i => AclConfig (global c) (alter (prod_map id f) i (connection_rules c)) (user_rules c)
  | RUser i => AclConfig (global c) (connection_rules c) (alter (prod_map id f) i (user_rules c))
  end.

Definition set_blacklist (v : list byte) (r : guac_ssh_acl_rule) : guac_ssh_acl_rule :=
  AclRule (Some v) (whitelist r) (blocked_message r).
Definition set_whitelist (v : list byte) (r : guac_ssh_acl_rule) : guac_ssh_acl_rule :=
  AclRule (blacklist r) (Some v) (blocked_message r).
Definition set_blocked_message (v : list byte) (r : guac_ssh_acl_rule) : guac_ssh_acl_rule :=
  AclRule (blacklist r) (whitelist r) v.

(** ** Loading *)

(** What the loop keeps from line to line: the configuration and [current_rule]. *)

Definition load_state : Type := guac_ssh_acl_config * option rule_ref.

Definition open_section (st : load_state) (current_section : list byte) : load_state :=
  let '(c, current_rule) := st in
  if decide (current_section = lit "global") then
    (match global c with
     | None => AclConfig (Some create_rule) (connection_rules c) (user_rules c)
     | Some _ => c
     end, Some RGlobal)
  else if starts_with current_section (lit "connection:") then
    if (length (connection_rules c) <? GUAC_SSH_ACL_MAX_RULES)%nat then
      (AclConfig (global c) (connection_rules c ++ [(drop 11 current_section, create_rule)])
                 (user_rules c),
       Some (RConnection (length (connection_rules c))))
    else st
  else if starts_with current_section (lit "user:") then
    if (length (user_rules c) <? GUAC_SSH_ACL_MAX_RULES)%nat then
      (AclConfig (global c) (connection_rules c)
                 (user_rules c ++ [(drop 5 current_section, create_rule)]),
       Some (RUser (length (user_rules c))))
    else st
  else st.

Definition assign_key (st : load_state) (current_rule : rule_ref) (key value : list byte)
    : load_state :=
  let '(c, cur) := st in
  match value with
  | [] => st
  | _ =>
      if decide (key = lit "blacklist") then (update_rule (set_blacklist value) c current_rule, cur)
      else if decide (key = lit "whitelist") then
        (update_rule (set_whitelist value) c current_rule, cur)
      else if decide (key = lit "blocked_message") then
        (update_rule (set_blocked_message value) c current_rule, cur)
      else st
  end.

(** The part of the loop's body after the section headers. *)

Definition parse_key_value (st : load_state) (line : list byte) (trimmed : nat)
    : load_state * list byte :=
  match snd st with
  | None => (st, line)
  | Some current_rule =>
      match strchr (str_at line trimmed) x3d with
      | None => (st, line)
      | Some i =>
          let equals := (trimmed + i)%nat in
          let line := <[equals := x00]> line in
          let '(line, key) := trim_whitespace line trimmed in
          let '(line, value) := trim_whitespace line (S equals) in
          (assign_key st current_rule (str_at line key) (str_at line value), line)
      end
  end.

(** The loop's body, on the line buffer that [fgets] has filled. *)

Definition load_line (st : load_state) (line : list byte) : load_state * list byte :=
  let '(line, trimmed) := trim_whitespace line 0 in
  let c := mem_at line trimmed in
  if decide (c = x00 ∨ c = x23 ∨ c = x3b) then (st, line)
  else if decide (c = x5b) then
    match strchr (str_at line trimmed) x5d with
    | Some i =>
        let line := <[(trimmed + i)%nat := x00]> line in
        (open_section st (strncpy_term (str_at line (S trimmed)) 256), line)
    | None => parse_key_value st line trimmed
    end
  else parse_key_value st line trimmed.

(** Each round of the loop takes at least a byte of the file. *)

Fixpoint load_loop (fuel : nat) (st : load_state) (line file : list byte) : load_state :=
  match fuel with
  | O => st
  | S fuel' =>
      match fgets line 4096 file with
      | None => st
      | Some (line, file) =>
          let '(st, line) := load_line st line in
          load_loop fuel' st line file
      end
  end.

Definition empty_config : guac_ssh_acl_config := AclConfig None [] [].

(** The contents of the file, or [None] when it cannot be opened. [line] is what the stack
    holds where the buffer is. *)

Definition guac_ssh_acl_load_config (line : list byte) (file : option (list byte))
    : option guac_ssh_acl_config :=
  match file with
  | None => None
  | Some file => Some (fst (load_loop (S (length file)) (empty_config, None) line file))
  end.

(** ** The rule of a connection *)

(** The first index of the list that satisfies the test: the [for] loops that return from inside. *)

Fixpoint find_index {A} (f : A → bool) (l : list A) : option nat :=
  match l with
  | [] => None
  | x :: l' => if f x then Some O else S <$> find_index f l'
  end.

Definition connection_key (hostname ssh_username : list byte) : list byte :=
  take 511 (hostname ++ lit ":" ++ ssh_username).

Definition find_user (c : guac_ssh_acl_config) (username : list byte) : option rule_ref :=
  RUser <$> find_index (λ r, bool_decide (fst r = username)) (user_rules c).

Definition find_connection (c : guac_ssh_acl_config) (key : list byte) : option rule_ref :=
  RConnection <$> find_index (λ r, bool_decide (fst r = key)) (connection_rules c).

Definition find_host (c : guac_ssh_acl_config) (hostname : list byte) : option rule_ref :=
  RConnection <$> find_index
    (λ r, bool_decide (strchr (fst r) x3a = None) && bool_decide (fst r = hostname))
    (connection_rules c).

Definition guac_ssh_acl_get_rule (config : option guac_ssh_acl_config)
    (guacamole_username hostname ssh_username : option (list byte)) : option rule_ref :=
  match config with
  | None => None
  | Some c =>
      match guacamole_username ≫= find_user c with
      | Some r => Some r
      | None =>
          let by_connection :=
            match hostname with
            | None => None
            | Some host =>
                match ssh_username ≫= λ user, find_connection c (connection_key host user) with
                | Some r => Some r
                | None => find_host c host
                end
            end in
          match by_connection with
          | Some r => Some r
          | None => (λ _, RGlobal) <$> global c
          end
      end
  end.

(** ** Checking a command *)

(** The messages logged. A string of the heap that has been freed cannot be read: [None]. *)

Inductive acl_log :=
  | LogDefinition (command : list byte)
  | LogBlacklist (command : list byte) (pattern : option (list byte))
  | LogWhitelist (command : list byte).

Definition comma : byte := x2c.

(** The loops over the tokens of a list: memory and offset of the first pattern, trimmed, that is
    not empty and that the command matches. *)

Fixpoint match_tokens (fuel : nat) (cmd mem : list byte) (save : nat)
    : option (list byte * nat) :=
  match fuel with
  | O => None
  | S fuel' =>
      match strtok mem save comma with
      | (_, _, None) => None
      | (mem, save, Some token) =>
          let '(mem, pattern) := trim_whitespace mem token in
          if negb (bool_decide (mem_at mem pattern = x00))
             && command_matches_pattern cmd (str_at mem pattern)
          then Some (mem, pattern)
          else match_tokens fuel' cmd mem save
      end
  end.

(** [strdup] and the loop; every token but the last leaves fewer bytes to read. *)

Definition match_list (cmd patterns : list byte) : option (list byte * nat) :=
  match_tokens (S (length patterns)) cmd (patterns ++ [x00]) 0.

(** A block of the heap, until it is freed. *)

Definition heap_block : Type := option (list byte).
Definition guac_mem_free (b : heap_block) : heap_block := None.
Definition heap_str (b : heap_block) (p : nat) : option (list byte) := flip str_at p <$> b.

(** A list that is [NULL] or empty is not consulted. *)

Definition list_given (l : option (list byte)) : option (list byte) :=
  match l with
  | Some [] => None
  | l => l
  end.

Definition check_whitelist (rule : guac_ssh_acl_rule) (cmd : list byte) (client : bool)
    : bool * list acl_log :=
  match list_given (whitelist rule) with
  | None => (true, [])
  | Some l =>
      match match_list cmd l with
      | Some _ => (true, [])
      | None => (false, if client then [LogWhitelist cmd] else [])
      end
  end.

(** The copy of the blacklist is freed before the pattern found in it is logged. *)

Definition check_lists (rule : guac_ssh_acl_rule) (cmd : list byte) (client : bool)
    : bool * list acl_log :=
  match list_given (blacklist rule) with
  | None => check_whitelist rule cmd client
  | Some l =>
      match match_list cmd l with
      | Some (mem, pattern) =>
          let blacklist_copy := guac_mem_free (Some mem) in
          (false, if client then [LogBlacklist cmd (heap_str blacklist_copy pattern)] else [])
      | None => check_whitelist rule cmd client
      end
  end.

(** [sizeof (cmd_copy)] *)

Definition COMMAND_COPY_SIZE : nat := Z.to_nat 8192.
Lemma COMMAND_COPY_SIZE_value : Z.of_nat COMMAND_COPY_SIZE = 8192%Z.
Proof. apply Z2Nat.id. lia. Qed.

#[global] Opaque COMMAND_COPY_SIZE.

(** [client] tells whether there is a client to log with. *)

Definition guac_ssh_acl_check_command (rule : option guac_ssh_acl_rule)
    (command : option (list byte)) (client : bool) : bool * list acl_log :=
  match rule, command with
  | Some rule, Some command =>
      let '(cmd_copy, p) := trim_whitespace (strncpy_term command COMMAND_COPY_SIZE ++ [x00]) 0 in
      let cmd := str_at cmd_copy p in
      match cmd with
      | [] => (true, [])
      | _ =>
          if is_alias_or_function_definition cmd
          then (false, if client then [LogDefinition cmd] else [])
          else check_lists rule cmd client
      end
  | _, _ => (true, [])
  end.

