(* ===== verification/CommandAclSpec.v ===== *)
(** * What the access control list promises

    The line-by-line loader gives what a file of blocks means ([meaning]); a printed
    configuration loads back; the rule of a connection is the first of user,
    connection, host and global; a command is refused exactly when it is a
    definition, contains a pattern of the blacklist, or contains none of a
    whitelist.  The last part records what is surprising. *)

From S2P Require Import Prelude CString CommandAcl.

Local Abbreviation head := list.head.
Local Abbreviation last := list.last.

(** ** White space *)

Definition spaces (s : list byte) : Prop := Forall (λ c, isspace c = true) s.

Definition trimmed (t : list byte) : Prop :=
  (∀ c, head t = Some c → isspace c = false) ∧ (∀ c, last t = Some c → isspace c = false).

Lemma drop_spaces_split s :
  ∃ a, s = a ++ drop_spaces s ∧ spaces a ∧ ∀ c, head (drop_spaces s) = Some c → isspace c = false.
Proof.
  induction s as [|c s (a & E & Ha & Hh)]; cbn [drop_spaces].
  - exists []. split_and!; [done|constructor|done].
  - destruct (isspace c) eqn:Hc.
    + exists (c :: a). split_and!; [cbn [app]; by f_equal|by constructor|done].
    + exists []. split_and!; [done|constructor|]. intros d [= <-]. done.
Qed.

Lemma drop_spaces_app a s : spaces a → drop_spaces (a ++ s) = drop_spaces s.
Proof. induction 1 as [|c a Hc Ha IH]; [done|]. cbn [app drop_spaces]. by rewrite Hc. Qed.

Lemma drop_spaces_id s : (∀ c, head s = Some c → isspace c = false) → drop_spaces s = s.
Proof. destruct s as [|c s]; [done|]. intros H. cbn [drop_spaces]. by rewrite (H c). Qed.

Lemma drop_spaces_all a : spaces a → drop_spaces a = [].
Proof. intros Ha. by rewrite <-(app_nil_r a), drop_spaces_app. Qed.

Lemma spaces_reverse a : spaces a → spaces (reverse a).
Proof. apply Forall_reverse. Qed.

(** [trim] leaves the middle of the string. *)

Lemma trim_app a t b : spaces a → spaces b → trimmed t → trim (a ++ t ++ b) = t.
Proof.
  intros Ha Hb [Hh Hl]. unfold trim. rewrite drop_spaces_app by done.
  destruct t as [|c t].
  { cbn [app]. rewrite (drop_spaces_all b) by done. reflexivity. }
  rewrite (drop_spaces_id ((c :: t) ++ b)) by done.
  rewrite reverse_app, drop_spaces_app by (by apply spaces_reverse).
  rewrite drop_spaces_id; [apply reverse_involutive|]. by rewrite head_reverse.
Qed.

Lemma trim_split s :
  ∃ a b, s = a ++ trim s ++ b ∧ spaces a ∧ spaces b ∧ trimmed (trim s) ∧ (trim s = [] → b = []).
Proof.
  destruct (drop_spaces_split s) as (a & Ea & Ha & Hh).
  destruct (drop_spaces_split (reverse (drop_spaces s))) as (b & Eb & Hb & Hl).
  assert (E : drop_spaces s = trim s ++ reverse b).
  { unfold trim. by rewrite <-reverse_app, <-Eb, reverse_involutive. }
  assert (Ht : trim s = [] → b = []).
  { intros Ht. rewrite Ht in E. cbn [app] in E. apply spaces_reverse in Hb as Hs.
    rewrite <-E in Hs. destruct (drop_spaces s) as [|d r].
    - by rewrite <-(reverse_involutive b), <-E.
    - apply Forall_cons_iff in Hs as [Hd _]. rewrite (Hh d) in Hd; done. }
  exists a, (reverse b). split_and!.
  - by rewrite <-E.
  - done.
  - by apply spaces_reverse.
  - split; intros c Hc.
    + apply Hh. rewrite E. by destruct (trim s).
    + apply Hl. unfold trim in Hc. by rewrite last_reverse in Hc.
  - intros H. by rewrite Ht.
Qed.

Lemma trim_no_nul s : no_nul s → no_nul (trim s).
Proof.
  destruct (trim_split s) as (a & b & E & _). intros H. rewrite E in H.
  by apply no_nul_app in H as [_ [H _]%no_nul_app].
Qed.

Lemma trim_length s : (length (trim s) ≤ length s)%nat.
Proof.
  destruct (trim_split s) as (a & b & E & _). rewrite E at 2. rewrite !length_app. lia.
Qed.

Lemma trim_trimmed t : trimmed t → trim t = t.
Proof.
  intros. rewrite <-(app_nil_r t) at 1. rewrite <-(app_nil_l (t ++ [])).
  apply trim_app; [constructor|constructor|done].
Qed.

(** ** [trim_whitespace] in memory *)

Lemma skip_spaces_run pre a r fuel :
  spaces a → (length a < fuel)%nat → isspace (mem_at r 0) = false →
  skip_spaces fuel (pre ++ a ++ r) (length pre) = (length pre + length a)%nat.
Proof.
  intros Ha. revert pre fuel.
  induction Ha as [|c a Hc Ha IH]; intros pre [|fuel] Hf Hr; cbn [length] in Hf; try lia;
    cbn [skip_spaces app]; rewrite mem_at_0.
  - rewrite Hr. cbn. lia.
  - unfold mem_at at 1. cbn [nth]. rewrite Hc.
    specialize (IH (pre ++ [c]) fuel). rewrite <-app_assoc, length_app in IH.
    cbn [length app] in IH. rewrite Nat.add_1_r in IH. rewrite IH by (done || lia).
    cbn [length]. lia.
Qed.

Lemma trim_end_run pre c t b r :
  spaces b → isspace (default c (last t)) = false →
  trim_end (pre ++ (c :: t) ++ b ++ r) (length pre) (length pre + length t + length b)
  = (length pre + length t)%nat.
Proof.
  revert r. induction b as [|d b IH] using rev_ind; intros r Hb Ht.
  - cbn [length]. rewrite Nat.add_0_r. destruct (length pre + length t)%nat as [|e] eqn:E;
      [done|]. cbn [trim_end]. destruct (length pre <? S e)%nat eqn:H; [|done]. zbool_hyps.
    rewrite <-E, mem_at_app_r. destruct t as [|x t] using rev_ind; [cbn in E; lia|].
    rewrite last_snoc in Ht. cbn in Ht. rewrite length_app. cbn [length app].
    rewrite Nat.add_1_r, <-app_assoc. unfold mem_at. cbn [nth].
    rewrite app_nth2, Nat.sub_diag by lia. cbn [nth app]. by rewrite Ht.
  - apply Forall_app in Hb as [Hb [Hd _]%Forall_cons_iff]. rewrite length_app. cbn [length].
    replace (length pre + length t + (length b + 1))%nat
      with (S (length pre + length t + length b)) by lia.
    cbn [trim_end]. replace (length pre <? _)%nat with true by (symmetry; apply Nat.ltb_lt; lia).
    replace (mem_at _ _) with d.
    { rewrite Hd. cbn [andb]. rewrite <-(app_assoc b). by apply IH. }
    replace (S (length pre + length t + length b))
      with (length pre + (length ((c :: t) ++ b) + 0))%nat by (rewrite length_app; cbn; lia).
    rewrite mem_at_app_r, <-app_assoc, (app_assoc (c :: t)), mem_at_app_r. done.
Qed.

(** The memory after [trim_whitespace]: a terminator behind what is left of the string. *)

Lemma trim_whitespace_mem pre s post :
  no_nul s →
  ∃ a b, s = a ++ trim s ++ b ∧ spaces a ∧
  trim_whitespace (pre ++ s ++ x00 :: post) (length pre)
  = (pre ++ a ++ trim s ++ x00 :: drop 1 (b ++ x00 :: post), length pre + length a)%nat.
Proof.
  intros Hs. destruct (trim_split s) as (a & b & E & Ha & Hb & [Hh Hl] & Hbn).
  exists a, b. split_and!; [done|done|].
  set (t := trim s) in *. clearbody t. subst s.
  apply no_nul_app in Hs as [Hna [Hnt Hnb]%no_nul_app].
  unfold trim_whitespace. destruct (decide _) as [H0|H0].
  { rewrite mem_at_0 in H0. unfold mem_at in H0.
    destruct a as [|c a]; [|by apply no_nul_cons in Hna as [? _]].
    destruct t as [|c t]; [|by apply no_nul_cons in Hnt as [? _]].
    rewrite Hbn by done. cbn [app length drop]. by rewrite Nat.add_0_r. }
  replace (pre ++ (a ++ t ++ b) ++ x00 :: post)
    with (pre ++ a ++ t ++ b ++ x00 :: post) by (by napp).
  rewrite skip_spaces_run; [|done|rewrite !length_app; cbn; lia|]; last first.
  { destruct t as [|c t]; [rewrite Hbn by done; done|]. unfold mem_at. cbn. by apply Hh. }
  rewrite mem_at_app_r, mem_at_0. destruct t as [|c t].
  { rewrite Hbn by done. done. }
  rewrite decide_False by (by apply no_nul_cons in Hnt as [? _]).
  rewrite (app_assoc pre a), <-length_app. set (p := pre ++ a).
  replace (str_at (p ++ (c :: t) ++ b ++ x00 :: post) (length p)) with ((c :: t) ++ b)
    by (by rewrite (app_assoc (c :: t)), str_at_app by (by apply no_nul_app)).
  rewrite length_app.
  replace (length p + (length (c :: t) + length b) - 1)%nat
    with (length p + length t + length b)%nat by (cbn; lia).
  rewrite trim_end_run; [|done|]; last first.
  { destruct t as [|x t] using rev_ind; [by apply Hh|]. rewrite last_snoc. cbn. apply Hl.
    by rewrite app_comm_cons, last_snoc. }
  f_equal. replace (S (length p + length t)) with (length p + (length (c :: t) + 0))%nat
    by (cbn; lia).
  rewrite insert_app_r, insert_app_r, <-(app_assoc pre a).
  destruct b as [|d b]; cbn; done.
Qed.

(** As strings: the result is the trimmed string, nothing outside the string is written, and the
    terminator stays. *)

Lemma trim_whitespace_str pre s post :
  no_nul s →
  ∃ p s', trim_whitespace (pre ++ s ++ x00 :: post) (length pre)
          = (pre ++ s' ++ x00 :: post, p) ∧
  str_at (pre ++ s' ++ x00 :: post) p = trim s ∧ length s' = length s ∧
  (length pre ≤ p ≤ length pre + length s)%nat.
Proof.
  intros Hs. destruct (trim_whitespace_mem pre s post Hs) as (a & b & E & Ha & Hw).
  assert (Ho : str_at (pre ++ a ++ trim s ++ x00 :: drop 1 (b ++ x00 :: post))
                 (length pre + length a) = trim s).
  { rewrite app_assoc, <-length_app. apply str_at_app. by apply trim_no_nul. }
  assert (Hl : length s = (length a + (length (trim s) + length b))%nat)
    by (by rewrite E at 1; rewrite !length_app).
  destruct b as [|d b]; cbn [app drop] in Hw, Ho.
  - exists (length pre + length a)%nat, (a ++ trim s). rewrite <-app_assoc.
    split_and!; [done|done|rewrite length_app; cbn in *; lia|lia|lia].
  - exists (length pre + length a)%nat, (a ++ trim s ++ x00 :: b).
    replace (pre ++ (a ++ trim s ++ x00 :: b) ++ x00 :: post)
      with (pre ++ a ++ trim s ++ x00 :: b ++ x00 :: post) by (by napp).
    split_and!; [done|done|rewrite !length_app; cbn in *; lia|lia|lia].
Qed.

(** ** The grammar of the configuration file *)

Inductive acl_line :=
  | LBlank
  | LSection (name : list byte)
  | LSetting (key value : list byte)
  | LOther.

Definition classify_setting (t : list byte) : acl_line :=
  match strchr t x3d with
  | Some i => LSetting (trim (take i t)) (trim (drop (S i) t))
  | None => LOther
  end.

Definition classify_trimmed (t : list byte) : acl_line :=
  match t with
  | [] => LBlank
  | c :: _ =>
      if decide (c = x23 ∨ c = x3b) then LBlank
      else if decide (c = x5b) then
        match strchr t x5d with
        | Some i => LSection (take 255 (drop 1 (take i t)))
        | None => classify_setting t
        end
      else classify_setting t
  end.

Definition classify (s : list byte) : acl_line := classify_trimmed (trim s).

(** What a line does to the configuration and to the rule being filled in. *)

Definition acl_step (st : load_state) (l : acl_line) : load_state :=
  match l with
  | LSection name => open_section st name
  | LSetting key value =>
      match snd st with
      | Some r => assign_key st r key value
      | None => st
      end
  | _ => st
  end.

(** The lines that [fgets] reads. *)

Fixpoint file_lines (fuel : nat) (file : list byte) : list (list byte) :=
  match fuel, file with
  | S fuel', _ :: _ =>
      let chunk := fgets_chunk 4095 file in
      c_str chunk :: file_lines fuel' (drop (length chunk) file)
  | _, _ => []
  end.

Definition lines_of (file : list byte) : list (list byte) := file_lines (S (length file)) file.

(** *** A line in memory *)

Lemma insert_middle {A} (pre a r : list A) x y :
  <[(length pre + length a)%nat := y]> (pre ++ a ++ x :: r) = pre ++ a ++ y :: r.
Proof.
  rewrite insert_app_r. f_equal. rewrite <-(Nat.add_0_r (length a)), insert_app_r. done.
Qed.

Lemma no_nul_take i s : no_nul s → no_nul (take i s).
Proof. apply Forall_take. Qed.

Lemma no_nul_drop i s : no_nul s → no_nul (drop i s).
Proof. apply Forall_drop. Qed.

Lemma parse_key_value_step st pre t post :
  no_nul t →
  fst (parse_key_value st (pre ++ t ++ x00 :: post) (length pre)) = acl_step st (classify_setting t).
Proof.
  intros Ht. unfold parse_key_value, classify_setting. rewrite str_at_app by done.
  destruct (snd st) as [r|] eqn:Er; [|destruct (strchr t x3d); cbn; by rewrite ?Er].
  destruct (strchr t x3d) as [i|] eqn:Ei; [|done]. cbn [acl_step]. rewrite Er.
  apply strchr_Some in Ei as [Hi _]. assert (Hli : (i < length t)%nat)
    by (by apply lookup_lt_Some in Hi).
  assert (Hlen : length (take i t) = i) by (apply length_take_le; lia).
  rewrite <-(take_drop_middle t i x3d Hi) at 1.
  pose proof (no_nul_take i t Ht) as Hk. pose proof (no_nul_drop (S i) t Ht) as Hv.
  set (k := take i t) in *. set (v := drop (S i) t) in *. clearbody k v. subst i.
  rewrite <-app_assoc. cbn [app]. rewrite insert_middle.
  destruct (trim_whitespace_str pre k (v ++ x00 :: post) Hk)
    as (pk & k' & -> & Ek & Hlk & Hpk).
  replace (pre ++ k' ++ x00 :: v ++ x00 :: post)
    with ((pre ++ k' ++ [x00]) ++ v ++ x00 :: post) in Ek |- * by (by napp).
  replace (S (length pre + length k)) with (length (pre ++ k' ++ [x00]))
    by (rewrite !length_app; cbn; lia).
  destruct (trim_whitespace_str (pre ++ k' ++ [x00]) v post Hv)
    as (pv & v' & -> & Ev & _ & _).
  cbn [fst]. rewrite Ev. f_equal. rewrite <-Ek. apply str_at_frame.
  rewrite app_assoc, drop_app_le by (rewrite length_app; lia).
  apply elem_of_app. right. by apply list_elem_of_singleton.
Qed.

Lemma load_line_step st s post :
  no_nul s → fst (load_line st (s ++ x00 :: post)) = acl_step st (classify s).
Proof.
  intros Hs. unfold load_line, classify.
  destruct (trim_whitespace_mem [] s post Hs) as (a & b & _ & _ & Hw). cbn [app length] in Hw.
  rewrite Hw. clear Hw. pose proof (trim_no_nul s Hs) as Ht.
  set (t := trim s) in *. clearbody t. rewrite Nat.add_0_l, mem_at_0.
  set (post' := drop 1 (b ++ x00 :: post)). clearbody post'.
  destruct t as [|c t]; [by rewrite decide_True by (by left)|].
  unfold mem_at. cbn [app nth classify_trimmed].
  assert (Hc : c ≠ x00) by (by apply no_nul_cons in Ht as [? _]).
  destruct (decide (c = x23 ∨ c = x3b)) as [H|H];
    [by rewrite decide_True by (by right)|].
  rewrite decide_False by (intros [?|?]; done).
  rewrite (app_comm_cons t (x00 :: post') c).
  destruct (decide (c = x5b)) as [->|Hb]; [|by apply parse_key_value_step].
  rewrite str_at_app by done.
  destruct (strchr (x5b :: t) x5d) as [i|] eqn:Ei; [|by apply parse_key_value_step].
  apply strchr_Some in Ei as [Hi _]. cbn [acl_step fst].
  destruct i as [|j]; [done|]. cbn [lookup list_lookup] in Hi.
  assert (Hlen : length (take j t) = j).
  { apply length_take_le. apply lookup_lt_Some in Hi. lia. }
  apply no_nul_cons in Ht as [_ Ht]. pose proof (no_nul_take j t Ht) as Hu.
  rewrite <-(take_drop_middle t j x5d Hi). set (u := take j t) in *.
  set (v := drop (S j) t). clearbody u v. subst j. cbn [take drop].
  rewrite take_app_length. change (S (length u)) with (length (x5b :: u)).
  replace (a ++ (x5b :: u ++ x5d :: v) ++ x00 :: post')
    with (a ++ (x5b :: u) ++ x5d :: v ++ x00 :: post') by (by napp).
  rewrite insert_middle. unfold strncpy_term.
  replace (a ++ (x5b :: u) ++ x00 :: v ++ x00 :: post')
    with ((a ++ [x5b]) ++ u ++ x00 :: v ++ x00 :: post') by (by napp).
  replace (S (length a)) with (length (a ++ [x5b])) by (rewrite length_app; cbn; lia).
  by rewrite str_at_app.
Qed.

(** *** The whole file *)

Lemma c_str_split mem : ∀ post, ∃ post', mem ++ x00 :: post = c_str mem ++ x00 :: post'.
Proof.
  induction mem as [|c mem IH]; intros post; [by exists post|].
  destruct (decide (c = x00)) as [->|Hc]; [by exists (mem ++ x00 :: post)|].
  destruct (IH post) as [post' E]. exists post'. cbn [app]. rewrite E.
  by replace (c_str (c :: mem)) with (c :: c_str mem) by (by destruct c).
Qed.

Lemma load_loop_steps fuel st line file :
  (length file < fuel)%nat →
  load_loop fuel st line file = foldl acl_step st (classify <$> file_lines fuel file).
Proof.
  revert st line file. induction fuel as [|fuel IH]; intros st line file Hf; [lia|].
  destruct file as [|c file]; [done|]. cbn [load_loop file_lines fgets].
  change (4096 - 1)%nat with 4095%nat. set (chunk := fgets_chunk 4095 (c :: file)).
  assert (Hp : (0 < length chunk)%nat) by (apply fgets_chunk_pos; [lia|done]).
  destruct (c_str_split chunk (drop (S (length chunk)) line)) as [post' ->].
  destruct (load_line st (c_str chunk ++ x00 :: post')) as [st' line'] eqn:El.
  cbn [fmap list_fmap foldl].
  rewrite <-(load_line_step st (c_str chunk) post') by apply no_nul_c_str.
  rewrite El. cbn [fst]. apply IH. rewrite length_drop. cbn [length] in *. lia.
Qed.

(** *** What a file means

    The reference has no state of a loader: a file is a sequence of blocks, each with the settings that
    follow its header, and a rule is what the last setting of each key says.  It uses nothing of
    the code. *)

Local Abbreviation setting := (list byte * list byte)%type.

(** The last value given to a key; a setting without a value gives none. *)

Definition last_value (key : list byte) (settings : list setting) : option (list byte) :=
  last (omap (λ kv, if decide (fst kv = key ∧ snd kv ≠ []) then Some (snd kv) else None) settings).

Definition rule_of (settings : list setting) : guac_ssh_acl_rule :=
  AclRule (last_value (lit "blacklist") settings) (last_value (lit "whitelist") settings)
    (default ([x0d; x0a] ++ lit "*** Command blocked by security policy ***" ++ [x0d; x0a])
       (last_value (lit "blocked_message") settings)).

Inductive place := Everyone | Connection (key : list byte) | User (name : list byte).

Local Abbreviation block := (place * list setting)%type.

Definition after (prefix s : list byte) : option (list byte) :=
  if decide (take (length prefix) s = prefix) then Some (drop (length prefix) s) else None.

Definition place_of (name : list byte) : option place :=
  if decide (name = lit "global") then Some Everyone
  else match after (lit "connection:") name with
       | Some key => Some (Connection key)
       | None => User <$> after (lit "user:") name
       end.

(** The blocks of connections and of users. *)

Definition on_connection (b : block) : option (list byte * guac_ssh_acl_rule) :=
  match fst b with Connection key => Some (key, rule_of (snd b)) | _ => None end.

Definition on_user (b : block) : option (list byte * guac_ssh_acl_rule) :=
  match fst b with User name => Some (name, rule_of (snd b)) | _ => None end.

Definition on_everyone (b : block) : option (list setting) :=
  match fst b with Everyone => Some (snd b) | _ => None end.

(** A header that names no place, or one more of a kind that has 128 already, opens no block. *)

Definition opens (bs : list block) (name : list byte) : option place :=
  p ← place_of name;
  match p with
  | Everyone => Some p
  | Connection _ => if decide (length (omap on_connection bs) < 128)%nat then Some p else None
  | User _ => if decide (length (omap on_user bs) < 128)%nat then Some p else None
  end.

(** The blocks read so far, the last one first. *)

Definition next_block (bs : list block) (l : acl_line) : list block :=
  match l with
  | LSection name => match opens bs name with Some p => (p, []) :: bs | None => bs end
  | LSetting key value =>
      match bs with
      | (p, settings) :: bs => (p, settings ++ [(key, value)]) :: bs
      | [] => []
      end
  | _ => bs
  end.

Definition blocks (ls : list acl_line) : list block := reverse (foldl next_block [] ls).

(** All blocks of the global section make one rule. *)

Definition meaning (bs : list block) : guac_ssh_acl_config :=
  AclConfig
    (match omap on_everyone bs with [] => None | settings => Some (rule_of (concat settings)) end)
    (omap on_connection bs) (omap on_user bs).

(** **** The loader keeps the meaning of the blocks *)

Definition set_key (kv : setting) (r : guac_ssh_acl_rule) : guac_ssh_acl_rule :=
  let '(key, value) := kv in
  match value with
  | [] => r
  | _ =>
      if decide (key = lit "blacklist") then set_blacklist value r
      else if decide (key = lit "whitelist") then set_whitelist value r
      else if decide (key = lit "blocked_message") then set_blocked_message value r
      else r
  end.

Lemma last_value_snoc key settings kv :
  last_value key (settings ++ [kv]) =
    if decide (fst kv = key ∧ snd kv ≠ []) then Some (snd kv) else last_value key settings.
Proof.
  unfold last_value. rewrite omap_app. cbn. case_decide; [by rewrite last_snoc|by rewrite app_nil_r].
Qed.

Lemma rule_of_snoc settings kv : rule_of (settings ++ [kv]) = set_key kv (rule_of settings).
Proof.
  destruct kv as [key value]. unfold rule_of, set_key. rewrite !last_value_snoc. cbn [fst snd].
  destruct value as [|c value]; [by rewrite !decide_False by (by intros [_ ?])|].
  destruct (decide (key = lit "blacklist")) as [->|]; [|destruct (decide (key = lit "whitelist")) as [->|];
    [|destruct (decide (key = lit "blocked_message")) as [->|]]];
    repeat case_decide; try done; naive_solver.
Qed.

Lemma update_rule_id c r : update_rule id c r = c.
Proof.
  destruct c as [g cs us], r; cbn; f_equal; [by destruct g|..]; apply list_alter_id; by intros [].
Qed.

Lemma assign_key_set c cur r key value :
  assign_key (c, cur) r key value = (update_rule (set_key (key, value)) c r, cur).
Proof.
  unfold assign_key, set_key. destruct value; [by rewrite update_rule_id|].
  repeat case_decide; try done. by rewrite update_rule_id.
Qed.

(** The reference into the configuration that the last block is. *)

Definition last_ref (bs : list block) : option rule_ref :=
  match bs with
  | [] => None
  | (Everyone, _) :: _ => Some RGlobal
  | (Connection _, _) :: bs => Some (RConnection (length (omap on_connection bs)))
  | (User _, _) :: bs => Some (RUser (length (omap on_user bs)))
  end.

Definition state_of (bs : list block) : load_state := (meaning (reverse bs), last_ref bs).

Lemma omap_reverse {A B} (f : A → option B) l : omap f (reverse l) = reverse (omap f l).
Proof.
  induction l as [|x l IH]; [done|]. rewrite reverse_cons, omap_app, IH. cbn [omap list_omap].
  destruct (f x); [by rewrite reverse_cons|by rewrite app_nil_r].
Qed.

Lemma alter_last {A} (f : A → A) l x : alter f (length l) (l ++ [x]) = l ++ [f x].
Proof.
  replace (length l) with (length l + 0)%nat by lia. by rewrite alter_app_r.
Qed.

Lemma meaning_snoc bs p settings :
  meaning (bs ++ [(p, settings)]) =
    match p with
    | Everyone => AclConfig (Some (rule_of (concat (omap on_everyone bs ++ [settings]))))
                    (omap on_connection bs) (omap on_user bs)
    | Connection key => AclConfig (global (meaning bs)) (omap on_connection bs ++ [(key, rule_of settings)])
                          (omap on_user bs)
    | User name => AclConfig (global (meaning bs)) (omap on_connection bs)
                     (omap on_user bs ++ [(name, rule_of settings)])
    end.
Proof.
  unfold meaning. rewrite !omap_app. destruct p; cbn; rewrite ?app_nil_r; [|done|done].
  by destruct (omap on_everyone bs).
Qed.

Lemma setting_step bs p settings kv :
  acl_step (state_of ((p, settings) :: bs)) (LSetting kv.1 kv.2) =
    state_of ((p, settings ++ [kv]) :: bs).
Proof.
  destruct kv as [key value]. unfold state_of. rewrite !reverse_cons, !meaning_snoc.
  cbn [acl_step snd]. destruct p; cbn [last_ref fst snd]; rewrite assign_key_set; cbn [update_rule global connection_rules user_rules];
    f_equal; f_equal.
  - cbn [fmap option_fmap option_map]. f_equal. rewrite !concat_app. cbn [concat]. rewrite !app_nil_r, app_assoc.
    by rewrite rule_of_snoc.
  - rewrite omap_reverse, <-length_reverse, alter_last. cbn. by rewrite rule_of_snoc.
  - rewrite omap_reverse, <-length_reverse, alter_last. cbn. by rewrite rule_of_snoc.
Qed.

Lemma after_prefix prefix s : starts_with s prefix = bool_decide (is_Some (after prefix s)).
Proof.
  unfold starts_with, after. apply eq_bool_prop_intro. rewrite !Is_true_true, strncmp_prefix, bool_decide_eq_true.
  case_decide as E.
  - split; [by eexists|]. intros _. exists (drop (length prefix) s). by rewrite <-E at 1; rewrite take_drop.
  - split; [|by intros []]. intros [k ->]. by rewrite take_app_length in E.
Qed.

Lemma after_drop prefix s k : after prefix s = Some k → drop (length prefix) s = k.
Proof. unfold after. case_decide; [by intros [= <-]|done]. Qed.

Lemma section_step bs name :
  open_section (state_of bs) name =
    state_of (match opens bs name with Some p => (p, []) :: bs | None => bs end).
Proof.
  unfold open_section, state_of at 1, opens, place_of.
  destruct (decide (name = lit "global")) as [->|].
  { cbn [mbind option_bind]. unfold state_of. rewrite reverse_cons, meaning_snoc, concat_app. cbn [concat]. rewrite app_nil_r.
    f_equal. cbn [global meaning]. destruct (omap on_everyone (reverse bs)) as [|e es] eqn:E; [done|].
    cbn [app concat]. rewrite ?app_nil_r. unfold meaning. by rewrite E. }
  rewrite !after_prefix. cbn [connection_rules user_rules global meaning].
  rewrite !omap_reverse, !length_reverse.
  change 128%nat with GUAC_SSH_ACL_MAX_RULES. generalize GUAC_SSH_ACL_MAX_RULES as max. intros max.
  destruct (after (lit "connection:") name) as [key|] eqn:Ec.
  - rewrite bool_decide_true by done. cbn [mbind option_bind].
    change 11%nat with (length (lit "connection:")). rewrite (after_drop _ _ _ Ec).
    destruct (Nat.ltb_spec (length (omap on_connection bs)) max) as [Hl|Hl];
      [rewrite decide_True by done|by rewrite decide_False by lia].
    unfold state_of. rewrite reverse_cons, meaning_snoc. cbn [last_ref].
    unfold meaning. cbn [global]. by rewrite !omap_reverse.
  - rewrite bool_decide_false by (by intros []).
    destruct (after (lit "user:") name) as [user|] eqn:Eu; [|by rewrite bool_decide_false by (by intros [])].
    rewrite bool_decide_true by done. cbn [mbind option_bind fmap option_fmap option_map].
    change 5%nat with (length (lit "user:")). rewrite (after_drop _ _ _ Eu).
    destruct (Nat.ltb_spec (length (omap on_user bs)) max) as [Hl|Hl];
      [rewrite decide_True by done|by rewrite decide_False by lia].
    unfold state_of. rewrite reverse_cons, meaning_snoc. cbn [last_ref].
    unfold meaning. cbn [global]. by rewrite !omap_reverse.
Qed.

Lemma acl_step_block bs l : acl_step (state_of bs) l = state_of (next_block bs l).
Proof.
  destruct l as [|name|key value|]; cbn [next_block]; [done| | |done].
  - apply section_step.
  - destruct bs as [|[p settings] bs]; [done|]. apply (setting_step bs p settings (key, value)).
Qed.

Lemma acl_steps_blocks ls : ∀ bs, foldl acl_step (state_of bs) ls = state_of (foldl next_block bs ls).
Proof. induction ls as [|l ls IH]; intros bs; [done|]. cbn [foldl]. by rewrite acl_step_block. Qed.

(** C40.  Loading a configuration file gives what the file means, whatever the stack holds where the line
    buffer is: each line of at most 4095 bytes is blank or a comment, a section header, a setting or
    neither; the settings that follow a header belong to its block; the rule of a block has the
    last blacklist, whitelist and message that it is given; every block of a connection or a user
    is a rule of its own, up to 128 of a kind, and all global blocks are one. *)
Theorem load_config_refines_grammar line file :
  guac_ssh_acl_load_config line (Some file) = Some (meaning (blocks (classify <$> lines_of file))).
Proof.
  unfold guac_ssh_acl_load_config, lines_of, blocks. f_equal. rewrite load_loop_steps by lia.
  change (empty_config, None) with (state_of []). by rewrite acl_steps_blocks.
Qed.

Lemma load_config_refines_grammar_witness :
  guac_ssh_acl_load_config (replicate 9 x41)
    (Some (lit "# rules" ++ [newline] ++ lit "blacklist = ignored" ++ [newline] ++
           lit "[global]" ++ [newline] ++ lit "  blacklist = rm, dd" ++ [newline] ++
           lit "[user:bob]" ++ [newline] ++ lit "whitelist=ls" ++ [newline] ++ lit "whitelist =ps" ++ [newline] ++
           lit "[other]" ++ [newline] ++ lit "blocked_message= no" ++ [newline] ++
           lit "[connection:db:root]" ++ [newline] ++ lit "blacklist=" ++ [newline] ++
           lit "[global]" ++ [newline] ++ lit "whitelist=cat"))
  = Some (AclConfig
      (Some (AclRule (Some (lit "rm, dd")) (Some (lit "cat")) GUAC_SSH_ACL_DEFAULT_MESSAGE))
      [(lit "db:root", create_rule)]
      [(lit "bob", AclRule None (Some (lit "ps")) (lit "no"))]).
Proof. rewrite load_config_refines_grammar. by vm_compute. Defined.

(** *** Well-formedness *)

(** The arrays do not overflow and [current_rule] points to a rule. *)

Definition config_ok (c : guac_ssh_acl_config) : Prop :=
  (length (connection_rules c) ≤ GUAC_SSH_ACL_MAX_RULES)%nat ∧
  (length (user_rules c) ≤ GUAC_SSH_ACL_MAX_RULES)%nat.

Definition state_ok (st : load_state) : Prop :=
  config_ok (fst st) ∧ ∀ r, snd st = Some r → is_Some (rule_at (fst st) r).

Lemma rule_at_update f c r r' :
  rule_at (update_rule f c r) r'
  = if decide (r = r') then f <$> rule_at c r' else rule_at c r'.
Proof.
  destruct r as [|i|i], r' as [|j|j]; cbn [rule_at update_rule global connection_rules user_rules];
    try done; rewrite list_lookup_alter; repeat case_decide; try congruence; subst;
    match goal with |- context [?l !! ?k] => by destruct (l !! k) as [[]|] end.
Qed.

Lemma length_update_rule f c r :
  length (connection_rules (update_rule f c r)) = length (connection_rules c) ∧
  length (user_rules (update_rule f c r)) = length (user_rules c).
Proof. destruct r; cbn; by rewrite ?length_alter. Qed.

Lemma update_rule_ok st f r :
  state_ok st → state_ok (update_rule f (fst st) r, snd st).
Proof.
  intros [[Hc Hu] Hr]. pose proof (length_update_rule f (fst st) r) as [Ec Eu]. split.
  - split; cbn [fst]; lia.
  - intros r' Hr'. cbn [fst snd] in *. rewrite rule_at_update.
    destruct (decide _); [rewrite fmap_is_Some|]; by apply Hr.
Qed.

Lemma open_section_ok st name : state_ok st → state_ok (open_section st name).
Proof.
  destruct st as [c cur]. intros Hok. pose proof Hok as [[Hc Hu] _]. cbn [fst] in Hc, Hu.
  unfold open_section. repeat case_decide; [|zif; [zif|zif; [zif|]]]; try done.
  - split; cbn [fst snd]; [by destruct (global c)|].
    intros r [= <-]. destruct (global c) eqn:E; cbn; rewrite ?E; eauto.
  - split; cbn [fst snd].
    + split; cbn [connection_rules user_rules]; rewrite ?length_app; cbn; lia.
    + intros r [= <-]. cbn. by rewrite list_lookup_middle.
  - split; cbn [fst snd].
    + split; cbn [connection_rules user_rules]; rewrite ?length_app; cbn; lia.
    + intros r [= <-]. cbn. by rewrite list_lookup_middle.
Qed.

Lemma acl_step_ok st l : state_ok st → state_ok (acl_step st l).
Proof.
  intros Hok. destruct l as [|name|key value|]; cbn [acl_step]; [done| |  |done].
  - by apply open_section_ok.
  - destruct (snd st) as [r|]; [|done]. destruct st as [c cur]. unfold assign_key.
    destruct value; [done|]. repeat case_decide; try done; by apply (update_rule_ok (c, cur)).
Qed.

Lemma foldl_acl_step_ok ls st : state_ok st → state_ok (foldl acl_step st ls).
Proof.
  revert st. induction ls as [|l ls IH]; intros st Hst; [done|]. by apply IH, acl_step_ok.
Qed.

(** Whatever the file holds, loading keeps both arrays within their 128
    entries and [current_rule] either [NULL] or pointing to a rule of the
    configuration, so every assignment through it is in bounds. *)
Theorem load_invariant line file :
  state_ok (load_loop (S (length file)) (empty_config, None) line file).
Proof.
  rewrite load_loop_steps by lia. apply foldl_acl_step_ok. split; [|done]. split; cbn; lia.
Qed.

(** ** Printing a configuration *)

Definition setting_line (key value : list byte) : list byte := key ++ lit "=" ++ value.

Definition rule_lines (r : guac_ssh_acl_rule) : list (list byte) :=
  (setting_line (lit "blacklist") <$> option_list (blacklist r))
  ++ (setting_line (lit "whitelist") <$> option_list (whitelist r))
  ++ (if decide (blocked_message r = GUAC_SSH_ACL_DEFAULT_MESSAGE) then []
      else [setting_line (lit "blocked_message") (blocked_message r)]).

Definition section_lines (name : list byte) (r : guac_ssh_acl_rule) : list (list byte) :=
  (lit "[" ++ name ++ lit "]") :: rule_lines r.

Definition config_lines (c : guac_ssh_acl_config) : list (list byte) :=
  concat (section_lines (lit "global") <$> option_list (global c))
  ++ concat ((λ r, section_lines (lit "connection:" ++ fst r) (snd r)) <$> connection_rules c)
  ++ concat ((λ r, section_lines (lit "user:" ++ fst r) (snd r)) <$> user_rules c).

Definition print_config (c : guac_ssh_acl_config) : list byte :=
  concat ((λ l, l ++ [newline]) <$> config_lines c).

(** What the format can express: a list or a message is one trimmed line, a name has no closing
    bracket and fits the buffer of the section name. *)

Definition line_text (s : list byte) : Prop := Forall (λ c, c ≠ x00 ∧ c ≠ newline) s.

#[export] Instance line_text_dec s : Decision (line_text s).
Proof. unfold line_text. apply _. Defined.

Definition value_ok (v : list byte) : Prop :=
  line_text v ∧ v ≠ [] ∧ trimmed v ∧ (length v ≤ 4078)%nat.

Definition name_ok (n : nat) (s : list byte) : Prop :=
  line_text s ∧ (x5d ∉ s) ∧ (length s ≤ n)%nat.

Definition rule_ok (r : guac_ssh_acl_rule) : Prop :=
  (∀ v, blacklist r = Some v → value_ok v) ∧
  (∀ v, whitelist r = Some v → value_ok v) ∧
  (blocked_message r = GUAC_SSH_ACL_DEFAULT_MESSAGE ∨ value_ok (blocked_message r)).

Record printable_config (c : guac_ssh_acl_config) : Prop := {
  pc_config : config_ok c;
  pc_global : ∀ r, global c = Some r → rule_ok r;
  pc_connections : Forall (λ r, name_ok 244 (fst r) ∧ rule_ok (snd r)) (connection_rules c);
  pc_users : Forall (λ r, name_ok 250 (fst r) ∧ rule_ok (snd r)) (user_rules c)
}.

(** *** The lines of a printed file *)

Definition printable_line (l : list byte) : Prop := line_text l ∧ (length l ≤ 4094)%nat.

Lemma line_text_split s : line_text s → no_nul s ∧ newline ∉ s.
Proof.
  intros Hs. split; [eapply Forall_impl; [|exact Hs]; by intros c []|].
  intros Hin%list_elem_of_In. unfold line_text in Hs. rewrite Forall_forall in Hs.
  by destruct (Hs _ Hin).
Qed.

Lemma no_nul_newline : no_nul [newline].
Proof. by constructor. Qed.

Lemma file_lines_cons fuel file :
  file ≠ [] →
  file_lines (S fuel) file
  = c_str (fgets_chunk 4095 file) :: file_lines fuel (drop (length (fgets_chunk 4095 file)) file).
Proof. by destruct file. Qed.

Lemma file_lines_printed ls fuel :
  Forall printable_line ls → (length (concat ((λ l, l ++ [newline]) <$> ls)) < fuel)%nat →
  file_lines fuel (concat ((λ l, l ++ [newline]) <$> ls)) = (λ l, l ++ [newline]) <$> ls.
Proof.
  intros Hls. revert fuel. induction Hls as [|l ls [[Hn Hnl]%line_text_split Hl] Hls IH];
    intros [|fuel] Hf; try done; cbn [fmap list_fmap concat] in *; [lia|].
  rewrite file_lines_cons by (by destruct l). rewrite <-app_assoc. cbn [app].
  rewrite fgets_chunk_line by (done || lia).
  rewrite c_str_id by (apply no_nul_app; split; [done|apply no_nul_newline]).
  rewrite (cons_middle newline l (concat _)), app_assoc, drop_app_length. f_equal. apply IH.
  rewrite !length_app in Hf. cbn in Hf. lia.
Qed.

Lemma trim_line l : trimmed l → trim (l ++ [newline]) = l.
Proof. intros. apply (trim_app []); [constructor|by constructor|done]. Qed.

Lemma classify_section_line name :
  x5d ∉ name → (length name ≤ 255)%nat →
  classify ((lit "[" ++ name ++ lit "]") ++ [newline]) = LSection name.
Proof.
  intros Hn Hl. change (lit "[" ++ name ++ lit "]") with (x5b :: name ++ [x5d]).
  unfold classify. rewrite trim_line.
  - unfold classify_trimmed. rewrite decide_False by (by intros [?|?]). simpl_decide.
    change (x5b :: name ++ [x5d]) with ((x5b :: name) ++ [x5d]).
    rewrite strchr_app by (rewrite not_elem_of_cons; split; [done|done]).
    rewrite take_app_length. cbn [drop]. by rewrite take_ge.
  - split; intros c; [by intros [= <-]|].
    rewrite app_comm_cons, last_snoc. by intros [= <-].
Qed.

Lemma classify_setting_line key v :
  key ∈ [lit "blacklist"; lit "whitelist"; lit "blocked_message"] → v ≠ [] → trimmed v →
  classify (setting_line key v ++ [newline]) = LSetting key v.
Proof.
  intros Hk Hv Hvt.
  assert (H : trimmed key ∧ (x3d ∉ key) ∧ ∃ c k, key = c :: k ∧ isspace c = false ∧ c ∉ [x23; x3b; x5b]).
  { repeat (apply elem_of_cons in Hk as [->|Hk]); [..|by apply elem_of_nil in Hk];
      (split_and!;
       [ split; intros c; vm_compute; by intros [= <-] | apply (bool_decide_unpack _); by vm_compute
       | do 2 eexists; split_and!; [done|done|apply (bool_decide_unpack _); by vm_compute]]). }
  destruct H as (Hkt & Hek & c & k & Ek & Hc & Hns).
  unfold classify. rewrite trim_line; last first.
  { split; intros d; [rewrite Ek; cbn; intros [= <-]; done|].
    destruct v as [|x v] using rev_ind; [done|]. unfold setting_line.
    rewrite !app_assoc, last_snoc. intros [= <-]. apply Hvt. by rewrite last_snoc. }
  assert (Ht : classify_trimmed (setting_line key v) = classify_setting (setting_line key v)).
  { unfold setting_line. rewrite Ek. cbn [app classify_trimmed].
    rewrite !not_elem_of_cons in Hns. destruct Hns as (? & ? & ? & _).
    by rewrite decide_False, decide_False by (done || intros [?|?]; done). }
  rewrite Ht. unfold classify_setting, setting_line.
  change (key ++ lit "=" ++ v) with (key ++ x3d :: v). rewrite strchr_app by done. rewrite take_app_length, drop_app_ge by lia.
  replace (S (length key) - length key)%nat with 1%nat by lia. cbn [drop].
  by rewrite !trim_trimmed.
Qed.

(** *** Running the lines of a printed configuration *)

Definition run (st : load_state) (ls : list (list byte)) : load_state :=
  foldl acl_step st (classify <$> ((λ l, l ++ [newline]) <$> ls)).

Lemma run_app st ls ls' : run st (ls ++ ls') = run (run st ls) ls'.
Proof. unfold run. by rewrite !fmap_app, foldl_app. Qed.

Lemma run_cons st l ls : run st (l :: ls) = run (acl_step st (classify (l ++ [newline]))) ls.
Proof. done. Qed.

Lemma update_rule_set f x c r :
  update_rule f (update_rule (λ _, x) c r) r = update_rule (λ _, f x) c r.
Proof.
  destruct r as [|i|i]; cbn [update_rule global connection_rules user_rules]; f_equal;
    [by destruct (global c)|..]; rewrite list_alter_alter_eq; by apply list_alter_ext.
Qed.

Lemma run_setting c r x key v f :
  (key, f) ∈ [(lit "blacklist", set_blacklist v); (lit "whitelist", set_whitelist v);
              (lit "blocked_message", set_blocked_message v)] →
  value_ok v →
  run (update_rule (λ _, x) c r, Some r) [setting_line key v]
  = (update_rule (λ _, f x) c r, Some r).
Proof.
  intros Hk (_ & Hv & Ht & _). rewrite run_cons, classify_setting_line; [|..|done|done].
  - cbn [acl_step snd]. unfold assign_key. destruct v; [done|].
    rewrite !elem_of_cons in Hk. destruct Hk as [[= -> ->]|[[= -> ->]|[[= -> ->]|[]%elem_of_nil]]];
      simpl_decide; unfold run; cbn [fmap list_fmap foldl]; by rewrite update_rule_set.
  - rewrite !elem_of_cons in Hk. rewrite !elem_of_cons.
    destruct Hk as [[= -> _]|[[= -> _]|[[= -> _]|[]%elem_of_nil]]]; eauto.
Qed.

(** The settings of a rule fill in a rule just created. *)

Lemma run_rule_lines c r rule :
  rule_ok rule →
  run (update_rule (λ _, create_rule) c r, Some r) (rule_lines rule)
  = (update_rule (λ _, rule) c r, Some r).
Proof.
  intros (Hb & Hw & Hm). destruct rule as [b w m]; cbn [blacklist whitelist blocked_message] in *.
  unfold rule_lines. cbn [blacklist whitelist blocked_message]. rewrite !run_app.
  assert (E1 : run (update_rule (λ _, create_rule) c r, Some r)
                 (setting_line (lit "blacklist") <$> option_list b)
               = (update_rule (λ _, AclRule b None GUAC_SSH_ACL_DEFAULT_MESSAGE) c r, Some r)).
  { destruct b as [v|]; [|done]. apply (run_setting c r create_rule _ v (set_blacklist v));
      [|by apply Hb]. apply elem_of_cons. by left. }
  rewrite E1.
  assert (E2 : run (update_rule (λ _, AclRule b None GUAC_SSH_ACL_DEFAULT_MESSAGE) c r, Some r)
                 (setting_line (lit "whitelist") <$> option_list w)
               = (update_rule (λ _, AclRule b w GUAC_SSH_ACL_DEFAULT_MESSAGE) c r, Some r)).
  { destruct w as [v|]; [|done]. apply (run_setting c r (AclRule b None _) _ v (set_whitelist v));
      [|by apply Hw]. rewrite !elem_of_cons. by right; left. }
  rewrite E2. destruct (decide _) as [->|Hd]; [done|]. destruct Hm as [|Hm]; [done|].
  apply (run_setting c r (AclRule b w _) _ m (set_blocked_message m)); [|done].
  rewrite !elem_of_cons. by right; right; left.
Qed.

Lemma run_section st name r :
  (x5d ∉ name) → (length name ≤ 255)%nat →
  run st (section_lines name r) = run (open_section st name) (rule_lines r).
Proof.
  intros Hn Hl. unfold section_lines. rewrite run_cons, classify_section_line by done. done.
Qed.

Lemma starts_with_app p s : starts_with (p ++ s) p = true.
Proof. apply strncmp_prefix. by exists s. Qed.

Lemma run_connections g l rs us cur :
  (length l + length rs ≤ GUAC_SSH_ACL_MAX_RULES)%nat →
  Forall (λ r, name_ok 244 (fst r) ∧ rule_ok (snd r)) rs →
  fst (run (AclConfig g l us, cur)
         (concat ((λ r, section_lines (lit "connection:" ++ fst r) (snd r)) <$> rs)))
  = AclConfig g (l ++ rs) us.
Proof.
  intros Hl Hrs. revert l cur Hl.
  induction Hrs as [|[k r] rs [(Ht & Hb & Hk) Hr] Hrs IH]; intros l cur Hl; cbn [fst snd] in *.
  { cbn. by rewrite app_nil_r. }
  cbn [fmap list_fmap concat fst snd]. rewrite run_app, run_section; cycle 1.
  { rewrite not_elem_of_app. split; [by apply (bool_decide_unpack _); vm_compute|done]. }
  { rewrite length_app. change (length (lit "connection:")) with 11%nat. lia. }
  unfold open_section. rewrite decide_False by done.
  rewrite starts_with_app. cbn [length connection_rules user_rules global] in *.
  replace (length l <? GUAC_SSH_ACL_MAX_RULES)%nat with true by (symmetry; apply Nat.ltb_lt; lia).
  change (drop 11 (lit "connection:" ++ k)) with k.
  pose proof (run_rule_lines (AclConfig g (l ++ [(k, create_rule)]) us)
                (RConnection (length l)) r Hr) as E.
  cbn [update_rule global connection_rules user_rules] in E. rewrite !alter_last in E.
  cbn [prod_map id fst snd] in E. rewrite E, IH by (rewrite length_app; cbn; lia).
  by rewrite <-app_assoc.
Qed.

Lemma run_users g cs l rs cur :
  (length l + length rs ≤ GUAC_SSH_ACL_MAX_RULES)%nat →
  Forall (λ r, name_ok 250 (fst r) ∧ rule_ok (snd r)) rs →
  fst (run (AclConfig g cs l, cur)
         (concat ((λ r, section_lines (lit "user:" ++ fst r) (snd r)) <$> rs)))
  = AclConfig g cs (l ++ rs).
Proof.
  intros Hl Hrs. revert l cur Hl.
  induction Hrs as [|[k r] rs [(Ht & Hb & Hk) Hr] Hrs IH]; intros l cur Hl; cbn [fst snd] in *.
  { cbn. by rewrite app_nil_r. }
  cbn [fmap list_fmap concat fst snd]. rewrite run_app, run_section; cycle 1.
  { rewrite not_elem_of_app. split; [by apply (bool_decide_unpack _); vm_compute|done]. }
  { rewrite length_app. change (length (lit "user:")) with 5%nat. lia. }
  unfold open_section. rewrite decide_False by done.
  rewrite starts_with_app. cbn [length connection_rules user_rules global] in *.
  replace (starts_with (lit "user:" ++ k) (lit "connection:")) with false by done.
  replace (length l <? GUAC_SSH_ACL_MAX_RULES)%nat with true by (symmetry; apply Nat.ltb_lt; lia).
  change (drop 5 (lit "user:" ++ k)) with k.
  pose proof (run_rule_lines (AclConfig g cs (l ++ [(k, create_rule)]))
                (RUser (length l)) r Hr) as E.
  cbn [update_rule global connection_rules user_rules] in E. rewrite !alter_last in E.
  cbn [prod_map id fst snd] in E. rewrite E, IH by (rewrite length_app; cbn; lia).
  by rewrite <-app_assoc.
Qed.

Lemma run_global cs us g :
  (∀ r, g = Some r → rule_ok r) →
  fst (run (AclConfig None cs us, None) (concat (section_lines (lit "global") <$> option_list g)))
  = AclConfig g cs us.
Proof.
  intros Hg. destruct g as [r|]; [|done]. specialize (Hg r eq_refl).
  change (concat _) with (section_lines (lit "global") r ++ []).
  rewrite app_nil_r, run_section; cycle 1.
  { by apply (bool_decide_unpack _); vm_compute. }
  { by apply (bool_decide_unpack _); vm_compute. }
  change (open_section (AclConfig None cs us, None) (lit "global"))
    with (update_rule (λ _, create_rule) (AclConfig (Some create_rule) cs us) RGlobal, Some RGlobal).
  by rewrite run_rule_lines.
Qed.

(** Every line of the printed file fits the line buffer. *)

Lemma line_text_app a b : line_text (a ++ b) ↔ line_text a ∧ line_text b.
Proof. apply Forall_app. Qed.

Lemma line_text_lit s : bool_decide (line_text (lit s)) = true → line_text (lit s).
Proof. apply bool_decide_eq_true_1. Qed.

Lemma setting_printable key v :
  line_text (lit key) → (length (lit key) ≤ 15)%nat → value_ok v →
  printable_line (setting_line (lit key) v).
Proof.
  intros Hk Hl (Ht & _ & _ & Hv). unfold setting_line. split.
  - rewrite !line_text_app. split_and!; [done|by apply line_text_lit|done].
  - rewrite !length_app. change (length (lit "=")) with 1%nat. lia.
Qed.

Lemma rule_printable r : rule_ok r → Forall printable_line (rule_lines r).
Proof.
  intros (Hb & Hw & Hm). unfold rule_lines. rewrite !Forall_app. split_and!.
  - destruct (blacklist r) as [v|]; constructor; [|constructor].
    apply setting_printable; [by apply line_text_lit|vm_compute; lia|by apply Hb].
  - destruct (whitelist r) as [v|]; constructor; [|constructor].
    apply setting_printable; [by apply line_text_lit|vm_compute; lia|by apply Hw].
  - destruct (decide _); constructor; [|constructor]. destruct Hm; [done|].
    apply setting_printable; [by apply line_text_lit|vm_compute; lia|done].
Qed.

Lemma section_printable prefix n name r :
  line_text (lit prefix) → (length (lit prefix) + n ≤ 255)%nat → name_ok n name → rule_ok r →
  Forall printable_line (section_lines (lit prefix ++ name) r).
Proof.
  intros Hp Hl (Ht & _ & Hn) Hr. constructor; [|by apply rule_printable]. split.
  - rewrite !line_text_app. split_and!; [by apply line_text_lit|done|done|by apply line_text_lit].
  - rewrite !length_app. change (length (lit "[")) with 1%nat.
    change (length (lit "]")) with 1%nat. lia.
Qed.

Lemma config_printable c : printable_config c → Forall printable_line (config_lines c).
Proof.
  intros [Hc Hg Hcs Hus]. unfold config_lines. rewrite !Forall_app, !Forall_concat, !Forall_fmap.
  split_and!.
  - destruct (global c) as [r|]; constructor; [|constructor].
    rewrite <-(app_nil_r (lit "global")).
    apply (section_printable _ 0); [by apply line_text_lit|vm_compute; lia| |by apply Hg].
    split_and!; [constructor|apply not_elem_of_nil|done].
  - eapply Forall_impl; [|exact Hcs]. intros [k r] [Hk Hr].
    apply (section_printable _ 244); [by apply line_text_lit|vm_compute; lia|done|done].
  - eapply Forall_impl; [|exact Hus]. intros [k r] [Hk Hr].
    apply (section_printable _ 250); [by apply line_text_lit|vm_compute; lia|done|done].
Qed.

Lemma run_printed c : printable_config c → fst (run (empty_config, None) (config_lines c)) = c.
Proof.
  intros [[Hlc Hlu] Hg Hcs Hus]. destruct c as [g cs us]. unfold config_lines.
  cbn [global connection_rules user_rules] in *. rewrite !run_app.
  pose proof (run_global [] [] g Hg) as E1. change (AclConfig None [] []) with empty_config in E1.
  destruct (run (empty_config, None) _) as [c1 cur1]. cbn [fst] in E1. subst c1.
  pose proof (run_connections g [] cs [] cur1 Hlc Hcs) as E2.
  destruct (run (AclConfig g [] [], cur1) _) as [c2 cur2]. cbn [fst] in E2. subst c2.
  apply (run_users g cs []); done.
Qed.

(** A configuration survives being written to a file and loaded: for every
    configuration the format can express, with up to 128 rules of each kind,
    loading what [print_config] writes gives the configuration itself,
    whatever the line buffer held before. *)
Theorem config_round_trip line c :
  printable_config c → guac_ssh_acl_load_config line (Some (print_config c)) = Some c.
Proof.
  intros Hc. unfold guac_ssh_acl_load_config. rewrite load_loop_steps by lia.
  unfold print_config. rewrite file_lines_printed by (by apply config_printable || lia).
  f_equal. apply run_printed, Hc.
Qed.

Definition sample_config : guac_ssh_acl_config :=
  AclConfig (Some (AclRule (Some (lit "sudo, rm -rf")) None GUAC_SSH_ACL_DEFAULT_MESSAGE))
    [(lit "db1:root", AclRule None (Some (lit "ls,cat")) (lit "read only"))]
    [(lit "guest", create_rule)].

Lemma sample_value_ok s :
  bool_decide (line_text (lit s)) = true → lit s ≠ [] → trim (lit s) = lit s → (length (lit s) ≤ 4078)%nat → value_ok (lit s).
Proof.
  intros H1 H3 H4 H5. split_and!; [by apply line_text_lit|done| |done].
  rewrite <-H4. by destruct (trim_split (lit s)) as (a & b & _ & _ & _ & ? & _).
Qed.

Lemma config_round_trip_witness :
  printable_config sample_config ∧
  guac_ssh_acl_load_config (replicate 3 x41) (Some (print_config sample_config))
  = Some sample_config.
Proof.
  assert (H : printable_config sample_config).
  { split.
    - split; vm_compute; lia.
    - intros r [= <-]. split_and!; [|done|by left].
      intros v [= <-]. apply (sample_value_ok "sudo, rm -rf"); [done..|vm_compute; lia].
    - apply Forall_singleton. split.
      + split_and!; [by apply line_text_lit|by apply (bool_decide_unpack _); vm_compute|vm_compute; lia].
      + split_and!; [done| |right].
        * intros v [= <-]. apply (sample_value_ok "ls,cat"); [done..|vm_compute; lia].
        * apply (sample_value_ok "read only"); [done..|vm_compute; lia].
    - apply Forall_singleton. split.
      + split_and!; [by apply line_text_lit|by apply (bool_decide_unpack _); vm_compute|vm_compute; lia].
      + split_and!; [done|done|by left]. }
  split; [exact H|]. exact (config_round_trip (replicate 3 x41) sample_config H).
Defined.

(** ** The rule of a connection *)

Lemma find_index_Some {A} (f : A → bool) l i :
  find_index f l = Some i ↔
  (∃ x, l !! i = Some x ∧ f x = true) ∧ ∀ j x, (j < i)%nat → l !! j = Some x → f x = false.
Proof.
  revert i. induction l as [|a l IH]; intros i; cbn [find_index].
  { split; [done|]. intros [(x & Hx & _) _]. by rewrite lookup_nil in Hx. }
  destruct (f a) eqn:Ea.
  - split.
    + intros [= <-]. split; [by exists a|lia].
    + intros [_ Hlt]. destruct i as [|i]; [done|].
      specialize (Hlt 0%nat a ltac:(lia) eq_refl). congruence.
  - rewrite fmap_Some. split.
    + intros (k & Hk & ->). apply IH in Hk as [Hx Hlt]. split; [done|].
      intros [|j] x Hj; [by intros [= <-]|]. apply Hlt. lia.
    + intros [(x & Hx & Hfx) Hlt]. destruct i as [|i]; [cbn in Hx; congruence|].
      exists i. split; [|done]. apply IH. split; [by exists x|].
      intros j y Hj Hy. apply (Hlt (S j) y); [lia|done].
Qed.

Lemma find_index_None {A} (f : A → bool) l :
  find_index f l = None ↔ ∀ j x, l !! j = Some x → f x = false.
Proof.
  induction l as [|a l IH]; cbn [find_index].
  { split; [intros _ j x; by rewrite lookup_nil|done]. }
  destruct (f a) eqn:Ea.
  - split; [done|]. intros H. specialize (H 0%nat a eq_refl). congruence.
  - rewrite fmap_None, IH. split.
    + intros H [|j] x; [by intros [= <-]|apply H].
    + intros H j x. apply (H (S j) x).
Qed.

(** The [i]th entry is the first whose key satisfies [P]; no entry's key does. *)

Definition first_entry (P : list byte → Prop) (l : list (list byte * guac_ssh_acl_rule)) (i : nat) : Prop :=
  (∃ k r, l !! i = Some (k, r) ∧ P k) ∧ ∀ j k r, (j < i)%nat → l !! j = Some (k, r) → ¬ P k.

Definition no_entry (P : list byte → Prop) (l : list (list byte * guac_ssh_acl_rule)) : Prop :=
  ∀ j k r, l !! j = Some (k, r) → ¬ P k.

(** The keys looked for, [None] when an argument they need is [NULL]. *)

Definition exact_key (hostname ssh_username : option (list byte)) : option (list byte) :=
  h ← hostname; u ← ssh_username; Some (connection_key h u).

Definition is_key (key : option (list byte)) (k : list byte) : Prop := key = Some k.
Definition is_host_key (hostname : option (list byte)) (k : list byte) : Prop :=
  hostname = Some k ∧ x3a ∉ k.

(** The order of priority. *)

Inductive selects (c : guac_ssh_acl_config) (user host ssh : option (list byte)) :
    option rule_ref → Prop :=
  | select_user i :
      first_entry (is_key user) (user_rules c) i →
      selects c user host ssh (Some (RUser i))
  | select_connection i :
      no_entry (is_key user) (user_rules c) →
      first_entry (is_key (exact_key host ssh)) (connection_rules c) i →
      selects c user host ssh (Some (RConnection i))
  | select_host i :
      no_entry (is_key user) (user_rules c) →
      no_entry (is_key (exact_key host ssh)) (connection_rules c) →
      first_entry (is_host_key host) (connection_rules c) i →
      selects c user host ssh (Some (RConnection i))
  | select_global :
      no_entry (is_key user) (user_rules c) →
      no_entry (is_key (exact_key host ssh)) (connection_rules c) →
      no_entry (is_host_key host) (connection_rules c) →
      selects c user host ssh ((λ _, RGlobal) <$> global c).

Lemma find_index_entry f (P : list byte → Prop) l :
  (∀ k r, f (k, r) = true ↔ P k) →
  match find_index f l with
  | Some i => first_entry P l i
  | None => no_entry P l
  end.
Proof.
  intros HP. assert (Hn : ∀ k r, f (k, r) = false → ¬ P k).
  { intros k r Hf Hp. apply (HP k r) in Hp. congruence. }
  destruct (find_index f l) as [i|] eqn:E.
  - apply find_index_Some in E as [([k r] & Hx & Hf) Hlt]. split.
    + exists k, r. split; [done|]. by apply HP in Hf.
    + intros j k' r' Hj Hl. by apply (Hn k' r'), (Hlt j).
  - rewrite find_index_None in E. intros j k r Hl. apply (Hn k r), (E j), Hl.
Qed.

Lemma find_entry_option (key : option (list byte)) (ref : nat → rule_ref) l :
  match key ≫= λ k, ref <$> find_index (λ r, bool_decide (fst r = k)) l with
  | Some x => ∃ i, x = ref i ∧ first_entry (is_key key) l i
  | None => no_entry (is_key key) l
  end.
Proof.
  destruct key as [k|]; cbn; [|by intros j k r _].
  assert (Hk : ∀ k' (r : guac_ssh_acl_rule),
            bool_decide (fst (k', r) = k) = true ↔ is_key (Some k) k').
  { intros k' r. rewrite bool_decide_eq_true. cbn. unfold is_key. split; congruence. }
  pose proof (find_index_entry (λ r, bool_decide (fst r = k)) (is_key (Some k)) l Hk) as H.
  destruct (find_index _ l) as [i|]; [by exists i|done].
Qed.

(** The rule of a connection is selected by priority: the first rule of the
    Guacamole user; without one the first rule whose key is
    ["hostname:sshusername"]; without one the first rule whose key is the
    hostname alone; without one the global rule, if there is one.  A [NULL]
    user, hostname or SSH username matches nothing. *)
Theorem get_rule_priority c user host ssh :
  selects c user host ssh (guac_ssh_acl_get_rule (Some c) user host ssh).
Proof.
  unfold guac_ssh_acl_get_rule, find_user, find_connection, find_host.
  pose proof (find_entry_option user RUser (user_rules c)) as Hu.
  destruct (user ≫= _) as [r|]; [destruct Hu as (i & -> & Hi); by apply select_user|].
  pose proof (find_entry_option (exact_key host ssh) RConnection (connection_rules c)) as Hc.
  unfold exact_key in Hc at 1. destruct host as [h|]; cbn [mbind option_bind] in Hc; last first.
  { by apply select_global; [..|intros j k r _ []]. }
  replace (ssh ≫= λ u, Some (connection_key h u)) with (connection_key h <$> ssh) in Hc
    by (by destruct ssh).
  replace (ssh ≫= λ u, RConnection <$> find_index (λ r, bool_decide (fst r = connection_key h u))
                                         (connection_rules c))
    with ((connection_key h <$> ssh) ≫= λ k, RConnection <$> find_index
            (λ r, bool_decide (fst r = k)) (connection_rules c)) by (by destruct ssh).
  destruct (_ ≫= _) as [r|]; [destruct Hc as (i & -> & Hi); by apply select_connection|].
  assert (Hk : ∀ k (r : guac_ssh_acl_rule),
            bool_decide (strchr (fst (k, r)) x3a = None) && bool_decide (fst (k, r) = h) = true
            ↔ is_host_key (Some h) k).
  { intros k r. rewrite andb_true_iff, !bool_decide_eq_true, strchr_None. cbn.
    unfold is_host_key. split; [intros [? ->]|intros [[= ->] ?]]; done. }
  pose proof (find_index_entry
    (λ r, bool_decide (strchr (fst r) x3a = None) && bool_decide (fst r = h))
    _ (connection_rules c) Hk) as Hh.
  destruct (find_index _ _) as [i|]; cbn [fmap option_fmap option_map]; [by apply select_host|].
  by apply select_global.
Qed.

(** ** Checking a command *)

(** The patterns of a list: its fields between commas, trimmed, but the empty ones. *)

Definition patterns (l : list byte) : list (list byte) :=
  filter (λ p, p ≠ []) (trim <$> split_on comma l).

Lemma patterns_comma s : patterns (comma :: s) = patterns s.
Proof. unfold patterns. cbn [split_on]. by rewrite decide_True. Qed.

Lemma patterns_commas n s : patterns (replicate n comma ++ s) = patterns s.
Proof. induction n as [|n IH]; [done|]. cbn [replicate app]. by rewrite patterns_comma. Qed.

Lemma patterns_field t r :
  comma ∉ t →
  patterns (t ++ comma :: r) = (if decide (trim t = []) then [] else [trim t]) ++ patterns r.
Proof.
  intros Ht. unfold patterns. rewrite split_on_app by done. cbn [fmap list_fmap].
  rewrite filter_cons. destruct (decide (trim t = [])) as [E|E].
  - by rewrite decide_False by (intros H; by apply H).
  - by rewrite decide_True by done.
Qed.

Lemma patterns_last t :
  comma ∉ t → patterns t = (if decide (trim t = []) then [] else [trim t]).
Proof.
  intros Ht. unfold patterns. rewrite split_on_none by done. cbn [fmap list_fmap].
  rewrite filter_cons. destruct (decide (trim t = [])) as [E|E].
  - by rewrite decide_False by (intros H; by apply H).
  - by rewrite decide_True by done.
Qed.


Definition found (m : option (list byte * nat)) : option (list byte) :=
  (λ r, str_at (fst r) (snd r)) <$> m.

(** One token, trimmed and tested in memory; the loop goes on behind it. *)

Lemma match_token fuel cmd pre t post rest ps :
  no_nul t →
  (∀ t', length t' = length t →
     found (match_tokens fuel cmd (pre ++ t' ++ x00 :: post) rest) = find (strstr_b cmd) ps) →
  found (let '(mem, pattern) := trim_whitespace (pre ++ t ++ x00 :: post) (length pre) in
         if negb (bool_decide (mem_at mem pattern = x00))
            && command_matches_pattern cmd (str_at mem pattern)
         then Some (mem, pattern)
         else match_tokens fuel cmd mem rest)
  = find (strstr_b cmd) ((if decide (trim t = []) then [] else [trim t]) ++ ps).
Proof.
  intros Ht Hrest. destruct (trim_whitespace_str pre t post Ht) as (p & t' & -> & Ep & El & _).
  specialize (Hrest t' El). unfold command_matches_pattern. rewrite Ep.
  destruct (decide (trim t = [])) as [E|E].
  - rewrite bool_decide_true by (by apply mem_at_nul_str; rewrite Ep). done.
  - rewrite bool_decide_false by (by rewrite mem_at_nul_str, Ep). cbn [negb andb app find].
    destruct (strstr_b cmd (trim t)); [|done]. unfold found. cbn [fmap option_fmap option_map fst snd].
    by rewrite Ep.
Qed.

(** The loop over the tokens finds the first pattern that occurs in the command. *)

Lemma match_tokens_spec fuel cmd pre s post :
  no_nul s → (length s < fuel)%nat →
  found (match_tokens fuel cmd (pre ++ s ++ x00 :: post) (length pre))
  = find (strstr_b cmd) (patterns s).
Proof.
  revert pre s post. induction fuel as [|fuel IH]; intros pre s post Hs Hf; [lia|].
  cbn [match_tokens].
  destruct (strtok_spec comma pre s post Hs ltac:(done)) as [n E|n t E Hne Hc|n t r E Hne Hc].
  - subst s. rewrite <-(app_nil_r (replicate n comma)), patterns_commas. done.
  - subst s. apply no_nul_app in Hs as [_ Ht]. rewrite patterns_commas, patterns_last by done.
    rewrite <-(app_nil_r (if decide _ then _ else _)).
    replace (pre ++ (replicate n comma ++ t) ++ x00 :: post)
      with ((pre ++ replicate n comma) ++ t ++ x00 :: post) by (by napp).
    replace (length pre + n)%nat with (length (pre ++ replicate n comma))
      by (rewrite length_app, length_replicate; lia).
    apply match_token; [done|]. intros t' El. rewrite <-El, app_assoc, <-length_app.
    apply (IH _ [] post); [constructor|]. destruct t; [done|].
    rewrite length_app in Hf. cbn in *. lia.
  - subst s. apply no_nul_app in Hs as [_ [Ht [_ Hr]%no_nul_cons]%no_nul_app].
    rewrite patterns_commas, patterns_field by done. rewrite app_assoc.
    replace (length pre + n)%nat with (length (pre ++ replicate n comma))
      by (rewrite length_app, length_replicate; lia).
    apply match_token; [done|]. intros t' El.
    replace ((pre ++ replicate n comma) ++ t' ++ x00 :: r ++ x00 :: post)
      with (((pre ++ replicate n comma) ++ t' ++ [x00]) ++ r ++ x00 :: post) by (by napp).
    replace (S (length (pre ++ replicate n comma) + length t))
      with (length ((pre ++ replicate n comma) ++ t' ++ [x00]))
      by (rewrite !length_app; cbn; lia).
    apply IH; [done|]. rewrite !length_app in Hf. cbn in Hf. lia.
Qed.

Lemma match_list_spec cmd l :
  no_nul l → found (match_list cmd l) = find (strstr_b cmd) (patterns l).
Proof. intros. apply (match_tokens_spec _ cmd [] l []); [done|lia]. Qed.

Lemma match_list_Some cmd l m :
  no_nul l → match_list cmd l = Some m → ∃ p, p ∈ patterns l ∧ occurs p cmd.
Proof.
  intros Hl E. pose proof (match_list_spec cmd l Hl) as H. rewrite E in H. symmetry in H.
  apply find_some in H as [Hin Hp]. eexists. split; [by apply list_elem_of_In|].
  by apply strstr_b_true.
Qed.

Lemma match_list_None cmd l :
  no_nul l → match_list cmd l = None → ∀ p, p ∈ patterns l → ¬ occurs p cmd.
Proof.
  intros Hl E p Hin%list_elem_of_In Hp. pose proof (match_list_spec cmd l Hl) as H.
  rewrite E in H. symmetry in H. eapply find_none in H; [|exact Hin].
  apply strstr_b_true in Hp. congruence.
Qed.

(** What counts as a definition in a command with no white space around it. *)

Definition definition (cmd : list byte) : Prop :=
  lit "alias " `prefix_of` cmd ∨ occurs (lit "function ") cmd ∨ occurs (lit "() {") cmd
  ∨ lit "source " `prefix_of` cmd ∨ (lit ". " `prefix_of` cmd ∧ cmd !! 2%nat ≠ Some x2e).

Lemma definition_spec cmd :
  trimmed cmd → is_alias_or_function_definition cmd = true ↔ definition cmd.
Proof.
  intros [Hh _]. unfold is_alias_or_function_definition, definition.
  assert (E2 : mem_at cmd 2 = x2e ↔ cmd !! 2%nat = Some x2e).
  { unfold mem_at. rewrite nth_lookup. by destruct (cmd !! 2%nat); cbn; [split; congruence|]. }
  destruct cmd as [|c cmd].
  { split; [done|]. unfold occurs. intros [[]|[(a & b & E)|[(a & b & E)|[[]|[[] _]]]]];
      try done; by destruct a. }
  rewrite drop_spaces_id by done. unfold starts_with.
  rewrite !orb_true_iff, andb_true_iff, negb_true_iff, bool_decide_eq_false, E2.
  rewrite !strncmp_prefix, !strstr_b_true. tauto.
Qed.

(** The rule refuses the command. *)

Definition refused (rule : guac_ssh_acl_rule) (cmd : list byte) : Prop :=
  definition cmd ∨
  (∃ l p, blacklist rule = Some l ∧ p ∈ patterns l ∧ occurs p cmd) ∨
  (∃ l, whitelist rule = Some l ∧ l ≠ [] ∧ ∀ p, p ∈ patterns l → ¬ occurs p cmd).

(** The strings of a rule are C strings. *)

Definition rule_strings (r : guac_ssh_acl_rule) : Prop :=
  (∀ l, blacklist r = Some l → no_nul l) ∧ (∀ l, whitelist r = Some l → no_nul l).

Lemma list_given_Some o l : list_given o = Some l ↔ o = Some l ∧ l ≠ [].
Proof.
  destruct o as [[|c r]|]; cbn; (split; [|intros [[= <-] ?]]); try done; by intros [= <-].
Qed.

Lemma list_given_None o : list_given o = None ↔ ∀ l, o = Some l → l = [].
Proof. destruct o as [[|c r]|]; cbn; naive_solver. Qed.

Lemma check_whitelist_spec rule cmd client :
  rule_strings rule →
  fst (check_whitelist rule cmd client) = true ↔
  ¬ ∃ l, whitelist rule = Some l ∧ l ≠ [] ∧ ∀ p, p ∈ patterns l → ¬ occurs p cmd.
Proof.
  intros [_ Hw]. unfold check_whitelist. destruct (list_given (whitelist rule)) as [l|] eqn:E.
  - apply list_given_Some in E as [E Hl]. destruct (match_list cmd l) as [m|] eqn:Em.
    + split; [|done]. intros _ (l' & E' & _ & H). rewrite E in E'. injection E' as <-.
      destruct (match_list_Some cmd l m (Hw l E) Em) as (p & Hin & Hp). by apply (H p).
    + split; [done|]. intros []. exists l. split_and!; [done|done|].
      by apply match_list_None; [apply Hw|].
  - split; [|done]. intros _ (l & E' & Hl & _). rewrite list_given_None in E. by apply Hl, E.
Qed.

Lemma check_lists_spec rule cmd client :
  rule_strings rule →
  fst (check_lists rule cmd client) = true ↔
  ¬ (∃ l p, blacklist rule = Some l ∧ p ∈ patterns l ∧ occurs p cmd) ∧
  ¬ ∃ l, whitelist rule = Some l ∧ l ≠ [] ∧ ∀ p, p ∈ patterns l → ¬ occurs p cmd.
Proof.
  intros Hr. unfold check_lists. destruct (list_given (blacklist rule)) as [l|] eqn:E.
  - apply list_given_Some in E as [E Hl]. pose proof (proj1 Hr l E) as Hn.
    destruct (match_list cmd l) as [[mem p]|] eqn:Em.
    + split; [done|]. intros [[] _].
      destruct (match_list_Some cmd l _ Hn Em) as (q & Hin & Hq). by exists l, q.
    + rewrite check_whitelist_spec by done. split; [|by intros []]. intros H. split; [|done].
      intros (l' & p & E' & Hin & Hp). rewrite E in E'. injection E' as <-.
      by apply (match_list_None cmd l Hn Em p).
  - rewrite check_whitelist_spec by done. split; [|by intros []]. intros H. split; [|done].
    intros (l & p & E' & Hin & Hp). rewrite list_given_None in E. rewrite (E l E') in Hin.
    by apply elem_of_nil in Hin.
Qed.

Lemma check_command_cases rule command client :
  no_nul command →
  guac_ssh_acl_check_command (Some rule) (Some command) client
  = let cmd := trim (strncpy_term command COMMAND_COPY_SIZE) in
    match cmd with
    | [] => (true, [])
    | _ => if is_alias_or_function_definition cmd
           then (false, if client then [LogDefinition cmd] else [])
           else check_lists rule cmd client
    end.
Proof.
  intros Hc. unfold guac_ssh_acl_check_command. cbv zeta.
  assert (Hn : no_nul (strncpy_term command COMMAND_COPY_SIZE)) by (by apply no_nul_take).
  destruct (trim_whitespace_str [] _ [] Hn) as (p & s & Hw & Ep & _).
  cbn [app length] in Hw, Ep. by rewrite Hw, Ep.
Qed.

Lemma check_command_core rule command client :
  rule_strings rule → no_nul command →
  let cmd := trim (strncpy_term command COMMAND_COPY_SIZE) in
  fst (guac_ssh_acl_check_command (Some rule) (Some command) client) = true
  ↔ cmd = [] ∨ ¬ refused rule cmd.
Proof.
  intros Hr Hc cmd. rewrite check_command_cases by done. fold cmd.
  assert (Ht : trimmed cmd) by (by destruct (trim_split (strncpy_term command COMMAND_COPY_SIZE))
    as (a & b & _ & _ & _ & ? & _)).
  clearbody cmd. cbv zeta. pose proof (definition_spec cmd Ht) as Hd. unfold refused.
  destruct cmd as [|c cmd]; [split; [by left|done]|].
  destruct (is_alias_or_function_definition (c :: cmd)).
  - split; [done|]. intros [?|H]; [done|]. destruct H. left. by apply Hd.
  - rewrite check_lists_spec by done.
    assert (¬ definition (c :: cmd)) by (intros H%Hd; done). split.
    + intros [Hb Hw]. right. intros [?|[?|?]]; [done|by apply Hb|by apply Hw].
    + intros [?|H']; [done|]. split; intros ?; apply H'; [right; by left|by right; right].
Qed.

(** C38.  A command is refused for exactly three reasons.  With [cmd] the first
    8191 bytes of the command without the white space around them, the check
    lets the command through if and only if [cmd] is empty or [cmd] is neither
    a definition, nor contains a pattern of the blacklist, nor fails to contain
    any pattern of a whitelist that is not empty; the patterns of a list are
    its fields between commas, without the white space around them and without
    the empty ones. *)
Theorem check_command_spec rule command client :
  rule_strings rule → no_nul command →
  let cmd := trim (strncpy_term command COMMAND_COPY_SIZE) in
  fst (guac_ssh_acl_check_command (Some rule) (Some command) client) = true
  ↔ cmd = [] ∨ ¬ refused rule cmd.
Proof. apply check_command_core. Qed.

Lemma check_command_spec_witness :
  rule_strings (AclRule (Some (lit " sudo ,, rm")) (Some (lit "ls, cat")) []) ∧
  no_nul (lit "  cat /etc/hosts ") ∧
  ¬ refused (AclRule (Some (lit " sudo ,, rm")) (Some (lit "ls, cat")) [])
      (trim (strncpy_term (lit "  cat /etc/hosts ") COMMAND_COPY_SIZE)).
Proof.
  assert (H1 : rule_strings (AclRule (Some (lit " sudo ,, rm")) (Some (lit "ls, cat")) [])).
  { split; intros l [= <-]; apply (bool_decide_unpack _); by vm_compute. }
  assert (H2 : no_nul (lit "  cat /etc/hosts ")) by (apply (bool_decide_unpack _); by vm_compute).
  split_and!; [apply H1..|exact H2|].
  destruct (proj1 (check_command_spec _ _ false H1 H2) ltac:(by vm_compute)) as [E|H]; [|exact H].
  vm_compute in E. discriminate E.
Defined.

(** What is logged when the blacklist blocks a command: the message is
    formatted with the pattern found in the copy of the blacklist after that
    copy has been freed.  Every such message therefore reads memory that is no
    longer allocated. *)
Theorem blacklist_log_reads_freed_memory rule command cmd pattern :
  LogBlacklist cmd pattern ∈ snd (guac_ssh_acl_check_command (Some rule) (Some command) true) →
  pattern = None.
Proof.
  unfold guac_ssh_acl_check_command, check_lists, check_whitelist.
  destruct (trim_whitespace _ _) as [mem p].
  repeat match goal with
  | |- context [match ?x with _ => _ end] => destruct x
  | |- LogBlacklist _ _ ∈ snd (_, _) → _ => cbn [snd]
  end; try (by intros []%elem_of_nil); rewrite list_elem_of_singleton; by intros [= _ <-] || intros [=].
Qed.

Lemma blacklist_log_reads_freed_memory_witness :
  LogBlacklist (lit "sudo reboot") None
    ∈ snd (guac_ssh_acl_check_command
             (Some (AclRule (Some (lit "sudo")) None [])) (Some (lit "sudo reboot")) true) ∧
  ∀ pattern, LogBlacklist (lit "sudo reboot") pattern
    ∈ snd (guac_ssh_acl_check_command
             (Some (AclRule (Some (lit "sudo")) None [])) (Some (lit "sudo reboot")) true) →
  pattern = None.
Proof.
  split.
  - vm_compute. apply list_elem_of_here.
  - intros pattern H. exact (blacklist_log_reads_freed_memory _ _ _ pattern H).
Defined.

(** Definitions are always blocked, the documentation of the configuration
    file says; the check recognises some spellings of them only.  Under a rule
    without lists an alias defined with a tab, by way of a builtin or in the
    second command of a line, a function without a space before its body, and a
    file sourced with a tab all pass, while a command that only mentions the
    word "function" is refused. *)
Theorem definitions_can_pass client :
  (λ command, fst (guac_ssh_acl_check_command (Some create_rule) (Some command) client)) <$>
    [ lit "alias ls=rm"; lit "alias" ++ [x09] ++ lit "ls=rm"; lit "builtin alias ls=rm";
      lit "true; alias ls=rm"; lit "f() { rm; }"; lit "f(){ rm; }"; lit "source x";
      lit "source" ++ [x09] ++ lit "x"; lit "man function x" ]
  = [false; true; true; true; false; true; false; true; false].
Proof. destruct client; by vm_compute. Qed.

(** A section header that names no section, or a 129th rule of a kind, does
    not end the section before it: the settings that follow are written over
    those of the rule that was being filled in. *)
Theorem unknown_section_keeps_rule c r name key value :
  name ≠ lit "global" →
  (starts_with name (lit "connection:") = true →
   length (connection_rules c) = GUAC_SSH_ACL_MAX_RULES) →
  (starts_with name (lit "user:") = true → length (user_rules c) = GUAC_SSH_ACL_MAX_RULES) →
  foldl acl_step (c, Some r) [LSection name; LSetting key value]
  = assign_key (c, Some r) r key value.
Proof.
  intros Hg Hc Hu. cbn [foldl acl_step]. unfold open_section. rewrite decide_False by done.
  destruct (starts_with name (lit "connection:")).
  - rewrite Hc by done. by rewrite Nat.ltb_irrefl.
  - destruct (starts_with name (lit "user:")); [|done].
    rewrite Hu by done. by rewrite Nat.ltb_irrefl.
Qed.

(** The line buffer and the file of the witness: the third section is misspelt, and its whitelist
    becomes that of the user before. *)

Definition misspelt_file : list byte :=
  lit "[user:admin]" ++ [newline] ++ lit "blacklist=shutdown" ++ [newline] ++
  lit "[usr:guest]" ++ [newline] ++ lit "whitelist=ls" ++ [newline].

Lemma unknown_section_keeps_rule_witness :
  (lit "usr:guest" ≠ lit "global" ∧
   foldl acl_step (AclConfig None [] [(lit "admin", create_rule)], Some (RUser 0))
     [LSection (lit "usr:guest"); LSetting (lit "whitelist") (lit "ls")]
   = assign_key (AclConfig None [] [(lit "admin", create_rule)], Some (RUser 0)) (RUser 0)
       (lit "whitelist") (lit "ls")) ∧
  guac_ssh_acl_load_config [] (Some misspelt_file)
  = Some (AclConfig None [] [(lit "admin", AclRule (Some (lit "shutdown")) (Some (lit "ls"))
                                             GUAC_SSH_ACL_DEFAULT_MESSAGE)]).
Proof.
  split; [split; [done|]|by vm_compute].
  apply (unknown_section_keeps_rule (AclConfig None [] [(lit "admin", create_rule)]) (RUser 0)
           (lit "usr:guest") (lit "whitelist") (lit "ls")); done.
Defined.
