(* ===== verification/SshInput.v ===== *)
(** * The input thread of the SSH server: commands are checked as they are typed

    [ssh_input_thread] of [protocols/ssh/ssh.c] reads what the user types and
    passes it to the SSH channel at once, so that the remote side can echo it.
    When a rule applies it also collects the bytes of the line; on Enter it
    checks the line, and either passes the Enter on, or erases what the remote
    side has on its line, byte by byte, and shows the message of the rule.

    The remote side is not part of the program: it is an interface
    ([LineEditor]) with the documented behaviour of a terminal in its plain
    mode ([LawfulLineEditor]): a printable character goes to the end of the
    line, backspace and delete take the last one away, and a line end executes
    the line.  What the thread guarantees is proved against the interface.

    Locks, the result of [libssh2_channel_write] (which the code ignores) and
    the end of the thread are not modelled; the chunks that [read] returns are
    given as a list. *)

From S2P Require Import Prelude CString CommandAcl CommandAclSpec.

(** ** The thread *)

Inductive input_event :=
  | ChannelWrite (data : list byte)
  | TerminalWrite (data : list byte)
  | AclLog (entry : acl_log)
  | LogBlocked (command : list byte).

(** [sizeof (command_buffer)] *)

Definition COMMAND_BUFFER_SIZE : nat := Z.to_nat 8192.

Lemma COMMAND_SIZES :
  Z.of_nat COMMAND_BUFFER_SIZE = 8192%Z ∧ Z.of_nat COMMAND_COPY_SIZE = 8192%Z.
Proof. split; [apply Z2Nat.id; lia|apply COMMAND_COPY_SIZE_value]. Qed.

#[global] Opaque COMMAND_BUFFER_SIZE.

Definition backspace_seq : list byte := [x08; x20; x08].
Definition crlf : list byte := [x0d; x0a].

(** The end of a line: [command_buffer] holds the bytes collected and zeros behind them, so the
    string it holds ends with them or at a [NUL] among them. *)

Definition blocked_events (rule : guac_ssh_acl_rule) (command : list byte) : list input_event :=
  replicate (length command) (ChannelWrite backspace_seq)
  ++ [ChannelWrite crlf; TerminalWrite (blocked_message rule); LogBlocked (c_str command)].

Definition finish_command (rule : guac_ssh_acl_rule) (command : list byte) (c : byte)
    : list byte * list input_event :=
  let '(allowed, log) :=
    match command with
    | [] => (true, [])
    | _ => guac_ssh_acl_check_command (Some rule) (Some (c_str command)) true
    end in
  ([], (AclLog <$> log) ++ (if allowed then [ChannelWrite [c]] else blocked_events rule command)).

Definition input_char (rule : guac_ssh_acl_rule) (command : list byte) (c : byte)
    : list byte * list input_event :=
  if decide (c = x0d ∨ c = x0a) then finish_command rule command c
  else if decide (c = x7f ∨ c = x08) then
    (take (length command - 1) command, [ChannelWrite [c]])
  else
    (if (length command <? COMMAND_BUFFER_SIZE - 1)%nat then command ++ [c] else command,
     [ChannelWrite [c]]).

Fixpoint input_chars (rule : guac_ssh_acl_rule) (command buffer : list byte)
    : list byte * list input_event :=
  match buffer with
  | [] => (command, [])
  | c :: buffer' =>
      let '(command, ev) := input_char rule command c in
      let '(command, evs) := input_chars rule command buffer' in
      (command, ev ++ evs)
  end.

(** The loop over the chunks read; [rule] is [settings->acl_rule]. *)

Fixpoint input_loop (rule : option guac_ssh_acl_rule) (command : list byte)
    (chunks : list (list byte)) : list input_event :=
  match chunks with
  | [] => []
  | buffer :: chunks' =>
      match rule with
      | Some r =>
          let '(command, ev) := input_chars r command buffer in
          ev ++ input_loop rule command chunks'
      | None => ChannelWrite buffer :: input_loop rule command chunks'
      end
  end.

Definition ssh_input_thread (rule : option guac_ssh_acl_rule) (chunks : list (list byte))
    : list input_event :=
  input_loop rule [] chunks.

(** What the remote side receives. *)

Definition channel_data (evs : list input_event) : list byte :=
  concat ((λ e, match e with ChannelWrite d => d | _ => [] end) <$> evs).

(** ** The remote side *)

Definition is_text (c : byte) : bool := ((32 <=? bz c) && (bz c <? 127))%Z.
Definition is_erase (c : byte) : bool := bool_decide (c = x7f ∨ c = x08).
Definition is_enter (c : byte) : bool := bool_decide (c = x0d ∨ c = x0a).

(** [le_feed] takes a byte and returns the lines it makes the editor execute. *)

Class LineEditor (E : Type) := {
  le_start : E;
  le_feed : E → byte → E * list (list byte);
  le_line : E → list byte
}.

Class LawfulLineEditor (E : Type) `{LineEditor E} : Prop := {
  le_start_line : le_line le_start = [];
  le_text e c :
    is_text c = true →
    le_line (fst (le_feed e c)) = le_line e ++ [c] ∧ snd (le_feed e c) = [];
  le_erase e c :
    is_erase c = true →
    le_line (fst (le_feed e c)) = take (length (le_line e) - 1) (le_line e) ∧
    snd (le_feed e c) = [];
  le_enter e c :
    is_enter c = true →
    le_line (fst (le_feed e c)) = [] ∧ snd (le_feed e c) = [le_line e]
}.

Fixpoint le_run {E} `{LineEditor E} (e : E) (data : list byte) : E * list (list byte) :=
  match data with
  | [] => (e, [])
  | c :: data' =>
      let '(e, out) := le_feed e c in
      let '(e, outs) := le_run e data' in
      (e, out ++ outs)
  end.

(** The editor of a terminal in its plain mode, its line kept from the end. *)

#[export] Instance tty : LineEditor (list byte) := {|
  le_start := [];
  le_feed l c :=
    if is_enter c then ([], [reverse l])
    else if is_erase c then (tail l, [])
    else (c :: l, []);
  le_line l := reverse l
|}.

Lemma text_is_no_key c : is_text c = true → is_enter c = false ∧ is_erase c = false ∧ c ≠ x00.
Proof.
  intros Hc. assert (H : implb (is_text c) (negb (is_enter c) && negb (is_erase c)
                                            && negb (bool_decide (c = x00))) = true)
    by (revert c Hc; intros c _; revert c; byte_check).
  rewrite Hc in H. cbn [implb] in H. rewrite !andb_true_iff, !negb_true_iff in H.
  destruct H as [[??] ?%bool_decide_eq_false]. done.
Qed.

Lemma erase_is_no_enter c : is_erase c = true → is_enter c = false.
Proof.
  intros Hc. assert (H : implb (is_erase c) (negb (is_enter c)) = true)
    by (revert c Hc; intros c _; revert c; byte_check).
  rewrite Hc in H. by apply negb_true_iff.
Qed.

#[export] Instance tty_lawful : LawfulLineEditor (list byte).
Proof.
  split; cbn [le_line le_feed le_start tty]; [done|..].
  - intros l c Hc. destruct (text_is_no_key c Hc) as (-> & -> & _). cbn [fst snd].
    by rewrite reverse_cons.
  - intros l c Hc. rewrite (erase_is_no_enter c Hc), Hc. cbn [fst snd]. split; [|done].
    destruct l as [|d l]; [done|]. cbn [tail]. rewrite reverse_cons, length_app.
    cbn [length]. by rewrite Nat.add_sub, take_app_length.
  - intros l c ->. done.
Qed.

(** ** What the user asks for

    Enters of the plain keys: text, erasing keys and line ends; and every line fits the buffer. *)

Definition is_plain (c : byte) : bool := is_text c || is_erase c || is_enter c.

Fixpoint lines_fit (n : nat) (input : list byte) : bool :=
  match input with
  | [] => true
  | c :: input' =>
      if is_enter c then lines_fit 0 input'
      else if is_erase c then lines_fit (n - 1) input'
      else (n <? COMMAND_BUFFER_SIZE - 1)%nat && lines_fit (S n) input'
  end.

(** A line that the rule lets through is executed; in the place of another one two empty lines are. *)

Definition line_allowed (rule : guac_ssh_acl_rule) (l : list byte) : bool :=
  match l with
  | [] => true
  | _ => fst (guac_ssh_acl_check_command (Some rule) (Some l) true)
  end.

Definition acl_outcome (rule : guac_ssh_acl_rule) (l : list byte) : list (list byte) :=
  if line_allowed rule l then [l] else [[]; []].

(** The lines that the editor executes on the user's behalf, each filtered by the rule. *)

Definition acl_session (rule : guac_ssh_acl_rule) (lines : list (list byte)) : list (list byte) :=
  concat (acl_outcome rule <$> lines).

(** ** The lines executed *)

Definition executed (E : Type) `{LineEditor E} (data : list byte) : list (list byte) :=
  snd (le_run (E := E) le_start data).

Lemma channel_data_app a b : channel_data (a ++ b) = channel_data a ++ channel_data b.
Proof. unfold channel_data. by rewrite fmap_app, concat_app. Qed.

Lemma channel_data_logs l : channel_data (AclLog <$> l) = [].
Proof. by induction l. Qed.

Lemma channel_data_blocked rule command :
  channel_data (blocked_events rule command)
  = concat (replicate (length command) backspace_seq) ++ crlf.
Proof.
  unfold blocked_events. rewrite channel_data_app. f_equal.
  induction (length command) as [|n IH]; [done|]. cbn [replicate]. unfold channel_data in *.
  cbn [fmap list_fmap concat]. by rewrite IH.
Qed.

Section editor.
Context {E : Type} `{HE : LineEditor E} `{!LawfulLineEditor E}.
Implicit Types (e : E) (rule : guac_ssh_acl_rule).

Lemma le_run_app e a b :
  le_run e (a ++ b)
  = (fst (le_run (fst (le_run e a)) b), snd (le_run e a) ++ snd (le_run (fst (le_run e a)) b)).
Proof.
  revert e. induction a as [|c a IH]; intros e; cbn [app le_run].
  { cbn [fst snd app]. by destruct (le_run e b). }
  destruct (le_feed e c) as [e' o]. rewrite IH. destruct (le_run e' a) as [e'' os].
  cbn [fst snd]. by rewrite app_assoc.
Qed.

Lemma le_run_cons e c b :
  le_run e (c :: b)
  = (fst (le_run (fst (le_feed e c)) b), snd (le_feed e c) ++ snd (le_run (fst (le_feed e c)) b)).
Proof.
  cbn [le_run]. destruct (le_feed e c) as [e' o]. cbn [fst snd]. by destruct (le_run e' b).
Qed.

Lemma le_run_one e c : le_run e [c] = (fst (le_feed e c), snd (le_feed e c)).
Proof. rewrite le_run_cons. cbn. by rewrite app_nil_r. Qed.

(** Backspace, space, backspace takes one byte away; as many as the line has take all of it. *)

Lemma erase_one e :
  le_line (fst (le_run e backspace_seq)) = take (length (le_line e) - 1) (le_line e) ∧
  snd (le_run e backspace_seq) = [].
Proof.
  unfold backspace_seq. rewrite !le_run_cons. cbn [le_run fst snd]. rewrite !app_nil_r.
  destruct (le_erase e x08 eq_refl) as [H1 ->].
  destruct (le_text (fst (le_feed e x08)) x20 eq_refl) as [H2 ->].
  destruct (le_erase (fst (le_feed (fst (le_feed e x08)) x20)) x08 eq_refl) as [H3 ->].
  split; [|done]. rewrite H3, H2, H1, length_app. cbn [length].
  by rewrite Nat.add_sub, take_app_length.
Qed.

Lemma erase_run n e :
  le_line (fst (le_run e (concat (replicate n backspace_seq))))
  = take (length (le_line e) - n) (le_line e) ∧
  snd (le_run e (concat (replicate n backspace_seq))) = [].
Proof.
  revert e. induction n as [|n IH]; intros e.
  - cbn [replicate concat le_run fst snd]. split; [|done]. rewrite Nat.sub_0_r.
    by rewrite firstn_all.
  - cbn [replicate concat]. rewrite le_run_app. cbn [fst snd].
    destruct (erase_one e) as [H1 ->]. destruct (IH (fst (le_run e backspace_seq))) as [H2 ->].
    split; [|done]. rewrite H2, H1, length_take, take_take. f_equal. lia.
Qed.

Lemma blocked_run rule command e :
  le_line (fst (le_run e (channel_data (blocked_events rule command)))) = [] ∧
  snd (le_run e (channel_data (blocked_events rule command)))
  = [take (length (le_line e) - length command) (le_line e); []].
Proof.
  rewrite channel_data_blocked, le_run_app. cbn [fst snd].
  destruct (erase_run (length command) e) as [H1 ->].
  set (e1 := fst (le_run e _)) in *. unfold crlf. rewrite !le_run_cons. cbn [le_run fst snd].
  destruct (le_enter e1 x0d eq_refl) as [H2 ->].
  destruct (le_enter (fst (le_feed e1 x0d)) x0a eq_refl) as [H3 ->].
  cbn [app]. by rewrite H3, H2, H1.
Qed.

(** One byte typed: what the remote side does after what the thread sends, and what it would have
    done with the byte itself. *)

Definition texts (l : list byte) : Prop := Forall (λ c, is_text c = true) l.

Lemma texts_no_nul l : texts l → no_nul l.
Proof. intros H. eapply Forall_impl; [|exact H]. intros c Hc. by apply text_is_no_key. Qed.

Lemma finish_step rule command c e e' :
  is_enter c = true → texts command → le_line e = command → le_line e' = command →
  let r := finish_command rule command c in
  let sent := le_run e (channel_data (snd r)) in
  le_line (fst sent) = [] ∧ fst r = [] ∧ le_line (fst (le_feed e' c)) = [] ∧
  snd sent = acl_session rule (snd (le_feed e' c)).
Proof.
  intros Hc Ht He He'. cbv zeta. destruct (le_enter e' c Hc) as [H1 H2]. rewrite H2, He'.
  unfold acl_session. cbn [fmap list_fmap concat]. rewrite app_nil_r.
  unfold finish_command, acl_outcome, line_allowed.
  rewrite c_str_id by (by apply texts_no_nul).
  assert (Ha : ∀ a : bool * list acl_log,
    let sent := le_run e (channel_data ((AclLog <$> snd a)
                  ++ (if fst a then [ChannelWrite [c]] else blocked_events rule command))) in
    le_line (fst sent) = [] ∧ snd sent = if fst a then [command] else [[]; []]).
  { intros [a log]. cbn [fst snd]. rewrite channel_data_app, channel_data_logs. cbn [app].
    destruct a.
    - cbn [channel_data fmap list_fmap concat app]. rewrite le_run_one. cbn [fst snd].
      destruct (le_enter e c Hc) as [-> ->]. by rewrite He.
    - destruct (blocked_run rule command e) as [-> ->]. by rewrite He, Nat.sub_diag. }
  destruct command as [|d command].
  - destruct (Ha (true, [])) as [??]. done.
  - specialize (Ha (guac_ssh_acl_check_command (Some rule) (Some (d :: command)) true)).
    destruct (guac_ssh_acl_check_command _ _ _) as [a log]. cbn [fst snd] in Ha |- *.
    by destruct Ha.
Qed.

Lemma input_char_step rule command c e e' :
  is_plain c = true → lines_fit (length command) [c] = true →
  texts command → le_line e = command → le_line e' = command →
  let r := input_char rule command c in
  let sent := le_run e (channel_data (snd r)) in
  le_line (fst sent) = fst r ∧ le_line (fst (le_feed e' c)) = fst r ∧ texts (fst r) ∧
  snd sent = acl_session rule (snd (le_feed e' c)).
Proof.
  intros Hp Hf Ht He He'. cbv zeta. unfold is_plain in Hp. unfold input_char.
  cbn [lines_fit] in Hf. destruct (is_enter c) eqn:Hc.
  { rewrite decide_True by (by apply bool_decide_eq_true in Hc).
    destruct (finish_step rule command c e e' Hc Ht He He') as (H1 & H2 & H3 & H4).
    rewrite H2. split_and!; [done|done|constructor|done]. }
  rewrite decide_False by (by apply bool_decide_eq_false in Hc).
  assert (Hw : channel_data [ChannelWrite [c]] = [c]) by done.
  destruct (is_erase c) eqn:Hb.
  - rewrite decide_True by (by apply bool_decide_eq_true in Hb). cbn [fst snd].
    rewrite Hw, le_run_one. cbn [fst snd].
    destruct (le_erase e c Hb) as [-> ->], (le_erase e' c Hb) as [-> ->]. rewrite He, He'.
    split_and!; [done|done|by apply Forall_take|done].
  - rewrite decide_False by (by apply bool_decide_eq_false in Hb). cbn [fst snd].
    rewrite !orb_false_r in Hp. apply andb_true_iff in Hf as [-> _].
    rewrite Hw, le_run_one. cbn [fst snd].
    destruct (le_text e c Hp) as [-> ->], (le_text e' c Hp) as [-> ->]. rewrite He, He'.
    split_and!; [done|done| |done]. apply Forall_app. by split; [|constructor].
Qed.

Lemma lines_fit_cons rule command c input :
  lines_fit (length command) (c :: input)
  = lines_fit (length command) [c]
    && lines_fit (length (fst (input_char rule command c))) input.
Proof.
  cbn [lines_fit]. unfold input_char, is_enter, is_erase.
  destruct (decide (c = x0d ∨ c = x0a)) as [Hc|Hc].
  { rewrite bool_decide_true by done. unfold finish_command.
    by destruct (match command with [] => _ | _ => _ end). }
  rewrite (bool_decide_false (c = x0d ∨ _)) by done.
  destruct (decide (c = x7f ∨ c = x08)) as [Hb|Hb].
  { rewrite bool_decide_true by done. cbn [fst andb]. rewrite length_take.
    by rewrite Nat.min_l by lia. }
  rewrite (bool_decide_false (c = x7f ∨ _)) by done. cbn [fst].
  destruct (_ <? _)%nat; [|done]. cbn [andb]. rewrite length_app. cbn [length].
  by rewrite Nat.add_1_r.
Qed.

Lemma lines_fit_app rule command a b :
  lines_fit (length command) (a ++ b)
  = lines_fit (length command) a && lines_fit (length (fst (input_chars rule command a))) b.
Proof.
  revert command. induction a as [|c a IH]; intros command; [done|].
  cbn [app]. rewrite (lines_fit_cons rule command c (a ++ b)), (lines_fit_cons rule command c a).
  rewrite IH, andb_assoc. cbn [input_chars].
  destruct (input_char rule command c) as [command1 ev]. cbn [fst].
  by destruct (input_chars rule command1 a).
Qed.

Lemma input_chars_run rule input command e e' :
  forallb is_plain input = true → lines_fit (length command) input = true →
  texts command → le_line e = command → le_line e' = command →
  let r := input_chars rule command input in
  let sent := le_run e (channel_data (snd r)) in
  le_line (fst sent) = fst r ∧ le_line (fst (le_run e' input)) = fst r ∧ texts (fst r) ∧
  snd sent = acl_session rule (snd (le_run e' input)).
Proof.
  revert command e e'. induction input as [|c input IH]; intros command e e' Hp Hf Ht He He'.
  { done. }
  cbn [forallb] in Hp. apply andb_true_iff in Hp as [Hc Hp].
  rewrite (lines_fit_cons rule) in Hf. apply andb_true_iff in Hf as [Hf1 Hf2].
  destruct (input_char_step rule command c e e' Hc Hf1 Ht He He') as (H1 & H2 & H3 & H4).
  cbn [input_chars]. destruct (input_char rule command c) as [command1 ev]. cbn [fst snd] in *.
  specialize (IH command1 (fst (le_run e (channel_data ev))) (fst (le_feed e' c)) Hp Hf2 H3 H1 H2).
  destruct (input_chars rule command1 input) as [command2 evs]. cbn [fst snd] in *.
  rewrite channel_data_app, le_run_app, (le_run_cons e'). cbn [fst snd].
  destruct IH as (-> & -> & ? & ->). split_and!; [done|done|done|].
  rewrite H4. unfold acl_session. by rewrite fmap_app, concat_app.
Qed.

Lemma input_loop_run rule chunks command e e' :
  forallb is_plain (concat chunks) = true → lines_fit (length command) (concat chunks) = true →
  texts command → le_line e = command → le_line e' = command →
  snd (le_run e (channel_data (input_loop (Some rule) command chunks)))
  = acl_session rule (snd (le_run e' (concat chunks))).
Proof.
  revert command e e'. induction chunks as [|b chunks IH]; intros command e e' Hp Hf Ht He He'.
  { done. }
  cbn [concat] in *. rewrite forallb_app in Hp. apply andb_true_iff in Hp as [Hb Hp].
  rewrite (lines_fit_app rule) in Hf. apply andb_true_iff in Hf as [Hf1 Hf2].
  destruct (input_chars_run rule b command e e' Hb Hf1 Ht He He') as (H1 & H2 & H3 & H4).
  cbn [input_loop]. destruct (input_chars rule command b) as [command1 ev]. cbn [fst snd] in *.
  rewrite channel_data_app, !le_run_app. cbn [fst snd]. rewrite H4.
  rewrite (IH command1 _ (fst (le_run e' b))) by done.
  unfold acl_session. by rewrite fmap_app, concat_app.
Qed.

Lemma le_run_texts e input :
  forallb is_plain input = true → texts (le_line e) → Forall texts (snd (le_run e input)).
Proof.
  revert e. induction input as [|c input IH]; intros e Hp He; [constructor|].
  cbn [forallb] in Hp. apply andb_true_iff in Hp as [Hc Hp]. rewrite le_run_cons. cbn [fst snd].
  assert (H : texts (le_line (fst (le_feed e c))) ∧ Forall texts (snd (le_feed e c))).
  { unfold is_plain in Hc. rewrite !orb_true_iff in Hc. destruct Hc as [[Hc|Hc]|Hc].
    - destruct (le_text e c Hc) as [-> ->]. split; [|constructor].
      apply Forall_app. by split; [|constructor].
    - destruct (le_erase e c Hc) as [-> ->]. split; [by apply Forall_take|constructor].
    - destruct (le_enter e c Hc) as [-> ->]. split; [constructor|by constructor]. }
  destruct H as [H1 H2]. apply Forall_app. split; [done|]. by apply IH.
Qed.

Lemma thread_run rule chunks :
  forallb is_plain (concat chunks) = true → lines_fit 0 (concat chunks) = true →
  executed E (channel_data (ssh_input_thread (Some rule) chunks))
  = acl_session rule (executed E (concat chunks)).
Proof.
  intros Hp Hf. apply input_loop_run; [done|done|constructor|apply le_start_line..].
Qed.

(** Typing text: the bytes are sent as they are, and collected as long as the buffer has room. *)

Lemma input_chars_texts rule command s :
  texts s → (length command ≤ COMMAND_BUFFER_SIZE - 1)%nat →
  input_chars rule command s
  = (command ++ take (COMMAND_BUFFER_SIZE - 1 - length command) s, (λ c, ChannelWrite [c]) <$> s).
Proof.
  intros Hs. revert command. induction Hs as [|c s Hc Hs IH]; intros command Hl.
  { cbn [input_chars fmap list_fmap]. by rewrite take_nil, app_nil_r. }
  cbn [input_chars]. unfold input_char.
  destruct (text_is_no_key c Hc) as (H1%bool_decide_eq_false & H2%bool_decide_eq_false & _).
  rewrite !decide_False by done. zif.
  - rewrite IH by (rewrite length_app; cbn; lia). rewrite length_app. cbn [length].
    replace (COMMAND_BUFFER_SIZE - 1 - length command)%nat
      with (S (COMMAND_BUFFER_SIZE - 1 - (length command + 1))) by lia.
    cbn [take]. by rewrite <-app_assoc.
  - rewrite IH by done. replace (COMMAND_BUFFER_SIZE - 1 - length command)%nat with 0%nat by lia.
    done.
Qed.

Lemma channel_data_texts s : channel_data ((λ c, ChannelWrite [c]) <$> s) = s.
Proof.
  induction s as [|c s IH]; [done|]. unfold channel_data in *. cbn [fmap list_fmap concat app].
  by rewrite IH.
Qed.

Lemma le_run_text_line e s :
  texts s → le_line (fst (le_run e s)) = le_line e ++ s ∧ snd (le_run e s) = [].
Proof.
  intros Hs. revert e. induction Hs as [|c s Hc Hs IH]; intros e.
  { cbn. by rewrite app_nil_r. }
  rewrite le_run_cons. cbn [fst snd]. destruct (le_text e c Hc) as [H1 ->].
  destruct (IH (fst (le_feed e c))) as [-> ->]. by rewrite H1, <-app_assoc.
Qed.

Lemma overlong_run rule s :
  texts s → (COMMAND_BUFFER_SIZE - 1 ≤ length s)%nat →
  line_allowed rule (take (COMMAND_BUFFER_SIZE - 1) s) = false →
  executed E (channel_data (ssh_input_thread (Some rule) [s; [x0d]]))
  = [take (length s - (COMMAND_BUFFER_SIZE - 1)) s; []].
Proof.
  intros Hs Hl Ha. unfold ssh_input_thread, executed. cbn [input_loop].
  rewrite input_chars_texts by (done || cbn; lia). cbn [length app]. rewrite Nat.sub_0_r.
  set (K := (COMMAND_BUFFER_SIZE - 1)%nat) in *. cbn [input_chars]. unfold input_char.
  rewrite decide_True by (by left). unfold finish_command. rewrite c_str_id; last first.
  { apply texts_no_nul. by apply Forall_take. }
  unfold line_allowed in Ha. destruct (take K s) as [|d r] eqn:Ek; [done|].
  destruct (guac_ssh_acl_check_command _ _ _) as [a log]. cbn [fst] in Ha. subst a.
  rewrite !app_nil_r, !channel_data_app, channel_data_texts, channel_data_logs. cbn [app].
  rewrite <-Ek, le_run_app. cbn [snd].
  destruct (le_run_text_line le_start s Hs) as [H1 ->]. rewrite le_start_line in H1.
  destruct (blocked_run rule (take K s) (fst (le_run le_start s))) as [_ ->].
  rewrite H1. cbn [app]. by rewrite length_take_le by lia.
Qed.

End editor.

(** C37.  The filter is transparent and complete for plain typing.  Whatever the
    remote editor, as long as it treats text, erasing keys and line ends the
    plain way and every line fits the command buffer: the lines executed
    are those that would have been executed had the input been sent
    directly, with each line the rule refuses replaced by two empty lines.
    How the input is cut into chunks does not matter. *)
Theorem ssh_input_filters_lines (E : Type) `{LawfulLineEditor E} rule chunks :
  forallb is_plain (concat chunks) = true → lines_fit 0 (concat chunks) = true →
  executed E (channel_data (ssh_input_thread (Some rule) chunks))
  = acl_session rule (executed E (concat chunks)).
Proof. apply thread_run. Qed.

Definition sample_rule : guac_ssh_acl_rule := AclRule (Some (lit "rm, sudo")) None (lit "no").

(** A refused command, one corrected by backspaces, and the end of the third line in a chunk of its own. *)

Definition sample_chunks : list (list byte) :=
  [lit "sudo x" ++ [x0d] ++ lit "rm" ++ [x7f; x08] ++ lit "l"; lit "s" ++ [x0d] ++ lit "w"; [x0a]].

Lemma ssh_input_filters_lines_witness :
  forallb is_plain (concat sample_chunks) = true ∧ lines_fit 0 (concat sample_chunks) = true ∧
  executed (list byte) (channel_data (ssh_input_thread (Some sample_rule) sample_chunks))
  = [[]; []; lit "ls"; lit "w"].
Proof.
  assert (H1 : forallb is_plain (concat sample_chunks) = true) by (vm_compute; reflexivity).
  assert (H2 : lines_fit 0 (concat sample_chunks) = true) by (vm_compute; reflexivity).
  split; [exact H1|]. split; [exact H2|].
  rewrite (ssh_input_filters_lines (list byte) sample_rule sample_chunks H1 H2).
  vm_compute. reflexivity.
Defined.

(** No refused command is executed: under the same conditions every line
    that the remote editor executes is blank or is one that the rule does not
    refuse. *)
Theorem ssh_input_executes_allowed (E : Type) `{LawfulLineEditor E} rule chunks :
  rule_strings rule →
  forallb is_plain (concat chunks) = true → lines_fit 0 (concat chunks) = true →
  ∀ l, l ∈ executed E (channel_data (ssh_input_thread (Some rule) chunks)) →
    trim (strncpy_term l COMMAND_COPY_SIZE) = [] ∨ ¬ refused rule (trim (strncpy_term l COMMAND_COPY_SIZE)).
Proof.
  intros Hr Hp Hf l Hl. rewrite thread_run in Hl by done.
  unfold acl_session in Hl. apply list_elem_of_In, in_concat in Hl as (o & Ho & Hl).
  apply in_map_iff in Ho as (k & <- & Hk). unfold acl_outcome in Hl.
  assert (Hn : no_nul k).
  { assert (Ht : Forall texts (executed E (concat chunks))).
    { apply le_run_texts; [done|]. rewrite le_start_line. constructor. }
    apply texts_no_nul. rewrite Forall_forall in Ht. by apply Ht. }
  assert (Hnil : trim (strncpy_term [] COMMAND_COPY_SIZE) = [])
    by (unfold strncpy_term; rewrite take_nil; reflexivity).
  destruct (line_allowed rule k) eqn:Ha.
  - destruct Hl as [<-|[]]. destruct k as [|c k]; [left; exact Hnil|].
    pose proof (check_command_core rule (c :: k) true Hr Hn) as Hspec. cbv zeta in Hspec.
    apply Hspec. unfold line_allowed in Ha. exact Ha.
  - destruct Hl as [<-|[<-|[]]]; left; exact Hnil.
Qed.

Lemma ssh_input_executes_allowed_witness :
  rule_strings sample_rule ∧
  lit "ls" ∈ executed (list byte) (channel_data (ssh_input_thread (Some sample_rule) sample_chunks)) ∧
  (trim (strncpy_term (lit "ls") COMMAND_COPY_SIZE) = [] ∨
   ¬ refused sample_rule (trim (strncpy_term (lit "ls") COMMAND_COPY_SIZE))).
Proof.
  assert (H0 : rule_strings sample_rule).
  { split; intros l [= <-]. apply (bool_decide_unpack _); by vm_compute. }
  assert (H1 : lit "ls"
    ∈ executed (list byte) (channel_data (ssh_input_thread (Some sample_rule) sample_chunks))).
  { apply (bool_decide_unpack _). vm_compute. reflexivity. }
  split; [exact H0|]. split; [exact H1|].
  exact (ssh_input_executes_allowed (list byte) sample_rule sample_chunks H0
           ltac:(vm_compute; reflexivity) ltac:(vm_compute; reflexivity) (lit "ls") H1).
Defined.

(** A line longer than the command buffer escapes the filter.  The thread
    collects the first 8191 bytes only, and when it refuses them it erases 8191
    bytes on the remote side; what the remote line holds beyond that number is
    left from its beginning, and the line end sent after the erasing executes
    it, without any check. *)
Theorem overlong_command_executes_prefix (E : Type) `{LawfulLineEditor E} rule s :
  texts s → (COMMAND_BUFFER_SIZE - 1 ≤ length s)%nat →
  line_allowed rule (take (COMMAND_BUFFER_SIZE - 1) s) = false →
  executed E (channel_data (ssh_input_thread (Some rule) [s; [x0d]]))
  = [take (length s - (COMMAND_BUFFER_SIZE - 1)) s; []].
Proof. apply overlong_run. Qed.

(** [rm -rf x] and enough text behind it. *)

Definition overlong_command : list byte :=
  lit "rm -rf x" ++ replicate (COMMAND_BUFFER_SIZE - 1) x2e.

Lemma overlong_command_texts : texts overlong_command.
Proof.
  apply Forall_app. split; [|by apply Forall_replicate].
  apply (bool_decide_unpack _). by vm_compute.
Qed.

Lemma overlong_command_collected :
  take (COMMAND_BUFFER_SIZE - 1) overlong_command
  = lit "rm -rf x" ++ replicate (COMMAND_BUFFER_SIZE - 9) x2e.
Proof.
  unfold overlong_command. rewrite take_app. change (length (lit "rm -rf x")) with 8%nat.
  rewrite take_ge by (change (length (lit "rm -rf x")) with 8%nat; pose proof COMMAND_SIZES; lia).
  rewrite take_replicate.
  replace ((COMMAND_BUFFER_SIZE - 1 - 8) `min` (COMMAND_BUFFER_SIZE - 1))%nat
    with (COMMAND_BUFFER_SIZE - 9)%nat by lia. done.
Qed.

Lemma overlong_command_refused :
  line_allowed sample_rule (take (COMMAND_BUFFER_SIZE - 1) overlong_command) = false.
Proof.
  rewrite overlong_command_collected. set (r := replicate _ _).
  assert (Hr : rule_strings sample_rule).
  { split; intros l [= <-]. apply (bool_decide_unpack _); by vm_compute. }
  assert (Hn : no_nul (lit "rm -rf x" ++ r)).
  { apply no_nul_app. split; [apply (bool_decide_unpack _); by vm_compute|].
    by apply Forall_replicate. }
  pose proof (check_command_core sample_rule (lit "rm -rf x" ++ r) true Hr Hn) as Hspec.
  cbv zeta in Hspec. apply not_true_is_false. intros Ha. unfold line_allowed in Ha.
  change (lit "rm -rf x" ++ r) with (x72 :: lit "m -rf x" ++ r) in Ha, Hspec.
  apply Hspec in Ha. clear Hspec. change (x72 :: lit "m -rf x" ++ r) with (lit "rm -rf x" ++ r) in Ha.
  assert (El : strncpy_term (lit "rm -rf x" ++ r) COMMAND_COPY_SIZE = lit "rm -rf x" ++ r).
  { unfold strncpy_term. apply take_ge. rewrite length_app. unfold r.
    rewrite length_replicate. change (length (lit "rm -rf x")) with 8%nat.
    pose proof COMMAND_SIZES; lia. }
  assert (Et : trim (lit "rm -rf x" ++ r) = lit "rm -rf x" ++ r).
  { apply trim_trimmed. split; [intros c; by intros [= <-]|]. unfold r.
    replace (COMMAND_BUFFER_SIZE - 9)%nat with (COMMAND_BUFFER_SIZE - 10 + 1)%nat
      by (pose proof COMMAND_SIZES; lia).
    rewrite replicate_add, app_assoc. cbn [replicate]. rewrite last_snoc. by intros c [= <-]. }
  rewrite El, Et in Ha. destruct Ha as [Ha|Ha]; [discriminate Ha|]. apply Ha. right. left.
  exists (lit "rm, sudo"), (lit "rm"). split; [done|]. split.
  - apply (bool_decide_unpack _). by vm_compute.
  - by exists [], (lit " -rf x" ++ r).
Qed.

Lemma overlong_command_executes_prefix_witness :
  line_allowed sample_rule (take (COMMAND_BUFFER_SIZE - 1) overlong_command) = false ∧
  line_allowed sample_rule (lit "rm -rf x") = false ∧
  executed (list byte) (channel_data (ssh_input_thread (Some sample_rule) [overlong_command; [x0d]]))
  = [lit "rm -rf x"; []].
Proof.
  split; [exact overlong_command_refused|]. split; [by vm_compute|].
  rewrite (overlong_command_executes_prefix (list byte) sample_rule overlong_command
             overlong_command_texts).
  - unfold overlong_command. rewrite length_app, length_replicate, Nat.add_sub, take_app_length.
    reflexivity.
  - unfold overlong_command. rewrite length_app, length_replicate. lia.
  - exact overlong_command_refused.
Defined.
