(* ===== verification/RecordUpdate.v ===== *)
(** * Record update

    [r <| field := v |>] is the record [r] with one field replaced.  A record
    type declares the function that rebuilds its values from their fields
    ([Eta]); the update of a field is computed from it. *)

From S2P Require Import Prelude.

Class Eta (R : Type) := eta : R → R.

Class Setter {R T : Type} (proj : R → T) := set : (T → T) → R → R.
Arguments set {R T} proj {_} f r /.

Ltac solve_setter :=
  match goal with
  | |- @Setter ?R ?T ?proj =>
      let i := constr:(_ : Eta R) in
      let e := eval cbv delta [eta] in (@eta R i) in
      let e := eval hnf in e in
      match eval pattern proj in e with
      | ?g _ => let s := eval cbv beta in (λ (f : T → T), g (λ r : R, f (proj r))) in exact s
      end
  end.

#[export] Hint Extern 1 (Setter _) => solve_setter : typeclass_instances.

Notation "r <| proj := v |>" := (set proj (λ _, v) r)
  (at level 1, left associativity, format "r  <| proj  :=  v |>").
