(* ===== verification/Run.v ===== *)
(** * Computations that may abort or fail

    The monad in which code is written that can stop the process: a
    computation ends, or aborts the process at a failed [GUAC_ASSERT], or leaves the
    behaviour C defines, or exhausts the fuel of a model of it; and the [for]
    loops of the code. *)

From S2P Require Import Prelude Mem.
Local Open Scope Z_scope.

(** ** Computations *)

Inductive run (A : Type) : Type :=
| Run (a : A)
| Abort
| Fault
| Spin.
Arguments Run {A} _.
Arguments Abort {A}.
Arguments Fault {A}.
Arguments Spin {A}.

#[export] Instance run_ret : MRet run := λ A a, Run a.

#[export] Instance run_bind : MBind run := λ A B f r,
  match r with
  | Run a => f a
  | Abort => Abort
  | Fault => Fault
  | Spin => Spin
  end.

Definition GUAC_ASSERT (expression : bool) : run unit :=
  if expression then Run () else Abort.

(** Access to memory that is not there. *)

Definition deref {A} (o : option A) : run A :=
  match o with
  | Some a => Run a
  | None => Fault
  end.

(** A checked operation of mem.c, which aborts on overflow. *)

Definition or_abort {A} (o : outcome A) : run A :=
  match o with
  | Returns a => Run a
  | Aborts => Abort
  end.

Definition ran {A} (r : run A) : bool :=
  match r with Run _ => true | _ => false end.

Lemma run_bind_inv {A B} (r : run A) (f : A → run B) b :
  r ≫= f = Run b → ∃ a, r = Run a ∧ f a = Run b.
Proof. destruct r; [eauto|discriminate..]. Qed.

Lemma run_bind_run {A B} (a : A) (f : A → run B) : Run a ≫= f = f a.
Proof. done. Qed.

Lemma run_bind_assoc {A B C} (r : run A) (f : A → run B) (g : B → run C) :
  (r ≫= f) ≫= g = r ≫= (λ a, f a ≫= g).
Proof. by destruct r. Qed.

Lemma assert_true b : b = true → GUAC_ASSERT b = Run ().
Proof. by intros ->. Qed.

Lemma assert_leb a b : a ≤ b → GUAC_ASSERT (a <=? b) = Run ().
Proof. intros H. apply assert_true. by apply Z.leb_le. Qed.

Lemma assert_run b u : GUAC_ASSERT b = Run u → b = true.
Proof. by destruct b. Qed.

(** A loop [for (i = first; i <= last; i++)] over a state. *)

Fixpoint for_loop {S} (n : nat) (i : Z) (body : Z → S → run S) (s : S) : run S :=
  match n with
  | O => Run s
  | Datatypes.S n' => s' ← body i s; for_loop n' (i + 1) body s'
  end.

Definition for_range {S} (first last : Z) (body : Z → S → run S) (s : S) : run S :=
  for_loop (Z.to_nat (last - first + 1)) first body s.

(** What holds before a loop and is preserved by its body holds after it. *)

Lemma for_loop_inv {S} (I : Z → S → Prop) n i body (s : S) :
  I i s →
  (∀ j t, i ≤ j < i + Z.of_nat n → I j t → ∃ t', body j t = Run t' ∧ I (j + 1) t') →
  ∃ s', for_loop n i body s = Run s' ∧ I (i + Z.of_nat n) s'.
Proof.
  revert i s. induction n as [|n IH]; intros i s Hi Hb; cbn [for_loop].
  - exists s. rewrite Z.add_0_r. done.
  - destruct (Hb i s ltac:(lia) Hi) as (t & Et & It). rewrite Et, run_bind_run.
    destruct (IH (i + 1) t It) as (s' & E & Hs').
    { intros j u Hj. apply Hb. lia. }
    exists s'. split; [done|]. by replace (i + Z.of_nat (Datatypes.S n)) with
      (i + 1 + Z.of_nat n) by lia.
Qed.

Lemma for_range_inv {S} (I : Z → S → Prop) first last body (s : S) :
  first ≤ last + 1 → I first s →
  (∀ j t, first ≤ j ≤ last → I j t → ∃ t', body j t = Run t' ∧ I (j + 1) t') →
  ∃ s', for_range first last body s = Run s' ∧ I (last + 1) s'.
Proof.
  intros Hle Hi Hb. unfold for_range.
  destruct (for_loop_inv I (Z.to_nat (last - first + 1)) first body s Hi) as (s' & E & H).
  { intros j t Hj. apply Hb. lia. }
  exists s'. split; [done|]. by replace (last + 1) with
    (first + Z.of_nat (Z.to_nat (last - first + 1))) by lia.
Qed.

Lemma for_range_empty {S} first last body (s : S) :
  last < first → for_range first last body s = Run s.
Proof. intros H. unfold for_range. by replace (Z.to_nat _) with O by lia. Qed.

(** The same without a condition on the bounds. *)

Lemma for_range_inv_max {S} (I : Z → S → Prop) first last body (s : S) :
  I first s →
  (∀ j t, first ≤ j ≤ last → I j t → ∃ t', body j t = Run t' ∧ I (j + 1) t') →
  ∃ s', for_range first last body s = Run s' ∧ I (Z.max first (last + 1)) s'.
Proof.
  intros Hi Hb. destruct (decide (first ≤ last)).
  - rewrite Z.max_r by lia. apply for_range_inv; [lia|done..].
  - exists s. rewrite for_range_empty, Z.max_l by lia. done.
Qed.
