(* ===== verification/Threads.v ===== *)
(** * Threads over a recursive mutex and a condition

    The pthread primitives that src/src/libguac/flag.c uses, as a machine whose
    steps interleave: a thread runs a program whose accesses to the shared
    memory are single steps, a wait releases the mutex and puts the thread to
    sleep, a broadcast wakes every sleeping thread, a woken thread has to take
    the mutex again.  The programs themselves are values of [prog]; a wait is the loop
    around [pthread_cond_wait] that tests a flag first.

    An operation is verified alone, from the moment it takes the mutex to the
    moment it releases it ([locked]); [simulation] then makes every
    interleaving of the threads a sequence of the operations' specifications, and
    [step_wf] says that the threads come to rest unless they are woken for
    nothing. *)

From Stdlib Require Import Wellfounded Relation_Operators.
From S2P Require Import Prelude.
From stdpp Require Import relations.
Local Open Scope Z_scope.

(** ** Programs *)

Section Programs.

Context {St : Type}.

(** [St] is the shared memory. *)

Inductive prog (A : Type) : Type :=
| Return (a : A)
| Lock (k : prog A)                    (* pthread_mutex_lock *)
| Unlock (k : prog A)                  (* pthread_mutex_unlock *)
| Broadcast (k : prog A)               (* pthread_cond_broadcast *)
| Read (k : St → prog A)
| Write (f : St → St) (k : prog A)
| Abort                                (* abort() *)
| Wait (flags : Z) (k : prog A)        (* while (!(value & flags)) pthread_cond_wait *)
| Timed_wait (flags : Z) (k : bool → prog A).
                                       (* the same, left with false at a timeout *)

Arguments Return {A} _.
Arguments Lock {A} _.
Arguments Unlock {A} _.
Arguments Broadcast {A} _.
Arguments Read {A} _.
Arguments Write {A} _ _.
Arguments Abort {A}.
Arguments Wait {A} _ _.
Arguments Timed_wait {A} _ _.

Fixpoint prog_bind {A B} (p : prog A) (f : A → prog B) : prog B :=
  match p with
  | Return a => f a
  | Lock k => Lock (prog_bind k f)
  | Unlock k => Unlock (prog_bind k f)
  | Broadcast k => Broadcast (prog_bind k f)
  | Read k => Read (λ s, prog_bind (k s) f)
  | Write g k => Write g (prog_bind k f)
  | Abort => Abort
  | Wait flags k => Wait flags (prog_bind k f)
  | Timed_wait flags k => Timed_wait flags (λ b, prog_bind (k b) f)
  end.

(** [after p' p]: a step of [p] leaves [p']. *)

Inductive after {A} : prog A → prog A → Prop :=
| after_lock k : after k (Lock k)
| after_unlock k : after k (Unlock k)
| after_broadcast k : after k (Broadcast k)
| after_read k s : after (k s) (Read k)
| after_write f k : after k (Write f k)
| after_wait flags k : after k (Wait flags k)
| after_timed_wait flags k b : after (k b) (Timed_wait flags k).

Lemma after_wf {A} : well_founded (@after A).
Proof.
  intros p. induction p; constructor; intros p' Hp; inversion Hp; subst; auto.
Qed.

End Programs.

Arguments prog : clear implicits.
Arguments Return {St A} _.
Arguments Lock {St A} _.
Arguments Unlock {St A} _.
Arguments Broadcast {St A} _.
Arguments Read {St A} _.
Arguments Write {St A} _ _.
Arguments Abort {St A}.
Arguments Wait {St A} _ _.
Arguments Timed_wait {St A} _ _.

#[export] Instance prog_ret St : MRet (prog St) := λ A a, Return a.
#[export] Instance prog_mbind St : MBind (prog St) := λ A B f p, prog_bind p f.

(** A program that no other thread disturbs: [None] where it waits for ever or aborts. *)

Fixpoint alone {St A} (flag_value : St → Z) (p : prog St A) (s : St) : option (A * St) :=
  match p with
  | Return a => Some (a, s)
  | Lock k | Unlock k | Broadcast k => alone flag_value k s
  | Read k => alone flag_value (k s) s
  | Write f k => alone flag_value k (f s)
  | Abort => None
  | Wait flags k => if Z.land (flag_value s) flags =? 0 then None else alone flag_value k s
  | Timed_wait flags k => alone flag_value (k (negb (Z.land (flag_value s) flags =? 0))) s
  end.

(** ** The machine *)

Section Machine.

(** The shared memory with the value of its flag, the operations the threads call, the results
    and the code of the operations. *)

Context {St Op Res : Type} (flag_value : St → Z) (code : Op → prog St Res).

Definition any_set (flags : Z) (s : St) : bool := negb (Z.land (flag_value s) flags =? 0).

(** A thread is between calls, or runs the code of a call, sleeps in a wait of it, or has been woken
    and needs the mutex to go on. *)

Inductive phase :=
| Idle
| Running (o : Op) (p : prog St Res)
| Sleeping (o : Op) (p : prog St Res)
| Waking (o : Op) (p : prog St Res).

Record thread := mk_thread {
  t_phase : phase;
  t_todo : list Op;
  t_results : list (Op * Res);
}.

(** The mutex is held by a thread, so many times. *)

Record config := mk_config {
  shared : St;
  mutex : option (nat * nat);
  threads : list thread;
}.

Definition set_phase (ph : phase) (th : thread) : thread :=
  mk_thread ph (t_todo th) (t_results th).

Definition wake (th : thread) : thread :=
  match t_phase th with
  | Sleeping o p => set_phase (Waking o p) th
  | _ => th
  end.

Definition acquire (i : nat) (m : option (nat * nat)) : option (option (nat * nat)) :=
  match m with
  | None => Some (Some (i, 1%nat))
  | Some (j, d) => if decide (j = i) then Some (Some (i, S d)) else None
  end.

Definition release (i : nat) (m : option (nat * nat)) : option (option (nat * nat)) :=
  match m with
  | Some (j, S d) =>
      if decide (j = i) then Some (if decide (d = O) then None else Some (i, d)) else None
  | _ => None
  end.

(** A step of thread [i] in phase [ph]: the memory, the mutex and the phase after it, and
    whether the sleeping threads are woken. *)

Inductive run_step (i : nat) (s : St) (m : option (nat * nat))
  : phase → St → option (nat * nat) → phase → bool → Prop :=
| run_lock o k m' :
    acquire i m = Some m' → run_step i s m (Running o (Lock k)) s m' (Running o k) false
| run_unlock o k m' :
    release i m = Some m' → run_step i s m (Running o (Unlock k)) s m' (Running o k) false
| run_broadcast o k : run_step i s m (Running o (Broadcast k)) s m (Running o k) true
| run_read o k : run_step i s m (Running o (Read k)) s m (Running o (k s)) false
| run_write o f k : run_step i s m (Running o (Write f k)) (f s) m (Running o k) false
| run_wait_done o flags k :
    any_set flags s = true → run_step i s m (Running o (Wait flags k)) s m (Running o k) false
| run_wait o flags k m' :
    any_set flags s = false → release i m = Some m' →
    run_step i s m (Running o (Wait flags k)) s m' (Sleeping o (Wait flags k)) false
| run_timed_done o flags k :
    any_set flags s = true →
    run_step i s m (Running o (Timed_wait flags k)) s m (Running o (k true)) false
| run_timed o flags k m' :
    any_set flags s = false → release i m = Some m' →
    run_step i s m (Running o (Timed_wait flags k)) s m' (Sleeping o (Timed_wait flags k)) false
| run_timeout o flags k :
    run_step i s m (Sleeping o (Timed_wait flags k)) s m (Waking o (k false)) false
| run_wake o p m' : acquire i m = Some m' → run_step i s m (Waking o p) s m' (Running o p) false.

(** A step of the threads: a call, a return, or a step of a program. *)

Inductive step : config → config → Prop :=
| step_call s m ths i o todo results :
    ths !! i = Some (mk_thread Idle (o :: todo) results) →
    step (mk_config s m ths)
         (mk_config s m (<[i := mk_thread (Running o (code o)) todo results]> ths))
| step_return s m ths i o r todo results :
    ths !! i = Some (mk_thread (Running o (Return r)) todo results) →
    step (mk_config s m ths)
         (mk_config s m (<[i := mk_thread Idle todo (results ++ [(o, r)])]> ths))
| step_run s m ths i th s' m' ph' (w : bool) :
    ths !! i = Some th → run_step i s m (t_phase th) s' m' ph' w →
    step (mk_config s m ths)
         (mk_config s' m' (<[i := set_phase ph' th]> (if w then wake <$> ths else ths))).

(** [pthread_cond_wait] may return for no reason. *)

Inductive spurious : config → config → Prop :=
| spurious_wake s m ths i th o p :
    ths !! i = Some th → t_phase th = Sleeping o p →
    spurious (mk_config s m ths) (mk_config s m (<[i := wake th]> ths)).

Definition any_step (c c' : config) : Prop := step c c' ∨ spurious c c'.

Definition initial (s : St) (scripts : list (list Op)) : config :=
  mk_config s None ((λ todo, mk_thread Idle todo []) <$> scripts).

(** ** The threads come to rest *)

(** What remains of a thread: the calls to make, and the program of the call. *)

Definition remaining (th : thread) : nat * option (prog St Res) :=
  (List.length (t_todo th),
   match t_phase th with
   | Idle => None
   | Running _ p | Sleeping _ p | Waking _ p => Some p
   end).

Inductive less_remaining : nat * option (prog St Res) → nat * option (prog St Res) → Prop :=
| less_call n x p : less_remaining (n, x) (S n, p)
| less_return n p : less_remaining (n, None) (n, Some p)
| less_run n p' p : after p' p → less_remaining (n, Some p') (n, Some p).

Lemma less_remaining_wf : well_founded less_remaining.
Proof.
  assert (H : ∀ n x, Acc less_remaining (n, x)); [|by intros [n x]].
  induction n as [|n IH].
  - assert (HN : Acc less_remaining (0%nat, None)) by (constructor; intros y Hy; inversion Hy).
    intros [p|]; [|done]. induction p as [p IHp] using (well_founded_induction after_wf).
    constructor. intros y Hy. inversion Hy; subst; auto.
  - assert (HN : Acc less_remaining (S n, None)) by (constructor; intros y Hy; inversion Hy; subst; auto).
    intros [p|]; [|done]. induction p as [p IHp] using (well_founded_induction after_wf).
    constructor. intros y Hy. inversion Hy; subst; auto.
Qed.

(** Lists that differ in one place. *)

Definition one_less {A} (R : A → A → Prop) (l' l : list A) : Prop :=
  ∃ i x y, l !! i = Some x ∧ R y x ∧ l' = <[i := y]> l.

Lemma one_less_wf {A} (R : A → A → Prop) : well_founded R → well_founded (one_less R).
Proof.
  intros HR l. induction l as [|x l IH].
  { constructor. intros l' (i & x & y & H & _). by rewrite lookup_nil in H. }
  revert l IH. induction x as [x IHx] using (well_founded_induction HR). intros l Hl.
  induction Hl as [l Hl IHl]. constructor. intros l' (i & x' & y & Hi & HRy & ->).
  destruct i as [|i]; cbn in Hi.
  - injection Hi as ->. apply IHx; [done|by constructor].
  - apply IHl. by exists i, x', y.
Qed.

Definition rank (th : thread) : nat :=
  match t_phase th with
  | Waking _ _ => 2
  | Running _ _ => 1
  | Idle | Sleeping _ _ => 0
  end.

Definition measure (c : config) : list (nat * option (prog St Res)) * nat :=
  (remaining <$> threads c, sum_list (rank <$> threads c)).

Definition less : relation (list (nat * option (prog St Res)) * nat) :=
  slexprod _ _ (one_less less_remaining) lt.

Lemma less_wf : well_founded less.
Proof. apply wf_slexprod; [apply one_less_wf, less_remaining_wf|apply lt_wf]. Qed.

Lemma remaining_wake th : remaining (wake th) = remaining th.
Proof. unfold wake, remaining. by destruct (t_phase th) eqn:E; cbn; rewrite ?E. Qed.

Lemma less_thread ths i th th' n m :
  ths !! i = Some th → less_remaining (remaining th') (remaining th) →
  less (remaining <$> <[i := th']> ths, n) (remaining <$> ths, m).
Proof.
  intros Hi Hless. apply left_slex. exists i, (remaining th), (remaining th').
  rewrite list_fmap_insert, list_lookup_fmap, Hi. done.
Qed.

Lemma sum_list_insert l i (x y : nat) :
  l !! i = Some x → (sum_list (<[i := y]> l) + x = sum_list l + y)%nat.
Proof.
  revert i. induction l as [|z l IH]; intros [|i] Hi; cbn in *; [done..| |].
  - injection Hi as ->. lia.
  - rewrite <-Nat.add_assoc, IH by exact Hi. lia.
Qed.

Lemma less_rank ths i th th' :
  ths !! i = Some th → remaining th' = remaining th → (rank th' < rank th)%nat →
  less (remaining <$> <[i := th']> ths, sum_list (rank <$> <[i := th']> ths))
       (remaining <$> ths, sum_list (rank <$> ths)).
Proof.
  intros Hi E Hr. rewrite !list_fmap_insert, E.
  rewrite (list_insert_id (remaining <$> ths)) by (by rewrite list_lookup_fmap, Hi).
  apply right_slex. pose proof (sum_list_insert (rank <$> ths) i (rank th) (rank th')) as H.
  rewrite list_lookup_fmap, Hi in H. specialize (H eq_refl). lia.
Qed.

Lemma step_less c c' : step c c' → less (measure c') (measure c).
Proof.
  intros Hc. destruct Hc as [s m ths i o todo rs Hi|s m ths i o r todo rs Hi|s m ths i th s' m' ph' w Hi Hr];
    unfold measure; cbn [threads].
  - eapply less_thread; [exact Hi|]. apply less_call.
  - eapply less_thread; [exact Hi|]. apply less_return.
  - destruct th as [ph todo rs]. cbn [t_phase] in Hr. unfold set_phase. cbn [t_todo t_results].
    inversion Hr; subst; try (eapply less_thread; [exact Hi|]; apply less_run; constructor).
    + apply left_slex. exists i, (List.length todo, Some (Broadcast k)), (List.length todo, Some k).
      rewrite list_lookup_fmap, Hi. split; [done|]. split; [apply less_run; constructor|].
      rewrite list_fmap_insert. f_equal. rewrite <-list_fmap_compose.
      apply list_fmap_ext. intros ? ? _. apply remaining_wake.
    + eapply less_rank; [exact Hi|done|cbn; lia].
    + eapply less_rank; [exact Hi|done|cbn; lia].
    + eapply less_rank; [exact Hi|done|cbn; lia].
Qed.

Lemma step_wf : well_founded (flip step).
Proof.
  intros c. assert (H : ∀ x, ∀ c, measure c = x → Acc (flip step) c); [|by eapply H].
  clear c. intros x. induction x as [x IH] using (well_founded_induction less_wf). intros c <-.
  constructor. intros c' Hc. eapply IH; [|done]. by apply step_less.
Qed.

(** ** Verification of one operation *)

(** [Q] is the abstract state, [Rel] holds of the memory while the mutex is free, and [spec] says
    what an operation does; [may_wait] gives the flags an operation waits for. *)

Context {Q : Type} (Rel : St → Q → Prop) (spec : Op → Q → Q → Res → Prop)
        (may_wait : Op → Z → Prop).

(** No flag is set that was not set before. *)

Definition quiet (s0 s : St) : Prop := ∀ flags, any_set flags s0 = false → any_set flags s = false.

(** The program [p], which holds the mutex [d] times, brings the memory [s] to the state that the
    specification of [o] allows after [t] and releases the mutex, having woken the threads
    since any flag was set; [s0] is the memory at the last broadcast. *)

Fixpoint locked (o : Op) (t : Q) (d : nat) (s0 s : St) (p : prog St Res) : Prop :=
  match p with
  | Return _ | Abort => False
  | Lock k => locked o t (S d) s0 s k
  | Unlock k =>
      match d with
      | O => False
      | S O => quiet s0 s ∧ ∃ t' r, spec o t t' r ∧ Rel s t' ∧ k = Return r
      | S d' => locked o t d' s0 s k
      end
  | Broadcast k => locked o t d s s k
  | Read k => locked o t d s0 s (k s)
  | Write f k => locked o t d s0 (f s) k
  | Wait flags k =>
      d = 1%nat ∧ s0 = s ∧ Rel s t ∧ may_wait o flags ∧
      ∀ s' t', Rel s' t' → any_set flags s' = true → locked o t' 1 s' s' k
  | Timed_wait flags k =>
      d = 1%nat ∧ s0 = s ∧ Rel s t ∧
      (∀ s' t', Rel s' t' → any_set flags s' = true → locked o t' 1 s' s' (k true)) ∧
      (∀ s' t', Rel s' t' → locked o t' 1 s' s' (k false))
  end.

Lemma bind_assoc_return {A B} (p : prog St A) (f : A → prog St B) (g : B → prog St Res) r :
  prog_bind (prog_bind p f) g = Return r ↔ prog_bind p (λ a, prog_bind (f a) g) = Return r.
Proof. by destruct p. Qed.

Lemma locked_bind_assoc {A B} o (p : prog St A) (f : A → prog St B) (g : B → prog St Res) :
  ∀ t d s0 s, locked o t d s0 s (prog_bind (prog_bind p f) g)
              ↔ locked o t d s0 s (prog_bind p (λ a, prog_bind (f a) g)).
Proof.
  induction p as [a|k IH|k IH|k IH|k IH|h k IH| |flags k IH|flags k IH]; intros t d s0 s; cbn; try done.
  - destruct d as [|[|d]]; [done| |done]. by setoid_rewrite bind_assoc_return.
  - by setoid_rewrite IH.
  - by setoid_rewrite IH.
Qed.

Definition resumes (o : Op) (p : prog St Res) : Prop := ∀ s t, Rel s t → locked o t 1 s s p.

Definition ready (o : Op) (p : prog St Res) : Prop := ∃ k, p = Lock k ∧ resumes o k.

Definition waits (o : Op) (p : prog St Res) : Prop :=
  match p with
  | Wait flags k =>
      may_wait o flags ∧
      ∀ s' t', Rel s' t' → any_set flags s' = true → locked o t' 1 s' s' k
  | Timed_wait flags k =>
      (∀ s' t', Rel s' t' → any_set flags s' = true → locked o t' 1 s' s' (k true)) ∧
      resumes o (k false)
  | _ => False
  end.

Lemma waits_resumes o p : waits o p → resumes o p.
Proof. destruct p; cbn; try done; intros Hw s t HR; cbn; intuition. Qed.

(** ** The abstract machine *)

Inductive a_phase :=
| A_idle
| A_pending (o : Op)
| A_done (o : Op) (r : Res).

Record a_thread := mk_a_thread {
  at_phase : a_phase;
  at_todo : list Op;
  at_results : list (Op * Res);
}.

(** Each operation takes effect in one step between its call and its return. *)

Inductive a_step : Q * list a_thread → Q * list a_thread → Prop :=
| a_call t ths i o todo rs :
    ths !! i = Some (mk_a_thread A_idle (o :: todo) rs) →
    a_step (t, ths) (t, <[i := mk_a_thread (A_pending o) todo rs]> ths)
| a_effect t t' ths i o r todo rs :
    ths !! i = Some (mk_a_thread (A_pending o) todo rs) → spec o t t' r →
    a_step (t, ths) (t', <[i := mk_a_thread (A_done o r) todo rs]> ths)
| a_return t ths i o r todo rs :
    ths !! i = Some (mk_a_thread (A_done o r) todo rs) →
    a_step (t, ths) (t, <[i := mk_a_thread A_idle todo (rs ++ [(o, r)])]> ths).

Definition a_initial (t : Q) (scripts : list (list Op)) : Q * list a_thread :=
  (t, (λ todo, mk_a_thread A_idle todo []) <$> scripts).

(** ** The simulation *)

Definition holder (m : option (nat * nat)) (i : nat) : Prop :=
  match m with Some (j, _) => j = i | None => False end.

Definition thread_sim (i : nat) (m : option (nat * nat)) (th : thread) (a : a_thread) : Prop :=
  at_todo a = t_todo th ∧ at_results a = t_results th ∧
  match t_phase th with
  | Idle => at_phase a = A_idle
  | Running o p =>
      holder m i ∧ at_phase a = A_pending o
      ∨ ¬ holder m i ∧ (at_phase a = A_pending o ∧ ready o p
                        ∨ ∃ r, p = Return r ∧ at_phase a = A_done o r)
  | Sleeping o p => at_phase a = A_pending o ∧ waits o p
  | Waking o p => at_phase a = A_pending o ∧ resumes o p
  end.

Definition threads_sim (m : option (nat * nat)) (ths : list thread) (aths : list a_thread) : Prop :=
  ∀ i, match ths !! i, aths !! i with
       | Some th, Some a => thread_sim i m th a
       | None, None => True
       | _, _ => False
       end.

(** The flags a sleeping thread waits for are not set. *)

Definition unset (ths : list thread) (s : St) : Prop :=
  ∀ i th o p, ths !! i = Some th → t_phase th = Sleeping o p →
    match p with
    | Wait flags _ | Timed_wait flags _ => any_set flags s = false
    | _ => True
    end.

Definition held_ok (c : config) (t : Q) (i d : nat) : Prop :=
  ∃ th o p s0, threads c !! i = Some th ∧ t_phase th = Running o p ∧
    locked o t d s0 (shared c) p ∧ unset (threads c) s0.

Record sim (c : config) (a : Q * list a_thread) : Prop := {
  sim_threads : threads_sim (mutex c) (threads c) (snd a);
  sim_free : mutex c = None → Rel (shared c) (fst a) ∧ unset (threads c) (shared c);
  sim_held i d : mutex c = Some (i, d) → held_ok c (fst a) i d;
}.

Lemma threads_sim_lookup m ths aths i th :
  threads_sim m ths aths → ths !! i = Some th → ∃ a, aths !! i = Some a ∧ thread_sim i m th a.
Proof. intros H Hi. specialize (H i). rewrite Hi in H. destruct (aths !! i); [eauto|done]. Qed.

Lemma thread_sim_holder i m m' th a :
  (holder m' i ↔ holder m i) → thread_sim i m th a → thread_sim i m' th a.
Proof. intros Hm (H1 & H2 & H3). split; [done|]. split; [done|]. destruct (t_phase th); tauto. Qed.

Lemma threads_sim_insert m m' ths aths i th' a' :
  threads_sim m ths aths → (i < List.length ths)%nat →
  (∀ j, j ≠ i → holder m' j ↔ holder m j) → thread_sim i m' th' a' →
  threads_sim m' (<[i := th']> ths) (<[i := a']> aths).
Proof.
  intros H Hi Hm H' j. destruct (decide (j = i)) as [->|Hj].
  - rewrite list_lookup_insert_eq by done. rewrite list_lookup_insert_eq; [done|].
    specialize (H i). destruct (lookup_lt_is_Some_2 ths i Hi) as [th Hth]. rewrite Hth in H.
    destruct (aths !! i) eqn:E; [|done]. by apply lookup_lt_Some in E.
  - rewrite !list_lookup_insert_ne by done. specialize (H j).
    destruct (ths !! j), (aths !! j); try done. eapply thread_sim_holder; [|exact H]. by apply Hm.
Qed.

(** The step of one thread is not seen by the abstract machine. *)

Lemma threads_sim_stutter m m' ths aths i th' a :
  threads_sim m ths aths → aths !! i = Some a → (i < List.length ths)%nat →
  (∀ j, j ≠ i → holder m' j ↔ holder m j) → thread_sim i m' th' a →
  threads_sim m' (<[i := th']> ths) aths.
Proof.
  intros H Ha Hi Hm H'. rewrite <-(list_insert_id aths i a Ha). by eapply threads_sim_insert.
Qed.

Lemma threads_sim_wake m ths aths : threads_sim m ths aths → threads_sim m (wake <$> ths) aths.
Proof.
  intros H i. specialize (H i). rewrite list_lookup_fmap. destruct (ths !! i) as [th|]; [|done]. cbn.
  destruct (aths !! i) as [a|]; [|done]. destruct H as (H1 & H2 & H3).
  unfold wake, thread_sim in *. destruct (t_phase th) eqn:E; cbn; rewrite ?E; try done.
  split; [done|]. split; [done|]. destruct H3 as [H3 H4]. split; [done|by apply waits_resumes].
Qed.

Lemma unset_wake ths s : unset (wake <$> ths) s.
Proof.
  intros i th o p Hi Hp. rewrite list_lookup_fmap in Hi.
  destruct (ths !! i) as [th0|]; [|done]. injection Hi as <-. unfold wake in Hp.
  destruct (t_phase th0) eqn:E; cbn in Hp; congruence.
Qed.

Lemma unset_insert ths i th' s :
  unset ths s →
  match t_phase th' with
  | Sleeping _ (Wait flags _) | Sleeping _ (Timed_wait flags _) => any_set flags s = false
  | _ => True
  end → unset (<[i := th']> ths) s.
Proof.
  intros H H' j th o p Hj Hp. apply list_lookup_insert_Some in Hj as [(-> & <- & _)|[_ Hj]].
  - rewrite Hp in H'. by destruct p.
  - by eapply H.
Qed.

Lemma unset_quiet ths s0 s : quiet s0 s → unset ths s0 → unset ths s.
Proof.
  intros Hq H i th o p Hi Hp. specialize (H i th o p Hi Hp). destruct p; try done; by apply Hq.
Qed.

(** The rest needs every operation to be verified. *)

Context (Hcode : ∀ o, ready o (code o)).

Definition pending (th : thread) (a : a_thread) (o : Op) : Prop :=
  at_todo a = t_todo th ∧ at_results a = t_results th ∧ at_phase a = A_pending o.

(** A thread that holds the mutex goes on, or one that waited for it takes it. *)

Lemma sim_goes_on s m ths aths (t : Q) i th a o p s0 d :
  threads_sim m ths aths → ths !! i = Some th → aths !! i = Some a → pending th a o →
  (∀ j, j ≠ i → ¬ holder m j) → locked o t d s0 s p → unset ths s0 →
  sim (mk_config s (Some (i, d)) (<[i := set_phase (Running o p) th]> ths)) (t, aths).
Proof.
  intros HT Hi Ha (P1 & P2 & P3) Hm Hp Hu. pose proof (lookup_lt_Some _ _ _ Hi) as Hlt.
  split; cbn.
  - eapply threads_sim_stutter; [exact HT|exact Ha|done| |].
    + intros j Hj. cbn. split; [congruence|by intros []%Hm].
    + split; [done|]. split; [done|]. cbn. by left.
  - done.
  - intros j d' [= <- <-]. exists (set_phase (Running o p) th), o, p, s0. cbn.
    rewrite list_lookup_insert_eq by done.
    split; [done|]. split; [done|]. split; [done|]. by apply unset_insert.
Qed.

(** A thread goes to sleep. *)

Lemma sim_sleeps s m ths aths (t : Q) i th a o p :
  threads_sim m ths aths → ths !! i = Some th → aths !! i = Some a → pending th a o →
  (∀ j, j ≠ i → ¬ holder m j) → Rel s t → unset ths s → waits o p →
  match p with
  | Wait flags _ | Timed_wait flags _ => any_set flags s = false
  | _ => True
  end →
  sim (mk_config s None (<[i := set_phase (Sleeping o p) th]> ths)) (t, aths).
Proof.
  intros HT Hi Ha (P1 & P2 & P3) Hm HR Hu Hw Hf. pose proof (lookup_lt_Some _ _ _ Hi) as Hlt.
  split; cbn; [| |done].
  - eapply threads_sim_stutter; [exact HT|exact Ha|done| |].
    + intros j Hj. cbn. split; [done|by intros []%Hm].
    + split; [done|]. split; [done|]. by split.
  - intros _. split; [done|]. apply unset_insert; [done|]. cbn. by destruct p.
Qed.

(** A thread releases the mutex: its operation takes effect. *)

Lemma sim_takes_effect s m ths aths (t t' : Q) i th a o r :
  threads_sim m ths aths → ths !! i = Some th → aths !! i = Some a → pending th a o →
  (∀ j, j ≠ i → ¬ holder m j) → Rel s t' → unset ths s →
  sim (mk_config s None (<[i := set_phase (Running o (Return r)) th]> ths))
      (t', <[i := mk_a_thread (A_done o r) (at_todo a) (at_results a)]> aths).
Proof.
  intros HT Hi Ha (P1 & P2 & P3) Hm HR Hu. pose proof (lookup_lt_Some _ _ _ Hi) as Hlt.
  split; cbn; [| |done].
  - eapply threads_sim_insert; [exact HT|done| |].
    + intros j Hj. cbn. split; [done|by intros []%Hm].
    + split; [done|]. split; [done|]. cbn. right. split; [tauto|]. right. by exists r.
  - intros _. split; [done|]. by apply unset_insert.
Qed.

(** A thread that has no part in the mutex goes on. *)

Lemma sim_elsewhere s m ths aths aths' (t : Q) i th' a' :
  sim (mk_config s m ths) (t, aths) → (i < List.length ths)%nat → ¬ holder m i →
  aths' = <[i := a']> aths → thread_sim i m th' a' →
  match t_phase th' with Sleeping _ _ => False | _ => True end →
  sim (mk_config s m (<[i := th']> ths)) (t, aths').
Proof.
  intros [HT HF HH] Hlt Hni -> Hth' Hph. cbn in *.
  assert (Hu : ∀ s0, unset ths s0 → unset (<[i := th']> ths) s0).
  { intros s0 Hu. apply unset_insert; [done|]. by destruct (t_phase th'). }
  split; cbn.
  - eapply threads_sim_insert; [exact HT|done|done|done].
  - intros ->. destruct (HF eq_refl) as [HR HU]. split; [done|by apply Hu].
  - intros j d ->. destruct (HH j d eq_refl) as (th & o & p & s0 & Hj & Hp & Hl & HU).
    exists th, o, p, s0. cbn in *. rewrite list_lookup_insert_ne by (intros ->; by apply Hni).
    split; [done|]. split; [done|]. split; [done|by apply Hu].
Qed.

Lemma acquire_inv i m m' :
  acquire i m = Some m' →
  m = None ∧ m' = Some (i, 1%nat) ∨ ∃ d, m = Some (i, d) ∧ m' = Some (i, S d).
Proof.
  unfold acquire. destruct m as [[j d]|]; [|intros [= <-]; by left].
  destruct (decide (j = i)) as [->|]; [|done]. intros [= <-]. right. eauto.
Qed.

Lemma release_inv i m m' :
  release i m = Some m' →
  ∃ d, m = Some (i, S d) ∧ m' = (if decide (d = O) then None else Some (i, d)).
Proof.
  unfold release. destruct m as [[j [|d]]|]; try done.
  destruct (decide (j = i)) as [->|]; [|done]. intros [= <-]. eauto.
Qed.

Lemma only_holder (i : nat) (d : nat) j : j ≠ i → ¬ holder (Some (i, d)) j.
Proof. cbn. congruence. Qed.

Definition simulated (c' : config) (a : Q * list a_thread) : Prop :=
  ∃ a', rtc a_step a a' ∧ sim c' a'.

Lemma simulated_same c' a : sim c' a → simulated c' a.
Proof. intros H. exists a. split; [apply rtc_refl|done]. Qed.

(** A step of the thread that holds the mutex. *)

Lemma holder_simulated s ths aths (t : Q) i d th a o p s0 s' m' ph' w :
  threads_sim (Some (i, d)) ths aths → ths !! i = Some th → aths !! i = Some a → pending th a o →
  locked o t d s0 s p → unset ths s0 →
  run_step i s (Some (i, d)) (Running o p) s' m' ph' w →
  simulated (mk_config s' m' (<[i := set_phase ph' th]> (if w then wake <$> ths else ths))) (t, aths).
Proof.
  intros HT Hi Ha HP Hl Hu Hr. inversion Hr; subst; clear Hr; cbn in Hl.
  - match goal with H : acquire _ _ = _ |- _ => apply acquire_inv in H as [[? _]|(d' & [= <-] & ->)] end;
      [done|].
    apply simulated_same. eapply sim_goes_on; eauto using only_holder.
  - match goal with H : release _ _ = _ |- _ => apply release_inv in H as (d' & [= ->] & ->) end.
    destruct d' as [|d']; cbn [decide].
    + destruct Hl as (Hq & t' & r & Hs & HR & ->).
      eexists. split; [eapply rtc_once, (a_effect t t' aths i o r (at_todo a) (at_results a))|].
      * rewrite Ha. destruct a as [ph ? ?]. destruct HP as (_ & _ & HP). cbn in HP. by subst.
      * exact Hs.
      * eapply sim_takes_effect; eauto using only_holder, unset_quiet.
    + apply simulated_same. eapply sim_goes_on; eauto using only_holder.
  - apply simulated_same.
    assert (Hi' : (wake <$> ths) !! i = Some (wake th)) by (by rewrite list_lookup_fmap, Hi).
    replace (set_phase (Running o k) th) with (set_phase (Running o k) (wake th))
      by (unfold wake; destruct (t_phase th); done).
    eapply sim_goes_on; eauto using only_holder, unset_wake, threads_sim_wake.
    destruct HP as (P1 & P2 & P3). unfold pending, wake. by destruct (t_phase th).
  - apply simulated_same. eapply sim_goes_on; eauto using only_holder.
  - apply simulated_same. eapply sim_goes_on; eauto using only_holder.
  - destruct Hl as (-> & -> & HR & _ & Hk). apply simulated_same.
    eapply sim_goes_on; eauto using only_holder.
  - destruct Hl as (-> & -> & HR & Hmw & Hk).
    match goal with H : release _ _ = _ |- _ => apply release_inv in H as (d' & [= <-] & ->) end.
    apply simulated_same. eapply sim_sleeps; eauto using only_holder; by split.
  - destruct Hl as (-> & -> & HR & Hk & _). apply simulated_same.
    eapply sim_goes_on; eauto using only_holder.
  - destruct Hl as (-> & -> & HR & Hk & Hk').
    match goal with H : release _ _ = _ |- _ => apply release_inv in H as (d' & [= <-] & ->) end.
    apply simulated_same. eapply sim_sleeps; eauto using only_holder; by split.
Qed.

(** A step of a thread that does not: it takes the mutex or is asleep. *)

Lemma acquirer_simulated s m ths aths (t : Q) i th a o p m' :
  sim (mk_config s m ths) (t, aths) → ths !! i = Some th → aths !! i = Some a → pending th a o →
  ¬ holder m i → resumes o p → acquire i m = Some m' →
  simulated (mk_config s m' (<[i := set_phase (Running o p) th]> ths)) (t, aths).
Proof.
  intros [HT HF _] Hi Ha HP Hni Hp Hm. cbn in *.
  apply acquire_inv in Hm as [[-> ->]|(d & -> & _)]; [|by destruct Hni].
  destruct (HF eq_refl) as [HR HU]. apply simulated_same.
  eapply sim_goes_on; eauto.
Qed.

Lemma run_simulated s m ths (t : Q) aths i th s' m' ph' w :
  sim (mk_config s m ths) (t, aths) → ths !! i = Some th →
  run_step i s m (t_phase th) s' m' ph' w →
  simulated (mk_config s' m' (<[i := set_phase ph' th]> (if w then wake <$> ths else ths))) (t, aths).
Proof.
  intros Hsim Hi Hr. pose proof Hsim as [HT HF HH]. cbn in *.
  destruct (threads_sim_lookup _ _ _ _ _ HT Hi) as (a & Ha & H1 & H2 & H3).
  pose proof (lookup_lt_Some _ _ _ Hi) as Hlt.
  destruct (t_phase th) as [|o p|o p|o p] eqn:Hph; [inversion Hr| | |].
  - destruct H3 as [[Hh Hpend]|[Hni [[Hpend (k & -> & Hk)]|(r & -> & _)]]]; [| |inversion Hr].
    + destruct m as [[j d]|]; [|done]. cbn in Hh. subst j.
      destruct (HH i d eq_refl) as (th' & o' & p' & s0 & Hi' & Hph' & Hl & HU). cbn in *.
      rewrite Hi in Hi'. injection Hi' as <-. rewrite Hph in Hph'. injection Hph' as <- <-.
      by eapply holder_simulated.
    + inversion Hr; subst. by eapply acquirer_simulated.
  - destruct H3 as [Hpend Hw]. inversion Hr; subst. cbn in Hw.
    assert (Hni : ¬ holder m' i).
    { destruct m' as [[j d]|]; [|by intros []]. cbn. intros ->.
      destruct (HH i d eq_refl) as (th' & o' & p' & s0 & Hi' & Hph' & _). cbn in *. congruence. }
    apply simulated_same. rewrite <-(list_insert_id aths i a Ha).
    eapply sim_elsewhere; [exact Hsim|done|done|reflexivity| |done].
    split; [done|]. split; [done|]. cbn. by split; [|apply Hw].
  - destruct H3 as [Hpend Hw]. inversion Hr; subst.
    eapply acquirer_simulated; eauto; [by split|].
    destruct m as [[j d]|]; [|by intros []]. cbn. intros ->.
    destruct (HH i d eq_refl) as (th' & o' & p' & s0 & Hi' & Hph' & _). cbn in *. congruence.
Qed.

Lemma not_holder s m ths a i th :
  sim (mk_config s m ths) a → ths !! i = Some th →
  (∀ o p, t_phase th = Running o p → (∃ r, p = Return r)) → ¬ holder m i.
Proof.
  intros [_ _ HH] Hi Hp. destruct m as [[j d]|]; [|by intros []]. cbn. intros ->.
  destruct (HH i d eq_refl) as (th' & o & p & s0 & Hi' & Hph & Hl & _). cbn in *.
  assert (th' = th) as -> by congruence. destruct (Hp _ _ Hph) as [r ->]. done.
Qed.

Lemma step_simulated c c' a : step c c' → sim c a → simulated c' a.
Proof.
  intros Hc Hsim. destruct a as [t aths].
  destruct Hc as [s m ths i o todo rs Hi|s m ths i o r todo rs Hi|s m ths i th s' m' ph' w Hi Hr];
    [| |by eapply run_simulated].
  - destruct (threads_sim_lookup _ _ _ _ _ (sim_threads _ _ Hsim) Hi) as (a & Ha & H1 & H2 & H3).
    assert (Hni : ¬ holder m i) by (eapply not_holder; [exact Hsim|exact Hi|done]).
    destruct a as [ph td rr]. cbn in H1, H2, H3. subst.
    eexists. split; [eapply rtc_once, a_call, Ha|].
    eapply sim_elsewhere; [exact Hsim|by eapply lookup_lt_Some|exact Hni|reflexivity| |done].
    split; [done|]. split; [done|]. cbn. auto.
  - destruct (threads_sim_lookup _ _ _ _ _ (sim_threads _ _ Hsim) Hi) as (a & Ha & H1 & H2 & H3).
    assert (Hni : ¬ holder m i).
    { eapply not_holder; [exact Hsim|exact Hi|]. cbn. intros o' p [= <- <-]. eauto. }
    destruct a as [ph td rr]. cbn in H1, H2, H3. subst.
    destruct H3 as [[? _]|[_ [[_ (k & [=] & _)]|(r' & [= <-] & ->)]]]; [done|].
    eexists. split; [eapply rtc_once, a_return, Ha|].
    eapply sim_elsewhere; [exact Hsim|by eapply lookup_lt_Some|exact Hni|reflexivity| |done].
    by split.
Qed.

Lemma spurious_simulated c c' a : spurious c c' → sim c a → simulated c' a.
Proof.
  intros Hc Hsim. destruct a as [t aths]. destruct Hc as [s m ths i th o p Hi Hp].
  destruct (threads_sim_lookup _ _ _ _ _ (sim_threads _ _ Hsim) Hi) as (a & Ha & H1 & H2 & H3).
  rewrite Hp in H3. destruct H3 as [Hpend Hw].
  apply simulated_same. rewrite <-(list_insert_id aths i a Ha).
  assert (E : wake th = set_phase (Waking o p) th) by (unfold wake; by rewrite Hp). rewrite E.
  eapply sim_elsewhere; [exact Hsim|by eapply lookup_lt_Some| |reflexivity| |done].
  - eapply not_holder; [exact Hsim|exact Hi|]. congruence.
  - split; [done|]. split; [done|]. cbn. split; [done|by apply waits_resumes].
Qed.

Lemma initial_sim s t scripts : Rel s t → sim (initial s scripts) (a_initial t scripts).
Proof.
  intros HR. split; cbn; [| |done].
  - intros i. rewrite !list_lookup_fmap. destruct (scripts !! i); [|done]. by split.
  - intros _. split; [done|]. intros i th o p Hi Hp. rewrite list_lookup_fmap in Hi.
    destruct (scripts !! i); [|done]. injection Hi as <-. done.
Qed.

(** Whatever the threads do, the abstract machine does. *)

Theorem simulation s t scripts c :
  Rel s t → rtc any_step (initial s scripts) c →
  ∃ a, rtc a_step (a_initial t scripts) a ∧ sim c a.
Proof.
  intros HR Hc. pose proof (initial_sim s t scripts HR) as H0. revert H0.
  generalize (a_initial t scripts) as a0. induction Hc as [c|c1 c2 c3 H12 H23 IH]; intros a0 H0.
  { exists a0. split; [apply rtc_refl|done]. }
  assert (H2 : simulated c2 a0)
    by (destruct H12; [by eapply step_simulated|by eapply spurious_simulated]).
  destruct H2 as (a1 & Ha1 & Hs1). destruct (IH a1 Hs1) as (a2 & Ha2 & Hs2).
  exists a2. split; [by etrans|done].
Qed.

(** ** Where the threads come to rest *)

(** A thread has returned from every call. *)

Definition finished (th : thread) : Prop := t_phase th = Idle ∧ t_todo th = [].

(** A thread waits for one of the flags its operation waits for. *)

Definition blocked (s : St) (th : thread) : Prop :=
  ∃ o flags k, t_phase th = Sleeping o (Wait flags k) ∧ may_wait o flags ∧ any_set flags s = false.

Definition stuck (c : config) : Prop := ∀ c', ¬ step c c'.

(** The thread that holds the mutex can make a step. *)

Lemma holder_steps s ths (t : Q) i d th o p s0 :
  ths !! i = Some th → t_phase th = Running o p → locked o t d s0 s p →
  ∃ c', step (mk_config s (Some (i, d)) ths) c'.
Proof.
  intros Hi Hp Hl.
  assert (Hs : ∀ s' m' ph' w, run_step i s (Some (i, d)) (Running o p) s' m' ph' w →
    ∃ c', step (mk_config s (Some (i, d)) ths) c').
  { intros s' m' ph' w Hr. eexists. eapply step_run; [exact Hi|]. rewrite Hp. exact Hr. }
  assert (Hacq : acquire i (Some (i, d)) = Some (Some (i, S d))).
  { cbn. by rewrite decide_True. }
  assert (Hrel : (0 < d)%nat → ∃ m', release i (Some (i, d)) = Some m').
  { destruct d; [lia|]. intros _. cbn. rewrite decide_True by done. eauto. }
  destruct p as [r|k|k|k|k|f k| |flags k|flags k]; cbn in Hl; try done.
  - eapply Hs, run_lock, Hacq.
  - destruct Hrel as [m' Hm]; [destruct d; [done|lia]|]. eapply Hs, run_unlock, Hm.
  - eapply Hs, run_broadcast.
  - eapply Hs, run_read.
  - eapply Hs, run_write.
  - destruct Hl as (-> & _). destruct (any_set flags s) eqn:Hf; [eapply Hs, run_wait_done, Hf|].
    destruct Hrel as [m' Hm]; [lia|]. eapply Hs, run_wait; [exact Hf|exact Hm].
  - destruct Hl as (-> & _). destruct (any_set flags s) eqn:Hf; [eapply Hs, run_timed_done, Hf|].
    destruct Hrel as [m' Hm]; [lia|]. eapply Hs, run_timed; [exact Hf|exact Hm].
Qed.

(** When no step is left the mutex is free and every thread has finished or waits for flags that
    are not set. *)

Theorem stuck_blocked c a :
  sim c a → stuck c →
  mutex c = None ∧ Rel (shared c) (fst a) ∧
  ∀ i th, threads c !! i = Some th → finished th ∨ blocked (shared c) th.
Proof.
  intros Hsim Hst. destruct c as [s m ths]. cbn.
  assert (Hm : m = None).
  { destruct m as [[i d]|]; [|done]. exfalso.
    destruct (sim_held _ _ Hsim i d eq_refl) as (th & o & p & s0 & Hi & Hp & Hl & _).
    destruct (holder_steps s ths (fst a) i d th o p s0 Hi Hp Hl) as [c' Hc]. by apply (Hst c'). }
  subst m. destruct (sim_free _ _ Hsim eq_refl) as [HR HU]. split; [done|]. split; [done|].
  intros i th Hi. cbn in *.
  assert (Hs : ∀ s' m' ph' w, ¬ run_step i s None (t_phase th) s' m' ph' w).
  { intros s' m' ph' w Hr. eapply Hst, step_run; [exact Hi|exact Hr]. }
  destruct (threads_sim_lookup _ _ _ _ _ (sim_threads _ _ Hsim) Hi) as (at' & Ha & H1 & H2 & H3).
  destruct th as [[|o p|o p|o p] todo rs]; cbn in *.
  - left. split; [done|]. destruct todo as [|o todo]; [done|]. exfalso. eapply Hst, step_call, Hi.
  - exfalso. destruct H3 as [[[] _]|[_ [[_ (k & -> & _)]|(r & -> & _)]]].
    + by eapply Hs, run_lock.
    + eapply Hst, step_return, Hi.
  - destruct H3 as [_ Hw]. pose proof (HU i _ o p Hi eq_refl) as Hf.
    destruct p as [| | | | | | |flags k|flags k]; try done.
    + right. exists o, flags, k. split; [done|]. split; [apply Hw|done].
    + exfalso. eapply Hs, run_timeout.
  - exfalso. by eapply Hs, run_wake.
Qed.

End Machine.
