(* ===== verification/Fifo.v ===== *)
(** * Flags and bounded queues shared by threads (src/src/libguac/flag.c, fifo.c)

    The functions of both files as programs of the machine of Threads.v, one step
    for each access to the shared structure, and what the queue promises: every
    interleaving of threads that call it is one of atomic operations on a
    bounded queue, and threads wait only for what has not come. *)

From S2P Require Import Prelude RecordUpdate Threads.
From stdpp Require Import relations.
Local Open Scope Z_scope.

Local Abbreviation len l := (Z.of_nat (List.length l)).

(** ** flag.c *)

Definition NANOS_PER_SECOND : Z := 1000000000.

(** The structure a flag is a member of. *)

Class Flag (St : Type) := {
  flag_value : St → Z;
  set_flag_value : Z → St → St;
}.

Section Flags.

Context `{Flag St}.

(** [value_changed] and [value_mutex] are the machine's. *)

Definition guac_flag_init : prog St () := Write (set_flag_value 0) (Return ()).

Definition guac_flag_lock : prog St () := Lock (Return ()).

Definition guac_flag_unlock : prog St () := Unlock (Return ()).

Definition guac_flag_set_and_lock (flags : Z) : prog St () :=
  _ ← guac_flag_lock;
  Read (λ s, let old_value := flag_value s in
  Write (λ s, set_flag_value (Z.lor (flag_value s) flags) s)
  (Read (λ s, if negb (flag_value s =? old_value) then Broadcast (Return ()) else Return ()))).

Definition guac_flag_set (flags : Z) : prog St () :=
  _ ← guac_flag_set_and_lock flags; guac_flag_unlock.

Definition guac_flag_clear_and_lock (flags : Z) : prog St () :=
  _ ← guac_flag_lock;
  Write (λ s, set_flag_value (Z.land (flag_value s) (Z.lnot flags)) s) (Return ()).

Definition guac_flag_clear (flags : Z) : prog St () :=
  _ ← guac_flag_clear_and_lock flags; guac_flag_unlock.

Definition guac_flag_wait_and_lock (flags : Z) : prog St () :=
  _ ← guac_flag_lock; Wait flags (Return ()).

(** The moment a wait of [msec_timeout] ends, from the seconds and nanoseconds of the clock; the
    product is one of 32-bit integers. *)

Definition timeout_deadline (msec_timeout tv_sec tv_nsec : Z) : Z * Z :=
  let nsec_timeout := u32 (msec_timeout * 1000000) + tv_nsec in
  (tv_sec + nsec_timeout / NANOS_PER_SECOND, nsec_timeout `mod` NANOS_PER_SECOND).

Definition guac_flag_timedwait_and_lock (flags msec_timeout : Z) : prog St Z :=
  _ ← guac_flag_lock;
  if msec_timeout =? 0 then
    Read (λ s, let retval := Z.land (flag_value s) flags in
      if retval =? 0 then (_ ← guac_flag_unlock; Return retval) else Return retval)
  else
    Timed_wait flags (λ set,
      if set then Return 1 else (_ ← guac_flag_unlock; Return 0)).

End Flags.

(** ** fifo.c *)

Definition GUAC_FIFO_STATE_READY : Z := 1.
Definition GUAC_FIFO_STATE_NONEMPTY : Z := 2.
Definition GUAC_FIFO_STATE_INVALID : Z := 4.

Section Fifo.

(** An item is a block of [item_size] bytes. *)

Context {Item : Type}.

Record guac_fifo := mk_fifo {
  state : Z;
  max_items : Z;
  item_size : Z;
  head : Z;
  item_count : Z;
  items : list Item;
}.

#[export] Instance eta_fifo : Eta guac_fifo :=
  λ f, mk_fifo (state f) (max_items f) (item_size f) (head f) (item_count f) (items f).

#[export] Instance fifo_flag : Flag guac_fifo :=
  {| flag_value := state; set_flag_value v f := f <| state := v |> |}.

Abbreviation fifo_prog := (prog guac_fifo).

Definition guac_fifo_init (storage : list Item) (max size : Z) : fifo_prog () :=
  _ ← Write (λ f, f <| items := storage |> <| max_items := max |> <| item_size := size |>) (Return ());
  _ ← guac_flag_init;
  _ ← guac_flag_set GUAC_FIFO_STATE_READY;
  Write (λ f, f <| head := 0 |> <| item_count := 0 |>) (Return ()).

Definition guac_fifo_invalidate : fifo_prog () := guac_flag_set GUAC_FIFO_STATE_INVALID.

Definition guac_fifo_lock : fifo_prog () := guac_flag_lock.

Definition guac_fifo_unlock : fifo_prog () := guac_flag_unlock.

Definition is_invalid (f : guac_fifo) : bool :=
  negb (Z.land (state f) GUAC_FIFO_STATE_INVALID =? 0).

Definition guac_fifo_is_valid : fifo_prog bool := Read (λ f, Return (negb (is_invalid f))).

(** The part of [guac_fifo_enqueue_and_lock] that stores the item: the number of items is increased
    first. *)

Definition store_item (item : Item) : fifo_prog Z :=
  Write (λ f, f <| item_count := u64 (item_count f + 1) |>)
  (Read (λ f,
    _ ← (if item_count f =? max_items f then guac_flag_clear GUAC_FIFO_STATE_READY else Return ());
    Read (λ f,
      let tail := u64 (head f + item_count f - 1) `mod` max_items f in
      Write (λ f, f <| items := <[Z.to_nat tail := item]> (items f) |>)
      (_ ← guac_flag_set GUAC_FIFO_STATE_NONEMPTY; Return 1)))).

Definition guac_fifo_enqueue_and_lock (item : Item) : fifo_prog Z :=
  _ ← guac_flag_wait_and_lock (Z.lor GUAC_FIFO_STATE_INVALID GUAC_FIFO_STATE_READY);
  Read (λ f,
    if is_invalid f then (_ ← guac_flag_unlock; Return 0)
    else if max_items f <=? item_count f then Abort
    else store_item item).

Definition guac_fifo_enqueue (item : Item) : fifo_prog Z :=
  retval ← guac_fifo_enqueue_and_lock item;
  if retval =? 0 then Return 0 else (_ ← guac_flag_unlock; Return 1).

(** The item that is copied to the caller's buffer; [None] would be a read outside of the array. *)

Definition dequeue : fifo_prog (option Item) :=
  Read (λ f, let item := items f !! Z.to_nat (head f) in
    Write (λ f, f <| item_count := u64 (item_count f - 1) |>
                  <| head := u64 (head f + 1) `mod` max_items f |>)
    (Read (λ f,
      _ ← (if item_count f =? 0 then guac_flag_clear GUAC_FIFO_STATE_NONEMPTY else Return ());
      _ ← guac_flag_set GUAC_FIFO_STATE_READY;
      Return item))).

(** The result and the item stored, if any. *)

Definition guac_fifo_dequeue_and_lock : fifo_prog (Z * option Item) :=
  _ ← guac_flag_wait_and_lock (Z.lor GUAC_FIFO_STATE_NONEMPTY GUAC_FIFO_STATE_INVALID);
  Read (λ f,
    if is_invalid f then (_ ← guac_flag_unlock; Return (0, None))
    else (item ← dequeue; Return (1, item))).

Definition guac_fifo_timed_dequeue_and_lock (msec_timeout : Z) : fifo_prog (Z * option Item) :=
  set ← guac_flag_timedwait_and_lock (Z.lor GUAC_FIFO_STATE_NONEMPTY GUAC_FIFO_STATE_INVALID)
          (u32 msec_timeout);
  if set =? 0 then Return (0, None)
  else
    Read (λ f,
      if is_invalid f then (_ ← guac_flag_unlock; Return (0, None))
      else (item ← dequeue; Return (1, item))).

Definition unlock_after (p : fifo_prog (Z * option Item)) : fifo_prog (Z * option Item) :=
  result ← p;
  if fst result =? 0 then Return result else (_ ← guac_flag_unlock; Return (1, snd result)).

Definition guac_fifo_dequeue : fifo_prog (Z * option Item) :=
  unlock_after guac_fifo_dequeue_and_lock.

Definition guac_fifo_timed_dequeue (msec_timeout : Z) : fifo_prog (Z * option Item) :=
  unlock_after (guac_fifo_timed_dequeue_and_lock msec_timeout).

(** ** A bounded queue *)

Context (max : Z) (Hmax : 1 ≤ max < 2 ^ 63).

Record queue := mk_queue {
  contents : list Item;
  valid : bool;
}.

Inductive fifo_operation :=
| op_enqueue (item : Item)
| op_dequeue
| op_timed_dequeue (msec_timeout : Z)
| op_invalidate.

Definition fifo_code (op : fifo_operation) : fifo_prog (Z * option Item) :=
  match op with
  | op_enqueue item => retval ← guac_fifo_enqueue item; Return (retval, None)
  | op_dequeue => guac_fifo_dequeue
  | op_timed_dequeue msec_timeout => guac_fifo_timed_dequeue msec_timeout
  | op_invalidate => _ ← guac_fifo_invalidate; Return (0, None)
  end.

(** What each operation does, at one moment of its call. *)

Inductive queue_step : fifo_operation → queue → queue → Z * option Item → Prop :=
| queue_enqueue item l :
    len l < max →
    queue_step (op_enqueue item) (mk_queue l true) (mk_queue (l ++ [item]) true) (1, None)
| queue_dequeue item l :
    queue_step op_dequeue (mk_queue (item :: l) true) (mk_queue l true) (1, Some item)
| queue_timed_dequeue msec item l :
    queue_step (op_timed_dequeue msec) (mk_queue (item :: l) true) (mk_queue l true) (1, Some item)
| queue_timeout msec q : queue_step (op_timed_dequeue msec) q q (0, None)
| queue_invalidate l v : queue_step op_invalidate (mk_queue l v) (mk_queue l false) (0, None)
| queue_refused op l :
    op ≠ op_invalidate → queue_step op (mk_queue l false) (mk_queue l false) (0, None).

(** The flags of a queue. *)

Definition state_of (full empty valid : bool) : Z :=
  (if full then 0 else 1) + (if empty then 0 else 2) + (if valid then 0 else 4).

(** The memory holds the queue: its items lie in the array from [head] on, wrapping at its end. *)

Record holds (f : guac_fifo) (q : queue) : Prop := {
  holds_max : max_items f = max;
  holds_array : len (items f) = max;
  holds_head : 0 ≤ head f < max;
  holds_count : item_count f = len (contents q);
  holds_fits : len (contents q) ≤ max;
  holds_state : state f = state_of (len (contents q) =? max) (len (contents q) =? 0) (valid q);
  holds_items k : 0 ≤ k < len (contents q) →
    contents q !! Z.to_nat k = items f !! Z.to_nat ((head f + k) `mod` max);
}.

(** The flags an operation waits for. *)

Definition waits_for (op : fifo_operation) (flags : Z) : Prop :=
  match op with
  | op_enqueue _ => flags = 5
  | op_dequeue => flags = 6
  | _ => False
  end.

(** ** Verification *)

Abbreviation fifo_locked := (locked flag_value holds queue_step waits_for).

(** Setting and clearing flags while the mutex is held. *)

Lemma locked_flag_set op q d f0 f flags k :
  fifo_locked op q (S d) f0 f (prog_bind (guac_flag_set flags) (λ _, k)) ↔
  if Z.lor (state f) flags =? state f then fifo_locked op q (S d) f0 f k
  else fifo_locked op q (S d) (f <| state := Z.lor (state f) flags |>)
         (f <| state := Z.lor (state f) flags |>) k.
Proof.
  cbn. destruct (Z.eqb_spec (Z.lor (state f) flags) (state f)) as [E|E]; cbn; [|done].
  rewrite E. by destruct f.
Qed.

Lemma locked_flag_set_quiet op q d f0 f flags k :
  quiet flag_value f0 f →
  (∀ f0', quiet flag_value f0' (f <| state := Z.lor (state f) flags |>) →
    fifo_locked op q (S d) f0' (f <| state := Z.lor (state f) flags |>) k) →
  fifo_locked op q (S d) f0 f (prog_bind (guac_flag_set flags) (λ _, k)).
Proof.
  intros Hq Hk. apply locked_flag_set. destruct (Z.eqb_spec (Z.lor (state f) flags) (state f)) as [E|E].
  - specialize (Hk f0). rewrite E in Hk. destruct f. by apply Hk.
  - apply Hk. by intros ?.
Qed.

Lemma locked_flag_clear op q d f0 f flags k :
  fifo_locked op q (S d) f0 f (prog_bind (guac_flag_clear flags) (λ _, k)) ↔
  fifo_locked op q (S d) f0 (f <| state := Z.land (state f) (Z.lnot flags) |>) k.
Proof. done. Qed.

Lemma quiet_subset f0 f :
  Z.land (state f) (state f0) = state f → quiet flag_value f0 f.
Proof.
  intros E flags. unfold any_set. cbn. rewrite !negb_false_iff, !Z.eqb_eq. intros H0.
  rewrite <-E, <-Z.land_assoc, H0. apply Z.land_0_r.
Qed.

Lemma state_of_valid full empty v : Z.land (state_of full empty v) 4 = if v then 0 else 4.
Proof. by destruct full, empty, v. Qed.

Lemma is_invalid_holds f q : holds f q → is_invalid f = negb (valid q).
Proof.
  intros [_ _ _ _ _ E _]. unfold is_invalid. rewrite E. unfold GUAC_FIFO_STATE_INVALID.
  rewrite state_of_valid. by destruct (valid q).
Qed.

(** The queue after an item is stored behind the last. *)

Lemma holds_enqueue f l item :
  holds f (mk_queue l true) → len l < max →
  holds (mk_fifo (state_of (len l + 1 =? max) false true) max (item_size f) (head f) (len l + 1)
           (<[Z.to_nat (u64 (head f + (len l + 1) - 1) `mod` max) := item]> (items f)))
        (mk_queue (l ++ [item]) true).
Proof.
  intros [H1 H2 H3 H4 H5 H6 H7] Hl. cbn in *.
  assert (Hlen : len (l ++ [item]) = len l + 1) by (rewrite length_app; cbn; lia).
  unfold u64. rewrite (Z.mod_small (head f + (len l + 1) - 1)) by lia.
  replace (head f + (len l + 1) - 1) with (head f + len l) by lia.
  pose proof (Z.mod_pos_bound (head f + len l) max) as Htail.
  split; cbn; rewrite ?Hlen, ?length_insert; try lia.
  - f_equal. symmetry. apply Z.eqb_neq. lia.
  - intros k Hk. destruct (decide (k = len l)) as [->|Hne].
    + rewrite Nat2Z.id, lookup_app_r by lia. rewrite Nat.sub_diag.
      rewrite list_lookup_insert_eq by lia. done.
    + rewrite lookup_app_l by lia. rewrite H7 by lia. rewrite list_lookup_insert_ne; [done|].
      pose proof (Z.mod_pos_bound (head f + k) max). intros E.
      assert (E' : (head f + len l) `mod` max = (head f + k) `mod` max) by lia.
      destruct (Z_lt_le_dec (head f + len l) max) as [A|A], (Z_lt_le_dec (head f + k) max) as [B|B].
      * rewrite !Z.mod_small in E' by lia. lia.
      * lia.
      * rewrite (Z.mod_small (head f + k)) in E' by lia.
        rewrite <-(Z.mod_unique (head f + len l) max 1 (head f + len l - max)) in E' by lia. lia.
      * rewrite <-(Z.mod_unique (head f + len l) max 1 (head f + len l - max)) in E' by lia.
        rewrite <-(Z.mod_unique (head f + k) max 1 (head f + k - max)) in E' by lia. lia.
Qed.

Lemma holds_dequeue f item l v :
  holds f (mk_queue (item :: l) v) →
  items f !! Z.to_nat (head f) = Some item ∧
  holds (mk_fifo (state_of false (len l =? 0) v) max (item_size f) (u64 (head f + 1) `mod` max)
           (len l) (items f))
        (mk_queue l v).
Proof.
  intros [H1 H2 H3 H4 H5 H6 H7]. cbn in *. split.
  { specialize (H7 0 ltac:(lia)). cbn in H7. rewrite Z.add_0_r, Z.mod_small in H7 by lia. done. }
  unfold u64. rewrite (Z.mod_small (head f + 1)) by lia.
  pose proof (Z.mod_pos_bound (head f + 1) max) as Hh.
  split; cbn; try lia.
  - f_equal. symmetry. apply Z.eqb_neq. lia.
  - intros k Hk. specialize (H7 (k + 1) ltac:(lia)).
    replace (Z.to_nat (k + 1)) with (S (Z.to_nat k)) in H7 by lia.
    etrans; [exact H7|]. rewrite Zplus_mod_idemp_l. do 3 f_equal. lia.
Qed.

(** *** Adding an item *)

Lemma locked_enqueue op item f l k :
  holds f (mk_queue l true) → len l < max →
  (∀ f0 f', holds f' (mk_queue (l ++ [item]) true) → quiet flag_value f0 f' →
    fifo_locked op (mk_queue l true) 1 f0 f' (k 1)) →
  fifo_locked op (mk_queue l true) 1 f f (prog_bind (store_item item) k).
Proof.
  intros Hf Hl Hk. pose proof (holds_enqueue f l item Hf Hl) as Hf'.
  destruct Hf as [H1 H2 H3 H4 H5 H6 H7]. destruct f as [st mx sz hd ct its].
  cbn [max_items items head item_count state item_size contents valid] in *. subst st mx ct.
  assert (Ec : u64 (len l + 1) = len l + 1) by (unfold u64; apply Z.mod_small; lia).
  unfold store_item. cbn [prog_bind locked]. unfold set.
  cbn [max_items items head item_count state item_size]. rewrite Ec.
  set (st1 := state_of (len l =? max) _ _).
  assert (Hlast : ∀ st, state_of (len l + 1 =? max) false true = Z.lor st 2 → Z.land st st1 = st →
    fifo_locked op (mk_queue l true) 1
      (mk_fifo st1 max sz hd (len l) its) (mk_fifo st max sz hd (len l + 1) its)
      (prog_bind (Read (λ f,
        let tail := u64 (head f + item_count f - 1) `mod` max_items f in
        Write (λ f, f <| items := <[Z.to_nat tail := item]> (items f) |>)
        (_ ← guac_flag_set GUAC_FIFO_STATE_NONEMPTY; Return 1))) k)).
  { intros st Est Hsub. cbn [prog_bind locked]. unfold set.
    cbn [max_items items head item_count state item_size].
    apply locked_bind_assoc, locked_flag_set_quiet; [by apply quiet_subset|]. intros f0' Hq.
    apply Hk; [|exact Hq]. cbn [max_items items head item_count state item_size set].
    change GUAC_FIFO_STATE_NONEMPTY with 2. rewrite <-Est. exact Hf'. }
  apply locked_bind_assoc. destruct (Z.eqb_spec (len l + 1) max) as [E|E].
  - apply locked_flag_clear. unfold set. cbn [max_items items head item_count state item_size].
    apply Hlast; unfold st1; rewrite (proj2 (Z.eqb_neq (len l) max)) by lia; by destruct (len l =? 0).
  - apply Hlast; unfold st1; rewrite (proj2 (Z.eqb_neq (len l) max)) by lia; by destruct (len l =? 0).
Qed.

(** *** Taking an item *)

Lemma locked_dequeue op item f l k :
  holds f (mk_queue (item :: l) true) →
  (∀ f0 f', holds f' (mk_queue l true) → quiet flag_value f0 f' →
    fifo_locked op (mk_queue (item :: l) true) 1 f0 f' (k (Some item))) →
  fifo_locked op (mk_queue (item :: l) true) 1 f f (prog_bind dequeue k).
Proof.
  intros Hf Hk. destruct (holds_dequeue f item l true Hf) as [Hit Hf'].
  destruct Hf as [H1 H2 H3 H4 H5 H6 H7]. destruct f as [st mx sz hd ct its].
  cbn [max_items items head item_count state item_size contents valid List.length] in *. subst st mx ct.
  assert (Ec : u64 (Z.of_nat (S (List.length l)) - 1) = len l) by (unfold u64; rewrite Z.mod_small; lia).
  unfold dequeue. cbn [prog_bind locked]. unfold set.
  cbn [max_items items head item_count state item_size]. rewrite Ec, Hit.
  set (st1 := state_of (Z.of_nat (S (List.length l)) =? max) _ _).
  assert (Hlast : ∀ st, state_of false (len l =? 0) true = Z.lor st 1 → Z.land st st1 = st →
    fifo_locked op (mk_queue (item :: l) true) 1
      (mk_fifo st1 max sz hd (Z.of_nat (S (List.length l))) its)
      (mk_fifo st max sz (u64 (hd + 1) `mod` max) (len l) its)
      (prog_bind (guac_flag_set GUAC_FIFO_STATE_READY) (λ _, k (Some item)))).
  { intros st Est Hsub. apply locked_flag_set_quiet; [by apply quiet_subset|]. intros f0' Hq.
    apply Hk; [|exact Hq]. cbn [max_items items head item_count state item_size set].
    change GUAC_FIFO_STATE_READY with 1. rewrite <-Est. exact Hf'. }
  destruct (Z.eqb_spec (len l) 0) as [E|E].
  - apply locked_bind_assoc, locked_flag_clear, locked_bind_assoc. unfold set. cbn [max_items items head item_count state item_size].
    apply Hlast; unfold st1; by destruct (_ =? max).
  - apply locked_bind_assoc. cbn [prog_bind].
    apply locked_bind_assoc, Hlast; unfold st1; by destruct (_ =? max).
Qed.

(** *** The operations *)

Lemma any_set_enqueue f q :
  holds f q → any_set flag_value 5 f = true → valid q = true → len (contents q) < max.
Proof.
  intros [_ _ _ _ H5 H6 _]. unfold any_set. cbn. rewrite H6. intros Hs Hv. rewrite Hv in Hs.
  destruct (Z.eqb_spec (len (contents q)) max); [|lia]. by destruct (_ =? 0).
Qed.

Lemma any_set_dequeue f q :
  holds f q → any_set flag_value 6 f = true → valid q = true → ∃ item l, contents q = item :: l.
Proof.
  intros [_ _ _ _ H5 H6 _]. unfold any_set. cbn. rewrite H6. intros Hs Hv. rewrite Hv in Hs.
  destruct (contents q) as [|item l]; [|eauto]. by destruct (_ =? max).
Qed.

(** A wait goes on only while the queue is full, or empty. *)

Lemma blocked_enqueue f q :
  holds f q → any_set flag_value 5 f = false → valid q = true ∧ len (contents q) = max.
Proof.
  intros [_ _ _ _ H5 H6 _]. unfold any_set. cbn. rewrite H6.
  destruct (Z.eqb_spec (len (contents q)) max), (_ =? 0), (valid q); done.
Qed.

Lemma blocked_dequeue f q :
  holds f q → any_set flag_value 6 f = false → valid q = true ∧ contents q = [].
Proof.
  intros [_ _ _ _ H5 H6 _]. unfold any_set. cbn. rewrite H6.
  destruct (contents q); cbn; destruct (_ =? max), (valid q); done.
Qed.

Lemma quiet_refl (f : guac_fifo) : quiet flag_value f f.
Proof. by intros ?. Qed.

(** A program that releases the mutex with the specification met. *)

Lemma locked_unlock op q f0 f q' r :
  quiet flag_value f0 f → queue_step op q q' r → holds f q' →
  fifo_locked op q 1 f0 f (Unlock (Return r)).
Proof. intros Hq Hs Hf. split; [done|]. by exists q', r. Qed.

Lemma enqueue_ready item :
  ready flag_value holds queue_step waits_for (op_enqueue item) (fifo_code (op_enqueue item)).
Proof.
  eexists. split; [reflexivity|]. intros f q Hf. cbn [prog_bind locked].
  split; [done|]. split; [done|]. split; [done|]. split; [done|].
  clear f q Hf. intros f [l v] Hf Hs. cbn [locked]. rewrite (is_invalid_holds f _ Hf).
  destruct v; cbn [negb valid].
  - pose proof (any_set_enqueue f _ Hf Hs eq_refl) as Hl. cbn in Hl.
    pose proof Hf as [H1 _ _ H4 _ _ _]. cbn in H4. rewrite H1, H4, (proj2 (Z.leb_gt _ _)) by lia.
    apply locked_bind_assoc, locked_enqueue; [done|done|]. intros f0 f' Hf' Hq.
    eapply locked_unlock; [exact Hq|by apply queue_enqueue|exact Hf'].
  - eapply locked_unlock; [apply quiet_refl|by apply queue_refused|exact Hf].
Qed.

(** What follows the wait of either function that takes an item. *)

Lemma take_locked op f q :
  (∀ item l, queue_step op (mk_queue (item :: l) true) (mk_queue l true) (1, Some item)) →
  op ≠ op_invalidate → holds f q → (valid q = true → ∃ item l, contents q = item :: l) →
  fifo_locked op q 1 f f
    (prog_bind (Read (λ f,
      if is_invalid f then (_ ← guac_flag_unlock; Return (0, None))
      else (item ← dequeue; Return (1, item))))
      (λ result, if fst result =? 0 then Return result
                 else (_ ← guac_flag_unlock; Return (1, snd result)))).
Proof.
  intros Hop Hop2 Hf Hv. cbn [prog_bind locked]. rewrite (is_invalid_holds f _ Hf).
  destruct q as [l [|]]; cbn [negb valid].
  - destruct (Hv eq_refl) as (item & l' & E). cbn in E. subst l.
    apply locked_bind_assoc, locked_dequeue; [done|]. intros f0 f' Hf' Hq.
    eapply locked_unlock; [exact Hq|apply Hop|exact Hf'].
  - eapply locked_unlock; [apply quiet_refl|by apply queue_refused|exact Hf].
Qed.

Lemma dequeue_ready :
  ready flag_value holds queue_step waits_for op_dequeue (fifo_code op_dequeue).
Proof.
  eexists. split; [reflexivity|]. intros f q Hf. cbn [prog_bind locked].
  split; [done|]. split; [done|]. split; [done|]. split; [done|].
  clear f q Hf. intros f q Hf Hs. apply take_locked; [apply queue_dequeue|done|done|].
  by apply (any_set_dequeue f).
Qed.

Lemma timed_dequeue_ready msec :
  ready flag_value holds queue_step waits_for (op_timed_dequeue msec) (fifo_code (op_timed_dequeue msec)).
Proof.
  cbn [fifo_code]. unfold guac_fifo_timed_dequeue, unlock_after, guac_fifo_timed_dequeue_and_lock,
    guac_flag_timedwait_and_lock.
  eexists. split; [reflexivity|]. intros f q Hf. cbn [prog_bind].
  destruct (u32 msec =? 0).
  - cbn [prog_bind locked]. change (flag_value f) with (state f).
    destruct (Z.eqb_spec (Z.land (state f) (Z.lor GUAC_FIFO_STATE_NONEMPTY GUAC_FIFO_STATE_INVALID)) 0)
      as [E|E].
    + cbn [prog_bind]. rewrite E. eapply locked_unlock; [apply quiet_refl|by apply queue_timeout|exact Hf].
    + cbn [prog_bind]. rewrite (proj2 (Z.eqb_neq _ _)) by done.
      apply take_locked; [apply queue_timed_dequeue|done|done|].
      apply (any_set_dequeue f); [done|]. unfold any_set. by apply negb_true_iff, Z.eqb_neq.
  - cbn [prog_bind locked]. split; [done|]. split; [done|]. split; [done|].
    split; clear f q Hf; intros f q Hf.
    + intros Hs. apply take_locked; [apply queue_timed_dequeue|done|done|]. by apply (any_set_dequeue f).
    + eapply locked_unlock; [apply quiet_refl|by apply queue_timeout|exact Hf].
Qed.

Lemma invalidate_ready :
  ready flag_value holds queue_step waits_for op_invalidate (fifo_code op_invalidate).
Proof.
  eexists. split; [reflexivity|]. intros f [l v] Hf. cbn [locked].
  assert (Hf' : holds (f <| state := Z.lor (state f) 4 |>) (mk_queue l false)).
  { destruct Hf as [H1 H2 H3 H4 H5 H6 H7]. split; try done. cbn in *. rewrite H6.
    by destruct (_ =? max), (_ =? 0), v. }
  change (flag_value f) with (state f).
  set (f' := set_flag_value _ f). change (holds f' (mk_queue l false)) in Hf'.
  assert (Hend : ∀ f0, quiet flag_value f0 f' →
    fifo_locked op_invalidate (mk_queue l v) 1 f0 f' (Unlock (Return (0, None)))).
  { intros f0 Hq. eapply locked_unlock; [exact Hq|apply queue_invalidate|exact Hf']. }
  change (flag_value f') with (Z.lor (state f) 4).
  destruct (Z.eqb_spec (Z.lor (state f) 4) (state f)) as [E|E]; cbn [negb prog_bind locked].
  - apply Hend, quiet_subset. change (state f') with (Z.lor (state f) 4). rewrite E. apply Z.land_diag.
  - apply Hend, quiet_refl.
Qed.

Lemma fifo_ready op : ready flag_value holds queue_step waits_for op (fifo_code op).
Proof.
  destruct op; [apply enqueue_ready|apply dequeue_ready|apply timed_dequeue_ready|apply invalidate_ready].
Qed.

(** *** The initial queue *)

Lemma init_holds (f : guac_fifo) storage size :
  len storage = max →
  alone flag_value (guac_fifo_init storage max size) f = Some ((), mk_fifo 1 max size 0 0 storage) ∧
  holds (mk_fifo 1 max size 0 0 storage) (mk_queue [] true).
Proof.
  intros Hl. split; [done|].
  split; [done|done|cbn; lia|done|cbn; lia| |intros k Hk; cbn in Hk; lia].
  cbn [contents List.length]. change (Z.of_nat 0) with 0.
  rewrite (proj2 (Z.eqb_neq 0 max)) by lia. done.
Qed.

End Fifo.

(** ** The properties *)

Definition fifo_initial {Item} (storage : list Item) (max size : Z)
    (scripts : list (list (fifo_operation (Item := Item))))
    : config (St := guac_fifo) (Op := fifo_operation) (Res := Z * option Item) :=
  initial (mk_fifo 1 max size 0 0 storage) scripts.

Abbreviation fifo_run Item :=
  (rtc (any_step flag_value (fifo_code (Item := Item)))).

(** C32.  Threads that call the operations of an initialised queue, however their steps interleave and
    whenever a wait wakes for nothing or times out, do what atomic operations on a bounded
    queue do: items are taken in the order they were added, none is lost or taken twice, no
    more than [max_items] are stored, nothing is accepted or handed out once the queue is
    invalid, and every call returns what its operation says.  While the mutex is free the
    memory holds the contents of the queue. *)
Theorem fifo_refines_queue {Item} (storage : list Item) max size scripts c :
  1 ≤ max < 2 ^ 63 → len storage = max →
  fifo_run Item (fifo_initial storage max size scripts) c →
  ∃ q athreads, rtc (a_step (queue_step max)) (a_initial (mk_queue [] true) scripts) (q, athreads) ∧
    List.length athreads = List.length (threads c) ∧
    (∀ i th a, threads c !! i = Some th → athreads !! i = Some a →
       at_todo a = t_todo th ∧ at_results a = t_results th) ∧
    (mutex c = None → holds max (shared c) q).
Proof.
  intros Hmax Hl Hc.
  destruct (simulation flag_value fifo_code (holds max) (queue_step max) waits_for (fifo_ready max Hmax)
    _ (mk_queue [] true) scripts c (proj2 (init_holds max Hmax (mk_fifo 0 0 0 0 0 []) storage size Hl)) Hc)
    as ([q aths] & Ha & Hs).
  exists q, aths. split; [done|]. split; [|split].
  - destruct Hs as [HT _ _]. cbn in HT. apply Nat.le_antisymm.
    + destruct (decide (List.length aths ≤ List.length (threads c))%nat) as [|Hn]; [done|].
      specialize (HT (List.length (threads c))). rewrite lookup_ge_None_2 in HT by lia.
      destruct (aths !! _) eqn:E; [done|]. apply lookup_ge_None in E. lia.
    + destruct (decide (List.length (threads c) ≤ List.length aths)%nat) as [|Hn]; [done|].
      specialize (HT (List.length aths)). rewrite (lookup_ge_None_2 aths) in HT by lia.
      destruct (threads c !! _) eqn:E; [done|]. apply lookup_ge_None in E. lia.
  - intros i th a Hi Hai. destruct Hs as [HT _ _]. specialize (HT i). cbn in HT.
    rewrite Hi, Hai in HT. destruct HT as (H1 & H2 & _). by split.
  - intros Hm. by destruct Hs as [_ HF _]; apply HF.
Qed.

(** C33.  No wakeup is lost: threads that call the operations of a queue come to rest after finitely
    many steps (unless a wait is woken for nothing for ever), and then every thread has
    returned from all of its calls, or all that have not are adding to a full queue, or all that
    have not are taking from an empty one. *)
Theorem fifo_comes_to_rest {Item} (storage : list Item) max size scripts c :
  1 ≤ max < 2 ^ 63 → len storage = max →
  fifo_run Item (fifo_initial storage max size scripts) c →
  Acc (flip (step flag_value fifo_code)) c ∧
  (stuck flag_value fifo_code c → ∃ q, holds max (shared c) q ∧
    ((∀ i th, threads c !! i = Some th → finished th) ∨
     valid q = true ∧ len (contents q) = max ∧
       (∀ i th, threads c !! i = Some th → finished th ∨
          ∃ item p, t_phase th = Sleeping (op_enqueue item) p) ∨
     valid q = true ∧ contents q = [] ∧
       (∀ i th, threads c !! i = Some th → finished th ∨
          ∃ p, t_phase th = Sleeping op_dequeue p))).
Proof.
  intros Hmax Hl Hc. split; [apply step_wf|]. intros Hstuck.
  destruct (simulation flag_value fifo_code (holds max) (queue_step max) waits_for (fifo_ready max Hmax)
    _ (mk_queue [] true) scripts c (proj2 (init_holds max Hmax (mk_fifo 0 0 0 0 0 []) storage size Hl)) Hc)
    as ([q aths] & _ & Hs).
  destruct (stuck_blocked _ _ _ _ _ c (q, aths) Hs Hstuck) as (_ & Hq & Hth). cbn in Hq.
  exists q. split; [done|].
  assert (Hblocked : ∀ i th, threads c !! i = Some th → finished th ∨
    (∃ item p, t_phase th = Sleeping (op_enqueue item) p) ∧ valid q = true ∧ len (contents q) = max ∨
    (∃ p, t_phase th = Sleeping op_dequeue p) ∧ valid q = true ∧ contents q = []).
  { intros i th Hi. destruct (Hth i th Hi) as [|(o & flags & k & Hp & Hw & Hf)]; [by left|].
    right. destruct o as [item| | |]; cbn in Hw; [subst flags; left|subst flags; right|done|done].
    - destruct (blocked_enqueue max _ q Hq Hf). eauto.
    - destruct (blocked_dequeue max _ q Hq Hf). eauto. }
  destruct (decide (valid q = true ∧ len (contents q) = max)) as [[Hv Hfull]|Hnf].
  - right. left. split; [done|]. split; [done|]. intros i th Hi.
    destruct (Hblocked i th Hi) as [|[[? _]|(_ & _ & E)]]; [by left|by right|].
    rewrite E in Hfull. cbn in Hfull. lia.
  - destruct (decide (valid q = true ∧ contents q = [])) as [[Hv He]|Hne].
    + right. right. split; [done|]. split; [done|]. intros i th Hi.
      destruct (Hblocked i th Hi) as [|[(_ & _ & E)|[? _]]]; [by left|tauto|by right].
    + left. intros i th Hi. destruct (Hblocked i th Hi) as [|[(_ & E)|(_ & E)]]; [done|tauto|tauto].
Qed.

(** The deadline of [guac_flag_timedwait_and_lock] is a proper time less than 2^32 nanoseconds ahead, and it is
    [msec_timeout] milliseconds ahead if and only if that is at most 4294: beyond, the product of
    32-bit integers wraps and the wait ends early. *)
Theorem timeout_deadline_wraps msec_timeout tv_sec tv_nsec :
  0 ≤ msec_timeout < 2 ^ 32 → 0 ≤ tv_nsec < NANOS_PER_SECOND →
  let '(sec, nsec) := timeout_deadline msec_timeout tv_sec tv_nsec in
  let ahead := sec * NANOS_PER_SECOND + nsec - (tv_sec * NANOS_PER_SECOND + tv_nsec) in
  0 ≤ nsec < NANOS_PER_SECOND ∧ 0 ≤ ahead < 2 ^ 32 ∧
  (ahead = msec_timeout * 1000000 ↔ msec_timeout ≤ 4294).
Proof.
  unfold NANOS_PER_SECOND. intros Hm Hn. unfold timeout_deadline, NANOS_PER_SECOND.
  set (t := u32 (msec_timeout * 1000000) + tv_nsec). cbv zeta.
  pose proof (Z.div_mod t 1000000000 ltac:(lia)) as E.
  pose proof (Z.mod_pos_bound t 1000000000 ltac:(lia)).
  assert (Hu : 0 ≤ u32 (msec_timeout * 1000000) < 2 ^ 32) by (apply Z.mod_pos_bound; lia).
  split; [lia|]. split; [lia|]. split.
  - intros Ha. assert (u32 (msec_timeout * 1000000) = msec_timeout * 1000000) by lia. lia.
  - intros Hle. assert (u32 (msec_timeout * 1000000) = msec_timeout * 1000000)
      by (apply Z.mod_small; lia). lia.
Qed.

(** ** An example: a queue of two numbers, a thread that adds three and one that takes two *)

Definition sample_scripts : list (list (fifo_operation (Item := Z))) :=
  [[op_enqueue 10; op_enqueue 20; op_enqueue 30]; [op_dequeue; op_timed_dequeue 5]].

Definition sample_config := fifo_initial [0; 0] 2 8 sample_scripts.

Lemma fifo_refines_queue_witness :
  ∃ q athreads, rtc (a_step (queue_step 2)) (a_initial (mk_queue [] true) sample_scripts) (q, athreads) ∧
    List.length athreads = List.length (threads sample_config) ∧
    (∀ i th a, threads sample_config !! i = Some th → athreads !! i = Some a →
       at_todo a = t_todo th ∧ at_results a = t_results th) ∧
    (mutex sample_config = None → holds 2 (shared sample_config) q).
Proof. apply (fifo_refines_queue [0; 0] 2 8 sample_scripts); [lia|done|apply rtc_refl]. Defined.

Lemma fifo_comes_to_rest_witness :
  Acc (flip (step flag_value fifo_code)) sample_config ∧
  (stuck flag_value fifo_code sample_config → ∃ q, holds 2 (shared sample_config) q ∧
    ((∀ i th, threads sample_config !! i = Some th → finished th) ∨
     valid q = true ∧ len (contents q) = 2 ∧
       (∀ i th, threads sample_config !! i = Some th → finished th ∨
          ∃ item p, t_phase th = Sleeping (op_enqueue item) p) ∨
     valid q = true ∧ contents q = [] ∧
       (∀ i th, threads sample_config !! i = Some th → finished th ∨
          ∃ p, t_phase th = Sleeping op_dequeue p))).
Proof. apply (fifo_comes_to_rest [0; 0] 2 8 sample_scripts); [lia|done|apply rtc_refl]. Defined.

Lemma timeout_deadline_wraps_witness :
  let '(sec, nsec) := timeout_deadline 5000 100 999999999 in
  let ahead := sec * NANOS_PER_SECOND + nsec - (100 * NANOS_PER_SECOND + 999999999) in
  0 ≤ nsec < NANOS_PER_SECOND ∧ 0 ≤ ahead < 2 ^ 32 ∧ (ahead = 5000 * 1000000 ↔ 5000 ≤ 4294).
Proof. apply (timeout_deadline_wraps 5000 100 999999999); unfold NANOS_PER_SECOND; lia. Defined.
