(* ===== verification/TermTypes.v ===== *)
(** * Data of the terminal emulator (src/src/terminal/terminal/types.h, palette.h, common.c, char-mappings.c)

    Colours, attributes and character cells, the helpers of common.c, and the
    character set tables. *)

From S2P Require Import Prelude Mem Run.
Local Open Scope Z_scope.

(** ** Constants *)

Definition GUAC_CHAR_CONTINUATION : Z := -1.
Definition GUAC_CHAR_SPACE : Z := 32.
Definition GUAC_TERMINAL_MAX_ROWS : Z := 1024.
Definition GUAC_TERMINAL_MAX_COLUMNS : Z := 1024.
Definition GUAC_TERMINAL_MAX_TABS : Z := 16.
Definition GUAC_TERMINAL_COLOR_FOREGROUND : Z := -2.
Definition GUAC_TERMINAL_COLOR_BACKGROUND : Z := -3.
Definition GUAC_TERMINAL_FIRST_DARK : Z := 0.
Definition GUAC_TERMINAL_LAST_DARK : Z := 7.
Definition GUAC_TERMINAL_FIRST_INTENSE : Z := 8.
Definition GUAC_TERMINAL_INTENSE_OFFSET : Z := 8.

(** ** Colours, attributes and cells *)

Record guac_terminal_color := mk_color {
  palette_index : Z;
  red : Z;
  green : Z;
  blue : Z;
}.

Record guac_terminal_attributes := mk_attributes {
  bold : bool;
  half_bright : bool;
  cursor : bool;
  reverse : bool;
  underscore : bool;
  foreground : guac_terminal_color;
  background : guac_terminal_color;
}.

Record guac_terminal_char := mk_char {
  value : Z;
  attributes : guac_terminal_attributes;
  width : Z;
}.

#[export] Instance color_eq_dec : EqDecision guac_terminal_color.
Proof. solve_decision. Defined.
#[export] Instance attributes_eq_dec : EqDecision guac_terminal_attributes.
Proof. solve_decision. Defined.
#[export] Instance char_eq_dec : EqDecision guac_terminal_char.
Proof. solve_decision. Defined.

(** The sign of the result orders the colours. *)

Definition guac_terminal_colorcmp (a b : guac_terminal_color) : Z :=
  if negb (palette_index a =? -1) && negb (palette_index b =? -1)
  then i32 (palette_index a - palette_index b)
  else if negb (red a =? red b) then red a - red b
  else if negb (green a =? green b) then green a - green b
  else if negb (blue a =? blue b) then blue a - blue b
  else 0.

Definition set_cursor_attribute (is_cursor : bool) (c : guac_terminal_char)
    : guac_terminal_char :=
  let a := attributes c in
  mk_char (value c)
    (mk_attributes (bold a) (half_bright a) is_cursor (reverse a) (underscore a)
       (foreground a) (background a))
    (width c).

(** The cell that stands for a column of a wide character but the first. *)

Definition continuation_char (character : guac_terminal_char) : guac_terminal_char :=
  mk_char GUAC_CHAR_CONTINUATION (attributes character) 0.

(** The blank that replaces a column of a broken character. *)

Definition cleared_char (start_char : guac_terminal_char) : guac_terminal_char :=
  mk_char GUAC_CHAR_SPACE (attributes start_char) 1.

Definition is_continuation (c : guac_terminal_char) : bool :=
  value c =? GUAC_CHAR_CONTINUATION.

(** ** common.c *)

Definition guac_terminal_fit_to_range (value min max : Z) : run Z :=
  _ ← GUAC_ASSERT (min <=? max);
  Run (if value <? min then min else if max <? value then max else value).

Definition guac_terminal_has_glyph (codepoint : Z) : bool :=
  negb (codepoint =? 0) && negb (codepoint =? GUAC_CHAR_SPACE)
  && negb (codepoint =? GUAC_CHAR_CONTINUATION).

(** The trailing bytes are stored from the last to the first. *)

Fixpoint encode_trailing (n : nat) (codepoint : Z) (stored : list byte) : Z * list byte :=
  match n with
  | O => (codepoint, stored)
  | S n' =>
      encode_trailing n' (Z.shiftr codepoint 6)
        (zb (Z.lor 0x80 (Z.land codepoint 0x3F)) :: stored)
  end.

(** The bytes stored; the value returned is their number. *)

Definition guac_terminal_encode_utf8 (codepoint : Z) : list byte :=
  let put mask bytes :=
    let '(codepoint', stored) := encode_trailing (Z.to_nat (bytes - 1)) codepoint [] in
    zb (Z.lor mask codepoint') :: stored
  in
  if codepoint <=? 0x7F then put 0x00 1
  else if codepoint <=? 0x7FF then put 0xC0 2
  else if codepoint <=? 0xFFFF then put 0xE0 3
  else if codepoint <=? 0x1FFFFF then put 0xF0 4
  else lit "?".

Lemma fit_to_range_ok v min max :
  min ≤ max → guac_terminal_fit_to_range v min max = Run (Z.max min (Z.min v max)).
Proof.
  intros H. unfold guac_terminal_fit_to_range. rewrite assert_leb by lia. cbn.
  repeat zif; f_equal; lia.
Qed.

Lemma fit_to_range_id v min max :
  min ≤ v ≤ max → guac_terminal_fit_to_range v min max = Run v.
Proof. intros H. rewrite fit_to_range_ok by lia. f_equal. lia. Qed.

Lemma fit_to_range_abort v min max :
  max < min → guac_terminal_fit_to_range v min max = Abort.
Proof.
  intros H. unfold guac_terminal_fit_to_range. by rewrite (proj2 (Z.leb_gt min max) H).
Qed.

(** ** char-mappings.c *)

Definition vt100_map : list Z :=
  [32; 33; 34; 35; 36; 37; 38; 39; 40; 41; 42; 43; 44; 45; 46; 47;
   48; 49; 50; 51; 52; 53; 54; 55; 56; 57; 58; 59; 60; 61; 62; 63;
   64; 65; 66; 67; 68; 69; 70; 71; 72; 73; 74; 75; 76; 77; 78; 79;
   80; 81; 82; 83; 84; 85; 86; 87; 88; 89; 90; 91; 92; 93; 94; 95;
   0x25C6; 0x2592; 0x2409; 0x240C; 0x240D; 0x240A; 0x00B0; 0x00B1; 0x2424; 0x240B; 0x2518; 0x2510; 0x250C; 0x2514; 0x253C; 0x23BA;
   0x23BB; 0x2500; 0x23BC; 0x23BD; 0x251C; 0x2524; 0x2534; 0x252C; 0x2502; 0x2264; 0x2265; 0x03C0; 0x2260; 0x00A3; 0x00B7; 0x007F;
   0x0080; 0x0081; 0x0082; 0x0083; 0x0084; 0x0085; 0x0086; 0x0087; 0x0088; 0x0089; 0x008A; 0x008B; 0x008C; 0x008D; 0x008E; 0x008F;
   0x0090; 0x0091; 0x0092; 0x0093; 0x0094; 0x0095; 0x0096; 0x0097; 0x0098; 0x0099; 0x009A; 0x009B; 0x009C; 0x009D; 0x009E; 0x009F;
   0x00A0; 0x00A1; 0x00A2; 0x00A3; 0x00A4; 0x00A5; 0x00A6; 0x00A7; 0x00A8; 0x00A9; 0x00AA; 0x00AB; 0x00AC; 0x00AD; 0x00AE; 0x00AF;
   0x00B0; 0x00B1; 0x00B2; 0x00B3; 0x00B4; 0x00B5; 0x00B6; 0x00B7; 0x00B8; 0x00B9; 0x00BA; 0x00BB; 0x00BC; 0x00BD; 0x00BE; 0x00BF;
   0x00C0; 0x00C1; 0x00C2; 0x00C3; 0x00C4; 0x00C5; 0x00C6; 0x00C7; 0x00C8; 0x00C9; 0x00CA; 0x00CB; 0x00CC; 0x00CD; 0x00CE; 0x00CF;
   0x00D0; 0x00D1; 0x00D2; 0x00D3; 0x00D4; 0x00D5; 0x00D6; 0x00D7; 0x00D8; 0x00D9; 0x00DA; 0x00DB; 0x00DC; 0x00DD; 0x00DE; 0x00DF;
   0x00E0; 0x00E1; 0x00E2; 0x00E3; 0x00E4; 0x00E5; 0x00E6; 0x00E7; 0x00E8; 0x00E9; 0x00EA; 0x00EB; 0x00EC; 0x00ED; 0x00EE; 0x00EF;
   0x00F0; 0x00F1; 0x00F2; 0x00F3; 0x00F4; 0x00F5; 0x00F6; 0x00F7; 0x00F8; 0x00F9; 0x00FA; 0x00FB; 0x00FC; 0x00FD; 0x00FE; 0x00FF].

Definition null_map : list Z :=
  [32; 33; 34; 35; 36; 37; 38; 39; 40; 41; 42; 43; 44; 45; 46; 47;
   48; 49; 50; 51; 52; 53; 54; 55; 56; 57; 58; 59; 60; 61; 62; 63;
   64; 65; 66; 67; 68; 69; 70; 71; 72; 73; 74; 75; 76; 77; 78; 79;
   80; 81; 82; 83; 84; 85; 86; 87; 88; 89; 90; 91; 92; 93; 94; 95;
   96; 97; 98; 99; 100; 101; 102; 103; 104; 105; 106; 107; 108; 109; 110; 111;
   112; 113; 114; 115; 116; 117; 118; 119; 120; 121; 122; 123; 124; 125; 126; 0x007F;
   0x00C7; 0x00FC; 0x00E9; 0x00E2; 0x00E4; 0x00E0; 0x00E5; 0x00E7; 0x00EA; 0x00EB; 0x00E8; 0x00EF; 0x00EE; 0x00EC; 0x00C4; 0x00C5;
   0x00C9; 0x00E6; 0x00C6; 0x00F4; 0x00F6; 0x00F2; 0x00FB; 0x00F9; 0x00FF; 0x00D6; 0x00DC; 0x00A2; 0x00A3; 0x00A5; 0x20A7; 0x0192;
   0x00E1; 0x00ED; 0x00F3; 0x00FA; 0x00F1; 0x00D1; 0x00AA; 0x00BA; 0x00BF; 0x2310; 0x00AC; 0x00BD; 0x00BC; 0x00A1; 0x00AB; 0x00BB;
   0x2591; 0x2592; 0x2593; 0x2502; 0x2524; 0x2561; 0x2562; 0x2556; 0x2555; 0x2563; 0x2551; 0x2557; 0x255D; 0x255C; 0x255B; 0x2510;
   0x2514; 0x2534; 0x252C; 0x251C; 0x2500; 0x253C; 0x255E; 0x255F; 0x255A; 0x2554; 0x2569; 0x2566; 0x2560; 0x2550; 0x256C; 0x2567;
   0x2568; 0x2564; 0x2565; 0x2559; 0x2558; 0x2552; 0x2553; 0x256B; 0x256A; 0x2518; 0x250C; 0x2588; 0x2584; 0x258C; 0x2590; 0x2580;
   0x03B1; 0x00DF; 0x0393; 0x03C0; 0x03A3; 0x03C3; 0x00B5; 0x03C4; 0x03A6; 0x0398; 0x03A9; 0x03B4; 0x221E; 0x03C6; 0x03B5; 0x2229;
   0x2261; 0x00B1; 0x2265; 0x2264; 0x2320; 0x2321; 0x00F7; 0x2248; 0x00B0; 0x2219; 0x00B7; 0x221A; 0x207F; 0x00B2; 0x25A0; 0x000A].

Definition user_map : list Z :=
  [32; 33; 34; 35; 36; 37; 38; 39; 40; 41; 42; 43; 44; 45; 46; 47;
   48; 49; 50; 51; 52; 53; 54; 55; 56; 57; 58; 59; 60; 61; 62; 63;
   0x00A7; 65; 66; 67; 68; 69; 70; 71; 72; 73; 74; 75; 76; 77; 78; 79;
   80; 81; 82; 83; 84; 85; 86; 87; 88; 89; 90; 0x00C4; 0x00D6; 0x00DC; 94; 95;
   96; 97; 98; 99; 100; 101; 102; 103; 104; 105; 106; 107; 108; 109; 110; 111;
   112; 113; 114; 115; 116; 117; 118; 119; 120; 121; 122; 0x00E4; 0x00F6; 0x00FC; 0x00DF; 0x007F;
   0x0080; 0x0081; 0x0082; 0x0083; 0x0084; 0x0085; 0x0086; 0x0087; 0x0088; 0x0089; 0x008A; 0x008B; 0x008C; 0x008D; 0x008E; 0x008F;
   0x0090; 0x0091; 0x0092; 0x0093; 0x0094; 0x0095; 0x0096; 0x0097; 0x0098; 0x0099; 0x009A; 0x009B; 0x009C; 0x009D; 0x009E; 0x009F;
   0x00A0; 0x00A1; 0x00A2; 0x00A3; 0x00A4; 0x00A5; 0x00A6; 0x00A7; 0x00A8; 0x00A9; 0x00AA; 0x00AB; 0x00AC; 0x00AD; 0x00AE; 0x00AF;
   0x00B0; 0x00B1; 0x00B2; 0x00B3; 0x00B4; 0x00B5; 0x00B6; 0x00B7; 0x00B8; 0x00B9; 0x00BA; 0x00BB; 0x00BC; 0x00BD; 0x00BE; 0x00BF;
   0x00C0; 0x00C1; 0x00C2; 0x00C3; 0x00C4; 0x00C5; 0x00C6; 0x00C7; 0x00C8; 0x00C9; 0x00CA; 0x00CB; 0x00CC; 0x00CD; 0x00CE; 0x00CF;
   0x00D0; 0x00D1; 0x00D2; 0x00D3; 0x00D4; 0x00D5; 0x00D6; 0x00D7; 0x00D8; 0x00D9; 0x00DA; 0x00DB; 0x00DC; 0x00DD; 0x00DE; 0x00DF;
   0x00E0; 0x00E1; 0x00E2; 0x00E3; 0x00E4; 0x00E5; 0x00E6; 0x00E7; 0x00E8; 0x00E9; 0x00EA; 0x00EB; 0x00EC; 0x00ED; 0x00EE; 0x00EF;
   0x00F0; 0x00F1; 0x00F2; 0x00F3; 0x00F4; 0x00F5; 0x00F6; 0x00F7; 0x00F8; 0x00F9; 0x00FA; 0x00FB; 0x00FC; 0x00FD; 0x00FE; 0x00FF].

(** ** The C library's character widths

    [wcwidth] depends on the locale: it is a parameter, with what the emulator
    relies on. *)

Class Wcwidth := wcwidth : Z → Z.

Class WcwidthLaws `{Wcwidth} : Prop := {
  wcwidth_range c : -1 ≤ wcwidth c ≤ 2;
  wcwidth_ascii c : 0x20 ≤ c ≤ 0x7E → wcwidth c = 1;
}.

(** The width of a character in columns: one where the library knows none. *)

Definition columns_of `{Wcwidth} (codepoint : Z) : Z :=
  if wcwidth codepoint <? 0 then 1 else wcwidth codepoint.

(** A concrete instance: Hangul and CJK characters are two columns wide, control characters
    have no width, combining diacritics none either. *)

Definition sample_wcwidth (c : Z) : Z :=
  if (c <? 0x20) || ((0x7F <=? c) && (c <? 0xA0)) then -1
  else if (0x300 <=? c) && (c <=? 0x36F) then 0
  else if ((0x1100 <=? c) && (c <=? 0x115F)) || ((0x2E80 <=? c) && (c <=? 0xA4CF))
          || ((0xAC00 <=? c) && (c <=? 0xD7A3)) || ((0xFF00 <=? c) && (c <=? 0xFF60)) then 2
  else 1.

Lemma sample_wcwidth_laws : @WcwidthLaws sample_wcwidth.
Proof.
  split; unfold wcwidth, sample_wcwidth.
  - intros c. repeat zif; lia.
  - intros c Hc. repeat match goal with |- context [(?a <=? ?b)] => destruct (Z.leb_spec a b); try lia
      | |- context [(?a <? ?b)] => destruct (Z.ltb_spec a b); try lia end; reflexivity.
Qed.
