(* ===== verification/TermPalette.v ===== *)
(** * The initial palette of the terminal (src/src/terminal/palette.c) *)

From S2P Require Import Prelude Run TermTypes.
Local Open Scope Z_scope.

Definition GUAC_TERMINAL_INITIAL_PALETTE : list guac_terminal_color :=
  [
   mk_color 0 0x00 0x00 0x00; mk_color 1 0x99 0x3E 0x3E;
   mk_color 2 0x3E 0x99 0x3E; mk_color 3 0x99 0x99 0x3E;
   mk_color 4 0x3E 0x3E 0x99; mk_color 5 0x99 0x3E 0x99;
   mk_color 6 0x3E 0x99 0x99; mk_color 7 0x99 0x99 0x99;
   mk_color 8 0x3E 0x3E 0x3E; mk_color 9 0xFF 0x67 0x67;
   mk_color 10 0x67 0xFF 0x67; mk_color 11 0xFF 0xFF 0x67;
   mk_color 12 0x67 0x67 0xFF; mk_color 13 0xFF 0x67 0xFF;
   mk_color 14 0x67 0xFF 0xFF; mk_color 15 0xFF 0xFF 0xFF;
   mk_color 16 0x00 0x00 0x00; mk_color 17 0x00 0x00 0x5F;
   mk_color 18 0x00 0x00 0x87; mk_color 19 0x00 0x00 0xAF;
   mk_color 20 0x00 0x00 0xD7; mk_color 21 0x00 0x00 0xFF;
   mk_color 22 0x00 0x5F 0x00; mk_color 23 0x00 0x5F 0x5F;
   mk_color 24 0x00 0x5F 0x87; mk_color 25 0x00 0x5F 0xAF;
   mk_color 26 0x00 0x5F 0xD7; mk_color 27 0x00 0x5F 0xFF;
   mk_color 28 0x00 0x87 0x00; mk_color 29 0x00 0x87 0x5F;
   mk_color 30 0x00 0x87 0x87; mk_color 31 0x00 0x87 0xAF;
   mk_color 32 0x00 0x87 0xD7; mk_color 33 0x00 0x87 0xFF;
   mk_color 34 0x00 0xAF 0x00; mk_color 35 0x00 0xAF 0x5F;
   mk_color 36 0x00 0xAF 0x87; mk_color 37 0x00 0xAF 0xAF;
   mk_color 38 0x00 0xAF 0xD7; mk_color 39 0x00 0xAF 0xFF;
   mk_color 40 0x00 0xD7 0x00; mk_color 41 0x00 0xD7 0x5F;
   mk_color 42 0x00 0xD7 0x87; mk_color 43 0x00 0xD7 0xAF;
   mk_color 44 0x00 0xD7 0xD7; mk_color 45 0x00 0xD7 0xFF;
   mk_color 46 0x00 0xFF 0x00; mk_color 47 0x00 0xFF 0x5F;
   mk_color 48 0x00 0xFF 0x87; mk_color 49 0x00 0xFF 0xAF;
   mk_color 50 0x00 0xFF 0xD7; mk_color 51 0x00 0xFF 0xFF;
   mk_color 52 0x5F 0x00 0x00; mk_color 53 0x5F 0x00 0x5F;
   mk_color 54 0x5F 0x00 0x87; mk_color 55 0x5F 0x00 0xAF;
   mk_color 56 0x5F 0x00 0xD7; mk_color 57 0x5F 0x00 0xFF;
   mk_color 58 0x5F 0x5F 0x00; mk_color 59 0x5F 0x5F 0x5F;
   mk_color 60 0x5F 0x5F 0x87; mk_color 61 0x5F 0x5F 0xAF;
   mk_color 62 0x5F 0x5F 0xD7; mk_color 63 0x5F 0x5F 0xFF;
   mk_color 64 0x5F 0x87 0x00; mk_color 65 0x5F 0x87 0x5F;
   mk_color 66 0x5F 0x87 0x87; mk_color 67 0x5F 0x87 0xAF;
   mk_color 68 0x5F 0x87 0xD7; mk_color 69 0x5F 0x87 0xFF;
   mk_color 70 0x5F 0xAF 0x00; mk_color 71 0x5F 0xAF 0x5F;
   mk_color 72 0x5F 0xAF 0x87; mk_color 73 0x5F 0xAF 0xAF;
   mk_color 74 0x5F 0xAF 0xD7; mk_color 75 0x5F 0xAF 0xFF;
   mk_color 76 0x5F 0xD7 0x00; mk_color 77 0x5F 0xD7 0x5F;
   mk_color 78 0x5F 0xD7 0x87; mk_color 79 0x5F 0xD7 0xAF;
   mk_color 80 0x5F 0xD7 0xD7; mk_color 81 0x5F 0xD7 0xFF;
   mk_color 82 0x5F 0xFF 0x00; mk_color 83 0x5F 0xFF 0x5F;
   mk_color 84 0x5F 0xFF 0x87; mk_color 85 0x5F 0xFF 0xAF;
   mk_color 86 0x5F 0xFF 0xD7; mk_color 87 0x5F 0xFF 0xFF;
   mk_color 88 0x87 0x00 0x00; mk_color 89 0x87 0x00 0x5F;
   mk_color 90 0x87 0x00 0x87; mk_color 91 0x87 0x00 0xAF;
   mk_color 92 0x87 0x00 0xD7; mk_color 93 0x87 0x00 0xFF;
   mk_color 94 0x87 0x5F 0x00; mk_color 95 0x87 0x5F 0x5F;
   mk_color 96 0x87 0x5F 0x87; mk_color 97 0x87 0x5F 0xAF;
   mk_color 98 0x87 0x5F 0xD7; mk_color 99 0x87 0x5F 0xFF;
   mk_color 100 0x87 0x87 0x00; mk_color 101 0x87 0x87 0x5F;
   mk_color 102 0x87 0x87 0x87; mk_color 103 0x87 0x87 0xAF;
   mk_color 104 0x87 0x87 0xD7; mk_color 105 0x87 0x87 0xFF;
   mk_color 106 0x87 0xAF 0x00; mk_color 107 0x87 0xAF 0x5F;
   mk_color 108 0x87 0xAF 0x87; mk_color 109 0x87 0xAF 0xAF;
   mk_color 110 0x87 0xAF 0xD7; mk_color 111 0x87 0xAF 0xFF;
   mk_color 112 0x87 0xD7 0x00; mk_color 113 0x87 0xD7 0x5F;
   mk_color 114 0x87 0xD7 0x87; mk_color 115 0x87 0xD7 0xAF;
   mk_color 116 0x87 0xD7 0xD7; mk_color 117 0x87 0xD7 0xFF;
   mk_color 118 0x87 0xFF 0x00; mk_color 119 0x87 0xFF 0x5F;
   mk_color 120 0x87 0xFF 0x87; mk_color 121 0x87 0xFF 0xAF;
   mk_color 122 0x87 0xFF 0xD7; mk_color 123 0x87 0xFF 0xFF;
   mk_color 124 0xAF 0x00 0x00; mk_color 125 0xAF 0x00 0x5F;
   mk_color 126 0xAF 0x00 0x87; mk_color 127 0xAF 0x00 0xAF;
   mk_color 128 0xAF 0x00 0xD7; mk_color 129 0xAF 0x00 0xFF;
   mk_color 130 0xAF 0x5F 0x00; mk_color 131 0xAF 0x5F 0x5F;
   mk_color 132 0xAF 0x5F 0x87; mk_color 133 0xAF 0x5F 0xAF;
   mk_color 134 0xAF 0x5F 0xD7; mk_color 135 0xAF 0x5F 0xFF;
   mk_color 136 0xAF 0x87 0x00; mk_color 137 0xAF 0x87 0x5F;
   mk_color 138 0xAF 0x87 0x87; mk_color 139 0xAF 0x87 0xAF;
   mk_color 140 0xAF 0x87 0xD7; mk_color 141 0xAF 0x87 0xFF;
   mk_color 142 0xAF 0xAF 0x00; mk_color 143 0xAF 0xAF 0x5F;
   mk_color 144 0xAF 0xAF 0x87; mk_color 145 0xAF 0xAF 0xAF;
   mk_color 146 0xAF 0xAF 0xD7; mk_color 147 0xAF 0xAF 0xFF;
   mk_color 148 0xAF 0xD7 0x00; mk_color 149 0xAF 0xD7 0x5F;
   mk_color 150 0xAF 0xD7 0x87; mk_color 151 0xAF 0xD7 0xAF;
   mk_color 152 0xAF 0xD7 0xD7; mk_color 153 0xAF 0xD7 0xFF;
   mk_color 154 0xAF 0xFF 0x00; mk_color 155 0xAF 0xFF 0x5F;
   mk_color 156 0xAF 0xFF 0x87; mk_color 157 0xAF 0xFF 0xAF;
   mk_color 158 0xAF 0xFF 0xD7; mk_color 159 0xAF 0xFF 0xFF;
   mk_color 160 0xD7 0x00 0x00; mk_color 161 0xD7 0x00 0x5F;
   mk_color 162 0xD7 0x00 0x87; mk_color 163 0xD7 0x00 0xAF;
   mk_color 164 0xD7 0x00 0xD7; mk_color 165 0xD7 0x00 0xFF;
   mk_color 166 0xD7 0x5F 0x00; mk_color 167 0xD7 0x5F 0x5F;
   mk_color 168 0xD7 0x5F 0x87; mk_color 169 0xD7 0x5F 0xAF;
   mk_color 170 0xD7 0x5F 0xD7; mk_color 171 0xD7 0x5F 0xFF;
   mk_color 172 0xD7 0x87 0x00; mk_color 173 0xD7 0x87 0x5F;
   mk_color 174 0xD7 0x87 0x87; mk_color 175 0xD7 0x87 0xAF;
   mk_color 176 0xD7 0x87 0xD7; mk_color 177 0xD7 0x87 0xFF;
   mk_color 178 0xD7 0xAF 0x00; mk_color 179 0xD7 0xAF 0x5F;
   mk_color 180 0xD7 0xAF 0x87; mk_color 181 0xD7 0xAF 0xAF;
   mk_color 182 0xD7 0xAF 0xD7; mk_color 183 0xD7 0xAF 0xFF;
   mk_color 184 0xD7 0xD7 0x00; mk_color 185 0xD7 0xD7 0x5F;
   mk_color 186 0xD7 0xD7 0x87; mk_color 187 0xD7 0xD7 0xAF;
   mk_color 188 0xD7 0xD7 0xD7; mk_color 189 0xD7 0xD7 0xFF;
   mk_color 190 0xD7 0xFF 0x00; mk_color 191 0xD7 0xFF 0x5F;
   mk_color 192 0xD7 0xFF 0x87; mk_color 193 0xD7 0xFF 0xAF;
   mk_color 194 0xD7 0xFF 0xD7; mk_color 195 0xD7 0xFF 0xFF;
   mk_color 196 0xFF 0x00 0x00; mk_color 197 0xFF 0x00 0x5F;
   mk_color 198 0xFF 0x00 0x87; mk_color 199 0xFF 0x00 0xAF;
   mk_color 200 0xFF 0x00 0xD7; mk_color 201 0xFF 0x00 0xFF;
   mk_color 202 0xFF 0x5F 0x00; mk_color 203 0xFF 0x5F 0x5F;
   mk_color 204 0xFF 0x5F 0x87; mk_color 205 0xFF 0x5F 0xAF;
   mk_color 206 0xFF 0x5F 0xD7; mk_color 207 0xFF 0x5F 0xFF;
   mk_color 208 0xFF 0x87 0x00; mk_color 209 0xFF 0x87 0x5F;
   mk_color 210 0xFF 0x87 0x87; mk_color 211 0xFF 0x87 0xAF;
   mk_color 212 0xFF 0x87 0xD7; mk_color 213 0xFF 0x87 0xFF;
   mk_color 214 0xFF 0xAF 0x00; mk_color 215 0xFF 0xAF 0x5F;
   mk_color 216 0xFF 0xAF 0x87; mk_color 217 0xFF 0xAF 0xAF;
   mk_color 218 0xFF 0xAF 0xD7; mk_color 219 0xFF 0xAF 0xFF;
   mk_color 220 0xFF 0xD7 0x00; mk_color 221 0xFF 0xD7 0x5F;
   mk_color 222 0xFF 0xD7 0x87; mk_color 223 0xFF 0xD7 0xAF;
   mk_color 224 0xFF 0xD7 0xD7; mk_color 225 0xFF 0xD7 0xFF;
   mk_color 226 0xFF 0xFF 0x00; mk_color 227 0xFF 0xFF 0x5F;
   mk_color 228 0xFF 0xFF 0x87; mk_color 229 0xFF 0xFF 0xAF;
   mk_color 230 0xFF 0xFF 0xD7; mk_color 231 0xFF 0xFF 0xFF;
   mk_color 232 0x08 0x08 0x08; mk_color 233 0x12 0x12 0x12;
   mk_color 234 0x1C 0x1C 0x1C; mk_color 235 0x26 0x26 0x26;
   mk_color 236 0x30 0x30 0x30; mk_color 237 0x3A 0x3A 0x3A;
   mk_color 238 0x44 0x44 0x44; mk_color 239 0x4E 0x4E 0x4E;
   mk_color 240 0x58 0x58 0x58; mk_color 241 0x62 0x62 0x62;
   mk_color 242 0x6C 0x6C 0x6C; mk_color 243 0x76 0x76 0x76;
   mk_color 244 0x80 0x80 0x80; mk_color 245 0x8A 0x8A 0x8A;
   mk_color 246 0x94 0x94 0x94; mk_color 247 0x9E 0x9E 0x9E;
   mk_color 248 0xA8 0xA8 0xA8; mk_color 249 0xB2 0xB2 0xB2;
   mk_color 250 0xBC 0xBC 0xBC; mk_color 251 0xC6 0xC6 0xC6;
   mk_color 252 0xD0 0xD0 0xD0; mk_color 253 0xDA 0xDA 0xDA;
   mk_color 254 0xE4 0xE4 0xE4; mk_color 255 0xEE 0xEE 0xEE].

(** Every entry has its own index. *)

Lemma initial_palette_index i :
  0 ≤ i < 256 → palette_index <$> GUAC_TERMINAL_INITIAL_PALETTE !! Z.to_nat i = Some i.
Proof.
  intros Hi.
  enough (H : bool_decide (palette_index <$> GUAC_TERMINAL_INITIAL_PALETTE !! Z.to_nat i = Some i) = true)
    by (by apply bool_decide_eq_true in H).
  revert i Hi. apply (range_forall _ 0 256). vm_compute. reflexivity.
Qed.
