(* ===== verification/TermColors.v ===== *)
(** * Colours by name and by value (src/src/terminal/named-colors.c, xparsecolor.c, color-scheme.c)

    The table of colour names with its binary search, the [XParseColor]
    syntax of colours and the colour schemes built on both. *)

From Stdlib Require Import Strings.String.
From S2P Require Import Prelude CString CFormat Run TermTypes TermPalette.
Local Open Scope Z_scope.

(** ** The C library *)

Definition tolower (c : Z) : Z := if (65 <=? c) && (c <=? 90) then c + 32 else c.

Fixpoint drop_white (s : list byte) : list byte :=
  match s with
  | c :: s' => if isspace c then drop_white s' else s
  | [] => []
  end.

(** The value of a hexadecimal digit. *)

Definition hex_value (c : byte) : option Z :=
  let z := bz c in
  if (48 <=? z) && (z <=? 57) then Some (z - 48)
  else if (97 <=? z) && (z <=? 102) then Some (z - 87)
  else if (65 <=? z) && (z <=? 70) then Some (z - 55)
  else None.

(** The digits that follow, [n] at most: how many, their value and what is left. *)

Fixpoint scan_hex_digits (n : nat) (s : list byte) (count acc : Z) : Z * Z * list byte :=
  match n, s with
  | S n', c :: s' =>
      match hex_value c with
      | Some v => scan_hex_digits n' s' (count + 1) (16 * acc + v)
      | None => (count, acc, s)
      end
  | _, _ => (count, acc, s)
  end.

(** The conversion [%Nx] of [sscanf]: white space, then at most [n] characters of a sign, a
    prefix and digits. *)

Definition scan_hex (n : nat) (s : list byte) : option (Z * list byte) :=
  let s := drop_white s in
  let '(negative, n, s) :=
    match n, s with
    | S n', x2d :: s' => (true, n', s')
    | S n', x2b :: s' => (false, n', s')
    | _, _ => (false, n, s)
    end in
  let '(n, s) :=
    match n, s with
    | S (S n'), x30 :: x78 :: s' => (n', s')
    | S (S n'), x30 :: x58 :: s' => (n', s')
    | _, _ => (n, s)
    end in
  let '(count, v, s) := scan_hex_digits n s 0 0 in
  if count =? 0 then None else Some (u32 (if negative then - v else v), s).

(** A literal of a [sscanf] format. *)

Fixpoint scan_literal (l s : list byte) : option (list byte) :=
  match l, s with
  | [], _ => Some s
  | c :: l', d :: s' => if decide (c = d) then scan_literal l' s' else None
  | _ :: _, [] => None
  end.

(** The conversion [%d]. *)

Fixpoint scan_digits (s : list byte) (count acc : Z) : Z * Z :=
  match s with
  | c :: s' => if is_digit c then scan_digits s' (count + 1) (10 * acc + digit_value c) else (count, acc)
  | [] => (count, acc)
  end.

Definition scan_int (s : list byte) : option Z :=
  let s := drop_white s in
  let '(negative, s) :=
    match s with
    | x2d :: s' => (true, s')
    | x2b :: s' => (false, s')
    | _ => (false, s)
    end in
  let '(count, v) := scan_digits s 0 0 in
  if count =? 0 then None else Some (i32 (if negative then - v else v)).

(** [bsearch] bisects the array; [compare] is negative where the key comes before the element. *)

Fixpoint bsearch {A} (fuel : nat) (compare : A → Z) (l : list A) (lo hi : nat) : option A :=
  match fuel with
  | O => None
  | S fuel' =>
      if (hi <=? lo)%nat then None
      else
        let mid := ((lo + hi) / 2)%nat in
        match l !! mid with
        | None => None
        | Some a =>
            if compare a <? 0 then bsearch fuel' compare l lo mid
            else if 0 <? compare a then bsearch fuel' compare l (S mid) hi
            else Some a
        end
  end.

(** ** named-colors.c *)

Definition guac_terminal_named_color : Type := guac_terminal_color * string.

Definition GUAC_TERMINAL_NAMED_COLORS : list guac_terminal_named_color :=
  [
   (mk_color (-1) 0xF0 0xF8 0xFF, "aliceblue");
   (mk_color (-1) 0xFA 0xEB 0xD7, "antiquewhite");
   (mk_color (-1) 0xFF 0xEF 0xDB, "antiquewhite1");
   (mk_color (-1) 0xEE 0xDF 0xCC, "antiquewhite2");
   (mk_color (-1) 0xCD 0xC0 0xB0, "antiquewhite3");
   (mk_color (-1) 0x8B 0x83 0x78, "antiquewhite4");
   (mk_color (-1) 0x00 0xFF 0xFF, "aqua");
   (mk_color (-1) 0x7F 0xFF 0xD4, "aquamarine");
   (mk_color (-1) 0x7F 0xFF 0xD4, "aquamarine1");
   (mk_color (-1) 0x76 0xEE 0xC6, "aquamarine2");
   (mk_color (-1) 0x66 0xCD 0xAA, "aquamarine3");
   (mk_color (-1) 0x45 0x8B 0x74, "aquamarine4");
   (mk_color (-1) 0xF0 0xFF 0xFF, "azure");
   (mk_color (-1) 0xF0 0xFF 0xFF, "azure1");
   (mk_color (-1) 0xE0 0xEE 0xEE, "azure2");
   (mk_color (-1) 0xC1 0xCD 0xCD, "azure3");
   (mk_color (-1) 0x83 0x8B 0x8B, "azure4");
   (mk_color (-1) 0xF5 0xF5 0xDC, "beige");
   (mk_color (-1) 0xFF 0xE4 0xC4, "bisque");
   (mk_color (-1) 0xFF 0xE4 0xC4, "bisque1");
   (mk_color (-1) 0xEE 0xD5 0xB7, "bisque2");
   (mk_color (-1) 0xCD 0xB7 0x9E, "bisque3");
   (mk_color (-1) 0x8B 0x7D 0x6B, "bisque4");
   (mk_color (-1) 0x00 0x00 0x00, "black");
   (mk_color (-1) 0xFF 0xEB 0xCD, "blanchedalmond");
   (mk_color (-1) 0x00 0x00 0xFF, "blue");
   (mk_color (-1) 0x00 0x00 0xFF, "blue1");
   (mk_color (-1) 0x00 0x00 0xEE, "blue2");
   (mk_color (-1) 0x00 0x00 0xCD, "blue3");
   (mk_color (-1) 0x00 0x00 0x8B, "blue4");
   (mk_color (-1) 0x8A 0x2B 0xE2, "blueviolet");
   (mk_color (-1) 0xA5 0x2A 0x2A, "brown");
   (mk_color (-1) 0xFF 0x40 0x40, "brown1");
   (mk_color (-1) 0xEE 0x3B 0x3B, "brown2");
   (mk_color (-1) 0xCD 0x33 0x33, "brown3");
   (mk_color (-1) 0x8B 0x23 0x23, "brown4");
   (mk_color (-1) 0xDE 0xB8 0x87, "burlywood");
   (mk_color (-1) 0xFF 0xD3 0x9B, "burlywood1");
   (mk_color (-1) 0xEE 0xC5 0x91, "burlywood2");
   (mk_color (-1) 0xCD 0xAA 0x7D, "burlywood3");
   (mk_color (-1) 0x8B 0x73 0x55, "burlywood4");
   (mk_color (-1) 0x5F 0x9E 0xA0, "cadetblue");
   (mk_color (-1) 0x98 0xF5 0xFF, "cadetblue1");
   (mk_color (-1) 0x8E 0xE5 0xEE, "cadetblue2");
   (mk_color (-1) 0x7A 0xC5 0xCD, "cadetblue3");
   (mk_color (-1) 0x53 0x86 0x8B, "cadetblue4");
   (mk_color (-1) 0x7F 0xFF 0x00, "chartreuse");
   (mk_color (-1) 0x7F 0xFF 0x00, "chartreuse1");
   (mk_color (-1) 0x76 0xEE 0x00, "chartreuse2");
   (mk_color (-1) 0x66 0xCD 0x00, "chartreuse3");
   (mk_color (-1) 0x45 0x8B 0x00, "chartreuse4");
   (mk_color (-1) 0xD2 0x69 0x1E, "chocolate");
   (mk_color (-1) 0xFF 0x7F 0x24, "chocolate1");
   (mk_color (-1) 0xEE 0x76 0x21, "chocolate2");
   (mk_color (-1) 0xCD 0x66 0x1D, "chocolate3");
   (mk_color (-1) 0x8B 0x45 0x13, "chocolate4");
   (mk_color (-1) 0xFF 0x7F 0x50, "coral");
   (mk_color (-1) 0xFF 0x72 0x56, "coral1");
   (mk_color (-1) 0xEE 0x6A 0x50, "coral2");
   (mk_color (-1) 0xCD 0x5B 0x45, "coral3");
   (mk_color (-1) 0x8B 0x3E 0x2F, "coral4");
   (mk_color (-1) 0x64 0x95 0xED, "cornflowerblue");
   (mk_color (-1) 0xFF 0xF8 0xDC, "cornsilk");
   (mk_color (-1) 0xFF 0xF8 0xDC, "cornsilk1");
   (mk_color (-1) 0xEE 0xE8 0xCD, "cornsilk2");
   (mk_color (-1) 0xCD 0xC8 0xB1, "cornsilk3");
   (mk_color (-1) 0x8B 0x88 0x78, "cornsilk4");
   (mk_color (-1) 0xDC 0x14 0x3C, "crimson");
   (mk_color (-1) 0x00 0xFF 0xFF, "cyan");
   (mk_color (-1) 0x00 0xFF 0xFF, "cyan1");
   (mk_color (-1) 0x00 0xEE 0xEE, "cyan2");
   (mk_color (-1) 0x00 0xCD 0xCD, "cyan3");
   (mk_color (-1) 0x00 0x8B 0x8B, "cyan4");
   (mk_color (-1) 0x00 0x00 0x8B, "darkblue");
   (mk_color (-1) 0x00 0x8B 0x8B, "darkcyan");
   (mk_color (-1) 0xB8 0x86 0x0B, "darkgoldenrod");
   (mk_color (-1) 0xFF 0xB9 0x0F, "darkgoldenrod1");
   (mk_color (-1) 0xEE 0xAD 0x0E, "darkgoldenrod2");
   (mk_color (-1) 0xCD 0x95 0x0C, "darkgoldenrod3");
   (mk_color (-1) 0x8B 0x65 0x08, "darkgoldenrod4");
   (mk_color (-1) 0xA9 0xA9 0xA9, "darkgray");
   (mk_color (-1) 0x00 0x64 0x00, "darkgreen");
   (mk_color (-1) 0xA9 0xA9 0xA9, "darkgrey");
   (mk_color (-1) 0xBD 0xB7 0x6B, "darkkhaki");
   (mk_color (-1) 0x8B 0x00 0x8B, "darkmagenta");
   (mk_color (-1) 0x55 0x6B 0x2F, "darkolivegreen");
   (mk_color (-1) 0xCA 0xFF 0x70, "darkolivegreen1");
   (mk_color (-1) 0xBC 0xEE 0x68, "darkolivegreen2");
   (mk_color (-1) 0xA2 0xCD 0x5A, "darkolivegreen3");
   (mk_color (-1) 0x6E 0x8B 0x3D, "darkolivegreen4");
   (mk_color (-1) 0xFF 0x8C 0x00, "darkorange");
   (mk_color (-1) 0xFF 0x7F 0x00, "darkorange1");
   (mk_color (-1) 0xEE 0x76 0x00, "darkorange2");
   (mk_color (-1) 0xCD 0x66 0x00, "darkorange3");
   (mk_color (-1) 0x8B 0x45 0x00, "darkorange4");
   (mk_color (-1) 0x99 0x32 0xCC, "darkorchid");
   (mk_color (-1) 0xBF 0x3E 0xFF, "darkorchid1");
   (mk_color (-1) 0xB2 0x3A 0xEE, "darkorchid2");
   (mk_color (-1) 0x9A 0x32 0xCD, "darkorchid3");
   (mk_color (-1) 0x68 0x22 0x8B, "darkorchid4");
   (mk_color (-1) 0x8B 0x00 0x00, "darkred");
   (mk_color (-1) 0xE9 0x96 0x7A, "darksalmon");
   (mk_color (-1) 0x8F 0xBC 0x8F, "darkseagreen");
   (mk_color (-1) 0xC1 0xFF 0xC1, "darkseagreen1");
   (mk_color (-1) 0xB4 0xEE 0xB4, "darkseagreen2");
   (mk_color (-1) 0x9B 0xCD 0x9B, "darkseagreen3");
   (mk_color (-1) 0x69 0x8B 0x69, "darkseagreen4");
   (mk_color (-1) 0x48 0x3D 0x8B, "darkslateblue");
   (mk_color (-1) 0x2F 0x4F 0x4F, "darkslategray");
   (mk_color (-1) 0x97 0xFF 0xFF, "darkslategray1");
   (mk_color (-1) 0x8D 0xEE 0xEE, "darkslategray2");
   (mk_color (-1) 0x79 0xCD 0xCD, "darkslategray3");
   (mk_color (-1) 0x52 0x8B 0x8B, "darkslategray4");
   (mk_color (-1) 0x2F 0x4F 0x4F, "darkslategrey");
   (mk_color (-1) 0x00 0xCE 0xD1, "darkturquoise");
   (mk_color (-1) 0x94 0x00 0xD3, "darkviolet");
   (mk_color (-1) 0xFF 0x14 0x93, "deeppink");
   (mk_color (-1) 0xFF 0x14 0x93, "deeppink1");
   (mk_color (-1) 0xEE 0x12 0x89, "deeppink2");
   (mk_color (-1) 0xCD 0x10 0x76, "deeppink3");
   (mk_color (-1) 0x8B 0x0A 0x50, "deeppink4");
   (mk_color (-1) 0x00 0xBF 0xFF, "deepskyblue");
   (mk_color (-1) 0x00 0xBF 0xFF, "deepskyblue1");
   (mk_color (-1) 0x00 0xB2 0xEE, "deepskyblue2");
   (mk_color (-1) 0x00 0x9A 0xCD, "deepskyblue3");
   (mk_color (-1) 0x00 0x68 0x8B, "deepskyblue4");
   (mk_color (-1) 0x69 0x69 0x69, "dimgray");
   (mk_color (-1) 0x69 0x69 0x69, "dimgrey");
   (mk_color (-1) 0x1E 0x90 0xFF, "dodgerblue");
   (mk_color (-1) 0x1E 0x90 0xFF, "dodgerblue1");
   (mk_color (-1) 0x1C 0x86 0xEE, "dodgerblue2");
   (mk_color (-1) 0x18 0x74 0xCD, "dodgerblue3");
   (mk_color (-1) 0x10 0x4E 0x8B, "dodgerblue4");
   (mk_color (-1) 0xB2 0x22 0x22, "firebrick");
   (mk_color (-1) 0xFF 0x30 0x30, "firebrick1");
   (mk_color (-1) 0xEE 0x2C 0x2C, "firebrick2");
   (mk_color (-1) 0xCD 0x26 0x26, "firebrick3");
   (mk_color (-1) 0x8B 0x1A 0x1A, "firebrick4");
   (mk_color (-1) 0xFF 0xFA 0xF0, "floralwhite");
   (mk_color (-1) 0x22 0x8B 0x22, "forestgreen");
   (mk_color (-1) 0xFF 0x00 0xFF, "fuchsia");
   (mk_color (-1) 0xDC 0xDC 0xDC, "gainsboro");
   (mk_color (-1) 0xF8 0xF8 0xFF, "ghostwhite");
   (mk_color (-1) 0xFF 0xD7 0x00, "gold");
   (mk_color (-1) 0xFF 0xD7 0x00, "gold1");
   (mk_color (-1) 0xEE 0xC9 0x00, "gold2");
   (mk_color (-1) 0xCD 0xAD 0x00, "gold3");
   (mk_color (-1) 0x8B 0x75 0x00, "gold4");
   (mk_color (-1) 0xDA 0xA5 0x20, "goldenrod");
   (mk_color (-1) 0xFF 0xC1 0x25, "goldenrod1");
   (mk_color (-1) 0xEE 0xB4 0x22, "goldenrod2");
   (mk_color (-1) 0xCD 0x9B 0x1D, "goldenrod3");
   (mk_color (-1) 0x8B 0x69 0x14, "goldenrod4");
   (mk_color (-1) 0xBE 0xBE 0xBE, "gray");
   (mk_color (-1) 0x00 0x00 0x00, "gray0");
   (mk_color (-1) 0x03 0x03 0x03, "gray1");
   (mk_color (-1) 0x1A 0x1A 0x1A, "gray10");
   (mk_color (-1) 0xFF 0xFF 0xFF, "gray100");
   (mk_color (-1) 0x1C 0x1C 0x1C, "gray11");
   (mk_color (-1) 0x1F 0x1F 0x1F, "gray12");
   (mk_color (-1) 0x21 0x21 0x21, "gray13");
   (mk_color (-1) 0x24 0x24 0x24, "gray14");
   (mk_color (-1) 0x26 0x26 0x26, "gray15");
   (mk_color (-1) 0x29 0x29 0x29, "gray16");
   (mk_color (-1) 0x2B 0x2B 0x2B, "gray17");
   (mk_color (-1) 0x2E 0x2E 0x2E, "gray18");
   (mk_color (-1) 0x30 0x30 0x30, "gray19");
   (mk_color (-1) 0x05 0x05 0x05, "gray2");
   (mk_color (-1) 0x33 0x33 0x33, "gray20");
   (mk_color (-1) 0x36 0x36 0x36, "gray21");
   (mk_color (-1) 0x38 0x38 0x38, "gray22");
   (mk_color (-1) 0x3B 0x3B 0x3B, "gray23");
   (mk_color (-1) 0x3D 0x3D 0x3D, "gray24");
   (mk_color (-1) 0x40 0x40 0x40, "gray25");
   (mk_color (-1) 0x42 0x42 0x42, "gray26");
   (mk_color (-1) 0x45 0x45 0x45, "gray27");
   (mk_color (-1) 0x47 0x47 0x47, "gray28");
   (mk_color (-1) 0x4A 0x4A 0x4A, "gray29");
   (mk_color (-1) 0x08 0x08 0x08, "gray3");
   (mk_color (-1) 0x4D 0x4D 0x4D, "gray30");
   (mk_color (-1) 0x4F 0x4F 0x4F, "gray31");
   (mk_color (-1) 0x52 0x52 0x52, "gray32");
   (mk_color (-1) 0x54 0x54 0x54, "gray33");
   (mk_color (-1) 0x57 0x57 0x57, "gray34");
   (mk_color (-1) 0x59 0x59 0x59, "gray35");
   (mk_color (-1) 0x5C 0x5C 0x5C, "gray36");
   (mk_color (-1) 0x5E 0x5E 0x5E, "gray37");
   (mk_color (-1) 0x61 0x61 0x61, "gray38");
   (mk_color (-1) 0x63 0x63 0x63, "gray39");
   (mk_color (-1) 0x0A 0x0A 0x0A, "gray4");
   (mk_color (-1) 0x66 0x66 0x66, "gray40");
   (mk_color (-1) 0x69 0x69 0x69, "gray41");
   (mk_color (-1) 0x6B 0x6B 0x6B, "gray42");
   (mk_color (-1) 0x6E 0x6E 0x6E, "gray43");
   (mk_color (-1) 0x70 0x70 0x70, "gray44");
   (mk_color (-1) 0x73 0x73 0x73, "gray45");
   (mk_color (-1) 0x75 0x75 0x75, "gray46");
   (mk_color (-1) 0x78 0x78 0x78, "gray47");
   (mk_color (-1) 0x7A 0x7A 0x7A, "gray48");
   (mk_color (-1) 0x7D 0x7D 0x7D, "gray49");
   (mk_color (-1) 0x0D 0x0D 0x0D, "gray5");
   (mk_color (-1) 0x7F 0x7F 0x7F, "gray50");
   (mk_color (-1) 0x82 0x82 0x82, "gray51");
   (mk_color (-1) 0x85 0x85 0x85, "gray52");
   (mk_color (-1) 0x87 0x87 0x87, "gray53");
   (mk_color (-1) 0x8A 0x8A 0x8A, "gray54");
   (mk_color (-1) 0x8C 0x8C 0x8C, "gray55");
   (mk_color (-1) 0x8F 0x8F 0x8F, "gray56");
   (mk_color (-1) 0x91 0x91 0x91, "gray57");
   (mk_color (-1) 0x94 0x94 0x94, "gray58");
   (mk_color (-1) 0x96 0x96 0x96, "gray59");
   (mk_color (-1) 0x0F 0x0F 0x0F, "gray6");
   (mk_color (-1) 0x99 0x99 0x99, "gray60");
   (mk_color (-1) 0x9C 0x9C 0x9C, "gray61");
   (mk_color (-1) 0x9E 0x9E 0x9E, "gray62");
   (mk_color (-1) 0xA1 0xA1 0xA1, "gray63");
   (mk_color (-1) 0xA3 0xA3 0xA3, "gray64");
   (mk_color (-1) 0xA6 0xA6 0xA6, "gray65");
   (mk_color (-1) 0xA8 0xA8 0xA8, "gray66");
   (mk_color (-1) 0xAB 0xAB 0xAB, "gray67");
   (mk_color (-1) 0xAD 0xAD 0xAD, "gray68");
   (mk_color (-1) 0xB0 0xB0 0xB0, "gray69");
   (mk_color (-1) 0x12 0x12 0x12, "gray7");
   (mk_color (-1) 0xB3 0xB3 0xB3, "gray70");
   (mk_color (-1) 0xB5 0xB5 0xB5, "gray71");
   (mk_color (-1) 0xB8 0xB8 0xB8, "gray72");
   (mk_color (-1) 0xBA 0xBA 0xBA, "gray73");
   (mk_color (-1) 0xBD 0xBD 0xBD, "gray74");
   (mk_color (-1) 0xBF 0xBF 0xBF, "gray75");
   (mk_color (-1) 0xC2 0xC2 0xC2, "gray76");
   (mk_color (-1) 0xC4 0xC4 0xC4, "gray77");
   (mk_color (-1) 0xC7 0xC7 0xC7, "gray78");
   (mk_color (-1) 0xC9 0xC9 0xC9, "gray79");
   (mk_color (-1) 0x14 0x14 0x14, "gray8");
   (mk_color (-1) 0xCC 0xCC 0xCC, "gray80");
   (mk_color (-1) 0xCF 0xCF 0xCF, "gray81");
   (mk_color (-1) 0xD1 0xD1 0xD1, "gray82");
   (mk_color (-1) 0xD4 0xD4 0xD4, "gray83");
   (mk_color (-1) 0xD6 0xD6 0xD6, "gray84");
   (mk_color (-1) 0xD9 0xD9 0xD9, "gray85");
   (mk_color (-1) 0xDB 0xDB 0xDB, "gray86");
   (mk_color (-1) 0xDE 0xDE 0xDE, "gray87");
   (mk_color (-1) 0xE0 0xE0 0xE0, "gray88");
   (mk_color (-1) 0xE3 0xE3 0xE3, "gray89");
   (mk_color (-1) 0x17 0x17 0x17, "gray9");
   (mk_color (-1) 0xE5 0xE5 0xE5, "gray90");
   (mk_color (-1) 0xE8 0xE8 0xE8, "gray91");
   (mk_color (-1) 0xEB 0xEB 0xEB, "gray92");
   (mk_color (-1) 0xED 0xED 0xED, "gray93");
   (mk_color (-1) 0xF0 0xF0 0xF0, "gray94");
   (mk_color (-1) 0xF2 0xF2 0xF2, "gray95");
   (mk_color (-1) 0xF5 0xF5 0xF5, "gray96");
   (mk_color (-1) 0xF7 0xF7 0xF7, "gray97");
   (mk_color (-1) 0xFA 0xFA 0xFA, "gray98");
   (mk_color (-1) 0xFC 0xFC 0xFC, "gray99");
   (mk_color (-1) 0x00 0xFF 0x00, "green");
   (mk_color (-1) 0x00 0xFF 0x00, "green1");
   (mk_color (-1) 0x00 0xEE 0x00, "green2");
   (mk_color (-1) 0x00 0xCD 0x00, "green3");
   (mk_color (-1) 0x00 0x8B 0x00, "green4");
   (mk_color (-1) 0xAD 0xFF 0x2F, "greenyellow");
   (mk_color (-1) 0xBE 0xBE 0xBE, "grey");
   (mk_color (-1) 0x00 0x00 0x00, "grey0");
   (mk_color (-1) 0x03 0x03 0x03, "grey1");
   (mk_color (-1) 0x1A 0x1A 0x1A, "grey10");
   (mk_color (-1) 0xFF 0xFF 0xFF, "grey100");
   (mk_color (-1) 0x1C 0x1C 0x1C, "grey11");
   (mk_color (-1) 0x1F 0x1F 0x1F, "grey12");
   (mk_color (-1) 0x21 0x21 0x21, "grey13");
   (mk_color (-1) 0x24 0x24 0x24, "grey14");
   (mk_color (-1) 0x26 0x26 0x26, "grey15");
   (mk_color (-1) 0x29 0x29 0x29, "grey16");
   (mk_color (-1) 0x2B 0x2B 0x2B, "grey17");
   (mk_color (-1) 0x2E 0x2E 0x2E, "grey18");
   (mk_color (-1) 0x30 0x30 0x30, "grey19");
   (mk_color (-1) 0x05 0x05 0x05, "grey2");
   (mk_color (-1) 0x33 0x33 0x33, "grey20");
   (mk_color (-1) 0x36 0x36 0x36, "grey21");
   (mk_color (-1) 0x38 0x38 0x38, "grey22");
   (mk_color (-1) 0x3B 0x3B 0x3B, "grey23");
   (mk_color (-1) 0x3D 0x3D 0x3D, "grey24");
   (mk_color (-1) 0x40 0x40 0x40, "grey25");
   (mk_color (-1) 0x42 0x42 0x42, "grey26");
   (mk_color (-1) 0x45 0x45 0x45, "grey27");
   (mk_color (-1) 0x47 0x47 0x47, "grey28");
   (mk_color (-1) 0x4A 0x4A 0x4A, "grey29");
   (mk_color (-1) 0x08 0x08 0x08, "grey3");
   (mk_color (-1) 0x4D 0x4D 0x4D, "grey30");
   (mk_color (-1) 0x4F 0x4F 0x4F, "grey31");
   (mk_color (-1) 0x52 0x52 0x52, "grey32");
   (mk_color (-1) 0x54 0x54 0x54, "grey33");
   (mk_color (-1) 0x57 0x57 0x57, "grey34");
   (mk_color (-1) 0x59 0x59 0x59, "grey35");
   (mk_color (-1) 0x5C 0x5C 0x5C, "grey36");
   (mk_color (-1) 0x5E 0x5E 0x5E, "grey37");
   (mk_color (-1) 0x61 0x61 0x61, "grey38");
   (mk_color (-1) 0x63 0x63 0x63, "grey39");
   (mk_color (-1) 0x0A 0x0A 0x0A, "grey4");
   (mk_color (-1) 0x66 0x66 0x66, "grey40");
   (mk_color (-1) 0x69 0x69 0x69, "grey41");
   (mk_color (-1) 0x6B 0x6B 0x6B, "grey42");
   (mk_color (-1) 0x6E 0x6E 0x6E, "grey43");
   (mk_color (-1) 0x70 0x70 0x70, "grey44");
   (mk_color (-1) 0x73 0x73 0x73, "grey45");
   (mk_color (-1) 0x75 0x75 0x75, "grey46");
   (mk_color (-1) 0x78 0x78 0x78, "grey47");
   (mk_color (-1) 0x7A 0x7A 0x7A, "grey48");
   (mk_color (-1) 0x7D 0x7D 0x7D, "grey49");
   (mk_color (-1) 0x0D 0x0D 0x0D, "grey5");
   (mk_color (-1) 0x7F 0x7F 0x7F, "grey50");
   (mk_color (-1) 0x82 0x82 0x82, "grey51");
   (mk_color (-1) 0x85 0x85 0x85, "grey52");
   (mk_color (-1) 0x87 0x87 0x87, "grey53");
   (mk_color (-1) 0x8A 0x8A 0x8A, "grey54");
   (mk_color (-1) 0x8C 0x8C 0x8C, "grey55");
   (mk_color (-1) 0x8F 0x8F 0x8F, "grey56");
   (mk_color (-1) 0x91 0x91 0x91, "grey57");
   (mk_color (-1) 0x94 0x94 0x94, "grey58");
   (mk_color (-1) 0x96 0x96 0x96, "grey59");
   (mk_color (-1) 0x0F 0x0F 0x0F, "grey6");
   (mk_color (-1) 0x99 0x99 0x99, "grey60");
   (mk_color (-1) 0x9C 0x9C 0x9C, "grey61");
   (mk_color (-1) 0x9E 0x9E 0x9E, "grey62");
   (mk_color (-1) 0xA1 0xA1 0xA1, "grey63");
   (mk_color (-1) 0xA3 0xA3 0xA3, "grey64");
   (mk_color (-1) 0xA6 0xA6 0xA6, "grey65");
   (mk_color (-1) 0xA8 0xA8 0xA8, "grey66");
   (mk_color (-1) 0xAB 0xAB 0xAB, "grey67");
   (mk_color (-1) 0xAD 0xAD 0xAD, "grey68");
   (mk_color (-1) 0xB0 0xB0 0xB0, "grey69");
   (mk_color (-1) 0x12 0x12 0x12, "grey7");
   (mk_color (-1) 0xB3 0xB3 0xB3, "grey70");
   (mk_color (-1) 0xB5 0xB5 0xB5, "grey71");
   (mk_color (-1) 0xB8 0xB8 0xB8, "grey72");
   (mk_color (-1) 0xBA 0xBA 0xBA, "grey73");
   (mk_color (-1) 0xBD 0xBD 0xBD, "grey74");
   (mk_color (-1) 0xBF 0xBF 0xBF, "grey75");
   (mk_color (-1) 0xC2 0xC2 0xC2, "grey76");
   (mk_color (-1) 0xC4 0xC4 0xC4, "grey77");
   (mk_color (-1) 0xC7 0xC7 0xC7, "grey78");
   (mk_color (-1) 0xC9 0xC9 0xC9, "grey79");
   (mk_color (-1) 0x14 0x14 0x14, "grey8");
   (mk_color (-1) 0xCC 0xCC 0xCC, "grey80");
   (mk_color (-1) 0xCF 0xCF 0xCF, "grey81");
   (mk_color (-1) 0xD1 0xD1 0xD1, "grey82");
   (mk_color (-1) 0xD4 0xD4 0xD4, "grey83");
   (mk_color (-1) 0xD6 0xD6 0xD6, "grey84");
   (mk_color (-1) 0xD9 0xD9 0xD9, "grey85");
   (mk_color (-1) 0xDB 0xDB 0xDB, "grey86");
   (mk_color (-1) 0xDE 0xDE 0xDE, "grey87");
   (mk_color (-1) 0xE0 0xE0 0xE0, "grey88");
   (mk_color (-1) 0xE3 0xE3 0xE3, "grey89");
   (mk_color (-1) 0x17 0x17 0x17, "grey9");
   (mk_color (-1) 0xE5 0xE5 0xE5, "grey90");
   (mk_color (-1) 0xE8 0xE8 0xE8, "grey91");
   (mk_color (-1) 0xEB 0xEB 0xEB, "grey92");
   (mk_color (-1) 0xED 0xED 0xED, "grey93");
   (mk_color (-1) 0xF0 0xF0 0xF0, "grey94");
   (mk_color (-1) 0xF2 0xF2 0xF2, "grey95");
   (mk_color (-1) 0xF5 0xF5 0xF5, "grey96");
   (mk_color (-1) 0xF7 0xF7 0xF7, "grey97");
   (mk_color (-1) 0xFA 0xFA 0xFA, "grey98");
   (mk_color (-1) 0xFC 0xFC 0xFC, "grey99");
   (mk_color (-1) 0xF0 0xFF 0xF0, "honeydew");
   (mk_color (-1) 0xF0 0xFF 0xF0, "honeydew1");
   (mk_color (-1) 0xE0 0xEE 0xE0, "honeydew2");
   (mk_color (-1) 0xC1 0xCD 0xC1, "honeydew3");
   (mk_color (-1) 0x83 0x8B 0x83, "honeydew4");
   (mk_color (-1) 0xFF 0x69 0xB4, "hotpink");
   (mk_color (-1) 0xFF 0x6E 0xB4, "hotpink1");
   (mk_color (-1) 0xEE 0x6A 0xA7, "hotpink2");
   (mk_color (-1) 0xCD 0x60 0x90, "hotpink3");
   (mk_color (-1) 0x8B 0x3A 0x62, "hotpink4");
   (mk_color (-1) 0xCD 0x5C 0x5C, "indianred");
   (mk_color (-1) 0xFF 0x6A 0x6A, "indianred1");
   (mk_color (-1) 0xEE 0x63 0x63, "indianred2");
   (mk_color (-1) 0xCD 0x55 0x55, "indianred3");
   (mk_color (-1) 0x8B 0x3A 0x3A, "indianred4");
   (mk_color (-1) 0x4B 0x00 0x82, "indigo");
   (mk_color (-1) 0xFF 0xFF 0xF0, "ivory");
   (mk_color (-1) 0xFF 0xFF 0xF0, "ivory1");
   (mk_color (-1) 0xEE 0xEE 0xE0, "ivory2");
   (mk_color (-1) 0xCD 0xCD 0xC1, "ivory3");
   (mk_color (-1) 0x8B 0x8B 0x83, "ivory4");
   (mk_color (-1) 0xF0 0xE6 0x8C, "khaki");
   (mk_color (-1) 0xFF 0xF6 0x8F, "khaki1");
   (mk_color (-1) 0xEE 0xE6 0x85, "khaki2");
   (mk_color (-1) 0xCD 0xC6 0x73, "khaki3");
   (mk_color (-1) 0x8B 0x86 0x4E, "khaki4");
   (mk_color (-1) 0xE6 0xE6 0xFA, "lavender");
   (mk_color (-1) 0xFF 0xF0 0xF5, "lavenderblush");
   (mk_color (-1) 0xFF 0xF0 0xF5, "lavenderblush1");
   (mk_color (-1) 0xEE 0xE0 0xE5, "lavenderblush2");
   (mk_color (-1) 0xCD 0xC1 0xC5, "lavenderblush3");
   (mk_color (-1) 0x8B 0x83 0x86, "lavenderblush4");
   (mk_color (-1) 0x7C 0xFC 0x00, "lawngreen");
   (mk_color (-1) 0xFF 0xFA 0xCD, "lemonchiffon");
   (mk_color (-1) 0xFF 0xFA 0xCD, "lemonchiffon1");
   (mk_color (-1) 0xEE 0xE9 0xBF, "lemonchiffon2");
   (mk_color (-1) 0xCD 0xC9 0xA5, "lemonchiffon3");
   (mk_color (-1) 0x8B 0x89 0x70, "lemonchiffon4");
   (mk_color (-1) 0xAD 0xD8 0xE6, "lightblue");
   (mk_color (-1) 0xBF 0xEF 0xFF, "lightblue1");
   (mk_color (-1) 0xB2 0xDF 0xEE, "lightblue2");
   (mk_color (-1) 0x9A 0xC0 0xCD, "lightblue3");
   (mk_color (-1) 0x68 0x83 0x8B, "lightblue4");
   (mk_color (-1) 0xF0 0x80 0x80, "lightcoral");
   (mk_color (-1) 0xE0 0xFF 0xFF, "lightcyan");
   (mk_color (-1) 0xE0 0xFF 0xFF, "lightcyan1");
   (mk_color (-1) 0xD1 0xEE 0xEE, "lightcyan2");
   (mk_color (-1) 0xB4 0xCD 0xCD, "lightcyan3");
   (mk_color (-1) 0x7A 0x8B 0x8B, "lightcyan4");
   (mk_color (-1) 0xEE 0xDD 0x82, "lightgoldenrod");
   (mk_color (-1) 0xFF 0xEC 0x8B, "lightgoldenrod1");
   (mk_color (-1) 0xEE 0xDC 0x82, "lightgoldenrod2");
   (mk_color (-1) 0xCD 0xBE 0x70, "lightgoldenrod3");
   (mk_color (-1) 0x8B 0x81 0x4C, "lightgoldenrod4");
   (mk_color (-1) 0xFA 0xFA 0xD2, "lightgoldenrodyellow");
   (mk_color (-1) 0xD3 0xD3 0xD3, "lightgray");
   (mk_color (-1) 0x90 0xEE 0x90, "lightgreen");
   (mk_color (-1) 0xD3 0xD3 0xD3, "lightgrey");
   (mk_color (-1) 0xFF 0xB6 0xC1, "lightpink");
   (mk_color (-1) 0xFF 0xAE 0xB9, "lightpink1");
   (mk_color (-1) 0xEE 0xA2 0xAD, "lightpink2");
   (mk_color (-1) 0xCD 0x8C 0x95, "lightpink3");
   (mk_color (-1) 0x8B 0x5F 0x65, "lightpink4");
   (mk_color (-1) 0xFF 0xA0 0x7A, "lightsalmon");
   (mk_color (-1) 0xFF 0xA0 0x7A, "lightsalmon1");
   (mk_color (-1) 0xEE 0x95 0x72, "lightsalmon2");
   (mk_color (-1) 0xCD 0x81 0x62, "lightsalmon3");
   (mk_color (-1) 0x8B 0x57 0x42, "lightsalmon4");
   (mk_color (-1) 0x20 0xB2 0xAA, "lightseagreen");
   (mk_color (-1) 0x87 0xCE 0xFA, "lightskyblue");
   (mk_color (-1) 0xB0 0xE2 0xFF, "lightskyblue1");
   (mk_color (-1) 0xA4 0xD3 0xEE, "lightskyblue2");
   (mk_color (-1) 0x8D 0xB6 0xCD, "lightskyblue3");
   (mk_color (-1) 0x60 0x7B 0x8B, "lightskyblue4");
   (mk_color (-1) 0x84 0x70 0xFF, "lightslateblue");
   (mk_color (-1) 0x77 0x88 0x99, "lightslategray");
   (mk_color (-1) 0x77 0x88 0x99, "lightslategrey");
   (mk_color (-1) 0xB0 0xC4 0xDE, "lightsteelblue");
   (mk_color (-1) 0xCA 0xE1 0xFF, "lightsteelblue1");
   (mk_color (-1) 0xBC 0xD2 0xEE, "lightsteelblue2");
   (mk_color (-1) 0xA2 0xB5 0xCD, "lightsteelblue3");
   (mk_color (-1) 0x6E 0x7B 0x8B, "lightsteelblue4");
   (mk_color (-1) 0xFF 0xFF 0xE0, "lightyellow");
   (mk_color (-1) 0xFF 0xFF 0xE0, "lightyellow1");
   (mk_color (-1) 0xEE 0xEE 0xD1, "lightyellow2");
   (mk_color (-1) 0xCD 0xCD 0xB4, "lightyellow3");
   (mk_color (-1) 0x8B 0x8B 0x7A, "lightyellow4");
   (mk_color (-1) 0x00 0xFF 0x00, "lime");
   (mk_color (-1) 0x32 0xCD 0x32, "limegreen");
   (mk_color (-1) 0xFA 0xF0 0xE6, "linen");
   (mk_color (-1) 0xFF 0x00 0xFF, "magenta");
   (mk_color (-1) 0xFF 0x00 0xFF, "magenta1");
   (mk_color (-1) 0xEE 0x00 0xEE, "magenta2");
   (mk_color (-1) 0xCD 0x00 0xCD, "magenta3");
   (mk_color (-1) 0x8B 0x00 0x8B, "magenta4");
   (mk_color (-1) 0xB0 0x30 0x60, "maroon");
   (mk_color (-1) 0xFF 0x34 0xB3, "maroon1");
   (mk_color (-1) 0xEE 0x30 0xA7, "maroon2");
   (mk_color (-1) 0xCD 0x29 0x90, "maroon3");
   (mk_color (-1) 0x8B 0x1C 0x62, "maroon4");
   (mk_color (-1) 0x66 0xCD 0xAA, "mediumaquamarine");
   (mk_color (-1) 0x00 0x00 0xCD, "mediumblue");
   (mk_color (-1) 0xBA 0x55 0xD3, "mediumorchid");
   (mk_color (-1) 0xE0 0x66 0xFF, "mediumorchid1");
   (mk_color (-1) 0xD1 0x5F 0xEE, "mediumorchid2");
   (mk_color (-1) 0xB4 0x52 0xCD, "mediumorchid3");
   (mk_color (-1) 0x7A 0x37 0x8B, "mediumorchid4");
   (mk_color (-1) 0x93 0x70 0xDB, "mediumpurple");
   (mk_color (-1) 0xAB 0x82 0xFF, "mediumpurple1");
   (mk_color (-1) 0x9F 0x79 0xEE, "mediumpurple2");
   (mk_color (-1) 0x89 0x68 0xCD, "mediumpurple3");
   (mk_color (-1) 0x5D 0x47 0x8B, "mediumpurple4");
   (mk_color (-1) 0x3C 0xB3 0x71, "mediumseagreen");
   (mk_color (-1) 0x7B 0x68 0xEE, "mediumslateblue");
   (mk_color (-1) 0x00 0xFA 0x9A, "mediumspringgreen");
   (mk_color (-1) 0x48 0xD1 0xCC, "mediumturquoise");
   (mk_color (-1) 0xC7 0x15 0x85, "mediumvioletred");
   (mk_color (-1) 0x19 0x19 0x70, "midnightblue");
   (mk_color (-1) 0xF5 0xFF 0xFA, "mintcream");
   (mk_color (-1) 0xFF 0xE4 0xE1, "mistyrose");
   (mk_color (-1) 0xFF 0xE4 0xE1, "mistyrose1");
   (mk_color (-1) 0xEE 0xD5 0xD2, "mistyrose2");
   (mk_color (-1) 0xCD 0xB7 0xB5, "mistyrose3");
   (mk_color (-1) 0x8B 0x7D 0x7B, "mistyrose4");
   (mk_color (-1) 0xFF 0xE4 0xB5, "moccasin");
   (mk_color (-1) 0xFF 0xDE 0xAD, "navajowhite");
   (mk_color (-1) 0xFF 0xDE 0xAD, "navajowhite1");
   (mk_color (-1) 0xEE 0xCF 0xA1, "navajowhite2");
   (mk_color (-1) 0xCD 0xB3 0x8B, "navajowhite3");
   (mk_color (-1) 0x8B 0x79 0x5E, "navajowhite4");
   (mk_color (-1) 0x00 0x00 0x80, "navy");
   (mk_color (-1) 0x00 0x00 0x80, "navyblue");
   (mk_color (-1) 0xFD 0xF5 0xE6, "oldlace");
   (mk_color (-1) 0x80 0x80 0x00, "olive");
   (mk_color (-1) 0x6B 0x8E 0x23, "olivedrab");
   (mk_color (-1) 0xC0 0xFF 0x3E, "olivedrab1");
   (mk_color (-1) 0xB3 0xEE 0x3A, "olivedrab2");
   (mk_color (-1) 0x9A 0xCD 0x32, "olivedrab3");
   (mk_color (-1) 0x69 0x8B 0x22, "olivedrab4");
   (mk_color (-1) 0xFF 0xA5 0x00, "orange");
   (mk_color (-1) 0xFF 0xA5 0x00, "orange1");
   (mk_color (-1) 0xEE 0x9A 0x00, "orange2");
   (mk_color (-1) 0xCD 0x85 0x00, "orange3");
   (mk_color (-1) 0x8B 0x5A 0x00, "orange4");
   (mk_color (-1) 0xFF 0x45 0x00, "orangered");
   (mk_color (-1) 0xFF 0x45 0x00, "orangered1");
   (mk_color (-1) 0xEE 0x40 0x00, "orangered2");
   (mk_color (-1) 0xCD 0x37 0x00, "orangered3");
   (mk_color (-1) 0x8B 0x25 0x00, "orangered4");
   (mk_color (-1) 0xDA 0x70 0xD6, "orchid");
   (mk_color (-1) 0xFF 0x83 0xFA, "orchid1");
   (mk_color (-1) 0xEE 0x7A 0xE9, "orchid2");
   (mk_color (-1) 0xCD 0x69 0xC9, "orchid3");
   (mk_color (-1) 0x8B 0x47 0x89, "orchid4");
   (mk_color (-1) 0xEE 0xE8 0xAA, "palegoldenrod");
   (mk_color (-1) 0x98 0xFB 0x98, "palegreen");
   (mk_color (-1) 0x9A 0xFF 0x9A, "palegreen1");
   (mk_color (-1) 0x90 0xEE 0x90, "palegreen2");
   (mk_color (-1) 0x7C 0xCD 0x7C, "palegreen3");
   (mk_color (-1) 0x54 0x8B 0x54, "palegreen4");
   (mk_color (-1) 0xAF 0xEE 0xEE, "paleturquoise");
   (mk_color (-1) 0xBB 0xFF 0xFF, "paleturquoise1");
   (mk_color (-1) 0xAE 0xEE 0xEE, "paleturquoise2");
   (mk_color (-1) 0x96 0xCD 0xCD, "paleturquoise3");
   (mk_color (-1) 0x66 0x8B 0x8B, "paleturquoise4");
   (mk_color (-1) 0xDB 0x70 0x93, "palevioletred");
   (mk_color (-1) 0xFF 0x82 0xAB, "palevioletred1");
   (mk_color (-1) 0xEE 0x79 0x9F, "palevioletred2");
   (mk_color (-1) 0xCD 0x68 0x89, "palevioletred3");
   (mk_color (-1) 0x8B 0x47 0x5D, "palevioletred4");
   (mk_color (-1) 0xFF 0xEF 0xD5, "papayawhip");
   (mk_color (-1) 0xFF 0xDA 0xB9, "peachpuff");
   (mk_color (-1) 0xFF 0xDA 0xB9, "peachpuff1");
   (mk_color (-1) 0xEE 0xCB 0xAD, "peachpuff2");
   (mk_color (-1) 0xCD 0xAF 0x95, "peachpuff3");
   (mk_color (-1) 0x8B 0x77 0x65, "peachpuff4");
   (mk_color (-1) 0xCD 0x85 0x3F, "peru");
   (mk_color (-1) 0xFF 0xC0 0xCB, "pink");
   (mk_color (-1) 0xFF 0xB5 0xC5, "pink1");
   (mk_color (-1) 0xEE 0xA9 0xB8, "pink2");
   (mk_color (-1) 0xCD 0x91 0x9E, "pink3");
   (mk_color (-1) 0x8B 0x63 0x6C, "pink4");
   (mk_color (-1) 0xDD 0xA0 0xDD, "plum");
   (mk_color (-1) 0xFF 0xBB 0xFF, "plum1");
   (mk_color (-1) 0xEE 0xAE 0xEE, "plum2");
   (mk_color (-1) 0xCD 0x96 0xCD, "plum3");
   (mk_color (-1) 0x8B 0x66 0x8B, "plum4");
   (mk_color (-1) 0xB0 0xE0 0xE6, "powderblue");
   (mk_color (-1) 0xA0 0x20 0xF0, "purple");
   (mk_color (-1) 0x9B 0x30 0xFF, "purple1");
   (mk_color (-1) 0x91 0x2C 0xEE, "purple2");
   (mk_color (-1) 0x7D 0x26 0xCD, "purple3");
   (mk_color (-1) 0x55 0x1A 0x8B, "purple4");
   (mk_color (-1) 0x66 0x33 0x99, "rebeccapurple");
   (mk_color (-1) 0xFF 0x00 0x00, "red");
   (mk_color (-1) 0xFF 0x00 0x00, "red1");
   (mk_color (-1) 0xEE 0x00 0x00, "red2");
   (mk_color (-1) 0xCD 0x00 0x00, "red3");
   (mk_color (-1) 0x8B 0x00 0x00, "red4");
   (mk_color (-1) 0xBC 0x8F 0x8F, "rosybrown");
   (mk_color (-1) 0xFF 0xC1 0xC1, "rosybrown1");
   (mk_color (-1) 0xEE 0xB4 0xB4, "rosybrown2");
   (mk_color (-1) 0xCD 0x9B 0x9B, "rosybrown3");
   (mk_color (-1) 0x8B 0x69 0x69, "rosybrown4");
   (mk_color (-1) 0x41 0x69 0xE1, "royalblue");
   (mk_color (-1) 0x48 0x76 0xFF, "royalblue1");
   (mk_color (-1) 0x43 0x6E 0xEE, "royalblue2");
   (mk_color (-1) 0x3A 0x5F 0xCD, "royalblue3");
   (mk_color (-1) 0x27 0x40 0x8B, "royalblue4");
   (mk_color (-1) 0x8B 0x45 0x13, "saddlebrown");
   (mk_color (-1) 0xFA 0x80 0x72, "salmon");
   (mk_color (-1) 0xFF 0x8C 0x69, "salmon1");
   (mk_color (-1) 0xEE 0x82 0x62, "salmon2");
   (mk_color (-1) 0xCD 0x70 0x54, "salmon3");
   (mk_color (-1) 0x8B 0x4C 0x39, "salmon4");
   (mk_color (-1) 0xF4 0xA4 0x60, "sandybrown");
   (mk_color (-1) 0x2E 0x8B 0x57, "seagreen");
   (mk_color (-1) 0x54 0xFF 0x9F, "seagreen1");
   (mk_color (-1) 0x4E 0xEE 0x94, "seagreen2");
   (mk_color (-1) 0x43 0xCD 0x80, "seagreen3");
   (mk_color (-1) 0x2E 0x8B 0x57, "seagreen4");
   (mk_color (-1) 0xFF 0xF5 0xEE, "seashell");
   (mk_color (-1) 0xFF 0xF5 0xEE, "seashell1");
   (mk_color (-1) 0xEE 0xE5 0xDE, "seashell2");
   (mk_color (-1) 0xCD 0xC5 0xBF, "seashell3");
   (mk_color (-1) 0x8B 0x86 0x82, "seashell4");
   (mk_color (-1) 0xA0 0x52 0x2D, "sienna");
   (mk_color (-1) 0xFF 0x82 0x47, "sienna1");
   (mk_color (-1) 0xEE 0x79 0x42, "sienna2");
   (mk_color (-1) 0xCD 0x68 0x39, "sienna3");
   (mk_color (-1) 0x8B 0x47 0x26, "sienna4");
   (mk_color (-1) 0xC0 0xC0 0xC0, "silver");
   (mk_color (-1) 0x87 0xCE 0xEB, "skyblue");
   (mk_color (-1) 0x87 0xCE 0xFF, "skyblue1");
   (mk_color (-1) 0x7E 0xC0 0xEE, "skyblue2");
   (mk_color (-1) 0x6C 0xA6 0xCD, "skyblue3");
   (mk_color (-1) 0x4A 0x70 0x8B, "skyblue4");
   (mk_color (-1) 0x6A 0x5A 0xCD, "slateblue");
   (mk_color (-1) 0x83 0x6F 0xFF, "slateblue1");
   (mk_color (-1) 0x7A 0x67 0xEE, "slateblue2");
   (mk_color (-1) 0x69 0x59 0xCD, "slateblue3");
   (mk_color (-1) 0x47 0x3C 0x8B, "slateblue4");
   (mk_color (-1) 0x70 0x80 0x90, "slategray");
   (mk_color (-1) 0xC6 0xE2 0xFF, "slategray1");
   (mk_color (-1) 0xB9 0xD3 0xEE, "slategray2");
   (mk_color (-1) 0x9F 0xB6 0xCD, "slategray3");
   (mk_color (-1) 0x6C 0x7B 0x8B, "slategray4");
   (mk_color (-1) 0x70 0x80 0x90, "slategrey");
   (mk_color (-1) 0xFF 0xFA 0xFA, "snow");
   (mk_color (-1) 0xFF 0xFA 0xFA, "snow1");
   (mk_color (-1) 0xEE 0xE9 0xE9, "snow2");
   (mk_color (-1) 0xCD 0xC9 0xC9, "snow3");
   (mk_color (-1) 0x8B 0x89 0x89, "snow4");
   (mk_color (-1) 0x00 0xFF 0x7F, "springgreen");
   (mk_color (-1) 0x00 0xFF 0x7F, "springgreen1");
   (mk_color (-1) 0x00 0xEE 0x76, "springgreen2");
   (mk_color (-1) 0x00 0xCD 0x66, "springgreen3");
   (mk_color (-1) 0x00 0x8B 0x45, "springgreen4");
   (mk_color (-1) 0x46 0x82 0xB4, "steelblue");
   (mk_color (-1) 0x63 0xB8 0xFF, "steelblue1");
   (mk_color (-1) 0x5C 0xAC 0xEE, "steelblue2");
   (mk_color (-1) 0x4F 0x94 0xCD, "steelblue3");
   (mk_color (-1) 0x36 0x64 0x8B, "steelblue4");
   (mk_color (-1) 0xD2 0xB4 0x8C, "tan");
   (mk_color (-1) 0xFF 0xA5 0x4F, "tan1");
   (mk_color (-1) 0xEE 0x9A 0x49, "tan2");
   (mk_color (-1) 0xCD 0x85 0x3F, "tan3");
   (mk_color (-1) 0x8B 0x5A 0x2B, "tan4");
   (mk_color (-1) 0x00 0x80 0x80, "teal");
   (mk_color (-1) 0xD8 0xBF 0xD8, "thistle");
   (mk_color (-1) 0xFF 0xE1 0xFF, "thistle1");
   (mk_color (-1) 0xEE 0xD2 0xEE, "thistle2");
   (mk_color (-1) 0xCD 0xB5 0xCD, "thistle3");
   (mk_color (-1) 0x8B 0x7B 0x8B, "thistle4");
   (mk_color (-1) 0xFF 0x63 0x47, "tomato");
   (mk_color (-1) 0xFF 0x63 0x47, "tomato1");
   (mk_color (-1) 0xEE 0x5C 0x42, "tomato2");
   (mk_color (-1) 0xCD 0x4F 0x39, "tomato3");
   (mk_color (-1) 0x8B 0x36 0x26, "tomato4");
   (mk_color (-1) 0x40 0xE0 0xD0, "turquoise");
   (mk_color (-1) 0x00 0xF5 0xFF, "turquoise1");
   (mk_color (-1) 0x00 0xE5 0xEE, "turquoise2");
   (mk_color (-1) 0x00 0xC5 0xCD, "turquoise3");
   (mk_color (-1) 0x00 0x86 0x8B, "turquoise4");
   (mk_color (-1) 0xEE 0x82 0xEE, "violet");
   (mk_color (-1) 0xD0 0x20 0x90, "violetred");
   (mk_color (-1) 0xFF 0x3E 0x96, "violetred1");
   (mk_color (-1) 0xEE 0x3A 0x8C, "violetred2");
   (mk_color (-1) 0xCD 0x32 0x78, "violetred3");
   (mk_color (-1) 0x8B 0x22 0x52, "violetred4");
   (mk_color (-1) 0x80 0x80 0x80, "webgray");
   (mk_color (-1) 0x00 0x80 0x00, "webgreen");
   (mk_color (-1) 0x80 0x80 0x80, "webgrey");
   (mk_color (-1) 0x80 0x00 0x00, "webmaroon");
   (mk_color (-1) 0x80 0x00 0x80, "webpurple");
   (mk_color (-1) 0xF5 0xDE 0xB3, "wheat");
   (mk_color (-1) 0xFF 0xE7 0xBA, "wheat1");
   (mk_color (-1) 0xEE 0xD8 0xAE, "wheat2");
   (mk_color (-1) 0xCD 0xBA 0x96, "wheat3");
   (mk_color (-1) 0x8B 0x7E 0x66, "wheat4");
   (mk_color (-1) 0xFF 0xFF 0xFF, "white");
   (mk_color (-1) 0xF5 0xF5 0xF5, "whitesmoke");
   (mk_color (-1) 0xBE 0xBE 0xBE, "x11gray");
   (mk_color (-1) 0x00 0xFF 0x00, "x11green");
   (mk_color (-1) 0xBE 0xBE 0xBE, "x11grey");
   (mk_color (-1) 0xB0 0x30 0x60, "x11maroon");
   (mk_color (-1) 0xA0 0x20 0xF0, "x11purple");
   (mk_color (-1) 0xFF 0xFF 0x00, "yellow");
   (mk_color (-1) 0xFF 0xFF 0x00, "yellow1");
   (mk_color (-1) 0xEE 0xEE 0x00, "yellow2");
   (mk_color (-1) 0xCD 0xCD 0x00, "yellow3");
   (mk_color (-1) 0x8B 0x8B 0x00, "yellow4");
   (mk_color (-1) 0x9A 0xCD 0x32, "yellowgreen")].

(** The sign orders a key before or after a name. *)

Fixpoint guac_terminal_named_color_search (key name : list byte) : Z :=
  match key, name with
  | _, [] => 0
  | [], _ :: _ => -1
  | _ :: _, n :: name' =>
      let key := drop_white key in
      let keyChar :=
        match key with
        | [] => 0
        | c :: _ => if decide (c = x3b) then 0 else tolower (sc c)
        end in
      let difference := keyChar - sc n in
      if negb (difference =? 0) then difference
      else guac_terminal_named_color_search (tail key) name'
  end.

Definition guac_terminal_find_color (name : list byte) : option guac_terminal_color :=
  fst <$> bsearch (S (List.length GUAC_TERMINAL_NAMED_COLORS))
    (λ c, guac_terminal_named_color_search name (lit (snd c)))
    GUAC_TERMINAL_NAMED_COLORS 0 (List.length GUAC_TERMINAL_NAMED_COLORS).

(** ** xparsecolor.c *)

(** [sscanf(spec, "rgb:%Nx/%Nx/%Nx", ...) == 3] *)

Definition scan_rgb (n : nat) (spec : list byte) : option (Z * Z * Z) :=
  s ← scan_literal (lit "rgb:") spec;
  '(red, s) ← scan_hex n s;
  s ← scan_literal (lit "/") s;
  '(green, s) ← scan_hex n s;
  s ← scan_literal (lit "/") s;
  '(blue, _) ← scan_hex n s;
  Some (red, green, blue).

(** A colour out of the palette; a component is stored in eight bits. *)

Definition rgb_color (f : Z → Z) (rgb : Z * Z * Z) : guac_terminal_color :=
  let '(r, g, b) := rgb in
  mk_color (-1) (f r `mod` 256) (f g `mod` 256) (f b `mod` 256).

Definition guac_terminal_xparsecolor (spec : list byte) : option guac_terminal_color :=
  match scan_rgb 1 spec, scan_rgb 2 spec, scan_rgb 3 spec, scan_rgb 4 spec with
  | Some rgb, _, _, _ => Some (rgb_color (λ v, Z.shiftl v 4) rgb)
  | None, Some rgb, _, _ => Some (rgb_color (λ v, v) rgb)
  | None, None, Some rgb, _ => Some (rgb_color (λ v, Z.shiftr (i32 v) 4) rgb)
  | None, None, None, Some rgb => Some (rgb_color (λ v, Z.shiftr (i32 v) 8) rgb)
  | None, None, None, None => guac_terminal_find_color spec
  end.

(** ** color-scheme.c *)

Definition GUAC_TERMINAL_SCHEME_BLACK_WHITE : list byte := lit "black-white".
Definition GUAC_TERMINAL_SCHEME_GRAY_BLACK : list byte := lit "gray-black".
Definition GUAC_TERMINAL_SCHEME_GREEN_BLACK : list byte := lit "green-black".
Definition GUAC_TERMINAL_SCHEME_WHITE_BLACK : list byte := lit "white-black".
Definition GUAC_TERMINAL_SCHEME_FOREGROUND : list byte := lit "foreground".
Definition GUAC_TERMINAL_SCHEME_BACKGROUND : list byte := lit "background".

(** A token is the string from its start on and its length: the [sscanf] of the code reads past
    its end. *)

Fixpoint strip_leading (s : list byte) (n : nat) : list byte * nat :=
  match n, s with
  | S n', c :: s' => if isspace c then strip_leading s' n' else (s, n)
  | _, _ => (s, n)
  end.

Fixpoint strip_trailing (s : list byte) (n : nat) : nat :=
  match n with
  | O => O
  | S n' => if isspace (nth n' s x00) then strip_trailing s n' else n
  end.

Definition guac_terminal_color_scheme_strip_spaces (s : list byte) (n : nat) : list byte * nat :=
  let '(s, n) := strip_leading s n in (s, strip_trailing s n).

(** Whether the token is the literal: the value returned is zero. *)

Definition guac_terminal_color_scheme_compare_token (s : list byte) (n : nat) (literal : list byte)
    : bool :=
  bool_decide (take n s = literal).

Inductive color_target :=
| target_foreground
| target_background
| target_palette (index : Z).

Record color_scheme := mk_scheme {
  scheme_foreground : guac_terminal_color;
  scheme_background : guac_terminal_color;
  scheme_palette : list guac_terminal_color;
}.

(** The index in [color<n>]. *)

Definition scan_color_index (s : list byte) : option Z :=
  s ← scan_literal (lit "color") s;
  index ← scan_int s;
  if (0 <=? index) && (index <=? 255) then Some index else None.

Definition guac_terminal_parse_color_scheme_name (s : list byte) (n : nat) : option color_target :=
  let '(s, n) := guac_terminal_color_scheme_strip_spaces s n in
  if guac_terminal_color_scheme_compare_token s n GUAC_TERMINAL_SCHEME_FOREGROUND
  then Some target_foreground
  else if guac_terminal_color_scheme_compare_token s n GUAC_TERMINAL_SCHEME_BACKGROUND
  then Some target_background
  else target_palette <$> scan_color_index s.

Definition guac_terminal_parse_color_scheme_value (s : list byte) (n : nat)
    (palette : list guac_terminal_color) : option guac_terminal_color :=
  let '(s, n) := guac_terminal_color_scheme_strip_spaces s n in
  match scan_color_index s with
  | Some index => palette !! Z.to_nat index
  | None => guac_terminal_xparsecolor s
  end.

Definition assign_target (target : color_target) (color : guac_terminal_color) (c : color_scheme)
    : color_scheme :=
  match target with
  | target_foreground => mk_scheme color (scheme_background c) (scheme_palette c)
  | target_background => mk_scheme (scheme_foreground c) color (scheme_palette c)
  | target_palette i =>
      mk_scheme (scheme_foreground c) (scheme_background c) (<[Z.to_nat i := color]> (scheme_palette c))
  end.

(** One pair, of [n] bytes: [None] ends the parsing. *)

Definition parse_scheme_pair (token : list byte) (n : nat) (c : color_scheme) : option color_scheme :=
  let '(token, n) := guac_terminal_color_scheme_strip_spaces token n in
  if (n =? 0)%nat then Some c
  else
    name_length ← strchr (take n token) x3a;
    target ← guac_terminal_parse_color_scheme_name token name_length;
    color ← guac_terminal_parse_color_scheme_value (drop (S name_length) token) (n - S name_length)
              (scheme_palette c);
    Some (assign_target target color c).

(** The loop over the pairs: the colours parsed, and whether all pairs were. *)

Fixpoint parse_scheme_pairs (fuel : nat) (cursor : list byte) (c : color_scheme)
    : color_scheme * bool :=
  match fuel with
  | O => (c, false)
  | S fuel' =>
      match strchr cursor x3b with
      | Some n =>
          match parse_scheme_pair cursor n c with
          | Some c => parse_scheme_pairs fuel' (drop (S n) cursor) c
          | None => (c, false)
          end
      | None =>
          match parse_scheme_pair cursor (List.length cursor) c with
          | Some c => (c, true)
          | None => (c, false)
          end
      end
  end.

Definition with_index (i : Z) (c : guac_terminal_color) : guac_terminal_color :=
  mk_color i (red c) (green c) (blue c).

Definition guac_terminal_parse_color_scheme (scheme : list byte) : color_scheme :=
  let scheme :=
    if decide (scheme = GUAC_TERMINAL_SCHEME_GRAY_BLACK)
    then lit "foreground:color7;background:color0"
    else if decide (scheme = GUAC_TERMINAL_SCHEME_BLACK_WHITE)
    then lit "foreground:color0;background:color15"
    else if decide (scheme = GUAC_TERMINAL_SCHEME_GREEN_BLACK)
    then lit "foreground:color2;background:color0"
    else if decide (scheme = GUAC_TERMINAL_SCHEME_WHITE_BLACK)
    then lit "foreground:color15;background:color0"
    else scheme in
  let initial :=
    mk_scheme (mk_color 7 0x99 0x99 0x99) (mk_color 0 0x00 0x00 0x00)
      GUAC_TERMINAL_INITIAL_PALETTE in
  let '(c, parsed) := parse_scheme_pairs (S (List.length scheme)) scheme initial in
  if parsed then
    mk_scheme (with_index GUAC_TERMINAL_COLOR_FOREGROUND (scheme_foreground c))
      (with_index GUAC_TERMINAL_COLOR_BACKGROUND (scheme_background c)) (scheme_palette c)
  else c.

(** ** Properties *)

(** The lookup of a name answers with the colour itself or with one whose name it extends. *)

Definition is_extension (name : list byte) (found : guac_terminal_color)
    (c' : guac_terminal_named_color) : bool :=
  if decide (found = fst c') then
    bool_decide (lit (snd c') ≠ name) && bool_decide (lit (snd c') `prefix_of` name)
  else false.

Definition found_or_prefix (c : guac_terminal_named_color) : bool :=
  match guac_terminal_find_color (lit (snd c)) with
  | Some found =>
      if decide (found = fst c) then true
      else existsb (is_extension (lit (snd c)) found) GUAC_TERMINAL_NAMED_COLORS
  | None => false
  end.

Lemma named_colors_found_check : forallb found_or_prefix GUAC_TERMINAL_NAMED_COLORS = true.
Proof. vm_compute. reflexivity. Qed.

(** Looking up the name of a colour finds that colour, or another whose name is a proper
    prefix of it: the binary search over the 676 names is right but for the comparison, which
    takes the end of a table name for a match. *)
Theorem named_color_found c :
  c ∈ GUAC_TERMINAL_NAMED_COLORS →
  guac_terminal_find_color (lit (snd c)) = Some (fst c) ∨
  ∃ c', c' ∈ GUAC_TERMINAL_NAMED_COLORS ∧ lit (snd c') ≠ lit (snd c) ∧
    lit (snd c') `prefix_of` lit (snd c) ∧
    guac_terminal_find_color (lit (snd c)) = Some (fst c').
Proof.
  intros Hc. pose proof named_colors_found_check as H. rewrite forallb_forall in H.
  apply list_elem_of_In in Hc. specialize (H c Hc).
  unfold found_or_prefix in H. destruct (guac_terminal_find_color _) as [found|]; [|done].
  destruct (decide (found = fst c)) as [->|_]; [by left|right].
  apply existsb_exists in H as (c' & Hc' & H). exists c'. rewrite list_elem_of_In.
  unfold is_extension in H. destruct (decide (found = fst c')) as [->|]; [|done].
  rewrite andb_true_iff, !bool_decide_eq_true in H. by destruct H.
Qed.

Lemma named_color_found_witness :
  let c := (mk_color (-1) 0xFF 0x00 0x00, "red"%string) in
  guac_terminal_find_color (lit (snd c)) = Some (fst c) ∨
  ∃ c', c' ∈ GUAC_TERMINAL_NAMED_COLORS ∧ lit (snd c') ≠ lit (snd c) ∧
    lit (snd c') `prefix_of` lit (snd c) ∧
    guac_terminal_find_color (lit (snd c)) = Some (fst c').
Proof.
  intros c. apply (named_color_found c). apply (bool_decide_unpack _). vm_compute. exact I.
Defined.

(** The names that are found as another colour. *)

Definition misnamed : list guac_terminal_named_color :=
  List.filter (λ c, negb (bool_decide (guac_terminal_find_color (lit (snd c)) = Some (fst c))))
    GUAC_TERMINAL_NAMED_COLORS.

(** 110 of the 676 colours cannot be named: the key [gray20] is answered with the colour
    [gray2], for the comparison reports equality when the table's name ends first. *)
Theorem misnamed_colors :
  List.length misnamed = 110%nat ∧ List.length GUAC_TERMINAL_NAMED_COLORS = 676%nat ∧
  guac_terminal_find_color (lit "gray20") = guac_terminal_find_color (lit "gray2") ∧
  (mk_color (-1) 0x33 0x33 0x33, "gray20"%string) ∈ misnamed.
Proof.
  split; [by vm_compute|]. split; [by vm_compute|]. split; [by vm_compute|].
  apply (bool_decide_unpack _). vm_compute. exact I.
Qed.

(** A colour printed in the syntax of 24 bits. *)

Definition hex_byte (z : Z) : list byte := [hex_digit (z / 16); hex_digit (z mod 16)].

Definition print_rgb (r g b : Z) : list byte :=
  lit "rgb:" ++ hex_byte r ++ lit "/" ++ hex_byte g ++ lit "/" ++ hex_byte b.

Lemma scan_literal_app l s : scan_literal l (l ++ s) = Some s.
Proof. induction l as [|c l IH]; [done|]. cbn. by rewrite decide_True. Qed.

Lemma scan_hex_byte b s :
  scan_hex 2 (hex_byte (bz b) ++ lit "/" ++ s) = Some (bz b, lit "/" ++ s).
Proof. destruct b; vm_compute; reflexivity. Qed.

Lemma scan_hex_byte_end b : scan_hex 2 (hex_byte (bz b)) = Some (bz b, []).
Proof. destruct b; vm_compute; reflexivity. Qed.

(** With one digit a component, the second digit stands where the separator should. *)

Lemma scan_hex_1_byte b s :
  (p ← scan_hex 1 (hex_byte (bz b) ++ s); scan_literal (lit "/") (snd p)) = None.
Proof. destruct b; vm_compute; reflexivity. Qed.

(** A colour printed as "rgb:hh/hh/hh" is parsed back: the syntax with one digit a
    component, tried first, does not take it. *)
Theorem xparsecolor_print b1 b2 b3 :
  guac_terminal_xparsecolor (print_rgb (bz b1) (bz b2) (bz b3))
  = Some (mk_color (-1) (bz b1) (bz b2) (bz b3)).
Proof.
  assert (E1 : scan_rgb 1 (print_rgb (bz b1) (bz b2) (bz b3)) = None).
  { unfold scan_rgb, print_rgb. rewrite scan_literal_app. cbn [mbind option_bind].
    pose proof (scan_hex_1_byte b1 (lit "/" ++ hex_byte (bz b2) ++ lit "/" ++ hex_byte (bz b3))) as H.
    destruct (scan_hex 1 _) as [[v s]|]; [|done]. cbn [mbind option_bind snd] in *. by rewrite H. }
  assert (E2 : scan_rgb 2 (print_rgb (bz b1) (bz b2) (bz b3)) = Some (bz b1, bz b2, bz b3)).
  { unfold scan_rgb, print_rgb. rewrite scan_literal_app. cbn [mbind option_bind].
    rewrite scan_hex_byte. cbn [mbind option_bind]. rewrite scan_literal_app.
    cbn [mbind option_bind]. rewrite scan_hex_byte. cbn [mbind option_bind].
    rewrite scan_literal_app. cbn [mbind option_bind]. by rewrite scan_hex_byte_end. }
  unfold guac_terminal_xparsecolor. rewrite E1, E2. unfold rgb_color.
  pose proof (bz_range b1). pose proof (bz_range b2). pose proof (bz_range b3).
  by rewrite !Z.mod_small by lia.
Qed.
