(* ===== verification/TermBuffer.v ===== *)
(** * The terminal's rows of characters (src/src/terminal/buffer.c)

    The ring buffer of rows that holds the text of the terminal and of its
    scroll-back.  Memory is modelled down to its bounds: [characters] holds
    the cells of a row that have been initialised, and reading or writing any
    other is a [Fault].  [guac_terminal_buffer_set_columns] and
    [guac_terminal_buffer_force_break] call each other; their model takes the
    depth of the calls as fuel. *)

From S2P Require Import Prelude Mem Run TermTypes.
Local Open Scope Z_scope.

(** ** State *)

Definition GUAC_TERMINAL_BUFFER_ROW_MIN_SIZE : Z := 256.

Record guac_terminal_buffer_row := mk_row {
  characters : list guac_terminal_char;
  row_length : Z;
  row_available : Z;
  wrapped_row : bool;
}.

Record guac_terminal_buffer := mk_buffer {
  default_character : guac_terminal_char;
  rows : list guac_terminal_buffer_row;
  top : Z;
  length : Z;
  available : Z;
}.

(** The size of [guac_terminal_char] on the platforms the project is built for. *)

Definition sizeof_char : Z := 28.

(** ** Cells of memory *)

Definition cell_at {A} (cells : list A) (i : Z) : run A :=
  if i <? 0 then Fault else deref (cells !! Z.to_nat i).

Definition store {A} (cells : list A) (i : Z) (c : A) : run (list A) :=
  if (0 <=? i) && (i <? Z.of_nat (List.length cells))
  then Run (<[Z.to_nat i := c]> cells) else Fault.

(** [memmove] of [n] cells from index [src] to index [dst] of one array. *)

Definition memmove {A} (cells : list A) (dst src n : Z) : run (list A) :=
  let len := Z.of_nat (List.length cells) in
  if n =? 0 then Run cells
  else if (0 <=? src) && (src + n <=? len) && (0 <=? dst) && (dst + n <=? len) && (0 <=? n)
  then Run (take (Z.to_nat dst) cells ++ take (Z.to_nat n) (drop (Z.to_nat src) cells)
              ++ drop (Z.to_nat (dst + n)) cells)
  else Fault.

Definition set_characters (cells : list guac_terminal_char) (row : guac_terminal_buffer_row)
    : guac_terminal_buffer_row :=
  mk_row cells (row_length row) (row_available row) (wrapped_row row).

Definition set_wrapped_row (wrapped : bool) (row : guac_terminal_buffer_row)
    : guac_terminal_buffer_row :=
  mk_row (characters row) (row_length row) (row_available row) wrapped.

Definition set_row (index : nat) (row : guac_terminal_buffer_row) (buffer : guac_terminal_buffer)
    : guac_terminal_buffer :=
  mk_buffer (default_character buffer) (<[index := row]> (rows buffer))
    (top buffer) (length buffer) (available buffer).

Definition set_length (len : Z) (buffer : guac_terminal_buffer) : guac_terminal_buffer :=
  mk_buffer (default_character buffer) (rows buffer) (top buffer) len (available buffer).

Definition set_top (t : Z) (buffer : guac_terminal_buffer) : guac_terminal_buffer :=
  mk_buffer (default_character buffer) (rows buffer) t (length buffer) (available buffer).

(** ** The code *)

Definition guac_terminal_buffer_alloc (row_count : Z) (default_character : guac_terminal_char)
    : guac_terminal_buffer :=
  mk_buffer default_character
    (replicate (Z.to_nat row_count)
       (mk_row [] 0 GUAC_TERMINAL_BUFFER_ROW_MIN_SIZE false))
    0 0 (u32 row_count).

Definition guac_terminal_buffer_reset (buffer : guac_terminal_buffer) : guac_terminal_buffer :=
  set_length 0 (set_top 0 buffer).

(** The row, as an index of the array of rows; [None] is NULL. *)

Definition guac_terminal_buffer_get_row (buffer : guac_terminal_buffer) (row : Z) : option nat :=
  if available buffer <=? Z.abs row then None
  else Some (Z.to_nat (u32 (top buffer + row) `mod` available buffer)).

(** The loop of [guac_terminal_buffer_row_length]: a 32-bit integer doubles at most 32 times. *)

Fixpoint round_up (n : nat) (rounded value : Z) : run Z :=
  if rounded <? value then
    match n with
    | O => Spin
    | S n' => round_up n' (u32 (Z.shiftl rounded 1)) value
    end
  else Run rounded.

Definition guac_terminal_buffer_row_length (value : Z) : run Z :=
  _ ← GUAC_ASSERT (0 <=? value);
  _ ← GUAC_ASSERT (value <=? GUAC_TERMINAL_MAX_COLUMNS);
  round_up 32 GUAC_TERMINAL_BUFFER_ROW_MIN_SIZE value.

(** The comparisons of [length] with members of the row are unsigned. *)

Definition guac_terminal_buffer_row_expand (row : guac_terminal_buffer_row) (length : Z)
    (default_character : guac_terminal_char) : run guac_terminal_buffer_row :=
  if u32 length <=? row_length row then Run row
  else
    let length :=
      if GUAC_TERMINAL_MAX_COLUMNS <? length then GUAC_TERMINAL_MAX_COLUMNS else length in
    new_available ←
      (if row_available row <? u32 length then guac_terminal_buffer_row_length length
       else Run (row_available row));
    Run (mk_row
      (take (Z.to_nat (row_length row)) (characters row)
       ++ replicate (Z.to_nat (new_available - row_length row)) default_character)
      (u32 length) new_available (wrapped_row row)).

(** The first column of the character that covers column [start]. *)

Fixpoint find_start (cells : list guac_terminal_char) (start : nat) : run nat :=
  match start with
  | O => Run O
  | S previous =>
      start_char ← deref (cells !! start);
      if is_continuation start_char then find_start cells previous else Run start
  end.

(** The last column of the character that covers column [end_column], within [n] columns of it. *)

Fixpoint find_end (cells : list guac_terminal_char) (n : nat) (end_column : Z) : run Z :=
  match n with
  | O => Run end_column
  | S n' =>
      next_char ← cell_at cells (end_column + 1);
      if is_continuation next_char then find_end cells n' (end_column + 1) else Run end_column
  end.

(** Past the character at [start_column] where it ends before [end_column]: the column and its
    cell. *)

Definition advance_start (cells : list guac_terminal_char) (start_column end_column : Z)
    : run (Z * guac_terminal_char) :=
  start_char ← cell_at cells start_column;
  if negb (is_continuation start_char) && (width start_char <? end_column - start_column + 1)
  then
    next_char ← cell_at cells (start_column + width start_char);
    Run (start_column + width start_char, next_char)
  else Run (start_column, start_char).

Section ForceBreak.

(** [guac_terminal_buffer_set_columns], as the recursive calls see it. *)

Context (set_columns : guac_terminal_buffer → Z → Z → Z → guac_terminal_char →
                       run guac_terminal_buffer).

Definition clear_broken (buffer : guac_terminal_buffer) (row : Z)
    (cells : list guac_terminal_char) (start_column end_column : Z)
    : run guac_terminal_buffer :=
  start ← advance_start cells start_column end_column;
  let '(start_column, start_char) := start in
  if is_continuation start_char
     || negb (width start_char =? end_column - start_column + 1)
  then set_columns buffer row start_column end_column (cleared_char start_char)
  else Run buffer.

Definition force_break_left (buffer : guac_terminal_buffer) (row : Z) (index : nat) (edge : Z)
    : run guac_terminal_buffer :=
  if 0 <? edge then
    buffer_row ← deref (rows buffer !! index);
    let end_column := edge - 1 in
    start_column ← find_start (characters buffer_row) (Z.to_nat end_column);
    clear_broken buffer row (characters buffer_row) (Z.of_nat start_column) end_column
  else Run buffer.

Definition force_break_right (buffer : guac_terminal_buffer) (row : Z) (index : nat) (edge : Z)
    : run guac_terminal_buffer :=
  buffer_row ← deref (rows buffer !! index);
  if (0 <=? edge) && (edge <? row_length buffer_row) then
    let start_column := edge in
    end_column ← find_end (characters buffer_row)
      (Z.to_nat (row_length buffer_row - start_column - 1)) start_column;
    clear_broken buffer row (characters buffer_row) start_column end_column
  else Run buffer.

Definition force_break (buffer : guac_terminal_buffer) (row edge : Z)
    : run guac_terminal_buffer :=
  match guac_terminal_buffer_get_row buffer row with
  | None => Run buffer
  | Some index =>
      buffer ← force_break_left buffer row index edge;
      force_break_right buffer row index edge
  end.

End ForceBreak.

(** One column of the loop of [guac_terminal_buffer_set_columns]: the cells and
    [remaining_continuation_chars]. *)

Definition set_column (character : guac_terminal_char) (i : Z)
    (s : list guac_terminal_char * Z) : run (list guac_terminal_char * Z) :=
  let '(cells, remaining_continuation_chars) := s in
  if 0 <? remaining_continuation_chars then
    cells ← store cells i (continuation_char character);
    Run (cells, remaining_continuation_chars - 1)
  else
    cells ← store cells i character;
    Run (cells, width character - 1).

Fixpoint set_columns_at (depth : nat) (buffer : guac_terminal_buffer) (row start_column end_column : Z)
    (character : guac_terminal_char) {struct depth} : run guac_terminal_buffer :=
  match depth with
  | O => Spin
  | S depth' =>
      if (width character <=? 0) || (GUAC_TERMINAL_MAX_ROWS <=? row)
         || (row <=? - GUAC_TERMINAL_MAX_ROWS)
      then Run buffer
      else
        match guac_terminal_buffer_get_row buffer row with
        | None => Run buffer
        | Some index =>
            buffer_row ← deref (rows buffer !! index);
            start_column ←
              guac_terminal_fit_to_range start_column 0 (GUAC_TERMINAL_MAX_COLUMNS - 1);
            end_column ←
              guac_terminal_fit_to_range end_column 0 (GUAC_TERMINAL_MAX_COLUMNS - 1);
            buffer_row ← guac_terminal_buffer_row_expand buffer_row (end_column + 1)
              (default_character buffer);
            _ ← GUAC_ASSERT (end_column + 1 <=? row_length buffer_row);
            s ← for_range start_column end_column (set_column character)
              (characters buffer_row, 0);
            let buffer := set_row index (set_characters (fst s) buffer_row) buffer in
            let buffer :=
              if negb (value character =? 0) && (length buffer <=? u32 row)
              then set_length (u32 (row + 1)) buffer else buffer in
            buffer ← force_break (set_columns_at depth') buffer row start_column;
            force_break (set_columns_at depth') buffer row (end_column + 1)
        end
  end.

(** Each nested call replaces a cell that is a continuation or wider than one column, of which
    a row has at most [GUAC_TERMINAL_MAX_COLUMNS]. *)

Definition SET_COLUMNS_DEPTH : nat := Z.to_nat (GUAC_TERMINAL_MAX_COLUMNS + 2).

Definition guac_terminal_buffer_set_columns := set_columns_at SET_COLUMNS_DEPTH.

Definition guac_terminal_buffer_force_break := force_break guac_terminal_buffer_set_columns.

(** The arithmetic on [buffer_row->length] is unsigned, its result an [int] parameter. *)

Definition guac_terminal_buffer_copy_columns (buffer : guac_terminal_buffer) (row : Z)
    (start_column end_column offset : Z) : run guac_terminal_buffer :=
  match guac_terminal_buffer_get_row buffer row with
  | None => Run buffer
  | Some index =>
      buffer_row ← deref (rows buffer !! index);
      buffer_row ← guac_terminal_buffer_row_expand buffer_row (i32 (end_column + offset + 1))
        (default_character buffer);
      _ ← GUAC_ASSERT (u32 (end_column + offset + 1) <=? row_length buffer_row);
      columns ←
        (if 0 <=? offset then
           start_column ← guac_terminal_fit_to_range start_column 0
             (i32 (row_length buffer_row - offset - 1));
           end_column ← guac_terminal_fit_to_range end_column start_column
             (i32 (row_length buffer_row - offset - 1));
           Run (start_column, end_column)
         else
           start_column ← guac_terminal_fit_to_range start_column (- offset)
             (i32 (row_length buffer_row - 1));
           end_column ← guac_terminal_fit_to_range end_column start_column
             (i32 (row_length buffer_row - 1));
           Run (start_column, end_column));
      let '(start_column, end_column) := columns in
      cells ← memmove (characters buffer_row) (start_column + offset) start_column
        (end_column - start_column + 1);
      let buffer := set_row index (set_characters cells buffer_row) buffer in
      buffer ← guac_terminal_buffer_force_break buffer row (start_column + offset);
      guac_terminal_buffer_force_break buffer row (end_column + offset + 1)
  end.

(** One round of the loop of [guac_terminal_buffer_copy_rows]: the buffer and [current_row].
    The source and the destination may be the same row. *)

Definition copy_row (offset step : Z) (i : Z) (s : guac_terminal_buffer * Z)
    : run (guac_terminal_buffer * Z) :=
  let '(buffer, current_row) := s in
  match guac_terminal_buffer_get_row buffer current_row,
        guac_terminal_buffer_get_row buffer (i32 (current_row + offset)) with
  | Some src, Some dst =>
      src_row ← deref (rows buffer !! src);
      dst_row ← deref (rows buffer !! dst);
      dst_row ← guac_terminal_buffer_row_expand dst_row (row_length src_row)
        (default_character buffer);
      let buffer := set_row dst dst_row buffer in
      src_row ← deref (rows buffer !! src);
      _ ← GUAC_ASSERT (row_length src_row <=? row_length dst_row);
      _ ← or_abort (PRIV_guac_mem_ckd_mul_or_die [sizeof_char; row_length src_row]);
      let n := Z.to_nat (row_length src_row) in
      if (n <=? List.length (characters src_row))%nat
         && (n <=? List.length (characters dst_row))%nat
      then
        let buffer :=
          set_row dst
            (mk_row (take n (characters src_row) ++ drop n (characters dst_row))
               (row_length src_row) (row_available dst_row) (wrapped_row src_row)) buffer in
        src_row ← deref (rows buffer !! src);
        Run (set_row src (set_wrapped_row false src_row) buffer, current_row + step)
      else Fault
  | _, _ => Run (buffer, current_row)
  end.

Definition guac_terminal_buffer_copy_rows (buffer : guac_terminal_buffer)
    (start_row end_row offset : Z) : run guac_terminal_buffer :=
  let '(current_row, step) := if 0 <? offset then (end_row, -1) else (start_row, 1) in
  s ← for_range start_row end_row (copy_row offset step) (buffer, current_row);
  Run (fst s).

Definition guac_terminal_buffer_scroll_up (buffer : guac_terminal_buffer) (amount : Z)
    : guac_terminal_buffer :=
  if amount <=? 0 then buffer
  else
    let buffer := set_top (u32 (top buffer + amount) `mod` available buffer) buffer in
    let buffer := set_length (u32 (length buffer + amount)) buffer in
    if available buffer <? length buffer then set_length (available buffer) buffer else buffer.

Definition guac_terminal_buffer_scroll_down (buffer : guac_terminal_buffer) (amount : Z)
    : guac_terminal_buffer :=
  if amount <=? 0 then buffer
  else set_top (u32 (top buffer - amount) `mod` available buffer) buffer.

(** The cells, whether the row is wrapped and the number of columns; [None] is a result of zero
    with nothing stored. *)

Definition guac_terminal_buffer_get_columns (buffer : guac_terminal_buffer) (row : Z)
    : run (option (list guac_terminal_char * bool * Z)) :=
  match guac_terminal_buffer_get_row buffer row with
  | None => Run None
  | Some index =>
      buffer_row ← deref (rows buffer !! index);
      Run (Some (characters buffer_row, wrapped_row buffer_row, row_length buffer_row))
  end.

Definition guac_terminal_buffer_set_cursor (buffer : guac_terminal_buffer) (row column : Z)
    (is_cursor : bool) : run guac_terminal_buffer :=
  if (GUAC_TERMINAL_MAX_ROWS <=? row) || (row <=? - GUAC_TERMINAL_MAX_ROWS) then Run buffer
  else
    match guac_terminal_buffer_get_row buffer row with
    | None => Run buffer
    | Some index =>
        buffer_row ← deref (rows buffer !! index);
        column ← guac_terminal_fit_to_range column 0 (GUAC_TERMINAL_MAX_COLUMNS - 1);
        buffer_row ← guac_terminal_buffer_row_expand buffer_row (column + 1)
          (default_character buffer);
        _ ← GUAC_ASSERT (column + 1 <=? row_length buffer_row);
        c ← cell_at (characters buffer_row) column;
        cells ← store (characters buffer_row) column (set_cursor_attribute is_cursor c);
        Run (set_row index (set_characters cells buffer_row) buffer)
    end.

Definition guac_terminal_buffer_effective_length (buffer : guac_terminal_buffer)
    (scrollback : Z) : Z :=
  if u32 scrollback <? length buffer then u32 scrollback else length buffer.

Definition guac_terminal_buffer_set_wrapped (buffer : guac_terminal_buffer) (row : Z)
    (wrapped : bool) : run guac_terminal_buffer :=
  match guac_terminal_buffer_get_row buffer row with
  | None => Run buffer
  | Some index =>
      buffer_row ← deref (rows buffer !! index);
      Run (set_row index (set_wrapped_row wrapped buffer_row) buffer)
  end.
