(* ===== verification/TermRowSpec.v ===== *)
(** * Rows of whole characters (specification of TermBuffer.v)

    A row is well formed when it is a sequence of glyphs: a cell of width [w]
    followed by its [w - 1] continuations.  [overwrite] says what a row is
    after columns of it are set: the new glyphs, with blanks in place of the
    columns of the glyphs they cut. *)

From S2P Require Import Prelude Mem Run TermTypes TermBuffer.
Local Open Scope Z_scope.

Local Abbreviation len l := (Z.of_nat (List.length l)).

(** ** Glyphs *)

Definition conts (l : list guac_terminal_char) : Prop := Forall (λ c, is_continuation c = true) l.

Definition head_ok (l : list guac_terminal_char) : Prop :=
  match l with [] => True | c :: _ => is_continuation c = false end.

(** One character of the row: its first cell and its continuations. *)

Definition is_glyph (g : list guac_terminal_char) : Prop :=
  ∃ c k, g = c :: k ∧ is_continuation c = false ∧ conts k ∧ width c = len g.

(** The first columns of a character, one at least and not all. *)

Definition is_cut (g : list guac_terminal_char) : Prop :=
  ∃ c k, g = c :: k ∧ is_continuation c = false ∧ conts k ∧ len g < width c.

Inductive glyphs : list guac_terminal_char → Prop :=
| glyphs_nil : glyphs []
| glyphs_app g l : is_glyph g → glyphs l → glyphs (g ++ l).

Definition ends_ok (l : list guac_terminal_char) : Prop :=
  l = [] ∨ ∃ l' g, l = l' ++ g ∧ is_glyph g.

Definition starts_ok (l : list guac_terminal_char) : Prop :=
  l = [] ∨ ∃ g l', l = g ++ l' ∧ is_glyph g ∧ head_ok l'.

Definition blanks (l : list guac_terminal_char) : list guac_terminal_char :=
  match l with [] => [] | c :: _ => replicate (List.length l) (cleared_char c) end.

Lemma length_blanks l : List.length (blanks l) = List.length l.
Proof. destruct l; [done|]. apply length_replicate. Qed.

Lemma cleared_not_continuation c : is_continuation (cleared_char c) = false.
Proof. done. Qed.

Lemma glyph_cleared c : is_glyph [cleared_char c].
Proof. exists (cleared_char c), []. repeat split; constructor. Qed.

Lemma glyphs_blanks l : glyphs (blanks l).
Proof.
  destruct l as [|c l]; [constructor|]. cbn [blanks].
  induction (List.length (c :: l)) as [|n IH]; [constructor|].
  apply (glyphs_app [_]); [apply glyph_cleared|done].
Qed.

Lemma glyph_head_ok g l : is_glyph g → head_ok (g ++ l).
Proof. by intros (c & k & -> & Hc & _). Qed.

Lemma glyph_not_nil g : is_glyph g → g ≠ [].
Proof. by intros (c & k & -> & _). Qed.

Lemma glyphs_head_ok l : glyphs l → head_ok l.
Proof. destruct 1 as [|g l Hg]; [done|]. by apply glyph_head_ok. Qed.

Lemma glyphs_starts_ok l : glyphs l → starts_ok l.
Proof.
  destruct 1 as [|g l Hg Hl]; [by left|]. right. exists g, l.
  auto using glyphs_head_ok.
Qed.

Lemma starts_ok_head l : starts_ok l → head_ok l.
Proof. intros [->|(g & l' & -> & Hg & _)]; [done|]. by apply glyph_head_ok. Qed.

Lemma glyphs_app_2 l l' : glyphs l → glyphs l' → glyphs (l ++ l').
Proof.
  induction 1 as [|g l Hg Hl IH]; [done|]. intros H. rewrite <-app_assoc.
  constructor; auto.
Qed.

Lemma glyphs_ends_ok l : glyphs l → ends_ok l.
Proof.
  induction 1 as [|g l Hg Hl IH]; [by left|]. right. destruct IH as [->|(l' & g' & -> & Hg')].
  - exists [], g. by rewrite app_nil_r.
  - exists (g ++ l'), g'. by rewrite app_assoc.
Qed.

Lemma ends_ok_app l g : is_glyph g → ends_ok (l ++ g).
Proof. right. eauto. Qed.

Lemma ends_ok_blanks l b : ends_ok l → ends_ok (l ++ blanks b).
Proof.
  intros Hl. destruct (glyphs_ends_ok _ (glyphs_blanks b)) as [->|(b' & g & -> & Hg)].
  - by rewrite app_nil_r.
  - rewrite app_assoc. by apply ends_ok_app.
Qed.

Lemma starts_ok_blanks b l : head_ok l → b ≠ [] → starts_ok (blanks b ++ l).
Proof.
  intros Hl Hb. destruct b as [|c b]; [done|]. right. cbn [blanks List.length replicate].
  exists [cleared_char c], (replicate (List.length b) (cleared_char c) ++ l).
  split; [done|]. split; [apply glyph_cleared|]. by destruct b.
Qed.

#[export] Hint Resolve glyph_cleared glyphs_blanks glyphs_starts_ok starts_ok_head glyphs_ends_ok
  ends_ok_app ends_ok_blanks starts_ok_blanks glyphs_head_ok glyph_head_ok : guac.

Lemma glyphs_replicate d n : is_glyph [d] → glyphs (replicate n d).
Proof. intros Hd. induction n as [|n IH]; [constructor|]. by apply (glyphs_app [d]). Qed.

Lemma conts_take n k : conts k → conts (take n k).
Proof. by apply Forall_take. Qed.

Lemma conts_drop n k : conts k → conts (drop n k).
Proof. by apply Forall_drop. Qed.

(** ** Equality up to the attributes of blanks *)

Definition blank_sim (c c' : guac_terminal_char) : Prop :=
  c = c' ∨ value c = GUAC_CHAR_SPACE ∧ value c' = GUAC_CHAR_SPACE ∧ width c = 1 ∧ width c' = 1.

Lemma blank_sim_refl l : Forall2 blank_sim l l.
Proof. induction l; constructor; [by left|done]. Qed.

Definition all_blank (l : list guac_terminal_char) : Prop :=
  Forall (λ c, value c = GUAC_CHAR_SPACE ∧ width c = 1) l.

Lemma all_blank_replicate n c : all_blank (replicate n (cleared_char c)).
Proof. by apply Forall_replicate. Qed.

Lemma all_blank_blanks l : all_blank (blanks l).
Proof. destruct l; [constructor|]. apply all_blank_replicate. Qed.

Lemma all_blank_app l l' : all_blank l → all_blank l' → all_blank (l ++ l').
Proof. intros. by apply Forall_app. Qed.

Lemma blank_sim_blanks l l' :
  all_blank l → all_blank l' → List.length l = List.length l' → Forall2 blank_sim l l'.
Proof.
  intros H. revert l'.
  induction H as [|c l [Hc Hw] Hl IH]; intros [|c' l'] H' E; [constructor|discriminate E..|].
  - apply Forall_cons_iff in H' as [[Hc' Hw'] H']. injection E as E.
    constructor; [by right|auto].
Qed.

(** ** What setting columns writes *)

Fixpoint written (character : guac_terminal_char) (n : nat) (remaining : nat)
    : list guac_terminal_char :=
  match n with
  | O => []
  | S n' =>
      match remaining with
      | S r => continuation_char character :: written character n' r
      | O => character :: written character n' (Z.to_nat (width character - 1))
      end
  end.

Lemma length_written ch n r : List.length (written ch n r) = n.
Proof. revert r. induction n as [|n IH]; intros [|r]; cbn; auto. Qed.

(** Whole glyphs are written when the width divides the number of columns. *)

Lemma written_glyphs ch k :
  1 ≤ width ch → is_continuation ch = false →
  glyphs (written ch (k * Z.to_nat (width ch)) 0).
Proof.
  intros Hw Hc. induction k as [|k IH]; [constructor|].
  assert (H : ∀ r n, written ch (r + n) r = replicate r (continuation_char ch) ++ written ch n 0).
  { intros r n. induction r as [|r IHr]; [done|]. cbn. by rewrite IHr. }
  replace (S k * Z.to_nat (width ch))%nat
    with (S (Z.to_nat (width ch - 1) + k * Z.to_nat (width ch))) by lia.
  cbn [written]. rewrite H, app_comm_cons. constructor; [|done].
  exists ch, (replicate (Z.to_nat (width ch - 1)) (continuation_char ch)).
  repeat split; [done|by apply Forall_replicate|]. cbn. rewrite length_replicate. lia.
Qed.

Lemma cell_at_lookup {A} (l : list A) i c :
  0 ≤ i → l !! Z.to_nat i = Some c → cell_at l i = Run c.
Proof. intros Hi H. unfold cell_at. zif; [lia|]. by rewrite H. Qed.

Lemma cell_at_middle {A} (X : list A) c Y i : i = len X → cell_at (X ++ c :: Y) i = Run c.
Proof.
  intros ->. apply cell_at_lookup; [lia|]. rewrite Nat2Z.id. by apply list_lookup_middle.
Qed.

Lemma store_ok {A} (l : list A) i c :
  0 ≤ i < len l → store l i c = Run (<[Z.to_nat i := c]> l).
Proof. intros H. unfold store. zif; [done|lia]. Qed.

Lemma set_column_first ch i cells r :
  r = 0 → set_column ch i (cells, r) = (cells ← store cells i ch; Run (cells, width ch - 1)).
Proof. by intros ->. Qed.

Lemma set_column_next ch i cells r :
  0 < r → set_column ch i (cells, r)
          = (cells ← store cells i (continuation_char ch); Run (cells, r - 1)).
Proof. intros H. unfold set_column. by rewrite (proj2 (Z.ltb_lt 0 r) H). Qed.

Lemma store_middle {A} X (y : A) V i c : i = len X → store (X ++ y :: V) i c = Run (X ++ c :: V).
Proof.
  intros ->. rewrite store_ok by (rewrite !length_app; cbn; lia).
  rewrite Nat2Z.id, insert_app_r_alt by lia. by rewrite Nat.sub_diag.
Qed.

Lemma set_columns_loop ch n : ∀ X Y V r,
  List.length Y = n → 1 ≤ width ch →
  ∃ r', for_loop n (len X) (set_column ch) (X ++ Y ++ V, Z.of_nat r)
        = Run (X ++ written ch n r ++ V, r').
Proof.
  induction n as [|n IH]; intros X Y V r HY Hw; cbn [for_loop].
  - destruct Y; [|done]. eauto.
  - destruct Y as [|y Y]; [done|]. injection HY as HY. cbn [app].
    assert (N : ∀ c r1 r2, r1 = Z.of_nat r2 → ∃ r',
      for_loop n (len X + 1) (set_column ch) (X ++ c :: Y ++ V, r1)
      = Run (X ++ c :: written ch n r2 ++ V, r')).
    { intros c r1 r2 ->. destruct (IH (X ++ [c]) Y V r2 HY Hw) as (r' & E').
      rewrite length_app, <-!app_assoc in E'. cbn [List.length app] in E'.
      exists r'. rewrite <-E'. f_equal. lia. }
    destruct r as [|r].
    + rewrite set_column_first, store_middle by lia. apply N. lia.
    + rewrite set_column_next, store_middle by lia. apply N. lia.
Qed.

Lemma written_cleared c k :
  written (cleared_char c) (List.length (c :: k)) 0 = blanks (c :: k).
Proof.
  cbn [blanks]. induction (List.length (c :: k)) as [|n IH]; [done|].
  cbn [written cleared_char width replicate]. change (Z.to_nat (1 - 1)) with O. by rewrite IH.
Qed.

(** ** The ends of the character that covers a column *)

Lemma conts_lookup k i c : conts k → k !! i = Some c → is_continuation c = true.
Proof. intros Hk. by apply (Forall_lookup_1 _ _ _ _ Hk). Qed.

Lemma find_start_middle X c k Y i :
  is_continuation c = false ∨ X = [] → conts k → (i ≤ List.length k)%nat →
  find_start (X ++ (c :: k) ++ Y) (List.length X + i) = Run (List.length X).
Proof.
  intros Hc Hk. induction i as [|i IH]; intros Hi.
  - rewrite Nat.add_0_r.
    assert (E : (X ++ (c :: k) ++ Y) !! List.length X = Some c) by (by apply list_lookup_middle).
    destruct X as [|x X]; [done|]. destruct Hc as [Hc|Hc]; [|discriminate Hc].
    cbn [List.length find_start] in *. rewrite E. cbn. by rewrite Hc.
  - rewrite Nat.add_succ_r. cbn [find_start].
    destruct (lookup_lt_is_Some_2 k i ltac:(lia)) as (d & Hd).
    assert (E : (X ++ (c :: k) ++ Y) !! S (List.length X + i) = Some d).
    { rewrite lookup_app_r by lia.
      replace (S (List.length X + i) - List.length X)%nat with (S i) by lia.
      cbn. by apply lookup_app_l_Some. }
    rewrite E. cbn. rewrite (conts_lookup k i d Hk Hd). apply IH. lia.
Qed.

Lemma find_end_conts C : ∀ X D R e n,
  conts C → head_ok D → e = len X - 1 → n = (List.length C + List.length D)%nat →
  find_end (X ++ C ++ D ++ R) n e = Run (e + len C).
Proof.
  induction C as [|c C IH]; intros X D R e n HC HD He ->; cbn [List.length Nat.add].
  - rewrite Z.add_0_r. destruct D as [|d D]; [done|]. cbn [List.length find_end app].
    rewrite cell_at_middle by lia. cbn. by rewrite HD.
  - apply Forall_cons_iff in HC as [Hc HC]. cbn [find_end app].
    rewrite cell_at_middle by lia. cbn [mbind run_bind]. rewrite Hc.
    change (c :: C ++ D ++ R) with ([c] ++ (C ++ D ++ R)). rewrite app_assoc.
    rewrite (IH (X ++ [c]) D R (e + 1) _ HC HD); [f_equal; lia| |done].
    rewrite length_app. cbn. lia.
Qed.

(** ** Forcing a break *)

Section ClearBroken.

Context (f : guac_terminal_buffer → Z → Z → Z → guac_terminal_char → run guac_terminal_buffer).
Context (b : guac_terminal_buffer) (row : Z).

Lemma clear_broken_whole X g Y e :
  is_glyph g → e = len X + len g - 1 → clear_broken f b row (X ++ g ++ Y) (len X) e = Run b.
Proof.
  intros (c & k & -> & Hc & _ & Hw) ->. unfold clear_broken, advance_start. cbn [app].
  rewrite cell_at_middle by done. rewrite !run_bind_run, Hc, Hw. cbn [negb andb].
  zif; [lia|]. rewrite run_bind_run. cbv beta iota. rewrite Hc, Hw. cbn [orb].
  rewrite (proj2 (Z.eqb_eq _ _)) by lia. done.
Qed.

Lemma clear_broken_conts X c k Y e :
  is_continuation c = true → e = len X + len (c :: k) - 1 →
  clear_broken f b row (X ++ (c :: k) ++ Y) (len X) e = f b row (len X) e (cleared_char c).
Proof.
  intros Hc ->. unfold clear_broken, advance_start. cbn [app].
  rewrite cell_at_middle by done. rewrite !run_bind_run, Hc. cbn [negb andb].
  rewrite run_bind_run. cbv beta iota. by rewrite Hc.
Qed.

Lemma clear_broken_cut X c k Y e :
  is_cut (c :: k) → e = len X + len (c :: k) - 1 →
  clear_broken f b row (X ++ (c :: k) ++ Y) (len X) e = f b row (len X) e (cleared_char c).
Proof.
  intros (c' & k' & [= <- <-] & Hc & _ & Hw) ->. unfold clear_broken, advance_start. cbn [app].
  rewrite cell_at_middle by done. rewrite !run_bind_run, Hc. cbn [negb andb].
  zif; [lia|]. rewrite run_bind_run. cbv beta iota. rewrite Hc. cbn [orb].
  rewrite (proj2 (Z.eqb_neq _ _)) by lia. done.
Qed.

Lemma clear_broken_past X g c k Y e :
  is_glyph g → is_continuation c = true → e = len X + len g + len (c :: k) - 1 →
  clear_broken f b row (X ++ g ++ (c :: k) ++ Y) (len X) e
  = f b row (len X + len g) e (cleared_char c).
Proof.
  intros (d & l & -> & Hd & _ & Hw) Hc He.
  assert (E1 : cell_at (X ++ (d :: l) ++ (c :: k) ++ Y) (len X) = Run d)
    by (by apply cell_at_middle).
  assert (E2 : cell_at (X ++ (d :: l) ++ (c :: k) ++ Y) (len X + len (d :: l)) = Run c).
  { rewrite app_assoc. cbn [app]. apply cell_at_middle. rewrite length_app. lia. }
  unfold clear_broken, advance_start. rewrite E1, run_bind_run, Hd, Hw. cbn [negb andb].
  zif; [|cbn [List.length] in *; lia]. rewrite E2, !run_bind_run. cbv beta iota. by rewrite Hc.
Qed.

End ClearBroken.

(** A row of a buffer under its updates: [st cells] is the buffer with the columns [cells] in the
    row, [rest] being the cells past its length. *)

Section Row.

Context (b : guac_terminal_buffer) (row : Z) (idx : nat).
Context (rest : list guac_terminal_char) (avail : Z) (wr : bool).
Hypothesis (Hrow : guac_terminal_buffer_get_row b row = Some idx).
Hypothesis (Hidx : (idx < List.length (rows b))%nat).
Hypothesis (Hbound : - GUAC_TERMINAL_MAX_ROWS < row < GUAC_TERMINAL_MAX_ROWS).

Definition st_row (cells : list guac_terminal_char) : guac_terminal_buffer_row :=
  mk_row (cells ++ rest) (len cells) avail wr.

Definition st (cells : list guac_terminal_char) (l : Z) : guac_terminal_buffer :=
  mk_buffer (default_character b) (<[idx := st_row cells]> (rows b)) (top b) l (available b).

Lemma row_length_st cells : row_length (st_row cells) = len cells.
Proof. done. Qed.

(** Arithmetic on the lengths of the parts of a row. *)

Ltac lens :=
  repeat progress (rewrite ?row_length_st, ?length_app, ?length_blanks, ?length_written in *;
                   cbn [List.length] in *);
  lia.

(** The length of the buffer may grow to the row. *)

Definition touched (l l' : Z) : Prop := l' = l ∨ (l ≤ u32 row ∧ l' = u32 (row + 1)).

Lemma touched_refl l : touched l l.
Proof. by left. Qed.

Lemma touched_trans l1 l2 l3 : touched l1 l2 → touched l2 l3 → touched l1 l3.
Proof. unfold touched. intuition (subst; auto). Qed.

Lemma st_get_row cells l : guac_terminal_buffer_get_row (st cells l) row = Some idx.
Proof. exact Hrow. Qed.

Lemma st_rows cells l : rows (st cells l) !! idx = Some (st_row cells).
Proof. cbn. by apply list_lookup_insert_eq. Qed.

Lemma set_row_st cells cells' l : set_row idx (st_row cells') (st cells l) = st cells' l.
Proof. unfold set_row, st. cbn. by rewrite list_insert_insert_eq. Qed.

(** Nothing happens at an edge between whole characters. *)

Lemma force_break_left_ok f A Y l e :
  ends_ok A → e = len A → force_break_left f (st (A ++ Y) l) row idx e = Run (st (A ++ Y) l).
Proof.
  intros HA ->. unfold force_break_left. zif; [|done].
  rewrite st_rows. cbn [deref]. rewrite run_bind_run.
  destruct HA as [->|(X & g & -> & Hg)]; [cbn in *; lia|].
  pose proof Hg as (c & k & -> & Hc & Hk & Hw). cbn [st_row characters].
  replace (Z.to_nat (len (X ++ c :: k) - 1)) with (List.length X + List.length k)%nat
    by (rewrite length_app; cbn; lia).
  rewrite <-!app_assoc, find_start_middle by auto. rewrite run_bind_run.
  apply clear_broken_whole; [done|]. rewrite length_app. lia.
Qed.

(** The character right of an edge reaches over the continuations [k] that follow its cell. *)

Lemma force_break_right_run f A c k D l :
  conts k → head_ok D →
  force_break_right f (st (A ++ (c :: k) ++ D) l) row idx (len A)
  = clear_broken f (st (A ++ (c :: k) ++ D) l) row (A ++ (c :: k) ++ (D ++ rest)) (len A)
      (len A + len (c :: k) - 1).
Proof.
  intros Hk HD. unfold force_break_right. rewrite st_rows. cbn [deref].
  rewrite run_bind_run, row_length_st.
  rewrite (proj2 (Z.leb_le 0 _)), (proj2 (Z.ltb_lt _ _)) by lens. cbn [andb st_row characters].
  replace ((A ++ (c :: k) ++ D) ++ rest) with ((A ++ [c]) ++ k ++ D ++ rest)
    by (by rewrite <-!app_assoc).
  rewrite (find_end_conts k (A ++ [c]) D rest); [|done|done|lens|lens].
  rewrite run_bind_run. rewrite <-app_assoc. f_equal. lens.
Qed.

Lemma force_break_right_ok f A Y l e :
  starts_ok Y → e = len A → force_break_right f (st (A ++ Y) l) row idx e = Run (st (A ++ Y) l).
Proof.
  intros HY ->. destruct HY as [->|(g & D & -> & Hg & HD)].
  - unfold force_break_right. rewrite st_rows. cbn [deref]. rewrite run_bind_run, row_length_st.
    rewrite (proj2 (Z.ltb_ge _ _)) by lens. by rewrite andb_false_r.
  - pose proof Hg as (c & k & -> & Hc & Hk & Hw). rewrite force_break_right_run by done.
    by apply clear_broken_whole.
Qed.

Lemma force_break_ok f A Y l e :
  ends_ok A → starts_ok Y → e = len A → force_break f (st (A ++ Y) l) row e = Run (st (A ++ Y) l).
Proof.
  intros HA HY He. unfold force_break. rewrite st_get_row.
  rewrite (force_break_left_ok f A Y l e HA He), run_bind_run. by apply force_break_right_ok.
Qed.

(** Setting columns writes them, then forces a break at both ends. *)

Lemma set_columns_st d X Y V l ch :
  1 ≤ width ch → len (X ++ Y ++ V) ≤ GUAC_TERMINAL_MAX_COLUMNS →
  len X < GUAC_TERMINAL_MAX_COLUMNS → X ++ Y ≠ [] →
  ∃ l', touched l l' ∧
    set_columns_at (S d) (st (X ++ Y ++ V) l) row (len X) (len X + len Y - 1) ch
    = (buffer ← force_break (set_columns_at d) (st (X ++ written ch (List.length Y) 0 ++ V) l')
                  row (len X);
       force_break (set_columns_at d) buffer row (len X + len Y)).
Proof.
  unfold GUAC_TERMINAL_MAX_COLUMNS, GUAC_TERMINAL_MAX_ROWS in *. intros Hw Hlen HX HXY.
  assert (Hpos : 1 ≤ len X + len Y).
  { destruct X, Y; cbn in *; try done; lia. }
  rewrite !length_app in Hlen. cbn [set_columns_at].
  rewrite (proj2 (Z.leb_gt _ _)) by lia. cbn [orb].
  unfold GUAC_TERMINAL_MAX_ROWS. repeat (zif; [lia|]). rewrite st_get_row, st_rows.
  cbn [deref]. rewrite run_bind_run.
  rewrite !fit_to_range_id by (unfold GUAC_TERMINAL_MAX_COLUMNS; lia). rewrite !run_bind_run.
  unfold guac_terminal_buffer_row_expand at 1. cbn [st_row row_length].
  rewrite !length_app. rewrite (proj2 (Z.leb_le _ _)), run_bind_run.
  2: { unfold u32. rewrite Z.mod_small; lia. }
  change (row_length (st_row (X ++ Y ++ V))) with (len (X ++ Y ++ V)).
  rewrite !length_app. rewrite assert_leb, run_bind_run by lia.
  change (characters (st_row (X ++ Y ++ V))) with ((X ++ Y ++ V) ++ rest).
  unfold for_range.
  replace (Z.to_nat (len X + len Y - 1 - len X + 1)) with (List.length Y) by lia.
  rewrite <-!app_assoc.
  destruct (set_columns_loop ch (List.length Y) X Y (V ++ rest) 0 eq_refl Hw) as (r' & E).
  change (Z.of_nat 0) with 0 in E. rewrite E, run_bind_run. cbn [fst].
  set (l' := if negb (value ch =? 0) && (l <=? u32 row) then u32 (row + 1) else l).
  exists l'. split.
  { unfold l', touched. destruct (negb _); cbn; [zif|]; auto. }
  assert (Es : set_row idx
      (set_characters (X ++ written ch (List.length Y) 0 ++ V ++ rest) (st_row (X ++ Y ++ V)))
      (st (X ++ Y ++ V) l)
    = st (X ++ written ch (List.length Y) 0 ++ V) l).
  { rewrite <-(set_row_st (X ++ Y ++ V) (X ++ written ch (List.length Y) 0 ++ V)).
    unfold set_characters, st_row. cbn [row_length row_available wrapped_row].
    by rewrite !length_app, length_written, <-!app_assoc. }
  rewrite Es. unfold l'. cbn [length st].
  replace (len X + len Y - 1 + 1) with (len X + len Y) by lia.
  destruct (_ && _); done.
Qed.

(** What a break at their left edge makes of the columns [Y], in [n] nested calls at most. *)

Inductive right_fix : nat → list guac_terminal_char → list guac_terminal_char → Prop :=
| right_fix_ok n Y : starts_ok Y → right_fix n Y Y
| right_fix_conts n C D D' :
    conts C → C ≠ [] → head_ok D → right_fix n D D' →
    right_fix (S n) (C ++ D) (blanks C ++ D')
| right_fix_glyph n g C D D' :
    is_glyph g → conts C → C ≠ [] → head_ok D → right_fix n D D' →
    right_fix (S n) (g ++ C ++ D) (g ++ blanks C ++ D')
| right_fix_cut n P D D' :
    is_cut P → head_ok D → right_fix n D D' →
    right_fix (S n) (P ++ D) (blanks P ++ D').

Lemma cut_not_nil P : is_cut P → P ≠ [].
Proof. by intros (c & k & -> & _). Qed.

Lemma right_fix_starts_ok n Y Y' : right_fix n Y Y' → starts_ok Y'.
Proof.
  induction 1 as [n Y HY|n C D D' HC HC0 HD _ IH|n g C D D' Hg HC HC0 HD _ IH|n P D D' HP HD _ IH];
    auto using cut_not_nil with guac.
  right. exists g, (blanks C ++ D'). split; [done|]. split; [done|]. auto with guac.
Qed.

Lemma right_fix_length n Y Y' : right_fix n Y Y' → List.length Y' = List.length Y.
Proof. induction 1; rewrite ?length_app, ?length_blanks; congruence. Qed.

Lemma right_fix_blanks n P Y Y' :
  P ≠ [] → right_fix n Y Y' →
  ∃ Y1, right_fix n (blanks P ++ Y) (blanks P ++ Y1) ∧ right_fix n Y1 Y'.
Proof.
  intros HP HY.
  assert (Hh : head_ok Y →
    ∃ Y1, right_fix n (blanks P ++ Y) (blanks P ++ Y1) ∧ right_fix n Y1 Y').
  { intros Hh. exists Y. split; [|done]. apply right_fix_ok. auto with guac. }
  destruct HY as [n Y HY|n C D D' HC HC0 HD H|n g C D D' Hg HC HC0 HD H|n P1 D D' HP1 HD H];
    [auto with guac| |auto with guac|].
  - destruct P as [|p [|p' P]]; [done| |].
    + exists (blanks C ++ D'). split.
      * apply right_fix_glyph; [exact (glyph_cleared p)|done..].
      * apply right_fix_ok. apply right_fix_starts_ok in H. auto with guac.
    + exists (C ++ D). split; [|by apply right_fix_conts]. apply right_fix_ok. right.
      eexists [cleared_char p], _. split; [done|]. split; [apply glyph_cleared|done].
  - apply Hh. by destruct HP1 as (c & k & -> & Hc & _).
Qed.

(** Blanking columns that a break found broken. *)

Lemma clear_st n d A c k D D' l :
  (n ≤ d)%nat →
  (∀ l, ∃ l', touched l l' ∧
     force_break (set_columns_at d) (st ((A ++ blanks (c :: k)) ++ D) l) row
       (len A + len (c :: k)) = Run (st ((A ++ blanks (c :: k)) ++ D') l')) →
  ends_ok A → head_ok D → len (A ++ (c :: k) ++ D) ≤ GUAC_TERMINAL_MAX_COLUMNS →
  ∃ l', touched l l' ∧
    set_columns_at (S d) (st (A ++ (c :: k) ++ D) l) row (len A) (len A + len (c :: k) - 1)
      (cleared_char c) = Run (st (A ++ blanks (c :: k) ++ D') l').
Proof.
  intros Hd HF HA HD Hlen.
  destruct (set_columns_st d A (c :: k) D l (cleared_char c)) as (l1 & Hl1 & ->);
    [done|done|lens|by destruct A|]. rewrite written_cleared.
  rewrite force_break_ok; [|done|apply starts_ok_blanks; auto with guac|done].
  rewrite run_bind_run, app_assoc. destruct (HF l1) as (l2 & Hl2 & ->).
  exists l2. rewrite app_assoc. by eauto using touched_trans.
Qed.

Lemma force_break_fix n Y Y' :
  right_fix n Y Y' → ∀ d A l e, (n ≤ d)%nat →
  ends_ok A → len (A ++ Y) ≤ GUAC_TERMINAL_MAX_COLUMNS → e = len A →
  ∃ l', touched l l' ∧
    force_break_right (set_columns_at d) (st (A ++ Y) l) row idx e = Run (st (A ++ Y') l') ∧
    force_break (set_columns_at d) (st (A ++ Y) l) row e = Run (st (A ++ Y') l').
Proof.
  assert (Hfb : ∀ d A Y Y' l l', ends_ok A →
    force_break_right (set_columns_at d) (st (A ++ Y) l) row idx (len A) = Run (st (A ++ Y') l') →
    force_break (set_columns_at d) (st (A ++ Y) l) row (len A) = Run (st (A ++ Y') l')).
  { intros d A Z Z' l l' HA E. unfold force_break. rewrite st_get_row.
    by rewrite (force_break_left_ok _ A Z l _ HA eq_refl), run_bind_run. }
  induction 1 as [n Y HY|n C D D' HC HC0 HD H IH|n g C D D' Hg HC HC0 HD H IH|n P D D' HP HD H IH];
    intros d A l e Hd HA Hlen ->.
  - exists l. split; [apply touched_refl|]. rewrite force_break_right_ok by done.
    split; [done|]. by apply force_break_ok.
  - destruct C as [|c k]; [done|]. destruct d as [|d]; [lia|].
    destruct (clear_st n d A c k D D' l) as (l' & Hl & E); [lia| |done|done|done|].
    { intros l0. destruct (IH d (A ++ blanks (c :: k)) l0 (len A + len (c :: k)))
        as (l' & Hl & _ & E); [lia|auto with guac|lens|lens|eauto]. }
    exists l'. apply Forall_cons_iff in HC as [Hc Hk].
    assert (ER : force_break_right (set_columns_at (S d)) (st (A ++ (c :: k) ++ D) l) row idx (len A)
      = Run (st (A ++ blanks (c :: k) ++ D') l')).
    { rewrite force_break_right_run by done. rewrite <-E. by apply clear_broken_conts. }
    eauto.
  - destruct C as [|c k]; [done|]. destruct d as [|d]; [lia|].
    destruct (clear_st n d (A ++ g) c k D D' l) as (l' & Hl & E);
      [lia| |by apply ends_ok_app|done|by rewrite <-app_assoc|].
    { intros l0. destruct (IH d ((A ++ g) ++ blanks (c :: k)) l0 (len (A ++ g) + len (c :: k)))
        as (l' & Hl & _ & E); [lia|auto with guac|lens|lens|eauto]. }
    exists l'. rewrite <-!app_assoc in E. apply Forall_cons_iff in HC as [Hc Hk].
    pose proof Hg as (c0 & k0 & -> & Hc0 & Hk0 & Hw0).
    assert (ER : force_break_right (set_columns_at (S d)) (st (A ++ (c0 :: k0) ++ (c :: k) ++ D) l)
        row idx (len A) = Run (st (A ++ (c0 :: k0) ++ blanks (c :: k) ++ D') l')).
    { replace (A ++ (c0 :: k0) ++ (c :: k) ++ D) with (A ++ (c0 :: k0 ++ (c :: k)) ++ D) in *
        by (cbn [app]; by rewrite <-!app_assoc).
      rewrite force_break_right_run; [|apply Forall_app; split; [done|by constructor]|done].
      replace (A ++ (c0 :: k0 ++ c :: k) ++ D ++ rest)
        with (A ++ (c0 :: k0) ++ (c :: k) ++ (D ++ rest)) by (cbn [app]; by rewrite <-!app_assoc).
      rewrite (clear_broken_past _ _ _ A (c0 :: k0) c k); [|done|done|lens].
      rewrite <-E. f_equal; lens. }
    eauto.
  - destruct HP as (c & k & -> & Hc & Hk & Hw). destruct d as [|d]; [lia|].
    destruct (clear_st n d A c k D D' l) as (l' & Hl & E); [lia| |done|done|done|].
    { intros l0. destruct (IH d (A ++ blanks (c :: k)) l0 (len A + len (c :: k)))
        as (l' & Hl & _ & E); [lia|auto with guac|lens|lens|eauto]. }
    exists l'.
    assert (ER : force_break_right (set_columns_at (S d)) (st (A ++ (c :: k) ++ D) l) row idx (len A)
      = Run (st (A ++ blanks (c :: k) ++ D') l')).
    { rewrite force_break_right_run by done. rewrite <-E.
      apply clear_broken_cut; [by exists c, k|done]. }
    eauto.
Qed.

(** A character cut at the edge is blanked, and what the break makes of the right side stands. *)

Lemma force_break_cut n d A P Y Y' l e :
  (n ≤ d)%nat → ends_ok A → P = [] ∨ is_cut P → right_fix n Y Y' →
  len (A ++ P ++ Y) ≤ GUAC_TERMINAL_MAX_COLUMNS → e = len A + len P →
  ∃ l', touched l l' ∧
    force_break (set_columns_at (S d)) (st (A ++ P ++ Y) l) row e
    = Run (st (A ++ blanks P ++ Y') l').
Proof.
  intros Hd HA HP HY Hlen ->. destruct HP as [->|HP].
  { destruct (force_break_fix n Y Y' HY (S d) A l (len A + len (@nil guac_terminal_char)))
      as (l' & Hl & _ & E); [lia|done|done|lens|eauto]. }
  pose proof HP as (c & k & -> & Hc & Hk & Hw).
  destruct (right_fix_blanks n (c :: k) Y Y' ltac:(done) HY) as (Y1 & H1 & H2).
  pose proof (right_fix_length _ _ _ H1) as L1. rewrite !length_app in L1.
  destruct (set_columns_st d A (c :: k) Y l (cleared_char c)) as (l1 & Hl1 & E);
    [done|done|lens|by destruct A|]. rewrite written_cleared in E.
  destruct (force_break_fix n _ _ H1 d A l1 (len A) Hd HA) as (l2 & Hl2 & _ & E2); [lens|done|].
  destruct (force_break_fix n _ _ H2 d (A ++ blanks (c :: k)) l2 (len A + len (c :: k)))
    as (l3 & Hl3 & _ & E3); [done|auto with guac|lens|lens|].
  rewrite <-!app_assoc in E3. rewrite E2, run_bind_run, E3 in E.
  exists l3. split; [by eauto using touched_trans|].
  unfold force_break. rewrite st_get_row. unfold force_break_left. zif; [|lens].
  rewrite st_rows. cbn [deref]. rewrite run_bind_run. cbn [st_row characters].
  replace (Z.to_nat (len A + len (c :: k) - 1)) with (List.length A + List.length k)%nat by lens.
  rewrite <-!app_assoc, find_start_middle by auto. rewrite run_bind_run.
  rewrite clear_broken_cut by done. rewrite E, run_bind_run, app_assoc.
  apply force_break_right_ok; [by eapply right_fix_starts_ok|lens].
Qed.

(** Whole glyphs [W] written over columns that cut [P] on the left and [C] on the right. *)

Lemma set_columns_cut d A P M C B l ch :
  glyphs A → P = [] ∨ is_cut P → conts C → glyphs B →
  1 ≤ width ch → glyphs (written ch (List.length M) 0) →
  len (A ++ P ++ M ++ C ++ B) ≤ GUAC_TERMINAL_MAX_COLUMNS →
  len A + len P < GUAC_TERMINAL_MAX_COLUMNS → A ++ P ++ M ≠ [] →
  ∃ l', touched l l' ∧
    set_columns_at (S (S (S d))) (st (A ++ P ++ M ++ C ++ B) l) row (len A + len P)
      (len A + len P + len M - 1) ch
    = Run (st (A ++ blanks P ++ written ch (List.length M) 0 ++ blanks C ++ B) l').
Proof.
  intros HA HP HC HB Hw HW Hlen Hlt Hne. set (W := written ch (List.length M) 0) in *.
  assert (LW : List.length W = List.length M) by apply length_written.
  destruct (set_columns_st (S (S d)) (A ++ P) M (C ++ B) l ch) as (l1 & Hl1 & E);
    [done|lens|lens|by rewrite <-app_assoc|]. fold W in E.
  rewrite <-!app_assoc, !length_app, !Nat2Z.inj_add in E. rewrite E. clear E.
  assert (H : ∃ C1, right_fix 1 (W ++ C ++ B) (W ++ C1 ++ B)
                    ∧ right_fix 1 (C1 ++ B) (blanks C ++ B)).
  { destruct C as [|c k].
    { exists []. cbn [app blanks]. split; apply right_fix_ok; auto using glyphs_app_2 with guac. }
    assert (Hr : right_fix 0 B B) by (apply right_fix_ok; auto with guac).
    assert (Hc : right_fix 1 ((c :: k) ++ B) (blanks (c :: k) ++ B))
      by (apply right_fix_conts; auto with guac).
    pose proof (right_fix_starts_ok _ _ _ Hc) as Hs.
    inversion HW as [EW|g W' Hg HW' EW].
    { exists (blanks (c :: k)). split; [done|]. by apply right_fix_ok. }
    destruct HW' as [|g' W' Hg' HW'].
    - exists (blanks (c :: k)). rewrite app_nil_r. split; [|by apply right_fix_ok].
      apply right_fix_glyph; auto with guac.
    - exists (c :: k). split; [|done]. apply right_fix_ok. right.
      exists g, ((g' ++ W') ++ (c :: k) ++ B). rewrite <-!app_assoc. auto with guac. }
  destruct H as (C1 & H1 & H2).
  pose proof (right_fix_length _ _ _ H1) as L1. rewrite !length_app in L1.
  destruct (force_break_cut 1 (S d) A P _ _ l1 (len A + len P) ltac:(lia)
    (glyphs_ends_ok _ HA) HP H1) as (l2 & Hl2 & E2); [lens|done|].
  rewrite E2, run_bind_run. clear E2.
  destruct (force_break_fix 1 _ _ H2 (S (S d)) (A ++ blanks P ++ W) l2 (len A + len P + len M)
    ltac:(lia) ltac:(auto using glyphs_app_2 with guac)) as (l3 & Hl3 & _ & E3); [lens|lens|].
  rewrite <-!app_assoc in E3. exists l3. split; [|done]. by eauto using touched_trans.
Qed.

(** Columns moved over others: equal but for the attributes of blanks. *)

Lemma right_fix_mono n m Y Y' : right_fix n Y Y' → (n ≤ m)%nat → right_fix m Y Y'.
Proof.
  intros H. revert m.
  induction H; intros [|m] Hm; try lia; constructor; auto; apply IHright_fix; lia.
Qed.

Lemma right_fix_lead n C D D' :
  conts C → head_ok D → right_fix n D D' → right_fix (S n) (C ++ D) (blanks C ++ D').
Proof.
  intros HC HD H. destruct C as [|c k]; [by apply (right_fix_mono n); auto|].
  by apply right_fix_conts.
Qed.

(** What the break at the left edge leaves for the break at the right edge: the columns up to
    that edge end in [P2], and [Y2] follows. *)

Definition moved_fix (Y : list guac_terminal_char) (m : nat) (S : list guac_terminal_char) : Prop :=
  ∃ A2 P2 Y2 Y2', right_fix 2 Y (A2 ++ P2 ++ Y2) ∧ List.length (A2 ++ P2) = m ∧
    glyphs A2 ∧ (P2 = [] ∨ is_cut P2) ∧ right_fix 2 Y2 Y2' ∧ glyphs Y2' ∧
    Forall2 blank_sim S (A2 ++ blanks P2 ++ Y2').

Lemma moved_fix_whole g G T C B :
  is_glyph g → glyphs G → T = [] ∨ is_cut T → conts C → glyphs B →
  moved_fix ((g ++ G) ++ T ++ C ++ B) (List.length ((g ++ G) ++ T))
    ((g ++ G) ++ blanks T ++ blanks C ++ B).
Proof.
  intros Hg HG HT HC HB.
  assert (HgG : glyphs (g ++ G)) by (by constructor).
  assert (HBB : right_fix 1 B B) by (apply right_fix_ok; auto with guac).
  assert (Hd : head_ok (G ++ T ++ C ++ B) ∨ G = [] ∧ T = [] ∧ C ≠ []).
  { destruct HG as [|g' G' Hg' HG']; [|left; rewrite <-!app_assoc; auto with guac].
    destruct HT as [->|(t & u & -> & Ht & _)]; [|by left].
    destruct C; [left; cbn; auto with guac|by right]. }
  destruct Hd as [Hd|(-> & -> & HC0)].
  - exists (g ++ G), T, (C ++ B), (blanks C ++ B). split_and!; auto.
    + apply right_fix_ok. right. exists g, (G ++ T ++ C ++ B). by rewrite <-!app_assoc.
    + apply right_fix_lead; auto with guac.
    + apply glyphs_app_2; auto with guac.
    + apply blank_sim_refl.
  - exists (g ++ []), [], (blanks C ++ B), (blanks C ++ B).
    cbn [app blanks] in *. rewrite app_nil_r in *. split_and!; auto.
    + by apply right_fix_glyph; auto with guac.
    + apply right_fix_ok. auto with guac.
    + apply glyphs_app_2; auto with guac.
    + apply blank_sim_refl.
Qed.

Lemma moved_fix_cut T C B :
  is_cut T → conts C → glyphs B →
  moved_fix (T ++ C ++ B) (List.length T) (blanks T ++ blanks C ++ B).
Proof.
  intros HT HC HB. pose proof HT as (c & k & -> & Hc & Hk & Hw).
  assert (HBB : right_fix 1 B B) by (apply right_fix_ok; auto with guac).
  destruct (Z.lt_total (width c) (len (c :: k) + len C)) as [Hlt|[Heq|Hgt]].
  - pose (n := Z.to_nat (width c - len (c :: k))).
    assert (Hn : (List.length (take n C) = n)%nat) by (rewrite length_take; lia).
    assert (Hd : drop n C ≠ []).
    { intros E. apply (f_equal List.length) in E. rewrite length_drop in E. cbn in *. lia. }
    assert (Hg : is_glyph ((c :: k) ++ take n C)).
    { exists c, (k ++ take n C). split_and!; [done|done| |].
      - apply Forall_app; split; [done|by apply conts_take].
      - rewrite length_app, Hn. lia. }
    exists [], (c :: k), (take n C ++ (blanks (drop n C) ++ B)),
      (blanks (take n C) ++ (blanks (drop n C) ++ B)). split_and!; auto using glyphs_nil.
    + rewrite <-(take_drop n C) at 1. cbn [app].
      rewrite <-!app_assoc, app_comm_cons, app_assoc, app_comm_cons, (app_assoc (c :: k)).
      apply right_fix_glyph; auto using conts_drop with guac.
    + apply right_fix_lead; [by apply conts_take|by apply glyphs_head_ok, glyphs_app_2; auto with guac|].
      apply right_fix_ok. auto with guac.
    + repeat apply glyphs_app_2; auto with guac.
    + cbn [app]. apply Forall2_app; [apply blank_sim_refl|]. rewrite app_assoc.
      apply Forall2_app; [|apply blank_sim_refl]. apply blank_sim_blanks;
        auto using all_blank_blanks, all_blank_app.
      rewrite length_app, !length_blanks, <-length_app. by rewrite take_drop.
  - exists [], (c :: k), (C ++ B), (blanks C ++ B). split_and!; auto using glyphs_nil.
    + apply right_fix_ok. right. exists ((c :: k) ++ C), B. split_and!; [by rewrite <-app_assoc| |auto with guac].
      exists c, (k ++ C). split_and!; [done|done|by apply Forall_app|].
      rewrite length_app. lia.
    + apply right_fix_lead; auto with guac.
    + apply glyphs_app_2; auto with guac.
    + apply blank_sim_refl.
  - exists (blanks (c :: k)), [], (replicate (List.length C) (cleared_char c) ++ B),
      (replicate (List.length C) (cleared_char c) ++ B).
    assert (E : blanks ((c :: k) ++ C) = blanks (c :: k) ++ replicate (List.length C) (cleared_char c)).
    { cbn [blanks app]. rewrite <-replicate_add, <-length_app. done. }
    assert (Hgl : glyphs (replicate (List.length C) (cleared_char c) ++ B)).
    { apply glyphs_app_2; [|done]. apply glyphs_replicate, glyph_cleared. }
    split_and!; auto with guac.
    + rewrite app_nil_l, (app_assoc (blanks _)), <-E, (app_assoc (c :: k)).
      apply (right_fix_cut 1 ((c :: k) ++ C)); auto with guac.
      exists c, (k ++ C). split_and!; [done|done|by apply Forall_app|]. rewrite length_app. lia.
    + by rewrite app_nil_r, length_blanks.
    + apply right_fix_ok. auto with guac.
    + apply Forall2_app; [apply blank_sim_refl|].
      change (blanks []) with (@nil guac_terminal_char). rewrite app_nil_l. apply Forall2_app; [|apply blank_sim_refl].
      apply blank_sim_blanks; auto using all_blank_blanks, all_blank_replicate.
      by rewrite length_blanks, length_replicate.
Qed.

(** The columns moved, [C1 ++ G ++ T], with those they are moved before. *)

Lemma moved_fix_all C1 G T C B :
  conts C1 → glyphs G → T = [] ∨ is_cut T → conts C → glyphs B → C1 ++ G ++ T ≠ [] →
  ∃ n A2 P2 Y2 Y2', (n ≤ 3)%nat ∧
    right_fix n (C1 ++ G ++ T ++ C ++ B) (A2 ++ P2 ++ Y2) ∧
    List.length (A2 ++ P2) = List.length (C1 ++ G ++ T) ∧
    glyphs A2 ∧ (P2 = [] ∨ is_cut P2) ∧ right_fix n Y2 Y2' ∧ glyphs Y2' ∧
    Forall2 blank_sim (blanks C1 ++ G ++ blanks T ++ blanks C ++ B) (A2 ++ blanks P2 ++ Y2').
Proof.
  intros HC1 HG HT HC HB Hne.
  assert (Hlift : ∀ D S, head_ok D → moved_fix D (List.length (G ++ T)) S →
    D = G ++ T ++ C ++ B → S = G ++ blanks T ++ blanks C ++ B →
    ∃ n A2 P2 Y2 Y2', (n ≤ 3)%nat ∧
      right_fix n (C1 ++ G ++ T ++ C ++ B) (A2 ++ P2 ++ Y2) ∧
      List.length (A2 ++ P2) = List.length (C1 ++ G ++ T) ∧
      glyphs A2 ∧ (P2 = [] ∨ is_cut P2) ∧ right_fix n Y2 Y2' ∧ glyphs Y2' ∧
      Forall2 blank_sim (blanks C1 ++ G ++ blanks T ++ blanks C ++ B) (A2 ++ blanks P2 ++ Y2')).
  { intros D S HD (A2 & P2 & Y2 & Y2' & H1 & H2 & H3 & H4 & H5 & H6 & H7) -> ->.
    exists 3%nat, (blanks C1 ++ A2), P2, Y2, Y2'. split_and!; auto.
    - rewrite <-app_assoc. by apply right_fix_lead.
    - rewrite <-app_assoc, !length_app, length_blanks. rewrite !length_app in H2. lia.
    - apply glyphs_app_2; auto with guac.
    - by apply (right_fix_mono 2); auto.
    - rewrite <-app_assoc. apply Forall2_app; [apply blank_sim_refl|done]. }
  destruct HG as [|g G Hg HG].
  - destruct HT as [->|HT].
    + assert (HBB : right_fix 2 B B) by (apply right_fix_ok; auto with guac).
      destruct C1 as [|c k]; [done|].
      exists 3%nat, (blanks (c :: k)), [], (replicate (List.length C) (cleared_char c) ++ B),
        (replicate (List.length C) (cleared_char c) ++ B).
      assert (E : blanks ((c :: k) ++ C)
                = blanks (c :: k) ++ replicate (List.length C) (cleared_char c)).
      { cbn [blanks app]. rewrite <-replicate_add, <-length_app. done. }
      assert (Hgl : glyphs (replicate (List.length C) (cleared_char c) ++ B)).
      { apply glyphs_app_2; [|done]. apply glyphs_replicate, glyph_cleared. }
      rewrite ?app_nil_l. change (blanks []) with (@nil guac_terminal_char).
      rewrite ?app_nil_l, ?app_nil_r.
      split_and!; auto with guac.
      * rewrite (app_assoc (c :: k)), (app_assoc (blanks _)), <-E.
        apply (right_fix_conts 2 ((c :: k) ++ C)); auto with guac. by apply Forall_app.
      * apply length_blanks.
      * apply right_fix_ok. auto with guac.
      * apply Forall2_app; [apply blank_sim_refl|]. apply Forall2_app; [|apply blank_sim_refl].
        apply blank_sim_blanks; auto using all_blank_blanks, all_blank_replicate.
        by rewrite length_blanks, length_replicate.
    + eapply Hlift; [|by apply moved_fix_cut|done|done].
      destruct HT as (c & k & -> & Hc & _). done.
  - eapply Hlift; [|by apply moved_fix_whole|done|done].
    rewrite <-!app_assoc. by apply glyph_head_ok.
Qed.

(** The breaks at both ends of columns moved over others. *)

Lemma move_cut d A P C1 G T C B l :
  (4 ≤ d)%nat → glyphs A → P = [] ∨ is_cut P → conts C1 → glyphs G → T = [] ∨ is_cut T →
  conts C → glyphs B → C1 ++ G ++ T ≠ [] →
  len (A ++ P ++ C1 ++ G ++ T ++ C ++ B) ≤ GUAC_TERMINAL_MAX_COLUMNS →
  ∃ l' cells, touched l l' ∧ glyphs cells ∧
    Forall2 blank_sim (A ++ blanks P ++ blanks C1 ++ G ++ blanks T ++ blanks C ++ B) cells ∧
    (buffer ← force_break (set_columns_at d) (st (A ++ P ++ C1 ++ G ++ T ++ C ++ B) l) row
                (len A + len P);
     force_break (set_columns_at d) buffer row (len A + len P + len (C1 ++ G ++ T)))
    = Run (st cells l').
Proof.
  intros Hd HA HP HC1 HG HT HC HB Hne Hlen. destruct d as [|d]; [lia|].
  destruct (moved_fix_all C1 G T C B HC1 HG HT HC HB Hne)
    as (n & A2 & P2 & Y2 & Y2' & Hn & H1 & HL & HA2 & HP2 & H2 & HY2 & Hsim).
  pose proof (right_fix_length _ _ _ H1) as L1.
  destruct (force_break_cut n d A P _ _ l (len A + len P) ltac:(lia) (glyphs_ends_ok _ HA) HP H1)
    as (l1 & Hl1 & E1); [done|done|]. rewrite E1, run_bind_run.
  assert (HAA : glyphs (A ++ blanks P ++ A2)) by (repeat apply glyphs_app_2; auto with guac).
  destruct (force_break_cut n d (A ++ blanks P ++ A2) P2 Y2 Y2' l1
    (len A + len P + len (C1 ++ G ++ T)) ltac:(lia) (glyphs_ends_ok _ HAA) HP2 H2)
    as (l2 & Hl2 & E2); [lens|lens|].
  rewrite <-!app_assoc in E2. exists l2, (A ++ blanks P ++ A2 ++ blanks P2 ++ Y2').
  split_and!.
  - by eauto using touched_trans.
  - repeat apply glyphs_app_2; auto with guac.
  - apply Forall2_app; [apply blank_sim_refl|].
    apply Forall2_app; [apply blank_sim_refl|done].
  - exact E2.
Qed.

End Row.

(** ** The specification of setting columns *)

(** The continuations a row begins with, and what follows them. *)

Fixpoint leading (l : list guac_terminal_char)
    : list guac_terminal_char * list guac_terminal_char :=
  match l with
  | c :: l' => if is_continuation c then (c :: fst (leading l'), snd (leading l')) else ([], l)
  | [] => ([], [])
  end.

Definition trim_left (l : list guac_terminal_char) : list guac_terminal_char :=
  blanks (fst (leading l)) ++ snd (leading l).

(** The columns with the last character blanked when some of it is missing. *)

Fixpoint trim_right (l : list guac_terminal_char) : list guac_terminal_char :=
  match l with
  | [] => []
  | c :: k =>
      if forallb is_continuation k
      then if negb (is_continuation c) && (width c =? len l) then l else blanks l
      else c :: trim_right k
  end.

Definition overwrite (ch : guac_terminal_char) (s e : Z) (l : list guac_terminal_char)
    : list guac_terminal_char :=
  trim_right (take (Z.to_nat s) l) ++ written ch (Z.to_nat (e - s + 1)) 0
  ++ trim_left (drop (Z.to_nat (e + 1)) l).

Lemma leading_app C B : conts C → head_ok B → leading (C ++ B) = (C, B).
Proof.
  intros HC HB. induction HC as [|c C Hc HC IH]; cbn.
  - destruct B as [|b B]; [done|]. cbn. by rewrite HB.
  - by rewrite Hc, IH.
Qed.

Lemma forallb_conts k : forallb is_continuation k = true ↔ conts k.
Proof.
  unfold conts. induction k as [|c k IH]; cbn; [done|].
  rewrite Forall_cons_iff, <-IH. apply andb_true_iff.
Qed.

Lemma trim_right_app l c k :
  is_continuation c = false → trim_right (l ++ c :: k) = l ++ trim_right (c :: k).
Proof.
  intros Hc. induction l as [|d l IH]; [done|].
  assert (E : forallb is_continuation (l ++ c :: k) = false).
  { rewrite forallb_app. cbn. by rewrite Hc, andb_false_r. }
  change ((d :: l) ++ c :: k) with (d :: (l ++ c :: k)). cbn [trim_right].
  rewrite E, IH. done.
Qed.

Lemma trim_right_glyphs l : glyphs l → trim_right l = l.
Proof.
  intros Hl. destruct (glyphs_ends_ok _ Hl) as [->|(l' & g & -> & c & k & -> & Hc & Hk & Hw)];
    [done|].
  rewrite trim_right_app by done. cbn [trim_right].
  rewrite (proj2 (forallb_conts k) Hk), Hc, Hw, Z.eqb_refl. done.
Qed.

Lemma trim_right_cut A P : glyphs A → P = [] ∨ is_cut P → trim_right (A ++ P) = A ++ blanks P.
Proof.
  intros HA [->|(c & k & -> & Hc & Hk & Hw)].
  - cbn [blanks]. by rewrite app_nil_r, trim_right_glyphs.
  - rewrite trim_right_app by done. cbn [trim_right].
    rewrite (proj2 (forallb_conts k) Hk), Hc, (proj2 (Z.eqb_neq _ _)) by lia. done.
Qed.

(** A column divides a row into whole characters but the one it cuts. *)

Lemma glyphs_split l : glyphs l → ∀ n, (n ≤ List.length l)%nat →
  ∃ A P C B, take n l = A ++ P ∧ drop n l = C ++ B ∧ glyphs A ∧ glyphs B ∧ conts C ∧
    (P = [] ∨ is_cut P) ∧ (P = [] → C = []).
Proof.
  induction 1 as [|g l Hg Hl IH]; intros n Hn.
  - exists [], [], [], []. rewrite take_nil, drop_nil.
    split_and!; auto using glyphs_nil; constructor.
  - rewrite length_app in Hn. destruct (decide (n < List.length g)%nat) as [Hlt|Hge].
    + pose proof Hg as (c & k & -> & Hc & Hk & Hw). destruct n as [|n].
      { exists [], [], [], ((c :: k) ++ l). split_and!; auto using glyphs; constructor. }
      cbn [List.length] in Hlt. exists [], (c :: take n k), (drop n k), l.
      cbn [app take drop]. rewrite take_app_le, drop_app_le by lia.
      split_and!; auto using glyphs_nil, conts_drop; [|done].
      right. exists c, (take n k). repeat split; auto using conts_take.
      cbn [List.length] in *. rewrite length_take. lia.
    + destruct (IH (n - List.length g)%nat ltac:(lia)) as (A & P & C & B & E1 & E2 & HA & H).
      exists (g ++ A), P, C, B. rewrite take_app_ge, drop_app_ge, E1 by lia.
      rewrite app_assoc. split; [done|]. split; [done|]. split; [by constructor|done].
Qed.
