(* ===== verification/TermBufferSpec.v ===== *)
(** * Well-formed buffers (specification of TermBuffer.v)

    The invariant of the terminal's buffer and what each operation does to it:
    setting columns overwrites whole characters, copying columns moves them,
    and every operation, whatever its arguments, leaves a buffer well formed. *)

From S2P Require Import Prelude Mem Run TermTypes TermBuffer TermRowSpec.
Local Open Scope Z_scope.

Local Abbreviation len l := (Z.of_nat (List.length l)).

(** ** Well-formed buffers *)

Definition row_cells (row : guac_terminal_buffer_row) : list guac_terminal_char :=
  take (Z.to_nat (row_length row)) (characters row).

Record row_ok (row : guac_terminal_buffer_row) : Prop := {
  row_ok_length : 0 ≤ row_length row ≤ GUAC_TERMINAL_MAX_COLUMNS;
  row_ok_available : row_available row ∈ [256; 512; 1024];
  row_ok_fits : row_length row ≤ row_available row;
  row_ok_cells : len (characters row) = row_available row
                 ∨ characters row = [] ∧ row_length row = 0;
  row_ok_glyphs : glyphs (row_cells row);
}.

Record buffer_ok (b : guac_terminal_buffer) : Prop := {
  buffer_ok_rows : Forall row_ok (rows b);
  buffer_ok_available : len (rows b) = available b;
  buffer_ok_size : 1 ≤ available b < 2 ^ 31;
  buffer_ok_top : 0 ≤ top b < available b;
  buffer_ok_length : 0 ≤ length b < 2 ^ 32;
  buffer_ok_default : is_glyph [default_character b];
}.

Lemma row_ok_length_cells row : row_ok row → len (row_cells row) = row_length row.
Proof.
  intros [H1 H2 H3 H4 _]. unfold row_cells. rewrite length_take. destruct H4 as [H4|[-> ->]]; [lia|done].
Qed.

(** A fresh buffer is well formed. *)

Lemma alloc_ok n d :
  1 ≤ n < 2 ^ 31 → is_glyph [d] → buffer_ok (guac_terminal_buffer_alloc n d).
Proof.
  intros Hn Hd. unfold guac_terminal_buffer_alloc.
  assert (E : u32 n = n) by (unfold u32; rewrite Z.mod_small; lia).
  split; cbn; rewrite ?E, ?length_replicate; try lia; [|done].
  apply Forall_replicate. unfold GUAC_TERMINAL_BUFFER_ROW_MIN_SIZE.
  split; cbn; [done|apply list_elem_of_here|done|auto|constructor].
Qed.

Lemma get_row_lookup b row idx :
  buffer_ok b → guac_terminal_buffer_get_row b row = Some idx →
  ∃ r, rows b !! idx = Some r ∧ row_ok r.
Proof.
  intros Hb. unfold guac_terminal_buffer_get_row. zif; [done|]. intros [= <-].
  destruct (lookup_lt_is_Some_2 (rows b) (Z.to_nat (u32 (top b + row) `mod` available b)))
    as (r & Hr).
  { pose proof (buffer_ok_size b Hb). pose proof (buffer_ok_available b Hb).
    pose proof (Z.mod_pos_bound (u32 (top b + row)) (available b)). lia. }
  exists r. split; [done|]. by apply (Forall_lookup_1 _ _ _ _ (buffer_ok_rows b Hb) Hr).
Qed.

(** The columns of a row once it has at least [n]. *)

Definition padded (d : guac_terminal_char) (n : Z) (l : list guac_terminal_char)
    : list guac_terminal_char :=
  l ++ replicate (Z.to_nat (n - len l)) d.

Lemma length_padded d n l : len (padded d n l) = Z.max n (len l).
Proof. unfold padded. rewrite length_app, length_replicate. lia. Qed.

Lemma padded_glyphs d n l : is_glyph [d] → glyphs l → glyphs (padded d n l).
Proof. intros Hd Hl. apply glyphs_app_2; [done|]. by apply glyphs_replicate. Qed.

Lemma row_length_up value :
  0 ≤ value ≤ GUAC_TERMINAL_MAX_COLUMNS →
  ∃ n, guac_terminal_buffer_row_length value = Run n ∧ n ∈ [256; 512; 1024] ∧ value ≤ n.
Proof.
  unfold GUAC_TERMINAL_MAX_COLUMNS. intros Hv.
  enough (H : match guac_terminal_buffer_row_length value with
              | Run n => ((n =? 256) || (n =? 512) || (n =? 1024)) && (value <=? n)
              | _ => false end = true).
  { destruct (guac_terminal_buffer_row_length value) as [n| | |]; try discriminate H.
    exists n. split; [done|]. apply andb_true_iff in H as [H Hn].
    rewrite !orb_true_iff, !Z.eqb_eq in H. split; [|lia].
    rewrite !elem_of_cons. intuition auto. }
  revert value Hv.
  enough (H : ∀ value, 0 ≤ value < 0 + 1025 →
            match guac_terminal_buffer_row_length value with
            | Run n => ((n =? 256) || (n =? 512) || (n =? 1024)) && (value <=? n)
            | _ => false end = true) by (intros; apply H; lia).
  apply range_forall. vm_compute. reflexivity.
Qed.

Lemma row_expand_ok row n d :
  row_ok row → is_glyph [d] → 0 ≤ n ≤ GUAC_TERMINAL_MAX_COLUMNS →
  ∃ row', guac_terminal_buffer_row_expand row n d = Run row' ∧ row_ok row' ∧
    row_cells row' = padded d n (row_cells row) ∧ wrapped_row row' = wrapped_row row.
Proof.
  intros Hr Hd Hn. pose proof (row_ok_length_cells row Hr) as Hc. pose proof Hr as [H1 H2 H3 H4 H5].
  unfold GUAC_TERMINAL_MAX_COLUMNS in *.
  unfold guac_terminal_buffer_row_expand, u32 at 1. rewrite Z.mod_small by lia. zif.
  { exists row. split_and!; try done. unfold padded. rewrite Hc.
    replace (Z.to_nat (n - row_length row)) with O by lia. by rewrite app_nil_r. }
  unfold GUAC_TERMINAL_MAX_COLUMNS. zif; [lia|]. unfold u32. rewrite Z.mod_small by lia.
  assert (E : ∃ a, (if row_available row <? n then guac_terminal_buffer_row_length n
                    else Run (row_available row)) = Run a ∧ a ∈ [256; 512; 1024] ∧ n ≤ a).
  { zif; [by apply row_length_up|eauto]. }
  destruct E as (a & -> & Ha & Hna). rewrite run_bind_run.
  assert (E : take (Z.to_nat n) (take (Z.to_nat (row_length row)) (characters row)
                ++ replicate (Z.to_nat (a - row_length row)) d)
              = padded d n (row_cells row)).
  { unfold padded, row_cells in *. rewrite take_app, length_take, take_take.
    rewrite length_take in Hc. rewrite take_replicate.
    f_equal; [f_equal; lia|f_equal; lia]. }
  eexists. split; [done|]. split; [|by unfold row_cells at 1; cbn]. split; cbn.
  - unfold GUAC_TERMINAL_MAX_COLUMNS; lia.
  - done.
  - done.
  - left. unfold row_cells in Hc. rewrite length_app, length_replicate. lia.
  - unfold row_cells at 1. cbn. rewrite E. by apply padded_glyphs.
Qed.

(** The buffer with the columns of one row replaced. *)

Lemma st_ok b row idx r cells l :
  buffer_ok b → row_ok r → len cells = row_length r →
  glyphs cells → touched row (length b) l →
  buffer_ok (st b idx (drop (Z.to_nat (row_length r)) (characters r)) (row_available r)
               (wrapped_row r) cells l).
Proof.
  intros [B1 B2 B3 B4 B5 B6] [H1 H2 H3 H4 H5] Hl Hg Ht.
  split; cbn; rewrite ?length_insert; try done.
  - apply Forall_insert; [done|]. split; cbn; rewrite ?Hl; try done.
    + rewrite length_app, length_drop. destruct H4 as [H4|[E0 E1]]; [lia|].
      right. rewrite E0, drop_nil, app_nil_r. split; [|done]. destruct cells; [done|cbn in *; lia].
    + unfold row_cells. cbn. rewrite Hl. by rewrite take_app_length' by lia.
  - destruct Ht as [->|[_ ->]]; [done|]. unfold u32. apply Z.mod_pos_bound. lia.
Qed.

(** [b'] is [b] with the cells of the row at [idx] replaced. *)

Record row_replaced (b b' : guac_terminal_buffer) (row : Z) (idx : nat)
    (r : guac_terminal_buffer_row) (cells : list guac_terminal_char) : Prop := {
  replaced_row : ∃ r', rows b' = <[idx := r']> (rows b) ∧ row_cells r' = cells
                       ∧ wrapped_row r' = wrapped_row r;
  replaced_top : top b' = top b;
  replaced_available : available b' = available b;
  replaced_default : default_character b' = default_character b;
  replaced_length : touched row (length b) (length b');
}.

(** Setting columns of a row is setting them in the row expanded to hold them. *)

Lemma set_columns_expand d b row idx r r1 s e ch :
  guac_terminal_buffer_get_row b row = Some idx → rows b !! idx = Some r →
  - GUAC_TERMINAL_MAX_ROWS < row < GUAC_TERMINAL_MAX_ROWS → 1 ≤ width ch →
  0 ≤ e < GUAC_TERMINAL_MAX_COLUMNS →
  guac_terminal_buffer_row_expand r (e + 1) (default_character b) = Run r1 →
  guac_terminal_buffer_row_expand r1 (e + 1) (default_character b) = Run r1 →
  set_columns_at (S d) b row s e ch = set_columns_at (S d) (set_row idx r1 b) row s e ch.
Proof.
  intros Hrow Hr Hbound Hw He E E1. cbn [set_columns_at].
  rewrite (proj2 (Z.leb_gt _ _)) by lia. rewrite (proj2 (Z.leb_gt _ _)) by lia.
  rewrite (proj2 (Z.leb_gt _ _)) by lia. cbn [orb].
  change (guac_terminal_buffer_get_row (set_row idx r1 b) row)
    with (guac_terminal_buffer_get_row b row).
  change (default_character (set_row idx r1 b)) with (default_character b).
  change (rows (set_row idx r1 b)) with (<[idx := r1]> (rows b)).
  rewrite Hrow, Hr, list_lookup_insert_eq by (by apply lookup_lt_Some in Hr).
  cbn [deref]. rewrite !run_bind_run, (fit_to_range_id e) by lia.
  destruct (guac_terminal_fit_to_range s 0 _) as [s'| | |]; try done.
  rewrite !run_bind_run, E, E1, !run_bind_run.
  destruct (GUAC_ASSERT _); [|done..]. rewrite !run_bind_run.
  destruct (for_range _ _ _ _) as [cells| | |]; [|done..]. rewrite !run_bind_run.
  assert (Es : ∀ x, set_row idx x (set_row idx r1 b) = set_row idx x b).
  { intros x. unfold set_row. cbn. by rewrite list_insert_insert_eq. }
  rewrite Es. done.
Qed.

(** A row with as many columns as asked for is not expanded. *)

Lemma row_expand_id r n d :
  0 ≤ n ≤ row_length r → n < 2 ^ 32 → guac_terminal_buffer_row_expand r n d = Run r.
Proof.
  intros H Hn. unfold guac_terminal_buffer_row_expand, u32. rewrite Z.mod_small by lia.
  by rewrite (proj2 (Z.leb_le _ _)) by lia.
Qed.

(** A well-formed row is its columns and the cells past them. *)

Lemma row_eta r :
  row_ok r → r = st_row (drop (Z.to_nat (row_length r)) (characters r)) (row_available r)
                   (wrapped_row r) (row_cells r).
Proof.
  intros Hr. unfold st_row. rewrite (row_ok_length_cells r Hr). unfold row_cells.
  rewrite take_drop. by destruct r.
Qed.

Lemma overwrite_split ch s e A P M C B :
  s = len A + len P → e = len A + len P + len M - 1 →
  glyphs A → P = [] ∨ is_cut P → conts C → glyphs B →
  overwrite ch s e (A ++ P ++ M ++ C ++ B)
  = A ++ blanks P ++ written ch (List.length M) 0 ++ blanks C ++ B.
Proof.
  intros -> -> HA HP HC HB. unfold overwrite.
  replace (Z.to_nat (len A + len P)) with (List.length (A ++ P)) by (rewrite length_app; lia).
  replace (Z.to_nat (len A + len P + len M - 1 + 1)) with (List.length ((A ++ P) ++ M))
    by (rewrite !length_app; lia).
  replace (Z.to_nat _) with (List.length M) by lia.
  replace (A ++ P ++ M ++ C ++ B) with (((A ++ P) ++ M) ++ (C ++ B)) at 2
    by (by rewrite <-!app_assoc).
  replace (A ++ P ++ M ++ C ++ B) with ((A ++ P) ++ (M ++ C ++ B)) by (by rewrite <-!app_assoc).
  rewrite take_app_length, drop_app_length, trim_right_cut by done.
  unfold trim_left. rewrite leading_app by auto with guac. cbn [fst snd].
  by rewrite <-!app_assoc.
Qed.

(** Setting whole characters in the columns [s] to [e] of a row: they are written, the characters
    they cut are blanked, and the rest of the buffer stands. *)

Lemma set_columns_at_ok d b row idx r s e ch :
  buffer_ok b → guac_terminal_buffer_get_row b row = Some idx → rows b !! idx = Some r →
  - GUAC_TERMINAL_MAX_ROWS < row < GUAC_TERMINAL_MAX_ROWS →
  is_continuation ch = false → 1 ≤ width ch → (width ch | e - s + 1) →
  0 ≤ s ≤ e + 1 → 0 ≤ e < GUAC_TERMINAL_MAX_COLUMNS → s < GUAC_TERMINAL_MAX_COLUMNS →
  ∃ b', set_columns_at (S (S (S d))) b row s e ch = Run b' ∧ buffer_ok b' ∧
    row_replaced b b' row idx r
      (overwrite ch s e (padded (default_character b) (e + 1) (row_cells r))).
Proof.
  intros Hb Hrow Hr Hbound Hch Hw [k Hk] Hs He Hsm.
  pose proof (Forall_lookup_1 _ _ _ _ (buffer_ok_rows b Hb) Hr) as Hro.
  destruct (row_expand_ok r (e + 1) (default_character b) Hro (buffer_ok_default b Hb))
    as (r1 & E1 & Hr1 & Ec & Ew); [lia|].
  set (L := padded _ _ _) in *. pose proof (row_ok_length_cells r1 Hr1) as HL. rewrite Ec in HL.
  pose proof (length_padded (default_character b) (e + 1) (row_cells r)) as HL2. fold L in HL2.
  pose proof (row_ok_length r1 Hr1) as Hmax.
  rewrite (set_columns_expand (S (S d)) b row idx r r1) by
    (try done; apply row_expand_id; unfold GUAC_TERMINAL_MAX_COLUMNS in *; lia).
  assert (HG : glyphs L) by (rewrite <-Ec; apply Hr1).
  destruct (glyphs_split L HG (Z.to_nat s)) as (A & P & C0 & B0 & T1 & T2 & HA & _ & _ & HP & _);
    [lia|].
  destruct (glyphs_split L HG (Z.to_nat (e + 1)))
    as (A0 & P0 & C & B & T3 & T4 & _ & HB & HC & _ & _); [lia|].
  set (M := take (Z.to_nat (e - s + 1)) (drop (Z.to_nat s) L)).
  assert (EL : L = A ++ P ++ M ++ C ++ B).
  { rewrite <-(take_drop (Z.to_nat s) L) at 1. rewrite T1, <-app_assoc. f_equal. f_equal.
    rewrite <-(take_drop (Z.to_nat (e - s + 1)) (drop (Z.to_nat s) L)) at 1.
    fold M. f_equal. rewrite drop_drop, <-T4. f_equal. lia. }
  assert (Hs' : s = len A + len P).
  { rewrite <-Nat2Z.inj_add, <-length_app, <-T1, length_take. lia. }
  assert (HM : len M = e - s + 1).
  { unfold M. rewrite length_take, length_drop. lia. }
  destruct (set_columns_cut b row idx (drop (Z.to_nat (row_length r1)) (characters r1))
    (row_available r1) (wrapped_row r1) Hrow (lookup_lt_Some _ _ _ Hr) Hbound
    d A P M C B (length b) ch) as (l & Hl & E); try done.
  - replace (List.length M) with (Z.to_nat k * Z.to_nat (width ch))%nat by nia.
    by apply written_glyphs.
  - rewrite <-EL. lia.
  - lia.
  - intros E0. rewrite app_assoc in E0. apply (f_equal List.length) in E0.
    rewrite !length_app in E0. cbn in E0. lia.
  - rewrite <-EL, <-Hs' in E. replace (s + len M - 1) with e in E by lia.
    assert (Est : set_row idx r1 b
      = st b idx (drop (Z.to_nat (row_length r1)) (characters r1)) (row_available r1)
          (wrapped_row r1) L (length b)).
    { rewrite <-Ec. unfold st. rewrite <-(row_eta r1 Hr1). done. }
    rewrite Est, E. rewrite EL, (overwrite_split ch s e A P M C B) by (done || lia).
    set (cells := A ++ blanks P ++ _) in *.
    assert (Hlc : len cells = row_length r1).
    { rewrite <-HL, EL. unfold cells. rewrite !length_app, !length_blanks, length_written. lia. }
    eexists. split; [done|]. split.
    + apply (st_ok b row idx r1 cells l Hb Hr1 Hlc); [|done].
      repeat apply glyphs_app_2; auto with guac.
      replace (List.length M) with (Z.to_nat k * Z.to_nat (width ch))%nat by nia.
      by apply written_glyphs.
    + split; try done. eexists. split; [reflexivity|]. split; [|done].
      unfold row_cells. cbn [st_row row_length characters]. by rewrite Nat2Z.id, take_app_length.
Qed.

(** ** The specification of copying columns *)

(** The columns [s] to [e] written [off] columns further, the characters cut at either end of the
    columns moved and of the region they replace being blanked. *)

Definition moved (s e off : Z) (l : list guac_terminal_char) : list guac_terminal_char :=
  trim_right (take (Z.to_nat (s + off)) l)
  ++ trim_left (trim_right (take (Z.to_nat (e - s + 1)) (drop (Z.to_nat s) l)))
  ++ trim_left (drop (Z.to_nat (e + off + 1)) l).

(** Any stretch of a row of whole characters. *)

Lemma glyphs_stretch l s n :
  glyphs l → (s + n ≤ List.length l)%nat →
  ∃ C1 G T, take n (drop s l) = C1 ++ G ++ T ∧ conts C1 ∧ glyphs G ∧ (T = [] ∨ is_cut T).
Proof.
  intros Hl Hn. destruct (glyphs_split l Hl s) as (A & P & C & B & _ & E & _ & HB & HC & _); [lia|].
  apply (f_equal List.length) in E as EL. rewrite length_drop, length_app in EL. rewrite E.
  destruct (decide (n ≤ List.length C)%nat) as [Hle|Hgt].
  - exists (take n C), [], []. rewrite take_app_le by done. rewrite !app_nil_r.
    auto using conts_take, glyphs_nil.
  - destruct (glyphs_split B HB (n - List.length C)) as (A1 & P1 & _ & _ & E1 & _ & HA1 & _ & _ & HP1 & _);
      [lia|].
    exists C, A1, P1. rewrite take_app_ge, E1 by lia. auto.
Qed.

Lemma trim_stretch C1 G T :
  conts C1 → glyphs G → T = [] ∨ is_cut T →
  trim_left (trim_right (C1 ++ G ++ T)) = blanks C1 ++ G ++ blanks T.
Proof.
  intros HC HG HT.
  assert (Hcase : head_ok (G ++ T) ∧ (G ++ T = [] ∨ trim_right (C1 ++ G ++ T) = C1 ++ G ++ blanks T)).
  { destruct HG as [|g G Hg HG].
    - destruct HT as [->|HT]; [split; [done|by left]|].
      pose proof HT as (c & k & -> & Hc & Hk & Hw). split; [done|]. right.
      cbn [app]. rewrite trim_right_app by done. f_equal.
      exact (trim_right_cut [] (c :: k) glyphs_nil (or_intror HT)).
    - rewrite <-app_assoc. split; [by apply glyph_head_ok|]. right.
      pose proof Hg as (c & k & -> & Hc & _). cbn [app]. rewrite trim_right_app by done. f_equal.
      change (c :: k ++ G ++ T) with ((c :: k) ++ G ++ T). rewrite app_assoc.
      rewrite (trim_right_cut _ T (glyphs_app _ _ Hg HG) HT). done. }
  destruct Hcase as [Hh [E|E]].
  - apply app_eq_nil in E as [-> ->]. cbn [blanks app]. rewrite !app_nil_r.
    destruct C1 as [|c k]; [done|]. apply Forall_cons_iff in HC as [Hc Hk].
    cbn [trim_right]. rewrite (proj2 (forallb_conts k) Hk), Hc. cbn [negb andb].
    unfold trim_left.
    assert (E : leading (blanks (c :: k)) = ([], blanks (c :: k)))
      by (apply (leading_app []); [constructor|done]).
    by rewrite E.
  - rewrite E. unfold trim_left. rewrite leading_app; [done..|].
    destruct G as [|g G]; [|done]. by destruct T.
Qed.

Lemma length_moved_middle C1 G T :
  List.length (blanks C1 ++ G ++ blanks T) = List.length (C1 ++ G ++ T).
Proof. by rewrite !length_app, !length_blanks. Qed.

Lemma memmove_ok {A} (X M R : list A) (cells : list A) src n :
  cells = X ++ M ++ R → 0 ≤ src → 0 < n → src + n ≤ len cells → len M = n →
  memmove cells (len X) src n
  = Run (X ++ take (Z.to_nat n) (drop (Z.to_nat src) cells) ++ R).
Proof.
  intros E Hs Hn Hsn HM. assert (Hl : len cells = len X + n + len R).
  { rewrite E, !length_app. lia. }
  unfold memmove. zif; [lia|]. zif.
  - f_equal. f_equal; [|f_equal].
    + rewrite Nat2Z.id, E. apply take_app_length.
    + rewrite E, app_assoc. apply drop_app_length'. rewrite length_app. lia.
  - repeat match goal with H : (_ && _) = false |- _ => apply andb_false_iff in H as [H|H] end;
      zbool_hyps; lia.
Qed.

(** The columns a copy moves, within the row. *)

Definition copy_start (s off n : Z) : Z :=
  if 0 <=? off then Z.max 0 (Z.min s (n - off - 1)) else Z.max (- off) (Z.min s (n - 1)).

Definition copy_end (s e off n : Z) : Z :=
  Z.max (copy_start s off n) (Z.min e (if 0 <=? off then n - off - 1 else n - 1)).

Lemma copy_range s e off n :
  Z.abs off < n →
  0 ≤ copy_start s off n ∧ 0 ≤ copy_start s off n + off ∧
  copy_start s off n ≤ copy_end s e off n ∧
  copy_end s e off n < n ∧ copy_end s e off n + off < n.
Proof. intros H. unfold copy_end, copy_start. zif; lia. Qed.

Lemma SET_COLUMNS_DEPTH_eq : SET_COLUMNS_DEPTH = S (S (S (S (Z.to_nat 1022)))).
Proof. reflexivity. Qed.

Lemma copy_columns_ok b row idx r s e off :
  buffer_ok b → guac_terminal_buffer_get_row b row = Some idx → rows b !! idx = Some r →
  - GUAC_TERMINAL_MAX_ROWS < row < GUAC_TERMINAL_MAX_ROWS →
  0 ≤ e + off + 1 ≤ GUAC_TERMINAL_MAX_COLUMNS →
  let L := padded (default_character b) (e + off + 1) (row_cells r) in
  Z.abs off < len L →
  ∃ b' cells, guac_terminal_buffer_copy_columns b row s e off = Run b' ∧ buffer_ok b' ∧
    Forall2 blank_sim (moved (copy_start s off (len L)) (copy_end s e off (len L)) off L) cells ∧
    row_replaced b b' row idx r cells.
Proof.
  intros Hb Hrow Hr Hbound He L Hoff.
  pose proof (Forall_lookup_1 _ _ _ _ (buffer_ok_rows b Hb) Hr) as Hro.
  destruct (row_expand_ok r (e + off + 1) (default_character b) Hro (buffer_ok_default b Hb))
    as (r1 & E1 & Hr1 & Ec & Ew); [lia|]. fold L in Ec.
  pose proof (row_ok_length_cells r1 Hr1) as HL. rewrite Ec in HL.
  pose proof (length_padded (default_character b) (e + off + 1) (row_cells r)) as HL2. fold L in HL2.
  pose proof (row_ok_length r1 Hr1) as Hmax. unfold GUAC_TERMINAL_MAX_COLUMNS in *.
  pose proof (copy_range s e off (len L) Hoff) as (R1 & R2 & R3 & R4 & R5).
  set (s' := copy_start s off (len L)) in *. set (e' := copy_end s e off (len L)) in *.
  set (rest := drop (Z.to_nat (row_length r1)) (characters r1)).
  assert (Echars : characters r1 = L ++ rest).
  { unfold rest. rewrite <-Ec. unfold row_cells. by rewrite take_drop. }
  assert (HG : glyphs L) by (rewrite <-Ec; apply Hr1).
  destruct (glyphs_split L HG (Z.to_nat (s' + off))) as (A & P & _ & _ & T1 & _ & HA & _ & _ & HP & _);
    [lia|].
  destruct (glyphs_split L HG (Z.to_nat (e' + off + 1)))
    as (_ & _ & C & B & _ & T2 & _ & HB & HC & _); [lia|].
  destruct (glyphs_stretch L (Z.to_nat s') (Z.to_nat (e' - s' + 1)) HG)
    as (C1 & G & T & T3 & HC1 & HGG & HT); [lia|].
  assert (L1 : len A + len P = s' + off).
  { rewrite <-Nat2Z.inj_add, <-length_app, <-T1, length_take. lia. }
  assert (L2 : len (C1 ++ G ++ T) = e' - s' + 1).
  { rewrite <-T3, length_take, length_drop. lia. }
  assert (L3 : len C + len B = len L - (e' + off + 1)).
  { rewrite <-Nat2Z.inj_add, <-length_app, <-T2, length_drop. lia. }
  (* the copy *)
  assert (Emove : memmove (characters r1) (s' + off) s' (e' - s' + 1)
    = Run ((A ++ P ++ C1 ++ G ++ T ++ C ++ B) ++ rest)).
  { rewrite <-L1, <-Nat2Z.inj_add, <-length_app.
    rewrite (memmove_ok (A ++ P) (take (Z.to_nat (e' - s' + 1)) (drop (Z.to_nat (s' + off)) L))
      ((C ++ B) ++ rest)).
    - f_equal. rewrite Echars, drop_app_le, take_app_le by (rewrite ?length_drop; lia).
      rewrite T3. by rewrite <-!app_assoc.
    - rewrite Echars, <-T1, <-T2. rewrite !(app_assoc _ _ rest). f_equal.
      rewrite <-(take_drop (Z.to_nat (s' + off)) L) at 1. f_equal.
      rewrite <-(take_drop (Z.to_nat (e' - s' + 1)) (drop (Z.to_nat (s' + off)) L)) at 1.
      f_equal. rewrite drop_drop. f_equal. lia.
    - lia.
    - lia.
    - rewrite Echars, length_app. lia.
    - rewrite length_take, length_drop. lia. }
  destruct (move_cut b row idx rest (row_available r1) (wrapped_row r1) Hrow
    (lookup_lt_Some _ _ _ Hr) Hbound SET_COLUMNS_DEPTH A P C1 G T C B (length b))
    as (l & cells & Hl & Hcells & Hsim & E); try done.
  { rewrite SET_COLUMNS_DEPTH_eq. lia. }
  { intros E0. rewrite E0 in L2. cbn in L2. lia. }
  { rewrite !length_app in *. unfold GUAC_TERMINAL_MAX_COLUMNS. lia. }
  set (cells0 := A ++ P ++ C1 ++ G ++ T ++ C ++ B) in *.
  assert (Hl0 : len cells0 = row_length r1).
  { unfold cells0. rewrite !length_app in *. lia. }
  assert (Hlc : len cells = row_length r1).
  { apply Forall2_length in Hsim. rewrite <-Hl0, <-Hsim. unfold cells0.
    rewrite !length_app, !length_blanks. lia. }
  exists (st b idx rest (row_available r1) (wrapped_row r1) cells l), cells. split_and!.
  - unfold guac_terminal_buffer_copy_columns. rewrite Hrow, Hr. cbn [deref].
    rewrite run_bind_run. rewrite (i32_small (e + off + 1)) by (unfold is_i32; lia).
    rewrite E1, run_bind_run. unfold u32. rewrite Z.mod_small by lia.
    rewrite assert_leb, run_bind_run by lia.
    match goal with |- context [(if 0 <=? off then ?x else ?y) ≫= ?k] =>
      assert (Ecols : (if 0 <=? off then x else y) = Run (s', e')) end.
    { rewrite <-HL. unfold s', e', copy_end, copy_start. zif.
      - rewrite !(i32_small (len L - off - 1)) by (unfold is_i32; lia).
        rewrite fit_to_range_ok, run_bind_run, fit_to_range_ok by lia. done.
      - rewrite !(i32_small (len L - 1)) by (unfold is_i32; lia).
        rewrite fit_to_range_ok, run_bind_run, fit_to_range_ok by lia. done. }
    rewrite Ecols, run_bind_run. cbv beta iota. rewrite Emove, run_bind_run.
    assert (Est : set_row idx (set_characters (cells0 ++ rest) r1) b
      = st b idx rest (row_available r1) (wrapped_row r1) cells0 (length b)).
    { unfold set_row, st, st_row, set_characters. by rewrite Hl0. }
    rewrite Est. unfold guac_terminal_buffer_force_break, guac_terminal_buffer_set_columns.
    rewrite L1, L2 in E. replace (s' + off + (e' - s' + 1)) with (e' + off + 1) in E by lia. exact E.
  - apply (st_ok b row idx r1 cells l Hb Hr1 Hlc Hcells Hl).
  - unfold moved. rewrite T1, T2, T3, trim_right_cut, trim_stretch by done.
    unfold trim_left. rewrite leading_app by auto with guac. cbn [fst snd].
    by rewrite <-!app_assoc.
  - split; try done. eexists. split; [reflexivity|]. split; [|done].
    unfold row_cells. cbn [st_row row_length characters]. by rewrite Nat2Z.id, take_app_length.
Qed.

(** Setting columns that need not be whole characters: what does not fit is blanked. *)

Lemma written_stretch ch n :
  1 ≤ width ch → is_continuation ch = false →
  ∃ G T, written ch n 0 = G ++ T ∧ glyphs G ∧ (T = [] ∨ is_cut T).
Proof.
  intros Hw Hc. pose (w := Z.to_nat (width ch)).
  exists (written ch (n / w * w) 0), (written ch (n mod w) 0).
  assert (Happ : ∀ k m, written ch (k * w + m) 0 = written ch (k * w) 0 ++ written ch m 0).
  { intros k m. induction k as [|k IH]; [done|].
    assert (H : ∀ r m, written ch (r + m) r = replicate r (continuation_char ch) ++ written ch m 0).
    { intros r m'. induction r as [|r IHr]; [done|]. cbn. by rewrite IHr. }
    replace (S k * w + m)%nat with (S (Z.to_nat (width ch - 1) + (k * w + m))) by lia.
    replace (S k * w)%nat with (S (Z.to_nat (width ch - 1) + k * w)) by lia.
    cbn [written]. rewrite !H, IH. cbn [app]. by rewrite <-app_assoc. }
  split; [|split].
  - rewrite <-Happ. f_equal. pose proof (Nat.div_mod_eq n w). lia.
  - unfold w. by apply written_glyphs.
  - pose proof (Nat.mod_upper_bound n w ltac:(lia)) as Hm.
    destruct (n mod w)%nat as [|m]; [by left|]. right.
    exists ch, (replicate m (continuation_char ch)).
    assert (H : ∀ r m, (m ≤ r)%nat → written ch m r = replicate m (continuation_char ch)).
    { intros r m'. revert r. induction m' as [|m' IH]; [done|]. intros [|r] Hr; [lia|].
      cbn. rewrite IH by lia. done. }
    split; [cbn [written]; f_equal; apply H; lia|]. split; [done|].
    split; [by apply Forall_replicate|]. rewrite length_written. lia.
Qed.

Lemma set_columns_gen b row idx r s e ch :
  buffer_ok b → guac_terminal_buffer_get_row b row = Some idx → rows b !! idx = Some r →
  - GUAC_TERMINAL_MAX_ROWS < row < GUAC_TERMINAL_MAX_ROWS →
  is_continuation ch = false → 1 ≤ width ch →
  0 ≤ s ≤ e → e < GUAC_TERMINAL_MAX_COLUMNS →
  let L := padded (default_character b) (e + 1) (row_cells r) in
  ∃ b' cells, guac_terminal_buffer_set_columns b row s e ch = Run b' ∧ buffer_ok b' ∧
    Forall2 blank_sim
      (trim_right (take (Z.to_nat s) L) ++ trim_right (written ch (Z.to_nat (e - s + 1)) 0)
       ++ trim_left (drop (Z.to_nat (e + 1)) L)) cells ∧
    row_replaced b b' row idx r cells.
Proof.
  intros Hb Hrow Hr Hbound Hch Hw Hs He L.
  pose proof (Forall_lookup_1 _ _ _ _ (buffer_ok_rows b Hb) Hr) as Hro.
  destruct (row_expand_ok r (e + 1) (default_character b) Hro (buffer_ok_default b Hb))
    as (r1 & E1 & Hr1 & Ec & Ew); [lia|]. fold L in Ec.
  pose proof (row_ok_length_cells r1 Hr1) as HL. rewrite Ec in HL.
  pose proof (length_padded (default_character b) (e + 1) (row_cells r)) as HL2. fold L in HL2.
  pose proof (row_ok_length r1 Hr1) as Hmax.
  unfold guac_terminal_buffer_set_columns. rewrite SET_COLUMNS_DEPTH_eq.
  assert (Hd : (4 ≤ S (S (S (Z.to_nat 1022))))%nat) by lia.
  set (d := Z.to_nat 1022) in *. clearbody d.
  rewrite (set_columns_expand (S (S (S d))) b row idx r r1) by
    (try done; try apply row_expand_id; unfold GUAC_TERMINAL_MAX_COLUMNS in *; lia).
  assert (HG : glyphs L) by (rewrite <-Ec; apply Hr1).
  destruct (glyphs_split L HG (Z.to_nat s)) as (A & P & C0 & B0 & T1 & T2 & HA & _ & _ & HP & _);
    [lia|].
  destruct (glyphs_split L HG (Z.to_nat (e + 1)))
    as (A0 & P0 & C & B & T3 & T4 & _ & HB & HC & _ & _); [lia|].
  set (M := take (Z.to_nat (e - s + 1)) (drop (Z.to_nat s) L)).
  assert (EL : L = (A ++ P) ++ M ++ (C ++ B)).
  { rewrite <-(take_drop (Z.to_nat s) L) at 1. rewrite T1. f_equal.
    rewrite <-(take_drop (Z.to_nat (e - s + 1)) (drop (Z.to_nat s) L)) at 1.
    fold M. f_equal. rewrite drop_drop, <-T4. f_equal. lia. }
  assert (Hs' : s = len (A ++ P)).
  { rewrite <-T1, length_take. lia. }
  assert (HM : len M = e - s + 1).
  { unfold M. rewrite length_take, length_drop. lia. }
  destruct (written_stretch ch (List.length M) Hw Hch) as (G & T & EW & HGG & HT).
  assert (LW : List.length (G ++ T) = List.length M) by (rewrite <-EW; apply length_written).
  set (rest := drop (Z.to_nat (row_length r1)) (characters r1)).
  set (stt := st b idx rest (row_available r1) (wrapped_row r1)).
  assert (Est : set_row idx r1 b = stt L (length b)).
  { rewrite <-Ec. unfold stt, st, rest. rewrite <-(row_eta r1 Hr1). done. }
  assert (Hidx : (idx < List.length (rows b))%nat) by (by apply lookup_lt_Some in Hr).
  destruct (set_columns_st b row idx rest (row_available r1) (wrapped_row r1) Hrow Hidx Hbound
    (S (S (S d))) (A ++ P) M (C ++ B) (length b) ch) as (l1 & Hl1 & E);
    [done|rewrite <-EL; lia|lia| |].
  { intros E0. apply (f_equal List.length) in E0. rewrite length_app in E0. cbn in E0. lia. }
  assert (Hlen : len ((A ++ P) ++ M ++ C ++ B) ≤ GUAC_TERMINAL_MAX_COLUMNS).
  { rewrite <-EL. lia. }
  destruct (move_cut b row idx rest (row_available r1) (wrapped_row r1) Hrow Hidx Hbound
    (S (S (S d))) A P [] G T C B l1) as (l2 & cells & Hl2 & Hcells & Hsim & E2);
    try done; [constructor| | |].
  { intros E0. cbn [app] in E0. rewrite E0 in LW. cbn in LW. lia. }
  { cbn [app]. rewrite !length_app in *. lia. }
  cbn [app blanks] in E2, Hsim.
  assert (Erun : set_columns_at (S (S (S (S d)))) (stt L (length b)) row s e ch = Run (stt cells l2)).
  { rewrite <-EL in E. rewrite <-Hs' in E. replace (s + len M - 1) with e in E by lia. fold stt in E.
    rewrite E, EW, <-LW. etransitivity; [|exact E2].
    rewrite Hs', (length_app A P), Nat2Z.inj_add, <-!app_assoc. reflexivity. }
  assert (Hlc : len cells = row_length r1).
  { apply Forall2_length in Hsim. rewrite <-HL, EL, <-Hsim.
    rewrite !length_app in *. rewrite !length_blanks. lia. }
  exists (stt cells l2), cells. split; [by rewrite Est, Erun|]. split.
  - apply (st_ok b row idx r1 cells l2 Hb Hr1 Hlc Hcells). by eauto using touched_trans.
  - split.
    + rewrite T1, T4, trim_right_cut by done.
      replace (Z.to_nat (e - s + 1)) with (List.length M) by lia.
      rewrite EW, trim_right_cut by done. unfold trim_left.
      rewrite leading_app by auto with guac. cbn [fst snd]. by rewrite <-!app_assoc.
    + split; try done; [|by eauto using touched_trans].
      eexists. split; [reflexivity|]. split; [|done].
      unfold row_cells. cbn [stt st_row row_length characters]. by rewrite Nat2Z.id, take_app_length.
Qed.

(** ** The other operations *)

(** Glyphs depend on the values and widths of the cells alone. *)

Definition same_shape (c c' : guac_terminal_char) : Prop :=
  value c' = value c ∧ width c' = width c.

Lemma conts_shape l l' : Forall2 same_shape l l' → conts l → conts l'.
Proof.
  induction 1 as [|c c' l l' [Hv _] _ IH]; [done|]. unfold conts. rewrite !Forall_cons_iff.
  intros [Hc Hl]. split; [|by apply IH]. unfold is_continuation in *. by rewrite Hv.
Qed.

Lemma glyphs_shape l l' : Forall2 same_shape l l' → glyphs l → glyphs l'.
Proof.
  intros H Hl. revert l' H. induction Hl as [|g l (c & k & -> & Hc & Hk & Hw) Hl IH]; intros l' H.
  - apply Forall2_nil_inv_l in H as ->. constructor.
  - apply Forall2_app_inv_l in H as (g' & l2 & Hg & Hl2 & ->). constructor; [|auto].
    pose proof (Forall2_length Hg) as E.
    apply Forall2_cons_inv_l in Hg as (c' & k' & [Hv Hw'] & Hk' & ->).
    exists c', k'. split; [done|]. split; [unfold is_continuation in *; by rewrite Hv|].
    split; [by apply (conts_shape k)|]. rewrite Hw', Hw, E. done.
Qed.

Lemma same_shape_cursor is_cursor c : same_shape c (set_cursor_attribute is_cursor c).
Proof. done. Qed.

Lemma same_shape_insert l i c c' :
  l !! i = Some c → same_shape c c' → Forall2 same_shape l (<[i := c']> l).
Proof.
  intros Hi Hs. rewrite <-(list_insert_id l i c Hi) at 1. apply Forall2_insert; [|done].
  apply Forall_Forall2_diag, Forall_true. done.
Qed.

(** The row of a buffer replaced by a well-formed one. *)

Lemma set_row_ok b idx r : buffer_ok b → row_ok r → buffer_ok (set_row idx r b).
Proof.
  intros [B1 B2 B3 B4 B5 B6] Hr. split; cbn; rewrite ?length_insert; try done.
  by apply Forall_insert.
Qed.

Lemma set_cursor_ok b row column is_cursor :
  buffer_ok b →
  ∃ b', guac_terminal_buffer_set_cursor b row column is_cursor = Run b' ∧ buffer_ok b' ∧
    (b' = b ∨ ∃ idx r c,
      guac_terminal_buffer_get_row b row = Some idx ∧ rows b !! idx = Some r ∧
      let col := Z.max 0 (Z.min column (GUAC_TERMINAL_MAX_COLUMNS - 1)) in
      let L := padded (default_character b) (col + 1) (row_cells r) in
      L !! Z.to_nat col = Some c ∧
      row_replaced b b' row idx r (<[Z.to_nat col := set_cursor_attribute is_cursor c]> L)).
Proof.
  intros Hb. unfold guac_terminal_buffer_set_cursor. destruct (_ || _); [eauto|].
  destruct (guac_terminal_buffer_get_row b row) as [idx|] eqn:Hrow; [|eauto].
  destruct (get_row_lookup b row idx Hb Hrow) as (r & Hr & Hro). rewrite Hr. cbn [deref].
  rewrite run_bind_run, fit_to_range_ok by (unfold GUAC_TERMINAL_MAX_COLUMNS; lia).
  rewrite run_bind_run. unfold GUAC_TERMINAL_MAX_COLUMNS.
  set (col := Z.max 0 (Z.min column (1024 - 1))).
  destruct (row_expand_ok r (col + 1) (default_character b) Hro (buffer_ok_default b Hb))
    as (r1 & E1 & Hr1 & Ec & Ew); [unfold GUAC_TERMINAL_MAX_COLUMNS; lia|].
  set (L := padded (default_character b) (col + 1) (row_cells r)) in *.
  rewrite E1, run_bind_run.
  pose proof (row_ok_length_cells r1 Hr1) as HL. rewrite Ec in HL.
  pose proof (length_padded (default_character b) (col + 1) (row_cells r)) as HL2. fold L in HL2.
  rewrite assert_leb, run_bind_run by lia.
  destruct (lookup_lt_is_Some_2 L (Z.to_nat col)) as (c & Hc); [lia|].
  assert (Hc1 : characters r1 !! Z.to_nat col = Some c).
  { rewrite <-Ec in Hc. unfold row_cells in Hc. by apply lookup_take_Some in Hc as []. }
  rewrite (cell_at_lookup _ _ c) by (done || lia). rewrite run_bind_run.
  apply lookup_lt_Some in Hc1 as Hlt. rewrite store_ok, run_bind_run by lia.
  set (r2 := set_characters _ r1).
  assert (Ecell : row_cells r2 = <[Z.to_nat col := set_cursor_attribute is_cursor c]> L).
  { unfold row_cells. cbn. rewrite take_insert_lt by lia. by rewrite <-Ec. }
  assert (Hr2 : row_ok r2).
  { destruct Hr1 as [H1 H2 H3 H4 H5]. split; try done.
    - cbn. rewrite length_insert. destruct H4 as [H4|[E _]]; [by left|].
      rewrite E in Hlt. cbn in Hlt. lia.
    - rewrite Ecell. rewrite Ec in H5. eapply glyphs_shape; [|done].
      by apply (same_shape_insert _ _ c). }
  exists (set_row idx r2 b). split; [done|]. split; [by apply set_row_ok|].
  right. exists idx, r, c. split; [done|]. split; [done|]. split; [done|].
  split; try done; [|by left]. exists r2. auto.
Qed.

Lemma set_wrapped_ok b row wrapped :
  buffer_ok b →
  ∃ b', guac_terminal_buffer_set_wrapped b row wrapped = Run b' ∧ buffer_ok b' ∧
    available b' = available b ∧ default_character b' = default_character b.
Proof.
  intros Hb. unfold guac_terminal_buffer_set_wrapped.
  destruct (guac_terminal_buffer_get_row b row) as [idx|] eqn:Hrow; [|eauto].
  destruct (get_row_lookup b row idx Hb Hrow) as (r & Hr & Hro). rewrite Hr. cbn [deref].
  rewrite run_bind_run. eexists. split; [done|]. split; [|done].
  apply set_row_ok; [done|]. by destruct Hro.
Qed.

Lemma scroll_up_ok b amount : buffer_ok b → buffer_ok (guac_terminal_buffer_scroll_up b amount).
Proof.
  intros Hb. unfold guac_terminal_buffer_scroll_up. zif; [done|].
  pose proof Hb as [B1 B2 B3 B4 B5 B6].
  assert (H : ∀ l, 0 ≤ l < 2 ^ 32 →
    buffer_ok (set_length l (set_top (u32 (top b + amount) `mod` available b) b))).
  { intros l Hl. split; cbn; try done. apply Z.mod_pos_bound. lia. }
  zif; [apply (H (available b)); lia|]. apply H. unfold u32. by apply Z.mod_pos_bound.
Qed.

Lemma scroll_down_ok b amount : buffer_ok b → buffer_ok (guac_terminal_buffer_scroll_down b amount).
Proof.
  intros Hb. unfold guac_terminal_buffer_scroll_down. zif; [done|].
  destruct Hb as [B1 B2 B3 B4 B5 B6]. split; cbn; try done. apply Z.mod_pos_bound. lia.
Qed.

Lemma reset_ok b : buffer_ok b → buffer_ok (guac_terminal_buffer_reset b).
Proof. intros [B1 B2 B3 B4 B5 B6]. split; cbn; try done; lia. Qed.

(** A row of a buffer that keeps its shape: the same number of rows, the same default. *)

Definition same_frame (b b' : guac_terminal_buffer) : Prop :=
  available b' = available b ∧ default_character b' = default_character b
  ∧ top b' = top b ∧ length b' = length b.

Lemma ckd_mul_char n :
  0 ≤ n ≤ GUAC_TERMINAL_MAX_COLUMNS →
  ∃ z, or_abort (PRIV_guac_mem_ckd_mul_or_die [sizeof_char; n]) = Run z.
Proof.
  intros Hn. unfold GUAC_TERMINAL_MAX_COLUMNS in *.
  unfold PRIV_guac_mem_ckd_mul_or_die, PRIV_guac_mem_ckd_mul, ckd_mul_loop, sizeof_char.
  cbn [Z.eqb]. rewrite (proj2 (Z.ltb_ge _ _)); [cbn; eauto|].
  change (SIZE_MAX `div` 28) with 658812288346769700. lia.
Qed.

Lemma copy_row_ok b offset step i current_row :
  buffer_ok b →
  ∃ b' current_row', copy_row offset step i (b, current_row) = Run (b', current_row')
    ∧ buffer_ok b' ∧ same_frame b b'.
Proof.
  intros Hb. unfold copy_row.
  destruct (guac_terminal_buffer_get_row b current_row) as [src|] eqn:Hsrc;
    [|by exists b, current_row].
  destruct (guac_terminal_buffer_get_row b (i32 (current_row + offset))) as [dst|] eqn:Hdst;
    [|by exists b, current_row].
  destruct (get_row_lookup b _ src Hb Hsrc) as (rs & Hrs & Hso).
  destruct (get_row_lookup b _ dst Hb Hdst) as (rd & Hrd & Hdo).
  rewrite Hrs, Hrd. cbn [deref]. rewrite !run_bind_run.
  destruct (row_expand_ok rd (row_length rs) (default_character b) Hdo (buffer_ok_default b Hb)
    (row_ok_length rs Hso)) as (r1 & E1 & Hr1 & Ec & Ew). rewrite E1, run_bind_run.
  pose proof (row_ok_length_cells r1 Hr1) as HL1. rewrite Ec, length_padded in HL1.
  assert (H1 : buffer_ok (set_row dst r1 b)) by (by apply set_row_ok).
  assert (Hs1 : ∃ rs1, rows (set_row dst r1 b) !! src = Some rs1 ∧ row_ok rs1 ∧
                       row_length rs1 = row_length rs).
  { cbn. destruct (decide (dst = src)) as [->|Hne].
    - rewrite list_lookup_insert_eq by (by apply lookup_lt_Some in Hrs).
      exists r1. split; [done|]. split; [done|]. rewrite <-HL1.
      assert (rd = rs) as -> by congruence. rewrite (row_ok_length_cells rs Hso). lia.
    - rewrite list_lookup_insert_ne by done. eauto. }
  destruct Hs1 as (rs1 & Hrs1 & Hso1 & Hlen1). rewrite Hrs1. cbn [deref].
  rewrite run_bind_run, Hlen1, assert_leb, run_bind_run by lia.
  destruct (ckd_mul_char (row_length rs) (row_ok_length rs Hso)) as (z & ->).
  rewrite run_bind_run. pose proof (row_ok_length_cells rs1 Hso1) as HLs.
  pose proof (row_ok_length_cells r1 Hr1) as HLd.
  pose proof (row_ok_length rs Hso) as Rs. pose proof (row_ok_length rd Hdo) as Rd.
  unfold row_cells in HLs, HLd. rewrite length_take in HLs, HLd. zif.
  - set (r2 := mk_row _ _ _ _).
    assert (Hr2 : row_ok r2).
    { assert (Ecell : row_cells r2 = row_cells rs1).
      { unfold row_cells, r2. cbn. rewrite Hlen1. rewrite take_app_length'; [done|].
        rewrite length_take. lia. }
      destruct Hr1 as [A1 A2 A3 A4 A5]. split.
      - cbn. lia.
      - exact A2.
      - cbn. lia.
      - cbn. rewrite length_app, length_take, length_drop.
        destruct A4 as [A4|[E0 E2]]; [left; lia|]. right.
        assert (row_length rs = 0) as -> by lia. by rewrite E0.
      - rewrite Ecell. apply Hso1. }
    assert (H2 : buffer_ok (set_row dst r2 (set_row dst r1 b))) by (by apply set_row_ok).
    destruct (lookup_lt_is_Some_2 (rows (set_row dst r2 (set_row dst r1 b))) src) as (rs2 & Hrs2).
    { cbn. rewrite !length_insert. by apply lookup_lt_Some in Hrs. }
    rewrite Hrs2. cbn [deref]. rewrite run_bind_run. do 2 eexists. split; [done|]. split; [|done].
    apply set_row_ok; [done|].
    pose proof (Forall_lookup_1 _ _ _ _ (buffer_ok_rows _ H2) Hrs2) as []. done.
  - apply andb_false_iff in Heqb0 as [E|E]; zbool_hyps; lia.
Qed.

Lemma copy_rows_ok b start_row end_row offset :
  buffer_ok b →
  ∃ b', guac_terminal_buffer_copy_rows b start_row end_row offset = Run b' ∧ buffer_ok b'
    ∧ same_frame b b'.
Proof.
  intros Hb. unfold guac_terminal_buffer_copy_rows.
  assert (H : ∀ current_row step, ∃ s, for_range start_row end_row (copy_row offset step)
      (b, current_row) = Run s ∧ buffer_ok (fst s) ∧ same_frame b (fst s)).
  { intros current_row step. destruct (Z.le_gt_cases start_row (end_row + 1)) as [Hle|Hgt].
    - destruct (for_range_inv (λ _ s, buffer_ok (fst s) ∧ same_frame b (fst s))
        start_row end_row (copy_row offset step) (b, current_row)) as (s & E & Hs); [done|done| |eauto].
      intros j [b1 c1] _ [H1 F1].
      destruct (copy_row_ok b1 offset step j c1 H1) as (b2 & c2 & E & H2 & F2).
      exists (b2, c2). split; [done|]. split; [done|].
      unfold same_frame in *. cbn in *. intuition congruence.
    - rewrite for_range_empty by lia. exists (b, current_row). by cbn. }
  destruct (0 <? offset).
  - destruct (H end_row (-1)) as (s & -> & ?). rewrite run_bind_run. eauto.
  - destruct (H start_row 1) as (s & -> & ?). rewrite run_bind_run. eauto.
Qed.

(** ** Preservation, whatever the arguments *)

Definition buffer_kept (b b' : guac_terminal_buffer) : Prop :=
  buffer_ok b' ∧ available b' = available b ∧ default_character b' = default_character b.

Lemma row_replaced_kept b b' row idx r cells :
  buffer_ok b' → row_replaced b b' row idx r cells → buffer_kept b b'.
Proof. intros Hb []. split; auto. Qed.

Lemma buffer_kept_refl b : buffer_ok b → buffer_kept b b.
Proof. by split. Qed.

Lemma buffer_kept_trans b1 b2 b3 : buffer_kept b1 b2 → buffer_kept b2 b3 → buffer_kept b1 b3.
Proof. unfold buffer_kept. intuition congruence. Qed.

Lemma set_columns_clamp b row s e ch :
  guac_terminal_buffer_set_columns b row s e ch
  = guac_terminal_buffer_set_columns b row s (Z.min e (GUAC_TERMINAL_MAX_COLUMNS - 1)) ch.
Proof.
  unfold guac_terminal_buffer_set_columns. rewrite SET_COLUMNS_DEPTH_eq. cbn [set_columns_at].
  destruct (_ || _); [done|]. destruct (guac_terminal_buffer_get_row b row) as [idx|]; [|done].
  destruct (deref (rows b !! idx)) as [r| | |]; [|done..]. rewrite !run_bind_run.
  destruct (guac_terminal_fit_to_range s 0 _) as [s'| | |]; [|done..]. rewrite !run_bind_run.
  rewrite !fit_to_range_ok by (unfold GUAC_TERMINAL_MAX_COLUMNS; lia).
  do 2 f_equal. unfold GUAC_TERMINAL_MAX_COLUMNS. lia.
Qed.

Lemma set_columns_kept b row s e ch :
  buffer_ok b → is_continuation ch = false → 1 ≤ width ch →
  0 ≤ s < GUAC_TERMINAL_MAX_COLUMNS → s ≤ e + 1 → 0 ≤ e →
  ∃ b', guac_terminal_buffer_set_columns b row s e ch = Run b' ∧ buffer_kept b b'.
Proof.
  intros Hb Hc Hw Hs Hse He. rewrite set_columns_clamp.
  set (e' := Z.min e _). assert (He' : 0 ≤ e' < GUAC_TERMINAL_MAX_COLUMNS ∧ s ≤ e' + 1)
    by (unfold e', GUAC_TERMINAL_MAX_COLUMNS in *; lia). clearbody e'.
  destruct (decide (- GUAC_TERMINAL_MAX_ROWS < row < GUAC_TERMINAL_MAX_ROWS)) as [Hrow|Hrow].
  2: { exists b. split; [|by apply buffer_kept_refl].
       unfold guac_terminal_buffer_set_columns. rewrite SET_COLUMNS_DEPTH_eq. cbn [set_columns_at].
       destruct (Z.leb_spec GUAC_TERMINAL_MAX_ROWS row); [by rewrite orb_true_r|].
       rewrite (proj2 (Z.leb_le row _)) by lia. by rewrite orb_true_r. }
  destruct (guac_terminal_buffer_get_row b row) as [idx|] eqn:Hg.
  2: { exists b. split; [|by apply buffer_kept_refl].
       unfold guac_terminal_buffer_set_columns. rewrite SET_COLUMNS_DEPTH_eq. cbn [set_columns_at].
       rewrite Hg. by destruct (_ || _). }
  destruct (get_row_lookup b row idx Hb Hg) as (r & Hr & _).
  destruct (Z.le_gt_cases s e') as [Hle|Hgt].
  - destruct (set_columns_gen b row idx r s e' ch) as (b' & cells & E & Hb' & _ & Hrep); try done; [lia..|].
    exists b'. split; [done|]. by eapply row_replaced_kept.
  - unfold guac_terminal_buffer_set_columns. rewrite SET_COLUMNS_DEPTH_eq.
    destruct (set_columns_at_ok (S (Z.to_nat 1022)) b row idx r s e' ch) as (b' & E & Hb' & Hrep);
      try done; [exists 0; lia|lia..|].
    exists b'. split; [done|]. by eapply row_replaced_kept.
Qed.

Lemma set_columns_clamp_start b row s e ch :
  guac_terminal_buffer_set_columns b row s e ch
  = guac_terminal_buffer_set_columns b row
      (Z.max 0 (Z.min s (GUAC_TERMINAL_MAX_COLUMNS - 1))) e ch.
Proof.
  unfold guac_terminal_buffer_set_columns. rewrite SET_COLUMNS_DEPTH_eq. cbn [set_columns_at].
  destruct (_ || _); [done|]. destruct (guac_terminal_buffer_get_row b row) as [idx|]; [|done].
  destruct (deref (rows b !! idx)) as [r| | |]; [|done..]. rewrite !run_bind_run.
  rewrite !(fit_to_range_ok _ 0) by (unfold GUAC_TERMINAL_MAX_COLUMNS; lia). rewrite !run_bind_run.
  replace (Z.max 0 (Z.min (Z.max 0 (Z.min s (GUAC_TERMINAL_MAX_COLUMNS - 1)))
    (GUAC_TERMINAL_MAX_COLUMNS - 1))) with (Z.max 0 (Z.min s (GUAC_TERMINAL_MAX_COLUMNS - 1)))
    by (unfold GUAC_TERMINAL_MAX_COLUMNS; lia). done.
Qed.

Lemma set_columns_clamp_end b row s e ch :
  guac_terminal_buffer_set_columns b row s e ch
  = guac_terminal_buffer_set_columns b row s (Z.max 0 e) ch.
Proof.
  unfold guac_terminal_buffer_set_columns. rewrite SET_COLUMNS_DEPTH_eq. cbn [set_columns_at].
  destruct (_ || _); [done|]. destruct (guac_terminal_buffer_get_row b row) as [idx|]; [|done].
  destruct (deref (rows b !! idx)) as [r| | |]; [|done..]. rewrite !run_bind_run.
  rewrite !(fit_to_range_ok _ 0) by (unfold GUAC_TERMINAL_MAX_COLUMNS; lia). rewrite !run_bind_run.
  replace (Z.max 0 (Z.min (Z.max 0 e) (GUAC_TERMINAL_MAX_COLUMNS - 1)))
    with (Z.max 0 (Z.min e (GUAC_TERMINAL_MAX_COLUMNS - 1)))
    by (unfold GUAC_TERMINAL_MAX_COLUMNS; lia). done.
Qed.

(** The columns may lie outside of the row, as long as they are in order. *)

Lemma set_columns_clamped_kept b row s e ch :
  buffer_ok b → is_continuation ch = false → 1 ≤ width ch → s ≤ Z.max 0 e + 1 →
  ∃ b', guac_terminal_buffer_set_columns b row s e ch = Run b' ∧ buffer_kept b b'.
Proof.
  intros Hb Hc Hw Hs. rewrite set_columns_clamp_end, set_columns_clamp_start.
  apply set_columns_kept; try done; unfold GUAC_TERMINAL_MAX_COLUMNS; lia.
Qed.

(** The columns of a row, none where the buffer has no such row. *)

Definition columns_in (b : guac_terminal_buffer) (row : Z) : Z :=
  match guac_terminal_buffer_get_row b row with
  | Some idx => default 0 (row_length <$> rows b !! idx)
  | None => 0
  end.

Lemma copy_columns_kept b row s e off :
  buffer_ok b → - GUAC_TERMINAL_MAX_ROWS < row < GUAC_TERMINAL_MAX_ROWS →
  0 ≤ e + off + 1 ≤ GUAC_TERMINAL_MAX_COLUMNS →
  Z.abs off < Z.max (e + off + 1) (columns_in b row) →
  ∃ b', guac_terminal_buffer_copy_columns b row s e off = Run b' ∧ buffer_kept b b'.
Proof.
  intros Hb Hrow He Hoff. unfold columns_in in Hoff.
  destruct (guac_terminal_buffer_get_row b row) as [idx|] eqn:Hg.
  2: { exists b. split; [|by apply buffer_kept_refl].
       unfold guac_terminal_buffer_copy_columns. by rewrite Hg. }
  destruct (get_row_lookup b row idx Hb Hg) as (r & Hr & Hro). rewrite Hr in Hoff. cbn in Hoff.
  destruct (copy_columns_ok b row idx r s e off) as (b' & cells & E & Hb' & _ & Hrep); try done.
  { rewrite length_padded, row_ok_length_cells by done. lia. }
  exists b'. split; [done|]. by eapply row_replaced_kept.
Qed.

Lemma set_cursor_kept b row column is_cursor :
  buffer_ok b →
  ∃ b', guac_terminal_buffer_set_cursor b row column is_cursor = Run b' ∧ buffer_kept b b'.
Proof.
  intros Hb. destruct (set_cursor_ok b row column is_cursor Hb) as (b' & E & Hb' & [->|H]).
  - exists b. split; [done|]. by apply buffer_kept_refl.
  - destruct H as (idx & r & c & _ & _ & _ & Hrep). exists b'. split; [done|].
    by eapply row_replaced_kept.
Qed.

Lemma set_wrapped_kept b row wrapped :
  buffer_ok b →
  ∃ b', guac_terminal_buffer_set_wrapped b row wrapped = Run b' ∧ buffer_kept b b'.
Proof.
  intros Hb. destruct (set_wrapped_ok b row wrapped Hb) as (b' & E & Hb' & ? & ?).
  exists b'. by split; [|split; [|split]].
Qed.

Lemma copy_rows_kept b start_row end_row offset :
  buffer_ok b →
  ∃ b', guac_terminal_buffer_copy_rows b start_row end_row offset = Run b' ∧ buffer_kept b b'.
Proof.
  intros Hb. destruct (copy_rows_ok b start_row end_row offset Hb) as (b' & E & Hb' & ? & ? & _).
  exists b'. by split; [|split; [|split]].
Qed.

Lemma scroll_up_kept b amount : buffer_ok b → buffer_kept b (guac_terminal_buffer_scroll_up b amount).
Proof.
  intros Hb. split; [by apply scroll_up_ok|]. unfold guac_terminal_buffer_scroll_up.
  zif; [done|]. cbn. zif; done.
Qed.

Lemma scroll_down_kept b amount :
  buffer_ok b → buffer_kept b (guac_terminal_buffer_scroll_down b amount).
Proof.
  intros Hb. split; [by apply scroll_down_ok|]. unfold guac_terminal_buffer_scroll_down.
  zif; done.
Qed.

Lemma reset_kept b : buffer_ok b → buffer_kept b (guac_terminal_buffer_reset b).
Proof. intros Hb. split; [by apply reset_ok|done]. Qed.

(** What a row has to show: its cells are there to be read. *)

Lemma get_columns_ok b row :
  buffer_ok b →
  guac_terminal_buffer_get_columns b row = Run None ∨
  ∃ cells wrapped n, guac_terminal_buffer_get_columns b row = Run (Some (cells, wrapped, n)) ∧
    0 ≤ n ≤ len cells ∧ n ≤ GUAC_TERMINAL_MAX_COLUMNS ∧ glyphs (take (Z.to_nat n) cells).
Proof.
  intros Hb. unfold guac_terminal_buffer_get_columns.
  destruct (guac_terminal_buffer_get_row b row) as [idx|] eqn:Hrow; [|by left].
  destruct (get_row_lookup b row idx Hb Hrow) as (r & Hr & Hro). rewrite Hr. right.
  do 3 eexists. split; [done|]. pose proof (row_ok_length_cells r Hro) as HL.
  pose proof (row_ok_length r Hro). unfold row_cells in HL. rewrite length_take in HL.
  split; [lia|]. split; [lia|]. apply Hro.
Qed.

(** ** The operations as steps *)

Inductive buffer_operation :=
| op_reset
| op_set_columns (row start_column end_column : Z) (character : guac_terminal_char)
| op_copy_columns (row start_column end_column offset : Z)
| op_copy_rows (start_row end_row offset : Z)
| op_scroll_up (amount : Z)
| op_scroll_down (amount : Z)
| op_set_cursor (row column : Z) (is_cursor : bool)
| op_set_wrapped (row : Z) (wrapped : bool).

Definition perform (op : buffer_operation) (b : guac_terminal_buffer) : run guac_terminal_buffer :=
  match op with
  | op_reset => Run (guac_terminal_buffer_reset b)
  | op_set_columns row s e ch => guac_terminal_buffer_set_columns b row s e ch
  | op_copy_columns row s e off => guac_terminal_buffer_copy_columns b row s e off
  | op_copy_rows s e off => guac_terminal_buffer_copy_rows b s e off
  | op_scroll_up amount => Run (guac_terminal_buffer_scroll_up b amount)
  | op_scroll_down amount => Run (guac_terminal_buffer_scroll_down b amount)
  | op_set_cursor row column is_cursor => guac_terminal_buffer_set_cursor b row column is_cursor
  | op_set_wrapped row wrapped => guac_terminal_buffer_set_wrapped b row wrapped
  end.

(** What an operation asks of its arguments.  Setting: a whole character, at least one column wide, and
    columns in order.  Copying columns: a row of the terminal, a destination that ends within the greatest
    width, and an offset that is smaller than the number of columns up to the end of the destination: else a row
    that is not longer than that aborts the process ([copy_columns_aborts]).  The other operations take any
    arguments. *)

Definition arguments_ok (op : buffer_operation) : Prop :=
  match op with
  | op_set_columns _ s e ch =>
      is_continuation ch = false ∧ 1 ≤ width ch ∧ s ≤ Z.max 0 e + 1
  | op_copy_columns row _ e off =>
      - GUAC_TERMINAL_MAX_ROWS < row < GUAC_TERMINAL_MAX_ROWS ∧
      0 ≤ e + off + 1 ≤ GUAC_TERMINAL_MAX_COLUMNS ∧ Z.abs off < e + off + 1
  | _ => True
  end.

#[export] Instance arguments_ok_dec op : Decision (arguments_ok op).
Proof. destruct op; cbn; apply _. Defined.

Fixpoint perform_all (ops : list buffer_operation) (b : guac_terminal_buffer)
    : run guac_terminal_buffer :=
  match ops with
  | [] => Run b
  | op :: ops => b ← perform op b; perform_all ops b
  end.

Lemma perform_kept op b :
  buffer_ok b → arguments_ok op → ∃ b', perform op b = Run b' ∧ buffer_kept b b'.
Proof.
  intros Hb Hop. destruct op; cbn in *; eauto using reset_kept, scroll_up_kept, scroll_down_kept,
    copy_rows_kept, set_cursor_kept, set_wrapped_kept.
  - destruct Hop as (? & ? & ?). by apply set_columns_clamped_kept.
  - destruct Hop as (? & ? & ?). apply copy_columns_kept; try done. lia.
Qed.

Lemma perform_all_kept ops b :
  buffer_ok b → Forall arguments_ok ops →
  ∃ b', perform_all ops b = Run b' ∧ buffer_kept b b'.
Proof.
  intros Hb Hops. revert b Hb. induction Hops as [|op ops Hop _ IH]; intros b Hb; cbn.
  - exists b. split; [done|]. by apply buffer_kept_refl.
  - destruct (perform_kept op b Hb Hop) as (b1 & -> & H1). rewrite run_bind_run.
    destruct (IH b1 (proj1 H1)) as (b2 & E & H2). exists b2. split; [done|].
    by eapply buffer_kept_trans.
Qed.

(** ** The properties *)

(** C35.  Setting the columns [s] to [e] of a row of a well-formed buffer to a character (as many
    times as it fits) writes the character's cells there, replaces by blanks the columns of the
    characters it cuts, extends the row with default characters if it is shorter, and touches
    no other row: the code, whose [set_columns] and [force_break] call each other, computes
    [overwrite].  The result is well formed, and the calls nest no deeper than the fuel of
    the model. *)
Theorem set_columns_spec b row idx r s e ch :
  buffer_ok b → guac_terminal_buffer_get_row b row = Some idx → rows b !! idx = Some r →
  - GUAC_TERMINAL_MAX_ROWS < row < GUAC_TERMINAL_MAX_ROWS →
  is_continuation ch = false → 1 ≤ width ch → (width ch | e - s + 1) →
  0 ≤ s ≤ e → e < GUAC_TERMINAL_MAX_COLUMNS →
  ∃ b', guac_terminal_buffer_set_columns b row s e ch = Run b' ∧ buffer_ok b' ∧
    row_replaced b b' row idx r
      (overwrite ch s e (padded (default_character b) (e + 1) (row_cells r))).
Proof.
  intros. unfold guac_terminal_buffer_set_columns. rewrite SET_COLUMNS_DEPTH_eq.
  apply set_columns_at_ok; try done; lia.
Qed.

(** Copying the columns [s] to [e] of a row by an offset moves them within the row, clipped
    to it, and replaces by blanks the characters that the move or its edges cut: the code
    computes [moved] up to the attributes of the blanks, and the result is well formed. *)
Theorem copy_columns_spec b row idx r s e off :
  buffer_ok b → guac_terminal_buffer_get_row b row = Some idx → rows b !! idx = Some r →
  - GUAC_TERMINAL_MAX_ROWS < row < GUAC_TERMINAL_MAX_ROWS →
  0 ≤ e + off + 1 ≤ GUAC_TERMINAL_MAX_COLUMNS →
  let L := padded (default_character b) (e + off + 1) (row_cells r) in
  Z.abs off < len L →
  ∃ b' cells, guac_terminal_buffer_copy_columns b row s e off = Run b' ∧ buffer_ok b' ∧
    Forall2 blank_sim (moved (copy_start s off (len L)) (copy_end s e off (len L)) off L) cells ∧
    row_replaced b b' row idx r cells.
Proof. apply copy_columns_ok. Qed.

(** C36.  A buffer is a ring of rows of whole characters, whatever is done to it: from a fresh
    buffer of at least one row, any sequence of operations whose arguments satisfy [arguments_ok] runs to
    its end without an abort or an access out of bounds, every row is a sequence of
    characters followed by their continuations within its allocation, and a row read back
    is made of initialised cells that form whole characters. *)
Theorem buffer_well_formed n d ops :
  1 ≤ n < 2 ^ 31 → is_glyph [d] → Forall arguments_ok ops →
  ∃ b, perform_all ops (guac_terminal_buffer_alloc n d) = Run b ∧ buffer_ok b ∧
    available b = n ∧
    ∀ row, guac_terminal_buffer_get_columns b row = Run None ∨
      ∃ cells wrapped k, guac_terminal_buffer_get_columns b row = Run (Some (cells, wrapped, k)) ∧
        0 ≤ k ≤ len cells ∧ k ≤ GUAC_TERMINAL_MAX_COLUMNS ∧ glyphs (take (Z.to_nat k) cells).
Proof.
  intros Hn Hd Hops.
  destruct (perform_all_kept ops _ (alloc_ok n d Hn Hd) Hops) as (b & E & Hb & Ha & _).
  exists b. split; [done|]. split; [done|]. split.
  - rewrite Ha. cbn. unfold u32. by rewrite Z.mod_small by lia.
  - intros row. by apply get_columns_ok.
Qed.

(** A terminal's default character, a wide character and a buffer of four rows. *)

Definition sample_attributes : guac_terminal_attributes :=
  mk_attributes false false false false false (mk_color 7 153 153 153) (mk_color 0 0 0 0).

Definition sample_default : guac_terminal_char := mk_char 0 sample_attributes 1.

Lemma sample_default_glyph : is_glyph [sample_default].
Proof. exists sample_default, []. repeat split; constructor. Qed.

Definition sample_wide : guac_terminal_char := mk_char 0x4E2D sample_attributes 2.

Definition sample_buffer : guac_terminal_buffer :=
  match perform_all [op_set_columns 0 0 3 sample_wide] (guac_terminal_buffer_alloc 4 sample_default)
  with Run b => b | _ => guac_terminal_buffer_alloc 4 sample_default end.

Lemma sample_buffer_ok : buffer_ok sample_buffer.
Proof.
  destruct (perform_all_kept [op_set_columns 0 0 3 sample_wide]
    (guac_terminal_buffer_alloc 4 sample_default)) as (b & E & Hb & _).
  - apply alloc_ok; [lia|]. apply sample_default_glyph.
  - repeat constructor; cbn; unfold GUAC_TERMINAL_MAX_COLUMNS; lia.
  - unfold sample_buffer. by rewrite E.
Qed.

Definition sample_row : guac_terminal_buffer_row :=
  default (mk_row [] 0 256 false) (rows sample_buffer !! 0%nat).

(** Writing a blank over column 1 of two wide characters blanks the first. *)

Lemma set_columns_spec_witness :
  ∃ b', guac_terminal_buffer_set_columns sample_buffer 0 1 1 sample_default = Run b' ∧ buffer_ok b' ∧
    row_replaced sample_buffer b' 0 0 sample_row
      (overwrite sample_default 1 1 (padded (default_character sample_buffer) 2 (row_cells sample_row))).
Proof.
  apply (set_columns_spec sample_buffer 0 0 sample_row 1 1 sample_default sample_buffer_ok);
    [by vm_compute|by vm_compute|by vm_compute|done|cbn; lia|exists 1; done|lia|by vm_compute].
Defined.

Lemma copy_columns_spec_witness :
  ∃ b' cells, guac_terminal_buffer_copy_columns sample_buffer 0 1 2 1 = Run b' ∧ buffer_ok b' ∧
    Forall2 blank_sim (moved (copy_start 1 1 4) (copy_end 1 2 1 4) 1
      (padded (default_character sample_buffer) 4 (row_cells sample_row))) cells ∧
    row_replaced sample_buffer b' 0 0 sample_row cells.
Proof.
  apply (copy_columns_spec sample_buffer 0 0 sample_row 1 2 1 sample_buffer_ok);
    [by vm_compute|by vm_compute|by vm_compute|by vm_compute|by vm_compute].
Defined.

(** Columns 50 to 79 of an empty row are not copied 50 columns to the left: the row is extended to the end of
    the destination, which leaves nothing of it to be copied, and [guac_terminal_fit_to_range] aborts. *)

Example copy_columns_aborts :
  guac_terminal_buffer_copy_columns (guac_terminal_buffer_alloc 4 sample_default) 0 50 79 (-50) = Abort.
Proof. vm_compute. reflexivity. Qed.

Lemma buffer_well_formed_witness :
  ∃ b, perform_all [op_set_columns 1 0 3 sample_wide; op_copy_columns 1 0 2 1; op_scroll_up 1;
                    op_copy_rows 0 2 1; op_set_cursor 0 5 true; op_set_columns (-1) 2 2 sample_default]
         (guac_terminal_buffer_alloc 4 sample_default) = Run b ∧ buffer_ok b ∧ available b = 4 ∧
    ∀ row, guac_terminal_buffer_get_columns b row = Run None ∨
      ∃ cells wrapped k, guac_terminal_buffer_get_columns b row = Run (Some (cells, wrapped, k)) ∧
        0 ≤ k ≤ len cells ∧ k ≤ GUAC_TERMINAL_MAX_COLUMNS ∧ glyphs (take (Z.to_nat k) cells).
Proof.
  apply (buffer_well_formed 4 sample_default); [lia| |].
  - apply sample_default_glyph.
  - by apply (bool_decide_unpack _); vm_compute.
Defined.
