(* ===== verification/TermScrollbar.v ===== *)
(** * The terminal's scrollbar (src/src/terminal/scrollbar.c)

    The geometry of the scrollbar, the values it takes and its mouse
    handling.  Its drawing is a list of the instructions sent for its two
    layers.  [guac_terminal_scrollbar_flush] calls the scroll handler of the
    terminal: what it does before and after that call is here, the call is in
    Terminal.v. *)

From S2P Require Import Prelude RecordUpdate Run TermTypes.
Local Open Scope Z_scope.

(** ** State *)

Definition GUAC_TERMINAL_SCROLLBAR_WIDTH : Z := 16.
Definition GUAC_TERMINAL_SCROLLBAR_PADDING : Z := 2.
Definition GUAC_TERMINAL_SCROLLBAR_MIN_HEIGHT : Z := 64.
Definition GUAC_CLIENT_MOUSE_LEFT : Z := 0x01.

Record guac_terminal_scrollbar_render_state := mk_render_state {
  handle_x : Z;
  handle_y : Z;
  handle_width : Z;
  handle_height : Z;
  container_x : Z;
  container_y : Z;
  container_width : Z;
  container_height : Z;
}.

Record guac_terminal_scrollbar := mk_scrollbar {
  parent_width : Z;
  parent_height : Z;
  sb_min : Z;
  sb_max : Z;
  visible_area : Z;
  sb_value : Z;
  render_state : guac_terminal_scrollbar_render_state;
  dragging_handle : bool;
  drag_offset_y : Z;
  drag_current_y : Z;
}.

#[export] Instance eta_scrollbar : Eta guac_terminal_scrollbar := λ s,
  mk_scrollbar (parent_width s) (parent_height s) (sb_min s) (sb_max s) (visible_area s)
    (sb_value s) (render_state s) (dragging_handle s) (drag_offset_y s) (drag_current_y s).

(** Instructions for the layers of the container and of the handle. *)

Inductive scrollbar_call :=
| container_move (x y : Z)
| container_draw (w h : Z)
| handle_move (x y : Z)
| handle_draw (w h : Z).

(** ** The code *)

Definition guac_terminal_scrollbar_parent_resized (scrollbar : guac_terminal_scrollbar)
    (width height area : Z) : guac_terminal_scrollbar :=
  scrollbar <| parent_width := width |> <| parent_height := height |> <| visible_area := area |>.

(** The fields of the drag are not initialized: they are read only once a drag has set them. *)

Definition guac_terminal_scrollbar_alloc (width height area offset_y current_y : Z)
    : guac_terminal_scrollbar :=
  guac_terminal_scrollbar_parent_resized
    (mk_scrollbar 0 0 0 0 0 0 (mk_render_state 0 0 0 0 0 0 0 0) false offset_y current_y)
    width height area.

Definition guac_terminal_scrollbar_set_bounds (scrollbar : guac_terminal_scrollbar) (min max : Z)
    : guac_terminal_scrollbar :=
  let value := sb_value scrollbar in
  scrollbar
    <| sb_value := if max <? value then max else if value <? min then min else value |>
    <| sb_min := min |> <| sb_max := max |>.

Definition guac_terminal_scrollbar_set_value (scrollbar : guac_terminal_scrollbar) (value : Z)
    : guac_terminal_scrollbar :=
  scrollbar <| sb_value :=
    if sb_max scrollbar <? value then sb_max scrollbar
    else if value <? sb_min scrollbar then sb_min scrollbar else value |>.

(** A division by zero leaves the behaviour C defines. *)

Definition quotient (a b : Z) : run Z := if b =? 0 then Fault else Run (Z.quot a b).

(** The state to render and the value of the scrollbar. *)

Definition calculate_state (scrollbar : guac_terminal_scrollbar)
    : run (guac_terminal_scrollbar_render_state * Z) :=
  let container_width := GUAC_TERMINAL_SCROLLBAR_WIDTH in
  let container_height := parent_height scrollbar in
  let container_x := parent_width scrollbar - container_width in
  let container_y := 0 in
  let handle_width := container_width - GUAC_TERMINAL_SCROLLBAR_PADDING * 2 in
  let max_handle_height := container_height - GUAC_TERMINAL_SCROLLBAR_PADDING * 2 in
  let scroll_delta :=
    if sb_min scrollbar <? sb_max scrollbar then i32 (sb_max scrollbar - sb_min scrollbar) else 0 in
  proportional_height ←
    quotient (i32 (max_handle_height * visible_area scrollbar))
      (i32 (scroll_delta + visible_area scrollbar));
  let handle_height :=
    if GUAC_TERMINAL_SCROLLBAR_MIN_HEIGHT <? proportional_height then proportional_height
    else GUAC_TERMINAL_SCROLLBAR_MIN_HEIGHT in
  let handle_height :=
    if max_handle_height <? handle_height then max_handle_height else handle_height in
  let handle_x := GUAC_TERMINAL_SCROLLBAR_PADDING in
  let min_handle_y := GUAC_TERMINAL_SCROLLBAR_PADDING in
  let max_handle_y := min_handle_y + max_handle_height - handle_height in
  position ←
    (if dragging_handle scrollbar then
       let dragged := i32 (drag_current_y scrollbar - drag_offset_y scrollbar) in
       let dragged :=
         if dragged <? min_handle_y then min_handle_y
         else if max_handle_y <? dragged then max_handle_y else dragged in
       if min_handle_y <? max_handle_y then
         moved ← quotient (i32 ((dragged - min_handle_y) * scroll_delta))
                   (max_handle_y - min_handle_y);
         Run (dragged, i32 (sb_min scrollbar + moved))
       else Run (dragged, sb_value scrollbar)
     else if 0 <? scroll_delta then
       moved ← quotient
         (i32 ((max_handle_y - min_handle_y) * i32 (sb_value scrollbar - sb_min scrollbar)))
         scroll_delta;
       Run (i32 (min_handle_y + moved), sb_value scrollbar)
     else Run (GUAC_TERMINAL_SCROLLBAR_PADDING, sb_value scrollbar));
  let '(handle_y, value) := position in
  Run (mk_render_state handle_x handle_y handle_width handle_height
         container_x container_y container_width container_height, value).

(** The instructions of a flush, for what differs from the state last rendered. *)

Definition scrollbar_changes (old_state new_state : guac_terminal_scrollbar_render_state)
    : list scrollbar_call :=
  (if negb (container_x old_state =? container_x new_state)
      || negb (container_y old_state =? container_y new_state)
   then [container_move (container_x new_state) (container_y new_state)] else [])
  ++ (if negb (container_width old_state =? container_width new_state)
         || negb (container_height old_state =? container_height new_state)
      then [container_draw (container_width new_state) (container_height new_state)] else [])
  ++ (if negb (handle_x old_state =? handle_x new_state)
         || negb (handle_y old_state =? handle_y new_state)
      then [handle_move (handle_x new_state) (handle_y new_state)] else [])
  ++ (if negb (handle_width old_state =? handle_width new_state)
         || negb (handle_height old_state =? handle_height new_state)
      then [handle_draw (handle_width new_state) (handle_height new_state)] else []).

(** The instructions that show the scrollbar to a new user. *)

Definition guac_terminal_scrollbar_dup (scrollbar : guac_terminal_scrollbar) : list scrollbar_call :=
  let state := render_state scrollbar in
  [container_draw (container_width state) (container_height state);
   container_move (container_x state) (container_y state);
   handle_draw (handle_width state) (handle_height state);
   handle_move (handle_x state) (handle_y state)].

(** The result tells whether the scrollbar has handled the event. *)

Definition guac_terminal_scrollbar_handle_mouse (scrollbar : guac_terminal_scrollbar) (x y mask : Z)
    : bool * guac_terminal_scrollbar :=
  let state := render_state scrollbar in
  let parent_left := container_x state in
  let parent_top := container_y state in
  let parent_right := i32 (parent_left + container_width state) in
  let parent_bottom := i32 (parent_top + container_height state) in
  let handle_left := i32 (parent_left + handle_x state) in
  let handle_top := i32 (parent_top + handle_y state) in
  let handle_right := i32 (handle_left + handle_width state) in
  let handle_bottom := i32 (handle_top + handle_height state) in
  if dragging_handle scrollbar then
    (true,
     if negb (Z.land mask GUAC_CLIENT_MOUSE_LEFT =? 0)
     then scrollbar <| drag_current_y := y |> else scrollbar <| dragging_handle := false |>)
  else if (mask =? GUAC_CLIENT_MOUSE_LEFT) && (handle_left <=? x) && (x <? handle_right)
          && (handle_top <=? y) && (y <? handle_bottom)
  then
    (true,
     scrollbar <| dragging_handle := true |> <| drag_offset_y := i32 (y - handle_top) |>
               <| drag_current_y := y |>)
  else
    ((parent_left <=? x) && (x <? parent_right) && (parent_top <=? y) && (y <? parent_bottom),
     scrollbar).

(** ** Properties *)

(** The handle stays within the container and the value within the bounds, whatever the mouse does:
    sizes are those of a screen, with room for the padding. *)

Lemma quotient_run a b : b <> 0 → quotient a b = Run (Z.quot a b).
Proof. intros H. unfold quotient. by rewrite (proj2 (Z.eqb_neq b 0) H). Qed.

Lemma quot_range a b m : 0 <= a <= m * b -> 0 < b -> 0 <= Z.quot a b <= m.
Proof.
  intros Ha Hb. rewrite Z.quot_div_nonneg by lia. split; [apply Z.div_pos; lia|].
  apply Z.div_le_upper_bound; lia.
Qed.

Definition scrollbar_ok (s : guac_terminal_scrollbar) : Prop :=
  4 <= parent_height s < 2 ^ 15 ∧ 0 <= parent_width s < 2 ^ 15 ∧
  1 <= visible_area s <= 1024 ∧ - 2 ^ 15 < sb_min s ∧ sb_max s < 2 ^ 15 ∧
  (sb_min s <= sb_max s → sb_min s <= sb_value s <= sb_max s) ∧
  is_i32 (drag_current_y s - drag_offset_y s).

Definition handle_inside (st : guac_terminal_scrollbar_render_state) : Prop :=
  GUAC_TERMINAL_SCROLLBAR_PADDING <= handle_y st ∧
  handle_y st + handle_height st <= container_height st - GUAC_TERMINAL_SCROLLBAR_PADDING.

(** For a scrollbar whose bounds are in order and whose sizes are those of a terminal, the
    state computed for its rendering keeps the handle inside the container and the value within
    the bounds, dragged or not, without overflow or division by zero. *)
Theorem calculate_state_ok s :
  scrollbar_ok s → sb_min s <= sb_max s →
  ∃ st v, calculate_state s = Run (st, v) ∧ handle_inside st ∧ sb_min s <= v <= sb_max s.
Proof.
  intros (Hh & Hw & Hv & Hmin & Hmax & Hval & Hd) Hle. specialize (Hval Hle).
  unfold calculate_state, GUAC_TERMINAL_SCROLLBAR_PADDING, GUAC_TERMINAL_SCROLLBAR_WIDTH,
    GUAC_TERMINAL_SCROLLBAR_MIN_HEIGHT, handle_inside.
  set (mh := parent_height s - 2 * 2).
  set (delta := if sb_min s <? sb_max s then _ else 0).
  assert (Ed : delta = sb_max s - sb_min s).
  { unfold delta. zif; [|lia]. apply i32_small. unfold is_i32. lia. }
  rewrite Ed in *. clear delta Ed. set (delta := sb_max s - sb_min s) in *.
  rewrite (i32_small (mh * visible_area s)) by (unfold is_i32, mh; nia).
  rewrite (i32_small (delta + visible_area s)) by (unfold is_i32, delta; lia).
  rewrite (quotient_run _ (delta + visible_area s)), run_bind_run by lia.
  set (p := Z.quot _ _).
  set (hh := if mh <? (if 64 <? p then p else 64) then mh else if 64 <? p then p else 64).
  assert (Hhh : 0 <= hh <= mh) by (unfold hh; repeat zif; unfold mh in *; lia).
  clearbody hh p.
  destruct (dragging_handle s).
  - rewrite (i32_small (_ - _)) by done. set (dr := if _ <? 2 then 2 else _).
    assert (Hdr : 2 <= dr <= 2 + mh - hh) by (unfold dr; repeat zif; lia).
    clearbody dr.
    zif.
    + rewrite (i32_small ((dr - 2) * delta)) by (unfold is_i32, delta, mh in *; nia).
      rewrite quotient_run, !run_bind_run by lia.
      pose proof (quot_range ((dr - 2) * delta) (2 + mh - hh - 2) delta ltac:(unfold delta; nia)
        ltac:(lia)) as Hq.
      rewrite i32_small by (unfold is_i32, delta in *; lia).
      do 2 eexists. split; [done|]. unfold handle_inside, GUAC_TERMINAL_SCROLLBAR_PADDING. cbn.
      split; [|unfold delta in *; lia]. unfold mh in *. lia.
    + rewrite run_bind_run. do 2 eexists. split; [done|].
      unfold handle_inside, GUAC_TERMINAL_SCROLLBAR_PADDING. cbn. unfold mh in *. lia.
  - zif.
    + rewrite (i32_small (sb_value s - sb_min s)) by (unfold is_i32; lia).
      rewrite (i32_small (_ * _)) by (unfold is_i32, delta, mh in *; nia).
      rewrite quotient_run, !run_bind_run by lia.
      pose proof (quot_range ((2 + mh - hh - 2) * (sb_value s - sb_min s)) delta (mh - hh)
        ltac:(unfold delta; nia) ltac:(lia)) as Hq.
      rewrite i32_small by (unfold is_i32, mh in *; lia).
      do 2 eexists. split; [done|].
      unfold handle_inside, GUAC_TERMINAL_SCROLLBAR_PADDING. cbn. unfold mh in *. lia.
    + rewrite run_bind_run. do 2 eexists. split; [done|].
      unfold handle_inside, GUAC_TERMINAL_SCROLLBAR_PADDING. cbn. unfold mh in *. lia.
Qed.

(** A scrollbar dragged past its end. *)

Definition sample_scrollbar : guac_terminal_scrollbar :=
  mk_scrollbar 640 480 (-100) 0 24 (-50) (mk_render_state 0 0 0 0 0 0 0 0) true 10 700.

Lemma calculate_state_ok_witness :
  ∃ st v, calculate_state sample_scrollbar = Run (st, v) ∧ handle_inside st ∧ -100 <= v <= 0.
Proof.
  apply (calculate_state_ok sample_scrollbar); [|cbn; lia].
  unfold scrollbar_ok, sample_scrollbar, is_i32; cbn; lia.
Defined.
