(* ===== verification/TermDisplay.v ===== *)
(** * The terminal's display (src/src/terminal/display.c)

    The grid of pending operations between the emulator and what the users
    see: operations are set, copied and resized, and a flush turns them into
    drawing calls.  The calls, to the common surface and to the protocol
    writer, are the list [calls]; fonts and glyphs are Pango's and Cairo's. *)

From S2P Require Import Prelude RecordUpdate Mem Run TermTypes TermPalette TermBuffer.
Local Open Scope Z_scope.

(** ** State *)

Inductive guac_terminal_operation_type :=
| GUAC_CHAR_NOP
| GUAC_CHAR_COPY
| GUAC_CHAR_SET.

#[export] Instance operation_type_eq_dec : EqDecision guac_terminal_operation_type.
Proof. solve_decision. Defined.

Record guac_terminal_operation := mk_operation {
  type : guac_terminal_operation_type;
  character : guac_terminal_char;
  row : Z;
  column : Z;
}.

#[export] Instance eta_operation : Eta guac_terminal_operation :=
  λ o, mk_operation (type o) (character o) (row o) (column o).

(** Calls to the surface of the display, in pixels, and instructions for its selection layer. *)

Inductive display_call :=
| surface_copy (sx sy w h dx dy : Z)
| surface_set (x y w h red green blue alpha : Z)
| surface_draw (x y w h : Z) (text : list byte) (foreground background : guac_terminal_color)
| surface_flush
| surface_resize (w h : Z)
| select_size (w h : Z)
| select_rect (x y w h : Z)
| select_cfill (red green blue alpha : Z).

Record guac_terminal_display := mk_display {
  operations : list guac_terminal_operation;
  disp_width : Z;
  disp_height : Z;
  margin : Z;
  char_width : Z;
  char_height : Z;
  palette : list guac_terminal_color;
  default_palette : option (list guac_terminal_color);
  default_foreground : guac_terminal_color;
  default_background : guac_terminal_color;
  glyph_foreground : guac_terminal_color;
  glyph_background : guac_terminal_color;
  disp_text_selected : bool;
  disp_selection_start_row : Z;
  disp_selection_start_column : Z;
  disp_selection_end_row : Z;
  disp_selection_end_column : Z;
  unflushed_set : bool;
  calls : list display_call;
}.

#[export] Instance eta_display : Eta guac_terminal_display := λ d,
  mk_display (operations d) (disp_width d) (disp_height d) (margin d) (char_width d)
    (char_height d) (palette d) (default_palette d) (default_foreground d) (default_background d)
    (glyph_foreground d) (glyph_background d) (disp_text_selected d)
    (disp_selection_start_row d) (disp_selection_start_column d) (disp_selection_end_row d)
    (disp_selection_end_column d) (unflushed_set d) (calls d).

Definition call (c : display_call) (d : guac_terminal_display) : guac_terminal_display :=
  d <| calls := calls d ++ [c] |>.

(** The size of [guac_terminal_operation] on the platforms the project is built for. *)

Definition sizeof_operation : Z := 40.

(** ** Colours *)

Definition guac_terminal_display_reset_palette (display : guac_terminal_display)
    : guac_terminal_display :=
  match default_palette display with
  | Some default_palette => display <| palette := default_palette |>
  | None => display <| palette := GUAC_TERMINAL_INITIAL_PALETTE |>
  end.

(** A colour is copied to [palette]; the value returned tells whether the index is one of it. *)

Definition guac_terminal_display_assign_color (display : guac_terminal_display) (index : Z)
    (color : guac_terminal_color) : Z * guac_terminal_display :=
  if (index <? 0) || (255 <? index) then (1, display)
  else
    (0, display <| palette :=
          alter (λ entry, mk_color (palette_index entry) (red color) (green color) (blue color))
            (Z.to_nat index) (palette display) |>).

(** [None]: the lookup fails and [*color] is left as it was. *)

Definition guac_terminal_display_lookup_color (display : guac_terminal_display) (index : Z)
    : option guac_terminal_color :=
  if index =? GUAC_TERMINAL_COLOR_FOREGROUND then Some (default_foreground display)
  else if index =? GUAC_TERMINAL_COLOR_BACKGROUND then Some (default_background display)
  else if (index <? 0) || (255 <? index) then None
  else palette display !! Z.to_nat index.

(** ** Changes to the grid *)

(** [index] names the operation at a row and column: [operations + row * width + column]. *)

Definition mark_copy (r c index : Z) (ops : list guac_terminal_operation)
    : run (list guac_terminal_operation) :=
  op ← cell_at ops index;
  if decide (type op = GUAC_CHAR_NOP)
  then store ops index (op <| type := GUAC_CHAR_COPY |> <| row := r |> <| column := c |>)
  else Run ops.

Definition guac_terminal_display_copy_columns (display : guac_terminal_display)
    (row start_column end_column offset : Z) : run guac_terminal_display :=
  if (row <? 0) || (disp_height display <=? row) then Run display
  else
    columns ←
      (if 0 <=? offset then
         start_column ← guac_terminal_fit_to_range start_column 0
           (i32 (disp_width display - offset - 1));
         end_column ← guac_terminal_fit_to_range end_column start_column
           (i32 (disp_width display - offset - 1));
         Run (start_column, end_column)
       else
         start_column ← guac_terminal_fit_to_range start_column (- offset)
           (disp_width display - 1);
         end_column ← guac_terminal_fit_to_range end_column start_column
           (disp_width display - 1);
         Run (start_column, end_column));
    let '(start_column, end_column) := columns in
    row_offset ← or_abort (PRIV_guac_mem_ckd_mul_or_die [u64 row; u64 (disp_width display)]);
    src_offset ← or_abort (PRIV_guac_mem_ckd_add_or_die [row_offset; u64 start_column]);
    dst_offset ←
      (if 0 <=? offset then or_abort (PRIV_guac_mem_ckd_add_or_die [src_offset; u64 offset])
       else or_abort (PRIV_guac_mem_ckd_sub_or_die [src_offset; u64 (- offset)]));
    _ ← or_abort (PRIV_guac_mem_ckd_mul_or_die
          [sizeof_operation; u64 (end_column - start_column + 1)]);
    ops ← memmove (operations display) dst_offset src_offset (end_column - start_column + 1);
    ops ← for_range start_column end_column
            (λ column ops, mark_copy row column (dst_offset + (column - start_column)) ops) ops;
    Run (display <| operations := ops |>).

(** ** Flushing

    Flushing copies and flushing clears scan the grid alike: an operation that has to be
    performed begins a rectangle of operations that can be performed at once.  [test r c op] tells
    whether [op], [r] rows and [c] columns from the corner of the rectangle, belongs to it. *)

Section Rectangles.

Context (test : Z → Z → guac_terminal_operation → bool).

(** The first of [n] columns, from [c] columns off the corner, that does not belong. *)

Fixpoint rect_columns (ops : list guac_terminal_operation) (n : nat) (index r c : Z) : run Z :=
  match n with
  | O => Run c
  | S n' =>
      op ← cell_at ops index;
      if test r c op then rect_columns ops n' (index + 1) r (c + 1) else Run c
  end.

(** The rectangle grows by the rows, at most [n], that have as many columns as its first;
    [rect_row] is the next.  The results are its last column and row. *)

Fixpoint rect_bounds (ops : list guac_terminal_operation) (width : Z) (start_row col : Z) (n : nat)
    (index rect_row detected_right detected_bottom : Z) : run (Z * Z) :=
  match n with
  | O => Run (detected_right, detected_bottom)
  | S n' =>
      c ← rect_columns ops (Z.to_nat (width - col)) index (rect_row - start_row) 0;
      let rect_col := col + c in
      if rect_col - 1 <? detected_right then Run (detected_right, detected_bottom)
      else
        rect_bounds ops width start_row col n' (index + width) (rect_row + 1)
          (if detected_right =? -1 then rect_col - 1 else detected_right) rect_row
  end.

(** The width and height of the rectangle. *)

Definition rect_size (ops : list guac_terminal_operation) (width height start_row col index : Z)
    : run (Z * Z) :=
  bounds ← rect_bounds ops width start_row col (Z.to_nat (height - start_row)) index start_row
    (-1) start_row;
  let '(detected_right, detected_bottom) := bounds in
  Run (detected_right - col + 1, detected_bottom - start_row + 1).

Definition mark_nop (index r c : Z) (ops : list guac_terminal_operation)
    : run (list guac_terminal_operation) :=
  op ← cell_at ops index;
  if test r c op then store ops index (op <| type := GUAC_CHAR_NOP |>) else Run ops.

Definition rect_mark (ops : list guac_terminal_operation) (width index rect_width rect_height : Z)
    : run (list guac_terminal_operation) :=
  for_range 0 (rect_height - 1) (λ r ops,
    for_range 0 (rect_width - 1) (λ c ops, mark_nop (index + r * width + c) r c ops) ops) ops.

End Rectangles.

(** A scan of the grid: [visit] is called with the row, the column and the index of each operation. *)

Definition for_each_operation (visit : Z → Z → Z → guac_terminal_display → run guac_terminal_display)
    (display : guac_terminal_display) : run guac_terminal_display :=
  for_range 0 (disp_height display - 1) (λ row d,
    for_range 0 (disp_width display - 1) (λ col d, visit row col (row * disp_width display + col) d) d)
    display.

Definition is_copy_of (current : guac_terminal_operation) (r c : Z) (op : guac_terminal_operation)
    : bool :=
  bool_decide (type op = GUAC_CHAR_COPY) && (row op =? row current + r)
  && (column op =? column current + c).

Definition flush_copy_at (r c index : Z) (display : guac_terminal_display)
    : run guac_terminal_display :=
  current ← cell_at (operations display) index;
  if decide (type current = GUAC_CHAR_COPY) then
    size ← rect_size (is_copy_of current) (operations display) (disp_width display)
      (disp_height display) r c index;
    let '(rect_width, rect_height) := size in
    ops ← rect_mark (is_copy_of current) (operations display) (disp_width display) index
      rect_width rect_height;
    Run (call (surface_copy
          (i32 (column current * char_width display)) (i32 (row current * char_height display))
          (i32 (rect_width * char_width display)) (i32 (rect_height * char_height display))
          (i32 (c * char_width display)) (i32 (r * char_height display)))
        (display <| operations := ops |>))
  else Run display.

Definition __guac_terminal_display_flush_copy := for_each_operation flush_copy_at.

(** The colour a cell without a glyph is filled with. *)

Definition fill_color (c : guac_terminal_char) : guac_terminal_color :=
  if negb (Bool.eqb (reverse (attributes c)) (cursor (attributes c)))
  then foreground (attributes c) else background (attributes c).

Definition is_clear (op : guac_terminal_operation) : bool :=
  bool_decide (type op = GUAC_CHAR_SET) && negb (guac_terminal_has_glyph (value (character op))).

Definition is_clear_to (color : guac_terminal_color) (r c : Z) (op : guac_terminal_operation) : bool :=
  is_clear op && (guac_terminal_colorcmp (fill_color (character op)) color =? 0).

Definition flush_clear_at (r c index : Z) (display : guac_terminal_display)
    : run guac_terminal_display :=
  current ← cell_at (operations display) index;
  if is_clear current then
    let color := fill_color (character current) in
    let color :=
      default color (guac_terminal_display_lookup_color display (palette_index color)) in
    size ← rect_size (is_clear_to color) (operations display) (disp_width display)
      (disp_height display) r c index;
    let '(rect_width, rect_height) := size in
    ops ← rect_mark (is_clear_to color) (operations display) (disp_width display) index
      rect_width rect_height;
    Run (call (surface_set
          (i32 (c * char_width display)) (i32 (r * char_height display))
          (i32 (rect_width * char_width display)) (i32 (rect_height * char_height display))
          (red color) (green color) (blue color) 0xFF)
        (display <| operations := ops |>))
  else Run display.

Definition __guac_terminal_display_flush_clear := for_each_operation flush_clear_at.

Definition half (c : guac_terminal_color) : guac_terminal_color :=
  mk_color (palette_index c) (red c / 2) (green c / 2) (blue c / 2).

Definition __guac_terminal_set_colors (display : guac_terminal_display)
    (attributes : guac_terminal_attributes) : guac_terminal_display :=
  let swap := negb (Bool.eqb (reverse attributes) (cursor attributes)) in
  let fg := if swap then background attributes else foreground attributes in
  let bg := if swap then foreground attributes else background attributes in
  let fg :=
    if bold attributes && negb (half_bright attributes)
       && (GUAC_TERMINAL_FIRST_DARK <=? palette_index fg)
       && (palette_index fg <=? GUAC_TERMINAL_LAST_DARK)
    then default fg (palette display !! Z.to_nat (palette_index fg + GUAC_TERMINAL_INTENSE_OFFSET))
    else fg in
  let fg := default fg (guac_terminal_display_lookup_color display (palette_index fg)) in
  let bg := default bg (guac_terminal_display_lookup_color display (palette_index bg)) in
  let fg := if half_bright attributes && negb (bold attributes) then half fg else fg in
  display <| glyph_foreground := fg |> <| glyph_background := bg |>.

Section Characters.

Context `{Wcwidth}.

(** Drawing a glyph with Pango and Cairo is a call. *)

Definition __guac_terminal_set (display : guac_terminal_display) (row col codepoint : Z)
    : guac_terminal_display :=
  let width := columns_of codepoint in
  if width =? 0 then display
  else
    call (surface_draw
        (i32 (char_width display * col)) (i32 (char_height display * row))
        (i32 (width * char_width display)) (char_height display)
        (guac_terminal_encode_utf8 codepoint)
        (glyph_foreground display) (glyph_background display)) display.

Definition flush_set_at (r c index : Z) (display : guac_terminal_display)
    : run guac_terminal_display :=
  current ← cell_at (operations display) index;
  if decide (type current = GUAC_CHAR_SET) then
    let codepoint := value (character current) in
    let codepoint := if guac_terminal_has_glyph codepoint then codepoint else GUAC_CHAR_SPACE in
    let display := __guac_terminal_set_colors display (attributes (character current)) in
    let display := __guac_terminal_set display r c codepoint in
    ops ← store (operations display) index (current <| type := GUAC_CHAR_NOP |>);
    Run (display <| operations := ops |>)
  else Run display.

Definition __guac_terminal_display_flush_set (display : guac_terminal_display)
    : run guac_terminal_display :=
  display ← for_each_operation flush_set_at display;
  Run (display <| unflushed_set := false |>).

Definition guac_terminal_display_flush_operations (display : guac_terminal_display)
    : run guac_terminal_display :=
  display ← __guac_terminal_display_flush_copy display;
  display ← __guac_terminal_display_flush_clear display;
  __guac_terminal_display_flush_set display.

Definition guac_terminal_display_flush (display : guac_terminal_display)
    : run guac_terminal_display :=
  display ← guac_terminal_display_flush_operations display;
  Run (call surface_flush display).

(** ** Changes to the grid that may flush it *)

Definition guac_terminal_display_copy_rows (display : guac_terminal_display)
    (start_row end_row offset : Z) : run guac_terminal_display :=
  rows ←
    (if 0 <=? offset then
       start_row ← guac_terminal_fit_to_range start_row 0 (i32 (disp_height display - offset - 1));
       end_row ← guac_terminal_fit_to_range end_row start_row
         (i32 (disp_height display - offset - 1));
       Run (start_row, end_row)
     else
       start_row ← guac_terminal_fit_to_range start_row (- offset) (disp_height display - 1);
       end_row ← guac_terminal_fit_to_range end_row start_row (disp_height display - 1);
       Run (start_row, end_row));
  let '(start_row, end_row) := rows in
  dst_start_row ←
    (if 0 <=? offset then or_abort (PRIV_guac_mem_ckd_add_or_die [u64 start_row; u64 offset])
     else or_abort (PRIV_guac_mem_ckd_sub_or_die [u64 start_row; u64 (- offset)]));
  src_offset ← or_abort (PRIV_guac_mem_ckd_mul_or_die [u64 start_row; u64 (disp_width display)]);
  dst_offset ← or_abort (PRIV_guac_mem_ckd_mul_or_die [dst_start_row; u64 (disp_width display)]);
  display ←
    (if unflushed_set display && (0 <? offset)
     then guac_terminal_display_flush_operations display else Run display);
  _ ← or_abort (PRIV_guac_mem_ckd_mul_or_die
        [sizeof_operation; u64 (disp_width display); u64 (end_row - start_row + 1)]);
  ops ← memmove (operations display) dst_offset src_offset
    (disp_width display * (end_row - start_row + 1));
  ops ← for_range start_row end_row (λ row ops,
          for_range 0 (disp_width display - 1) (λ col ops,
            mark_copy row col (dst_offset + (row - start_row) * disp_width display + col) ops)
          ops) ops;
  Run (display <| operations := ops |>).

(** The loop of [guac_terminal_display_set_columns] over the columns from [col] on, [index] being
    that of the current operation. *)

Fixpoint display_set_loop (n : nat) (col end_column index : Z) (character' : guac_terminal_char)
    (display : guac_terminal_display) : run guac_terminal_display :=
  if col <=? end_column then
    match n with
    | O => Spin
    | S n' =>
        current ← cell_at (operations display) index;
        display ←
          (if decide (type current = GUAC_CHAR_COPY)
           then guac_terminal_display_flush_operations display else Run display);
        current ← cell_at (operations display) index;
        ops ← store (operations display) index
          (current <| type := GUAC_CHAR_SET |> <| character := character' |>);
        display_set_loop n' (col + width character') end_column (index + width character')
          character' (display <| operations := ops |>)
    end
  else Run display.

Definition guac_terminal_display_set_columns (display : guac_terminal_display)
    (row start_column end_column : Z) (character : guac_terminal_char)
    : run guac_terminal_display :=
  if width character =? 0 then Run display
  else if (row <? 0) || (disp_height display <=? row) then Run display
  else
    start_column ← guac_terminal_fit_to_range start_column 0 (disp_width display - 1);
    end_column ← guac_terminal_fit_to_range end_column 0 (disp_width display - 1);
    row_offset ← or_abort (PRIV_guac_mem_ckd_mul_or_die [u64 row; u64 (disp_width display)]);
    start_offset ← or_abort (PRIV_guac_mem_ckd_add_or_die [row_offset; u64 start_column]);
    display ← display_set_loop (S (List.length (operations display))) start_column end_column
      start_offset character display;
    Run (if (0 <? row) && (row <? disp_height display - 1)
         then display <| unflushed_set := true |> else display).

End Characters.

(** [fresh] is what newly allocated memory holds. *)

Definition resize_operation (fill : guac_terminal_char) (old_width old_height : Z)
    (fresh : guac_terminal_operation) (x y : Z) : guac_terminal_operation :=
  if (x <? old_width) && (y <? old_height)
  then fresh <| type := GUAC_CHAR_NOP |>
  else fresh <| type := GUAC_CHAR_SET |> <| character := fill |>.

Definition guac_terminal_display_resize (fresh : nat → guac_terminal_operation)
    (display : guac_terminal_display) (width height : Z) : run guac_terminal_display :=
  if (width =? disp_width display) && (height =? disp_height display) then Run display
  else
    _ ← GUAC_ASSERT ((0 <=? width) && (width <=? GUAC_TERMINAL_MAX_COLUMNS));
    _ ← GUAC_ASSERT ((0 <=? height) && (height <=? GUAC_TERMINAL_MAX_ROWS));
    let fill :=
      mk_char 0 (mk_attributes false false false false false (default_background display)
                   (default_background display)) 1 in
    let ops :=
      (λ i, resize_operation fill (disp_width display) (disp_height display) (fresh i)
              (Z.of_nat i mod width) (Z.of_nat i / width)) <$> seq 0 (Z.to_nat (width * height)) in
    let display :=
      display <| operations := ops |> <| disp_width := width |> <| disp_height := height |> in
    let pixels_wide := i32 (char_width display * width) in
    let pixels_high := i32 (char_height display * height) in
    Run (call (select_size pixels_wide pixels_high)
           (call (surface_resize pixels_wide pixels_high) display)).

(** ** Selection *)

Definition guac_terminal_display_select (display : guac_terminal_display)
    (start_row start_col end_row end_col : Z) : guac_terminal_display :=
  if disp_text_selected display
     && (disp_selection_start_row display =? start_row)
     && (disp_selection_start_column display =? start_col)
     && (disp_selection_end_row display =? end_row)
     && (disp_selection_end_column display =? end_col)
  then display
  else
    let display :=
      display <| disp_text_selected := true |>
        <| disp_selection_start_row := start_row |>
        <| disp_selection_start_column := start_col |>
        <| disp_selection_end_row := end_row |>
        <| disp_selection_end_column := end_col |> in
    let cw := char_width display in
    let ch := char_height display in
    let display :=
      if start_row =? end_row then
        let '(start_col, end_col) :=
          if end_col <? start_col then (end_col, start_col) else (start_col, end_col) in
        call (select_rect (i32 (start_col * cw)) (i32 (start_row * ch))
                (i32 ((end_col - start_col + 1) * cw)) ch) display
      else
        let '(start_row, start_col, end_row, end_col) :=
          if end_row <? start_row then (end_row, end_col, start_row, start_col)
          else (start_row, start_col, end_row, end_col) in
        let display :=
          call (select_rect (i32 (start_col * cw)) (i32 (start_row * ch))
                  (i32 (disp_width display * cw)) ch) display in
        let display :=
          call (select_rect 0 (i32 ((start_row + 1) * ch)) (i32 (disp_width display * cw))
                  (i32 ((end_row - start_row - 1) * ch))) display in
        call (select_rect 0 (i32 (end_row * ch)) (i32 ((end_col + 1) * cw)) ch) display in
    call (select_cfill 0x00 0x80 0xFF 0x60) display.

Definition guac_terminal_display_clear_select (display : guac_terminal_display)
    : guac_terminal_display :=
  if negb (disp_text_selected display) then display
  else
    (call (select_cfill 0x00 0x00 0x00 0x00) (call (select_rect 0 0 1 1) display))
      <| disp_text_selected := false |>.

(** ** Fonts

    [metrics] is what Pango knows of the font: the width of a digit, the descent and the ascent, in
    its units; [None] where it has no such font or no metrics. *)

Definition PANGO_SCALE : Z := 1024.

Definition div_int (a b : Z) : run Z := if b =? 0 then Fault else Run (Z.quot a b).

Definition guac_terminal_display_set_font (fresh : nat → guac_terminal_operation)
    (metrics : option (Z * Z * Z)) (display : guac_terminal_display)
    : run (Z * guac_terminal_display) :=
  match metrics with
  | None => Run (1, display)
  | Some (digit_width, descent, ascent) =>
      let pixel_width := i32 (disp_width display * char_width display) in
      let pixel_height := i32 (disp_height display * char_height display) in
      let display :=
        display <| char_width := Z.quot digit_width PANGO_SCALE |>
                <| char_height := Z.quot (i32 (descent + ascent)) PANGO_SCALE |> in
      new_width ← div_int pixel_width (char_width display);
      new_height ← div_int pixel_height (char_height display);
      display ←
        (if negb (new_width =? disp_width display) || negb (new_height =? disp_height display)
         then guac_terminal_display_resize fresh display new_width new_height
         else Run display);
      Run (0, display)
  end.

(** A display is allocated with no grid and its font then loaded; [None] where that fails. The
    margin, computed in floating point from the resolution, is given. *)

Definition guac_terminal_display_alloc (fresh : nat → guac_terminal_operation)
    (margin : Z) (metrics : option (Z * Z * Z)) (foreground background : guac_terminal_color)
    (palette : list guac_terminal_color) : run (option guac_terminal_display) :=
  r ← guac_terminal_display_set_font fresh metrics
        (mk_display [] 0 0 margin 0 0 [] (Some palette) foreground background foreground background
           false 0 0 0 0 false []);
  let '(failed, display) := r in
  Run (if failed =? 0 then Some display else None).
