(* ===== verification/Terminal.v ===== *)
(** * The terminal emulator (src/src/terminal/terminal.c, select.c)

    The state of a terminal and the operations the handlers of its escape
    sequences are made of: changes to the text, scrolling, resizing, tabs,
    the pipe stream, the selection.  What the terminal sends, to the program
    it runs and to the users, is the list [events]. *)

From S2P Require Import Prelude RecordUpdate Unicode Mem Run TermTypes TermBuffer TermDisplay TermScrollbar.
Local Open Scope Z_scope.

(** ** State *)

(** The function [char_handler] points to. *)

Inductive guac_terminal_char_handler :=
| guac_terminal_echo
| guac_terminal_escape
| guac_terminal_g0_charset
| guac_terminal_g1_charset
| guac_terminal_csi
| guac_terminal_set_directory
| guac_terminal_download
| guac_terminal_open_pipe_stream
| guac_terminal_close_pipe_stream
| guac_terminal_set_scrollback
| guac_terminal_window_title
| guac_terminal_xterm_palette
| guac_terminal_osc
| guac_terminal_ctrl_func
| guac_terminal_apc.

#[export] Instance handler_eq_dec : EqDecision guac_terminal_char_handler.
Proof. solve_decision. Defined.

(** The static variables of the handlers, which all terminals of the process share. An array with
    its length is the list of what has been stored. *)

Record handler_statics := mk_statics {
  bytes_remaining : Z;
  codepoint : Z;
  argc : Z;
  argv : list Z;
  private_mode_character : Z;
  argv_buffer : list byte;
  directory_filename : list byte;
  download_filename : list byte;
  pipe_param : list byte;
  pipe_flags : Z;
  scrollback_param : list byte;
  title : list byte;
  read_color_spec : bool;
  color_index : Z;
  color_spec : list byte;
  operation : Z;
  escaping : bool;
}.

#[export] Instance eta_statics : Eta handler_statics := λ s,
  mk_statics (bytes_remaining s) (codepoint s) (argc s) (argv s) (private_mode_character s)
    (argv_buffer s) (directory_filename s) (download_filename s) (pipe_param s) (pipe_flags s)
    (scrollback_param s) (title s) (read_color_spec s) (color_index s) (color_spec s)
    (operation s) (escaping s).

Definition initial_statics : handler_statics :=
  mk_statics 0 0 0 (replicate 16 0) 0 [] [] [] [] 0 [] [] false 0 [] 0 false.

Inductive terminal_event :=
| stdin_write (data : list byte)
| pipe_open (stream : Z) (name : list byte)
| pipe_blob (stream : Z) (data : list byte)
| pipe_end (stream : Z)
| name_sent (name : list byte)
| upload_path (filename : list byte)
| file_download (filename : list byte)
| typescript_byte (c : byte)
| default_layer_painted (w h : Z) (background : guac_terminal_color)
| scrollbar_drawn (changes : list scrollbar_call)
| clipboard_reset
| clipboard_append (data : list byte)
| clipboard_send.

Record guac_terminal := mk_terminal {
  started : bool;
  upload_path_handler : bool;
  file_download_handler : bool;
  input_stream : bool;
  pipe_stream : option Z;
  pipe_stream_flags : Z;
  pipe_buffer : list byte;
  typescript : bool;
  scrollbar : guac_terminal_scrollbar;
  scroll_offset : Z;
  max_scrollback : Z;
  requested_scrollback : Z;
  outer_width : Z;
  outer_height : Z;
  pixel_width : Z;
  pixel_height : Z;
  term_width : Z;
  term_height : Z;
  scroll_start : Z;
  scroll_end : Z;
  cursor_row : Z;
  cursor_col : Z;
  cursor_visible : bool;
  visible_cursor_row : Z;
  visible_cursor_col : Z;
  saved_cursor_row : Z;
  saved_cursor_col : Z;
  current_attributes : guac_terminal_attributes;
  default_char : guac_terminal_char;
  char_handler : guac_terminal_char_handler;
  display : guac_terminal_display;
  normal_buffer : guac_terminal_buffer;
  alternate_buffer : guac_terminal_buffer;
  on_alternate : bool;
  tab_interval : Z;
  custom_tabs : list Z;
  char_mapping : list (option (list Z));
  active_char_set : nat;
  text_selected : bool;
  selection_committed : bool;
  selection_start_row : Z;
  selection_start_column : Z;
  selection_start_width : Z;
  selection_end_row : Z;
  selection_end_column : Z;
  selection_end_width : Z;
  application_cursor_keys : bool;
  automatic_carriage_return : bool;
  insert_mode : bool;
  disable_copy : bool;
  client_streams : list Z;
  statics : handler_statics;
  events : list terminal_event;
}.

#[export] Instance eta_terminal : Eta guac_terminal := λ t,
  mk_terminal (started t) (upload_path_handler t) (file_download_handler t) (input_stream t)
    (pipe_stream t) (pipe_stream_flags t) (pipe_buffer t) (typescript t) (scrollbar t)
    (scroll_offset t) (max_scrollback t) (requested_scrollback t) (outer_width t) (outer_height t)
    (pixel_width t) (pixel_height t) (term_width t) (term_height t) (scroll_start t) (scroll_end t)
    (cursor_row t) (cursor_col t) (cursor_visible t) (visible_cursor_row t) (visible_cursor_col t)
    (saved_cursor_row t) (saved_cursor_col t) (current_attributes t) (default_char t)
    (char_handler t) (display t) (normal_buffer t) (alternate_buffer t) (on_alternate t)
    (tab_interval t) (custom_tabs t) (char_mapping t) (active_char_set t) (text_selected t)
    (selection_committed t) (selection_start_row t) (selection_start_column t)
    (selection_start_width t) (selection_end_row t) (selection_end_column t)
    (selection_end_width t) (application_cursor_keys t) (automatic_carriage_return t)
    (insert_mode t) (disable_copy t) (client_streams t) (statics t) (events t).

Definition emit (e : terminal_event) (t : guac_terminal) : guac_terminal :=
  t <| events := events t ++ [e] |>.

(** [current_buffer] points to one of the two buffers. *)

Definition current_buffer (t : guac_terminal) : guac_terminal_buffer :=
  if on_alternate t then alternate_buffer t else normal_buffer t.

Definition set_current_buffer (b : guac_terminal_buffer) (t : guac_terminal) : guac_terminal :=
  if on_alternate t then t <| alternate_buffer := b |> else t <| normal_buffer := b |>.

Definition update_display (f : guac_terminal_display → run guac_terminal_display)
    (t : guac_terminal) : run guac_terminal :=
  d ← f (display t); Run (t <| display := d |>).

Definition update_buffer (f : guac_terminal_buffer → run guac_terminal_buffer)
    (t : guac_terminal) : run guac_terminal :=
  b ← f (current_buffer t); Run (set_current_buffer b t).

(** ** Selection (select.c) *)

Definition guac_terminal_select_normalized_range (t : guac_terminal) : Z * Z * Z * Z :=
  if (selection_start_row t <? selection_end_row t)
     || ((selection_start_row t =? selection_end_row t)
         && (selection_start_column t <? selection_end_column t))
  then (selection_start_row t, selection_start_column t,
        selection_end_row t, selection_end_column t + selection_end_width t - 1)
  else (selection_end_row t, selection_end_column t,
        selection_start_row t, selection_start_column t + selection_start_width t - 1).

Definition guac_terminal_select_contains (t : guac_terminal)
    (start_row start_column end_row end_column : Z) : bool :=
  if negb (text_selected t) then false
  else
    let '(sel_start_row, sel_start_column, sel_end_row, sel_end_column) :=
      guac_terminal_select_normalized_range t in
    if sel_end_row <? start_row then false
    else if (start_row =? sel_end_row) && (sel_end_column <? start_column) then false
    else if end_row <? sel_start_row then false
    else if (end_row =? sel_start_row) && (end_column <? sel_start_column) then false
    else true.

Definition guac_terminal_select_touch (t : guac_terminal)
    (start_row start_column end_row end_column : Z) : guac_terminal :=
  if negb (selection_committed t) then t
  else if guac_terminal_select_contains t start_row start_column end_row end_column
  then t <| text_selected := false |> <| selection_committed := false |>
  else t.

Definition guac_terminal_select_redraw (t : guac_terminal) : guac_terminal :=
  if text_selected t then
    let start_row := selection_start_row t + scroll_offset t in
    let start_column := selection_start_column t in
    let end_row := selection_end_row t + scroll_offset t in
    let end_column := selection_end_column t in
    let '(start_column, end_column) :=
      if (end_row <? start_row) || ((start_row =? end_row) && (end_column <? start_column))
      then (start_column + (selection_start_width t - 1), end_column)
      else (start_column, end_column + (selection_end_width t - 1)) in
    t <| display := guac_terminal_display_select (display t) start_row start_column end_row end_column |>
  else t <| display := guac_terminal_display_clear_select (display t) |>.

(** The column of the character that covers a column, and its width. *)

Definition guac_terminal_find_char (t : guac_terminal) (row column : Z) : run (Z * Z) :=
  columns ← guac_terminal_buffer_get_columns (current_buffer t) row;
  match columns with
  | Some (cells, _, length) =>
      if (0 <=? column) && (column <? length) then
        start ← find_start cells (Z.to_nat column);
        start_char ← cell_at cells (Z.of_nat start);
        if is_continuation start_char then Run (column, 1)
        else Run (Z.of_nat start, width start_char)
      else Run (column, 1)
  | None => Run (column, 1)
  end.

Definition guac_terminal_select_start (t : guac_terminal) (row column : Z) : run guac_terminal :=
  found ← guac_terminal_find_char t row column;
  let '(column, width) := found in
  Run (t <| selection_start_row := row |> <| selection_end_row := row |>
         <| selection_start_column := column |> <| selection_end_column := column |>
         <| selection_start_width := width |> <| selection_end_width := width |>
         <| text_selected := false |> <| selection_committed := false |>).

Definition guac_terminal_select_update (t : guac_terminal) (row column : Z) : run guac_terminal :=
  if negb (row =? selection_end_row t) || (column <=? selection_end_column t)
     || (selection_end_column t + selection_end_width t <=? column)
  then
    found ← guac_terminal_find_char t row column;
    let '(column, width) := found in
    Run (t <| selection_end_row := row |> <| selection_end_column := column |>
           <| selection_end_width := width |> <| text_selected := true |>)
  else Run t.

Definition guac_terminal_select_resume (t : guac_terminal) (row column : Z) : run guac_terminal :=
  if negb (text_selected t) then Run t
  else
    let '(sel_start_row, sel_start_column, sel_end_row, sel_end_column) :=
      guac_terminal_select_normalized_range t in
    let t :=
      if (sel_start_row <? row) || ((row =? sel_start_row) && (sel_start_column <? column))
      then t <| selection_start_row := sel_start_row |>
             <| selection_start_column := sel_start_column |>
      else t <| selection_start_row := sel_end_row |>
             <| selection_start_column := sel_end_column |> in
    guac_terminal_select_update (t <| selection_committed := false |>) row column.

(** The last column of a stretch that holds a character, from [eol] down to [start]. *)

Fixpoint find_eol (cells : list guac_terminal_char) (n : nat) (eol : Z) : run Z :=
  match n with
  | O => Run eol
  | S n' =>
      c ← cell_at cells eol;
      if negb (value c =? 0) then Run eol else find_eol cells n' (eol - 1)
  end.

(** The characters of columns [i] to [end] as UTF-8: what is written of them to a buffer with
    [remaining] bytes, and the first column that did not fit. *)

Fixpoint convert_chunk (cells : list guac_terminal_char) (n : nat) (i eol remaining : Z)
    : run (list byte * Z) :=
  match n with
  | O => Run ([], i)
  | S n' =>
      c ← cell_at cells i;
      let codepoint := value c in
      let codepoint := if (codepoint =? 0) && (i <? eol) then GUAC_CHAR_SPACE else codepoint in
      if (codepoint =? 0) || (codepoint =? GUAC_CHAR_CONTINUATION)
      then convert_chunk cells n' (i + 1) eol remaining
      else
        let '(bytes, stored) := guac_utf8_write codepoint remaining in
        if bytes =? 0 then Run ([], i)
        else
          rest ← convert_chunk cells n' (i + 1) eol (remaining - bytes);
          Run (stored ++ fst rest, snd rest)
  end.

(** The chunks of columns [i] to [last], each of them at least one column. *)

Fixpoint convert_chunks (cells : list guac_terminal_char) (fuel : nat) (i last eol : Z)
    : run (list (list byte)) :=
  if last <? i then Run []
  else
    match fuel with
    | O => Spin
    | S fuel' =>
        chunk ← convert_chunk cells (Z.to_nat (last - i + 1)) i eol 1024;
        chunks ← convert_chunks cells fuel' (snd chunk) last eol;
        Run (fst chunk :: chunks)
    end.

(** What is appended to the clipboard, append by append. *)

Definition guac_terminal_clipboard_append_characters (cells : list guac_terminal_char)
    (length start last : Z) : run (list (list byte)) :=
  if (start <? 0) || (last <? 0) || (length <=? start) then Run []
  else
    let last := if length <=? last then length - 1 else last in
    eol ← find_eol cells (Z.to_nat (last - start)) last;
    convert_chunks cells (Z.to_nat (last - start + 1)) start last eol.

(** One row of the loop of [guac_terminal_select_end]. *)

Definition select_end_row (start_row start_col end_row end_col : Z) (row : Z)
    (s : guac_terminal * bool) : run (guac_terminal * bool) :=
  let '(t, last_row_was_wrapped) := s in
  let t := if last_row_was_wrapped then t else emit (clipboard_append [x0a]) t in
  columns ← guac_terminal_buffer_get_columns (current_buffer t) row;
  match columns with
  | None => Run (t, last_row_was_wrapped)
  | Some (cells, is_wrapped, length) =>
      chunks ← guac_terminal_clipboard_append_characters cells length
        (if row =? start_row then start_col else 0)
        (if row =? end_row then end_col else length - 1);
      Run (foldl (λ t chunk, emit (clipboard_append chunk) t) t chunks, is_wrapped)
  end.

Definition guac_terminal_select_end (t : guac_terminal) : run guac_terminal :=
  if negb (text_selected t) then Run t
  else
    let t := emit clipboard_reset (t <| selection_committed := true |>) in
    let '(start_row, start_col, end_row, end_col) := guac_terminal_select_normalized_range t in
    s ← for_range start_row end_row (select_end_row start_row start_col end_row end_col) (t, true);
    let t := fst s in
    Run (if disable_copy t then t else emit clipboard_send t).

(** ** Changes to the text *)

Section Text.

Context `{Wcwidth}.

Definition __guac_terminal_set_columns (t : guac_terminal)
    (row start_column end_column : Z) (character : guac_terminal_char) : run guac_terminal :=
  t ← update_display (λ d, guac_terminal_display_set_columns d (row + scroll_offset t)
        start_column end_column character) t;
  t ← update_buffer (λ b, guac_terminal_buffer_set_columns b row start_column end_column character) t;
  Run (guac_terminal_select_touch t row start_column row end_column).

Definition guac_terminal_set_columns (t : guac_terminal)
    (row start_column end_column : Z) (character : guac_terminal_char) : run guac_terminal :=
  t ← __guac_terminal_set_columns t row start_column end_column character;
  if (row =? visible_cursor_row t) && (start_column <=? visible_cursor_col t)
     && (visible_cursor_col t <=? end_column)
  then
    __guac_terminal_set_columns t row (visible_cursor_col t) (visible_cursor_col t)
      (set_cursor_attribute true character)
  else Run t.

Definition guac_terminal_effective_buffer_length (t : guac_terminal) : Z :=
  let scrollback := requested_scrollback t in
  let scrollback :=
    if max_scrollback t <? scrollback then max_scrollback t
    else if scrollback <? term_height t then term_height t else scrollback in
  i32 (guac_terminal_buffer_effective_length (current_buffer t) scrollback).

Definition guac_terminal_get_available_scroll (t : guac_terminal) : Z :=
  i32 (guac_terminal_effective_buffer_length t - term_height t).

Definition guac_terminal_get_rows (t : guac_terminal) : Z := term_height t.

Definition guac_terminal_get_columns (t : guac_terminal) : Z := term_width t.

(** [guac_terminal_scrollbar_set_bounds(term->scrollbar, -available, 0)] *)

Definition update_scrollbar_bounds (t : guac_terminal) : guac_terminal :=
  t <| scrollbar := guac_terminal_scrollbar_set_bounds (scrollbar t)
         (i32 (- guac_terminal_get_available_scroll t)) 0 |>.

Definition update_scrollbar_value (t : guac_terminal) : guac_terminal :=
  t <| scrollbar := guac_terminal_scrollbar_set_value (scrollbar t) (i32 (- scroll_offset t)) |>.

(** The parts of a reset: the character handler and the cursor, the scrolling, the modes. *)

Definition reset_cursor (t : guac_terminal) : guac_terminal :=
  t <| char_handler := guac_terminal_echo |> <| active_char_set := O |>
    <| char_mapping := [None; None] |>
    <| cursor_row := 0 |> <| visible_cursor_row := 0 |> <| saved_cursor_row := 0 |>
    <| cursor_col := 0 |> <| visible_cursor_col := 0 |> <| saved_cursor_col := 0 |>
    <| cursor_visible := true |>.

Definition reset_scroll (t : guac_terminal) : guac_terminal :=
  let t :=
    t <| scroll_start := 0 |> <| scroll_end := term_height t - 1 |> <| scroll_offset := 0 |> in
  let t := t <| scrollbar := guac_terminal_scrollbar_set_bounds (scrollbar t) 0 0 |> in
  update_scrollbar_value t.

Definition reset_modes (t : guac_terminal) : guac_terminal :=
  t <| text_selected := false |> <| selection_committed := false |>
    <| application_cursor_keys := false |> <| automatic_carriage_return := false |>
    <| insert_mode := false |>
    <| tab_interval := 8 |> <| custom_tabs := replicate 16 0 |>
    <| current_attributes := attributes (default_char t) |>.

Definition guac_terminal_reset (t : guac_terminal) : run guac_terminal :=
  let t := reset_cursor t in
  let t := set_current_buffer (guac_terminal_buffer_reset (current_buffer t)) t in
  let t := reset_modes (reset_scroll t) in
  t ← update_display (λ d, Run (guac_terminal_display_reset_palette d)) t;
  for_range 0 (term_height t - 1) (λ row t,
    guac_terminal_set_columns t row 0 (term_width t - 1) (default_char t)) t.

Definition guac_terminal_set (t : guac_terminal) (row col codepoint : Z) : run guac_terminal :=
  let width := columns_of codepoint in
  if width =? 0 then Run t
  else
    guac_terminal_set_columns t row col (i32 (col + width - 1))
      (mk_char codepoint (current_attributes t) width).

(** The cell under a cursor, drawn if the row has such a column. *)

Definition draw_cursor_cell (t : guac_terminal) (row column : Z) : run guac_terminal :=
  columns ← guac_terminal_buffer_get_columns (current_buffer t) row;
  match columns with
  | Some (cells, _, length) =>
      if column <? length then
        c ← cell_at cells column;
        update_display (λ d, guac_terminal_display_set_columns d (row + scroll_offset t)
          column column c) t
      else Run t
  | None =>
      (* a length of zero, [characters] unset *)
      if column <? 0 then Fault else Run t
  end.

Definition guac_terminal_commit_cursor (t : guac_terminal) : run guac_terminal :=
  if cursor_visible t && (visible_cursor_row t =? cursor_row t)
     && (visible_cursor_col t =? cursor_col t)
  then Run t
  else
    t ←
      (if negb (visible_cursor_row t =? -1) && negb (visible_cursor_col t =? -1) then
         t ← update_buffer (λ b, guac_terminal_buffer_set_cursor b (visible_cursor_row t)
               (visible_cursor_col t) false) t;
         draw_cursor_cell t (visible_cursor_row t) (visible_cursor_col t)
       else Run t);
    if cursor_visible t then
      t ← update_buffer (λ b, guac_terminal_buffer_set_cursor b (cursor_row t) (cursor_col t) true) t;
      t ← draw_cursor_cell t (cursor_row t) (cursor_col t);
      Run (t <| visible_cursor_row := cursor_row t |> <| visible_cursor_col := cursor_col t |>)
    else Run (t <| visible_cursor_row := -1 |> <| visible_cursor_col := -1 |>).

Definition guac_terminal_clear_columns (t : guac_terminal) (row start_col end_col : Z)
    : run guac_terminal :=
  guac_terminal_set_columns t row start_col end_col (mk_char 0 (current_attributes t) 1).

Definition guac_terminal_clear_range (t : guac_terminal)
    (start_row start_col end_row end_col : Z) : run guac_terminal :=
  s ←
    (if 0 <? start_col then
       t ← guac_terminal_clear_columns t start_row start_col (term_width t - 1);
       Run (t, start_row + 1)
     else Run (t, start_row));
  let '(t, start_row) := s in
  s ←
    (if end_col <? term_width t - 1 then
       t ← guac_terminal_clear_columns t end_row 0 end_col;
       Run (t, end_row - 1)
     else Run (t, end_row));
  let '(t, end_row) := s in
  if start_row <=? end_row then
    for_range start_row end_row (λ row t,
      guac_terminal_clear_columns t row 0 (term_width t - 1)) t
  else Run t.

Definition guac_terminal_copy_columns (t : guac_terminal)
    (row start_column end_column offset : Z) : run guac_terminal :=
  t ← update_display (λ d, guac_terminal_display_copy_columns d (row + scroll_offset t)
        start_column end_column offset) t;
  t ← update_buffer (λ b, guac_terminal_buffer_copy_columns b row start_column end_column offset) t;
  let t := guac_terminal_select_touch t row start_column row end_column in
  Run (if (row =? visible_cursor_row t) && (start_column <=? visible_cursor_col t)
          && (visible_cursor_col t <=? end_column)
       then t <| visible_cursor_col := visible_cursor_col t + offset |> else t).

Definition guac_terminal_copy_rows (t : guac_terminal) (start_row end_row offset : Z)
    : run guac_terminal :=
  t ← update_display (λ d, guac_terminal_display_copy_rows d (i32 (start_row + scroll_offset t))
        (i32 (end_row + scroll_offset t)) offset) t;
  t ← update_buffer (λ b, guac_terminal_buffer_copy_rows b start_row end_row offset) t;
  let t := guac_terminal_select_touch t start_row 0 end_row (term_width t) in
  Run (if (start_row <=? visible_cursor_row t) && (visible_cursor_row t <=? end_row)
       then t <| visible_cursor_row := visible_cursor_row t + offset |> else t).

Definition guac_terminal_scroll_up (t : guac_terminal) (start_row end_row amount : Z)
    : run guac_terminal :=
  if amount <=? 0 then Run t
  else
    let region := i32 (end_row - start_row + 1) in
    let amount := if region <=? amount then region else amount in
    t ←
      (if (start_row =? 0) && (end_row =? term_height t - 1) then
         t ← update_display (λ d, guac_terminal_display_copy_rows d (i32 (start_row + amount)) end_row
               (- amount)) t;
         t ← update_buffer (λ b, Run (guac_terminal_buffer_scroll_up b amount)) t;
         let t := update_scrollbar_bounds t in
         let t :=
           if (start_row <=? visible_cursor_row t) && (visible_cursor_row t <=? end_row)
           then t <| visible_cursor_row := visible_cursor_row t - amount |> else t in
         Run (if text_selected t
              then t <| selection_start_row := selection_start_row t - amount |>
                     <| selection_end_row := selection_end_row t - amount |>
              else t)
       else guac_terminal_copy_rows t (i32 (start_row + amount)) end_row (- amount));
    guac_terminal_clear_range t (i32 (end_row - amount + 1)) 0 end_row (term_width t - 1).

Definition guac_terminal_scroll_down (t : guac_terminal) (start_row end_row amount : Z)
    : run guac_terminal :=
  t ← guac_terminal_copy_rows t start_row (i32 (end_row - amount)) amount;
  guac_terminal_clear_range t start_row 0 (i32 (start_row + amount - 1)) (term_width t - 1).

(** ** The scroll-back *)

Definition guac_terminal_is_visible (t : guac_terminal) (c : guac_terminal_char) : bool :=
  if is_continuation c then false
  else if guac_terminal_has_glyph (value c) then true
  else negb (guac_terminal_colorcmp (fill_color c)
               (background (attributes (default_char t))) =? 0).

(** A row of the display drawn from columns [first] to [last] of a row of the buffer: cleared,
    then what is visible. *)

Definition draw_row (t : guac_terminal) (source dest_row first last clear_end : Z) : run guac_terminal :=
  columns ← guac_terminal_buffer_get_columns (current_buffer t) source;
  t ← update_display (λ d, guac_terminal_display_set_columns d dest_row first clear_end
        (default_char t)) t;
  match columns with
  | None => Run t
  | Some (cells, _, length) =>
      for_range first (Z.min last (length - 1)) (λ column t,
        c ← cell_at cells column;
        if guac_terminal_is_visible t c
        then update_display (λ d, guac_terminal_display_set_columns d dest_row column column c) t
        else Run t) t
  end.

(** Rows [start_row] to [end_row] of the buffer drawn from row [dest_row] of the display on. *)

Definition draw_rows (t : guac_terminal) (start_row end_row dest_row : Z) : run guac_terminal :=
  for_range start_row end_row (λ row t,
    draw_row t row (dest_row + (row - start_row)) 0 INT_MAX (disp_width (display t))) t.

Definition guac_terminal_scroll_display_down (t : guac_terminal) (scroll_amount : Z)
    : run guac_terminal :=
  let scroll_amount :=
    if scroll_offset t <? scroll_amount then scroll_offset t else scroll_amount in
  if scroll_amount <=? 0 then Run t
  else
    t ←
      (if scroll_amount <? term_height t then
         update_display (λ d, guac_terminal_display_copy_rows d scroll_amount
           (term_height t - 1) (- scroll_amount)) t
       else Run t);
    let t := update_scrollbar_value (t <| scroll_offset := scroll_offset t - scroll_amount |>) in
    let end_row := term_height t - scroll_offset t - 1 in
    let start_row := end_row - scroll_amount + 1 in
    let dest_row := term_height t - scroll_amount in
    draw_rows t start_row end_row dest_row.

Definition guac_terminal_scroll_display_up (t : guac_terminal) (scroll_amount : Z)
    : run guac_terminal :=
  let available_scroll := guac_terminal_get_available_scroll t in
  let scroll_amount :=
    if available_scroll <? i32 (scroll_offset t + scroll_amount)
    then i32 (available_scroll - scroll_offset t) else scroll_amount in
  if scroll_amount <=? 0 then Run t
  else
    t ←
      (if scroll_amount <? term_height t then
         update_display (λ d, guac_terminal_display_copy_rows d 0
           (term_height t - scroll_amount - 1) scroll_amount) t
       else Run t);
    let t := update_scrollbar_value (t <| scroll_offset := scroll_offset t + scroll_amount |>) in
    let start_row := - scroll_offset t in
    let end_row := start_row + scroll_amount - 1 in
    draw_rows t start_row end_row 0.

(** The scrollbar's scroll handler. *)

Definition guac_terminal_scroll_handler (t : guac_terminal) (value : Z) : run guac_terminal :=
  let delta := i32 (- value - scroll_offset t) in
  t ←
    (if delta <? 0 then guac_terminal_scroll_display_down t (i32 (- delta))
     else if 0 <? delta then guac_terminal_scroll_display_up t delta
     else Run t);
  Run (t <| scrollbar := guac_terminal_scrollbar_set_value (scrollbar t) value |>).

Definition guac_terminal_scrollbar_flush (t : guac_terminal) : run guac_terminal :=
  state ← calculate_state (scrollbar t);
  let '(new_state, new_value) := state in
  t ←
    (if negb (new_value =? sb_value (scrollbar t)) then guac_terminal_scroll_handler t new_value
     else Run t);
  let t := emit (scrollbar_drawn (scrollbar_changes (render_state (scrollbar t)) new_state)) t in
  Run (t <| scrollbar := (scrollbar t) <| render_state := new_state |> |>).

(** ** Size *)

Definition guac_terminal_repaint_default_layer (t : guac_terminal) : guac_terminal :=
  emit (default_layer_painted (pixel_width t) (pixel_height t) (default_background (display t))) t.

Definition __guac_terminal_redraw_rect (t : guac_terminal)
    (start_row start_col end_row end_col : Z) : run guac_terminal :=
  for_range start_row end_row (λ row t,
    draw_row t (row - scroll_offset t) row start_col end_col end_col) t.

Definition guac_terminal_redraw_default_layer (t : guac_terminal) : run guac_terminal :=
  __guac_terminal_redraw_rect (guac_terminal_repaint_default_layer t) 0 0
    (term_height t - 1) (term_width t - 1).

(** The rows and the columns that fit in an area of pixels. *)

Definition calculate_rows_and_columns (t : guac_terminal) (height width : Z) : run (Z * Z) :=
  let margin := margin (display t) in
  let available_width := width - GUAC_TERMINAL_SCROLLBAR_WIDTH - 2 * margin in
  let available_width := if available_width <? 0 then 0 else available_width in
  let available_height := height - 2 * margin in
  let available_height := if available_height <? 0 then 0 else available_height in
  rows ← div_int available_height (char_height (display t));
  columns ← div_int available_width (char_width (display t));
  Run (if GUAC_TERMINAL_MAX_ROWS <? rows then GUAC_TERMINAL_MAX_ROWS else rows,
       if GUAC_TERMINAL_MAX_COLUMNS <? columns then GUAC_TERMINAL_MAX_COLUMNS else columns).

(** The area of pixels, reduced where the maximum of rows or columns is reached. *)

Definition calculate_height_and_width (t : guac_terminal) (rows columns height width : Z) : Z * Z :=
  let margin := margin (display t) in
  (if rows =? GUAC_TERMINAL_MAX_ROWS
   then GUAC_TERMINAL_MAX_ROWS * char_height (display t) + 2 * margin else height,
   if columns =? GUAC_TERMINAL_MAX_COLUMNS
   then GUAC_TERMINAL_MAX_COLUMNS * char_width (display t) + GUAC_TERMINAL_SCROLLBAR_WIDTH
        + 2 * margin else width).

(** The parts of [__guac_terminal_resize]: rows that no longer fit are shifted up, rows of the
    scroll-back are shifted into view. *)

Definition resize_shift_up (t : guac_terminal) (width height : Z) : run guac_terminal :=
  let used_height := guac_terminal_effective_buffer_length t in
  let used_height := if term_height t <? used_height then term_height t else used_height in
  let shift_amount := used_height - height in
  if 0 <? shift_amount then
    t ← update_display (λ d, guac_terminal_display_copy_rows d shift_amount
          (disp_height d - 1) (- shift_amount)) t;
    t ← update_buffer (λ b, Run (guac_terminal_buffer_scroll_up b shift_amount)) t;
    let t := t <| cursor_row := cursor_row t - shift_amount |> in
    let t :=
      if negb (visible_cursor_row t =? -1)
      then t <| visible_cursor_row := visible_cursor_row t - shift_amount |> else t in
    __guac_terminal_redraw_rect t (height - shift_amount) 0 (height - 1) (width - 1)
  else Run t.

Definition resize_shift_down (t : guac_terminal) (width height : Z) : run guac_terminal :=
  let available_scroll := guac_terminal_get_available_scroll t in
  if 0 <? available_scroll then
    let shift_amount := height - term_height t in
    let shift_amount :=
      if available_scroll <? shift_amount then available_scroll else shift_amount in
    t ← update_buffer (λ b, Run (guac_terminal_buffer_scroll_down b shift_amount)) t;
    let t := t <| cursor_row := cursor_row t + shift_amount |> in
    let t :=
      if negb (visible_cursor_row t =? -1)
      then t <| visible_cursor_row := visible_cursor_row t + shift_amount |> else t in
    if shift_amount <=? scroll_offset t then
      let t := update_scrollbar_value (t <| scroll_offset := scroll_offset t - shift_amount |>) in
      __guac_terminal_redraw_rect t (term_height t) 0 (term_height t + shift_amount - 1) (width - 1)
    else
      t ← __guac_terminal_redraw_rect t (term_height t) 0
            (term_height t + scroll_offset t - 1) (width - 1);
      let shift_amount := shift_amount - scroll_offset t in
      let t := update_scrollbar_value (t <| scroll_offset := 0 |>) in
      if 0 <? shift_amount then
        t ← update_display (λ d, guac_terminal_display_copy_rows d 0
              (disp_height d - shift_amount - 1) shift_amount) t;
        __guac_terminal_redraw_rect t 0 0 (shift_amount - 1) (width - 1)
      else Run t
  else Run t.

Definition __guac_terminal_resize (fresh : nat → guac_terminal_operation) (t : guac_terminal)
    (width height : Z) : run guac_terminal :=
  t ← (if height <? term_height t then resize_shift_up t width height else Run t);
  t ← update_display guac_terminal_display_flush t;
  t ← update_display (λ d, guac_terminal_display_resize fresh d width height) t;
  t ←
    (if term_width t <? width
     then __guac_terminal_redraw_rect t 0 (term_width t - 1) (height - 1) (width - 1)
     else Run t);
  t ← (if term_height t <? height then resize_shift_down t width height else Run t);
  let t := if cursor_row t <? 0 then t <| cursor_row := 0 |> else t in
  let t := if height <=? cursor_row t then t <| cursor_row := height - 1 |> else t in
  let t := if cursor_col t <? 0 then t <| cursor_col := 0 |> else t in
  let t := if width <=? cursor_col t then t <| cursor_col := width - 1 |> else t in
  Run (t <| term_width := width |> <| term_height := height |>).

Definition guac_terminal_resize (fresh : nat → guac_terminal_operation) (t : guac_terminal)
    (width height : Z) : run guac_terminal :=
  size ← calculate_rows_and_columns t height width;
  let '(rows, columns) := size in
  let '(adjusted_height, adjusted_width) :=
    calculate_height_and_width t rows columns height width in
  let t :=
    t <| outer_height := height |> <| outer_width := width |>
      <| pixel_height := adjusted_height |> <| pixel_width := adjusted_width |> in
  let t := guac_terminal_repaint_default_layer t in
  t ←
    (if negb (columns =? term_width t) || negb (rows =? term_height t) then
       t ← __guac_terminal_resize fresh t columns rows;
       Run (t <| scroll_end := rows - 1 |>)
     else Run t);
  let t := t <| scrollbar := guac_terminal_scrollbar_parent_resized (scrollbar t)
                  (outer_width t) (outer_height t) (term_height t) |> in
  Run (update_scrollbar_bounds t).

(** ** The pipe stream *)

Definition GUAC_TERMINAL_PIPE_INTERPRET_OUTPUT : Z := 1.
Definition GUAC_TERMINAL_PIPE_AUTOFLUSH : Z := 2.
Definition PIPE_BUFFER_SIZE : nat := Z.to_nat 6048.

Definition guac_terminal_pipe_stream_flush (t : guac_terminal) : guac_terminal :=
  match pipe_stream t, pipe_buffer t with
  | Some stream, _ :: _ => (emit (pipe_blob stream (pipe_buffer t)) t) <| pipe_buffer := [] |>
  | _, _ => t
  end.

(** A stream closed goes back to the client. *)

Definition guac_terminal_pipe_stream_close (t : guac_terminal) : guac_terminal :=
  match pipe_stream t with
  | None => t
  | Some stream =>
      let t := emit (pipe_end stream) (guac_terminal_pipe_stream_flush t) in
      t <| client_streams := client_streams t ++ [stream] |> <| pipe_stream := None |>
  end.

(** The client has no stream to allocate when it has used them all: the stream is then NULL, which
    [guac_protocol_send_pipe] reads. *)

Definition guac_terminal_pipe_stream_open (t : guac_terminal) (name : list byte) (flags : Z)
    : run guac_terminal :=
  let t := guac_terminal_pipe_stream_close t in
  match client_streams t with
  | [] => Fault
  | stream :: other_streams =>
      let t :=
        t <| client_streams := other_streams |> <| pipe_stream := Some stream |>
          <| pipe_buffer := [] |> <| pipe_stream_flags := flags |> in
      Run (emit (pipe_open stream name) t)
  end.

Definition guac_terminal_pipe_stream_write (t : guac_terminal) (c : byte) : guac_terminal :=
  match pipe_stream t with
  | None => t
  | Some _ =>
      let t :=
        if decide (List.length (pipe_buffer t) = PIPE_BUFFER_SIZE)
        then guac_terminal_pipe_stream_flush t else t in
      t <| pipe_buffer := pipe_buffer t ++ [c] |>
  end.

(** ** Tabs *)

Definition guac_terminal_set_tab (t : guac_terminal) (column : Z) : guac_terminal :=
  match list_find (λ tab, tab = 0) (custom_tabs t) with
  | Some (i, _) => t <| custom_tabs := <[i := column + 1]> (custom_tabs t) |>
  | None => t
  end.

Definition guac_terminal_unset_tab (t : guac_terminal) (column : Z) : guac_terminal :=
  match list_find (λ tab, tab = column + 1) (custom_tabs t) with
  | Some (i, _) => t <| custom_tabs := <[i := 0]> (custom_tabs t) |>
  | None => t
  end.

Definition guac_terminal_clear_tabs (t : guac_terminal) : guac_terminal :=
  t <| tab_interval := 0 |> <| custom_tabs := replicate 16 0 |>.

Definition guac_terminal_next_tab (t : guac_terminal) (column : Z) : Z :=
  let tabstop :=
    if negb (tab_interval t =? 0) then (Z.quot column (tab_interval t) + 1) * tab_interval t
    else term_width t - 1 in
  foldl (λ tabstop tab,
    let custom_tabstop := tab - 1 in
    if negb (custom_tabstop =? -1) && (column <? custom_tabstop) && (custom_tabstop <? tabstop)
    then custom_tabstop else tabstop) tabstop (custom_tabs t).

(** ** Input *)

(** The bytes written to the pipe the program reads its input from. *)

Definition guac_terminal_send_data (t : guac_terminal) (data : list byte) : guac_terminal :=
  if input_stream t then t else emit (stdin_write data) t.

Definition guac_terminal_send_string (t : guac_terminal) (data : list byte) : guac_terminal :=
  guac_terminal_send_data t (c_str data).

(** ** Frames *)

Definition guac_terminal_flush (t : guac_terminal) : run guac_terminal :=
  let t :=
    if negb (Z.land (pipe_stream_flags t) GUAC_TERMINAL_PIPE_AUTOFLUSH =? 0)
    then guac_terminal_pipe_stream_flush t else t in
  let t := guac_terminal_select_redraw t in
  t ← guac_terminal_commit_cursor t;
  t ← update_display guac_terminal_display_flush t;
  guac_terminal_scrollbar_flush t.

End Text.
