(* ===== verification/TermHandlers.v ===== *)
(** * The escape sequences of the terminal (src/src/terminal/terminal-handlers.c)

    One function per character handler, with the static variables it keeps in
    the state; [guac_terminal_write] passes each byte of the program's output
    to the handler the one before has left. *)

From S2P Require Import Prelude RecordUpdate CString CFormat Mem Run TermTypes TermBuffer TermColors TermDisplay TermScrollbar Terminal.
Local Open Scope Z_scope.

Definition GUAC_TERMINAL_VT102_ID : list byte := x1b :: lit "[?6c".
Definition GUAC_TERMINAL_ANSWERBACK : list byte := lit "GUACAMOLE".
Definition GUAC_TERMINAL_OK : list byte := x1b :: lit "[0n".

(** The static variables after a change. *)

Definition update_statics (f : handler_statics → handler_statics) (t : guac_terminal) : guac_terminal :=
  t <| statics := f (statics t) |>.

Definition set_handler (h : guac_terminal_char_handler) (t : guac_terminal) : guac_terminal :=
  t <| char_handler := h |>.

(** The String Terminator of ECMA-48, or the byte that ends it, or BEL. *)

Definition is_terminator (c : byte) : bool :=
  (bz c =? 0x9C) || (bz c =? 0x5C) || (bz c =? 0x07).

(** A byte stored in an array of [size] that keeps room for the null terminator. *)

Definition store_char (size : nat) (c : byte) (s : list byte) : list byte :=
  if (List.length s <? size - 1)%nat then s ++ [c] else s.

(** ** Numeric parameters *)

Fixpoint strtoul_digits (s : list byte) (acc : Z) : Z :=
  match s with
  | c :: s' => if is_digit c then strtoul_digits s' (10 * acc + digit_value c) else acc
  | [] => acc
  end.

(** [strtoul(str, NULL, 10)]: [None] where the value is out of range and [errno] is set. *)

Definition strtoul (s : list byte) : option Z :=
  let s := drop_white s in
  let '(negative, s) :=
    match s with
    | x2d :: s' => (true, s')
    | x2b :: s' => (false, s')
    | _ => (false, s)
    end in
  let v := strtoul_digits s 0 in
  if 2 ^ 64 <=? v then None else Some (u64 (if negative then - v else v)).

Definition guac_terminal_parse_numeric_param (str : list byte) : Z :=
  match strtoul (c_str str) with
  | None => 0
  | Some value => if INT_MAX <? value then 0 else value
  end.

(** ** Movements of the cursor *)

Definition guac_terminal_move_cursor (t : guac_terminal) (row col : Z) : guac_terminal :=
  let row := if term_height t <=? row then term_height t - 1 else if row <? 0 then 0 else row in
  let col := if term_width t <=? col then term_width t - 1 else if col <? 0 then 0 else col in
  t <| cursor_row := row |> <| cursor_col := col |>.

Section Handlers.

Context `{Wcwidth}.

Definition guac_terminal_linefeed (t : guac_terminal) (force_wrap : bool) : run guac_terminal :=
  t ← update_buffer (λ b, guac_terminal_buffer_set_wrapped b (cursor_row t) force_wrap) t;
  if cursor_row t =? scroll_end t
  then guac_terminal_scroll_up t (scroll_start t) (scroll_end t) 1
  else if cursor_row t <? term_height t - 1
  then Run (t <| cursor_row := cursor_row t + 1 |>)
  else Run t.

Definition guac_terminal_reverse_linefeed (t : guac_terminal) : run guac_terminal :=
  if cursor_row t =? scroll_start t
  then guac_terminal_scroll_down t (scroll_start t) (scroll_end t) 1
  else if 0 <? cursor_row t
  then Run (t <| cursor_row := cursor_row t - 1 |>)
  else Run t.

(** ** Text *)

(** The character set in use; [None] is Unicode. *)

Definition active_mapping (t : guac_terminal) : option (list Z) :=
  default None (char_mapping t !! active_char_set t).

(** The decoder: the code point so far and the bytes it lacks. *)

Definition decode_byte (mapped : bool) (c : byte) (s : handler_statics) : handler_statics :=
  let z := bz c in
  if mapped then s <| codepoint := z |> <| bytes_remaining := 0 |>
  else if Z.land z 0x80 =? 0x00 then
    s <| codepoint := Z.land z 0x7F |> <| bytes_remaining := 0 |>
  else if Z.land z 0xE0 =? 0xC0 then
    s <| codepoint := Z.land z 0x1F |> <| bytes_remaining := 1 |>
  else if Z.land z 0xF0 =? 0xE0 then
    s <| codepoint := Z.land z 0x0F |> <| bytes_remaining := 2 |>
  else if Z.land z 0xF8 =? 0xF0 then
    s <| codepoint := Z.land z 0x07 |> <| bytes_remaining := 3 |>
  else if Z.land z 0xC0 =? 0x80 then
    s <| codepoint := i32 (Z.lor (Z.shiftl (codepoint s) 6) (Z.land z 0x3F)) |>
      <| bytes_remaining := i32 (bytes_remaining s - 1) |>
  else s <| codepoint := 0x3F |> <| bytes_remaining := 0 |>.

(** A character that is displayed. *)

Definition echo_displayable (t : guac_terminal) (c : Z) : run guac_terminal :=
  if c <? 0x20 then Run t
  else
    mapped ←
      (match active_mapping t with
       | Some char_mapping =>
           if (0x20 <=? c) && (c <=? 0xFF) then cell_at char_mapping (c - 0x20) else Run c
       | None => Run c
       end);
    let t := update_statics (λ s, s <| codepoint := mapped |>) t in
    t ←
      (if term_width t <=? cursor_col t
       then guac_terminal_linefeed (t <| cursor_col := 0 |>) true else Run t);
    t ←
      (if insert_mode t
       then guac_terminal_copy_columns t (cursor_row t) (cursor_col t) (term_width t - 2) 1
       else Run t);
    t ← guac_terminal_set t (cursor_row t) (cursor_col t) mapped;
    Run (t <| cursor_col := cursor_col t + columns_of mapped |>).

(** A decoded character. *)

Definition echo_character (t : guac_terminal) (c : Z) : run guac_terminal :=
  if c =? 0x05 then Run (guac_terminal_send_string t GUAC_TERMINAL_ANSWERBACK)
  else if c =? 0x07 then Run t
  else if c =? 0x08 then Run (guac_terminal_move_cursor t (cursor_row t) (cursor_col t - 1))
  else if c =? 0x09 then
    Run (guac_terminal_move_cursor t (cursor_row t) (guac_terminal_next_tab t (cursor_col t)))
  else if (c =? 0x0A) || (c =? 0x0B) || (c =? 0x0C) then
    t ← guac_terminal_linefeed t false;
    Run (if automatic_carriage_return t then guac_terminal_move_cursor t (cursor_row t) 0 else t)
  else if c =? 0x0D then Run (guac_terminal_move_cursor t (cursor_row t) 0)
  else if c =? 0x0E then Run (t <| active_char_set := 1%nat |>)
  else if c =? 0x0F then Run (t <| active_char_set := O |>)
  else if c =? 0x1B then Run (set_handler guac_terminal_escape t)
  else if c =? 0x9B then Run (set_handler guac_terminal_csi t)
  else if c =? 0x7F then Run t
  else echo_displayable t c.

Definition handle_echo (t : guac_terminal) (c : byte) : run guac_terminal :=
  let piped := bool_decide (is_Some (pipe_stream t)) && negb (bz c =? 0x1B) in
  let t := if piped then guac_terminal_pipe_stream_write t c else t in
  if piped && (Z.land (pipe_stream_flags t) GUAC_TERMINAL_PIPE_INTERPRET_OUTPUT =? 0) then Run t
  else
    let t := update_statics (decode_byte (bool_decide (is_Some (active_mapping t))) c) t in
    if negb (bytes_remaining (statics t) =? 0) then Run t
    else echo_character t (codepoint (statics t)).

(** ** Escape sequences *)

Definition handle_escape (t : guac_terminal) (c : byte) : run guac_terminal :=
  match c with
  | x28 (* ( *) => Run (set_handler guac_terminal_g0_charset t)
  | x29 (* ) *) => Run (set_handler guac_terminal_g1_charset t)
  | x5d (* ] *) => Run (set_handler guac_terminal_osc t)
  | x5b (* [ *) => Run (set_handler guac_terminal_csi t)
  | x23 (* # *) => Run (set_handler guac_terminal_ctrl_func t)
  | x37 (* 7 *) =>
      Run (set_handler guac_terminal_echo
        (t <| saved_cursor_row := cursor_row t |> <| saved_cursor_col := cursor_col t |>))
  | x38 (* 8 *) =>
      Run (set_handler guac_terminal_echo
        (guac_terminal_move_cursor t (saved_cursor_row t) (saved_cursor_col t)))
  | x44 (* D *) =>
      t ← guac_terminal_linefeed t false; Run (set_handler guac_terminal_echo t)
  | x45 (* E *) =>
      t ← guac_terminal_linefeed (guac_terminal_move_cursor t (cursor_row t) 0) false;
      Run (set_handler guac_terminal_echo t)
  | x48 (* H *) => Run (set_handler guac_terminal_echo (guac_terminal_set_tab t (cursor_col t)))
  | x4d (* M *) => t ← guac_terminal_reverse_linefeed t; Run (set_handler guac_terminal_echo t)
  | x5a (* Z *) =>
      Run (set_handler guac_terminal_echo (guac_terminal_send_string t GUAC_TERMINAL_VT102_ID))
  | x63 (* c *) => guac_terminal_reset t
  | x5f (* _ *) => Run (set_handler guac_terminal_apc t)
  | _ => Run (set_handler guac_terminal_echo t)
  end.

Definition __guac_terminal_get_char_mapping (c : byte) : option (list Z) :=
  match c with
  | x42 (* B *) => None
  | x30 (* 0 *) => Some vt100_map
  | x55 (* U *) => Some null_map
  | x4b (* K *) => Some user_map
  | _ => None
  end.

Definition handle_g0_charset (t : guac_terminal) (c : byte) : run guac_terminal :=
  Run (set_handler guac_terminal_echo
    (t <| char_mapping := <[0%nat := __guac_terminal_get_char_mapping c]> (char_mapping t) |>)).

Definition handle_g1_charset (t : guac_terminal) (c : byte) : run guac_terminal :=
  Run (set_handler guac_terminal_echo
    (t <| char_mapping := <[1%nat := __guac_terminal_get_char_mapping c]> (char_mapping t) |>)).

(** ** Control sequences *)

(** [*flag = on] for the flag of a mode, if the mode has one. *)

Definition set_mode_flag (num private_mode : Z) (on : bool) (t : guac_terminal) : guac_terminal :=
  if private_mode =? 0x3F (* ? *) then
    if num =? 1 then t <| application_cursor_keys := on |>
    else if num =? 25 then t <| cursor_visible := on |>
    else t
  else if private_mode =? 0 then
    if num =? 4 then t <| insert_mode := on |>
    else if num =? 20 then t <| automatic_carriage_return := on |>
    else t
  else t.

(** The parameters consumed and the colour; [args] are those that follow. *)

Definition guac_terminal_parse_xterm256_rgb (args : list Z) (color : guac_terminal_color)
    : Z * guac_terminal_color :=
  match args with
  | red :: green :: blue :: _ =>
      if (red <? 0) || (255 <? red) || (green <? 0) || (255 <? green)
         || (blue <? 0) || (255 <? blue)
      then (3, color)
      else (3, mk_color (-1) red green blue)
  | _ => (0, color)
  end.

Definition guac_terminal_parse_xterm256_index (t : guac_terminal) (args : list Z)
    (color : guac_terminal_color) : Z * guac_terminal_color :=
  match args with
  | index :: _ => (1, default color (guac_terminal_display_lookup_color (display t) index))
  | [] => (0, color)
  end.

Definition guac_terminal_parse_xterm256 (t : guac_terminal) (args : list Z)
    (color : guac_terminal_color) : Z * guac_terminal_color :=
  match args with
  | [] => (0, color)
  | kind :: args =>
      if kind =? 2 then
        let '(n, color) := guac_terminal_parse_xterm256_rgb args color in (n + 1, color)
      else if kind =? 5 then
        let '(n, color) := guac_terminal_parse_xterm256_index t args color in (n + 1, color)
      else (0, color)
  end.

Definition with_bold (b : bool) (a : guac_terminal_attributes) : guac_terminal_attributes :=
  mk_attributes b (half_bright a) (cursor a) (reverse a) (underscore a) (foreground a) (background a).
Definition with_half_bright (b : bool) (a : guac_terminal_attributes) : guac_terminal_attributes :=
  mk_attributes (bold a) b (cursor a) (reverse a) (underscore a) (foreground a) (background a).
Definition with_reverse (b : bool) (a : guac_terminal_attributes) : guac_terminal_attributes :=
  mk_attributes (bold a) (half_bright a) (cursor a) b (underscore a) (foreground a) (background a).
Definition with_underscore (b : bool) (a : guac_terminal_attributes) : guac_terminal_attributes :=
  mk_attributes (bold a) (half_bright a) (cursor a) (reverse a) b (foreground a) (background a).
Definition with_foreground (c : guac_terminal_color) (a : guac_terminal_attributes)
    : guac_terminal_attributes :=
  mk_attributes (bold a) (half_bright a) (cursor a) (reverse a) (underscore a) c (background a).
Definition with_background (c : guac_terminal_color) (a : guac_terminal_attributes)
    : guac_terminal_attributes :=
  mk_attributes (bold a) (half_bright a) (cursor a) (reverse a) (underscore a) (foreground a) c.

(** One parameter of SGR, [args] being those that follow: the attributes, and how many of
    them it has consumed. *)

Definition sgr_parameter (t : guac_terminal) (value : Z) (args : list Z)
    (a : guac_terminal_attributes) : guac_terminal_attributes * Z :=
  let default_attributes := attributes (default_char t) in
  let lookup index color := default color (guac_terminal_display_lookup_color (display t) index) in
  if value =? 0 then (default_attributes, 0)
  else if value =? 1 then (with_bold true a, 0)
  else if value =? 2 then (with_half_bright true a, 0)
  else if value =? 4 then (with_underscore true a, 0)
  else if value =? 7 then (with_reverse true a, 0)
  else if (value =? 21) || (value =? 22) then (with_half_bright false (with_bold false a), 0)
  else if value =? 24 then (with_underscore false a, 0)
  else if value =? 27 then (with_reverse false a, 0)
  else if (30 <=? value) && (value <=? 37) then
    (with_foreground (lookup (value - 30) (foreground a)) a, 0)
  else if value =? 38 then
    let '(n, color) := guac_terminal_parse_xterm256 t args (foreground a) in
    if 0 <? n then (with_foreground color a, n)
    else (with_foreground (foreground default_attributes) (with_underscore true a), 0)
  else if value =? 39 then
    (with_foreground (foreground default_attributes) (with_underscore false a), 0)
  else if (40 <=? value) && (value <=? 47) then
    (with_background (lookup (value - 40) (background a)) a, 0)
  else if value =? 48 then
    let '(n, color) := guac_terminal_parse_xterm256 t args (background a) in
    (with_background color a, n)
  else if value =? 49 then (with_background (background default_attributes) a, 0)
  else if (90 <=? value) && (value <=? 97) then
    (with_foreground (lookup (value - 90 + GUAC_TERMINAL_FIRST_INTENSE) (foreground a)) a, 0)
  else if (100 <=? value) && (value <=? 107) then
    (with_background (lookup (value - 100 + GUAC_TERMINAL_FIRST_INTENSE) (background a)) a, 0)
  else (a, 0).

(** The loop over the parameters: at most [n] of them. *)

Fixpoint sgr_loop (t : guac_terminal) (n : nat) (args : list Z) (a : guac_terminal_attributes)
    : guac_terminal_attributes :=
  match n, args with
  | S n', value :: args =>
      let '(a, consumed) := sgr_parameter t value args a in
      sgr_loop t n' (drop (Z.to_nat consumed) args) a
  | _, _ => a
  end.

Definition csi_insert_characters (t : guac_terminal) (amount : Z) : run guac_terminal :=
  t ←
    (if i32 (cursor_col t + amount) <? term_width t
     then guac_terminal_copy_columns t (cursor_row t) (cursor_col t)
            (i32 (term_width t - amount - 1)) amount
     else Run t);
  guac_terminal_clear_columns t (cursor_row t) (cursor_col t) (i32 (cursor_col t + amount - 1)).

Definition csi_delete_characters (t : guac_terminal) (amount : Z) : run guac_terminal :=
  t ←
    (if i32 (cursor_col t + amount) <? term_width t
     then guac_terminal_copy_columns t (cursor_row t) (i32 (cursor_col t + amount))
            (term_width t - 1) (- amount)
     else Run t);
  guac_terminal_clear_columns t (cursor_row t) (i32 (term_width t - amount)) (term_width t - 1).

Definition csi_erase_display (t : guac_terminal) (arg : Z) : run guac_terminal :=
  if arg =? 0 then
    guac_terminal_clear_range t (cursor_row t) (cursor_col t) (term_height t - 1) (term_width t - 1)
  else if arg =? 1 then guac_terminal_clear_range t 0 0 (cursor_row t) (cursor_col t)
  else if (arg =? 2) || (arg =? 3) then
    guac_terminal_clear_range t 0 0 (term_height t - 1) (term_width t - 1)
  else Run t.

Definition csi_erase_line (t : guac_terminal) (arg : Z) : run guac_terminal :=
  if arg =? 0 then guac_terminal_clear_columns t (cursor_row t) (cursor_col t) (term_width t - 1)
  else if arg =? 1 then guac_terminal_clear_columns t (cursor_row t) 0 (cursor_col t)
  else if arg =? 2 then guac_terminal_clear_columns t (cursor_row t) 0 (term_width t - 1)
  else Run t.

Definition csi_set_mode (t : guac_terminal) (arg : Z) : run guac_terminal :=
  let t :=
    if (arg =? 1048) || (arg =? 1049)
    then t <| saved_cursor_row := cursor_row t |> <| saved_cursor_col := cursor_col t |> else t in
  t ←
    (if negb (on_alternate t) then
       let t :=
         if (arg =? 47) || (arg =? 1047) || (arg =? 1049)
         then update_scrollbar_bounds (t <| on_alternate := true |>) else t in
       if (arg =? 1047) || (arg =? 1049)
       then guac_terminal_clear_range t 0 0 (term_height t - 1) (term_width t - 1)
       else Run t
     else Run t);
  Run (set_mode_flag arg (private_mode_character (statics t)) true t).

Definition csi_reset_mode (t : guac_terminal) (arg : Z) : run guac_terminal :=
  t ←
    (if on_alternate t then
       t ←
         (if (arg =? 47) || (arg =? 1047) || (arg =? 1049) then
            t ← guac_terminal_redraw_default_layer
                  (update_scrollbar_bounds (t <| on_alternate := false |>));
            Run (t <| text_selected := false |> <| selection_committed := false |>)
          else Run t);
       if arg =? 1047
       then guac_terminal_clear_range t 0 0 (term_height t - 1) (term_width t - 1)
       else Run t
     else Run t);
  let t :=
    if (arg =? 1048) || (arg =? 1049)
    then guac_terminal_move_cursor t (saved_cursor_row t) (saved_cursor_col t) else t in
  Run (set_mode_flag arg (private_mode_character (statics t)) false t).

(** The function of a control sequence that ends with [c]. *)

Definition csi_function (t : guac_terminal) (c : byte) : run guac_terminal :=
  let args := argv (statics t) in
  let arg i := default 0 (args !! i) in
  let amount := if arg 0%nat =? 0 then 1 else arg 0%nat in
  let position i := if arg i =? 0 then 0 else arg i - 1 in
  let private := private_mode_character (statics t) in
  match c with
  | x40 (* @ *) => csi_insert_characters t amount
  | x41 (* A *) => Run (guac_terminal_move_cursor t (cursor_row t - amount) (cursor_col t))
  | x65 | x42 (* e, B *) =>
      Run (guac_terminal_move_cursor t (i32 (cursor_row t + amount)) (cursor_col t))
  | x61 | x43 (* a, C *) =>
      Run (guac_terminal_move_cursor t (cursor_row t) (i32 (cursor_col t + amount)))
  | x44 (* D *) => Run (guac_terminal_move_cursor t (cursor_row t) (cursor_col t - amount))
  | x45 (* E *) => Run (guac_terminal_move_cursor t (i32 (cursor_row t + amount)) 0)
  | x46 (* F *) => Run (guac_terminal_move_cursor t (cursor_row t - amount) 0)
  | x60 | x47 (* `, G *) => Run (guac_terminal_move_cursor t (cursor_row t) (position 0%nat))
  | x66 | x48 (* f, H *) => Run (guac_terminal_move_cursor t (position 0%nat) (position 1%nat))
  | x4a (* J *) => csi_erase_display t (arg 0%nat)
  | x4b (* K *) => csi_erase_line t (arg 0%nat)
  | x4c (* L *) => guac_terminal_scroll_down t (cursor_row t) (scroll_end t) amount
  | x4d (* M *) => guac_terminal_scroll_up t (cursor_row t) (scroll_end t) amount
  | x50 (* P *) => csi_delete_characters t amount
  | x53 (* S *) => guac_terminal_scroll_up t (scroll_start t) (scroll_end t) amount
  | x54 (* T *) => guac_terminal_scroll_down t (scroll_start t) (scroll_end t) amount
  | x58 (* X *) =>
      guac_terminal_clear_columns t (cursor_row t) (cursor_col t) (i32 (cursor_col t + amount - 1))
  | x63 (* c *) =>
      Run (if (arg 0%nat =? 0) && (private =? 0)
           then guac_terminal_send_string t GUAC_TERMINAL_VT102_ID else t)
  | x64 (* d *) => Run (guac_terminal_move_cursor t (position 0%nat) (cursor_col t))
  | x67 (* g *) =>
      Run (if arg 0%nat =? 0 then guac_terminal_unset_tab t (cursor_col t)
           else if arg 0%nat =? 3 then guac_terminal_clear_tabs t else t)
  | x68 (* h *) => csi_set_mode t (arg 0%nat)
  | x6c (* l *) => csi_reset_mode t (arg 0%nat)
  | x6d (* m *) =>
      Run (t <| current_attributes :=
             sgr_loop t 16 (take (Z.to_nat (argc (statics t))) args) (current_attributes t) |>)
  | x6e (* n *) =>
      Run (if (arg 0%nat =? 5) && (private =? 0) then guac_terminal_send_string t GUAC_TERMINAL_OK
           else if (arg 0%nat =? 6) && (private =? 0) then
             guac_terminal_send_data t
               (x1b :: lit "[" ++ fmt_d (cursor_row t + 1) ++ lit ";" ++ fmt_d (cursor_col t + 1)
                ++ lit "R")
           else t)
  | x72 (* r *) =>
      Run (if argc (statics t) =? 2
           then t <| scroll_start := arg 0%nat - 1 |> <| scroll_end := arg 1%nat - 1 |>
           else t <| scroll_start := 0 |> <| scroll_end := term_height t - 1 |>)
  | x73 (* s *) =>
      Run (t <| saved_cursor_row := cursor_row t |> <| saved_cursor_col := cursor_col t |>)
  | x75 (* u *) => Run (guac_terminal_move_cursor t (saved_cursor_row t) (saved_cursor_col t))
  | _ => Run t
  end.

(** The parameter that [c] ends: at most 16 are kept. *)

Definition finish_parameter (s : handler_statics) : handler_statics :=
  if argc s <? 16 then
    s <| argv := <[Z.to_nat (argc s) := guac_terminal_parse_numeric_param (argv_buffer s)]> (argv s) |>
      <| argc := argc s + 1 |> <| argv_buffer := [] |>
  else s.

(** The end of a sequence: the parameters are zeroed. *)

Definition finish_sequence (s : handler_statics) : handler_statics :=
  s <| argv := replicate (Z.to_nat (argc s)) 0 ++ drop (Z.to_nat (argc s)) (argv s) |>
    <| private_mode_character := 0 |> <| argc := 0 |> <| argv_buffer := [] |>.

Definition handle_csi (t : guac_terminal) (c : byte) : run guac_terminal :=
  let z := bz c in
  if (0x30 <=? z) && (z <=? 0x39) then
    Run (update_statics (λ s, s <| argv_buffer := store_char 256 c (argv_buffer s) |>) t)
  else if ((0x40 <=? z) && (z <=? 0x7E)) || (z =? 0x3B) then
    t ← csi_function (update_statics finish_parameter t) c;
    Run (if negb (z =? 0x3B)
         then update_statics finish_sequence (set_handler guac_terminal_echo t) else t)
  else if (0x3A <=? z) && (z <=? 0x3F) && (private_mode_character (statics t) =? 0) then
    Run (update_statics (λ s, s <| private_mode_character := z |>) t)
  else Run t.

(** ** Operating system commands *)

Definition handle_set_directory (t : guac_terminal) (c : byte) : run guac_terminal :=
  if is_terminator c then
    let filename := c_str (directory_filename (statics t)) in
    let t := set_handler guac_terminal_echo t in
    let t := if upload_path_handler t then emit (upload_path filename) t else t in
    Run (update_statics (λ s, s <| directory_filename := [] |>) t)
  else
    Run (update_statics (λ s, s <| directory_filename := store_char 2048 c (directory_filename s) |>) t).

Definition handle_download (t : guac_terminal) (c : byte) : run guac_terminal :=
  if is_terminator c then
    let filename := c_str (download_filename (statics t)) in
    let t := set_handler guac_terminal_echo t in
    let t := if file_download_handler t then emit (file_download filename) t else t in
    Run (update_statics (λ s, s <| download_filename := [] |>) t)
  else
    Run (update_statics (λ s, s <| download_filename := store_char 2048 c (download_filename s) |>) t).

Definition handle_open_pipe_stream (t : guac_terminal) (c : byte) : run guac_terminal :=
  if is_terminator c then
    let name := c_str (pipe_param (statics t)) in
    let flags := pipe_flags (statics t) in
    t ← guac_terminal_pipe_stream_open t name flags;
    Run (update_statics (λ s, s <| pipe_param := [] |> <| pipe_flags := 0 |>)
           (set_handler guac_terminal_echo t))
  else if bz c =? 0x3B then
    Run (update_statics (λ s,
      s <| pipe_flags := Z.lor (pipe_flags s) (guac_terminal_parse_numeric_param (pipe_param s)) |>
        <| pipe_param := [] |>) t)
  else Run (update_statics (λ s, s <| pipe_param := store_char 2048 c (pipe_param s) |>) t).

Definition handle_close_pipe_stream (t : guac_terminal) (c : byte) : run guac_terminal :=
  if is_terminator c
  then Run (set_handler guac_terminal_echo (guac_terminal_pipe_stream_close t))
  else Run t.

Definition handle_set_scrollback (t : guac_terminal) (c : byte) : run guac_terminal :=
  if is_terminator c then
    let t :=
      t <| requested_scrollback :=
             guac_terminal_parse_numeric_param (scrollback_param (statics t)) |> in
    let t := update_statics (λ s, s <| scrollback_param := [] |>) t in
    Run (set_handler guac_terminal_echo (update_scrollbar_bounds t))
  else Run (update_statics (λ s, s <| scrollback_param := store_char 16 c (scrollback_param s) |>) t).

Definition handle_window_title (t : guac_terminal) (c : byte) : run guac_terminal :=
  if is_terminator c then
    let t := emit (name_sent (c_str (title (statics t)))) t in
    Run (set_handler guac_terminal_echo (update_statics (λ s, s <| title := [] |>) t))
  else Run (update_statics (λ s, s <| title := store_char 4096 c (title s) |>) t).

Definition handle_xterm_palette (t : guac_terminal) (c : byte) : run guac_terminal :=
  let s := statics t in
  let t :=
    if negb (read_color_spec s) then
      if is_digit c then
        update_statics (λ s, s <| color_index := i32 (color_index s * 10 + bz c - 0x30) |>) t
      else if bz c =? 0x3B then
        update_statics (λ s, s <| read_color_spec := true |> <| color_spec := [] |>) t
      else t
    else if (bz c =? 0x3B) || is_terminator c then
      let t :=
        match guac_terminal_xparsecolor (c_str (color_spec s)) with
        | Some color =>
            t <| display :=
              snd (guac_terminal_display_assign_color (display t) (color_index s) color) |>
        | None => t
        end in
      update_statics (λ s, s <| read_color_spec := false |> <| color_index := 0 |>) t
    else update_statics (λ s, s <| color_spec := store_char 256 c (color_spec s) |>) t in
  Run (if is_terminator c then set_handler guac_terminal_echo t else t).

Definition handle_osc (t : guac_terminal) (c : byte) : run guac_terminal :=
  if is_digit c then
    Run (update_statics (λ s, s <| operation := i32 (operation s * 10 + bz c - 0x30) |>) t)
  else if bz c =? 0x3B then
    let op := operation (statics t) in
    let t :=
      if op =? 482200 then set_handler guac_terminal_download t
      else if op =? 482201 then set_handler guac_terminal_set_directory t
      else if op =? 482202 then set_handler guac_terminal_open_pipe_stream t
      else if op =? 482203 then set_handler guac_terminal_close_pipe_stream t
      else if op =? 482204 then set_handler guac_terminal_set_scrollback t
      else if (op =? 0) || (op =? 2) then set_handler guac_terminal_window_title t
      else if op =? 4 then set_handler guac_terminal_xterm_palette t
      else t in
    Run (update_statics (λ s, s <| operation := 0 |>) t)
  else Run (set_handler guac_terminal_echo t).

(** The width of the character of the alignment test is not initialized: [indeterminate] is
    what it holds. *)

Definition handle_ctrl_func (indeterminate : Z) (t : guac_terminal) (c : byte) : run guac_terminal :=
  t ←
    (match c with
     | x38 (* 8 *) =>
         for_range 0 (term_height t - 1) (λ row t,
           guac_terminal_set_columns t row 0 (term_width t - 1)
             (mk_char 0x45 (current_attributes t) indeterminate)) t
     | _ => Run t
     end);
  Run (set_handler guac_terminal_echo t).

Definition handle_apc (t : guac_terminal) (c : byte) : run guac_terminal :=
  let t :=
    if escaping (statics t) then
      update_statics (λ s, s <| escaping := false |>)
        (if bz c =? 0x5C then set_handler guac_terminal_echo t else t)
    else t in
  Run (if bz c =? 0x1B then update_statics (λ s, s <| escaping := true |>) t else t).

(** ** Output *)

Definition handle (indeterminate : Z) (t : guac_terminal) (c : byte) : run guac_terminal :=
  match char_handler t with
  | guac_terminal_echo => handle_echo t c
  | guac_terminal_escape => handle_escape t c
  | guac_terminal_g0_charset => handle_g0_charset t c
  | guac_terminal_g1_charset => handle_g1_charset t c
  | guac_terminal_csi => handle_csi t c
  | guac_terminal_set_directory => handle_set_directory t c
  | guac_terminal_download => handle_download t c
  | guac_terminal_open_pipe_stream => handle_open_pipe_stream t c
  | guac_terminal_close_pipe_stream => handle_close_pipe_stream t c
  | guac_terminal_set_scrollback => handle_set_scrollback t c
  | guac_terminal_window_title => handle_window_title t c
  | guac_terminal_xterm_palette => handle_xterm_palette t c
  | guac_terminal_osc => handle_osc t c
  | guac_terminal_ctrl_func => handle_ctrl_func indeterminate t c
  | guac_terminal_apc => handle_apc t c
  end.

Definition write_byte (indeterminate : Z) (t : guac_terminal) (c : byte) : run guac_terminal :=
  handle indeterminate (if typescript t then emit (typescript_byte c) t else t) c.

Fixpoint guac_terminal_write (indeterminate : Z) (t : guac_terminal) (buffer : list byte)
    : run guac_terminal :=
  match buffer with
  | [] => Run t
  | c :: buffer => t ← write_byte indeterminate t c; guac_terminal_write indeterminate t buffer
  end.

End Handlers.

(** ** Creation *)

Record guac_terminal_options := mk_options {
  opt_width : Z;
  opt_height : Z;
  opt_max_scrollback : Z;
  opt_color_scheme : list byte;
  opt_disable_copy : bool;
}.

(** What the code finds in memory it has not written and in what it calls: the cells of a new grid,
    the flags of the pipe stream, the positions of a drag, the width of the alignment test's
    character; the margin, the metrics of the font and the client's streams. *)

Record environment := mk_environment {
  fresh_operations : nat → guac_terminal_operation;
  fresh_flags : Z;
  fresh_drag : Z * Z;
  fresh_width : Z;
  display_margin : Z;
  font_metrics : option (Z * Z * Z);
  streams : list Z;
}.

(** The members of a terminal as they are first set. *)

Definition new_terminal (env : environment) (options : guac_terminal_options)
    (d : guac_terminal_display) (default_char : guac_terminal_char) : guac_terminal :=
  let width := opt_width options in
  let height := opt_height options in
  let max_scrollback := opt_max_scrollback options in
  let initial_scrollback :=
    if max_scrollback <? GUAC_TERMINAL_MAX_ROWS then GUAC_TERMINAL_MAX_ROWS else max_scrollback in
  mk_terminal false false false false None (fresh_flags env) [] false
    (guac_terminal_scrollbar_alloc 0 0 0 (fst (fresh_drag env)) (snd (fresh_drag env)))
    0 max_scrollback max_scrollback width height width height 0 0 0 0 0 0 true 0 0 0 0
    (attributes default_char) default_char guac_terminal_echo d
    (guac_terminal_buffer_alloc initial_scrollback default_char)
    (guac_terminal_buffer_alloc GUAC_TERMINAL_MAX_ROWS default_char) false 8
    (replicate 16 0) [None; None] 0%nat false false 0 0 0 0 0 0 false false false
    (opt_disable_copy options) (streams env) initial_statics [].

(** The default character: a blank in the colours of the scheme. *)

Definition scheme_char (scheme : color_scheme) : guac_terminal_char :=
  mk_char 0 (mk_attributes false false false false false
               (scheme_foreground scheme) (scheme_background scheme)) 1.

(** The character dimensions and the adjusted size are stored, the initial layer is painted. *)

Definition create_sized (rows columns adjusted_height adjusted_width : Z) (t : guac_terminal)
    : guac_terminal :=
  guac_terminal_repaint_default_layer
    (t <| term_height := rows |> <| term_width := columns |>
       <| pixel_height := adjusted_height |> <| pixel_width := adjusted_width |>).

Definition create_scrollbar (env : environment) (width height rows : Z) (t : guac_terminal)
    : guac_terminal :=
  t <| scrollbar := guac_terminal_scrollbar_alloc width height rows
         (fst (fresh_drag env)) (snd (fresh_drag env)) |>.

(** [None] is NULL: the font could not be loaded. *)

Definition guac_terminal_create `{Wcwidth} (env : environment) (options : guac_terminal_options)
    : run (option guac_terminal) :=
  let width := opt_width options in
  let height := opt_height options in
  let scheme := guac_terminal_parse_color_scheme (opt_color_scheme options) in
  d ← guac_terminal_display_alloc (fresh_operations env) (display_margin env) (font_metrics env)
        (scheme_foreground scheme) (scheme_background scheme) (scheme_palette scheme);
  match d with
  | None => Run None
  | Some d =>
      let t := new_terminal env options d (scheme_char scheme) in
      size ← calculate_rows_and_columns t height width;
      let '(rows, columns) := size in
      let '(adjusted_height, adjusted_width) :=
        calculate_height_and_width t rows columns height width in
      let t := create_sized rows columns adjusted_height adjusted_width t in
      t ← update_display (λ d, guac_terminal_display_resize (fresh_operations env) d columns rows) t;
      t ← guac_terminal_reset (create_scrollbar env width height rows t);
      Run (Some t)
  end.
