(* ===== verification/TermDisplaySpec.v ===== *)
(** * The grid of pending operations (specification of TermDisplay.v)

    Every operation of the display keeps the grid as large as the terminal
    and stays inside it; a flush performs every pending operation once.  The
    rectangles that a flush of clears merges are proved to fill exactly the
    cells that clear, each with its own colour. *)

From S2P Require Import Prelude RecordUpdate Mem Run TermTypes TermBuffer TermRowSpec TermDisplay.
Local Open Scope Z_scope.

Local Abbreviation len l := (Z.of_nat (List.length l)).

(** ** Lists of cells *)

Lemma cell_at_ok {A} (l : list A) i :
  0 ≤ i < len l → ∃ c, cell_at l i = Run c ∧ l !! Z.to_nat i = Some c.
Proof.
  intros Hi. destruct (lookup_lt_is_Some_2 l (Z.to_nat i)) as [c Hc]; [lia|].
  exists c. split; [apply cell_at_lookup; [lia|done]|done].
Qed.

Lemma memmove_run {A} (cells : list A) dst src n :
  0 ≤ src → 0 ≤ dst → 0 ≤ n → src + n ≤ len cells → dst + n ≤ len cells →
  ∃ cells', memmove cells dst src n = Run cells' ∧ len cells' = len cells.
Proof.
  intros Hs Hd Hn Hsn Hdn. unfold memmove. zif; [eauto|].
  rewrite !(proj2 (Z.leb_le _ _)) by lia. cbn [andb]. eexists. split; [done|].
  rewrite !length_app, !length_take, !length_drop. lia.
Qed.

(** A loop whose body keeps an invariant that does not depend on the round. *)

Lemma for_range_kept {S} (I : S → Prop) first last body (s : S) :
  I s → (∀ j t, first ≤ j ≤ last → I t → ∃ t', body j t = Run t' ∧ I t') →
  ∃ s', for_range first last body s = Run s' ∧ I s'.
Proof.
  intros Hs Hb. destruct (Z.le_gt_cases first (last + 1)) as [Hle|Hgt].
  - by apply (for_range_inv (λ _, I)).
  - rewrite for_range_empty by lia. eauto.
Qed.

(** ** Rectangles *)

Section Rectangle.

Context (test : Z → Z → guac_terminal_operation → bool).

(** The operation at index [i] belongs to the rectangle, [r] rows and [c] columns from its
    corner. *)

Definition belongs (ops : list guac_terminal_operation) (i r c : Z) : Prop :=
  ∃ op, ops !! Z.to_nat i = Some op ∧ test r c op = true.

Lemma rect_columns_ok ops n : ∀ index r c,
  0 ≤ index → index + Z.of_nat n ≤ len ops →
  ∃ k, rect_columns test ops n index r c = Run (c + k) ∧ 0 ≤ k ≤ Z.of_nat n ∧
    (∀ j, 0 ≤ j < k → belongs ops (index + j) r (c + j)) ∧
    (0 < Z.of_nat n → belongs ops index r c → 1 ≤ k).
Proof.
  induction n as [|n IH]; intros index r c Hi Hn; cbn [rect_columns].
  - exists 0. split; [by rewrite Z.add_0_r|]. split; [lia|]. split; lia.
  - destruct (cell_at_ok ops index) as (op & -> & Hop); [lia|]. rewrite run_bind_run.
    destruct (test r c op) eqn:Ht.
    + destruct (IH (index + 1) r (c + 1)) as (k & E & Hk & Hb & _); [lia..|].
      exists (1 + k). rewrite E. split; [f_equal; lia|]. split; [lia|]. split; [|lia].
      intros j Hj. destruct (decide (j = 0)) as [->|Hne].
      * rewrite !Z.add_0_r. by exists op.
      * replace (index + j) with (index + 1 + (j - 1)) by lia.
        replace (c + j) with (c + 1 + (j - 1)) by lia. apply Hb. lia.
    + exists 0. rewrite Z.add_0_r. split; [done|]. split; [lia|]. split; [lia|].
      intros _ (op' & Hop' & Ht'). congruence.
Qed.

(** What is known of a rectangle that has been accepted down to row [rect_row]. *)

Definition bounds_ok (ops : list guac_terminal_operation) (W start_row col rect_row right bottom : Z)
    : Prop :=
  -1 ≤ right < W ∧ start_row ≤ bottom ≤ Z.max start_row (rect_row - 1) ∧
  (belongs ops (start_row * W + col) 0 0 →
     (rect_row = start_row ∧ right = -1) ∨
     (col ≤ right ∧ bottom = rect_row - 1 ∧
      ∀ r c, start_row ≤ r < rect_row → col ≤ c ≤ right →
        belongs ops (r * W + c) (r - start_row) (c - col))).

Lemma rect_bounds_ok ops W H start_row col n : ∀ rect_row right bottom,
  len ops = W * H → 0 ≤ col < W → 0 ≤ start_row ≤ rect_row → rect_row + Z.of_nat n = H →
  bounds_ok ops W start_row col rect_row right bottom →
  ∃ right' bottom' row',
    rect_bounds test ops W start_row col n (rect_row * W + col) rect_row right bottom
      = Run (right', bottom') ∧
    rect_row ≤ row' ≤ H ∧ (start_row < H → rect_row = start_row → 
      belongs ops (start_row * W + col) 0 0 → start_row < row') ∧
    bounds_ok ops W start_row col row' right' bottom'.
Proof.
  induction n as [|n IH]; intros rect_row right bottom Hlen Hcol Hrow Hn Hb; cbn [rect_bounds].
  - exists right, bottom, rect_row. split; [done|]. split; [lia|]. split; [lia|done].
  - destruct (rect_columns_ok ops (Z.to_nat (W - col)) (rect_row * W + col) (rect_row - start_row) 0)
      as (k & -> & Hk & Hbel & Hfirst); [nia|nia|]. rewrite run_bind_run, Z.add_0_l.
    destruct Hb as (Hr & Hbot & Hrect). destruct (Z.ltb_spec (col + k - 1) right) as [Hlt|Hge].
    + exists right, bottom, rect_row. split; [done|]. split; [lia|]. split.
      * intros _ -> Hbl. exfalso. specialize (Hrect Hbl).
        rewrite Z.sub_diag in Hfirst. specialize (Hfirst ltac:(lia) Hbl). lia.
      * exact (conj Hr (conj Hbot Hrect)).
    + destruct (IH (rect_row + 1) (if right =? -1 then col + k - 1 else right) rect_row)
        as (right' & bottom' & row' & E & Hrow' & _ & Hb'); try done; [lia|lia| |].
      { split; [zif; lia|]. split; [lia|]. intros Hbl. right.
        destruct (Hrect Hbl) as [[-> ->]|(Hc & -> & Hall)].
        - cbn. rewrite Z.sub_diag in Hfirst. specialize (Hfirst ltac:(lia) Hbl).
          split; [lia|]. split; [lia|]. intros r c Hr' Hc'.
          replace r with start_row by lia. replace (c - col) with (0 + (c - col)) by lia.
          replace (start_row * W + c) with (start_row * W + col + (c - col)) by lia.
          apply Hbel. lia.
        - rewrite (proj2 (Z.eqb_neq right (-1))) by lia. split; [done|]. split; [lia|].
          intros r c Hr' Hc'. destruct (decide (r = rect_row)) as [->|Hne]; [|apply Hall; lia].
          replace (c - col) with (0 + (c - col)) by lia.
          replace (rect_row * W + c) with (rect_row * W + col + (c - col)) by lia.
          apply Hbel. lia. }
      exists right', bottom', row'. replace (rect_row * W + col + W) with ((rect_row + 1) * W + col) by lia.
      split; [done|]. split; [lia|]. split; [lia|done].
Qed.

(** The rectangle lies in the grid; where its corner belongs to it, so does all of it. *)

Lemma rect_size_ok ops W H row col :
  len ops = W * H → 0 ≤ col < W → 0 ≤ row < H →
  ∃ w h, rect_size test ops W H row col (row * W + col) = Run (w, h) ∧
    col + w ≤ W ∧ 1 ≤ h ∧ row + h ≤ H ∧
    (belongs ops (row * W + col) 0 0 → 1 ≤ w ∧
       ∀ r c, 0 ≤ r < h → 0 ≤ c < w → belongs ops ((row + r) * W + (col + c)) r c).
Proof.
  intros Hlen Hcol Hrow. unfold rect_size.
  destruct (rect_bounds_ok ops W H row col (Z.to_nat (H - row)) row (-1) row)
    as (right & bottom & row' & -> & Hrow' & Hfirst & Hr & Hbot & Hrect); try done; [lia|lia| |].
  { split; [lia|]. split; [lia|]. intros _. by left. }
  rewrite run_bind_run. do 2 eexists. split; [done|]. split; [lia|]. split; [lia|].
  split; [lia|]. intros Hbl. specialize (Hfirst ltac:(lia) eq_refl Hbl).
  destruct (Hrect Hbl) as [[-> _]|(Hc & -> & Hall)]; [lia|]. split; [lia|].
  intros r c Hr' Hc'. pose proof (Hall (row + r) (col + c)) as Hb.
  replace (row + r - row) with r in Hb by lia. replace (col + c - col) with c in Hb by lia.
  apply Hb; lia.
Qed.

End Rectangle.

(** ** Marking a rectangle *)

Definition nop (op : guac_terminal_operation) : guac_terminal_operation :=
  op <| type := GUAC_CHAR_NOP |>.

Lemma cell_index_inj W r c r' c' :
  0 ≤ c < W → 0 ≤ c' < W → r * W + c = r' * W + c' → r = r' ∧ c = c'.
Proof. intros Hc Hc' E. assert (r = r') as -> by nia. lia. Qed.

(** [ops'] is [ops] with the operations of the cells [D] that pass the test performed. *)

Record marked (test : Z → Z → guac_terminal_operation → bool) (W row col : Z) (D : Z → Z → Prop)
    (ops ops' : list guac_terminal_operation) : Prop := {
  marked_length : List.length ops' = List.length ops;
  marked_in r c op :
    D r c → ops !! Z.to_nat ((row + r) * W + (col + c)) = Some op →
    ops' !! Z.to_nat ((row + r) * W + (col + c)) = Some (if test r c op then nop op else op);
  marked_out i :
    (∀ r c, D r c → i ≠ Z.to_nat ((row + r) * W + (col + c))) → ops' !! i = ops !! i;
  marked_some i op' :
    ops' !! i = Some op' → ∃ op, ops !! i = Some op ∧ (op' = op ∨ op' = nop op);
}.

Lemma marked_ext test W row col (D D' : Z → Z → Prop) ops ops' :
  (∀ r c, D r c ↔ D' r c) → marked test W row col D ops ops' → marked test W row col D' ops ops'.
Proof.
  intros HD [M1 M2 M3 M4]. split; [done|..|done].
  - intros r c op Hrc. by apply M2, HD.
  - intros i Hi. apply M3. intros r c Hrc. by apply Hi, HD.
Qed.

Lemma mark_nop_ok test W H row col (D : Z → Z → Prop) ops ops' r c :
  marked test W row col D ops ops' → len ops = W * H →
  0 ≤ row → 0 ≤ col → 0 ≤ r → row + r < H → 0 ≤ c → col + c < W →
  (∀ r' c', D r' c' → 0 ≤ r' ∧ 0 ≤ c' ∧ col + c' < W) → ¬ D r c →
  ∃ ops'', mark_nop test (row * W + col + r * W + c) r c ops' = Run ops'' ∧
    marked test W row col (λ r' c', D r' c' ∨ (r' = r ∧ c' = c)) ops ops''.
Proof.
  intros M Hlen Hrow Hcol Hr HrH Hc HcW HD Hnot. pose proof M as [M1 M2 M3 M4].
  replace (row * W + col + r * W + c) with ((row + r) * W + (col + c)) by lia.
  assert (Hdiff : ∀ r' c', D r' c' →
      Z.to_nat ((row + r) * W + (col + c)) ≠ Z.to_nat ((row + r') * W + (col + c'))).
  { intros r' c' H' E. destruct (HD r' c' H') as (A1 & A2 & A3).
    destruct (cell_index_inj W (row + r) (col + c) (row + r') (col + c')) as [E1 E2]; [lia..|nia|].
    by assert (r' = r ∧ c' = c) as [-> ->] by lia. }
  assert (Hold : ops' !! Z.to_nat ((row + r) * W + (col + c))
                 = ops !! Z.to_nat ((row + r) * W + (col + c))) by (apply M3; auto).
  destruct (cell_at_ok ops' ((row + r) * W + (col + c))) as (op & Ecell & Hop); [nia|].
  unfold mark_nop. rewrite Ecell, run_bind_run. destruct (test r c op) eqn:Ht.
  - rewrite store_ok by nia. eexists. split; [done|]. split.
    + by rewrite length_insert.
    + intros r' c' op' [H'|[-> ->]] Hop'.
      * rewrite list_lookup_insert_ne by (by apply Hdiff). by apply M2.
      * rewrite list_lookup_insert_eq by (by apply lookup_lt_Some in Hop).
        assert (op' = op) as -> by congruence. by rewrite Ht.
    + intros i Hi. rewrite list_lookup_insert_ne by (apply not_eq_sym, Hi; by right).
      apply M3. intros r' c' H'. apply Hi. by left.
    + intros i op' Hi. apply list_lookup_insert_Some in Hi as [(<- & <- & _)|[_ Hi]]; [|by apply M4].
      exists op. rewrite <-Hold. by auto.
  - eexists. split; [done|]. split; [done|..|done].
    + intros r' c' op' [H'|[-> ->]] Hop'; [by apply M2|].
      assert (op' = op) as -> by congruence. by rewrite Ht.
    + intros i Hi. apply M3. intros r' c' H'. apply Hi. by left.
Qed.

Definition in_rect (w h r c : Z) : Prop := 0 ≤ r < h ∧ 0 ≤ c < w.

Lemma rect_mark_ok test W H row col ops w h :
  len ops = W * H → 0 ≤ row → 0 ≤ col → col + w ≤ W → 0 ≤ h → row + h ≤ H →
  ∃ ops', rect_mark test ops W (row * W + col) w h = Run ops' ∧
    marked test W row col (in_rect w h) ops ops'.
Proof.
  intros Hlen Hrow Hcol Hw Hh HhH. unfold rect_mark.
  destruct (for_range_inv (λ r ops', marked test W row col (in_rect w r) ops ops') 0 (h - 1)
    (λ r ops, for_range 0 (w - 1)
       (λ c ops, mark_nop test (row * W + col + r * W + c) r c ops) ops) ops)
    as (ops' & -> & M); [lia| | |].
  - split; [done|..].
    + intros r c op [? ?]. lia.
    + done.
    + eauto.
  - intros r ops1 Hr M1.
    destruct (Z.le_gt_cases 0 w) as [Hw0|Hw0].
    + destruct (for_range_inv
        (λ c ops', marked test W row col (λ r' c', in_rect w r r' c' ∨ (r' = r ∧ 0 ≤ c' < c)) ops ops')
        0 (w - 1) (λ c ops, mark_nop test (row * W + col + r * W + c) r c ops) ops1)
        as (ops2 & -> & M2); [lia| | |].
      * eapply marked_ext; [|done]. intros r' c'. unfold in_rect. lia.
      * intros c ops2 Hc M2.
        destruct (mark_nop_ok test W H row col _ ops ops2 r c M2 Hlen) as (ops3 & E & M3);
          try (intros; unfold in_rect in *; lia).
        exists ops3. split; [done|]. eapply marked_ext; [|done].
        intros r' c'. unfold in_rect. lia.
      * exists ops2. split; [done|]. eapply marked_ext; [|done].
        intros r' c'. unfold in_rect. lia.
    + rewrite for_range_empty by lia. exists ops1. split; [done|]. eapply marked_ext; [|done].
      intros r' c'. unfold in_rect. lia.
  - exists ops'. split; [done|]. eapply marked_ext; [|done].
    intros r c. unfold in_rect. lia.
Qed.

(** ** Scans of the grid *)

Record display_ok (d : guac_terminal_display) : Prop := {
  display_ok_operations : len (operations d) = disp_width d * disp_height d;
  display_ok_width : 0 ≤ disp_width d ≤ GUAC_TERMINAL_MAX_COLUMNS;
  display_ok_height : 0 ≤ disp_height d ≤ GUAC_TERMINAL_MAX_ROWS;
}.

(** Everything but the pending operations, the calls and what only a flush reads. *)

Definition frame (d : guac_terminal_display) : guac_terminal_display :=
  d <| operations := [] |> <| calls := [] |> <| unflushed_set := false |>
    <| glyph_foreground := mk_color 0 0 0 0 |> <| glyph_background := mk_color 0 0 0 0 |>.

Definition display_kept (d d' : guac_terminal_display) : Prop :=
  display_ok d' ∧ frame d' = frame d.

Lemma display_kept_refl d : display_ok d → display_kept d d.
Proof. by split. Qed.

Lemma display_kept_trans d1 d2 d3 : display_kept d1 d2 → display_kept d2 d3 → display_kept d1 d3.
Proof. intros [_ E1] [H E2]. split; [done|congruence]. Qed.

Lemma display_kept_width d d' : display_kept d d' → disp_width d' = disp_width d.
Proof. intros [_ E]. exact (f_equal disp_width E). Qed.

Lemma display_kept_height d d' : display_kept d d' → disp_height d' = disp_height d.
Proof. intros [_ E]. exact (f_equal disp_height E). Qed.

(** The operations may have been performed, none is new. *)

Definition shrinks (d d' : guac_terminal_display) : Prop :=
  display_kept d d' ∧
  ∀ i op', operations d' !! i = Some op' →
    ∃ op, operations d !! i = Some op ∧ (op' = op ∨ op' = nop op).

Lemma shrinks_refl d : display_ok d → shrinks d d.
Proof. intros H. split; [by apply display_kept_refl|eauto]. Qed.

Lemma shrinks_trans d1 d2 d3 : shrinks d1 d2 → shrinks d2 d3 → shrinks d1 d3.
Proof.
  intros [K1 S1] [K2 S2]. split; [by eapply display_kept_trans|].
  intros i op3 H3. destruct (S2 i op3 H3) as (op2 & H2 & E2).
  destruct (S1 i op2 H2) as (op1 & H1 & E1). exists op1. split; [done|].
  destruct E1 as [->| ->], E2 as [->| ->]; auto.
Qed.

Lemma for_each_ok (I : Z → Z → guac_terminal_display → Prop) visit d :
  0 ≤ disp_width d → 0 ≤ disp_height d → I 0 0 d →
  (∀ r c t, 0 ≤ r < disp_height d → 0 ≤ c < disp_width d → I r c t →
     ∃ t', visit r c (r * disp_width d + c) t = Run t' ∧ I r (c + 1) t') →
  (∀ r t, 0 ≤ r < disp_height d → I r (disp_width d) t → I (r + 1) 0 t) →
  ∃ d', for_each_operation visit d = Run d' ∧ I (disp_height d) 0 d'.
Proof.
  intros HW HH Hd Hv Hr. unfold for_each_operation.
  destruct (for_range_inv (λ r t, I r 0 t) 0 (disp_height d - 1)
    (λ row t, for_range 0 (disp_width d - 1)
       (λ col t, visit row col (row * disp_width d + col) t) t) d) as (d' & E & H'); [lia|done| |].
  - intros r t Hr' Ht.
    destruct (for_range_inv (λ c t, I r c t) 0 (disp_width d - 1)
      (λ col t, visit r col (r * disp_width d + col) t) t) as (t' & E & H'); [lia|done| |].
    + intros c t' Hc Ht'. apply Hv; [lia|lia|done].
    + exists t'. split; [done|]. apply Hr; [lia|].
      by replace (disp_width d - 1 + 1) with (disp_width d) in H' by lia.
  - exists d'. split; [done|]. by replace (disp_height d - 1 + 1) with (disp_height d) in H' by lia.
Qed.

(** A scan whose visits leave no operation of type [T] behind leaves none. *)

Definition cell (d : guac_terminal_display) (r c : Z) : option guac_terminal_operation :=
  operations d !! Z.to_nat (r * disp_width d + c).

Definition lacks (T : guac_terminal_operation_type) (d : guac_terminal_display) (r c : Z) : Prop :=
  ∀ op, cell d r c = Some op → type op ≠ T.

Lemma shrinks_lacks T d d' r c : T ≠ GUAC_CHAR_NOP → shrinks d d' → lacks T d r c → lacks T d' r c.
Proof.
  intros HT [K S] H op' Hop'. unfold cell in Hop'. rewrite (display_kept_width _ _ K) in Hop'.
  destruct (S _ _ Hop') as (op & Hop & [->| ->]); [by apply H|]. cbn. by intros <-.
Qed.

Lemma for_each_lacks T visit d :
  T ≠ GUAC_CHAR_NOP → display_ok d →
  (∀ r c t, 0 ≤ r < disp_height d → 0 ≤ c < disp_width d → display_kept d t →
     ∃ t', visit r c (r * disp_width d + c) t = Run t' ∧ shrinks t t' ∧ lacks T t' r c) →
  ∃ d', for_each_operation visit d = Run d' ∧ shrinks d d' ∧
    ∀ op, op ∈ operations d' → type op ≠ T.
Proof.
  intros HT Hd Hv. pose proof Hd as [H1 H2 H3].
  destruct (for_each_ok (λ r c t, shrinks d t ∧
    ∀ r' c', 0 ≤ r' → 0 ≤ c' < disp_width d → r' < r ∨ r' = r ∧ c' < c → lacks T t r' c') visit d)
    as (d' & E & S & HL); [lia|lia|..].
  - split; [by apply shrinks_refl|]. intros; lia.
  - intros r c t Hr Hc [S HL]. destruct (Hv r c t Hr Hc (proj1 S)) as (t' & E & S' & L').
    exists t'. split; [done|]. split; [by eapply shrinks_trans|]. intros r' c' Hr' Hc' Hb.
    destruct (decide (r' = r ∧ c' = c)) as [[-> ->]|Hne]; [done|].
    eapply shrinks_lacks; [done..|]. apply HL; lia.
  - intros r t Hr [S HL]. split; [done|]. intros r' c' Hr' Hc' Hb. apply HL; lia.
  - exists d'. split; [done|]. split; [done|]. intros op Hop.
    apply list_elem_of_lookup_1 in Hop as [i Hi]. pose proof (lookup_lt_Some _ _ _ Hi) as Hlt.
    destruct S as [K _]. pose proof (display_kept_width _ _ K) as EW.
    pose proof (display_kept_height _ _ K) as EH. pose proof (display_ok_operations _ (proj1 K)) as EL.
    rewrite EW, EH in EL.
    assert (HW : 0 < disp_width d) by nia.
    pose proof (Z.div_mod (Z.of_nat i) (disp_width d) ltac:(lia)) as Edm.
    pose proof (Z.mod_pos_bound (Z.of_nat i) (disp_width d) HW) as Hm.
    apply (HL (Z.of_nat i / disp_width d) (Z.of_nat i mod disp_width d)); [apply Z.div_pos; lia|lia| |].
    + left. apply Z.div_lt_upper_bound; lia.
    + unfold cell. rewrite EW. rewrite <-Hi. f_equal. lia.
Qed.

(** ** Flushing *)

(** The rectangle that begins at a cell whose operation belongs to it, with it performed. *)

Lemma rect_performed test d r c op :
  display_ok d → 0 ≤ r < disp_height d → 0 ≤ c < disp_width d → cell d r c = Some op →
  ∃ w h ops',
    rect_size test (operations d) (disp_width d) (disp_height d) r c (r * disp_width d + c)
      = Run (w, h) ∧
    rect_mark test (operations d) (disp_width d) (r * disp_width d + c) w h = Run ops' ∧
    marked test (disp_width d) r c (in_rect w h) (operations d) ops' ∧
    c + w ≤ disp_width d ∧ 1 ≤ h ∧ r + h ≤ disp_height d ∧
    (test 0 0 op = true → 1 ≤ w ∧ ∀ r' c', in_rect w h r' c' →
       belongs test (operations d) ((r + r') * disp_width d + (c + c')) r' c').
Proof.
  intros [H1 H2 H3] Hr Hc Hop.
  destruct (rect_size_ok test (operations d) (disp_width d) (disp_height d) r c)
    as (w & h & E1 & Hw & Hh & HhH & Hall); [lia|lia|lia|].
  destruct (rect_mark_ok test (disp_width d) (disp_height d) r c (operations d) w h)
    as (ops' & E2 & M); [lia..|].
  exists w, h, ops'. split; [done|]. split; [done|]. split; [done|]. split; [done|].
  split; [done|]. split; [done|]. intros Ht. destruct Hall as [Hw1 Hall].
  - by exists op.
  - split; [done|]. intros r' c' [? ?]. by apply Hall.
Qed.

Lemma marked_shrinks test r c D d ops' f :
  display_ok d → marked test (disp_width d) r c D (operations d) ops' →
  (∀ x, operations (f x) = operations x) → (∀ x, frame (f x) = frame x) →
  (∀ x, disp_width (f x) = disp_width x) → (∀ x, disp_height (f x) = disp_height x) →
  shrinks d (f (d <| operations := ops' |>)).
Proof.
  intros [H1 H2 H3] M Ho Hf Hw Hh. split; [split|].
  - split; rewrite ?Ho, ?Hw, ?Hh; cbn; [by rewrite (marked_length _ _ _ _ _ _ _ M)|done|done].
  - by rewrite Hf.
  - intros i op'. rewrite Ho. apply (marked_some _ _ _ _ _ _ _ M).
Qed.

Lemma flush_copy_at_ok r c d :
  display_ok d → 0 ≤ r < disp_height d → 0 ≤ c < disp_width d →
  ∃ d', flush_copy_at r c (r * disp_width d + c) d = Run d' ∧ shrinks d d' ∧
    lacks GUAC_CHAR_COPY d' r c.
Proof.
  intros Hd Hr Hc. unfold flush_copy_at.
  destruct (cell_at_ok (operations d) (r * disp_width d + c)) as (op & -> & Hop).
  { rewrite (display_ok_operations _ Hd). nia. }
  rewrite run_bind_run. destruct (decide _) as [Ht|Ht].
  - destruct (rect_performed (is_copy_of op) d r c op Hd Hr Hc Hop)
      as (w & h & ops' & -> & E & M & _ & Hh & _ & Hall).
    rewrite run_bind_run, E, run_bind_run. eexists. split; [done|].
    split; [by apply (marked_shrinks (is_copy_of op) r c (in_rect w h) d ops' (call _))|].
    intros op' Hop'. unfold cell in Hop'. cbn in Hop'.
    assert (Htest : is_copy_of op 0 0 op = true).
    { unfold is_copy_of. rewrite bool_decide_true, !Z.add_0_r, !Z.eqb_refl by done. done. }
    destruct (Hall Htest) as [Hw1 _].
    pose proof (marked_in _ _ _ _ _ _ _ M 0 0 op) as Hin. rewrite !Z.add_0_r, Htest in Hin.
    rewrite Hin in Hop'; [|unfold in_rect; lia|done]. injection Hop' as <-. done.
  - exists d. split; [done|]. split; [by apply shrinks_refl|].
    intros op' Hop'. unfold cell in Hop'. rewrite Hop in Hop'. by injection Hop' as <-.
Qed.

Lemma flush_clear_at_ok r c d :
  display_ok d → 0 ≤ r < disp_height d → 0 ≤ c < disp_width d →
  ∃ d', flush_clear_at r c (r * disp_width d + c) d = Run d' ∧ shrinks d d'.
Proof.
  intros Hd Hr Hc. unfold flush_clear_at.
  destruct (cell_at_ok (operations d) (r * disp_width d + c)) as (op & -> & Hop).
  { rewrite (display_ok_operations _ Hd). nia. }
  rewrite run_bind_run. destruct (is_clear op).
  - destruct (rect_performed (is_clear_to (default (fill_color (character op))
        (guac_terminal_display_lookup_color d (palette_index (fill_color (character op)))))) d r c op
        Hd Hr Hc Hop) as (w & h & ops' & -> & E & M & _).
    rewrite run_bind_run, E, run_bind_run. eexists. split; [done|].
    exact (marked_shrinks _ r c _ d ops' (call _) Hd M ltac:(done) ltac:(done) ltac:(done) ltac:(done)).
  - exists d. split; [done|]. by apply shrinks_refl.
Qed.

Section Flush.

Context `{Wcwidth}.

Lemma set_frame d row col codepoint :
  operations (__guac_terminal_set d row col codepoint) = operations d ∧
  frame (__guac_terminal_set d row col codepoint) = frame d.
Proof. unfold __guac_terminal_set. by zif. Qed.

Lemma flush_set_at_ok r c d :
  display_ok d → 0 ≤ r < disp_height d → 0 ≤ c < disp_width d →
  ∃ d', flush_set_at r c (r * disp_width d + c) d = Run d' ∧ shrinks d d' ∧
    lacks GUAC_CHAR_SET d' r c.
Proof.
  intros Hd Hr Hc. unfold flush_set_at. pose proof (display_ok_operations _ Hd) as HL.
  destruct (cell_at_ok (operations d) (r * disp_width d + c)) as (op & -> & Hop); [nia|].
  rewrite run_bind_run. destruct (decide _) as [Ht|Ht].
  - set (d1 := __guac_terminal_set _ _ _ _).
    assert (E1 : operations d1 = operations d ∧ frame d1 = frame d).
    { unfold d1. destruct (set_frame (__guac_terminal_set_colors d (attributes (character op))) r c
        (if guac_terminal_has_glyph (value (character op)) then value (character op)
         else GUAC_CHAR_SPACE)) as [-> ->]. done. }
    destruct E1 as [E1 F1]. rewrite E1, store_ok, run_bind_run by nia. clearbody d1.
    pose proof (f_equal disp_width F1) as W1. pose proof (f_equal disp_height F1) as H1. cbn in W1, H1.
    eexists. split; [done|]. split; [split; [split|]|].
    + destruct Hd. split; cbn; rewrite ?W1, ?H1, ?length_insert; done.
    + exact F1.
    + intros i op' Hi. cbn in Hi. apply list_lookup_insert_Some in Hi as [(<- & <- & _)|[_ Hi]]; eauto.
    + intros op' Hop'. unfold cell in Hop'. cbn in Hop'. rewrite W1 in Hop'.
      rewrite list_lookup_insert_eq in Hop' by (by apply lookup_lt_Some in Hop).
      injection Hop' as <-. done.
  - exists d. split; [done|]. split; [by apply shrinks_refl|].
    intros op' Hop'. unfold cell in Hop'. rewrite Hop in Hop'. by injection Hop' as <-.
Qed.

(** A flush performs every operation. *)

Lemma flush_operations_ok d :
  display_ok d →
  ∃ d', guac_terminal_display_flush_operations d = Run d' ∧ display_kept d d' ∧
    unflushed_set d' = false ∧ Forall (λ op, type op = GUAC_CHAR_NOP) (operations d').
Proof.
  intros Hd. unfold guac_terminal_display_flush_operations.
  assert (Hv : ∀ d t, display_kept d t → ∀ r c, r * disp_width d + c = r * disp_width t + c)
    by (intros d0 t K r c; by rewrite (display_kept_width _ _ K)).
  destruct (for_each_lacks GUAC_CHAR_COPY flush_copy_at d) as (d1 & E1 & S1 & L1); [done|done| |].
  { intros r c t Hr Hc K. rewrite (Hv d t K). apply flush_copy_at_ok; [by destruct K|..].
    - by rewrite (display_kept_height _ _ K).
    - by rewrite (display_kept_width _ _ K). }
  unfold __guac_terminal_display_flush_copy. rewrite E1, run_bind_run.
  pose proof (proj1 (proj1 S1)) as Hd1.
  destruct (for_each_ok (λ r c t, shrinks d1 t) flush_clear_at d1) as (d2 & E2 & S2);
    [apply Hd1|apply Hd1|by apply shrinks_refl| |done|].
  { intros r c t Hr Hc S. rewrite (Hv d1 t (proj1 S)).
    destruct (flush_clear_at_ok r c t) as (t' & E & S'); [apply S|..].
    - by rewrite (display_kept_height _ _ (proj1 S)).
    - by rewrite (display_kept_width _ _ (proj1 S)).
    - exists t'. split; [done|]. by eapply shrinks_trans. }
  unfold __guac_terminal_display_flush_clear. rewrite E2, run_bind_run.
  unfold __guac_terminal_display_flush_set. pose proof (proj1 (proj1 S2)) as Hd2.
  destruct (for_each_lacks GUAC_CHAR_SET flush_set_at d2) as (d3 & E3 & S3 & L3); [done|done| |].
  { intros r c t Hr Hc K. rewrite (Hv d2 t K). apply flush_set_at_ok; [by destruct K|..].
    - by rewrite (display_kept_height _ _ K).
    - by rewrite (display_kept_width _ _ K). }
  rewrite E3, run_bind_run. eexists. split; [done|].
  pose proof (shrinks_trans _ _ _ S1 (shrinks_trans _ _ _ S2 S3)) as [K _]. split.
  { destruct K as [[? ? ?] ?]. by split; [split|]. }
  split; [done|]. apply Forall_forall. intros op Hop. cbn in Hop.
  apply list_elem_of_In in Hop.
  specialize (L3 op Hop). apply list_elem_of_lookup_1 in Hop as [i Hi].
  destruct (shrinks_trans _ _ _ S2 S3) as [_ S23]. destruct (S23 i op Hi) as (op1 & Hop1 & E).
  assert (type op1 ≠ GUAC_CHAR_COPY) as HC by (by apply L1, (list_elem_of_lookup_2 _ i)).
  destruct E as [->| ->]; [|done]. by destruct (type op1).
Qed.

Lemma flush_kept d :
  display_ok d → ∃ d', guac_terminal_display_flush d = Run d' ∧ display_kept d d'.
Proof.
  intros Hd. unfold guac_terminal_display_flush.
  destruct (flush_operations_ok d Hd) as (d' & -> & [[? ? ?] ?] & _). rewrite run_bind_run.
  eexists. split; [done|]. by split; [split|].
Qed.

End Flush.

(** ** Changes to the grid *)

(** Checked arithmetic on offsets within a grid. *)

Definition small (z : Z) : Prop := 0 ≤ z ≤ 2 ^ 22.

Lemma small_u64 z : small z → u64 z = z.
Proof. unfold small. intros H. apply u64_small. unfold is_u64. lia. Qed.

Lemma mul_small a b :
  0 ≤ a ≤ 2048 → 0 ≤ b ≤ 2048 →
  or_abort (PRIV_guac_mem_ckd_mul_or_die [u64 a; u64 b]) = Run (a * b).
Proof.
  intros Ha Hb. rewrite !small_u64 by (unfold small; lia).
  unfold PRIV_guac_mem_ckd_mul_or_die, PRIV_guac_mem_ckd_mul, ckd_mul_loop.
  zif; [cbn; f_equal; lia|]. rewrite (proj2 (mul_check a b ltac:(lia) ltac:(lia)))
    by (unfold SIZE_MAX; nia).
  rewrite u64_small by (unfold is_u64; nia). done.
Qed.

Lemma mul_small_size a b :
  0 ≤ a ≤ 2048 → 0 ≤ b ≤ 2048 →
  or_abort (PRIV_guac_mem_ckd_mul_or_die [a; u64 b]) = Run (a * b).
Proof. intros Ha Hb. rewrite <-(mul_small a b), (small_u64 a) by (unfold small; lia). done. Qed.

Lemma mul_size_small a l :
  0 ≤ a ≤ 2048 → (∀ b, b ∈ l → 0 ≤ b ≤ 2048) → (List.length l ≤ 2)%nat →
  ∃ z, or_abort (PRIV_guac_mem_ckd_mul_or_die (a :: (u64 <$> l))) = Run z.
Proof.
  intros Ha Hl Hn. unfold PRIV_guac_mem_ckd_mul_or_die, PRIV_guac_mem_ckd_mul.
  assert (H : ∀ b, b ∈ l → u64 b = b ∧ 0 ≤ b ≤ 2048).
  { intros b Hb. specialize (Hl b Hb). split; [|done]. apply small_u64. unfold small. lia. }
  destruct l as [|b l]; [cbn; eauto|]. destruct (H b) as [Eb Hb]; [apply list_elem_of_here|].
  cbn [fmap list_fmap ckd_mul_loop]. rewrite Eb. zif; [cbn; eauto|].
  rewrite (proj2 (mul_check a b ltac:(lia) ltac:(lia))) by (unfold SIZE_MAX; nia).
  rewrite u64_small by (unfold is_u64; nia).
  destruct l as [|c l]; [cbn; eauto|].
  destruct (H c) as [Ec Hc]; [apply list_elem_of_further, list_elem_of_here|].
  destruct l; [|cbn in Hn; lia]. cbn [fmap list_fmap ckd_mul_loop]. rewrite Ec. zif; [cbn; eauto|].
  rewrite (proj2 (mul_check (a * b) c ltac:(nia) ltac:(lia))) by (unfold SIZE_MAX; nia).
  cbn. eauto.
Qed.

Lemma add_small a b :
  small a → small b → or_abort (PRIV_guac_mem_ckd_add_or_die [a; u64 b]) = Run (a + b).
Proof.
  intros Ha Hb. rewrite small_u64 by done. unfold small in *.
  unfold PRIV_guac_mem_ckd_add_or_die, PRIV_guac_mem_ckd_add, ckd_add_loop, SIZE_MAX.
  rewrite !u64_small by (unfold is_u64; lia). zif; [lia|done].
Qed.

Lemma sub_small a b :
  small a → 0 ≤ b ≤ a → or_abort (PRIV_guac_mem_ckd_sub_or_die [a; u64 b]) = Run (a - b).
Proof.
  intros Ha Hb. unfold small in *. rewrite small_u64 by (unfold small; lia).
  unfold PRIV_guac_mem_ckd_sub_or_die, PRIV_guac_mem_ckd_sub, ckd_sub_loop.
  zif; [lia|]. by rewrite u64_small by (unfold is_u64; lia).
Qed.

Lemma mark_copy_ok r c index ops :
  0 ≤ index < len ops → ∃ ops', mark_copy r c index ops = Run ops' ∧ len ops' = len ops.
Proof.
  intros Hi. unfold mark_copy. destruct (cell_at_ok ops index Hi) as (op & -> & _).
  rewrite run_bind_run. destruct (decide _); [|eauto].
  rewrite store_ok by done. eexists. split; [done|]. by rewrite length_insert.
Qed.

Lemma set_operations_kept d ops :
  display_ok d → len ops = len (operations d) → display_kept d (d <| operations := ops |>).
Proof.
  intros [H1 H2 H3] Hl. split; [|done]. split; cbn; [by rewrite Hl|done|done].
Qed.

(** The range of columns, or of rows, that a copy by [offset] may take within [size]. *)

Lemma copy_clip (size s e off : Z) :
  Z.abs off < size → size ≤ 2048 →
  ∃ s' e',
    (if 0 <=? off then
       s ← guac_terminal_fit_to_range s 0 (i32 (size - off - 1));
       e ← guac_terminal_fit_to_range e s (i32 (size - off - 1));
       Run (s, e)
     else
       s ← guac_terminal_fit_to_range s (- off) (size - 1);
       e ← guac_terminal_fit_to_range e s (size - 1);
       Run (s, e)) = Run (s', e') ∧
    0 ≤ s' ≤ e' ∧ e' < size ∧ 0 ≤ s' + off ∧ e' + off < size.
Proof.
  intros Ho Hs. zif.
  - rewrite i32_small by (unfold is_i32; lia).
    rewrite fit_to_range_ok, run_bind_run, fit_to_range_ok, run_bind_run by lia.
    do 2 eexists. split; [done|]. lia.
  - rewrite fit_to_range_ok, run_bind_run, fit_to_range_ok, run_bind_run by lia.
    do 2 eexists. split; [done|]. lia.
Qed.

Lemma display_copy_columns_kept d row s e off :
  display_ok d → Z.abs off < disp_width d →
  ∃ d', guac_terminal_display_copy_columns d row s e off = Run d' ∧ display_kept d d'.
Proof.
  intros Hd Ho. pose proof Hd as [HL HW HH]. unfold GUAC_TERMINAL_MAX_COLUMNS, GUAC_TERMINAL_MAX_ROWS in *.
  unfold guac_terminal_display_copy_columns. zif; [exists d; split; [done|by apply display_kept_refl]|].
  destruct (copy_clip (disp_width d) s e off) as (s' & e' & -> & Hs' & He' & Hd1 & Hd2); [lia|lia|].
  rewrite run_bind_run, mul_small, run_bind_run by lia.
  rewrite add_small, run_bind_run by (unfold small; nia).
  assert (E : (if 0 <=? off then or_abort (PRIV_guac_mem_ckd_add_or_die [row * disp_width d + s'; u64 off])
               else or_abort (PRIV_guac_mem_ckd_sub_or_die [row * disp_width d + s'; u64 (- off)]))
              = Run (row * disp_width d + s' + off)).
  { zif; [rewrite add_small by (unfold small; nia); f_equal; lia|].
    rewrite sub_small by (unfold small; nia). f_equal. lia. }
  rewrite E, run_bind_run.
  destruct (mul_size_small sizeof_operation [e' - s' + 1]) as (z & Ez);
    [unfold sizeof_operation; lia| |cbn; lia|].
  { intros b ->%list_elem_of_singleton. lia. }
  cbn [fmap list_fmap] in Ez. rewrite Ez, run_bind_run.
  destruct (memmove_run (operations d) (row * disp_width d + s' + off) (row * disp_width d + s')
    (e' - s' + 1)) as (ops1 & -> & L1); [nia..|]. rewrite run_bind_run.
  destruct (for_range_kept (λ ops, len ops = len (operations d)) s' e'
    (λ column ops, mark_copy row column (row * disp_width d + s' + off + (column - s')) ops) ops1)
    as (ops2 & -> & L2); [done| |].
  - intros j ops Hj HLo. destruct (mark_copy_ok row j (row * disp_width d + s' + off + (j - s')) ops)
      as (ops' & E' & L'); [nia|]. exists ops'. split; [done|congruence].
  - rewrite run_bind_run. eexists. split; [done|]. by apply set_operations_kept.
Qed.

Section Kept.

Context `{Wcwidth}.

Lemma display_copy_rows_kept d s e off :
  display_ok d → Z.abs off < disp_height d →
  ∃ d', guac_terminal_display_copy_rows d s e off = Run d' ∧ display_kept d d'.
Proof.
  intros Hd Ho. pose proof Hd as [HL HW HH]. unfold GUAC_TERMINAL_MAX_COLUMNS, GUAC_TERMINAL_MAX_ROWS in *.
  unfold guac_terminal_display_copy_rows.
  destruct (copy_clip (disp_height d) s e off) as (s' & e' & -> & Hs' & He' & Hd1 & Hd2); [lia|lia|].
  rewrite run_bind_run.
  assert (E : (if 0 <=? off then or_abort (PRIV_guac_mem_ckd_add_or_die [u64 s'; u64 off])
               else or_abort (PRIV_guac_mem_ckd_sub_or_die [u64 s'; u64 (- off)])) = Run (s' + off)).
  { rewrite (small_u64 s') by (unfold small; lia).
    zif; [rewrite add_small by (unfold small; lia); f_equal; lia|].
    rewrite sub_small by (unfold small; lia). f_equal. lia. }
  rewrite E, run_bind_run, mul_small, run_bind_run, mul_small_size, run_bind_run by lia.
  assert (E2 : ∃ d1, (if unflushed_set d && (0 <? off) then guac_terminal_display_flush_operations d
                      else Run d) = Run d1 ∧ display_kept d d1).
  { zif; [|exists d; split; [done|by apply display_kept_refl]].
    destruct (flush_operations_ok d Hd) as (d1 & -> & K & _). eauto. }
  destruct E2 as (d1 & -> & K1). rewrite run_bind_run.
  pose proof (display_kept_width _ _ K1) as W1. pose proof (proj1 K1) as Hd1'.
  pose proof (display_kept_height _ _ K1) as HH1. pose proof (display_ok_operations _ Hd1') as HL1.
  destruct (mul_size_small sizeof_operation [disp_width d1; e' - s' + 1]) as (z & Ez);
    [unfold sizeof_operation; lia| |cbn; lia|].
  { intros b Hb. rewrite !elem_of_cons, elem_of_nil in Hb. lia. }
  cbn [fmap list_fmap] in Ez. rewrite Ez, run_bind_run.
  rewrite W1 in *. rewrite HH1 in HL1.
  destruct (memmove_run (operations d1) ((s' + off) * disp_width d) (s' * disp_width d)
    (disp_width d * (e' - s' + 1))) as (ops1 & -> & L1); [nia..|]. rewrite run_bind_run.
  destruct (for_range_kept (λ ops, len ops = len (operations d1)) s' e' (λ row ops,
      for_range 0 (disp_width d - 1) (λ col ops,
        mark_copy row col ((s' + off) * disp_width d + (row - s') * disp_width d + col) ops) ops) ops1)
    as (ops2 & -> & L2); [done| |].
  - intros j ops Hj HLo. apply for_range_kept; [done|]. intros c ops' Hc HLo'.
    destruct (mark_copy_ok j c ((s' + off) * disp_width d + (j - s') * disp_width d + c) ops')
      as (ops3 & E' & L'); [nia|]. exists ops3. split; [done|congruence].
  - rewrite run_bind_run. eexists. split; [done|]. eapply display_kept_trans; [done|].
    by apply set_operations_kept.
Qed.

Lemma display_set_loop_kept row ch n : ∀ col e d,
  display_ok d → 1 ≤ width ch → 0 ≤ row < disp_height d → 0 ≤ col → e < disp_width d →
  e - col + 1 ≤ Z.of_nat n →
  ∃ d', display_set_loop n col e (row * disp_width d + col) ch d = Run d' ∧ display_kept d d'.
Proof.
  induction n as [|n IH]; intros col e d Hd Hw Hrow Hcol He Hn; cbn [display_set_loop]; zif;
    try lia; try (exists d; split; [done|by apply display_kept_refl]).
  pose proof (display_ok_operations _ Hd) as HL.
  destruct (cell_at_ok (operations d) (row * disp_width d + col)) as (op & -> & _); [nia|].
  rewrite run_bind_run.
  assert (E2 : ∃ d1, (if decide (type op = GUAC_CHAR_COPY)
                      then guac_terminal_display_flush_operations d else Run d) = Run d1
                     ∧ display_kept d d1).
  { destruct (decide _); [|exists d; split; [done|by apply display_kept_refl]].
    destruct (flush_operations_ok d Hd) as (d1 & -> & K & _). eauto. }
  destruct E2 as (d1 & -> & K1). rewrite run_bind_run.
  pose proof (display_kept_width _ _ K1) as W1. pose proof (display_kept_height _ _ K1) as H1.
  pose proof (display_ok_operations _ (proj1 K1)) as HL1. rewrite W1, H1 in HL1.
  destruct (cell_at_ok (operations d1) (row * disp_width d + col)) as (op1 & -> & _); [nia|].
  rewrite run_bind_run, store_ok, run_bind_run by nia.
  set (d2 := d1 <| operations := _ |>).
  assert (K2 : display_kept d1 d2).
  { apply set_operations_kept; [by destruct K1|]. by rewrite length_insert. }
  assert (W2 : disp_width d2 = disp_width d) by done.
  destruct (IH (col + width ch) e d2) as (d' & E & K'); [by destruct K2|done|cbn; lia|lia|cbn; lia|lia|].
  rewrite W2 in E. replace (row * disp_width d + col + width ch)
    with (row * disp_width d + (col + width ch)) by lia.
  exists d'. split; [done|]. eapply display_kept_trans; [exact K1|].
  eapply display_kept_trans; [exact K2|exact K'].
Qed.

Lemma display_set_columns_kept d row s e ch :
  display_ok d → 1 ≤ disp_width d → 0 ≤ width ch →
  ∃ d', guac_terminal_display_set_columns d row s e ch = Run d' ∧ display_kept d d'.
Proof.
  intros Hd Hw1 Hw. pose proof Hd as [HL HW HH].
  unfold GUAC_TERMINAL_MAX_COLUMNS, GUAC_TERMINAL_MAX_ROWS in *.
  unfold guac_terminal_display_set_columns.
  zif; [exists d; split; [done|by apply display_kept_refl]|].
  zif; [exists d; split; [done|by apply display_kept_refl]|].
  rewrite !fit_to_range_ok, !run_bind_run by lia. rewrite mul_small, run_bind_run by lia.
  set (s' := Z.max 0 (Z.min s _)). set (e' := Z.max 0 _).
  assert (0 ≤ s' < disp_width d ∧ 0 ≤ e' < disp_width d) as [Hs' He'] by (unfold s', e'; lia).
  clearbody s' e'.
  rewrite add_small, run_bind_run by (unfold small; nia).
  destruct (display_set_loop_kept row ch (S (List.length (operations d))) s' e' d)
    as (d' & -> & K); try done; [lia|lia|lia|nia|].
  rewrite run_bind_run. eexists. split; [done|].
  zif; [|done]. destruct K as [[? ? ?] ?]. by split; [split|].
Qed.

End Kept.

Lemma display_resize_ok fresh d w h :
  display_ok d → 0 ≤ w ≤ GUAC_TERMINAL_MAX_COLUMNS → 0 ≤ h ≤ GUAC_TERMINAL_MAX_ROWS →
  ∃ d', guac_terminal_display_resize fresh d w h = Run d' ∧ display_ok d' ∧
    disp_width d' = w ∧ disp_height d' = h.
Proof.
  intros Hd Hw Hh. unfold guac_terminal_display_resize. zif; [by exists d|].
  rewrite !assert_true by (rewrite andb_true_iff, !Z.leb_le; lia). rewrite !run_bind_run.
  eexists. split; [done|]. split; [|done]. split; cbn; [|done|done].
  rewrite length_fmap, length_seq. nia.
Qed.
