(* ===== verification/TermFlush.v ===== *)
(** * What a flush of clears paints (specification of TermDisplay.v)

    The calls to the surface are interpreted as changes to a screen of pixels.
    [__guac_terminal_display_flush_clear] merges the cells to be cleared into
    rectangles and fills each rectangle with one call: on the screen, this is
    the same as filling every cleared cell with its own colour. *)

From S2P Require Import Prelude RecordUpdate Mem Run TermTypes TermPalette TermBuffer TermRowSpec TermDisplay TermDisplaySpec.
Local Open Scope Z_scope.

(** ** The screen *)

Inductive pixel :=
| Filled (red green blue alpha : Z)
| Drawn (text : list byte) (foreground background : guac_terminal_color) (dx dy : Z)
| Blank.

Definition screen : Type := Z → Z → pixel.

Definition inside (x y x0 y0 w h : Z) : bool :=
  (x0 <=? x) && (x <? x0 + w) && (y0 <=? y) && (y <? y0 + h).

(** The calls of a flush on the pixel of column [x] and row [y]. *)

Definition paint (s : screen) (c : display_call) : screen :=
  match c with
  | surface_copy sx sy w h dx dy =>
      λ x y, if inside x y dx dy w h then s (x - dx + sx) (y - dy + sy) else s x y
  | surface_set x0 y0 w h r g b a =>
      λ x y, if inside x y x0 y0 w h then Filled r g b a else s x y
  | surface_draw x0 y0 w h text fg bg =>
      λ x y, if inside x y x0 y0 w h then Drawn text fg bg (x - x0) (y - y0) else s x y
  | _ => s
  end.

Definition shown (calls : list display_call) (s : screen) : screen := foldl paint s calls.

(** ** Colours *)

Definition resolve (d : guac_terminal_display) (c : guac_terminal_color) : guac_terminal_color :=
  default c (guac_terminal_display_lookup_color d (palette_index c)).

Definition same_rgb (a b : guac_terminal_color) : Prop :=
  red a = red b ∧ green a = green b ∧ blue a = blue b.

(** The palette knows its indices, and its 256 colours are there. *)

Record palette_ok (d : guac_terminal_display) : Prop := {
  palette_ok_index i c : guac_terminal_display_lookup_color d i = Some c → palette_index c = i;
  palette_ok_length : List.length (palette d) = 256%nat;
}.

(** A colour that the palette has not changed since it was chosen. *)

Definition current_color (d : guac_terminal_display) (c : guac_terminal_color) : Prop :=
  -3 ≤ palette_index c ≤ 255 ∧ same_rgb (resolve d c) c.

Lemma lookup_color_some d i :
  List.length (palette d) = 256%nat → -3 ≤ i ≤ 255 → i ≠ -1 →
  is_Some (guac_terminal_display_lookup_color d i).
Proof.
  intros Hl Hi Hne. unfold guac_terminal_display_lookup_color, GUAC_TERMINAL_COLOR_FOREGROUND,
    GUAC_TERMINAL_COLOR_BACKGROUND. repeat (zif; [done|]).
  zif; [apply orb_true_iff in Heqb1 as [H|H]; zbool_hyps; lia|].
  apply lookup_lt_is_Some. lia.
Qed.

Lemma colorcmp_index a b :
  palette_index a ≠ -1 → palette_index b ≠ -1 →
  -3 ≤ palette_index a ≤ 255 → -3 ≤ palette_index b ≤ 255 →
  guac_terminal_colorcmp a b = palette_index a - palette_index b.
Proof.
  intros Ha Hb Ra Rb. unfold guac_terminal_colorcmp.
  rewrite !(proj2 (Z.eqb_neq _ _)) by done. cbn. apply i32_small. unfold is_i32. lia.
Qed.

Lemma colorcmp_rgb a b :
  palette_index a = -1 ∨ palette_index b = -1 →
  guac_terminal_colorcmp a b = 0 ↔ same_rgb a b.
Proof.
  intros H. unfold guac_terminal_colorcmp, same_rgb.
  assert (E : negb (palette_index a =? -1) && negb (palette_index b =? -1) = false).
  { destruct H as [->| ->]; [done|]. by rewrite andb_false_r. }
  rewrite E. destruct (Z.eqb_spec (red a) (red b)), (Z.eqb_spec (green a) (green b)),
    (Z.eqb_spec (blue a) (blue b)); cbn; intuition lia.
Qed.

Lemma resolve_index d c :
  palette_ok d → palette_index (resolve d c) = palette_index c.
Proof.
  intros Hd. unfold resolve. destruct (guac_terminal_display_lookup_color d _) eqn:E; [|done].
  by apply (palette_ok_index d Hd).
Qed.

(** A colour joins the rectangle that it begins. *)

Lemma colorcmp_resolve d c :
  palette_ok d → current_color d c → guac_terminal_colorcmp c (resolve d c) = 0.
Proof.
  intros Hd [Hr Hc]. pose proof (resolve_index d c Hd) as E.
  destruct (decide (palette_index c = -1)) as [Hm|Hm].
  - apply colorcmp_rgb; [by left|]. unfold same_rgb in *. intuition congruence.
  - rewrite colorcmp_index by (rewrite ?E; done). lia.
Qed.

(** Colours that join a rectangle are filled alike. *)

Lemma colorcmp_joins d c c' :
  palette_ok d → current_color d c → current_color d c' →
  guac_terminal_colorcmp c (resolve d c') = 0 → same_rgb (resolve d c) (resolve d c').
Proof.
  intros Hd [Hr Hc] [Hr' Hc'] E. pose proof (resolve_index d c' Hd) as E'.
  destruct (decide (palette_index c = -1 ∨ palette_index c' = -1)) as [Hm|Hm].
  - apply colorcmp_rgb in E; [|by rewrite E']. unfold same_rgb in *. intuition congruence.
  - rewrite colorcmp_index in E by (rewrite ?E'; lia). rewrite E' in E.
    assert (palette_index c = palette_index c') as Hi by lia.
    destruct (lookup_color_some d (palette_index c)) as [x Hx];
      [by apply palette_ok_length|done|lia|].
    unfold resolve. rewrite <-Hi, Hx. done.
Qed.

(** ** Flushing clears *)

Section Clears.

Context (d : guac_terminal_display) (s : screen).

(** The size of the grid in pixels fits an [int]. *)

Record pixels_ok : Prop := {
  pixels_ok_display : display_ok d;
  pixels_ok_width : 1 ≤ char_width d < 2 ^ 20;
  pixels_ok_height : 1 ≤ char_height d < 2 ^ 20;
}.

Context (Hpixels : pixels_ok) (Hpalette : palette_ok d).

Definition clears_current : Prop :=
  ∀ r c op, cell d r c = Some op → is_clear op = true →
    current_color d (fill_color (character op)).

Context (Hcurrent : clears_current).

Definition in_grid (r c : Z) : Prop := 0 ≤ r < disp_height d ∧ 0 ≤ c < disp_width d.

#[export] Instance in_grid_dec r c : Decision (in_grid r c).
Proof. unfold in_grid. apply _. Defined.

Definition filled (op : guac_terminal_operation) : pixel :=
  let color := resolve d (fill_color (character op)) in
  Filled (red color) (green color) (blue color) 0xFF.

(** The screen once the clears of the cells [D] have been performed. *)

Definition cleared_screen (D : Z → Z → Prop) `{∀ r c, Decision (D r c)} : screen := λ x y,
  let r := y / char_height d in
  let c := x / char_width d in
  if decide (in_grid r c ∧ D r c) then
    match cell d r c with
    | Some op => if is_clear op then filled op else s x y
    | None => s x y
    end
  else s x y.

(** [t] is [d] with the clears of some cells performed. *)

Definition cleared (t : guac_terminal_display) (r c : Z) : Prop :=
  ∃ op, cell t r c = Some op ∧ type op = GUAC_CHAR_NOP.

#[export] Instance cleared_dec t r c : Decision (cleared t r c).
Proof.
  unfold cleared. destruct (cell t r c) as [op|].
  - destruct (decide (type op = GUAC_CHAR_NOP)); [left; eauto|right].
    intros (x & Hx & Hn). congruence.
  - right. intros (x & Hx & _). done.
Defined.

Record partly_cleared (t : guac_terminal_display) : Prop := {
  partly_kept : display_kept d t;
  partly_cells r c op :
    in_grid r c → cell d r c = Some op →
    cell t r c = Some op ∨ is_clear op = true ∧ cell t r c = Some (nop op);
  partly_calls : ∃ new, calls t = calls d ++ new ∧
    ∀ x y, shown new s x y = cleared_screen (cleared t) x y;
}.

Lemma clear_is_set op : is_clear op = true → type op = GUAC_CHAR_SET.
Proof. unfold is_clear. intros H. apply andb_true_iff in H as [H _]. by apply bool_decide_eq_true in H. Qed.

Lemma grid_cell r c : in_grid r c → is_Some (cell d r c).
Proof.
  intros [Hr Hc]. apply lookup_lt_is_Some.
  pose proof (display_ok_operations _ (pixels_ok_display Hpixels)). nia.
Qed.

Lemma cleared_screen_ext (D D' : Z → Z → Prop) `{∀ r c, Decision (D r c), ∀ r c, Decision (D' r c)} x y :
  let r := y / char_height d in
  let c := x / char_width d in
  (∀ op, in_grid r c → cell d r c = Some op → is_clear op = true → D r c ↔ D' r c) →
  cleared_screen D x y = cleared_screen D' x y.
Proof.
  intros r c HD. unfold cleared_screen. fold r c.
  destruct (decide (in_grid r c)) as [Hg|Hg].
  2: { rewrite !decide_False by tauto. done. }
  destruct (grid_cell r c Hg) as [op Hop]. rewrite Hop.
  destruct (is_clear op) eqn:Hcl.
  - specialize (HD op Hg Hop Hcl). by destruct (decide (in_grid r c ∧ D r c)),
      (decide (in_grid r c ∧ D' r c)); tauto.
  - by repeat destruct (decide _).
Qed.

Lemma partly_cleared_refl : partly_cleared d.
Proof.
  split; [by apply display_kept_refl, pixels_ok_display|by left|].
  exists []. split; [by rewrite app_nil_r|]. intros x y. cbn. unfold cleared_screen.
  destruct (decide _) as [[Hg (op & Hop & Ht)]|]; [|done]. rewrite Hop.
  destruct (is_clear op) eqn:E; [|done]. apply clear_is_set in E. congruence.
Qed.

Lemma lookup_frame t i :
  frame t = frame d →
  guac_terminal_display_lookup_color t i = guac_terminal_display_lookup_color d i.
Proof.
  intros E. pose proof (f_equal default_foreground E) as E1. pose proof (f_equal default_background E) as E2.
  pose proof (f_equal palette E) as E3. cbn in E1, E2, E3.
  unfold guac_terminal_display_lookup_color. by rewrite E1, E2, E3.
Qed.

(** The pixels of the rectangle of [w] by [h] cells at row [r] and column [c]. *)

Lemma inside_cells x y r c w h :
  in_grid r c → 0 ≤ w → c + w ≤ disp_width d → 0 ≤ h → r + h ≤ disp_height d →
  inside x y (i32 (c * char_width d)) (i32 (r * char_height d))
    (i32 (w * char_width d)) (i32 (h * char_height d)) = true
  ↔ in_rect w h (y / char_height d - r) (x / char_width d - c).
Proof.
  intros [Hr Hc] Hw HwW Hh HhH. destruct Hpixels as [[_ HW HH] Hcw Hch].
  unfold GUAC_TERMINAL_MAX_COLUMNS, GUAC_TERMINAL_MAX_ROWS in *.
  rewrite !i32_small by (unfold is_i32; nia). unfold inside, in_rect.
  rewrite !andb_true_iff, !Z.leb_le, !Z.ltb_lt.
  pose proof (Z.div_mod x (char_width d) ltac:(lia)). pose proof (Z.mod_pos_bound x (char_width d) ltac:(lia)).
  pose proof (Z.div_mod y (char_height d) ltac:(lia)). pose proof (Z.mod_pos_bound y (char_height d) ltac:(lia)).
  split; intros Hxy; nia.
Qed.

(** One visit of the scan. *)

Lemma flush_clear_step r c t :
  partly_cleared t → in_grid r c →
  ∃ t', flush_clear_at r c (r * disp_width d + c) t = Run t' ∧ partly_cleared t' ∧
    (∀ r' c', in_grid r' c' → cleared t r' c' → cleared t' r' c') ∧
    (∀ op, cell d r c = Some op → is_clear op = true → cleared t' r c).
Proof.
  intros [K Hcells (new & Hnew & Hshown)] [Hr Hc].
  pose proof (display_kept_width _ _ K) as EW. pose proof (display_kept_height _ _ K) as EH.
  destruct (grid_cell r c (conj Hr Hc)) as [op Hop].
  destruct (Hcells r c op (conj Hr Hc) Hop) as [Ht|[Hcl Ht]].
  all: unfold flush_clear_at; rewrite <-EW; unfold cell in Ht;
    rewrite (cell_at_lookup (operations t) (r * disp_width t + c) _ ltac:(nia) Ht), run_bind_run.
  2: { exists t. split; [done|]. split; [by split; eauto|]. split; [done|]. intros op' _ _.
       exists (nop op). split; [exact Ht|done]. }
  destruct (is_clear op) eqn:Hcl.
  2: { exists t. split; [done|]. split; [by split; eauto|]. split; [done|]. intros op' Hop' Hcl'. congruence. }
  rewrite (lookup_frame t _ (proj2 K)). set (color := default _ _).
  assert (Ecolor : color = resolve d (fill_color (character op))) by done. clearbody color.
  destruct (rect_performed (is_clear_to color) t r c op (proj1 K)) as
    (w & h & ops' & E1 & E2 & M & HwW & Hh & HhH & Hall); [by rewrite EH|by rewrite EW|done|].
  rewrite E1, run_bind_run, E2, run_bind_run. rewrite EW, EH in *.
  pose proof (Hcurrent r c op Hop Hcl) as Hcur.
  assert (Htest : is_clear_to color 0 0 op = true).
  { unfold is_clear_to. by rewrite Hcl, Ecolor, colorcmp_resolve by done. }
  destruct (Hall Htest) as [Hw1 Hrect].
  set (t1 := t <| operations := ops' |>).
  assert (Hcell1 : ∀ r' c' x, in_grid r' c' → cell t r' c' = Some x →
    in_rect w h (r' - r) (c' - c) ∧ is_clear_to color (r' - r) (c' - c) x = true ∧
      cell t1 r' c' = Some (nop x) ∨
    ¬ in_rect w h (r' - r) (c' - c) ∧ cell t1 r' c' = Some x).
  { intros r' c' x [Hr' Hc'] Hx. unfold cell in Hx |- *. cbn. rewrite EW in *.
    destruct (decide (in_rect w h (r' - r) (c' - c))) as [Hin|Hout]; [left|right].
    - pose proof (marked_in _ _ _ _ _ _ _ M _ _ x Hin) as Hm.
      destruct (Hrect _ _ Hin) as (x' & Hx' & Ht').
      replace (r + (r' - r)) with r' in * by lia. replace (c + (c' - c)) with c' in * by lia.
      assert (x' = x) as -> by congruence. rewrite Ht' in Hm. auto.
    - split; [done|]. rewrite <-Hx. apply (marked_out _ _ _ _ _ _ _ M).
      intros r1 c1 [H1 H2] E. destruct (cell_index_inj (disp_width d) r' c' (r + r1) (c + c1)) as [E3 E4];
        [lia|lia|nia|]. apply Hout. unfold in_rect. lia. }
  assert (Hdone : ∀ r' c' op', in_grid r' c' → cell d r' c' = Some op' → is_clear op' = true →
    cleared t1 r' c' ↔ cleared t r' c' ∨ in_rect w h (r' - r) (c' - c)).
  { intros r' c' op' Hg Hop' Hcl'. destruct (Hcells r' c' op' Hg Hop') as [Hx|[_ Hx]].
    - pose proof (clear_is_set _ Hcl') as Hset.
      destruct (Hcell1 r' c' op' Hg Hx) as [(Hin & _ & E)|(Hout & E)].
      + split; [by right|]. intros _. by exists (nop op').
      + split; [|intros [H|H]; [|done]].
        * intros (x & Ex & Tx). congruence.
        * destruct H as (x & Ex & Tx). congruence.
    - split; [intros _; left; by exists (nop op')|]. intros _.
      destruct (Hcell1 r' c' _ Hg Hx) as [(_ & _ & E)|(_ & E)]; eexists; (split; [exact E|done]). }
  assert (E3 : char_width t = char_width d) by exact (f_equal char_width (proj2 K)).
  assert (E4 : char_height t = char_height d) by exact (f_equal char_height (proj2 K)).
  eexists. split; [done|]. split; [split|split].
  - destruct K as [[K1 K2 K3] KF]. split; [split|]; cbn; [|done|done|done].
    by rewrite (marked_length _ _ _ _ _ _ _ M).
  - intros r' c' op' Hg Hop'. change (cell (call _ _) r' c') with (cell t1 r' c').
    destruct (Hcells r' c' op' Hg Hop') as [Hx|[Hcl' Hx]];
      destruct (Hcell1 r' c' _ Hg Hx) as [(_ & Ht' & E)|(_ & E)]; rewrite E; auto.
    right. split; [|done]. unfold is_clear_to in Ht'. by apply andb_true_iff in Ht' as [? _].
  - eexists (new ++ [_]). split; [cbn; by rewrite Hnew, <-app_assoc|]. intros x y.
    unfold shown. rewrite foldl_app. cbn [foldl paint]. fold (shown new s).
    rewrite E3, E4, Hshown.
    pose proof (inside_cells x y r c w h (conj Hr Hc) ltac:(lia) ltac:(lia) ltac:(lia) ltac:(lia)) as Hin.
    set (b := inside _ _ _ _ _ _) in *. set (D := cleared t1).
    change (cleared (call _ _)) with (cleared t1). unfold cleared_screen.
    destruct b.
    + pose proof (proj1 Hin eq_refl) as [H1 H2].
      assert (Hg : in_grid (y / char_height d) (x / char_width d)) by (unfold in_grid; lia).
      destruct (Hrect _ _ (conj H1 H2)) as (x' & Hx' & Ht').
      replace (r + (y / char_height d - r)) with (y / char_height d) in Hx' by lia.
      replace (c + (x / char_width d - c)) with (x / char_width d) in Hx' by lia.
      destruct (grid_cell _ _ Hg) as [op' Hop'].
      unfold is_clear_to in Ht'. apply andb_true_iff in Ht' as [Hcl' Hcmp]. apply Z.eqb_eq in Hcmp.
      assert (x' = op') as ->.
      { destruct (Hcells _ _ op' Hg Hop') as [Hx|[_ Hx]]; unfold cell in Hx; rewrite EW in Hx.
        - congruence.
        - rewrite Hx' in Hx. injection Hx as ->. done. }
      rewrite Hop', Hcl', decide_True.
      * unfold filled. rewrite Ecolor in Hcmp |- *.
        destruct (colorcmp_joins d _ _ Hpalette (Hcurrent _ _ op' Hop' Hcl') Hcur Hcmp) as (-> & -> & ->).
        done.
      * split; [done|]. apply (Hdone _ _ op' Hg Hop' Hcl'). right. by split.
    + apply (cleared_screen_ext (cleared t) (cleared t1)). intros op' Hg Hop' Hcl'.
      rewrite (Hdone _ _ op' Hg Hop' Hcl'). split; [by left|]. intros [|Hr']; [done|].
      apply Hin in Hr'. done.
  - intros r' c' Hg (x & Hx & Tx). change (cleared (call _ _)) with (cleared t1).
    destruct (Hcell1 r' c' x Hg Hx) as [(_ & _ & E)|(_ & E)]; eexists; (split; [exact E|done]).
  - intros op' Hop' Hcl'. change (cleared (call _ _)) with (cleared t1).
    apply (Hdone r c op' (conj Hr Hc) Hop' Hcl'). right. unfold in_rect. lia.
Qed.

Lemma flush_clear_ok :
  ∃ d', __guac_terminal_display_flush_clear d = Run d' ∧ partly_cleared d' ∧
    ∀ r c op, in_grid r c → cell d r c = Some op → is_clear op = true → cleared d' r c.
Proof.
  unfold __guac_terminal_display_flush_clear. destruct Hpixels as [Hd _ _]. pose proof Hd as [_ HW HH].
  destruct (for_each_ok (λ r c t, partly_cleared t ∧
    ∀ r' c' op, in_grid r' c' → r' < r ∨ r' = r ∧ c' < c → cell d r' c' = Some op →
      is_clear op = true → cleared t r' c') flush_clear_at d) as (d' & E & P & L);
    [lia|lia|..].
  - split; [apply partly_cleared_refl|]. intros r' c' op [? ?]. lia.
  - intros r c t Hr Hc [P L].
    destruct (flush_clear_step r c t P (conj Hr Hc)) as (t' & E & P' & Hkeep & Hnow).
    exists t'. split; [done|]. split; [done|]. intros r' c' op Hg Hb Hop Hcl.
    destruct (decide (r' = r ∧ c' = c)) as [[-> ->]|Hne]; [by eapply Hnow|].
    apply Hkeep; [done|]. eapply L; [done| |done..]. lia.
  - intros r t Hr [P L]. split; [done|]. intros r' c' op Hg Hb. apply L; [done|].
    destruct Hg. lia.
  - exists d'. split; [done|]. split; [done|]. intros r c op Hg. apply (L r c op Hg).
    destruct Hg. lia.
Qed.

End Clears.


(** A grid of two rows and three columns with the initial palette: two clears in the first row,
    one below the first of them, and a letter. *)

Definition sample_fill (value index : Z) : guac_terminal_operation :=
  let color := default (mk_color 0 0 0 0) (GUAC_TERMINAL_INITIAL_PALETTE !! Z.to_nat index) in
  mk_operation GUAC_CHAR_SET
    (mk_char value (mk_attributes false false false false false color color) 1) 0 0.

Definition sample_display : guac_terminal_display :=
  mk_display [sample_fill 0 1; sample_fill 0x20 1; sample_fill 0x41 2;
              sample_fill 0 1; nop (sample_fill 0 0); sample_fill 0 3]
    3 2 0 8 16 GUAC_TERMINAL_INITIAL_PALETTE None
    (mk_color (-2) 255 255 255) (mk_color (-3) 0 0 0) (mk_color 0 0 0 0) (mk_color 0 0 0 0)
    false 0 0 0 0 false [].

Lemma sample_pixels_ok : pixels_ok sample_display.
Proof. split; [split|..]; vm_compute; intuition congruence. Qed.

Lemma sample_palette_ok : palette_ok sample_display.
Proof.
  split; [|done]. intros i c. unfold guac_terminal_display_lookup_color.
  unfold GUAC_TERMINAL_COLOR_FOREGROUND, GUAC_TERMINAL_COLOR_BACKGROUND.
  zif; [intros [= <-]; cbn; lia|]. zif; [intros [= <-]; cbn; lia|].
  zif; [done|]. change (palette sample_display) with GUAC_TERMINAL_INITIAL_PALETTE. intros Hc.
  pose proof (initial_palette_index i ltac:(lia)) as Hi. rewrite Hc in Hi. by injection Hi.
Qed.

Lemma sample_clears_current : clears_current sample_display.
Proof.
  assert (H : Forall (λ op, is_clear op = true → current_color sample_display (fill_color (character op)))
    (operations sample_display)).
  { repeat constructor; vm_compute; intuition congruence. }
  intros r c op Hop. by apply (Forall_lookup_1 _ _ _ _ H Hop).
Qed.

