(* ===== verification/TermSpec.v ===== *)
(** * The terminal's invariant: changes to the text (specification of Terminal.v)

    Every change to the text of a terminal keeps its display and its buffers
    well formed and touches nothing else of its state, for arguments that
    the assertions of the code admit. *)

From S2P Require Import Prelude RecordUpdate Mem Run TermTypes TermBuffer TermRowSpec TermBufferSpec TermDisplay TermDisplaySpec TermScrollbar Terminal.
Local Open Scope Z_scope.

(** ** The invariant of the text *)

Record text_ok (t : guac_terminal) : Prop := {
  text_ok_display : display_ok (display t);
  text_ok_width : disp_width (display t) = term_width t;
  text_ok_height : disp_height (display t) = term_height t;
  text_ok_columns : 2 ≤ term_width t;
  text_ok_rows : 2 ≤ term_height t;
  text_ok_normal : buffer_ok (normal_buffer t);
  text_ok_alternate : buffer_ok (alternate_buffer t);
  text_ok_default : is_glyph [default_char t];
}.

(** What changes to the text leave alone: everything but the buffers, the pending operations, the
    selection, the scrollbar, the visible cursor and what has been sent. *)

Definition control (t : guac_terminal) : guac_terminal :=
  t <| display := frame (display t) |>
    <| normal_buffer := guac_terminal_buffer_alloc 0 (default_char t) |>
    <| alternate_buffer := guac_terminal_buffer_alloc 0 (default_char t) |>
    <| scrollbar := guac_terminal_scrollbar_alloc 0 0 0 0 0 |>
    <| visible_cursor_row := 0 |> <| visible_cursor_col := 0 |>
    <| text_selected := false |> <| selection_committed := false |>
    <| selection_start_row := 0 |> <| selection_end_row := 0 |>
    <| events := [] |>.

Definition draws (t t' : guac_terminal) : Prop := text_ok t' ∧ control t' = control t.

Lemma draws_refl t : text_ok t → draws t t.
Proof. by split. Qed.

Lemma draws_trans t1 t2 t3 : draws t1 t2 → draws t2 t3 → draws t1 t3.
Proof. intros [_ E1] [H E2]. split; [done|congruence]. Qed.

(** A field that [control] keeps. *)

Lemma draws_field {A} (f : guac_terminal → A) t t' :
  (∀ t, f t = f (control t)) → draws t t' → f t' = f t.
Proof. intros Hf [_ E]. by rewrite (Hf t'), E, <-Hf. Qed.

Lemma draws_width t t' : draws t t' → term_width t' = term_width t.
Proof. by apply draws_field. Qed.

Lemma draws_height t t' : draws t t' → term_height t' = term_height t.
Proof. by apply draws_field. Qed.

(** Chains of changes. *)

Definition drawn (t : guac_terminal) (r : run guac_terminal) : Prop :=
  ∃ t', r = Run t' ∧ draws t t'.

Lemma draw_bind t r f :
  drawn t r → (∀ t1, draws t t1 → drawn t1 (f t1)) → drawn t (r ≫= f).
Proof.
  intros (t1 & -> & D1) Hf. rewrite run_bind_run. destruct (Hf t1 D1) as (t' & -> & D).
  exists t'. split; [done|]. by eapply draws_trans.
Qed.

Lemma draw_return t t' : draws t t' → drawn t (Run t').
Proof. intros H. by exists t'. Qed.

Lemma draw_from t t1 r : draws t t1 → drawn t1 r → drawn t r.
Proof. intros D (t' & -> & D'). exists t'. split; [done|]. by eapply draws_trans. Qed.

Lemma draw_loop first last body t :
  text_ok t → (∀ j t', draws t t' → first ≤ j ≤ last → drawn t' (body j t')) →
  drawn t (for_range first last body t).
Proof.
  intros Ht Hb. apply (for_range_kept (draws t)); [by apply draws_refl|].
  intros j t1 Hj D1. destruct (Hb j t1 D1 Hj) as (t2 & E & D2). exists t2. split; [done|].
  by eapply draws_trans.
Qed.

Lemma current_buffer_ok t : text_ok t → buffer_ok (current_buffer t).
Proof. intros []. unfold current_buffer. by destruct (on_alternate t). Qed.

Lemma set_display_draws t d :
  text_ok t → display_kept (display t) d → draws t (t <| display := d |>).
Proof.
  intros [] K. pose proof (display_kept_width _ _ K). pose proof (display_kept_height _ _ K).
  destruct K as [K E]. split; [split; cbn; congruence|]. unfold control. cbn. by rewrite E.
Qed.

Lemma set_buffer_draws t b : text_ok t → buffer_ok b → draws t (set_current_buffer b t).
Proof.
  intros [] Hb. unfold set_current_buffer. destruct (on_alternate t) eqn:E; (split; [by split|done]).
Qed.

Lemma update_display_draws f t :
  text_ok t → (∃ d, f (display t) = Run d ∧ display_kept (display t) d) →
  drawn t (update_display f t).
Proof.
  intros Ht (d & E & K). unfold drawn, update_display. rewrite E, run_bind_run.
  eexists. split; [done|]. by apply set_display_draws.
Qed.

Lemma update_buffer_draws f t :
  text_ok t → (∃ b, f (current_buffer t) = Run b ∧ buffer_kept (current_buffer t) b) →
  drawn t (update_buffer f t).
Proof.
  intros Ht (b & E & K). unfold drawn, update_buffer. rewrite E, run_bind_run.
  eexists. split; [done|]. apply set_buffer_draws; [done|]. apply K.
Qed.

Lemma same_text_draws t t' :
  text_ok t → display t' = display t → normal_buffer t' = normal_buffer t →
  alternate_buffer t' = alternate_buffer t → control t' = control t → draws t t'.
Proof.
  intros [] Ed En Ea E. split; [|done].
  pose proof (f_equal term_width E). pose proof (f_equal term_height E).
  pose proof (f_equal default_char E). cbn in *. split; congruence.
Qed.

Lemma touch_draws t r1 c1 r2 c2 : text_ok t → draws t (guac_terminal_select_touch t r1 c1 r2 c2).
Proof.
  intros Ht. unfold guac_terminal_select_touch.
  repeat zif; by apply same_text_draws.
Qed.

Lemma scrollbar_bounds_draws t : text_ok t → draws t (update_scrollbar_bounds t).
Proof. intros Ht. by apply same_text_draws. Qed.

Lemma scrollbar_value_draws t : text_ok t → draws t (update_scrollbar_value t).
Proof. intros Ht. by apply same_text_draws. Qed.

(** ** Columns *)

Section Text.

Context `{Wcwidth}.

(** A character that can be written: not a continuation, at least one column wide. *)

Definition writable (ch : guac_terminal_char) : Prop := is_continuation ch = false ∧ 1 ≤ width ch.

Lemma default_writable t : text_ok t → writable (default_char t).
Proof.
  intros []. destruct text_ok_default0 as (c & k & E & Hc & _ & Hw). injection E as <- <-.
  split; [done|]. cbn in Hw. lia.
Qed.

Lemma write_columns_drawn t row s e ch :
  text_ok t → writable ch → s ≤ Z.max 0 e + 1 → drawn t (__guac_terminal_set_columns t row s e ch).
Proof.
  intros Ht [Hc Hw] Hs. unfold __guac_terminal_set_columns.
  apply draw_bind.
  { apply update_display_draws; [done|]. apply display_set_columns_kept; [apply Ht| |lia].
    rewrite (text_ok_width t Ht). pose proof (text_ok_columns t Ht). lia. }
  intros t1 D1. apply draw_bind.
  { apply update_buffer_draws; [apply D1|].
    apply set_columns_clamped_kept; [apply current_buffer_ok, D1|done|done|done]. }
  intros t2 D2. apply draw_return, touch_draws, D2.
Qed.

Lemma set_columns_drawn t row s e ch :
  text_ok t → writable ch → s ≤ Z.max 0 e + 1 → drawn t (guac_terminal_set_columns t row s e ch).
Proof.
  intros Ht Hch Hs. unfold guac_terminal_set_columns.
  apply draw_bind; [by apply write_columns_drawn|]. intros t1 D1.
  zif; [|by apply draw_return, draws_refl, D1].
  apply write_columns_drawn; [apply D1|exact Hch|lia].
Qed.

Lemma clear_columns_drawn t row s e :
  text_ok t → s ≤ Z.max 0 e + 1 → drawn t (guac_terminal_clear_columns t row s e).
Proof. intros Ht Hs. apply set_columns_drawn; [done|split; [done|cbn; lia]|done]. Qed.

Lemma clear_range_drawn t r1 c1 r2 c2 :
  text_ok t → c1 ≤ term_width t → drawn t (guac_terminal_clear_range t r1 c1 r2 c2).
Proof.
  intros Ht Hc. pose proof (text_ok_columns t Ht) as HW. unfold guac_terminal_clear_range.
  assert (E1 : ∃ t1 r1', (if 0 <? c1 then
      t ← guac_terminal_clear_columns t r1 c1 (term_width t - 1); Run (t, r1 + 1)
    else Run (t, r1)) = Run (t1, r1') ∧ draws t t1).
  { zif; [|do 2 eexists; split; [done|by apply draws_refl]].
    destruct (clear_columns_drawn t r1 c1 (term_width t - 1) Ht) as (t1 & -> & D1); [lia|].
    rewrite run_bind_run. eauto. }
  destruct E1 as (t1 & r1' & -> & D1). rewrite run_bind_run. cbn beta iota.
  rewrite (draws_width _ _ D1).
  assert (E2 : ∃ t2 r2', (if c2 <? term_width t - 1 then
      t ← guac_terminal_clear_columns t1 r2 0 c2; Run (t, r2 - 1)
    else Run (t1, r2)) = Run (t2, r2') ∧ draws t1 t2).
  { zif; [|do 2 eexists; split; [done|by apply draws_refl, D1]].
    destruct (clear_columns_drawn t1 r2 0 c2 (proj1 D1)) as (t2 & -> & D2); [lia|].
    rewrite run_bind_run. eauto. }
  destruct E2 as (t2 & r2' & -> & D2). rewrite run_bind_run. cbn beta iota.
  apply (draw_from _ t2); [by eapply draws_trans|].
  zif; [|by apply draw_return, draws_refl, D2].
  apply draw_loop; [apply D2|]. intros j t3 D3 Hj.
  apply clear_columns_drawn; [apply D3|].
  pose proof (text_ok_columns t3 (proj1 D3)). lia.
Qed.

Lemma copy_columns_drawn t row s e off :
  text_ok t → Z.abs off < term_width t →
  - GUAC_TERMINAL_MAX_ROWS < row < GUAC_TERMINAL_MAX_ROWS →
  0 ≤ e + off + 1 ≤ GUAC_TERMINAL_MAX_COLUMNS →
  Z.abs off < Z.max (e + off + 1) (columns_in (current_buffer t) row) →
  drawn t (guac_terminal_copy_columns t row s e off).
Proof.
  intros Ht Ho Hrow He Hlen. unfold guac_terminal_copy_columns.
  destruct (display_copy_columns_kept (display t) (row + scroll_offset t) s e off)
    as (d & Ed & Kd); [apply Ht|by rewrite (text_ok_width t Ht)|].
  unfold update_display at 1. rewrite Ed, !run_bind_run.
  pose proof (set_display_draws t d Ht Kd) as D1. set (t1 := t <| display := d |>) in *.
  apply (draw_from t t1); [done|]. apply draw_bind.
  { apply update_buffer_draws; [apply D1|].
    apply copy_columns_kept; [apply current_buffer_ok, D1|done|done|].
    unfold current_buffer in *. done. }
  intros t2 D2. apply draw_return.
  apply (draws_trans _ (guac_terminal_select_touch t2 row s row e)); [apply touch_draws, D2|].
  pose proof (touch_draws t2 row s row e (proj1 D2)) as [D3 _].
  zif; [by apply same_text_draws|by apply draws_refl].
Qed.

Lemma copy_rows_drawn t s e off :
  text_ok t → Z.abs off < term_height t → drawn t (guac_terminal_copy_rows t s e off).
Proof.
  intros Ht Ho. unfold guac_terminal_copy_rows. apply draw_bind.
  { apply update_display_draws; [done|]. apply display_copy_rows_kept; [apply Ht|].
    by rewrite (text_ok_height t Ht). }
  intros t1 D1. apply draw_bind.
  { apply update_buffer_draws; [apply D1|]. apply copy_rows_kept, current_buffer_ok, D1. }
  intros t2 D2. apply draw_return.
  apply (draws_trans _ (guac_terminal_select_touch t2 s 0 e (term_width t2))); [apply touch_draws, D2|].
  pose proof (touch_draws t2 s 0 e (term_width t2) (proj1 D2)) as [D3 _].
  zif; [by apply same_text_draws|by apply draws_refl].
Qed.

(** ** Scrolling *)

Lemma scroll_up_drawn t s e amount :
  text_ok t → is_i32 (e - s + 1) →
  (0 < amount → Z.abs (Z.min amount (e - s + 1)) < term_height t) →
  drawn t (guac_terminal_scroll_up t s e amount).
Proof.
  intros Ht Hse Ha. pose proof (text_ok_columns t Ht) as HW.
  unfold guac_terminal_scroll_up. zif; [by apply draw_return, draws_refl|].
  specialize (Ha ltac:(lia)). rewrite (i32_small (e - s + 1)) by done.
  set (a := if e - s + 1 <=? amount then _ else _).
  assert (Ea : a = Z.min amount (e - s + 1)) by (unfold a; zif; lia). rewrite <-Ea in Ha.
  clearbody a. apply draw_bind.
  - zif; [|apply copy_rows_drawn; [done|lia]]. apply draw_bind.
    { apply update_display_draws; [done|]. apply display_copy_rows_kept; [apply Ht|].
      rewrite (text_ok_height t Ht). lia. }
    intros t1 D1. apply draw_bind.
    { apply update_buffer_draws; [apply D1|]. eexists. split; [done|].
      apply scroll_up_kept, current_buffer_ok, D1. }
    intros t2 D2. apply draw_return.
    apply (draws_trans _ (update_scrollbar_bounds t2)); [apply scrollbar_bounds_draws, D2|].
    pose proof (scrollbar_bounds_draws t2 (proj1 D2)) as [D3 _].
    repeat zif; by apply same_text_draws.
  - intros t1 D1. apply clear_range_drawn; [apply D1|].
    pose proof (text_ok_columns t1 (proj1 D1)). lia.
Qed.

Lemma scroll_down_drawn t s e amount :
  text_ok t → Z.abs amount < term_height t → drawn t (guac_terminal_scroll_down t s e amount).
Proof.
  intros Ht Ha. unfold guac_terminal_scroll_down. apply draw_bind; [by apply copy_rows_drawn|].
  intros t1 D1. apply clear_range_drawn; [apply D1|].
  pose proof (text_ok_columns t1 (proj1 D1)). lia.
Qed.

Lemma guac_set_drawn `{!WcwidthLaws} t row col codepoint :
  text_ok t → codepoint ≠ -1 → is_i32 (col + 2) → 0 ≤ col →
  drawn t (guac_terminal_set t row col codepoint).
Proof.
  intros Ht Hcp Hi Hc. unfold guac_terminal_set. zif; [by apply draw_return, draws_refl|].
  pose proof (wcwidth_range codepoint) as Hw.
  assert (Hcol : 1 ≤ columns_of codepoint ≤ 2).
  { unfold columns_of in *. destruct (Z.ltb_spec (wcwidth codepoint) 0); lia. }
  rewrite i32_small by (unfold is_i32 in *; lia).
  apply set_columns_drawn; [done| |lia]. split; [|cbn; lia].
  unfold is_continuation. by apply Z.eqb_neq.
Qed.

(** ** Rows drawn from the buffer *)

Lemma glyphs_cell l i c :
  glyphs l → l !! i = Some c → is_continuation c = false → 1 ≤ width c.
Proof.
  intros Hl. revert i. induction Hl as [|g l (c0 & k & -> & Hc0 & Hk & Hw) Hl IH]; intros i Hi Hc; [done|].
  destruct (decide (i < List.length (c0 :: k))%nat) as [Hlt|Hge].
  - rewrite lookup_app_l in Hi by done. destruct i as [|i].
    + injection Hi as <-. cbn [List.length] in Hw. lia.
    + cbn in Hi. pose proof (Forall_lookup_1 _ _ _ _ Hk Hi) as Hc1. cbn in Hc1. congruence.
  - rewrite lookup_app_r in Hi by lia. by eapply IH.
Qed.

Lemma display_columns_drawn t row s e ch :
  text_ok t → 0 ≤ width ch →
  drawn t (update_display (λ d, guac_terminal_display_set_columns d row s e ch) t).
Proof.
  intros Ht Hw. apply update_display_draws; [done|].
  apply display_set_columns_kept; [apply Ht| |done].
  rewrite (text_ok_width t Ht). pose proof (text_ok_columns t Ht). lia.
Qed.

Lemma draw_row_drawn t source dest first last clear_end :
  text_ok t → 0 ≤ first → drawn t (draw_row t source dest first last clear_end).
Proof.
  intros Ht Hf. unfold draw_row.
  destruct (get_columns_ok (current_buffer t) source (current_buffer_ok t Ht))
    as [->|(cells & wrapped & n & -> & Hn & _ & Hg)]; rewrite run_bind_run.
  - apply draw_bind.
    + apply display_columns_drawn; [done|]. destruct (default_writable t Ht). lia.
    + intros t1 D1. by apply draw_return, draws_refl, D1.
  - apply draw_bind.
    + apply display_columns_drawn; [done|]. destruct (default_writable t Ht). lia.
    + intros t1 D1. apply draw_loop; [apply D1|]. intros j t2 D2 Hj.
      destruct (cell_at_ok cells j) as (c & -> & Hc); [lia|]. rewrite run_bind_run.
      unfold guac_terminal_is_visible. destruct (is_continuation c) eqn:Hcc.
      * apply draw_return, draws_refl, D2.
      * assert (Hw : 1 ≤ width c).
        { eapply glyphs_cell; [exact Hg| |exact Hcc]. rewrite lookup_take_lt; [exact Hc|lia]. }
        repeat zif; try (by apply draw_return, draws_refl, D2);
          (apply display_columns_drawn; [apply D2|lia]).
Qed.

Lemma redraw_rect_drawn t r1 c1 r2 c2 :
  text_ok t → 0 ≤ c1 → drawn t (__guac_terminal_redraw_rect t r1 c1 r2 c2).
Proof.
  intros Ht Hc. unfold __guac_terminal_redraw_rect. apply draw_loop; [done|].
  intros j t1 D1 _. apply draw_row_drawn; [apply D1|done].
Qed.

Lemma redraw_default_layer_drawn t : text_ok t → drawn t (guac_terminal_redraw_default_layer t).
Proof.
  intros Ht. unfold guac_terminal_redraw_default_layer.
  assert (D : draws t (guac_terminal_repaint_default_layer t)) by (by apply same_text_draws).
  apply (draw_from _ _ _ D). apply redraw_rect_drawn; [apply D|done].
Qed.

(** A reset: the state after it and the loop that clears the text. *)

Lemma clear_rows_drawn t ch :
  text_ok t → writable ch →
  drawn t (for_range 0 (term_height t - 1) (λ row t,
    guac_terminal_set_columns t row 0 (term_width t - 1) ch) t).
Proof.
  intros Ht Hch. apply draw_loop; [done|]. intros j t1 D1 _.
  apply set_columns_drawn; [apply D1|done|]. pose proof (text_ok_columns t1 (proj1 D1)). lia.
Qed.

Lemma reset_palette_ok d :
  display_ok d → display_ok (guac_terminal_display_reset_palette d) ∧
  disp_width (guac_terminal_display_reset_palette d) = disp_width d ∧
  disp_height (guac_terminal_display_reset_palette d) = disp_height d.
Proof.
  intros []. unfold guac_terminal_display_reset_palette. by destruct (default_palette d).
Qed.

End Text.
