(* ===== verification/TermHandlersSpec.v ===== *)
(** * The terminal survives its input (specification of TermHandlers.v)

    The invariant of a terminal, and that every byte of output keeps it: the
    code neither aborts nor leaves its memory, but for the control sequences
    that [byte_safe] names. *)

From S2P Require Import Prelude RecordUpdate CString CFormat Mem Run TermTypes TermBuffer TermRowSpec TermBufferSpec TermColors TermDisplay TermDisplaySpec TermScrollbar Terminal TermHandlers TermSpec.
Local Open Scope Z_scope.

Local Abbreviation len l := (Z.of_nat (List.length l)).

(** ** The invariant *)

Definition mapping_ok (mapping : option (list Z)) : Prop :=
  match mapping with
  | Some m => len m = 224 ∧ Forall (λ c, 0 ≤ c) m
  | None => True
  end.

Record statics_ok (s : handler_statics) : Prop := {
  statics_argc : 0 ≤ argc s ≤ 16;
  statics_argv : len (argv s) = 16 ∧ Forall (λ v, 0 ≤ v ≤ INT_MAX) (argv s);
  statics_argv_buffer : len (argv_buffer s) < 256;
  statics_directory : len (directory_filename s) < 2048;
  statics_download : len (download_filename s) < 2048;
  statics_pipe : len (pipe_param s) < 2048;
  statics_scrollback : len (scrollback_param s) < 16;
  statics_title : len (title s) < 4096;
  statics_color : len (color_spec s) < 256;
}.

Definition control_ok (t : guac_terminal) : Prop :=
  0 ≤ cursor_row t < term_height t ∧
  0 ≤ cursor_col t ≤ term_width t + 1 ∧
  (0 ≤ scroll_start t ≤ scroll_end t ∧ scroll_end t < term_height t) ∧
  Forall mapping_ok (char_mapping t) ∧
  statics_ok (statics t) ∧
  len (pipe_buffer t) ≤ 6048.

Definition term_ok (t : guac_terminal) : Prop := text_ok t ∧ control_ok t.

Lemma draws_control t t' : draws t t' → control_ok t → control_ok t'.
Proof.
  intros [_ E] H. change (control_ok (control t)) in H. rewrite <-E in H. exact H.
Qed.

Lemma draws_ok t t' : draws t t' → term_ok t → term_ok t'.
Proof. intros D [_ H]. split; [apply D|by eapply draws_control]. Qed.

(** A computation that ends with the invariant. *)

Definition keeps (r : run guac_terminal) : Prop := ∃ t, r = Run t ∧ term_ok t.

Lemma keeps_run t : term_ok t → keeps (Run t).
Proof. intros H. by exists t. Qed.

Lemma keeps_bind r f : keeps r → (∀ t, term_ok t → keeps (f t)) → keeps (r ≫= f).
Proof. intros (t & -> & H) Hf. rewrite run_bind_run. by apply Hf. Qed.

Lemma drawn_keeps t r : drawn t r → term_ok t → keeps r.
Proof. intros (t' & -> & D) H. exists t'. split; [done|]. by eapply draws_ok. Qed.

Lemma term_ok_dims t :
  term_ok t → 2 ≤ term_width t ≤ 1024 ∧ 2 ≤ term_height t ≤ 1024.
Proof.
  intros [[Hd Ew Eh H1 H2 _ _ _] _]. destruct Hd as [_ Hw Hh].
  unfold GUAC_TERMINAL_MAX_COLUMNS, GUAC_TERMINAL_MAX_ROWS in *. lia.
Qed.

Lemma move_cursor_ok t row col : term_ok t → term_ok (guac_terminal_move_cursor t row col).
Proof.
  intros Ht. pose proof (term_ok_dims t Ht). destruct Ht as [Ht Hc].
  split; [destruct Ht; by split|].
  unfold control_ok in *. cbn. repeat zif; intuition lia.
Qed.

Lemma set_handler_ok h t : term_ok t → term_ok (set_handler h t).
Proof. intros [[] Hc]. split; [by split|exact Hc]. Qed.

Lemma emit_ok e t : term_ok t → term_ok (emit e t).
Proof. intros [[] Hc]. split; [by split|exact Hc]. Qed.

Lemma send_data_ok t data : term_ok t → term_ok (guac_terminal_send_data t data).
Proof. intros Ht. unfold guac_terminal_send_data. zif; [done|]. by apply emit_ok. Qed.

Lemma update_statics_ok f t :
  term_ok t → statics_ok (f (statics t)) → term_ok (update_statics f t).
Proof.
  intros [[] Hc] Hs. split; [by split|]. unfold control_ok in *. cbn. tauto.
Qed.

Lemma term_ok_statics t : term_ok t → statics_ok (statics t).
Proof. intros [_ (_ & _ & _ & _ & H & _)]. exact H. Qed.

Lemma length_store_char size c s :
  (0 < size)%nat → len s < Z.of_nat size → len (store_char size c s) < Z.of_nat size.
Proof.
  intros Hs H. unfold store_char. zif; [|done]. rewrite length_app. cbn. lia.
Qed.

(** ** The pipe stream *)

Lemma pipe_flush_ok t : term_ok t → term_ok (guac_terminal_pipe_stream_flush t).
Proof.
  intros Ht. unfold guac_terminal_pipe_stream_flush. destruct (pipe_stream t); [|done].
  destruct (pipe_buffer t) eqn:E; [done|]. rewrite <-E.
  destruct Ht as [[] Hc]. split; [by split|]. unfold control_ok in *. cbn. intuition lia.
Qed.

Lemma pipe_flush_room t :
  is_Some (pipe_stream t) → pipe_buffer (guac_terminal_pipe_stream_flush t) = [].
Proof.
  intros [s E]. unfold guac_terminal_pipe_stream_flush. rewrite E. by destruct (pipe_buffer t) eqn:E2.
Qed.

Lemma pipe_close_ok t : term_ok t → term_ok (guac_terminal_pipe_stream_close t).
Proof.
  intros Ht. unfold guac_terminal_pipe_stream_close. destruct (pipe_stream t) as [stream|]; [|done].
  pose proof (pipe_flush_ok t Ht) as [[] Hc]. split; [by split|exact Hc].
Qed.

Lemma pipe_write_ok t c : term_ok t → term_ok (guac_terminal_pipe_stream_write t c).
Proof.
  intros Ht. unfold guac_terminal_pipe_stream_write. destruct (pipe_stream t) eqn:E; [|done].
  destruct (decide _) as [Hl|Hl].
  - pose proof (pipe_flush_ok t Ht) as [[] Hc]. split; [by split|].
    unfold control_ok in *. cbn in *. rewrite pipe_flush_room by done. cbn. intuition lia.
  - destruct Ht as [[] Hc]. split; [by split|]. unfold control_ok in *. cbn in *.
    rewrite length_app. cbn. unfold PIPE_BUFFER_SIZE in Hl. intuition lia.
Qed.

Section Safety.

Context `{WcwidthLaws}.

(** ** Text *)

Lemma text_ok_row t r : text_ok t → text_ok (t <| cursor_row := r |>).
Proof. intros []. by split. Qed.

Lemma linefeed_draws t force_wrap :
  term_ok t →
  ∃ t' r, guac_terminal_linefeed t force_wrap = Run t' ∧ 0 ≤ r < term_height t ∧
    draws (t <| cursor_row := r |>) t'.
Proof.
  intros Ht. pose proof (term_ok_dims t Ht) as [HW HH]. pose proof Ht as [Hx Hc].
  unfold guac_terminal_linefeed.
  destruct (update_buffer_draws (λ b, guac_terminal_buffer_set_wrapped b (cursor_row t) force_wrap) t)
    as (t1 & -> & D1); [done|apply set_wrapped_kept, current_buffer_ok, Hx|].
  rewrite run_bind_run. pose proof (draws_control _ _ D1 Hc) as (C1 & _ & C3 & _).
  pose proof (draws_height _ _ D1) as EH.
  assert (Erow : cursor_row t1 = cursor_row t) by (by apply (draws_field cursor_row _ _) in D1).
  assert (Dsame : ∀ t2, draws t1 t2 → draws (t <| cursor_row := cursor_row t |>) t2).
  { intros t2 [Hx2 E2]. split; [done|]. destruct D1 as [_ E1]. rewrite E2, E1. by destruct t. }
  zif; [|zif].
  - destruct (scroll_up_drawn t1 (scroll_start t1) (scroll_end t1) 1) as (t2 & -> & D2);
      [apply D1|unfold is_i32; lia|lia|].
    exists t2, (cursor_row t). split; [done|]. split; [lia|]. by apply Dsame.
  - exists (t1 <| cursor_row := cursor_row t1 + 1 |>), (cursor_row t + 1).
    split; [done|]. split; [lia|]. split; [apply text_ok_row, D1|].
    destruct D1 as [_ E1]. rewrite Erow.
    exact (f_equal (λ u, u <| cursor_row := cursor_row t + 1 |>) E1).
  - exists t1, (cursor_row t). split; [done|]. split; [lia|]. apply Dsame, draws_refl, D1.
Qed.

Lemma linefeed_ok t force_wrap : term_ok t → keeps (guac_terminal_linefeed t force_wrap).
Proof.
  intros Ht. destruct (linefeed_draws t force_wrap Ht) as (t' & r & -> & Hr & D).
  apply keeps_run, (draws_ok _ _ D). destruct Ht as [Hx Hc]. split; [by apply text_ok_row|].
  unfold control_ok in *. cbn. tauto.
Qed.

Lemma reverse_linefeed_ok t : term_ok t → keeps (guac_terminal_reverse_linefeed t).
Proof.
  intros Ht. pose proof (term_ok_dims t Ht) as [HW HH]. pose proof Ht as [Hx Hc].
  unfold guac_terminal_reverse_linefeed. zif; [|zif].
  - apply (drawn_keeps t); [|done]. apply scroll_down_drawn; [done|]. lia.
  - apply keeps_run. split; [by apply text_ok_row|]. unfold control_ok in *. cbn. intuition lia.
  - by apply keeps_run.
Qed.

Lemma mapped_ok t c :
  term_ok t → 0x20 ≤ c →
  ∃ m, (match active_mapping t with
        | Some char_mapping =>
            if (0x20 <=? c) && (c <=? 0xFF) then cell_at char_mapping (c - 0x20) else Run c
        | None => Run c
        end) = Run m ∧ 0 ≤ m.
Proof.
  intros [_ (_ & _ & _ & Hm & _)] Hc.
  assert (H1 : mapping_ok (active_mapping t)).
  { unfold active_mapping. destruct (char_mapping t !! active_char_set t) eqn:E; [|done].
    by apply (Forall_lookup_1 _ _ _ _ Hm E). }
  destruct (active_mapping t) as [m|]; [|exists c; split; [done|lia]].
  destruct H1 as [Hl Hpos]. zif; [|exists c; split; [done|lia]].
  destruct (cell_at_ok m (c - 0x20)) as (x & -> & Hx); [lia|]. exists x. split; [done|].
  by apply (Forall_lookup_1 _ _ _ _ Hpos Hx).
Qed.

Lemma columns_range codepoint : 0 ≤ columns_of codepoint ≤ 2.
Proof.
  pose proof (wcwidth_range codepoint). unfold columns_of.
  destruct (Z.ltb_spec (wcwidth codepoint) 0); lia.
Qed.

(** The terminal with room for a character in the row of the cursor. *)

Lemma wrap_ok t :
  term_ok t →
  ∃ t', (if term_width t <=? cursor_col t
         then guac_terminal_linefeed (t <| cursor_col := 0 |>) true else Run t) = Run t' ∧
    term_ok t' ∧ cursor_col t' < term_width t'.
Proof.
  intros Ht. pose proof (term_ok_dims t Ht) as [HW HH]. zif; [|eauto].
  assert (Ht0 : term_ok (t <| cursor_col := 0 |>)).
  { destruct Ht as [[] Hc]. split; [by split|]. unfold control_ok in *. cbn. intuition lia. }
  destruct (linefeed_draws _ true Ht0) as (t' & r & E & Hr & D).
  destruct (linefeed_ok _ true Ht0) as (t'' & E' & Ht'). assert (t'' = t') as -> by congruence.
  exists t'. split; [done|]. split; [done|].
  rewrite (draws_width _ _ D). apply (draws_field cursor_col) in D; [|done]. rewrite D. cbn. lia.
Qed.

Lemma echo_displayable_ok t c : term_ok t → keeps (echo_displayable t c).
Proof.
  intros Ht. unfold echo_displayable. zif; [by apply keeps_run|].
  destruct (mapped_ok t c Ht ltac:(lia)) as (m & -> & Hm). rewrite run_bind_run.
  assert (Ht1 : term_ok (update_statics (λ s, s <| codepoint := m |>) t)).
  { apply update_statics_ok; [done|]. by destruct (term_ok_statics t Ht). }
  set (t1 := update_statics _ t) in *. clearbody t1.
  destruct (wrap_ok t1 Ht1) as (t2 & -> & Ht2 & Hcol). rewrite run_bind_run.
  pose proof (term_ok_dims t2 Ht2) as [HW HH]. pose proof Ht2 as [Hx2 Hc2].
  assert (D3 : drawn t2 (if insert_mode t2
    then guac_terminal_copy_columns t2 (cursor_row t2) (cursor_col t2) (term_width t2 - 2) 1
    else Run t2)).
  { zif; [|by apply draw_return, draws_refl]. destruct Hc2 as (C1 & C2 & _).
    apply copy_columns_drawn; unfold GUAC_TERMINAL_MAX_ROWS, GUAC_TERMINAL_MAX_COLUMNS; try done; lia. }
  destruct D3 as (t3 & -> & D3). rewrite run_bind_run.
  pose proof (draws_ok _ _ D3 Ht2) as Ht3. pose proof (draws_width _ _ D3) as EW.
  assert (Ecol : cursor_col t3 = cursor_col t2) by (by apply (draws_field cursor_col _ _) in D3).
  pose proof Ht3 as [Hx3 (C1 & C2 & _)].
  destruct (guac_set_drawn t3 (cursor_row t3) (cursor_col t3) m) as (t4 & -> & D4);
    [done|lia|unfold is_i32; lia|lia|].
  rewrite run_bind_run. apply keeps_run. pose proof (draws_ok _ _ D4 Ht3) as [[] Hc4].
  pose proof (draws_width _ _ D4) as EW4. pose proof (columns_range m).
  assert (Ecol4 : cursor_col t4 = cursor_col t3) by (by apply (draws_field cursor_col _ _) in D4).
  split; [by split|]. unfold control_ok in *. cbn. intuition lia.
Qed.

(** Updates of fields that the invariant does not mention. *)

Ltac same_control Ht := destruct Ht as [[] ?]; split; [by split|done].

Lemma echo_character_ok t c : term_ok t → keeps (echo_character t c).
Proof.
  intros Ht. unfold echo_character.
  zif; [apply keeps_run; by apply send_data_ok|]. zif; [by apply keeps_run|].
  do 2 (zif; [apply keeps_run; by apply move_cursor_ok|]).
  zif.
  { destruct (linefeed_ok t false Ht) as (t' & -> & Ht'). rewrite run_bind_run. apply keeps_run.
    zif; [by apply move_cursor_ok|done]. }
  zif; [apply keeps_run; by apply move_cursor_ok|].
  do 2 (zif; [apply keeps_run; same_control Ht|]).
  do 2 (zif; [apply keeps_run; by apply set_handler_ok|]).
  zif; [by apply keeps_run|]. by apply echo_displayable_ok.
Qed.

Lemma decode_byte_ok mapped c s : statics_ok s → statics_ok (decode_byte mapped c s).
Proof. intros []. unfold decode_byte. by repeat zif. Qed.

Lemma handle_echo_ok t c : term_ok t → keeps (handle_echo t c).
Proof.
  intros Ht. unfold handle_echo. set (piped := bool_decide _ && negb _).
  set (t1 := if piped then _ else t).
  assert (Ht1 : term_ok t1) by (unfold t1; destruct piped; [by apply pipe_write_ok|done]).
  clearbody t1. zif; [by apply keeps_run|].
  set (t2 := update_statics _ _).
  assert (Ht2 : term_ok t2) by (by apply update_statics_ok, decode_byte_ok, term_ok_statics).
  clearbody t2. zif; [by apply keeps_run|]. by apply echo_character_ok.
Qed.

(** ** Escape sequences *)

Lemma set_current_buffer_ok t b : term_ok t → buffer_ok b → term_ok (set_current_buffer b t).
Proof.
  intros Ht Hb. eapply draws_ok; [|exact Ht]. by apply set_buffer_draws; [apply Ht|].
Qed.

Lemma reset_cursor_ok t : term_ok t → term_ok (reset_cursor t).
Proof.
  intros Ht. pose proof (term_ok_dims t Ht). destruct Ht as [[] (C1 & C2 & C3 & C4 & C5 & C6)].
  split; [by split|]. split; [cbn; lia|]. split; [cbn; lia|]. split; [exact C3|].
  split; [by repeat constructor|]. split; [exact C5|exact C6].
Qed.

Lemma reset_scroll_ok t : term_ok t → term_ok (reset_scroll t).
Proof.
  intros Ht. pose proof (term_ok_dims t Ht). destruct Ht as [[] (C1 & C2 & C3 & C4 & C5 & C6)].
  split; [by split|]. split; [exact C1|]. split; [exact C2|]. split; [cbn; lia|].
  split; [exact C4|]. split; [exact C5|exact C6].
Qed.

Lemma reset_modes_ok t : term_ok t → term_ok (reset_modes t).
Proof. intros Ht. same_control Ht. Qed.

Lemma set_display_ok t d :
  term_ok t → display_ok d → disp_width d = disp_width (display t) →
  disp_height d = disp_height (display t) → term_ok (t <| display := d |>).
Proof.
  intros [[Hd Ew Eh ? ? ? ? ?] Hc] Hd' Ew' Eh'.
  split; [split; cbn; try done; congruence|exact Hc].
Qed.

Lemma terminal_reset_ok t : term_ok t → keeps (guac_terminal_reset t).
Proof.
  intros Ht. unfold guac_terminal_reset. cbv zeta.
  set (t2 := reset_modes _).
  assert (H2 : term_ok t2).
  { unfold t2. apply reset_modes_ok, reset_scroll_ok.
    apply set_current_buffer_ok; [by apply reset_cursor_ok|].
    apply reset_ok, current_buffer_ok, reset_cursor_ok, Ht. }
  clearbody t2. unfold update_display at 1. rewrite !run_bind_run.
  set (t4 := t2 <| display := _ |>).
  assert (H4 : term_ok t4).
  { destruct (reset_palette_ok (display t2)) as (Hd' & Ew' & Eh'); [apply H2|].
    by apply set_display_ok. }
  clearbody t4.
  apply (drawn_keeps t4); [|done]. apply draw_loop; [apply H4|]. intros j t5 D5 _.
  apply set_columns_drawn; [apply D5|apply default_writable, D5|].
  pose proof (text_ok_columns t5 (proj1 D5)). lia.
Qed.

Lemma keeps_handler r h : keeps r → keeps (t ← r; Run (set_handler h t)).
Proof.
  intros Hr. apply (keeps_bind r); [done|]. intros t Ht. by apply keeps_run, set_handler_ok.
Qed.

Lemma set_tab_ok t column : term_ok t → term_ok (guac_terminal_set_tab t column).
Proof.
  intros Ht. unfold guac_terminal_set_tab. destruct (list_find _ _) as [[i x]|]; [|done].
  same_control Ht.
Qed.

Lemma unset_tab_ok t column : term_ok t → term_ok (guac_terminal_unset_tab t column).
Proof.
  intros Ht. unfold guac_terminal_unset_tab. destruct (list_find _ _) as [[i x]|]; [|done].
  same_control Ht.
Qed.

Lemma handle_escape_ok t c : term_ok t → keeps (handle_escape t c).
Proof.
  intros Ht. unfold handle_escape.
  destruct c; try (apply keeps_run, set_handler_ok; done).
  - apply keeps_run, set_handler_ok. same_control Ht.
  - apply keeps_run, set_handler_ok. by apply move_cursor_ok.
  - apply keeps_handler. by apply linefeed_ok.
  - apply keeps_handler. by apply linefeed_ok, move_cursor_ok.
  - apply keeps_run, set_handler_ok. by apply set_tab_ok.
  - apply keeps_handler. by apply reverse_linefeed_ok.
  - apply keeps_run, set_handler_ok. by apply send_data_ok.
  - by apply terminal_reset_ok.
Qed.

Lemma char_mapping_ok c : mapping_ok (__guac_terminal_get_char_mapping c).
Proof.
  assert (Hmap : ∀ m, (bool_decide (len m = 224) && forallb (λ c, 0 <=? c) m = true) → mapping_ok (Some m)).
  { intros m Hm. apply andb_true_iff in Hm as [H1 H2]. apply bool_decide_eq_true in H1.
    split; [done|]. apply Forall_forall. intros x Hx. rewrite forallb_forall in H2.
    by apply Z.leb_le, H2. }
  destruct c; try exact I; apply Hmap; vm_compute; reflexivity.
Qed.

Lemma set_mapping_ok t i m :
  term_ok t → mapping_ok m →
  term_ok (set_handler guac_terminal_echo (t <| char_mapping := <[i := m]> (char_mapping t) |>)).
Proof.
  intros [[] (C1 & C2 & C3 & C4 & C5 & C6)] Hm. split; [by split|].
  refine (conj C1 (conj C2 (conj C3 (conj _ (conj C5 C6))))). by apply Forall_insert.
Qed.

(** ** Control sequences *)

(** The sequences the code survives: no wider a movement than the arithmetic of [int] allows, no
    scrolling by the height of the terminal, no deletion of more characters than the row holds,
    a scrolling region within the terminal. *)

Definition csi_safe (t : guac_terminal) (c : byte) : bool :=
  let args := argv (statics t) in
  let arg i := default 0 (args !! i) in
  let amount := if arg 0%nat =? 0 then 1 else arg 0%nat in
  let in_height n := Z.abs n <? term_height t in
  match c with
  | x40 | x58 | x42 | x43 | x45 | x61 | x65 => amount <=? 2 ^ 30
  | x4a | x4b => negb (arg 0%nat =? 0) || (cursor_col t <=? term_width t)
  | x4c | x54 => in_height amount
  | x4d => in_height (Z.min amount (scroll_end t - cursor_row t + 1))
  | x50 =>
      (amount <=? 2 ^ 30)
      && ((term_width t <=? cursor_col t + amount)
          || (amount <? Z.max (term_width t - amount) (columns_in (current_buffer t) (cursor_row t))))
  | x53 => in_height (Z.min amount (scroll_end t - scroll_start t + 1))
  | x72 =>
      negb (argc (statics t) =? 2)
      || ((1 <=? arg 0%nat) && (arg 0%nat <=? arg 1%nat) && (arg 1%nat <=? term_height t))
  | _ => true
  end.

Lemma arg_range t i :
  term_ok t → 0 ≤ default 0 (argv (statics t) !! i) ≤ INT_MAX.
Proof.
  intros Ht. destruct (term_ok_statics t Ht) as [_ [_ Hf] _ _ _ _ _ _ _].
  destruct (argv (statics t) !! i) as [v|] eqn:E; cbn.
  - by apply (Forall_lookup_1 _ _ _ _ Hf E).
  - unfold INT_MAX. lia.
Qed.

Lemma insert_characters_ok t amount :
  term_ok t → 1 ≤ amount ≤ 2 ^ 30 → keeps (csi_insert_characters t amount).
Proof.
  intros Ht Ha. pose proof (term_ok_dims t Ht) as [HW HH]. pose proof Ht as [Hx (C1 & C2 & _)].
  unfold csi_insert_characters. rewrite (i32_small (cursor_col t + amount)) by (unfold is_i32; lia).
  apply (drawn_keeps t); [|done]. apply draw_bind.
  - zif; [|by apply draw_return, draws_refl].
    rewrite i32_small by (unfold is_i32; lia).
    apply copy_columns_drawn; unfold GUAC_TERMINAL_MAX_ROWS, GUAC_TERMINAL_MAX_COLUMNS; try done; lia.
  - intros t1 D1. apply clear_columns_drawn; [apply D1|].
    apply (draws_field cursor_col) in D1 as Ecol; [|done].
    rewrite i32_small by (unfold is_i32; lia). lia.
Qed.

Lemma delete_characters_ok t amount :
  term_ok t → 1 ≤ amount ≤ 2 ^ 30 →
  term_width t ≤ cursor_col t + amount ∨
    amount < Z.max (term_width t - amount) (columns_in (current_buffer t) (cursor_row t)) →
  keeps (csi_delete_characters t amount).
Proof.
  intros Ht Ha Hsafe. pose proof (term_ok_dims t Ht) as [HW HH]. pose proof Ht as [Hx (C1 & C2 & _)].
  unfold csi_delete_characters. rewrite (i32_small (cursor_col t + amount)) by (unfold is_i32; lia).
  apply (drawn_keeps t); [|done]. apply draw_bind.
  - zif; [|by apply draw_return, draws_refl]. destruct Hsafe as [|Hsafe]; [lia|].
    apply copy_columns_drawn; unfold GUAC_TERMINAL_MAX_ROWS, GUAC_TERMINAL_MAX_COLUMNS; try done; try lia.
  - intros t1 D1. apply clear_columns_drawn; [apply D1|].
    rewrite (draws_width _ _ D1), i32_small by (unfold is_i32; lia). lia.
Qed.

Lemma erase_display_ok t arg :
  term_ok t → arg ≠ 0 ∨ cursor_col t ≤ term_width t → keeps (csi_erase_display t arg).
Proof.
  intros Ht Hcol. pose proof (term_ok_dims t Ht) as [HW HH]. pose proof Ht as [Hx _].
  apply (drawn_keeps t); [|done]. unfold csi_erase_display.
  repeat zif; try (by apply draw_return, draws_refl); apply clear_range_drawn; try done; lia.
Qed.

Lemma erase_line_ok t arg :
  term_ok t → arg ≠ 0 ∨ cursor_col t ≤ term_width t → keeps (csi_erase_line t arg).
Proof.
  intros Ht Hcol. pose proof (term_ok_dims t Ht) as [HW HH]. pose proof Ht as [Hx (C1 & C2 & _)].
  apply (drawn_keeps t); [|done]. unfold csi_erase_line.
  repeat zif; try (by apply draw_return, draws_refl); apply clear_columns_drawn; try done; lia.
Qed.

Lemma set_mode_flag_ok num private on t : term_ok t → term_ok (set_mode_flag num private on t).
Proof. intros Ht. unfold set_mode_flag. repeat zif; try done; same_control Ht. Qed.

Lemma clear_all_ok t :
  term_ok t → keeps (guac_terminal_clear_range t 0 0 (term_height t - 1) (term_width t - 1)).
Proof.
  intros Ht. pose proof (term_ok_dims t Ht). apply (drawn_keeps t); [|done].
  apply clear_range_drawn; [apply Ht|lia].
Qed.

Lemma set_mode_ok t arg : term_ok t → keeps (csi_set_mode t arg).
Proof.
  intros Ht. unfold csi_set_mode. 
  set (t1 := if (arg =? 1048) || (arg =? 1049) then _ else t).
  assert (H1 : term_ok t1) by (unfold t1; zif; [same_control Ht|done]). clearbody t1.
  apply keeps_bind.
  - zif; [|by apply keeps_run]. 
    set (t2 := if (arg =? 47) || (arg =? 1047) || (arg =? 1049) then _ else t1).
    assert (H2 : term_ok t2).
    { unfold t2. zif; [|done]. same_control H1. }
    clearbody t2. zif; [by apply clear_all_ok|by apply keeps_run].
  - intros t2 H2. by apply keeps_run, set_mode_flag_ok.
Qed.

Lemma reset_mode_ok t arg : term_ok t → keeps (csi_reset_mode t arg).
Proof.
  intros Ht. unfold csi_reset_mode. apply keeps_bind.
  - zif; [|by apply keeps_run]. apply keeps_bind.
    + zif; [|by apply keeps_run]. set (t1 := update_scrollbar_bounds _).
      assert (H1 : term_ok t1) by (same_control Ht). clearbody t1.
      apply keeps_bind.
      * apply (drawn_keeps t1); [|done]. apply redraw_default_layer_drawn, H1.
      * intros t2 H2. apply keeps_run. same_control H2.
    + intros t1 H1. zif; [by apply clear_all_ok|by apply keeps_run].
  - intros t1 H1. apply keeps_run, set_mode_flag_ok. zif; [by apply move_cursor_ok|done].
Qed.

Lemma csi_function_ok t c : term_ok t → csi_safe t c = true → keeps (csi_function t c).
Proof.
  intros Ht Hs. pose proof (term_ok_dims t Ht) as [HW HH].
  pose proof Ht as [Hx (C1 & C2 & C3 & C4 & C5 & C6)].
  pose proof (arg_range t 0 Ht) as A0. pose proof (arg_range t 1 Ht) as A1.
  unfold csi_safe in Hs. unfold csi_function.
  set (a0 := default 0 (argv (statics t) !! 0%nat)) in *.
  set (a1 := default 0 (argv (statics t) !! 1%nat)) in *.
  set (amount := if a0 =? 0 then 1 else a0) in *.
  assert (Ha : 1 ≤ amount ≤ INT_MAX) by (unfold amount, INT_MAX in *; zif; lia).
  clearbody amount. unfold INT_MAX in *.
  destruct c; try (by apply keeps_run); try (apply keeps_run, move_cursor_ok; done); zbool_hyps.
  - apply insert_characters_ok; [done|lia].
  - apply erase_display_ok; [done|]. apply orb_true_iff in Hs as [Hs|Hs].
    + left. apply negb_true_iff in Hs. lia.
    + right. lia.
  - apply erase_line_ok; [done|]. apply orb_true_iff in Hs as [Hs|Hs].
    + left. apply negb_true_iff in Hs. lia.
    + right. lia.
  - apply (drawn_keeps t); [|done]. apply scroll_down_drawn; [done|lia].
  - apply (drawn_keeps t); [|done]. apply scroll_up_drawn; [done|unfold is_i32; lia|lia].
  - apply delete_characters_ok; [done|lia|]. rewrite orb_true_iff, Z.leb_le, Z.ltb_lt in *. done.
  - apply (drawn_keeps t); [|done]. apply scroll_up_drawn; [done|unfold is_i32; lia|lia].
  - apply (drawn_keeps t); [|done]. apply scroll_down_drawn; [done|lia].
  - apply (drawn_keeps t); [|done]. apply clear_columns_drawn; [done|].
    rewrite i32_small by (unfold is_i32; lia). lia.
  - apply keeps_run. zif; [by apply send_data_ok|done].
  - apply keeps_run. zif; [by apply unset_tab_ok|]. zif; [same_control Ht|done].
  - by apply set_mode_ok.
  - by apply reset_mode_ok.
  - apply keeps_run. same_control Ht.
  - apply keeps_run. zif; [by apply send_data_ok|]. zif; [by apply send_data_ok|done].
  - apply keeps_run. zif.
    + cbn in Hs. zbool_hyps. destruct Hx. split; [by split|].
      split; [exact C1|]. split; [exact C2|]. split; [cbn; lia|]. by split; [|split].
    + destruct Hx. split; [by split|].
      split; [exact C1|]. split; [exact C2|]. split; [cbn; lia|]. by split; [|split].
  - apply keeps_run. same_control Ht.
Qed.

Lemma parse_numeric_param_range str : 0 ≤ guac_terminal_parse_numeric_param str ≤ INT_MAX.
Proof.
  unfold guac_terminal_parse_numeric_param, strtoul, INT_MAX.
  match goal with |- context [let '(_, _) := ?e in _] => destruct e as [negative s] end.
  zif; [lia|]. set (v := if negative then _ else _).
  pose proof (u64_range v) as [H1 H2]. zif; lia.
Qed.

Lemma finish_parameter_ok s : statics_ok s → statics_ok (finish_parameter s).
Proof.
  intros [H1 [H2 H3] H4 H5 H6 H7 H8 H9 H10]. unfold finish_parameter. zif; [|by split].
  split; cbn; try done; [lia|]. split; [by rewrite length_insert|].
  apply Forall_insert; [done|]. apply parse_numeric_param_range.
Qed.

Lemma finish_sequence_ok s : statics_ok s → statics_ok (finish_sequence s).
Proof.
  intros [H1 [H2 H3] H4 H5 H6 H7 H8 H9 H10]. unfold finish_sequence.
  split; cbn; try done. split.
  - rewrite length_app, length_replicate, length_drop. lia.
  - apply Forall_app_2; [apply Forall_replicate; unfold INT_MAX; lia|by apply Forall_drop].
Qed.

(** A byte that ends a parameter. *)

Definition ends_parameter (c : byte) : bool :=
  ((0x40 <=? bz c) && (bz c <=? 0x7E)) || (bz c =? 0x3B).

Lemma handle_csi_ok t c :
  term_ok t → (ends_parameter c = true → csi_safe (update_statics finish_parameter t) c = true) →
  keeps (handle_csi t c).
Proof.
  intros Ht Hs. unfold handle_csi. pose proof (term_ok_statics t Ht) as Hst. zif.
  { apply keeps_run, update_statics_ok; [done|]. destruct Hst. split; cbn; try done.
    by apply (length_store_char 256); [lia|]. }
  fold (ends_parameter c). destruct (ends_parameter c).
  - assert (H1 : term_ok (update_statics finish_parameter t))
      by (by apply update_statics_ok, finish_parameter_ok).
    apply keeps_bind; [apply csi_function_ok; auto|]. intros t1 Ht1. apply keeps_run.
    zif; [|done]. apply update_statics_ok; [by apply set_handler_ok|].
    apply finish_sequence_ok. cbn. by apply term_ok_statics.
  - zif; [|by apply keeps_run]. apply keeps_run, update_statics_ok; [done|]. by destruct Hst.
Qed.

(** ** Strings *)

Ltac stored Hst n := destruct Hst; split; cbn; try done; by apply (length_store_char n); [lia|].

Lemma handle_set_directory_ok t c : term_ok t → keeps (handle_set_directory t c).
Proof.
  intros Ht. unfold handle_set_directory. pose proof (term_ok_statics t Ht) as Hst. zif.
  - apply keeps_run, update_statics_ok; [zif; [apply emit_ok|]; by apply set_handler_ok|].
    cbn. zif; cbn; destruct Hst; by split.
  - apply keeps_run, update_statics_ok; [done|]. stored Hst 2048%nat.
Qed.

Lemma handle_download_ok t c : term_ok t → keeps (handle_download t c).
Proof.
  intros Ht. unfold handle_download. pose proof (term_ok_statics t Ht) as Hst. zif.
  - apply keeps_run, update_statics_ok; [zif; [apply emit_ok|]; by apply set_handler_ok|].
    cbn. zif; cbn; destruct Hst; by split.
  - apply keeps_run, update_statics_ok; [done|]. stored Hst 2048%nat.
Qed.

(** A stream can be opened when the client has one left or the pipe's own will be closed. *)

Definition stream_left (t : guac_terminal) : bool :=
  bool_decide (is_Some (pipe_stream t)) || negb (bool_decide (client_streams t = [])).

Lemma pipe_close_streams t :
  stream_left t = true → client_streams (guac_terminal_pipe_stream_close t) ≠ [].
Proof.
  unfold stream_left, guac_terminal_pipe_stream_close.
  destruct (pipe_stream t) as [stream|] eqn:E; cbn.
  - intros _. by destruct (client_streams _).
  - intros Hs. by apply negb_true_iff, bool_decide_eq_false in Hs.
Qed.

Lemma pipe_open_ok t name flags :
  term_ok t → stream_left t = true → keeps (guac_terminal_pipe_stream_open t name flags).
Proof.
  intros Ht Hs. unfold guac_terminal_pipe_stream_open. apply pipe_close_streams in Hs.
  pose proof (pipe_close_ok t Ht) as Hc. set (t1 := guac_terminal_pipe_stream_close t) in *. clearbody t1.
  destruct (client_streams t1) as [|s rest]; [done|]. apply keeps_run, emit_ok.
  destruct Hc as [[] (C1 & C2 & C3 & C4 & C5 & C6)]. split; [by split|].
  split; [exact C1|]. split; [exact C2|]. split; [exact C3|]. split; [exact C4|].
  split; [exact C5|cbn; lia].
Qed.

Lemma handle_open_pipe_stream_ok t c :
  term_ok t → (is_terminator c = true → stream_left t = true) → keeps (handle_open_pipe_stream t c).
Proof.
  intros Ht Hs. unfold handle_open_pipe_stream. pose proof (term_ok_statics t Ht) as Hst. zif.
  - apply keeps_bind; [apply pipe_open_ok; auto|]. intros t1 Ht1.
    apply keeps_run, update_statics_ok; [by apply set_handler_ok|].
    cbn. destruct (term_ok_statics t1 Ht1). by split.
  - zif; (apply keeps_run, update_statics_ok; [done|]).
    + destruct Hst. by split.
    + stored Hst 2048%nat.
Qed.

Lemma handle_close_pipe_stream_ok t c : term_ok t → keeps (handle_close_pipe_stream t c).
Proof.
  intros Ht. unfold handle_close_pipe_stream.
  zif; apply keeps_run; [|done]. by apply set_handler_ok, pipe_close_ok.
Qed.

Lemma handle_set_scrollback_ok t c : term_ok t → keeps (handle_set_scrollback t c).
Proof.
  intros Ht. unfold handle_set_scrollback. pose proof (term_ok_statics t Ht) as Hst.
  zif; apply keeps_run.
  - apply set_handler_ok.
    set (t1 := t <| requested_scrollback := _ |>). assert (H1 : term_ok t1) by (same_control Ht).
    set (t2 := update_statics _ t1).
    assert (H2 : term_ok t2) by (apply update_statics_ok; [done|]; destruct Hst; by split).
    clearbody t2. eapply draws_ok; [|exact H2]. apply scrollbar_bounds_draws, H2.
  - apply update_statics_ok; [done|]. stored Hst 16%nat.
Qed.

Lemma handle_window_title_ok t c : term_ok t → keeps (handle_window_title t c).
Proof.
  intros Ht. unfold handle_window_title. pose proof (term_ok_statics t Ht) as Hst.
  zif; apply keeps_run.
  - apply set_handler_ok, update_statics_ok; [by apply emit_ok|]. destruct Hst. by split.
  - apply update_statics_ok; [done|]. stored Hst 4096%nat.
Qed.

Lemma assign_color_ok t index color :
  term_ok t →
  term_ok (t <| display := snd (guac_terminal_display_assign_color (display t) index color) |>).
Proof.
  intros Ht. unfold guac_terminal_display_assign_color.
  destruct Ht as [[[] ? ? ? ? ? ? ?] Hc]. zif; by split.
Qed.

Lemma handle_xterm_palette_ok t c : term_ok t → keeps (handle_xterm_palette t c).
Proof.
  intros Ht. unfold handle_xterm_palette. pose proof (term_ok_statics t Ht) as Hst.
  set (t1 := if negb _ then _ else _).
  assert (H1 : term_ok t1).
  { unfold t1. zif; [zif; [|zif; [|done]]|zif].
    - apply update_statics_ok; [done|]. destruct Hst. by split.
    - apply update_statics_ok; [done|]. destruct Hst. by split.
    - destruct (guac_terminal_xparsecolor _) as [color|].
      + apply update_statics_ok; [by apply assign_color_ok|]. destruct Hst. by split.
      + apply update_statics_ok; [done|]. destruct Hst. by split.
    - apply update_statics_ok; [done|]. stored Hst 256%nat. }
  clearbody t1. apply keeps_run. zif; [by apply set_handler_ok|done].
Qed.

Lemma handle_osc_ok t c : term_ok t → keeps (handle_osc t c).
Proof.
  intros Ht. unfold handle_osc. pose proof (term_ok_statics t Ht) as Hst.
  zif; [apply keeps_run, update_statics_ok; [done|]; destruct Hst; by split|].
  zif; [|by apply keeps_run, set_handler_ok]. cbv zeta.
  match goal with |- keeps (Run (update_statics _ ?t1)) => assert (H1 : term_ok t1) end.
  { repeat zif; try done; by apply set_handler_ok. }
  apply keeps_run, update_statics_ok; [done|]. destruct (term_ok_statics _ H1). by split.
Qed.

Lemma handle_apc_ok t c : term_ok t → keeps (handle_apc t c).
Proof.
  intros Ht. unfold handle_apc. set (t1 := if escaping _ then _ else t).
  assert (H1 : term_ok t1).
  { unfold t1. zif; [|done].
    apply update_statics_ok; [zif; [by apply set_handler_ok|done]|].
    pose proof (term_ok_statics t Ht) as []. zif; by split. }
  clearbody t1. apply keeps_run. zif; [|done].
  apply update_statics_ok; [done|]. destruct (term_ok_statics t1 H1). by split.
Qed.

Lemma handle_ctrl_func_ok indeterminate t c :
  term_ok t → (c = x38 → 1 ≤ indeterminate) → keeps (handle_ctrl_func indeterminate t c).
Proof.
  intros Ht Hi. unfold handle_ctrl_func. apply keeps_handler.
  destruct c; try (by apply keeps_run). specialize (Hi eq_refl). apply (drawn_keeps t); [|done].
  apply draw_loop; [apply Ht|]. intros j t1 D1 _.
  apply set_columns_drawn; [apply D1|by split|]. pose proof (text_ok_columns t1 (proj1 D1)). lia.
Qed.

(** ** Output *)

(** The bytes the terminal survives in its present state.  The alignment test draws characters of a
    width that is not initialized; it is survived when the width is at least one column. *)

Definition byte_safe (indeterminate : Z) (t : guac_terminal) (c : byte) : bool :=
  match char_handler t with
  | guac_terminal_csi => negb (ends_parameter c) || csi_safe (update_statics finish_parameter t) c
  | guac_terminal_open_pipe_stream => negb (is_terminator c) || stream_left t
  | guac_terminal_ctrl_func => negb (bool_decide (c = x38)) || (1 <=? indeterminate)
  | _ => true
  end.

Fixpoint writes_safe (indeterminate : Z) (t : guac_terminal) (buffer : list byte) : bool :=
  match buffer with
  | [] => true
  | c :: buffer =>
      byte_safe indeterminate t c
      && match write_byte indeterminate t c with
         | Run t => writes_safe indeterminate t buffer
         | _ => true
         end
  end.

Lemma handle_ok indeterminate t c :
  term_ok t → byte_safe indeterminate t c = true → keeps (handle indeterminate t c).
Proof.
  intros Ht Hs. unfold byte_safe in Hs. unfold handle. destruct (char_handler t).
  - by apply handle_echo_ok.
  - by apply handle_escape_ok.
  - apply keeps_run, set_mapping_ok; [done|apply char_mapping_ok].
  - apply keeps_run, set_mapping_ok; [done|apply char_mapping_ok].
  - apply handle_csi_ok; [done|]. intros Hc. by rewrite Hc in Hs.
  - by apply handle_set_directory_ok.
  - by apply handle_download_ok.
  - apply handle_open_pipe_stream_ok; [done|]. intros Hc. by rewrite Hc in Hs.
  - by apply handle_close_pipe_stream_ok.
  - by apply handle_set_scrollback_ok.
  - by apply handle_window_title_ok.
  - by apply handle_xterm_palette_ok.
  - by apply handle_osc_ok.
  - apply handle_ctrl_func_ok; [done|]. intros ->. rewrite bool_decide_true in Hs by done.
    by apply Z.leb_le.
  - by apply handle_apc_ok.
Qed.

Lemma byte_safe_emit indeterminate e t c :
  byte_safe indeterminate (emit e t) c = byte_safe indeterminate t c.
Proof. done. Qed.

Lemma write_byte_ok indeterminate t c :
  term_ok t → byte_safe indeterminate t c = true → keeps (write_byte indeterminate t c).
Proof.
  intros Ht Hs. unfold write_byte. apply handle_ok.
  - zif; [by apply emit_ok|done].
  - zif; [by rewrite byte_safe_emit|done].
Qed.

Lemma write_ok indeterminate buffer : ∀ t,
  term_ok t → writes_safe indeterminate t buffer = true →
  keeps (guac_terminal_write indeterminate t buffer).
Proof.
  induction buffer as [|c buffer IH]; intros t Ht Hs; cbn in *; [by apply keeps_run|].
  apply andb_true_iff in Hs as [Hc Hs].
  destruct (write_byte_ok indeterminate t c Ht Hc) as (t1 & E & Ht1).
  rewrite E in Hs |- *. rewrite run_bind_run. by apply IH.
Qed.

(** ** Creation *)

(** An environment and options that make room for two rows and two columns. *)

Record environment_ok (env : environment) (options : guac_terminal_options) : Prop := {
  env_metrics : ∃ digit_width descent ascent,
    font_metrics env = Some (digit_width, descent, ascent) ∧
    PANGO_SCALE ≤ digit_width < 2 ^ 30 ∧ PANGO_SCALE ≤ descent + ascent < 2 ^ 30 ∧
    2 * (digit_width / PANGO_SCALE) + GUAC_TERMINAL_SCROLLBAR_WIDTH + 2 * display_margin env
      ≤ opt_width options ∧
    2 * ((descent + ascent) / PANGO_SCALE) + 2 * display_margin env ≤ opt_height options;
  env_margin : 0 ≤ display_margin env;
  env_scrollback : 0 ≤ opt_max_scrollback options < 2 ^ 31;
}.

Lemma new_dimension (size cell max : Z) :
  1 ≤ cell → 2 * cell ≤ size → 2 ≤ max →
  2 ≤ (if max <? Z.quot size cell then max else Z.quot size cell) ≤ max.
Proof.
  intros Hc Hs Hm. rewrite Z.quot_div_nonneg by lia.
  assert (2 ≤ size / cell) by (apply Z.div_le_lower_bound; lia). zif; lia.
Qed.

Lemma scheme_char_ok scheme : is_glyph [scheme_char scheme].
Proof. eexists _, []. split; [done|]. split; [done|]. split; [constructor|done]. Qed.

Lemma initial_statics_ok : statics_ok initial_statics.
Proof.
  split; cbn; try lia. split; [done|]. repeat constructor; unfold INT_MAX; lia.
Qed.

Lemma display_alloc_ok fresh margin0 digit_width descent ascent fg bg palette0 :
  PANGO_SCALE ≤ digit_width → PANGO_SCALE ≤ descent + ascent < 2 ^ 30 →
  ∃ d, guac_terminal_display_alloc fresh margin0 (Some (digit_width, descent, ascent)) fg bg palette0
       = Run (Some d) ∧
    display_ok d ∧ margin d = margin0 ∧ char_width d = digit_width / PANGO_SCALE ∧
    char_height d = (descent + ascent) / PANGO_SCALE.
Proof.
  unfold PANGO_SCALE. intros Hw Hh.
  assert (Ew : Z.quot digit_width 1024 = digit_width / 1024) by (apply Z.quot_div_nonneg; lia).
  assert (Eh : Z.quot (i32 (descent + ascent)) 1024 = (descent + ascent) / 1024).
  { rewrite i32_small by (unfold is_i32; lia). apply Z.quot_div_nonneg; lia. }
  assert (1 ≤ digit_width / 1024) by (apply Z.div_le_lower_bound; lia).
  assert (1 ≤ (descent + ascent) / 1024) by (apply Z.div_le_lower_bound; lia).
  unfold guac_terminal_display_alloc, guac_terminal_display_set_font, PANGO_SCALE. cbn [disp_width
    disp_height char_width char_height].
  unfold div_int. cbn [char_width char_height set]. rewrite Ew, Eh.
  rewrite !(proj2 (Z.eqb_neq _ 0)) by lia. rewrite !run_bind_run.
  change (i32 (0 * 0)) with 0. rewrite !Z.quot_0_l by lia. cbn.
  eexists. split; [done|]. split; [split; cbn; unfold GUAC_TERMINAL_MAX_COLUMNS, GUAC_TERMINAL_MAX_ROWS; lia|].
  done.
Qed.

(** A terminal that holds no text yet. *)

Record blank_ok (t : guac_terminal) : Prop := {
  blank_normal : buffer_ok (normal_buffer t);
  blank_alternate : buffer_ok (alternate_buffer t);
  blank_default : is_glyph [default_char t];
  blank_mapping : Forall mapping_ok (char_mapping t);
  blank_statics : statics_ok (statics t);
  blank_cursor : cursor_row t = 0 ∧ cursor_col t = 0;
  blank_scroll : scroll_start t = 0 ∧ scroll_end t = 0;
  blank_pipe : pipe_buffer t = [];
}.

Lemma new_terminal_blank env options d c :
  0 ≤ opt_max_scrollback options < 2 ^ 31 → is_glyph [c] → blank_ok (new_terminal env options d c).
Proof.
  intros Hs Hc. split; cbn.
  - apply alloc_ok; [|done]. unfold GUAC_TERMINAL_MAX_ROWS. zif; lia.
  - apply alloc_ok; [|done]. unfold GUAC_TERMINAL_MAX_ROWS. lia.
  - done.
  - by repeat constructor.
  - apply initial_statics_ok.
  - done.
  - done.
  - done.
Qed.

Lemma create_sized_blank rows columns ah aw t :
  blank_ok t → blank_ok (create_sized rows columns ah aw t).
Proof. intros [H1 H2 H3 H4 H5 H6 H7 H8]. split; [exact H1|exact H2|exact H3|exact H4|exact H5|exact H6|exact H7|exact H8]. Qed.

Lemma create_scrollbar_ok env width height rows t :
  term_ok t → term_ok (create_scrollbar env width height rows t).
Proof.
  intros [[H1 H2 H3 H4 H5 H6 H7 H8] Hc].
  split; [split; [exact H1|exact H2|exact H3|exact H4|exact H5|exact H6|exact H7|exact H8]|exact Hc].
Qed.

Lemma update_display_run f t d :
  f (display t) = Run d → update_display f t = Run (t <| display := d |>).
Proof. intros E. unfold update_display. by rewrite E, run_bind_run. Qed.

Lemma blank_term_ok t d :
  blank_ok t → display_ok d → disp_width d = term_width t → disp_height d = term_height t →
  2 ≤ term_width t → 2 ≤ term_height t → term_ok (t <| display := d |>).
Proof.
  intros [H1 H2 H3 H4 H5 [H6 H6'] [H7 H7'] H8] Hd Hw Hh Hw2 Hh2.
  split; [split; [exact Hd|exact Hw|exact Hh|exact Hw2|exact Hh2|exact H1|exact H2|exact H3]|].
  unfold control_ok. cbn. rewrite H6, H6', H7, H7', H8.
  split; [lia|]. split; [lia|]. split; [lia|]. split; [exact H4|]. split; [exact H5|cbn; lia].
Qed.

Lemma create_ok env options :
  environment_ok env options →
  ∃ t, guac_terminal_create env options = Run (Some t) ∧ term_ok t.
Proof.
  intros [(dw & desc & asc & Em & Hdw & Hda & Hw & Hh) Hm Hs].
  unfold guac_terminal_create. rewrite Em.
  set (scheme := guac_terminal_parse_color_scheme (opt_color_scheme options)).
  destruct (display_alloc_ok (fresh_operations env) (display_margin env) dw desc asc
    (scheme_foreground scheme) (scheme_background scheme) (scheme_palette scheme))
    as (d & -> & Hd & Emargin & Ecw & Ech); [lia|done|]. rewrite run_bind_run.
  set (t0 := new_terminal env options d (scheme_char scheme)).
  unfold calculate_rows_and_columns at 1. change (display t0) with d. rewrite Emargin, Ecw, Ech.
  unfold PANGO_SCALE, GUAC_TERMINAL_SCROLLBAR_WIDTH in *.
  assert (1 ≤ dw / 1024) by (apply Z.div_le_lower_bound; lia).
  assert (1 ≤ (desc + asc) / 1024) by (apply Z.div_le_lower_bound; lia).
  rewrite !(proj2 (Z.ltb_ge _ 0)) by lia.
  unfold div_int. rewrite !(proj2 (Z.eqb_neq _ 0)) by lia. rewrite !run_bind_run.
  set (rows := if GUAC_TERMINAL_MAX_ROWS <? _ then _ else _).
  set (columns := if GUAC_TERMINAL_MAX_COLUMNS <? _ then _ else _).
  assert (Hrows : 2 ≤ rows ≤ 1024) by (apply new_dimension; lia).
  assert (Hcolumns : 2 ≤ columns ≤ 1024) by (apply new_dimension; lia).
  clearbody rows columns. destruct (calculate_height_and_width _ _ _ _ _) as [ah aw].
  destruct (display_resize_ok (fresh_operations env) d columns rows Hd) as (d2 & E2 & Hd2 & Ew2 & Eh2);
    [unfold GUAC_TERMINAL_MAX_COLUMNS; lia|unfold GUAC_TERMINAL_MAX_ROWS; lia|].
  assert (Hb : blank_ok (create_sized rows columns ah aw t0))
    by (apply create_sized_blank, new_terminal_blank; [done|apply scheme_char_ok]).
  rewrite (update_display_run _ _ d2) by exact E2. rewrite run_bind_run.
  match goal with |- context [guac_terminal_reset ?t] => destruct (terminal_reset_ok t) as (t2 & E3 & Ht2) end.
  { apply create_scrollbar_ok, blank_term_ok; [exact Hb|exact Hd2|exact Ew2|exact Eh2|apply Hcolumns|apply Hrows]. }
  exists t2. split; [|exact Ht2]. rewrite E3, run_bind_run. reflexivity.
Qed.

End Safety.


(** Scrolling the whole screen by its height or more, up or down, fails an assertion of the display
    and aborts the process. *)

Lemma fit_to_range_empty value min max : max < min → guac_terminal_fit_to_range value min max = Abort.
Proof.
  intros Hm. unfold guac_terminal_fit_to_range, GUAC_ASSERT.
  by rewrite (proj2 (Z.leb_gt _ _)).
Qed.

(** `CSI n S` and `CSI n T`, which scroll the scrolling region by [n] rows, abort the process
    in every well-formed terminal whose region is the whole screen when [n] is at least the
    height of the terminal: the amount is clipped to the region (upwards) or not at all
    (downwards), and no row of the display is left to be copied, which [GUAC_ASSERT] refuses. *)
Theorem scroll_whole_screen_aborts `{Wcwidth} t n :
  term_ok t → scroll_start t = 0 → scroll_end t = term_height t - 1 →
  argv (statics t) !! 0%nat = Some n → term_height t ≤ n →
  csi_function t x53 = Abort ∧ csi_function t x54 = Abort.
Proof.
  intros Ht Hs He Hn Hh. pose proof (term_ok_dims t Ht) as [HW HH].
  pose proof (text_ok_height t (proj1 Ht)) as Ed.
  pose proof (arg_range t 0 Ht) as Hr. rewrite Hn in Hr. cbn in Hr. unfold INT_MAX in Hr.
  unfold csi_function. rewrite Hn. cbn [default from_option id].
  rewrite Hs, He, (proj2 (Z.eqb_neq n 0)) by lia.
  split.
  - unfold guac_terminal_scroll_up. rewrite (proj2 (Z.leb_gt n 0)) by lia.
    rewrite !(i32_small (term_height t - 1 - 0 + 1)) by (unfold is_i32; lia).
    rewrite (proj2 (Z.leb_le _ n)) by lia. rewrite !Z.eqb_refl. cbn [andb].
    unfold update_display at 1, guac_terminal_display_copy_rows.
    rewrite (proj2 (Z.leb_gt 0 _)) by lia. rewrite fit_to_range_empty by lia. done.
  - unfold guac_terminal_scroll_down, guac_terminal_copy_rows.
    unfold update_display at 1, guac_terminal_display_copy_rows.
    rewrite (proj2 (Z.leb_le 0 _)) by lia. rewrite fit_to_range_empty; [done|].
    rewrite i32_small by (unfold is_i32; lia). lia.
Qed.

(** ** An example: a terminal of 22 columns and 8 rows *)

#[export] Instance sample_instance : Wcwidth := sample_wcwidth.
#[export] Instance sample_laws : WcwidthLaws := sample_wcwidth_laws.

Definition sample_environment : environment :=
  mk_environment
    (λ _, mk_operation GUAC_CHAR_NOP (mk_char 0 (mk_attributes false false false false false
      (mk_color 0 0 0 0) (mk_color 0 0 0 0)) 1) 0 0)
    0 (0, 0) 1 2 (Some (8192, 4096, 12288)) [1; 2].

Definition sample_options : guac_terminal_options :=
  mk_options 196 132 1000 (lit "gray-black") false.

Lemma sample_environment_ok : environment_ok sample_environment sample_options.
Proof.
  split; [|cbn; lia..]. exists 8192, 4096, 12288. by vm_compute.
Qed.

(** A property of the terminal just created. *)

Definition of_sample (P : guac_terminal → Prop) : Prop :=
  match guac_terminal_create sample_environment sample_options with
  | Run (Some t) => P t
  | _ => False
  end.

Lemma of_sample_elim (Q P : guac_terminal → Prop) :
  of_sample Q → (∀ t, term_ok t → Q t → P t) → of_sample P.
Proof.
  unfold of_sample. intros HQ HP.
  destruct (create_ok sample_environment sample_options sample_environment_ok)
    as (t & E & Ht).
  rewrite E in *. auto.
Qed.

(** Text, colours, movements of the cursor, a wide character. *)

Definition sample_output : list byte :=
  lit "hello, " ++ [x1b] ++ lit "[1;31mworld" ++ [x1b] ++ lit "[2J" ++ [x1b] ++ lit "[3;4Hxyz"
  ++ [x0d; x0a; xe4; xbd; xa0].

Lemma sample_output_is_safe : of_sample (λ t, writes_safe 1 t sample_output = true).
Proof. vm_compute. reflexivity. Qed.

Lemma of_sample_run t (P : guac_terminal → Prop) :
  guac_terminal_create sample_environment sample_options = Run (Some t) → of_sample P ↔ P t.
Proof. unfold of_sample. by intros ->. Qed.


(** The alignment test (`ESC # 8`) where the width of its characters happens to be -1: what is read or
    written lies outside the row. *)

Example alignment_test_width :
  of_sample (λ t, guac_terminal_write (-1) t (x1b :: lit "#8") = Fault).
Proof. vm_compute. reflexivity. Qed.

(** Deleting 12 of the 22 characters of a row (`CSI 12 P`) aborts the process where the row has nothing in
    it, as the rows that a higher terminal gains have: what is moved to the left comes from beyond the row as
    [guac_terminal_buffer_copy_columns] has extended it. *)

Example delete_characters_aborts :
  of_sample (λ t,
    (t ← guac_terminal_resize (fresh_operations sample_environment) t 196 200;
     guac_terminal_write 1 t (x1b :: lit "[11;1H" ++ x1b :: lit "[12P")) = Abort).
Proof. vm_compute. reflexivity. Qed.

Lemma scroll_whole_screen_aborts_witness :
  of_sample (λ t,
    let t := update_statics (λ s, s <| argv := 8 :: replicate 15 0 |>) t in
    csi_function t x53 = Abort ∧ csi_function t x54 = Abort).
Proof.
  apply (of_sample_elim (λ t, scroll_start t = 0 ∧ scroll_end t = 7 ∧ term_height t = 8)).
  { by vm_compute. }
  intros t Ht (Hs & He & Hh). cbv zeta.
  apply (scroll_whole_screen_aborts _ 8); [|exact Hs|cbn; lia|done|cbn; lia].
  apply update_statics_ok; [exact Ht|]. destruct (term_ok_statics t Ht). split; try done.
  split; [done|]. repeat constructor; unfold INT_MAX; lia.
Defined.
