(* ===== verification/TermTextSpec.v ===== *)
(** * Text appears as it is written (specification of terminal-handlers.c, terminal.c and buffer.c)

    What a row of the buffer holds after the terminal has been sent printable
    characters: the characters, one column each, between what was left and
    right of them. *)

From S2P Require Import Prelude RecordUpdate CString CFormat Mem Run TermTypes TermBuffer TermRowSpec TermBufferSpec TermColors TermDisplay TermDisplaySpec TermScrollbar Terminal TermHandlers TermSpec TermHandlersSpec.
Local Open Scope Z_scope.

Local Abbreviation len l := (Z.of_nat (List.length l)).

(** ** Rows up to the attributes of blanks *)

Lemma blank_sim_trans c1 c2 c3 : blank_sim c1 c2 → blank_sim c2 c3 → blank_sim c1 c3.
Proof. intros [->|(?&?&?&?)] [->|(?&?&?&?)]; unfold blank_sim; auto 10. Qed.

Lemma blank_sim_list_trans l1 l2 l3 :
  Forall2 blank_sim l1 l2 → Forall2 blank_sim l2 l3 → Forall2 blank_sim l1 l3.
Proof.
  intros H. revert l3. induction H as [|a b l1 l2 Hab H IH]; intros l3 H3; [done|].
  inversion_clear H3. constructor; [by eapply blank_sim_trans|auto].
Qed.

Lemma blank_sim_continuation c c' : blank_sim c c' → is_continuation c' = is_continuation c.
Proof. intros [->|(E & E' & _)]; [done|]. unfold is_continuation. by rewrite E, E'. Qed.

Lemma leading_sim l l' :
  Forall2 blank_sim l l' →
  List.length (fst (leading l)) = List.length (fst (leading l')) ∧
  Forall2 blank_sim (snd (leading l)) (snd (leading l')).
Proof.
  induction 1 as [|c c' l l' Hc Hl [IH1 IH2]]; [by split; [|constructor]|]. cbn [leading].
  rewrite (blank_sim_continuation _ _ Hc). destruct (is_continuation c); cbn.
  - split; [by rewrite IH1|done].
  - split; [done|by constructor].
Qed.

Lemma blank_sim_of_blanks l l' :
  List.length l = List.length l' → Forall2 blank_sim (blanks l) (blanks l').
Proof.
  intros E. apply blank_sim_blanks; [apply all_blank_blanks..|by rewrite !length_blanks].
Qed.

Lemma trim_left_sim l l' :
  Forall2 blank_sim l l' → Forall2 blank_sim (trim_left l) (trim_left l').
Proof.
  intros H. destruct (leading_sim l l' H) as [E1 E2].
  apply Forall2_app; [by apply blank_sim_of_blanks|done].
Qed.

Lemma leading_spec l :
  ∃ C B, l = C ++ B ∧ conts C ∧ head_ok B ∧ leading l = (C, B).
Proof.
  induction l as [|c l (C & B & -> & HC & HB & E)].
  { exists [], []. split; [done|]. split; [constructor|done]. }
  cbn [leading]. destruct (is_continuation c) eqn:Hc.
  - exists (c :: C), B. split; [done|]. split; [by constructor|]. split; [done|]. by rewrite E.
  - exists [], (c :: C ++ B). split; [done|]. split; [constructor|done].
Qed.

Lemma trim_left_id l : head_ok l → trim_left l = l.
Proof.
  intros H. unfold trim_left. pose proof (leading_app [] l (Forall_nil_2 _) H) as E. cbn in E. by rewrite E.
Qed.

Lemma trim_left_head_ok l : head_ok (trim_left l).
Proof.
  destruct (leading_spec l) as (C & B & -> & HC & HB & E). unfold trim_left. rewrite E. cbn [fst snd].
  destruct C; [done|]. cbn [blanks List.length replicate app]. apply cleared_not_continuation.
Qed.

(** Trimming again after a column is taken away changes blanks at most. *)

Lemma trim_left_drop l :
  Forall2 blank_sim (trim_left (drop 1 l)) (trim_left (drop 1 (trim_left l))).
Proof.
  destruct (leading_spec l) as (C & B & -> & HC & HB & E).
  assert (E2 : trim_left (C ++ B) = blanks C ++ B) by (unfold trim_left; by rewrite E).
  rewrite E2. clear E E2. destruct C as [|c C].
  { apply blank_sim_refl. }
  inversion_clear HC as [|? ? Hc HC']. cbn [blanks List.length replicate app drop].
  assert (E1 : trim_left (C ++ B) = blanks C ++ B) by (unfold trim_left; by rewrite leading_app).
  rewrite !drop_0, E1, trim_left_id.
  - apply Forall2_app; [|apply blank_sim_refl].
    apply blank_sim_blanks; [apply all_blank_blanks|apply all_blank_replicate|].
    by rewrite length_blanks, length_replicate.
  - by destruct C.
Qed.

Lemma length_trim_right l : List.length (trim_right l) = List.length l.
Proof.
  induction l as [|c l IH]; [done|]. cbn [trim_right].
  destruct (forallb _ l); [destruct (negb _ && _); [done|apply length_blanks]|].
  cbn [List.length]. by rewrite IH.
Qed.

Lemma trim_right_take_glyphs l n : glyphs l → glyphs (trim_right (take n l)).
Proof.
  intros Hl. destruct (decide (n ≤ List.length l)%nat) as [Hn|Hn].
  - destruct (glyphs_split l Hl n Hn) as (A & P & C & B & -> & _ & HA & _ & _ & HP & _).
    rewrite trim_right_cut by done. by apply glyphs_app_2, glyphs_blanks.
  - rewrite take_ge by lia. by rewrite trim_right_glyphs.
Qed.

Lemma take_padded d n m l : 0 ≤ n ≤ m → take (Z.to_nat n) (padded d m l) = take (Z.to_nat n) (padded d n l).
Proof.
  intros Hn. unfold padded. rewrite !take_app. f_equal. rewrite !take_replicate. f_equal. lia.
Qed.

Lemma drop_padded d n l : drop (Z.to_nat n) (padded d n l) = drop (Z.to_nat n) l.
Proof.
  unfold padded. rewrite drop_app. rewrite (drop_ge (replicate _ _)).
  - apply app_nil_r.
  - rewrite length_replicate. lia.
Qed.

(** ** Characters of one column *)

Definition narrow (c : guac_terminal_char) : Prop := is_continuation c = false ∧ width c = 1.

Lemma narrow_glyph c : narrow c → is_glyph [c].
Proof. intros [H1 H2]. exists c, []. split; [done|]. split; [done|]. split; [constructor|done]. Qed.

Lemma narrow_glyphs T : Forall narrow T → glyphs T.
Proof.
  induction 1 as [|c T Hc HT IH]; [constructor|]. apply (glyphs_app [c]); [by apply narrow_glyph|done].
Qed.

(** The columns of a row after the cells [T] are written from column [s]: what was left of them, less
    the character they cut there, the cells, and what was right of them, less the character
    they cut there. *)

Definition text_written (d : guac_terminal_char) (s : Z) (cells T cells' : list guac_terminal_char)
    : Prop :=
  ∃ right, cells' = trim_right (take (Z.to_nat s) (padded d s cells)) ++ T ++ right ∧
    Forall2 blank_sim (trim_left (drop (Z.to_nat (s + len T)) cells)) right ∧ head_ok right.

Lemma written_narrow ch : width ch = 1 → written ch 1 0 = [ch].
Proof. intros Hw. done. Qed.

Lemma overwrite_one d s ch cells :
  0 ≤ s → narrow ch →
  text_written d s cells [ch] (overwrite ch s s (padded d (s + 1) cells)).
Proof.
  intros Hs [_ Hw]. unfold overwrite, text_written. cbn [List.length].
  replace (Z.to_nat (s - s + 1)) with 1%nat by lia. rewrite written_narrow by done.
  rewrite drop_padded, take_padded by lia. eexists. split; [done|].
  split; [apply blank_sim_refl|apply trim_left_head_ok].
Qed.

(** Writing a cell after a well-formed beginning of a row. *)

Lemma overwrite_after d X Y ch :
  glyphs X → narrow ch →
  overwrite ch (len X) (len X) (padded d (len X + 1) (X ++ Y)) = X ++ ch :: trim_left (drop 1 Y).
Proof.
  intros HX [_ Hw]. unfold overwrite. rewrite drop_padded, take_padded by lia.
  replace (Z.to_nat (len X - len X + 1)) with 1%nat by lia. rewrite written_narrow by done.
  replace (Z.to_nat (len X + 1)) with (List.length X + 1)%nat by lia. rewrite drop_app_add.
  unfold padded. rewrite Nat2Z.id, <-app_assoc, take_app_length, trim_right_glyphs by done. done.
Qed.

Lemma length_left d s cells :
  0 ≤ s → len (trim_right (take (Z.to_nat s) (padded d s cells))) = s.
Proof.
  intros Hs. rewrite length_trim_right, length_take. pose proof (length_padded d s cells). lia.
Qed.

Lemma text_glyphs d s cells T :
  glyphs cells → is_glyph [d] → Forall narrow T →
  glyphs (trim_right (take (Z.to_nat s) (padded d s cells)) ++ T).
Proof.
  intros Hg Hd HT. apply glyphs_app_2; [|by apply narrow_glyphs].
  by apply trim_right_take_glyphs, padded_glyphs.
Qed.

(** The next cell, in the column after the text. *)

Lemma text_written_snoc d s cells T ch cells' :
  0 ≤ s → glyphs cells → is_glyph [d] → Forall narrow T → narrow ch →
  text_written d s cells T cells' →
  text_written d s cells (T ++ [ch])
    (overwrite ch (s + len T) (s + len T) (padded d (s + len T + 1) cells')).
Proof.
  intros Hs Hg Hd HT Hch (right & -> & Hsim & Hhead).
  pose proof (text_glyphs d s cells T Hg Hd HT) as Hleft. pose proof (length_left d s cells Hs) as EP.
  set (P := trim_right _) in *.
  replace (s + len T) with (len (P ++ T)) by (rewrite length_app; lia).
  rewrite (app_assoc P T right), overwrite_after by done.
  exists (trim_left (drop 1 right)). split; [by rewrite <-!app_assoc|]. split; [|apply trim_left_head_ok].
  replace (Z.to_nat (s + len (T ++ [ch]))) with (Z.to_nat (s + len T) + 1)%nat
    by (rewrite length_app; cbn [List.length]; lia).
  rewrite <-drop_drop. eapply blank_sim_list_trans; [apply trim_left_drop|].
  apply trim_left_sim. by apply Forall2_drop.
Qed.

(** The last cell again, with another attribute. *)

Lemma text_written_again d s cells T ch ch' cells' :
  0 ≤ s → glyphs cells → is_glyph [d] → Forall narrow T → narrow ch' →
  text_written d s cells (T ++ [ch]) cells' →
  text_written d s cells (T ++ [ch'])
    (overwrite ch' (s + len T) (s + len T) (padded d (s + len T + 1) cells')).
Proof.
  intros Hs Hg Hd HT Hch (right & -> & Hsim & Hhead).
  pose proof (text_glyphs d s cells T Hg Hd HT) as Hleft. pose proof (length_left d s cells Hs) as EP.
  set (P := trim_right _) in *.
  replace (s + len T) with (len (P ++ T)) by (rewrite length_app; lia).
  replace (P ++ (T ++ [ch]) ++ right) with ((P ++ T) ++ ch :: right) by (by rewrite <-!app_assoc).
  rewrite overwrite_after by done. cbn [drop]. rewrite drop_0, trim_left_id by done.
  exists right. split; [by rewrite <-!app_assoc|]. rewrite !length_app in *. done.
Qed.

(** ** One row of a buffer *)

(** [b'] is [b] after the cells [T] are written from column [s] of the row at [idx], which is [r]
    in [b]. *)

Definition line_written (b b' : guac_terminal_buffer) (row : Z) (idx : nat)
    (r : guac_terminal_buffer_row) (s : Z) (T : list guac_terminal_char) : Prop :=
  match T with
  | [] => b' = b
  | _ => ∃ cells', row_replaced b b' row idx r cells' ∧
           text_written (default_character b) s (row_cells r) T cells'
  end.

Lemma line_written_intro b b' row idx r s T cells' :
  T ≠ [] → row_replaced b b' row idx r cells' →
  text_written (default_character b) s (row_cells r) T cells' → line_written b b' row idx r s T.
Proof. destruct T; [done|]. intros _ H1 H2. by exists cells'. Qed.

Lemma row_replaced_trans b b1 b2 row idx r r1 c1 c2 :
  row_replaced b b1 row idx r c1 → (idx < List.length (rows b))%nat → rows b1 !! idx = Some r1 →
  row_replaced b1 b2 row idx r1 c2 → row_replaced b b2 row idx r c2.
Proof.
  intros [(r1' & E1 & Ec1 & Ew1) Et1 Ea1 Ed1 El1] Hidx Hr1 [(r2 & E2 & Ec2 & Ew2) Et2 Ea2 Ed2 El2].
  rewrite E1, list_lookup_insert_eq in Hr1 by done. injection Hr1 as <-.
  split; [|congruence..|unfold touched in *; intuition congruence].
  exists r2. split; [|split; [done|congruence]]. by rewrite E2, E1, list_insert_insert_eq.
Qed.

Lemma row_replaced_lookup b b1 row idx r c1 :
  row_replaced b b1 row idx r c1 → (idx < List.length (rows b))%nat →
  ∃ r1, rows b1 !! idx = Some r1 ∧ row_cells r1 = c1.
Proof.
  intros [(r1 & E1 & Ec1 & _) _ _ _ _] Hidx. exists r1.
  by rewrite E1, list_lookup_insert_eq by done.
Qed.

Lemma row_replaced_get_row b b1 row idx r c1 :
  row_replaced b b1 row idx r c1 →
  guac_terminal_buffer_get_row b1 row = guac_terminal_buffer_get_row b row.
Proof. intros [_ Et Ea _ _]. unfold guac_terminal_buffer_get_row. by rewrite Et, Ea. Qed.

Section Line.

Context (b : guac_terminal_buffer) (row : Z) (idx : nat) (r : guac_terminal_buffer_row).
Context (Hb : buffer_ok b) (Hrow : guac_terminal_buffer_get_row b row = Some idx)
        (Hr : rows b !! idx = Some r)
        (Hbound : - GUAC_TERMINAL_MAX_ROWS < row < GUAC_TERMINAL_MAX_ROWS).

Lemma put_cell b1 r1 col ch :
  buffer_ok b1 → guac_terminal_buffer_get_row b1 row = Some idx → rows b1 !! idx = Some r1 →
  narrow ch → 0 ≤ col < GUAC_TERMINAL_MAX_COLUMNS →
  ∃ b2, guac_terminal_buffer_set_columns b1 row col col ch = Run b2 ∧ buffer_ok b2 ∧
    row_replaced b1 b2 row idx r1
      (overwrite ch col col (padded (default_character b1) (col + 1) (row_cells r1))).
Proof.
  intros Hb1 Hg Hr1 [Hc Hw] Hcol. unfold guac_terminal_buffer_set_columns.
  rewrite SET_COLUMNS_DEPTH_eq. apply set_columns_at_ok; try done; try lia.
  rewrite Hw. apply Z.divide_1_l.
Qed.

Lemma row_glyphs : glyphs (row_cells r).
Proof. apply (Forall_lookup_1 _ _ _ _ (buffer_ok_rows b Hb) Hr). Qed.

Lemma row_in_range : (idx < List.length (rows b))%nat.
Proof. by apply lookup_lt_Some in Hr. Qed.

(** What holds the text holds the row. *)

Lemma line_row b1 s T :
  line_written b b1 row idx r s T →
  guac_terminal_buffer_get_row b1 row = Some idx ∧ default_character b1 = default_character b ∧
  ∃ r1, rows b1 !! idx = Some r1.
Proof.
  destruct T as [|c T]; cbn.
  - intros ->. eauto.
  - intros (cells' & Hrep & _). rewrite (row_replaced_get_row _ _ _ _ _ _ Hrep).
    destruct (row_replaced_lookup _ _ _ _ _ _ Hrep row_in_range) as (r1 & E & _).
    split; [done|]. split; [apply Hrep|eauto].
Qed.

Lemma put_next b1 s T ch :
  buffer_ok b1 → line_written b b1 row idx r s T → Forall narrow T → narrow ch →
  0 ≤ s → s + len T < GUAC_TERMINAL_MAX_COLUMNS →
  ∃ b2, guac_terminal_buffer_set_columns b1 row (s + len T) (s + len T) ch = Run b2 ∧ buffer_ok b2 ∧
    line_written b b2 row idx r s (T ++ [ch]).
Proof.
  intros Hb1 HT HnT Hch Hs Hlen. destruct (line_row b1 s T HT) as (Hg & Ed & r1 & Hr1).
  destruct (put_cell b1 r1 (s + len T) ch) as (b2 & E & Hb2 & Hrep); try done; [lia|].
  exists b2. split; [done|]. split; [done|]. rewrite Ed in Hrep.
  destruct T as [|c T].
  - cbn in HT. subst b1. rewrite Hr in Hr1. injection Hr1 as <-. cbn [List.length] in Hrep.
    rewrite Z.add_0_r in Hrep.
    eapply line_written_intro; [done|exact Hrep|]. by apply overwrite_one.
  - destruct HT as (c1 & Hrep1 & Ht1).
    destruct (row_replaced_lookup _ _ _ _ _ _ Hrep1 row_in_range) as (r1' & E1 & Ec1).
    rewrite E1 in Hr1. injection Hr1 as <-. rewrite Ec1 in Hrep.
    eapply line_written_intro; [by destruct T| |].
    + eapply row_replaced_trans; [exact Hrep1|apply row_in_range|exact E1|exact Hrep].
    + apply text_written_snoc; try done; [apply row_glyphs|apply (buffer_ok_default b Hb)].
Qed.

Lemma put_again b1 s T ch ch' :
  buffer_ok b1 → line_written b b1 row idx r s (T ++ [ch]) → Forall narrow T → narrow ch' →
  0 ≤ s → s + len T < GUAC_TERMINAL_MAX_COLUMNS →
  ∃ b2, guac_terminal_buffer_set_columns b1 row (s + len T) (s + len T) ch' = Run b2 ∧ buffer_ok b2 ∧
    line_written b b2 row idx r s (T ++ [ch']).
Proof.
  intros Hb1 HT HnT Hch Hs Hlen. destruct (line_row b1 s _ HT) as (Hg & Ed & r1 & Hr1).
  destruct (put_cell b1 r1 (s + len T) ch') as (b2 & E & Hb2 & Hrep); try done; [lia|].
  exists b2. split; [done|]. split; [done|]. rewrite Ed in Hrep.
  assert (HT' : ∃ c1, row_replaced b b1 row idx r c1 ∧
    text_written (default_character b) s (row_cells r) (T ++ [ch]) c1) by (by destruct T).
  destruct HT' as (c1 & Hrep1 & Ht1).
  destruct (row_replaced_lookup _ _ _ _ _ _ Hrep1 row_in_range) as (r1' & E1 & Ec1).
  rewrite E1 in Hr1. injection Hr1 as <-. rewrite Ec1 in Hrep.
  eapply line_written_intro; [by destruct T| |].
  - eapply row_replaced_trans; [exact Hrep1|apply row_in_range|exact E1|exact Hrep].
  - eapply text_written_again; try done; [apply row_glyphs|apply (buffer_ok_default b Hb)].
Qed.

End Line.

(** ** The text of a terminal *)

Section Text.

Context `{WcwidthLaws}.

Lemma touch_buffer t r1 c1 r2 c2 :
  current_buffer (guac_terminal_select_touch t r1 c1 r2 c2) = current_buffer t ∧
  visible_cursor_row (guac_terminal_select_touch t r1 c1 r2 c2) = visible_cursor_row t ∧
  visible_cursor_col (guac_terminal_select_touch t r1 c1 r2 c2) = visible_cursor_col t.
Proof. unfold guac_terminal_select_touch. by repeat zif. Qed.

Lemma current_set_current b t : current_buffer (set_current_buffer b t) = b.
Proof. unfold current_buffer, set_current_buffer. by destruct (on_alternate t) eqn:E; cbn; rewrite E. Qed.

(** The columns of the terminal's buffer are those of the buffer. *)

Lemma write_columns_buffer t row s e ch b :
  text_ok t → writable ch → s ≤ Z.max 0 e + 1 →
  guac_terminal_buffer_set_columns (current_buffer t) row s e ch = Run b →
  ∃ t', __guac_terminal_set_columns t row s e ch = Run t' ∧ draws t t' ∧ current_buffer t' = b ∧
    visible_cursor_row t' = visible_cursor_row t ∧ visible_cursor_col t' = visible_cursor_col t.
Proof.
  intros Ht Hch Hs E. destruct (write_columns_drawn t row s e ch Ht Hch Hs) as (t' & E' & D).
  exists t'. split; [done|]. split; [done|]. unfold __guac_terminal_set_columns, update_display in E'.
  destruct (guac_terminal_display_set_columns _ _ _ _ _) as [d| | |]; try discriminate E'.
  rewrite !run_bind_run in E'. unfold update_buffer in E'.
  change (current_buffer (t <| display := d |>)) with (current_buffer t) in E'.
  rewrite E, !run_bind_run in E'. injection E' as <-.
  match goal with |- context [guac_terminal_select_touch ?u _ _ _ _] =>
    destruct (touch_buffer u row s row e) as (-> & -> & ->) end.
  rewrite current_set_current. unfold set_current_buffer. cbn. by destruct (on_alternate t).
Qed.

(** A cell of the text: the character, with the cursor over it or not. *)

Definition cell_for (ch cell : guac_terminal_char) : Prop :=
  cell = ch ∨ cell = set_cursor_attribute true ch.

Lemma cell_for_narrow ch cell : narrow ch → cell_for ch cell → narrow cell.
Proof. intros [H1 H2] [->| ->]; by split. Qed.

Lemma set_cell t b row idx r s T ch :
  text_ok t → buffer_ok b → guac_terminal_buffer_get_row b row = Some idx → rows b !! idx = Some r →
  - GUAC_TERMINAL_MAX_ROWS < row < GUAC_TERMINAL_MAX_ROWS →
  line_written b (current_buffer t) row idx r s T → Forall narrow T → narrow ch →
  0 ≤ s → s + len T < GUAC_TERMINAL_MAX_COLUMNS →
  ∃ t' cell, guac_terminal_set_columns t row (s + len T) (s + len T) ch = Run t' ∧ draws t t' ∧
    line_written b (current_buffer t') row idx r s (T ++ [cell]) ∧ cell_for ch cell.
Proof.
  intros Ht Hb Hrow Hr Hbound HT HnT Hch Hs Hlen.
  assert (Hw : ∀ ch, narrow ch → writable ch) by (intros c [H1 H2]; split; [done|lia]).
  destruct (put_next b row idx r Hb Hrow Hr Hbound (current_buffer t) s T ch) as (b1 & E1 & Hb1 & L1);
    try done; [by apply current_buffer_ok|].
  destruct (write_columns_buffer t row (s + len T) (s + len T) ch b1)
    as (t1 & Et1 & D1 & Eb1 & Ev1 & Ev2); [done|by apply Hw|lia|done|].
  unfold guac_terminal_set_columns. rewrite Et1, run_bind_run. rewrite <-Eb1 in L1, Hb1.
  zif; [|by exists t1, ch; split; [|split; [|split; [|left]]]].
  assert (Ecol : visible_cursor_col t1 = s + len T) by lia. rewrite Ecol.
  assert (Hch' : narrow (set_cursor_attribute true ch)) by (by destruct Hch).
  destruct (put_again b row idx r Hb Hrow Hr Hbound (current_buffer t1) s T ch
    (set_cursor_attribute true ch)) as (b2 & E2 & Hb2 & L2); try done.
  destruct (write_columns_buffer t1 row (s + len T) (s + len T) (set_cursor_attribute true ch) b2)
    as (t2 & Et2 & D2 & Eb2 & _); [apply D1|by apply Hw|lia|done|].
  exists t2, (set_cursor_attribute true ch). split; [done|]. split; [by eapply draws_trans|].
  rewrite Eb2. split; [done|by right].
Qed.

(** The terminal displays its output: nothing is escaped, redirected or inserted. *)

Definition plain (t : guac_terminal) : Prop :=
  char_handler t = guac_terminal_echo ∧ pipe_stream t = None ∧ active_mapping t = None ∧
  insert_mode t = false.

Definition is_printable (c : byte) : Prop := 0x20 ≤ bz c ≤ 0x7E.

Lemma decode_printable c s :
  is_printable c → decode_byte false c s = s <| codepoint := bz c |> <| bytes_remaining := 0 |>.
Proof.
  unfold is_printable. intros Hc. unfold decode_byte.
  assert (E : Z.land (bz c) 0x80 = 0 ∧ Z.land (bz c) 0x7F = bz c).
  { destruct c; cbn in Hc; try lia; done. }
  destruct E as [-> ->]. done.
Qed.

Definition glyph_of (t : guac_terminal) (c : byte) : guac_terminal_char :=
  mk_char (bz c) (current_attributes t) 1.

Lemma glyph_of_narrow t c : is_printable c → narrow (glyph_of t c).
Proof. intros Hc. split; [|done]. unfold is_continuation. cbn. unfold is_printable in Hc. unfold GUAC_CHAR_CONTINUATION. lia. Qed.

(** The fields that follow from what [draws] keeps. *)

Lemma draws_plain t t' : draws t t' → plain t → plain t'.
Proof. intros [_ E] Hp. change (plain (control t)) in Hp. rewrite <-E in Hp. exact Hp. Qed.

(** The terminal [t'] after the text [T] has been written to [t], with [b] its buffer before. *)

Definition typed (b : guac_terminal_buffer) (t t' : guac_terminal) (idx : nat)
    (r : guac_terminal_buffer_row) (s : Z) (T : list guac_terminal_char) : Prop :=
  term_ok t' ∧ plain t' ∧ cursor_row t' = cursor_row t ∧ cursor_col t' = s + len T ∧
  term_width t' = term_width t ∧ current_attributes t' = current_attributes t ∧
  line_written b (current_buffer t') (cursor_row t) idx r s T.

Lemma typed_statics b t t' idx r s T f :
  typed b t t' idx r s T → statics_ok (f (statics t')) → typed b t (update_statics f t') idx r s T.
Proof.
  intros (H1 & H2 & H3) Hs. split; [by apply update_statics_ok|]. split; [exact H2|exact H3].
Qed.

Lemma typed_emit b t t' idx r s T e : typed b t t' idx r s T → typed b t (emit e t') idx r s T.
Proof. intros (H1 & H2 & H3). split; [by apply emit_ok|]. split; [exact H2|exact H3]. Qed.

Lemma displayable_typed t t1 b idx r s T c :
  is_printable c → buffer_ok b →
  guac_terminal_buffer_get_row b (cursor_row t) = Some idx → rows b !! idx = Some r →
  typed b t t1 idx r s T → Forall narrow T → 0 ≤ s → s + len T < term_width t →
  ∃ t' cell, echo_displayable t1 (bz c) = Run t' ∧ typed b t t' idx r s (T ++ [cell]) ∧
    cell_for (glyph_of t c) cell.
Proof.
  intros Hc Hb Hrow Hr Ht HnT Hs Hlen.
  assert (Hst : ∀ v, statics_ok ((statics t1) <| codepoint := v |>)).
  { intros v. destruct (term_ok_statics t1 (proj1 Ht)). by split. }
  pose proof (typed_statics b t t1 idx r s T (λ s, s <| codepoint := bz c |>) Ht (Hst (bz c))) as Ht2.
  destruct Ht as (_ & (_ & _ & P3 & _) & _). unfold echo_displayable.
  unfold is_printable in Hc. rewrite (proj2 (Z.ltb_ge _ _)) by lia.
  rewrite P3, run_bind_run. set (t2 := update_statics _ t1) in *. clearbody t2. clear P3.
  destruct Ht2 as (Hok & Hp & Erow & Ecol & Ew & Ea & HL).
  pose proof (term_ok_dims t2 Hok) as [HW HH]. pose proof Hok as [Hx (C1 & _)].
  rewrite (proj2 (Z.leb_gt _ _)) by lia. rewrite run_bind_run.
  pose proof Hp as (P1 & P2 & P3 & P4). rewrite P4, run_bind_run.
  unfold guac_terminal_set.
  assert (Ec : columns_of (bz c) = 1) by (unfold columns_of; by rewrite wcwidth_ascii).
  rewrite Ec. cbn [Z.eqb]. rewrite Erow, Ecol, i32_small by (unfold is_i32; lia).
  replace (s + len T + 1 - 1) with (s + len T) by lia. rewrite Ea.
  fold (glyph_of t c).
  destruct (set_cell t2 b (cursor_row t) idx r s T (glyph_of t c)) as (t3 & cell & -> & D & HL3 & Hcell);
    try done.
  { unfold GUAC_TERMINAL_MAX_ROWS. lia. }
  { by apply glyph_of_narrow. }
  { unfold GUAC_TERMINAL_MAX_COLUMNS. lia. }
  rewrite run_bind_run. eexists _, cell. split; [reflexivity|]. split; [|done].
  pose proof (draws_ok _ _ D Hok) as Hok3. pose proof (draws_plain _ _ D Hp) as Hp3.
  pose proof (draws_width _ _ D) as EW3.
  apply (draws_field cursor_row) in D as Er3; [|done].
  apply (draws_field cursor_col) in D as Ec3; [|done].
  apply (draws_field current_attributes) in D as Ea3; [|done].
  assert (EL : len (T ++ [cell]) = len T + 1) by (rewrite length_app; cbn [List.length]; lia).
  split. { destruct Hok3 as [[] Hc3]. split; [by split|]. unfold control_ok in *. cbn. intuition lia. }
  split; [exact Hp3|]. split; [cbn; congruence|]. split; [cbn; lia|]. split; [cbn; congruence|].
  split; [cbn; congruence|exact HL3].
Qed.

Lemma write_printable indeterminate t t1 b idx r s T c :
  is_printable c → buffer_ok b →
  guac_terminal_buffer_get_row b (cursor_row t) = Some idx → rows b !! idx = Some r →
  typed b t t1 idx r s T → Forall narrow T → 0 ≤ s → s + len T < term_width t →
  ∃ t' cell, write_byte indeterminate t1 c = Run t' ∧ typed b t t' idx r s (T ++ [cell]) ∧
    cell_for (glyph_of t c) cell.
Proof.
  intros Hc Hb Hrow Hr Ht HnT Hs Hlen. unfold write_byte.
  assert (Ht2 : typed b t (if typescript t1 then emit (typescript_byte c) t1 else t1) idx r s T)
    by (destruct (typescript t1); [by apply typed_emit|done]).
  set (t2 := if typescript t1 then _ else _) in *. clearbody t2.
  pose proof Ht2 as (Hok & (P1 & P2 & P3 & P4) & _).
  unfold handle. rewrite P1. unfold handle_echo. rewrite P2.
  assert (EN : ∀ A, bool_decide (is_Some (@None A)) = false) by (intros A; by apply bool_decide_eq_false_2).
  rewrite EN. cbn [andb]. cbv zeta. rewrite P3, EN.
  set (t3 := update_statics _ t2).
  assert (Ht3 : typed b t t3 idx r s T)
    by (apply typed_statics; [done|by apply decode_byte_ok, term_ok_statics]).
  assert (E3 : codepoint (statics t3) = bz c ∧ bytes_remaining (statics t3) = 0).
  { change (statics t3) with (decode_byte false c (statics t2)). by rewrite decode_printable. }
  clearbody t3. destruct E3 as [-> ->].
  cbn [negb Z.eqb]. unfold echo_character. pose proof Hc as Hc'. unfold is_printable in Hc'.
  repeat (rewrite (proj2 (Z.eqb_neq (bz c) _)) by lia). cbn [orb].
  by apply displayable_typed.
Qed.

Lemma write_text indeterminate t b idx r s text : ∀ t1 T,
  Forall is_printable text → buffer_ok b →
  guac_terminal_buffer_get_row b (cursor_row t) = Some idx → rows b !! idx = Some r →
  typed b t t1 idx r s T → Forall narrow T → 0 ≤ s → s + len T + len text ≤ term_width t →
  ∃ t' T', guac_terminal_write indeterminate t1 text = Run t' ∧ typed b t t' idx r s (T ++ T') ∧
    Forall2 (λ c, cell_for (glyph_of t c)) text T'.
Proof.
  induction text as [|c text IH]; intros t1 T Htext Hb Hrow Hr Ht HnT Hs Hlen.
  { exists t1, []. rewrite app_nil_r. split; [done|]. split; [done|constructor]. }
  apply Forall_cons_iff in Htext as [Hc Htext]. cbn [List.length] in Hlen.
  destruct (write_printable indeterminate t t1 b idx r s T c) as (t2 & cell & E & Ht2 & Hcell);
    try done; [lia|].
  cbn [guac_terminal_write]. rewrite E, run_bind_run.
  destruct (IH t2 (T ++ [cell])) as (t' & T' & E' & Ht' & HT'); try done.
  { apply Forall_app. split; [done|]. constructor; [|constructor].
    eapply cell_for_narrow; [|exact Hcell]. by apply glyph_of_narrow. }
  { rewrite length_app. cbn [List.length]. lia. }
  exists t', (cell :: T'). split; [done|]. split; [|by constructor].
  by rewrite <-app_assoc in Ht'.
Qed.

End Text.


(** Two letters in the first row of a terminal just created. *)


(** A wide character printed where the visible cursor is does not reach the buffer: the second
    call of [__guac_terminal_set_columns], for the one column of the cursor, cuts it. *)

Definition row_values (t : guac_terminal) (row : Z) (n : nat) : option (list Z) :=
  match guac_terminal_buffer_get_columns (current_buffer t) row with
  | Run (Some (cells, _, _)) => Some (value <$> take n cells)
  | _ => None
  end.

Definition written_values (output : list byte) (row : Z) (n : nat) : option (list Z) :=
  match guac_terminal_create sample_environment sample_options with
  | Run (Some t) =>
      match guac_terminal_write 1 t output with
      | Run t => row_values t row n
      | _ => None
      end
  | _ => None
  end.

Lemma wide_under_cursor_lost :
  written_values [xe4; xbd; xa0] 0 3 = Some [GUAC_CHAR_SPACE; GUAC_CHAR_SPACE; 0] ∧
  written_values [x0a; xe4; xbd; xa0] 1 3 = Some [0x4F60; GUAC_CHAR_CONTINUATION; 0].
Proof. split; vm_compute; reflexivity. Qed.
