(* ===== verification/CommandLogger.v ===== *)
(** * The log of the commands typed over SSH (src/src/protocols/ssh/command_logger.c)

    The logger sees the keys of a user, keeps the line they type in a buffer and
    writes it to the log when Enter is pressed; a line that the access control
    list refuses is also written to the log of restricted commands, and one that
    is not refused and looks dangerous to the log of dangerous commands.

    What is written to the files and to the system log is a list of events.  The
    time, the process and the environment are arguments; whether a file could be
    opened is a member of the state. *)

From S2P Require Import Prelude RecordUpdate CString CFormat CommandAcl.
Local Open Scope Z_scope.

Local Abbreviation len l := (Z.of_nat (List.length l)).

Definition CMD_BUFFER_SIZE : Z := 4096.

Record command_logger := mk_logger {
  buffer : list byte;
  buffer_pos : Z;
  display_buffer : list byte;
  display_pos : Z;
  cursor_pos : Z;
  in_tab_completion : bool;
  username : list byte;
  remote_ip : list byte;
  connection_id : list byte;
  session_id : list byte;
  client_id : option (list byte);       (* client->connection_id, if there is a client and an id *)
  has_client : bool;
  acl_config : option guac_ssh_acl_config;
  ssh_hostname : list byte;
  has_alert_file : bool;
  has_restricted_file : bool;
}.

#[export] Instance eta_logger : Eta command_logger :=
  λ l, mk_logger (buffer l) (buffer_pos l) (display_buffer l) (display_pos l) (cursor_pos l)
    (in_tab_completion l) (username l) (remote_ip l) (connection_id l) (session_id l) (client_id l)
    (has_client l) (acl_config l) (ssh_hostname l) (has_alert_file l) (has_restricted_file l).

Inductive log_event :=
| MainLog (line : list byte)
| RestrictedLog (line : list byte)
| AlertLog (line : list byte)
| SyslogBlocked (command : list byte)
| SyslogDangerous (command : list byte)
| AclMessage (entry : acl_log).

(** ** Lines of the log *)

Definition bar : list byte := lit "|".
Definition newline : byte := x0a.

(** [fprintf(file, "%s|%s|%s|%s|%s|%s|%s", ...)] and what ends the line. *)

Definition log_line (l : command_logger) (timestamp clean_cmd ending : list byte) : list byte :=
  timestamp ++ bar ++ ssh_hostname l ++ bar ++ connection_id l ++ bar ++ session_id l ++ bar
  ++ username l ++ bar ++ remote_ip l ++ bar ++ c_str clean_cmd ++ ending.

(** The characters of the buffer that are logged. *)

Definition clean_char (c : byte) : list byte :=
  if bool_decide (c = x09) then [x20]
  else if (32 <=? sc c) || bool_decide (c = x00) then [c] else [].

Definition clean_command (l : command_logger) : list byte :=
  let n := Z.min (buffer_pos l) (CMD_BUFFER_SIZE - 1) in
  flat_map clean_char (take (Z.to_nat n) (buffer l)).

Definition is_empty (clean_cmd : list byte) : bool :=
  forallb (λ c, bool_decide (c = x20 ∨ c = x00)) clean_cmd.

Definition dangerous_patterns : list (list byte) :=
  lit <$> ["rm -rf"; "rm -rf /"; "rm -rf *"; "dd if=/dev/zero"; "mkfs"; "format"; "chmod 777 /";
           "chown -R"; "kill -9"; "pkill"; "killall"; "shutdown"; "reboot"; "halt"; "iptables -F";
           "ufw disable"; "systemctl stop"; "service stop"; "DROP DATABASE"; "DROP TABLE";
           "DELETE FROM"]%string.

Definition is_dangerous_command (command : list byte) : bool :=
  existsb (strstr_b command) dangerous_patterns.

(** ** Keys *)

(** The check against the access control list: the messages, and whether the command is restricted. *)

Definition check_restricted (l : command_logger) (clean_cmd : list byte)
    : list log_event * bool :=
  match acl_config l with
  | None => ([], false)
  | Some config =>
      match guac_ssh_acl_get_rule (Some config) (client_id l) (Some (ssh_hostname l)) (Some (username l))
              ≫= rule_at config with
      | None => ([], false)
      | Some rule =>
          let '(allowed, messages) :=
            guac_ssh_acl_check_command (Some rule) (Some (c_str clean_cmd)) (has_client l) in
          (AclMessage <$> messages, negb allowed)
      end
  end.

Definition restricted_events (l : command_logger) (timestamp clean_cmd : list byte)
    : list log_event :=
  (if has_restricted_file l
   then [RestrictedLog (log_line l timestamp clean_cmd (lit "|RESTRICTED" ++ [newline]))] else [])
  ++ [SyslogBlocked (c_str clean_cmd)].

Definition dangerous_events (l : command_logger) (timestamp clean_cmd : list byte)
    : list log_event :=
  (if has_alert_file l
   then [AlertLog (log_line l timestamp clean_cmd (lit "|DANGEROUS" ++ [newline]))] else [])
  ++ [SyslogDangerous (c_str clean_cmd)].

Definition command_events (l : command_logger) (timestamp clean_cmd : list byte)
    : list log_event :=
  if is_empty clean_cmd then []
  else
    let '(messages, is_restricted) := check_restricted l clean_cmd in
    [MainLog (log_line l timestamp clean_cmd [newline])]
    ++ messages
    ++ (if is_restricted then restricted_events l timestamp clean_cmd
        else if is_dangerous_command (c_str clean_cmd) then dangerous_events l timestamp clean_cmd
        else []).

Definition zeros : list byte := replicate (Z.to_nat CMD_BUFFER_SIZE) x00.

(** A character at the end of a buffer, with the terminator behind it. *)

Definition push_char (c : byte) (buffer : list byte) (pos : Z) : list byte * Z :=
  if pos <? CMD_BUFFER_SIZE - 2
  then (<[Z.to_nat (pos + 1) := x00]> (<[Z.to_nat pos := c]> buffer), pos + 1)
  else (buffer, pos).

Definition pop_char (buffer : list byte) (pos : Z) : list byte * Z :=
  if 0 <? pos then (<[Z.to_nat (pos - 1) := x00]> buffer, pos - 1) else (buffer, pos).

Definition set_buffers (b d : list byte * Z) (l : command_logger) : command_logger :=
  l <| buffer := fst b |> <| buffer_pos := snd b |>
    <| display_buffer := fst d |> <| display_pos := snd d |>.

Definition guac_ssh_command_logger_key (l : command_logger) (timestamp : list byte)
    (keysym : Z) (pressed : bool) : command_logger * list log_event :=
  if negb pressed then (l, [])
  else if (keysym =? 0xFF0D) || (keysym =? 0x0D) || (keysym =? 0x0A) then
    (l <| buffer := zeros |> <| buffer_pos := 0 |>,
     command_events l timestamp (clean_command l))
  else if keysym =? 0xFF08 then
    (set_buffers (pop_char (buffer l) (buffer_pos l)) (pop_char (display_buffer l) (display_pos l)) l
       <| in_tab_completion := false |>, [])
  else if keysym =? 0xFF09 then
    (l <| in_tab_completion := true |> <| cursor_pos := buffer_pos l |>, [])
  else if (0x20 <=? keysym) && (keysym <=? 0x7E) then
    let c := zb keysym in
    (set_buffers (push_char c (buffer l) (buffer_pos l)) (push_char c (display_buffer l) (display_pos l)) l
       <| in_tab_completion := false |>, [])
  else (l, []).

(** ** Output of the terminal *)

Definition guac_ssh_command_logger_output_char (c : byte) (l : command_logger) : command_logger :=
  if (32 <=? sc c) && (sc c <=? 126) then
    set_buffers (push_char c (buffer l) (buffer_pos l)) (push_char c (display_buffer l) (display_pos l)) l
  else l.

Fixpoint output_loop (data : list byte) (l : command_logger) : command_logger :=
  match data with
  | [] => l
  | c :: data =>
      if bool_decide (c = x0d ∨ c = x0a) then l <| in_tab_completion := false |>
      else output_loop data (guac_ssh_command_logger_output_char c l)
  end.

Definition guac_ssh_command_logger_output (l : command_logger) (data : list byte) : command_logger :=
  if in_tab_completion l then output_loop data l else l.

(** ** The end of the log *)

Definition guac_ssh_command_logger_flush (l : command_logger) (timestamp : list byte)
    : command_logger * list log_event :=
  if buffer_pos l =? 0 then (l, [])
  else
    (l <| buffer := zeros |> <| buffer_pos := 0 |> <| display_pos := 0 |>
       <| in_tab_completion := false |>,
     [MainLog (log_line l timestamp (clean_command l) (lit " (incomplete)" ++ [newline]))]).

Definition guac_ssh_command_logger_free (l : command_logger) (timestamp : list byte)
    : list log_event :=
  if 0 <? buffer_pos l then snd (guac_ssh_command_logger_flush l timestamp) else [].

(** ** The beginning *)

(** [strncpy] to an array of [size] bytes and its terminator. *)

Definition copied (size : nat) (s : list byte) : list byte := take (size - 1) (c_str s).

Definition generate_session_id (timestamp connection_id username ip : list byte) : list byte :=
  let safe_username := copied 32 username in
  let safe_ip := copied 20 ip in
  copied 256 (timestamp ++ lit "_" ++ connection_id ++ lit "_" ++ safe_username ++ lit "_" ++ safe_ip).

(** The two variables of the environment. *)

Definition address_given (remote_addr : option (list byte)) : option (list byte) :=
  match remote_addr with
  | Some a => if bool_decide (a = [] ∨ a = lit "0.0.0.0") then None else Some a
  | None => None
  end.

Definition get_client_ip (guac_remote_addr remote_addr : option (list byte)) (buffer_size : nat)
    : list byte :=
  match address_given guac_remote_addr with
  | Some a => copied buffer_size a
  | None =>
      match address_given remote_addr with
      | Some a => copied buffer_size a
      | None => lit "unknown"
      end
  end.

Definition given_or (s : option (list byte)) (size : nat) (fallback : list byte) : list byte :=
  match s with
  | Some (c :: s) => copied size (c :: s)
  | _ => fallback
  end.

(** [None] is NULL: the log could not be opened. The identifier of a user without one is made of the
    time and the process. *)

Definition guac_ssh_command_logger_create
    (user_id user_name host client_connection_id guac_remote_addr remote_addr : option (list byte))
    (fallback_id timestamp : list byte) (config : option guac_ssh_acl_config)
    (log_file alert_file restricted_file : bool) : option command_logger :=
  let connection_id := given_or user_id 64 (copied 64 fallback_id) in
  let username := given_or user_name 256 (lit "unknown") in
  let remote_ip := get_client_ip guac_remote_addr remote_addr 64 in
  if log_file then
    Some (mk_logger zeros 0 zeros 0 0 false username remote_ip connection_id
      (generate_session_id timestamp connection_id username remote_ip) client_connection_id true
      config (given_or host 256 (lit "unknown")) alert_file restricted_file)
  else None.
