(* ===== verification/CommandLoggerSpec.v ===== *)
(** * What the log of commands holds (specification of CommandLogger.v)

    The reference is made of the lines a user edits, the reasons for which an access control list
    refuses one ([CommandAclSpec]) and the words that make one dangerous; it uses nothing of the
    code of the logger. *)

From S2P Require Import Prelude RecordUpdate CString CFormat CommandAcl CommandAclSpec CommandLogger.
Local Open Scope Z_scope.

Local Abbreviation len l := (Z.of_nat (List.length l)).

(** ** Keys and lines *)

(** A key: the time, the symbol and whether it is pressed. *)

Definition key_event : Type := list byte * Z * bool.

Fixpoint log_keys (l : command_logger) (keys : list key_event) : command_logger * list log_event :=
  match keys with
  | [] => (l, [])
  | (timestamp, keysym, pressed) :: keys =>
      let '(l, events) := guac_ssh_command_logger_key l timestamp keysym pressed in
      let '(l, events') := log_keys l keys in
      (l, events ++ events')
  end.

(** The line a user edits: characters are added at its end, up to 4094, and Backspace takes the last one
    away. *)

Definition is_enter (keysym : Z) : bool :=
  (keysym =? 0xFF0D) || (keysym =? 0x0D) || (keysym =? 0x0A).

Definition edit_line (line : list byte) (keysym : Z) : list byte :=
  if keysym =? 0xFF08 then take (List.length line - 1) line
  else if (0x20 <=? keysym) && (keysym <=? 0x7E) && (len line <? 4094)
  then line ++ [zb keysym] else line.

(** The lines that Enter ends, with the time. *)

Fixpoint entered (line : list byte) (keys : list key_event) : list (list byte * list byte) :=
  match keys with
  | [] => []
  | (timestamp, keysym, pressed) :: keys =>
      if negb pressed then entered line keys
      else if is_enter keysym then (timestamp, line) :: entered [] keys
      else entered (edit_line line keysym) keys
  end.

Definition is_printable (c : byte) : Prop := 0x20 ≤ bz c ≤ 0x7E.

(** The buffer holds the line and zeros behind it. *)

Record logging (l : command_logger) (line : list byte) : Prop := {
  logging_buffer : buffer l = line ++ replicate (Z.to_nat (CMD_BUFFER_SIZE - len line)) x00;
  logging_pos : buffer_pos l = len line;
  logging_room : len line ≤ CMD_BUFFER_SIZE - 2;
  logging_printable : Forall is_printable line;
}.

(** The members that no key changes. *)

Definition same_session (l l' : command_logger) : Prop :=
  username l' = username l ∧ remote_ip l' = remote_ip l ∧ connection_id l' = connection_id l ∧
  session_id l' = session_id l ∧ client_id l' = client_id l ∧ has_client l' = has_client l ∧
  acl_config l' = acl_config l ∧ ssh_hostname l' = ssh_hostname l ∧
  has_alert_file l' = has_alert_file l ∧ has_restricted_file l' = has_restricted_file l.

Lemma same_session_refl l : same_session l l.
Proof. by repeat split. Qed.

Lemma same_session_trans l1 l2 l3 : same_session l1 l2 → same_session l2 l3 → same_session l1 l3.
Proof. unfold same_session. intuition congruence. Qed.

Lemma command_events_session l l' timestamp cmd :
  same_session l l' → command_events l' timestamp cmd = command_events l timestamp cmd.
Proof.
  intros (E1 & E2 & E3 & E4 & E5 & E6 & E7 & E8 & E9 & E10).
  unfold command_events, check_restricted, restricted_events, dangerous_events, log_line.
  by rewrite E1, E2, E3, E4, E5, E6, E7, E8, E9, E10.
Qed.

Lemma clean_printable c : is_printable c → clean_char c = [c].
Proof.
  unfold is_printable. intros Hc. unfold clean_char, sc.
  rewrite bool_decide_eq_false_2 by (intros ->; cbn in Hc; lia).
  rewrite (proj2 (Z.ltb_lt _ _)) by lia. by rewrite (proj2 (Z.leb_le _ _)) by lia.
Qed.

Lemma clean_line l line : logging l line → clean_command l = line.
Proof.
  intros [E1 E2 E3 E4]. unfold clean_command. rewrite E1, E2.
  replace (Z.to_nat (Z.min _ _)) with (List.length line) by (unfold CMD_BUFFER_SIZE in *; lia).
  rewrite take_app_length. clear E1 E2 E3. induction E4 as [|c line Hc _ IH]; [done|].
  cbn [flat_map]. by rewrite clean_printable, IH.
Qed.

Lemma push_line c line n :
  n = (Z.to_nat (CMD_BUFFER_SIZE - len line)) → len line < CMD_BUFFER_SIZE - 2 →
  push_char c (line ++ replicate n x00) (len line)
  = ((line ++ [c]) ++ replicate (n - 1) x00, len line + 1).
Proof.
  unfold CMD_BUFFER_SIZE. intros -> Hl. unfold push_char, CMD_BUFFER_SIZE. rewrite (proj2 (Z.ltb_lt _ _)) by lia.
  set (n := Z.to_nat (4096 - len line)). assert (Hn : (2 ≤ n)%nat) by lia. clearbody n.
  destruct n as [|[|n]]; [lia..|]. f_equal. rewrite Nat2Z.id.
  replace (Z.to_nat (len line + 1)) with (List.length line + 1)%nat by lia.
  cbn [replicate]. rewrite (insert_app_r_alt line) by lia. rewrite Nat.sub_diag.
  rewrite insert_app_r_alt by lia. replace (List.length line + 1 - List.length line)%nat with 1%nat by lia.
  cbn. by rewrite <-app_assoc.
Qed.

Lemma pop_line line c n :
  pop_char ((line ++ [c]) ++ replicate n x00) (len (line ++ [c]))
  = (line ++ replicate (S n) x00, len line).
Proof.
  unfold pop_char. rewrite length_app. cbn [List.length].
  rewrite (proj2 (Z.ltb_lt _ _)) by lia. f_equal; [|lia].
  replace (Z.to_nat _) with (List.length line) by lia.
  rewrite <-app_assoc, insert_app_r_alt by lia. by rewrite Nat.sub_diag.
Qed.

Lemma list_snoc_cases (line : list byte) : line = [] ∨ ∃ line' c, line = line' ++ [c].
Proof. induction line as [|c line' _] using rev_ind; eauto. Qed.

(** A key that is not Enter edits the line. *)

Lemma key_edits l line timestamp keysym :
  logging l line → is_enter keysym = false →
  let '(l', events) := guac_ssh_command_logger_key l timestamp keysym true in
  events = [] ∧ logging l' (edit_line line keysym) ∧ same_session l l'.
Proof.
  intros [E1 E2 E3 E4] He. unfold guac_ssh_command_logger_key. unfold is_enter in He. rewrite He.
  cbn [negb]. unfold edit_line. destruct (Z.eqb_spec keysym 0xFF08) as [->|Hbs].
  - split; [done|]. split; [|done]. destruct (list_snoc_cases line) as [->|(line' & c & ->)].
    + cbn in *. split; cbn; rewrite ?E1, ?E2; done.
    + rewrite length_app in E3 |- *. cbn [List.length] in *.
      replace (List.length line' + 1 - 1)%nat with (List.length line') by lia. rewrite take_app_length.
      rewrite E1, E2, pop_line. apply Forall_app in E4 as [E4 _].
      split; cbn; [|done|lia|done]. f_equal.
      replace (Z.to_nat (CMD_BUFFER_SIZE - len line')) with
        (S (Z.to_nat (CMD_BUFFER_SIZE - len (line' ++ [c])))); [done|].
      rewrite length_app. cbn [List.length]. unfold CMD_BUFFER_SIZE in *. lia.
  - destruct (Z.eqb_spec keysym 0xFF09) as [->|Htab].
    + split; [done|]. split; [by split|done].
    + destruct ((0x20 <=? keysym) && (keysym <=? 0x7E)) eqn:Hp; cbn [andb].
      * split; [done|]. split; [|done]. apply andb_true_iff in Hp as [Hp1 Hp2].
        change 4094 with (CMD_BUFFER_SIZE - 2).
        destruct (Z.ltb_spec (len line) (CMD_BUFFER_SIZE - 2)) as [Hl|Hl].
        -- rewrite E1, E2, push_line by done.
           split; cbn; rewrite ?length_app; cbn [List.length]; try lia.
           ++ do 2 f_equal. unfold CMD_BUFFER_SIZE in *. lia.
           ++ apply Forall_app. split; [done|]. constructor; [|done].
              unfold is_printable. rewrite bz_zb_small by lia. lia.
        -- assert (Ep : push_char (zb keysym) (buffer l) (buffer_pos l) = (buffer l, buffer_pos l))
             by (unfold push_char; by rewrite (proj2 (Z.ltb_ge _ _)) by lia).
           rewrite Ep. by split.
      * split; [done|]. split; [by split|done].
Qed.

Lemma key_enters l line timestamp keysym :
  logging l line → is_enter keysym = true →
  let '(l', events) := guac_ssh_command_logger_key l timestamp keysym true in
  events = command_events l timestamp line ∧ logging l' [] ∧ same_session l l'.
Proof.
  intros Hl He. unfold guac_ssh_command_logger_key. unfold is_enter in He. rewrite He. cbn [negb].
  rewrite (clean_line l line Hl). split; [done|]. split; [|done]. by split.
Qed.

Lemma log_keys_lines keys : ∀ l line,
  logging l line →
  snd (log_keys l keys)
  = flat_map (λ '(timestamp, line), command_events l timestamp line) (entered line keys).
Proof.
  induction keys as [|[[timestamp keysym] pressed] keys IH]; intros l line Hl; [done|].
  cbn [log_keys entered]. destruct pressed; cbn [negb].
  2: { specialize (IH l line Hl). unfold guac_ssh_command_logger_key. cbn [negb].
       destruct (log_keys l keys). cbn in *. done. }
  destruct (is_enter keysym) eqn:He.
  - pose proof (key_enters l line timestamp keysym Hl He) as H.
    destruct (guac_ssh_command_logger_key l timestamp keysym true) as [l' events].
    destruct H as (-> & Hl' & Hs). specialize (IH l' [] Hl'). destruct (log_keys l' keys) as [l2 events'].
    cbn in *. rewrite IH. f_equal. apply flat_map_ext. intros [ts cmd].
    by apply command_events_session.
  - pose proof (key_edits l line timestamp keysym Hl He) as H.
    destruct (guac_ssh_command_logger_key l timestamp keysym true) as [l' events].
    destruct H as (-> & Hl' & Hs). specialize (IH l' _ Hl'). destruct (log_keys l' keys) as [l2 events'].
    cbn in *. rewrite IH. apply flat_map_ext. intros [ts cmd].
    by apply command_events_session.
Qed.


(** ** What is written for a line *)

(** Members between bars. *)

Fixpoint barred (members : list (list byte)) : list byte :=
  match members with
  | [] => []
  | [m] => m
  | m :: members => m ++ [x7c] ++ barred members
  end.

(** Who types: the host, the identifiers of the connection and of the session, the name and the address. *)

Record typist := mk_typist {
  t_host : list byte; t_connection : list byte; t_session : list byte; t_name : list byte; t_address : list byte;
}.

Definition entry (who : typist) (ending : list byte) (p : list byte * list byte) : list byte :=
  barred [p.1; t_host who; t_connection who; t_session who; t_name who; t_address who; p.2 ++ ending].

Definition blank (line : list byte) : Prop := Forall (λ c, c = x20) line.

(** The rule that the list selects for the session refuses the line. *)

Definition refuses (config : option guac_ssh_acl_config) (connection : option (list byte))
    (who : typist) (line : list byte) : Prop :=
  ∃ c r rule, config = Some c ∧ selects c connection (Some (t_host who)) (Some (t_name who)) (Some r) ∧
    rule_at c r = Some rule ∧ refused rule (trim line).

Definition watched : list (list byte) :=
  lit <$> ["rm -rf"; "rm -rf /"; "rm -rf *"; "dd if=/dev/zero"; "mkfs"; "format"; "chmod 777 /"; "chown -R";
           "kill -9"; "pkill"; "killall"; "shutdown"; "reboot"; "halt"; "iptables -F"; "ufw disable";
           "systemctl stop"; "service stop"; "DROP DATABASE"; "DROP TABLE"; "DELETE FROM"]%string.

Definition is_watched (line : list byte) : Prop := ∃ p, p ∈ watched ∧ occurs p line.

(** The entries of each log. *)

Definition main_entry (e : log_event) : option (list byte) :=
  match e with MainLog line => Some line | _ => None end.
Definition restricted_entry (e : log_event) : option (list byte) :=
  match e with RestrictedLog line => Some line | _ => None end.
Definition alert_entry (e : log_event) : option (list byte) :=
  match e with AlertLog line => Some line | _ => None end.
Definition blocked_entry (e : log_event) : option (list byte) :=
  match e with SyslogBlocked line => Some line | _ => None end.
Definition dangerous_entry (e : log_event) : option (list byte) :=
  match e with SyslogDangerous line => Some line | _ => None end.

(** *** A line of the user *)

Definition typed (line : list byte) : Prop := Forall is_printable line ∧ len line ≤ 4094.

Lemma typed_no_nul line : typed line → no_nul line.
Proof.
  intros [H _]. eapply Forall_impl; [|exact H]. intros c Hc ->. unfold is_printable in Hc. cbn in Hc. lia.
Qed.

Lemma edit_typed line keysym : typed line → typed (edit_line line keysym).
Proof.
  intros [H1 H2]. unfold edit_line. destruct (keysym =? 0xFF08).
  { split; [by apply Forall_take|]. rewrite length_take. lia. }
  destruct ((_ && _) && _) eqn:E; [|done]. split.
  - apply Forall_app. split; [done|]. constructor; [|done]. unfold is_printable. rewrite bz_zb_small by lia. lia.
  - rewrite length_app. cbn. lia.
Qed.

Lemma entered_typed keys : ∀ line, typed line → Forall (λ p, typed p.2) (entered line keys).
Proof.
  induction keys as [|[[timestamp keysym] pressed] keys IH]; intros line H; cbn [entered]; [done|].
  destruct (negb pressed); [by apply IH|]. destruct (is_enter keysym).
  - constructor; [done|]. apply IH. split; [done|cbn; lia].
  - by apply IH, edit_typed.
Qed.

Lemma is_empty_blank line : no_nul line → is_empty line = true ↔ blank line.
Proof.
  unfold is_empty, blank. intros Hn. rewrite forallb_forall. induction Hn as [|c line Hc Hn IH]; [done|].
  split.
  - intros H. constructor; [|apply IH; intros d Hd; apply H; by right].
    specialize (H c (or_introl eq_refl)). apply bool_decide_eq_true in H. tauto.
  - intros [-> H]%Forall_cons_iff d [<-|Hd]; [done|]. by apply IH.
Qed.

Lemma trim_blank line : trim line = [] → Forall is_printable line → blank line.
Proof.
  intros E Hp. destruct (trim_split line) as (a & b & El & Ha & Hb & _). rewrite E in El. cbn [app] in El.
  assert (H : spaces line) by (rewrite El; by apply Forall_app).
  clear E El Ha Hb. induction H as [|c l Hc H IH]; [constructor|].
  apply Forall_cons_iff in Hp as [Hr Hp]. constructor; [|by apply IH].
  unfold isspace, is_printable in *. apply bz_inj. change (bz x20) with 32. lia.
Qed.

(** *** The rule of the session *)

Lemma first_entry_eq P l i j : first_entry P l i → first_entry P l j → i = j.
Proof.
  intros [(k & r & Hi & Hk) H1] [(k' & r' & Hj & Hk') H2]. destruct (Nat.lt_trichotomy i j) as [H|[H|H]]; [|done|].
  - by destruct (H2 i k r H Hi).
  - by destruct (H1 j k' r' H Hj).
Qed.

Lemma first_entry_no P l i : first_entry P l i → no_entry P l → False.
Proof. intros [(k & r & Hi & Hk) _] H. by apply (H i k r). Qed.

Lemma selects_one c user host ssh r r' : selects c user host ssh r → selects c user host ssh r' → r = r'.
Proof.
  destruct 1, 1; try done;
    try match goal with H : first_entry ?P ?l _, H' : no_entry ?P ?l |- _ => by destruct (first_entry_no P l _ H H') end;
    do 2 f_equal; by eapply first_entry_eq.
Qed.

#[export] Instance occurs_dec p s : Decision (occurs p s).
Proof. destruct (strstr_b s p) eqn:E; [left; by apply strstr_b_true|right; intros H%strstr_b_true; congruence]. Defined.

#[export] Instance refused_dec rule cmd : Decision (refused rule cmd).
Proof.
  unfold refused, definition. apply or_dec; [apply _|]. apply or_dec.
  - destruct (blacklist rule) as [l|]; [|by right; intros (? & ? & [=] & _)].
    destruct (decide (Exists (λ p, occurs p cmd) (patterns l))) as [H|H]; [left|right].
    + apply List.Exists_exists in H as (p & Hp%list_elem_of_In & Ho). by exists l, p.
    + intros (? & p & [= <-] & Hp & Ho). apply H, List.Exists_exists. exists p. by rewrite <-list_elem_of_In.
  - destruct (whitelist rule) as [l|]; [|by right; intros (? & [=] & _)].
    destruct (decide (l ≠ [] ∧ Forall (λ p, ¬ occurs p cmd) (patterns l))) as [[Hl H]|H]; [left|right].
    + exists l. split_and!; [done|done|]. intros p Hp%list_elem_of_In. by apply (proj1 (List.Forall_forall _ _) H).
    + intros (? & [= <-] & Hl & Ho). apply H. split; [done|]. apply List.Forall_forall.
      intros p Hp%list_elem_of_In. by apply Ho.
Defined.

(** The strings of the rules are C strings, as those of a configuration that was loaded are. *)

Definition config_strings (config : option guac_ssh_acl_config) : Prop :=
  ∀ c r rule, config = Some c → rule_at c r = Some rule → rule_strings rule.

Lemma check_refuses l connection line who :
  typed line → ¬ blank line → config_strings (acl_config l) → client_id l = connection →
  t_host who = ssh_hostname l → t_name who = username l →
  snd (check_restricted l line) = true ↔ refuses (acl_config l) connection who line.
Proof.
  intros Ht Hb Hs <- Eh En. unfold check_restricted, refuses. rewrite Eh, En.
  assert (Hn : no_nul line) by by apply typed_no_nul.
  destruct (acl_config l) as [c|]; [|split; [done|by intros (? & ? & ? & [=] & _)]].
  pose proof (get_rule_priority c (client_id l) (Some (ssh_hostname l)) (Some (username l))) as Hsel.
  destruct (guac_ssh_acl_get_rule _ _ _ _ ≫= rule_at c) as [rule|] eqn:Er; last first.
  { split; [done|]. intros (c' & r & rule & [= <-] & Hr & Hat & _).
    rewrite (selects_one _ _ _ _ _ _ Hsel Hr) in Er. cbn in Er. congruence. }
  destruct (guac_ssh_acl_get_rule _ _ _ _) as [r|]; [|done]. cbn in Er.
  rewrite c_str_id by done.
  pose proof (check_command_core rule line (has_client l) (Hs c r rule eq_refl Er) Hn) as Hc.
  cbv zeta in Hc.
  assert (Et : strncpy_term line COMMAND_COPY_SIZE = line).
  { unfold strncpy_term. apply take_ge.
    pose proof COMMAND_COPY_SIZE_value. destruct Ht as [_ Ht]. lia. }
  rewrite Et in Hc. destruct (guac_ssh_acl_check_command _ _ _) as [allowed messages]. cbn [fst snd] in *.
  rewrite negb_true_iff. split.
  - intros ->. exists c, r, rule. split_and!; [done|done|done|].
    destruct (decide (trim line = [])) as [E|E]; [by destruct Hb; apply trim_blank; [|apply Ht]|].
    destruct (decide (refused rule (trim line))) as [|Hnr]; [done|].
    exfalso. assert (false = true); [apply Hc; by right|done].
  - intros (c' & r' & rule' & [= <-] & Hr & Hat & Href).
    pose proof (selects_one _ _ _ _ _ _ Hsel Hr) as [= <-]. rewrite Er in Hat. injection Hat as <-.
    destruct allowed; [|done]. destruct (proj1 Hc eq_refl) as [E|H]; [|done].
    destruct Hb. apply trim_blank; [done|apply Ht].
Qed.

(** *** Each log *)

Lemma omap_messages {A} (f : log_event → option A) ms :
  (∀ m, f (AclMessage m) = None) → omap f (AclMessage <$> ms) = [].
Proof. intros Hf. induction ms as [|m ms IH]; [done|]. cbn. by rewrite Hf. Qed.

Lemma check_messages l cmd {A} (f : log_event → option A) :
  (∀ m, f (AclMessage m) = None) → omap f (fst (check_restricted l cmd)) = [].
Proof.
  intros Hf. unfold check_restricted. destruct (acl_config l); [|done]. destruct (_ ≫= _); [|done].
  destruct (guac_ssh_acl_check_command _ _ _). by apply omap_messages.
Qed.

Definition typist_of (l : command_logger) : typist :=
  mk_typist (ssh_hostname l) (connection_id l) (session_id l) (username l) (remote_ip l).

Lemma log_line_entry l timestamp line ending :
  no_nul line → log_line l timestamp line ending = entry (typist_of l) ending (timestamp, line).
Proof. intros Hn. unfold log_line, entry, bar. by rewrite c_str_id. Qed.

(** What the logs hold for a line that is not blank. *)

Lemma line_logged l timestamp line (denied dangerous : bool) :
  no_nul line → ¬ blank line → snd (check_restricted l line) = denied → is_dangerous_command line = dangerous →
  let events := command_events l timestamp line in
  let entry ending := entry (typist_of l) ending (timestamp, line) in
  omap main_entry events = [entry [newline]] ∧
  omap restricted_entry events =
    (if has_restricted_file l && denied then [entry (lit "|RESTRICTED" ++ [newline])] else []) ∧
  omap alert_entry events =
    (if has_alert_file l && (negb denied && dangerous) then [entry (lit "|DANGEROUS" ++ [newline])] else []) ∧
  omap blocked_entry events = (if denied then [line] else []) ∧
  omap dangerous_entry events = (if negb denied && dangerous then [line] else []).
Proof.
  intros Hn Hb Hd Hw. cbv zeta. unfold command_events.
  destruct (is_empty line) eqn:He; [by apply is_empty_blank in He|]. clear He.
  pose proof (λ A, check_messages l line (A := A)) as Hm.
  destruct (check_restricted l line) as [messages restricted]. cbn [fst snd] in *. subst restricted.
  unfold restricted_events, dangerous_events. rewrite (c_str_id line), Hw, !log_line_entry, !omap_app, !Hm by done.
  by destruct denied, dangerous, (has_restricted_file l), (has_alert_file l).
Qed.

Lemma blank_line_unlogged l timestamp line :
  no_nul line → blank line → command_events l timestamp line = [].
Proof. intros Hn Hb. unfold command_events. by rewrite (proj2 (is_empty_blank line Hn) Hb). Qed.

Lemma is_dangerous_watched line : is_dangerous_command line = true ↔ is_watched line.
Proof.
  unfold is_dangerous_command, is_watched. rewrite existsb_exists.
  change dangerous_patterns with watched. split; intros (p & Hp & Ho); exists p.
  - split; [by apply list_elem_of_In|by apply strstr_b_true].
  - split; [by apply list_elem_of_In|by apply strstr_b_true].
Qed.

(** The lines typed that are not blank, and those of them that satisfy a test. *)

#[export] Instance blank_dec line : Decision (blank line).
Proof. unfold blank. apply _. Defined.

Definition lines_entered (keys : list key_event) : list (list byte * list byte) :=
  filter (λ p, ¬ blank p.2) (entered [] keys).

Definition those (test : list byte → bool) (ps : list (list byte * list byte)) : list (list byte * list byte) :=
  filter (λ p, test p.2 = true) ps.

Lemma omap_entered {A} (f : log_event → option A) l (out : list byte * list byte → A) (test : list byte → bool) ps :
  Forall (λ p, typed p.2) ps →
  (∀ timestamp line, typed line → ¬ blank line →
    omap f (command_events l timestamp line) = if test line then [out (timestamp, line)] else []) →
  omap f (flat_map (λ '(timestamp, line), command_events l timestamp line) ps) =
    out <$> those test (filter (λ p, ¬ blank p.2) ps).
Proof.
  intros Hps Hf. induction Hps as [|[timestamp line] ps Ht Hps IH]; [done|]. cbn [flat_map snd] in *.
  rewrite omap_app, IH, filter_cons. cbn [snd]. destruct (decide (blank line)) as [Hb|Hb].
  - rewrite decide_False by tauto. by rewrite blank_line_unlogged by (done || by apply typed_no_nul).
  - rewrite decide_True by done. rewrite Hf by done. unfold those. rewrite filter_cons. cbn [snd].
    destruct (test line); [by rewrite decide_True|by rewrite decide_False].
Qed.

(** *** From its creation on *)

Definition clip (n : nat) (s : list byte) : list byte := take n (c_str s).

(** What is given, if it is not empty, and otherwise something else. *)

Definition given (n : nat) (s : option (list byte)) (otherwise : list byte) : list byte :=
  match s with
  | Some s => if decide (s = []) then otherwise else clip n s
  | None => otherwise
  end.

Definition address_of (addresses : list (option (list byte))) : list byte :=
  match filter (λ a, a ∉ [[]; lit "0.0.0.0"]) (omap id addresses) with
  | a :: _ => clip 63 a
  | [] => lit "unknown"
  end.

Definition who_types (user_id user_name host guac_addr remote_addr : option (list byte))
    (fallback_id timestamp : list byte) : typist :=
  let connection := given 63 user_id (clip 63 fallback_id) in
  let name := given 255 user_name (lit "unknown") in
  let address := address_of [guac_addr; remote_addr] in
  mk_typist (given 255 host (lit "unknown")) connection
    (clip 255 (timestamp ++ lit "_" ++ connection ++ lit "_" ++ clip 31 name ++ lit "_" ++ clip 19 address))
    name address.

Lemma given_or_given s n otherwise : given_or s (S n) otherwise = given n s otherwise.
Proof. unfold given_or, given, copied, clip. destruct s as [[|c s]|]; [done|..|done]. by rewrite Nat.sub_succ, Nat.sub_0_r. Qed.

Lemma address_given_spec a :
  address_given a = match a with Some a => if decide (a ∈ [[]; lit "0.0.0.0"]) then None else Some a | None => None end.
Proof.
  destruct a as [a|]; [|done]. cbn. destruct (decide (a = [] ∨ a = lit "0.0.0.0")) as [H|H].
  - rewrite bool_decide_true by done. rewrite decide_True; [done|].
    rewrite !elem_of_cons. tauto.
  - rewrite bool_decide_false by done. rewrite decide_False; [done|].
    rewrite !elem_of_cons. intros [?|[?|?%elem_of_nil]]; tauto.
Qed.

Lemma client_ip_address a b : get_client_ip a b 64 = address_of [a; b].
Proof.
  unfold get_client_ip, address_of. rewrite !address_given_spec. unfold copied, clip.
  destruct a as [a|], b as [b|]; cbn [omap list_omap id]; rewrite ?filter_cons, ?filter_nil;
    repeat case_decide; try done; tauto.
Qed.

Lemma those_all ps : those (λ _, true) ps = ps.
Proof. unfold those. induction ps as [|p ps IH]; [done|]. rewrite filter_cons_True by done. by rewrite IH. Qed.

Lemma those_and (b : bool) test ps : those (λ line, b && test line) ps = if b then those test ps else [].
Proof.
  destruct b; [done|]. unfold those. induction ps as [|p ps IH]; [done|]. by rewrite filter_cons_False.
Qed.

(** C39.  The logs hold exactly the lines that are typed.  A logger as it is created sees any keys pressed and
    released; the lines are what Enter ends when characters are added at the end, up to 4094 of them,
    Backspace takes the last away and other keys do nothing.  Every line that is not blank is an
    entry of the main log, in order, with the time, the host, the connection, the session, the name and
    the address; if the rule that the access control list selects for the session refuses it, it
    is also an entry of the restricted commands (when that file could be opened) and of the system
    log; if it is not refused and one of the watched words occurs in it, the same with the dangerous
    commands. *)
Theorem logger_records_lines user_id user_name host client_connection_id guac_addr remote_addr
    fallback_id timestamp config alert_file restricted_file keys :
  config_strings config →
  let who := who_types user_id user_name host guac_addr remote_addr fallback_id timestamp in
  ∃ l (denied dangerous : list byte → bool),
    guac_ssh_command_logger_create user_id user_name host client_connection_id guac_addr remote_addr
      fallback_id timestamp config true alert_file restricted_file = Some l ∧
    (∀ line, typed line → ¬ blank line → denied line = true ↔ refuses config client_connection_id who line) ∧
    (∀ line, dangerous line = true ↔ is_watched line) ∧
    let events := snd (log_keys l keys) in
    let refused_lines := those denied (lines_entered keys) in
    let watched_lines := those (λ line, negb (denied line) && dangerous line) (lines_entered keys) in
    omap main_entry events = entry who [newline] <$> lines_entered keys ∧
    omap restricted_entry events =
      (if restricted_file then entry who (lit "|RESTRICTED" ++ [newline]) <$> refused_lines else []) ∧
    omap alert_entry events =
      (if alert_file then entry who (lit "|DANGEROUS" ++ [newline]) <$> watched_lines else []) ∧
    omap blocked_entry events = snd <$> refused_lines ∧
    omap dangerous_entry events = snd <$> watched_lines.
Proof.
  intros Hs who. unfold guac_ssh_command_logger_create. cbv zeta.
  match goal with |- ∃ _ _ _, Some ?l0 = _ ∧ _ => exists l0; set (l := l0) end.
  assert (Hwho : typist_of l = who).
  { unfold typist_of, who, who_types. cbn [ssh_hostname connection_id session_id username remote_ip l].
    by rewrite client_ip_address, !given_or_given. }
  exists (λ line, snd (check_restricted l line)), is_dangerous_command.
  split; [done|]. split.
  { intros line Ht Hb. apply check_refuses; [done|done|exact Hs|done|by rewrite <-Hwho..]. }
  split; [apply is_dangerous_watched|].
  cbv zeta. rewrite (log_keys_lines keys l []) by by split.
  assert (Hp : Forall (λ p, typed p.2) (entered [] keys)).
  { apply entered_typed. split; [done|cbn; lia]. }
  pose proof (λ timestamp line (Ht : typed line) (Hb : ¬ blank line), line_logged l timestamp line _ _
    (typed_no_nul line Ht) Hb eq_refl eq_refl) as H. rewrite Hwho in H.
  unfold lines_entered. split_and!.
  - rewrite (omap_entered main_entry l (entry who [newline]) (λ _, true)) by (done || intros; by apply H).
    by rewrite those_all.
  - rewrite (omap_entered restricted_entry l (entry who (lit "|RESTRICTED" ++ [newline]))
      (λ line, restricted_file && snd (check_restricted l line))) by (done || intros; by apply H).
    rewrite those_and. by destruct restricted_file.
  - rewrite (omap_entered alert_entry l (entry who (lit "|DANGEROUS" ++ [newline]))
      (λ line, alert_file && (negb (snd (check_restricted l line)) && is_dangerous_command line)))
      by (done || intros; by apply H).
    rewrite those_and. by destruct alert_file.
  - by rewrite (omap_entered blocked_entry l snd (λ line, snd (check_restricted l line))) by (done || intros; by apply H).
  - by rewrite (omap_entered dangerous_entry l snd
      (λ line, negb (snd (check_restricted l line)) && is_dangerous_command line)) by (done || intros; by apply H).
Qed.

(** A root session that may not run mkfs types, with a character taken back, three lines and a blank one. *)

Definition sample_keys : list key_event :=
  let press c := (lit "now", bz c, true) in
  (press <$> lit "mkfs x") ++ [(lit "now", 0x61, true); (lit "now", 0xFF08, true); (lit "now", 0xFF0D, true)]
  ++ (press <$> lit "rm -rf /") ++ [(lit "later", 0xFF0D, true); (lit "now", 0x20, true); (lit "now", 0xFF0D, true)]
  ++ (press <$> lit "ls") ++ [(lit "end", 0x0D, false); (lit "end", 0x0D, true)].

Definition sample_acl : guac_ssh_acl_config :=
  AclConfig (Some (AclRule (Some (lit "mkfs")) None [])) [] [].

Lemma sample_acl_strings : config_strings (Some sample_acl).
Proof.
  intros c r rule [= <-] H. destruct r as [|i|i]; [|by destruct i..]. injection H as <-.
  split; intros l [= <-]. by apply (bool_decide_unpack _); vm_compute.
Qed.

Lemma logger_records_lines_witness :
  let who := who_types (Some (lit "@user")) (Some (lit "root")) (Some (lit "host")) None
               (Some (lit "10.0.0.1")) [] (lit "20240101-000000") in
  ∃ l (denied : list byte → bool),
    guac_ssh_command_logger_create (Some (lit "@user")) (Some (lit "root")) (Some (lit "host")) None None
      (Some (lit "10.0.0.1")) [] (lit "20240101-000000") (Some sample_acl) true true true = Some l ∧
    (denied (lit "mkfs x") = true ↔ refuses (Some sample_acl) None who (lit "mkfs x")) ∧
    omap main_entry (snd (log_keys l sample_keys)) =
      [lit "now|host|@user|20240101-000000_@user_root_10.0.0.1|root|10.0.0.1|mkfs x" ++ [newline];
       lit "later|host|@user|20240101-000000_@user_root_10.0.0.1|root|10.0.0.1|rm -rf /" ++ [newline];
       lit "end|host|@user|20240101-000000_@user_root_10.0.0.1|root|10.0.0.1|ls" ++ [newline]] ∧
    omap blocked_entry (snd (log_keys l sample_keys)) = snd <$> those denied (lines_entered sample_keys).
Proof.
  destruct (logger_records_lines (Some (lit "@user")) (Some (lit "root")) (Some (lit "host")) None None
    (Some (lit "10.0.0.1")) [] (lit "20240101-000000") (Some sample_acl) true true sample_keys sample_acl_strings)
    as (l & denied & dangerous & Hl & Hd & _ & Hm & _ & _ & Hb & _).
  exists l, denied. split; [exact Hl|]. split.
  { apply Hd; [split; [|vm_compute; discriminate]|];
      [unfold is_printable|unfold blank]; apply (bool_decide_unpack _); by vm_compute. }
  split; [|exact Hb]. rewrite Hm. by vm_compute.
Defined.

(** After Tab and Enter the output of the terminal is taken for the next command. *)

Definition sample_logger : command_logger :=
  default (mk_logger [] 0 [] 0 0 false [] [] [] [] None false None [] false false)
    (guac_ssh_command_logger_create (Some (lit "@user")) (Some (lit "root")) (Some (lit "host")) None
       None (Some (lit "10.0.0.1")) [] (lit "20240101-000000") (Some sample_acl) true true true).

Lemma output_after_enter_logged :
  let l := fst (log_keys sample_logger [([], 0xFF09, true); ([], 0xFF0D, true)]) in
  let l := guac_ssh_command_logger_output l (lit "root# ") in
  omap main_entry (snd (log_keys l [([], 0x6C, true); ([], 0x73, true); ([], 0xFF0D, true)]))
  = [log_line sample_logger [] (lit "root# ls") [newline]].
Proof. vm_compute. reflexivity. Qed.
