(* ===== verification/Pool.v ===== *)
(** * Pools of integers (src/src/libguac/pool.c)

    A pool hands out integers that are not in use: new ones in sequence, or, once
    [min_size] have been handed out, those that were given back, in the order
    they were.  Streams, layers, buffers, objects and the open files of a drive
    are numbered by pools.

    The linked list of the integers given back is a list, first to last; each
    function holds the pool's lock from its first to its last access, so it is one
    step. *)

From S2P Require Import Prelude RecordUpdate Mem Run.
Local Open Scope Z_scope.

Local Abbreviation len l := (Z.of_nat (List.length l)).

Record guac_pool := mk_pool {
  min_size : Z;
  active : Z;
  __next_value : Z;
  freed : list Z;                  (* from __head to __tail *)
}.

#[export] Instance eta_pool : Eta guac_pool :=
  λ p, mk_pool (min_size p) (active p) (__next_value p) (freed p).

Definition guac_pool_alloc (size : Z) : guac_pool := mk_pool size 0 0 [].

Definition __guac_pool_next_int (pool : guac_pool) : run (Z * guac_pool) :=
  _ ← GUAC_ASSERT (__next_value pool <? INT_MAX);
  _ ← GUAC_ASSERT (active pool <? INT_MAX);
  let pool := pool <| active := active pool + 1 |> in
  let '(value, pool) :=
    match freed pool with
    | value :: rest =>
        if __next_value pool <? min_size pool
        then (__next_value pool, pool <| __next_value := __next_value pool + 1 |>)
        else (value, pool <| freed := rest |>)
    | [] => (__next_value pool, pool <| __next_value := __next_value pool + 1 |>)
    end in
  _ ← GUAC_ASSERT (0 <=? value);
  Run (value, pool).

Definition guac_pool_next_int (pool : guac_pool) : run (Z * guac_pool) :=
  __guac_pool_next_int pool.

Definition guac_pool_next_int_below (pool : guac_pool) (limit : Z) : run (Z * guac_pool) :=
  if (limit <=? active pool) || ((limit <=? __next_value pool) && bool_decide (freed pool = []))
  then Run (-1, pool)
  else
    r ← __guac_pool_next_int pool;
    _ ← GUAC_ASSERT (fst r <? limit);
    Run r.

Definition guac_pool_next_int_below_or_die (pool : guac_pool) (limit : Z) : run (Z * guac_pool) :=
  r ← guac_pool_next_int_below pool limit;
  _ ← GUAC_ASSERT (0 <=? fst r);
  Run r.

Definition guac_pool_free_int (pool : guac_pool) (value : Z) : run guac_pool :=
  _ ← GUAC_ASSERT (0 <? active pool);
  Run (pool <| active := active pool - 1 |> <| freed := freed pool ++ [value] |>).

(** ** Integers in use *)

(** Every integer handed out so far is either in use, once, or waiting to be used again, once. *)

Record pool_ok (pool : guac_pool) (used : list Z) : Prop := {
  pool_ok_all : used ++ freed pool ≡ₚ seqZ 0 (__next_value pool);
  pool_ok_next : 0 ≤ __next_value pool ≤ INT_MAX;
  pool_ok_active : active pool = len used;
}.

Lemma pool_alloc_ok size : pool_ok (guac_pool_alloc size) [].
Proof. split; cbn; [done|unfold INT_MAX; lia|done]. Qed.

Lemma pool_ok_elem pool used v :
  pool_ok pool used → (v ∈ used ++ freed pool ↔ 0 ≤ v < __next_value pool).
Proof. intros [E _ _]. rewrite E, elem_of_seqZ. lia. Qed.

Lemma pool_ok_NoDup pool used : pool_ok pool used → NoDup (used ++ freed pool).
Proof. intros [E _ _]. rewrite E. apply NoDup_seqZ. Qed.

Lemma pool_ok_length pool used :
  pool_ok pool used → len used + len (freed pool) = __next_value pool.
Proof.
  intros [E Hn _]. apply Permutation_length in E. rewrite length_app, length_seqZ in E. lia.
Qed.

(** Handing out an integer: a new one, or the first of those given back. *)

Lemma next_ok pool used :
  pool_ok pool used → __next_value pool < INT_MAX →
  ∃ v pool', __guac_pool_next_int pool = Run (v, pool') ∧ pool_ok pool' (v :: used) ∧ (v ∉ used) ∧
    0 ≤ v ≤ __next_value pool ∧ min_size pool' = min_size pool ∧
    (freed pool = [] ∨ __next_value pool < min_size pool →
       v = __next_value pool ∧ __next_value pool' = __next_value pool + 1) ∧
    (∀ w rest, min_size pool ≤ __next_value pool → freed pool = w :: rest →
       v = w ∧ freed pool' = rest ∧ __next_value pool' = __next_value pool).
Proof.
  intros Hp Hn. pose proof (pool_ok_length _ _ Hp) as Hl. pose proof (pool_ok_NoDup _ _ Hp) as Hnd.
  pose proof (pool_ok_elem pool used) as He. pose proof Hp as [E Hr Ha].
  unfold __guac_pool_next_int, GUAC_ASSERT. unfold INT_MAX in *.
  rewrite (proj2 (Z.ltb_lt (__next_value pool) (2 ^ 31 - 1))) by lia. rewrite run_bind_run.
  rewrite (proj2 (Z.ltb_lt (active pool) (2 ^ 31 - 1))) by lia. rewrite run_bind_run.
  assert (Hnew : pool_ok (mk_pool (min_size pool) (active pool + 1) (__next_value pool + 1) (freed pool))
                   (__next_value pool :: used)).
  { split; cbn; unfold INT_MAX; [|lia|lia].
    replace (seqZ 0 (__next_value pool + 1)) with (seqZ 0 (__next_value pool) ++ [__next_value pool]).
    - rewrite E. by rewrite Permutation_app_comm.
    - rewrite (seqZ_app _ (__next_value pool) 1) by lia. done. }
  assert (Hnot : __next_value pool ∉ used).
  { intros Hu. assert (0 ≤ __next_value pool < __next_value pool); [|lia].
    apply He; [done|]. apply elem_of_app. by left. }
  cbn [freed set __next_value min_size].
  destruct (freed pool) as [|w rest] eqn:Ef; [|destruct (Z.ltb_spec (__next_value pool) (min_size pool))].
  - rewrite (proj2 (Z.leb_le 0 _)) by lia. rewrite run_bind_run.
    exists (__next_value pool), (mk_pool (min_size pool) (active pool + 1) (__next_value pool + 1) []).
    split; [by destruct pool; cbn in *; subst|]. split; [exact Hnew|]. split; [done|]. split; [lia|].
    split; [done|]. split; [done|]. intros ? ? _ [=].
  - rewrite (proj2 (Z.leb_le 0 _)) by lia. rewrite run_bind_run.
    exists (__next_value pool), (mk_pool (min_size pool) (active pool + 1) (__next_value pool + 1) (w :: rest)).
    split; [by destruct pool; cbn in *; subst|]. split; [exact Hnew|]. split; [done|]. split; [lia|].
    split; [done|]. split; [done|]. intros ? ? ?. lia.
  - assert (Hw : 0 ≤ w < __next_value pool).
    { apply He; [done|]. apply elem_of_app. right. apply list_elem_of_here. }
    rewrite (proj2 (Z.leb_le 0 _)) by lia. rewrite run_bind_run.
    exists w, (mk_pool (min_size pool) (active pool + 1) (__next_value pool) rest).
    split; [done|]. split; [|split; [|split; [lia|split; [done|split]]]].
    + split; cbn; unfold INT_MAX; [|lia|lia]. rewrite <-E. by rewrite Permutation_middle.
    + apply list.NoDup_app in Hnd as (_ & Hd & _). intros Hu. apply (Hd w Hu), list_elem_of_here.
    + intros [?|?]; [done|lia].
    + by intros ? ? _ [= <- <-].
Qed.

Lemma free_ok pool used v :
  pool_ok pool used → v ∈ used →
  ∃ pool' used', guac_pool_free_int pool v = Run pool' ∧ used ≡ₚ v :: used' ∧ pool_ok pool' used' ∧
    freed pool' = freed pool ++ [v] ∧ __next_value pool' = __next_value pool ∧
    min_size pool' = min_size pool.
Proof.
  intros [E Hr Ha] (l1 & l2 & ->)%list_elem_of_split.
  rewrite length_app in Ha. cbn [List.length] in Ha.
  unfold guac_pool_free_int, GUAC_ASSERT. rewrite (proj2 (Z.ltb_lt _ _)) by lia. rewrite run_bind_run.
  eexists _, (l1 ++ l2). split; [done|]. split; [by rewrite Permutation_middle|].
  split; [|done]. split; cbn; [|done|rewrite length_app; lia].
  rewrite <-E, (Permutation_app_comm (freed pool) [v]), <-(Permutation_middle l1 l2 v).
  cbn. by rewrite <-Permutation_middle.
Qed.

Lemma next_below_ok pool used limit :
  pool_ok pool used → min_size pool ≤ limit → __next_value pool ≤ limit < INT_MAX →
  (limit ≤ len used ∧ guac_pool_next_int_below pool limit = Run (-1, pool)) ∨
  (len used < limit ∧ ∃ v pool', guac_pool_next_int_below pool limit = Run (v, pool') ∧
     pool_ok pool' (v :: used) ∧ (v ∉ used) ∧ 0 ≤ v < limit ∧ min_size pool' = min_size pool ∧
     __next_value pool' ≤ limit).
Proof.
  intros Hp Hm Hl. pose proof (pool_ok_length _ _ Hp) as Hlen.
  pose proof (pool_ok_active _ _ Hp) as Ha. unfold guac_pool_next_int_below.
  destruct (Z.leb_spec limit (active pool)) as [Hfull|Hroom].
  { left. split; [lia|done]. }
  right. split; [lia|]. cbn [orb].
  assert (Hc : (limit <=? __next_value pool) && bool_decide (freed pool = []) = false).
  { apply andb_false_iff. destruct (freed pool) eqn:Ef; [left; apply Z.leb_gt; cbn in Hlen; lia|by right]. }
  rewrite Hc.
  destruct (next_ok pool used Hp ltac:(lia)) as (v & pool' & E & Hp' & Hv & Hr & Hms & Hnew & Hold).
  rewrite E, run_bind_run. cbn [fst].
  assert (Hlim : v < limit ∧ __next_value pool' ≤ limit).
  { destruct (freed pool) as [|w rest] eqn:Ef.
    - destruct Hnew as [-> ->]; [by left|]. cbn in Hlen. lia.
    - destruct (Z.lt_ge_cases (__next_value pool) (min_size pool)) as [Hlt|Hge].
      + destruct Hnew as [-> ->]; [by right|]. lia.
      + destruct (Hold w rest Hge eq_refl) as (-> & _ & ->). split; [|lia].
        assert (0 ≤ w < __next_value pool); [|lia].
        apply (pool_ok_elem pool used w Hp). rewrite Ef. apply elem_of_app. right. apply list_elem_of_here. }
  unfold GUAC_ASSERT. rewrite (proj2 (Z.ltb_lt v limit)) by lia. rewrite run_bind_run.
  exists v, pool'. split; [done|]. split; [done|]. split; [done|]. split; [lia|]. split; [done|lia].
Qed.

(** ** Users of a pool *)

(** What is done with a pool; an integer that is given back is named by its place among those in use. *)

Inductive pool_operation :=
| op_next_below (limit : Z)
| op_free (value : Z).

(** The integers in use after an operation: at most [limit] at a time. *)

Definition perform (op : pool_operation) (s : guac_pool * list Z) : run (guac_pool * list Z) :=
  let '(pool, used) := s in
  match op with
  | op_next_below limit =>
      r ← guac_pool_next_int_below pool limit;
      let '(v, pool) := r in Run (pool, if 0 <=? v then v :: used else used)
  | op_free value =>
      pool ← guac_pool_free_int pool value;
      Run (pool, list_difference used [value])
  end.

Fixpoint perform_all (ops : list pool_operation) (s : guac_pool * list Z) : run (guac_pool * list Z) :=
  match ops with
  | [] => Run s
  | op :: ops => s ← perform op s; perform_all ops s
  end.

(** Integers are only given back while they are in use, and the limit is always the same. *)

Fixpoint disciplined (limit : Z) (ops : list pool_operation) (s : guac_pool * list Z) : Prop :=
  match ops with
  | [] => True
  | op :: ops =>
      match op with
      | op_next_below l => l = limit
      | op_free v => v ∈ snd s
      end ∧
      match perform op s with
      | Run s => disciplined limit ops s
      | _ => True
      end
  end.

#[export] Instance disciplined_dec limit ops s : Decision (disciplined limit ops s).
Proof.
  revert s. induction ops as [|op ops IH]; intros s; cbn; [apply _|].
  apply and_dec; [destruct op; apply _|]. destruct (perform op s); apply _.
Defined.

Lemma NoDup_list_difference_one (l : list Z) v l' :
  NoDup l → l ≡ₚ v :: l' → list_difference l [v] ≡ₚ l'.
Proof.
  intros Hl E. assert (Hnd : NoDup (v :: l')) by (by rewrite <-E).
  apply list.NoDup_cons in Hnd as [Hv Hnd].
  apply list.NoDup_Permutation; [by apply NoDup_list_difference|done|].
  intros x. rewrite list_elem_of_difference, E, elem_of_cons, list_elem_of_singleton.
  split; [intros [[->|?] ?]; done|]. intros Hx. split; [by right|]. by intros ->.
Qed.

(** C34.  However the integers of a pool are taken (below a limit that is not less than the size the pool
    was created with) and given back, the integers in use are distinct and between 0 and the
    limit, no assertion of the pool fails, and an integer is refused only when as many as the
    limit are in use. *)
Theorem pool_unique size limit ops :
  0 ≤ size ≤ limit → limit < INT_MAX → disciplined limit ops (guac_pool_alloc size, []) →
  ∃ pool used, perform_all ops (guac_pool_alloc size, []) = Run (pool, used) ∧
    NoDup used ∧ Forall (λ v, 0 ≤ v < limit) used ∧ active pool = len used ∧
    (guac_pool_next_int_below pool limit = Run (-1, pool) ↔ len used = limit).
Proof.
  intros Hs Hl.
  assert (H : ∀ ops pool used, pool_ok pool used → min_size pool = size → __next_value pool ≤ limit →
    disciplined limit ops (pool, used) →
    ∃ pool' used', perform_all ops (pool, used) = Run (pool', used') ∧ pool_ok pool' used' ∧
      min_size pool' = size ∧ __next_value pool' ≤ limit).
  { clear ops. induction ops as [|op ops IH]; intros pool used Hp Hm Hn Hd.
    { by exists pool, used. }
    cbn [perform_all disciplined] in *. destruct Hd as [Hop Hd]. destruct op as [l|v]; cbn [perform] in *.
    - subst l. destruct (next_below_ok pool used limit Hp) as [(_ & E)|(_ & v & pool' & E & Hp' & _ & Hv & Hm' & Hn')];
        [lia|lia| |].
      + rewrite E, run_bind_run in *. cbn in Hd |- *. by apply IH.
      + rewrite E, run_bind_run in *. rewrite (proj2 (Z.leb_le 0 v)) in * by lia.
        apply IH; [done|congruence|done|exact Hd].
    - cbn in Hop. destruct (free_ok pool used v Hp Hop) as (pool' & used' & E & Eu & Hp' & _ & En & Em).
      rewrite E, run_bind_run in *. apply IH; [|congruence|congruence|exact Hd].
      assert (Hperm : list_difference used [v] ≡ₚ used').
      { apply NoDup_list_difference_one; [|done].
        pose proof (pool_ok_NoDup _ _ Hp) as Hnd. by apply list.NoDup_app in Hnd as (? & _). }
      destruct Hp' as [P1 P2 P3]. split; [by rewrite Hperm|done|by rewrite Hperm]. }
  intros Hd. destruct (H ops (guac_pool_alloc size) []) as (pool & used & E & Hp & Hm & Hn);
    [apply pool_alloc_ok|done|cbn; lia|done|].
  exists pool, used. split; [done|].
  pose proof (pool_ok_NoDup _ _ Hp) as Hnd. apply list.NoDup_app in Hnd as (Hnd & _).
  pose proof (pool_ok_length _ _ Hp) as Hlen.
  split; [done|]. split; [|split; [apply Hp|]].
  - apply list.Forall_forall. intros v Hv. assert (0 ≤ v < __next_value pool); [|lia].
    apply (pool_ok_elem pool used v Hp), elem_of_app. by left.
  - destruct (next_below_ok pool used limit Hp) as [(Hf & E1)|(Hr & v & pool' & E1 & _ & _ & Hv & _)];
      [lia|lia| |]; rewrite E1.
    + split; [lia|done].
    + split; [intros [= -> _]; lia|lia].
Qed.

Lemma pool_unique_witness :
  let ops := [op_next_below 3; op_next_below 3; op_free 0; op_next_below 3; op_next_below 3; op_next_below 3] in
  ∃ pool used, perform_all ops (guac_pool_alloc 2, []) = Run (pool, used) ∧
    NoDup used ∧ Forall (λ v, 0 ≤ v < 3) used ∧ active pool = len used ∧
    (guac_pool_next_int_below pool 3 = Run (-1, pool) ↔ len used = 3).
Proof. apply (pool_unique 2 3); [lia|unfold INT_MAX; lia|]. by apply (bool_decide_unpack _); vm_compute. Defined.

(** An integer that is given back twice is handed out twice. *)

Lemma double_free_shares :
  ∃ pool, (r ← perform_all [op_next_below 9; op_next_below 9] (guac_pool_alloc 0, []);
     pool ← guac_pool_free_int (fst r) 0; pool ← guac_pool_free_int pool 0;
     r ← guac_pool_next_int pool; r' ← guac_pool_next_int (snd r);
     Run (fst r, fst r', snd r')) = Run (0, 0, pool).
Proof. eexists. vm_compute. reflexivity. Qed.
