(* ===== verification/Paths.v ===== *)
(** * Normal paths (src/src/protocols/rdp/fs.c, src/src/common-ssh/sftp.c)

    A path that a client or a server names is normalised before it is used: it
    must be absolute, its components are separated by either slash, a component
    [..] takes the one before away and never leaves the root, [.] and empty
    components vanish.  Both files have the same function but for the limits, the
    slash of the result and the streams of Windows, which fs.c refuses.

    The components are read from the scratch copy when they end, which is when
    the null terminator is written behind them; nothing writes to them later. *)

From S2P Require Import Prelude CString LibString.

(** ** The code *)

Record path_format := mk_format {
  max_path : nat;                (* GUAC_RDP_FS_MAX_PATH, GUAC_COMMON_SSH_SFTP_MAX_PATH *)
  max_depth : nat;               (* GUAC_RDP_MAX_PATH_DEPTH, GUAC_COMMON_SSH_SFTP_MAX_DEPTH *)
  slash : byte;
  refuses_streams : bool;
}.

Definition is_separator (c : byte) : bool := bool_decide (c = x2f ∨ c = x5c).

(** The components so far, after another. *)

Definition add_component (f : path_format) (component : list byte) (components : list (list byte))
    : option (list (list byte)) :=
  if bool_decide (component = lit "..") then Some (take (length components - 1) components)
  else if bool_decide (component = lit "." ∨ component = []) then Some components
  else if (max_depth f <=? length components)%nat then None
  else Some (components ++ [component]).

(** The loop over the characters of the scratch copy, from [i] on. *)

Fixpoint normalize_loop (f : path_format) (n i current : nat) (path_scratch : list byte)
    (components : list (list byte)) : option (list (list byte)) :=
  match n with
  | O => Some components
  | S n' =>
      let c := mem_at path_scratch i in
      if is_separator c || bool_decide (c = x00) then
        let path_scratch := <[i := x00]> path_scratch in
        components ← add_component f (str_at path_scratch current) components;
        normalize_loop f n' (S i) (S i) path_scratch components
      else if refuses_streams f && bool_decide (c = x3a) then None
      else normalize_loop f n' (S i) current path_scratch components
  end.

(** The buffers before they are written; [None] is failure. *)

Definition normalize_path (f : path_format) (scratch abs_path path : list byte)
    : option (list byte) :=
  match path with
  | c :: rest =>
      if is_separator c then
        let '(path_scratch, length) := guac_strlcpy scratch 0 rest (max_path f - 1) in
        if (max_path f - 1 <=? length)%nat then None
        else
          components ← normalize_loop f (S length) 0 0 path_scratch [];
          let abs_path := <[0%nat := slash f]> abs_path in
          let '(abs_path, _) :=
            guac_strljoin abs_path 1 components (Z.of_nat (List.length components)) [slash f]
              (max_path f - 1) in
          Some (str_at abs_path 0)
      else None
  | [] => None
  end.

(** ** What it computes *)

(** The reference knows nothing of the code: either slash separates, the directory that a path has led
    to is the list of the names down to it, the innermost first, and a component leads from one
    directory to another. *)

Definition separates (c : byte) : bool := bool_decide (c = x2f) || bool_decide (c = x5c).

Definition enter (deepest : nat) (c : list byte) (place : list (list byte))
    : option (list (list byte)) :=
  if decide (c = [] ∨ c = lit ".") then Some place
  else if decide (c = lit "..") then Some (tail place)
  else if decide (length place < deepest)%nat then Some (c :: place)
  else None.

Fixpoint lead (deepest : nat) (l place : list (list byte)) : option (list (list byte)) :=
  match l with
  | [] => Some place
  | c :: l => place ← enter deepest c place; lead deepest l place
  end.

Lemma is_separator_separates c : is_separator c = separates c.
Proof.
  unfold is_separator, separates. destruct (decide (c = x2f)) as [->|]; [done|].
  destruct (decide (c = x5c)) as [->|]; [done|]. rewrite !bool_decide_false by (done || by intros [?|?]). done.
Qed.

Lemma rev_removelast {A} (l : list A) : rev (take (length l - 1) l) = tail (rev l).
Proof.
  destruct l as [|x l] using rev_ind; [done|]. rewrite length_app, rev_app_distr. cbn.
  by rewrite Nat.add_sub, take_app_length.
Qed.

Lemma add_component_enter f c components :
  (λ l, rev l) <$> add_component f c components = enter (max_depth f) c (rev components).
Proof.
  unfold add_component, enter. case_bool_decide as E1.
  - subst c. rewrite decide_False by (by intros [?|?]). rewrite decide_True by done. cbn. by rewrite rev_removelast.
  - rewrite (decide_False (P := c = lit "..")) by done. case_bool_decide as E2.
    + by rewrite decide_True by tauto.
    + rewrite decide_False by tauto.
      rewrite length_rev. destruct (Nat.leb_spec (max_depth f) (length components)) as [H|H].
      * by rewrite decide_False by lia.
      * rewrite decide_True by lia. cbn. by rewrite rev_app_distr.
Qed.

(** The pieces of a string between its separators. *)

Fixpoint fields (s : list byte) : list (list byte) :=
  match s with
  | [] => [[]]
  | c :: s =>
      if separates c then [] :: fields s
      else match fields s with
           | f :: fs => (c :: f) :: fs
           | [] => [[c]]
           end
  end.

Fixpoint resolve (f : path_format) (l : list (list byte)) (components : list (list byte))
    : option (list (list byte)) :=
  match l with
  | [] => Some components
  | c :: l => components ← add_component f c components; resolve f l components
  end.

Lemma resolve_lead f l : ∀ components,
  resolve f l components = (λ l, rev l) <$> lead (max_depth f) l (rev components).
Proof.
  induction l as [|c l IH]; intros components; cbn [resolve lead]; [cbn; by rewrite rev_involutive|].
  rewrite <-add_component_enter. destruct (add_component f c components); [apply IH|done].
Qed.

Definition has_stream (f : path_format) (s : list byte) : bool :=
  refuses_streams f && existsb (λ c, bool_decide (c = x3a)) s.

Lemma fields_cons s : ∃ f fs, fields s = f :: fs.
Proof.
  destruct s as [|c s]; cbn; [eauto|]. destruct (separates c); [eauto|].
  destruct (fields s); eauto.
Qed.

Definition plain (s : list byte) : Prop := Forall (λ c, separates c = false) s.

Lemma fields_app_sep p c s :
  plain p → separates c = true → fields (p ++ c :: s) = p :: fields s.
Proof.
  intros Hp Hc. induction Hp as [|d p Hd Hp IH]; cbn; [by rewrite Hc|]. by rewrite Hd, IH.
Qed.

Lemma fields_plain p : plain p → fields p = [p].
Proof. induction 1 as [|c p Hc Hp IH]; cbn; [done|]. by rewrite Hc, IH. Qed.

(** The loop, with the component that is being read, [cur], and the rest of the path. *)

Lemma insert_app_cons pre (c d : byte) post :
  <[length pre := d]> (pre ++ c :: post) = pre ++ d :: post.
Proof. rewrite insert_app_r_alt by lia. by rewrite Nat.sub_diag. Qed.

Lemma has_stream_cons f c s :
  has_stream f (c :: s) = (refuses_streams f && bool_decide (c = x3a)) || has_stream f s.
Proof. unfold has_stream. cbn. by destruct (refuses_streams f). Qed.

Lemma separator_no_stream c : separates c = true → bool_decide (c = x3a) = false.
Proof. intros [->%bool_decide_eq_true | ->%bool_decide_eq_true]%orb_true_iff; reflexivity. Qed.

Lemma normalize_loop_S f n i current path_scratch components :
  normalize_loop f (S n) i current path_scratch components
  = let c := mem_at path_scratch i in
    if is_separator c || bool_decide (c = x00) then
      components ← add_component f (str_at (<[i := x00]> path_scratch) current) components;
      normalize_loop f n (S i) (S i) (<[i := x00]> path_scratch) components
    else if refuses_streams f && bool_decide (c = x3a) then None
    else normalize_loop f n (S i) current path_scratch components.
Proof. reflexivity. Qed.

Lemma normalize_loop_spec f junk rest : ∀ pre cur components,
  no_nul (cur ++ rest) → plain cur →
  normalize_loop f (S (length rest)) (length (pre ++ cur)) (length pre)
    (pre ++ cur ++ rest ++ x00 :: junk) components
  = if has_stream f rest then None else resolve f (fields (cur ++ rest)) components.
Proof.
  induction rest as [|c rest IH]; intros pre cur components Hn Hp; rewrite normalize_loop_S;
    cbn [length]; rewrite app_assoc, mem_at_0; cbn [app mem_at nth].
  - rewrite bool_decide_true, orb_true_r by done. rewrite insert_app_cons, <-app_assoc.
    rewrite app_nil_r in Hn. rewrite str_at_app by done. rewrite app_nil_r, fields_plain by done.
    unfold has_stream. cbn. by rewrite andb_false_r.
  - apply no_nul_app in Hn as Hn'. destruct Hn' as [Hcur [Hc Hrest]%no_nul_cons].
    rewrite has_stream_cons.
    rewrite is_separator_separates. destruct (separates c) eqn:Es.
    + rewrite orb_true_l. rewrite (separator_no_stream c Es), andb_false_r.
      rewrite insert_app_cons, <-app_assoc, str_at_app by done.
      rewrite fields_app_sep by done. cbn [resolve orb].
      destruct (add_component f cur components) as [comps|]; [|by destruct (has_stream f rest)].
      cbn [mbind option_bind].
      specialize (IH (pre ++ cur ++ [x00]) [] comps Hrest (List.Forall_nil _)).
      replace (S (length (pre ++ cur))) with (length (pre ++ cur ++ [x00]))
        by (rewrite !length_app; cbn; lia).
      rewrite app_nil_r in IH. cbn [app] in IH. rewrite <-IH. f_equal.
      rewrite <-!app_assoc. done.
    + rewrite bool_decide_false by done. cbn [orb].
      destruct (refuses_streams f && bool_decide (c = x3a)); [done|]. cbn [orb].
      specialize (IH pre (cur ++ [c]) components). rewrite <-!(app_assoc cur) in IH.
      rewrite <-app_assoc. cbn [app] in IH |- *.
      replace (S (length (pre ++ cur))) with (length (pre ++ cur ++ [c]))
        by (rewrite !length_app; cbn; lia).
      apply IH; [done|]. apply Forall_app. split; [done|]. by repeat constructor.
Qed.

(** *** The components that come out *)

Definition proper (f : path_format) (c : list byte) : Prop :=
  c ≠ [] ∧ c ≠ lit "." ∧ c ≠ lit ".." ∧ plain c ∧ no_nul c ∧ has_stream f c = false.

(** A component of the input: what separators leave. *)

Definition piece (f : path_format) (c : list byte) : Prop :=
  plain c ∧ no_nul c ∧ has_stream f c = false.

Definition good (f : path_format) (components : list (list byte)) : Prop :=
  Forall (proper f) components ∧ (length components ≤ max_depth f)%nat.

(** The room that the components take, with their separators. *)

Definition weight (l : list (list byte)) : nat := sum_list_with (λ c, S (length c)) l.

Lemma weight_cons c l : weight (c :: l) = (S (length c) + weight l)%nat.
Proof. reflexivity. Qed.

Lemma weight_app l k : weight (l ++ k) = (weight l + weight k)%nat.
Proof. apply sum_list_with_app. Qed.

Lemma weight_take n l : (weight (take n l) ≤ weight l)%nat.
Proof. rewrite <-(take_drop n l) at 2. rewrite weight_app. lia. Qed.

Lemma length_join (c : byte) l : length (join [c] l) = (weight l - 1)%nat.
Proof.
  destruct l as [|e l]; [done|]. cbn [join]. rewrite length_app, weight_cons.
  assert (length (concat ((λ x, [c] ++ x) <$> l)) = weight l) as ->; [|lia].
  induction l as [|x l IH]; [done|]. rewrite weight_cons, <-IH, fmap_cons. cbn [concat].
  rewrite !length_app. cbn. lia.
Qed.

Lemma weight_fields s : weight (fields s) = S (length s).
Proof.
  induction s as [|c s IH]; [done|]. cbn [fields]. destruct (separates c).
  { rewrite weight_cons, IH. cbn. lia. }
  destruct (fields_cons s) as (g & gs & E). rewrite E in *. rewrite weight_cons in *. cbn. lia.
Qed.

Lemma has_stream_false f s :
  has_stream f s = false ↔ Forall (λ c, refuses_streams f && bool_decide (c = x3a) = false) s.
Proof.
  induction s as [|c s IH]; [unfold has_stream; cbn; rewrite andb_false_r; split; [constructor|done]|].
  rewrite has_stream_cons, orb_false_iff, Forall_cons_iff. by rewrite IH.
Qed.

Lemma fields_pieces f s : no_nul s → has_stream f s = false → Forall (piece f) (fields s).
Proof.
  rewrite has_stream_false. intros Hn Hs. induction s as [|c s IH]; cbn [fields].
  { repeat constructor. unfold has_stream. cbn. by rewrite andb_false_r. }
  apply no_nul_cons in Hn as [Hc Hn]. apply Forall_cons_iff in Hs as [Hc' Hs]. specialize (IH Hn Hs).
  destruct (separates c) eqn:E.
  { constructor; [|done]. repeat constructor. unfold has_stream. cbn. by rewrite andb_false_r. }
  destruct (fields_cons s) as (g & gs & Ef). rewrite Ef in *.
  apply Forall_cons_iff in IH as [(P & N & S) IH].
  constructor; [|done]. split_and!; [by constructor|by constructor|].
  by rewrite has_stream_cons, Hc', S.
Qed.

Lemma add_component_good f c components comps :
  piece f c → good f components → add_component f c components = Some comps →
  good f comps ∧ (weight comps ≤ S (length c) + weight components)%nat.
Proof.
  intros (P & N & S) (G & L). unfold add_component. case_bool_decide as E1.
  { intros [= <-]. split; [|pose proof (weight_take (length components - 1) components); lia].
    split; [by apply Forall_take|]. rewrite length_take. lia. }
  case_bool_decide as E2; [intros [= <-]; split; [by split|lia]|].
  destruct (Nat.leb_spec (max_depth f) (length components)) as [|H]; [done|]. intros [= <-].
  rewrite weight_app, weight_cons. split; [|cbn; lia]. split; [|rewrite length_app; cbn; lia].
  apply Forall_app. split; [done|]. repeat constructor; try done; tauto.
Qed.

Lemma resolve_good f l : ∀ components comps,
  Forall (piece f) l → good f components → resolve f l components = Some comps →
  good f comps ∧ (weight comps ≤ weight l + weight components)%nat.
Proof.
  induction l as [|c l IH]; intros components comps Hl G; cbn [resolve]; [by intros [= <-]|].
  apply Forall_cons_iff in Hl as [Hc Hl].
  destruct (add_component f c components) as [comps'|] eqn:E; [|done]. cbn [mbind option_bind].
  intros H. destruct (add_component_good f c components comps' Hc G E) as [G' W].
  destruct (IH comps' comps Hl G' H). split; [done|]. rewrite weight_cons. lia.
Qed.

(** ** Correctness *)

Class PathFormat (f : path_format) : Prop := {
  slash_separates : separates (slash f) = true;
  max_path_room : (2 ≤ max_path f)%nat;
}.

Definition render (f : path_format) (components : list (list byte)) : list byte :=
  slash f :: join [slash f] components.

(** The reference: the names down to the directory that the components lead to from the root. *)

Definition normalized (f : path_format) (path : list byte) : option (list byte) :=
  match path with
  | c :: rest =>
      if separates c && (length rest <? max_path f - 1)%nat && negb (has_stream f rest)
      then (λ place, render f (rev place)) <$> lead (max_depth f) (fields rest) []
      else None
  | [] => None
  end.

Lemma normalized_resolve f path :
  normalized f path =
    match path with
    | c :: rest =>
        if separates c && (length rest <? max_path f - 1)%nat && negb (has_stream f rest)
        then render f <$> resolve f (fields rest) []
        else None
    | [] => None
    end.
Proof.
  unfold normalized. destruct path as [|c rest]; [done|]. destruct (_ && _ && _); [|done].
  rewrite resolve_lead. cbn [rev]. by destruct (lead _ _ _).
Qed.

(** The normal paths. *)

Definition normal (f : path_format) (path : list byte) : Prop :=
  ∃ components, good f components ∧ (weight components ≤ max_path f - 1)%nat ∧
    path = render f components.

Lemma good_no_nul f components : good f components → Forall no_nul components.
Proof. intros [H _]. eapply Forall_impl; [|exact H]. intros c (_ & _ & _ & _ & Hn & _). done. Qed.

Lemma c_str_cons c s : c ≠ x00 → c_str (c :: s) = c :: c_str s.
Proof. by destruct c. Qed.

Section format.
  Context (f : path_format) {PF : PathFormat f}.

Lemma slash_not_nul : slash f ≠ x00.
Proof. intros E. pose proof slash_separates as H. by rewrite E in H. Qed.

Lemma slash_no_nul : no_nul [slash f].
Proof. apply no_nul_cons. split; [apply slash_not_nul|constructor]. Qed.

Lemma render_no_nul components : good f components → no_nul (render f components).
Proof.
  intros G. apply no_nul_cons. split; [apply slash_not_nul|].
  apply join_no_nul; [apply slash_no_nul|by apply (good_no_nul f)].
Qed.

Lemma fields_rest_good path comps :
  no_nul path → has_stream f path = false → resolve f (fields path) [] = Some comps →
  good f comps ∧ (weight comps ≤ S (length path))%nat.
Proof.
  intros Hn Hs H. destruct (resolve_good f (fields path) [] comps) as [G W]; try done.
  { by apply fields_pieces. }
  { split; [constructor|cbn; lia]. }
  rewrite weight_fields in W. cbn in W. split; [done|lia].
Qed.

(** Joining the components into the buffer behind the slash. *)

Lemma write_result abs_path comps :
  good f comps → (weight comps ≤ max_path f - 1)%nat → (max_path f ≤ length abs_path)%nat →
  str_at (fst (guac_strljoin (<[0%nat := slash f]> abs_path) 1 comps
    (Z.of_nat (length comps)) [slash f] (max_path f - 1))) 0 = render f comps.
Proof.
  intros G W L. pose proof max_path_room. set (m := <[0%nat := slash f]> abs_path).
  destruct (strljoin_spec m 1 comps (Z.of_nat (length comps)) [slash f] (max_path f - 1))
    as (_ & Hs & Hl & Ht & _).
  { by apply (good_no_nul f). }
  { apply slash_no_nul. }
  { unfold m. rewrite length_insert. lia. }
  destruct (guac_strljoin m 1 comps _ _ _) as [m' n]. cbn [fst snd] in *.
  rewrite Nat2Z.id, (take_ge comps) in Hs by lia. specialize (Hs ltac:(lia)).
  rewrite take_ge in Hs by (rewrite length_join; lia).
  destruct abs_path as [|a abs_path]; [cbn in L; lia|]. unfold m in *. cbn in Hl, Ht.
  destruct m' as [|b m']; [done|]. cbn in Ht. injection Ht as ->.
  unfold str_at in *. rewrite drop_0. change (drop 1 (slash f :: m')) with m' in Hs.
  rewrite c_str_cons by apply slash_not_nul. by rewrite Hs.
Qed.

Lemma normalize_path_normalized scratch abs_path path :
  no_nul path → (max_path f - 1 ≤ length scratch)%nat → (max_path f ≤ length abs_path)%nat →
  normalize_path f scratch abs_path path = normalized f path.
Proof.
  intros Hn Ls La. rewrite normalized_resolve. unfold normalize_path. destruct path as [|c rest]; [done|].
  apply no_nul_cons in Hn as [_ Hn]. rewrite is_separator_separates. destruct (separates c); [|done]. cbn [andb].
  rewrite strlcpy_put. destruct (Nat.leb_spec (max_path f - 1) (length rest)) as [H|H].
  { by rewrite (proj2 (Nat.ltb_ge (length rest) (max_path f - 1)) H). }
  rewrite (proj2 (Nat.ltb_lt (length rest) (max_path f - 1)) H). cbn [andb].
  unfold put. rewrite (proj2 (Nat.eqb_neq (max_path f - 1) 0)) by lia.
  rewrite take_ge by lia. unfold write_at. cbn [take app Nat.add].
  rewrite <-app_assoc, take_0. cbn [app].
  pose proof (normalize_loop_spec f (drop (length (rest ++ [x00])) scratch) rest [] [] [] Hn
    (List.Forall_nil _)) as E. cbn [app length] in E. rewrite E.
  destruct (has_stream f rest) eqn:Es; [done|]. cbn [negb].
  destruct (resolve f (fields rest) []) as [comps|] eqn:Er; [|done]. cbn [mbind option_bind].
  destruct (fields_rest_good rest comps Hn Es Er) as [G W].
  change (render f <$> Some comps) with (Some (render f comps)). rewrite <-(write_result abs_path comps G) by lia.
  by destruct (guac_strljoin _ _ _ _ _ _).
Qed.

Lemma normalized_normal path r : no_nul path → normalized f path = Some r → normal f r.
Proof.
  intros Hn. rewrite normalized_resolve. destruct path as [|c rest]; [done|].
  apply no_nul_cons in Hn as [_ Hn].
  destruct (separates c); [|done]. cbn [andb].
  destruct (Nat.ltb_spec (length rest) (max_path f - 1)) as [H|]; [|done]. cbn [andb].
  destruct (has_stream f rest) eqn:Es; [done|]. cbn [negb].
  destruct (resolve f (fields rest) []) as [comps|] eqn:Er; [|done]. intros [= <-].
  destruct (fields_rest_good rest comps Hn Es Er) as [G W]. exists comps. split_and!; [done|lia|done].
Qed.

Lemma fields_join l : l ≠ [] → Forall plain l → fields (join [slash f] l) = l.
Proof.
  destruct l as [|e l]; [done|]. intros _ H. apply Forall_cons_iff in H as [He Hl]. cbn [join].
  revert e He. induction Hl as [|x l Hx Hl IH]; intros e He; cbn.
  { by rewrite app_nil_r, fields_plain. }
  rewrite fields_app_sep by (done || apply slash_separates). f_equal. by apply IH.
Qed.

Lemma resolve_proper l : ∀ components,
  Forall (proper f) l → (length components + length l ≤ max_depth f)%nat →
  resolve f l components = Some (components ++ l).
Proof.
  induction l as [|c l IH]; intros components H L; cbn [resolve]; [by rewrite app_nil_r|].
  apply Forall_cons_iff in H as [(N1 & N2 & N3 & _) Hl]. cbn in L. unfold add_component.
  rewrite bool_decide_false by done. rewrite bool_decide_false by (by intros [?|?]).
  rewrite (proj2 (Nat.leb_gt (max_depth f) (length components))) by lia. cbn [mbind option_bind].
  rewrite IH by (done || rewrite length_app; cbn; lia). by rewrite <-app_assoc.
Qed.

Lemma has_stream_app s t : has_stream f (s ++ t) = has_stream f s || has_stream f t.
Proof. unfold has_stream. rewrite existsb_app. by destruct (refuses_streams f). Qed.

Lemma join_no_stream l :
  Forall (proper f) l → has_stream f (join [slash f] l) = false.
Proof.
  assert (Hsep : has_stream f [slash f] = false).
  { unfold has_stream. cbn. rewrite orb_false_r.
    by rewrite (separator_no_stream _ slash_separates), andb_false_r. }
  intros H. destruct H as [|e l (_ & _ & _ & _ & _ & He) Hl]; cbn [join].
  { unfold has_stream. apply andb_false_r. }
  rewrite has_stream_app, He. cbn [orb].
  induction Hl as [|x l (_ & _ & _ & _ & _ & Hx) Hl IH]; cbn [fmap list_fmap concat].
  { unfold has_stream. apply andb_false_r. }
  by rewrite !has_stream_app, Hsep, Hx, IH.
Qed.

Lemma normal_normalized r : normal f r → normalized f r = Some r.
Proof.
  intros (comps & [G D] & W & ->). rewrite normalized_resolve. unfold render. pose proof max_path_room.
  rewrite slash_separates, join_no_stream by done. rewrite length_join.
  rewrite (proj2 (Nat.ltb_lt (weight comps - 1) (max_path f - 1))) by lia. cbn [andb negb].
  destruct (decide (comps = [])) as [->|Hne]; [done|].
  assert (P : Forall plain comps).
  { eapply Forall_impl; [|exact G]. by intros c (_ & _ & _ & P & _). }
  rewrite fields_join by done. by rewrite resolve_proper.
Qed.

End format.

(** ** The two functions *)

Definition GUAC_RDP_FS_MAX_PATH : nat := 4096.
Definition GUAC_RDP_MAX_PATH_DEPTH : nat := 64.
Definition GUAC_COMMON_SSH_SFTP_MAX_PATH : nat := 2048.
Definition GUAC_COMMON_SSH_SFTP_MAX_DEPTH : nat := 1024.

Definition rdp_format : path_format :=
  mk_format GUAC_RDP_FS_MAX_PATH GUAC_RDP_MAX_PATH_DEPTH x5c true.

Definition sftp_format : path_format :=
  mk_format GUAC_COMMON_SSH_SFTP_MAX_PATH GUAC_COMMON_SSH_SFTP_MAX_DEPTH x2f false.

(** The scratch copy and the result are as large as their declarations say. *)

Definition guac_rdp_fs_normalize_path (path : list byte) : option (list byte) :=
  normalize_path rdp_format (replicate (GUAC_RDP_FS_MAX_PATH - 1) x00)
    (replicate GUAC_RDP_FS_MAX_PATH x00) path.

Definition guac_common_ssh_sftp_normalize_path (path : list byte) : option (list byte) :=
  normalize_path sftp_format (replicate (GUAC_COMMON_SSH_SFTP_MAX_PATH - 1) x00)
    (replicate GUAC_COMMON_SSH_SFTP_MAX_PATH x00) path.

#[export] Instance rdp_path_format : PathFormat rdp_format.
Proof. split; [done|]. cbn [max_path rdp_format]. unfold GUAC_RDP_FS_MAX_PATH. lia. Qed.

#[export] Instance sftp_path_format : PathFormat sftp_format.
Proof. split; [done|]. cbn [max_path sftp_format]. unfold GUAC_COMMON_SSH_SFTP_MAX_PATH. lia. Qed.

(** Both are total on the strings that a caller has, and agree with their reference. *)

Lemma rdp_normalize_normalized path :
  no_nul path → guac_rdp_fs_normalize_path path = normalized rdp_format path.
Proof.
  intros Hn. apply normalize_path_normalized; [apply _|done|rewrite length_replicate..]; cbn [max_path rdp_format]; lia.
Qed.

Lemma sftp_normalize_normalized path :
  no_nul path → guac_common_ssh_sftp_normalize_path path = normalized sftp_format path.
Proof.
  intros Hn. apply normalize_path_normalized; [apply _|done|rewrite length_replicate..]; cbn [max_path sftp_format]; lia.
Qed.

(** C9.  Normalising a path gives the names down to the directory that its components lead to from the
    root, whatever was in the buffers: an empty component and [.] stay, [..] goes to the parent, which
    for the root is the root, any other name goes down.  Going deeper than the limit fails, as do a path
    that is not absolute, one that is too long for the buffer and, on the shared drive, one with a colon. This
    is what the functions of fs.c and of sftp.c do, with their limits.  The result is a normal path (absolute, its components not empty,
    neither [.] nor [..], without separators, no more than the greatest depth, and short enough for
    the buffer), and normalising a normal path changes nothing. *)
Theorem normalize_path_normal f `{!PathFormat f} scratch abs_path path :
  no_nul path → (max_path f - 1 ≤ length scratch)%nat → (max_path f ≤ length abs_path)%nat →
  normalize_path f scratch abs_path path = normalized f path ∧
  (∀ r, normalize_path f scratch abs_path path = Some r → normal f r) ∧
  (∀ r, normal f r → normalize_path f scratch abs_path r = Some r) ∧
  guac_rdp_fs_normalize_path path = normalized (mk_format 4096 64 x5c true) path ∧
  guac_common_ssh_sftp_normalize_path path = normalized (mk_format 2048 1024 x2f false) path.
Proof.
  intros Hn Ls La. split_and!; [| | |by apply rdp_normalize_normalized|by apply sftp_normalize_normalized].
  - by apply normalize_path_normalized.
  - intros r. rewrite normalize_path_normalized by done. by apply normalized_normal.
  - intros r Hr. rewrite normalize_path_normalized by (try done; destruct Hr as (? & ? & _ & ->); by apply render_no_nul).
    by apply normal_normalized.
Qed.

Lemma normalize_path_normal_witness :
  let f := mk_format 32 3 x5c true in
  let path := lit "/a/./b\\..\../c/" in
  normalize_path f (replicate 31 x2a) (replicate 32 x2a) path = Some (lit "\c") ∧
  (normalize_path f (replicate 31 x2a) (replicate 32 x2a) path = normalized f path ∧
   (∀ r, normalize_path f (replicate 31 x2a) (replicate 32 x2a) path = Some r → normal f r) ∧
   (∀ r, normal f r → normalize_path f (replicate 31 x2a) (replicate 32 x2a) r = Some r) ∧
   guac_rdp_fs_normalize_path path = normalized (mk_format 4096 64 x5c true) path ∧
   guac_common_ssh_sftp_normalize_path path = normalized (mk_format 2048 1024 x2f false) path).
Proof.
  split; [vm_compute; reflexivity|].
  apply (normalize_path_normal (mk_format 32 3 x5c true)
    (PathFormat0 := Build_PathFormat (mk_format 32 3 x5c true) eq_refl ltac:(cbn; lia)));
    [by apply (bool_decide_unpack _); vm_compute|cbn; lia..].
Defined.

Lemma rdp_normal_input path r :
  no_nul path → guac_rdp_fs_normalize_path path = Some r → normal rdp_format r.
Proof. intros Hn. rewrite rdp_normalize_normalized by done. by apply normalized_normal. Qed.
