(* ===== verification/RdpFs.v ===== *)
(** * The shared drive of an RDP session (src/src/protocols/rdp/fs.c, fs.h)

    The drive is a directory of the server that runs guacd; the RDP server opens
    files on it by paths of Windows and names them by small integers.

    What the code asks of the system is a list of calls ([calls]); the answers are
    those of a function of the calls made so far ([respond]), of which nothing is
    assumed unless a theorem says so.  [alloc] tells which requests for memory are
    granted, and [fnmatch] is the C library's.  Constants of the system's headers
    have the values of Linux, those of Windows their documented ones.

    An entry of the table of files that was never used is indeterminate ([None]); the
    pointers to the names of a closed file are NULL, which guac_mem_free assigns
    (guacamole/mem.h).  Messages for the log are left out. *)

From S2P Require Import Prelude RecordUpdate CString LibString Mem Run Pool Paths.
Local Open Scope Z_scope.

(** ** Constants *)

Definition GUAC_RDP_FS_MAX_FILES : Z := 128.

Definition GUAC_RDP_FS_ENFILE : Z := -1.
Definition GUAC_RDP_FS_ENOENT : Z := -2.
Definition GUAC_RDP_FS_ENOTDIR : Z := -3.
Definition GUAC_RDP_FS_ENOSPC : Z := -4.
Definition GUAC_RDP_FS_EISDIR : Z := -5.
Definition GUAC_RDP_FS_EACCES : Z := -6.
Definition GUAC_RDP_FS_EEXIST : Z := -7.
Definition GUAC_RDP_FS_EINVAL : Z := -8.
Definition GUAC_RDP_FS_ENOSYS : Z := -9.
Definition GUAC_RDP_FS_ENOTSUP : Z := -10.

Definition WINDOWS_TIME (t : Z) : Z := u64 (u64 (t + 11644473600) * 10000000).

(** Of the system. *)

Definition ENOENT : Z := 2.
Definition EACCES : Z := 13.
Definition EEXIST : Z := 17.
Definition ENOTDIR : Z := 20.
Definition EISDIR : Z := 21.
Definition EINVAL : Z := 22.
Definition ENFILE : Z := 23.
Definition ENOSPC : Z := 28.
Definition ENOSYS : Z := 38.
Definition ENOTSUP : Z := 95.

Definition O_RDONLY : Z := 0.
Definition O_WRONLY : Z := 1.
Definition O_RDWR : Z := 2.
Definition O_CREAT : Z := 0x40.
Definition O_EXCL : Z := 0x80.
Definition O_TRUNC : Z := 0x200.

Definition S_IRWXU : Z := 0x1c0.
Definition S_IRUSR : Z := 0x100.
Definition S_IWUSR : Z := 0x80.
Definition S_ISDIR (mode : Z) : bool := Z.land mode 0xf000 =? 0x4000.
Definition SEEK_SET : Z := 0.
Definition FNM_NOESCAPE : Z := 2.

(** Of Windows. *)

Definition GENERIC_READ : Z := 0x80000000.
Definition GENERIC_WRITE : Z := 0x40000000.
Definition GENERIC_ALL : Z := 0x10000000.
Definition FILE_READ_DATA : Z := 1.
Definition FILE_WRITE_DATA : Z := 2.
Definition FILE_APPEND_DATA : Z := 4.

Definition FILE_SUPERSEDE : Z := 0.
Definition FILE_OPEN : Z := 1.
Definition FILE_CREATE : Z := 2.
Definition FILE_OPEN_IF : Z := 3.
Definition FILE_OVERWRITE : Z := 4.
Definition FILE_OVERWRITE_IF : Z := 5.

Definition FILE_DIRECTORY_FILE : Z := 1.
Definition FILE_ATTRIBUTE_DIRECTORY : Z := 0x10.
Definition FILE_ATTRIBUTE_NORMAL : Z := 0x80.

Definition STATUS_NO_MORE_FILES : Z := 0x80000006.
Definition STATUS_NO_SUCH_FILE : Z := 0xc000000f.
Definition STATUS_NOT_A_DIRECTORY : Z := 0xc0000103.
Definition STATUS_DISK_FULL : Z := 0xc000007f.
Definition STATUS_FILE_IS_A_DIRECTORY : Z := 0xc00000ba.
Definition STATUS_ACCESS_DENIED : Z := 0xc0000022.
Definition STATUS_OBJECT_NAME_COLLISION : Z := 0xc0000035.
Definition STATUS_INVALID_PARAMETER : Z := 0xc000000d.
Definition STATUS_NOT_IMPLEMENTED : Z := 0xc0000002.
Definition STATUS_NOT_SUPPORTED : Z := 0xc00000bb.

(** ** The system *)

Inductive syscall :=
| sys_mkdir (path : list byte) (mode : Z)
| sys_unlink (path : list byte)
| sys_rmdir (path : list byte)
| sys_rename (old new : list byte)
| sys_statvfs (path : list byte)
| sys_open (path : list byte) (flags mode : Z)
| sys_fstat (fd : Z)
| sys_lseek (fd offset whence : Z)
| sys_read (fd count : Z)
| sys_write (fd : Z) (data : list byte) (count : Z)
| sys_ftruncate (fd size : Z)
| sys_close (fd : Z)
| sys_fdopendir (fd : Z)
| sys_readdir (dir : Z)
| sys_closedir (dir : Z).

Record stat := mk_stat {
  st_mode : Z; st_size : Z; st_atime : Z; st_mtime : Z; st_ctime : Z;
}.

(** What a call returns, in [errno] and in memory. *)

Record response := mk_response {
  ret : Z;
  errno : Z;
  file_stat : stat;
  statvfs_result : Z * Z * Z;         (* f_bfree, f_blocks, f_bsize *)
  data : list byte;                   (* what was read, the name of a directory entry *)
}.

(** ** The drive *)

Inductive string_ref :=
| Null
| Valid (s : list byte).

Record guac_rdp_fs_file := mk_file {
  id : Z;
  absolute_path : string_ref;
  real_path : string_ref;
  fd : Z;
  dir : Z;                            (* NULL is 0 *)
  dir_pattern : list byte;
  attributes : Z;
  size : Z;
  ctime : Z;
  mtime : Z;
  atime : Z;
  bytes_written : Z;
}.

#[export] Instance eta_file : Eta guac_rdp_fs_file :=
  λ f, mk_file (id f) (absolute_path f) (real_path f) (fd f) (dir f) (dir_pattern f) (attributes f)
    (size f) (ctime f) (mtime f) (atime f) (bytes_written f).

Record guac_rdp_fs := mk_fs {
  drive_path : string_ref;
  open_files : Z;
  file_id_pool : guac_pool;
  files : list (option guac_rdp_fs_file);
  disable_download : bool;
  disable_upload : bool;
  calls : list syscall;               (* what was asked of the system so far *)
}.

#[export] Instance eta_fs : Eta guac_rdp_fs :=
  λ f, mk_fs (drive_path f) (open_files f) (file_id_pool f) (files f) (disable_download f)
    (disable_upload f) (calls f).

(** The string in the block that [guac_strdup] returns. *)

Definition string_of (o : option (list byte)) : string_ref :=
  match o with
  | Some block => Valid (c_str block)
  | None => Null
  end.

(** Reading a string through a pointer. *)

Definition use (s : string_ref) : run (list byte) :=
  match s with
  | Valid s => Run s
  | Null => Fault
  end.

(** ** Codes *)

Definition guac_rdp_fs_get_errorcode (err : Z) : Z :=
  if err =? ENFILE then GUAC_RDP_FS_ENFILE
  else if err =? ENOENT then GUAC_RDP_FS_ENOENT
  else if err =? ENOTDIR then GUAC_RDP_FS_ENOTDIR
  else if err =? ENOSPC then GUAC_RDP_FS_ENOSPC
  else if err =? EISDIR then GUAC_RDP_FS_EISDIR
  else if err =? EACCES then GUAC_RDP_FS_EACCES
  else if err =? EEXIST then GUAC_RDP_FS_EEXIST
  else if err =? EINVAL then GUAC_RDP_FS_EINVAL
  else if err =? ENOSYS then GUAC_RDP_FS_ENOSYS
  else if err =? ENOTSUP then GUAC_RDP_FS_ENOTSUP
  else GUAC_RDP_FS_EINVAL.

Definition guac_rdp_fs_get_status (err : Z) : Z :=
  if err =? GUAC_RDP_FS_ENFILE then STATUS_NO_MORE_FILES
  else if err =? GUAC_RDP_FS_ENOENT then STATUS_NO_SUCH_FILE
  else if err =? GUAC_RDP_FS_ENOTDIR then STATUS_NOT_A_DIRECTORY
  else if err =? GUAC_RDP_FS_ENOSPC then STATUS_DISK_FULL
  else if err =? GUAC_RDP_FS_EISDIR then STATUS_FILE_IS_A_DIRECTORY
  else if err =? GUAC_RDP_FS_EACCES then STATUS_ACCESS_DENIED
  else if err =? GUAC_RDP_FS_EEXIST then STATUS_OBJECT_NAME_COLLISION
  else if err =? GUAC_RDP_FS_EINVAL then STATUS_INVALID_PARAMETER
  else if err =? GUAC_RDP_FS_ENOSYS then STATUS_NOT_IMPLEMENTED
  else if err =? GUAC_RDP_FS_ENOTSUP then STATUS_NOT_SUPPORTED
  else STATUS_INVALID_PARAMETER.

(** ** Paths *)

Fixpoint basename_loop (path c : list byte) : list byte :=
  match c with
  | [] => path
  | x :: c => basename_loop (if is_separator x then c else path) c
  end.

Definition guac_rdp_fs_basename (path : list byte) : list byte := basename_loop path path.

(** The two loops of [__guac_rdp_fs_translate_path]; [n] is what is left of the bound. *)

Fixpoint copy_drive_path (n : nat) (path : list byte) : list byte * nat :=
  match n, path with
  | S n, c :: path => let '(r, n) := copy_drive_path n path in (c :: r, n)
  | _, _ => ([], n)
  end.

Fixpoint copy_virtual_path (n : nat) (path : list byte) : list byte :=
  match n, path with
  | S n, c :: path =>
      (if bool_decide (c = x5c) then x2f else c) :: copy_virtual_path n path
  | _, _ => []
  end.

(** The string in [real_path]. *)

Definition __guac_rdp_fs_translate_path (drive_path virtual_path : list byte) : list byte :=
  let '(real_path, n) := copy_drive_path (GUAC_RDP_FS_MAX_PATH - 1) drive_path in
  real_path ++ copy_virtual_path n virtual_path.

(** [combined_path] is filled by three calls of [guac_strlcpy]; the length of what is left wraps
    around when there is less than nothing, and the copy is then not bounded at all. *)

Definition strlcpy_at (combined_path : list byte) (length : nat) (src : list byte)
    : run (list byte * nat) :=
  if (GUAC_RDP_FS_MAX_PATH <? length)%nat then Fault
  else
    let '(combined_path, r) :=
      guac_strlcpy combined_path length src (GUAC_RDP_FS_MAX_PATH - length) in
    Run (combined_path, length + r)%nat.

(** [None] is failure. *)

Definition guac_rdp_fs_convert_path (combined_path parent rel_path : list byte)
    : run (option (list byte)) :=
  let '(combined_path, length) := guac_strlcpy combined_path 0 parent GUAC_RDP_FS_MAX_PATH in
  '(combined_path, length) ← strlcpy_at combined_path length [x5c];
  '(combined_path, length) ← strlcpy_at combined_path length rel_path;
  Run (guac_rdp_fs_normalize_path (str_at combined_path 0)).

(** The loops of [guac_rdp_fs_append_filename]: [i] counts; what was written is in [fullpath]. *)

Fixpoint append_path_loop (n : nat) (fullpath path : list byte) : list byte :=
  match n with
  | O => fullpath
  | S n =>
      match path with
      | [] =>
          match rev fullpath with
          | c :: _ => if is_separator c then fullpath else fullpath ++ [x2f]
          | [] => fullpath
          end
      | c :: path => append_path_loop n (fullpath ++ [c]) path
      end
  end.

Fixpoint append_name_loop (n : nat) (fullpath filename : list byte) : option (list byte) :=
  match n, filename with
  | S n, c :: filename =>
      if is_separator c then None else append_name_loop n (fullpath ++ [c]) filename
  | _, _ => Some fullpath
  end.

Definition guac_rdp_fs_append_filename (path filename : list byte) : option (list byte) :=
  if bool_decide (filename = lit ".") then None
  else if bool_decide (filename = lit "..") then None
  else
    let fullpath := append_path_loop GUAC_RDP_FS_MAX_PATH [] path in
    fullpath ← append_name_loop (GUAC_RDP_FS_MAX_PATH - length fullpath) fullpath filename;
    if (length fullpath =? GUAC_RDP_FS_MAX_PATH)%nat then None else Some fullpath.

(** ** Operations *)

Section operations.
  Context (respond : list syscall → syscall → response) (alloc : Z → bool).
  Context (fnmatch : list byte → list byte → Z → Z).

Definition system (c : syscall) (fs : guac_rdp_fs) : response * guac_rdp_fs :=
  (respond (calls fs) c, fs <| calls := calls fs ++ [c] |>).

Definition guac_rdp_fs_alloc (path : list byte) (create_drive_path disable_download disable_upload : bool)
    : guac_rdp_fs :=
  let fs := mk_fs Null 0 (guac_pool_alloc 0) (replicate (Z.to_nat GUAC_RDP_FS_MAX_FILES) None)
              disable_download disable_upload [] in
  let fs := if create_drive_path then snd (system (sys_mkdir path S_IRWXU) fs) else fs in
  fs <| drive_path := string_of (guac_strdup alloc (Some path)) |>.

(** The place of a file in the table; [None] is [NULL]. *)

Definition guac_rdp_fs_get_file (file_id : Z) : option nat :=
  if (file_id <? 0) || (GUAC_RDP_FS_MAX_FILES <=? file_id) then None
  else Some (Z.to_nat file_id).

(** The members of a file. *)

Definition file_at (fs : guac_rdp_fs) (i : nat) : run guac_rdp_fs_file :=
  deref (mjoin (files fs !! i)).

Definition put_file (i : nat) (file : guac_rdp_fs_file) (fs : guac_rdp_fs) : guac_rdp_fs :=
  fs <| files := <[i := Some file]> (files fs) |>.

Definition flag (flags mask : Z) : bool := negb (Z.land flags mask =? 0).

Definition access_flags (access : Z) : Z :=
  let writes := Z.lor (Z.lor GENERIC_WRITE FILE_WRITE_DATA) FILE_APPEND_DATA in
  if flag access GENERIC_ALL then O_RDWR
  else if flag access writes && flag access (Z.lor GENERIC_READ FILE_READ_DATA) then O_RDWR
  else if flag access writes then O_WRONLY
  else O_RDONLY.

(** The flags of a disposition; [None] when it is not recognised. *)

Definition disposition_flags (create_disposition flags : Z) : option Z :=
  if create_disposition =? FILE_CREATE then Some (Z.lor flags (Z.lor O_CREAT O_EXCL))
  else if create_disposition =? FILE_OPEN then Some flags
  else if create_disposition =? FILE_OPEN_IF then Some (Z.lor flags O_CREAT)
  else if create_disposition =? FILE_OVERWRITE then Some (Z.lor flags O_TRUNC)
  else if create_disposition =? FILE_OVERWRITE_IF then Some (Z.lor flags (Z.lor O_CREAT O_TRUNC))
  else if create_disposition =? FILE_SUPERSEDE then Some (Z.lor flags (Z.lor O_CREAT O_TRUNC))
  else None.

(** The directory, if one is to be created; an error code or the flags for [open]. *)

Definition create_directory (create_options flags : Z) (path : list byte) (fs : guac_rdp_fs)
    : (Z + Z) * guac_rdp_fs :=
  if flag create_options FILE_DIRECTORY_FILE && flag flags O_CREAT then
    let '(r, fs) := system (sys_mkdir path S_IRWXU) fs in
    if negb (ret r =? 0) && (negb (errno r =? EEXIST) || flag flags O_EXCL)
    then (inl (guac_rdp_fs_get_errorcode (errno r)), fs)
    else (inr (Z.ldiff flags (Z.lor O_CREAT O_EXCL)), fs)
  else (inr flags, fs).

Definition open_native (flags : Z) (path : list byte) (fs : guac_rdp_fs) : response * guac_rdp_fs :=
  let '(r, fs) := system (sys_open path flags (Z.lor S_IRUSR S_IWUSR)) fs in
  if (ret r =? -1) && (errno r =? EISDIR) then
    let flags := Z.lor (Z.ldiff flags (Z.lor O_WRONLY O_RDWR)) O_RDONLY in
    system (sys_open path flags (Z.lor S_IRUSR S_IWUSR)) fs
  else (r, fs).

(** The new entry of the table. *)

Definition register_file (normalized_path path : list byte) (fd : Z) (fs : guac_rdp_fs)
    : run (Z * guac_rdp_fs) :=
  '(file_id, pool) ← guac_pool_next_int_below_or_die (file_id_pool fs) GUAC_RDP_FS_MAX_FILES;
  let fs := fs <| file_id_pool := pool |> in
  let '(r, fs) := system (sys_fstat fd) fs in
  let normalized_path := string_of (guac_strdup alloc (Some normalized_path)) in
  let path := string_of (guac_strdup alloc (Some path)) in
  let st := file_stat r in
  let file :=
    if ret r =? 0
    then mk_file file_id normalized_path path fd 0 []
           (if S_ISDIR (st_mode st) then FILE_ATTRIBUTE_DIRECTORY else FILE_ATTRIBUTE_NORMAL)
           (u64 (st_size st)) (WINDOWS_TIME (st_ctime st)) (WINDOWS_TIME (st_mtime st))
           (WINDOWS_TIME (st_atime st)) 0
    else mk_file file_id normalized_path path fd 0 [] FILE_ATTRIBUTE_NORMAL 0 0 0 0 0 in
  Run (file_id, put_file (Z.to_nat file_id) file fs <| open_files := open_files fs + 1 |>).

Definition guac_rdp_fs_open (fs : guac_rdp_fs) (path : list byte)
    (access create_disposition create_options : Z) : run (Z * guac_rdp_fs) :=
  if GUAC_RDP_FS_MAX_FILES <=? open_files fs then Run (GUAC_RDP_FS_ENFILE, fs)
  else
    let path := match path with [] => [x5c] | _ => path end in
    if negb (is_separator (mem_at path 0)) then Run (GUAC_RDP_FS_ENOENT, fs)
    else
      let flags := access_flags access in
      match guac_rdp_fs_normalize_path path with
      | None => Run (GUAC_RDP_FS_ENOENT, fs)
      | Some normalized_path =>
          drive ← use (drive_path fs);
          let real_path := __guac_rdp_fs_translate_path drive normalized_path in
          match disposition_flags create_disposition flags with
          | None => Run (GUAC_RDP_FS_ENOSYS, fs)
          | Some flags =>
              let fs :=
                if create_disposition =? FILE_SUPERSEDE
                then snd (system (sys_unlink real_path) fs) else fs in
              match create_directory create_options flags real_path fs with
              | (inl error, fs) => Run (error, fs)
              | (inr flags, fs) =>
                  let '(r, fs) := open_native flags real_path fs in
                  if ret r =? -1 then Run (guac_rdp_fs_get_errorcode (errno r), fs)
                  else register_file normalized_path real_path (ret r) fs
              end
          end
      end.

(** What is read is in the caller's buffer. *)

Definition guac_rdp_fs_read (fs : guac_rdp_fs) (file_id offset length : Z)
    : run (Z * list byte * guac_rdp_fs) :=
  match guac_rdp_fs_get_file file_id with
  | None => Run (GUAC_RDP_FS_EINVAL, [], fs)
  | Some i =>
      file ← file_at fs i;
      let '(_, fs) := system (sys_lseek (fd file) (i64 offset) SEEK_SET) fs in
      let '(r, fs) := system (sys_read (fd file) (u64 length)) fs in
      let bytes_read := i32 (ret r) in
      if bytes_read <? 0 then Run (guac_rdp_fs_get_errorcode (errno r), data r, fs)
      else Run (bytes_read, data r, fs)
  end.

Definition guac_rdp_fs_write (fs : guac_rdp_fs) (file_id offset : Z) (buffer : list byte) (length : Z)
    : run (Z * guac_rdp_fs) :=
  match guac_rdp_fs_get_file file_id with
  | None => Run (GUAC_RDP_FS_EINVAL, fs)
  | Some i =>
      file ← file_at fs i;
      let '(_, fs) := system (sys_lseek (fd file) (i64 offset) SEEK_SET) fs in
      let '(r, fs) := system (sys_write (fd file) buffer (u64 length)) fs in
      let written := i32 (ret r) in
      if written <? 0 then Run (guac_rdp_fs_get_errorcode (errno r), fs)
      else
        Run (written,
             put_file i (file <| bytes_written := u64 (bytes_written file + written) |>) fs)
  end.

Definition guac_rdp_fs_rename (fs : guac_rdp_fs) (file_id : Z) (new_path : list byte)
    : run (Z * guac_rdp_fs) :=
  match guac_rdp_fs_get_file file_id with
  | None => Run (GUAC_RDP_FS_EINVAL, fs)
  | Some i =>
      match guac_rdp_fs_normalize_path new_path with
      | None => Run (GUAC_RDP_FS_ENOENT, fs)
      | Some normalized_path =>
          drive ← use (drive_path fs);
          let new := __guac_rdp_fs_translate_path drive normalized_path in
          file ← file_at fs i;
          old ← use (real_path file);
          let '(r, fs) := system (sys_rename old new) fs in
          if negb (ret r =? 0) then Run (guac_rdp_fs_get_errorcode (errno r), fs)
          else Run (0, fs)
      end
  end.

Definition guac_rdp_fs_delete (fs : guac_rdp_fs) (file_id : Z) : run (Z * guac_rdp_fs) :=
  match guac_rdp_fs_get_file file_id with
  | None => Run (GUAC_RDP_FS_EINVAL, fs)
  | Some i =>
      file ← file_at fs i;
      path ← use (real_path file);
      let '(r, fs) :=
        system (if flag (attributes file) FILE_ATTRIBUTE_DIRECTORY then sys_rmdir path
                else sys_unlink path) fs in
      if negb (ret r =? 0) then Run (guac_rdp_fs_get_errorcode (errno r), fs)
      else Run (0, fs)
  end.

Definition guac_rdp_fs_truncate (fs : guac_rdp_fs) (file_id length : Z) : run (Z * guac_rdp_fs) :=
  match guac_rdp_fs_get_file file_id with
  | None => Run (GUAC_RDP_FS_EINVAL, fs)
  | Some i =>
      file ← file_at fs i;
      let '(r, fs) := system (sys_ftruncate (fd file) length) fs in
      if negb (ret r =? 0) then Run (guac_rdp_fs_get_errorcode (errno r), fs)
      else Run (0, fs)
  end.

Definition guac_rdp_fs_close (fs : guac_rdp_fs) (file_id : Z) : run guac_rdp_fs :=
  match guac_rdp_fs_get_file file_id with
  | None => Run fs
  | Some i =>
      file ← file_at fs i;
      let fs := if dir file =? 0 then fs else snd (system (sys_closedir (dir file)) fs) in
      let fs := snd (system (sys_close (fd file)) fs) in
      let fs := put_file i (file <| absolute_path := Null |> <| real_path := Null |>) fs in
      pool ← guac_pool_free_int (file_id_pool fs) file_id;
      Run (fs <| file_id_pool := pool |> <| open_files := open_files fs - 1 |>)
  end.

(** The name of the next entry, [None] at the end or on failure. *)

Definition guac_rdp_fs_read_dir (fs : guac_rdp_fs) (file_id : Z)
    : run (option (list byte) * guac_rdp_fs) :=
  match guac_rdp_fs_get_file file_id with
  | None => Run (None, fs)
  | Some i =>
      file ← file_at fs i;
      let '(file, fs) :=
        if dir file =? 0 then
          let '(r, fs) := system (sys_fdopendir (fd file)) fs in
          let file := file <| dir := ret r |> in
          (file, put_file i file fs)
        else (file, fs) in
      if dir file =? 0 then Run (None, fs)
      else
        let '(r, fs) := system (sys_readdir (dir file)) fs in
        if ret r =? 0 then Run (None, fs) else Run (Some (data r), fs)
  end.

Definition guac_rdp_fs_matches (filename pattern : list byte) : bool :=
  negb (fnmatch pattern filename FNM_NOESCAPE =? 0).

(** Blocks available, blocks in all, and the size of a block. *)

Definition guac_rdp_fs_get_info (fs : guac_rdp_fs) : run (Z * option (Z * Z * Z) * guac_rdp_fs) :=
  drive ← use (drive_path fs);
  let '(r, fs) := system (sys_statvfs drive) fs in
  if negb (ret r =? 0) then Run (guac_rdp_fs_get_errorcode (errno r), None, fs)
  else
    let '(f_bfree, f_blocks, f_bsize) := statvfs_result r in
    Run (0, Some (i32 f_bfree, i32 f_blocks, i32 f_bsize), fs).

End operations.
