(* ===== verification/RdpFsSpec.v ===== *)
(** * The drive stays a drive

    Whatever sequence of requests an RDP server makes, as long as it only names files
    that are open (or numbers outside the table): no request fails to return, the files open
    have distinct numbers, and every path the system is asked about lies within the
    directory of the drive. *)

From S2P Require Import Prelude RecordUpdate CString LibString Mem Run Pool Paths RdpFs.
Local Open Scope Z_scope.

Local Abbreviation len l := (Z.of_nat (List.length l)).

(** ** Paths within a directory *)

(** How deep below a directory the components of a path lead; [None] when they leave it. *)

Fixpoint walk (depth : nat) (components : list (list byte)) : option nat :=
  match components with
  | [] => Some depth
  | c :: components =>
      if bool_decide (c = lit "..") then
        match depth with
        | O => None
        | S depth => walk depth components
        end
      else if bool_decide (c = lit "." ∨ c = []) then walk depth components
      else walk (S depth) components
  end.

Definition below (s : list byte) : Prop :=
  (x5c ∉ s) ∧ (s = [] ∨ head s = Some x2f) ∧ is_Some (walk 0 (fields s)).

Definition within (drive path : list byte) : Prop := ∃ s, path = drive ++ s ∧ below s.

Definition call_within (drive : list byte) (c : syscall) : Prop :=
  match c with
  | sys_mkdir path _ | sys_unlink path | sys_rmdir path | sys_statvfs path | sys_open path _ _ =>
      within drive path
  | sys_rename old new => within drive old ∧ within drive new
  | _ => True
  end.

(** ** Translated paths *)

Definition forward (c : byte) : byte := if bool_decide (c = x5c) then x2f else c.

Lemma copy_drive_path_spec n path :
  copy_drive_path n path = (take n path, n - length path)%nat.
Proof.
  revert n. induction path as [|c path IH]; intros [|n]; cbn [copy_drive_path take length]; try done.
  by rewrite IH.
Qed.

Lemma copy_virtual_path_spec n path : copy_virtual_path n path = take n (forward <$> path).
Proof.
  revert n. induction path as [|c path IH]; intros [|n]; cbn; try done. by rewrite IH.
Qed.

Lemma translate_path_spec drive path :
  __guac_rdp_fs_translate_path drive path
  = take (GUAC_RDP_FS_MAX_PATH - 1) (drive ++ (forward <$> path)).
Proof.
  unfold __guac_rdp_fs_translate_path. rewrite copy_drive_path_spec, copy_virtual_path_spec.
  by rewrite take_app.
Qed.

Lemma forward_plain c : plain c → forward <$> c = c.
Proof.
  induction 1 as [|x c Hx Hc IH]; [done|]. cbn. rewrite IH. f_equal. unfold forward.
  case_bool_decide; [by subst|done].
Qed.

Lemma forward_render components :
  Forall plain components → forward <$> render rdp_format components = x2f :: join [x2f] components.
Proof.
  intros H. unfold render. cbn [slash rdp_format]. rewrite fmap_cons. f_equal.
  destruct H as [|c l Hc Hl]; [done|]. cbn [join]. rewrite fmap_app, forward_plain by done. f_equal.
  induction Hl as [|x l Hx Hl IH]; [done|]. cbn [fmap list_fmap concat]. rewrite fmap_app. f_equal.
  - cbn [app]. rewrite fmap_cons, forward_plain by done. done.
  - exact IH.
Qed.

(** A path that was cut off: its last component may have become another one, but
    if something is left of the third character of the first, nothing leads outside. *)

Lemma plain_take n c : plain c → plain (take n c).
Proof. apply Forall_take. Qed.

Lemma cut_component n c : proper rdp_format c → (3 ≤ n)%nat → take n c ≠ lit "..".
Proof.
  intros (_ & _ & Hc & _) Hn E. apply Hc. rewrite <-E. rewrite take_ge; [done|].
  apply (f_equal length) in E. rewrite length_take in E. cbn in E. lia.
Qed.

Lemma walk_cut l : ∀ n depth,
  Forall (proper rdp_format) l → (3 ≤ n ∨ 0 < depth)%nat →
  is_Some (walk depth (fields (take n (join [x2f] l)))).
Proof.
  assert (Hone : ∀ n depth c, proper rdp_format c → (3 ≤ n ∨ 0 < depth)%nat →
    is_Some (walk depth [take n c])).
  { intros n depth c Hc Hn. cbn [walk]. case_bool_decide as E.
    - destruct depth; [|done]. destruct Hn as [Hn|]; [|lia]. by destruct (cut_component n c Hc Hn).
    - case_bool_decide; done. }
  destruct l as [|c l]; intros n depth Hl Hn.
  { cbn. rewrite take_nil. cbn. by case_bool_decide. }
  apply Forall_cons_iff in Hl as [Hc Hl]. cbn [join]. revert n depth c Hc Hn.
  induction Hl as [|x l Hx Hl IH]; intros n depth c Hc Hn; cbn [fmap list_fmap concat].
  { rewrite app_nil_r, fields_plain by (apply plain_take, Hc). by apply Hone. }
  rewrite take_app. destruct (Nat.le_gt_cases n (length c)) as [H|H].
  { replace (n - length c)%nat with O by lia. rewrite take_0, app_nil_r.
    rewrite fields_plain by (apply plain_take, Hc). by apply Hone. }
  rewrite take_ge by lia. destruct (n - length c)%nat as [|m] eqn:Em; [lia|].
  cbn [app take]. rewrite fields_app_sep by (done || apply Hc). cbn [walk].
  destruct Hc as (N1 & N2 & N3 & _). rewrite bool_decide_false by done.
  rewrite bool_decide_false by (by intros [?|?]). apply (IH m (S depth) x Hx). lia.
Qed.

Lemma join_no_backslash l : Forall plain l → x5c ∉ join [x2f] l.
Proof.
  assert (Hp : ∀ c, plain c → x5c ∉ c).
  { intros c Hc Hin. by pose proof (proj1 (list.Forall_forall _ c) Hc x5c Hin). }
  intros H. destruct H as [|c l Hc Hl]; cbn [join]; [apply not_elem_of_nil|].
  rewrite elem_of_app. intros [Hin|Hin]; [by apply (Hp c Hc)|].
  induction Hl as [|x l Hx Hl IH]; cbn in Hin; [by apply not_elem_of_nil in Hin|].
  apply elem_of_cons in Hin as [|Hin]; [done|].
  apply elem_of_app in Hin as [Hin|Hin]; [by apply (Hp x Hx)|by apply IH].
Qed.

Lemma elem_of_take_of {A} (x : A) n l : x ∈ take n l → x ∈ l.
Proof. intros H. rewrite <-(take_drop n l). apply elem_of_app. by left. Qed.

Lemma translate_within drive path :
  (length drive ≤ GUAC_RDP_FS_MAX_PATH - 5)%nat → normal rdp_format path →
  within drive (__guac_rdp_fs_translate_path drive path).
Proof.
  intros Hd (comps & [G _] & _ & ->). rewrite translate_path_spec.
  assert (P : Forall plain comps).
  { eapply Forall_impl; [|exact G]. intros c (_ & _ & _ & Hp & _). exact Hp. }
  rewrite forward_render by done. rewrite take_app, take_ge by lia.
  destruct (GUAC_RDP_FS_MAX_PATH - 1 - length drive)%nat as [|m] eqn:Em.
  { unfold GUAC_RDP_FS_MAX_PATH in *. lia. }
  eexists. split; [reflexivity|]. cbn [take]. split; [|split; [by right|]].
  - rewrite elem_of_cons. intros [|Hin]; [done|]. apply elem_of_take_of in Hin.
    by destruct (join_no_backslash comps P).
  - change (is_Some (walk 0 (fields (take m (join [x2f] comps))))).
    apply walk_cut; [done|]. left. unfold GUAC_RDP_FS_MAX_PATH in *. lia.
Qed.

Lemma drive_within drive : within drive drive.
Proof.
  exists []. rewrite app_nil_r. split; [done|]. split; [apply not_elem_of_nil|]. split; [by left|].
  cbn. by rewrite bool_decide_false.
Qed.

(** ** The state of a drive *)

Definition file_ok (drive : list byte) (i : nat) (f : guac_rdp_fs_file) : Prop :=
  id f = Z.of_nat i ∧
  ∃ a, normal rdp_format a ∧ absolute_path f = Valid a ∧
    real_path f = Valid (__guac_rdp_fs_translate_path drive a).

(** [used] are the numbers of the files that are open. *)

Record fs_ok (drive : list byte) (fs : guac_rdp_fs) (used : list Z) : Prop := {
  fs_ok_drive : drive_path fs = Valid drive;
  fs_ok_pool : pool_ok (file_id_pool fs) used;
  fs_ok_min : min_size (file_id_pool fs) = 0;
  fs_ok_next : __next_value (file_id_pool fs) ≤ GUAC_RDP_FS_MAX_FILES;
  fs_ok_count : open_files fs = len used;
  fs_ok_table : List.length (files fs) = Z.to_nat GUAC_RDP_FS_MAX_FILES;
  fs_ok_files : ∀ v, v ∈ used →
    ∃ f, files fs !! Z.to_nat v = Some (Some f) ∧ file_ok drive (Z.to_nat v) f;
  fs_ok_calls : Forall (call_within drive) (calls fs);
}.

Lemma fs_ok_range drive fs used v : fs_ok drive fs used → v ∈ used → 0 ≤ v < GUAC_RDP_FS_MAX_FILES.
Proof.
  intros H Hv. pose proof (fs_ok_next _ _ _ H). assert (0 ≤ v < __next_value (file_id_pool fs)); [|lia].
  apply (pool_ok_elem _ used v); [apply H|]. apply elem_of_app. by left.
Qed.

Lemma fs_ok_nodup drive fs used : fs_ok drive fs used → NoDup used.
Proof.
  intros H. pose proof (pool_ok_NoDup _ _ (fs_ok_pool _ _ _ H)) as Hnd.
  by apply list.NoDup_app in Hnd as (? & _).
Qed.

Lemma list_difference_not_in (l : list Z) v : v ∉ l → list_difference l [v] = l.
Proof.
  induction l as [|x l IH]; intros Hv; [done|]. apply not_elem_of_cons in Hv as [Hx Hv]. cbn.
  case_decide as E; [by apply list_elem_of_singleton in E|]. by rewrite IH.
Qed.

(** What the functions share: a call, a change to an open file. *)

Section operations.
  Context (respond : list syscall → syscall → response) (alloc : Z → bool).
  Context (drive : list byte) (Hdrive : (length drive ≤ GUAC_RDP_FS_MAX_PATH - 5)%nat).
  Context (Hnul : no_nul drive) (Hmem : ∀ n, alloc n = true).

Local Abbreviation ok := (fs_ok drive).

Lemma system_ok c fs used :
  call_within drive c → ok fs used → ok (snd (system respond c fs)) used.
Proof.
  intros Hc [H1 H2 H3 H4 H5 H6 H7 H8]. split; try done. cbn.
  apply Forall_app. split; [done|]. by constructor.
Qed.

Lemma put_file_ok v f fs used :
  v ∈ used → file_ok drive (Z.to_nat v) f → ok fs used → ok (put_file (Z.to_nat v) f fs) used.
Proof.
  intros Hv Hf H. pose proof (fs_ok_range _ _ _ v H Hv) as Hr. pose proof (fs_ok_table _ _ _ H) as Hl.
  destruct H as [H1 H2 H3 H4 H5 H6 H7 H8]. split; try done; cbn.
  { by rewrite length_insert. }
  intros w Hw. destruct (decide (Z.to_nat w = Z.to_nat v)) as [E|E].
  - rewrite E, list_lookup_insert_eq by lia. eauto.
  - rewrite list_lookup_insert_ne by done. by apply H7.
Qed.

Lemma get_file_ok v fs used :
  v ∈ used → ok fs used →
  guac_rdp_fs_get_file v = Some (Z.to_nat v) ∧
  ∃ f, file_at fs (Z.to_nat v) = Run f ∧ file_ok drive (Z.to_nat v) f.
Proof.
  intros Hv H. pose proof (fs_ok_range _ _ _ v H Hv) as Hr. split.
  - unfold guac_rdp_fs_get_file. rewrite (proj2 (Z.ltb_ge v 0)), (proj2 (Z.leb_gt _ v)) by lia. done.
  - destruct (fs_ok_files _ _ _ H v Hv) as (f & E & Hf). exists f. split; [|done].
    unfold file_at. by rewrite E.
Qed.

(** A request names an open file, or no file of the table. *)

Definition nameable (used : list Z) (file_id : Z) : Prop :=
  file_id ∈ used ∨ file_id < 0 ∨ GUAC_RDP_FS_MAX_FILES ≤ file_id.

Lemma nameable_cases fs used v :
  nameable used v → ok fs used →
  guac_rdp_fs_get_file v = None ∨
  v ∈ used ∧ guac_rdp_fs_get_file v = Some (Z.to_nat v) ∧
    ∃ f, file_at fs (Z.to_nat v) = Run f ∧ file_ok drive (Z.to_nat v) f.
Proof.
  intros [Hv|Hv] H; [right; split; [done|]; by apply (get_file_ok v fs used)|left].
  unfold guac_rdp_fs_get_file. destruct (Z.ltb_spec v 0), (Z.leb_spec GUAC_RDP_FS_MAX_FILES v); done || lia.
Qed.

Lemma file_within i f : file_ok drive i f →
  ∃ p, use (real_path f) = Run p ∧ within drive p.
Proof.
  intros (_ & a & Ha & _ & ->). eexists. split; [reflexivity|]. by apply translate_within.
Qed.

Lemma errorcode_negative e : guac_rdp_fs_get_errorcode e < 0.
Proof. unfold guac_rdp_fs_get_errorcode. by repeat case_match. Qed.

(** ** Each operation *)

Lemma fs_read_ok fs used v offset n :
  nameable used v → ok fs used →
  ∃ r d fs', guac_rdp_fs_read respond fs v offset n = Run (r, d, fs') ∧ ok fs' used.
Proof.
  intros Hn H. unfold guac_rdp_fs_read.
  destruct (nameable_cases fs used v Hn H) as [-> | (_ & -> & f & E & _)]; [by eexists _, _, _|].
  rewrite E, run_bind_run. unfold system. case_match; eexists _, _, _; (split; [reflexivity|]);
    by do 2 (apply (system_ok _ _ used); [done|]).
Qed.

Lemma fs_write_ok fs used v offset buffer n :
  nameable used v → ok fs used →
  ∃ r fs', guac_rdp_fs_write respond fs v offset buffer n = Run (r, fs') ∧ ok fs' used.
Proof.
  intros Hn H. unfold guac_rdp_fs_write.
  destruct (nameable_cases fs used v Hn H) as [-> | (Hv & -> & f & E & Hf)]; [by eexists _, _|].
  rewrite E, run_bind_run. unfold system. case_match; eexists _, _; (split; [reflexivity|]).
  - by do 2 (apply (system_ok _ _ used); [done|]).
  - apply put_file_ok; [done|exact Hf|]. by do 2 (apply (system_ok _ _ used); [done|]).
Qed.

Lemma fs_rename_ok fs used v path :
  nameable used v → no_nul path → ok fs used →
  ∃ r fs', guac_rdp_fs_rename respond fs v path = Run (r, fs') ∧ ok fs' used.
Proof.
  intros Hn Hp H. unfold guac_rdp_fs_rename.
  destruct (nameable_cases fs used v Hn H) as [-> | (Hv & -> & f & E & Hf)]; [by eexists _, _|].
  destruct (guac_rdp_fs_normalize_path path) as [a|] eqn:Ea; [|by eexists _, _].
  rewrite (fs_ok_drive _ _ _ H). cbn [use]. rewrite run_bind_run, E, run_bind_run.
  destruct (file_within _ f Hf) as (p & -> & Hw). rewrite run_bind_run. unfold system.
  assert (Hc : call_within drive (sys_rename p (__guac_rdp_fs_translate_path drive a))).
  { split; [done|]. apply translate_within; [done|]. by apply (rdp_normal_input path). }
  case_match; eexists _, _; (split; [reflexivity|]); by apply (system_ok _ _ used Hc).
Qed.

Lemma fs_delete_ok fs used v :
  nameable used v → ok fs used →
  ∃ r fs', guac_rdp_fs_delete respond fs v = Run (r, fs') ∧ ok fs' used.
Proof.
  intros Hn H. unfold guac_rdp_fs_delete.
  destruct (nameable_cases fs used v Hn H) as [-> | (Hv & -> & f & E & Hf)]; [by eexists _, _|].
  rewrite E, run_bind_run. destruct (file_within _ f Hf) as (p & -> & Hw). rewrite run_bind_run.
  unfold system. destruct (flag (attributes f) FILE_ATTRIBUTE_DIRECTORY);
    case_match; eexists _, _; (split; [reflexivity|]); by apply (system_ok _ _ used).
Qed.

Lemma fs_truncate_ok fs used v n :
  nameable used v → ok fs used →
  ∃ r fs', guac_rdp_fs_truncate respond fs v n = Run (r, fs') ∧ ok fs' used.
Proof.
  intros Hn H. unfold guac_rdp_fs_truncate.
  destruct (nameable_cases fs used v Hn H) as [-> | (Hv & -> & f & E & Hf)]; [by eexists _, _|].
  rewrite E, run_bind_run. unfold system.
  case_match; eexists _, _; (split; [reflexivity|]); by apply (system_ok _ _ used).
Qed.

Lemma read_dir_ok fs used v :
  nameable used v → ok fs used →
  ∃ r fs', guac_rdp_fs_read_dir respond fs v = Run (r, fs') ∧ ok fs' used.
Proof.
  intros Hn H. unfold guac_rdp_fs_read_dir.
  destruct (nameable_cases fs used v Hn H) as [-> | (Hv & -> & f & E & Hf)]; [by eexists _, _|].
  rewrite E, run_bind_run. destruct (Z.eqb_spec (dir f) 0) as [Ed|Ed]; unfold system.
  - cbn [dir set]. set (fs' := put_file _ _ _).
    assert (H' : ok fs' used). { apply put_file_ok; [done|exact Hf|]. by apply (system_ok _ _ used). }
    clearbody fs'. repeat case_match; eexists _, _; (split; [reflexivity|]); try done;
      by apply (system_ok _ _ used).
  - repeat case_match; eexists _, _; (split; [reflexivity|]); try done; by apply (system_ok _ _ used).
Qed.

Lemma fs_info_ok fs used :
  ok fs used → ∃ r i fs', guac_rdp_fs_get_info respond fs = Run (r, i, fs') ∧ ok fs' used.
Proof.
  intros H. unfold guac_rdp_fs_get_info. rewrite (fs_ok_drive _ _ _ H). cbn [use].
  rewrite run_bind_run. unfold system.
  repeat case_match; eexists _, _, _; (split; [reflexivity|]); apply (system_ok _ _ used); try done;
    apply drive_within.
Qed.

(** ** Opening and closing *)

Lemma strdup_valid s :
  no_nul s → (length s ≤ GUAC_RDP_FS_MAX_PATH)%nat → string_of (guac_strdup alloc (Some s)) = Valid s.
Proof.
  intros Hs Hl. rewrite strdup_block; [|done|unfold SIZE_MAX, GUAC_RDP_FS_MAX_PATH in *; lia].
  rewrite Hmem. cbn [string_of]. by rewrite c_str_app.
Qed.

Lemma normal_no_nul a : normal rdp_format a → no_nul a ∧ (length a ≤ GUAC_RDP_FS_MAX_PATH)%nat.
Proof.
  intros (comps & G & W & ->). split; [by apply render_no_nul; [apply _|]|].
  unfold render. cbn [length]. rewrite length_join. cbn [max_path rdp_format] in W.
  unfold GUAC_RDP_FS_MAX_PATH in *. lia.
Qed.

Lemma translate_no_nul a :
  normal rdp_format a →
  no_nul (__guac_rdp_fs_translate_path drive a)
  ∧ (length (__guac_rdp_fs_translate_path drive a) ≤ GUAC_RDP_FS_MAX_PATH)%nat.
Proof.
  intros [Ha _]%normal_no_nul. rewrite translate_path_spec. split.
  - apply Forall_take, no_nul_app. split; [exact Hnul|]. apply Forall_fmap.
    eapply Forall_impl; [|exact Ha]. intros c Hc. cbn. unfold forward. by case_bool_decide.
  - rewrite length_take. unfold GUAC_RDP_FS_MAX_PATH. lia.
Qed.

Lemma register_file_ok fs used a fd :
  normal rdp_format a → open_files fs < GUAC_RDP_FS_MAX_FILES → ok fs used →
  ∃ v fs', register_file respond alloc a (__guac_rdp_fs_translate_path drive a) fd fs = Run (v, fs') ∧
    0 ≤ v ∧ (v ∉ used) ∧ ok fs' (v :: used).
Proof.
  intros Ha Hroom H. pose proof H as [H1 H2 H3 H4 H5 H6 H7 H8].
  destruct (next_below_ok (file_id_pool fs) used GUAC_RDP_FS_MAX_FILES H2)
    as [[? _]|(_ & v & pool' & E & Hp & Hv & Hr & Hm & Hn)];
    [lia|unfold INT_MAX, GUAC_RDP_FS_MAX_FILES in *; lia|lia|].
  unfold register_file, guac_pool_next_int_below_or_die. rewrite E, run_bind_run. cbn [fst].
  unfold GUAC_ASSERT. rewrite (proj2 (Z.leb_le 0 v)) by lia. rewrite !run_bind_run.
  destruct (normal_no_nul a Ha) as [A1 A2]. destruct (translate_no_nul a Ha) as [B1 B2].
  rewrite !strdup_valid by done. unfold system.
  eexists v, _. split; [reflexivity|]. split; [lia|]. split; [done|].
  set (f := if ret _ =? 0 then _ else _).
  assert (Hf : file_ok drive (Z.to_nat v) f).
  { unfold f. case_match; (split; [cbn; lia|]); by exists a. }
  clearbody f. split; cbn; try done.
  - congruence.
  - lia.
  - by rewrite length_insert.
  - intros w [-> |Hw]%elem_of_cons.
    + rewrite list_lookup_insert_eq by (unfold GUAC_RDP_FS_MAX_FILES in *; lia). eauto.
    + pose proof (fs_ok_range _ _ _ w H Hw). rewrite list_lookup_insert_ne; [by apply H7|].
      intros Ew. apply Hv. by replace v with w by lia.
  - apply Forall_app. split; [done|]. by constructor.
Qed.

Lemma create_directory_ok options flags p fs used :
  within drive p → ok fs used → ok (snd (create_directory respond options flags p fs)) used.
Proof.
  intros Hw H. unfold create_directory, system. destruct (flag _ _ && flag _ _); [|done].
  case_match; by apply (system_ok _ _ used).
Qed.

Lemma open_native_ok flags p fs used :
  within drive p → ok fs used → ok (snd (open_native respond flags p fs)) used.
Proof.
  intros Hw H. unfold open_native, system. case_match; [|by apply (system_ok _ _ used)].
  by do 2 (apply (system_ok _ _ used); [done|]).
Qed.

Lemma system_open_files c fs : open_files (snd (system respond c fs)) = open_files fs.
Proof. done. Qed.

Lemma create_directory_open_files options flags p fs :
  open_files (snd (create_directory respond options flags p fs)) = open_files fs.
Proof. unfold create_directory, system. by repeat case_match. Qed.

Lemma open_native_open_files flags p fs :
  open_files (snd (open_native respond flags p fs)) = open_files fs.
Proof. unfold open_native, system. by repeat case_match. Qed.

(** An error, or the number of a file that was not open. *)

Lemma fs_open_ok fs used path access disposition options :
  no_nul path → ok fs used →
  ∃ r fs', guac_rdp_fs_open respond alloc fs path access disposition options = Run (r, fs') ∧
    (r < 0 ∧ ok fs' used ∨ 0 ≤ r ∧ (r ∉ used) ∧ ok fs' (r :: used)).
Proof.
  intros Hp H. unfold guac_rdp_fs_open.
  destruct (Z.leb_spec GUAC_RDP_FS_MAX_FILES (open_files fs)) as [|Hroom];
    [eexists _, _; split; [reflexivity|by left]|].
  set (path' := match path with [] => _ | _ => path end).
  assert (Hp' : no_nul path'). { destruct path; [by repeat constructor|done]. }
  clearbody path'. destruct (negb (is_separator (mem_at path' 0)));
    [eexists _, _; split; [reflexivity|by left]|].
  destruct (guac_rdp_fs_normalize_path path') as [a|] eqn:Ea;
    [|eexists _, _; split; [reflexivity|by left]].
  assert (Ha : normal rdp_format a) by (by apply (rdp_normal_input path')).
  pose proof (translate_within drive a Hdrive Ha) as Hw.
  rewrite (fs_ok_drive _ _ _ H). cbn [use]. rewrite run_bind_run.
  destruct (disposition_flags _ _) as [flags|]; [|eexists _, _; split; [reflexivity|by left]].
  set (fs1 := if disposition =? FILE_SUPERSEDE then _ else fs).
  assert (H1 : ok fs1 used ∧ open_files fs1 = open_files fs).
  { unfold fs1. case_match; [|done]. split; [by apply (system_ok _ _ used)|done]. }
  clearbody fs1. destruct H1 as [H1 O1].
  pose proof (create_directory_ok options flags _ fs1 used Hw H1) as H2.
  pose proof (create_directory_open_files options flags
    (__guac_rdp_fs_translate_path drive a) fs1) as O2.
  destruct (create_directory _ _ _ _ _) as [[e|flags'] fs2] eqn:E2; cbn [snd] in *.
  { eexists _, _. split; [reflexivity|]. left. split; [|done]. revert E2.
    unfold create_directory, system. repeat case_match; intros [= <- _]. apply errorcode_negative. }
  pose proof (open_native_ok flags' _ fs2 used Hw H2) as H3.
  pose proof (open_native_open_files flags' (__guac_rdp_fs_translate_path drive a) fs2) as O3.
  destruct (open_native _ _ _ _) as [r fs3]. cbn [snd] in *.
  destruct (ret r =? -1).
  { eexists _, _. split; [reflexivity|]. left. split; [apply errorcode_negative|done]. }
  destruct (register_file_ok fs3 used a (ret r) Ha) as (v & fs' & E & Hv & Hn & Hok); [lia|done|].
  exists v, fs'. split; [exact E|]. right. done.
Qed.

Lemma fs_close_ok fs used v :
  nameable used v → ok fs used →
  ∃ fs', guac_rdp_fs_close respond fs v = Run fs' ∧ ok fs' (list_difference used [v]).
Proof.
  intros Hn H. unfold guac_rdp_fs_close.
  destruct (nameable_cases fs used v Hn H) as [E0 | (Hv & -> & f & E & Hf)].
  { rewrite E0. exists fs. split; [done|]. rewrite list_difference_not_in; [done|].
    intros Hv. pose proof (get_file_ok v fs used Hv H) as [? _]. congruence. }
  rewrite E, run_bind_run. set (fs1 := if dir f =? 0 then fs else _).
  assert (H1 : ok fs1 used). { unfold fs1. case_match; [done|by apply (system_ok _ _ used)]. }
  clearbody fs1. apply (system_ok (sys_close (fd f)) fs1 used) in H1; [|done].
  set (fs2 := snd (system respond (sys_close (fd f)) fs1)) in *. clearbody fs2.
  pose proof (fs_ok_nodup _ _ _ H1) as Hnd. pose proof (fs_ok_range _ _ _ v H1 Hv) as Hr.
  pose proof H1 as [D1 D2 D3 D4 D5 D6 D7 D8].
  destruct (free_ok _ used v D2 Hv) as (pool' & used' & Ep & Eu & Hp' & _ & En & Em).
  pose proof (NoDup_list_difference_one used v used' Hnd Eu) as Hperm.
  cbn [file_id_pool put_file set]. rewrite Ep, run_bind_run. eexists. split; [reflexivity|].
  split; cbn; try done.
  - destruct Hp' as [P1 P2 P3]. split; [by rewrite Hperm|done|by rewrite Hperm].
  - congruence.
  - congruence.
  - rewrite Hperm, D5, Eu. cbn. lia.
  - by rewrite length_insert.
  - intros w [Hw Hwv]%list_elem_of_difference. rewrite list_elem_of_singleton in Hwv.
    pose proof (fs_ok_range _ _ _ w H1 Hw). rewrite list_lookup_insert_ne by lia. by apply D7.
Qed.

End operations.

(** ** Sessions *)

Inductive fs_request :=
| req_open (path : list byte) (access disposition options : Z)
| req_read (file_id offset length : Z)
| req_write (file_id offset : Z) (buffer : list byte) (length : Z)
| req_rename (file_id : Z) (path : list byte)
| req_delete (file_id : Z)
| req_truncate (file_id length : Z)
| req_close (file_id : Z)
| req_read_dir (file_id : Z)
| req_info.

(** The drive and the numbers of the files that are open, after a request. *)

Definition request (respond : list syscall → syscall → response) (alloc : Z → bool)
    (req : fs_request) (s : guac_rdp_fs * list Z) : run (guac_rdp_fs * list Z) :=
  let '(fs, used) := s in
  match req with
  | req_open path access disposition options =>
      '(r, fs) ← guac_rdp_fs_open respond alloc fs path access disposition options;
      Run (fs, if r <? 0 then used else r :: used)
  | req_read file_id offset length =>
      '(_, fs) ← guac_rdp_fs_read respond fs file_id offset length; Run (fs, used)
  | req_write file_id offset buffer length =>
      '(_, fs) ← guac_rdp_fs_write respond fs file_id offset buffer length; Run (fs, used)
  | req_rename file_id path => '(_, fs) ← guac_rdp_fs_rename respond fs file_id path; Run (fs, used)
  | req_delete file_id => '(_, fs) ← guac_rdp_fs_delete respond fs file_id; Run (fs, used)
  | req_truncate file_id length =>
      '(_, fs) ← guac_rdp_fs_truncate respond fs file_id length; Run (fs, used)
  | req_close file_id =>
      fs ← guac_rdp_fs_close respond fs file_id; Run (fs, list_difference used [file_id])
  | req_read_dir file_id => '(_, fs) ← guac_rdp_fs_read_dir respond fs file_id; Run (fs, used)
  | req_info => '(_, fs) ← guac_rdp_fs_get_info respond fs; Run (fs, used)
  end.

Fixpoint requests (respond : list syscall → syscall → response) (alloc : Z → bool)
    (reqs : list fs_request) (s : guac_rdp_fs * list Z) : run (guac_rdp_fs * list Z) :=
  match reqs with
  | [] => Run s
  | req :: reqs => s ← request respond alloc req s; requests respond alloc reqs s
  end.

(** The files a request names are open, or not of the table; its paths are C strings. *)

Definition fair (req : fs_request) (used : list Z) : Prop :=
  match req with
  | req_open path _ _ _ => no_nul path
  | req_rename file_id path => nameable used file_id ∧ no_nul path
  | req_read file_id _ _ | req_write file_id _ _ _ | req_delete file_id | req_truncate file_id _
  | req_close file_id | req_read_dir file_id => nameable used file_id
  | req_info => True
  end.

Fixpoint all_fair (respond : list syscall → syscall → response) (alloc : Z → bool)
    (reqs : list fs_request) (s : guac_rdp_fs * list Z) : Prop :=
  match reqs with
  | [] => True
  | req :: reqs =>
      fair req (snd s) ∧
      match request respond alloc req s with
      | Run s => all_fair respond alloc reqs s
      | _ => True
      end
  end.

#[export] Instance nameable_dec used file_id : Decision (nameable used file_id).
Proof. unfold nameable. apply _. Defined.

#[export] Instance fair_dec req used : Decision (fair req used).
Proof. destruct req; cbn; unfold no_nul; apply _. Defined.

#[export] Instance all_fair_dec respond alloc reqs s : Decision (all_fair respond alloc reqs s).
Proof.
  revert s. induction reqs as [|req reqs IH]; intros s; cbn; [apply _|].
  apply and_dec; [apply _|]. destruct (request respond alloc req s); apply _.
Defined.

Section sessions.
  Context (respond : list syscall → syscall → response) (alloc : Z → bool).
  Context (drive : list byte) (Hdrive : (length drive ≤ GUAC_RDP_FS_MAX_PATH - 5)%nat).
  Context (Hnul : no_nul drive) (Hmem : ∀ n, alloc n = true).

Lemma request_ok req fs used :
  fair req used → fs_ok drive fs used →
  ∃ fs' used', request respond alloc req (fs, used) = Run (fs', used') ∧ fs_ok drive fs' used'.
Proof.
  intros Hf H. destruct req; cbn [request fair] in *.
  - destruct (fs_open_ok respond alloc drive Hdrive Hnul Hmem fs used path access disposition options Hf H)
      as (r & fs' & -> & [[Hr Hok] | (Hr & _ & Hok)]); rewrite run_bind_run.
    + rewrite (proj2 (Z.ltb_lt r 0) Hr). eauto.
    + rewrite (proj2 (Z.ltb_ge r 0) Hr). eauto.
  - destruct (fs_read_ok respond drive Hdrive fs used file_id offset length Hf H) as (? & ? & ? & -> & ?).
    rewrite run_bind_run. eauto.
  - destruct (fs_write_ok respond drive Hdrive fs used file_id offset buffer length Hf H) as (? & ? & -> & ?).
    rewrite run_bind_run. eauto.
  - destruct Hf as [Hf Hp].
    destruct (fs_rename_ok respond drive Hdrive fs used file_id path Hf Hp H) as (? & ? & -> & ?).
    rewrite run_bind_run. eauto.
  - destruct (fs_delete_ok respond drive Hdrive fs used file_id Hf H) as (? & ? & -> & ?).
    rewrite run_bind_run. eauto.
  - destruct (fs_truncate_ok respond drive Hdrive fs used file_id length Hf H) as (? & ? & -> & ?).
    rewrite run_bind_run. eauto.
  - destruct (fs_close_ok respond drive Hdrive fs used file_id Hf H) as (? & -> & ?).
    rewrite run_bind_run. eauto.
  - destruct (read_dir_ok respond drive Hdrive fs used file_id Hf H) as (? & ? & -> & ?).
    rewrite run_bind_run. eauto.
  - destruct (fs_info_ok respond drive fs used H) as (? & ? & ? & -> & ?).
    rewrite run_bind_run. eauto.
Qed.

Lemma requests_ok reqs : ∀ fs used,
  all_fair respond alloc reqs (fs, used) → fs_ok drive fs used →
  ∃ fs' used', requests respond alloc reqs (fs, used) = Run (fs', used') ∧ fs_ok drive fs' used'.
Proof.
  induction reqs as [|req reqs IH]; intros fs used Hf H; [by exists fs, used|].
  cbn [requests all_fair snd] in *. destruct Hf as [Hr Hf].
  destruct (request_ok req fs used Hr H) as (fs' & used' & E & H'). rewrite E, run_bind_run in *.
  by apply IH.
Qed.

Lemma alloc_fs_ok create download upload :
  fs_ok drive (guac_rdp_fs_alloc respond alloc drive create download upload) [].
Proof.
  assert (E : string_of (guac_strdup alloc (Some drive)) = Valid drive).
  { apply (strdup_valid alloc drive Hdrive Hmem); [done|]. unfold GUAC_RDP_FS_MAX_PATH in *. lia. }
  unfold guac_rdp_fs_alloc. rewrite E.
  destruct create; split; cbn; try done; try apply alloc_ok; try (intros ? []%not_elem_of_nil).
  - constructor; [|constructor]. apply drive_within.
Qed.

End sessions.

(** C8.  Whatever the system answers, a session of requests that name open files (or numbers outside the
    table) runs to its end without an undefined access and without a failed assertion; the files that are
    open have distinct numbers below 128 and [open_files] counts them; and every path that
    was given to the system is that of the drive followed by one that does not lead out of it,
    provided that the path of the drive has no more than 4091 bytes and that memory is available. *)
Theorem drive_session_safe respond alloc drive create download upload reqs :
  (length drive ≤ GUAC_RDP_FS_MAX_PATH - 5)%nat → no_nul drive → (∀ n, alloc n = true) →
  let fs := guac_rdp_fs_alloc respond alloc drive create download upload in
  all_fair respond alloc reqs (fs, []) →
  ∃ fs' used, requests respond alloc reqs (fs, []) = Run (fs', used) ∧
    NoDup used ∧ Forall (λ v, 0 ≤ v < GUAC_RDP_FS_MAX_FILES) used ∧ open_files fs' = len used ∧
    Forall (call_within drive) (calls fs').
Proof.
  intros Hd Hn Hm fs Hf.
  destruct (requests_ok respond alloc drive Hd Hn Hm reqs fs [] Hf) as (fs' & used & E & H).
  { by apply alloc_fs_ok. }
  exists fs', used. split; [done|]. split; [by apply (fs_ok_nodup drive fs')|].
  split; [|split; apply H]. apply list.Forall_forall. intros v. by apply (fs_ok_range drive fs').
Qed.

(** A system that opens everything, and a session on it. *)

Definition sample_respond (calls : list syscall) (c : syscall) : response :=
  mk_response (match c with sys_open _ _ _ | sys_fdopendir _ | sys_readdir _ => 3 + len calls | _ => 0 end)
    0 (mk_stat 0x8000 5 1 2 3) (10, 20, 512) (lit "name").

Definition sample_session : list fs_request :=
  [req_open (lit "\..\../etc/passwd") GENERIC_READ FILE_OPEN 0;
   req_open (lit "\docs\") GENERIC_ALL FILE_OPEN_IF FILE_DIRECTORY_FILE;
   req_write 0 7 (lit "hello") 5; req_rename 0 (lit "\docs\..\x"); req_read_dir 1; req_close 0;
   req_open (lit "relative") GENERIC_READ FILE_OPEN 0; req_delete 500;
   req_open (lit "") GENERIC_WRITE FILE_SUPERSEDE 0].

Lemma drive_session_safe_witness :
  let fs := guac_rdp_fs_alloc sample_respond (λ _, true) (lit "/drive") true false false in
  ∃ fs' used, requests sample_respond (λ _, true) sample_session (fs, []) = Run (fs', used) ∧
    NoDup used ∧ Forall (λ v, 0 ≤ v < GUAC_RDP_FS_MAX_FILES) used ∧ open_files fs' = len used ∧
    Forall (call_within (lit "/drive")) (calls fs').
Proof.
  apply (drive_session_safe sample_respond (λ _, true) (lit "/drive") true false false sample_session).
  - unfold GUAC_RDP_FS_MAX_PATH. cbn. lia.
  - by apply (bool_decide_unpack _); vm_compute.
  - done.
  - by apply (bool_decide_unpack _); vm_compute.
Defined.

(** ** What the requests of a session may not do, and what the code does when they do *)

(** The calls that close a file, whether it is open or not. *)

Definition closing (f : guac_rdp_fs_file) : list syscall :=
  (if dir f =? 0 then [] else [sys_closedir (dir f)]) ++ [sys_close (fd f)].

Lemma close_calls respond fs v i f :
  guac_rdp_fs_get_file v = Some i → file_at fs i = Run f →
  guac_rdp_fs_close respond fs v =
    (pool ← guac_pool_free_int (file_id_pool fs) v;
     Run (put_file i (f <| absolute_path := Null |> <| real_path := Null |>) fs
            <| calls := calls fs ++ closing f |> <| file_id_pool := pool |>
            <| open_files := open_files fs - 1 |>)).
Proof.
  intros Hi Hf. unfold guac_rdp_fs_close, closing. rewrite Hi, Hf, run_bind_run.
  destruct (dir f =? 0); cbn; [done|]. by rewrite <-app_assoc.
Qed.

(** Closing a file twice: the calls are made twice; the process is aborted if no other file is open, and
    the number is given back twice if one is. *)

Lemma close_twice respond drive (Hd : (length drive ≤ GUAC_RDP_FS_MAX_PATH - 5)%nat) fs used v :
  v ∈ used → fs_ok drive fs used →
  ∃ f fs1, file_at fs (Z.to_nat v) = Run f ∧ guac_rdp_fs_close respond fs v = Run fs1 ∧
    calls fs1 = calls fs ++ closing f ∧
    (len used = 1 → guac_rdp_fs_close respond fs1 v = Abort) ∧
    (1 < len used → ∃ fs2, guac_rdp_fs_close respond fs1 v = Run fs2 ∧
      calls fs2 = calls fs1 ++ closing f ∧ open_files fs2 = open_files fs - 2 ∧
      file_id_pool fs2 = (file_id_pool fs) <| active := active (file_id_pool fs) - 1 - 1 |>
        <| freed := (freed (file_id_pool fs) ++ [v]) ++ [v] |>).
Proof.
  intros Hin H. destruct (get_file_ok drive Hd v fs used Hin H) as (Eg & f & Ef & Hid & _).
  pose proof (fs_ok_range _ _ _ v H Hin) as Hrange. pose proof (fs_ok_table _ _ _ H) as Hl.
  pose proof (pool_ok_active _ _ (fs_ok_pool _ _ _ H)) as Ha.
  assert (0 < len used). { destruct used; [by apply not_elem_of_nil in Hin|cbn; lia]. }
  exists f. rewrite (close_calls _ _ _ _ _ Eg Ef). unfold guac_pool_free_int at 1.
  rewrite assert_true by (apply Z.ltb_lt; lia). rewrite !run_bind_run. eexists. split; [done|]. split; [done|].
  split; [done|].
  set (f' := f <| absolute_path := Null |> <| real_path := Null |>).
  assert (Ef' : ∀ fs1, files fs1 = <[Z.to_nat v := Some f']> (files fs) → file_at fs1 (Z.to_nat v) = Run f').
  { intros fs1 E. unfold file_at. by rewrite E, list_lookup_insert_eq by (unfold GUAC_RDP_FS_MAX_FILES in *; lia). }
  match goal with |- context [guac_rdp_fs_close _ ?fs1 _] => rewrite (close_calls respond fs1 _ _ f' Eg (Ef' fs1 eq_refl)) end. unfold guac_pool_free_int. cbn. split; intros Hu.
  - by rewrite (proj2 (Z.ltb_ge 0 _)) by lia.
  - rewrite (proj2 (Z.ltb_lt 0 _)) by lia. eexists. split; [done|]. split_and!; [done|cbn; lia|done].
Qed.

(** A file that is opened has the next number of the pool, whatever the state. *)

Lemma open_number respond alloc fs path access disposition options r fs' :
  guac_rdp_fs_open respond alloc fs path access disposition options = Run (r, fs') → 0 ≤ r →
  guac_pool_next_int_below_or_die (file_id_pool fs) GUAC_RDP_FS_MAX_FILES = Run (r, file_id_pool fs').
Proof.
  unfold guac_rdp_fs_open. intros E Hr.
  assert (Herr : ∀ e fs0, Run (guac_rdp_fs_get_errorcode e, fs0) = Run (r, fs') → False).
  { intros e fs0 [= <- _]. pose proof (errorcode_negative e). lia. }
  destruct (_ <=? _); [by injection E as <- _|].
  destruct (negb _); [by injection E as <- _|].
  destruct (guac_rdp_fs_normalize_path _) as [a|]; [|by injection E as <- _].
  apply run_bind_inv in E as (drive & _ & E). cbv zeta in E.
  generalize dependent (__guac_rdp_fs_translate_path drive a). intros p E.
  destruct (disposition_flags _ _) as [flags|]; [|by injection E as <- _].
  set (fs1 := if disposition =? FILE_SUPERSEDE then _ else fs) in E.
  assert (E1 : file_id_pool fs1 = file_id_pool fs) by (unfold fs1; by destruct (disposition =? FILE_SUPERSEDE)). clearbody fs1.
  destruct (create_directory _ _ _ _ _) as [[e|flags'] fs2] eqn:E2.
  { revert E2. unfold create_directory, system. repeat case_match; intros [= <- <-]; by apply Herr in E. }
  assert (E3 : file_id_pool fs2 = file_id_pool fs1).
  { revert E2. unfold create_directory, system. repeat case_match; by intros [= _ <-]. }
  destruct (open_native _ _ _ _) as [o fs3] eqn:E4.
  assert (E5 : file_id_pool fs3 = file_id_pool fs2).
  { revert E4. unfold open_native, system. repeat case_match; by intros [= _ <-]. }
  destruct (ret o =? -1); [by apply Herr in E|]. unfold register_file in E.
  apply run_bind_inv in E as ([n pool] & E6 & E). rewrite E5, E3, E1 in E6. rewrite E6.
  destruct (system _ _ _) as [st fs4] eqn:E7. injection E as -> <-. f_equal. f_equal.
  unfold system in E7. injection E7 as _ <-. reflexivity.
Qed.

(** A fresh drive on which two files are opened. *)

Lemma opened_ok respond alloc drive (Hd : (length drive ≤ GUAC_RDP_FS_MAX_PATH - 5)%nat) (Hn : no_nul drive)
    (Hm : ∀ n, alloc n = true) path access disposition options fs used fs' v rest :
  fs_ok drive fs used → no_nul path →
  request respond alloc (req_open path access disposition options) (fs, used) = Run (fs', v :: rest) →
  rest = used → fs_ok drive fs' (v :: used) ∧
    guac_pool_next_int_below_or_die (file_id_pool fs) GUAC_RDP_FS_MAX_FILES = Run (v, file_id_pool fs').
Proof.
  intros H Hp E ->. cbn [request] in E.
  destruct (fs_open_ok respond alloc drive Hd Hn Hm fs used path access disposition options Hp H)
    as (r & fs1 & E1 & Hr). rewrite E1, run_bind_run in E.
  destruct Hr as [[Hneg _] | (Hr & _ & H1)].
  - rewrite (proj2 (Z.ltb_lt r 0) Hneg) in E. injection E as _ E. exfalso. apply (f_equal List.length) in E. cbn in E. lia.
  - rewrite (proj2 (Z.ltb_ge r 0) Hr) in E. injection E as -> ->. split; [done|].
    by apply (open_number respond alloc fs path access disposition options).
Qed.


