(* ===== verification/Iconv.v ===== *)
(** * Converting text between encodings (src/src/common/iconv.c)

    A reader takes a character from the input, a writer puts one into the output;
    [guac_iconv] moves characters from one to the other until a null terminator, the
    end of the input or the end of the output.

    The input is the memory from the pointer on: reading behind its end is a fault,
    and so is using the value that a reader leaves uninitialised.  The output is what was
    written so far. *)

From S2P Require Import Prelude Unicode Run.
Local Open Scope Z_scope.

Local Abbreviation len l := (Z.of_nat (List.length l)).

(** ** The code *)

Definition __GUAC_RDP_CP1252_CODEPOINT : list Z :=
  [0x20AC; 0xFFFD; 0x201A; 0x0192; 0x201E; 0x2026; 0x2020; 0x2021;
   0x02C6; 0x2030; 0x0160; 0x2039; 0x0152; 0xFFFD; 0x017D; 0xFFFD;
   0xFFFD; 0x2018; 0x2019; 0x201C; 0x201D; 0x2022; 0x2013; 0x2014;
   0x02DC; 0x2122; 0x0161; 0x203A; 0x0153; 0xFFFD; 0x017E; 0x0178].

(** What is left of the input, in memory and by count: the character read, and by how much the pointer
    advances. *)

Definition guac_iconv_read : Type := list byte → Z → run (Z * nat).

(** How many bytes may be written, and the character: what is stored behind the output. *)

Definition guac_iconv_write : Type := Z → Z → list byte.

Definition byte_at (input : list byte) (i : nat) : run Z := c ← deref (input !! i); Run (bz c).

(** A truncated character leaves [value] unset. *)

Definition GUAC_READ_UTF8 : guac_iconv_read := λ input remaining,
  match guac_utf8_read input remaining with
  | (n, Some value) => Run (value, Z.to_nat n)
  | (n, None) => Fault
  end.

Definition GUAC_READ_UTF16 : guac_iconv_read := λ input remaining,
  if remaining <? 2 then Run (0, O)
  else
    low ← byte_at input 0; high ← byte_at input 1;
    Run (low + 256 * high, 2%nat).

Definition cp1252_value (value : Z) : Z :=
  if (0x80 <=? value) && (value <=? 0x9F)
  then nth (Z.to_nat (value - 0x80)) __GUAC_RDP_CP1252_CODEPOINT 0 else value.

Definition GUAC_READ_CP1252 : guac_iconv_read := λ input remaining,
  value ← byte_at input 0; Run (cp1252_value value, 1%nat).

Definition GUAC_READ_ISO8859_1 : guac_iconv_read := λ input remaining,
  value ← byte_at input 0; Run (value, 1%nat).

Definition guac_iconv_read_normalized (reader : guac_iconv_read) : guac_iconv_read :=
  λ input remaining,
  '(value, n) ← reader input remaining;
  if value =? 0x0D then
    '(peek_value, m) ← reader (drop n input) (remaining - Z.of_nat n);
    if peek_value =? 0x0A then Run (0x0A, (n + m)%nat) else Run (value, n)
  else Run (value, n).

Definition GUAC_READ_UTF8_NORMALIZED := guac_iconv_read_normalized GUAC_READ_UTF8.
Definition GUAC_READ_UTF16_NORMALIZED := guac_iconv_read_normalized GUAC_READ_UTF16.
Definition GUAC_READ_CP1252_NORMALIZED := guac_iconv_read_normalized GUAC_READ_CP1252.
Definition GUAC_READ_ISO8859_1_NORMALIZED := guac_iconv_read_normalized GUAC_READ_ISO8859_1.

Definition GUAC_WRITE_UTF8 : guac_iconv_write := λ remaining value,
  snd (guac_utf8_write value remaining).

Definition GUAC_WRITE_UTF16 : guac_iconv_write := λ remaining value,
  if remaining <? 2 then [] else [zb value; zb (value `div` 256)].

(** The place of a code point in the table, from [i] on. *)

Fixpoint cp1252_index (table : list Z) (i value : Z) : option Z :=
  match table with
  | [] => None
  | codepoint :: table =>
      if codepoint =? value then Some i else cp1252_index table (i + 1) value
  end.

Definition GUAC_WRITE_CP1252 : guac_iconv_write := λ remaining value,
  let value :=
    if ((0x80 <=? value) && (value <=? 0x9F)) || (0xFF <? value)
    then default 0x3F (cp1252_index __GUAC_RDP_CP1252_CODEPOINT 0x80 value)
    else value in
  [zb value].

Definition GUAC_WRITE_ISO8859_1 : guac_iconv_write := λ remaining value,
  [zb (if 0xFF <? value then 0x3F else value)].

Definition guac_iconv_write_crlf (writer : guac_iconv_write) : guac_iconv_write :=
  λ remaining value,
  if negb (value =? 0x0A) then writer remaining value
  else
    let output := writer remaining 0x0D in
    let remaining := remaining - len output in
    if 0 <? remaining then output ++ writer remaining 0x0A else output.

Definition GUAC_WRITE_UTF8_CRLF := guac_iconv_write_crlf GUAC_WRITE_UTF8.
Definition GUAC_WRITE_UTF16_CRLF := guac_iconv_write_crlf GUAC_WRITE_UTF16.
Definition GUAC_WRITE_CP1252_CRLF := guac_iconv_write_crlf GUAC_WRITE_CP1252.
Definition GUAC_WRITE_ISO8859_1_CRLF := guac_iconv_write_crlf GUAC_WRITE_ISO8859_1.

(** The loop: the result, what was read and what was written.  Every character that ends no loop takes
    at least a byte of the input, so there are no more turns than bytes. *)

Fixpoint iconv_loop (fuel : nat) (reader : guac_iconv_read) (input : list byte) (in_remaining : Z)
    (writer : guac_iconv_write) (out_remaining : Z) : run (bool * nat * list byte) :=
  if (0 <? in_remaining) && (0 <? out_remaining) then
    match fuel with
    | O => Spin
    | S fuel =>
        '(value, n) ← reader input in_remaining;
        let written := writer out_remaining value in
        if value =? 0 then Run (true, n, written)
        else
          '(result, m, output) ←
            iconv_loop fuel reader (drop n input) (in_remaining - Z.of_nat n) writer
              (out_remaining - len written);
          Run (result, (n + m)%nat, written ++ output)
    end
  else Run (false, O, []).

Definition guac_iconv (reader : guac_iconv_read) (input : list byte) (in_remaining : Z)
    (writer : guac_iconv_write) (out_remaining : Z) : run (bool * nat * list byte) :=
  iconv_loop (Z.to_nat in_remaining) reader input in_remaining writer out_remaining.

(** ** Encodings

    A reader and a writer are those of an encoding of characters when the writer stores the bytes of a
    character that fit and the reader takes them in again. *)

Class Reads (reader : guac_iconv_read) (dom : Z → Prop) (encode : Z → list byte) : Prop :=
  reads_back c rest remaining : dom c → len (encode c) ≤ remaining →
    reader (encode c ++ rest) remaining = Run (c, length (encode c)).

Class Writes (writer : guac_iconv_write) (dom : Z → Prop) (encode : Z → list byte) : Prop :=
  writes_whole c remaining : dom c → len (encode c) ≤ remaining → writer remaining c = encode c.

Class Encodes (dom : Z → Prop) (encode : Z → list byte) : Prop :=
  encoded_nonempty c : dom c → encode c ≠ [].

Definition encode_all (encode : Z → list byte) (text : list Z) : list byte := flat_map encode text.

Section transcoding.
  Context (reader : guac_iconv_read) (writer : guac_iconv_write).
  Context (dom dom' : Z → Prop) (encode encode' : Z → list byte).
  Context {R : Reads reader dom encode} {W : Writes writer dom' encode'}.
  Context {E : Encodes dom encode} {E' : Encodes dom' encode'}.

Lemma iconv_loop_text text tail : ∀ fuel in_remaining out_remaining,
  Forall (λ c, dom c ∧ dom' c ∧ c ≠ 0) text → dom 0 → dom' 0 →
  len (encode_all encode text ++ encode 0) ≤ in_remaining →
  len (encode_all encode' text ++ encode' 0) ≤ out_remaining →
  (length text < fuel)%nat →
  iconv_loop fuel reader (encode_all encode text ++ encode 0 ++ tail) in_remaining writer out_remaining
  = Run (true, length (encode_all encode text ++ encode 0), encode_all encode' text ++ encode' 0).
Proof.
  assert (Hpos : ∀ dom encode, Encodes dom encode → ∀ c, dom c → 0 < len (encode c)).
  { intros d e He c Hc. pose proof (encoded_nonempty c Hc). destruct (e c); [done|cbn; lia]. }
  induction text as [|c text IH]; intros fuel inr outr Ht H0 H0' Hin Hout Hf;
    (destruct fuel as [|fuel]; [cbn in Hf; lia|]); cbn [iconv_loop encode_all flat_map app] in *.
  - pose proof (Hpos _ _ E 0 H0). pose proof (Hpos _ _ E' 0 H0').
    rewrite (proj2 (Z.ltb_lt 0 inr)), (proj2 (Z.ltb_lt 0 outr)) by lia. cbn [andb].
    rewrite reads_back by (done || lia). rewrite run_bind_run. cbn. by rewrite writes_whole by (done || lia).
  - apply Forall_cons_iff in Ht as [(Hc & Hc' & Hz) Ht].
    pose proof (Hpos _ _ E c Hc). pose proof (Hpos _ _ E' c Hc').
    fold (encode_all encode text) in *. fold (encode_all encode' text) in *.
    rewrite <-app_assoc in *. rewrite length_app in Hin, Hout.
    rewrite (proj2 (Z.ltb_lt 0 inr)), (proj2 (Z.ltb_lt 0 outr)) by lia. cbn [andb].
    rewrite <-app_assoc, reads_back by (done || lia). rewrite run_bind_run.
    rewrite (proj2 (Z.eqb_neq c 0)) by done. rewrite writes_whole by (done || lia).
    rewrite drop_app_length, IH by (done || lia || (cbn in Hf; lia)). rewrite run_bind_run.
    by rewrite <-app_assoc, (length_app (encode c)).
Qed.

End transcoding.

(** *** The four encodings *)

Definition utf8_dom (c : Z) : Prop := 0 ≤ c ≤ 0x1FFFFF.
Definition encode_utf8 (c : Z) : list byte := snd (guac_utf8_write c 4).

Definition utf16_dom (c : Z) : Prop := 0 ≤ c < 0x10000.
Definition encode_utf16 (c : Z) : list byte := [zb c; zb (c `div` 256)].

Definition iso8859_1_dom (c : Z) : Prop := 0 ≤ c ≤ 0xFF.
Definition encode_iso8859_1 (c : Z) : list byte := [zb c].

(** Windows-1252 has no character for the codes of its table that are not assigned. *)

Definition cp1252_dom (c : Z) : Prop :=
  c ≠ 0xFFFD ∧
  (0 ≤ c < 0x80 ∨ 0x9F < c ≤ 0xFF ∨ c ∈ __GUAC_RDP_CP1252_CODEPOINT).
Definition encode_cp1252 (c : Z) : list byte := GUAC_WRITE_CP1252 1 c.

Lemma utf8_write_room c remaining :
  len (encode_utf8 c) ≤ remaining → 0 < remaining → guac_utf8_write c remaining = guac_utf8_write c 4.
Proof.
  intros Hl Hr. revert Hl. unfold encode_utf8, guac_utf8_write.
  rewrite (proj2 (Z.leb_gt remaining 0)), (proj2 (Z.leb_gt 4 0)) by lia.
  assert (Hput : ∀ k r, k ≤ 4 → len (snd r) = k → len (snd (if 4 <? k then (0, []) else r)) ≤ remaining →
    (if remaining <? k then (0, []) else r) = (if 4 <? k then (0, []) else r : Z * list byte)).
  { intros k r Hk Hlr. rewrite (proj2 (Z.ltb_ge 4 k)) by lia. intros Hr'.
    by rewrite (proj2 (Z.ltb_ge remaining k)) by lia. }
  destruct (c <=? 0x7F); [by apply Hput|]. destruct (c <=? 0x7FF); [by apply Hput|].
  destruct (c <=? 0xFFFF); [by apply Hput|]. destruct (c <=? 0x1FFFFF); [by apply Hput|done].
Qed.

Lemma length_encode_utf8 c : guac_utf8_write c 4 = (len (encode_utf8 c), encode_utf8 c) ∧ 0 < len (encode_utf8 c).
Proof.
  unfold encode_utf8. pose proof (utf8_write_bounds c 4) as Hb.
  destruct (guac_utf8_write c 4) as [n s]. destruct Hb as (-> & _ & _ & Hpos). cbn [snd].
  split; [done|]. by apply Hpos.
Qed.

#[export] Instance encodes_utf8 : Encodes utf8_dom encode_utf8.
Proof. intros c _ E. pose proof (length_encode_utf8 c) as [_ H]. by rewrite E in H. Qed.

#[export] Instance reads_utf8 : Reads GUAC_READ_UTF8 utf8_dom encode_utf8.
Proof.
  intros c rest remaining Hc Hl. destruct (length_encode_utf8 c) as [E H]. unfold GUAC_READ_UTF8.
  rewrite (utf8_write_read c 4 _ _ rest remaining Hc E H Hl). by rewrite Nat2Z.id.
Qed.

#[export] Instance writes_utf8 : Writes GUAC_WRITE_UTF8 utf8_dom encode_utf8.
Proof.
  intros c remaining _ Hl. unfold GUAC_WRITE_UTF8. destruct (length_encode_utf8 c) as [_ H].
  by rewrite utf8_write_room by lia.
Qed.

#[export] Instance encodes_utf16 : Encodes utf16_dom encode_utf16.
Proof. done. Qed.

#[export] Instance reads_utf16 : Reads GUAC_READ_UTF16 utf16_dom encode_utf16.
Proof.
  intros c rest remaining [H0 H1] Hl. unfold GUAC_READ_UTF16. cbn in Hl.
  rewrite (proj2 (Z.ltb_ge remaining 2)) by lia. cbn -[Z.mul]. unfold byte_at. cbn -[Z.mul].
  rewrite !bz_zb. do 2 f_equal. pose proof (Z.div_lt_upper_bound c 256 256). pose proof (Z.div_pos c 256).
  rewrite (Z.mod_small (c `div` 256)) by lia. pose proof (Z.div_mod c 256). lia.
Qed.

#[export] Instance writes_utf16 : Writes GUAC_WRITE_UTF16 utf16_dom encode_utf16.
Proof.
  intros c remaining _ Hl. unfold GUAC_WRITE_UTF16. cbn in Hl. by rewrite (proj2 (Z.ltb_ge remaining 2)) by lia.
Qed.

#[export] Instance encodes_iso8859_1 : Encodes iso8859_1_dom encode_iso8859_1.
Proof. done. Qed.

#[export] Instance reads_iso8859_1 : Reads GUAC_READ_ISO8859_1 iso8859_1_dom encode_iso8859_1.
Proof.
  intros c rest remaining Hc Hl. unfold GUAC_READ_ISO8859_1, byte_at. cbn.
  by rewrite bz_zb_small by (unfold iso8859_1_dom in Hc; lia).
Qed.

#[export] Instance writes_iso8859_1 : Writes GUAC_WRITE_ISO8859_1 iso8859_1_dom encode_iso8859_1.
Proof.
  intros c remaining Hc Hl. unfold GUAC_WRITE_ISO8859_1, iso8859_1_dom in *.
  by rewrite (proj2 (Z.ltb_ge 0xFF c)) by lia.
Qed.

#[export] Instance encodes_cp1252 : Encodes cp1252_dom encode_cp1252.
Proof. done. Qed.

#[export] Instance writes_cp1252 : Writes GUAC_WRITE_CP1252 cp1252_dom encode_cp1252.
Proof. done. Qed.

(** Every code of the table that is assigned is found at its place. *)

Lemma cp1252_table c :
  c ≠ 0xFFFD → c ∈ __GUAC_RDP_CP1252_CODEPOINT →
  0xFF < c ∧ ∃ i, cp1252_index __GUAC_RDP_CP1252_CODEPOINT 0x80 c = Some i ∧
    0x80 ≤ i ≤ 0x9F ∧ cp1252_value i = c.
Proof.
  intros Hne Hin.
  assert (H : forallb (λ c, (c =? 0xFFFD) || (0xFF <? c) &&
    match cp1252_index __GUAC_RDP_CP1252_CODEPOINT 0x80 c with
    | Some i => (0x80 <=? i) && (i <=? 0x9F) && (cp1252_value i =? c)
    | None => false
    end) __GUAC_RDP_CP1252_CODEPOINT = true) by (vm_compute; done).
  apply list_elem_of_In in Hin. pose proof (proj1 (forallb_forall _ _) H c Hin) as Hc. cbn beta in Hc.
  rewrite (proj2 (Z.eqb_neq c 0xFFFD) Hne) in Hc. cbn [orb] in Hc.
  apply andb_true_iff in Hc as [Hff Hi]. split; [by apply Z.ltb_lt|].
  destruct (cp1252_index _ _ c) as [i|]; [|done]. exists i. split; [done|]. lia.
Qed.

Lemma byte_at_0 c s : byte_at (zb c :: s) 0 = Run (c `mod` 256).
Proof. unfold byte_at. cbn -[Z.modulo]. by rewrite bz_zb. Qed.

#[export] Instance reads_cp1252 : Reads GUAC_READ_CP1252 cp1252_dom encode_cp1252.
Proof.
  intros c rest remaining [Hne Hc] _. unfold GUAC_READ_CP1252, encode_cp1252, GUAC_WRITE_CP1252.
  cbn [app length]. rewrite byte_at_0, run_bind_run.
  destruct (decide (c ∈ __GUAC_RDP_CP1252_CODEPOINT)) as [Hin|Hout].
  - destruct (cp1252_table c Hne Hin) as (Hff & i & Ei & Hi & Ev).
    rewrite (proj2 (Z.ltb_lt 0xFF c)), orb_true_r, Ei by done. cbn [default id].
    by rewrite Z.mod_small, Ev by lia.
  - assert (H : 0 ≤ c < 0x80 ∨ 0x9F < c ≤ 0xFF) by (destruct Hc as [|[|]]; [by left|by right|done]).
    assert (E1 : (0x80 <=? c) && (c <=? 0x9F) || (0xFF <? c) = false) by lia.
    assert (E2 : (0x80 <=? c) && (c <=? 0x9F) = false) by lia.
    rewrite E1, Z.mod_small by lia. unfold cp1252_value. by rewrite E2.
Qed.

(** ** What is right *)

(** The four encodings as their standards have them, with nothing of the code: the characters that each has
    and the bytes of a character.  UTF-16 is little endian and only of the characters of one unit. *)

Inductive charset := UTF_8 | UTF_16 | ISO_8859_1 | WINDOWS_1252.

(** The bytes of Windows-1252 that are not those of ISO 8859-1. *)

Definition windows_1252 : list (Z * Z) :=
  [(0x80, 8364); (0x82, 8218); (0x83, 402); (0x84, 8222); (0x85, 8230); (0x86, 8224); (0x87, 8225);
   (0x88, 710); (0x89, 8240); (0x8A, 352); (0x8B, 8249); (0x8C, 338); (0x8E, 381);
   (0x91, 8216); (0x92, 8217); (0x93, 8220); (0x94, 8221); (0x95, 8226); (0x96, 8211); (0x97, 8212);
   (0x98, 732); (0x99, 8482); (0x9A, 353); (0x9B, 8250); (0x9C, 339); (0x9E, 382); (0x9F, 376)].

Fixpoint code_of (table : list (Z * Z)) (c : Z) : option Z :=
  match table with
  | [] => None
  | (code, c') :: table => if decide (c' = c) then Some code else code_of table c
  end.

Definition has (cs : charset) (c : Z) : Prop :=
  match cs with
  | UTF_8 => 0 ≤ c < 0x200000
  | UTF_16 => 0 ≤ c < 0x10000
  | ISO_8859_1 => 0 ≤ c < 0x100
  | WINDOWS_1252 => 0 ≤ c < 0x80 ∨ 0xA0 ≤ c < 0x100 ∨ is_Some (code_of windows_1252 c)
  end.

Definition spell (cs : charset) (c : Z) : list byte :=
  match cs with
  | UTF_8 =>
      if decide (c < 0x80) then [zb c]
      else if decide (c < 0x800) then [zb (0xC0 + c `div` 64); zb (0x80 + c `mod` 64)]
      else if decide (c < 0x10000)
      then [zb (0xE0 + c `div` 4096); zb (0x80 + (c `div` 64) `mod` 64); zb (0x80 + c `mod` 64)]
      else [zb (0xF0 + c `div` 262144); zb (0x80 + (c `div` 4096) `mod` 64);
            zb (0x80 + (c `div` 64) `mod` 64); zb (0x80 + c `mod` 64)]
  | UTF_16 => [zb (c `mod` 256); zb (c `div` 256)]
  | ISO_8859_1 => [zb c]
  | WINDOWS_1252 => [zb (default c (code_of windows_1252 c))]
  end.

(** A text and its null terminator. *)

Definition spelled (cs : charset) (text : list Z) : list byte := flat_map (spell cs) text ++ spell cs 0.

Definition reader_of (cs : charset) : guac_iconv_read :=
  match cs with
  | UTF_8 => GUAC_READ_UTF8
  | UTF_16 => GUAC_READ_UTF16
  | ISO_8859_1 => GUAC_READ_ISO8859_1
  | WINDOWS_1252 => GUAC_READ_CP1252
  end.

Definition writer_of (cs : charset) : guac_iconv_write :=
  match cs with
  | UTF_8 => GUAC_WRITE_UTF8
  | UTF_16 => GUAC_WRITE_UTF16
  | ISO_8859_1 => GUAC_WRITE_ISO8859_1
  | WINDOWS_1252 => GUAC_WRITE_CP1252
  end.

Lemma lor_add mask bits x :
  0 ≤ bits → Z.land mask (Z.ones bits) = 0 → 0 ≤ x < 2 ^ bits → Z.lor mask x = mask + x.
Proof.
  intros Hb Hm Hx. rewrite <-Z.lxor_lor, Z.add_nocarry_lxor; [done|..];
    rewrite <-(Z.mod_small x (2 ^ bits)), <-Z.land_ones by lia;
    by rewrite (Z.land_comm x), Z.land_assoc, Hm.
Qed.

Lemma spell_utf8 c : 0 ≤ c < 0x200000 → encode_utf8 c = spell UTF_8 c.
Proof.
  intros Hc. unfold encode_utf8, guac_utf8_write, spell.
  assert (Ht : ∀ x, Z.lor 0x80 (Z.land x 0x3F) = 0x80 + x `mod` 64).
  { intros x. rewrite land_3F. apply (lor_add _ 6); [lia|done|dlia]. }
  destruct (Z.leb_spec c 0x7F); [rewrite decide_True by lia; by cbn|rewrite decide_False by lia].
  destruct (Z.leb_spec c 0x7FF); [|rewrite decide_False by lia; destruct (Z.leb_spec c 0xFFFF)].
  - rewrite decide_True by lia. cbn [Z.leb Z.ltb Z.compare Pos.compare Pos.compare_cont].
    change (Z.to_nat (2 - 1)) with 1%nat. cbn [utf8_write_trailing snd].
    rewrite !Ht, !shiftr_6. by rewrite (lor_add _ 5) by (done || dlia).
  - rewrite decide_True by lia. cbn [Z.leb Z.ltb Z.compare Pos.compare Pos.compare_cont].
    change (Z.to_nat (3 - 1)) with 2%nat. cbn [utf8_write_trailing snd].
    rewrite !Ht, !shiftr_6, Z.div_div by lia. by rewrite (lor_add _ 4) by (done || dlia).
  - rewrite decide_False by lia. rewrite (proj2 (Z.leb_le c 0x1FFFFF)) by lia.
    cbn [Z.leb Z.ltb Z.compare Pos.compare Pos.compare_cont].
    change (Z.to_nat (4 - 1)) with 3%nat. cbn [utf8_write_trailing snd].
    rewrite !Ht, !shiftr_6, !Z.div_div by lia. by rewrite (lor_add _ 3) by (done || dlia).
Qed.

(** The characters of the table of the standard are those of the table of the code. *)

Lemma code_of_assigned c code :
  code_of windows_1252 c = Some code → cp1252_dom c ∧ encode_cp1252 c = [zb code].
Proof.
  assert (H : ∀ table, Forall (λ p, p.2 ≠ 0xFFFD ∧ p.2 ∈ __GUAC_RDP_CP1252_CODEPOINT ∧
      encode_cp1252 p.2 = [zb p.1]) table → code_of table c = Some code →
      cp1252_dom c ∧ encode_cp1252 c = [zb code]).
  { induction 1 as [|[n c'] table (H1 & H2 & H3) Ht IH]; cbn; [done|]. case_decide as E; [|done].
    intros [= <-]. cbn in *. subst c'. split; [|done]. split; [done|]. by right; right. }
  apply H. apply (bool_decide_unpack _). by vm_compute.
Qed.

Lemma spell_cp1252 c : has WINDOWS_1252 c → cp1252_dom c ∧ encode_cp1252 c = spell WINDOWS_1252 c.
Proof.
  intros Hc. cbn [has spell] in *. destruct (code_of windows_1252 c) as [code|] eqn:E.
  { by apply code_of_assigned. }
  assert (H : 0 ≤ c < 0x80 ∨ 0xA0 ≤ c < 0x100) by (destruct Hc as [|[|[? [=]]]]; lia).
  split; [split; [lia|]; destruct H; [left|right; left]; lia|].
  unfold encode_cp1252, GUAC_WRITE_CP1252.
  assert (E1 : (0x80 <=? c) && (c <=? 0x9F) || (0xFF <? c) = false) by lia. by rewrite E1.
Qed.

Lemma reads_ext reader dom encode (dom' : Z → Prop) encode' :
  Reads reader dom encode → (∀ c, dom' c → dom c ∧ encode c = encode' c) → Reads reader dom' encode'.
Proof.
  intros R H c rest remaining Hc. destruct (H c Hc) as [Hd <-]. by apply R.
Qed.

Lemma writes_ext writer dom encode (dom' : Z → Prop) encode' :
  Writes writer dom encode → (∀ c, dom' c → dom c ∧ encode c = encode' c) → Writes writer dom' encode'.
Proof.
  intros W H c remaining Hc. destruct (H c Hc) as [Hd <-]. by apply W.
Qed.

Lemma spell_utf16 c : has UTF_16 c → utf16_dom c ∧ encode_utf16 c = spell UTF_16 c.
Proof.
  intros Hc. split; [exact Hc|]. unfold encode_utf16, spell. f_equal. apply bz_inj. by rewrite !bz_zb, Zmod_mod.
Qed.

#[export] Instance reader_reads cs : Reads (reader_of cs) (has cs) (spell cs).
Proof.
  destruct cs; (eapply reads_ext; [apply _|]); intros c Hc.
  - split; [unfold utf8_dom; cbn in Hc; lia|by apply spell_utf8].
  - by apply spell_utf16.
  - split; [unfold iso8859_1_dom; cbn in Hc; lia|done].
  - by apply spell_cp1252.
Qed.

#[export] Instance writer_writes cs : Writes (writer_of cs) (has cs) (spell cs).
Proof.
  destruct cs; (eapply writes_ext; [apply _|]); intros c Hc.
  - split; [unfold utf8_dom; cbn in Hc; lia|by apply spell_utf8].
  - by apply spell_utf16.
  - split; [unfold iso8859_1_dom; cbn in Hc; lia|done].
  - by apply spell_cp1252.
Qed.

#[export] Instance spell_encodes cs : Encodes (has cs) (spell cs).
Proof. intros c _. destruct cs; cbn [spell]; repeat case_decide; done. Qed.

Lemma has_0 cs : has cs 0.
Proof. destruct cs; cbn; lia. Qed.

#[export] Instance has_dec cs c : Decision (has cs c).
Proof. destruct cs; cbn; apply _. Defined.

(** C10.  Text spelled in UTF-8, UTF-16 (little endian, of the characters of one unit), ISO 8859-1 or
    Windows-1252, ended by a null terminator, is converted to the spelling of the same text in any
    of the four, terminator included, whatever follows it in memory, when each character is of both
    encodings and not null, the input is given at least its length and the output has
    room. *)
Theorem iconv_transcodes from to text tail in_remaining out_remaining :
  Forall (λ c, has from c ∧ has to c ∧ c ≠ 0) text →
  len (spelled from text) ≤ in_remaining → len (spelled to text) ≤ out_remaining →
  guac_iconv (reader_of from) (spelled from text ++ tail) in_remaining (writer_of to) out_remaining
  = Run (true, length (spelled from text), spelled to text).
Proof.
  unfold spelled, guac_iconv. intros Ht Hin Hout. rewrite <-app_assoc.
  apply (iconv_loop_text (reader_of from) (writer_of to) (has from) (has to)); try done; try apply has_0; try apply _.
  assert (H : (length text ≤ length (flat_map (spell from) text))%nat).
  { clear -Ht. induction Ht as [|c text (Hc & _) Ht IH]; [done|]. cbn [flat_map length]. rewrite length_app.
    pose proof (encoded_nonempty c Hc). destruct (spell from c); [done|]. cbn [length]. lia. }
  rewrite length_app in Hin. pose proof (encoded_nonempty 0 (has_0 from)). destruct (spell from 0); [done|].
  cbn in Hin. lia.
Qed.

(** The euro sign, the letter A and a small e with acute, from Windows-1252 to UTF-8. *)

Lemma iconv_transcodes_witness :
  guac_iconv GUAC_READ_CP1252 ([x80; x41; xe9; x00] ++ [x2a]) 5 GUAC_WRITE_UTF8 9
    = Run (true, 4%nat, [xe2; x82; xac; x41; xc3; xa9; x00]) ∧
  guac_iconv GUAC_READ_UTF8 ([xe2; x82; xac; x41; xc3; xa9; x00] ++ []) 7 GUAC_WRITE_UTF16 8
    = Run (true, 7%nat, [xac; x20; x41; x00; xe9; x00; x00; x00]).
Proof.
  split.
  - apply (iconv_transcodes WINDOWS_1252 UTF_8 [0x20AC; 0x41; 0xE9] [x2a] 5 9);
      [by apply (bool_decide_unpack _); vm_compute|by vm_compute..].
  - apply (iconv_transcodes UTF_8 UTF_16 [0x20AC; 0x41; 0xE9] [] 7 8);
      [by apply (bool_decide_unpack _); vm_compute|by vm_compute..].
Defined.

(** *** Bounds *)

Class Tame (reader : guac_iconv_read) : Prop :=
  tame input remaining : 0 < remaining ≤ len input →
    ∃ value n, reader input remaining = Run (value, n) ∧ Z.of_nat n ≤ remaining ∧ (value ≠ 0 → (0 < n)%nat).

Class Bounded (writer : guac_iconv_write) : Prop :=
  bounded remaining value : 0 < remaining → len (writer remaining value) ≤ remaining.

Lemma byte_at_ok input i : Z.of_nat i < len input → ∃ v, byte_at input i = Run v.
Proof.
  intros H. unfold byte_at. destruct (lookup_lt_is_Some_2 input i ltac:(lia)) as [c ->]. by eexists.
Qed.

#[export] Instance tame_utf16 : Tame GUAC_READ_UTF16.
Proof.
  intros input remaining H. unfold GUAC_READ_UTF16. destruct (Z.ltb_spec remaining 2).
  { exists 0, O. split; [done|]. split; [lia|done]. }
  destruct (byte_at_ok input 0) as [v0 ->]; [lia|]. destruct (byte_at_ok input 1) as [v1 ->]; [lia|].
  eexists _, _. split; [reflexivity|]. lia.
Qed.

#[export] Instance tame_cp1252 : Tame GUAC_READ_CP1252.
Proof.
  intros input remaining H. unfold GUAC_READ_CP1252. destruct (byte_at_ok input 0) as [v0 ->]; [lia|].
  eexists _, _. split; [reflexivity|]. lia.
Qed.

#[export] Instance tame_iso8859_1 : Tame GUAC_READ_ISO8859_1.
Proof.
  intros input remaining H. unfold GUAC_READ_ISO8859_1. destruct (byte_at_ok input 0) as [v0 ->]; [lia|].
  eexists _, _. split; [reflexivity|]. lia.
Qed.

#[export] Instance bounded_utf8 : Bounded GUAC_WRITE_UTF8.
Proof.
  intros remaining value H. unfold GUAC_WRITE_UTF8. pose proof (utf8_write_bounds value remaining) as Hb.
  destruct (guac_utf8_write value remaining) as [n s]. cbn [snd]. lia.
Qed.

#[export] Instance bounded_utf16 : Bounded GUAC_WRITE_UTF16.
Proof. intros remaining value H. unfold GUAC_WRITE_UTF16. destruct (Z.ltb_spec remaining 2); cbn; lia. Qed.

#[export] Instance bounded_cp1252 : Bounded GUAC_WRITE_CP1252.
Proof. intros remaining value H. unfold GUAC_WRITE_CP1252. cbn [length]. lia. Qed.

#[export] Instance bounded_iso8859_1 : Bounded GUAC_WRITE_ISO8859_1.
Proof. intros remaining value H. unfold GUAC_WRITE_ISO8859_1. cbn [length]. lia. Qed.

#[export] Instance bounded_crlf writer : Bounded writer → Bounded (guac_iconv_write_crlf writer).
Proof.
  intros B remaining value H. unfold guac_iconv_write_crlf. destruct (negb _); [by apply B|].
  pose proof (B remaining 0x0D H). destruct (Z.ltb_spec 0 (remaining - len (writer remaining 0x0D))) as [H'|];
    [|done]. pose proof (B _ 0x0A H'). rewrite length_app. lia.
Qed.

Lemma iconv_loop_bounds reader writer `{!Tame reader, !Bounded writer} fuel : ∀ input inr outr,
  inr ≤ len input → inr ≤ Z.of_nat fuel →
  ∃ result n output, iconv_loop fuel reader input inr writer outr = Run (result, n, output) ∧
    Z.of_nat n ≤ Z.max 0 inr ∧ len output ≤ Z.max 0 outr.
Proof.
  induction fuel as [|fuel IH]; intros input inr outr Hi Hf; cbn [iconv_loop].
  { rewrite (proj2 (Z.ltb_ge 0 inr)) by lia. cbn [andb]. eexists _, _, _. split; [done|]. cbn. lia. }
  destruct (Z.ltb_spec 0 inr) as [H1|]; [|eexists _, _, _; split; [done|]; cbn; lia].
  destruct (Z.ltb_spec 0 outr) as [H2|]; [|eexists _, _, _; split; [done|]; cbn; lia]. cbn [andb].
  destruct (tame input inr) as (v & n & -> & Hn & Hv); [lia|]. rewrite run_bind_run.
  pose proof (bounded outr v H2) as Hb.
  destruct (Z.eqb_spec v 0) as [|Hz]; [eexists _, _, _; split; [done|]; lia|].
  destruct (IH (drop n input) (inr - Z.of_nat n) (outr - len (writer outr v)))
    as (result & m & output & -> & Hm & Ho); [rewrite length_drop; lia|specialize (Hv Hz); lia|].
  rewrite run_bind_run. eexists _, _, _. split; [done|]. rewrite length_app. lia.
Qed.

(** Whatever the bytes of the input, reading them as UTF-16, Windows-1252 or ISO 8859-1 and writing
    them in any of the eight ways comes to an end, reads no more than the input has and writes no more than
    the output has room for. *)
Theorem iconv_in_bounds reader writer `{!Tame reader, !Bounded writer} input in_remaining out_remaining :
  in_remaining ≤ len input →
  ∃ result n output,
    guac_iconv reader input in_remaining writer out_remaining = Run (result, n, output) ∧
    Z.of_nat n ≤ Z.max 0 in_remaining ∧ len output ≤ Z.max 0 out_remaining.
Proof. intros H. unfold guac_iconv. apply iconv_loop_bounds; [done..|lia]. Qed.

Lemma iconv_in_bounds_witness :
  let input := [xff; xfe; x0a; x00; x41] in
  ∃ result n output,
    guac_iconv GUAC_READ_UTF16 input 5 GUAC_WRITE_UTF8_CRLF 4 = Run (result, n, output) ∧
    Z.of_nat n ≤ Z.max 0 5 ∧ len output ≤ Z.max 0 4.
Proof. apply (iconv_in_bounds GUAC_READ_UTF16 GUAC_WRITE_UTF8_CRLF). cbn. lia. Defined.

(** ** What is not *)

(** The first byte of a character tells how long it is: with less of it nothing is read. *)

Lemma utf8_read_short c s n :
  utf8_dom c → s !!! 0%nat = encode_utf8 c !!! 0%nat → 0 < n < len (encode_utf8 c) →
  guac_utf8_read s n = (0, None).
Proof.
  intros Hc Es Hn. unfold guac_utf8_read. rewrite (proj2 (Z.leb_gt n 0)), Es by lia. clear Es.
  revert Hn. unfold encode_utf8, guac_utf8_write, utf8_dom in *.
  destruct (Z.leb_spec c 0x7F); [|destruct (Z.leb_spec c 0x7FF);
    [|destruct (Z.leb_spec c 0xFFFF); [|destruct (Z.leb_spec c 0x1FFFFF); [|lia]]]];
    change (Z.to_nat (1 - 1)) with 0%nat; change (Z.to_nat (2 - 1)) with 1%nat;
    change (Z.to_nat (3 - 1)) with 2%nat; change (Z.to_nat (4 - 1)) with 3%nat;
    change (4 <=? 0) with false; change (4 <? 1) with false; change (4 <? 2) with false;
    change (4 <? 3) with false; change (4 <? 4) with false;
    cbn [utf8_write_trailing snd length lookup_total list_lookup_total]; intros Hn;
    rewrite ?shiftr_6; [lia|..].
  - destruct (initial_byte_2 (c `div` 64)) as (-> & -> & _); [dlia|].
    by rewrite (proj2 (Z.ltb_lt n 2)) by lia.
  - destruct (initial_byte_3 ((c `div` 64) `div` 64)) as (-> & -> & -> & _); [dlia|].
    by rewrite (proj2 (Z.ltb_lt n 3)) by lia.
  - destruct (initial_byte_4 (((c `div` 64) `div` 64) `div` 64)) as (-> & -> & -> & -> & _); [dlia|].
    by rewrite (proj2 (Z.ltb_lt n 4)) by lia.
Qed.

Section truncated.
  Context (writer : guac_iconv_write) (dom' : Z → Prop) (encode' : Z → list byte).
  Context {W : Writes writer dom' encode'} {E' : Encodes dom' encode'}.

Lemma iconv_loop_truncated c p rest text : ∀ fuel out_remaining,
  Forall (λ c, utf8_dom c ∧ dom' c ∧ c ≠ 0) text → utf8_dom c →
  p `prefix_of` encode_utf8 c → p ≠ [] → p ≠ encode_utf8 c →
  len (encode_all encode' text) < out_remaining → (length text < fuel)%nat →
  iconv_loop fuel GUAC_READ_UTF8 (encode_all encode_utf8 text ++ p ++ rest)
    (len (encode_all encode_utf8 text ++ p)) writer out_remaining = Fault.
Proof.
  induction text as [|d text IH]; intros fuel out Ht Hc [q Hq] Hp Hne Ho Hf;
    (destruct fuel as [|fuel]; [cbn in Hf; lia|]); cbn [iconv_loop encode_all flat_map app] in *.
  - rewrite (proj2 (Z.ltb_lt 0 out)) by (cbn in Ho; lia).
    destruct p as [|b p]; [done|]. destruct q as [|b' q].
    { by rewrite app_nil_r in Hq. }
    rewrite (proj2 (Z.ltb_lt 0 (len (b :: p)))) by (cbn; lia). cbn [andb]. unfold GUAC_READ_UTF8.
    rewrite (utf8_read_short c) by (done || rewrite Hq; cbn [length app]; rewrite ?length_app; cbn [length]; done || lia).
    done.
  - apply Forall_cons_iff in Ht as [(Hd & Hd' & Hz) Ht].
    fold (encode_all encode_utf8 text) in *. fold (encode_all encode' text) in *.
    rewrite length_app in Ho. rewrite <-!app_assoc, (length_app (encode_utf8 d)).
    pose proof (length_encode_utf8 d) as [_ Hpos].
    rewrite (proj2 (Z.ltb_lt 0 (Z.of_nat _))), (proj2 (Z.ltb_lt 0 out)) by lia. cbn [andb].
    rewrite (reads_back (dom := utf8_dom) d) by (done || lia). rewrite run_bind_run.
    rewrite (proj2 (Z.eqb_neq d 0)) by done. rewrite (writes_whole d) by (done || lia).
    rewrite drop_app_length.
    replace (Z.of_nat _ - len (encode_utf8 d)) with (len (encode_all encode_utf8 text ++ p)) by lia.
    rewrite IH by (done || lia || (by exists q) || (cbn in Hf; lia)). done.
Qed.

End truncated.

(** An input in UTF-8 that is cut within a character makes the conversion use a value that was never
    set, whatever the writer, as long as the output is not full: [guac_utf8_read] reports that
    nothing was read and [GUAC_READ_UTF8] returns its variable all the same. *)
Theorem iconv_truncated_utf8 writer dom' encode' `{!Writes writer dom' encode', !Encodes dom' encode'}
    text c p rest out_remaining :
  Forall (λ c, utf8_dom c ∧ dom' c ∧ c ≠ 0) text → utf8_dom c →
  p `prefix_of` encode_utf8 c → p ≠ [] → p ≠ encode_utf8 c →
  len (encode_all encode' text) < out_remaining →
  guac_iconv GUAC_READ_UTF8 (encode_all encode_utf8 text ++ p ++ rest)
    (len (encode_all encode_utf8 text ++ p)) writer out_remaining = Fault.
Proof.
  intros Ht Hc Hp Hne Hne' Ho. apply (iconv_loop_truncated writer dom' encode' c); try done.
  rewrite Nat2Z.id, length_app. destruct p; [done|]. cbn [length].
  assert (H : (length text ≤ length (encode_all encode_utf8 text))%nat); [|lia].
  clear. induction text as [|d text IH]; [done|]. cbn [encode_all flat_map length].
  rewrite length_app. fold (encode_all encode_utf8 text). pose proof (length_encode_utf8 d). lia.
Qed.

Lemma iconv_truncated_utf8_witness :
  guac_iconv GUAC_READ_UTF8 ([x41] ++ [xe2; x82] ++ [xac]) 3 GUAC_WRITE_UTF16 100 = Fault.
Proof.
  refine (iconv_truncated_utf8 GUAC_WRITE_UTF16 utf16_dom encode_utf16 [0x41] 0x20AC [xe2; x82] [xac] 100
    _ _ _ _ _ _).
  - constructor; [|constructor]. unfold utf8_dom, utf16_dom. lia.
  - unfold utf8_dom. lia.
  - exists [xac]. vm_compute. done.
  - done.
  - vm_compute. done.
  - vm_compute. done.
Defined.
