(* ===== verification/Json.v ===== *)
(** * Streaming JSON objects (src/src/common/json.c)

    The listing of a directory is sent as a JSON object of strings, through a buffer
    of 4096 bytes that is sent as a blob whenever it has no more room.

    The blobs sent so far are part of the state; the instruction that carries one is
    modelled in Protocol. *)

From S2P Require Import Prelude RecordUpdate LibString.
Local Open Scope nat_scope.

Definition BUFFER_SIZE : nat := 4096.       (* sizeof(json_state->buffer) *)

Record guac_common_json_state := mk_json {
  buffer : list byte;
  size : nat;
  properties_written : nat;
  blobs : list (list byte);
}.

#[export] Instance eta_json : Eta guac_common_json_state :=
  λ j, mk_json (buffer j) (size j) (properties_written j) (blobs j).

Definition guac_common_json_flush (j : guac_common_json_state) : guac_common_json_state :=
  if 0 <? size j then j <| blobs := blobs j ++ [take (size j) (buffer j)] |> <| size := 0 |> else j.

(** The loop of [guac_common_json_write]: each turn takes a byte of the data at least. *)

Fixpoint json_write_loop (fuel : nat) (j : guac_common_json_state) (data : list byte)
    (blob_written : bool) : guac_common_json_state * bool :=
  match fuel, data with
  | S fuel, _ :: _ =>
      let blob_length := Nat.min (length data) BUFFER_SIZE in
      let full := BUFFER_SIZE <? size j + blob_length in
      let j := if full then guac_common_json_flush j else j in
      let j := j <| buffer := write_at (buffer j) (size j) (take blob_length data) |>
                 <| size := size j + blob_length |> in
      json_write_loop fuel j (drop blob_length data) (blob_written || full)
  | _, _ => (j, blob_written)
  end.

Definition guac_common_json_write (j : guac_common_json_state) (data : list byte)
    : guac_common_json_state * bool :=
  json_write_loop (length data) j data false.

(** The loop of [guac_common_json_write_string]: [str] is what is between [str] and [current]. *)

Fixpoint json_string_loop (j : guac_common_json_state) (str current : list byte) (blob_written : bool)
    : guac_common_json_state * list byte * bool :=
  match current with
  | [] => (j, str, blob_written)
  | c :: current =>
      if bool_decide (c = x22 ∨ c = x5c) then
        let '(j, b) :=
          match str with [] => (j, false) | _ => guac_common_json_write j str end in
        let '(j, b') := guac_common_json_write j [x5c] in
        json_string_loop j [c] current (blob_written || b || b')
      else json_string_loop j (str ++ [c]) current blob_written
  end.

Definition guac_common_json_write_string (j : guac_common_json_state) (str : list byte)
    : guac_common_json_state * bool :=
  let '(j, b1) := guac_common_json_write j [x22] in
  let '(j, str, b2) := json_string_loop j [] str b1 in
  let '(j, b3) :=
    match str with [] => (j, false) | _ => guac_common_json_write j str end in
  let '(j, b4) := guac_common_json_write j [x22] in
  (j, b2 || b3 || b4).

Definition guac_common_json_write_property (j : guac_common_json_state) (name value : list byte)
    : guac_common_json_state * bool :=
  let '(j, b1) :=
    if properties_written j =? 0 then (j, false) else guac_common_json_write j [x2c] in
  let '(j, b2) := guac_common_json_write_string j name in
  let '(j, b3) := guac_common_json_write j [x3a] in
  let '(j, b4) := guac_common_json_write_string j value in
  (j <| properties_written := properties_written j + 1 |>, b1 || b2 || b3 || b4).

(** The write is the argument of [assert]: it happens as long as assertions are compiled in. *)

Definition guac_common_json_begin_object (j : guac_common_json_state) : option guac_common_json_state :=
  let j := j <| size := 0 |> <| properties_written := 0 |> in
  let '(j, b) := guac_common_json_write j [x7b] in
  if b then None else Some j.

Definition guac_common_json_end_object (j : guac_common_json_state) : guac_common_json_state * bool :=
  guac_common_json_write j [x7d].

(** ** What has been written *)

Definition written (j : guac_common_json_state) : list byte :=
  concat (blobs j) ++ take (size j) (buffer j).

Record json_ok (j : guac_common_json_state) : Prop := {
  json_ok_buffer : length (buffer j) = BUFFER_SIZE;
  json_ok_size : size j ≤ BUFFER_SIZE;
  json_ok_blobs : Forall (λ b, 0 < length b ≤ BUFFER_SIZE) (blobs j);
}.

Lemma buffer_room : 0 < BUFFER_SIZE.
Proof. by apply Nat.ltb_lt. Qed.

Lemma flush_ok j :
  json_ok j →
  let j' := guac_common_json_flush j in
  json_ok j' ∧ size j' = 0 ∧ written j' = written j ∧ properties_written j' = properties_written j.
Proof.
  intros [H1 H2 H3]. unfold guac_common_json_flush. destruct (Nat.ltb_spec 0 (size j)) as [H|H].
  - split; [|split; [done|split; [|done]]].
    + split; cbn; [done|lia|]. apply Forall_app. split; [done|]. constructor; [|constructor].
      rewrite length_take. lia.
    + unfold written. cbn. rewrite concat_app. cbn. by rewrite !app_nil_r.
  - split; [done|]. split; [lia|done].
Qed.

Lemma take_write_at (mem : list byte) p s :
  p ≤ length mem → take (p + length s) (write_at mem p s) = take p mem ++ s.
Proof.
  intros H. unfold write_at. rewrite app_assoc. apply take_app_length'.
  rewrite length_app, length_take. lia.
Qed.

Lemma write_loop_ok fuel : ∀ j data b,
  json_ok j → length data ≤ fuel →
  let j' := fst (json_write_loop fuel j data b) in
  json_ok j' ∧ written j' = written j ++ data ∧ properties_written j' = properties_written j.
Proof.
  induction fuel as [|fuel IH]; intros j data b Hj Hf; (destruct data as [|c data]; [by rewrite app_nil_r|]);
    [cbn in Hf; lia|].
  cbn [json_write_loop]. set (d := c :: data) in *. set (k := Nat.min (length d) BUFFER_SIZE).
  assert (Hk : 0 < k ≤ BUFFER_SIZE ∧ k ≤ length d) by (pose proof buffer_room; unfold k, d; cbn [length]; lia).
  set (j1 := if BUFFER_SIZE <? size j + k then guac_common_json_flush j else j).
  assert (H1 : json_ok j1 ∧ size j1 + k ≤ BUFFER_SIZE ∧ written j1 = written j ∧
    properties_written j1 = properties_written j).
  { unfold j1. destruct (Nat.ltb_spec BUFFER_SIZE (size j + k)); [|done].
    destruct (flush_ok j Hj) as (? & -> & ? & ?). split; [done|]. split; [lia|done]. }
  destruct H1 as (Hj1 & Hs & <- & <-). clearbody j1. pose proof Hj1 as [B1 B2 B3].
  set (j2 := _ <| size := _ |>).
  assert (Hl : length (take k d) = k) by (rewrite length_take; lia).
  assert (H2 : json_ok j2 ∧ written j2 = written j1 ++ take k d ∧ properties_written j2 = properties_written j1).
  { unfold j2. split; [|split; [|done]].
    - split; cbn [buffer size blobs set]; [|lia|done]. rewrite length_write_at; [done|rewrite Hl, B1; lia].
    - unfold written. cbn [blobs buffer size set]. rewrite <-Hl at 1. rewrite take_write_at by lia.
      by rewrite app_assoc. }
  destruct H2 as (Hj2 & Ew & Ep). clearbody j2.
  destruct (IH j2 (drop k d) (b || (BUFFER_SIZE <? size j + k)) Hj2) as (A & B & C).
  { rewrite length_drop. lia. }
  split; [done|]. split; [|congruence]. rewrite B, Ew, <-app_assoc. by rewrite take_drop.
Qed.

Lemma json_write_ok j data :
  json_ok j →
  let j' := fst (guac_common_json_write j data) in
  json_ok j' ∧ written j' = written j ++ data ∧ properties_written j' = properties_written j.
Proof. intros. by apply write_loop_ok. Qed.

(** ** Strings and properties *)

Definition escape (s : list byte) : list byte :=
  flat_map (λ c, if bool_decide (c = x22 ∨ c = x5c) then [x5c; c] else [c]) s.

Definition json_string (s : list byte) : list byte := [x22] ++ escape s ++ [x22].

Definition json_property (p : list byte * list byte) : list byte :=
  json_string (fst p) ++ [x3a] ++ json_string (snd p).

(** A function that writes [text] and nothing else. *)

Definition writes (text : list byte) (j j' : guac_common_json_state) : Prop :=
  json_ok j → json_ok j' ∧ written j' = written j ++ text ∧ properties_written j' = properties_written j.

Lemma writes_refl j : writes [] j j.
Proof. intros H. by rewrite app_nil_r. Qed.

Lemma writes_trans s t j j' j'' : writes s j j' → writes t j' j'' → writes (s ++ t) j j''.
Proof.
  intros A B H. destruct (A H) as (H1 & E1 & P1). destruct (B H1) as (H2 & E2 & P2).
  split; [done|]. split; [|congruence]. by rewrite E2, E1, app_assoc.
Qed.

Lemma writes_write j data : writes data j (fst (guac_common_json_write j data)).
Proof. intros H. by apply json_write_ok. Qed.

Lemma writes_pending j str :
  writes str j (fst (match str with [] => (j, false) | _ => guac_common_json_write j str end)).
Proof. destruct str; [apply writes_refl|apply writes_write]. Qed.

Lemma string_loop_writes current : ∀ j str b j' str' b',
  json_string_loop j str current b = (j', str', b') →
  ∃ text, writes text j j' ∧ text ++ str' = str ++ escape current.
Proof.
  induction current as [|c current IH]; intros j str b j' str' b'; cbn [json_string_loop escape flat_map].
  { intros [= <- <- <-]. exists []. split; [apply writes_refl|by rewrite app_nil_r]. }
  fold (escape current). case_bool_decide as Hc.
  - pose proof (writes_pending j str) as W1.
    destruct (match str with [] => (j, false) | _ => guac_common_json_write j str end) as [j1 b1].
    pose proof (writes_write j1 [x5c]) as W2. destruct (guac_common_json_write j1 [x5c]) as [j2 b2].
    intros E. destruct (IH _ _ _ _ _ _ E) as (text & W3 & Et). cbn [fst] in *.
    exists (str ++ [x5c] ++ text). split; [by eapply writes_trans; [|eapply writes_trans]|].
    rewrite <-!app_assoc, Et. done.
  - intros E. destruct (IH _ _ _ _ _ _ E) as (text & W & Et). exists text. split; [done|].
    rewrite Et. by rewrite <-app_assoc.
Qed.

Lemma json_write_string_writes j s : writes (json_string s) j (fst (guac_common_json_write_string j s)).
Proof.
  unfold guac_common_json_write_string. pose proof (writes_write j [x22]) as W1.
  destruct (guac_common_json_write j [x22]) as [j1 b1].
  destruct (json_string_loop j1 [] s b1) as [[j2 str] b2] eqn:E.
  destruct (string_loop_writes _ _ _ _ _ _ _ E) as (text & W2 & Et).
  pose proof (writes_pending j2 str) as W3.
  destruct (match str with [] => (j2, false) | _ => guac_common_json_write j2 str end) as [j3 b3].
  pose proof (writes_write j3 [x22]) as W4. destruct (guac_common_json_write j3 [x22]) as [j4 b4].
  cbn [fst] in *. unfold json_string. cbn [app] in Et. rewrite <-Et, <-!app_assoc.
  by repeat (eapply writes_trans; [eassumption|]).
Qed.

(** [first] tells whether the comma is left out. *)

Definition json_member (first : bool) (p : list byte * list byte) : list byte :=
  (if first then [] else [x2c]) ++ json_property p.

Lemma write_property_ok j name value :
  json_ok j →
  let j' := fst (guac_common_json_write_property j name value) in
  json_ok j' ∧ properties_written j' = properties_written j + 1 ∧
  written j' = written j ++ json_member (properties_written j =? 0) (name, value).
Proof.
  intros Hj. unfold guac_common_json_write_property.
  assert (W0 : writes (if properties_written j =? 0 then [] else [x2c]) j
    (fst (if properties_written j =? 0 then (j, false) else guac_common_json_write j [x2c]))).
  { destruct (properties_written j =? 0); [apply writes_refl|apply writes_write]. }
  destruct (if properties_written j =? 0 then (j, false) else _) as [j1 b1].
  pose proof (json_write_string_writes j1 name) as W1.
  destruct (guac_common_json_write_string j1 name) as [j2 b2].
  pose proof (writes_write j2 [x3a]) as W2. destruct (guac_common_json_write j2 [x3a]) as [j3 b3].
  pose proof (json_write_string_writes j3 value) as W3.
  destruct (guac_common_json_write_string j3 value) as [j4 b4]. cbn [fst] in *.
  pose proof (writes_trans _ _ _ _ _ W0 (writes_trans _ _ _ _ _ W1 (writes_trans _ _ _ _ _ W2 W3))) as W.
  destruct (W Hj) as ([A1 A2 A3] & B & C). split; [by split|]. cbn. split; [lia|]. exact B.
Qed.

(** ** Objects *)

Fixpoint write_properties (j : guac_common_json_state) (l : list (list byte * list byte))
    : guac_common_json_state :=
  match l with
  | [] => j
  | (name, value) :: l => write_properties (fst (guac_common_json_write_property j name value)) l
  end.

(** An object, as ls.c writes one: the blobs that were sent. *)

Definition send_object (buffer : list byte) (l : list (list byte * list byte)) : option (list (list byte)) :=
  j ← guac_common_json_begin_object (mk_json buffer 0 0 []);
  let j := write_properties j l in
  let '(j, _) := guac_common_json_end_object j in
  Some (blobs (guac_common_json_flush j)).

Definition json_object (l : list (list byte * list byte)) : list byte :=
  [x7b]
  ++ match l with
     | [] => []
     | p :: l => json_member true p ++ flat_map (json_member false) l
     end
  ++ [x7d].

Lemma write_properties_ok l : ∀ j,
  json_ok j → properties_written j ≠ 0 →
  let j' := write_properties j l in
  json_ok j' ∧ written j' = written j ++ flat_map (json_member false) l.
Proof.
  induction l as [|[name value] l IH]; intros j Hj Hp; cbn [write_properties flat_map].
  { by rewrite app_nil_r. }
  destruct (write_property_ok j name value Hj) as (H & P & E).
  rewrite (proj2 (Nat.eqb_neq _ 0) Hp) in E.
  destruct (IH (fst (guac_common_json_write_property j name value)) H) as [H' E']; [lia|].
  split; [done|]. by rewrite E', E, app_assoc.
Qed.

(** *** A reader of such objects *)

(** A string behind its quote: its characters, and what follows the closing quote. *)

Fixpoint read_string (s : list byte) : option (list byte * list byte) :=
  match s with
  | [] => None
  | x22 :: s => Some ([], s)
  | x5c :: c :: s => r ← read_string s; Some (c :: fst r, snd r)
  | c :: s => r ← read_string s; Some (c :: fst r, snd r)
  end.

Definition expect (c : byte) (s : list byte) : option (list byte) :=
  match s with
  | d :: s => if bool_decide (c = d) then Some s else None
  | [] => None
  end.

Definition read_property (s : list byte) : option (list byte * list byte * list byte) :=
  s ← expect x22 s; r ← read_string s;
  s ← expect x3a (snd r); s ← expect x22 s; r' ← read_string s;
  Some (fst r, fst r', snd r').

Fixpoint read_members (fuel : nat) (s : list byte) : option (list (list byte * list byte)) :=
  match fuel with
  | O => None
  | S fuel =>
      '(name, value, s) ← read_property s;
      match s with
      | x2c :: s => l ← read_members fuel s; Some ((name, value) :: l)
      | [x7d] => Some [(name, value)]
      | _ => None
      end
  end.

Definition read_object (s : list byte) : option (list (list byte * list byte)) :=
  s ← expect x7b s;
  match s with
  | [x7d] => Some []
  | _ => read_members (length s) s
  end.

Lemma read_string_escape s rest : read_string (escape s ++ x22 :: rest) = Some (s, rest).
Proof.
  induction s as [|c s IH]; [done|]. cbn [escape flat_map]. fold (escape s).
  case_bool_decide as Hc.
  - cbn [app read_string]. rewrite IH. done.
  - cbn [app]. assert (E : ∀ t, read_string (c :: t) = r ← read_string t; Some (c :: fst r, snd r)).
    { intros t. destruct c; try done; by destruct Hc; auto. }
    by rewrite E, IH.
Qed.

Lemma read_property_written p rest :
  read_property (json_property p ++ rest) = Some (p.1, p.2, rest).
Proof.
  unfold read_property, json_property, json_string. rewrite <-!app_assoc. cbn [app expect].
  rewrite bool_decide_true by done. cbn [mbind option_bind]. rewrite read_string_escape.
  cbn [mbind option_bind snd fst expect app]. rewrite bool_decide_true by done.
  cbn [mbind option_bind app expect]. rewrite bool_decide_true by done.
  cbn [mbind option_bind]. by rewrite read_string_escape.
Qed.

Lemma json_property_length p : 1 ≤ length (json_property p).
Proof. unfold json_property, json_string. rewrite !length_app. cbn. lia. Qed.

Lemma read_members_written l : ∀ p fuel,
  length l < fuel →
  read_members fuel (json_property p ++ flat_map (json_member false) l ++ [x7d]) = Some (p :: l).
Proof.
  induction l as [|q l IH]; intros p fuel Hf; (destruct fuel as [|fuel]; [cbn in Hf; lia|]);
    cbn [read_members flat_map]; rewrite read_property_written; destruct p as [name value];
    cbn [mbind option_bind app fst snd json_member].
  - done.
  - rewrite <-!app_assoc. cbn [app]. by rewrite IH by (cbn in Hf; lia).
Qed.

Lemma flat_map_members_length l : length l ≤ length (flat_map (json_member false) l).
Proof.
  induction l as [|q l IH]; [done|]. cbn [flat_map length]. rewrite length_app. cbn [json_member app length]. lia.
Qed.

Lemma read_object_written l : read_object (json_object l) = Some l.
Proof.
  unfold read_object, json_object. cbn [app expect]. rewrite bool_decide_true by done.
  cbn [mbind option_bind]. destruct l as [|p l]; [done|].
  change (json_member true p) with (json_property p). rewrite <-app_assoc.
  assert (R : read_members (length (json_property p ++ flat_map (json_member false) l ++ [x7d]))
    (json_property p ++ flat_map (json_member false) l ++ [x7d]) = Some (p :: l)).
  2: { destruct (json_property p ++ _) as [|c m] eqn:E; [done|]. injection E as <- _. exact R. }
  apply read_members_written.
  rewrite !length_app. pose proof (json_property_length p). pose proof (flat_map_members_length l).
  cbn [length]. lia.
Qed.

(** C12.  A directory listing sent through the buffer, whatever was in it, arrives as blobs of 1 to 4096 bytes that
    together are a JSON object from which a reader of JSON strings gets the names and values back,
    in their order; and no blob is sent by the write that the assertion of
    [guac_common_json_begin_object] forbids to send one. *)
Theorem json_object_round_trip buffer l :
  length buffer = BUFFER_SIZE →
  ∃ blobs, send_object buffer l = Some blobs ∧
    Forall (λ b, 0 < length b ≤ BUFFER_SIZE) blobs ∧ read_object (concat blobs) = Some l.
Proof.
  intros Hb. unfold send_object, guac_common_json_begin_object.
  set (j0 := (mk_json buffer 0 0 []) <| size := 0 |> <| properties_written := 0 |>).
  assert (H0 : json_ok j0) by (split; cbn; [done|lia|constructor]).
  assert (E : guac_common_json_write j0 [x7b] = (fst (guac_common_json_write j0 [x7b]), false)) by done.
  destruct (json_write_ok j0 [x7b] H0) as (H1 & W1 & P1). rewrite E.
  set (j1 := fst (guac_common_json_write j0 [x7b])) in *. clearbody j1. cbn [mbind option_bind].
  assert (H2 : json_ok (write_properties j1 l) ∧
    written (write_properties j1 l) ++ [x7d] = json_object l).
  { destruct l as [|[name value] l]; [split; [done|cbn [write_properties]; by rewrite W1]|]. cbn [write_properties].
    destruct (write_property_ok j1 name value H1) as (H2 & P2 & W2).
    rewrite P1 in W2. destruct (write_properties_ok l _ H2) as [H3 W3]; [lia|].
    split; [done|]. unfold json_object. by rewrite W3, W2, W1, <-!app_assoc. }
  destruct H2 as [H2 W2]. set (j2 := write_properties j1 l) in *. clearbody j2.
  unfold guac_common_json_end_object. pose proof (json_write_ok j2 [x7d] H2) as (H3 & W3 & _).
  destruct (guac_common_json_write j2 [x7d]) as [j3 b]. cbn [fst] in *.
  destruct (flush_ok j3 H3) as (H4 & S4 & W4 & _). set (j4 := guac_common_json_flush j3) in *.
  exists (blobs j4). split; [done|]. split; [apply H4|].
  rewrite <-(read_object_written l), <-W2, <-W3, <-W4. unfold written. by rewrite S4, app_nil_r.
Qed.

Lemma json_object_round_trip_witness :
  ∃ blobs, send_object (replicate BUFFER_SIZE x2a) [(lit "a\b", lit "text/plain"); ([x22], [])] = Some blobs ∧
    Forall (λ b, 0 < length b ≤ BUFFER_SIZE) blobs ∧
    read_object (concat blobs) = Some [(lit "a\b", lit "text/plain"); ([x22], [])].
Proof. apply json_object_round_trip. vm_compute. reflexivity. Defined.
