(* ===== verification/KubernetesUrl.v ===== *)
(** * URLs of the Kubernetes API (src/src/protocols/kubernetes/url.c)

    The path that attaches to a container is put together from settings, which are
    escaped.  A buffer is the string in it; [None] is failure, after which nobody looks
    at the buffer. *)

From S2P Require Import Prelude CString CFormat.
Local Open Scope Z_scope.

Local Abbreviation len l := (Z.of_nat (List.length l)).

Definition GUAC_KUBERNETES_MAX_ENDPOINT_LENGTH : Z := 1024.

Definition guac_kubernetes_is_url_safe (c : byte) : bool :=
  ((0x41 <=? sc c) && (sc c <=? 0x5A))
  || ((0x61 <=? sc c) && (sc c <=? 0x7A))
  || ((0x30 <=? sc c) && (sc c <=? 0x39))
  || bool_decide (is_Some (strchr (lit "-_.!~*'()") c)).

(** The loop of [guac_kubernetes_escape_url_component]: what is left of the buffer, and what was stored. *)

Fixpoint escape_loop (length : Z) (current str : list byte) : option (list byte) :=
  match str with
  | [] => if length <? 1 then None else Some current
  | c :: str =>
      if guac_kubernetes_is_url_safe c then
        if length <? 1 then None else escape_loop (length - 1) (current ++ [c]) str
      else
        if length <? 4 then None
        else escape_loop (length - 3) (current ++ snprintf 4 (lit "%" ++ fmt_02X (sc c))) str
  end.

Definition guac_kubernetes_escape_url_component (length : Z) (str : list byte) : option (list byte) :=
  escape_loop length [] str.

Definition guac_kubernetes_append_endpoint_param (buffer : list byte) (length : Z)
    (param_name param_value : list byte) : option (list byte) :=
  escaped ← guac_kubernetes_escape_url_component GUAC_KUBERNETES_MAX_ENDPOINT_LENGTH param_value;
  if length <=? len buffer then None
  else
    let delimiter := if bool_decide (x3f ∈ buffer) then x26 else x3f in
    let text := [delimiter] ++ param_name ++ lit "=" ++ escaped in
    if length - len buffer <=? len text then None else Some (buffer ++ text).

Definition guac_kubernetes_endpoint_uri (length : Z) (kubernetes_namespace kubernetes_pod : list byte)
    (kubernetes_container exec_command : option (list byte)) : option (list byte) :=
  escaped_namespace ←
    guac_kubernetes_escape_url_component GUAC_KUBERNETES_MAX_ENDPOINT_LENGTH kubernetes_namespace;
  escaped_pod ← guac_kubernetes_escape_url_component GUAC_KUBERNETES_MAX_ENDPOINT_LENGTH kubernetes_pod;
  let call := match exec_command with Some _ => lit "exec" | None => lit "attach" end in
  let text := lit "/api/v1/namespaces/" ++ escaped_namespace ++ lit "/pods/" ++ escaped_pod
                ++ lit "/" ++ call in
  if length <=? len text then None
  else
    buffer ←
      match exec_command with
      | Some command => guac_kubernetes_append_endpoint_param text length (lit "command") command
      | None => Some text
      end;
    buffer ←
      match kubernetes_container with
      | Some container => guac_kubernetes_append_endpoint_param buffer length (lit "container") container
      | None => Some buffer
      end;
    buffer ← guac_kubernetes_append_endpoint_param buffer length (lit "stdin") (lit "true");
    buffer ← guac_kubernetes_append_endpoint_param buffer length (lit "stdout") (lit "true");
    guac_kubernetes_append_endpoint_param buffer length (lit "tty") (lit "true").

(** ** A reader of such URLs *)

Definition hex_value (c : byte) : Z :=
  if bz c <? 58 then bz c - 48 else bz c - 55.

Fixpoint percent_decode (s : list byte) : list byte :=
  match s with
  | x25 :: h :: l :: s => zb (16 * hex_value h + hex_value l) :: percent_decode s
  | c :: s => c :: percent_decode s
  | [] => []
  end.

Definition escape_char (c : byte) : list byte :=
  if guac_kubernetes_is_url_safe c then [c] else snprintf 4 (lit "%" ++ fmt_02X (sc c)).

Definition escape (s : list byte) : list byte := flat_map escape_char s.

(** Escaping succeeds when the result and its terminator fit. *)

Lemma escape_loop_spec str : ∀ length current,
  escape_loop length current str
  = if len (escape str) <? length then Some (current ++ escape str) else None.
Proof.
  assert (Hl : ∀ c, guac_kubernetes_is_url_safe c = false →
    len (snprintf 4 (lit "%" ++ fmt_02X (sc c))) = 3).
  { intros c _. apply Z.eqb_eq. revert c. byte_check. }
  assert (Hfit : ∀ k m length (s : list byte) (o : option (list byte)), m ≤ k + 1 →
    (if length <? m then None else if len s <? length - k then o else None)
    = (if k + len s <? length then o else None)).
  { intros k m length s o Hk. destruct (Z.ltb_spec length m), (Z.ltb_spec (len s) (length - k)),
      (Z.ltb_spec (k + len s) length); done || lia. }
  induction str as [|c str IH]; intros length current; cbn [escape_loop escape flat_map].
  { rewrite app_nil_r. change (len []) with 0. repeat case_match; done || lia. }
  fold (escape str). unfold escape_char. destruct (guac_kubernetes_is_url_safe c) eqn:E.
  - rewrite length_app, IH, <-app_assoc, Nat2Z.inj_add. change (len [c]) with 1. by rewrite (Hfit 1 1).
  - rewrite length_app, IH, <-app_assoc, Nat2Z.inj_add, (Hl c E). by rewrite (Hfit 3 4).
Qed.

Definition ascii (s : list byte) : Prop := Forall (λ c, bz c < 0x80) s.

(** An escaped character of ASCII reads back. *)

Lemma decode_char c rest :
  bz c < 0x80 → percent_decode (escape_char c ++ rest) = c :: percent_decode rest.
Proof.
  intros Hc.
  assert (H : ∀ c, (bz c <? 0x80) = true →
    escape_char c = [c] ∧ c ≠ x25 ∨
    ∃ h l, escape_char c = [x25; h; l] ∧ zb (16 * hex_value h + hex_value l) = c).
  { clear. intros c Hc.
    assert (H : implb (bz c <? 0x80)
      (match escape_char c with
       | [d] => bool_decide (d = c) && negb (bool_decide (c = x25))
       | [p; h; l] => bool_decide (p = x25) && bool_decide (zb (16 * hex_value h + hex_value l) = c)
       | _ => false
       end) = true) by (revert c Hc; intros c _; revert c; byte_check).
    rewrite Hc in H. cbn [implb] in H.
    destruct (escape_char c) as [|p [|h [|l [|]]]]; try done.
    - left. apply andb_true_iff in H as [->%bool_decide_eq_true H].
      split; [done|]. intros ->. done.
    - right. exists h, l. apply andb_true_iff in H as [->%bool_decide_eq_true H%bool_decide_eq_true]. done. }
  destruct (H c (proj2 (Z.ltb_lt _ _) Hc)) as [[-> Hne]|(h & l & -> & E)]; cbn [app].
  - by destruct c.
  - cbn [percent_decode]. by rewrite E.
Qed.

Lemma decode_escape s : ascii s → percent_decode (escape s) = s.
Proof.
  induction 1 as [|c s Hc Hs IH]; [done|]. cbn [escape flat_map]. fold (escape s).
  by rewrite decode_char, IH.
Qed.

(** What separates the parts of a URL does not occur in an escaped one. *)

Lemma escape_no_separator d s :
  d ∈ lit "/?&=" → d ∉ escape s.
Proof.
  intros Hd Hin. apply list_elem_of_In, in_flat_map in Hin as (c & _ & Hc).
  assert (H : forallb (λ d, negb (bool_decide (d ∈ escape_char c))) (lit "/?&=") = true).
  { clear. revert c. byte_check. }
  apply list_elem_of_In in Hd. pose proof (proj1 (forallb_forall _ _) H d Hd) as H'. cbn beta in H'.
  apply list_elem_of_In in Hc. by rewrite bool_decide_true in H' by done.
Qed.

(** ** Parameters *)

Definition param_text (p : list byte * list byte) : list byte := fst p ++ lit "=" ++ escape (snd p).

(** The parameters behind a path. *)

Definition query_text (params : list (list byte * list byte)) : list byte :=
  match params with
  | [] => []
  | p :: params => [x3f] ++ param_text p ++ flat_map (λ p, [x26] ++ param_text p) params
  end.

Lemma append_param_text path params length name value buffer' :
  x3f ∉ path →
  guac_kubernetes_append_endpoint_param (path ++ query_text params) length name value = Some buffer' →
  buffer' = path ++ query_text (params ++ [(name, value)]).
Proof.
  intros Hp. unfold guac_kubernetes_append_endpoint_param, guac_kubernetes_escape_url_component.
  rewrite escape_loop_spec. destruct (_ <? GUAC_KUBERNETES_MAX_ENDPOINT_LENGTH); [|done].
  cbn [mbind option_bind app]. case_match; [done|]. case_match; [done|]. intros [= <-].
  rewrite <-app_assoc. f_equal. destruct params as [|p params].
  - rewrite bool_decide_false by (rewrite elem_of_app; intros [|[]%not_elem_of_nil]; done).
    cbn [query_text app flat_map]. unfold param_text. cbn [fst snd]. by rewrite app_nil_r.
  - rewrite bool_decide_true by (apply elem_of_app; right; apply list_elem_of_here).
    cbn [query_text app]. rewrite flat_map_app. cbn [flat_map]. rewrite app_nil_r.
    unfold param_text. cbn [fst snd app]. by rewrite <-!app_assoc.
Qed.

(** The parts of such a URL: namespace, pod, call and parameters. *)

Definition read_param (s : list byte) : option (list byte * list byte) :=
  match split_on x3d s with
  | [name; value] => Some (name, percent_decode value)
  | _ => None
  end.

Definition read_uri (s : list byte)
    : option (list byte * list byte * list byte * list (list byte * list byte)) :=
  match split_on x3f s with
  | [path; query] =>
      match split_on x2f path with
      | [e; api; v1; namespaces; namespace; pods; pod; call] =>
          if bool_decide (e = [] ∧ api = lit "api" ∧ v1 = lit "v1" ∧ namespaces = lit "namespaces"
                            ∧ pods = lit "pods")
          then
            params ← mapM read_param (split_on x26 query);
            Some (percent_decode namespace, percent_decode pod, call, params)
          else None
      | _ => None
      end
  | _ => None
  end.

Definition plain_name (s : list byte) : Prop := Forall (λ d, d ∉ s) (lit "?&=").

Definition fine_param (p : list byte * list byte) : Prop := plain_name (fst p) ∧ ascii (snd p).

Lemma plain_name_not d s : plain_name s → d ∈ lit "?&=" → d ∉ s.
Proof. intros H Hd. exact (proj1 (list.Forall_forall _ _) H d Hd). Qed.

Lemma param_text_not d p : fine_param p → d ∈ lit "?&" → d ∉ param_text p.
Proof.
  intros [Hn _] Hd. unfold param_text. rewrite !elem_of_app.
  assert (Hd' : d ∈ lit "?&=" ∧ d ∈ lit "/?&=" ∧ d ∉ lit "=").
  { repeat (apply elem_of_cons in Hd as [-> |Hd]); [..|by apply not_elem_of_nil in Hd];
      (split; [|split]; by apply (bool_decide_unpack _); vm_compute). }
  destruct Hd' as (D1 & D2 & D3). intros [H|[H|H]]; [by apply (plain_name_not d _ Hn)|done|].
  by apply (escape_no_separator d (snd p)).
Qed.

Lemma read_param_text p : fine_param p → read_param (param_text p) = Some p.
Proof.
  intros [Hn Ha]. unfold read_param, param_text. cbn [app].
  change (lit "=" ++ escape (snd p)) with (x3d :: escape (snd p)). rewrite split_on_app.
  - rewrite split_on_none by (apply escape_no_separator; by apply (bool_decide_unpack _); vm_compute).
    rewrite decode_escape by done. by destruct p.
  - apply (plain_name_not _ _ Hn). by apply (bool_decide_unpack _); vm_compute.
Qed.

Lemma split_query p params :
  Forall fine_param (p :: params) →
  split_on x26 (param_text p ++ flat_map (λ p, [x26] ++ param_text p) params)
  = param_text <$> (p :: params).
Proof.
  assert (Hin : x26 ∈ lit "?&") by (by apply (bool_decide_unpack _); vm_compute).
  intros [Hp Hl]%Forall_cons_iff. revert p Hp. induction Hl as [|q params Hq Hl IH]; intros p Hp; cbn [flat_map].
  - rewrite app_nil_r, split_on_none by (by apply param_text_not). done.
  - cbn [app]. rewrite split_on_app by (by apply param_text_not). rewrite IH by done. done.
Qed.

Lemma read_params_text params :
  Forall fine_param params → mapM read_param (param_text <$> params) = Some params.
Proof.
  induction 1 as [|p params Hp Hl IH]; [done|]. cbn [fmap list_fmap mapM]. rewrite read_param_text by done.
  cbn [mbind option_bind]. by rewrite IH.
Qed.

Lemma query_not_question p params :
  Forall fine_param (p :: params) →
  x3f ∉ param_text p ++ flat_map (λ p, [x26] ++ param_text p) params.
Proof.
  assert (Hin : x3f ∈ lit "?&") by (by apply (bool_decide_unpack _); vm_compute).
  intros [Hp Hl]%Forall_cons_iff. rewrite elem_of_app. intros [H|H]; [by apply (param_text_not _ _ Hp Hin)|].
  induction Hl as [|q params Hq Hl IH]; cbn [flat_map] in H; [by apply not_elem_of_nil in H|].
  apply elem_of_app in H as [H|H]; [|by apply IH]. apply elem_of_cons in H as [|H]; [done|].
  by apply (param_text_not _ _ Hq Hin).
Qed.

Definition endpoint_params (container command : option (list byte)) : list (list byte * list byte) :=
  match command with Some c => [(lit "command", c)] | None => [] end
  ++ match container with Some c => [(lit "container", c)] | None => [] end
  ++ [(lit "stdin", lit "true"); (lit "stdout", lit "true"); (lit "tty", lit "true")].

Definition endpoint_path (namespace pod : list byte) (command : option (list byte)) : list byte :=
  lit "/api/v1/namespaces/" ++ escape namespace ++ lit "/pods/" ++ escape pod
  ++ lit "/" ++ match command with Some _ => lit "exec" | None => lit "attach" end.

Lemma path_not_question namespace pod command : x3f ∉ endpoint_path namespace pod command.
Proof.
  assert (Hin : x3f ∈ lit "/?&=") by (by apply (bool_decide_unpack _); vm_compute).
  unfold endpoint_path. rewrite !elem_of_app.
  intros [H|[H|[H|[H|[H|H]]]]]; try (by apply (escape_no_separator _ _ Hin H));
    revert H; try destruct command; by apply (bool_decide_unpack _); vm_compute.
Qed.

Lemma append_some path params length name value :
  x3f ∉ path → ∀ buffer,
  (∃ b, buffer = Some b ∧ b = path ++ query_text params) ∨ buffer = None →
  (∃ b, (b ← buffer; guac_kubernetes_append_endpoint_param b length name value) = Some b ∧
     b = path ++ query_text (params ++ [(name, value)])) ∨
  (b ← buffer; guac_kubernetes_append_endpoint_param b length name value) = None.
Proof.
  intros Hp buffer [(b & -> & ->)| ->]; [|by right]. cbn [mbind option_bind].
  destruct (guac_kubernetes_append_endpoint_param _ _ _ _) as [b'|] eqn:E; [left|by right].
  exists b'. split; [done|]. by apply (append_param_text path params length).
Qed.

Lemma endpoint_uri_text length namespace pod container command uri :
  guac_kubernetes_endpoint_uri length namespace pod container command = Some uri →
  uri = endpoint_path namespace pod command ++ query_text (endpoint_params container command).
Proof.
  unfold guac_kubernetes_endpoint_uri, guac_kubernetes_escape_url_component. rewrite !escape_loop_spec.
  destruct (len (escape namespace) <? GUAC_KUBERNETES_MAX_ENDPOINT_LENGTH); [|done]. cbn [mbind option_bind].
  destruct (len (escape pod) <? GUAC_KUBERNETES_MAX_ENDPOINT_LENGTH); [|done]. cbn [mbind option_bind].
  rewrite !app_nil_l.
  change (lit "/api/v1/namespaces/" ++ escape namespace ++ lit "/pods/" ++ escape pod ++ lit "/"
            ++ match command with Some _ => lit "exec" | None => lit "attach" end)
    with (endpoint_path namespace pod command).
  pose proof (path_not_question namespace pod command) as Hq. set (path := endpoint_path _ _ _) in *.
  destruct (length <=? len path); [done|].
  assert (H1 : let o := match command with
      | Some c => guac_kubernetes_append_endpoint_param path length (lit "command") c
      | None => Some path end in
    (∃ b, o = Some b ∧ b = path ++ query_text (match command with Some c => [(lit "command", c)] | None => [] end))
    ∨ o = None).
  { destruct command as [c|]; [|left; exists path; by rewrite app_nil_r].
    pose proof (append_some path [] length (lit "command") c Hq (Some path)) as H. apply H. left.
    exists path. by rewrite app_nil_r. }
  set (o1 := match command with Some c => _ | None => Some path end) in *.
  set (p1 := match command with Some c => [(lit "command", c)] | None => [] end) in *.
  cbn zeta in H1. clearbody o1.
  assert (H2 : let o := (b ← o1; match container with
      | Some c => guac_kubernetes_append_endpoint_param b length (lit "container") c
      | None => Some b end) in
    (∃ b, o = Some b ∧ b = path ++ query_text (p1 ++ match container with Some c => [(lit "container", c)] | None => [] end))
    ∨ o = None).
  { destruct container as [c|]; [by apply append_some|].
    rewrite app_nil_r. destruct H1 as [(b & -> & ->)| ->]; [left; by eexists|by right]. }
  cbn zeta in H2. destruct o1 as [b1|]; [|done]. cbn [mbind option_bind] in *.
  set (o2 := match container with Some c => _ | None => Some b1 end) in *. clearbody o2.
  apply (append_some _ _ length (lit "stdin") (lit "true") Hq) in H2.
  apply (append_some _ _ length (lit "stdout") (lit "true") Hq) in H2.
  apply (append_some _ _ length (lit "tty") (lit "true") Hq) in H2.
  destruct o2 as [b2|]; [|done]. cbn [mbind option_bind] in *.
  destruct (guac_kubernetes_append_endpoint_param b2 _ _ _) as [b3|]; [|done]. cbn [mbind option_bind] in *.
  destruct (guac_kubernetes_append_endpoint_param b3 _ _ _) as [b4|]; [|done]. cbn [mbind option_bind] in *.
  intros E. rewrite E in H2. destruct H2 as [(b & [= <-] & ->)|]; [|done].
  unfold endpoint_params, p1. by rewrite <-!app_assoc.
Qed.

(** C13.  A URL that was put together from settings of ASCII characters, whatever they are, reads back as
    them: no setting can add a path component or a parameter. *)
Theorem endpoint_uri_reads_back length namespace pod container command uri :
  ascii namespace → ascii pod → Forall ascii (option_list container) → Forall ascii (option_list command) →
  guac_kubernetes_endpoint_uri length namespace pod container command = Some uri →
  read_uri uri
  = Some (namespace, pod, match command with Some _ => lit "exec" | None => lit "attach" end,
      endpoint_params container command).
Proof.
  intros Hn Hp Hc He E. apply endpoint_uri_text in E as ->.
  assert (Hf : Forall fine_param (endpoint_params container command)).
  { assert (F : ∀ name value, bool_decide (plain_name name) = true → ascii value → fine_param (name, value)).
    { intros name value H1 H2. split; [by apply bool_decide_eq_true in H1|done]. }
    assert (T : ascii (lit "true")) by (by apply (bool_decide_unpack _); vm_compute).
    unfold endpoint_params. apply Forall_app. split; [|apply Forall_app; split].
    - destruct command as [c|]; [|constructor]. apply Forall_cons_iff in He as [He _].
      constructor; [|constructor]. by apply F; [vm_compute|].
    - destruct container as [c|]; [|constructor]. apply Forall_cons_iff in Hc as [Hc _].
      constructor; [|constructor]. by apply F; [vm_compute|].
    - repeat (apply List.Forall_cons); [..|constructor]; by apply F; [vm_compute|]. }
  destruct (endpoint_params container command) as [|p params] eqn:Ep.
  { by destruct command, container. }
  unfold read_uri. cbn [query_text]. change ([x3f] ++ ?q) with (x3f :: q).
  rewrite split_on_app by apply path_not_question. rewrite split_on_none by (by apply query_not_question).
  assert (Hs : x2f ∈ lit "/?&=") by (by apply (bool_decide_unpack _); vm_compute).
  set (call := match command with Some _ => _ | None => _ end).
  assert (Hpath : split_on x2f (endpoint_path namespace pod command)
    = [[]; lit "api"; lit "v1"; lit "namespaces"; escape namespace; lit "pods"; escape pod; call]).
  { unfold endpoint_path. fold call.
    change (split_on x2f (x2f :: (lit "api" ++ x2f :: (lit "v1" ++ x2f :: (lit "namespaces" ++ x2f ::
      (escape namespace ++ x2f :: (lit "pods" ++ x2f :: (escape pod ++ x2f :: call)))))))
      = [[]; lit "api"; lit "v1"; lit "namespaces"; escape namespace; lit "pods"; escape pod; call]).
    rewrite <-(app_nil_l (x2f :: _)), split_on_app by apply not_elem_of_nil. f_equal.
    repeat (rewrite split_on_app by
      (apply (escape_no_separator _ _ Hs) || by apply (bool_decide_unpack _); vm_compute)).
    rewrite split_on_none by (unfold call; destruct command; by apply (bool_decide_unpack _); vm_compute).
    done. }
  rewrite Hpath, bool_decide_true by done. rewrite split_query, read_params_text by done.
  cbn [mbind option_bind]. by rewrite !decode_escape.
Qed.

Lemma endpoint_uri_reads_back_witness :
  read_uri (lit "/api/v1/namespaces/a%2Fb/pods/p%3F/exec?command=sh%20-c&stdin=true&stdout=true&tty=true")
  = Some (lit "a/b", lit "p?", lit "exec", endpoint_params None (Some (lit "sh -c"))).
Proof.
  apply (endpoint_uri_reads_back 1024 (lit "a/b") (lit "p?") None (Some (lit "sh -c")));
    try (by apply (bool_decide_unpack _); vm_compute); vm_compute; reflexivity.
Defined.

(** Bytes outside ASCII are not escaped but destroyed: each becomes [%FF], because the negative value
    of a [char] is printed with eight digits and cut off behind the first two. *)
Theorem escape_destroys_bytes length str :
  Forall (λ c, 0x80 ≤ bz c) str →
  guac_kubernetes_escape_url_component length str
  = if 3 * len str <? length then Some (concat (replicate (List.length str) (lit "%FF"))) else None.
Proof.
  intros Hs. unfold guac_kubernetes_escape_url_component. rewrite escape_loop_spec.
  assert (E : escape str = concat (replicate (List.length str) (lit "%FF"))).
  { induction Hs as [|c str Hc Hs IH]; [done|]. cbn [escape flat_map List.length replicate concat].
    fold (escape str). rewrite IH. f_equal.
    assert (H : implb (0x80 <=? bz c) (bool_decide (escape_char c = lit "%FF")) = true).
    { clear. revert c. byte_check. }
    rewrite (proj2 (Z.leb_le _ _) Hc) in H. by apply bool_decide_eq_true in H. }
  assert (L : len (escape str) = 3 * len str).
  { rewrite E. clear. induction str as [|c str IH]; [done|]. cbn [List.length replicate concat].
    rewrite length_app. change (List.length (lit "%FF")) with 3%nat. lia. }
  by rewrite L, E.
Qed.

Lemma escape_destroys_bytes_witness :
  guac_kubernetes_escape_url_component 100 [xc3; xa9] = Some (lit "%FF%FF").
Proof. apply (escape_destroys_bytes 100 [xc3; xa9]). by apply (bool_decide_unpack _); vm_compute. Defined.
