(* ===== verification/GuacdConf.v ===== *)
(** * The configuration file of guacd (src/src/guacd/conf-parse.c, conf-file.c)

    A recursive descent parser reads one line at a time from a buffer that is filled by
    [read]; the name of the current section is a static variable, a parameter is
    handed to a callback.

    A buffer is the list of its [length] bytes.  A parser returns how many it read,
    or [None] for the negative value; the location of an error is what is left of the
    buffer there. *)

From S2P Require Import Prelude RecordUpdate CString LibString.
Local Open Scope nat_scope.

Definition GUACD_CONF_MAX_NAME_LENGTH : nat := 255.
Definition GUACD_CONF_MAX_VALUE_LENGTH : nat := 8191.

(** ** The parser *)

Section parser.
  Context {D : Type} (callback : list byte → list byte → list byte → D → option (list byte) * D).

(** The static variables of the parser, and the data of the callback. *)

Record parser_state := mk_parser {
  current_section : list byte;                     (* __guacd_current_section *)
  parse_error : option (list byte * nat);          (* guacd_conf_parse_error, _location *)
  data : D;
}.

#[local] Instance eta_parser : Eta parser_state :=
  λ s, mk_parser (current_section s) (parse_error s) (data s).

Definition fails {A} (message : list byte) (buffer : list byte) (s : parser_state)
    : option A * parser_state :=
  (None, s <| parse_error := Some (message, length buffer) |>).

Fixpoint guacd_parse_whitespace (buffer : list byte) : nat :=
  match buffer with
  | c :: buffer =>
      if bool_decide (c ≠ x20 ∧ c ≠ x09) then 0 else S (guacd_parse_whitespace buffer)
  | [] => 0
  end.

(** [isalnum(c) || c == '_'], in the C locale. *)

Definition is_name_char (c : byte) : bool :=
  ((0x30 <=? bz c) && (bz c <=? 0x39) || (0x41 <=? bz c) && (bz c <=? 0x5A)
  || (0x61 <=? bz c) && (bz c <=? 0x7A))%Z || bool_decide (c = x5f).

(** The loop: the name, or the place where it became too long. *)

Fixpoint name_loop (chars_read : nat) (buffer : list byte) : list byte + list byte :=
  match buffer with
  | c :: buffer =>
      if negb (is_name_char c) then inl []
      else if GUACD_CONF_MAX_NAME_LENGTH <? chars_read + 1 then inr buffer
      else match name_loop (chars_read + 1) buffer with
           | inl name => inl (c :: name)
           | inr location => inr location
           end
  | [] => inl []
  end.

Definition guacd_parse_name (buffer : list byte) (s : parser_state)
    : option (list byte) * parser_state :=
  match name_loop 0 buffer with
  | inr location => fails (lit "Names can be no more than 255 characters long") location s
  | inl name => (Some name, s)
  end.

Definition ends_value (c : byte) : bool :=
  bool_decide (c = x23 ∨ c = x22 ∨ c = x0d ∨ c = x0a ∨ c = x20 ∨ c = x09).

Fixpoint value_loop (chars_read : nat) (buffer : list byte) : list byte + list byte :=
  match buffer with
  | c :: buffer =>
      if ends_value c then inl []
      else if GUACD_CONF_MAX_VALUE_LENGTH <? chars_read + 1 then inr buffer
      else match value_loop (chars_read + 1) buffer with
           | inl value => inl (c :: value)
           | inr location => inr location
           end
  | [] => inl []
  end.

Definition too_long : list byte := lit "Values can be no more than 8191 characters long".

Definition guacd_parse_value (buffer : list byte) (s : parser_state)
    : option (list byte) * parser_state :=
  match value_loop 0 buffer with
  | inr location => fails too_long location s
  | inl [] => fails (lit "Unquoted values must contain at least one character") buffer s
  | inl value => (Some value, s)
  end.

(** The loop over a quoted value: [chars_read] counts the opening quote, but [length] does not. The
    characters read so far, the value, and what is left. *)

Fixpoint quoted_loop (length chars_read : nat) (escaped : bool) (value buffer : list byte)
    : nat * list byte * list byte + list byte :=
  match buffer with
  | c :: rest =>
      if chars_read <? length then
        if negb escaped && bool_decide (c = x22 ∨ c = x0d ∨ c = x0a)
        then inl (chars_read, value, buffer)
        else
          let '(escaped, value) :=
            if negb escaped && bool_decide (c = x5c) then (true, value) else (false, value ++ [c]) in
          if GUACD_CONF_MAX_VALUE_LENGTH <? chars_read + 1 then inr rest
          else quoted_loop length (chars_read + 1) escaped value rest
      else inl (chars_read, value, buffer)
  | [] => inl (chars_read, value, buffer)
  end.

(** The characters read and the value; none read when there is no quoted value. *)

Definition guacd_parse_quoted_value (buffer : list byte) (s : parser_state)
    : option (nat * list byte) * parser_state :=
  match buffer with
  | x22 :: rest =>
      match quoted_loop (length rest) 1 false [] rest with
      | inr location => fails too_long location s
      | inl (chars_read, value, buffer) =>
          match buffer with
          | x22 :: _ => (Some (chars_read + 1, value), s)
          | _ => fails ([x27; x22; x27] ++ lit " expected") buffer s
          end
      end
  | _ => (Some (0, []), s)
  end.

Definition guacd_parse_parameter (buffer : list byte) (s : parser_state) : option nat * parser_state :=
  let param_start := buffer in
  match guacd_parse_name buffer s with
  | (None, s) => (None, s)
  | (Some [], s) => (Some 0, s)
  | (Some param_name, s) =>
      if bool_decide (current_section s = []) then
        fails (lit "Parameters must have a corresponding section") buffer s
      else
        let chars_read := length param_name in
        let buffer := drop (length param_name) buffer in
        let n := guacd_parse_whitespace buffer in
        let chars_read := chars_read + n in
        let buffer := drop n buffer in
        match buffer with
        | x3d :: buffer =>
            let n := guacd_parse_whitespace buffer in
            let chars_read := chars_read + 1 + n in
            let buffer := drop n buffer in
            match
              match guacd_parse_quoted_value buffer s with
              | (Some (0, _), s) =>
                  let '(value, s) := guacd_parse_value buffer s in
                  ((λ value, (length value, value)) <$> value, s)
              | r => r
              end
            with
            | (None, s) => (None, s)
            | (Some (n, param_value), s) =>
                let '(error, d) := callback (current_section s) param_name param_value (data s) in
                let s := s <| data := d |> in
                match error with
                | Some message => fails message param_start s
                | None => (Some (chars_read + n), s)
                end
            end
        | _ => fails (lit "'=' expected") buffer s
        end
  end.

Definition guacd_parse_section (buffer : list byte) (s : parser_state) : option nat * parser_state :=
  match buffer with
  | x5b :: buffer =>
      match guacd_parse_name buffer s with
      | (None, s) => (None, s)
      | (Some [], s) => fails (lit "Section names must contain at least one character") buffer s
      | (Some name, s) =>
          let s := s <| current_section := name |> in
          let buffer := drop (length name) buffer in
          match buffer with
          | x5d :: _ => (Some (1 + length name + 1), s)
          | _ => fails (lit "']' expected") buffer s
          end
      end
  | _ => (Some 0, s)
  end.

Definition guacd_parse_declaration (buffer : list byte) (s : parser_state) : option nat * parser_state :=
  match guacd_parse_section buffer s with
  | (Some 0, s) => guacd_parse_parameter buffer s
  | r => r
  end.

Definition is_eol (c : byte) : bool := bool_decide (c = x0a ∨ c = x0d).

(** The loop within a comment: the characters before the end of the line, if there is one. *)

Fixpoint comment_loop (buffer : list byte) : option nat :=
  match buffer with
  | c :: buffer => if is_eol c then Some 0 else S <$> comment_loop buffer
  | [] => None
  end.

Definition guacd_parse_comment (buffer : list byte) (s : parser_state) : option nat * parser_state :=
  match buffer with
  | x23 :: buffer =>
      match comment_loop buffer with
      | Some n => (Some (1 + n), s)
      | None => fails (lit "expected end-of-line") [] s
      end
  | _ => (Some 0, s)
  end.

Definition guacd_parse_line_end (buffer : list byte) (s : parser_state) : option nat * parser_state :=
  let chars_read := guacd_parse_whitespace buffer in
  let buffer := drop chars_read buffer in
  match guacd_parse_comment buffer s with
  | (None, s) => (None, s)
  | (Some n, s) =>
      let buffer := drop n buffer in
      match buffer with
      | c :: _ =>
          if is_eol c then (Some (chars_read + n + 1), s)
          else fails (lit "expected end-of-line") buffer s
      | [] => fails (lit "expected end-of-line") buffer s
      end
  end.

Definition guacd_parse_line (buffer : list byte) (s : parser_state) : option nat * parser_state :=
  let n1 := guacd_parse_whitespace buffer in
  let buffer := drop n1 buffer in
  match guacd_parse_declaration buffer s with
  | (None, s) => (None, s)
  | (Some n2, s) =>
      match guacd_parse_line_end (drop n2 buffer) s with
      | (None, s) => (None, s)
      | (Some n3, s) => (Some (n1 + n2 + n3), s)
      end
  end.

Definition guacd_parse_conf (buffer : list byte) (s : parser_state) : option nat * parser_state :=
  match buffer with
  | [] => (Some 0, s)
  | _ => guacd_parse_line buffer s
  end.

(** ** The file

    [read] fills what is free of a buffer of 8192 bytes: [sizes] are the most it returns each time, and
    when there are no more of them it fails. *)

Definition BUFFER_SIZE : nat := 8192.

(** All the lines of the buffer: what is left, the number of the line, the last result. *)

Fixpoint parse_buffer (fuel : nat) (buffer : list byte) (line : nat) (s : parser_state)
    : list byte * nat * option nat * parser_state :=
  match fuel with
  | O => (buffer, line, Some 0, s)
  | S fuel =>
      match guacd_parse_conf buffer s with
      | (Some (S n), s) => parse_buffer fuel (drop (S n) buffer) (line + 1) s
      | (parsed, s) => (buffer, line, parsed, s)
      end
  end.

(** The value returned, the line and what is left of the buffer. *)

Fixpoint parse_file_loop (sizes : list nat) (file buffer : list byte) (line : nat) (parsed : option nat)
    (s : parser_state) : bool * nat * list byte * parser_state :=
  match sizes with
  | [] => (true, line, buffer, s)                       (* read fails *)
  | size :: sizes =>
      let n := Nat.min size (BUFFER_SIZE - length buffer) in
      match take n file with
      | [] => (match parsed with None => true | Some _ => false end, line, buffer, s)
      | chunk =>
          let buffer := buffer ++ chunk in
          let '(buffer, line, parsed, s) := parse_buffer (S (length buffer)) buffer line s in
          parse_file_loop sizes (drop n file) buffer line parsed s
      end
  end.

Definition parse_file (sizes : list nat) (file : list byte) (s : parser_state)
    : bool * nat * list byte * parser_state :=
  parse_file_loop sizes file [] 1 (Some 0) s.

End parser.

#[export] Instance eta_parser_state D : Eta (@parser_state D) :=
  λ s, mk_parser (current_section s) (parse_error s) (data s).

(** ** The configuration *)

Inductive guac_client_log_level :=
| GUAC_LOG_ERROR
| GUAC_LOG_WARNING
| GUAC_LOG_INFO
| GUAC_LOG_DEBUG
| GUAC_LOG_TRACE.

Definition guacd_parse_log_level (name : list byte) : option guac_client_log_level :=
  if bool_decide (name = lit "info") then Some GUAC_LOG_INFO
  else if bool_decide (name = lit "error") then Some GUAC_LOG_ERROR
  else if bool_decide (name = lit "warning") then Some GUAC_LOG_WARNING
  else if bool_decide (name = lit "debug") then Some GUAC_LOG_DEBUG
  else if bool_decide (name = lit "trace") then Some GUAC_LOG_TRACE
  else None.

(** Strings are those that [guac_strdup] returns when there is memory. *)

Record guacd_config := mk_config {
  bind_host : list byte;
  bind_port : list byte;
  pidfile : option (list byte);
  foreground : bool;
  print_version : bool;
  cert_file : option (list byte);
  key_file : option (list byte);
  max_log_level : guac_client_log_level;
}.

#[export] Instance eta_config : Eta guacd_config :=
  λ c, mk_config (bind_host c) (bind_port c) (pidfile c) (foreground c) (print_version c) (cert_file c)
    (key_file c) (max_log_level c).

Definition invalid_log_level : list byte :=
  lit "Invalid log level. Valid levels are: "
  ++ [x22] ++ lit "trace" ++ [x22] ++ lit ", " ++ [x22] ++ lit "debug" ++ [x22] ++ lit ", "
  ++ [x22] ++ lit "info" ++ [x22] ++ lit ", " ++ [x22] ++ lit "warning" ++ [x22] ++ lit ", and "
  ++ [x22] ++ lit "error" ++ [x22] ++ lit ".".

(** The result is the message of an error, if there is one. *)

Definition guacd_conf_callback (ENABLE_SSL : bool) (section param value : list byte) (config : guacd_config)
    : option (list byte) * guacd_config :=
  let unhandled := (Some (lit "Invalid parameter or section name"), config) in
  if bool_decide (section = lit "server") then
    if bool_decide (param = lit "bind_host") then (None, config <| bind_host := value |>)
    else if bool_decide (param = lit "bind_port") then (None, config <| bind_port := value |>)
    else unhandled
  else if bool_decide (section = lit "daemon") then
    if bool_decide (param = lit "pid_file") then (None, config <| pidfile := Some value |>)
    else if bool_decide (param = lit "log_level") then
      match guacd_parse_log_level value with
      | None => (Some invalid_log_level, config)
      | Some level => (None, config <| max_log_level := level |>)
      end
    else unhandled
  else if bool_decide (section = lit "ssl") then
    if ENABLE_SSL then
      if bool_decide (param = lit "server_certificate") then (None, config <| cert_file := Some value |>)
      else if bool_decide (param = lit "server_key") then (None, config <| key_file := Some value |>)
      else unhandled
    else (Some (lit "SSL support not compiled in"), config)
  else unhandled.

Definition default_config : guacd_config :=
  mk_config (lit "localhost") (lit "4822") None false false None None GUAC_LOG_INFO.

(** [guacd_conf_parse_file], from the state the process starts in: the value it returns and the
    configuration. *)

Definition guacd_conf_parse_file (ENABLE_SSL : bool) (sizes : list nat) (file : list byte)
    (config : guacd_config) : bool * guacd_config :=
  let '(failed, _, _, s) :=
    parse_file (guacd_conf_callback ENABLE_SSL) sizes file (mk_parser [] None config) in
  (failed, data s).

(** [open] returns [fd] and sets [errno] if it fails; [None] is NULL. *)

Definition guacd_conf_load (ENABLE_SSL : bool) (fd errno : Z) (sizes : list nat) (file : list byte)
    : option guacd_config :=
  if (0 <? fd)%Z then
    let '(failed, conf) := guacd_conf_parse_file ENABLE_SSL sizes file default_config in
    if failed then None else Some conf
  else if negb (errno =? 2)%Z then None       (* ENOENT *)
  else Some default_config.
