(* ===== verification/GuacdConfSpec.v ===== *)
(** * The grammar of the configuration file

    Lines are printed the way conf-parse.c describes them, and a file of such lines is
    read back to the calls of the callback, however [read] cuts it up: what the parser does
    to its static variable and to the configuration for a line that is not complete
    yet is undone when it reads the line again. *)

From S2P Require Import Prelude RecordUpdate LibString GuacdConf.
Local Open Scope nat_scope.

(** ** Lines *)

Inductive conf_value :=
| Plain (value : list byte)
| Quoted (value : list byte).

Inductive declaration :=
| Nothing
| Section_name (name : list byte)
| Parameter_value (name ws1 ws2 : list byte) (value : conf_value).

#[export] Instance conf_value_eq : EqDecision conf_value.
Proof. solve_decision. Defined.

#[export] Instance declaration_eq : EqDecision declaration.
Proof. solve_decision. Defined.

Record conf_line := mk_line {
  indent : list byte;
  decl : declaration;
  spaces : list byte;
  comment : option (list byte);
  eol : byte;
}.

Definition escape_value (v : list byte) : list byte :=
  flat_map (λ c, if bool_decide (c = x22 ∨ c = x5c) then [x5c; c] else [c]) v.

Definition value_text (v : conf_value) : list byte :=
  match v with
  | Plain v => v
  | Quoted v => [x22] ++ escape_value v ++ [x22]
  end.

Definition value_of (v : conf_value) : list byte := match v with Plain v | Quoted v => v end.

Definition decl_text (d : declaration) : list byte :=
  match d with
  | Nothing => []
  | Section_name name => [x5b] ++ name ++ [x5d]
  | Parameter_value name ws1 ws2 v => name ++ ws1 ++ [x3d] ++ ws2 ++ value_text v
  end.

Definition comment_text (c : option (list byte)) : list byte :=
  match c with Some c => x23 :: c | None => [] end.

(** A line without what ends it. *)

Definition line_body (l : conf_line) : list byte :=
  indent l ++ decl_text (decl l) ++ spaces l ++ comment_text (comment l).

Definition line_text (l : conf_line) : list byte := line_body l ++ [eol l].

(** What may be written. *)

Definition blank (s : list byte) : Prop := Forall (λ c, c = x20 ∨ c = x09) s.
Definition no_eol (s : list byte) : Prop := Forall (λ c, is_eol c = false) s.

Definition name_ok (s : list byte) : Prop :=
  s ≠ [] ∧ Forall (λ c, is_name_char c = true) s ∧ length s ≤ GUACD_CONF_MAX_NAME_LENGTH.

Definition value_ok (v : conf_value) : Prop :=
  match v with
  | Plain v => v ≠ [] ∧ Forall (λ c, ends_value c = false) v ∧ length v ≤ GUACD_CONF_MAX_VALUE_LENGTH
  | Quoted v => no_eol v ∧ 1 + length (escape_value v) ≤ GUACD_CONF_MAX_VALUE_LENGTH
  end.

Definition decl_ok (d : declaration) : Prop :=
  match d with
  | Nothing => True
  | Section_name name => name_ok name
  | Parameter_value name ws1 ws2 v => name_ok name ∧ blank ws1 ∧ blank ws2 ∧ value_ok v
  end.

Definition line_ok (l : conf_line) : Prop :=
  blank (indent l) ∧ decl_ok (decl l) ∧ blank (spaces l) ∧ Forall no_eol (option_list (comment l)) ∧
  is_eol (eol l) = true ∧ (decl l = Nothing → spaces l = []) ∧ length (line_text l) ≤ BUFFER_SIZE.

#[export] Instance name_ok_dec s : Decision (name_ok s).
Proof. unfold name_ok. apply _. Defined.

#[export] Instance value_ok_dec v : Decision (value_ok v).
Proof. destruct v; cbn; unfold no_eol; apply _. Defined.

#[export] Instance decl_ok_dec d : Decision (decl_ok d).
Proof. destruct d; cbn; unfold blank; apply _. Defined.

#[export] Instance line_ok_dec l : Decision (line_ok l).
Proof.
  unfold line_ok, blank, no_eol. destruct (decl l) eqn:E; [|apply _..]. cbn.
  destruct (decide (spaces l = [])) as [H|H]; [|right; tauto].
  destruct (decide (Forall (λ c, c = x20 ∨ c = x09) (indent l) ∧ Forall (λ c, c = x20 ∨ c = x09) (spaces l)
    ∧ Forall (λ s, Forall (λ c, is_eol c = false) s) (option_list (comment l)) ∧ is_eol (eol l) = true
    ∧ length (line_text l) ≤ BUFFER_SIZE)); [left|right]; tauto.
Defined.

(** ** The tokens *)

Definition head_not (P : byte → bool) (s : list byte) : Prop :=
  match s with c :: _ => P c = false | [] => True end.

Lemma whitespace_spec w r :
  blank w → (match r with c :: _ => c ≠ x20 ∧ c ≠ x09 | [] => True end) →
  guacd_parse_whitespace (w ++ r) = length w.
Proof.
  intros Hw Hr. induction Hw as [|c w Hc Hw IH]; cbn.
  - destruct r as [|c r]; [done|]. cbn. by rewrite bool_decide_true.
  - rewrite bool_decide_false by (by destruct Hc as [-> | ->]; naive_solver). by rewrite IH.
Qed.

Lemma name_loop_spec name r : ∀ n,
  Forall (λ c, is_name_char c = true) name → n + length name ≤ GUACD_CONF_MAX_NAME_LENGTH →
  head_not is_name_char r → name_loop n (name ++ r) = inl name.
Proof.
  induction name as [|c name IH]; intros n Hn Hl Hr; cbn [app].
  - destruct r as [|c r]; [done|]. cbn [name_loop]. by rewrite Hr.
  - apply Forall_cons_iff in Hn as [Hc Hn]. cbn [length] in Hl. cbn [name_loop].
    rewrite Hc. cbn [negb].
    rewrite (proj2 (Nat.ltb_ge GUACD_CONF_MAX_NAME_LENGTH (n + 1))) by lia. by rewrite IH by (done || lia).
Qed.

Lemma value_loop_spec v r : ∀ n,
  Forall (λ c, ends_value c = false) v → n + length v ≤ GUACD_CONF_MAX_VALUE_LENGTH →
  (match r with c :: _ => ends_value c = true | [] => True end) → value_loop n (v ++ r) = inl v.
Proof.
  induction v as [|c v IH]; intros n Hv Hl Hr; cbn [app].
  - destruct r as [|c r]; [done|]. cbn [value_loop]. by rewrite Hr.
  - apply Forall_cons_iff in Hv as [Hc Hv]. cbn [length] in Hl. cbn [value_loop]. rewrite Hc.
    rewrite (proj2 (Nat.ltb_ge GUACD_CONF_MAX_VALUE_LENGTH (n + 1))) by lia. by rewrite IH by (done || lia).
Qed.

Lemma quoted_loop_spec v r : ∀ len n value,
  no_eol v → n + length (escape_value v) ≤ GUACD_CONF_MAX_VALUE_LENGTH →
  n + length (escape_value v) ≤ len →
  quoted_loop len n false value (escape_value v ++ x22 :: r)
  = inl (n + length (escape_value v), value ++ v, x22 :: r).
Proof.
  induction v as [|c v IH]; intros len n value Hv Hm Hl.
  { cbn [escape_value flat_map app length quoted_loop]. rewrite Nat.add_0_r, app_nil_r.
    by destruct (n <? len). }
  apply Forall_cons_iff in Hv as [Hc Hv]. cbn [escape_value flat_map] in *. fold (escape_value v) in *.
  rewrite length_app in *. case_bool_decide as Hq; cbn [length app] in *.
  - cbn [quoted_loop]. rewrite (proj2 (Nat.ltb_lt n len)) by lia.
    rewrite (bool_decide_false (x5c = x22 ∨ _)) by naive_solver. cbn [negb andb].
    rewrite bool_decide_true by done. rewrite (proj2 (Nat.ltb_ge _ (n + 1))) by lia.
    cbn [quoted_loop]. rewrite (proj2 (Nat.ltb_lt (n + 1) len)) by lia. cbn [negb andb].
    rewrite (proj2 (Nat.ltb_ge _ (n + 1 + 1))) by lia. rewrite IH by (done || lia).
    rewrite <-app_assoc. cbn [app]. do 3 f_equal. lia.
  - cbn [quoted_loop]. rewrite (proj2 (Nat.ltb_lt n len)) by lia.
    assert (Hc' : c ≠ x0d ∧ c ≠ x0a).
    { unfold is_eol in Hc. apply bool_decide_eq_false in Hc. naive_solver. }
    rewrite (bool_decide_false (c = x22 ∨ _)) by naive_solver. cbn [negb andb].
    rewrite bool_decide_false by naive_solver. rewrite (proj2 (Nat.ltb_ge _ (n + 1))) by lia.
    rewrite IH by (done || lia). rewrite <-app_assoc. cbn [app]. do 3 f_equal. lia.
Qed.

Lemma comment_loop_spec c e r : no_eol c → is_eol e = true → comment_loop (c ++ e :: r) = Some (length c).
Proof.
  intros Hc He. induction Hc as [|d c Hd Hc IH]; cbn; [by rewrite He|]. by rewrite Hd, IH.
Qed.

Lemma comment_loop_none c : no_eol c → comment_loop c = None.
Proof. induction 1 as [|d c Hd Hc IH]; [done|]. cbn. by rewrite Hd, IH. Qed.

Lemma eol_facts e : is_eol e = true →
  e ≠ x20 ∧ e ≠ x09 ∧ e ≠ x23 ∧ e ≠ x5b ∧ e ≠ x3d ∧ is_name_char e = false ∧ ends_value e = true.
Proof. intros [-> | ->]%bool_decide_eq_true; done. Qed.

Lemma drop_length_app {A} (l r : list A) : drop (length l) (l ++ r) = r.
Proof. apply drop_app_length. Qed.

(** ** Parsing a line *)

Section parsing.
  Context {D : Type} (callback : list byte → list byte → list byte → D → option (list byte) * D).

Local Abbreviation state := (@parser_state D).

Lemma line_end_ok sp c e r (s : state) :
  blank sp → Forall no_eol (option_list c) → is_eol e = true →
  guacd_parse_line_end (sp ++ comment_text c ++ e :: r) s
  = (Some (length sp + length (comment_text c) + 1), s).
Proof.
  intros Hs Hc He. destruct (eol_facts e He) as (E1 & E2 & E3 & _). unfold guacd_parse_line_end.
  rewrite whitespace_spec; [|done|by destruct c; cbn]. rewrite drop_length_app. unfold guacd_parse_comment.
  destruct c as [c|]; cbn [comment_text app].
  - apply Forall_cons_iff in Hc as [Hc _]. rewrite comment_loop_spec by done.
    change (drop (1 + length c) (x23 :: c ++ e :: r)) with (drop (length c) (c ++ e :: r)).
    rewrite drop_length_app, He. done.
  - destruct e; try done; rewrite He; cbn; done.
Qed.

(** What follows a declaration starts with none of these. *)

Definition tail_ok (t : list byte) : Prop :=
  match t with
  | c :: _ => c ≠ x5b ∧ is_name_char c = false ∧ ends_value c = true
  | [] => True
  end.

Lemma tail_of_line sp c e r :
  blank sp → is_eol e = true → tail_ok (sp ++ comment_text c ++ e :: r).
Proof.
  intros Hs He. destruct (eol_facts e He) as (_ & _ & _ & E4 & _ & E6 & E7).
  destruct Hs as [|b sp [-> | ->] _]; [|done|done]. by destruct c.
Qed.

Lemma declaration_none t (s : state) :
  tail_ok t → guacd_parse_declaration callback t s = (Some 0, s).
Proof.
  intros Ht. unfold guacd_parse_declaration, guacd_parse_section.
  destruct t as [|c t]; [done|]. destruct Ht as (H1 & H2 & _).
  assert (E : guacd_parse_parameter callback (c :: t) s = (Some 0, s)).
  { unfold guacd_parse_parameter, guacd_parse_name. cbn [name_loop]. by rewrite H2. }
  destruct c; done.
Qed.

Lemma name_not_bracket name r : name_ok name → ∃ c t, name = c :: t ∧ c ≠ x5b ∧ name ++ r = c :: t ++ r.
Proof.
  intros (Hne & Hn & _). destruct name as [|c t]; [done|]. apply Forall_cons_iff in Hn as [Hc _].
  exists c, t. split; [done|]. split; [|done]. intros ->. done.
Qed.

Lemma parse_name_ok name r (s : state) :
  name_ok name → head_not is_name_char r → guacd_parse_name (name ++ r) s = (Some name, s).
Proof. intros (_ & Hn & Hl) Hr. unfold guacd_parse_name. by rewrite name_loop_spec. Qed.

Lemma section_ok name r (s : state) :
  name_ok name →
  guacd_parse_declaration callback (([x5b] ++ name ++ [x5d]) ++ r) s
  = (Some (length ([x5b] ++ name ++ [x5d])), s <| current_section := name |>).
Proof.
  intros Hn. unfold guacd_parse_declaration, guacd_parse_section. rewrite <-!app_assoc. cbn [app].
  rewrite parse_name_ok by done. destruct name as [|c t] eqn:En; [by destruct Hn|]. rewrite <-En.
  rewrite drop_length_app. cbn [length]. rewrite length_app. cbn [length].
  replace (1 + length name + 1) with (S (length name + 1)) by lia. done.
Qed.

(** The value in a buffer, by either way. *)

Lemma value_parsed v t (s : state) :
  value_ok v → tail_ok t →
  match guacd_parse_quoted_value (value_text v ++ t) s with
  | (Some (0, _), s) =>
      let '(value, s) := guacd_parse_value (value_text v ++ t) s in
      ((λ value, (length value, value)) <$> value, s)
  | r => r
  end = (Some (length (value_text v), value_of v), s).
Proof.
  intros Hv Ht. destruct v as [v|v]; cbn [value_text value_of].
  - destruct Hv as (Hne & Hv & Hl). destruct v as [|c v]; [done|].
    assert (Hq : c ≠ x22). { apply Forall_cons_iff in Hv as [Hc _]. by intros ->. }
    assert (E : guacd_parse_quoted_value ((c :: v) ++ t) s = (Some (0, []), s)) by (by destruct c).
    rewrite E. unfold guacd_parse_value. rewrite value_loop_spec; [done..|].
    destruct t; [done|by destruct Ht as (_ & _ & ?)].
  - destruct Hv as (Hv & Hl). cbn [app]. unfold guacd_parse_quoted_value. rewrite <-app_assoc. cbn [app].
    rewrite quoted_loop_spec by (done || rewrite length_app; cbn [length]; lia).
    cbn [length app]. rewrite length_app. cbn [length].
    replace (1 + length (escape_value v) + 1) with (S (length (escape_value v) + 1)) by lia. done.
Qed.

Lemma value_head v t : value_ok v → match value_text v ++ t with c :: _ => c ≠ x20 ∧ c ≠ x09 | [] => True end.
Proof.
  destruct v as [[|c v]|v]; [by intros [? _]| |done]. intros (_ & Hv & _).
  apply Forall_cons_iff in Hv as [Hc _]. unfold ends_value in Hc. apply bool_decide_eq_false in Hc.
  cbn. naive_solver.
Qed.

Lemma parameter_ok name ws1 ws2 v t (s : state) :
  name_ok name → blank ws1 → blank ws2 → value_ok v → tail_ok t → current_section s ≠ [] →
  guacd_parse_declaration callback (decl_text (Parameter_value name ws1 ws2 v) ++ t) s
  = let '(error, d) := callback (current_section s) name (value_of v) (data s) in
    match error with
    | Some message =>
        fails message (decl_text (Parameter_value name ws1 ws2 v) ++ t) (s <| data := d |>)
    | None => (Some (length (decl_text (Parameter_value name ws1 ws2 v))), s <| data := d |>)
    end.
Proof.
  intros Hn H1 H2 Hv Ht Hs. cbn [decl_text].
  set (text := name ++ ws1 ++ [x3d] ++ ws2 ++ value_text v).
  assert (Ht' : text ++ t = name ++ ws1 ++ x3d :: ws2 ++ value_text v ++ t).
  { unfold text. by rewrite <-!app_assoc. }
  destruct (name_not_bracket name (ws1 ++ x3d :: ws2 ++ value_text v ++ t) Hn) as (c & n & En & Hc & Ec).
  unfold guacd_parse_declaration.
  assert (E0 : guacd_parse_section (text ++ t) s = (Some 0, s)).
  { rewrite Ht', Ec. by destruct c. }
  rewrite E0. unfold guacd_parse_parameter. rewrite Ht' at 1.
  rewrite parse_name_ok; [|done|destruct H1 as [|? ? [-> | ->] _]; done].
  destruct name as [|c0 n0] eqn:Enn; [by destruct Hn|]. rewrite <-Enn in *. rewrite bool_decide_false by done.
  assert (Hdrop : drop (length name) (text ++ t) = ws1 ++ x3d :: ws2 ++ value_text v ++ t).
  { by rewrite Ht', drop_length_app. }
  rewrite Hdrop, (whitespace_spec ws1), drop_length_app by done.
  rewrite (whitespace_spec ws2), drop_length_app by (done || by apply value_head).
  rewrite value_parsed by done.
  destruct (callback _ _ _ _) as [[m|] d]; [done|]. do 2 f_equal.
  unfold text. rewrite !length_app. cbn [length]. rewrite ?Enn. cbn [length]. lia.
Qed.

(** What a line does: the section and the data after it; [None] when it is refused. *)

Definition run_line (l : conf_line) (section : list byte) (d : D) : option (list byte * D) :=
  match decl l with
  | Nothing => Some (section, d)
  | Section_name name => Some (name, d)
  | Parameter_value name _ _ v =>
      if bool_decide (section = []) then None
      else match callback section name (value_of v) d with
           | (None, d) => Some (section, d)
           | (Some _, _) => None
           end
  end.

Lemma decl_head l : decl_ok (decl l) → decl l ≠ Nothing → ∀ r,
  match decl_text (decl l) ++ r with c :: _ => c ≠ x20 ∧ c ≠ x09 | [] => False end.
Proof.
  intros Hd Hne r. destruct (decl l) as [|name|name ws1 ws2 v]; [done|done|].
  destruct Hd as ((Hn & Hc & _) & _). destruct name as [|c name]; [done|].
  apply Forall_cons_iff in Hc as [Hc _]. cbn. split; by intros ->.
Qed.

Lemma line_parses l r (s : state) section d :
  line_ok l → run_line l (current_section s) (data s) = Some (section, d) →
  ∃ s', guacd_parse_conf callback (line_text l ++ r) s = (Some (length (line_text l)), s') ∧
    current_section s' = section ∧ data s' = d.
Proof.
  intros (Hi & Hd & Hs & Hc & He & Hnil & _) Hrun.
  assert (E : line_text l ++ r = indent l ++ decl_text (decl l) ++ spaces l ++ comment_text (comment l) ++ eol l :: r).
  { unfold line_text, line_body. by rewrite <-!app_assoc. }
  assert (El : length (line_text l) = length (indent l) + length (decl_text (decl l))
    + (length (spaces l) + length (comment_text (comment l)) + 1)).
  { unfold line_text, line_body. rewrite !length_app. cbn [length]. lia. }
  pose proof (tail_of_line (spaces l) (comment l) (eol l) r Hs He) as Ht.
  set (t := spaces l ++ comment_text (comment l) ++ eol l :: r) in *.
  assert (Hws : guacd_parse_whitespace (indent l ++ decl_text (decl l) ++ t) = length (indent l)).
  { apply whitespace_spec; [done|]. destruct (decide (decl l = Nothing)) as [En|En].
    - rewrite En. cbn [decl_text app]. unfold t. rewrite (Hnil En). destruct (eol_facts _ He) as (? & ? & _).
      by destruct (comment l).
    - pose proof (decl_head l Hd En t) as H. by destruct (decl_text (decl l) ++ t). }
  assert (Hdecl : ∃ s', guacd_parse_declaration callback (decl_text (decl l) ++ t) s
      = (Some (length (decl_text (decl l))), s') ∧ current_section s' = section ∧ data s' = d).
  { unfold run_line in Hrun. destruct (decl l) as [|name|name ws1 ws2 v] eqn:Ed.
    - injection Hrun as <- <-. exists s. cbn [decl_text app length]. split; [by apply declaration_none|done].
    - injection Hrun as <- <-. eexists. split; [by apply section_ok|done].
    - case_bool_decide as Hsec; [done|]. destruct Hd as (Hn & H1 & H2 & Hv).
      rewrite parameter_ok by done. destruct (callback _ _ _ _) as [[m|] d']; [done|].
      injection Hrun as <- <-. eexists. done. }
  destruct Hdecl as (s' & E2 & <- & <-). exists s'. split; [|done].
  rewrite E. assert (Hne : indent l ++ decl_text (decl l) ++ t ≠ []).
  { unfold t. intros H. apply (f_equal length) in H. rewrite !length_app in H. cbn [length] in H. lia. }
  unfold guacd_parse_conf. destruct (indent l ++ decl_text (decl l) ++ t) as [|c0 r0] eqn:E0; [done|].
  rewrite <-E0 in *. unfold guacd_parse_line. rewrite Hws, drop_length_app, E2, drop_length_app.
  unfold t. rewrite line_end_ok by done. by rewrite El.
Qed.

(** ** Parsing what is not a line yet *)

Definition same (s s' : state) : Prop := current_section s' = current_section s ∧ data s' = data s.

Lemma no_eol_drop n q : no_eol q → no_eol (drop n q).
Proof. apply Forall_drop. Qed.

Lemma line_end_no_eol q (s : state) :
  no_eol q → ∃ s', guacd_parse_line_end q s = (None, s') ∧ same s s'.
Proof.
  intros Hq. unfold guacd_parse_line_end. apply (no_eol_drop (guacd_parse_whitespace q)) in Hq.
  set (b := drop _ q) in *. clearbody b. unfold guacd_parse_comment.
  assert (H : ∀ (o : nat) (s : state), ∃ s', (match drop o b with
      | c :: _ => if is_eol c then (Some (guacd_parse_whitespace q + o + 1), s)
                  else fails (lit "expected end-of-line") (drop o b) s
      | [] => fails (lit "expected end-of-line") (drop o b) s end) = (None, s') ∧ same s s').
  { intros o s0. apply (no_eol_drop o) in Hq. destruct (drop o b) as [|c b']; [by eexists|].
    apply Forall_cons_iff in Hq as [-> _]. by eexists. }
  destruct b as [|c b]; [by apply (H 0 s)|].
  destruct (decide (c = x23)) as [->|Hc].
  - apply Forall_cons_iff in Hq as [_ Hq]. rewrite comment_loop_none by done. by eexists.
  - assert (E : (match c with x23 => match comment_loop b with Some n => (Some (1 + n), s)
        | None => fails (lit "expected end-of-line") [] s end | _ => (Some 0, s) end) = (Some 0, s)) by (by destruct c).
    rewrite E. by apply (H 0 s).
Qed.

Lemma no_eol_fails q (s : state) :
  no_eol q → q ≠ [] →
  ∃ s', guacd_parse_conf callback q s = (None, s') ∧
    same (snd (guacd_parse_declaration callback (drop (guacd_parse_whitespace q) q) s)) s'.
Proof.
  intros Hq Hne. unfold guacd_parse_conf. destruct q as [|c q0] eqn:Eq; [done|]. rewrite <-Eq in *.
  unfold guacd_parse_line. destruct (guacd_parse_declaration _ _ _) as [[n|] s1]; [|by exists s1].
  destruct (line_end_no_eol (drop n (drop (guacd_parse_whitespace q) q)) s1) as (s' & -> & Hs).
  { by do 2 apply no_eol_drop. }
  by exists s'.
Qed.

Lemma name_loop_inv b : ∀ n name,
  name_loop n b = inl name →
  ∃ r, b = name ++ r ∧ Forall (λ c, is_name_char c = true) name ∧ head_not is_name_char r ∧
    (name = [] ∨ n + length name ≤ GUACD_CONF_MAX_NAME_LENGTH).
Proof.
  induction b as [|c b IH]; intros n name; cbn [name_loop].
  { intros [= <-]. exists []. split; [done|]. split; [constructor|]. split; [done|by left]. }
  destruct (is_name_char c) eqn:Hc; cbn [negb].
  - destruct (Nat.ltb_spec GUACD_CONF_MAX_NAME_LENGTH (n + 1)) as [|Hn]; [done|].
    destruct (name_loop (n + 1) b) as [name'|] eqn:E; [|done]. intros [= <-].
    destruct (IH _ _ E) as (r & -> & Hf & Hr & Hl). exists r. split; [done|]. split; [by constructor|].
    split; [done|]. right. destruct Hl as [-> |Hl]; cbn [length]; lia.
  - intros [= <-]. exists (c :: b). split; [done|]. split; [constructor|]. split; [done|by left].
Qed.

Lemma whitespace_inv b : ∃ w r, b = w ++ r ∧ guacd_parse_whitespace b = length w ∧ blank w.
Proof.
  induction b as [|c b (w & r & E & El & Hw)]; [exists [], []; split; [done|]; split; [done|constructor]|]. cbn [guacd_parse_whitespace].
  case_bool_decide as Hc; [exists [], (c :: b); split; [done|]; split; [done|constructor]|].
  exists (c :: w), r. split; [by rewrite E|]. split; [cbn [length]; by rewrite El|].
  constructor; [|done]. destruct (decide (c = x20)); [by left|]. right.
  destruct (decide (c = x09)); [done|]. by destruct Hc.
Qed.

(** What reading a parameter can do: nothing to the section, and no more than one call. *)

Definition called (b : list byte) (s s' : state) : Prop :=
  current_section s' = current_section s ∧
  (data s' = data s ∨
   ∃ name w rest v, b = name ++ w ++ x3d :: rest ∧ blank w ∧ name_ok name ∧
     data s' = snd (callback (current_section s) name v (data s))).

Lemma value_same b (s : state) :
  same s (snd (match guacd_parse_quoted_value b s with
    | (Some (0, _), s) =>
        let '(value, s) := guacd_parse_value b s in
        ((λ value, (length value, value)) <$> value, s)
    | r => r
    end)).
Proof.
  assert (Hq : same s (snd (guacd_parse_quoted_value b s))).
  { unfold guacd_parse_quoted_value. repeat case_match; done. }
  destruct (guacd_parse_quoted_value b s) as [[[[|n] v]|] s1]; try done.
  assert (Hv : same s1 (snd (guacd_parse_value b s1))).
  { unfold guacd_parse_value. repeat case_match; done. }
  destruct (guacd_parse_value b s1) as [o s2]. cbn [snd] in *. destruct Hq, Hv. split; congruence.
Qed.

Lemma parameter_called b (s : state) : called b s (snd (guacd_parse_parameter callback b s)).
Proof.
  assert (H0 : ∀ s', same s s' → called b s s') by (intros s' [H1 H2]; split; [done|by left]).
  unfold guacd_parse_parameter, guacd_parse_name.
  destruct (name_loop 0 b) as [name|] eqn:En; [|by apply H0].
  destruct (name_loop_inv b 0 name En) as (r & Eb & Hn & _ & Hl).
  destruct name as [|c name0] eqn:Ename; [by apply H0|]. rewrite <-Ename in *.
  case_bool_decide; [by apply H0|].
  assert (Er : drop (length name) b = r) by (by rewrite Eb, drop_length_app).
  rewrite Er. destruct (whitespace_inv r) as (w & r' & Ew & El & Hw).
  assert (Er' : drop (guacd_parse_whitespace r) r = r') by (by rewrite El, Ew, drop_length_app).
  rewrite Er'. destruct r' as [|e r']; [by apply H0|].
  destruct (decide (e = x3d)) as [->|He]; [|by apply H0; destruct e].
  set (b' := drop (guacd_parse_whitespace r') r'). pose proof (value_same b' s) as Hv.
  destruct (match guacd_parse_quoted_value b' s with (Some (0, _), s) => _ | r => r end) as [[[n v]|] s1];
    [|by apply H0]. cbn [snd] in Hv. destruct Hv as [V1 V2]. rewrite V1, V2.
  destruct (callback (current_section s) name v (data s)) as [[m|] d] eqn:Ec; cbn [snd];
    (split; [by cbn|]; right; exists name, w, r', v; split; [by rewrite Eb, Ew|]; split; [done|];
     split; [|by rewrite Ec]; split; [by rewrite Ename|]; split; [done|]; destruct Hl; [by subst|done]).
Qed.

(** A state that a line that was cut off may leave: reading the line again gives the same. *)

Definition harmless (l : conf_line) (s s' : state) : Prop :=
  match decl l with
  | Nothing => same s s'
  | Section_name _ => data s' = data s
  | Parameter_value name _ _ _ =>
      current_section s' = current_section s ∧
      (data s' = data s ∨ ∃ v, data s' = snd (callback (current_section s) name v (data s)))
  end.

Lemma blank_no_eol w : blank w → no_eol w.
Proof. intros H. eapply Forall_impl; [|exact H]. by intros c [-> | ->]. Qed.

Lemma name_no_eol name : name_ok name → no_eol name.
Proof.
  intros (_ & H & _). eapply Forall_impl; [|exact H]. intros c Hc.
  destruct (is_eol c) eqn:E; [|done]. destruct (eol_facts c E) as (_ & _ & _ & _ & _ & Hn & _). congruence.
Qed.

Lemma escape_no_eol v : no_eol v → no_eol (escape_value v).
Proof.
  induction 1 as [|c v Hc Hv IH]; [constructor|]. cbn [escape_value flat_map]. apply Forall_app. split; [|done].
  case_bool_decide; by repeat constructor.
Qed.

Lemma value_no_eol v : value_ok v → no_eol (value_text v).
Proof.
  destruct v as [v|v]; cbn [value_text].
  - intros (_ & H & _). eapply Forall_impl; [|exact H]. intros c Hc.
    destruct (is_eol c) eqn:E; [|done]. destruct (eol_facts c E) as (_ & _ & _ & _ & _ & _ & Hn). congruence.
  - intros [H _]. apply Forall_app. split; [by repeat constructor|]. apply Forall_app.
    split; [by apply escape_no_eol|by repeat constructor].
Qed.

Lemma body_no_eol l : line_ok l → no_eol (line_body l).
Proof.
  intros (Hi & Hd & Hs & Hc & _). unfold line_body, no_eol. rewrite !Forall_app. split; [by apply blank_no_eol|].
  split; [|split; [by apply blank_no_eol|]].
  - destruct (decl l) as [|name|name ws1 ws2 v]; cbn [decl_text decl_ok] in *; [constructor| |].
    + rewrite !Forall_app. split; [by repeat constructor|]. split; [by apply name_no_eol|by repeat constructor].
    + destruct Hd as (Hn & H1 & H2 & Hv). rewrite !Forall_app. split; [by apply name_no_eol|].
      split; [by apply blank_no_eol|]. split; [by repeat constructor|]. split; [by apply blank_no_eol|].
      by apply value_no_eol.
  - destruct (comment l) as [c|]; [|constructor]. apply Forall_cons_iff in Hc as [Hc _]. by constructor.
Qed.

Lemma prefix_app_cases {A} (q a b : list A) :
  q `prefix_of` a ++ b → q `prefix_of` a ∨ ∃ q', q = a ++ q' ∧ q' `prefix_of` b.
Proof.
  revert a. induction q as [|x q IH]; intros a [k E]; [left; apply prefix_nil|].
  destruct a as [|y a]; [right; exists (x :: q); split; [done|by exists k]|].
  injection E as -> E. destruct (IH a) as [[k' ->]|(q' & -> & Hq)]; [by exists k|left; by exists k'|].
  right. by exists q'.
Qed.

Lemma whitespace_prefix w q : blank w → q `prefix_of` w → drop (guacd_parse_whitespace q) q = [].
Proof.
  intros Hw [k ->]. apply Forall_app in Hw as [Hw _]. rewrite <-(app_nil_r q) at 1.
  by rewrite whitespace_spec, drop_all.
Qed.

Lemma bracket_data t (s : state) : data (snd (guacd_parse_declaration callback (x5b :: t) s)) = data s.
Proof.
  unfold guacd_parse_declaration, guacd_parse_section, guacd_parse_name.
  destruct (name_loop 0 t) as [[|c name]|]; [done| |done].
  destruct (drop _ t) as [|e t']; [done|]. by destruct e.
Qed.

Lemma name_text_unique name name' w w' r r' :
  name_ok name → name_ok name' → blank w → blank w' →
  name ++ w ++ x3d :: r = name' ++ w' ++ x3d :: r' → name = name'.
Proof.
  intros (_ & H1 & L1) (_ & H2 & L2) Hw Hw' E.
  assert (H : ∀ w r, blank w → head_not is_name_char (w ++ x3d :: r)).
  { intros u v Hu. by destruct Hu as [|? ? [-> | ->] _]. }
  pose proof (name_loop_spec name (w ++ x3d :: r) 0 H1 L1 (H _ _ Hw)) as E1.
  pose proof (name_loop_spec name' (w' ++ x3d :: r') 0 H2 L2 (H _ _ Hw')) as E2.
  rewrite E in E1. congruence.
Qed.

Lemma partial_harmless l q (s : state) :
  line_ok l → q `prefix_of` line_body l → q ≠ [] →
  ∃ s', guacd_parse_conf callback q s = (None, s') ∧ harmless l s s'.
Proof.
  intros Hl Hq Hne. pose proof (body_no_eol l Hl) as Hbody.
  assert (Hno : no_eol q). { destruct Hq as [k E]. unfold no_eol in *. rewrite E in Hbody. by apply Forall_app in Hbody as [? _]. }
  destruct (no_eol_fails q s Hno Hne) as (s' & E & Hs'). exists s'. split; [done|].
  assert (Hsame : ∀ s1, same s1 s' → harmless l s s1 → harmless l s s').
  { intros s1 [S1 S2] H. unfold harmless in *. destruct (decl l); [destruct H; split; congruence|congruence|].
    by rewrite S1, S2. }
  apply (Hsame _ Hs'). clear E Hs' Hsame s'.
  assert (Hrefl : harmless l s s). { unfold harmless. destruct (decl l); [done|done|by split; [|left]]. }
  destruct Hl as (Hi & Hd & Hsp & Hc & _ & Hnil & _). unfold line_body in Hq.
  apply prefix_app_cases in Hq as [Hq|(q' & -> & Hq)].
  { rewrite (whitespace_prefix (indent l)) by done. by rewrite declaration_none. }
  destruct q' as [|c q'].
  { rewrite app_nil_r, (whitespace_prefix (indent l) (indent l)) by done. by rewrite declaration_none. }
  assert (Hws : guacd_parse_whitespace (indent l ++ c :: q') = length (indent l)).
  { apply whitespace_spec; [done|]. destruct Hq as [k E].
    destruct (decide (decl l = Nothing)) as [En|En].
    - rewrite En, (Hnil En) in E. destruct (comment l); [|done]. by injection E as <- _.
    - pose proof (decl_head l Hd En (spaces l ++ comment_text (comment l))) as H. by rewrite E in H. }
  rewrite Hws, drop_length_app.
  destruct (decl l) as [|name|name ws1 ws2 v] eqn:Ed; cbn [decl_text] in Hq.
  - assert (Ht : tail_ok (c :: q')).
    { destruct Hq as [k E]. rewrite (Hnil eq_refl) in E. destruct (comment l); [|done]. by injection E as <- _. }
    by rewrite declaration_none.
  - destruct Hq as [k E]. injection E as <- _. unfold harmless. rewrite Ed. apply bracket_data.
  - destruct Hd as (Hn & H1 & H2 & Hv). unfold harmless. rewrite Ed.
    assert (Hc5 : c ≠ x5b).
    { destruct Hq as [k E]. destruct name as [|c' name]; [by destruct Hn|]. injection E as <- _.
      destruct Hn as (_ & Hn & _). apply Forall_cons_iff in Hn as [Hn _]. by intros ->. }
    unfold guacd_parse_declaration.
    assert (E0 : guacd_parse_section (c :: q') s = (Some 0, s)) by (by destruct c).
    rewrite E0. destruct (parameter_called (c :: q') s) as [P1 [P2|(name' & w & r & v' & Eq & Hw & Hn' & P2)]].
    { split; [done|by left]. }
    split; [done|]. right. exists v'. destruct Hq as [k E]. rewrite Eq in E.
    rewrite <-!app_assoc in E. cbn [app] in E.
    by rewrite (name_text_unique name name' ws1 w _ _ Hn Hn' H1 Hw E).
Qed.

(** ** Files *)

Definition run_line_on (acc : option (list byte * D)) (l : conf_line) : option (list byte * D) :=
  '(section, d) ← acc; run_line l section d.

Definition run_lines (ls : list conf_line) (section : list byte) (d : D) : option (list byte * D) :=
  foldl run_line_on (Some (section, d)) ls.

Definition file_text (ls : list conf_line) : list byte := flat_map line_text ls.

(** A call that succeeds undoes an earlier one for the same parameter. *)

Class Overwrites : Prop :=
  overwrites section param v v' d :
    let r := callback section param v d in
    let r' := callback section param v (snd (callback section param v' d)) in
    fst r' = fst r ∧ (fst r = None → snd r' = snd r).

Context {O : Overwrites}.

Lemma run_lines_cons l ls section d :
  run_lines (l :: ls) section d = '(section, d) ← run_line l section d; run_lines ls section d.
Proof.
  unfold run_lines. cbn [foldl run_line_on mbind option_bind].
  destruct (run_line l section d) as [[sec d']|]; [done|]. cbn [mbind option_bind].
  induction ls as [|k ls IH]; [done|]. exact IH.
Qed.

Lemma harmless_run l (s s' : state) :
  harmless l s s' →
  run_line l (current_section s') (data s') = run_line l (current_section s) (data s).
Proof.
  unfold harmless, run_line. destruct (decl l) as [|name|name ws1 ws2 v]; [by intros [-> ->]|by intros ->|].
  intros [-> [-> |[v' ->]]]; [done|]. case_bool_decide; [done|].
  destruct (overwrites (current_section s) name (value_of v) v' (data s)) as [E1 E2].
  destruct (callback _ _ _ (snd _)) as [e' d'], (callback _ _ (value_of v) (data s)) as [e d].
  cbn [fst snd] in *. subst e'. destruct e; [done|]. by rewrite E2.
Qed.

(** Where the parser is: it has read all of the lines before [ls] and part of what follows. *)

Definition at_lines (ls : list conf_line) (section : list byte) (d : D) (buffer rest : list byte)
    (parsed : option nat) (s : state) : Prop :=
  buffer ++ rest = file_text ls ∧
  match ls with
  | [] => buffer = [] ∧ current_section s = section ∧ data s = d
  | l :: _ =>
      buffer `prefix_of` line_body l ∧
      run_line l (current_section s) (data s) = run_line l section d
  end ∧
  (buffer = [] → parsed = Some 0).

Lemma line_text_pos l : 0 < length (line_text l).
Proof. unfold line_text. rewrite length_app. cbn. lia. Qed.

Lemma prefix_take_cases {A} (b r t r' : list A) :
  b ++ r = t ++ r' → (∃ k, b = t ++ k ∧ r' = k ++ r) ∨ (∃ k c, t = b ++ c :: k).
Proof.
  revert t. induction b as [|x b IH]; intros t E; cbn in E.
  - destruct t as [|c t]; [left; exists []; by split|right; by exists t, c].
  - destruct t as [|c t]; [left; exists (x :: b); by split|]. injection E as -> E.
    destruct (IH t E) as [(k & -> & ->)|(k & c' & ->)]; [left; by exists k|right; by exists k, c'].
Qed.

Lemma parse_buffer_ok fuel : ∀ ls section d buffer rest line s sd,
  Forall line_ok ls → run_lines ls section d = Some sd →
  buffer ++ rest = file_text ls →
  match ls with
  | [] => current_section s = section ∧ data s = d
  | l :: _ => run_line l (current_section s) (data s) = run_line l section d
  end →
  length buffer < fuel →
  ∃ ls' section' d' buffer' line' parsed s',
    parse_buffer callback fuel buffer line s = (buffer', line', parsed, s') ∧
    Forall line_ok ls' ∧ run_lines ls' section' d' = Some sd ∧
    at_lines ls' section' d' buffer' rest parsed s'.
Proof.
  induction fuel as [|fuel IH]; intros ls section d buffer rest line s sd Hls Hrun E Hs Hf; [lia|].
  cbn [parse_buffer]. destruct ls as [|l ls].
  { cbn [file_text flat_map] in E. destruct buffer as [|c buffer]; [|done]. cbn [guacd_parse_conf].
    eexists [], section, d, [], line, (Some 0), s. split; [done|]. split; [constructor|]. split; [done|].
    split; [done|]. done. }
  apply Forall_cons_iff in Hls as [Hl Hls]. rewrite run_lines_cons in Hrun.
  destruct (run_line l section d) as [[sec1 d1]|] eqn:Er; [|done]. cbn [mbind option_bind] in Hrun.
  cbn [file_text flat_map] in E. fold (file_text ls) in E.
  destruct (prefix_take_cases _ _ _ _ E) as [(k & -> & Ek)|(k & c & Et)].
  - destruct (line_parses l k s sec1 d1 Hl Hs) as (s1 & Ep & S1 & D1). rewrite Ep.
    pose proof (line_text_pos l) as Hpos. destruct (length (line_text l)) as [|n] eqn:En; [lia|].
    rewrite <-En, drop_length_app. apply (IH ls sec1 d1); try done.
    + destruct ls; [done|]. by rewrite S1, D1.
    + rewrite length_app in Hf. lia.
  - assert (Hq : buffer `prefix_of` line_body l).
    { unfold line_text in Et. destruct k as [|x k _] using rev_ind.
      - apply app_inj_tail in Et as [-> _]. done.
      - rewrite app_comm_cons, app_assoc in Et. apply app_inj_tail in Et as [-> _]. by exists (c :: k). }
    destruct (decide (buffer = [])) as [-> |Hne].
    + cbn [guacd_parse_conf]. eexists (l :: ls), section, d, [], line, (Some 0), s.
      split; [done|]. split; [by constructor|]. split; [by rewrite run_lines_cons, Er|].
      split; [exact E|]. split; [|done]. split; [done|by rewrite Hs, Er].
    + destruct (partial_harmless l buffer s Hl Hq Hne) as (s1 & Ep & Hh). rewrite Ep.
      eexists (l :: ls), section, d, buffer, line, None, s1.
      split; [done|]. split; [by constructor|]. split; [by rewrite run_lines_cons, Er|].
      split; [exact E|]. split; [|done]. split; [done|]. rewrite (harmless_run l s s1 Hh). by rewrite Hs, Er.
Qed.

Lemma parse_file_ok sizes : ∀ ls section d file buffer line parsed s sd,
  Forall (λ n, 0 < n) sizes → length file < length sizes →
  Forall line_ok ls → run_lines ls section d = Some sd →
  at_lines ls section d buffer file parsed s →
  ∃ line' s', parse_file_loop callback sizes file buffer line parsed s = (false, line', [], s') ∧
    current_section s' = fst sd ∧ data s' = snd sd.
Proof.
  induction sizes as [|size sizes IH]; intros ls section d file buffer line parsed s sd Hsz Hn Hls Hrun (E & Hat & Hp);
    [cbn in Hn; lia|].
  apply Forall_cons_iff in Hsz as [Hsize Hsz]. cbn [parse_file_loop length] in *.
  set (n := Nat.min size (BUFFER_SIZE - length buffer)).
  assert (Hroom : ls ≠ [] → 0 < n).
  { intros Hne. destruct ls as [|l ls]; [done|]. apply Forall_cons_iff in Hls as [(_ & _ & _ & _ & _ & _ & Hlen) _].
    destruct Hat as [[k Hq] _]. unfold line_text in Hlen. rewrite Hq, !length_app in Hlen. cbn [length] in Hlen. lia. }
  destruct (decide (file = [])) as [-> |Hfile].
  - rewrite take_nil. destruct ls as [|l ls].
    + destruct Hat as (-> & <- & <-). rewrite Hp by done. injection Hrun as <-. eexists _, s. done.
    + exfalso. rewrite app_nil_r in E. destruct Hat as [[k Hq] _]. rewrite E in Hq.
      apply (f_equal length) in Hq. cbn [file_text flat_map] in Hq. unfold line_text in Hq.
      rewrite !length_app in Hq. cbn in Hq. lia.
  - assert (Hne : ls ≠ []). { intros ->. destruct Hat as (-> & _). destruct file; [done|discriminate]. }
    specialize (Hroom Hne).
    destruct (take n file) as [|c chunk] eqn:Ec.
    { destruct file; [done|]. destruct n; [lia|discriminate]. }
    rewrite <-Ec. set (b := buffer ++ take n file).
    destruct (parse_buffer_ok (S (length b)) ls section d b (drop n file) line s sd)
      as (ls' & sec' & d' & b' & line' & parsed' & s' & Eb & Hls' & Hrun' & Hat'); try done.
    { unfold b. by rewrite <-app_assoc, take_drop. }
    { destruct ls; [done|]. by destruct Hat. }
    { lia. }
    rewrite Eb. apply (IH ls' sec' d'); try done. rewrite length_drop.
    destruct file; [done|]. cbn [length] in *. lia.
Qed.

End parsing.

(** ** The configuration of guacd *)

#[export] Instance conf_callback_overwrites ENABLE_SSL : Overwrites (guacd_conf_callback ENABLE_SSL).
Proof.
  intros section param v v' d. unfold guacd_conf_callback. cbn zeta.
  destruct (bool_decide (section = lit "server")); [|destruct (bool_decide (section = lit "daemon"));
    [|destruct (bool_decide (section = lit "ssl")); [|done]]].
  - destruct (bool_decide (param = lit "bind_host")); [done|]. by destruct (bool_decide _).
  - destruct (bool_decide (param = lit "pid_file")); [done|].
    destruct (bool_decide (param = lit "log_level")); [|done].
    by destruct (guacd_parse_log_level v') eqn:?, (guacd_parse_log_level v) eqn:?.
  - destruct ENABLE_SSL; [|done]. destruct (bool_decide (param = lit "server_certificate")); [done|].
    by destruct (bool_decide _).
Qed.

(** C11.  A file of lines of the grammar is read to the result of its lines, one after another, and without an
    error, however [read] cuts it into pieces: the lines that are cut off in the buffer, which the
    parser refuses after it may have changed the section and the configuration, are read again. *)
Theorem conf_file_read sizes ls config section ENABLE_SSL d :
  Forall (λ n, 0 < n) sizes → length (file_text ls) < length sizes → Forall line_ok ls →
  run_lines (guacd_conf_callback ENABLE_SSL) ls [] config = Some (section, d) →
  guacd_conf_parse_file ENABLE_SSL sizes (file_text ls) config = (false, d).
Proof.
  intros Hs Hn Hls Hrun. unfold guacd_conf_parse_file, parse_file.
  destruct (parse_file_ok (guacd_conf_callback ENABLE_SSL) sizes ls [] config (file_text ls) [] 1 (Some 0)
    (mk_parser [] None config) (section, d)) as (line & s & -> & _ & Ed); try done.
  - split; [done|]. split; [|done]. destruct ls; [done|]. split; [apply prefix_nil|done].
  - by rewrite Ed.
Qed.

Definition sample_lines : list conf_line :=
  [mk_line [] Nothing [] (Some (lit " guacd")) x0a;
   mk_line [] (Section_name (lit "server")) [x20] None x0a;
   mk_line [x20] (Parameter_value (lit "bind_host") [x20] [x20] (Quoted ([x22] ++ lit "a\b"))) [] None x0a;
   mk_line [] (Parameter_value (lit "bind_port") [] [] (Plain (lit "4822"))) [x09] (Some (lit "#")) x0a].

Lemma conf_file_read_witness :
  guacd_conf_parse_file true (replicate 200 5) (file_text sample_lines) default_config
  = (false, mk_config ([x22] ++ lit "a\b") (lit "4822") None false false None None GUAC_LOG_INFO).
Proof.
  apply (conf_file_read (replicate 200 5) sample_lines default_config (lit "server") true).
  - apply Forall_replicate. lia.
  - apply Nat.ltb_lt. vm_compute. done.
  - by apply (bool_decide_unpack _); vm_compute.
  - vm_compute. done.
Defined.
