(* ===== verification/Streams.v ===== *)
(** * Streams, objects, layers and buffers (src/src/libguac/client.c, user.c)

    What the server creates on a connection is numbered by pools: layers and
    buffers of a client, the streams of a client (seen by all its users), the streams
    and objects of one user.  A stream lives in a table of the client or the
    user, at the place its number says, and is closed where its index is -1.

    A function pointer is a number, [None] for [NULL]; what it points to
    matters to [UserInput] only.  Memory that [guac_mem_alloc] hands out has any contents. *)

From S2P Require Import Prelude RecordUpdate Mem Run Pool.
From stdpp Require Import relations.
Local Open Scope Z_scope.

Local Abbreviation len l := (Z.of_nat (List.length l)).

Definition GUAC_CLIENT_MAX_STREAMS : Z := 512.
Definition GUAC_CLIENT_CLOSED_STREAM_INDEX : Z := -1.
Definition GUAC_BUFFER_POOL_INITIAL_SIZE : Z := 1024.
Definition GUAC_USER_MAX_STREAMS : Z := 512.
Definition GUAC_USER_CLOSED_STREAM_INDEX : Z := -1.
Definition GUAC_USER_MAX_OBJECTS : Z := 64.
Definition GUAC_USER_UNDEFINED_OBJECT_INDEX : Z := -1.

Local Abbreviation pointer := (option Z).

Record stream := mk_stream {
  stream_index : Z;
  stream_data : pointer;
  stream_ack_handler : pointer;
  stream_blob_handler : pointer;
  stream_end_handler : pointer;
}.

#[export] Instance eta_stream : Eta stream :=
  λ s, mk_stream (stream_index s) (stream_data s) (stream_ack_handler s) (stream_blob_handler s)
    (stream_end_handler s).

Record object := mk_object {
  object_index : Z;
  object_data : pointer;
  object_get_handler : pointer;
  object_put_handler : pointer;
}.

#[export] Instance eta_object : Eta object :=
  λ o, mk_object (object_index o) (object_data o) (object_get_handler o) (object_put_handler o).

#[export] Instance stream_inhabited : Inhabited stream :=
  populate (mk_stream 0 None None None None).
#[export] Instance object_inhabited : Inhabited object :=
  populate (mk_object 0 None None None).

(** ** Clients *)

(** The fields of a [guac_client] that number things. *)

Record client_tables := mk_client {
  __buffer_pool : guac_pool;
  __layer_pool : guac_pool;
  client_stream_pool : guac_pool;               (* __stream_pool *)
  client_output_streams : list stream;     (* __output_streams *)
}.

#[export] Instance eta_client : Eta client_tables :=
  λ c, mk_client (__buffer_pool c) (__layer_pool c) (client_stream_pool c) (client_output_streams c).

(** [streams] is what the memory of the table held. *)

Definition guac_client_alloc_tables (streams : list stream) : client_tables :=
  mk_client (guac_pool_alloc GUAC_BUFFER_POOL_INITIAL_SIZE)
    (guac_pool_alloc GUAC_BUFFER_POOL_INITIAL_SIZE) (guac_pool_alloc 0)
    ((λ s, s <| stream_index := GUAC_CLIENT_CLOSED_STREAM_INDEX |>) <$> streams).

(** A layer is its index. *)

Definition guac_client_alloc_layer (client : client_tables) : run (Z * client_tables) :=
  '(i, pool) ← guac_pool_next_int (__layer_pool client);
  Run (i + 1, client <| __layer_pool := pool |>).

Definition guac_client_alloc_buffer (client : client_tables) : run (Z * client_tables) :=
  '(i, pool) ← guac_pool_next_int (__buffer_pool client);
  Run (- i - 1, client <| __buffer_pool := pool |>).

Definition guac_client_free_buffer (client : client_tables) (index : Z) : run client_tables :=
  pool ← guac_pool_free_int (__buffer_pool client) (- index - 1);
  Run (client <| __buffer_pool := pool |>).

Definition guac_client_free_layer (client : client_tables) (index : Z) : run client_tables :=
  pool ← guac_pool_free_int (__layer_pool client) index;
  Run (client <| __layer_pool := pool |>).

(** The stream is its place in the table; [None] for [NULL]. *)

Definition guac_client_alloc_stream (client : client_tables) : run (option nat * client_tables) :=
  '(i, pool) ← guac_pool_next_int_below (client_stream_pool client) GUAC_CLIENT_MAX_STREAMS;
  let client := client <| client_stream_pool := pool |> in
  if i <? 0 then Run (None, client)
  else
    let place := Z.to_nat i in
    Run (Some place,
         client <| client_output_streams :=
           <[place := mk_stream (i * 2 + 1) None None None None]> (client_output_streams client) |>).

Definition guac_client_free_stream (client : client_tables) (place : nat) : run client_tables :=
  stream ← deref (client_output_streams client !! place);
  let freed_index := stream_index stream in
  let client :=
    client <| client_output_streams :=
      <[place := stream <| stream_index := GUAC_CLIENT_CLOSED_STREAM_INDEX |>]>
        (client_output_streams client) |> in
  pool ← guac_pool_free_int (client_stream_pool client) (Z.quot (freed_index - 1) 2);
  Run (client <| client_stream_pool := pool |>).

(** ** Users *)

Record user_tables := mk_user {
  user_stream_pool : guac_pool;                 (* __stream_pool *)
  user_output_streams : list stream;       (* __output_streams *)
  user_input_streams : list stream;        (* __input_streams *)
  user_object_pool : guac_pool;                 (* __object_pool *)
  user_objects : list object;              (* __objects *)
}.

#[export] Instance eta_user : Eta user_tables :=
  λ u, mk_user (user_stream_pool u) (user_output_streams u) (user_input_streams u)
    (user_object_pool u) (user_objects u).

Definition guac_user_alloc_tables (output input : list stream) (objects : list object)
    : user_tables :=
  let close s := s <| stream_index := GUAC_USER_CLOSED_STREAM_INDEX |> in
  mk_user (guac_pool_alloc 0) (close <$> output) (close <$> input) (guac_pool_alloc 0)
    ((λ o, o <| object_index := GUAC_USER_UNDEFINED_OBJECT_INDEX |>) <$> objects).

Definition guac_user_alloc_stream (user : user_tables) : run (option nat * user_tables) :=
  '(i, pool) ← guac_pool_next_int_below (user_stream_pool user) GUAC_USER_MAX_STREAMS;
  let user := user <| user_stream_pool := pool |> in
  if i <? 0 then Run (None, user)
  else
    let place := Z.to_nat i in
    Run (Some place,
         user <| user_output_streams :=
           <[place := mk_stream (i * 2) None None None None]> (user_output_streams user) |>).

Definition guac_user_free_stream (user : user_tables) (place : nat) : run user_tables :=
  stream ← deref (user_output_streams user !! place);
  let freed_index := stream_index stream in
  let user :=
    user <| user_output_streams :=
      <[place := stream <| stream_index := GUAC_USER_CLOSED_STREAM_INDEX |>]>
        (user_output_streams user) |> in
  pool ← guac_pool_free_int (user_stream_pool user) (Z.quot freed_index 2);
  Run (user <| user_stream_pool := pool |>).

Definition guac_user_alloc_object (user : user_tables) : run (option nat * user_tables) :=
  '(i, pool) ← guac_pool_next_int_below (user_object_pool user) GUAC_USER_MAX_OBJECTS;
  let user := user <| user_object_pool := pool |> in
  if i <? 0 then Run (None, user)
  else
    let place := Z.to_nat i in
    Run (Some place,
         user <| user_objects := <[place := mk_object i None None None]> (user_objects user) |>).

Definition guac_user_free_object (user : user_tables) (place : nat) : run user_tables :=
  object ← deref (user_objects user !! place);
  let freed_index := object_index object in
  let user :=
    user <| user_objects :=
      <[place := object <| object_index := GUAC_USER_UNDEFINED_OBJECT_INDEX |>]>
        (user_objects user) |> in
  pool ← guac_pool_free_int (user_object_pool user) freed_index;
  Run (user <| user_object_pool := pool |>).

(** ** Tables over a pool

    The index kept at place [i] of a table is [enc i] while [i] is taken from the pool,
    and -1 otherwise. *)

Record table_ok (limit : Z) (enc : Z → Z) (pool : guac_pool) (indices : list Z) (used : list Z)
    : Prop := {
  table_pool : pool_ok pool used;
  table_min : min_size pool = 0;
  table_next : __next_value pool ≤ limit;
  table_length : len indices = limit;
  table_lookup : ∀ i, 0 ≤ i < limit →
    indices !! Z.to_nat i = Some (if bool_decide (i ∈ used) then enc i else -1);
}.

Lemma table_start limit enc indices :
  0 ≤ limit → len indices = limit → Forall (λ i, i = -1) indices →
  table_ok limit enc (guac_pool_alloc 0) indices [].
Proof.
  intros Hl Hlen Hall. split; [apply pool_alloc_ok|done|done|done|].
  intros i Hi. rewrite bool_decide_false by (by apply not_elem_of_nil).
  destruct (lookup_lt_is_Some_2 indices (Z.to_nat i)) as [x Hx]; [lia|].
  rewrite Hx. f_equal. exact (proj1 (list.Forall_lookup _ _) Hall _ _ Hx).
Qed.

Lemma table_used_range limit enc pool indices used v :
  table_ok limit enc pool indices used → v ∈ used → 0 ≤ v < limit.
Proof.
  intros [Hp _ Hn _ _] Hv. enough (0 ≤ v < __next_value pool) by lia.
  apply (pool_ok_elem pool used v Hp), elem_of_app. by left.
Qed.

Lemma table_alloc limit enc pool indices used :
  0 ≤ limit < INT_MAX → table_ok limit enc pool indices used →
  (len used = limit ∧ guac_pool_next_int_below pool limit = Run (-1, pool)) ∨
  (len used < limit ∧ ∃ v pool', guac_pool_next_int_below pool limit = Run (v, pool') ∧
     0 ≤ v < limit ∧ (v ∉ used) ∧
     table_ok limit enc pool' (<[Z.to_nat v := enc v]> indices) (v :: used)).
Proof.
  intros Hl Ht. pose proof Ht as [Hp Hm Hn Hlen Hlk].
  pose proof (pool_ok_length _ _ Hp) as Hsum.
  destruct (next_below_ok pool used limit Hp) as
    [(Hfull & E)|(Hroom & v & pool' & E & Hp' & Hv & Hr & Hm' & Hn')]; [lia|lia| |].
  - left. split; [lia|done].
  - right. split; [done|]. exists v, pool'. split; [done|]. split; [done|]. split; [done|].
    split; [done|lia|done|by rewrite length_insert|].
    intros i Hi. destruct (decide (i = v)) as [->|Hne].
    + rewrite list_lookup_insert_eq by lia. by rewrite bool_decide_true by apply list_elem_of_here.
    + rewrite list_lookup_insert_ne by lia. rewrite Hlk by done. f_equal.
      assert (Hb : bool_decide (i ∈ v :: used) = bool_decide (i ∈ used)).
      { apply bool_decide_ext. rewrite elem_of_cons. split; [by intros [?|?]|by right]. }
      by rewrite Hb.
Qed.

Lemma table_free limit enc pool indices used v :
  table_ok limit enc pool indices used → v ∈ used →
  ∃ pool' used', guac_pool_free_int pool v = Run pool' ∧ used ≡ₚ v :: used' ∧
    table_ok limit enc pool' (<[Z.to_nat v := -1]> indices) used'.
Proof.
  intros Ht Hv. pose proof (table_used_range _ _ _ _ _ _ Ht Hv) as Hr.
  pose proof Ht as [Hp Hm Hn Hlen Hlk].
  destruct (free_ok pool used v Hp Hv) as (pool' & used' & E & Eu & Hp' & _ & Hn' & Hm').
  exists pool', used'. split; [done|]. split; [done|].
  split; [done|lia|lia|by rewrite length_insert|].
  assert (Hnd : NoDup (v :: used')).
  { rewrite <-Eu. pose proof (pool_ok_NoDup _ _ Hp) as H. by apply list.NoDup_app in H as []. }
  apply list.NoDup_cons in Hnd as [Hv' _].
  intros i Hi. destruct (decide (i = v)) as [->|Hne].
  - rewrite list_lookup_insert_eq by lia. by rewrite bool_decide_false.
  - rewrite list_lookup_insert_ne by lia. rewrite Hlk by done. f_equal.
    assert (Hb : bool_decide (i ∈ used) = bool_decide (i ∈ used')).
    { apply bool_decide_ext. rewrite Eu, elem_of_cons. split; [by intros [?|?]|by right]. }
    by rewrite Hb.
Qed.

(** What is open at a place. *)

Lemma table_open limit enc pool indices used place ix :
  (∀ i, 0 ≤ i → enc i ≠ -1) → table_ok limit enc pool indices used →
  indices !! place = Some ix → ix ≠ -1 → Z.of_nat place ∈ used ∧ ix = enc (Z.of_nat place).
Proof.
  intros He [Hp _ _ Hlen Hlk] Hix Hne. pose proof (lookup_lt_Some _ _ _ Hix) as Hlt.
  specialize (Hlk (Z.of_nat place) ltac:(lia)). rewrite Nat2Z.id, Hix in Hlk.
  apply (inj Some) in Hlk. case_bool_decide as H; [done|]. by subst.
Qed.

Definition open_indices (indices : list Z) : list Z := filter (λ i, i ≠ -1) indices.

(** The indices of what is open are distinct when [enc] is injective. *)

Lemma table_NoDup limit enc pool indices used :
  (∀ i, 0 ≤ i → enc i ≠ -1) → (∀ i j, 0 ≤ i → 0 ≤ j → enc i = enc j → i = j) →
  table_ok limit enc pool indices used →
  NoDup (open_indices indices) ∧ Forall (λ x, ∃ i, 0 ≤ i < limit ∧ x = enc i) (open_indices indices).
Proof.
  intros He Hinj Ht.
  assert (H : ∀ l off, (∀ k ix, l !! k = Some ix → indices !! (off + k)%nat = Some ix) →
    NoDup (open_indices l) ∧
    Forall (λ x, ∃ i, Z.of_nat off ≤ i < limit ∧ x = enc i) (open_indices l)).
  { induction l as [|x l IH]; intros off Hl; [split; constructor|].
    destruct (IH (S off)) as [Hnd Hall].
    { intros k ix Hk. specialize (Hl (S k) ix Hk). by rewrite Nat.add_succ_r in Hl. }
    assert (Hall' : Forall (λ x, ∃ i, Z.of_nat off ≤ i < limit ∧ x = enc i) (open_indices l)).
    { eapply list.Forall_impl; [exact Hall|]. intros y (i & Hi & ->). exists i. split; [lia|done]. }
    unfold open_indices in *. rewrite filter_cons. case_decide as Hx; [|done].
    pose proof (Hl 0%nat x eq_refl) as Hlk. rewrite Nat.add_0_r in Hlk.
    destruct (table_open _ _ _ _ _ _ _ He Ht Hlk Hx) as [Hu ->].
    pose proof (table_used_range _ _ _ _ _ _ Ht Hu) as Hr. split.
    - constructor; [|done]. intros Hin.
      apply (proj1 (list.Forall_forall _ _) Hall) in Hin as (i & Hi & E).
      apply Hinj in E; lia.
    - constructor; [|done]. exists (Z.of_nat off). split; [lia|done]. }
  apply (H indices 0%nat). done.
Qed.

(** A table whose places are all taken. *)

Lemma open_indices_all l : Forall (λ i, i ≠ -1) l → open_indices l = l.
Proof.
  unfold open_indices. induction 1 as [|x l Hx Hl IH]; [done|].
  by rewrite filter_cons_True, IH.
Qed.

Lemma table_full limit enc pool indices used :
  0 ≤ limit → (∀ i, 0 ≤ i → enc i ≠ -1) → table_ok limit enc pool indices used →
  len used = limit → open_indices indices = indices.
Proof.
  intros Hl He Ht Hfull.
  assert (Hall : ∀ i, 0 ≤ i < limit → i ∈ used).
  { assert (Hnd : NoDup used).
    { pose proof (pool_ok_NoDup _ _ (table_pool _ _ _ _ _ Ht)) as H.
      by apply list.NoDup_app in H as []. }
    assert (Hsub : used ⊆+ seqZ 0 limit).
    { apply NoDup_submseteq; [done|]. intros x Hx. apply elem_of_seqZ.
      pose proof (table_used_range _ _ _ _ _ _ Ht Hx). lia. }
    apply submseteq_length_Permutation in Hsub; [|rewrite length_seqZ; lia].
    intros i Hi. rewrite Hsub. apply elem_of_seqZ. lia. }
  pose proof (table_length _ _ _ _ _ Ht) as Hlen.
  apply open_indices_all, list.Forall_lookup. intros k x Hk. pose proof (lookup_lt_Some _ _ _ Hk) as Hlt.
  pose proof (table_lookup _ _ _ _ _ Ht (Z.of_nat k) ltac:(lia)) as Hlk.
  rewrite Nat2Z.id, Hk, bool_decide_true in Hlk by (apply Hall; lia).
  apply (inj Some) in Hlk as ->. apply He. lia.
Qed.

(** ** The streams of a client and of its users *)

Definition client_indices (c : client_tables) : list Z := stream_index <$> client_output_streams c.
Definition user_indices (u : user_tables) : list Z := stream_index <$> user_output_streams u.
Definition object_indices (u : user_tables) : list Z := object_index <$> user_objects u.

Definition client_enc (i : Z) : Z := i * 2 + 1.
Definition user_enc (i : Z) : Z := i * 2.

Definition client_ok (c : client_tables) : Prop :=
  ∃ used, table_ok GUAC_CLIENT_MAX_STREAMS client_enc (client_stream_pool c) (client_indices c) used.

Definition user_ok (u : user_tables) : Prop :=
  (∃ used, table_ok GUAC_USER_MAX_STREAMS user_enc (user_stream_pool u) (user_indices u) used) ∧
  (∃ used, table_ok GUAC_USER_MAX_OBJECTS (λ i, i) (user_object_pool u) (object_indices u) used).

Lemma client_enc_open i : 0 ≤ i → client_enc i ≠ -1.
Proof. unfold client_enc. lia. Qed.

Lemma user_enc_open i : 0 ≤ i → user_enc i ≠ -1.
Proof. unfold user_enc. lia. Qed.

Lemma quot_odd i : 0 ≤ i → Z.quot (i * 2 + 1 - 1) 2 = i.
Proof. intros. replace (i * 2 + 1 - 1) with (i * 2) by lia. by apply Z.quot_mul. Qed.

Lemma fmap_closed {A} (f : A → A) (g : A → Z) (l : list A) :
  (∀ a, g (f a) = -1) → Forall (λ i, i = -1) (g <$> (f <$> l)).
Proof. intros H. rewrite <-list_fmap_compose. by apply Forall_fmap, list.Forall_true. Qed.

Lemma client_alloc_ok streams :
  len streams = GUAC_CLIENT_MAX_STREAMS → client_ok (guac_client_alloc_tables streams).
Proof.
  intros Hl. exists []. apply table_start; [done| |by apply fmap_closed].
  unfold client_indices. cbn [client_output_streams guac_client_alloc_tables].
  by rewrite !length_fmap.
Qed.

Lemma user_alloc_ok output input objects :
  len output = GUAC_USER_MAX_STREAMS → len objects = GUAC_USER_MAX_OBJECTS →
  user_ok (guac_user_alloc_tables output input objects).
Proof.
  intros Ho Hb. split; exists []; (apply table_start; [done| |by apply fmap_closed]).
  - unfold user_indices. cbn [user_output_streams guac_user_alloc_tables]. by rewrite !length_fmap.
  - unfold object_indices. cbn [user_objects guac_user_alloc_tables]. by rewrite !length_fmap.
Qed.

(** Opening: the stream is new, or all are open. *)

Lemma client_alloc_stream_ok c :
  client_ok c →
  ∃ r c', guac_client_alloc_stream c = Run (r, c') ∧ client_ok c' ∧
    (r = None → len (open_indices (client_indices c)) = GUAC_CLIENT_MAX_STREAMS ∧ c' = c) ∧
    (∀ place, r = Some place → client_indices c !! place = Some GUAC_CLIENT_CLOSED_STREAM_INDEX ∧
       client_indices c' = <[place := client_enc (Z.of_nat place)]> (client_indices c)).
Proof.
  intros [used Ht]. unfold guac_client_alloc_stream.
  destruct (table_alloc GUAC_CLIENT_MAX_STREAMS _ _ _ _ ltac:(done) Ht) as
    [(Hfull & E)|(_ & v & pool' & E & Hv & Hn & Ht')]; rewrite E, run_bind_run; cbn beta iota.
  - rewrite (proj2 (Z.ltb_lt (-1) 0)) by lia. eexists None, _. split; [done|].
    destruct c as [b l p o]. split; [by exists used|]. split; [|done]. intros _. split; [|done].
    rewrite (table_full GUAC_CLIENT_MAX_STREAMS _ _ _ _ ltac:(done) client_enc_open Ht Hfull).
    apply (table_length _ _ _ _ _ Ht).
  - rewrite (proj2 (Z.ltb_ge v 0)) by lia.
    eexists (Some (Z.to_nat v)), _. split; [done|].
    assert (Ei : client_indices (c <| client_stream_pool := pool' |> <| client_output_streams :=
        <[Z.to_nat v := mk_stream (v * 2 + 1) None None None None]> (client_output_streams c) |>)
      = <[Z.to_nat v := client_enc v]> (client_indices c)).
    { unfold client_indices. cbn. by rewrite list_fmap_insert. }
    split; [exists (v :: used); exact (eq_ind_r (λ l, table_ok _ _ pool' l _) Ht' Ei)|]. split; [done|].
    intros ? [= <-]. rewrite Z2Nat.id by lia. split; [|done].
    pose proof (table_lookup _ _ _ _ _ Ht v Hv) as Hlk. by rewrite bool_decide_false in Hlk.
Qed.

Lemma user_alloc_stream_ok u :
  user_ok u →
  ∃ r u', guac_user_alloc_stream u = Run (r, u') ∧ user_ok u' ∧
    (r = None → len (open_indices (user_indices u)) = GUAC_USER_MAX_STREAMS ∧ u' = u) ∧
    (∀ place, r = Some place → user_indices u !! place = Some GUAC_USER_CLOSED_STREAM_INDEX ∧
       user_indices u' = <[place := user_enc (Z.of_nat place)]> (user_indices u)).
Proof.
  intros [[used Ht] Hobj]. unfold guac_user_alloc_stream.
  destruct (table_alloc GUAC_USER_MAX_STREAMS _ _ _ _ ltac:(done) Ht) as
    [(Hfull & E)|(_ & v & pool' & E & Hv & Hn & Ht')]; rewrite E, run_bind_run; cbn beta iota.
  - rewrite (proj2 (Z.ltb_lt (-1) 0)) by lia. eexists None, _. split; [done|].
    destruct u as [p o i q b]. split; [by split; [exists used|]|]. split; [|done].
    intros _. split; [|done].
    rewrite (table_full GUAC_USER_MAX_STREAMS _ _ _ _ ltac:(done) user_enc_open Ht Hfull).
    apply (table_length _ _ _ _ _ Ht).
  - rewrite (proj2 (Z.ltb_ge v 0)) by lia.
    eexists (Some (Z.to_nat v)), _. split; [done|].
    assert (Ei : user_indices (u <| user_stream_pool := pool' |> <| user_output_streams :=
        <[Z.to_nat v := mk_stream (v * 2) None None None None]> (user_output_streams u) |>)
      = <[Z.to_nat v := user_enc v]> (user_indices u)).
    { unfold user_indices. cbn. by rewrite list_fmap_insert. }
    split; [split; [exists (v :: used); exact (eq_ind_r (λ l, table_ok _ _ pool' l _) Ht' Ei)|exact Hobj]|]. split; [done|].
    intros ? [= <-]. rewrite Z2Nat.id by lia. split; [|done].
    pose proof (table_lookup _ _ _ _ _ Ht v Hv) as Hlk. by rewrite bool_decide_false in Hlk.
Qed.

Lemma user_alloc_object_ok u :
  user_ok u →
  ∃ r u', guac_user_alloc_object u = Run (r, u') ∧ user_ok u' ∧
    (r = None → len (open_indices (object_indices u)) = GUAC_USER_MAX_OBJECTS ∧ u' = u) ∧
    (∀ place, r = Some place →
       object_indices u !! place = Some GUAC_USER_UNDEFINED_OBJECT_INDEX ∧
       object_indices u' = <[place := Z.of_nat place]> (object_indices u)).
Proof.
  intros [Hstr [used Ht]]. unfold guac_user_alloc_object.
  destruct (table_alloc GUAC_USER_MAX_OBJECTS _ _ _ _ ltac:(done) Ht) as
    [(Hfull & E)|(_ & v & pool' & E & Hv & Hn & Ht')]; rewrite E, run_bind_run; cbn beta iota.
  - rewrite (proj2 (Z.ltb_lt (-1) 0)) by lia. eexists None, _. split; [done|].
    destruct u as [p o i q b]. split; [by split; [|exists used]|]. split; [|done].
    intros _. split; [|done].
    rewrite (table_full GUAC_USER_MAX_OBJECTS (λ i, i) _ _ _ ltac:(done) (λ i H, ltac:(lia)) Ht Hfull).
    apply (table_length _ _ _ _ _ Ht).
  - rewrite (proj2 (Z.ltb_ge v 0)) by lia.
    eexists (Some (Z.to_nat v)), _. split; [done|].
    assert (Ei : object_indices (u <| user_object_pool := pool' |> <| user_objects :=
        <[Z.to_nat v := mk_object v None None None]> (user_objects u) |>)
      = <[Z.to_nat v := v]> (object_indices u)).
    { unfold object_indices. cbn. by rewrite list_fmap_insert. }
    split; [split; [exact Hstr|exists (v :: used); exact (eq_ind_r (λ l, table_ok _ _ pool' l _) Ht' Ei)]|]. split; [done|].
    intros ? [= <-]. rewrite Z2Nat.id by lia. split; [|done].
    pose proof (table_lookup _ _ _ _ _ Ht v Hv) as Hlk. by rewrite bool_decide_false in Hlk.
Qed.

(** Closing what is open. *)

Lemma client_free_stream_ok c place ix :
  client_ok c → client_indices c !! place = Some ix → ix ≠ GUAC_CLIENT_CLOSED_STREAM_INDEX →
  ∃ c', guac_client_free_stream c place = Run c' ∧ client_ok c' ∧
    client_indices c' = <[place := GUAC_CLIENT_CLOSED_STREAM_INDEX]> (client_indices c).
Proof.
  intros [used Ht] Hix Hne.
  destruct (table_open _ _ _ _ _ _ _ client_enc_open Ht Hix Hne) as [Hu ->].
  destruct (table_free _ _ _ _ _ _ Ht Hu) as (pool' & used' & E & _ & Ht'). rewrite Nat2Z.id in Ht'.
  unfold client_indices in *. rewrite list_lookup_fmap in Hix.
  destruct (client_output_streams c !! place) as [s|] eqn:Es; [|done]. apply (inj Some) in Hix.
  assert (Ei : client_indices (c <| client_output_streams :=
      <[place := s <| stream_index := GUAC_CLIENT_CLOSED_STREAM_INDEX |>]> (client_output_streams c) |>
      <| client_stream_pool := pool' |>)
    = <[place := -1]> (stream_index <$> client_output_streams c)).
  { unfold client_indices. cbn. by rewrite list_fmap_insert. }
  match type of Ei with client_indices ?X = _ => exists X end.
  split; [|split; [exists used'; exact (eq_ind_r (λ l, table_ok _ _ pool' l _) Ht' Ei)|exact Ei]].
  unfold guac_client_free_stream. rewrite Es. cbn [deref]. rewrite run_bind_run.
  replace (Z.quot (stream_index s - 1) 2) with (Z.of_nat place)
    by (rewrite Hix; unfold client_enc; rewrite quot_odd; lia).
  cbn [set client_stream_pool]. by rewrite E, run_bind_run.
Qed.

Lemma user_free_stream_ok u place ix :
  user_ok u → user_indices u !! place = Some ix → ix ≠ GUAC_USER_CLOSED_STREAM_INDEX →
  ∃ u', guac_user_free_stream u place = Run u' ∧ user_ok u' ∧
    user_indices u' = <[place := GUAC_USER_CLOSED_STREAM_INDEX]> (user_indices u).
Proof.
  intros [[used Ht] Hobj] Hix Hne.
  destruct (table_open _ _ _ _ _ _ _ user_enc_open Ht Hix Hne) as [Hu ->].
  destruct (table_free _ _ _ _ _ _ Ht Hu) as (pool' & used' & E & _ & Ht'). rewrite Nat2Z.id in Ht'.
  unfold user_indices in *. rewrite list_lookup_fmap in Hix.
  destruct (user_output_streams u !! place) as [s|] eqn:Es; [|done]. apply (inj Some) in Hix.
  assert (Ei : user_indices (u <| user_output_streams :=
      <[place := s <| stream_index := GUAC_USER_CLOSED_STREAM_INDEX |>]> (user_output_streams u) |>
      <| user_stream_pool := pool' |>)
    = <[place := -1]> (stream_index <$> user_output_streams u)).
  { unfold user_indices. cbn. by rewrite list_fmap_insert. }
  match type of Ei with user_indices ?X = _ => exists X end.
  split; [|split; [split; [exists used'; exact (eq_ind_r (λ l, table_ok _ _ pool' l _) Ht' Ei)|exact Hobj]|exact Ei]].
  unfold guac_user_free_stream. rewrite Es. cbn [deref]. rewrite run_bind_run.
  replace (Z.quot (stream_index s) 2) with (Z.of_nat place)
    by (rewrite Hix; unfold user_enc; by rewrite Z.quot_mul).
  cbn [set user_stream_pool]. by rewrite E, run_bind_run.
Qed.

Lemma user_free_object_ok u place ix :
  user_ok u → object_indices u !! place = Some ix → ix ≠ GUAC_USER_UNDEFINED_OBJECT_INDEX →
  ∃ u', guac_user_free_object u place = Run u' ∧ user_ok u' ∧
    object_indices u' = <[place := GUAC_USER_UNDEFINED_OBJECT_INDEX]> (object_indices u).
Proof.
  intros [Hstr [used Ht]] Hix Hne.
  destruct (table_open _ (λ i, i) _ _ _ _ _ (λ i H, ltac:(lia)) Ht Hix Hne) as [Hu ->].
  destruct (table_free _ _ _ _ _ _ Ht Hu) as (pool' & used' & E & _ & Ht'). rewrite Nat2Z.id in Ht'.
  unfold object_indices in *. rewrite list_lookup_fmap in Hix.
  destruct (user_objects u !! place) as [o|] eqn:Es; [|done]. apply (inj Some) in Hix.
  assert (Ei : object_indices (u <| user_objects :=
      <[place := o <| object_index := GUAC_USER_UNDEFINED_OBJECT_INDEX |>]> (user_objects u) |>
      <| user_object_pool := pool' |>)
    = <[place := -1]> (object_index <$> user_objects u)).
  { unfold object_indices. cbn. by rewrite list_fmap_insert. }
  match type of Ei with object_indices ?X = _ => exists X end.
  split; [|split; [split; [exact Hstr|exists used'; exact (eq_ind_r (λ l, table_ok _ _ pool' l _) Ht' Ei)]|exact Ei]].
  unfold guac_user_free_object. rewrite Es. cbn [deref]. rewrite run_bind_run.
  replace (object_index o) with (Z.of_nat place) by done.
  cbn [set user_object_pool]. by rewrite E, run_bind_run.
Qed.

(** ** Runs of a connection *)

(** The client's tables and those of its users; what is closed is open. *)

Definition tables : Type := client_tables * list user_tables.

Inductive tables_step : tables → tables → Prop :=
| client_opens c us r c' :
    guac_client_alloc_stream c = Run (r, c') → tables_step (c, us) (c', us)
| client_closes c us place ix c' :
    client_indices c !! place = Some ix → ix ≠ GUAC_CLIENT_CLOSED_STREAM_INDEX →
    guac_client_free_stream c place = Run c' → tables_step (c, us) (c', us)
| user_joins c us output input objects :
    len output = GUAC_USER_MAX_STREAMS → len objects = GUAC_USER_MAX_OBJECTS →
    tables_step (c, us) (c, us ++ [guac_user_alloc_tables output input objects])
| user_opens c us k u r u' :
    us !! k = Some u → guac_user_alloc_stream u = Run (r, u') →
    tables_step (c, us) (c, <[k := u']> us)
| user_closes c us k u place ix u' :
    us !! k = Some u → user_indices u !! place = Some ix → ix ≠ GUAC_USER_CLOSED_STREAM_INDEX →
    guac_user_free_stream u place = Run u' → tables_step (c, us) (c, <[k := u']> us)
| object_opens c us k u r u' :
    us !! k = Some u → guac_user_alloc_object u = Run (r, u') →
    tables_step (c, us) (c, <[k := u']> us)
| object_closes c us k u place ix u' :
    us !! k = Some u → object_indices u !! place = Some ix → ix ≠ GUAC_USER_UNDEFINED_OBJECT_INDEX →
    guac_user_free_object u place = Run u' → tables_step (c, us) (c, <[k := u']> us).

Definition tables_ok (t : tables) : Prop := client_ok (fst t) ∧ Forall user_ok (snd t).

Lemma tables_step_ok t t' : tables_step t t' → tables_ok t → tables_ok t'.
Proof.
  unfold tables_ok. intros H [Hc Hu].
  destruct H as [c us r c' E|c us place ix c' Hi Hn E|c us o i b Ho Hb|c us k u r u' Hk E
    |c us k u place ix u' Hk Hi Hn E|c us k u r u' Hk E|c us k u place ix u' Hk Hi Hn E];
    cbn [fst snd] in *; (split; [try done|try done]);
    try (apply list.Forall_insert; [done|]; pose proof (proj1 (list.Forall_lookup _ _) Hu _ _ Hk) as Hok).
  - destruct (client_alloc_stream_ok c Hc) as (? & ? & E' & ? & _). rewrite E in E'. by simplify_eq.
  - destruct (client_free_stream_ok c place ix Hc Hi Hn) as (? & E' & ? & _). rewrite E in E'. by simplify_eq.
  - apply list.Forall_app. split; [done|]. constructor; [by apply user_alloc_ok|constructor].
  - destruct (user_alloc_stream_ok u Hok) as (? & ? & E' & ? & _). rewrite E in E'. by simplify_eq.
  - destruct (user_free_stream_ok u place ix Hok Hi Hn) as (? & E' & ? & _). rewrite E in E'. by simplify_eq.
  - destruct (user_alloc_object_ok u Hok) as (? & ? & E' & ? & _). rewrite E in E'. by simplify_eq.
  - destruct (user_free_object_ok u place ix Hok Hi Hn) as (? & E' & ? & _). rewrite E in E'. by simplify_eq.
Qed.

Lemma tables_NoDup c u :
  client_ok c → user_ok u → NoDup (open_indices (client_indices c) ++ open_indices (user_indices u)).
Proof.
  intros [uc Hc] [[uu Hu] _].
  destruct (table_NoDup _ _ _ _ _ client_enc_open ltac:(unfold client_enc; lia) Hc) as [Nc Fc].
  destruct (table_NoDup _ _ _ _ _ user_enc_open ltac:(unfold user_enc; lia) Hu) as [Nu Fu].
  apply list.NoDup_app. split; [done|]. split; [|done]. intros x Hx Hx'.
  apply (proj1 (list.Forall_forall _ _) Fc) in Hx as (i & _ & ->).
  apply (proj1 (list.Forall_forall _ _) Fu) in Hx' as (j & _ & E).
  unfold client_enc, user_enc in E. lia.
Qed.

(** Opening gives a place that was closed its index, or is refused, with every place open;
    closing closes the place. *)

Definition opens {T} (alloc : T → run (option nat * T)) (indices : T → list Z) (limit : Z)
    (enc : Z → Z) (t : T) : Prop :=
  ∃ r t', alloc t = Run (r, t') ∧
    match r with
    | None => len (open_indices (indices t)) = limit ∧ t' = t
    | Some place => indices t !! place = Some (-1) ∧ indices t' = <[place := enc (Z.of_nat place)]> (indices t)
    end.

Definition closes {T} (free : T → nat → run T) (indices : T → list Z) (t : T) : Prop :=
  ∀ place ix, indices t !! place = Some ix → ix ≠ -1 →
    ∃ t', free t place = Run t' ∧ indices t' = <[place := -1]> (indices t).

Lemma opens_of {T} alloc indices limit enc (ok : T → Prop) t :
  (∃ r t', alloc t = Run (r, t') ∧ ok t' ∧
     (r = None → len (open_indices (indices t)) = limit ∧ t' = t) ∧
     (∀ place, r = Some place → indices t !! place = Some (-1) ∧
        indices t' = <[place := enc (Z.of_nat place)]> (indices t))) →
  opens alloc indices limit enc t.
Proof.
  intros (r & t' & E & _ & Hnone & Hsome). exists r, t'. split; [done|].
  destruct r; [by apply Hsome|by apply Hnone].
Qed.

(** C20. However a client and its users open and close their streams and objects: no two open
    streams that one user sees (those of the client and those of the user) have the same
    index, nor have two objects of a user; opening a stream of the client, a stream of a user or
    an object never aborts, takes a place that is closed, and is refused only when all 512
    (streams) or 64 (objects) places are open; closing what is open never aborts and closes just that. *)
Theorem streams_never_collide streams c us :
  len streams = GUAC_CLIENT_MAX_STREAMS →
  rtc tables_step (guac_client_alloc_tables streams, []) (c, us) →
  opens guac_client_alloc_stream client_indices GUAC_CLIENT_MAX_STREAMS client_enc c ∧
  closes guac_client_free_stream client_indices c ∧
  Forall (λ u,
    NoDup (open_indices (client_indices c) ++ open_indices (user_indices u)) ∧
    NoDup (open_indices (object_indices u)) ∧
    opens guac_user_alloc_stream user_indices GUAC_USER_MAX_STREAMS user_enc u ∧
    closes guac_user_free_stream user_indices u ∧
    opens guac_user_alloc_object object_indices GUAC_USER_MAX_OBJECTS (λ i, i) u ∧
    closes guac_user_free_object object_indices u) us.
Proof.
  intros Hl Hr.
  assert (Hok : tables_ok (c, us)).
  { eapply (rtc_ind_r (λ t, tables_ok t)); [|intros y z _ Hs Hy; by apply (tables_step_ok y)|exact Hr].
    split; [by apply client_alloc_ok|constructor]. }
  destruct Hok as [Hc Hu]. cbn [fst snd] in *. split; [|split].
  - by apply (opens_of _ _ _ _ client_ok), client_alloc_stream_ok.
  - intros place ix Hi Hn. destruct (client_free_stream_ok c place ix Hc Hi Hn) as (c' & E & _ & Hi').
    by exists c'.
  - apply (list.Forall_impl _ _ _ Hu). intros u Hok. split; [by apply tables_NoDup|]. split.
    { destruct Hok as [_ [used Ht]].
      by apply (table_NoDup _ (λ i, i) _ _ _ (λ i H, ltac:(lia)) (λ i j _ _ H, H) Ht). }
    split; [by apply (opens_of _ _ _ _ user_ok), user_alloc_stream_ok|]. split; [|split].
    + intros place ix Hi Hn. destruct (user_free_stream_ok u place ix Hok Hi Hn) as (u' & E & _ & Hi').
      by exists u'.
    + by apply (opens_of _ _ _ _ user_ok), user_alloc_object_ok.
    + intros place ix Hi Hn. destruct (user_free_object_ok u place ix Hok Hi Hn) as (u' & E & _ & Hi').
      by exists u'.
Qed.

Definition fresh_stream : stream := mk_stream 7 None None None None.
Definition fresh_object : object := mk_object 7 None None None.

Lemma streams_never_collide_witness :
  ∃ c us, open_indices (client_indices c) = [3] ∧
    ((λ u, open_indices (user_indices u)) <$> us) = [[0]] ∧
    Forall (λ u, NoDup (open_indices (client_indices c) ++ open_indices (user_indices u)) ∧
                 NoDup (open_indices (object_indices u))) us.
Proof.
  pose (memory := replicate 512 fresh_stream).
  assert (Hr : ∃ t, rtc tables_step (guac_client_alloc_tables memory, []) t ∧
    open_indices (client_indices (fst t)) = [3] ∧
    ((λ u, open_indices (user_indices u)) <$> snd t) = [[0]]).
  { eexists. split.
    - eapply rtc_l; [by eapply user_joins with (output := memory) (input := memory)
                       (objects := replicate 64 fresh_object)|].
      eapply rtc_l; [eapply client_opens; vm_compute; reflexivity|].
      eapply rtc_l; [eapply (user_opens _ _ 0); [reflexivity|vm_compute; reflexivity]|].
      eapply rtc_l; [eapply client_opens; vm_compute; reflexivity|].
      eapply rtc_l; [eapply (client_closes _ _ 0); [vm_compute; reflexivity|done|vm_compute; reflexivity]|].
      apply rtc_refl.
    - split; vm_compute; reflexivity. }
  destruct Hr as ([c us] & Hr & Hc & Hu). exists c, us. split; [done|]. split; [done|].
  pose proof (streams_never_collide memory c us eq_refl Hr) as (_ & _ & H).
  apply (list.Forall_impl _ _ _ H). intros u (H1 & H2 & _). by split.
Defined.

(** ** Layers and buffers *)

(** Buffers are the negative indices: what the pool holds for a buffer in use is its number. *)

Definition buffers_ok (c : client_tables) (buffers : list Z) : Prop :=
  pool_ok (__buffer_pool c) ((λ b, - b - 1) <$> buffers).

Lemma buffer_alloc_free c buffers :
  buffers_ok c buffers → __next_value (__buffer_pool c) < INT_MAX →
  (∃ b c', guac_client_alloc_buffer c = Run (b, c') ∧ b < 0 ∧ (b ∉ buffers) ∧
     buffers_ok c' (b :: buffers)) ∧
  (∀ b, b ∈ buffers → ∃ c' buffers', guac_client_free_buffer c b = Run c' ∧
     buffers ≡ₚ b :: buffers' ∧ buffers_ok c' buffers').
Proof.
  intros Hb Hn. split.
  - destruct (next_ok _ _ Hb Hn) as (v & pool & E & Hp & Hv & Hr & _).
    exists (- v - 1), (c <| __buffer_pool := pool |>).
    unfold guac_client_alloc_buffer, guac_pool_next_int. rewrite E, run_bind_run.
    split; [done|]. split; [lia|]. split.
    + intros Hin. apply Hv, list_elem_of_fmap. exists (- v - 1). split; [lia|done].
    + unfold buffers_ok. rewrite fmap_cons. replace (- (- v - 1) - 1) with v by lia. exact Hp.
  - intros b Hin. apply list_elem_of_split in Hin as (l1 & l2 & Hrest).
    pose (rest := l1 ++ l2). assert (Hperm : buffers ≡ₚ b :: rest).
    { by rewrite Hrest, <-Permutation_middle. }
    assert (Hu : (- b - 1) ∈ (λ b, - b - 1) <$> buffers).
    { apply list_elem_of_fmap. exists b. split; [done|]. rewrite Hperm. apply list_elem_of_here. }
    destruct (free_ok _ _ _ Hb Hu) as (pool & used & E & Eu & Hp & _).
    exists (c <| __buffer_pool := pool |>), rest. unfold guac_client_free_buffer. rewrite E, run_bind_run.
    split; [done|]. split; [done|]. rewrite Hperm, fmap_cons in Eu. apply (inj (cons _)) in Eu.
    unfold buffers_ok. cbn [set __buffer_pool]. destruct Hp as [Ha Hnx Hac]. split; [|done|].
    + by rewrite Eu.
    + by rewrite Hac, (Permutation_length Eu).
Qed.

Definition layers_ok (c : client_tables) (layers : list Z) : Prop :=
  pool_ok (__layer_pool c) ((λ l, l - 1) <$> layers).

(** [guac_client_free_layer] gives back the index of the layer, not the number the layer came from:
    once the pool hands out what was given back (after the first 1024 layers), freeing layer [l]
    while layer [l + 1] is in use makes the next layer share the index of that one. *)
Theorem freed_layer_collides c layers l :
  let pool := __layer_pool c in
  layers_ok c layers → min_size pool ≤ __next_value pool < INT_MAX → freed pool = [] →
  l ∈ layers → l + 1 ∈ layers →
  ∃ c1 c2, guac_client_free_layer c l = Run c1 ∧ guac_client_alloc_layer c1 = Run (l + 1, c2).
Proof.
  intros pool Hok Hm Hf Hl Hl'.
  assert (Hin : l ∈ (λ l, l - 1) <$> layers).
  { apply list_elem_of_fmap. exists (l + 1). split; [lia|done]. }
  pose proof (proj1 (pool_ok_elem _ _ l Hok) (proj2 (elem_of_app _ _ _) (or_introl Hin))) as Hr.
  pose proof (pool_ok_length _ _ Hok) as Hsum. pose proof (pool_ok_active _ _ Hok) as Ha. fold pool in Hsum, Ha.
  rewrite Hf in Hsum. cbn [List.length] in Hsum.
  assert (0 < len ((λ l, l - 1) <$> layers)) by (destruct layers; [by apply elem_of_nil in Hl|cbn; lia]).
  exists (c <| __layer_pool := pool <| active := active pool - 1 |> <| freed := freed pool ++ [l] |> |>).
  unfold guac_client_free_layer, guac_pool_free_int. fold pool.
  rewrite assert_true, run_bind_run, run_bind_run by (apply Z.ltb_lt; lia).
  eexists. split; [done|]. unfold guac_client_alloc_layer, guac_pool_next_int, __guac_pool_next_int.
  cbn [set __layer_pool freed active __next_value min_size]. rewrite Hf. cbn [app].
  rewrite assert_true, run_bind_run by (apply Z.ltb_lt; lia).
  rewrite assert_true, run_bind_run by (apply Z.ltb_lt; lia).
  rewrite (proj2 (Z.ltb_ge _ _)) by lia.
  rewrite assert_leb, run_bind_run by lia. done.
Qed.

Fixpoint alloc_layers (n : nat) (c : client_tables) : run (list Z * client_tables) :=
  match n with
  | O => Run ([], c)
  | S n =>
      '(l, c) ← guac_client_alloc_layer c;
      '(ls, c) ← alloc_layers n c;
      Run (l :: ls, c)
  end.

Lemma freed_layer_collides_witness :
  ∃ c c1 c2, alloc_layers 1024 (guac_client_alloc_tables []) = Run (seqZ 1 1024, c) ∧
    guac_client_free_layer c 1 = Run c1 ∧ guac_client_alloc_layer c1 = Run (2, c2).
Proof.
  assert (Hc : ∃ c, alloc_layers 1024 (guac_client_alloc_tables []) = Run (seqZ 1 1024, c) ∧
    layers_ok c (seqZ 1 1024) ∧
    min_size (__layer_pool c) ≤ __next_value (__layer_pool c) < INT_MAX ∧ freed (__layer_pool c) = []).
  { eexists. split; [vm_compute; reflexivity|]. split; [|split; [by vm_compute|reflexivity]].
    split; vm_compute; [reflexivity|done|reflexivity]. }
  destruct Hc as (c & E & Hok & Hm & Hf).
  assert (H1 : 1 ∈ seqZ 1 1024) by (apply elem_of_seqZ; lia).
  assert (H2 : 1 + 1 ∈ seqZ 1 1024) by (apply elem_of_seqZ; lia).
  pose proof (freed_layer_collides c (seqZ 1 1024) 1 Hok Hm Hf H1 H2) as (c1 & c2 & E1 & E2).
  exists c, c1, c2. split; [exact E|]. split; [exact E1|exact E2].
Defined.
