(* ===== verification/CNumbers.v ===== *)
(** * Numbers in strings ([strtol], [atoi] of the C library)

    The conversions the code applies to what it receives.  A [long] has 64 bits, and a
    value outside it is replaced by the closest one ([ERANGE]); [atoi] keeps the lower
    32 bits, as the C library's [(int) strtol(s, NULL, 10)] does. *)

From S2P Require Import Prelude CFormat CString.
Local Open Scope Z_scope.

Definition LONG_MAX : Z := 2 ^ 63 - 1.
Definition LONG_MIN : Z := - 2 ^ 63.

Fixpoint span_length (p : byte → bool) (s : list byte) : nat :=
  match s with
  | c :: s => if p c then S (span_length p s) else O
  | [] => O
  end.

(** [strtol(s, &end, 10)]: the value, the offset of [end], and whether [errno] is [ERANGE]. *)

Definition strtol (s : list byte) : Z * nat * bool :=
  let spaces := span_length isspace s in
  let s := drop spaces s in
  let '(negative, signs) :=
    match s with
    | c :: _ => (bool_decide (c = x2d), if decide (c = x2d ∨ c = x2b) then 1%nat else O)
    | [] => (false, O)
    end in
  let s := drop signs s in
  let digits := span_length is_digit s in
  if (digits =? 0)%nat then (0, O, false)
  else
    let magnitude := dec_value 0 (take digits s) in
    let value := if negative then - magnitude else magnitude in
    let rest := (spaces + signs + digits)%nat in
    if LONG_MAX <? value then (LONG_MAX, rest, true)
    else if value <? LONG_MIN then (LONG_MIN, rest, true)
    else (value, rest, false).

Definition atoi (s : list byte) : Z := i32 (fst (fst (strtol s))).

(** ** Reading what [%d] writes *)

Lemma span_all p s : Forall (λ c, p c = true) s → span_length p s = length s.
Proof. induction 1 as [|c s Hc _ IH]; [done|]. cbn. by rewrite Hc, IH. Qed.

Definition digit_plain (c : byte) : bool :=
  implb (is_digit c) (negb (isspace c) && negb (bool_decide (c = x2d ∨ c = x2b)) && negb (bool_decide (c = x2d))).

Lemma digit_not_special c :
  is_digit c = true → isspace c = false ∧ ¬ (c = x2d ∨ c = x2b) ∧ bool_decide (c = x2d) = false.
Proof.
  intros Hc. pose proof (byte_forall digit_plain ltac:(by vm_compute) c) as H.
  unfold digit_plain in H. rewrite Hc in H. cbn [implb] in H.
  apply andb_true_iff in H as [[H1 H2]%andb_true_iff H3].
  apply negb_true_iff in H1, H2, H3. split; [done|]. split; [by apply bool_decide_eq_false in H2|done].
Qed.

Lemma strtol_digits neg s :
  s ≠ [] → Forall (λ c, is_digit c = true) s →
  let value := if neg : bool then - dec_value 0 s else dec_value 0 s in
  LONG_MIN ≤ value ≤ LONG_MAX →
  strtol ((if neg then [x2d] else []) ++ s) =
    (value, (List.length (if neg then [x2d] else []) + length s)%nat, false).
Proof.
  intros Hne Hs value Hv. destruct s as [|c s]; [done|].
  assert (Hall : span_length is_digit (c :: s) = length (c :: s)) by (by apply span_all).
  pose proof Hs as Hs'. inversion Hs' as [|? ? Hc Hrest]; subst.
  destruct (digit_not_special c Hc) as (Hsp & Hsign & Hminus).
  assert (Hend : ∀ (k : nat), (if LONG_MAX <? value then (LONG_MAX, k, true)
    else if value <? LONG_MIN then (LONG_MIN, k, true) else (value, k, false)) = (value, k, false)).
  { intros k. rewrite (proj2 (Z.ltb_ge LONG_MAX value) (proj2 Hv)).
    by rewrite (proj2 (Z.ltb_ge value LONG_MIN) (proj1 Hv)). }
  unfold strtol. destruct neg; cbn [app].
  - assert (Ew : span_length isspace (x2d :: c :: s) = 0%nat) by done. rewrite Ew. cbn [drop].
    rewrite decide_True by (by left). cbn [drop]. rewrite Hall, bool_decide_true by done.
    cbn [length Nat.eqb]. rewrite take_ge by done. rewrite Hend. done.
  - assert (Ew : span_length isspace (c :: s) = 0%nat) by (cbn; by rewrite Hsp). rewrite Ew. cbn [drop].
    rewrite decide_False, Hminus by done. cbn [drop]. rewrite Hall.
    cbn [length Nat.eqb]. rewrite take_ge by done. rewrite Hend. done.
Qed.

Lemma strtol_fmt_d n : is_i64 n → strtol (fmt_d n) = (n, length (fmt_d n), false).
Proof.
  unfold is_i64. intros Hn. unfold fmt_d. destruct (Z.ltb_spec n 0) as [Hlt|Hge].
  - pose proof (strtol_digits true (dec (- n)) (dec_nonempty _) (dec_digits (- n) ltac:(lia))) as H.
    cbn zeta in H. rewrite dec_read_back in H by lia. change (lit "-") with [x2d].
    rewrite H by (unfold LONG_MIN, LONG_MAX; lia). by rewrite Z.opp_involutive, length_app.
  - pose proof (strtol_digits false (dec n) (dec_nonempty _) (dec_digits n ltac:(lia))) as H.
    cbn zeta in H. rewrite dec_read_back in H by lia. cbn [app] in H.
    by rewrite H by (unfold LONG_MIN, LONG_MAX; lia).
Qed.

Lemma atoi_fmt_d n : is_i32 n → atoi (fmt_d n) = n.
Proof.
  intros Hn. unfold atoi. rewrite strtol_fmt_d by (unfold is_i32, is_i64 in *; lia). by apply i32_small.
Qed.

Lemma atoi_range s : is_i32 (atoi s).
Proof. apply i32_range. Qed.
