(* ===== verification/StateRun.v ===== *)
(** * Computations on a state that may abort or fail

    [stateful S A]: a computation of [run] that is given a state and leaves one, with
    the triples in which what it does is stated.  [ensures safe m s Q]: run in [s], [m]
    leaves a state that [Q] relates to its value, or it does not end; the latter
    only if [safe] is false. *)

From S2P Require Import Prelude Run.
Local Open Scope Z_scope.

Definition stateful (S A : Type) : Type := S → run (A * S).

#[export] Instance stateful_ret S : MRet (stateful S) := λ A a s, Run (a, s).
#[export] Instance stateful_bind S : MBind (stateful S) := λ A B f m s, '(a, s) ← m s; f a s.

Section computations.
Context {S : Type}.

Definition lift {A} (r : run A) : stateful S A := λ s, a ← r; Run (a, s).
Definition get_state : stateful S S := λ s, Run (s, s).
Definition put_state (s : S) : stateful S unit := λ _, Run (tt, s).
Definition modify (f : S → S) : stateful S unit := λ s, Run (tt, f s).

Definition ensures {A} (safe : bool) (m : stateful S A) (s : S) (Q : A → S → Prop) : Prop :=
  match m s with
  | Run (a, s) => Q a s
  | _ => safe = false
  end.

Lemma ensures_ret {A} safe (a : A) s Q : Q a s → ensures safe (mret a) s Q.
Proof. done. Qed.

Lemma ensures_bind {A B} safe (m : stateful S A) (f : A → stateful S B) s Q :
  ensures safe m s (λ a s, ensures safe (f a) s Q) → ensures safe (m ≫= f) s Q.
Proof. unfold ensures, mbind, stateful_bind. destruct (m s) as [[a s1]| | |]; cbn; done. Qed.

Lemma ensures_mono {A} safe (m : stateful S A) s (P Q : A → S → Prop) :
  ensures safe m s P → (∀ a s, P a s → Q a s) → ensures safe m s Q.
Proof. unfold ensures. destruct (m s) as [[a s1]| | |]; auto. Qed.

Lemma ensures_get safe s Q : Q s s → ensures safe get_state s Q.
Proof. done. Qed.

Lemma ensures_put safe s s' Q : Q tt s' → ensures safe (put_state s') s Q.
Proof. done. Qed.

Lemma ensures_modify safe f s Q : Q tt (f s) → ensures safe (modify f) s Q.
Proof. done. Qed.

Lemma ensures_lift {A} safe (r : run A) s Q :
  (∀ a, r = Run a → Q a s) → (safe = true → ∃ a, r = Run a) → ensures safe (lift r) s Q.
Proof.
  intros HQ Hs. unfold ensures, lift. destruct r as [a| | |]; cbn; [by apply HQ|..];
    (destruct safe; [by destruct (Hs eq_refl)|done]).
Qed.

Lemma ensures_deref {A} safe (o : option A) s Q a :
  o = Some a → Q a s → ensures safe (lift (deref o)) s Q.
Proof. by intros ->. Qed.
End computations.
