(* ===== verification/UserInput.v ===== *)
(** * The instructions of a user (src/src/libguac/user-handlers.c)

    What the other side of a user's socket sends is dispatched by opcode to a
    handler, which reads the arguments and calls the function the protocol plugin
    installed.  Streams that the user opens live in the table of input streams, at
    the index the user chose.

    A function of a plugin is a number; [plugin] is their code, not part of this
    library, which may change the user (install handlers, keep data) and returns the
    value of the call.  [atof] is the C library's.  The calls and the acknowledgements sent are
    recorded in order, together with the moments a stream is opened or
    closed.  Logging is left out.  An argument that the instruction does not have is a
    pointer that the instruction has not set: reading it is a fault. *)

From S2P Require Import Prelude RecordUpdate CFormat CString CNumbers Mem Run StateRun.
From S2P Require Import ProtocolTypes Protocol Base64 Pool Streams.
From Stdlib Require Import Floats.SpecFloat.
Local Open Scope Z_scope.

Local Abbreviation pointer := (option Z).

(** ** Users *)

Record user_handlers := mk_handlers {
  mouse_handler : pointer;
  key_handler : pointer;
  clipboard_handler : pointer;
  size_handler : pointer;
  touch_handler : pointer;
  file_handler : pointer;
  pipe_handler : pointer;
  argv_handler : pointer;
  ack_handler : pointer;
  blob_handler : pointer;
  end_handler : pointer;
  sync_handler : pointer;
  get_handler : pointer;
  put_handler : pointer;
  audio_handler : pointer;
}.

(** A string on the heap, with its address; a [NULL]-terminated array of such strings, with the
    address of the array. *)

Definition allocated_string : Type := option (Z * list byte).
Definition mimetype_array : Type := option (Z * list (Z * list byte)).

Record guac_user_info := mk_info {
  optimal_width : Z;
  optimal_height : Z;
  optimal_resolution : Z;
  audio_mimetypes : mimetype_array;
  video_mimetypes : mimetype_array;
  image_mimetypes : mimetype_array;
  timezone : allocated_string;
  name : allocated_string;
  protocol_version : guac_protocol_version;
}.

#[export] Instance eta_info : Eta guac_user_info :=
  λ i, mk_info (optimal_width i) (optimal_height i) (optimal_resolution i) (audio_mimetypes i)
    (video_mimetypes i) (image_mimetypes i) (timezone i) (name i) (protocol_version i).

Record guac_user := mk_guac_user {
  user_active : bool;                    (* active *)
  last_sent_timestamp : Z;               (* client->last_sent_timestamp *)
  last_received_timestamp : Z;
  last_frame_duration : Z;
  processing_lag : Z;
  user_tables : Streams.user_tables;     (* __input_streams, __output_streams, __objects *)
  handlers : user_handlers;
  info : guac_user_info;
}.

#[export] Instance eta_guac_user : Eta guac_user :=
  λ u, mk_guac_user (user_active u) (last_sent_timestamp u) (last_received_timestamp u)
    (last_frame_duration u) (processing_lag u) (user_tables u) (handlers u) (info u).

(** The calls of a plugin's functions, with their arguments; a stream or object is its place. *)

Inductive call :=
| sync_call (timestamp : Z)
| touch_call (id x y x_radius y_radius : Z) (angle force : spec_float)
| mouse_call (x y mask : Z)
| key_call (keysym pressed : Z)
| size_call (width height : Z)
| audio_call (stream : nat) (mimetype : list byte)
| clipboard_call (stream : nat) (mimetype : list byte)
| file_call (stream : nat) (mimetype filename : list byte)
| pipe_call (stream : nat) (mimetype name : list byte)
| argv_call (stream : nat) (mimetype name : list byte)
| ack_call (stream : nat) (error : list byte) (status : Z)
| blob_call (stream : nat) (data : list byte) (length : Z)
| end_call (stream : nat)
| get_call (object : nat) (name : list byte)
| put_call (object stream : nat) (mimetype name : list byte).

Inductive event :=
| Calls (handler : Z) (c : call)
| Acks (index : Z) (message : list byte) (status : guac_protocol_status)
| Opens (stream : nat)
| Closes (stream : nat).

(** ** Actions *)

Definition session : Type := guac_user * list event.

Definition act (A : Type) : Type := stateful session A.
#[export] Instance act_ret : MRet act := stateful_ret session.
#[export] Instance act_bind : MBind act := stateful_bind session.

Definition get_user : act guac_user := λ s, Run (fst s, s).
Definition put_user (u : guac_user) : act unit := λ s, Run (tt, (u, snd s)).
Definition record_event (e : event) : act unit := λ s, Run (tt, (fst s, snd s ++ [e])).

Definition send_ack (index : Z) (message : list byte) (status : guac_protocol_status) : act unit :=
  record_event (Acks index message status).

Definition argv_at (argv : list (list byte)) (n : nat) : act (list byte) := lift (deref (argv !! n)).

(** ** Streams *)

Definition input_streams (u : guac_user) : list Streams.stream :=
  user_input_streams (user_tables u).

Definition set_input_stream (place : nat) (s : Streams.stream) (u : guac_user) : guac_user :=
  u <| user_tables := (user_tables u) <| user_input_streams :=
    <[place := s]> (user_input_streams (user_tables u)) |> |>.

Definition __get_input_stream (index : Z) : act (option nat) :=
  if (index <? 0) || (GUAC_USER_MAX_STREAMS <=? index) then
    send_ack index (lit "Invalid stream index") GUAC_PROTOCOL_STATUS_CLIENT_BAD_REQUEST;;
    mret None
  else mret (Some (Z.to_nat index)).

Definition stream_at (place : nat) : act Streams.stream :=
  u ← get_user; lift (deref (input_streams u !! place)).

Definition __get_open_input_stream (index : Z) : act (option nat) :=
  r ← __get_input_stream index;
  match r with
  | None => mret None
  | Some place =>
      stream ← stream_at place;
      if Streams.stream_index stream =? GUAC_USER_CLOSED_STREAM_INDEX then
        send_ack index (lit "Invalid stream index") GUAC_PROTOCOL_STATUS_CLIENT_BAD_REQUEST;;
        mret None
      else mret (Some place)
  end.

(** [argc] is the length of [argv]. *)

Section handlers.
  Context (plugin : Z → call → guac_user → Z * guac_user) (atof : list byte → spec_float).

Definition invoke (handler : Z) (c : call) : act Z := λ s,
  let '(r, u) := plugin handler c (fst s) in Run (r, (u, snd s ++ [Calls handler c])).

(** The handler of the stream, or the user's. *)

Definition or_else (first second : pointer) : pointer :=
  match first with Some h => Some h | None => second end.

Definition call_end (place : nat) (stream : Streams.stream) (u : guac_user) : act Z :=
  match or_else (stream_end_handler stream) (end_handler (handlers u)) with
  | Some h => invoke h (end_call place)
  | None => mret 0
  end.

Definition __init_input_stream (index : Z) : act (option nat) :=
  r ← __get_input_stream index;
  match r with
  | None => mret None
  | Some place =>
      stream ← stream_at place;
      u ← get_user;
      (if Streams.stream_index stream =? GUAC_USER_CLOSED_STREAM_INDEX then mret 0
       else call_end place stream u);;
      u ← get_user;
      put_user (set_input_stream place (mk_stream index None None None None) u);;
      record_event (Opens place);;
      mret (Some place)
  end.

(** What the five instructions that open a stream have in common. *)

Definition open_with (argv : list (list byte)) (handler : user_handlers → pointer)
    (make_call : nat → act call) (unsupported : list byte) : act Z :=
  index ← argv_at argv 0;
  r ← __init_input_stream (atoi index);
  match r with
  | None => mret 0
  | Some place =>
      u ← get_user;
      match handler (handlers u) with
      | Some h => c ← make_call place; invoke h c
      | None =>
          stream ← stream_at place;
          send_ack (Streams.stream_index stream) unsupported GUAC_PROTOCOL_STATUS_UNSUPPORTED;;
          mret 0
      end
  end.

Definition __guac_handle_audio (argv : list (list byte)) : act Z :=
  open_with argv audio_handler
    (λ place, mimetype ← argv_at argv 1; mret (audio_call place mimetype))
    (lit "Audio input unsupported").

Definition __guac_handle_clipboard (argv : list (list byte)) : act Z :=
  open_with argv clipboard_handler
    (λ place, mimetype ← argv_at argv 1; mret (clipboard_call place mimetype))
    (lit "Clipboard unsupported").

Definition __guac_handle_file (argv : list (list byte)) : act Z :=
  open_with argv file_handler
    (λ place, mimetype ← argv_at argv 1; filename ← argv_at argv 2; mret (file_call place mimetype filename))
    (lit "File transfer unsupported").

Definition __guac_handle_pipe (argv : list (list byte)) : act Z :=
  open_with argv pipe_handler
    (λ place, mimetype ← argv_at argv 1; name ← argv_at argv 2; mret (pipe_call place mimetype name))
    (lit "Named pipes unsupported").

Definition __guac_handle_argv (argv : list (list byte)) : act Z :=
  open_with argv argv_handler
    (λ place, mimetype ← argv_at argv 1; name ← argv_at argv 2; mret (argv_call place mimetype name))
    (lit "Reconfiguring in-progress connections unsupported").

Definition __guac_handle_ack (argv : list (list byte)) : act Z :=
  index ← argv_at argv 0;
  let stream_index := atoi index in
  if negb (Z.rem stream_index 2 =? 0) then mret 0
  else
    let stream_index := Z.quot stream_index 2 in
    if (stream_index <? 0) || (GUAC_USER_MAX_STREAMS <=? stream_index) then mret 0
    else
      let place := Z.to_nat stream_index in
      u ← get_user;
      stream ← lift (deref (user_output_streams (user_tables u) !! place));
      if Streams.stream_index stream =? GUAC_USER_CLOSED_STREAM_INDEX then mret 0
      else
        match or_else (stream_ack_handler stream) (ack_handler (handlers u)) with
        | Some h => error ← argv_at argv 1; status ← argv_at argv 2; invoke h (ack_call place error (atoi status))
        | None => mret 0
        end.

(** The data is decoded in place: the handler is given the memory of the argument. *)

Definition __guac_handle_blob (argv : list (list byte)) : act Z :=
  index ← argv_at argv 0;
  r ← __get_open_input_stream (atoi index);
  match r with
  | None => mret 0
  | Some place =>
      stream ← stream_at place;
      u ← get_user;
      match or_else (stream_blob_handler stream) (blob_handler (handlers u)) with
      | Some h =>
          text ← argv_at argv 1;
          let '(length, mem) := guac_protocol_decode_base64 (text ++ [x00]) in
          invoke h (blob_call place (take (Z.to_nat length) mem) length)
      | None =>
          send_ack (Streams.stream_index stream) (lit "File transfer unsupported")
            GUAC_PROTOCOL_STATUS_UNSUPPORTED;;
          mret 0
      end
  end.

Definition __guac_handle_end (argv : list (list byte)) : act Z :=
  index ← argv_at argv 0;
  r ← __get_open_input_stream (atoi index);
  match r with
  | None => mret 0
  | Some place =>
      stream ← stream_at place;
      u ← get_user;
      result ← call_end place stream u;
      stream ← stream_at place;
      u ← get_user;
      put_user (set_input_stream place
        (stream <| Streams.stream_index := GUAC_USER_CLOSED_STREAM_INDEX |>) u);;
      record_event (Closes place);;
      mret result
  end.

(** ** Objects *)

(** The object with this index, if it is defined. *)

Definition defined_object (index : Z) : act (option (nat * object)) :=
  if (index <? 0) || (GUAC_USER_MAX_OBJECTS <=? index) then mret None
  else
    u ← get_user;
    object ← lift (deref (user_objects (user_tables u) !! Z.to_nat index));
    if object_index object =? GUAC_USER_UNDEFINED_OBJECT_INDEX then mret None
    else mret (Some (Z.to_nat index, object)).

Definition __guac_handle_get (argv : list (list byte)) : act Z :=
  index ← argv_at argv 0;
  r ← defined_object (atoi index);
  match r with
  | None => mret 0
  | Some (place, object) =>
      u ← get_user;
      match or_else (object_get_handler object) (get_handler (handlers u)) with
      | Some h => name ← argv_at argv 1; invoke h (get_call place name)
      | None => mret 0
      end
  end.

(** The object is read again after the stream was opened, which may have called the plugin. *)

Definition __guac_handle_put (argv : list (list byte)) : act Z :=
  index ← argv_at argv 0;
  r ← defined_object (atoi index);
  match r with
  | None => mret 0
  | Some (object_place, _) =>
      index ← argv_at argv 1;
      r ← __init_input_stream (atoi index);
      match r with
      | None => mret 0
      | Some place =>
          u ← get_user;
          object ← lift (deref (user_objects (user_tables u) !! object_place));
          match or_else (object_put_handler object) (put_handler (handlers u)) with
          | Some h =>
              mimetype ← argv_at argv 2; name ← argv_at argv 3;
              invoke h (put_call object_place place mimetype name)
          | None =>
              stream ← stream_at place;
              send_ack (Streams.stream_index stream) (lit "Object write unsupported")
                GUAC_PROTOCOL_STATUS_UNSUPPORTED;;
              mret 0
          end
      end
  end.

(** ** Events *)

Definition __guac_handle_touch (argv : list (list byte)) : act Z :=
  u ← get_user;
  match touch_handler (handlers u) with
  | Some h =>
      id ← argv_at argv 0; x ← argv_at argv 1; y ← argv_at argv 2; x_radius ← argv_at argv 3; y_radius ← argv_at argv 4;
      angle ← argv_at argv 5; force ← argv_at argv 6;
      invoke h (touch_call (atoi id) (atoi x) (atoi y) (atoi x_radius) (atoi y_radius)
        (atof angle) (atof force))
  | None => mret 0
  end.

Definition __guac_handle_mouse (argv : list (list byte)) : act Z :=
  u ← get_user;
  match mouse_handler (handlers u) with
  | Some h =>
      x ← argv_at argv 0; y ← argv_at argv 1; mask ← argv_at argv 2;
      invoke h (mouse_call (atoi x) (atoi y) (atoi mask))
  | None => mret 0
  end.

Definition __guac_handle_key (argv : list (list byte)) : act Z :=
  u ← get_user;
  match key_handler (handlers u) with
  | Some h => keysym ← argv_at argv 0; pressed ← argv_at argv 1; invoke h (key_call (atoi keysym) (atoi pressed))
  | None => mret 0
  end.

Definition __guac_handle_size (argv : list (list byte)) : act Z :=
  u ← get_user;
  match size_handler (handlers u) with
  | Some h => width ← argv_at argv 0; height ← argv_at argv 1; invoke h (size_call (atoi width) (atoi height))
  | None => mret 0
  end.

Definition __guac_handle_nop (argv : list (list byte)) : act Z := mret 0.

Definition guac_user_stop (u : guac_user) : guac_user := u <| user_active := false |>.

Definition __guac_handle_disconnect (argv : list (list byte)) : act Z :=
  u ← get_user; put_user (guac_user_stop u);; mret 0.

(** ** The acknowledgement of a frame *)

(** Signed arithmetic has to stay within its type. *)

Definition in_i64 (z : Z) : run Z := if decide (is_i64 z) then Run z else Fault.
Definition in_i32 (z : Z) : run Z := if decide (is_i32 z) then Run z else Fault.

Fixpoint parse_int_loop (str : list byte) (sign num : Z) : run Z :=
  match str with
  | [] => in_i64 (num * sign)
  | c :: str =>
      if decide (c = x2d) then parse_int_loop str (- sign) num
      else
        num ← in_i64 (num * 10);
        num ← in_i64 (num + (sc c - 48));
        parse_int_loop str sign num
  end.

Definition __guac_parse_int (str : list byte) : run Z := parse_int_loop str 1 0.

(** What an accepted timestamp changes; [current] is the time. *)

Definition update_lag (current timestamp : Z) (u : guac_user) : run guac_user :=
  let u := u <| last_received_timestamp := timestamp |> in
  duration ← in_i64 (current - timestamp);
  let frame_duration := i32 duration in
  frame_processing_lag ←
    (if last_frame_duration u =? 0 then Run 0
     else
       lag ← in_i32 (frame_duration - last_frame_duration u);
       Run (if lag <? 0 then 0 else lag));
  estimated_rtt ← in_i32 (frame_duration - frame_processing_lag);
  let u := u <| last_frame_duration := estimated_rtt |> in
  elapsed ← in_i64 (current - last_received_timestamp u);
  lag ← in_i64 (elapsed - estimated_rtt);
  Run (u <| processing_lag := if i32 lag <? 0 then 0 else i32 lag |>).

Definition __guac_handle_sync (current : Z) (argv : list (list byte)) : act Z :=
  text ← argv_at argv 0;
  timestamp ← lift (__guac_parse_int text);
  u ← get_user;
  if last_sent_timestamp u <? timestamp then mret (-1)
  else
    (if last_received_timestamp u <=? timestamp
     then u ← lift (update_lag current timestamp u); put_user u
     else mret tt);;
    u ← get_user;
    match sync_handler (handlers u) with
    | Some h => invoke h (sync_call timestamp)
    | None => mret 0
    end.

(** ** Dispatch *)

Definition __guac_instruction_handler_map (current : Z)
    : list (list byte * (list (list byte) → act Z)) :=
  [(lit "sync", __guac_handle_sync current);
   (lit "touch", __guac_handle_touch);
   (lit "mouse", __guac_handle_mouse);
   (lit "key", __guac_handle_key);
   (lit "clipboard", __guac_handle_clipboard);
   (lit "disconnect", __guac_handle_disconnect);
   (lit "size", __guac_handle_size);
   (lit "file", __guac_handle_file);
   (lit "pipe", __guac_handle_pipe);
   (lit "ack", __guac_handle_ack);
   (lit "blob", __guac_handle_blob);
   (lit "end", __guac_handle_end);
   (lit "get", __guac_handle_get);
   (lit "put", __guac_handle_put);
   (lit "audio", __guac_handle_audio);
   (lit "argv", __guac_handle_argv);
   (lit "nop", __guac_handle_nop)].

Fixpoint __guac_user_call_opcode_handler {A : Type} (map : list (list byte * A)) (opcode : list byte)
    : option A :=
  match map with
  | [] => None
  | (name, handler) :: map =>
      if decide (opcode = name) then Some handler
      else __guac_user_call_opcode_handler map opcode
  end.

(** An opcode that is not known is ignored. *)

Definition guac_user_handle_instruction (current : Z) (opcode : list byte) (argv : list (list byte))
    : act Z :=
  match __guac_user_call_opcode_handler (__guac_instruction_handler_map current) opcode with
  | Some handler => handler argv
  | None => mret 0
  end.

(** Instructions one after the other, with the time at which each arrives. *)

Fixpoint handle_all (instructions : list (Z * (list byte * list (list byte)))) : act unit :=
  match instructions with
  | [] => mret tt
  | (current, (opcode, argv)) :: instructions =>
      guac_user_handle_instruction current opcode argv;;
      handle_all instructions
  end.
End handlers.
