(* ===== verification/UserInputSpec.v ===== *)
(** * What the instructions of a user can do ([UserInput])

    Streams are opened, written and ended in order whatever the other side sends, a
    blob arrives as it was sent, the processing lag is the excess over the
    fastest frame, and arguments that are not there are read. *)

From S2P Require Import Prelude RecordUpdate CFormat CString CNumbers Mem Run StateRun.
From S2P Require Import ProtocolTypes Socket Protocol Base64 Pool Streams UserInput.
From stdpp Require Import gmap.
From Stdlib Require Import Floats.SpecFloat.
Local Open Scope Z_scope.

(** ** Triples of the actions *)

Section triples.
  Context (safe : bool).

Lemma ensures_get_user s (Q : guac_user → session → Prop) : Q (fst s) s → ensures safe get_user s Q.
Proof. done. Qed.

Lemma ensures_put_user u (s : session) (Q : unit → session → Prop) : Q tt (u, snd s) → ensures safe (put_user u) s Q.
Proof. done. Qed.

Lemma ensures_record e (s : session) (Q : unit → session → Prop) : Q tt (fst s, snd s ++ [e]) → ensures safe (record_event e) s Q.
Proof. done. Qed.

Lemma ensures_arg argv n (s : session) (Q : list byte → session → Prop) :
  (safe = true → (n < length argv)%nat) → (∀ a, argv !! n = Some a → Q a s) → ensures safe (argv_at argv n) s Q.
Proof.
  intros Hn HQ. apply ensures_lift.
  - intros a E. apply HQ. destruct (argv !! n); [by injection E as ->|done].
  - intros Hs. destruct (lookup_lt_is_Some_2 argv n (Hn Hs)) as [a Ha]. exists a. by rewrite Ha.
Qed.
End triples.

(** ** The life of the input streams

    [accepts o t]: starting with the streams [o] open, the events [t] use a stream only
    between its opening and its end, and end it at most once; the result is what is
    open afterwards. *)

Definition stream_of (c : call) : option nat :=
  match c with
  | audio_call i _ | clipboard_call i _ | file_call i _ _ | pipe_call i _ _ | argv_call i _ _
  | blob_call i _ _ | end_call i | put_call _ i _ _ => Some i
  | _ => None
  end.

Definition accept (o : gset nat) (e : event) : option (gset nat) :=
  match e with
  | Opens i => Some ({[ i ]} ∪ o)
  | Closes i => Some (o ∖ {[ i ]})
  | Calls _ (end_call i) => if decide (i ∈ o) then Some (o ∖ {[ i ]}) else None
  | Calls _ c =>
      match stream_of c with
      | Some i => if decide (i ∈ o) then Some o else None
      | None => Some o
      end
  | Acks _ _ _ => Some o
  end.

Fixpoint accepts (o : gset nat) (t : list event) : option (gset nat) :=
  match t with
  | [] => Some o
  | e :: t => o ← accept o e; accepts o t
  end.

Lemma accepts_app o t1 t2 : accepts o (t1 ++ t2) = accepts o t1 ≫= λ o, accepts o t2.
Proof.
  revert o. induction t1 as [|e t1 IH]; intros o; [done|]. cbn.
  destruct (accept o e); cbn; [apply IH|done].
Qed.

Definition input_indices (u : guac_user) : list Z := Streams.stream_index <$> input_streams u.

(** Exactly the streams [o] are open, under their own index. *)

Definition open_inputs (o : gset nat) (u : guac_user) : Prop :=
  length (input_streams u) = 512%nat ∧ length (user_output_streams (user_tables u)) = 512%nat ∧
  length (user_objects (user_tables u)) = 64%nat ∧
  ∀ i, (i < 512)%nat →
    input_indices u !! i =
      Some (if bool_decide (i ∈ o) then Z.of_nat i else GUAC_USER_CLOSED_STREAM_INDEX).

Definition tracked (o : gset nat) (s : session) : Prop :=
  accepts ∅ (snd s) = Some o ∧ open_inputs o (fst s) ∧ ∀ i, i ∈ o → (i < 512)%nat.

(** What the functions of a plugin leave alone: the indices and sizes of the tables. *)

Class LawfulPlugin (plugin : Z → call → guac_user → Z * guac_user) : Prop := {
  plugin_inputs h c u : input_indices (snd (plugin h c u)) = input_indices u;
  plugin_outputs h c u :
    length (user_output_streams (user_tables (snd (plugin h c u)))) =
    length (user_output_streams (user_tables u));
  plugin_objects h c u :
    length (user_objects (user_tables (snd (plugin h c u)))) =
    length (user_objects (user_tables u));
}.

Lemma open_inputs_plugin plugin `{!LawfulPlugin plugin} o h c u :
  open_inputs o u → open_inputs o (snd (plugin h c u)).
Proof.
  intros (Hl & Ho & Hb & Hi). unfold open_inputs.
  rewrite plugin_outputs, plugin_objects, plugin_inputs. split; [|done].
  rewrite <-Hl. pose proof (plugin_inputs h c u) as E. unfold input_indices in E.
  by apply (f_equal length) in E; rewrite !length_fmap in E.
Qed.

Lemma open_lookup o u i :
  open_inputs o u → (i < 512)%nat →
  ∃ s, input_streams u !! i = Some s ∧
    Streams.stream_index s =
      if bool_decide (i ∈ o) then Z.of_nat i else GUAC_USER_CLOSED_STREAM_INDEX.
Proof.
  intros (_ & _ & _ & Hi) Hlt. specialize (Hi i Hlt). unfold input_indices in Hi.
  rewrite list_lookup_fmap in Hi. destruct (input_streams u !! i) as [s|]; [|done].
  exists s. split; [done|]. by injection Hi.
Qed.

(** Storing a stream under its index, or closed. *)

Lemma open_inputs_set o u place s :
  open_inputs o u → (place < 512)%nat → Streams.stream_index s = Z.of_nat place →
  open_inputs ({[ place ]} ∪ o) (set_input_stream place s u).
Proof.
  intros (Hl & Ho & Hb & Hi) Hp Hs. split; [|split; [done|split; [done|]]].
  { cbn. by rewrite length_insert. }
  intros i Hlt. unfold input_indices. cbn. rewrite list_fmap_insert, Hs.
  destruct (decide (i = place)) as [->|Hne].
  - rewrite list_lookup_insert_eq by (rewrite length_fmap; unfold input_streams in Hl; lia).
    by rewrite bool_decide_true by set_solver.
  - rewrite list_lookup_insert_ne by done. specialize (Hi i Hlt). unfold input_indices, input_streams in Hi.
    rewrite Hi. f_equal. assert (E : bool_decide (i ∈ {[ place ]} ∪ o) = bool_decide (i ∈ o))
      by (apply bool_decide_ext; clear -Hne; set_solver). by rewrite E.
Qed.

Lemma open_inputs_close o o' u place s :
  open_inputs o u → (place < 512)%nat → Streams.stream_index s = GUAC_USER_CLOSED_STREAM_INDEX →
  (∀ i, i ≠ place → i ∈ o' ↔ i ∈ o) → place ∉ o' →
  open_inputs o' (set_input_stream place s u).
Proof.
  intros (Hl & Ho & Hb & Hi) Hp Hs Hsame Hout. split; [|split; [done|split; [done|]]].
  { cbn. by rewrite length_insert. }
  intros i Hlt. unfold input_indices. cbn. rewrite list_fmap_insert, Hs.
  destruct (decide (i = place)) as [->|Hne].
  - rewrite list_lookup_insert_eq by (rewrite length_fmap; unfold input_streams in Hl; lia).
    by rewrite bool_decide_false.
  - rewrite list_lookup_insert_ne by done. specialize (Hi i Hlt). unfold input_indices, input_streams in Hi.
    rewrite Hi. f_equal. assert (E : bool_decide (i ∈ o') = bool_decide (i ∈ o))
      by (by apply bool_decide_ext, Hsame). by rewrite E.
Qed.

Lemma open_inputs_ext o o' u : (∀ i, i ∈ o ↔ i ∈ o') → open_inputs o u → open_inputs o' u.
Proof.
  intros He (Hl & Ho & Hb & Hi). split; [done|split; [done|split; [done|]]].
  intros i Hlt. rewrite Hi by done. f_equal.
  assert (E : bool_decide (i ∈ o) = bool_decide (i ∈ o')) by (apply bool_decide_ext, He). by rewrite E.
Qed.

Section handlers.
  Context (plugin : Z → call → guac_user → Z * guac_user) `{!LawfulPlugin plugin}
    (atof : list byte → spec_float) (safe : bool).

Local Abbreviation ensures_safe := (ensures safe).

(** [Tracked] is what every instruction preserves. *)

Local Abbreviation Tracked := (λ s : session, ∃ o, tracked o s).

Lemma tracked_call o s h c :
  tracked o s → (∀ i, stream_of c = Some i → i ∈ o) → (∀ i, c ≠ end_call i) →
  tracked o (snd (plugin h c (fst s)), snd s ++ [Calls h c]).
Proof.
  intros (Ha & Ho & Hr) Hs Hne. split; [|split; [by apply open_inputs_plugin|done]].
  cbn [snd]. rewrite accepts_app, Ha. cbn [mbind option_bind accepts].
  assert (E : accept o (Calls h c) = Some o).
  { destruct c; cbn in *; try done; try (rewrite decide_True by (by apply Hs); done). by destruct (Hne stream). }
  by rewrite E.
Qed.

Lemma ensures_invoke o s h c :
  tracked o s → (∀ i, stream_of c = Some i → i ∈ o) → (∀ i, c ≠ end_call i) →
  ensures_safe (invoke plugin h c) s (λ _ s, tracked o s).
Proof.
  intros Ht Hs Hne. pose proof (tracked_call o s h c Ht Hs Hne) as H.
  unfold ensures, invoke. by destruct (plugin h c (fst s)) as [r u] eqn:E.
Qed.

Lemma tracked_ack o s i m st : tracked o s → tracked o (fst s, snd s ++ [Acks i m st]).
Proof. intros (Ha & Ho & Hr). split; [|done]. cbn [snd]. by rewrite accepts_app, Ha. Qed.

Lemma ensures_stream_at o s place Q :
  tracked o s → (place < 512)%nat →
  (∀ stream, input_streams (fst s) !! place = Some stream →
     Streams.stream_index stream =
       (if bool_decide (place ∈ o) then Z.of_nat place else GUAC_USER_CLOSED_STREAM_INDEX) →
     Q stream s) →
  ensures_safe (stream_at place) s Q.
Proof.
  intros (_ & Ho & _) Hp HQ. destruct (open_lookup o (fst s) place Ho Hp) as (stream & E & Hi).
  unfold stream_at. apply ensures_bind, ensures_get_user, (ensures_deref _ _ _ _ stream); [done|by apply HQ].
Qed.

Lemma get_input_stream_ok o s index :
  tracked o s →
  ensures_safe (__get_input_stream index) s (λ r s, tracked o s ∧
    ∀ place, r = Some place → (place < 512)%nat ∧ index = Z.of_nat place).
Proof.
  intros Ht. unfold __get_input_stream. destruct (_ || _) eqn:E.
  - apply ensures_bind, ensures_record. apply ensures_ret. split; [by apply tracked_ack|done].
  - apply ensures_ret. split; [done|]. intros place [= <-].
    apply orb_false_iff in E as [?%Z.ltb_ge Hlt%Z.leb_gt].
    unfold GUAC_USER_MAX_STREAMS in Hlt. lia.
Qed.

Lemma get_open_input_stream_ok o s index :
  tracked o s →
  ensures_safe (__get_open_input_stream index) s (λ r s, tracked o s ∧
    ∀ place, r = Some place → (place < 512)%nat ∧ place ∈ o).
Proof.
  intros Ht. apply ensures_bind. eapply ensures_mono; [by apply (get_input_stream_ok o)|].
  intros r s1 [Ht1 Hr]. destruct r as [place|]; [|by apply ensures_ret].
  destruct (Hr place eq_refl) as [Hp ->].
  apply ensures_bind, (ensures_stream_at o); [done|done|]. intros stream _ Hi.
  destruct (Z.eqb_spec (Streams.stream_index stream) GUAC_USER_CLOSED_STREAM_INDEX) as [Hc|Hc].
  - apply ensures_bind, ensures_record. apply ensures_ret. split; [by apply tracked_ack|done].
  - apply ensures_ret. split; [done|]. intros ? [= <-]. split; [done|].
    case_bool_decide; [done|]. by rewrite Hi in Hc.
Qed.

(** The end handler, while the stream is still stored as open. *)

Lemma call_end_ok o s place stream u :
  tracked o s → place ∈ o →
  ensures_safe (call_end plugin place stream u) s (λ _ s,
    open_inputs o (fst s) ∧ ∃ o', accepts ∅ (snd s) = Some o' ∧ ∀ i, i ≠ place → i ∈ o' ↔ i ∈ o).
Proof.
  intros (Ha & Ho & Hr) Hp. unfold call_end. destruct (or_else _ _) as [h|].
  - unfold ensures, invoke.
    pose proof (open_inputs_plugin plugin o h (end_call place) (fst s) Ho) as Ho'.
    destruct (plugin h (end_call place) (fst s)) as [r u'] eqn:E. cbn [fst snd] in *. split; [done|].
    exists (o ∖ {[ place ]}). split; [|set_solver].
    rewrite accepts_app, Ha. cbn. by rewrite decide_True.
  - apply ensures_ret. split; [done|]. exists o. split; [done|done].
Qed.

Lemma init_input_stream_ok o s index :
  tracked o s →
  ensures_safe (__init_input_stream plugin index) s (λ r s,
    match r with
    | Some place => ∃ o', tracked o' s ∧ (place < 512)%nat ∧ place ∈ o'
    | None => tracked o s
    end).
Proof.
  intros Ht. apply ensures_bind. eapply ensures_mono; [by apply (get_input_stream_ok o)|].
  intros r s1 [Ht1 Hr]. destruct r as [place|]; [|by apply ensures_ret].
  destruct (Hr place eq_refl) as [Hp ->]. clear Hr.
  apply ensures_bind, (ensures_stream_at o); [done|done|]. intros stream _ Hi.
  apply ensures_bind, ensures_get_user, ensures_bind.
  assert (Hnext : ensures_safe (if Streams.stream_index stream =? GUAC_USER_CLOSED_STREAM_INDEX then mret 0
      else call_end plugin place stream (fst s1)) s1
    (λ _ s, open_inputs o (fst s) ∧ ∃ o', accepts ∅ (snd s) = Some o' ∧ ∀ i, i ≠ place → i ∈ o' ↔ i ∈ o)).
  { destruct (Z.eqb_spec (Streams.stream_index stream) GUAC_USER_CLOSED_STREAM_INDEX) as [Hc|Hc].
    - apply ensures_ret. split; [apply Ht1|]. exists o. split; [apply Ht1|done].
    - apply call_end_ok; [done|]. case_bool_decide; [done|]. by rewrite Hi in Hc. }
  eapply ensures_mono; [exact Hnext|]. intros _ s2 (Ho & o' & Ha & Hsame).
  apply ensures_bind, ensures_get_user, ensures_bind, ensures_put_user, ensures_bind, ensures_record, ensures_ret.
  exists ({[ place ]} ∪ o'). split; [|split; [done|set_solver]]. split; [|split].
  - cbn [snd]. by rewrite accepts_app, Ha.
  - cbn [fst]. apply (open_inputs_ext ({[ place ]} ∪ o)).
    + intros i. destruct (decide (i = place)) as [->|Hne]; [set_solver|].
      specialize (Hsame i Hne). set_solver.
    + by apply open_inputs_set.
  - destruct Ht1 as (_ & _ & Hr). intros i [->%elem_of_singleton|Hin]%elem_of_union; [done|].
    destruct (decide (i = place)) as [->|Hne]; [done|]. apply Hr. by apply (Hsame i Hne).
Qed.

(** ** The handlers *)

Definition kept (m : act Z) : Prop := ∀ s, Tracked s → ensures_safe m s (λ _ s, Tracked s).

Lemma kept_invoke o s h c :
  tracked o s → (∀ i, stream_of c = Some i → i ∈ o) → (∀ i, c ≠ end_call i) →
  ensures_safe (invoke plugin h c) s (λ _ s, Tracked s).
Proof.
  intros Ht Hs Hne. eapply ensures_mono; [by apply (ensures_invoke o)|]. intros r s' H. by exists o.
Qed.

Lemma open_with_ok argv handler make_call unsupported (n : nat) :
  (safe = true → (n ≤ length argv)%nat) → (0 < n)%nat →
  (∀ place s (Q : call → session → Prop),
     (∀ c, stream_of c = Some place → (∀ i, c ≠ end_call i) → Q c s) →
     ensures_safe (make_call place) s Q) →
  kept (open_with plugin argv handler make_call unsupported).
Proof.
  intros Hn Hpos Hmake s [o Ht]. apply ensures_bind, ensures_arg; [intros Hsafe; specialize (Hn Hsafe); lia|].
  intros index _. apply ensures_bind. eapply ensures_mono; [by apply (init_input_stream_ok o)|].
  intros [place|] s1 H1; [|apply ensures_ret; by exists o].
  destruct H1 as (o' & Ht1 & Hp & Hin). apply ensures_bind, ensures_get_user.
  destruct (handler _) as [h|].
  - apply ensures_bind, Hmake. intros c Hc Hne. apply (kept_invoke o'); [done| |done].
    intros i. by rewrite Hc; intros [= <-].
  - apply ensures_bind, (ensures_stream_at o'); [done|done|]. intros stream _ _.
    apply ensures_bind, ensures_record, ensures_ret. exists o'. by apply tracked_ack.
Qed.

Local Ltac argument := apply ensures_bind, ensures_arg; [intros Hsafe; match goal with
  | Hn : safe = true → _ |- _ => specialize (Hn Hsafe); cbn [length] in Hn; lia end | intros ? _].

(** How many arguments each instruction reads. *)

Definition arguments (opcode : list byte) : nat :=
  if decide (opcode ∈ [lit "audio"; lit "clipboard"; lit "blob"; lit "get"; lit "key"; lit "size"]) then 2
  else if decide (opcode ∈ [lit "file"; lit "pipe"; lit "argv"; lit "ack"; lit "mouse"]) then 3
  else if decide (opcode ∈ [lit "sync"; lit "end"]) then 1
  else if decide (opcode = lit "put") then 4
  else if decide (opcode = lit "touch") then 7
  else 0.

Lemma audio_ok argv : (safe = true → (2 ≤ length argv)%nat) → kept (__guac_handle_audio plugin argv).
Proof.
  intros Hn. apply (open_with_ok _ _ _ _ 2); [done|lia|]. intros place s Q HQ. argument.
  by apply ensures_ret, HQ.
Qed.

Lemma clipboard_ok argv : (safe = true → (2 ≤ length argv)%nat) → kept (__guac_handle_clipboard plugin argv).
Proof.
  intros Hn. apply (open_with_ok _ _ _ _ 2); [done|lia|]. intros place s Q HQ. argument.
  by apply ensures_ret, HQ.
Qed.

Lemma file_kept argv : (safe = true → (3 ≤ length argv)%nat) → kept (__guac_handle_file plugin argv).
Proof.
  intros Hn. apply (open_with_ok _ _ _ _ 3); [done|lia|]. intros place s Q HQ. argument.
  apply ensures_bind, ensures_arg; [intros Hs; specialize (Hn Hs); lia|]. intros ? _. by apply ensures_ret, HQ.
Qed.

Lemma pipe_ok argv : (safe = true → (3 ≤ length argv)%nat) → kept (__guac_handle_pipe plugin argv).
Proof.
  intros Hn. apply (open_with_ok _ _ _ _ 3); [done|lia|]. intros place s Q HQ. argument.
  apply ensures_bind, ensures_arg; [intros Hs; specialize (Hn Hs); lia|]. intros ? _. by apply ensures_ret, HQ.
Qed.

Lemma argv_ok argv : (safe = true → (3 ≤ length argv)%nat) → kept (__guac_handle_argv plugin argv).
Proof.
  intros Hn. apply (open_with_ok _ _ _ _ 3); [done|lia|]. intros place s Q HQ. argument.
  apply ensures_bind, ensures_arg; [intros Hs; specialize (Hn Hs); lia|]. intros ? _. by apply ensures_ret, HQ.
Qed.

Lemma ack_ok argv : (safe = true → (3 ≤ length argv)%nat) → kept (__guac_handle_ack plugin argv).
Proof.
  intros Hn s [o Ht]. apply ensures_bind, ensures_arg; [intros Hs; specialize (Hn Hs); lia|]. intros index _.
  cbv zeta. destruct (negb _); [apply ensures_ret; by exists o|].
  destruct (_ || _) eqn:Er; [apply ensures_ret; by exists o|].
  apply orb_false_iff in Er as [Hlo%Z.ltb_ge Hhi%Z.leb_gt].
  apply ensures_bind, ensures_get_user, ensures_bind.
  destruct (lookup_lt_is_Some_2 (user_output_streams (user_tables (fst s)))
    (Z.to_nat (Z.quot (atoi index) 2))) as [stream Es].
  { pose proof Ht as (_ & (_ & Hlen & _) & _). rewrite Hlen. unfold GUAC_USER_MAX_STREAMS in Hhi. lia. }
  apply (ensures_deref _ _ _ _ stream); [done|].
  destruct (_ =? _); [apply ensures_ret; by exists o|].
  destruct (or_else _ _); [|apply ensures_ret; by exists o].
  apply ensures_bind, ensures_arg; [intros Hs; specialize (Hn Hs); lia|]. intros error _.
  apply ensures_bind, ensures_arg; [intros Hs; specialize (Hn Hs); lia|]. intros status _.
  by apply (kept_invoke o).
Qed.

Lemma blob_ok argv : (safe = true → (2 ≤ length argv)%nat) → kept (__guac_handle_blob plugin argv).
Proof.
  intros Hn s [o Ht]. apply ensures_bind, ensures_arg; [intros Hs; specialize (Hn Hs); lia|]. intros index _.
  apply ensures_bind. eapply ensures_mono; [by apply (get_open_input_stream_ok o)|].
  intros [place|] s1 [Ht1 Hr]; [|apply ensures_ret; by exists o].
  destruct (Hr place eq_refl) as [Hp Hin].
  apply ensures_bind, (ensures_stream_at o); [done|done|]. intros stream _ _. apply ensures_bind, ensures_get_user.
  destruct (or_else _ _) as [h|].
  - apply ensures_bind, ensures_arg; [intros Hs; specialize (Hn Hs); lia|]. intros text _.
    destruct (guac_protocol_decode_base64 _) as [len mem].
    apply (kept_invoke o); [done| |done]. by intros i [= <-].
  - apply ensures_bind, ensures_record, ensures_ret. exists o. by apply tracked_ack.
Qed.

Lemma end_ok argv : (safe = true → (1 ≤ length argv)%nat) → kept (__guac_handle_end plugin argv).
Proof.
  intros Hn s [o Ht]. apply ensures_bind, ensures_arg; [intros Hs; specialize (Hn Hs); lia|]. intros index _.
  apply ensures_bind. eapply ensures_mono; [by apply (get_open_input_stream_ok o)|].
  intros [place|] s1 [Ht1 Hr]; [|apply ensures_ret; by exists o].
  destruct (Hr place eq_refl) as [Hp Hin].
  apply ensures_bind, (ensures_stream_at o); [done|done|]. intros stream _ _. apply ensures_bind, ensures_get_user.
  apply ensures_bind. eapply ensures_mono; [by apply (call_end_ok o)|].
  intros result s2 (Ho & o' & Ha & Hsame).
  destruct (open_lookup o (fst s2) place Ho Hp) as (stream' & Es & _).
  apply ensures_bind, ensures_bind, ensures_get_user, (ensures_deref _ _ _ _ stream'); [done|].
  apply ensures_bind, ensures_get_user, ensures_bind, ensures_put_user, ensures_bind, ensures_record, ensures_ret.
  exists (o' ∖ {[ place ]}). split; [|split].
  - cbn [snd]. by rewrite accepts_app, Ha.
  - cbn [fst]. apply (open_inputs_close o); [done|done|done| |set_solver].
    intros i Hi. rewrite elem_of_difference, elem_of_singleton, Hsame by done. clear -Hi. naive_solver.
  - destruct Ht1 as (_ & _ & Hlt). intros i [Hi Hne]%elem_of_difference. apply Hlt, Hsame; [|done].
    by rewrite elem_of_singleton in Hne.
Qed.

Lemma defined_object_ok o s index :
  tracked o s →
  ensures_safe (defined_object index) s (λ r s', s' = s ∧
    ∀ place object, r = Some (place, object) → (place < 64)%nat).
Proof.
  intros Ht. unfold defined_object. destruct (_ || _) eqn:Er; [by apply ensures_ret|].
  apply orb_false_iff in Er as [Hlo%Z.ltb_ge Hhi%Z.leb_gt]. unfold GUAC_USER_MAX_OBJECTS in Hhi.
  apply ensures_bind, ensures_get_user, ensures_bind.
  destruct (lookup_lt_is_Some_2 (user_objects (user_tables (fst s))) (Z.to_nat index)) as [object Eo].
  { pose proof Ht as (_ & (_ & _ & Hlen & _) & _). rewrite Hlen. lia. }
  apply (ensures_deref _ _ _ _ object); [done|].
  destruct (_ =? _); apply ensures_ret; (split; [done|]); [done|]. intros place ? [= <- <-]. lia.
Qed.

Lemma get_ok argv : (safe = true → (2 ≤ length argv)%nat) → kept (__guac_handle_get plugin argv).
Proof.
  intros Hn s [o Ht]. apply ensures_bind, ensures_arg; [intros Hs; specialize (Hn Hs); lia|]. intros index _.
  apply ensures_bind. eapply ensures_mono; [by apply (defined_object_ok o)|].
  intros [[place object]|] s1 [-> _]; [|apply ensures_ret; by exists o].
  apply ensures_bind, ensures_get_user. destruct (or_else _ _); [|apply ensures_ret; by exists o].
  apply ensures_bind, ensures_arg; [intros Hs; specialize (Hn Hs); lia|]. intros name _.
  by apply (kept_invoke o).
Qed.

Lemma put_ok argv : (safe = true → (4 ≤ length argv)%nat) → kept (__guac_handle_put plugin argv).
Proof.
  intros Hn s [o Ht]. apply ensures_bind, ensures_arg; [intros Hs; specialize (Hn Hs); lia|]. intros index _.
  apply ensures_bind. eapply ensures_mono; [by apply (defined_object_ok o)|].
  intros [[object_place object]|] s1 [-> Hobj]; [|apply ensures_ret; by exists o].
  specialize (Hobj _ _ eq_refl).
  apply ensures_bind, ensures_arg; [intros Hs; specialize (Hn Hs); lia|]. intros index' _.
  apply ensures_bind. eapply ensures_mono; [by apply (init_input_stream_ok o)|].
  intros [place|] s1 H1; [|apply ensures_ret; by exists o].
  destruct H1 as (o' & Ht1 & Hp & Hin). apply ensures_bind, ensures_get_user, ensures_bind.
  destruct (lookup_lt_is_Some_2 (user_objects (user_tables (fst s1))) object_place) as [object' Eo].
  { pose proof Ht1 as (_ & (_ & _ & Hlen & _) & _). by rewrite Hlen. }
  apply (ensures_deref _ _ _ _ object'); [done|]. destruct (or_else _ _).
  - apply ensures_bind, ensures_arg; [intros Hs; specialize (Hn Hs); lia|]. intros mimetype _.
    apply ensures_bind, ensures_arg; [intros Hs; specialize (Hn Hs); lia|]. intros name _.
    apply (kept_invoke o'); [done| |done]. by intros i [= <-].
  - apply ensures_bind, (ensures_stream_at o'); [done|done|]. intros stream _ _.
    apply ensures_bind, ensures_record, ensures_ret. exists o'. by apply tracked_ack.
Qed.

(** The instructions that only call a handler of the user. *)

Local Ltac arguments_then_invoke o :=
  repeat (apply ensures_bind, ensures_arg;
    [intros Hs; match goal with Hn : safe = true → _ |- _ => specialize (Hn Hs); lia end|intros ? _]);
  by apply (kept_invoke o).

Lemma touch_ok argv : (safe = true → (7 ≤ length argv)%nat) → kept (__guac_handle_touch plugin atof argv).
Proof.
  intros Hn s [o Ht]. apply ensures_bind, ensures_get_user.
  destruct (touch_handler _); [arguments_then_invoke o|apply ensures_ret; by exists o].
Qed.

Lemma mouse_ok argv : (safe = true → (3 ≤ length argv)%nat) → kept (__guac_handle_mouse plugin argv).
Proof.
  intros Hn s [o Ht]. apply ensures_bind, ensures_get_user.
  destruct (mouse_handler _); [arguments_then_invoke o|apply ensures_ret; by exists o].
Qed.

Lemma key_ok argv : (safe = true → (2 ≤ length argv)%nat) → kept (__guac_handle_key plugin argv).
Proof.
  intros Hn s [o Ht]. apply ensures_bind, ensures_get_user.
  destruct (key_handler _); [arguments_then_invoke o|apply ensures_ret; by exists o].
Qed.

Lemma size_ok argv : (safe = true → (2 ≤ length argv)%nat) → kept (__guac_handle_size plugin argv).
Proof.
  intros Hn s [o Ht]. apply ensures_bind, ensures_get_user.
  destruct (size_handler _); [arguments_then_invoke o|apply ensures_ret; by exists o].
Qed.

Lemma disconnect_ok argv : kept (__guac_handle_disconnect argv).
Proof.
  intros s [o Ht]. apply ensures_bind, ensures_get_user, ensures_bind, ensures_put_user, ensures_ret. by exists o.
Qed.

Lemma update_lag_tables current timestamp u u' :
  update_lag current timestamp u = Run u' → user_tables u' = user_tables u.
Proof.
  unfold update_lag. intros H. repeat apply run_bind_inv in H as (? & _ & H). by injection H as <-.
Qed.

Lemma sync_ok current argv : safe = false → kept (__guac_handle_sync plugin current argv).
Proof.
  intros Hs s [o Ht]. apply ensures_bind, ensures_arg; [by rewrite Hs|]. intros text _.
  apply ensures_bind, ensures_lift; [|by rewrite Hs]. intros timestamp _.
  apply ensures_bind, ensures_get_user. destruct (_ <? _); [apply ensures_ret; by exists o|].
  apply ensures_bind.
  assert (Hmid : ensures_safe (if last_received_timestamp (fst s) <=? timestamp
      then u ← lift (update_lag current timestamp (fst s)); put_user u else mret tt) s
    (λ _ s, Tracked s)).
  { destruct (_ <=? _); [|apply ensures_ret; by exists o].
    apply ensures_bind, ensures_lift; [|by rewrite Hs]. intros u Eu. apply ensures_put_user. exists o.
    destruct Ht as (Ha & Ho & Hr). split; [done|]. split; [|done].
    cbn [fst]. unfold open_inputs, input_indices, input_streams in *.
    by rewrite (update_lag_tables _ _ _ _ Eu). }
  eapply ensures_mono; [exact Hmid|]. intros _ s1 [o1 Ht1].
  apply ensures_bind, ensures_get_user. destruct (sync_handler _); [|apply ensures_ret; by exists o1].
  by apply (kept_invoke o1).
Qed.

(** Enough arguments; [sync] computes with its argument and the time ([sync_lag]). *)

Definition supplied (i : Z * (list byte * list (list byte))) : Prop :=
  fst (snd i) ≠ lit "sync" ∧ (arguments (fst (snd i)) ≤ length (snd (snd i)))%nat.

Lemma instruction_ok current opcode argv :
  (safe = true → supplied (current, (opcode, argv))) →
  kept (guac_user_handle_instruction plugin atof current opcode argv).
Proof.
  intros Hs. unfold guac_user_handle_instruction, __guac_instruction_handler_map.
  cbn [__guac_user_call_opcode_handler].
  assert (Hn : safe = true → (arguments opcode ≤ length argv)%nat) by (intros H; apply (Hs H)).
  repeat (case_decide as Eop; [subst opcode|clear Eop]).
  - apply sync_ok. destruct safe; [|done]. by destruct (Hs eq_refl).
  - by apply touch_ok. - by apply mouse_ok. - by apply key_ok. - by apply clipboard_ok.
  - apply disconnect_ok. - by apply size_ok. - by apply file_kept. - by apply pipe_ok.
  - by apply ack_ok. - by apply blob_ok. - by apply end_ok. - by apply get_ok. - by apply put_ok.
  - by apply audio_ok. - by apply argv_ok.
  - intros s H. by apply ensures_ret.
  - intros s H. by apply ensures_ret.
Qed.

Lemma handle_all_ok instructions s :
  (safe = true → Forall supplied instructions) → Tracked s →
  ensures_safe (handle_all plugin atof instructions) s (λ _ s, Tracked s).
Proof.
  revert s. induction instructions as [|[current [opcode argv]] instructions IH]; intros s Hs Ht;
    [by apply ensures_ret|].
  cbn [handle_all]. apply ensures_bind. eapply ensures_mono.
  - apply instruction_ok; [|exact Ht]. intros H. specialize (Hs H). by inversion Hs.
  - intros r s1 Ht1. cbn beta in Ht1. apply IH; [|done]. intros H. specialize (Hs H). by inversion Hs.
Qed.
End handlers.

#[export] Instance supplied_dec i : Decision (supplied i).
Proof. unfold supplied. apply _. Defined.

Lemma open_inputs_alloc u output input objects :
  user_tables u = guac_user_alloc_tables output input objects →
  length output = 512%nat → length input = 512%nat → length objects = 64%nat → open_inputs ∅ u.
Proof.
  intros E Ho Hi Hb. unfold open_inputs, input_indices, input_streams. rewrite E.
  cbn [user_input_streams user_output_streams user_objects guac_user_alloc_tables].
  rewrite !length_fmap. split; [done|split; [done|split; [done|]]].
  intros i Hlt. rewrite <-list_fmap_compose, list_lookup_fmap, bool_decide_false by set_solver.
  destruct (lookup_lt_is_Some_2 input i) as [s Es]; [lia|]. by rewrite Es.
Qed.

(** A session that starts with no stream open. *)

Lemma tracked_start u : open_inputs ∅ u → ∃ o, tracked o (u, []).
Proof. intros Hu. exists ∅. split; [done|]. split; [done|set_solver]. Qed.

(** C16. Whatever instructions a user sends, and whatever the plugin does as long as it leaves the
    indices of the streams alone: a stream's functions are called between its opening and its
    end only, each stream is ended at most once per opening, the streams open afterwards are
    exactly those opened and not ended, each under its own index; and when no instruction lacks
    an argument, every instruction is handled. *)
Theorem input_streams_protocol plugin `{!LawfulPlugin plugin} atof instructions u :
  open_inputs ∅ u →
  (∀ u' t, handle_all plugin atof instructions (u, []) = Run (tt, (u', t)) →
     ∃ o, accepts ∅ t = Some o ∧ open_inputs o u') ∧
  (Forall supplied instructions →
     ∃ u' t, handle_all plugin atof instructions (u, []) = Run (tt, (u', t))).
Proof.
  intros Hu.
  pose proof (tracked_start u Hu) as Ht.
  split.
  - intros u' t E. pose proof (handle_all_ok plugin atof false instructions (u, []) ltac:(done) Ht) as H.
    unfold ensures in H. rewrite E in H. destruct H as (o & Ha & Ho & _). by exists o.
  - intros Hs. pose proof (handle_all_ok plugin atof true instructions (u, []) ltac:(done) Ht) as H.
    unfold ensures in H. destruct (handle_all _ _ _ _) as [[[] [u' t]]| | |]; [by exists u', t|done..].
Qed.

Definition sample_plugin (h : Z) (c : call) (u : guac_user) : Z * guac_user := (0, u).

#[export] Instance sample_plugin_lawful : LawfulPlugin sample_plugin.
Proof. by split. Qed.

Definition sample_atof (s : list byte) : spec_float := S754_zero false.

(** A user of a plugin that takes files, with fresh tables. *)

Definition sample_user : guac_user :=
  mk_guac_user true 1000 900 0 0
    (guac_user_alloc_tables (replicate 512 fresh_stream) (replicate 512 fresh_stream)
       (replicate 64 fresh_object))
    (mk_handlers None None None None None (Some 1) None None None (Some 2) (Some 3) None None None None)
    (mk_info 0 0 0 None None None None None GUAC_PROTOCOL_VERSION_UNKNOWN).

Definition sample_input : list (Z * (list byte * list (list byte))) :=
  [(0, (lit "file", [lit "5"; lit "text/plain"; lit "a.txt"]));
   (0, (lit "blob", [lit "5"; lit "aGVsbG8="]));
   (0, (lit "end", [lit "5"]));
   (0, (lit "blob", [lit "5"; lit "aGVsbG8="]))].

Lemma input_streams_protocol_witness :
  ∃ u t, handle_all sample_plugin sample_atof sample_input (sample_user, []) = Run (tt, (u, t)) ∧
    t = [Opens 5; Calls 1 (file_call 5 (lit "text/plain") (lit "a.txt"));
         Calls 2 (blob_call 5 (lit "hello") 5); Calls 3 (end_call 5); Closes 5;
         Acks 5 (lit "Invalid stream index") GUAC_PROTOCOL_STATUS_CLIENT_BAD_REQUEST] ∧
    ∃ o, accepts ∅ t = Some o ∧ open_inputs o u.
Proof.
  assert (Hu : open_inputs ∅ sample_user) by (by eapply open_inputs_alloc).
  pose proof (input_streams_protocol sample_plugin sample_atof sample_input sample_user Hu) as [Hrun Hsafe].
  assert (Hs : Forall supplied sample_input) by (by apply (bool_decide_unpack _); vm_compute).
  destruct (Hsafe Hs) as (u & t & E). exists u, t. split; [exact E|]. split; [|exact (Hrun u t E)].
  assert (Et : match handle_all sample_plugin sample_atof sample_input (sample_user, []) with
    | Run (_, (_, t)) => t | _ => [] end = t) by (by rewrite E).
  rewrite <-Et. vm_compute. reflexivity.
Defined.

(** ** Blobs *)

(** A blob sent to an open stream reaches the stream's handler, or the user's, with the data that
    was encoded and its length. *)
Theorem blob_delivered plugin atof current data place stream h s :
  (place < 512)%nat → input_streams (fst s) !! place = Some stream →
  Streams.stream_index stream = Z.of_nat place →
  or_else (stream_blob_handler stream) (blob_handler (handlers (fst s))) = Some h →
  guac_user_handle_instruction plugin atof current (lit "blob")
    [fmt_d (Z.of_nat place); encode_ready data] s
  = invoke plugin h (blob_call place data (Z.of_nat (length data))) s.
Proof.
  intros Hp Hs Hi Hh. unfold guac_user_handle_instruction.
  change (__guac_user_call_opcode_handler _ _) with (Some (__guac_handle_blob plugin)). cbn beta iota.
  unfold __guac_handle_blob, argv_at, lift, mbind, act_bind, stateful_bind. cbn [lookup list_lookup deref mbind run_bind].
  assert (Eat : atoi (fmt_d (Z.of_nat place)) = Z.of_nat place)
    by (apply atoi_fmt_d; unfold is_i32; lia).
  unfold __get_open_input_stream, __get_input_stream. rewrite Eat.
  replace ((Z.of_nat place <? 0) || (GUAC_USER_MAX_STREAMS <=? Z.of_nat place)) with false.
  2:{ symmetry. apply orb_false_iff. unfold GUAC_USER_MAX_STREAMS. split; [apply Z.ltb_ge|apply Z.leb_gt]; lia. }
  unfold stream_at, get_user, lift, mret, act_ret, stateful_ret, mbind, act_bind, stateful_bind. cbn [mbind run_bind fst].
  rewrite Nat2Z.id, Hs. cbn [deref mbind run_bind]. rewrite Hi.
  rewrite (proj2 (Z.eqb_neq _ _)) by (unfold GUAC_USER_CLOSED_STREAM_INDEX; lia).
  cbn [mbind run_bind fst]. rewrite Hs. cbn [deref mbind run_bind fst]. rewrite Hh.
  cbn [lookup list_lookup deref mbind run_bind].
  pose proof (decode_encoded data []) as Hd. unfold base64_text in Hd. rewrite Hd.
  by rewrite Nat2Z.id, take_app_length.
Qed.

Lemma blob_delivered_witness :
  ∃ s, guac_user_handle_instruction sample_plugin sample_atof 0 (lit "blob")
         [fmt_d 5; encode_ready (lit "hello")] s
       = Run (0, (fst s, snd s ++ [Calls 2 (blob_call 5 (lit "hello") 5)])).
Proof.
  pose (s := (set_input_stream 5 (mk_stream 5 None None None None) sample_user, [] : list event)).
  exists s. exact (blob_delivered sample_plugin sample_atof 0 (lit "hello") 5
    (mk_stream 5 None None None None) 2 s ltac:(lia) eq_refl eq_refl eq_refl).
Defined.

(** ** Timestamps *)

Lemma in_i64_ok z : is_i64 z → in_i64 z = Run z.
Proof. intros H. unfold in_i64. by rewrite decide_True. Qed.

Lemma in_i32_ok z : is_i32 z → in_i32 z = Run z.
Proof. intros H. unfold in_i32. by rewrite decide_True. Qed.

Lemma parse_int_digits s sign num :
  0 ≤ num → Forall (λ c, is_digit c = true) s → dec_value num s < 2 ^ 63 →
  parse_int_loop s sign num = in_i64 (dec_value num s * sign).
Proof.
  intros Hnum Hs. revert num Hnum. induction Hs as [|c s Hc Hs IH]; intros num Hnum Hb; [done|].
  pose proof (dec_value_mono (num * 10 + digit_value c) s) as Hm.
  apply is_digit_spec in Hc as Hd. unfold digit_value in *. cbn [dec_value foldl] in Hb.
  change (foldl _ _ s) with (dec_value (num * 10 + (bz c - 48)) s) in Hb.
  specialize (Hm ltac:(lia) Hs). cbn [parse_int_loop].
  rewrite decide_False by (intros ->; by vm_compute in Hc).
  assert (Esc : Prelude.sc c = bz c) by (unfold Prelude.sc; zif; lia).
  rewrite in_i64_ok, run_bind_run by (unfold is_i64; lia).
  rewrite Esc, in_i64_ok, run_bind_run by (unfold is_i64; lia).
  apply IH; [lia|exact Hb].
Qed.

(** A timestamp, as it is written by the server and sent back, is read as it was. *)

Lemma parse_int_fmt_d n : - 2 ^ 63 < n < 2 ^ 63 → __guac_parse_int (fmt_d n) = Run n.
Proof.
  intros Hn. unfold __guac_parse_int, fmt_d. destruct (Z.ltb_spec n 0) as [Hlt|Hge].
  - change (lit "-") with [x2d]. cbn [app parse_int_loop]. rewrite decide_True by done.
    rewrite parse_int_digits; [|lia|apply dec_digits; lia|rewrite dec_read_back; lia].
    rewrite dec_read_back by lia. replace (- n * - (1)) with n by lia. apply in_i64_ok. unfold is_i64. lia.
  - rewrite parse_int_digits; [|lia|by apply dec_digits|rewrite dec_read_back; lia].
    rewrite dec_read_back, Z.mul_1_r by lia. apply in_i64_ok. unfold is_i64. lia.
Qed.

(** The time since the frame was sent, and what it is taken to be made of. *)

Definition round_trip (last duration : Z) : Z := if last =? 0 then duration else Z.min duration last.

Definition acknowledged (current timestamp : Z) (u : guac_user) : guac_user :=
  let duration := current - timestamp in
  let rtt := round_trip (last_frame_duration u) duration in
  u <| last_received_timestamp := timestamp |> <| last_frame_duration := rtt |>
    <| processing_lag := duration - rtt |>.

Lemma update_lag_ok current timestamp u :
  0 ≤ timestamp ≤ current → current < 2 ^ 63 → current - timestamp < 2 ^ 31 →
  0 ≤ last_frame_duration u < 2 ^ 31 →
  update_lag current timestamp u = Run (acknowledged current timestamp u).
Proof.
  intros Ht Hc Hd Hl. unfold update_lag.
  rewrite in_i64_ok, run_bind_run by (unfold is_i64; lia).
  rewrite (i32_small (current - timestamp)) by (unfold is_i32; lia).
  assert (Elag : (if last_frame_duration (u <| last_received_timestamp := timestamp |>) =? 0 then Run 0
    else lag ← in_i32 (current - timestamp - last_frame_duration (u <| last_received_timestamp := timestamp |>));
      Run (if lag <? 0 then 0 else lag))
    = Run (current - timestamp - round_trip (last_frame_duration u) (current - timestamp))).
  { change (last_frame_duration (u <| last_received_timestamp := timestamp |>)) with (last_frame_duration u).
    unfold round_trip. destruct (Z.eqb_spec (last_frame_duration u) 0); [f_equal; lia|].
    rewrite in_i32_ok, run_bind_run by (unfold is_i32; lia).
    destruct (Z.ltb_spec (current - timestamp - last_frame_duration u) 0); f_equal; lia. }
  rewrite Elag, run_bind_run. clear Elag.
  assert (Hr : 0 ≤ round_trip (last_frame_duration u) (current - timestamp) ≤ current - timestamp).
  { unfold round_trip. destruct (_ =? _); lia. }
  rewrite in_i32_ok, run_bind_run by (unfold is_i32; lia).
  cbn [set last_received_timestamp]. rewrite in_i64_ok, run_bind_run by (unfold is_i64; lia).
  rewrite in_i64_ok, run_bind_run by (unfold is_i64; lia).
  rewrite i32_small by (unfold is_i32; lia). f_equal. unfold acknowledged. destruct u; cbn -[Z.ltb Z.sub] in *.
  f_equal; [lia|]. zif; lia.
Qed.

(** A confirmed frame: a timestamp later than the last one sent ends the connection, one that is
    older than the last one received changes nothing, any other is recorded, the fastest frame so
    far is the estimated round trip, and the lag is the excess over it, never negative. *)
Theorem sync_lag plugin current timestamp (s : session) :
  let u := fst s in
  let report u := match sync_handler (handlers u) with
    | Some h => invoke plugin h (sync_call timestamp) (u, snd s)
    | None => Run (0, (u, snd s))
    end in
  0 ≤ timestamp ≤ current → last_sent_timestamp u ≤ current < 2 ^ 63 →
  current - timestamp < 2 ^ 31 → 0 ≤ last_frame_duration u < 2 ^ 31 →
  __guac_handle_sync plugin current [fmt_d timestamp] s =
    (if last_sent_timestamp u <? timestamp then Run (-1, s)
     else if timestamp <? last_received_timestamp u then report u
     else report (acknowledged current timestamp u)) ∧
  0 ≤ processing_lag (acknowledged current timestamp u).
Proof.
  intros u report Ht Hs Hd Hl. split.
  - unfold __guac_handle_sync, argv_at, lift, mbind, act_bind, stateful_bind. cbn [lookup list_lookup deref mbind run_bind].
    rewrite parse_int_fmt_d by lia. unfold get_user, mret, act_ret, stateful_ret, put_user, lift, mbind, act_bind, stateful_bind. cbn [mbind run_bind].
    fold u. destruct (_ <? _); [done|]. rewrite Z.leb_antisym.
    destruct (timestamp <? last_received_timestamp u); cbn [negb].
    + cbn [mbind run_bind]. fold u. unfold report. destruct s as [u' t]. cbn in u. subst u.
      by destruct (sync_handler _).
    + rewrite update_lag_ok by lia. cbn [mbind run_bind fst snd]. unfold report. by destruct (sync_handler _).
  - unfold acknowledged, round_trip. destruct u; cbn in *. destruct (_ =? _); lia.
Qed.

Lemma sync_lag_witness :
  0 ≤ processing_lag (acknowledged 1200 1000 sample_user) ∧
  __guac_handle_sync sample_plugin 1200 [fmt_d 1000] (sample_user, []) =
    Run (0, (acknowledged 1200 1000 sample_user, [])).
Proof.
  pose proof (sync_lag sample_plugin 1200 1000 (sample_user, [])) as H. cbn zeta in H.
  destruct H as [H1 H2]; [cbn; lia..|]. split; [exact H2|]. rewrite H1. vm_compute. reflexivity.
Defined.

(** ** Missing arguments *)

Lemma get_user_bind {A} (f : guac_user → act A) s : (get_user ≫= f) s = f (fst s) s.
Proof. by destruct s. Qed.

(** The instructions whose handler calls the one that the plugin has installed, if there is one, with
    all their arguments. *)

Definition installed (opcode : list byte) (h : user_handlers) : Prop :=
  if decide (opcode = lit "mouse") then is_Some (mouse_handler h)
  else if decide (opcode = lit "key") then is_Some (key_handler h)
  else if decide (opcode = lit "touch") then is_Some (touch_handler h)
  else if decide (opcode = lit "size") then is_Some (size_handler h)
  else False.

(** C24. No handler looks at the number of arguments.  The handlers of mouse, key, touch and size read
    behind the arguments of an instruction that has fewer than they take, whenever the plugin has installed
    a handler; those of the other instructions with arguments read behind those of one that has
    none, whatever the user and the plugin. *)
Theorem missing_arguments plugin atof current opcode argv s :
  (installed opcode (handlers (fst s)) ∧ (length argv < arguments opcode)%nat ∨
   opcode ∈ [lit "sync"; lit "clipboard"; lit "file"; lit "pipe"; lit "ack"; lit "blob"; lit "end";
             lit "get"; lit "put"; lit "audio"; lit "argv"] ∧ argv = []) →
  guac_user_handle_instruction plugin atof current opcode argv s = Fault.
Proof.
  unfold guac_user_handle_instruction. intros [[Hi Hn]|[H ->]]; last first.
  { repeat (apply elem_of_cons in H as [->|H]; [reflexivity|]). by apply elem_of_nil in H. }
  unfold installed in Hi.
  destruct (decide (opcode = lit "mouse")) as [->|_].
  { change (__guac_user_call_opcode_handler _ _) with (Some (__guac_handle_mouse plugin)).
    change (arguments _) with 3%nat in Hn. destruct Hi as [h Hh].
    cbn beta iota. unfold __guac_handle_mouse. rewrite get_user_bind, Hh.
    by destruct argv as [|? [|? [|? ?]]]; [..|cbn in Hn; lia]. }
  destruct (decide (opcode = lit "key")) as [->|_].
  { change (__guac_user_call_opcode_handler _ _) with (Some (__guac_handle_key plugin)).
    change (arguments _) with 2%nat in Hn. destruct Hi as [h Hh].
    cbn beta iota. unfold __guac_handle_key. rewrite get_user_bind, Hh.
    by destruct argv as [|? [|? ?]]; [..|cbn in Hn; lia]. }
  destruct (decide (opcode = lit "touch")) as [->|_].
  { change (__guac_user_call_opcode_handler _ _) with (Some (__guac_handle_touch plugin atof)).
    change (arguments _) with 7%nat in Hn. destruct Hi as [h Hh].
    cbn beta iota. unfold __guac_handle_touch. rewrite get_user_bind, Hh.
    by destruct argv as [|? [|? [|? [|? [|? [|? [|? ?]]]]]]]; [..|cbn in Hn; lia]. }
  destruct (decide (opcode = lit "size")) as [->|_]; [|done].
  change (__guac_user_call_opcode_handler _ _) with (Some (__guac_handle_size plugin)).
  change (arguments _) with 2%nat in Hn. destruct Hi as [h Hh].
  cbn beta iota. unfold __guac_handle_size. rewrite get_user_bind, Hh.
  by destruct argv as [|? [|? ?]]; [..|cbn in Hn; lia].
Qed.

(** A user of a plugin that takes the keyboard. *)

Definition keyboard_user : guac_user :=
  sample_user <| handlers := mk_handlers None (Some 4) None None None None None None None None None
    None None None None |>.

Lemma missing_arguments_witness :
  guac_user_handle_instruction sample_plugin sample_atof 0 (lit "blob") [] (sample_user, []) = Fault ∧
  guac_user_handle_instruction sample_plugin sample_atof 0 (lit "key") [lit "65"] (keyboard_user, []) = Fault.
Proof.
  split.
  - apply (missing_arguments sample_plugin sample_atof 0 (lit "blob") [] (sample_user, [])). right.
    split; [|done]. by apply (bool_decide_unpack _); vm_compute.
  - apply (missing_arguments sample_plugin sample_atof 0 (lit "key") [lit "65"] (keyboard_user, [])). left.
    split; [|vm_compute; lia]. by exists 4.
Defined.

(** ** What no instruction changes

    A property of the user that the plugin keeps, and that depends neither on the input
    streams nor on the timestamps, is kept by every instruction. *)

Section kept_property.
  Context (plugin : Z → call → guac_user → Z * guac_user) (atof : list byte → spec_float).
  Context (P : guac_user → Prop).
  Hypothesis plugin_keeps : ∀ h c u, P u → P (snd (plugin h c u)).
  Hypothesis stream_keeps : ∀ place s u, P u → P (set_input_stream place s u).
  Hypothesis stop_keeps : ∀ u, P u → P (guac_user_stop u).
  Hypothesis lag_keeps : ∀ current timestamp u u', update_lag current timestamp u = Run u' → P u → P u'.

Local Abbreviation keeps m := (∀ s, P (fst s) → ensures false m s (λ _ s, P (fst s))).

Lemma invoke_keeps h c : keeps (invoke plugin h c).
Proof.
  intros s Hs. unfold ensures, invoke. pose proof (plugin_keeps h c (fst s) Hs) as H.
  by destruct (plugin h c (fst s)).
Qed.

Lemma lift_keeps {A} (r : run A) (s : session) Q :
  (∀ a, r = Run a → Q a s) → ensures false (lift r) s Q.
Proof. intros HQ. by apply ensures_lift. Qed.

Lemma bind_keeps {A B} (m : act A) (f : A → act B) (s : session) :
  ensures false m s (λ _ s, P (fst s)) →
  (∀ a s, P (fst s) → ensures false (f a) s (λ _ s, P (fst s))) →
  ensures false (m ≫= f) s (λ _ s, P (fst s)).
Proof. intros Hm Hf. apply ensures_bind. eapply ensures_mono; [exact Hm|]. intros a s1. apply Hf. Qed.

Local Ltac walk :=
  repeat (cbv zeta; match goal with
  | |- ensures _ (match ?x with _ => _ end) _ _ => destruct x eqn:?
  | |- ensures _ (mret _) _ _ => apply ensures_ret
  | |- ensures _ (_ ≫= _) _ _ => apply bind_keeps; [|intros]
  | |- ensures _ get_user _ _ => apply ensures_get_user
  | |- ensures _ (record_event _) _ _ => apply ensures_record
  | |- ensures _ (send_ack _ _ _) _ _ => apply ensures_record
  | |- ensures _ (argv_at _ _) _ _ => apply lift_keeps; intros ? _
  | |- ensures _ (lift _) _ _ => apply lift_keeps; intros ? ?
  | |- ensures _ (invoke _ _ _) _ _ => apply invoke_keeps
  | |- ensures _ (stream_at _) _ _ => unfold stream_at
  | |- ensures _ (call_end _ _ _ _) _ _ => unfold call_end
  end; try done).

Lemma get_input_stream_keeps index : keeps (__get_input_stream index).
Proof. intros s Hs. unfold __get_input_stream. walk. Qed.

Lemma get_open_input_stream_keeps index : keeps (__get_open_input_stream index).
Proof.
  intros s Hs. unfold __get_open_input_stream. apply bind_keeps; [by apply get_input_stream_keeps|].
  intros r s1 H1. walk.
Qed.

(** The user is read and stored again, changed. *)

Lemma update_keeps {A} (g : guac_user → guac_user) (f : act A) (s : session) :
  P (fst s) → (∀ u, P u → P (g u)) →
  (∀ s, P (fst s) → ensures false f s (λ _ s, P (fst s))) →
  ensures false (u ← get_user; put_user (g u);; f) s (λ _ s, P (fst s)).
Proof. intros Hs Hg Hf. apply ensures_bind, ensures_get_user, ensures_bind, ensures_put_user, Hf. by apply Hg. Qed.

Lemma init_input_stream_keeps index : keeps (__init_input_stream plugin index).
Proof.
  intros s Hs. unfold __init_input_stream. apply bind_keeps; [by apply get_input_stream_keeps|].
  intros r s1 H1. destruct r as [place|]; [|by apply ensures_ret].
  apply bind_keeps; [walk|]. intros stream s2 H2. apply bind_keeps; [walk|]. intros u s3 H3.
  apply bind_keeps; [walk|]. intros r s4 H4. apply update_keeps; [done|intros; by apply stream_keeps|].
  intros s5 H5. walk.
Qed.

Lemma open_with_keeps argv handler make_call unsupported :
  (∀ place, keeps (make_call place)) → keeps (open_with plugin argv handler make_call unsupported).
Proof.
  intros Hm s Hs. unfold open_with. apply bind_keeps; [walk|]. intros index s1 H1.
  apply bind_keeps; [by apply init_input_stream_keeps|]. intros r s2 H2.
  destruct r as [place|]; [|by apply ensures_ret]. apply bind_keeps; [walk|]. intros u s3 H3.
  destruct (handler _); [|walk]. apply bind_keeps; [by apply Hm|]. intros c s4 H4. by apply invoke_keeps.
Qed.

Lemma blob_keeps argv : keeps (__guac_handle_blob plugin argv).
Proof.
  intros s Hs. unfold __guac_handle_blob. apply bind_keeps; [walk|]. intros index s1 H1.
  apply bind_keeps; [by apply get_open_input_stream_keeps|]. intros r s2 H2. walk.
Qed.

Lemma end_keeps argv : keeps (__guac_handle_end plugin argv).
Proof.
  intros s Hs. unfold __guac_handle_end. apply bind_keeps; [walk|]. intros index s1 H1.
  apply bind_keeps; [by apply get_open_input_stream_keeps|]. intros r s2 H2.
  destruct r as [place|]; [|by apply ensures_ret]. apply bind_keeps; [walk|]. intros stream s3 H3.
  apply bind_keeps; [walk|]. intros u s4 H4. apply bind_keeps; [walk|]. intros result s5 H5.
  apply bind_keeps; [walk|]. intros stream' s6 H6.
  apply update_keeps; [done|intros; by apply stream_keeps|]. intros s7 H7. walk.
Qed.

Lemma put_keeps argv : keeps (__guac_handle_put plugin argv).
Proof.
  intros s Hs. unfold __guac_handle_put. apply bind_keeps; [walk|]. intros index s1 H1.
  apply bind_keeps; [unfold defined_object; walk|]. intros r s2 H2.
  destruct r as [[place o]|]; [|by apply ensures_ret]. apply bind_keeps; [walk|]. intros index' s3 H3.
  apply bind_keeps; [by apply init_input_stream_keeps|]. intros r s4 H4. walk.
Qed.

Lemma sync_keeps current argv : keeps (__guac_handle_sync plugin current argv).
Proof.
  intros s Hs. unfold __guac_handle_sync. apply bind_keeps; [walk|]. intros text s1 H1.
  apply bind_keeps; [walk|]. intros timestamp s2 H2.
  apply ensures_bind, ensures_get_user. destruct (_ <? _); [by apply ensures_ret|].
  apply bind_keeps; [|intros _ s3 H3; walk].
  destruct (_ <=? _); [|by apply ensures_ret].
  apply ensures_bind, lift_keeps. intros u Eu. apply ensures_put_user. by apply (lag_keeps _ _ _ _ Eu).
Qed.

Lemma instruction_keeps current opcode argv :
  keeps (guac_user_handle_instruction plugin atof current opcode argv).
Proof.
  intros s Hs. unfold guac_user_handle_instruction, __guac_instruction_handler_map.
  cbn [__guac_user_call_opcode_handler]. repeat (case_decide as Eop; [clear Eop|clear Eop]).
  - by apply sync_keeps.
  - unfold __guac_handle_touch. walk.
  - unfold __guac_handle_mouse. walk.
  - unfold __guac_handle_key. walk.
  - apply open_with_keeps; [|done]. intros place s1 H1. walk.
  - unfold __guac_handle_disconnect. apply update_keeps; [done|done|]. intros s1 H1. walk.
  - unfold __guac_handle_size. walk.
  - apply open_with_keeps; [|done]. intros place s1 H1. walk.
  - apply open_with_keeps; [|done]. intros place s1 H1. walk.
  - unfold __guac_handle_ack. walk.
  - by apply blob_keeps.
  - by apply end_keeps.
  - unfold __guac_handle_get, defined_object. walk.
  - by apply put_keeps.
  - apply open_with_keeps; [|done]. intros place s1 H1. walk.
  - apply open_with_keeps; [|done]. intros place s1 H1. walk.
  - by apply ensures_ret.
  - by apply ensures_ret.
Qed.
End kept_property.
