(* ===== verification/Handshake.v ===== *)
(** * The connection of a user (src/src/libguac/user-handshake.c, user-handlers.c, user.c)

    [guac_user_handle_connection]: the arguments of the plugin are announced, the instructions of
    the handshake are handled until [connect], the user joins the client, instructions
    are handled until the connection ends, and everything the handshake allocated is
    freed.

    What the parser reads is a list ([ParserSpec] shows which): the
    instructions in order, then the error at which reading fails.  The heap is
    the addresses of the blocks that are allocated; freeing an address that is
    not is a fault.  Allocation succeeds.  [send_fails] is the outcome of
    sending the arguments, [join] the value of the plugin's join handler. *)

From S2P Require Import Prelude RecordUpdate Error CFormat CString CNumbers Mem Run StateRun.
From S2P Require Import ProtocolTypes Protocol Streams UserInput.
From Stdlib Require Import Floats.SpecFloat.
Local Open Scope Z_scope.

(** ** The heap *)

Record heap := mk_heap { live : list Z; next_address : Z }.

#[export] Instance eta_heap : Eta heap := λ h, mk_heap (live h) (next_address h).

Definition heap_alloc (h : heap) : Z * heap :=
  (next_address h, mk_heap (next_address h :: live h) (next_address h + 1)).

Fixpoint remove_one (p : Z) (l : list Z) : option (list Z) :=
  match l with
  | [] => None
  | q :: l => if decide (p = q) then Some l else cons q <$> remove_one p l
  end.

Definition heap_free (p : Z) (h : heap) : run heap :=
  l ← deref (remove_one p (live h)); Run (h <| live := l |>).

(** ** Mimetypes, name and timezone *)

Fixpoint copy_strings (strings : list (list byte)) (h : heap) : list (Z * list byte) * heap :=
  match strings with
  | [] => ([], h)
  | s :: strings =>
      let '(p, h) := heap_alloc h in
      let '(copies, h) := copy_strings strings h in
      ((p, s) :: copies, h)
  end.

Definition guac_copy_mimetypes (mimetypes : list (list byte)) (h : heap) : mimetype_array * heap :=
  let '(array, h) := heap_alloc h in
  let '(copies, h) := copy_strings mimetypes h in
  (Some (array, copies), h).

Fixpoint free_strings (strings : list (Z * list byte)) (h : heap) : run heap :=
  match strings with
  | [] => Run h
  | (p, _) :: strings => h ← heap_free p h; free_strings strings h
  end.

Definition guac_free_mimetypes (mimetypes : mimetype_array) (h : heap) : run heap :=
  match mimetypes with
  | None => Run h
  | Some (array, strings) => h ← free_strings strings h; heap_free array h
  end.

Definition guac_mem_free_const (s : allocated_string) (h : heap) : run heap :=
  match s with
  | None => Run h
  | Some (p, _) => heap_free p h
  end.

Definition heap_strdup (s : list byte) (h : heap) : allocated_string * heap :=
  let '(p, h) := heap_alloc h in (Some (p, s), h).

(** ** The handlers of the handshake *)

Definition __guac_handshake_size_handler (argv : list (list byte)) (u : guac_user_info) (h : heap)
    : run (Z * guac_user_info * heap) :=
  match argv with
  | width :: height :: rest =>
      Run (0,
        u <| optimal_width := atoi width |> <| optimal_height := atoi height |>
          <| optimal_resolution := match rest with dpi :: _ => atoi dpi | [] => 96 end |>, h)
  | _ => Run (1, u, h)
  end.

Definition __guac_handshake_audio_handler (argv : list (list byte)) (u : guac_user_info) (h : heap)
    : run (Z * guac_user_info * heap) :=
  h ← guac_free_mimetypes (audio_mimetypes u) h;
  let '(copy, h) := guac_copy_mimetypes argv h in
  Run (0, u <| audio_mimetypes := copy |>, h).

Definition __guac_handshake_video_handler (argv : list (list byte)) (u : guac_user_info) (h : heap)
    : run (Z * guac_user_info * heap) :=
  h ← guac_free_mimetypes (video_mimetypes u) h;
  let '(copy, h) := guac_copy_mimetypes argv h in
  Run (0, u <| video_mimetypes := copy |>, h).

Definition __guac_handshake_image_handler (argv : list (list byte)) (u : guac_user_info) (h : heap)
    : run (Z * guac_user_info * heap) :=
  h ← guac_free_mimetypes (image_mimetypes u) h;
  let '(copy, h) := guac_copy_mimetypes argv h in
  Run (0, u <| image_mimetypes := copy |>, h).

(** A value that is present and not empty is copied. *)

Definition copy_value (argv : list (list byte)) (h : heap) : allocated_string * heap :=
  match argv with
  | value :: _ => if decide (value = []) then (None, h) else heap_strdup value h
  | [] => (None, h)
  end.

Definition __guac_handshake_name_handler (argv : list (list byte)) (u : guac_user_info) (h : heap)
    : run (Z * guac_user_info * heap) :=
  h ← guac_mem_free_const (name u) h;
  let '(copy, h) := copy_value argv h in
  Run (0, u <| name := copy |>, h).

Definition __guac_handshake_timezone_handler (argv : list (list byte)) (u : guac_user_info) (h : heap)
    : run (Z * guac_user_info * heap) :=
  h ← guac_mem_free_const (timezone u) h;
  let '(copy, h) := copy_value argv h in
  Run (0, u <| timezone := copy |>, h).

Definition handshake_handler : Type :=
  list (list byte) → guac_user_info → heap → run (Z * guac_user_info * heap).

Definition __guac_handshake_handler_map : list (list byte * handshake_handler) :=
  [(lit "size", __guac_handshake_size_handler);
   (lit "audio", __guac_handshake_audio_handler);
   (lit "video", __guac_handshake_video_handler);
   (lit "image", __guac_handshake_image_handler);
   (lit "timezone", __guac_handshake_timezone_handler);
   (lit "name", __guac_handshake_name_handler)].

(** ** Reading *)

(** What is read after the instructions: the read fails with a status, or, which only the
    thread that handles input notices, the client is stopped first. *)

Inductive ending :=
| Read_fails (status : guac_status)
| Client_stops.

Definition received : Type := list byte * list (list byte).

(** Each instruction comes with the time at which it is handled. *)

Record input := mk_input {
  arriving : list (Z * received);
  ends : ending;
}.

(** ** The handshake *)

Inductive handshake_result :=
| Connected (argv : list (list byte)) (rest : list (Z * received)) (u : guac_user_info) (h : heap)
| Refused (u : guac_user_info) (h : heap).

(** [parser] is the address of the parser, which is freed where a handler fails. *)

Fixpoint __guac_user_handshake (parser : Z) (arriving : list (Z * received))
    (u : guac_user_info) (h : heap) : run handshake_result :=
  match arriving with
  | [] => Run (Refused u h)
  | (_, (opcode, argv)) :: arriving =>
      if decide (opcode = lit "connect") then Run (Connected argv arriving u h)
      else
        match __guac_user_call_opcode_handler __guac_handshake_handler_map opcode with
        | Some handler =>
            '(r, u, h) ← handler argv u h;
            if r =? 0 then __guac_user_handshake parser arriving u h
            else h ← heap_free parser h; Run (Refused u h)
        | None => __guac_user_handshake parser arriving u h
        end
  end.

(** ** The session *)

Inductive output :=
| Sent_args
| Sent_ready
| Sent_error (status : guac_protocol_status)
| Sent_disconnect.

Section connection.
  Context (plugin : Z → call → guac_user → Z * guac_user) (atof : list byte → spec_float).
  Context (join : list (list byte) → Z).

Definition guac_user_abort (status : guac_protocol_status) (u : guac_user) : list output * guac_user :=
  if user_active u then ([Sent_error status], guac_user_stop u) else ([], u).

Fixpoint guac_user_input_thread (arriving : list (Z * received)) (ends : ending)
    : act (list output) :=
  u ← get_user;
  if negb (user_active u) then mret []
  else
    match arriving with
    | [] =>
        match ends with
        | Client_stops => mret []
        | Read_fails GUAC_STATUS_TIMEOUT =>
            let '(sent, u) := guac_user_abort GUAC_PROTOCOL_STATUS_CLIENT_TIMEOUT u in
            put_user u;; mret sent
        | Read_fails _ => put_user (guac_user_stop u);; mret []
        end
    | (current, (opcode, argv)) :: arriving =>
        r ← guac_user_handle_instruction plugin atof current opcode argv;
        if r =? 0 then guac_user_input_thread arriving ends
        else u ← get_user; put_user (guac_user_stop u);; mret []
    end.

(** The thread is created; the user is waited for. *)

Definition guac_user_start (arriving : list (Z * received)) (ends : ending) : act (list output) :=
  sent ← guac_user_input_thread arriving ends;
  mret (sent ++ [Sent_disconnect]).

Record connection_result := mk_result {
  value : Z;                                  (* what is returned *)
  final_heap : heap;
  final_user : guac_user;
  joined_with : option (list (list byte));    (* the arguments of the join handler *)
  calls : list event;
  sent : list output;
}.

(** What is done with the user that has joined or not. *)

Definition join_and_serve (argv : list (list byte)) (rest : list (Z * received)) (ends : ending)
    (u : guac_user) : run (list output * (guac_user * list event)) :=
  if negb (join (drop 1 argv) =? 0) then Run ([], (u, []))
  else
    version ← deref (argv !! 0%nat);
    let version :=
      if decide (version = []) then GUAC_PROTOCOL_VERSION_1_0_0
      else guac_protocol_string_to_version version in
    guac_user_start rest ends (u <| info := (info u) <| protocol_version := version |> |>, []).

Definition free_info (u : guac_user_info) (h : heap) : run heap :=
  h ← guac_free_mimetypes (audio_mimetypes u) h;
  h ← guac_free_mimetypes (image_mimetypes u) h;
  h ← guac_free_mimetypes (video_mimetypes u) h;
  h ← guac_mem_free_const (name u) h;
  guac_mem_free_const (timezone u) h.

Definition cleared_info (u : guac_user_info) : guac_user_info :=
  u <| audio_mimetypes := None |> <| image_mimetypes := None |> <| video_mimetypes := None |>
    <| name := None |> <| timezone := None |>.

(** [args] are the arguments the plugin expects. *)

Definition guac_user_handle_connection (args : list (list byte)) (send_fails : bool) (i : input)
    (u : guac_user) (h : heap) : run connection_result :=
  let u := u <| info := cleared_info (info u) |> in
  if send_fails then Run (mk_result 1 h u None [] [])
  else
    let '(parser, h) := heap_alloc h in
    r ← __guac_user_handshake parser (arriving i) (info u) h;
    match r with
    | Refused inf h =>
        h ← heap_free parser h;
        Run (mk_result 1 h (u <| info := inf |>) None [] [Sent_args])
    | Connected argv rest inf h =>
        let u := u <| info := inf |> in
        let sent := [Sent_args; Sent_ready] in
        if negb (length argv =? length args + 1)%nat then Run (mk_result 1 h u None [] sent)
        else
          '(more, (u, calls)) ← join_and_serve argv rest (ends i) u;
          h ← free_info (info u) h;
          h ← heap_free parser h;
          Run (mk_result 0 h u (Some (drop 1 argv)) calls (sent ++ more))
    end.
End connection.
