(* ===== verification/HandshakeSpec.v ===== *)
(** * What the connection of a user promises ([Handshake])

    The handshake negotiates the last value of each kind and owns exactly what it
    allocated; a connection that succeeds frees all of it, one whose number of arguments is
    wrong none, and a handler that fails frees the parser twice. *)

From S2P Require Import Prelude RecordUpdate Error CFormat CString CNumbers Mem Run StateRun.
From S2P Require Import ProtocolTypes Protocol Streams UserInput UserInputSpec Handshake.
From Stdlib Require Import Floats.SpecFloat.
Local Open Scope Z_scope.

(** ** The heap *)

Definition heap_ok (h : heap) : Prop := NoDup (live h) ∧ Forall (λ p, p < next_address h) (live h).

Lemma heap_alloc_ok h :
  heap_ok h → heap_ok (snd (heap_alloc h)) ∧ live (snd (heap_alloc h)) = fst (heap_alloc h) :: live h.
Proof.
  intros [Hn Hl]. split; [|done]. split; cbn.
  - constructor; [|done]. intros Hin%(proj1 (list.Forall_forall _ _) Hl). lia.
  - constructor; [lia|]. eapply list.Forall_impl; [exact Hl|]. cbn. lia.
Qed.

Lemma remove_one_perm p l r : l ≡ₚ p :: r → ∃ l', remove_one p l = Some l' ∧ l' ≡ₚ r.
Proof.
  intros E. assert (Hin : p ∈ l) by (rewrite E; apply list_elem_of_here).
  assert (H : ∃ l', remove_one p l = Some l' ∧ l ≡ₚ p :: l').
  { clear E r. induction l as [|q l IH]; [by apply elem_of_nil in Hin|]. cbn.
    case_decide as Hq; [subst; by exists l|].
    apply elem_of_cons in Hin as [?|Hin]; [done|]. destruct (IH Hin) as (l' & -> & E).
    exists (q :: l'). split; [done|]. rewrite E. apply Permutation_swap. }
  destruct H as (l' & E1 & E2). exists l'. split; [done|]. rewrite E in E2. by apply (inj (cons p)) in E2.
Qed.

Lemma remove_one_not p l : p ∉ l → remove_one p l = None.
Proof.
  induction l as [|q l IH]; intros Hp; [done|]. cbn. apply not_elem_of_cons in Hp as [Hq Hp].
  rewrite decide_False by done. by rewrite IH.
Qed.

Lemma heap_ok_perm h l : heap_ok h → l ⊆+ live h → heap_ok (h <| live := l |>).
Proof.
  intros [Hn Hl] Hs. split; cbn.
  - apply submseteq_Permutation in Hs as [k E]. rewrite E in Hn. by apply list.NoDup_app in Hn as [].
  - apply list.Forall_forall. intros x Hx. apply (proj1 (list.Forall_forall _ _) Hl).
    by apply (elem_of_submseteq l).
Qed.

Lemma free_one h p r :
  heap_ok h → live h ≡ₚ p :: r →
  ∃ h', heap_free p h = Run h' ∧ heap_ok h' ∧ live h' ≡ₚ r ∧ next_address h' = next_address h.
Proof.
  intros Hok E. destruct (remove_one_perm p _ _ E) as (l & El & Ep).
  exists (h <| live := l |>). unfold heap_free. rewrite El. split; [done|]. split; [|done].
  apply heap_ok_perm; [done|]. rewrite E, Ep. apply submseteq_cons. done.
Qed.

Lemma free_none h p : p ∉ live h → heap_free p h = Fault.
Proof. intros Hp. unfold heap_free. by rewrite remove_one_not. Qed.

(** ** What a user owns *)

Definition array_addresses (m : mimetype_array) : list Z :=
  match m with Some (array, strings) => array :: (fst <$> strings) | None => [] end.

Definition string_address (s : allocated_string) : list Z :=
  match s with Some (p, _) => [p] | None => [] end.

Definition owned (u : guac_user_info) : list Z :=
  array_addresses (audio_mimetypes u) ++ array_addresses (image_mimetypes u) ++
  array_addresses (video_mimetypes u) ++ string_address (name u) ++ string_address (timezone u).

Definition string_value (s : allocated_string) : option (list byte) :=
  match s with Some (_, v) => Some v | None => None end.

Lemma copy_strings_ok strings h :
  heap_ok h →
  ∃ copies h', copy_strings strings h = (copies, h') ∧ heap_ok h' ∧ snd <$> copies = strings ∧
    live h' ≡ₚ (fst <$> copies) ++ live h.
Proof.
  revert h. induction strings as [|s strings IH]; intros h Hok; [by exists [], h|].
  cbn [copy_strings]. destruct (heap_alloc_ok h Hok) as [Hok1 Hl1]. destruct (heap_alloc h) as [p h1] eqn:E1.
  cbn [fst snd] in *. destruct (IH h1 Hok1) as (copies & h' & E & Hok' & Hs & Hl).
  rewrite E. exists ((p, s) :: copies), h'. split; [done|]. split; [done|]. split; [cbn; by rewrite Hs|].
  cbn. rewrite Hl, Hl1. by rewrite Permutation_middle.
Qed.

Lemma copy_mimetypes_ok strings h :
  heap_ok h →
  ∃ m h', guac_copy_mimetypes strings h = (m, h') ∧ heap_ok h' ∧
    (∃ array copies, m = Some (array, copies) ∧ snd <$> copies = strings) ∧
    live h' ≡ₚ array_addresses m ++ live h.
Proof.
  intros Hok. unfold guac_copy_mimetypes.
  destruct (heap_alloc_ok h Hok) as [Hok1 Hl1]. destruct (heap_alloc h) as [p h1] eqn:E1. cbn [fst snd] in *.
  destruct (copy_strings_ok strings h1 Hok1) as (copies & h' & E & Hok' & Hs & Hl). rewrite E.
  eexists _, h'. split; [done|]. split; [done|]. split; [by eexists _, _|].
  cbn. rewrite Hl, Hl1. by rewrite Permutation_middle.
Qed.

Lemma free_strings_ok strings h r :
  heap_ok h → live h ≡ₚ (fst <$> strings) ++ r →
  ∃ h', free_strings strings h = Run h' ∧ heap_ok h' ∧ live h' ≡ₚ r.
Proof.
  revert h. induction strings as [|[p s] strings IH]; intros h Hok Hl; [by exists h|].
  cbn in *. destruct (free_one h p _ Hok Hl) as (h1 & E & Hok1 & Hl1 & _).
  rewrite E, run_bind_run. by apply IH.
Qed.

Lemma free_mimetypes_ok m h r :
  heap_ok h → live h ≡ₚ array_addresses m ++ r →
  ∃ h', guac_free_mimetypes m h = Run h' ∧ heap_ok h' ∧ live h' ≡ₚ r.
Proof.
  destruct m as [[array strings]|]; intros Hok Hl; [|by exists h]. cbn in *.
  destruct (free_strings_ok strings h (array :: r) Hok) as (h1 & E1 & Hok1 & Hl1).
  { by rewrite Hl, Permutation_middle. }
  rewrite E1, run_bind_run. destruct (free_one h1 array r Hok1 Hl1) as (h2 & E2 & Hok2 & Hl2 & _).
  by exists h2.
Qed.

Lemma free_const_ok s h r :
  heap_ok h → live h ≡ₚ string_address s ++ r →
  ∃ h', guac_mem_free_const s h = Run h' ∧ heap_ok h' ∧ live h' ≡ₚ r.
Proof.
  destruct s as [[p v]|]; intros Hok Hl; [|by exists h]. cbn in *.
  destruct (free_one h p r Hok Hl) as (h1 & E & Hok1 & Hl1 & _). by exists h1.
Qed.

Lemma copy_value_ok argv h :
  heap_ok h →
  ∃ s h', copy_value argv h = (s, h') ∧ heap_ok h' ∧ live h' ≡ₚ string_address s ++ live h ∧
    string_value s = match argv with
                | v :: _ => if decide (v = []) then None else Some v
                | [] => None
                end.
Proof.
  intros Hok. unfold copy_value. destruct argv as [|v argv]; [by exists None, h|].
  case_decide; [by exists None, h|]. destruct (heap_alloc_ok h Hok) as [Hok1 Hl1].
  unfold heap_strdup. destruct (heap_alloc h) as [p h1]. cbn [fst snd] in *.
  exists (Some (p, v)), h1. split; [done|]. split; [done|]. split; [by rewrite Hl1|done].
Qed.

Lemma free_info_ok u h r :
  heap_ok h → live h ≡ₚ owned u ++ r →
  ∃ h', free_info u h = Run h' ∧ heap_ok h' ∧ live h' ≡ₚ r.
Proof.
  intros Hok Hl. unfold owned in Hl. rewrite <-!app_assoc in Hl. unfold free_info.
  destruct (free_mimetypes_ok _ h _ Hok Hl) as (h1 & E1 & Hok1 & Hl1). rewrite E1, run_bind_run.
  destruct (free_mimetypes_ok _ h1 _ Hok1 Hl1) as (h2 & E2 & Hok2 & Hl2). rewrite E2, run_bind_run.
  destruct (free_mimetypes_ok _ h2 _ Hok2 Hl2) as (h3 & E3 & Hok3 & Hl3). rewrite E3, run_bind_run.
  destruct (free_const_ok _ h3 _ Hok3 Hl3) as (h4 & E4 & Hok4 & Hl4). rewrite E4, run_bind_run.
  destruct (free_const_ok _ h4 _ Hok4 Hl4) as (h5 & E5 & Hok5 & Hl5). by exists h5.
Qed.

(** ** What is negotiated *)

Record negotiated := mk_negotiated {
  screen : Z * Z * Z;                                   (* width, height, resolution *)
  audio : option (list (list byte));
  video : option (list (list byte));
  image : option (list (list byte));
  zone : option (list byte);
  user_name : option (list byte);
}.

Definition strings (m : mimetype_array) : option (list (list byte)) :=
  match m with Some (_, copies) => Some (snd <$> copies) | None => None end.

Definition view (u : guac_user_info) : negotiated :=
  mk_negotiated (optimal_width u, optimal_height u, optimal_resolution u) (strings (audio_mimetypes u))
    (strings (video_mimetypes u)) (strings (image_mimetypes u)) (string_value (timezone u)) (string_value (name u)).

Definition present (argv : list (list byte)) : option (list byte) :=
  match argv with
  | v :: _ => if decide (v = []) then None else Some v
  | [] => None
  end.

(** The last instruction of each kind counts. *)

Definition negotiate (i : received) (n : negotiated) : negotiated :=
  let '(opcode, argv) := i in
  let '(mk_negotiated sc au vi im zo na) := n in
  if decide (opcode = lit "size") then
    mk_negotiated
      (match argv with
       | w :: h :: rest => (atoi w, atoi h, match rest with d :: _ => atoi d | [] => 96 end)
       | _ => sc
       end) au vi im zo na
  else if decide (opcode = lit "audio") then mk_negotiated sc (Some argv) vi im zo na
  else if decide (opcode = lit "video") then mk_negotiated sc au (Some argv) im zo na
  else if decide (opcode = lit "image") then mk_negotiated sc au vi (Some argv) zo na
  else if decide (opcode = lit "timezone") then mk_negotiated sc au vi im (present argv) na
  else if decide (opcode = lit "name") then mk_negotiated sc au vi im zo (present argv)
  else n.

(** An instruction of the handshake that no handler fails on. *)

Definition acceptable (i : Z * received) : Prop :=
  fst (snd i) ≠ lit "connect" ∧ (fst (snd i) = lit "size" → (2 ≤ length (snd (snd i)))%nat).

#[export] Instance acceptable_dec i : Decision (acceptable i).
Proof. unfold acceptable. apply _. Defined.

(** ** The handlers *)

(** [negotiates f i]: [f] handles [i], keeps the account of the heap and fails on nothing. *)

Definition negotiates (f : handshake_handler) (i : received) : Prop :=
  ∀ u h r, heap_ok h → live h ≡ₚ owned u ++ r →
    ∃ u' h', f (snd i) u h = Run (0, u', h') ∧ heap_ok h' ∧ live h' ≡ₚ owned u' ++ r ∧
      view u' = negotiate i (view u).

Lemma size_negotiates argv :
  (2 ≤ length argv)%nat → negotiates __guac_handshake_size_handler (lit "size", argv).
Proof.
  intros Hn u h r Hok Hl. destruct argv as [|w [|ht rest]]; [cbn in Hn; lia..|].
  eexists _, h. split; [done|]. by destruct u.
Qed.

Lemma audio_negotiates argv : negotiates __guac_handshake_audio_handler (lit "audio", argv).
Proof.
  intros u h r Hok Hl. unfold owned in Hl. rewrite <-!app_assoc in Hl.
  destruct (free_mimetypes_ok (audio_mimetypes u) h _ Hok Hl) as (h1 & E1 & Hok1 & Hl1).
  destruct (copy_mimetypes_ok argv h1 Hok1) as (m & h2 & E2 & Hok2 & (a & c & -> & Hs) & Hl2).
  unfold __guac_handshake_audio_handler. cbn [snd]. rewrite E1, run_bind_run, E2.
  eexists _, h2. split; [done|]. split; [done|]. split.
  - rewrite Hl2, Hl1. unfold owned. rewrite <-!app_assoc. by destruct u.
  - rewrite <-Hs. by destruct u.
Qed.

Lemma image_negotiates argv : negotiates __guac_handshake_image_handler (lit "image", argv).
Proof.
  intros u h r Hok Hl. unfold owned in Hl. rewrite <-!app_assoc in Hl.
  rewrite Permutation_app_swap_app in Hl.
  destruct (free_mimetypes_ok (image_mimetypes u) h _ Hok Hl) as (h1 & E1 & Hok1 & Hl1).
  destruct (copy_mimetypes_ok argv h1 Hok1) as (m & h2 & E2 & Hok2 & (a & c & -> & Hs) & Hl2).
  unfold __guac_handshake_image_handler. cbn [snd]. rewrite E1, run_bind_run, E2.
  eexists _, h2. split; [done|]. split; [done|]. split.
  - rewrite Hl2, Hl1, Permutation_app_swap_app. unfold owned. rewrite <-!app_assoc. by destruct u.
  - rewrite <-Hs. by destruct u.
Qed.

Lemma video_negotiates argv : negotiates __guac_handshake_video_handler (lit "video", argv).
Proof.
  intros u h r Hok Hl. unfold owned in Hl. rewrite <-!app_assoc in Hl.
  rewrite (Permutation_app_swap_app (array_addresses (image_mimetypes u))), Permutation_app_swap_app in Hl.
  destruct (free_mimetypes_ok (video_mimetypes u) h _ Hok Hl) as (h1 & E1 & Hok1 & Hl1).
  destruct (copy_mimetypes_ok argv h1 Hok1) as (m & h2 & E2 & Hok2 & (a & c & -> & Hs) & Hl2).
  unfold __guac_handshake_video_handler. cbn [snd]. rewrite E1, run_bind_run, E2.
  eexists _, h2. split; [done|]. split; [done|]. split.
  - rewrite Hl2, Hl1, Permutation_app_swap_app.
    rewrite (Permutation_app_swap_app (array_addresses (Some (a, c)))). unfold owned.
    rewrite <-!app_assoc. by destruct u.
  - rewrite <-Hs. by destruct u.
Qed.

Lemma app_last_swap {A} (l1 l2 l3 l4 l5 r : list A) :
  l1 ++ l2 ++ l3 ++ l4 ++ l5 ++ r ≡ₚ l5 ++ l1 ++ l2 ++ l3 ++ l4 ++ r.
Proof.
  rewrite (Permutation_app_swap_app l4), (Permutation_app_swap_app l3), (Permutation_app_swap_app l2).
  apply Permutation_app_swap_app.
Qed.

Lemma timezone_negotiates argv : negotiates __guac_handshake_timezone_handler (lit "timezone", argv).
Proof.
  intros u h r Hok Hl. unfold owned in Hl. rewrite <-!app_assoc, app_last_swap in Hl.
  destruct (free_const_ok (timezone u) h _ Hok Hl) as (h1 & E1 & Hok1 & Hl1).
  destruct (copy_value_ok argv h1 Hok1) as (s & h2 & E2 & Hok2 & Hl2 & Hs).
  unfold __guac_handshake_timezone_handler. cbn [snd]. rewrite E1, run_bind_run, E2.
  eexists _, h2. split; [done|]. split; [done|]. split.
  - rewrite Hl2, Hl1, <-app_last_swap. unfold owned. rewrite <-!app_assoc. by destruct u.
  - unfold view. cbn [set audio_mimetypes video_mimetypes image_mimetypes timezone name optimal_width
      optimal_height optimal_resolution]. by rewrite Hs.
Qed.

Lemma name_negotiates argv : negotiates __guac_handshake_name_handler (lit "name", argv).
Proof.
  intros u h r Hok Hl. unfold owned in Hl. rewrite <-!app_assoc, app_last_swap in Hl.
  rewrite <-(app_last_swap _ _ _ (string_address (name u))) in Hl.
  rewrite (Permutation_app_swap_app (array_addresses (video_mimetypes u))),
    (Permutation_app_swap_app (array_addresses (image_mimetypes u))), Permutation_app_swap_app in Hl.
  destruct (free_const_ok (name u) h _ Hok Hl) as (h1 & E1 & Hok1 & Hl1).
  destruct (copy_value_ok argv h1 Hok1) as (s & h2 & E2 & Hok2 & Hl2 & Hs).
  unfold __guac_handshake_name_handler. cbn [snd]. rewrite E1, run_bind_run, E2.
  eexists _, h2. split; [done|]. split; [done|]. split.
  - rewrite Hl2, Hl1. unfold owned. rewrite <-!app_assoc.
    cbn [set audio_mimetypes video_mimetypes image_mimetypes timezone name].
    rewrite (Permutation_app_swap_app (string_address s)).
    rewrite (Permutation_app_swap_app (string_address s)).
    by rewrite (Permutation_app_swap_app (string_address s)).
  - unfold view. cbn [set audio_mimetypes video_mimetypes image_mimetypes timezone name optimal_width
      optimal_height optimal_resolution]. by rewrite Hs.
Qed.

(** ** The handshake *)

Lemma handler_negotiates opcode argv :
  (opcode = lit "size" → (2 ≤ length argv)%nat) →
  match __guac_user_call_opcode_handler __guac_handshake_handler_map opcode with
  | Some f => negotiates f (opcode, argv)
  | None => ∀ n, negotiate (opcode, argv) n = n
  end.
Proof.
  intros Hsize. unfold __guac_handshake_handler_map. cbn [__guac_user_call_opcode_handler].
  case_decide as E1; [subst; by apply size_negotiates, Hsize|].
  case_decide as E2; [subst; apply audio_negotiates|].
  case_decide as E3; [subst; apply video_negotiates|].
  case_decide as E4; [subst; apply image_negotiates|].
  case_decide as E5; [subst; apply timezone_negotiates|].
  case_decide as E6; [subst; apply name_negotiates|].
  intros []. unfold negotiate. by rewrite !decide_False by done.
Qed.

Lemma handshake_accepts parser pre u h r :
  Forall acceptable pre → heap_ok h → live h ≡ₚ owned u ++ r →
  ∃ u' h', (∀ t, __guac_user_handshake parser (pre ++ t) u h = __guac_user_handshake parser t u' h') ∧
    heap_ok h' ∧ live h' ≡ₚ owned u' ++ r ∧
    view u' = foldl (λ n i, negotiate (snd i) n) (view u) pre.
Proof.
  intros Hp. revert u h. induction Hp as [|[now [opcode argv]] pre [Hne Hsize] Hp IH]; intros u h Hok Hl.
  { by exists u, h. }
  cbn [fst snd] in *.
  assert (Hstep : ∃ u' h', (∀ t, __guac_user_handshake parser ((now, (opcode, argv)) :: t) u h =
      __guac_user_handshake parser t u' h') ∧ heap_ok h' ∧ live h' ≡ₚ owned u' ++ r ∧
      view u' = negotiate (opcode, argv) (view u)).
  { pose proof (handler_negotiates opcode argv Hsize) as Hn. cbn [__guac_user_handshake].
    destruct (__guac_user_call_opcode_handler _ opcode) as [f|].
    - destruct (Hn u h r Hok Hl) as (u' & h' & E & Hok' & Hl' & Hv). cbn [snd] in E.
      exists u', h'. split; [|done]. intros t. rewrite decide_False by done. by rewrite E.
    - exists u, h. split; [|split; [done|split; [done|by rewrite Hn]]]. intros t. by rewrite decide_False. }
  destruct Hstep as (u1 & h1 & E1 & Hok1 & Hl1 & Hv1).
  destruct (IH u1 h1 Hok1 Hl1) as (u2 & h2 & E2 & Hok2 & Hl2 & Hv2).
  exists u2, h2. split; [|split; [done|split; [done|]]].
  - intros t. cbn [app]. by rewrite E1, E2.
  - cbn [foldl]. by rewrite Hv2, Hv1.
Qed.

(** ** The session leaves what the handshake negotiated alone *)

Class KeepsInfo (plugin : Z → call → guac_user → Z * guac_user) : Prop :=
  plugin_info h c u : info (snd (plugin h c u)) = info u.

Lemma update_lag_info current timestamp u u' : update_lag current timestamp u = Run u' → info u' = info u.
Proof.
  unfold update_lag. intros H. repeat apply run_bind_inv in H as (? & _ & H). by injection H as <-.
Qed.

Lemma instruction_info plugin `{!KeepsInfo plugin} atof current opcode argv s v :
  info (fst s) = v →
  ensures false (guac_user_handle_instruction plugin atof current opcode argv) s (λ _ s, info (fst s) = v).
Proof.
  apply (instruction_keeps plugin atof (λ u, info u = v)); [|done|done|].
  - intros h c u <-. apply plugin_info.
  - intros now ts u u' E <-. by apply (update_lag_info _ _ _ _ E).
Qed.

Lemma input_thread_info plugin `{!KeepsInfo plugin} atof arriving ends s v :
  info (fst s) = v →
  ensures false (guac_user_input_thread plugin atof arriving ends) s (λ _ s, info (fst s) = v).
Proof.
  revert s. induction arriving as [|[now [opcode argv]] arriving IH]; intros s Hs;
    cbn [guac_user_input_thread]; apply ensures_bind, ensures_get_user.
  - destruct (user_active (fst s)) eqn:Ea; cbn [negb]; [|by apply ensures_ret].
    destruct ends as [status|]; [|by apply ensures_ret].
    destruct status; try (by apply ensures_bind, ensures_put_user, ensures_ret).
    unfold guac_user_abort. rewrite Ea. by apply ensures_bind, ensures_put_user, ensures_ret.
  - destruct (user_active (fst s)) eqn:Ea; cbn [negb]; [|by apply ensures_ret].
    apply ensures_bind. eapply ensures_mono; [by apply (instruction_info plugin atof _ _ _ _ v)|].
    intros r s1 H1. cbn beta in H1. destruct (r =? 0); [by apply IH|].
    by apply ensures_bind, ensures_get_user, ensures_bind, ensures_put_user, ensures_ret.
Qed.

(** ** Connections *)

(** C14. The handshake: whatever instructions precede [connect], as long as [size] has its two
    arguments, the user is left with the last value of each kind (an empty name or timezone counts
    as none, instructions that are not known count for nothing), and what is allocated
    beyond what was is exactly what the user owns. *)
Theorem handshake_negotiates parser pre rest now argv u h :
  Forall acceptable pre → heap_ok h →
  ∃ u' h', __guac_user_handshake parser (pre ++ (now, (lit "connect", argv)) :: rest) (cleared_info u) h
      = Run (Connected argv rest u' h') ∧
    view u' = foldl (λ n i, negotiate (snd i) n) (view (cleared_info u)) pre ∧
    live h' ≡ₚ owned u' ++ live h.
Proof.
  intros Hp Hok.
  destruct (handshake_accepts parser pre (cleared_info u) h (live h) Hp Hok) as (u' & h' & E & _ & Hl & Hv).
  { by destruct u. }
  exists u', h'. split; [|done]. rewrite E. cbn [__guac_user_handshake]. by rewrite decide_True.
Qed.

Definition sample_handshake : list (Z * received) :=
  [(0, (lit "size", [lit "1024"; lit "768"]));
   (0, (lit "audio", [lit "audio/L16"]));
   (0, (lit "audio", [lit "audio/L8"; lit "audio/L16"]));
   (0, (lit "image", []));
   (0, (lit "name", [lit "alice"]));
   (0, (lit "unknown", []))].

Definition sample_heap : heap := mk_heap [10; 20] 100.

Definition sample_info : guac_user_info :=
  mk_info 0 0 0 None None None None None GUAC_PROTOCOL_VERSION_UNKNOWN.

Lemma sample_heap_ok : heap_ok sample_heap.
Proof. split; [by apply (bool_decide_unpack _); vm_compute|by repeat constructor]. Qed.

Lemma handshake_negotiates_witness :
  ∃ u h, __guac_user_handshake 50
      (sample_handshake ++ [(0, (lit "connect", [lit "VERSION_1_5_0"]))]) (cleared_info sample_info) sample_heap
      = Run (Connected [lit "VERSION_1_5_0"] [] u h) ∧
    view u = mk_negotiated (1024, 768, 96) (Some [lit "audio/L8"; lit "audio/L16"]) None (Some [])
      None (Some (lit "alice")) ∧
    live h ≡ₚ owned u ++ [10; 20].
Proof.
  assert (Hp : Forall acceptable sample_handshake) by (by apply (bool_decide_unpack _); vm_compute).
  destruct (handshake_negotiates 50 sample_handshake [] 0 [lit "VERSION_1_5_0"] sample_info sample_heap
    Hp sample_heap_ok) as (u & h & E & Hv & Hl).
  exists u, h. split; [exact E|]. split; [|exact Hl]. rewrite Hv. vm_compute. reflexivity.
Defined.

Lemma alloc_parser h :
  heap_ok h → ∃ parser h1, heap_alloc h = (parser, h1) ∧ heap_ok h1 ∧ live h1 = parser :: live h.
Proof.
  intros Hok. destruct (heap_alloc_ok h Hok) as [Hok1 Hl1]. destruct (heap_alloc h) as [parser h1].
  by exists parser, h1.
Qed.

(** The handlers of instructions that lack no argument come back, whatever the session is in. *)

Lemma input_thread_returns plugin `{!LawfulPlugin plugin} atof arriving ends s :
  Forall supplied arriving → (∃ o, tracked o s) →
  ensures true (guac_user_input_thread plugin atof arriving ends) s (λ _ _, True).
Proof.
  intros Ha. revert s. induction Ha as [|[now [opcode argv]] arriving Hi Ha IH]; intros s Hs;
    cbn [guac_user_input_thread]; apply ensures_bind, ensures_get_user.
  - destruct (user_active (fst s)) eqn:Ea; cbn [negb]; [|by apply ensures_ret].
    destruct ends as [status|]; [|by apply ensures_ret].
    destruct status; try (by apply ensures_bind, ensures_put_user, ensures_ret).
    unfold guac_user_abort. rewrite Ea. by apply ensures_bind, ensures_put_user, ensures_ret.
  - destruct (user_active (fst s)) eqn:Ea; cbn [negb]; [|by apply ensures_ret].
    apply ensures_bind. eapply ensures_mono; [by apply (instruction_ok plugin atof true)|].
    intros r s1 H1. cbn beta in H1. destruct (r =? 0); [by apply IH|].
    by apply ensures_bind, ensures_get_user, ensures_bind, ensures_put_user, ensures_ret.
Qed.

Lemma session_returns plugin `{!LawfulPlugin plugin} atof join argv rest en u :
  open_inputs ∅ u → argv ≠ [] → Forall supplied rest →
  ∃ more s, join_and_serve plugin atof join argv rest en u = Run (more, s).
Proof.
  intros Hu Hn Hs. unfold join_and_serve. destruct (negb _); [by eexists _, _|].
  destruct argv as [|version argv]; [done|]. cbn [lookup list_lookup deref].
  rewrite run_bind_run. unfold guac_user_start.
  match goal with |- ∃ _ _, (_ ≫= _) ?s = _ =>
    pose proof (input_thread_returns plugin atof rest en s Hs) as H end.
  unfold mbind, act_bind, stateful_bind. unfold ensures in H.
  destruct (guac_user_input_thread _ _ _ _ _) as [[sent s]| | |]; [by eexists _, _|..];
    (discriminate H; apply tracked_start; by destruct u).
Qed.

Lemma session_info plugin `{!KeepsInfo plugin} atof join argv rest en u more u' calls :
  join_and_serve plugin atof join argv rest en u = Run (more, (u', calls)) →
  owned (info u') = owned (info u).
Proof.
  unfold join_and_serve. destruct (negb _); [by intros [= _ <- _]|].
  intros (version & _ & E)%run_bind_inv. unfold guac_user_start in E.
  match type of E with (guac_user_input_thread _ _ ?a ?e ≫= _) ?s = _ =>
    pose proof (input_thread_info plugin atof a e s _ eq_refl) as H end.
  unfold mbind, act_bind, stateful_bind in E. unfold ensures in H.
  destruct (guac_user_input_thread _ _ _ _ _) as [[sent s]| | |]; [|done..].
  cbn in E, H. injection E as _ Es. rewrite Es in H. cbn in H. by rewrite H.
Qed.

(** A connection is its session, between allocations that are all freed. *)

Definition released (h : heap) (more : list output) (served : list event) (r : connection_result) : Prop :=
  value r = 0 ∧ live (final_heap r) ≡ₚ live h ∧ calls r = served ∧ sent r = Sent_args :: Sent_ready :: more.

Lemma connection_serves plugin `{!KeepsInfo plugin} atof join args pre rest now argv en u h :
  Forall acceptable pre → heap_ok h → length argv = S (length args) →
  let connection := guac_user_handle_connection plugin atof join args false
    (mk_input (pre ++ (now, (lit "connect", argv)) :: rest) en) u h in
  ∃ u', view u' = foldl (λ n i, negotiate (snd i) n) (view (cleared_info (info u))) pre ∧
    match join_and_serve plugin atof join argv rest en (u <| info := u' |>) with
    | Run (more, (_, served)) => ∃ r, connection = Run r ∧ released h more served r
    | Abort => connection = Abort
    | Fault => connection = Fault
    | Spin => connection = Spin
    end.
Proof.
  intros Hp Hok Hn connection.
  subst connection. unfold guac_user_handle_connection.
  destruct (alloc_parser h Hok) as (parser & h1 & Ea & Hok1 & Hl1). rewrite Ea.
  cbn [arriving ends set info].
  destruct (handshake_accepts parser pre (cleared_info (info u)) h1 (parser :: live h) Hp Hok1)
    as (u2 & h2 & E2 & Hok2 & Hl2 & Hv); [by rewrite Hl1; destruct (info u)|].
  exists u2. split; [done|]. rewrite E2. cbn [__guac_user_handshake]. rewrite decide_True, run_bind_run by done.
  rewrite (proj2 (Nat.eqb_eq _ _)) by lia. cbn [negb].
  replace (set info (const u2) (set info (const (cleared_info (info u))) u)) with (set info (const u2) u)
    by (by destruct u).
  destruct (join_and_serve _ _ _ _ _ _ _) as [[more [u3 served]]| | |] eqn:Es; [|done..].
  rewrite run_bind_run. pose proof (session_info _ _ _ _ _ _ _ _ _ _ Es) as Hinfo. cbn [set info] in Hinfo.
  destruct (free_info_ok (info u3) h2 (parser :: live h) Hok2) as (h4 & E4 & Hok4 & Hl4);
    [by rewrite Hinfo; destruct u|]. rewrite E4, run_bind_run.
  destruct (free_one h4 parser (live h) Hok4 Hl4) as (h5 & E5 & _ & Hl5 & _).
  rewrite E5, run_bind_run. eexists. done.
Qed.

(** C15. A connection whose [connect] has as many arguments as were announced frees everything it
    allocated, and nothing twice: it ends with success, the heap as it was before, whenever the
    session it serves ends, whatever the user sent during the handshake and the session and whether or not
    the join was accepted; it fails only where the session itself does, which it does not as
    long as no instruction of the session lacks an argument. *)
Theorem connection_frees_all plugin `{!KeepsInfo plugin} `{!LawfulPlugin plugin}
    atof join args pre rest now argv en u h :
  Forall acceptable pre → heap_ok h → length argv = S (length args) → open_inputs ∅ u →
  let connection := guac_user_handle_connection plugin atof join args false
    (mk_input (pre ++ (now, (lit "connect", argv)) :: rest) en) u h in
  (∃ u', view u' = foldl (λ n i, negotiate (snd i) n) (view (cleared_info (info u))) pre ∧
     match join_and_serve plugin atof join argv rest en (u <| info := u' |>) with
     | Run (more, (_, served)) => ∃ r, connection = Run r ∧ released h more served r
     | Abort => connection = Abort
     | Fault => connection = Fault
     | Spin => connection = Spin
     end) ∧
  (Forall supplied rest →
     ∃ r, connection = Run r ∧ value r = 0 ∧ live (final_heap r) ≡ₚ live h).
Proof.
  intros Hp Hok Hn Hu connection.
  destruct (connection_serves plugin atof join args pre rest now argv en u h Hp Hok Hn) as (u' & Hv & H).
  split; [by exists u'|]. intros Hs.
  destruct (session_returns plugin atof join argv rest en (u <| info := u' |>)) as (more & [u3 served] & E);
    [done|by destruct argv|done|].
  rewrite E in H. destruct H as (r & Er & Hr & Hl & _). by exists r.
Qed.

#[export] Instance sample_plugin_info : KeepsInfo sample_plugin.
Proof. done. Qed.

Definition accepts_all (argv : list (list byte)) : Z := 0.

Lemma connection_frees_all_witness :
  ∃ r, guac_user_handle_connection sample_plugin sample_atof accepts_all [lit "host"] false
      (mk_input (sample_handshake ++ (0, (lit "connect", [lit "VERSION_1_5_0"; lit "a"])) :: sample_input)
         (Read_fails GUAC_STATUS_TIMEOUT)) sample_user sample_heap = Run r ∧
    sent r = [Sent_args; Sent_ready; Sent_error GUAC_PROTOCOL_STATUS_CLIENT_TIMEOUT; Sent_disconnect] ∧
    value r = 0 ∧ live (final_heap r) ≡ₚ [10; 20].
Proof.
  assert (Hp : Forall acceptable sample_handshake) by (by apply (bool_decide_unpack _); vm_compute).
  assert (Hs : Forall supplied sample_input) by (by apply (bool_decide_unpack _); vm_compute).
  assert (Hu : open_inputs ∅ sample_user) by (by eapply open_inputs_alloc).
  destruct (connection_frees_all sample_plugin sample_atof accepts_all [lit "host"] sample_handshake
    sample_input 0 [lit "VERSION_1_5_0"; lit "a"] (Read_fails GUAC_STATUS_TIMEOUT) sample_user sample_heap
    Hp sample_heap_ok eq_refl Hu) as [_ H].
  destruct (H Hs) as (r & E & Hr & Hl). exists r. split; [exact E|]. split; [|by split].
  assert (Er : match guac_user_handle_connection sample_plugin sample_atof accepts_all [lit "host"] false
      (mk_input (sample_handshake ++ (0, (lit "connect", [lit "VERSION_1_5_0"; lit "a"])) :: sample_input)
         (Read_fails GUAC_STATUS_TIMEOUT)) sample_user sample_heap with
    | Run r => sent r | _ => [] end = sent r) by (by rewrite E).
  rewrite <-Er. vm_compute. reflexivity.
Defined.

(** C26. [size] without its two arguments, at any point of the handshake, frees the parser twice: in the
    loop of the handshake and again where the connection is refused. *)
Theorem failed_handshake_frees_twice plugin atof join args pre rest now argv en u h :
  Forall acceptable pre → (length argv < 2)%nat → heap_ok h →
  guac_user_handle_connection plugin atof join args false
    (mk_input (pre ++ (now, (lit "size", argv)) :: rest) en) u h = Fault.
Proof.
  intros Hp Ha Hok. unfold guac_user_handle_connection.
  destruct (alloc_parser h Hok) as (parser & h1 & Ea & Hok1 & Hl1). rewrite Ea.
  cbn [arriving ends set info].
  destruct (handshake_accepts parser pre (cleared_info (info u)) h1 (parser :: live h) Hp Hok1)
    as (u2 & h2 & E2 & Hok2 & Hl2 & _); [by rewrite Hl1; destruct (info u)|].
  rewrite E2. cbn [__guac_user_handshake]. rewrite decide_False by done.
  change (__guac_user_call_opcode_handler _ _) with (Some __guac_handshake_size_handler). cbn iota.
  assert (Esize : __guac_handshake_size_handler argv u2 h2 = Run (1, u2, h2))
    by (destruct argv as [|? [|? ?]]; [done|done|cbn in Ha; lia]).
  rewrite Esize, run_bind_run. cbn iota beta. change (1 =? 0) with false. cbn iota.
  assert (Hl2' : live h2 ≡ₚ parser :: (owned u2 ++ live h)) by (by rewrite Hl2, Permutation_middle).
  destruct (free_one h2 parser _ Hok2 Hl2') as (h3 & E3 & Hok3 & Hl3 & _).
  rewrite E3, run_bind_run, run_bind_run, free_none; [done|].
  destruct Hok2 as [Hnd _]. rewrite Hl2' in Hnd. apply list.NoDup_cons in Hnd as [Hnot _].
  by rewrite Hl3.
Qed.

Lemma failed_handshake_frees_twice_witness :
  guac_user_handle_connection sample_plugin sample_atof accepts_all [] false
    (mk_input [(0, (lit "size", []))] Client_stops) sample_user sample_heap = Fault.
Proof.
  refine (failed_handshake_frees_twice sample_plugin sample_atof accepts_all [] [] [] 0 [] Client_stops
    sample_user sample_heap _ _ sample_heap_ok); [constructor|cbn; lia].
Defined.

(** A connection with the wrong number of arguments frees nothing: neither the parser nor what
    the handshake allocated. *)

Theorem wrong_arguments_leak plugin atof join args pre rest now argv en u h :
  Forall acceptable pre → heap_ok h → length argv ≠ S (length args) →
  ∃ r u' parser, guac_user_handle_connection plugin atof join args false
      (mk_input (pre ++ (now, (lit "connect", argv)) :: rest) en) u h = Run r ∧ value r = 1 ∧
    view u' = foldl (λ n i, negotiate (snd i) n) (view (cleared_info (info u))) pre ∧
    live (final_heap r) ≡ₚ parser :: owned u' ++ live h.
Proof.
  intros Hp Hok Hn. unfold guac_user_handle_connection.
  destruct (alloc_parser h Hok) as (parser & h1 & Ea & Hok1 & Hl1). rewrite Ea.
  cbn [arriving ends set info].
  destruct (handshake_accepts parser pre (cleared_info (info u)) h1 (parser :: live h) Hp Hok1)
    as (u2 & h2 & E2 & Hok2 & Hl2 & Hv2); [by rewrite Hl1; destruct (info u)|].
  rewrite E2. cbn [__guac_user_handshake]. rewrite decide_True, run_bind_run by done.
  rewrite (proj2 (Nat.eqb_neq _ _)) by lia. cbn [negb].
  eexists _, u2, parser. split; [done|]. split; [done|]. split; [done|]. cbn [final_heap].
  by rewrite Hl2, Permutation_middle.
Qed.
