(* ===== verification/ClientUsers.v ===== *)
(** * The users of a client (src/src/libguac/client.c)

    A user that joins is put on the list of pending users, a thread moves the
    pending users to the list of full users, a user that leaves is taken from
    the list it is on.  Both lists are doubly linked through the users
    themselves ([__prev], [__next]); the memory of the users is a map from their
    addresses.

    A function holds the locks of the lists it changes from its first access to
    its last ([RwLock]), so it is one step.  The handlers of the plugin that are called
    there are values; that they leave the lists alone is what the locks are for.
    The refinement theorem says that the pointers implement two lists without a common
    member. *)

From S2P Require Import Prelude RecordUpdate Mem Run.
From stdpp Require Import gmap.
Local Open Scope Z_scope.

Local Abbreviation len l := (Z.of_nat (List.length l)).
Local Abbreviation pointer := (option Z).

Record user_node := mk_node {
  __prev : pointer;
  __next : pointer;
  owner : bool;
  node_processing_lag : Z;         (* processing_lag *)
}.

#[export] Instance eta_node : Eta user_node :=
  λ n, mk_node (__prev n) (__next n) (owner n) (node_processing_lag n).

Record client := mk_client {
  __users : pointer;
  __pending_users : pointer;
  __owner : pointer;
  connected_users : Z;
  __pending_users_thread_started : bool;
  nodes : gmap Z user_node;
}.

#[export] Instance eta_client_users : Eta client :=
  λ c, mk_client (__users c) (__pending_users c) (__owner c) (connected_users c)
    (__pending_users_thread_started c) (nodes c).

(** ** Access to the users *)

Definition node_at (p : Z) (c : client) : run user_node := deref (nodes c !! p).

Definition set_node (p : Z) (f : user_node → user_node) (c : client) : run client :=
  n ← node_at p c; Run (c <| nodes := <[p := f n]> (nodes c) |>).

Definition set_next (p v : pointer) (c : client) : run client :=
  match p with Some p => set_node p (λ n, n <| __next := v |>) c | None => Run c end.

Definition set_prev (p v : pointer) (c : client) : run client :=
  match p with Some p => set_node p (λ n, n <| __prev := v |>) c | None => Run c end.

(** ** Joining *)

Definition guac_client_add_pending_user (user : Z) (c : client) : run client :=
  let c := c <| __pending_users_thread_started := true |> in
  c ← set_node user (λ n, n <| __prev := None |> <| __next := __pending_users c |>) c;
  c ← set_prev (__pending_users c) (Some user) c;
  Run (c <| __pending_users := Some user |> <| connected_users := i32 (connected_users c + 1) |>).

(** [join] is the value of the join handler, [None] where there is none. The result is what is returned,
    and whether the owner is told. *)

Definition guac_client_add_user (join : option Z) (user : Z) (c : client) : run (Z * bool * client) :=
  let retval := default 0 join in
  n ← node_at user c;
  if retval =? 0 then
    c ← guac_client_add_pending_user user c;
    let c := if owner n then c <| __owner := Some user |> else c in
    Run (0, negb (owner n), c)
  else Run (retval, false, c).

(** ** Promotion *)

(** The last user of a list, as many turns as there are users being enough. *)

Fixpoint find_last (fuel : nat) (user : pointer) (last_user : pointer) (c : client) : run pointer :=
  match user with
  | None => Run last_user
  | Some p =>
      match fuel with
      | O => Spin
      | S fuel => n ← node_at p c; find_last fuel (__next n) (Some p) c
      end
  end.

Definition fuel_of (c : client) : nat := size (nodes c).

Definition guac_client_promote_pending_users (join_pending : option Z) (c : client) : run client :=
  match __pending_users c with
  | None => Run c
  | Some _ =>
      if negb (default 0 join_pending =? 0) then Run c
      else
        let first_user := __pending_users c in
        last_user ← find_last (fuel_of c) first_user first_user c;
        let c := c <| __pending_users := None |> in
        match last_user with
        | None => Run c
        | Some _ =>
            c ← set_prev (__users c) last_user c;
            c ← set_next last_user (__users c) c;
            Run (c <| __users := first_user |>)
        end
  end.

(** ** Leaving *)

Definition guac_client_remove_user (user : Z) (c : client) : run client :=
  n ← node_at user c;
  c ← match __prev n with
      | Some _ => set_next (__prev n) (__next n) c
      | None =>
          if decide (__users c = Some user) then Run (c <| __users := __next n |>)
          else if decide (__pending_users c = Some user) then Run (c <| __pending_users := __next n |>)
          else Run c
      end;
  n ← node_at user c;
  c ← set_prev (__next n) (__prev n) c;
  let c := c <| connected_users := i32 (connected_users c - 1) |> in
  n ← node_at user c;
  Run (if owner n then c <| __owner := None |> else c).

(** ** Visiting *)

(** The users a callback is invoked on, in order. *)

Fixpoint visit (fuel : nat) (current : pointer) (c : client) : run (list Z) :=
  match current with
  | None => Run []
  | Some p =>
      match fuel with
      | O => Spin
      | S fuel => n ← node_at p c; rest ← visit fuel (__next n) c; Run (p :: rest)
      end
  end.

Definition guac_client_foreach_user (c : client) : run (list Z) := visit (fuel_of c) (__users c) c.

Definition guac_client_foreach_pending_user (c : client) : run (list Z) :=
  visit (fuel_of c) (__pending_users c) c.

(** What the callback is given. *)

Definition guac_client_for_owner (c : client) : pointer := __owner c.

Fixpoint search_user (fuel : nat) (current : pointer) (user : pointer) (c : client) : run bool :=
  match current with
  | None => Run false
  | Some p =>
      match fuel with
      | O => Spin
      | S fuel =>
          if decide (user = Some p) then Run true
          else n ← node_at p c; search_user fuel (__next n) user c
      end
  end.

Definition guac_client_for_user (user : pointer) (c : client) : run pointer :=
  user_valid ← search_user (fuel_of c) (__users c) user c;
  Run (if user_valid : bool then user else None).

Fixpoint lag_of (users : list Z) (processing_lag : Z) (c : client) : run Z :=
  match users with
  | [] => Run processing_lag
  | p :: users =>
      n ← node_at p c;
      lag_of users (if processing_lag <? node_processing_lag n then node_processing_lag n else processing_lag) c
  end.

Definition guac_client_get_processing_lag (c : client) : run Z :=
  users ← guac_client_foreach_user c; lag_of users 0 c.

(** [guac_client_free] removes every user, pending ones first. *)

Fixpoint remove_all (fuel : nat) (list_of : client → pointer) (c : client) : run client :=
  match list_of c with
  | None => Run c
  | Some p =>
      match fuel with
      | O => Spin
      | S fuel => c ← guac_client_remove_user p c; remove_all fuel list_of c
      end
  end.

Definition guac_client_free_users (c : client) : run client :=
  c ← remove_all (fuel_of c) __pending_users c;
  remove_all (fuel_of c) __users c.

(** ** Segments of a doubly linked list

    [dseg m prev l next]: the nodes [l] are linked in this order, from [prev] to [next]. *)

Fixpoint dseg (m : gmap Z user_node) (prev : pointer) (l : list Z) (next : pointer) : Prop :=
  match l with
  | [] => True
  | x :: l =>
      (∃ n, m !! x = Some n ∧ __prev n = prev ∧ __next n = default next (Some <$> head l)) ∧
      dseg m (Some x) l next
  end.

Lemma dseg_app m prev l1 l2 next :
  dseg m prev (l1 ++ l2) next ↔
  dseg m prev l1 (default next (Some <$> head l2)) ∧ dseg m (default prev (Some <$> last l1)) l2 next.
Proof.
  revert prev. induction l1 as [|x l1 IH]; intros prev; [cbn; tauto|].
  cbn [app dseg]. rewrite IH, last_cons. destruct l1 as [|y l1]; cbn [app head]; [cbn; tauto|].
  destruct (last (y :: l1)) eqn:E; [cbn; tauto|]. by apply last_None in E.
Qed.

Lemma dseg_ext m m' prev l next :
  (∀ x, x ∈ l → m' !! x = m !! x) → dseg m prev l next → dseg m' prev l next.
Proof.
  revert prev. induction l as [|x l IH]; intros prev Hm H; [done|]. cbn [dseg] in *.
  destruct H as [(n & E & Hn) H]. split.
  - exists n. rewrite Hm by apply list_elem_of_here. done.
  - apply IH; [|done]. intros y Hy. apply Hm. by apply list_elem_of_further.
Qed.

Lemma dseg_node m prev l next x : dseg m prev l next → x ∈ l → is_Some (m !! x).
Proof.
  revert prev. induction l as [|y l IH]; intros prev H Hx; [by apply elem_of_nil in Hx|].
  destruct H as [(n & E & _) H]. apply elem_of_cons in Hx as [->|Hx]; [by exists n|by apply (IH (Some y))].
Qed.

(** What a node says besides its links. *)

Definition same_users (m m' : gmap Z user_node) : Prop :=
  ∀ p, owner <$> m' !! p = owner <$> m !! p ∧
       node_processing_lag <$> m' !! p = node_processing_lag <$> m !! p.

Lemma same_users_refl m : same_users m m.
Proof. done. Qed.

Lemma same_users_trans m1 m2 m3 : same_users m1 m2 → same_users m2 m3 → same_users m1 m3.
Proof. intros H1 H2 p. destruct (H1 p) as [<- <-]. apply H2. Qed.

Lemma same_users_insert m p n n' :
  m !! p = Some n → owner n' = owner n → node_processing_lag n' = node_processing_lag n →
  same_users m (<[p := n']> m).
Proof.
  intros E Ho Hl q. destruct (decide (q = p)) as [->|Hne].
  - rewrite lookup_insert_eq, E. cbn. by rewrite Ho, Hl.
  - by rewrite lookup_insert_ne.
Qed.

(** Linking the last or the first node of a segment elsewhere. *)

Lemma dseg_relink_last m prev l x next v n :
  dseg m prev (l ++ [x]) next → x ∉ l → m !! x = Some n →
  dseg (<[x := n <| __next := v |>]> m) prev (l ++ [x]) v.
Proof.
  rewrite !dseg_app. intros [Hl [(n' & E & Hp & _) _]] Hx En. cbn [head fmap option_fmap default] in *.
  split.
  - eapply dseg_ext; [|exact Hl]. intros y Hy. apply lookup_insert_ne. by intros ->.
  - cbn [dseg]. split; [|done]. eexists. rewrite lookup_insert_eq. split; [done|]. rewrite En in E.
    injection E as <-. done.
Qed.

Lemma dseg_relink_first m prev x l next v n :
  dseg m prev (x :: l) next → x ∉ l → m !! x = Some n →
  dseg (<[x := n <| __prev := v |>]> m) v (x :: l) next.
Proof.
  intros [(n' & E & _ & Hn) Hl] Hx En. rewrite En in E. injection E as <-. cbn [dseg]. split.
  - eexists. rewrite lookup_insert_eq. split; [done|]. done.
  - eapply dseg_ext; [|exact Hl]. intros y Hy. apply lookup_insert_ne. by intros ->.
Qed.

Lemma set_node_run c p f n :
  nodes c !! p = Some n → set_node p f c = Run (c <| nodes := <[p := f n]> (nodes c) |>).
Proof. intros E. unfold set_node, node_at. by rewrite E. Qed.

(** [set_next] on the last node of a list, [set_prev] on the first. *)

Lemma set_next_last c l next v :
  dseg (nodes c) None l next → NoDup l →
  ∃ c', set_next (last l) v c = Run c' ∧ c' = c <| nodes := nodes c' |> ∧
    dseg (nodes c') None l v ∧ same_users (nodes c) (nodes c') ∧
    (∀ y, y ∉ l → nodes c' !! y = nodes c !! y).
Proof.
  intros Hl Hnd. destruct (list.last l) as [x|] eqn:E.
  - apply last_Some in E as [l' ->]. destruct (dseg_node _ _ _ _ x Hl) as [n En]; [clear; set_solver|].
    eexists. cbn [set_next]. rewrite (set_node_run _ _ _ _ En). split; [done|]. split; [by destruct c|].
    apply NoDup_app in Hnd as (_ & Hx & _). split.
    + apply (dseg_relink_last _ _ _ _ next); [done| |done]. intros Hin. apply (Hx _ Hin). clear; set_solver.
    + split; [by apply (same_users_insert _ _ n)|]. intros y Hy. apply lookup_insert_ne. clear -Hy; set_solver.
  - apply last_None in E as ->. exists c. split; [done|]. split; [by destruct c|]. done.
Qed.

Lemma set_prev_first c prev l next v :
  dseg (nodes c) prev l next → NoDup l →
  ∃ c', set_prev (head l) v c = Run c' ∧ c' = c <| nodes := nodes c' |> ∧
    dseg (nodes c') v l next ∧ same_users (nodes c) (nodes c') ∧
    (∀ y, y ∉ l → nodes c' !! y = nodes c !! y).
Proof.
  intros Hl Hnd. destruct l as [|x l]; cbn [head set_prev].
  - exists c. split; [done|]. split; [by destruct c|]. done.
  - destruct (dseg_node _ _ _ _ x Hl) as [n En]; [clear; set_solver|].
    rewrite (set_node_run _ _ _ _ En). eexists. split; [done|]. split; [by destruct c|].
    apply list.NoDup_cons in Hnd as [Hx _]. split; [by apply (dseg_relink_first _ prev)|].
    split; [by apply (same_users_insert _ _ n)|]. intros y Hy. apply lookup_insert_ne. clear -Hy; set_solver.
Qed.

(** Taking a node out of a list. *)

Lemma unlink c l1 x l2 :
  dseg (nodes c) None (l1 ++ x :: l2) None → NoDup (l1 ++ x :: l2) →
  ∃ n c1 c2, nodes c !! x = Some n ∧ __prev n = last l1 ∧ __next n = head l2 ∧
    set_next (last l1) (head l2) c = Run c1 ∧ nodes c1 !! x = Some n ∧
    set_prev (head l2) (last l1) c1 = Run c2 ∧ c1 = c <| nodes := nodes c1 |> ∧
    c2 = c <| nodes := nodes c2 |> ∧
    dseg (nodes c2) None (l1 ++ l2) None ∧ same_users (nodes c) (nodes c2) ∧
    (∀ y, y ∉ l1 ++ l2 → nodes c2 !! y = nodes c !! y).
Proof.
  intros Hl Hnd. apply dseg_app in Hl as [H1 [(n & En & Hp & Hn) H2]].
  apply list.NoDup_app in Hnd as (Nd1 & Hd & [Hx2 Nd2]%list.NoDup_cons).
  assert (Hx1 : x ∉ l1) by (intros Hin; apply (Hd x Hin), list_elem_of_here).
  assert (Hd' : ∀ y, y ∈ l1 → y ∉ l2) by (intros y Hy Hy2; apply (Hd y Hy); by right).
  assert (Ep : __prev n = last l1) by (rewrite Hp; by destruct (last l1)).
  assert (En' : __next n = head l2) by (rewrite Hn; by destruct l2).
  destruct (set_next_last c l1 _ (head l2) H1 Nd1) as (c1 & E1 & Ec1 & Hs1 & Hu1 & Ho1).
  assert (H2' : dseg (nodes c1) (Some x) l2 None).
  { eapply dseg_ext; [|exact H2]. intros y Hy. apply Ho1. intros Hy1. by apply (Hd' y). }
  destruct (set_prev_first c1 _ l2 _ (last l1) H2' Nd2) as (c2 & E2 & Ec2 & Hs2 & Hu2 & Ho2).
  exists n, c1, c2. split; [done|]. split; [done|]. split; [done|]. split; [done|].
  split; [by rewrite Ho1|]. split; [done|]. split; [done|].
  split; [rewrite Ec2 at 1; by rewrite Ec1|]. split; [|split].
  - apply dseg_app. split.
    + replace (default None (Some <$> head l2)) with (head l2) by (by destruct l2).
      eapply dseg_ext; [|exact Hs1]. intros y Hy. apply Ho2. by apply Hd'.
    + replace (default None (Some <$> last l1)) with (last l1) by (by destruct (last l1)). exact Hs2.
  - by apply (same_users_trans _ (nodes c1)).
  - intros y Hy. rewrite not_elem_of_app in Hy. by rewrite Ho2, Ho1 by apply Hy.
Qed.

(** ** The two lists *)

Record represents (c : client) (pending users : list Z) : Prop := {
  rep_pending : dseg (nodes c) None pending None;
  rep_users : dseg (nodes c) None users None;
  rep_NoDup : NoDup (pending ++ users);
  rep_head_pending : __pending_users c = head pending;
  rep_head_users : __users c = head users;
  rep_count : connected_users c = len (pending ++ users);
  rep_size : Z.of_nat (size (nodes c)) ≤ INT_MAX;
}.

Lemma rep_elem c pending users x : represents c pending users → x ∈ pending ++ users → is_Some (nodes c !! x).
Proof.
  intros H [Hx|Hx]%elem_of_app.
  - apply (dseg_node _ None pending None); [apply H|done].
  - apply (dseg_node _ None users None); [apply H|done].
Qed.

Lemma rep_fuel c pending users :
  represents c pending users → (length (pending ++ users) ≤ fuel_of c)%nat.
Proof.
  intros H. unfold fuel_of. rewrite <-size_dom, <-(size_list_to_set (C := gset Z)) by apply H.
  apply subseteq_size. intros x Hx%elem_of_list_to_set. apply elem_of_dom. by apply (rep_elem c pending users).
Qed.

Lemma same_users_size m m' : same_users m m' → size m' = size m.
Proof.
  intros H. rewrite <-!size_dom. f_equal. apply set_eq. intros x. rewrite !elem_of_dom.
  destruct (H x) as [E _]. destruct (m !! x), (m' !! x); cbn in E; try done; split; by intros [].
Qed.

(** Visiting a segment. *)

Lemma visit_dseg c prev l fuel :
  dseg (nodes c) prev l None → (length l ≤ fuel)%nat → visit fuel (head l) c = Run l.
Proof.
  revert prev fuel. induction l as [|x l IH]; intros prev fuel Hl Hf; [by destruct fuel|].
  destruct fuel as [|fuel]; [cbn in Hf; lia|]. destruct Hl as [(n & En & _ & Hn) Hl].
  cbn [head visit]. unfold node_at. rewrite En. cbn [deref]. rewrite run_bind_run, Hn.
  replace (default None (Some <$> head l)) with (head l) by (by destruct l).
  cbn in Hf. by rewrite (IH (Some x)), run_bind_run by (done || lia).
Qed.

Lemma find_last_dseg c prev l fuel before :
  dseg (nodes c) prev l None → (length l ≤ fuel)%nat →
  find_last fuel (head l) before c = Run (match last l with Some x => Some x | None => before end).
Proof.
  revert prev fuel before. induction l as [|x l IH]; intros prev fuel before Hl Hf; [by destruct fuel|].
  destruct fuel as [|fuel]; [cbn in Hf; lia|]. destruct Hl as [(n & En & _ & Hn) Hl].
  cbn [head find_last]. unfold node_at. rewrite En. cbn [deref]. rewrite run_bind_run, Hn.
  replace (default None (Some <$> head l)) with (head l) by (by destruct l).
  cbn in Hf. rewrite (IH (Some x)) by (done || lia). rewrite last_cons. by destruct (last l).
Qed.

Definition among (user : pointer) (l : list Z) : bool :=
  match user with Some x => bool_decide (x ∈ l) | None => false end.

Lemma search_dseg c prev l fuel user :
  dseg (nodes c) prev l None → (length l ≤ fuel)%nat →
  search_user fuel (head l) user c = Run (among user l).
Proof.
  revert prev fuel. induction l as [|x l IH]; intros prev fuel Hl Hf.
  { destruct fuel, user; cbn; try done; by rewrite bool_decide_false by apply not_elem_of_nil. }
  destruct fuel as [|fuel]; [cbn in Hf; lia|]. destruct Hl as [(n & En & _ & Hn) Hl].
  cbn [head search_user]. case_decide as Hu.
  - subst user. cbn. by rewrite bool_decide_true by apply list_elem_of_here.
  - unfold node_at. rewrite En. cbn [deref]. rewrite run_bind_run, Hn.
    replace (default None (Some <$> head l)) with (head l) by (by destruct l).
    cbn in Hf. rewrite (IH (Some x)) by (done || lia). f_equal. destruct user as [y|]; [|done].
    cbn. apply bool_decide_ext. rewrite elem_of_cons. split; [by right|]. by intros [->|?].
Qed.

(** ** The specification

    A join puts the user in front of the pending ones, promotion puts the pending users in
    front of the full ones, leaving takes the user from wherever it is. *)

Inductive client_op :=
| op_join (handler : option Z) (user : Z)
| op_promote (handler : option Z)
| op_leave (user : Z).

Definition perform_op (op : client_op) (c : client) : run client :=
  match op with
  | op_join handler user => '(_, _, c) ← guac_client_add_user handler user c; Run c
  | op_promote handler => guac_client_promote_pending_users handler c
  | op_leave user => guac_client_remove_user user c
  end.

Definition lists : Type := list Z * list Z.

Definition without (x : Z) (l : list Z) : list Z := filter (λ y, y ≠ x) l.

Definition spec_op (op : client_op) (s : lists) : lists :=
  let '(pending, users) := s in
  match op with
  | op_join handler user => if default 0 handler =? 0 then (user :: pending, users) else s
  | op_promote handler => if default 0 handler =? 0 then ([], pending ++ users) else s
  | op_leave user => (without user pending, without user users)
  end.

(** A user that joins is allocated and not present, one that leaves is present. *)

Definition permitted (op : client_op) (known : gset Z) (s : lists) : Prop :=
  match op with
  | op_join handler user => user ∈ known ∧ user ∉ fst s ++ snd s
  | op_promote handler => True
  | op_leave user => user ∈ fst s ++ snd s
  end.

#[export] Instance permitted_dec op known s : Decision (permitted op known s).
Proof. destruct op; cbn; apply _. Defined.

Lemma without_not x l : x ∉ l → without x l = l.
Proof.
  induction l as [|y l IH]; intros Hy; [done|]. apply not_elem_of_cons in Hy as [Hy Hl].
  unfold without. rewrite filter_cons_True by done. f_equal. by apply IH.
Qed.

Lemma without_split x l1 l2 : NoDup (l1 ++ x :: l2) → without x (l1 ++ x :: l2) = l1 ++ l2.
Proof.
  intros Hnd. apply list.NoDup_app in Hnd as (_ & Hd & [Hx _]%list.NoDup_cons).
  unfold without. rewrite filter_app, filter_cons_False by (by intros H). fold (without x l1) (without x l2).
  rewrite !without_not; [done|done|]. intros Hin. apply (Hd x Hin), list_elem_of_here.
Qed.

(** ** The operations *)

Lemma add_user_ok handler user c pending users :
  represents c pending users → is_Some (nodes c !! user) → user ∉ pending ++ users →
  ∃ c', perform_op (op_join handler user) c = Run c' ∧
    represents c' (fst (spec_op (op_join handler user) (pending, users)))
      (snd (spec_op (op_join handler user) (pending, users))) ∧ same_users (nodes c) (nodes c').
Proof.
  intros Hr [n En] Hu. pose proof (rep_fuel c pending users Hr) as Hf. destruct Hr as [Hp Hus Hnd Ep Eu Hc Hs].
  assert (Hroom : len (pending ++ users) + 1 ≤ INT_MAX).
  { assert (Hsub : (length (user :: pending ++ users) ≤ size (nodes c))%nat).
    { rewrite <-size_dom, <-(size_list_to_set (C := gset Z)) by (by constructor).
      apply subseteq_size. intros x [->|Hx]%elem_of_list_to_set%elem_of_cons; apply elem_of_dom; [by exists n|].
      apply elem_of_app in Hx as [Hx|Hx]; [by apply (dseg_node _ None pending None)|].
      by apply (dseg_node _ None users None). }
    cbn [length] in Hsub. lia. }
  cbn [perform_op spec_op]. unfold guac_client_add_user, node_at. rewrite En. cbn [deref].
  rewrite run_bind_run. destruct (default 0 handler =? 0); cbn [fst snd]; [|by exists c].
  unfold guac_client_add_pending_user.
  rewrite (set_node_run _ _ _ n) by done. rewrite run_bind_run.
  cbn [set nodes __pending_users]. rewrite Ep.
  match goal with |- context [set_prev (head pending) (Some user) ?d] => set (c1 := d) end.
  apply not_elem_of_app in Hu as [Hup Huu].
  assert (Hp1 : dseg (nodes c1) None pending None).
  { eapply dseg_ext; [|exact Hp]. intros y Hy. apply lookup_insert_ne. by intros ->. }
  assert (Ndp : NoDup pending) by (by apply list.NoDup_app in Hnd as []).
  destruct (set_prev_first c1 None pending None (Some user) Hp1 Ndp) as (c2 & E2 & Ec2 & Hp2 & Hs2 & Ho2).
  cbn [set nodes] in E2. rewrite E2, run_bind_run, run_bind_run.
  eexists. split; [done|].
  assert (En2 : nodes c2 !! user = Some (n <| __prev := None |> <| __next := head pending |>)).
  { rewrite Ho2 by done. by apply lookup_insert_eq. }
  assert (Hsame : same_users (nodes c) (nodes c2)).
  { eapply same_users_trans; [|exact Hs2]. by apply (same_users_insert _ _ n). }
  set (c3 := c2 <| __pending_users := Some user |> <| connected_users := i32 (connected_users c2 + 1) |>).
  assert (Hr3 : represents c3 (user :: pending) users).
  { split; cbn.
    - split; [|exact Hp2]. exists (n <| __prev := None |> <| __next := head pending |>).
      split; [done|]. split; [done|]. by destruct pending.
    - eapply dseg_ext; [|exact Hus]. intros y Hy. rewrite Ho2.
      + apply lookup_insert_ne. by intros ->.
      + intros Hy'. apply list.NoDup_app in Hnd as (_ & Hd & _). by apply (Hd y).
    - constructor; [|done]. rewrite not_elem_of_app. done.
    - done.
    - by rewrite Ec2.
    - rewrite Ec2. cbn. rewrite Hc. rewrite i32_small; [lia|]. unfold is_i32. unfold INT_MAX in Hroom. lia.
    - by rewrite (same_users_size _ _ Hsame). }
  destruct (owner n); cbn [fst snd]; (split; [|exact Hsame]); [|exact Hr3].
  destruct Hr3. by split.
Qed.

Lemma promote_ok handler c pending users :
  represents c pending users →
  ∃ c', perform_op (op_promote handler) c = Run c' ∧
    represents c' (fst (spec_op (op_promote handler) (pending, users)))
      (snd (spec_op (op_promote handler) (pending, users))) ∧ same_users (nodes c) (nodes c').
Proof.
  intros Hr. pose proof (rep_fuel c pending users Hr) as Hf. pose proof Hr as [Hp Hus Hnd Ep Eu Hc Hs].
  cbn [perform_op spec_op]. unfold guac_client_promote_pending_users. rewrite Ep.
  destruct pending as [|x pending]; [exists c; split; [done|]; by destruct (_ =? _)|].
  cbn [head]. destruct (default 0 handler =? 0) eqn:Eh; cbn [negb fst snd]; [|by exists c].
  rewrite length_app in Hf.
  pose proof (find_last_dseg c None (x :: pending) (fuel_of c) (Some x) Hp ltac:(lia)) as El.
  cbn [head] in El. rewrite El, run_bind_run. clear El.
  apply list.NoDup_app in Hnd as Hnd'. destruct Hnd' as (Ndp & Hd & Ndu).
  destruct (last (x :: pending)) as [z|] eqn:Ez; [|by apply last_None in Ez].
  cbn [set __users]. rewrite Eu.
  match goal with |- context [set_prev (head users) (Some z) ?d] => set (c1 := d) end.
  destruct (set_prev_first c1 None users None (Some z) Hus Ndu) as (c2 & E2 & Ec2 & Hu2 & Hs2 & Ho2).
  rewrite E2, run_bind_run. clear E2.
  assert (Eu2 : __users c2 = head users) by (by rewrite Ec2). rewrite Eu2.
  assert (Hp2 : dseg (nodes c2) None (x :: pending) None).
  { eapply dseg_ext; [|exact Hp]. intros y Hy. by rewrite Ho2 by (by apply Hd). }
  destruct (set_next_last c2 (x :: pending) None (head users) Hp2 Ndp) as (c3 & E3 & Ec3 & Hp3 & Hs3 & Ho3).
  rewrite Ez in E3. rewrite E3, run_bind_run. eexists. split; [done|].
  assert (Hsame : same_users (nodes c) (nodes c3)) by (by apply (same_users_trans _ (nodes c2))).
  split; [|exact Hsame]. split; cbn.
  - done.
  - apply (proj2 (dseg_app (nodes c3) None (x :: pending) users None)). split.
    + by replace (default None (Some <$> head users)) with (head users) by (by destruct users).
    + rewrite Ez. cbn. eapply dseg_ext; [|exact Hu2]. intros y Hy. apply Ho3. intros Hy'. by apply (Hd y).
  - exact Hnd.
  - by rewrite Ec3, Ec2.
  - done.
  - rewrite Ec3, Ec2. exact Hc.
  - by rewrite (same_users_size _ _ Hsame).
Qed.

Lemma set_prev_nodes p v c c' d :
  set_prev p v c = Run c' → nodes d = nodes c → set_prev p v d = Run (d <| nodes := nodes c' |>).
Proof.
  destruct p as [p|]; cbn [set_prev].
  - unfold set_node, node_at. intros E Ed. rewrite Ed. destruct (nodes c !! p); [|done].
    cbn in *. by injection E as <-.
  - intros [= <-] Ed. rewrite <-Ed. by destruct d.
Qed.

Lemma set_next_nodes p v c c' d :
  set_next p v c = Run c' → nodes d = nodes c → set_next p v d = Run (d <| nodes := nodes c' |>).
Proof.
  destruct p as [p|]; cbn [set_next].
  - unfold set_node, node_at. intros E Ed. rewrite Ed. destruct (nodes c !! p); [|done].
    cbn in *. by injection E as <-.
  - intros [= <-] Ed. rewrite <-Ed. by destruct d.
Qed.

(** A user on a list whose head is [h]: what is left of the list, and what is changed. *)

Lemma remove_linked c l1 user l2 :
  dseg (nodes c) None (l1 ++ user :: l2) None → NoDup (l1 ++ user :: l2) →
  (l1 = [] → __users c = Some user ∨ __users c ≠ Some user ∧ __pending_users c = Some user) →
  ∃ c', guac_client_remove_user user c = Run c' ∧
    dseg (nodes c') None (l1 ++ l2) None ∧ same_users (nodes c) (nodes c') ∧
    (∀ y, y ∉ l1 ++ l2 → nodes c' !! y = nodes c !! y) ∧
    connected_users c' = i32 (connected_users c - 1) ∧
    __users c' = (if decide (l1 = [] ∧ __users c = Some user) then head l2 else __users c) ∧
    __pending_users c' =
      (if decide (l1 = [] ∧ __users c ≠ Some user) then head l2 else __pending_users c).
Proof.
  intros Hl Hnd Hhead.
  destruct (unlink c l1 user l2 Hl Hnd)
    as (n & c1 & c2 & En & Epr & Enx & E1 & En1 & E2 & Ec1 & Ec2 & Hl' & Hsame & Hout).
  unfold guac_client_remove_user, node_at. rewrite En. cbn [deref]. rewrite run_bind_run, Epr, Enx.
  assert (Hstep : ∃ d, match last l1 with
      | Some _ => set_next (last l1) (head l2) c
      | None => if decide (__users c = Some user) then Run (c <| __users := head l2 |>)
                else if decide (__pending_users c = Some user) then Run (c <| __pending_users := head l2 |>)
                else Run c
      end = Run d ∧ nodes d = nodes c1 ∧ connected_users d = connected_users c ∧
      __users d = (if decide (l1 = [] ∧ __users c = Some user) then head l2 else __users c) ∧
      __pending_users d =
        (if decide (l1 = [] ∧ __users c ≠ Some user) then head l2 else __pending_users c)).
  { destruct (last l1) as [z|] eqn:Ez.
    - exists c1. split; [done|]. split; [done|]. assert (l1 ≠ []) by (by destruct l1).
      rewrite !decide_False by (by intros []). by rewrite Ec1.
    - apply last_None in Ez as ->. cbn [set_next] in E1. injection E1 as <-. case_decide as Hu.
      + eexists. split; [done|]. rewrite decide_True, decide_False by (done || by intros []). done.
      + destruct (Hhead eq_refl) as [?|[_ Hp]]; [done|]. rewrite decide_True by done.
        eexists. split; [done|]. rewrite decide_False, decide_True by (done || by intros []). done. }
  destruct Hstep as (d & -> & Ed & Ecd & Eud & Epd). rewrite run_bind_run, Ed, En1. cbn [deref].
  rewrite run_bind_run, Epr, Enx, (set_prev_nodes _ _ _ _ _ E2 Ed), run_bind_run. cbn [set nodes connected_users].
  assert (Hx : user ∉ l1 ++ l2).
  { rewrite <-Permutation_middle in Hnd. by apply list.NoDup_cons in Hnd as []. }
  rewrite (Hout user Hx), En. cbn [deref]. rewrite run_bind_run.
  eexists. split; [done|].
  destruct (owner n); cbn [nodes connected_users __users __pending_users]; rewrite Ecd; done.
Qed.

Lemma leave_ok user c pending users :
  represents c pending users → user ∈ pending ++ users →
  ∃ c', perform_op (op_leave user) c = Run c' ∧
    represents c' (fst (spec_op (op_leave user) (pending, users)))
      (snd (spec_op (op_leave user) (pending, users))) ∧ same_users (nodes c) (nodes c').
Proof.
  intros Hr Hin. pose proof (rep_fuel c pending users Hr) as Hf. unfold fuel_of in Hf.
  pose proof Hr as [Hp Hus Hnd Ep Eu Hc Hs].
  apply list.NoDup_app in Hnd as Hnd'. destruct Hnd' as (Ndp & Hd & Ndu).
  assert (Hcount : ∀ l' : list Z, len (pending ++ users) = len l' + 1 → i32 (connected_users c - 1) = len l').
  { intros l' E. rewrite Hc, i32_small; [lia|]. unfold is_i32, INT_MAX in *. lia. }
  cbn [perform_op spec_op fst snd].
  apply elem_of_app in Hin as [Hin|Hin].
  - assert (Hnot : user ∉ users) by (by apply Hd).
    assert (Hnhead : __users c ≠ Some user).
    { rewrite Eu. intros Hh. apply Hnot. destruct users; [done|]. injection Hh as ->. apply list_elem_of_here. }
    apply list_elem_of_split in Hin as (l1 & l2 & ->).
    destruct (remove_linked c l1 user l2 Hp Ndp) as (c' & E & Hl & Hsame & Hout & Ecn & Eun & Epn).
    { intros ->. right. done. }
    exists c'. split; [done|]. split; [|done].
    rewrite (without_split _ _ _ Ndp), (without_not _ _ Hnot). split.
    + done.
    + eapply dseg_ext; [|exact Hus]. intros y Hy. apply Hout. intros Hy'. apply (Hd y); [|done].
      apply elem_of_app in Hy' as [?|?]; apply elem_of_app; [by left|right; by right].
    + rewrite <-app_assoc in Hnd. rewrite <-app_assoc. cbn [app] in Hnd.
      rewrite <-Permutation_middle in Hnd. by apply list.NoDup_cons in Hnd as [].
    + rewrite Epn. case_decide as H; [by destruct H as [-> _]|]. rewrite Ep. destruct l1; [|done]. by destruct H.
    + rewrite Eun. rewrite decide_False by (by intros []). done.
    + rewrite Ecn. apply Hcount. rewrite !length_app. cbn [length]. lia.
    + by rewrite (same_users_size _ _ Hsame).
  - assert (Hnot : user ∉ pending) by (intros H; by apply (Hd user)).
    apply list_elem_of_split in Hin as (l1 & l2 & ->).
    destruct (remove_linked c l1 user l2 Hus Ndu) as (c' & E & Hl & Hsame & Hout & Ecn & Eun & Epn).
    { intros ->. left. done. }
    exists c'. split; [done|]. split; [|done].
    rewrite (without_split _ _ _ Ndu), (without_not _ _ Hnot). split.
    + eapply dseg_ext; [|exact Hp]. intros y Hy. apply Hout. intros Hy'. apply (Hd y); [done|].
      apply elem_of_app in Hy' as [?|?]; apply elem_of_app; [by left|right; by right].
    + done.
    + rewrite app_assoc in Hnd. rewrite <-Permutation_middle in Hnd. rewrite app_assoc.
      by apply list.NoDup_cons in Hnd as [].
    + rewrite Epn. rewrite decide_False; [done|]. intros [-> H]. by apply H.
    + rewrite Eun. clear Epn Eun. case_decide as H.
      * destruct H as [El _]. by rewrite El.
      * rewrite Eu. destruct l1; [|done]. by destruct H.
    + rewrite Ecn. apply Hcount. rewrite !length_app. cbn [length]. lia.
    + by rewrite (same_users_size _ _ Hsame).
Qed.

(** ** Any sequence of joins, promotions and departures *)

Fixpoint perform_ops (ops : list client_op) (c : client) : run client :=
  match ops with
  | [] => Run c
  | op :: ops => c ← perform_op op c; perform_ops ops c
  end.

Fixpoint permitted_all (ops : list client_op) (known : gset Z) (s : lists) : Prop :=
  match ops with
  | [] => True
  | op :: ops => permitted op known s ∧ permitted_all ops known (spec_op op s)
  end.

#[export] Instance permitted_all_dec ops known s : Decision (permitted_all ops known s).
Proof. revert s. induction ops as [|op ops IH]; intros s; cbn; apply _. Defined.

Definition new_client (users : gmap Z user_node) : client := mk_client None None None 0 false users.

Lemma same_users_dom m m' : same_users m m' → dom m' = dom m.
Proof.
  intros H. apply set_eq. intros x. rewrite !elem_of_dom.
  destruct (H x) as [E _]. destruct (m !! x), (m' !! x); cbn in E; try done; split; by intros [].
Qed.

(** C17. However users join, are promoted and leave, in any order: no pointer is followed that leads
    nowhere and no loop spins, the pointers implement two lists without a common member, which
    are those of the specification, and [connected_users] counts both; every user
    on them is visited once, and a lookup succeeds exactly for the full users. *)
Theorem client_users_refine users ops :
  Z.of_nat (size users) ≤ INT_MAX → permitted_all ops (dom users) ([], []) →
  ∃ c, let '(pending, full) := foldl (λ s op, spec_op op s) ([], []) ops in
    perform_ops ops (new_client users) = Run c ∧ NoDup (pending ++ full) ∧
    connected_users c = len (pending ++ full) ∧
    guac_client_foreach_pending_user c = Run pending ∧ guac_client_foreach_user c = Run full ∧
    (∀ user, guac_client_for_user user c = Run (if among user full then user else None)).
Proof.
  intros Hs.
  assert (H : ∀ ops c pending full, represents c pending full →
    permitted_all ops (dom (nodes c)) (pending, full) →
    ∃ c' s, foldl (λ s op, spec_op op s) (pending, full) ops = s ∧ perform_ops ops c = Run c' ∧
      represents c' (fst s) (snd s)).
  { clear. induction ops as [|op ops IH]; intros c pending full Hr Hp; [by exists c, (pending, full)|].
    destruct Hp as [Hop Hp]. cbn [foldl perform_ops].
    assert (Hstep : ∃ c', perform_op op c = Run c' ∧ represents c' (fst (spec_op op (pending, full)))
      (snd (spec_op op (pending, full))) ∧ same_users (nodes c) (nodes c')).
    { destruct op as [handler user|handler|user]; cbn [permitted fst snd] in Hop.
      - destruct Hop as [Hk Hn]. apply elem_of_dom in Hk. by apply add_user_ok.
      - by apply promote_ok.
      - by apply leave_ok. }
    destruct Hstep as (c1 & E1 & Hr1 & Hsame). rewrite E1, run_bind_run.
    destruct (spec_op op (pending, full)) as [pending1 full1] eqn:Espec. cbn [fst snd] in Hr1.
    apply (IH c1 pending1 full1 Hr1). by rewrite (same_users_dom _ _ Hsame). }
  intros Hp. destruct (H ops (new_client users) [] []) as (c & [pending full] & E & Ec & Hr);
    [split; [done|done|constructor|done|done|done|exact Hs]|exact Hp|]. exists c. rewrite E. cbn [fst snd] in Hr. split; [done|].
  split; [apply Hr|]. split; [apply Hr|]. pose proof (rep_fuel _ _ _ Hr) as Hf. rewrite length_app in Hf.
  split; [|split].
  - unfold guac_client_foreach_pending_user. rewrite (rep_head_pending _ _ _ Hr).
    apply (visit_dseg c None); [apply Hr|lia].
  - unfold guac_client_foreach_user. rewrite (rep_head_users _ _ _ Hr).
    apply (visit_dseg c None); [apply Hr|lia].
  - intros user. unfold guac_client_for_user. rewrite (rep_head_users _ _ _ Hr).
    rewrite (search_dseg c None); [done|apply Hr|lia].
Qed.

(** Freeing the client empties both lists. *)

Lemma leave_head user c pending users :
  represents c pending users → head (pending ++ users) = Some user →
  ∃ c', guac_client_remove_user user c = Run c' ∧ size (nodes c') = size (nodes c) ∧
    represents c' (drop 1 pending) (if pending is [] then drop 1 users else users).
Proof.
  intros Hr Hh. assert (Hin : user ∈ pending ++ users) by (destruct (pending ++ users); [done|]; injection Hh as ->; apply list_elem_of_here).
  destruct (leave_ok user c pending users Hr Hin) as (c' & E & Hr' & Hsame).
  exists c'. split; [exact E|]. split; [by apply same_users_size|]. cbn [fst snd spec_op] in Hr'.
  pose proof (rep_NoDup _ _ _ Hr) as Hnd.
  destruct pending as [|x pending]; cbn [app head] in Hh.
  - destruct users as [|x users]; [done|]. injection Hh as ->. cbn [app] in Hnd.
    pose proof (without_split user [] users Hnd) as Ew. cbn [app] in Ew. by rewrite Ew in Hr'.
  - injection Hh as ->. cbn [app] in Hnd. apply list.NoDup_cons in Hnd as [Hx Hnd].
    apply not_elem_of_app in Hx as [Hx Hx'].
    assert (Hnp : NoDup ([] ++ user :: pending))
      by (cbn; constructor; [done|]; by apply list.NoDup_app in Hnd as []).
    pose proof (without_split user [] pending Hnp) as Ew. cbn [app] in Ew.
    rewrite Ew, (without_not _ _ Hx') in Hr'. exact Hr'.
Qed.

Theorem free_users_empties c pending users :
  represents c pending users →
  ∃ c', guac_client_free_users c = Run c' ∧ represents c' [] [].
Proof.
  intros Hr. unfold guac_client_free_users.
  assert (H1 : ∀ fuel pending c, represents c pending users → (length pending ≤ fuel)%nat →
    ∃ c', remove_all fuel __pending_users c = Run c' ∧ represents c' [] users ∧
      size (nodes c') = size (nodes c)).
  { clear. induction fuel as [|fuel IH]; intros [|x pending] c Hr Hf; cbn [remove_all];
      rewrite (rep_head_pending _ _ _ Hr); cbn [head]; try (by exists c); [cbn in Hf; lia|].
    destruct (leave_head x c _ _ Hr eq_refl) as (c1 & E1 & Es & Hr1). rewrite E1, run_bind_run.
    cbn [length drop] in *. destruct (IH pending c1 Hr1 ltac:(lia)) as (c2 & E2 & Hr2 & Es2).
    exists c2. split; [done|]. split; [done|]. by rewrite Es2. }
  assert (H2 : ∀ fuel users c, represents c [] users → (length users ≤ fuel)%nat →
    ∃ c', remove_all fuel __users c = Run c' ∧ represents c' [] []).
  { clear. induction fuel as [|fuel IH]; intros [|x users] c Hr Hf; cbn [remove_all];
      rewrite (rep_head_users _ _ _ Hr); cbn [head]; try (by exists c); [cbn in Hf; lia|].
    destruct (leave_head x c _ _ Hr eq_refl) as (c1 & E1 & _ & Hr1). rewrite E1, run_bind_run.
    cbn [length drop] in *. apply (IH users c1 Hr1). lia. }
  pose proof (rep_fuel _ _ _ Hr) as Hf. rewrite length_app in Hf.
  destruct (H1 (fuel_of c) pending c Hr ltac:(lia)) as (c1 & E1 & Hr1 & Es). rewrite E1, run_bind_run.
  apply (H2 _ users c1 Hr1). unfold fuel_of in *. lia.
Qed.

Definition sample_users : gmap Z user_node :=
  list_to_map ((λ p, (p, mk_node None None (bool_decide (p = 1)) p)) <$> [1; 2; 3; 4]).

Definition sample_ops : list client_op :=
  [op_join None 1; op_join None 2; op_promote None; op_join (Some 0) 3; op_join (Some 1) 4; op_leave 2;
   op_promote (Some 1); op_join None 2].

Lemma client_users_refine_witness :
  ∃ c, perform_ops sample_ops (new_client sample_users) = Run c ∧ connected_users c = 3 ∧
    guac_client_foreach_pending_user c = Run [2; 3] ∧ guac_client_foreach_user c = Run [1] ∧
    guac_client_for_user (Some 3) c = Run None.
Proof.
  assert (Hp : permitted_all sample_ops (dom sample_users) ([], []))
    by (by apply (bool_decide_unpack _); vm_compute).
  pose proof (client_users_refine sample_users sample_ops ltac:(by vm_compute) Hp) as (c & H).
  replace (foldl _ _ _) with ([2; 3], [1]) in H by (by vm_compute).
  destruct H as (E & _ & Hc & Hpe & Hf & Hu). exists c. split; [exact E|]. split; [exact Hc|].
  split; [exact Hpe|]. split; [exact Hf|]. exact (Hu (Some 3)).
Defined.
