(* ===== verification/RwLock.v ===== *)
(** * Reentrant read-write locks (src/src/libguac/rwlock.c)

    A [pthread_rwlock_t] with a thread-local value, the key, that says how the
    thread holds the lock (lower four bits) and how often it has acquired it
    (the rest).  Only the thread itself writes its key, so a function is the
    sequence of pthread calls that the key makes it perform; the calls of all threads
    interleave.  A thread waits where the lock is taken; which of several waiting threads is
    admitted is left open.

    The machine also has what [client.c] does around its locks: a thread that loops
    while the client is running, a thread that stops the client and waits for
    another one. *)

From S2P Require Import Prelude Error.
From stdpp Require Import gmap relations.
Local Open Scope Z_scope.

Definition GUAC_REENTRANT_LOCK_NO_LOCK : Z := 0.
Definition GUAC_REENTRANT_LOCK_READ_LOCK : Z := 1.
Definition GUAC_REENTRANT_LOCK_WRITE_LOCK : Z := 2.
Definition UINTPTR_MAX : Z := 2 ^ 64 - 1.

Definition get_lock_flag (value : Z) : Z := Z.land value 0xF.
Definition get_lock_count (value : Z) : Z := Z.shiftr value 4.

Definition get_value_from_flag_and_count (flag count : Z) : Z :=
  Z.lor (Z.land flag 0xF) (u64 (Z.shiftl count 4)).

Definition would_overflow_count (current_count : Z) : bool := Z.shiftr UINTPTR_MAX 4 <=? current_count.

Inductive pthread_call :=
| Rdlock
| Wrlock
| Unlock
| Setspecific (value : Z).

(** The value returned, [guac_error] where it is set, and the calls. *)

Definition result : Type := Z * option guac_status * list pthread_call.

Definition guac_rwlock_acquire_write_lock (key_value : Z) : result :=
  let flag := get_lock_flag key_value in
  let count := get_lock_count key_value in
  if would_overflow_count count then (1, Some GUAC_STATUS_TOO_MANY, [])
  else if flag =? GUAC_REENTRANT_LOCK_WRITE_LOCK then
    (0, None, [Setspecific (get_value_from_flag_and_count flag (count + 1))])
  else
    (0, None,
     (if flag =? GUAC_REENTRANT_LOCK_READ_LOCK then [Unlock] else []) ++
     [Wrlock; Setspecific (get_value_from_flag_and_count GUAC_REENTRANT_LOCK_WRITE_LOCK (count + 1))]).

Definition guac_rwlock_acquire_read_lock (key_value : Z) : result :=
  let flag := get_lock_flag key_value in
  let count := get_lock_count key_value in
  if would_overflow_count count then (1, Some GUAC_STATUS_TOO_MANY, [])
  else if (flag =? GUAC_REENTRANT_LOCK_READ_LOCK) || (flag =? GUAC_REENTRANT_LOCK_WRITE_LOCK) then
    (0, None, [Setspecific (get_value_from_flag_and_count flag (count + 1))])
  else
    (0, None, [Rdlock; Setspecific (get_value_from_flag_and_count GUAC_REENTRANT_LOCK_READ_LOCK 1)]).

Definition guac_rwlock_release_lock (key_value : Z) : result :=
  let flag := get_lock_flag key_value in
  let count := get_lock_count key_value in
  if count <=? 0 then (1, Some GUAC_STATUS_INVALID_ARGUMENT, [])
  else if count =? 1 then
    (0, None, [Unlock; Setspecific (get_value_from_flag_and_count GUAC_REENTRANT_LOCK_NO_LOCK 0)])
  else (0, None, [Setspecific (get_value_from_flag_and_count flag (count - 1))]).

(** ** The machine *)

Inductive lock_operation := Acquire_write | Acquire_read | Release.

Definition lock_code (op : lock_operation) (key_value : Z) : result :=
  match op with
  | Acquire_write => guac_rwlock_acquire_write_lock key_value
  | Acquire_read => guac_rwlock_acquire_read_lock key_value
  | Release => guac_rwlock_release_lock key_value
  end.

Definition lock_id : Type := nat.
Definition thread_id : Type := nat.

Record pthread_rwlock := mk_rwlock { writer : option thread_id; readers : gset thread_id }.

(** What a thread does next: an operation on a lock, the wait for another thread's end
    ([pthread_join]), [guac_client_stop], a loop while the client is running. *)

Inductive action :=
| Do (op : lock_operation) (l : lock_id)
| Wait_for (u : thread_id)
| Stop
| While_running (body : list action).

Record thread := mk_thread {
  todo : lock_id * list pthread_call;       (* what is left of the operation in progress *)
  script : list action;
}.

Record machine := mk_machine {
  locks : lock_id → pthread_rwlock;
  keys : thread_id → lock_id → Z;
  threads : thread_id → thread;
  running : bool;                           (* client->state == GUAC_CLIENT_RUNNING *)
}.

Definition update {A} (f : nat → A) (k : nat) (v : A) : nat → A := λ k', if decide (k = k') then v else f k'.

Definition finished (th : thread) : Prop := snd (todo th) = [] ∧ script th = [].

Definition set_thread (t : thread_id) (th : thread) (m : machine) : machine :=
  mk_machine (locks m) (keys m) (update (threads m) t th) (running m).

Definition set_lock (l : lock_id) (rw : pthread_rwlock) (m : machine) : machine :=
  mk_machine (update (locks m) l rw) (keys m) (threads m) (running m).

Definition set_key (t : thread_id) (l : lock_id) (v : Z) (m : machine) : machine :=
  mk_machine (locks m) (update (keys m) t (update (keys m t) l v)) (threads m) (running m).

(** One call of pthread by thread [t]; [None] where it has to wait. Unlocking what is not held is
    undefined: [None], too ([rwlock_no_stuck_unlock] excludes it). *)

Definition pthread_rdlock (t : thread_id) (rw : pthread_rwlock) : option pthread_rwlock :=
  if decide (writer rw = None) then Some (mk_rwlock None ({[ t ]} ∪ readers rw)) else None.

Definition pthread_wrlock (t : thread_id) (rw : pthread_rwlock) : option pthread_rwlock :=
  if decide (writer rw = None ∧ readers rw = ∅) then Some (mk_rwlock (Some t) ∅) else None.

Definition pthread_unlock (t : thread_id) (rw : pthread_rwlock) : option pthread_rwlock :=
  if decide (writer rw = Some t) then Some (mk_rwlock None (readers rw))
  else if decide (t ∈ readers rw) then Some (mk_rwlock (writer rw) (readers rw ∖ {[ t ]}))
  else None.

Definition rwlock_call (t : thread_id) (c : pthread_call) (rw : pthread_rwlock) : option pthread_rwlock :=
  match c with
  | Rdlock => pthread_rdlock t rw
  | Wrlock => pthread_wrlock t rw
  | Unlock => pthread_unlock t rw
  | Setspecific _ => Some rw
  end.

Definition perform_call (t : thread_id) (l : lock_id) (c : pthread_call) (m : machine) : option machine :=
  match c with
  | Setspecific v => Some (set_key t l v m)
  | _ => rw ← rwlock_call t c (locks m l); Some (set_lock l rw m)
  end.

(** A step of thread [t], if it can make one. *)

Definition thread_step (t : thread_id) (m : machine) : option machine :=
  let th := threads m t in
  match snd (todo th) with
  | c :: rest =>
      m' ← perform_call t (fst (todo th)) c m;
      Some (set_thread t (mk_thread (fst (todo th), rest) (script th)) m')
  | [] =>
      match script th with
      | [] => None
      | Do op l :: s => Some (set_thread t (mk_thread (l, snd (lock_code op (keys m t l))) s) m)
      | Wait_for u :: s =>
          if decide (snd (todo (threads m u)) = []) then
            match script (threads m u) with
            | [] => Some (set_thread t (mk_thread (todo th) s) m)
            | _ => None
            end
          else None
      | Stop :: s =>
          Some (mk_machine (locks m) (keys m) (update (threads m) t (mk_thread (todo th) s)) false)
      | While_running body :: s =>
          Some (set_thread t
            (mk_thread (todo th) (if running m then body ++ While_running body :: s else s)) m)
      end
  end.

Definition machine_step (m m' : machine) : Prop := ∃ t, thread_step t m = Some m'.

Definition initial (scripts : thread_id → list action) : machine :=
  mk_machine (λ _, mk_rwlock None ∅) (λ _ _, 0) (λ t, mk_thread (0%nat, []) (scripts t)) true.

(** ** One thread

    How a thread holds a lock, how often, and the key that says so. *)

Inductive mode := Not_held | Reading | Writing.

#[export] Instance mode_eq_dec : EqDecision mode.
Proof. solve_decision. Defined.

Definition mode_flag (md : mode) : Z :=
  match md with
  | Not_held => GUAC_REENTRANT_LOCK_NO_LOCK
  | Reading => GUAC_REENTRANT_LOCK_READ_LOCK
  | Writing => GUAC_REENTRANT_LOCK_WRITE_LOCK
  end.

Definition MAX_DEPTH : Z := 2 ^ 60 - 1.

(** A lock that is held is held at least once. *)

Definition depth_ok (md : mode) (depth : Z) : Prop :=
  match md with Not_held => depth = 0 | _ => 1 ≤ depth ≤ MAX_DEPTH end.

Definition key_of (md : mode) (depth : Z) : Z := mode_flag md + 16 * depth.

Definition consistent (md : mode) (key : Z) : Prop := ∃ depth, depth_ok md depth ∧ key = key_of md depth.

(** The calls of a thread that nothing holds up. *)

Definition exec_call (c : pthread_call) (s : mode * Z) : option (mode * Z) :=
  let '(md, key) := s in
  match c, md with
  | Rdlock, Not_held => Some (Reading, key)
  | Wrlock, Not_held => Some (Writing, key)
  | Unlock, Reading | Unlock, Writing => Some (Not_held, key)
  | Setspecific v, _ => Some (md, v)
  | _, _ => None
  end.

Fixpoint exec_calls (cs : list pthread_call) (s : mode * Z) : option (mode * Z) :=
  match cs with
  | [] => Some s
  | c :: cs => s ← exec_call c s; exec_calls cs s
  end.

(** What a reentrant lock promises a thread: the value returned, and how it holds the lock. *)

Definition spec_lock (op : lock_operation) (md : mode) (depth : Z) : Z * (mode * Z) :=
  match op with
  | Acquire_write => if depth <? MAX_DEPTH then (0, (Writing, depth + 1)) else (1, (md, depth))
  | Acquire_read =>
      if depth <? MAX_DEPTH then (0, (if decide (md = Not_held) then Reading else md, depth + 1))
      else (1, (md, depth))
  | Release =>
      if depth =? 0 then (1, (md, depth))
      else (0, if depth =? 1 then (Not_held, 0) else (md, depth - 1))
  end.

Lemma key_parts md depth :
  depth_ok md depth →
  get_lock_flag (key_of md depth) = mode_flag md ∧ get_lock_count (key_of md depth) = depth.
Proof.
  intros Hd. assert (0 ≤ depth) by (destruct md; cbn in Hd; lia).
  assert (Hf : 0 ≤ mode_flag md < 16) by (by destruct md).
  unfold get_lock_flag, get_lock_count, key_of. split.
  - change 0xF with (Z.ones 4). rewrite Z.land_ones by lia. change (2 ^ 4) with 16.
    rewrite (Z.mul_comm 16), Z_mod_plus_full. by apply Z.mod_small.
  - rewrite Z.shiftr_div_pow2 by lia. change (2 ^ 4) with 16.
    rewrite (Z.mul_comm 16), Z.div_add by lia. rewrite Z.div_small by lia. lia.
Qed.

Lemma value_from md depth : 0 ≤ depth ≤ MAX_DEPTH →
  get_value_from_flag_and_count (mode_flag md) depth = key_of md depth.
Proof.
  intros Hd. unfold get_value_from_flag_and_count, key_of, MAX_DEPTH in *.
  rewrite u64_small by (rewrite Z.shiftl_mul_pow2 by lia; unfold is_u64; lia).
  replace (Z.land (mode_flag md) 15) with (mode_flag md) by (by destruct md).
  rewrite Z.lor_comm, lor_shiftl by (try lia; by destruct md). lia.
Qed.

Lemma overflow_max depth : would_overflow_count depth = negb (depth <? MAX_DEPTH).
Proof.
  unfold would_overflow_count. change (Z.shiftr UINTPTR_MAX 4) with MAX_DEPTH. by rewrite Z.leb_antisym.
Qed.

Lemma lock_code_ok op md depth :
  depth_ok md depth →
  let '(retval, _, calls) := lock_code op (key_of md depth) in
  let '(retval', (md', depth')) := spec_lock op md depth in
  retval = retval' ∧ exec_calls calls (md, key_of md depth) = Some (md', key_of md' depth') ∧
  depth_ok md' depth'.
Proof.
  intros Hd. destruct (key_parts md depth Hd) as [Hf Hc].
  assert (Hr : 0 ≤ depth ≤ MAX_DEPTH) by (destruct md; cbn in Hd; unfold MAX_DEPTH in *; lia).
  destruct op; cbn [lock_code spec_lock].
  - unfold guac_rwlock_acquire_write_lock. rewrite Hf, Hc, overflow_max.
    destruct (Z.ltb_spec depth MAX_DEPTH); cbn [negb]; [|done].
    pose proof (value_from Writing (depth + 1) ltac:(lia)) as Hv. cbn [mode_flag] in Hv.
    destruct md; cbn [mode_flag app]; cbn -[get_value_from_flag_and_count key_of]; rewrite Hv;
      (split; [done|split; [done|cbn; unfold MAX_DEPTH in *; lia]]).
  - unfold guac_rwlock_acquire_read_lock. rewrite Hf, Hc, overflow_max.
    destruct (Z.ltb_spec depth MAX_DEPTH); cbn [negb]; [|done].
    pose proof (value_from Reading (depth + 1) ltac:(lia)) as Hv1.
    pose proof (value_from Writing (depth + 1) ltac:(lia)) as Hv2. cbn [mode_flag] in Hv1, Hv2.
    destruct md; cbn -[get_value_from_flag_and_count key_of depth_ok].
    + cbn in Hd. subst depth. change (0 + 1) with 1 in Hv1 |- *. rewrite Hv1.
      split; [done|]. split; [done|]. by split; vm_compute.
    + rewrite Hv1. split; [done|split; [done|]]. rewrite decide_False by done. cbn [depth_ok]. lia.
    + rewrite Hv2. split; [done|split; [done|]]. rewrite decide_False by done. cbn [depth_ok]. lia.
  - unfold guac_rwlock_release_lock. rewrite Hf, Hc.
    destruct (Z.leb_spec depth 0), (Z.eqb_spec depth 0); try lia; [done|].
    pose proof (value_from Not_held 0 ltac:(by unfold MAX_DEPTH)) as Hv0. cbn [mode_flag] in Hv0.
    destruct (Z.eqb_spec depth 1).
    + rewrite Hv0. destruct md; [cbn in Hd; lia|..]; done.
    + rewrite (value_from md (depth - 1)) by lia. split; [done|]. split; [by destruct md|].
      destruct md; cbn in *; lia.
Qed.

(** C19. Each function, on the key that says how the thread holds the lock: it returns what a
    reentrant lock promises, performs calls that no thread alone is stopped at and that leave the
    lock held as promised (only the last release gives it up, the read lock is exchanged for the
    write lock, an acquisition that would overflow the counter and a release of what is not
    held do nothing and fail), and the key says so again. *)
Theorem lock_code_refines op md depth :
  depth_ok md depth →
  let '(retval, _, calls) := lock_code op (key_of md depth) in
  let '(retval', (md', depth')) := spec_lock op md depth in
  retval = retval' ∧ exec_calls calls (md, key_of md depth) = Some (md', key_of md' depth') ∧
  depth_ok md' depth'.
Proof. apply lock_code_ok. Qed.

Lemma lock_code_refines_witness :
  depth_ok Reading 1 ∧
  let '(retval, _, calls) := lock_code Acquire_write (key_of Reading 1) in
  retval = 0 ∧ calls = [Unlock; Wrlock; Setspecific 34] ∧
  exec_calls calls (Reading, key_of Reading 1) = Some (Writing, key_of Writing 2).
Proof.
  assert (Hd : depth_ok Reading 1) by (cbn; unfold MAX_DEPTH; lia). split; [exact Hd|].
  destruct (lock_code_refines Acquire_write Reading 1 Hd) as (Hr & He & _).
  split; [exact Hr|]. split; [vm_compute; reflexivity|exact He].
Defined.

Lemma lock_code_consistent op md key :
  consistent md key →
  ∃ md' key', exec_calls (snd (lock_code op key)) (md, key) = Some (md', key') ∧ consistent md' key'.
Proof.
  intros (depth & Hd & ->). pose proof (lock_code_ok op md depth Hd) as H.
  destruct (lock_code op (key_of md depth)) as [[retval e] calls]. destruct (spec_lock op md depth) as [? [md' depth']].
  destruct H as (_ & He & Hd'). exists md', (key_of md' depth'). split; [done|]. by exists depth'.
Qed.

(** ** All threads *)

Definition mode_of (t : thread_id) (rw : pthread_rwlock) : mode :=
  if decide (writer rw = Some t) then Writing
  else if decide (t ∈ readers rw) then Reading else Not_held.

(** What thread [t] still has to do to lock [l]. *)

Definition pending (t : thread_id) (l : lock_id) (m : machine) : list pthread_call :=
  if decide (fst (todo (threads m t)) = l) then snd (todo (threads m t)) else [].

Definition settles (cs : list pthread_call) (md : mode) (key : Z) : Prop :=
  ∃ md' key', exec_calls cs (md, key) = Some (md', key') ∧ consistent md' key'.

Definition machine_ok (m : machine) : Prop :=
  ∀ l, (writer (locks m l) ≠ None → readers (locks m l) = ∅) ∧
    ∀ t, settles (pending t l m) (mode_of t (locks m l)) (keys m t l).

Lemma update_eq {A} (f : nat → A) k v : update f k v k = v.
Proof. unfold update. by rewrite decide_True. Qed.

Lemma update_ne {A} (f : nat → A) k k' v : k ≠ k' → update f k v k' = f k'.
Proof. intros H. unfold update. by rewrite decide_False. Qed.

(** A call of one thread changes its own hold as [exec_call] says and no other one. *)

Local Ltac decide_modes :=
  repeat match goal with
  | |- context [decide ?P] => destruct (decide P); try done; try (exfalso; set_solver); try congruence
  | H : context [decide ?P] |- _ => destruct (decide P); try done; try congruence
  end.

Lemma rwlock_call_ok t c rw rw' md key md' key' :
  (writer rw ≠ None → readers rw = ∅) → rwlock_call t c rw = Some rw' →
  mode_of t rw = md → exec_call c (md, key) = Some (md', key') →
  (writer rw' ≠ None → readers rw' = ∅) ∧ mode_of t rw' = md' ∧
  ∀ u, u ≠ t → mode_of u rw' = mode_of u rw.
Proof.
  intros Hx E Hm He. subst md. destruct rw as [w rs]. cbn [writer readers] in *. unfold mode_of in *.
  cbn [writer readers] in *.
  destruct c; cbn [rwlock_call] in E.
  - unfold pthread_rdlock in E. cbn [writer readers] in E.
    destruct (decide (w = None)) as [->|]; [|done]. injection E as <-. cbn [writer readers] in *. split; [done|]. cbn [exec_call] in He. split.
    + decide_modes; by injection He as <- <-.
    + intros u Hu. decide_modes.
  - unfold pthread_wrlock in E. cbn [writer readers] in E.
    destruct (decide (w = None ∧ rs = ∅)) as [[-> ->]|]; [|done]. injection E as <-. cbn [writer readers] in *. split; [done|].
    cbn [exec_call] in He. split.
    + decide_modes; by injection He as <- <-.
    + intros u Hu. decide_modes.
  - unfold pthread_unlock in E. cbn [writer readers] in E. cbn [exec_call] in He.
    destruct (decide (w = Some t)) as [->|Hw].
    + injection E as <-. rewrite Hx by done. cbn [writer readers]. split; [done|]. split.
      * decide_modes; by injection He as <- <-.
      * intros u Hu. decide_modes.
    + destruct (decide (t ∈ rs)) as [Ht|]; [|done]. injection E as <-. cbn [writer readers].
      assert (w = None) as -> by (destruct w; [|done]; rewrite Hx in Ht by done; set_solver).
      split; [done|]. split.
      * decide_modes; by injection He as <- <-.
      * intros u Hu. decide_modes.
  - injection E as <-. split; [done|]. split; [|done]. cbn in He. by injection He as <- <-.
Qed.

(** The calls in progress lead to a consistent state, whoever is next. *)

Lemma settles_nil md key : settles [] md key ↔ consistent md key.
Proof.
  split; [|by exists md, key]. intros (md' & key' & E & Hc). by injection E as <- <-.
Qed.

Lemma initial_ok scripts : machine_ok (initial scripts).
Proof.
  intros l. split; [done|]. intros t. unfold pending. cbn. destruct (decide _);
    apply settles_nil; exists 0; (split; [|done]); done.
Qed.

(** Changes that concern the thread's program only. *)

Lemma set_thread_ok t th m :
  machine_ok m → (∀ l, settles (if decide (fst (todo th) = l) then snd (todo th) else [])
    (mode_of t (locks m l)) (keys m t l)) →
  machine_ok (set_thread t th m).
Proof.
  intros Hm Ht l. destruct (Hm l) as [Hx Hs]. split; [done|]. intros u. unfold pending.
  cbn [set_thread threads locks keys]. destruct (decide (t = u)) as [<-|Hne].
  - rewrite update_eq. apply Ht.
  - rewrite update_ne by done. apply (Hs u).
Qed.

Lemma perform_call_cases t l c m m' md key md' key' :
  perform_call t l c m = Some m' → exec_call c (md, key) = Some (md', key') →
  (∃ v, m' = set_key t l v m ∧ md' = md ∧ key' = v) ∨
  (∃ rw, rwlock_call t c (locks m l) = Some rw ∧ m' = set_lock l rw m ∧ key' = key).
Proof.
  intros E Ex. destruct c as [| | |v]; cbn [perform_call] in E;
    [right; destruct (rwlock_call _ _ _) as [rw|]; [|done]; injection E as <-; exists rw;
     split; [done|]; split; [done|]; destruct md; cbn in Ex; by simplify_eq..|].
  left. injection E as <-. injection Ex as <- <-. by exists v.
Qed.

Lemma call_ok t m l c rest s m' :
  machine_ok m → todo (threads m t) = (l, c :: rest) → perform_call t l c m = Some m' →
  machine_ok (set_thread t (mk_thread (l, rest) s) m').
Proof.
  intros Hm Htodo E. destruct (Hm l) as [Hx Hs].
  assert (Hother : ∀ l', l ≠ l' → consistent (mode_of t (locks m l')) (keys m t l')).
  { intros l' Hl. destruct (Hm l') as [_ Hs']. specialize (Hs' t). unfold pending in Hs'.
    rewrite Htodo in Hs'. cbn [fst] in Hs'. rewrite decide_False in Hs' by done. by apply settles_nil. }
  pose proof (Hs t) as Hst. unfold pending in Hst. rewrite Htodo in Hst. cbn [fst snd] in Hst.
  rewrite decide_True in Hst by done. destruct Hst as (md' & key' & Ex & Hc). cbn [exec_calls] in Ex.
  destruct (exec_call c (mode_of t (locks m l), keys m t l)) as [[md key]|] eqn:E1; [|done].
  cbn [mbind option_bind] in Ex.
  destruct (perform_call_cases _ _ _ _ _ _ _ _ _ E E1) as [(v & -> & -> & ->)|(rw & Erw & -> & ->)];
    intros l'; (split; [|intros u; unfold pending; cbn [set_thread set_key set_lock threads locks keys]]).
  - apply (Hm l').
  - destruct (decide (t = u)) as [<-|Hne].
    + rewrite !update_eq. cbn [fst snd todo]. destruct (decide (l = l')) as [<-|Hl].
      * rewrite update_eq. by exists md', key'.
      * rewrite update_ne by done. by apply settles_nil, Hother.
    + rewrite !update_ne by done. destruct (Hm l') as [_ Hs']. apply (Hs' u).
  - destruct (rwlock_call_ok t c _ _ _ _ _ _ Hx Erw eq_refl E1) as (Hx' & _).
    cbn [set_thread set_lock locks]. destruct (decide (l = l')) as [<-|Hl]; [by rewrite update_eq|].
    rewrite update_ne by done. apply (Hm l').
  - destruct (rwlock_call_ok t c _ _ _ _ _ _ Hx Erw eq_refl E1) as (_ & Hmode & Hsame).
    destruct (decide (t = u)) as [<-|Hne].
    + rewrite update_eq. cbn [fst snd todo]. destruct (decide (l = l')) as [<-|Hl].
      * rewrite update_eq, Hmode. by exists md', key'.
      * rewrite update_ne by done. by apply settles_nil, Hother.
    + rewrite update_ne by done. destruct (Hm l') as [_ Hs']. specialize (Hs' u). unfold pending in Hs'.
      destruct (decide (l = l')) as [<-|Hl]; [rewrite update_eq, Hsame by done; exact Hs'|].
      rewrite update_ne by done. exact Hs'.
Qed.

Lemma machine_step_ok m m' : machine_step m m' → machine_ok m → machine_ok m'.
Proof.
  intros [t E] Hm. unfold thread_step in E. destruct (threads m t) as [[l calls] s] eqn:Et. cbn [todo script fst snd] in E.
  assert (Hidle : calls = [] → ∀ l', consistent (mode_of t (locks m l')) (keys m t l')).
  { intros -> l'. destruct (Hm l') as [_ Hs]. specialize (Hs t). unfold pending in Hs. rewrite Et in Hs.
    cbn in Hs. apply settles_nil. by destruct (decide (l = l')). }
  assert (Hquiet : calls = [] → ∀ s', machine_ok (set_thread t (mk_thread (l, calls) s') m)).
  { intros -> s'. apply set_thread_ok; [done|]. intros l'. cbn [fst snd todo].
    destruct (decide (l = l')); by apply settles_nil, Hidle. }
  destruct calls as [|c rest].
  - specialize (Hidle eq_refl). specialize (Hquiet eq_refl). destruct s as [|[op l1|u| |body] s]; [done|..].
    + injection E as <-. apply set_thread_ok; [done|]. intros l'. cbn [fst snd todo].
      destruct (decide (l1 = l')) as [<-|]; [by apply lock_code_consistent|by apply settles_nil].
    + destruct (decide _); [|done]. destruct (script (threads m u)); [|done]. injection E as <-. apply Hquiet.
    + injection E as <-. apply (Hquiet s).
    + injection E as <-. apply Hquiet.
  - destruct (perform_call t l c m) as [m1|] eqn:Ec; [|done]. cbn in E. injection E as <-.
    apply (call_ok t m l c); [done| |done]. by rewrite Et.
Qed.

(** C18. Whatever threads do with their locks, at any moment and whoever is stopped where: a thread
    between two operations holds a lock exactly as its key says, alone if it holds the write lock,
    with no writer beside it if it holds the read lock, and no thread is ever about to give up what it
    does not hold. *)
Theorem rwlock_exclusion scripts m t l :
  rtc machine_step (initial scripts) m →
  (snd (todo (threads m t)) = [] →
   match get_lock_flag (keys m t l) with
   | 0 => writer (locks m l) ≠ Some t ∧ (t ∉ readers (locks m l)) ∧ get_lock_count (keys m t l) = 0
   | 1 => writer (locks m l) = None ∧ t ∈ readers (locks m l) ∧ 0 < get_lock_count (keys m t l)
   | _ => writer (locks m l) = Some t ∧ readers (locks m l) = ∅ ∧ 0 < get_lock_count (keys m t l)
   end) ∧
  (∀ rest, todo (threads m t) = (l, Unlock :: rest) → is_Some (pthread_unlock t (locks m l))).
Proof.
  intros Hr. assert (Hm : machine_ok m).
  { eapply (rtc_ind_r machine_ok); [apply initial_ok|intros y z _ Hs; by apply machine_step_ok|exact Hr]. }
  destruct (Hm l) as [Hx Hs]. specialize (Hs t). unfold pending in Hs. split.
  - intros Hidle. rewrite Hidle in Hs. assert (Hc : consistent (mode_of t (locks m l)) (keys m t l)).
    { apply settles_nil. by destruct (decide _). }
    destruct Hc as (depth & Hd & ->). destruct (key_parts _ _ Hd) as [-> ->].
    unfold mode_of in *. destruct (decide (writer (locks m l) = Some t)) as [Hw|Hw].
    + cbn in Hd. cbn. split; [done|]. split; [apply Hx; by rewrite Hw|lia].
    + destruct (decide (t ∈ readers (locks m l))) as [Ht|Ht]; cbn in Hd; cbn.
      * split; [|split; [done|lia]]. destruct (writer (locks m l)) eqn:Ew; [|done].
        rewrite Hx in Ht by done. by apply elem_of_empty in Ht.
      * done.
  - intros rest Htodo. rewrite Htodo in Hs. cbn [fst snd] in Hs. rewrite decide_True in Hs by done.
    destruct Hs as (md' & key' & Ex & _). unfold pthread_unlock. unfold mode_of in Ex.
    destruct (decide (writer _ = Some t)); [by eexists|].
    destruct (decide (t ∈ readers _)); [by eexists|]. done.
Qed.

(** ** Schedules *)

Fixpoint run_schedule (schedule : list thread_id) (m : machine) : option machine :=
  match schedule with
  | [] => Some m
  | t :: schedule => m ← thread_step t m; run_schedule schedule m
  end.

Lemma run_schedule_steps schedule m m' : run_schedule schedule m = Some m' → rtc machine_step m m'.
Proof.
  revert m. induction schedule as [|t schedule IH]; intros m E; cbn in E; [by injection E as <-|].
  destruct (thread_step t m) as [m1|] eqn:E1; [|done]. eapply rtc_l; [by exists t|by apply IH].
Qed.

Lemma thread_step_other t u m m' : thread_step t m = Some m' → u ≠ t → threads m' u = threads m u.
Proof.
  intros E Hu. unfold thread_step in E. destruct (snd (todo (threads m t))) as [|c rest].
  - destruct (script (threads m t)) as [|[op l|v| |body] s]; [done|..].
    + injection E as <-. cbn. by apply update_ne.
    + destruct (decide _); [|done]. destruct (script _); [|done]. injection E as <-. cbn. by apply update_ne.
    + injection E as <-. cbn. by apply update_ne.
    + injection E as <-. cbn. by apply update_ne.
  - destruct (perform_call _ _ _ m) as [m1|] eqn:Ec; [|done]. cbn in E. injection E as <-. cbn.
    rewrite update_ne by done. destruct c; cbn [perform_call] in Ec;
      try (destruct (rwlock_call _ _ _); cbn in Ec; [|done]); by injection Ec as <-.
Qed.

Lemma run_schedule_other schedule u m m' :
  run_schedule schedule m = Some m' → u ∉ schedule → threads m' u = threads m u.
Proof.
  revert m. induction schedule as [|t schedule IH]; intros m E Hu; cbn in E; [by injection E as <-|].
  apply not_elem_of_cons in Hu as [Hut Hu]. destruct (thread_step t m) as [m1|] eqn:E1; [|done].
  rewrite (IH m1 E Hu). by apply (thread_step_other t).
Qed.

(** Two readers, one of which becomes the writer once the other has left. *)

Definition sample_scripts (t : thread_id) : list action :=
  match t with
  | 1%nat => [Do Acquire_read 0%nat; Do Acquire_write 0%nat]
  | 2%nat => [Do Acquire_read 0%nat; Do Release 0%nat]
  | _ => []
  end.

Lemma rwlock_exclusion_witness :
  ∃ m, rtc machine_step (initial sample_scripts) m ∧ keys m 1%nat 0%nat = 34 ∧
    writer (locks m 0%nat) = Some 1%nat ∧ readers (locks m 0%nat) = ∅.
Proof.
  pose (schedule := [1; 1; 1; 2; 2; 2; 1; 1; 2; 2; 2; 1; 1]%nat).
  assert (Hm : ∃ m, run_schedule schedule (initial sample_scripts) = Some m ∧
    snd (todo (threads m 1%nat)) = [] ∧ keys m 1%nat 0%nat = 34).
  { eexists. split; [vm_compute; reflexivity|]. split; reflexivity. }
  destruct Hm as (m & E & Hidle & Hk). exists m. pose proof (run_schedule_steps _ _ _ E) as Hr.
  pose proof (proj1 (rwlock_exclusion sample_scripts m 1%nat 0%nat Hr) Hidle) as H. rewrite Hk in H.
  cbn in H. destruct H as (Hw & Hrd & _). split; [exact Hr|]. split; [exact Hk|]. split; [exact Hw|exact Hrd].
Defined.
