(* ===== verification/ClientLocks.v ===== *)
(** * The end of a client (src/src/libguac/client.c, its locks)

    The locks that [guac_client_free] and the thread that promotes pending users
    take, as programs of the machine of [RwLock]: thread 1 frees the client, thread 2 is
    the one it waits for.  The client has no users left, so the loops of
    [guac_client_free] have nothing to remove. *)

From S2P Require Import Prelude RwLock.
From stdpp Require Import gmap relations.
Local Open Scope Z_scope.

Definition pending_users_lock : lock_id := 0%nat.
Definition users_lock : lock_id := 1%nat.

(** With pending users, whose join handler succeeds, or without. *)

Definition guac_client_promote_pending_users_locks (any : bool) : list action :=
  [Do Acquire_write pending_users_lock] ++
  (if any then [Do Acquire_write users_lock; Do Release users_lock] else []) ++
  [Do Release pending_users_lock].

Definition guac_client_pending_users_thread (any : bool) : list action :=
  [While_running (guac_client_promote_pending_users_locks any)].

Definition guac_client_free_locks (pending_users_thread : thread_id) : list action :=
  [Stop; Do Acquire_write pending_users_lock; Do Acquire_write users_lock; Wait_for pending_users_thread;
   Do Release users_lock; Do Release pending_users_lock].

Definition client_threads (any : bool) (t : thread_id) : list action :=
  match t with
  | 1%nat => guac_client_free_locks 2%nat
  | 2%nat => guac_client_pending_users_thread any
  | _ => []
  end.

(** C25. Freeing a client can block for ever: when the thread of the pending users has seen the client
    running before it is stopped, it waits for the lock that the freeing thread holds while
    that thread waits for its end.  No thread can make a step. *)
Theorem client_free_deadlocks any :
  ∃ m, rtc machine_step (initial (client_threads any)) m ∧ (∀ m', ¬ machine_step m m') ∧
    script (threads m 1%nat) ≠ [] ∧ script (threads m 2%nat) ≠ [] ∧ running m = false.
Proof.
  pose (schedule := [2; 1; 1; 1; 1; 1; 1; 1; 2]%nat).
  assert (Hm : ∃ m, run_schedule schedule (initial (client_threads any)) = Some m ∧
    thread_step 1%nat m = None ∧ thread_step 2%nat m = None ∧
    script (threads m 1%nat) ≠ [] ∧ script (threads m 2%nat) ≠ [] ∧ running m = false).
  { destruct any; (eexists; split; [vm_compute; reflexivity|]; repeat split; by vm_compute). }
  destruct Hm as (m & E & H1 & H2 & Hrest). exists m. split; [by apply (run_schedule_steps schedule)|].
  split; [|done]. intros m' [t Et].
  destruct (decide (t = 1%nat)) as [->|Hn1]; [by rewrite H1 in Et|].
  destruct (decide (t = 2%nat)) as [->|Hn2]; [by rewrite H2 in Et|].
  assert (Hidle : threads m t = mk_thread (0%nat, []) (client_threads any t)).
  { rewrite (run_schedule_other schedule t _ _ E); [done|].
    unfold schedule. rewrite !not_elem_of_cons, elem_of_nil. naive_solver. }
  unfold thread_step in Et. rewrite Hidle in Et. cbn [todo script snd] in Et.
  destruct t as [|[|[|t]]]; done.
Qed.
