(* ===== verification/UserArgs.v ===== *)
(** * What a user supports and is configured with (src/src/libguac/user.c, client.c)

    The parameters of a connection, given as strings, as strings, integers and
    booleans with a default; the protocol features a user or the owner of a
    connection supports, and what the owner is told of other users. *)

From S2P Require Import Prelude RecordUpdate CFormat CString CNumbers Mem Run ProtocolTypes.
From S2P Require Import Protocol Streams UserInput UserInputSpec Handshake HandshakeSpec.
Local Open Scope Z_scope.

(** ** Parameters *)

(** The copy of the string; [None] for [NULL]. *)

Definition guac_user_parse_args_string (argv : list (list byte)) (index : nat)
    (default_value : option (list byte)) : run (option (list byte)) :=
  value ← deref (argv !! index);
  Run (match value with [] => default_value | _ => Some value end).

Definition INT_MIN : Z := - 2 ^ 31.

Definition guac_user_parse_args_int (argv : list (list byte)) (index : nat) (default_value : Z) : run Z :=
  value ← deref (argv !! index);
  match value with
  | [] => Run default_value
  | _ =>
      let '(parsed_value, parse_end, erange) := strtol value in
      let erange := erange || (parsed_value <? INT_MIN) || (INT_MAX <? parsed_value) in
      if erange || (parse_end <? length value)%nat then Run default_value else Run parsed_value
  end.

Definition guac_user_parse_args_boolean (argv : list (list byte)) (index : nat) (default_value : Z) : run Z :=
  value ← deref (argv !! index);
  match value with
  | [] => Run default_value
  | _ =>
      if decide (value = lit "true") then Run 1
      else if decide (value = lit "false") then Run 0
      else Run default_value
  end.

(** ** Features *)

Definition supports_since (version : guac_protocol_version) (user : option guac_user) : bool :=
  match user with
  | None => false
  | Some u => guac_protocol_version_value version <=? guac_protocol_version_value (protocol_version (info u))
  end.

Definition guac_user_supports_msg (user : option guac_user) : bool :=
  supports_since GUAC_PROTOCOL_VERSION_1_5_0 user.

Definition guac_user_supports_required (user : option guac_user) : bool :=
  supports_since GUAC_PROTOCOL_VERSION_1_3_0 user.

(** Built with WebP: the mimetypes of the user's images are searched, even where there are none. *)

Definition guac_user_supports_webp (u : guac_user) : run bool :=
  mimetypes ← deref (image_mimetypes (info u));
  Run (existsb (λ m, bool_decide (snd m = lit "image/webp")) (snd mimetypes)).

Fixpoint guac_client_supports_webp_loop (users : list guac_user) (webp_supported : bool) : run bool :=
  match users with
  | [] => Run webp_supported
  | u :: users =>
      webp_supported ← (if webp_supported then guac_user_supports_webp u else Run false);
      guac_client_supports_webp_loop users webp_supported
  end.

Definition guac_client_supports_webp (users : list guac_user) : run bool :=
  guac_client_supports_webp_loop users true.

(** ** The owner *)

(** What is sent to the owner's socket, [None] where -1 is returned instead. *)

Definition user_name (u : guac_user) : list byte :=
  match name (info u) with Some (_, s) => s | None => [] end.

Definition guac_client_owner_send_required (owner : option guac_user) (required : list (list byte))
    : option (list (list byte)) :=
  if guac_user_supports_required owner then
    match owner with Some _ => Some required | None => None end
  else None.

(** [joiner] and [quitter] come with their identifiers. *)

Definition owner_notify (message : guac_message_type) (owner : option guac_user)
    (user_id : list byte) (user : guac_user) : option (guac_message_type * list (list byte)) :=
  if guac_user_supports_msg owner then
    match owner with Some _ => Some (message, [user_id; user_name user]) | None => None end
  else None.

Definition guac_client_owner_notify_join := owner_notify GUAC_MESSAGE_USER_JOINED.
Definition guac_client_owner_notify_leave := owner_notify GUAC_MESSAGE_USER_LEFT.

(** ** Properties *)

Lemma parse_args_int_range argv index d v :
  is_i32 d → guac_user_parse_args_int argv index d = Run v → is_i32 v.
Proof.
  intros Hd. unfold guac_user_parse_args_int. destruct (argv !! index) as [[|c value]|]; cbn [deref]; [| |done];
    rewrite run_bind_run; [by intros [= <-]|].
  destruct (strtol (c :: value)) as [[p e] r]. unfold INT_MIN, INT_MAX.
  destruct (r || _ || _) eqn:E; cbn [orb]; [by intros [= <-]|].
  destruct (e <? _)%nat; [by intros [= <-]|]. intros [= <-].
  apply orb_false_iff in E as [[_ ?%Z.ltb_ge]%orb_false_iff ?%Z.ltb_ge]. unfold is_i32. lia.
Qed.

Lemma span_stop p s c r : Forall (λ c, p c = true) s → p c = false → span_length p (s ++ c :: r) = length s.
Proof. intros Hs Hc. induction Hs as [|x s Hx _ IH]; cbn; [by rewrite Hc|]. by rewrite Hx, IH. Qed.

(** A number in decimal is read as it is when an [int] can hold it, and is the default otherwise. *)

Lemma int_parameter_reads argv index d n :
  is_i64 n → argv !! index = Some (fmt_d n) →
  guac_user_parse_args_int argv index d = Run (if bool_decide (INT_MIN ≤ n ≤ INT_MAX) then n else d).
Proof.
  intros Hn E. unfold guac_user_parse_args_int. rewrite E. cbn [deref]. rewrite run_bind_run.
  rewrite strtol_fmt_d by done. cbn [orb]. rewrite Nat.ltb_irrefl, orb_false_r.
  destruct (fmt_d n) as [|c v] eqn:Ev.
  { assert (Hl : length (fmt_d n) = 0%nat) by (by rewrite Ev). exfalso. revert Hl. unfold fmt_d.
    destruct (n <? 0); [done|]. pose proof (dec_nonempty n). by destruct (dec n). }
  case_bool_decide as Hr.
  - by rewrite (proj2 (Z.ltb_ge n INT_MIN)), (proj2 (Z.ltb_ge INT_MAX n)) by lia.
  - destruct (Z.ltb_spec n INT_MIN); [done|]. destruct (Z.ltb_spec INT_MAX n); [done|lia].
Qed.

(** An integer parameter: blank is the default, a number in decimal is read as it is if an
    [int] can hold it and is the default if not, and digits followed by anything else are the
    default; the result is always an [int]. *)
Theorem int_parameter argv index d :
  is_i32 d → (index < length argv)%nat →
  ∃ value v, argv !! index = Some value ∧ guac_user_parse_args_int argv index d = Run v ∧ is_i32 v ∧
    (value = [] → v = d) ∧
    (∀ n, is_i64 n → value = fmt_d n → v = if bool_decide (INT_MIN ≤ n ≤ INT_MAX) then n else d) ∧
    (∀ digits c rest, digits ≠ [] → Forall (λ c, is_digit c = true) digits → is_digit c = false →
       value = digits ++ c :: rest → v = d).
Proof.
  intros Hd Hi. destruct (lookup_lt_is_Some_2 argv index Hi) as [value E].
  assert (Hrun : ∃ v, guac_user_parse_args_int argv index d = Run v).
  { unfold guac_user_parse_args_int. rewrite E. cbn [deref]. rewrite run_bind_run.
    destruct value as [|c value]; [by eexists|]. destruct (strtol (c :: value)) as [[p e] r].
    destruct (_ || _); by eexists. }
  destruct Hrun as [v Hv]. exists value, v. split; [done|]. split; [done|].
  split; [by apply (parse_args_int_range argv index d)|]. split; [|split].
  - intros ->. unfold guac_user_parse_args_int in Hv. rewrite E in Hv. by injection Hv.
  - intros n Hn ->. rewrite (int_parameter_reads argv index d n Hn E) in Hv. by injection Hv.
  - intros digits c rest Hne Hds Hc ->. unfold guac_user_parse_args_int in Hv. rewrite E in Hv.
    cbn [deref] in Hv. rewrite run_bind_run in Hv. destruct digits as [|c0 digits]; [done|].
    cbn [app] in Hv. unfold strtol in Hv. inversion Hds as [|? ? Hc0 Hds']; subst.
    destruct (digit_not_special c0 Hc0) as (Hsp & Hsign & Hminus).
    cbn [span_length] in Hv. rewrite Hsp in Hv. cbn [drop] in Hv.
    rewrite decide_False, Hminus in Hv by done. cbn [drop] in Hv.
    change (c0 :: digits ++ c :: rest) with ((c0 :: digits) ++ c :: rest) in Hv.
    rewrite (span_stop is_digit (c0 :: digits) c rest Hds Hc) in Hv. cbn [length Nat.eqb] in Hv.
    assert (Hlt : (0 + 0 + length (c0 :: digits) <? length ((c0 :: digits) ++ c :: rest))%nat = true).
    { apply Nat.ltb_lt. rewrite length_app. cbn. lia. }
    cbn [length] in Hlt. cbn [length] in Hv.
    destruct (LONG_MAX <? _); [|destruct (_ <? LONG_MIN)]; cbn [orb] in Hv; [by injection Hv..|].
    rewrite Hlt, orb_true_r in Hv. by injection Hv.
Qed.

Lemma int_parameter_witness :
  guac_user_parse_args_int [lit "22"; lit "2x"; lit "4294967318"] 0 7 = Run 22 ∧
  guac_user_parse_args_int [lit "22"; lit "2x"; lit "4294967318"] 1 7 = Run 7.
Proof.
  pose (argv := [lit "22"; lit "2x"; lit "4294967318"]).
  destruct (int_parameter argv 0 7 ltac:(done) ltac:(cbn; lia)) as (v0 & r0 & E0 & H0 & _ & _ & Hn & _).
  destruct (int_parameter argv 1 7 ltac:(done) ltac:(cbn; lia)) as (v1 & r1 & E1 & H1 & _ & _ & _ & Hd).
  injection E0 as <-. injection E1 as <-.
  assert (r0 = 22) as -> by (exact (Hn 22 ltac:(done) ltac:(by vm_compute))).
  assert (r1 = 7) as -> by (exact (Hd [x32] x78 [] ltac:(done) ltac:(by repeat constructor) eq_refl eq_refl)).
  split; [exact H0|exact H1].
Defined.

(** A user that announces no list of image formats crashes the search for one. *)

Lemma negotiated_image pre n :
  Forall (λ i : Z * received, fst (snd i) ≠ lit "image") pre →
  image (foldl (λ n i, negotiate (snd i) n) n pre) = image n.
Proof.
  intros Hp. revert n. induction Hp as [|[now [opcode argv]] pre Hi Hp IH]; intros n; [done|].
  cbn [foldl]. rewrite IH. cbn [fst snd] in *. unfold negotiate. destruct n.
  repeat (case_decide; [done|]). done.
Qed.

(** A connection whose handshake has no [image] instruction leaves the user without a list of image
    formats; asking whether that user supports WebP then follows a null pointer. *)
Theorem webp_needs_image parser pre rest now argv u h user :
  Forall acceptable pre → heap_ok h → Forall (λ i, fst (snd i) ≠ lit "image") pre →
  ∃ u' h', __guac_user_handshake parser (pre ++ (now, (lit "connect", argv)) :: rest) (cleared_info u) h
      = Run (Connected argv rest u' h') ∧
    guac_client_supports_webp [user <| info := u' |>] = Fault.
Proof.
  intros Hp Hok Hi.
  destruct (handshake_accepts parser pre (cleared_info u) h (live h) Hp Hok) as (u' & h' & E & _ & _ & Hv);
    [by destruct u|].
  exists u', h'. split; [rewrite E; cbn [__guac_user_handshake]; by rewrite decide_True|].
  apply (f_equal image) in Hv. rewrite negotiated_image in Hv by done.
  unfold guac_client_supports_webp. cbn [guac_client_supports_webp_loop].
  unfold guac_user_supports_webp. change (info (user <| info := u' |>)) with u'.
  assert (Hnone : strings (image_mimetypes u') = None) by (transitivity (image (view u')); [done|]; rewrite Hv; by destruct u).
  by destruct (image_mimetypes u') as [[array copies]|].
Qed.

Lemma webp_needs_image_witness :
  ∃ u h, __guac_user_handshake 50 [(0, (lit "size", [lit "800"; lit "600"])); (0, (lit "connect", []))]
      (cleared_info sample_info) sample_heap = Run (Connected [] [] u h) ∧
    guac_client_supports_webp [sample_user <| info := u |>] = Fault.
Proof.
  pose (pre := [(0, (lit "size", [lit "800"; lit "600"]))] : list (Z * received)).
  assert (Hp : Forall acceptable pre) by (by apply (bool_decide_unpack _); vm_compute).
  assert (Hi : Forall (λ i : Z * received, fst (snd i) ≠ lit "image") pre) by (by repeat constructor).
  exact (webp_needs_image 50 pre [] 0 [] sample_info sample_heap sample_user Hp sample_heap_ok Hi).
Defined.
