(* ===== verification/Display.v ===== *)
(** * Displays and their layers (src/src/libguac/display-priv.h, display-layer.c, display-layer-list.c)

    A display keeps, for every layer, the frame that the users see ([last_frame]) and the
    one being drawn ([pending_frame]), each with a buffer of 32-bit pixels.

    A buffer is the list of its words, a pointer into it a byte offset: to follow one
    outside its buffer, or one that is not aligned, is a fault.  The linked lists of
    layers are lists; [listed] says whether a layer is on the list of the last frame as well.  The
    functions hold the lock of the frame they change from their first access to
    their last ([RwLock]).  Cairo draws into the buffer and is left out. *)

From S2P Require Import Prelude RecordUpdate Mem Run Rect.
Local Open Scope Z_scope.

Definition GUAC_DISPLAY_MAX_WIDTH : Z := 8192.
Definition GUAC_DISPLAY_MAX_HEIGHT : Z := 8192.
Definition GUAC_DISPLAY_CELL_SIZE : Z := 64.
Definition GUAC_DISPLAY_CELL_SIZE_EXPONENT : Z := 6.
Definition GUAC_DISPLAY_RESIZE_FACTOR : Z := 64.
Definition GUAC_DISPLAY_LAYER_RAW_BPP : Z := 4.

Definition GUAC_DISPLAY_CELL_DIMENSION (pixels : Z) : Z :=
  Z.quot (pixels + GUAC_DISPLAY_CELL_SIZE - 1) GUAC_DISPLAY_CELL_SIZE.

(** ** Memory *)

Definition word_at (b : list Z) (p : Z) : run Z :=
  if (p <? 0) || negb (p mod 4 =? 0) then Fault else deref (b !! Z.to_nat (p / 4)).

Definition put_word (b : list Z) (p v : Z) : run (list Z) :=
  _ ← word_at b p; Run (<[Z.to_nat (p / 4) := v]> b).

Definition GUAC_RECT_BUFFER (rect : guac_rect) (stride bpp : Z) : run Z :=
  y ← or_abort (PRIV_guac_mem_ckd_mul_or_die [u64 (top rect); stride]);
  x ← or_abort (PRIV_guac_mem_ckd_mul_or_die [u64 (left rect); bpp]);
  Run (y + x).

(** [memcpy] and [memcmp] of a number of words. *)

Definition copy_words (n : Z) (dst : list Z) (p : Z) (src : list Z) (q : Z) : run (list Z) :=
  for_range 0 (n - 1) (λ i dst, w ← word_at src (q + 4 * i); put_word dst (p + 4 * i) w) dst.

Fixpoint words_equal (n : nat) (a : list Z) (p : Z) (b : list Z) (q : Z) : run bool :=
  match n with
  | O => Run true
  | S n =>
      v ← word_at a p; w ← word_at b q;
      if v =? w then words_equal n a (p + 4) b (q + 4) else Run false
  end.

(** ** Data *)

(** [related_op] is the place of the operation in the plan. *)

Record guac_display_layer_cell := mk_cell {
  cell_last_frame : Z;
  cell_dirty : guac_rect;
  cell_dirty_size : Z;
  related_op : option nat;
}.

Definition no_rect : guac_rect := mk_guac_rect 0 0 0 0.
Definition zero_cell : guac_display_layer_cell := mk_cell 0 no_rect 0 None.

#[export] Instance eta_cell : Eta guac_display_layer_cell :=
  λ c, mk_cell (cell_last_frame c) (cell_dirty c) (cell_dirty_size c) (related_op c).

(** [buffer]: [None] is [NULL]. *)

Record guac_display_layer_state := mk_layer_state {
  width : Z; height : Z;
  parent : Z; layer_x : Z; layer_y : Z; layer_z : Z;
  opacity : Z; touches : Z; lossless : Z;
  buffer : option (list Z);
  buffer_width : Z; buffer_height : Z; buffer_stride : Z;
  buffer_is_external : bool;
  dirty : guac_rect;
  search_for_copies : bool;
}.

#[export] Instance eta_layer_state : Eta guac_display_layer_state :=
  λ s, mk_layer_state (width s) (height s) (parent s) (layer_x s) (layer_y s) (layer_z s)
    (opacity s) (touches s) (lossless s) (buffer s) (buffer_width s) (buffer_height s)
    (buffer_stride s) (buffer_is_external s) (dirty s) (search_for_copies s).

Record guac_display_layer := mk_display_layer {
  layer_index : Z;
  opaque : bool;
  last_frame : guac_display_layer_state;
  last_frame_buffer : Z;
  pending_frame : guac_display_layer_state;
  pending_frame_cells : list guac_display_layer_cell;
  pending_frame_cells_width : Z;
  pending_frame_cells_height : Z;
  listed : bool;
}.

#[export] Instance eta_display_layer : Eta guac_display_layer :=
  λ l, mk_display_layer (layer_index l) (opaque l) (last_frame l) (last_frame_buffer l)
    (pending_frame l) (pending_frame_cells l) (pending_frame_cells_width l)
    (pending_frame_cells_height l) (listed l).

Record guac_display_state := mk_display_state {
  timestamp : Z;
  cursor_hotspot_x : Z; cursor_hotspot_y : Z;
  cursor_user : option Z;
  cursor_x : Z; cursor_y : Z; cursor_mask : Z;
  frames : Z;
}.

#[export] Instance eta_display_state : Eta guac_display_state :=
  λ s, mk_display_state (timestamp s) (cursor_hotspot_x s) (cursor_hotspot_y s) (cursor_user s)
    (cursor_x s) (cursor_y s) (cursor_mask s) (frames s).

(** [layers] is the list of the pending frame; [busy]: the workers still have operations. *)

Record guac_display := mk_display {
  layers : list guac_display_layer;
  last_state : guac_display_state;
  pending_state : guac_display_state;
  pending_frame_dirty_excluding_mouse : bool;
  busy : bool;
  frame_deferred : bool;
}.

#[export] Instance eta_display : Eta guac_display :=
  λ d, mk_display (layers d) (last_state d) (pending_state d)
    (pending_frame_dirty_excluding_mouse d) (busy d) (frame_deferred d).

(** ** Resizing *)

(** A pixel is a word. *)

Definition guac_imgcpy (dst : list Z) (dst_stride dst_width dst_height : Z)
    (src : list Z) (src_stride src_width src_height : Z) : run (list Z) :=
  let width := if src_width <? dst_width then src_width else dst_width in
  let height := if src_height <? dst_height then src_height else dst_height in
  GUAC_ASSERT (0 <=? width);;
  GUAC_ASSERT (0 <=? height);;
  for_range 0 (height - 1) (λ i dst, copy_words width dst (i * dst_stride) src (i * src_stride)) dst.

Definition round_dimension (pixels : Z) : Z :=
  Z.quot (pixels + GUAC_DISPLAY_RESIZE_FACTOR - 1) GUAC_DISPLAY_RESIZE_FACTOR
    * GUAC_DISPLAY_RESIZE_FACTOR.

(** The stride of Cairo for 32-bit pixels is four bytes a pixel.  [guac_mem_zalloc] of a size that is
    not a [size_t] is [NULL], which is then written to. *)

Definition zalloc_words (height stride : Z) : run (list Z) :=
  match PRIV_guac_mem_ckd_mul [u64 height; u64 stride] with
  | Some size => Run (replicate (Z.to_nat (size / 4)) 0)
  | None => Fault
  end.

Definition XFW_guac_display_layer_buffer_resize (frame_state : guac_display_layer_state)
    (new_width new_height : Z) : run guac_display_layer_state :=
  GUAC_ASSERT (negb (buffer_is_external frame_state));;
  let width := round_dimension new_width in
  let height := round_dimension new_height in
  if (width =? buffer_width frame_state) && (height =? buffer_height frame_state)
  then Run frame_state
  else
    let stride := 4 * width in
    new_buffer ← zalloc_words height stride;
    new_buffer ← match buffer frame_state with
      | None => Run new_buffer
      | Some old =>
          guac_imgcpy new_buffer stride width height
            old (buffer_stride frame_state) (buffer_width frame_state) (buffer_height frame_state)
      end;
    Run (frame_state <| buffer := Some new_buffer |> <| buffer_width := width |>
           <| buffer_height := height |> <| buffer_stride := stride |>).

(** The array of cells is copied like an image whose pixels are cells. *)

Definition copy_cells (n : Z) (dst : list guac_display_layer_cell) (p : Z)
    (src : list guac_display_layer_cell) (q : Z) : run (list guac_display_layer_cell) :=
  for_range 0 (n - 1) (λ i dst,
    c ← deref (src !! Z.to_nat (q + i));
    _ ← deref (dst !! Z.to_nat (p + i));
    Run (<[Z.to_nat (p + i) := c]> dst)) dst.

Definition PFW_guac_display_layer_pending_frame_cells_resize (layer : guac_display_layer)
    (width height : Z) : run guac_display_layer :=
  let new_width := GUAC_DISPLAY_CELL_DIMENSION width in
  let new_height := GUAC_DISPLAY_CELL_DIMENSION height in
  if (new_width =? pending_frame_cells_width layer) && (new_height =? pending_frame_cells_height layer)
  then Run layer
  else
    let old_width := pending_frame_cells_width layer in
    let old_height := pending_frame_cells_height layer in
    let w := if old_width <? new_width then old_width else new_width in
    let h := if old_height <? new_height then old_height else new_height in
    GUAC_ASSERT (0 <=? w);;
    GUAC_ASSERT (0 <=? h);;
    cells ← for_range 0 (h - 1) (λ i dst,
        copy_cells w dst (i * new_width) (pending_frame_cells layer) (i * old_width))
      (replicate (Z.to_nat (new_width * new_height)) zero_cell);
    Run (layer <| pending_frame_cells := cells |> <| pending_frame_cells_width := new_width |>
           <| pending_frame_cells_height := new_height |>).

Definition PFW_guac_display_layer_resize (layer : guac_display_layer) (w h : Z)
    : run guac_display_layer :=
  pending ← (if buffer_is_external (pending_frame layer) then Run (pending_frame layer)
             else XFW_guac_display_layer_buffer_resize (pending_frame layer) w h);
  layer ← PFW_guac_display_layer_pending_frame_cells_resize (layer <| pending_frame := pending |>) w h;
  Run (layer <| pending_frame := (pending_frame layer) <| width := w |> <| height := h |> |>).

(** ** Layers of a display *)

Definition zero_state : guac_display_layer_state :=
  mk_layer_state 0 0 0 0 0 0 0 0 0 None 0 0 0 false no_rect false.

Definition layer_state_init : run guac_display_layer_state :=
  XFW_guac_display_layer_buffer_resize
    (zero_state <| width := GUAC_DISPLAY_RESIZE_FACTOR |> <| height := GUAC_DISPLAY_RESIZE_FACTOR |>
       <| opacity := 255 |>)
    GUAC_DISPLAY_RESIZE_FACTOR GUAC_DISPLAY_RESIZE_FACTOR.

(** [index] and [backing] are the layer and the buffer the client allocated ([Streams]). *)

Definition guac_display_add_layer (index : Z) (is_opaque : bool) (backing : Z) (d : guac_display)
    : run guac_display :=
  last ← layer_state_init;
  pending ← layer_state_init;
  layer ← PFW_guac_display_layer_pending_frame_cells_resize
    (mk_display_layer index is_opaque last backing pending [] 0 0 false)
    (width pending) (height pending);
  Run (d <| layers := layer :: layers d |>).

(** A layer that is not on the list of the last frame has no previous layer there and is taken for its
    head. *)

Definition guac_display_remove_layer (n : nat) (d : guac_display) : run guac_display :=
  layer ← deref (layers d !! n);
  GUAC_ASSERT (listed layer || negb (existsb listed (layers d)));;
  Run (d <| layers := delete n (layers d) |>).

(** A layer added since the last frame cannot be removed before the next one, once a frame has ended. *)

Lemma new_layer_stays index is_opaque backing d d' :
  existsb listed (layers d) = true →
  guac_display_add_layer index is_opaque backing d = Run d' →
  guac_display_remove_layer 0 d' = Abort.
Proof.
  intros Hl Hadd. unfold guac_display_add_layer in Hadd.
  apply run_bind_inv in Hadd as (last & _ & Hadd).
  apply run_bind_inv in Hadd as (pending & _ & Hadd).
  apply run_bind_inv in Hadd as (layer & Hlayer & [= <-]).
  assert (listed layer = false) as E.
  { unfold PFW_guac_display_layer_pending_frame_cells_resize in Hlayer. cbv zeta in Hlayer.
    destruct (_ && _); [by injection Hlayer as <-|].
    apply run_bind_inv in Hlayer as (? & _ & Hlayer). apply run_bind_inv in Hlayer as (? & _ & Hlayer).
    apply run_bind_inv in Hlayer as (? & _ & Hlayer). by injection Hlayer as <-. }
  unfold guac_display_remove_layer. cbn. by rewrite E, Hl.
Qed.

(** [is_cursor]: the layer is the one of the mouse cursor. *)

Definition PFW_guac_display_layer_touch (is_cursor : bool) (d : guac_display) : guac_display :=
  if is_cursor then d else d <| pending_frame_dirty_excluding_mouse := true |>.

Definition change_layer (f : guac_display_layer_state → guac_display_layer_state)
    (n : nat) (is_cursor : bool) (d : guac_display) : guac_display :=
  PFW_guac_display_layer_touch is_cursor
    (d <| layers := alter (λ l, l <| pending_frame := f (pending_frame l) |>) n (layers d) |>).

Definition guac_display_layer_move (x y : Z) := change_layer (λ s, s <| layer_x := x |> <| layer_y := y |>).
Definition guac_display_layer_stack (z : Z) := change_layer (λ s, s <| layer_z := z |>).
Definition guac_display_layer_set_parent (p : Z) := change_layer (λ s, s <| parent := p |>).
Definition guac_display_layer_set_opacity (o : Z) := change_layer (λ s, s <| opacity := o |>).
Definition guac_display_layer_set_lossless (b : Z) := change_layer (λ s, s <| lossless := b |>).
Definition guac_display_layer_set_multitouch (t : Z) := change_layer (λ s, s <| touches := t |>).

Definition guac_display_layer_resize (n : nat) (is_cursor : bool) (w h : Z) (d : guac_display)
    : run guac_display :=
  layer ← deref (layers d !! n);
  layer ← PFW_guac_display_layer_resize layer w h;
  Run (PFW_guac_display_layer_touch is_cursor (d <| layers := <[n := layer]> (layers d) |>)).

Definition guac_display_layer_get_bounds (layer : guac_display_layer) : guac_rect :=
  mk_guac_rect 0 0 (width (pending_frame layer)) (height (pending_frame layer)).

(** ** Raw contexts *)

(** [hint_from] is the place of a layer. *)

Record guac_display_layer_raw_context := mk_context {
  context_buffer : option (list Z);
  context_external : bool;
  context_stride : Z;
  context_dirty : guac_rect;
  hint_from : option nat;
  context_bounds : guac_rect;
}.

#[export] Instance eta_context : Eta guac_display_layer_raw_context :=
  λ c, mk_context (context_buffer c) (context_external c) (context_stride c) (context_dirty c)
    (hint_from c) (context_bounds c).

Definition guac_display_layer_raw_context_set (context : guac_display_layer_raw_context)
    (dst : guac_rect) (color : Z) : run guac_display_layer_raw_context :=
  p ← GUAC_RECT_BUFFER dst (context_stride context) GUAC_DISPLAY_LAYER_RAW_BPP;
  b ← deref (context_buffer context);
  b ← for_range (top dst) (bottom dst - 1) (λ dy,
        for_range (left dst) (right dst - 1) (λ dx b,
          put_word b (p + (dy - top dst) * context_stride context + 4 * (dx - left dst)) color)) b;
  Run (context <| context_buffer := Some b |>
         <| context_dirty := guac_rect_extend (context_dirty context) dst |>).

Definition guac_display_layer_raw_context_put (context : guac_display_layer_raw_context)
    (dst : guac_rect) (src : list Z) (stride : Z) : run guac_display_layer_raw_context :=
  p ← GUAC_RECT_BUFFER dst (context_stride context) GUAC_DISPLAY_LAYER_RAW_BPP;
  b ← deref (context_buffer context);
  b ← for_range (top dst) (bottom dst - 1) (λ dy b,
        copy_words (guac_rect_width dst)
          b (p + (dy - top dst) * context_stride context) src ((dy - top dst) * stride)) b;
  Run (context <| context_buffer := Some b |>
         <| context_dirty := guac_rect_extend (context_dirty context) dst |>).

Definition guac_display_layer_open_raw (n : nat) (layer : guac_display_layer)
    : guac_display_layer_raw_context :=
  let s := pending_frame layer in
  mk_context (buffer s) (buffer_is_external s) (buffer_stride s) no_rect (Some n)
    (mk_guac_rect 0 0 (buffer_width s) (buffer_height s)).

(** The context keeps the buffer it was opened with, drawn on, or has another, which is then external
    ([context_external]). *)

Definition close_state (context : guac_display_layer_raw_context) (s : guac_display_layer_state)
    : guac_display_layer_state :=
  let s :=
    if context_external context then
      let w := guac_rect_width (context_bounds context) in
      let w := if GUAC_DISPLAY_MAX_WIDTH <? w then GUAC_DISPLAY_MAX_WIDTH else w in
      let h := guac_rect_height (context_bounds context) in
      let h := if GUAC_DISPLAY_MAX_HEIGHT <? h then GUAC_DISPLAY_MAX_HEIGHT else h in
      s <| buffer_is_external := true |> <| buffer := context_buffer context |>
        <| buffer_width := w |> <| buffer_height := h |>
        <| buffer_stride := context_stride context |> <| width := w |> <| height := h |>
    else s <| buffer := context_buffer context |> in
  s <| dirty := guac_rect_extend (dirty s) (context_dirty context) |>.

Definition guac_display_layer_close_raw (n : nat) (is_cursor : bool)
    (context : guac_display_layer_raw_context) (d : guac_display) : guac_display :=
  let d := change_layer (close_state context) n is_cursor d in
  match hint_from context with
  | None => d
  | Some from =>
      d <| layers :=
        alter (λ l, l <| pending_frame := (pending_frame l) <| search_for_copies := true |> |>)
          from (layers d) |>
  end.

(** ** Pixels *)

(** The pixel at a position, where the buffer has one. *)

Definition pixel (s : guac_display_layer_state) (x y : Z) : Z :=
  match buffer s with
  | Some b => default 0 (b !! Z.to_nat ((y * buffer_stride s + 4 * x) / 4))
  | None => 0
  end.

Definition inside (s : guac_display_layer_state) (x y : Z) : Prop :=
  0 ≤ x < width s ∧ 0 ≤ y < height s.

Definition bounds_of (s : guac_display_layer_state) : guac_rect :=
  mk_guac_rect 0 0 (width s) (height s).

(** A layer that is not too large, in a buffer that holds it. *)

Record state_ok (s : guac_display_layer_state) : Prop := {
  ok_width : 0 ≤ width s ≤ buffer_width s;
  ok_height : 0 ≤ height s ≤ buffer_height s;
  ok_max : buffer_width s ≤ 8192 ∧ buffer_height s ≤ 8192;
  ok_stride : (4 | buffer_stride s) ∧ 4 * buffer_width s ≤ buffer_stride s < 2 ^ 32;
  ok_buffer : ∃ b, buffer s = Some b ∧ buffer_height s * buffer_stride s ≤ 4 * Z.of_nat (length b);
}.

(** Address of a pixel. *)

Definition address (s : guac_display_layer_state) (x y : Z) : Z := y * buffer_stride s + 4 * x.

Lemma address_word s x y :
  state_ok s → 0 ≤ x < buffer_width s → 0 ≤ y < buffer_height s →
  0 ≤ address s x y ∧ address s x y mod 4 = 0 ∧
  ∃ b v, buffer s = Some b ∧ b !! Z.to_nat (address s x y / 4) = Some v ∧ pixel s x y = v.
Proof.
  intros [? ? ? [[k Hk] Hs] (b & Hb & Hl)] Hx Hy. unfold address.
  assert (Ha : y * buffer_stride s + 4 * x = (y * k + x) * 4) by (rewrite Hk; ring).
  split; [nia|]. rewrite Ha, Z.mod_mul, Z.div_mul by lia. split; [done|].
  destruct (lookup_lt_is_Some_2 b (Z.to_nat (y * k + x))) as [v Hv]; [nia|].
  exists b, v. split_and!; [done..|]. unfold pixel. by rewrite Hb, Ha, Z.div_mul, Hv by lia.
Qed.

Lemma read_pixel s b x y :
  state_ok s → buffer s = Some b → 0 ≤ x < buffer_width s → 0 ≤ y < buffer_height s →
  word_at b (address s x y) = Run (pixel s x y).
Proof.
  intros Hok Hb Hx Hy. destruct (address_word s x y Hok Hx Hy) as (H0 & H4 & b' & v & E & Hv & ->).
  simplify_eq. unfold word_at. rewrite H4.
  destruct (Z.ltb_spec (address s x y) 0); [lia|]. cbn [orb negb Z.eqb]. by rewrite Hv.
Qed.

Lemma ckd_mul_2 a b : 0 ≤ a → 0 ≤ b → a < 2 ^ 31 → b < 2 ^ 32 →
  PRIV_guac_mem_ckd_mul [u64 a; b] = Some (a * b).
Proof.
  intros. rewrite u64_small by (unfold is_u64; lia). cbn [PRIV_guac_mem_ckd_mul ckd_mul_loop].
  destruct (Z.eqb_spec a 0) as [->|]; [done|].
  destruct (Z.ltb_spec (SIZE_MAX `div` a) b) as [Hlt|].
  - exfalso. apply Z.lt_nge in Hlt. apply Hlt, Z.div_le_lower_bound; [lia|]. unfold SIZE_MAX. nia.
  - rewrite u64_small by (unfold is_u64; nia). done.
Qed.

Lemma rect_address s r :
  state_ok s → 0 ≤ left r < 2 ^ 31 → 0 ≤ top r < 2 ^ 31 →
  GUAC_RECT_BUFFER r (buffer_stride s) GUAC_DISPLAY_LAYER_RAW_BPP = Run (address s (left r) (top r)).
Proof.
  intros [? ? ? [? ?] _] ? ?. unfold GUAC_RECT_BUFFER, PRIV_guac_mem_ckd_mul_or_die.
  rewrite (ckd_mul_2 (top r)) by lia. cbn [or_die or_abort]. rewrite run_bind_run.
  rewrite ckd_mul_2 by (unfold GUAC_DISPLAY_LAYER_RAW_BPP; lia). cbn [or_die or_abort].
  rewrite run_bind_run. unfold address, GUAC_DISPLAY_LAYER_RAW_BPP. f_equal. lia.
Qed.
