(* ===== verification/DisplayPlan.v ===== *)
(** * Plans: from one frame to the next (src/src/libguac/display-plan.c, display-plan-rect.c, display-plan-search.c, display-plan-combine.c)

    A plan is an array of operations that turn what the users see into the pending frame.
    It is drafted by comparing the two frames cell by cell, a cell being 64 by 64
    pixels; operations of a single colour then become rectangles, operations whose
    image is somewhere in the last frame become copies, and adjacent operations are
    combined.

    Operations are named by their place in the array, layers by their place in the list
    of the pending frame.  Pointers that move along with a loop are written as their
    value in terms of its counter.  The union [src] of an operation is a sum; reading the
    other member is a fault.  Costs are [int]s and wrap. *)

From stdpp Require Import gmap.
From S2P Require Import Prelude RecordUpdate Mem Run Rect ProtocolTypes Display.
Local Open Scope Z_scope.

Local Abbreviation len l := (Z.of_nat (List.length l)).

Definition GUAC_DISPLAY_NEGLIGIBLE_WIDTH : Z := 64.
Definition GUAC_DISPLAY_NEGLIGIBLE_HEIGHT : Z := 64.
Definition GUAC_DISPLAY_DATA_FACTOR : Z := 128.
Definition GUAC_DISPLAY_MAX_COMBINED_SIZE : Z := 9.
Definition GUAC_DISPLAY_BASE_COST : Z := 4096.
Definition GUAC_DISPLAY_NEGLIGIBLE_INCREASE : Z := 4.

Inductive guac_display_plan_operation_type :=
| GUAC_DISPLAY_PLAN_OPERATION_NOP
| GUAC_DISPLAY_PLAN_OPERATION_COPY
| GUAC_DISPLAY_PLAN_OPERATION_RECT
| GUAC_DISPLAY_PLAN_OPERATION_IMG.

#[export] Instance operation_type_eq_dec : EqDecision guac_display_plan_operation_type.
Proof. solve_decision. Defined.

Inductive operation_src :=
| No_source
| Color (color : Z)
| Layer_rect (rect : guac_rect) (layer : Z).

Record guac_display_plan_operation := mk_op {
  op_layer : nat;
  op_type : guac_display_plan_operation_type;
  op_dest : guac_rect;
  op_dirty_size : Z;
  op_last_frame : Z;
  op_current_frame : Z;
  op_src : operation_src;
}.

#[export] Instance eta_op : Eta guac_display_plan_operation :=
  λ o, mk_op (op_layer o) (op_type o) (op_dest o) (op_dirty_size o) (op_last_frame o)
    (op_current_frame o) (op_src o).

(** ** Drafting *)

Definition guac_display_plan_mark_dirty (cell : guac_display_layer_cell) (count x y width : Z)
    : guac_display_layer_cell * Z :=
  if cell_dirty_size cell =? 0 then
    (cell <| cell_dirty := guac_rect_init x y width 1 |> <| cell_dirty_size := u64 width |>,
     u64 (count + 1))
  else
    (cell <| cell_dirty := guac_rect_extend (cell_dirty cell) (guac_rect_init x y width 1) |>
       <| cell_dirty_size := u64 (cell_dirty_size cell + width) |>, count).

(** The two loops of [guac_display_memcmp], at the position [first] (or [offset]). *)

Fixpoint memcmp_first (n : nat) (first : Z) (a : list Z) (pa : Z) (b : list Z) (pb : Z) : run Z :=
  match n with
  | O => Run first
  | S n =>
      v ← word_at a (pa + 4 * first); w ← word_at b (pb + 4 * first);
      if v =? w then memcmp_first n (first + 1) a pa b pb else Run first
  end.

Fixpoint memcmp_last (n : nat) (last offset : Z) (a : list Z) (pa : Z) (b : list Z) (pb : Z) : run Z :=
  match n with
  | O => Run last
  | S n =>
      v ← word_at a (pa + 4 * offset); w ← word_at b (pb + 4 * offset);
      memcmp_last n (if v =? w then last else offset) (offset + 1) a pa b pb
  end.

(** The length and the position of the difference; [None] is length zero, with which no position
    is stored. *)

Definition guac_display_memcmp (a : list Z) (pa : Z) (b : list Z) (pb count : Z)
    : run (option (Z * Z)) :=
  first ← memcmp_first (Z.to_nat count) 0 a pa b pb;
  if count <=? first then Run None
  else
    last ← memcmp_last (Z.to_nat (count - (first + 1))) first (first + 1) a pa b pb;
    Run (Some (last - first + 1, first)).

(** What the refinement of a layer changes: its cells, the number of operations, its dirty
    rectangle. *)

Record refinement := mk_refinement {
  refined_cells : list guac_display_layer_cell;
  op_count : Z;
  refined_dirty : guac_rect;
}.

#[export] Instance eta_refinement : Eta refinement :=
  λ r, mk_refinement (refined_cells r) (op_count r) (refined_dirty r).

Definition mark (index : Z) (x y width : Z) (r : refinement) : run refinement :=
  cell ← deref (refined_cells r !! Z.to_nat index);
  let '(cell, count) := guac_display_plan_mark_dirty cell (op_count r) x y width in
  Run (mk_refinement (<[Z.to_nat index := cell]> (refined_cells r)) count
         (guac_rect_extend (refined_dirty r) (cell_dirty cell))).

(** The part of line [y] that lies in one cell. *)

Definition refine_line (l : guac_display_layer) (pending_buffer last_buffer : list Z)
    (dirty : guac_rect) (y corner_x index buffer flushed : Z) (r : refinement) : run refinement :=
  let width := if right dirty <? corner_x + GUAC_DISPLAY_CELL_SIZE
               then right dirty - corner_x else GUAC_DISPLAY_CELL_SIZE in
  GUAC_ASSERT (0 <=? width);;
  if (height (last_frame l) <=? y) || (Display.width (last_frame l) <=? corner_x)
  then mark index corner_x y width r
  else
    let comparable_width :=
      if Display.width (last_frame l) <? corner_x + width
      then Display.width (last_frame l) - corner_x else width in
    GUAC_ASSERT (0 <=? comparable_width);;
    r ← (if comparable_width <? width
         then mark index (corner_x + comparable_width) y (width - comparable_width) r else Run r);
    difference ← guac_display_memcmp pending_buffer buffer last_buffer flushed comparable_width;
    match difference with
    | Some (length, pos) => mark index (corner_x + pos) y length r
    | None => Run r
    end.

(** The number of rounds of a loop from [first] to below [bound] in steps of a cell. *)

Definition cell_steps (first bound : Z) : Z :=
  (bound - first + GUAC_DISPLAY_CELL_SIZE - 1) / GUAC_DISPLAY_CELL_SIZE.

Definition refine_row (l : guac_display_layer) (pending_buffer last_buffer : list Z)
    (dirty : guac_rect) (y cell_row buffer_row flushed_row : Z) : refinement → run refinement :=
  for_range 0 (cell_steps (left dirty) (right dirty) - 1) (λ k,
    refine_line l pending_buffer last_buffer dirty y (left dirty + GUAC_DISPLAY_CELL_SIZE * k)
      (cell_row + k) (buffer_row + 4 * GUAC_DISPLAY_CELL_SIZE * k)
      (flushed_row + 4 * GUAC_DISPLAY_CELL_SIZE * k)).

Definition refine_rows (l : guac_display_layer) (pending_buffer last_buffer : list Z)
    (dirty : guac_rect) (cell_row buffer_row flushed_row : Z) : refinement → run refinement :=
  for_range 0 (cell_steps (top dirty) (bottom dirty) - 1) (λ k,
    let corner_y := top dirty + GUAC_DISPLAY_CELL_SIZE * k in
    let height := if bottom dirty <? corner_y + GUAC_DISPLAY_CELL_SIZE
                  then bottom dirty - corner_y else GUAC_DISPLAY_CELL_SIZE in
    for_range 0 (height - 1) (λ y_off,
      let line := GUAC_DISPLAY_CELL_SIZE * k + y_off in
      refine_row l pending_buffer last_buffer dirty (corner_y + y_off)
        (cell_row + k * pending_frame_cells_width l)
        (buffer_row + line * buffer_stride (pending_frame l))
        (flushed_row + line * buffer_stride (last_frame l)))).

Definition refine_layer (l : guac_display_layer) (pending_buffer : list Z) (count : Z)
    : run (guac_display_layer * Z) :=
  let dirty := guac_rect_constrain
    (guac_rect_align (dirty (pending_frame l)) GUAC_DISPLAY_CELL_SIZE_EXPONENT)
    (bounds_of (pending_frame l)) in
  flushed_row ← GUAC_RECT_BUFFER dirty (buffer_stride (last_frame l)) GUAC_DISPLAY_LAYER_RAW_BPP;
  buffer_row ← GUAC_RECT_BUFFER dirty (buffer_stride (pending_frame l)) GUAC_DISPLAY_LAYER_RAW_BPP;
  row ← or_abort (PRIV_guac_mem_ckd_mul_or_die
          [u64 (Z.quot (top dirty) GUAC_DISPLAY_CELL_SIZE); pending_frame_cells_width l]);
  r ← refine_rows l pending_buffer (default [] (buffer (last_frame l))) dirty
        (row + Z.quot (left dirty) GUAC_DISPLAY_CELL_SIZE) buffer_row flushed_row
        (mk_refinement (pending_frame_cells l) count no_rect);
  Run (l <| pending_frame := (pending_frame l) <| Display.dirty := refined_dirty r |> |>
         <| pending_frame_cells := refined_cells r |>, op_count r).

(** The loop over the layers: where a buffer is [NULL] it goes on without moving to the next layer. *)

Fixpoint refine_layers (fuel : nat) (current : nat) (ls : list guac_display_layer) (count : Z)
    : run (list guac_display_layer * Z) :=
  match ls !! current with
  | None => Run (ls, count)
  | Some l =>
      match fuel with
      | O => Spin
      | S fuel =>
          match buffer (pending_frame l) with
          | None =>
              GUAC_ASSERT (buffer_is_external (pending_frame l));;
              refine_layers fuel current ls count
          | Some pending_buffer =>
              if guac_rect_is_empty (dirty (pending_frame l))
              then refine_layers fuel (S current) ls count
              else
                '(l, count) ← refine_layer l pending_buffer count;
                refine_layers fuel (S current) (<[current := l]> ls) count
          end
      end
  end.

(** The operations of the cells of one layer, behind those of the layers before. *)

Fixpoint convert_cells (frame_end : Z) (layer : nat) (count : Z)
    (cells : list guac_display_layer_cell) (ops : list guac_display_plan_operation)
    : run (list guac_display_layer_cell * list guac_display_plan_operation) :=
  match cells with
  | [] => Run ([], ops)
  | cell :: cells =>
      if cell_dirty_size cell =? 0 then
        '(cells, ops) ← convert_cells frame_end layer count cells ops;
        Run (cell <| related_op := None |> :: cells, ops)
      else
        GUAC_ASSERT (len ops <? count);;
        let op := mk_op layer GUAC_DISPLAY_PLAN_OPERATION_IMG (cell_dirty cell)
                    (cell_dirty_size cell) (cell_last_frame cell) frame_end No_source in
        '(cells, ops') ← convert_cells frame_end layer count cells (ops ++ [op]);
        Run (cell <| related_op := Some (List.length ops) |> <| cell_dirty_size := 0 |>
               <| cell_last_frame := frame_end |> :: cells, ops')
  end.

Fixpoint convert_layers (frame_end : Z) (layer : nat) (count : Z) (ls : list guac_display_layer)
    (ops : list guac_display_plan_operation)
    : run (list guac_display_layer * list guac_display_plan_operation) :=
  match ls with
  | [] => Run ([], ops)
  | l :: ls =>
      '(cells, ops) ← convert_cells frame_end layer count (pending_frame_cells l) ops;
      '(ls, ops) ← convert_layers frame_end (S layer) count ls ops;
      Run (l <| pending_frame_cells := cells |> :: ls, ops)
  end.

(** [frame_end] is the time.  The layers with their refined dirty rectangles, and the plan, if
    anything has changed. *)

Definition PFW_LFR_guac_display_plan_create (fuel : nat) (frame_end : Z)
    (ls : list guac_display_layer)
    : run (list guac_display_layer * option (list guac_display_plan_operation)) :=
  '(ls, count) ← refine_layers fuel 0 ls 0;
  if count =? 0 then Run (ls, None)
  else
    '(ls, ops) ← convert_layers frame_end 0 count ls [];
    GUAC_ASSERT (len ops =? count);;
    Run (ls, Some ops).

(** ** Rectangles of a single colour *)

Fixpoint round_pot_loop (fuel : nat) (value rounded : Z) : Z :=
  match fuel with
  | O => rounded
  | S fuel =>
      let value := Z.shiftr value 1 in
      if value =? 0 then rounded else round_pot_loop fuel value (u64 (Z.shiftl rounded 1))
  end.

Definition guac_display_plan_round_pot (value : Z) : Z :=
  if value <=? 2 then value else round_pot_loop 64 value 1.

(** [length] is in bytes, as in the code. *)

Fixpoint guac_display_plan_is_single_color (fuel : nat) (b : list Z) (p length : Z)
    : run (option Z) :=
  match fuel with
  | O => Spin
  | S fuel =>
      if length =? 0 then Run (Some 0)
      else if length =? 4 then v ← word_at b p; Run (Some v)
      else
        pair ← (if length =? 8 then
                  v ← word_at b p; w ← word_at b (p + 4);
                  Run (if v =? w then Some v else None)
                else Run None);
        match pair with
        | Some v => Run (Some v)
        | None =>
            if negb (length mod 4 =? 0) then Run None
            else
              previous ← or_abort (PRIV_guac_mem_ckd_sub_or_die [length; 1]);
              let pot_length := guac_display_plan_round_pot previous in
              remaining_length ← or_abort (PRIV_guac_mem_ckd_sub_or_die [length; pot_length]);
              if pot_length =? remaining_length then
                same ← words_equal (Z.to_nat (pot_length / 4)) b p b (p + pot_length);
                if same : bool then guac_display_plan_is_single_color fuel b p pot_length
                else Run None
              else
                color_a ← guac_display_plan_is_single_color fuel b p pot_length;
                match color_a with
                | None => Run None
                | Some color_a =>
                    color_b ← guac_display_plan_is_single_color fuel b (p + pot_length) remaining_length;
                    match color_b with
                    | None => Run None
                    | Some color_b => Run (if color_a =? color_b then Some color_a else None)
                    end
                end
        end
  end.

Fixpoint rows_identical (n : nat) (b : list Z) (previous stride row_length : Z) : run bool :=
  match n with
  | O => Run true
  | S n =>
      let current := previous + stride in
      same ← words_equal (Z.to_nat (row_length / 4)) b previous b current;
      if same : bool then rows_identical n b current stride row_length else Run false
  end.

Definition guac_display_plan_is_rect_single_color (b : list Z) (stride : Z) (rect : guac_rect)
    : run (option Z) :=
  row_length ← or_abort (PRIV_guac_mem_ckd_mul_or_die
                 [u64 (guac_rect_width rect); GUAC_DISPLAY_LAYER_RAW_BPP]);
  p ← GUAC_RECT_BUFFER rect stride GUAC_DISPLAY_LAYER_RAW_BPP;
  first_color ← guac_display_plan_is_single_color (S (Z.to_nat row_length)) b p row_length;
  match first_color with
  | None => Run None
  | Some first_color =>
      same ← rows_identical (Z.to_nat (bottom rect - (top rect + 1))) b p stride row_length;
      Run (if same : bool then Some first_color else None)
  end.

Definition rewrite_as_rect (ls : list guac_display_layer) (op : guac_display_plan_operation)
    : run guac_display_plan_operation :=
  if decide (op_type op = GUAC_DISPLAY_PLAN_OPERATION_IMG) then
    l ← deref (ls !! op_layer op);
    match buffer (pending_frame l) with
    | None => Run op
    | Some b =>
        color ← guac_display_plan_is_rect_single_color b (buffer_stride (pending_frame l)) (op_dest op);
        match color with
        | None => Run op
        | Some color =>
            let color := if opaque l then Z.lor color 0xFF000000 else color in
            Run (op <| op_type := GUAC_DISPLAY_PLAN_OPERATION_RECT |> <| op_src := Color color |>)
        end
    end
  else Run op.

Fixpoint each_op {A} (f : A → run A) (ops : list A) : run (list A) :=
  match ops with
  | [] => Run []
  | op :: ops => op ← f op; ops ← each_op f ops; Run (op :: ops)
  end.

Definition PFR_guac_display_plan_rewrite_as_rects (ls : list guac_display_layer)
    : list guac_display_plan_operation → run (list guac_display_plan_operation) :=
  each_op (rewrite_as_rect ls).

(** ** Copies from the last frame *)

Definition GUAC_DISPLAY_PLAN_OPERATION_HASH (hash : Z) : Z :=
  Z.lxor (Z.lxor (Z.lxor (Z.land hash 0xFFFF) (Z.land (Z.shiftr hash 16) 0xFFFF))
    (Z.land (Z.shiftr hash 32) 0xFFFF)) (Z.land (Z.shiftr hash 48) 0xFFFF).

(** [ops_by_hash]: the entries whose operation is not [NULL]. *)

Definition hash_index : Type := gmap Z (Z * nat).

Definition guac_display_plan_store_indexed_op (hash : Z) (op : nat) (ops_by_hash : hash_index)
    : hash_index :=
  let index := GUAC_DISPLAY_PLAN_OPERATION_HASH hash in
  match ops_by_hash !! index with
  | None => <[index := (hash, op)]> ops_by_hash
  | Some _ => ops_by_hash
  end.

Definition guac_display_plan_remove_indexed_op (hash : Z) (ops_by_hash : hash_index)
    : option nat * hash_index :=
  let index := GUAC_DISPLAY_PLAN_OPERATION_HASH hash in
  match ops_by_hash !! index with
  | Some (stored, op) =>
      if stored =? hash then (Some op, delete index ops_by_hash) else (None, ops_by_hash)
  | None => (None, ops_by_hash)
  end.

(** The inner loop: the hash of the row so far, the hash of each column, and what the callback
    changes. *)

Definition hash_pixel {S} (callback : Z → Z → Z → S → run S) (rect : guac_rect)
    (b : list Z) (row start_x y x : Z) (s : Z * list Z * S) : run (Z * list Z * S) :=
  let '(row_hash, hashes, s) := s in
  pixel ← word_at b (row + 4 * (x - start_x));
  let row_hash := u64 (u64 (Z.shiftl (u64 (row_hash * 31)) 1) + pixel) in
  column ← deref (hashes !! Z.to_nat (x - start_x));
  let cell_hash := u64 (u64 (Z.shiftl (u64 (column * 31)) 1) + row_hash) in
  let hashes := <[Z.to_nat (x - start_x) := cell_hash]> hashes in
  s ← (if (top rect <=? y) && (left rect <=? x) then callback x y cell_hash s else Run s);
  Run (row_hash, hashes, s).

Definition hash_row {S} (callback : Z → Z → Z → S → run S) (rect : guac_rect)
    (b : list Z) (stride data start_x end_x start_y y : Z) (s : list Z * S) : run (list Z * S) :=
  '(_, hashes, s) ← for_range start_x (end_x - 1)
    (hash_pixel callback rect b (data + (y - start_y) * stride) start_x y) (0, s.1, s.2);
  Run (hashes, s).

Definition guac_hash_foreach_image_rect {S} (state : guac_display_layer_state) (rect : guac_rect)
    (callback : Z → Z → Z → S → run S) (s : S) : run S :=
  data ← GUAC_RECT_BUFFER rect (buffer_stride state) GUAC_DISPLAY_LAYER_RAW_BPP;
  let start_x := left rect - GUAC_DISPLAY_CELL_SIZE + 1 in
  let end_x := right rect - GUAC_DISPLAY_CELL_SIZE + 1 in
  let start_y := top rect - GUAC_DISPLAY_CELL_SIZE + 1 in
  let end_y := bottom rect - GUAC_DISPLAY_CELL_SIZE + 1 in
  '(_, s) ← for_range start_y (end_y - 1)
    (hash_row callback rect (default [] (buffer state)) (buffer_stride state) data
       start_x end_x start_y)
    (replicate (Z.to_nat GUAC_DISPLAY_MAX_WIDTH) 0, s);
  Run s.

Definition guac_display_cell_init_rect (x y : Z) : guac_rect :=
  guac_rect_init (Z.quot x GUAC_DISPLAY_CELL_SIZE * GUAC_DISPLAY_CELL_SIZE)
    (Z.quot y GUAC_DISPLAY_CELL_SIZE * GUAC_DISPLAY_CELL_SIZE)
    GUAC_DISPLAY_CELL_SIZE GUAC_DISPLAY_CELL_SIZE.

Definition guac_display_plan_index_op_for_cell (op : nat) (x y hash : Z) (ops_by_hash : hash_index)
    : run hash_index :=
  Run (guac_display_plan_store_indexed_op hash op ops_by_hash).

Definition index_op (ls : list guac_display_layer) (i : nat) (op : guac_display_plan_operation)
    (ops_by_hash : hash_index) : run hash_index :=
  if decide (op_type op = GUAC_DISPLAY_PLAN_OPERATION_IMG) then
    l ← deref (ls !! op_layer op);
    let cell := guac_rect_constrain
      (guac_display_cell_init_rect (left (op_dest op)) (top (op_dest op)))
      (guac_display_layer_get_bounds l) in
    if (guac_rect_width cell =? GUAC_DISPLAY_CELL_SIZE)
       && (guac_rect_height cell =? GUAC_DISPLAY_CELL_SIZE)
    then guac_hash_foreach_image_rect (pending_frame l) cell
           (guac_display_plan_index_op_for_cell i) ops_by_hash
    else Run ops_by_hash
  else Run ops_by_hash.

Fixpoint index_ops (ls : list guac_display_layer) (i : nat) (ops : list guac_display_plan_operation)
    (ops_by_hash : hash_index) : run hash_index :=
  match ops with
  | [] => Run ops_by_hash
  | op :: ops => ops_by_hash ← index_op ls i op ops_by_hash; index_ops ls (S i) ops ops_by_hash
  end.

Definition PFR_guac_display_plan_index_dirty_cells (ls : list guac_display_layer)
    (ops : list guac_display_plan_operation) : run hash_index :=
  index_ops ls 0 ops ∅.

(** [guac_image_cmp] of images of the same size: whether they are equal. *)

Fixpoint image_rows_equal (n : nat) (width : Z) (a : list Z) (p stride_a : Z)
    (b : list Z) (q stride_b : Z) : run bool :=
  match n with
  | O => Run true
  | S n =>
      same ← words_equal (Z.to_nat width) a p b q;
      if same : bool then image_rows_equal n width a (p + stride_a) stride_a b (q + stride_b) stride_b
      else Run false
  end.

Definition plan_state : Type := hash_index * list guac_display_plan_operation.

(** [from] is the layer that is searched. *)

Definition PFR_LFR_guac_display_plan_find_copies (ls : list guac_display_layer)
    (from : guac_display_layer) (x y hash : Z) (s : plan_state) : run plan_state :=
  let '(ops_by_hash, ops) := s in
  match guac_display_plan_remove_indexed_op hash ops_by_hash with
  | (None, ops_by_hash) => Run (ops_by_hash, ops)
  | (Some i, ops_by_hash) =>
      op ← deref (ops !! i);
      to ← deref (ls !! op_layer op);
      let src_rect := guac_rect_init x y GUAC_DISPLAY_CELL_SIZE GUAC_DISPLAY_CELL_SIZE in
      let dst_rect := guac_display_cell_init_rect (left (op_dest op)) (top (op_dest op)) in
      copy_from ← GUAC_RECT_BUFFER src_rect (buffer_stride (last_frame from)) GUAC_DISPLAY_LAYER_RAW_BPP;
      copy_to ← GUAC_RECT_BUFFER dst_rect (buffer_stride (pending_frame to)) GUAC_DISPLAY_LAYER_RAW_BPP;
      same ← image_rows_equal (Z.to_nat GUAC_DISPLAY_CELL_SIZE) GUAC_DISPLAY_CELL_SIZE
               (default [] (buffer (last_frame from))) copy_from (buffer_stride (last_frame from))
               (default [] (buffer (pending_frame to))) copy_to (buffer_stride (pending_frame to));
      if same : bool then
        Run (ops_by_hash,
             <[i := op <| op_type := GUAC_DISPLAY_PLAN_OPERATION_COPY |>
                      <| op_src := Layer_rect src_rect (last_frame_buffer from) |>
                      <| op_dest := dst_rect |>]> ops)
      else Run (ops_by_hash, ops)
  end.

Fixpoint search_layers (ls : list guac_display_layer) (current : list guac_display_layer)
    (s : plan_state) : run plan_state :=
  match current with
  | [] => Run s
  | from :: current =>
      s ← (if listed from && search_for_copies (pending_frame from) then
             let search_region := guac_rect_constrain
               (guac_rect_init 0 0 (width (last_frame from)) (height (last_frame from)))
               (dirty (pending_frame from)) in
             guac_hash_foreach_image_rect (last_frame from) search_region
               (PFR_LFR_guac_display_plan_find_copies ls from) s
           else Run s);
      search_layers ls current s
  end.

Definition PFR_LFR_guac_display_plan_rewrite_as_copies (ls : list guac_display_layer)
    (ops_by_hash : hash_index) (ops : list guac_display_plan_operation)
    : run (list guac_display_plan_operation) :=
  '(_, ops) ← search_layers ls ls (ops_by_hash, ops); Run ops.

(** ** Combining *)

Definition guac_display_plan_rect_crosses_boundary (rect : guac_rect) : bool :=
  let rect_copy := guac_rect_align rect GUAC_DISPLAY_MAX_COMBINED_SIZE in
  let max_size_pixels := Z.shiftl 1 GUAC_DISPLAY_MAX_COMBINED_SIZE in
  (max_size_pixels <? guac_rect_width rect_copy) || (max_size_pixels <? guac_rect_height rect_copy).

Definition guac_display_plan_has_common_edge (a b : guac_rect) : bool :=
  if (top a =? top b) && (bottom a =? bottom b)
  then (right a =? left b) || (left a =? right b)
  else if (left a =? left b) && (right a =? right b)
  then (top a =? bottom b) || (bottom a =? top b)
  else false.

Definition operation_cost (op : guac_display_plan_operation) : Z :=
  let cost := i32 (GUAC_DISPLAY_BASE_COST + op_dirty_size op) in
  if decide (op_type op = GUAC_DISPLAY_PLAN_OPERATION_IMG) then cost
  else Z.quot cost GUAC_DISPLAY_DATA_FACTOR.

(** The last two tests: whether the result is small or its cost is. *)

Definition small_or_cheap (op_a op_b : guac_display_plan_operation) (combined : guac_rect) : bool :=
  let combined_width := guac_rect_width combined in
  let combined_height := guac_rect_height combined in
  if (combined_width <=? GUAC_DISPLAY_NEGLIGIBLE_WIDTH)
     && (combined_height <=? GUAC_DISPLAY_NEGLIGIBLE_HEIGHT)
  then true
  else
    let cost_ab := i32 (GUAC_DISPLAY_BASE_COST + i32 (combined_width * combined_height)) in
    let cost_a := operation_cost op_a in
    let cost_b := operation_cost op_b in
    (cost_ab <=? i32 (cost_b + cost_a))
    || (i32 (cost_ab - cost_a) <=? Z.quot cost_a GUAC_DISPLAY_NEGLIGIBLE_INCREASE)
    || (i32 (cost_ab - cost_b) <=? Z.quot cost_b GUAC_DISPLAY_NEGLIGIBLE_INCREASE).

Definition deltas (op : guac_display_plan_operation) (src : guac_rect) : Z * Z :=
  (i32 (left (op_dest op) - left src), i32 (top (op_dest op) - top src)).

Definition guac_display_plan_should_combine (op_a op_b : guac_display_plan_operation) : run bool :=
  if negb (op_layer op_a =? op_layer op_b)%nat then Run false
  else
    let combined := guac_rect_extend (op_dest op_a) (op_dest op_b) in
    if decide (op_type op_a = op_type op_b) then
      match op_type op_a with
      | GUAC_DISPLAY_PLAN_OPERATION_COPY =>
          match op_src op_a, op_src op_b with
          | Layer_rect rect_a layer_a, Layer_rect rect_b layer_b =>
              if (layer_a =? layer_b) && guac_display_plan_has_common_edge (op_dest op_a) (op_dest op_b)
              then Run (bool_decide (deltas op_a rect_a = deltas op_b rect_b)
                        && negb (guac_display_plan_rect_crosses_boundary combined))
              else Run (small_or_cheap op_a op_b combined)
          | _, _ => Fault
          end
      | GUAC_DISPLAY_PLAN_OPERATION_RECT =>
          match op_src op_a, op_src op_b with
          | Color color_a, Color color_b =>
              Run ((color_a =? color_b)
                   && guac_display_plan_has_common_edge (op_dest op_a) (op_dest op_b)
                   && negb (guac_display_plan_rect_crosses_boundary combined))
          | _, _ => Fault
          end
      | GUAC_DISPLAY_PLAN_OPERATION_IMG =>
          Run (negb (guac_display_plan_rect_crosses_boundary combined))
      | GUAC_DISPLAY_PLAN_OPERATION_NOP => Run (small_or_cheap op_a op_b combined)
      end
    else Run (small_or_cheap op_a op_b combined).

Definition combined_src (src_a src_b : operation_src) : run operation_src :=
  match src_a, src_b with
  | Layer_rect rect_a layer, Layer_rect rect_b _ => Run (Layer_rect (guac_rect_extend rect_a rect_b) layer)
  | _, _ => Fault
  end.

(** The first operation, combined with the second. *)

Definition combined_op (op_a op_b : guac_display_plan_operation) : run guac_display_plan_operation :=
  src ← (if decide (op_type op_a = op_type op_b ∧ op_type op_a = GUAC_DISPLAY_PLAN_OPERATION_COPY)
         then combined_src (op_src op_a) (op_src op_b) else Run (op_src op_a));
  Run (op_a <| op_dest := guac_rect_extend (op_dest op_a) (op_dest op_b) |>
         <| op_type := if decide (op_type op_a = op_type op_b) then op_type op_a
                       else GUAC_DISPLAY_PLAN_OPERATION_IMG |>
         <| op_src := src |>
         <| op_dirty_size := u64 (op_dirty_size op_a + op_dirty_size op_b) |>
         <| op_last_frame := if op_last_frame op_a <? op_last_frame op_b
                             then op_last_frame op_b else op_last_frame op_a |>).

Definition guac_display_plan_combine_if_improved (a b : nat) (ops : list guac_display_plan_operation)
    : run (bool * list guac_display_plan_operation) :=
  if (a =? b)%nat then Run (false, ops)
  else
    op_a ← deref (ops !! a);
    op_b ← deref (ops !! b);
    improved ← guac_display_plan_should_combine op_a op_b;
    if improved : bool then
      op ← combined_op op_a op_b;
      Run (true, <[b := op_b <| op_type := GUAC_DISPLAY_PLAN_OPERATION_NOP |>]> (<[a := op]> ops))
    else Run (false, ops).

Definition combine_state : Type :=
  list guac_display_layer_cell * list guac_display_plan_operation.

(** Two cells next to each other, at the places [previous] and [current]. *)

Definition combine_cells (vertically : bool) (previous current : Z) (s : combine_state)
    : run combine_state :=
  let '(cells, ops) := s in
  cell_a ← deref (cells !! Z.to_nat previous);
  cell_b ← deref (cells !! Z.to_nat current);
  match related_op cell_a, related_op cell_b with
  | Some a, Some b =>
      edge ← (if vertically then
                op_a ← deref (ops !! a); op_b ← deref (ops !! b);
                Run (guac_display_plan_has_common_edge (op_dest op_a) (op_dest op_b))
              else Run true);
      if edge : bool then
        '(combined, ops) ← guac_display_plan_combine_if_improved a b ops;
        Run (if combined : bool
             then (<[Z.to_nat current := cell_b <| related_op := Some a |>]> cells, ops)
             else (cells, ops))
      else Run (cells, ops)
  | _, _ => Run (cells, ops)
  end.

Definition combine_rows (width height : Z) : combine_state → run combine_state :=
  for_range 0 (height - 1) (λ y, for_range 1 (width - 1) (λ x,
    combine_cells false (y * width + (x - 1)) (y * width + x))).

Definition combine_columns (width height : Z) : combine_state → run combine_state :=
  for_range 0 (width - 1) (λ x, for_range 1 (height - 1) (λ y,
    combine_cells true ((y - 1) * width + x) (y * width + x))).

Fixpoint combine_layers (combine : Z → Z → combine_state → run combine_state)
    (ls : list guac_display_layer) (ops : list guac_display_plan_operation)
    : run (list guac_display_layer * list guac_display_plan_operation) :=
  match ls with
  | [] => Run ([], ops)
  | l :: ls =>
      '(l, ops) ← (if guac_rect_is_empty (dirty (pending_frame l)) then Run (l, ops)
        else
          '(cells, ops) ← combine (pending_frame_cells_width l) (pending_frame_cells_height l)
                            (pending_frame_cells l, ops);
          Run (l <| pending_frame_cells := cells |>, ops));
      '(ls, ops) ← combine_layers combine ls ops;
      Run (l :: ls, ops)
  end.

Definition PFW_guac_display_plan_combine_horizontally := combine_layers combine_rows.
Definition PFW_guac_display_plan_combine_vertically := combine_layers combine_columns.
