(* ===== verification/DisplayFlush.v ===== *)
(** * The end of a frame (src/src/libguac/display-flush.c, display-plan.c, display-worker.c)

    [guac_display_end_multiple_frames] plans the changes, makes the pending frame the last frame and
    applies the plan: what is not an image is sent at once, images are left to the
    worker threads, which encode them from the last frame.  The worker that finds nothing
    left to do ends the frame and copies what has changed to the buffers from which copies
    are made.

    The instructions sent are a list.  The time, the users, whether WebP is supported
    and the quality for lossy images are arguments; the encoders are libraries.  Workers share a read lock
    of the last frame, so what they send for several operations may interleave
    ([DisplayInterleaveSpec]). *)

From S2P Require Import Prelude RecordUpdate Mem Run Rect ProtocolTypes Display DisplayPlan.
Local Open Scope Z_scope.

Definition GUAC_DISPLAY_JPEG_FRAMERATE : Z := 3.
Definition GUAC_DISPLAY_JPEG_MIN_BITMAP_SIZE : Z := 4096.

Inductive image_encoding :=
| Webp (quality : Z) (lossless : bool)
| Jpeg (quality : Z)
| Png.

(** The functions of protocol.c and client.c that are called, with their arguments. *)

Inductive instruction :=
| Size (layer w h : Z)
| Shade (layer opacity : Z)
| Move (layer parent x y z : Z)
| Set_multi_touch (layer touches : Z)
| Copy (src sx sy w h : Z) (mode : guac_composite_mode) (dst dx dy : Z)
| Rectangle (layer x y w h : Z)
| Cfill (mode : guac_composite_mode) (layer r g b a : Z)
| Image (encoding : image_encoding) (has_alpha : bool) (mode : guac_composite_mode) (layer x y : Z)
    (rows : list (list Z))
| Cursor (hotspot_x hotspot_y layer w h : Z)
| Mouse (user : Z) (x y mask timestamp : Z)
| Sync (frames : Z).

(** ** Applying a plan *)

Definition alpha_of (color : Z) : Z := Z.shiftr (Z.land color 0xFF000000) 24.
Definition red_of (color : Z) : Z := Z.shiftr (Z.land color 0x00FF0000) 16.
Definition green_of (color : Z) : Z := Z.shiftr (Z.land color 0x0000FF00) 8.
Definition blue_of (color : Z) : Z := Z.land color 0x000000FF.

Definition rect_instructions (l : guac_display_layer) (dest : guac_rect) (color : Z)
    : list instruction :=
  [Rectangle (layer_index l) (left dest) (top dest) (guac_rect_width dest) (guac_rect_height dest)]
  ++ (if opaque l then
        [Cfill GUAC_COMP_OVER (layer_index l) (red_of color) (green_of color) (blue_of color) 0xFF]
      else
        [Cfill GUAC_COMP_ROUT (layer_index l) 0 0 0 0xFF;
         Cfill GUAC_COMP_OVER (layer_index l) (red_of color) (green_of color) (blue_of color)
           (alpha_of color)]).

(** The instructions of one operation, and whether it is left to the workers. *)

Definition apply_op (ls : list guac_display_layer) (op : guac_display_plan_operation)
    : run (list instruction * bool) :=
  l ← deref (ls !! op_layer op);
  match op_type op with
  | GUAC_DISPLAY_PLAN_OPERATION_COPY =>
      match op_src op with
      | Layer_rect src layer =>
          Run ([Copy layer (left src) (top src) (guac_rect_width src) (guac_rect_height src)
                  GUAC_COMP_OVER (layer_index l) (left (op_dest op)) (top (op_dest op))], false)
      | _ => Fault
      end
  | GUAC_DISPLAY_PLAN_OPERATION_RECT =>
      match op_src op with
      | Color color => Run (rect_instructions l (op_dest op) color, false)
      | _ => Fault
      end
  | GUAC_DISPLAY_PLAN_OPERATION_NOP => Run ([], false)
  | GUAC_DISPLAY_PLAN_OPERATION_IMG => Run ([], true)
  end.

Fixpoint guac_display_plan_apply (ls : list guac_display_layer)
    (ops : list guac_display_plan_operation)
    : run (list instruction * list guac_display_plan_operation) :=
  match ops with
  | [] => Run ([], [])
  | op :: ops =>
      '(sent, enqueue) ← apply_op ls op;
      '(rest, queue) ← guac_display_plan_apply ls ops;
      Run (sent ++ rest, if enqueue : bool then op :: queue else queue)
  end.

(** ** Completing the frame *)

(** The buffer of the last frame, and whether anything has been copied. *)

Definition commit_buffer (last pending : guac_display_layer_state) (pending_buffer : list Z)
    : run (guac_display_layer_state * bool) :=
  if negb ((buffer_stride last =? buffer_stride pending)
           && (buffer_width last =? buffer_width pending)
           && (buffer_height last =? buffer_height pending)) then
    size ← or_abort (PRIV_guac_mem_ckd_mul_or_die [u64 (buffer_height pending); buffer_stride pending]);
    b ← copy_words (size / 4) (replicate (Z.to_nat (size / 4)) 0) 0 pending_buffer 0;
    Run (last <| buffer := Some b |> <| buffer_stride := buffer_stride pending |>
           <| buffer_width := buffer_width pending |> <| buffer_height := buffer_height pending |>
           <| dirty := dirty pending |>, true)
  else if negb (guac_rect_is_empty (dirty pending)) then
    b ← deref (buffer last);
    b ← for_range 0 (height pending - 1) (λ y b,
          copy_words (width pending) b (y * buffer_stride last)
            pending_buffer (y * buffer_stride pending)) b;
    Run (last <| buffer := Some b |> <| dirty := dirty pending |>, true)
  else Run (last <| dirty := no_rect |>, false).

Definition commit_size (layer : Z) (last pending : guac_display_layer_state)
    : guac_display_layer_state * list instruction :=
  if (width pending =? width last) && (height pending =? height last) then (last, [])
  else (last <| width := width pending |> <| height := height pending |>,
        [Size layer (width pending) (height pending)]).

Definition commit_opacity (layer : Z) (last pending : guac_display_layer_state)
    : guac_display_layer_state * list instruction :=
  if opacity pending =? opacity last then (last, [])
  else (last <| opacity := opacity pending |>, [Shade layer (opacity pending)]).

Definition commit_position (layer : Z) (last pending : guac_display_layer_state)
    : guac_display_layer_state * list instruction :=
  if (layer_x pending =? layer_x last) && (layer_y pending =? layer_y last)
     && (layer_z pending =? layer_z last) && (parent pending =? parent last) then (last, [])
  else (last <| layer_x := layer_x pending |> <| layer_y := layer_y pending |>
          <| layer_z := layer_z pending |> <| parent := parent pending |>,
        [Move layer (parent pending) (layer_x pending) (layer_y pending) (layer_z pending)]).

Definition commit_touches (layer : Z) (last pending : guac_display_layer_state)
    : guac_display_layer_state * list instruction :=
  if touches pending =? touches last then (last, [])
  else (last <| touches := touches pending |>, [Set_multi_touch layer (touches pending)]).

Definition is_nonempty {A} (l : list A) : bool := match l with [] => false | _ => true end.

Definition complete_layer (l : guac_display_layer) (pending_buffer : list Z)
    : run (guac_display_layer * bool * list instruction) :=
  let pending := pending_frame l in
  '(last, copied) ← commit_buffer (last_frame l) pending pending_buffer;
  let '(last, size) := commit_size (layer_index l) last pending in
  let '(last, shade) := commit_opacity (layer_index l) last pending in
  let '(last, move) := commit_position (layer_index l) last pending in
  let '(last, touch) := commit_touches (layer_index l) last pending in
  let last := last <| search_for_copies := search_for_copies pending |>
                   <| lossless := lossless pending |> in
  let pending := pending <| search_for_copies := false |> in
  let pending := if copied : bool then pending <| dirty := no_rect |> else pending in
  Run (l <| last_frame := last |> <| pending_frame := pending |> <| listed := true |>,
       copied || is_nonempty (size ++ shade ++ move), size ++ shade ++ move ++ touch).

(** The loop goes on without moving to the next layer where a buffer is [NULL]. *)

Fixpoint complete_layers (fuel current : nat) (ls : list guac_display_layer) (retval : bool)
    (sent : list instruction) : run (list guac_display_layer * bool * list instruction) :=
  match ls !! current with
  | None => Run (ls, retval, sent)
  | Some l =>
      match fuel with
      | O => Spin
      | S fuel =>
          match buffer (pending_frame l) with
          | None =>
              GUAC_ASSERT (buffer_is_external (pending_frame l));;
              complete_layers fuel current ls retval sent
          | Some pending_buffer =>
              '(l, changed, instructions) ← complete_layer l pending_buffer;
              complete_layers fuel (S current) (<[current := l]> ls) (retval || changed)
                (sent ++ instructions)
          end
      end
  end.

Definition LFR_guac_display_broadcast_cursor_state (last : guac_display_state) (user : Z)
    : list instruction :=
  if decide (Some user = cursor_user last) then []
  else [Mouse user (cursor_x last) (cursor_y last) (cursor_mask last) (timestamp last)].

Definition commit_cursor (users : list Z) (last pending : guac_display_state)
    : guac_display_state * list instruction :=
  let last := last <| timestamp := timestamp pending |> <| frames := frames pending |>
    <| cursor_hotspot_x := cursor_hotspot_x pending |>
    <| cursor_hotspot_y := cursor_hotspot_y pending |> in
  if (cursor_x pending =? cursor_x last) && (cursor_y pending =? cursor_y last)
     && (cursor_mask pending =? cursor_mask last) then (last, [])
  else
    let last := last <| cursor_user := cursor_user pending |> <| cursor_x := cursor_x pending |>
      <| cursor_y := cursor_y pending |> <| cursor_mask := cursor_mask pending |> in
    (last, mjoin (LFR_guac_display_broadcast_cursor_state last <$> users)).

Definition PFW_LFW_guac_display_frame_complete (fuel : nat) (users : list Z) (d : guac_display)
    : run (guac_display * bool * list instruction) :=
  '(ls, retval, sent) ← complete_layers fuel 0 (layers d) false [];
  let '(last, mouse) := commit_cursor users (last_state d) (pending_state d) in
  Run (d <| layers := ls |> <| last_state := last |>
         <| pending_state := (pending_state d) <| frames := 0 |> |>
         <| pending_frame_dirty_excluding_mouse := false |>, retval, sent ++ mouse).

(** ** Ending frames *)

(** The optimisation passes. *)

Definition optimise (ls : list guac_display_layer) (ops : list guac_display_plan_operation)
    : run (list guac_display_layer * list guac_display_plan_operation) :=
  ops ← PFR_guac_display_plan_rewrite_as_rects ls ops;
  ops_by_hash ← PFR_guac_display_plan_index_dirty_cells ls ops;
  ops ← PFR_LFR_guac_display_plan_rewrite_as_copies ls ops_by_hash ops;
  '(ls, ops) ← PFW_guac_display_plan_combine_horizontally ls ops;
  PFW_guac_display_plan_combine_vertically ls ops.

(** The operation that only wakes the workers. *)

Definition end_frame_op : guac_display_plan_operation :=
  mk_op 0 GUAC_DISPLAY_PLAN_OPERATION_NOP no_rect 0 0 0 No_source.

(** The display, the instructions sent and the operations enqueued. *)

Definition guac_display_end_multiple_frames (fuel : nat) (now : Z) (users : list Z) (n : Z)
    (d : guac_display) : run (guac_display * list instruction * list guac_display_plan_operation) :=
  let d := d <| pending_state := (pending_state d) <| frames := u32 (frames (pending_state d) + n) |> |>
             <| frame_deferred := busy d |> in
  if busy d then Run (d, [], [])
  else
    '(ls, plan) ← PFW_LFR_guac_display_plan_create fuel now (layers d);
    '(d, plan) ← match plan with
      | None => Run (d <| layers := ls |>, None)
      | Some ops =>
          '(ls, ops) ← optimise ls ops;
          Run (d <| layers := ls |> <| pending_state := (pending_state d) <| timestamp := now |> |>,
               Some ops)
      end;
    '(d, frame_nonempty, committed) ← PFW_LFW_guac_display_frame_complete fuel users d;
    '(sent, queue) ← match plan with
      | None => Run ([], [])
      | Some ops => guac_display_plan_apply (layers d) ops
      end;
    let queue := if frame_nonempty : bool then queue ++ [end_frame_op] else queue in
    Run (d <| busy := is_nonempty queue |>, committed ++ sent, queue).

Definition guac_display_end_frame (fuel : nat) (now : Z) (users : list Z) (d : guac_display)
    : run (guac_display * list instruction * list guac_display_plan_operation) :=
  guac_display_end_multiple_frames fuel now users 0 d.

Definition guac_display_end_mouse_frame (fuel : nat) (now : Z) (users : list Z) (d : guac_display)
    : run (guac_display * list instruction * list guac_display_plan_operation) :=
  if pending_frame_dirty_excluding_mouse d then Run (d, [], [])
  else guac_display_end_multiple_frames fuel now users 0 d.

Definition guac_display_notify_user_moved_mouse (fuel : nat) (now : Z) (users : list Z)
    (user x y mask : Z) (d : guac_display)
    : run (guac_display * list instruction * list guac_display_plan_operation) :=
  guac_display_end_mouse_frame fuel now users
    (d <| pending_state := (pending_state d) <| cursor_user := Some user |> <| cursor_x := x |>
            <| cursor_y := y |> <| cursor_mask := mask |> |>).

(** A user that has left: its address may be used again. *)

Definition guac_display_notify_user_left (user : Z) (d : guac_display) : guac_display :=
  if decide (cursor_user (pending_state d) = Some user)
  then d <| pending_state := (pending_state d) <| cursor_user := None |> |> else d.

(** ** Workers *)

Definition guac_display_suggest_quality (lag : Z) : Z :=
  let quality := i32 (90 - i32 (lag - 20)) in
  if 90 <? quality then 90 else if quality <? 30 then 30 else quality.

(** The counts of pixels that are the same as the one before in their row, and that are not. *)

Definition count_pixel (b : list Z) (row : Z) (i : Z) (s : Z * Z * Z) : run (Z * Z * Z) :=
  let '(last_pixel, num_same, num_different) := s in
  v ← word_at b (row + 4 * i);
  let current_pixel := Z.lor v 0xFF000000 in
  Run (if current_pixel =? last_pixel then (current_pixel, num_same + 1, num_different)
       else (current_pixel, num_same, num_different + 1)).

Definition LFR_guac_display_layer_png_optimality (l : guac_display_layer) (rect : guac_rect) : run Z :=
  p ← GUAC_RECT_BUFFER rect (buffer_stride (last_frame l)) GUAC_DISPLAY_LAYER_RAW_BPP;
  if (right rect - left rect <? 1) || (bottom rect - top rect <? 1) then Run 0
  else
    b ← deref (buffer (last_frame l));
    '(num_same, num_different) ← for_range (top rect) (bottom rect - 1) (λ y s,
        let row := p + (y - top rect) * buffer_stride (last_frame l) in
        first ← word_at b row;
        '(_, num_same, num_different) ← for_range (left rect + 1) (right rect - 1)
          (λ x, count_pixel b row (x - left rect)) (Z.lor first 0xFF000000, s.1, s.2);
        Run (num_same, num_different)) (0, 1);
    Run (i32 (Z.quot (i32 (0x100 * num_same)) num_different - 0x400)).

Definition LFR_guac_display_layer_should_use_jpeg (l : guac_display_layer) (rect : guac_rect)
    (framerate : Z) : run bool :=
  if negb (lossless (last_frame l) =? 0) then Run false
  else
    let rect_size := i32 ((right rect - left rect) * (bottom rect - top rect)) in
    if (GUAC_DISPLAY_JPEG_FRAMERATE <=? framerate)
       && (GUAC_DISPLAY_JPEG_MIN_BITMAP_SIZE <? rect_size)
    then optimality ← LFR_guac_display_layer_png_optimality l rect; Run (optimality <? 0)
    else Run false.

Definition LFR_guac_display_layer_should_use_webp (supports_webp : bool) (l : guac_display_layer)
    (rect : guac_rect) (framerate : Z) : run bool :=
  if negb supports_webp then Run false
  else if GUAC_DISPLAY_JPEG_FRAMERATE <=? framerate
  then optimality ← LFR_guac_display_layer_png_optimality l rect; Run (optimality <? 0)
  else Run false.

Definition guac_display_layer_clear_non_opaque (l : guac_display_layer) (dirty : guac_rect)
    : list instruction :=
  if opaque l then []
  else
    [Rectangle (layer_index l) (left dirty) (top dirty) (guac_rect_width dirty) (guac_rect_height dirty);
     Cfill GUAC_COMP_ROUT (layer_index l) 0 0 0 0xFF].

(** What an encoder reads of a rectangle. *)

Fixpoint read_words (n : nat) (b : list Z) (p : Z) : run (list Z) :=
  match n with
  | O => Run []
  | S n => v ← word_at b p; rest ← read_words n b (p + 4); Run (v :: rest)
  end.

Fixpoint read_rows (n : nat) (width : nat) (b : list Z) (p stride : Z) : run (list (list Z)) :=
  match n with
  | O => Run []
  | S n => row ← read_words width b p; rest ← read_rows n width b (p + stride) stride; Run (row :: rest)
  end.

Definition LFR_guac_display_layer_cairo_rect (l : guac_display_layer) (dirty : guac_rect)
    : run (list (list Z)) :=
  p ← GUAC_RECT_BUFFER dirty (buffer_stride (last_frame l)) GUAC_DISPLAY_LAYER_RAW_BPP;
  b ← deref (buffer (last_frame l));
  read_rows (Z.to_nat (guac_rect_height dirty)) (Z.to_nat (guac_rect_width dirty)) b p
    (buffer_stride (last_frame l)).

(** [lag] is the processing lag of the client. *)

Definition encoding_of (supports_webp : bool) (lag : Z) (l : guac_display_layer)
    (dirty : guac_rect) (framerate : Z) : run image_encoding :=
  webp ← LFR_guac_display_layer_should_use_webp supports_webp l dirty framerate;
  if webp : bool then
    Run (Webp (guac_display_suggest_quality lag) (negb (lossless (last_frame l) =? 0)))
  else
    jpeg ← (if opaque l then LFR_guac_display_layer_should_use_jpeg l dirty framerate else Run false);
    Run (if jpeg : bool then Jpeg (guac_display_suggest_quality lag) else Png).

Definition worker_op (supports_webp : bool) (lag : Z) (ls : list guac_display_layer)
    (op : guac_display_plan_operation) : run (list instruction) :=
  match op_type op with
  | GUAC_DISPLAY_PLAN_OPERATION_IMG =>
      l ← deref (ls !! op_layer op);
      let framerate := if op_last_frame op <? op_current_frame op
                       then i32 (Z.quot 1000 (op_current_frame op - op_last_frame op)) else INT_MAX in
      rows ← LFR_guac_display_layer_cairo_rect l (op_dest op);
      encoding ← encoding_of supports_webp lag l (op_dest op) framerate;
      Run (guac_display_layer_clear_non_opaque l (op_dest op)
           ++ [Image encoding (negb (opaque l)) GUAC_COMP_OVER (layer_index l)
                 (left (op_dest op)) (top (op_dest op)) rows])
  | _ => Run []
  end.

(** What has changed of a layer, copied to the buffer that holds its last frame. *)

Definition commit_layer (l : guac_display_layer) : list instruction :=
  let r := dirty (last_frame l) in
  if guac_rect_is_empty r then []
  else
    (if opaque l then []
     else [Rectangle (last_frame_buffer l) (left r) (top r) (guac_rect_width r) (guac_rect_height r);
           Cfill GUAC_COMP_RATOP (last_frame_buffer l) 0 0 0 0])
    ++ [Copy (layer_index l) (left r) (top r) (guac_rect_width r) (guac_rect_height r) GUAC_COMP_OVER
          (last_frame_buffer l) (left r) (top r)].

(** The worker that is the only one active and finds the queue empty.  [cursor] is the layer of the
    mouse cursor. *)

Definition worker_end_of_frame (cursor : guac_display_layer) (d : guac_display)
    : guac_display * list instruction :=
  (d <| busy := false |>,
   (if guac_rect_is_empty (dirty (last_frame cursor)) then []
    else [Cursor (cursor_hotspot_x (last_state d)) (cursor_hotspot_y (last_state d))
            (layer_index cursor) (width (last_frame cursor)) (height (last_frame cursor))])
   ++ [Sync (frames (last_state d))]
   ++ mjoin (commit_layer <$> List.filter listed (layers d))).
