(* ===== verification/DisplayDraftSpec.v ===== *)
(** * Drafts cover what has changed (specification of DisplayPlan.v)

    Comparing two lines finds the shortest segment that holds every difference; comparing two frames
    marks, in each cell, a rectangle of the cell that holds every changed pixel, counts the cells
    that have one, and makes them the operations of the plan. *)

From S2P Require Import Prelude RecordUpdate Mem Run Rect ProtocolTypes Display DisplayPlan.
Local Open Scope Z_scope.

Local Abbreviation len l := (Z.of_nat (List.length l)).

(** ** Lines *)

Section lines.
Context (a : list Z) (pa : Z) (b : list Z) (pb : Z) (f g : Z → Z).

Definition reads (first bound : Z) : Prop :=
  ∀ k, first ≤ k < bound → word_at a (pa + 4 * k) = Run (f k) ∧ word_at b (pb + 4 * k) = Run (g k).

Lemma memcmp_first_spec n first :
  reads first (first + Z.of_nat n) →
  ∃ r, memcmp_first n first a pa b pb = Run r ∧ first ≤ r ≤ first + Z.of_nat n ∧
    (∀ k, first ≤ k < r → f k = g k) ∧ (r < first + Z.of_nat n → f r ≠ g r).
Proof.
  revert first. induction n as [|n IH]; intros first Hr; cbn [memcmp_first].
  { exists first. split_and!; [done|lia..]. }
  destruct (Hr first ltac:(lia)) as [-> ->]. rewrite !run_bind_run.
  destruct (Z.eqb_spec (f first) (g first)) as [E|E].
  - destruct (IH (first + 1)) as (r & -> & Hle & Heq & Hne).
    { intros k Hk. apply Hr. lia. }
    exists r. split_and!; [done|lia..| |].
    + intros k Hk. destruct (decide (k = first)) as [->|]; [done|]. apply Heq. lia.
    + intros Hlt. apply Hne. lia.
  - exists first. split_and!; [done|lia..|done].
Qed.

Lemma memcmp_last_spec n last offset :
  last < offset → reads offset (offset + Z.of_nat n) → f last ≠ g last →
  ∃ r, memcmp_last n last offset a pa b pb = Run r ∧ last ≤ r < offset + Z.of_nat n ∧ f r ≠ g r ∧
    (∀ k, offset ≤ k < offset + Z.of_nat n → f k ≠ g k → k ≤ r).
Proof.
  revert last offset. induction n as [|n IH]; intros last offset Hlt Hr Hd; cbn [memcmp_last].
  { exists last. split_and!; [done|lia..|done|lia]. }
  destruct (Hr offset ltac:(lia)) as [-> ->]. rewrite !run_bind_run.
  destruct (IH (if f offset =? g offset then last else offset) (offset + 1)) as (r & -> & Hb & Hne & Hk).
  - zif; lia.
  - intros k Hk. apply Hr. lia.
  - by zif.
  - exists r. assert (last ≤ r ∧ (f offset ≠ g offset → offset ≤ r)) as [? ?].
    { destruct (Z.eqb_spec (f offset) (g offset)); split; lia. }
    split_and!; [done|lia..|done|]. intros k Hko Hkd.
    destruct (decide (k = offset)) as [->|]; [auto|]. apply Hk; [lia|done].
Qed.

(** The result of comparing two lines of [count] pixels. *)

Definition difference_of (count : Z) (d : option (Z * Z)) : Prop :=
  match d with
  | None => ∀ k, 0 ≤ k < count → f k = g k
  | Some (length, pos) =>
      0 ≤ pos ∧ 0 < length ∧ pos + length ≤ count ∧
      f pos ≠ g pos ∧ f (pos + length - 1) ≠ g (pos + length - 1) ∧
      (∀ k, 0 ≤ k < count → f k ≠ g k → pos ≤ k < pos + length)
  end.

(** [guac_display_memcmp] finds the shortest segment that holds all differences. *)

Lemma memcmp_ok count :
  0 ≤ count → reads 0 count →
  ∃ d, guac_display_memcmp a pa b pb count = Run d ∧ difference_of count d.
Proof.
  intros Hc Hr. unfold guac_display_memcmp.
  destruct (memcmp_first_spec (Z.to_nat count) 0) as (first & -> & Hle & Heq & Hne).
  { intros k Hk. apply Hr. lia. }
  rewrite run_bind_run. destruct (Z.leb_spec count first) as [Hcf|Hcf].
  - exists None. split; [done|]. intros k Hk. apply Heq. lia.
  - destruct (memcmp_last_spec (Z.to_nat (count - (first + 1))) first (first + 1))
      as (last & -> & Hb & Hd & Hk).
    + lia.
    + intros k Hk. apply Hr. lia.
    + apply Hne. lia.
    + rewrite run_bind_run. eexists. split; [done|]. cbn [difference_of].
      split_and!; [lia..|apply Hne; lia| |].
      * by replace (first + (last - first + 1) - 1) with last by lia.
      * intros k Hkc Hkd. destruct (decide (k < first)) as [|]; [destruct Hkd; apply Heq; lia|].
        destruct (decide (k = first)) as [->|]; [lia|]. specialize (Hk k ltac:(lia) Hkd). lia.
Qed.
End lines.

(** ** Cells *)

Definition dirty_cells (cells : list guac_display_layer_cell) : Z :=
  len (List.filter (λ c, negb (cell_dirty_size c =? 0)) cells).

Lemma dirty_cells_insert cells i c c' :
  cells !! i = Some c → cell_dirty_size c' ≠ 0 →
  dirty_cells (<[i := c']> cells) =
    dirty_cells cells + (if cell_dirty_size c =? 0 then 1 else 0).
Proof.
  intros Hi Hc'. unfold dirty_cells. rewrite <-(take_drop_middle cells i c) at 2 by done.
  rewrite insert_take_drop by (by eapply lookup_lt_Some).
  rewrite !List.filter_app. cbn [List.filter]. apply Z.eqb_neq in Hc'. rewrite Hc'. cbn [negb].
  destruct (cell_dirty_size c =? 0); cbn [negb]; rewrite !length_app; cbn [List.length]; lia.
Qed.

Lemma dirty_cells_le cells : 0 ≤ dirty_cells cells ≤ len cells.
Proof.
  unfold dirty_cells. induction cells as [|c cells IH]; cbn [List.filter]; [done|].
  destruct (negb _); cbn [List.length]; lia.
Qed.

Definition contains (r s : guac_rect) : Prop :=
  left r ≤ left s ∧ top r ≤ top s ∧ right s ≤ right r ∧ bottom s ≤ bottom r.

Lemma in_contains r s x y : contains r s → in_rect x y s → in_rect x y r.
Proof. unfold contains, in_rect. lia. Qed.

Lemma extend_contains_l r m : guac_rect_is_empty m = false → guac_rect_is_empty r = false →
  contains (guac_rect_extend r m) r.
Proof.
  intros Hm Hr. unfold guac_rect_extend. rewrite Hr. unfold contains. cbn [left top right bottom].
  repeat zif; lia.
Qed.

Lemma extend_contains_r r m : contains (guac_rect_extend r m) m.
Proof.
  unfold guac_rect_extend. destruct (guac_rect_is_empty r); unfold contains; [lia|].
  cbn [left top right bottom]. repeat zif; lia.
Qed.

Lemma extend_within b r m : contains b r → contains b m → contains b (guac_rect_extend r m).
Proof.
  unfold guac_rect_extend. destruct (guac_rect_is_empty r); [done|]. unfold contains.
  cbn [left top right bottom]. intros. repeat zif; lia.
Qed.

Lemma extend_nonempty r m :
  guac_rect_is_empty m = false → guac_rect_is_empty (guac_rect_extend r m) = false.
Proof.
  unfold guac_rect_extend. destruct (guac_rect_is_empty r) eqn:E; [done|].
  rewrite !is_empty_false in *. cbn [left top right bottom]. intros. repeat zif; lia.
Qed.

Definition framed (b r : guac_rect) : Prop :=
  contains b r ∧ left r ≤ right r ∧ top r ≤ bottom r.

Lemma extend_framed b r m :
  guac_rect_is_empty m = false → framed b r → contains b m → framed b (guac_rect_extend r m).
Proof.
  unfold framed. intros Hm (Hb & Hlr & Htb) Hbm. split; [by apply extend_within|].
  apply is_empty_false in Hm. unfold guac_rect_extend.
  destruct (guac_rect_is_empty r); cbn [left top right bottom]; [lia|]. repeat zif; lia.
Qed.

Lemma contains_trans r s t : contains r s → contains s t → contains r t.
Proof. unfold contains. lia. Qed.

Lemma contains_nonempty r s :
  contains r s → guac_rect_is_empty s = false → guac_rect_is_empty r = false.
Proof. rewrite !is_empty_false. unfold contains. lia. Qed.

Lemma contains_refl r : contains r r.
Proof. unfold contains. lia. Qed.

(** The pixels of the cell at a place of the array. *)

Definition cell_box (cells_width i : Z) : guac_rect :=
  mk_guac_rect (64 * (i mod cells_width)) (64 * (i / cells_width))
    (64 * (i mod cells_width) + 64) (64 * (i / cells_width) + 64).

Definition cell_index (cells_width x y : Z) : Z := y / 64 * cells_width + x / 64.

Lemma cell_box_index cw x y :
  0 ≤ x < 64 * cw → 0 ≤ y → in_rect x y (cell_box cw (cell_index cw x y)).
Proof.
  intros Hx Hy. unfold in_rect, cell_box, cell_index. cbn [left top right bottom].
  assert (0 ≤ x / 64 < cw) by dlia.
  rewrite <-(Z.mod_unique_pos (y / 64 * cw + x / 64) cw (y / 64) (x / 64)) by lia.
  rewrite <-(Z.div_unique_pos (y / 64 * cw + x / 64) cw (y / 64) (x / 64)) by lia. dlia.
Qed.

Lemma in_cell_box cw i x y :
  0 < cw → 0 ≤ i → in_rect x y (cell_box cw i) → i = cell_index cw x y.
Proof.
  intros Hcw Hi. unfold in_rect, cell_box, cell_index. cbn [left top right bottom]. intros [Hx Hy].
  pose proof (Z.div_mod i cw ltac:(lia)).
  assert (x / 64 = i mod cw) as -> by dlia. assert (y / 64 = i / cw) as -> by dlia. lia.
Qed.

(** ** Refining a layer *)

(** A pixel of the pending frame that the last frame does not have. *)

Definition differs (l : guac_display_layer) (x y : Z) : Prop :=
  width (last_frame l) ≤ x ∨ height (last_frame l) ≤ y ∨
  pixel (pending_frame l) x y ≠ pixel (last_frame l) x y.

(** The frames of a layer are in their buffers and its cells cover the pending one. *)

Record layer_ok (l : guac_display_layer) : Prop := {
  ok_pending : state_ok (pending_frame l);
  ok_last : state_ok (last_frame l);
  ok_cells : 0 ≤ pending_frame_cells_width l ≤ 128 ∧ 0 ≤ pending_frame_cells_height l ≤ 128 ∧
    width (pending_frame l) ≤ 64 * pending_frame_cells_width l ∧
    height (pending_frame l) ≤ 64 * pending_frame_cells_height l;
  ok_array : len (pending_frame_cells l) = pending_frame_cells_width l * pending_frame_cells_height l;
}.

Section refining.
Context (l : guac_display_layer) (Hl : layer_ok l).

Local Abbreviation cw := (pending_frame_cells_width l).

(** A cell that is marked has a rectangle within the cell and the frame. *)

Definition cell_ok (refined : guac_rect) (i : Z) (c : guac_display_layer_cell) : Prop :=
  0 ≤ cell_dirty_size c ∧
  (cell_dirty_size c ≠ 0 →
   guac_rect_is_empty (cell_dirty c) = false ∧ contains (cell_box cw i) (cell_dirty c) ∧
   contains (bounds_of (pending_frame l)) (cell_dirty c) ∧ contains refined (cell_dirty c)).

Definition covered (cells : list guac_display_layer_cell) (x y : Z) : Prop :=
  ∃ c, cells !! Z.to_nat (cell_index cw x y) = Some c ∧ cell_dirty_size c ≠ 0 ∧
    in_rect x y (cell_dirty c).

(** The pixels of [done] have been compared; no more than [bound] of a cell are marked. *)

Record drafted (count : Z) (done : Z → Z → Prop) (bound : Z → Z) (r : refinement) : Prop := {
  drafted_length : len (refined_cells r) = len (pending_frame_cells l);
  drafted_covers : ∀ x y, done x y → differs l x y → covered (refined_cells r) x y;
  drafted_cells : ∀ i c, refined_cells r !! i = Some c → cell_ok (refined_dirty r) (Z.of_nat i) c;
  drafted_bound : ∀ i c, refined_cells r !! i = Some c → cell_dirty_size c ≤ bound (Z.of_nat i);
  drafted_count : op_count r = count + dirty_cells (refined_cells r);
  drafted_within : framed (bounds_of (pending_frame l)) (refined_dirty r);
}.

Lemma drafted_weaken count (done done' : Z → Z → Prop) (bound bound' : Z → Z) r :
  drafted count done bound r →
  (∀ x y, done' x y → differs l x y → done x y) →
  (∀ i, 0 ≤ i < len (pending_frame_cells l) → bound i ≤ bound' i) →
  drafted count done' bound' r.
Proof.
  intros [H1 H2 H3 H4 H5 H6] Hd Hb. split; [done| |done| |done..].
  - intros x y Hxy Hdf. apply H2; auto.
  - intros i c Hi. pose proof (lookup_lt_Some _ _ _ Hi). specialize (H4 i c Hi).
    specialize (Hb (Z.of_nat i)). lia.
Qed.

Lemma init_line x y w :
  0 ≤ x < 2 ^ 20 → 0 ≤ y < 2 ^ 20 → 0 < w < 2 ^ 20 →
  guac_rect_init x y w 1 = mk_guac_rect x y (x + w) (y + 1).
Proof.
  intros. unfold guac_rect_init. destruct (Z.ltb_spec 0 w); [|lia].
  cbn [Z.ltb Z.compare]. by rewrite !i32_small by (unfold is_i32; lia).
Qed.

(** Marking a segment of a line within a cell. *)

Lemma mark_ok count done bound r x y w i :
  drafted count done bound r → 0 ≤ count < 2 ^ 60 →
  0 ≤ i < len (pending_frame_cells l) → 0 < w ≤ 64 → bound i + w ≤ 4096 →
  let line := mk_guac_rect x y (x + w) (y + 1) in
  contains (cell_box cw i) line → contains (bounds_of (pending_frame l)) line →
  ∃ r', mark i x y w r = Run r' ∧
    drafted count (λ x' y', done x' y' ∨ in_rect x' y' line)
      (λ j, if j =? i then bound i + w else bound j) r'.
Proof using Hl.
  intros [Hlen Hcov Hcells Hbound Hcount Hwithin] Hc Hi Hw Hb line Hbox Hin.
  destruct (lookup_lt_is_Some_2 (refined_cells r) (Z.to_nat i)) as [c Hci]; [lia|].
  pose proof (Hcells _ _ Hci) as [Hc0 Hcok]. pose proof (Hbound _ _ Hci) as Hbc.
  rewrite Z2Nat.id in Hcok, Hbc by lia.
  assert (Hxy : 0 ≤ x < 2 ^ 20 ∧ 0 ≤ y < 2 ^ 20).
  { destruct (ok_pending _ Hl) as [? ? ? _ _]. unfold contains in Hin. subst line.
    cbn [bounds_of left top right bottom] in Hin. lia. }
  pose proof (dirty_cells_le (refined_cells r)) as Hdc.
  assert (Hsmall : len (refined_cells r) ≤ 16384).
  { destruct (ok_cells _ Hl) as (? & ? & _). rewrite Hlen, (ok_array _ Hl). nia. }
  assert (Hline : guac_rect_is_empty line = false).
  { apply is_empty_false. subst line. cbn [left top right bottom]. lia. }
  unfold mark. rewrite Hci. cbn [deref]. rewrite run_bind_run.
  unfold guac_display_plan_mark_dirty.
  set (cell' := if cell_dirty_size c =? 0 then c <| cell_dirty := line |> <| cell_dirty_size := w |>
     else c <| cell_dirty := guac_rect_extend (cell_dirty c) line |>
            <| cell_dirty_size := cell_dirty_size c + w |>).
  exists (mk_refinement (<[Z.to_nat i := cell']> (refined_cells r))
       (op_count r + (if cell_dirty_size c =? 0 then 1 else 0))
       (guac_rect_extend (refined_dirty r) (cell_dirty cell'))).
  split.
  { subst cell'. rewrite init_line by lia. fold line.
    destruct (cell_dirty_size c =? 0).
    - rewrite (u64_small (op_count r + 1)), (u64_small w) by (unfold is_u64; lia). done.
    - rewrite u64_small by (unfold is_u64; lia). by rewrite Z.add_0_r. }
  assert (Hs' : cell_dirty_size cell' ≠ 0 ∧ 0 ≤ cell_dirty_size cell' ≤ bound i + w).
  { subst cell'. destruct (Z.eqb_spec (cell_dirty_size c) 0); cbn [cell_dirty_size set eta_cell]; lia. }
  assert (Hr' : guac_rect_is_empty (cell_dirty cell') = false ∧ contains (cell_dirty cell') line ∧
     (cell_dirty_size c ≠ 0 → contains (cell_dirty cell') (cell_dirty c)) ∧
     contains (cell_box cw i) (cell_dirty cell') ∧
     contains (bounds_of (pending_frame l)) (cell_dirty cell')).
  { subst cell'. destruct (Z.eqb_spec (cell_dirty_size c) 0) as [E|E].
    - cbn [cell_dirty set eta_cell cell_dirty_size cell_last_frame related_op]. split_and!; [done|apply contains_refl|done..].
    - destruct (Hcok E) as (He & Hbx & Hbd & _).
      cbn [cell_dirty set eta_cell cell_dirty_size cell_last_frame related_op].
      split_and!; [by apply extend_nonempty|apply extend_contains_r|intros _; by apply extend_contains_l
        |by apply extend_within..]. }
  destruct Hr' as (Hne & Hcl & Hcc & Hcb & Hcbd).
  split; cbn [refined_cells op_count refined_dirty].
  - by rewrite length_insert.
  - intros x' y' Hd Hdf. unfold covered.
    destruct (decide (Z.to_nat (cell_index cw x' y') = Z.to_nat i)) as [E|E].
    + exists cell'. rewrite E, list_lookup_insert_eq by (by eapply lookup_lt_Some).
      split_and!; [done|lia|]. destruct Hd as [Hd|Hd]; [|by eapply in_contains].
      destruct (Hcov x' y' Hd Hdf) as (c' & Hc' & Hn & Hinr). rewrite E in Hc'. simplify_eq.
      eapply in_contains; [by apply Hcc|done].
    + rewrite list_lookup_insert_ne by done. destruct Hd as [Hd|Hd]; [by apply Hcov|].
      destruct E. f_equal. symmetry.
      destruct (ok_cells _ Hl) as (? & ? & _). pose proof (ok_array _ Hl).
      apply in_cell_box; [nia|lia|]. exact (in_contains _ _ _ _ Hbox Hd).
  - intros j cj Hj. destruct (decide (j = Z.to_nat i)) as [->|E].
    + rewrite list_lookup_insert_eq in Hj by (by eapply lookup_lt_Some). simplify_eq.
      rewrite Z2Nat.id by lia. split; [lia|]. intros _. split_and!; [done..|apply extend_contains_r].
    + rewrite list_lookup_insert_ne in Hj by done. destruct (Hcells _ _ Hj) as [H0 H].
      split; [done|]. intros Hn. destruct (H Hn) as (Hj1 & Hj2 & Hj3 & Hj4).
      split_and!; [done..|]. eapply contains_trans; [|done].
      apply extend_contains_l; [done|]. by eapply contains_nonempty.
  - intros j cj Hj. destruct (decide (j = Z.to_nat i)) as [->|E].
    + rewrite list_lookup_insert_eq in Hj by (by eapply lookup_lt_Some). simplify_eq.
      rewrite Z2Nat.id, Z.eqb_refl by lia. lia.
    + rewrite list_lookup_insert_ne in Hj by done. zif; [lia|]. by apply Hbound.
  - rewrite (dirty_cells_insert _ _ c cell') by (done || lia). lia.
  - by apply extend_framed.
Qed.

Context (bp bq : list Z) (Hbp : buffer (pending_frame l) = Some bp)
  (Hbq : buffer (last_frame l) = Some bq).
Context (D : guac_rect) (HD : contains (bounds_of (pending_frame l)) D).

Lemma mark_grows count done bound r x y w i :
  drafted count done bound r → 0 ≤ count < 2 ^ 60 →
  0 ≤ i < len (pending_frame_cells l) → 0 < w ≤ 64 → bound i + w ≤ 4096 →
  contains (cell_box cw i) (mk_guac_rect x y (x + w) (y + 1)) →
  contains (bounds_of (pending_frame l)) (mk_guac_rect x y (x + w) (y + 1)) →
  ∃ r', mark i x y w r = Run r' ∧
    drafted count (λ x' y', done x' y' ∨ in_rect x' y' (mk_guac_rect x y (x + w) (y + 1)))
      (λ j, if j =? i then bound i + w else bound j) r'.
Proof using Hl. intros. by apply (mark_ok _ done). Qed.

(** The pixels of the part of line [y] that starts at [corner_x]. *)

Definition segment (corner_x y : Z) : guac_rect :=
  mk_guac_rect corner_x y (Z.min (corner_x + 64) (right D)) (y + 1).

Lemma in_frame x y : in_rect x y D →
  0 ≤ x < buffer_width (pending_frame l) ∧ 0 ≤ y < buffer_height (pending_frame l) ∧
  x < 8192 ∧ y < 8192 ∧ 0 < cw ∧ x / 64 < cw ∧ y / 64 < pending_frame_cells_height l.
Proof using Hl HD.
  destruct (ok_pending _ Hl) as [? ? ? _ _], (ok_cells _ Hl) as (? & ? & ? & ?).
  unfold contains in HD. cbn [bounds_of left top right bottom] in HD. unfold in_rect. intros ?.
  split_and!; try lia; dlia.
Qed.

Lemma index_in_array x y : in_rect x y D → 0 ≤ cell_index cw x y < len (pending_frame_cells l).
Proof using Hl HD.
  intros Hin. destruct (in_frame x y Hin) as (? & ? & ? & ? & ? & ? & ?).
  rewrite (ok_array _ Hl). unfold cell_index. assert (0 ≤ y / 64) by dlia. assert (0 ≤ x / 64) by dlia.
  nia.
Qed.

Lemma refine_line_ok count done bound r corner_x y :
  drafted count done bound r → 0 ≤ count < 2 ^ 60 →
  (64 | corner_x) → in_rect corner_x y D →
  let i := cell_index cw corner_x y in
  bound i + 64 ≤ 4096 →
  ∃ r', refine_line l bp bq D y corner_x i (address (pending_frame l) corner_x y)
          (address (last_frame l) corner_x y) r = Run r' ∧
    drafted count (λ x' y', done x' y' ∨ in_rect x' y' (segment corner_x y))
      (λ j, if j =? i then bound i + 64 else bound j) r'.
Proof using All.
  intros Hr Hc Hx Hin i Hb.
  destruct (in_frame _ _ Hin) as (Hpx & Hpy & ? & ? & ? & ? & ?).
  pose proof (index_in_array _ _ Hin) as Hi. fold i in Hi.
  assert (Hbox : ∀ x w, corner_x ≤ x → 0 < w → x + w ≤ corner_x + 64 →
    contains (cell_box cw i) (mk_guac_rect x y (x + w) (y + 1))).
  { intros x w ? ? ?. pose proof (cell_box_index cw corner_x y ltac:(dlia) ltac:(lia)) as Hci.
    fold i in Hci. unfold in_rect, contains, cell_box in *. cbn [left top right bottom] in *.
    destruct Hx as [kx ->]. destruct Hci as [Hcx Hcy]. lia. }
  assert (Hbd : ∀ x w, corner_x ≤ x → x + w ≤ right D →
    contains (bounds_of (pending_frame l)) (mk_guac_rect x y (x + w) (y + 1))).
  { intros x w ? ?. unfold contains, in_rect in *. cbn [bounds_of left top right bottom] in *. lia. }
  unfold refine_line, GUAC_DISPLAY_CELL_SIZE.
  set (w := if right D <? corner_x + 64 then right D - corner_x else 64).
  assert (Hw : w = Z.min (corner_x + 64) (right D) - corner_x ∧ 0 < w ≤ 64).
  { subst w. unfold in_rect in Hin. zif; lia. }
  clearbody w. destruct Hw as [Hw Hw64].
  rewrite (assert_leb 0 w) by lia. rewrite run_bind_run.
  destruct ((height (last_frame l) <=? y) || (width (last_frame l) <=? corner_x)) eqn:Eout.
  { destruct (mark_grows count done bound r corner_x y w i Hr Hc Hi Hw64 ltac:(lia)) as (r' & E & Hr').
    { apply Hbox; lia. } { apply Hbd; lia. }
    exists r'. split; [done|]. eapply drafted_weaken; [exact Hr'| |].
    - intros x' y' [?|Hs] _; [by left|]. right. unfold segment in Hs.
      replace (corner_x + w) with (Z.min (corner_x + 64) (right D)) by lia. done.
    - intros j Hj. cbn beta. zif; lia. }
  zbool_hyps.
  set (cwid := if width (last_frame l) <? corner_x + w then width (last_frame l) - corner_x else w).
  assert (Hcw : cwid = Z.min w (width (last_frame l) - corner_x) ∧ 0 < cwid ≤ w).
  { subst cwid. zif; lia. }
  clearbody cwid. destruct Hcw as [Hcwid Hcw0].
  rewrite (assert_leb 0 cwid) by lia. rewrite run_bind_run.
  assert (Hr1 : ∃ r1, (if cwid <? w then mark i (corner_x + cwid) y (w - cwid) r else Run r) = Run r1 ∧
    drafted count (λ x' y', done x' y' ∨ (in_rect x' y' (segment corner_x y) ∧ corner_x + cwid ≤ x'))
      (λ j, if j =? i then bound i + (w - cwid) else bound j) r1).
  { destruct (Z.ltb_spec cwid w).
    - destruct (mark_grows count done bound r (corner_x + cwid) y (w - cwid) i Hr Hc Hi)
        as (r1 & E & Hr1); [lia..|apply Hbox; lia|apply Hbd; lia|].
      exists r1. split; [done|]. eapply drafted_weaken; [exact Hr1| |].
      + intros x' y' [?|[Hs ?]] _; [by left|]. right. unfold segment, in_rect in *.
        cbn [left top right bottom] in *. lia.
      + intros j Hj. cbn beta. zif; lia.
    - exists r. split; [done|]. eapply drafted_weaken; [exact Hr| |].
      + intros x' y' [?|[Hs ?]] _; [done|]. unfold segment, in_rect in Hs.
        cbn [left top right bottom] in Hs. lia.
      + intros j Hj. zif; [|lia]. replace j with i by lia. lia. }
  destruct Hr1 as (r1 & -> & Hr1). rewrite run_bind_run.
  destruct (memcmp_ok bp (address (pending_frame l) corner_x y) bq (address (last_frame l) corner_x y)
    (λ k, pixel (pending_frame l) (corner_x + k) y) (λ k, pixel (last_frame l) (corner_x + k) y) cwid)
    as (d & -> & Hd).
  { lia. }
  { destruct (ok_last _ Hl) as [? ? ? _ _]. destruct (ok_pending _ Hl) as [? ? ? _ _].
    unfold contains in HD. cbn [bounds_of left top right bottom] in HD. unfold in_rect in Hin.
    intros k Hk. split.
    - rewrite <-(read_pixel _ _ _ _ (ok_pending _ Hl) Hbp) by lia. f_equal. unfold address. lia.
    - rewrite <-(read_pixel _ _ _ _ (ok_last _ Hl) Hbq) by lia. f_equal. unfold address. lia. }
  rewrite run_bind_run.
  assert (Hdf : ∀ x', corner_x ≤ x' < corner_x + cwid → differs l x' y →
    pixel (pending_frame l) (corner_x + (x' - corner_x)) y ≠
    pixel (last_frame l) (corner_x + (x' - corner_x)) y).
  { intros x' Hx' [?|[?|?]]; [lia..|]. by replace (corner_x + (x' - corner_x)) with x' by lia. }
  destruct d as [[length pos]|]; cbn [difference_of] in Hd.
  - destruct Hd as (Hp0 & Hl0 & Hpl & _ & _ & Hd).
    destruct (mark_grows _ _ _ r1 (corner_x + pos) y length i Hr1 Hc Hi) as (r2 & -> & Hr2);
      [lia|rewrite Z.eqb_refl; lia|apply Hbox; lia|apply Hbd; lia|].
    exists r2. split; [done|]. eapply drafted_weaken; [exact Hr2| |].
    + intros x' y' [?|Hs] Hdiff; [by left; left|].
      destruct (decide (corner_x + cwid ≤ x')); [by left; right|]. right.
      unfold segment, in_rect in *. cbn [left top right bottom] in *.
      assert (y' = y) as -> by lia. specialize (Hd (x' - corner_x) ltac:(lia)).
      specialize (Hd (Hdf x' ltac:(lia) Hdiff)). lia.
    + intros j Hj. cbn beta. rewrite Z.eqb_refl. zif; lia.
  - exists r1. split; [done|]. eapply drafted_weaken; [exact Hr1| |].
    + intros x' y' [?|Hs] Hdiff; [by left|].
      destruct (decide (corner_x + cwid ≤ x')); [by right|].
      exfalso. unfold segment, in_rect in *. cbn [left top right bottom] in *.
      assert (y' = y) as -> by lia. apply (Hdf x' ltac:(lia) Hdiff), Hd. lia.
    + intros j Hj. cbn beta. zif; lia.
Qed.

Context (HDx : (64 | left D)) (HDy : (64 | top D)).

Local Abbreviation columns := (cell_steps (left D) (right D)).

Lemma steps_spec first bound k :
  0 ≤ k → k ≤ cell_steps first bound - 1 ↔ first + 64 * k < bound.
Proof. unfold cell_steps, GUAC_DISPLAY_CELL_SIZE. intros. dlia. Qed.

Lemma steps_past first bound : bound ≤ first + 64 * Z.max 0 (cell_steps first bound).
Proof. unfold cell_steps, GUAC_DISPLAY_CELL_SIZE. dlia. Qed.

(** A whole line. *)

Lemma refine_row_ok count done bound r y :
  drafted count done bound r → 0 ≤ count < 2 ^ 60 → top D ≤ y < bottom D →
  let i := cell_index cw (left D) y in
  (∀ j, i ≤ j < i + columns → bound j + 64 ≤ 4096) →
  ∃ r', refine_row l bp bq D y i (address (pending_frame l) (left D) y)
          (address (last_frame l) (left D) y) r = Run r' ∧
    drafted count (λ x' y', done x' y' ∨ (in_rect x' y' D ∧ y' = y))
      (λ j, if decide (i ≤ j < i + columns) then bound j + 64 else bound j) r'.
Proof using All.
  intros Hr Hc Hy i Hb. unfold refine_row, GUAC_DISPLAY_CELL_SIZE.
  destruct (for_range_inv_max (λ k r, drafted count
      (λ x' y', done x' y' ∨ (in_rect x' y' D ∧ y' = y ∧ x' < left D + 64 * k))
      (λ j, if decide (i ≤ j < i + k) then bound j + 64 else bound j) r)
    0 (columns - 1) (λ k, refine_line l bp bq D y (left D + 64 * k) (i + k)
      (address (pending_frame l) (left D) y + 4 * 64 * k)
      (address (last_frame l) (left D) y + 4 * 64 * k)) r) as (r' & E & Hr').
  - eapply drafted_weaken; [exact Hr| |].
    + intros x' y' [?|(Hin & -> & ?)] _; [done|]. unfold in_rect in Hin. lia.
    + intros j Hj. case_decide; lia.
  - intros k t Hk Ht.
    assert (Hin : in_rect (left D + 64 * k) y D).
    { unfold in_rect. pose proof (proj1 (steps_spec (left D) (right D) k ltac:(lia)) ltac:(lia)). lia. }
    assert (Hi : i + k = cell_index cw (left D + 64 * k) y).
    { unfold i, cell_index. destruct HDx as [d ->].
      replace (d * 64 + 64 * k) with ((d + k) * 64) by lia. rewrite !Z.div_mul by lia. lia. }
    rewrite Hi.
    replace (address (pending_frame l) (left D) y + 4 * 64 * k)
      with (address (pending_frame l) (left D + 64 * k) y) by (unfold address; lia).
    replace (address (last_frame l) (left D) y + 4 * 64 * k)
      with (address (last_frame l) (left D + 64 * k) y) by (unfold address; lia).
    destruct (refine_line_ok _ _ _ t (left D + 64 * k) y Ht Hc) as (t' & E & Ht').
    + apply Z.divide_add_r; [done|]. apply Z.divide_factor_l.
    + done.
    + rewrite <-Hi. case_decide; [lia|]. apply Hb. lia.
    + exists t'. split; [done|]. eapply drafted_weaken; [exact Ht'| |].
      * intros x' y' [?|(Hin' & -> & ?)] _; [by left; left|].
        destruct (decide (x' < left D + 64 * k)); [left; right; done|]. right.
        unfold segment, in_rect in *. cbn [left top right bottom]. lia.
      * intros j Hj. cbn beta. rewrite <-Hi. repeat case_decide; zif; try lia.
        all: replace j with (i + k) by lia; lia.
  - exists r'. split; [exact E|]. eapply drafted_weaken; [exact Hr'| |].
    + intros x' y' [?|(Hin' & ->)] _; [by left|]. right. split_and!; [done..|].
      pose proof (steps_past (left D) (right D)) as Hp. unfold in_rect in Hin'.
      replace (columns - 1 + 1) with columns by lia. lia.
    + intros j Hj. cbn beta. repeat case_decide; lia.
Qed.

(** All lines. *)

Lemma refine_rows_ok count r :
  drafted count (λ _ _, False) (λ _, 0) r → 0 ≤ count < 2 ^ 60 →
  ∃ r', refine_rows l bp bq D (cell_index cw (left D) (top D))
          (address (pending_frame l) (left D) (top D)) (address (last_frame l) (left D) (top D)) r
        = Run r' ∧
    drafted count (λ x y, in_rect x y D) (λ _, 4096) r'.
Proof using All.
  intros Hr Hc. unfold refine_rows. set (i := cell_index cw (left D) (top D)).
  assert (Hcols : 0 ≤ i → columns ≤ 0 ∨ columns ≤ cw).
  { destruct (decide (columns ≤ 0)); [by left|]. right.
    pose proof (proj1 (steps_spec (left D) (right D) (columns - 1) ltac:(lia)) ltac:(lia)).
    destruct (ok_cells _ Hl) as (? & ? & ? & ?). unfold contains in HD.
    cbn [bounds_of left top right bottom] in HD. lia. }
  assert (Hcw0 : 0 ≤ cw) by (destruct (ok_cells _ Hl); lia).
  assert (Hi0 : 0 ≤ i).
  { unfold i, cell_index. unfold contains in HD. cbn [bounds_of left top right bottom] in HD.
    assert (0 ≤ top D / 64) by dlia. assert (0 ≤ left D / 64) by dlia. nia. }
  specialize (Hcols Hi0).
  destruct (for_range_inv_max (λ k r, drafted count
      (λ x' y', in_rect x' y' D ∧ y' < top D + 64 * k)
      (λ j, if decide (j < i + k * cw) then 4096 else 0) r)
    0 (cell_steps (top D) (bottom D) - 1) (λ k,
      let corner_y := top D + GUAC_DISPLAY_CELL_SIZE * k in
      let height := if bottom D <? corner_y + GUAC_DISPLAY_CELL_SIZE
                    then bottom D - corner_y else GUAC_DISPLAY_CELL_SIZE in
      for_range 0 (height - 1) (λ y_off,
        let line := GUAC_DISPLAY_CELL_SIZE * k + y_off in
        refine_row l bp bq D (corner_y + y_off) (i + k * cw)
          (address (pending_frame l) (left D) (top D) + line * buffer_stride (pending_frame l))
          (address (last_frame l) (left D) (top D) + line * buffer_stride (last_frame l)))) r)
    as (r' & E & Hr').
  - eapply drafted_weaken; [exact Hr| |].
    + intros x' y' [Hin ?] _. unfold in_rect in Hin. lia.
    + intros j Hj. case_decide; lia.
  - intros k t Hk Ht. cbv zeta. unfold GUAC_DISPLAY_CELL_SIZE.
    pose proof (proj1 (steps_spec (top D) (bottom D) k ltac:(lia)) ltac:(lia)) as Hky.
    set (h := if bottom D <? top D + 64 * k + 64 then bottom D - (top D + 64 * k) else 64).
    assert (Hh : h = Z.min 64 (bottom D - (top D + 64 * k))) by (subst h; zif; lia).
    clearbody h.
    destruct (for_range_inv_max (λ n r, 0 ≤ n ≤ 64 ∧ drafted count
        (λ x' y', in_rect x' y' D ∧ y' < top D + 64 * k + n)
        (λ j, if decide (j < i + k * cw) then 4096 else
              if decide (j < i + k * cw + columns) then 64 * n else 0) r)
      0 (h - 1) (λ n, refine_row l bp bq D (top D + 64 * k + n) (i + k * cw)
          (address (pending_frame l) (left D) (top D) + (64 * k + n) * buffer_stride (pending_frame l))
          (address (last_frame l) (left D) (top D) + (64 * k + n) * buffer_stride (last_frame l))) t)
      as (t' & E & Ht64 & Ht').
    + split; [lia|]. eapply drafted_weaken; [exact Ht| |].
      * intros x' y' [? ?] _. split; [done|]. lia.
      * intros j Hj. cbn beta. repeat case_decide; lia.
    + intros n u Hn [Hn64 Hu].
      assert (Hi : i + k * cw = cell_index cw (left D) (top D + 64 * k + n)).
      { unfold i, cell_index. destruct HDy as [d ->].
        replace (d * 64 + 64 * k + n) with (n + (d + k) * 64) by lia.
        rewrite Z.div_add, Z.div_mul, (Z.div_small n) by lia. lia. }
      rewrite Hi.
      replace (address (pending_frame l) (left D) (top D) + (64 * k + n) * buffer_stride (pending_frame l))
        with (address (pending_frame l) (left D) (top D + 64 * k + n)) by (unfold address; lia).
      replace (address (last_frame l) (left D) (top D) + (64 * k + n) * buffer_stride (last_frame l))
        with (address (last_frame l) (left D) (top D + 64 * k + n)) by (unfold address; lia).
      destruct (refine_row_ok _ _ _ u (top D + 64 * k + n) Hu Hc) as (u' & E & Hu').
      * lia.
      * rewrite <-Hi. intros j Hj. repeat case_decide; lia.
      * exists u'. split; [done|]. split; [lia|]. eapply drafted_weaken; [exact Hu'| |].
        -- intros x' y' [? ?] _. destruct (decide (y' = top D + 64 * k + n)); [by right|].
           left. split; [done|]. lia.
        -- intros j Hj. cbn beta. rewrite <-Hi. repeat case_decide; lia.
    + exists t'. split; [exact E|]. eapply drafted_weaken; [exact Ht'| |].
      * intros x' y' [Hin ?] _. split; [done|]. unfold in_rect in Hin. lia.
      * intros j Hj. cbn beta. repeat case_decide; lia.
  - exists r'. split; [exact E|]. eapply drafted_weaken; [exact Hr'| |].
    + intros x' y' Hin _. split; [done|]. pose proof (steps_past (top D) (bottom D)) as Hp.
      unfold in_rect in Hin. replace (cell_steps (top D) (bottom D) - 1 + 1)
        with (cell_steps (top D) (bottom D)) by lia. lia.
    + intros j Hj. cbn beta. case_decide; lia.
Qed.
End refining.

(** A layer whose changes are reported, with no cell marked. *)

Definition clean (cells : list guac_display_layer_cell) : Prop :=
  Forall (λ c, cell_dirty_size c = 0) cells.

Definition ready (l : guac_display_layer) : Prop :=
  layer_ok l ∧ rect_ok (dirty (pending_frame l)) ∧ clean (pending_frame_cells l).

Definition with_cells (l : guac_display_layer) (d : guac_rect) (cells : list guac_display_layer_cell)
    : guac_display_layer :=
  l <| pending_frame := (pending_frame l) <| dirty := d |> |> <| pending_frame_cells := cells |>.

(** [l'] is [l] with cells that are marked where a reported pixel has changed. *)

Definition refined (l l' : guac_display_layer) : Prop :=
  ∃ d cells, l' = with_cells l d cells ∧ len cells = len (pending_frame_cells l) ∧ rect_ok d ∧
    (∀ i c, cells !! i = Some c → cell_ok l d (Z.of_nat i) c ∧ cell_dirty_size c ≤ 4096) ∧
    (∀ x y, inside (pending_frame l) x y → in_rect x y (dirty (pending_frame l)) →
       differs l x y → covered l cells x y).

Lemma clean_count cells : clean cells → dirty_cells cells = 0.
Proof.
  unfold dirty_cells. induction 1 as [|c cells Hc _ IH]; [done|]. cbn [List.filter].
  by rewrite Hc, Z.eqb_refl.
Qed.

Lemma aligned_dirty l : layer_ok l → rect_ok (dirty (pending_frame l)) →
  let D := guac_rect_constrain (guac_rect_align (dirty (pending_frame l)) GUAC_DISPLAY_CELL_SIZE_EXPONENT)
             (bounds_of (pending_frame l)) in
  contains (bounds_of (pending_frame l)) D ∧ (64 | left D) ∧ (64 | top D) ∧
  0 ≤ left D < 2 ^ 31 ∧ 0 ≤ top D < 2 ^ 31 ∧
  ∀ x y, inside (pending_frame l) x y → in_rect x y (dirty (pending_frame l)) → in_rect x y D.
Proof.
  intros Hl Hr D. unfold GUAC_DISPLAY_CELL_SIZE_EXPONENT in *.
  destruct (align_edges 6 ltac:(lia) _ Hr) as (Hdl & Hdt & _ & _ & Ha).
  change (2 ^ 6) with 64 in *. subst D.
  set (A := guac_rect_align (dirty (pending_frame l)) 6) in *. clearbody A.
  unfold rect_ok, contains, inside, in_rect, guac_rect_constrain in *.
  cbn [bounds_of left top right bottom].
  split_and!.
  - zif; lia. - zif; lia. - zif; lia. - zif; lia.
  - zif; [|done]. apply Z.divide_0_r.
  - zif; [|done]. apply Z.divide_0_r.
  - zif; lia. - zif; lia. - zif; lia. - zif; lia.
  - intros x y ? ?. repeat zif; lia.
Qed.

Lemma refine_layer_ok l b count :
  ready l → buffer (pending_frame l) = Some b → 0 ≤ count < 2 ^ 60 →
  ∃ l', refine_layer l b count = Run (l', count + dirty_cells (pending_frame_cells l')) ∧ refined l l'.
Proof.
  intros (Hl & Hr & Hclean) Hb Hc. destruct (aligned_dirty l Hl Hr) as (HD & HDx & HDy & HDl & HDt & Hin).
  destruct (ok_buffer _ (ok_last _ Hl)) as (bq & Hbq & _).
  unfold refine_layer.
  set (D := guac_rect_constrain _ _) in *. clearbody D.
  rewrite (rect_address (last_frame l)), run_bind_run by (done || apply Hl).
  rewrite (rect_address (pending_frame l)), run_bind_run by (done || apply Hl).
  destruct (ok_cells _ Hl) as (Hcw & _).
  unfold PRIV_guac_mem_ckd_mul_or_die, GUAC_DISPLAY_CELL_SIZE.
  rewrite !Z.quot_div_nonneg by lia. rewrite ckd_mul_2 by (try lia; dlia).
  cbn [or_die or_abort]. rewrite run_bind_run, Hbq. cbn [from_option]. unfold id.
  destruct (refine_rows_ok l Hl b bq Hb Hbq D HD HDx HDy count
    (mk_refinement (pending_frame_cells l) count no_rect)) as (r' & E & Hr').
  - split; cbn [refined_cells op_count refined_dirty]; [done|done| | | |].
    + intros i c Hi. unfold cell_ok. rewrite (Forall_lookup_1 _ _ _ _ Hclean Hi). split; [lia|done].
    + intros i c Hi. rewrite (Forall_lookup_1 _ _ _ _ Hclean Hi). lia.
    + rewrite clean_count by done. lia.
    + destruct (ok_pending _ Hl) as [? ? _ _ _]. unfold framed, contains, no_rect.
      cbn [bounds_of left top right bottom]. lia.
  - done.
  - fold (cell_index (pending_frame_cells_width l) (left D) (top D)). rewrite E, run_bind_run.
    exists (with_cells l (refined_dirty r') (refined_cells r')). split.
    + rewrite (drafted_count _ _ _ _ _ Hr'). done.
    + exists (refined_dirty r'), (refined_cells r'). split_and!; [done|by destruct Hr'| | |].
      * destruct (drafted_within _ _ _ _ _ Hr') as (Hd & ? & ?). destruct (ok_pending _ Hl) as [? ? ? _ _].
        unfold contains, rect_ok in *. cbn [bounds_of left top right bottom] in *. lia.
      * intros i c Hi. split; [by apply (drafted_cells _ _ _ _ _ Hr')|].
        by apply (drafted_bound _ _ _ _ _ Hr' i c).
      * intros x y Hxy Hd Hdf. apply (drafted_covers _ _ _ _ _ Hr'); [|done]. by apply Hin.
Qed.

Definition total_dirty (ls : list guac_display_layer) : Z :=
  foldr (λ l n, dirty_cells (pending_frame_cells l) + n) 0 ls.

Lemma refined_refl l : ready l → guac_rect_is_empty (dirty (pending_frame l)) = true → refined l l.
Proof.
  intros (Hl & Hr & Hclean) He. exists (dirty (pending_frame l)), (pending_frame_cells l).
  split_and!; [by destruct l as [? ? ? ? [] ]|done|done| |].
  - intros i c Hi. unfold cell_ok. rewrite (Forall_lookup_1 _ _ _ _ Hclean Hi). split; [split; [lia|done]|lia].
  - intros x y _ Hin _. by destruct (proj1 (is_empty_spec _) He x y).
Qed.

Lemma refine_layers_ok fuel pre post count :
  Forall ready post → (length post ≤ fuel)%nat → 0 ≤ count → count + 16384 * len post < 2 ^ 60 →
  ∃ post', refine_layers fuel (length pre) (pre ++ post) count
      = Run (pre ++ post', count + total_dirty post') ∧ Forall2 refined post post'.
Proof.
  revert pre post count. induction fuel as [|fuel IH]; intros pre post count Hr Hf Hc Hc2.
  { destruct post as [|l post]; [|cbn in Hf; lia]. exists []. split; [|constructor].
    cbn [refine_layers total_dirty foldr]. rewrite lookup_ge_None_2 by (rewrite length_app; cbn; lia).
    by rewrite Z.add_0_r. }
  destruct post as [|l post].
  { exists []. split; [|constructor]. cbn [refine_layers total_dirty foldr].
    rewrite lookup_ge_None_2 by (rewrite length_app; cbn; lia). by rewrite Z.add_0_r. }
  apply Forall_cons_1 in Hr as [Hl Hpost]. cbn [length] in *.
  cbn [refine_layers]. rewrite list_lookup_middle by done.
  destruct (ok_buffer _ (ok_pending _ (proj1 Hl))) as (b & Hb & _). rewrite Hb.
  assert (Hstep : ∀ l' c, 0 ≤ c → c + 16384 * len post < 2 ^ 60 → refined l l' →
    ∃ post', refine_layers fuel (S (length pre)) (pre ++ l' :: post) c
      = Run (pre ++ post', c - dirty_cells (pending_frame_cells l') + total_dirty post') ∧
      Forall2 refined (l :: post) post').
  { intros l' c Hc0 Hc1 Hlr. destruct (IH (pre ++ [l']) post c Hpost ltac:(lia) Hc0 Hc1) as (post' & E & HF).
    exists (l' :: post'). split; [|by constructor].
    rewrite length_app in E. cbn [length] in E. rewrite Nat.add_1_r in E. rewrite <-!app_assoc in E.
    cbn [app] in E. rewrite E. do 2 f_equal. cbn [total_dirty foldr].
    change (foldr _ 0 post') with (total_dirty post'). lia. }
  destruct (guac_rect_is_empty (dirty (pending_frame l))) eqn:Ee.
  - destruct (Hstep l count Hc ltac:(lia) (refined_refl l Hl Ee)) as (post' & -> & HF).
    exists post'. split; [|done]. rewrite clean_count by apply Hl. do 2 f_equal. lia.
  - destruct (refine_layer_ok l b count Hl Hb ltac:(lia)) as (l' & -> & Hlr). rewrite run_bind_run.
    rewrite insert_app_r_alt, Nat.sub_diag by lia. cbn [insert list_insert].
    assert (Hd : 0 ≤ dirty_cells (pending_frame_cells l') ≤ 16384).
    { destruct Hlr as (d & cells & -> & Hlen & _ & _). cbn [with_cells pending_frame_cells set eta_display_layer].
      pose proof (dirty_cells_le cells). destruct (ok_cells _ (proj1 Hl)) as (? & ? & _).
      pose proof (ok_array _ (proj1 Hl)). nia. }
    destruct (Hstep l' (count + dirty_cells (pending_frame_cells l')) ltac:(lia) ltac:(lia) Hlr)
      as (post' & -> & HF).
    exists post'. split; [|done]. do 2 f_equal. lia.
Qed.
