(* ===== verification/DisplayCreateSpec.v ===== *)
(** * The draft of a plan (specification of DisplayPlan.v, [PFW_LFR_guac_display_plan_create])

    A draft has one image operation for each cell in which a reported pixel has changed; together
    they cover every such pixel, no two are in the same cell, and the assertions about
    their number hold. *)

From S2P Require Import Prelude RecordUpdate Mem Run Rect ProtocolTypes Display DisplayPlan DisplayDraftSpec.
Local Open Scope Z_scope.

Local Abbreviation len l := (Z.of_nat (List.length l)).

(** ** Converting cells to operations *)

Definition op_of_cell (frame_end : Z) (layer : nat) (c : guac_display_layer_cell)
    : guac_display_plan_operation :=
  mk_op layer GUAC_DISPLAY_PLAN_OPERATION_IMG (cell_dirty c) (cell_dirty_size c)
    (cell_last_frame c) frame_end No_source.

Definition is_marked (c : guac_display_layer_cell) : bool := negb (cell_dirty_size c =? 0).

Definition cell_ops (frame_end : Z) (layer : nat) (cells : list guac_display_layer_cell)
    : list guac_display_plan_operation :=
  op_of_cell frame_end layer <$> List.filter is_marked cells.

Fixpoint converted (frame_end : Z) (n : nat) (cells : list guac_display_layer_cell)
    : list guac_display_layer_cell :=
  match cells with
  | [] => []
  | c :: cells =>
      if is_marked c
      then c <| related_op := Some n |> <| cell_dirty_size := 0 |> <| cell_last_frame := frame_end |>
             :: converted frame_end (S n) cells
      else c <| related_op := None |> :: converted frame_end n cells
  end.

Lemma length_cell_ops frame_end layer cells : len (cell_ops frame_end layer cells) = dirty_cells cells.
Proof. unfold cell_ops, dirty_cells. by rewrite length_fmap. Qed.

Lemma convert_cells_ok frame_end layer count cells ops :
  len ops + dirty_cells cells ≤ count →
  convert_cells frame_end layer count cells ops =
    Run (converted frame_end (length ops) cells, ops ++ cell_ops frame_end layer cells).
Proof.
  revert ops. induction cells as [|c cells IH]; intros ops Hle; cbn [convert_cells converted].
  { unfold cell_ops. cbn [List.filter fmap list_fmap]. by rewrite app_nil_r. }
  unfold cell_ops, dirty_cells, is_marked in *. cbn [List.filter] in *.
  destruct (cell_dirty_size c =? 0); cbn [negb] in *.
  - by rewrite IH.
  - cbn [List.length] in Hle. rewrite assert_true by (apply Z.ltb_lt; lia). rewrite run_bind_run.
    cbv zeta. rewrite IH by (rewrite length_app; cbn [length]; lia). rewrite run_bind_run.
    rewrite length_app, Nat.add_1_r, <-app_assoc. done.
Qed.

Lemma length_converted frame_end n cells : length (converted frame_end n cells) = length cells.
Proof.
  revert n. induction cells as [|c cells IH]; intros n; [done|]. cbn [converted].
  destruct (is_marked c); cbn [length]; by rewrite IH.
Qed.

Lemma converted_clean frame_end n cells : clean (converted frame_end n cells).
Proof.
  revert n. induction cells as [|c cells IH]; intros n; [constructor|]. cbn [converted].
  destruct (is_marked c) eqn:E; constructor; try apply IH; [done|].
  unfold is_marked in E. apply negb_false_iff, Z.eqb_eq in E. done.
Qed.

Definition related_below (bound : nat) (c : guac_display_layer_cell) : Prop :=
  match related_op c with Some n => (n < bound)%nat | None => True end.

Lemma converted_related frame_end n cells :
  Forall (related_below (n + length (List.filter is_marked cells))) (converted frame_end n cells).
Proof.
  revert n. induction cells as [|c cells IH]; intros n; [constructor|]. cbn [converted List.filter].
  destruct (is_marked c); constructor.
  - unfold related_below. cbn. lia.
  - specialize (IH (S n)). cbn [length]. by rewrite Nat.add_succ_r, <-Nat.add_succ_l.
  - done.
  - apply IH.
Qed.

(** ** Operations of a draft *)

(** The cell that holds the destination of an operation. *)

Definition op_cell (op : guac_display_plan_operation) : nat * Z * Z :=
  (op_layer op, left (op_dest op) / 64, top (op_dest op) / 64).

Definition own_cell (op : guac_display_plan_operation) : guac_rect :=
  let x := 64 * (left (op_dest op) / 64) in
  let y := 64 * (top (op_dest op) / 64) in
  mk_guac_rect x y (x + 64) (y + 64).

Record draft_op (ls : list guac_display_layer) (op : guac_display_plan_operation) : Prop := {
  draft_type : op_type op = GUAC_DISPLAY_PLAN_OPERATION_IMG;
  draft_nonempty : guac_rect_is_empty (op_dest op) = false;
  draft_cell : contains (own_cell op) (op_dest op);
  draft_size : 0 < op_dirty_size op ≤ 4096;
  draft_layer : ∃ l, ls !! op_layer op = Some l ∧ contains (bounds_of (pending_frame l)) (op_dest op) ∧
    contains (dirty (pending_frame l)) (op_dest op);
}.

Lemma in_cell_ops frame_end layer cells op :
  op ∈ cell_ops frame_end layer cells →
  ∃ i c, cells !! i = Some c ∧ cell_dirty_size c ≠ 0 ∧ op = op_of_cell frame_end layer c.
Proof.
  intros Hop. unfold cell_ops in Hop. apply list_elem_of_fmap in Hop as (c & -> & Hc).
  apply list_elem_of_In, filter_In in Hc as [Hc Hm]. apply list_elem_of_In, list_elem_of_lookup in Hc as [i Hi].
  exists i, c. split_and!; [done| |done]. unfold is_marked in Hm. by apply negb_true_iff, Z.eqb_neq in Hm.
Qed.

Lemma cell_ops_in frame_end layer cells i c :
  cells !! i = Some c → cell_dirty_size c ≠ 0 →
  op_of_cell frame_end layer c ∈ cell_ops frame_end layer cells.
Proof.
  intros Hi Hc. unfold cell_ops. apply list_elem_of_fmap. exists c. split; [done|].
  apply list_elem_of_In, filter_In. split; [by eapply list_elem_of_In, list_elem_of_lookup_2|].
  unfold is_marked. by apply negb_true_iff, Z.eqb_neq.
Qed.

Lemma box_of_dest cw i r :
  0 < cw → guac_rect_is_empty r = false → contains (cell_box cw i) r →
  i mod cw = left r / 64 ∧ i / cw = top r / 64.
Proof.
  unfold contains, cell_box. rewrite is_empty_false. cbn [left top right bottom]. intros. dlia.
Qed.

(** The operations of one layer have cells of their own. *)

Lemma cell_ops_cells l d cells frame_end layer j :
  (∀ i c, cells !! i = Some c → cell_ok l d (Z.of_nat j + Z.of_nat i) c) →
  (cells ≠ [] → 0 < pending_frame_cells_width l) →
  NoDup (op_cell <$> cell_ops frame_end layer cells).
Proof.
  revert j. induction cells as [|c cells IH]; intros j Hok Hcw; [constructor|].
  assert (Hrest : NoDup (op_cell <$> cell_ops frame_end layer cells)).
  { apply (IH (S j)); [|intros _; by apply Hcw]. intros i c' Hi. specialize (Hok (S i) c' Hi).
    by replace (Z.of_nat (S j) + Z.of_nat i) with (Z.of_nat j + Z.of_nat (S i)) by lia. }
  unfold cell_ops in *. cbn [List.filter]. unfold is_marked at 1.
  destruct (Z.eqb_spec (cell_dirty_size c) 0) as [|Hc]; [done|].
  cbn [negb fmap list_fmap]. apply list.NoDup_cons. split; [|done].
  intros Hin. apply list_elem_of_fmap in Hin as (op & Ecell & Hop).
  apply (in_cell_ops frame_end layer cells op) in Hop as (i & c' & Hi & Hc' & ->).
  destruct (Hok 0%nat c eq_refl) as [_ Hok0]. destruct (Hok0 Hc) as (He & Hb & _).
  destruct (Hok (S i) c' Hi) as [_ Hok1]. destruct (Hok1 Hc') as (He' & Hb' & _).
  specialize (Hcw ltac:(done)).
  apply box_of_dest in Hb as [Hb1 Hb2]; [|done..]. apply box_of_dest in Hb' as [Hb1' Hb2']; [|done..].
  unfold op_cell in Ecell. cbn [op_of_cell op_dest op_layer] in Ecell. simplify_eq.
  pose proof (Z.div_mod (Z.of_nat j + Z.of_nat 0) (pending_frame_cells_width l) ltac:(lia)).
  pose proof (Z.div_mod (Z.of_nat j + Z.of_nat (S i)) (pending_frame_cells_width l) ltac:(lia)).
  nia.
Qed.

(** ** All layers *)

Fixpoint layer_ops (frame_end : Z) (layer : nat) (ls : list guac_display_layer)
    : list guac_display_plan_operation :=
  match ls with
  | [] => []
  | l :: ls => cell_ops frame_end layer (pending_frame_cells l) ++ layer_ops frame_end (S layer) ls
  end.

Fixpoint converted_layers (frame_end : Z) (n : nat) (ls : list guac_display_layer)
    : list guac_display_layer :=
  match ls with
  | [] => []
  | l :: ls =>
      l <| pending_frame_cells := converted frame_end n (pending_frame_cells l) |>
        :: converted_layers frame_end
             (n + length (List.filter is_marked (pending_frame_cells l))) ls
  end.

Lemma length_layer_ops frame_end layer ls : len (layer_ops frame_end layer ls) = total_dirty ls.
Proof.
  revert layer. induction ls as [|l ls IH]; intros layer; [done|]. cbn [layer_ops total_dirty foldr].
  rewrite length_app, Nat2Z.inj_add, length_cell_ops, IH. done.
Qed.

Lemma convert_layers_ok frame_end layer count ls ops :
  len ops + total_dirty ls ≤ count →
  convert_layers frame_end layer count ls ops =
    Run (converted_layers frame_end (length ops) ls, ops ++ layer_ops frame_end layer ls).
Proof.
  revert layer ops. induction ls as [|l ls IH]; intros layer ops Hle;
    cbn [convert_layers converted_layers layer_ops].
  { by rewrite app_nil_r. }
  cbn [total_dirty foldr] in Hle. change (foldr _ 0 ls) with (total_dirty ls) in Hle.
  assert (0 ≤ total_dirty ls) by (rewrite <-(length_layer_ops frame_end layer ls); lia).
  rewrite convert_cells_ok by lia. rewrite run_bind_run.
  rewrite IH.
  - rewrite run_bind_run, length_app, app_assoc. unfold cell_ops at 1. by rewrite length_fmap.
  - rewrite length_app, Nat2Z.inj_add, length_cell_ops. lia.
Qed.

(** The layers after drafting a plan of [n] operations. *)

Definition drafted_layer (n : nat) (l l' : guac_display_layer) : Prop :=
  ∃ d cells, l' = with_cells l d cells ∧ len cells = len (pending_frame_cells l) ∧ rect_ok d ∧
    clean cells ∧ Forall (related_below n) cells.

Lemma converted_drafted frame_end n total ls0 ls :
  Forall2 refined ls0 ls →
  (n + Z.to_nat (total_dirty ls) ≤ total)%nat →
  Forall2 (drafted_layer total) ls0 (converted_layers frame_end n ls).
Proof.
  intros HF. revert n. induction HF as [|l0 l ls0 ls Hl HF IH]; intros n Hn; [constructor|].
  cbn [converted_layers]. cbn [total_dirty foldr] in Hn. change (foldr _ 0 ls) with (total_dirty ls) in Hn.
  assert (0 ≤ total_dirty ls) by (rewrite <-(length_layer_ops frame_end 0 ls); lia).
  pose proof (dirty_cells_le (pending_frame_cells l)) as Hd.
  assert (Hm : Z.of_nat (length (List.filter is_marked (pending_frame_cells l)))
    = dirty_cells (pending_frame_cells l)) by done.
  constructor.
  - destruct Hl as (d & cells & -> & Hlen & Hd4 & _).
    exists d, (converted frame_end n cells). split_and!; [done|by rewrite length_converted|done|apply converted_clean|].
    eapply list.Forall_impl; [apply converted_related|].
    cbn [with_cells pending_frame_cells set eta_display_layer] in *.
    intros c. unfold related_below. destruct (related_op c); [|done]. lia.
  - apply IH. lia.
Qed.

(** The operations [ops] on the layers [ls'] draw every reported change of [ls]. *)

Record drafted_plan (ls ls' : list guac_display_layer) (ops : list guac_display_plan_operation) : Prop := {
  plan_ops : Forall (draft_op ls') ops;
  plan_cells : NoDup (op_cell <$> ops);
  plan_covers : ∀ k l x y, ls !! k = Some l → inside (pending_frame l) x y →
    in_rect x y (dirty (pending_frame l)) → differs l x y →
    ∃ op, op ∈ ops ∧ op_layer op = k ∧ in_rect x y (op_dest op);
}.

Lemma in_layer_ops frame_end k ls op :
  op ∈ layer_ops frame_end k ls →
  ∃ j l, ls !! j = Some l ∧ op ∈ cell_ops frame_end (k + j) (pending_frame_cells l).
Proof.
  revert k. induction ls as [|l ls IH]; intros k; cbn [layer_ops]; [by rewrite elem_of_nil|].
  rewrite elem_of_app. intros [Hop|Hop].
  - exists 0%nat, l. by rewrite Nat.add_0_r.
  - destruct (IH _ Hop) as (j & l' & Hj & Hin). exists (S j), l'. split; [done|].
    by rewrite Nat.add_succ_r, <-Nat.add_succ_l.
Qed.

Lemma layer_ops_in frame_end k ls j l op :
  ls !! j = Some l → op ∈ cell_ops frame_end (k + j) (pending_frame_cells l) →
  op ∈ layer_ops frame_end k ls.
Proof.
  revert k j. induction ls as [|l' ls IH]; intros k [|j] Hj Hop; cbn [lookup list_lookup] in Hj; simplify_eq;
    cbn [layer_ops]; apply elem_of_app.
  - left. by rewrite Nat.add_0_r in Hop.
  - right. apply (IH (S k) j); [done|]. by rewrite Nat.add_succ_l, <-Nat.add_succ_r.
Qed.

Lemma op_layer_cell_ops frame_end k cells op : op ∈ cell_ops frame_end k cells → op_layer op = k.
Proof. intros Hop. apply in_cell_ops in Hop as (? & ? & _ & _ & ->). done. Qed.

Lemma refined_cells_wide l l' i c :
  ready l → refined l l' → pending_frame_cells l' !! i = Some c → 0 < pending_frame_cells_width l.
Proof.
  intros (Hl & _) (d & cells & -> & Hlen & _) Hi. apply lookup_lt_Some in Hi.
  cbn [with_cells pending_frame_cells set eta_display_layer] in Hi.
  pose proof (ok_array _ Hl). destruct (ok_cells _ Hl) as (? & ? & _). nia.
Qed.

Lemma layer_ops_cells frame_end k ls0 ls :
  Forall ready ls0 → Forall2 refined ls0 ls → NoDup (op_cell <$> layer_ops frame_end k ls).
Proof.
  intros Hr HF. revert k. induction HF as [|l0 l ls0 ls Hl HF IH]; intros k; [constructor|].
  apply Forall_cons_1 in Hr as [Hr0 Hr]. cbn [layer_ops]. rewrite fmap_app. apply list.NoDup_app.
  split_and!; [| |by apply IH].
  - pose proof (refined_cells_wide l0 l) as Hwide.
    destruct Hl as (d & cells & -> & Hlen & Hd4 & Hok & Hcov).
    cbn [with_cells pending_frame_cells set eta_display_layer] in *.
    apply (cell_ops_cells l0 d _ _ _ 0).
    + intros i c Hi. rewrite Z.add_0_l. by apply Hok.
    + intros Hne. destruct cells as [|c cells]; [done|]. apply (Hwide 0%nat c Hr0); [|done].
      by exists d, (c :: cells).
  - intros key Hin Hin'. apply list_elem_of_fmap in Hin as (op & -> & Hop).
    apply list_elem_of_fmap in Hin' as (op' & E & Hop').
    apply op_layer_cell_ops in Hop. apply in_layer_ops in Hop' as (j & l' & _ & Hop').
    apply op_layer_cell_ops in Hop'. unfold op_cell in E. simplify_eq. lia.
Qed.

Lemma drafts_ok frame_end ls ls1 ls' n :
  Forall ready ls → Forall2 refined ls ls1 → Forall2 (drafted_layer n) ls ls' →
  Forall2 (λ l1 l', dirty (pending_frame l1) = dirty (pending_frame l')) ls1 ls' →
  drafted_plan ls ls' (layer_ops frame_end 0 ls1).
Proof.
  intros Hr HF Hd Hdirty. split.
  - apply list.Forall_forall. intros op Hop. apply in_layer_ops in Hop as (j & l1 & Hj & Hop).
    rewrite Nat.add_0_l in Hop. apply in_cell_ops in Hop as (i & c & Hi & Hc & ->).
    destruct (Forall2_lookup_r _ _ _ _ _ HF Hj) as (l & Hl & Hlr).
    destruct (Forall2_lookup_l _ _ _ _ _ Hd Hl) as (l' & Hl' & Hll').
    pose proof (Forall2_lookup_lr _ _ _ _ _ _ Hdirty Hj Hl') as Hdd. cbn beta in Hdd.
    pose proof (Forall_lookup_1 _ _ _ _ Hr Hl) as Hrl.
    pose proof (refined_cells_wide l l1 i c Hrl Hlr Hi) as Hcw.
    destruct Hlr as (d & cells & -> & _ & _ & Hok & _).
    cbn [with_cells pending_frame_cells pending_frame dirty set eta_display_layer eta_layer_state] in Hi, Hdd.
    destruct (Hok i c Hi) as [[Hc0 Hcok] Hc4]. destruct (Hcok Hc) as (He & Hb & Hbd & Hrd).
    split; cbn [op_of_cell op_type op_dest op_dirty_size op_layer]; [done..| |lia|].
    + destruct (box_of_dest _ _ _ Hcw He Hb) as [E1 E2]. unfold own_cell.
      cbn [op_of_cell op_dest]. unfold cell_box in Hb. by rewrite E1, E2 in Hb.
    + exists l'. split; [done|]. rewrite <-Hdd. split; [|done].
      destruct Hll' as (d' & cells' & -> & _). done.
  - by eapply layer_ops_cells.
  - intros k l x y Hl Hin Hrep Hdf.
    destruct (Forall2_lookup_l _ _ _ _ _ HF Hl) as (l1 & Hl1 & (d & cells & -> & _ & _ & _ & Hcov)).
    destruct (Hcov x y Hin Hrep Hdf) as (c & Hc & Hn & Hxy).
    exists (op_of_cell frame_end k c). split_and!; [|done..].
    eapply layer_ops_in; [done|]. rewrite Nat.add_0_l.
    cbn [with_cells pending_frame_cells set eta_display_layer]. by eapply cell_ops_in.
Qed.

Lemma converted_dirty frame_end n ls :
  Forall2 (λ l1 l', dirty (pending_frame l1) = dirty (pending_frame l')) ls (converted_layers frame_end n ls).
Proof.
  revert n. induction ls as [|l ls IH]; intros n; [constructor|]. cbn [converted_layers].
  constructor; [done|apply IH].
Qed.

(** The draft of a plan covers every reported change with operations in cells of their own, and has no
    operation where nothing reported has changed; drafting it neither aborts nor reads outside a
    buffer. *)

Lemma plan_create_ok fuel frame_end ls :
  Forall ready ls → (length ls ≤ fuel)%nat → len ls < 2 ^ 32 →
  ∃ ls' plan, PFW_LFR_guac_display_plan_create fuel frame_end ls = Run (ls', plan) ∧
    match plan with
    | Some ops => ops ≠ [] ∧ Forall2 (drafted_layer (length ops)) ls ls' ∧ drafted_plan ls ls' ops
    | None =>
        Forall2 (λ l l', l' = with_cells l (dirty (pending_frame l')) (pending_frame_cells l') ∧
                   len (pending_frame_cells l') = len (pending_frame_cells l) ∧
                   rect_ok (dirty (pending_frame l')) ∧ clean (pending_frame_cells l')) ls ls' ∧
        drafted_plan ls ls' []
    end.
Proof.
  intros Hr Hf Hlen.
  destruct (refine_layers_ok fuel [] ls 0 Hr Hf ltac:(lia) ltac:(lia)) as (ls1 & E & HF).
  cbn [app length] in E. unfold PFW_LFR_guac_display_plan_create. rewrite E, run_bind_run, Z.add_0_l.
  destruct (Z.eqb_spec (total_dirty ls1) 0) as [Hz|Hz].
  - exists ls1, None. split; [done|].
    assert (Hnil : layer_ops frame_end 0 ls1 = []).
    { apply nil_length_inv. pose proof (length_layer_ops frame_end 0 ls1). lia. }
    split.
    + clear E Hf Hlen. revert Hnil. generalize 0%nat. induction HF as [|l l1 ls ls1 Hl HF IH]; intros k Hnil; [constructor|].
      apply Forall_cons_1 in Hr as [Hr0 Hr]. cbn [layer_ops] in Hnil.
      apply app_eq_nil in Hnil as [Hnil1 Hnil2]. constructor.
      * destruct Hl as (d & cells & -> & Hlen & Hdok & Hok & _). split_and!; [done..|].
        cbn [with_cells pending_frame_cells set eta_display_layer] in *.
        apply Forall_lookup. intros i c Hi. destruct (decide (cell_dirty_size c = 0)); [done|].
        exfalso. pose proof (cell_ops_in frame_end k cells i c Hi) as Hin. rewrite Hnil1 in Hin.
        by apply elem_of_nil in Hin; [|done].
      * refine (IH Hr _ (S k) Hnil2). cbn [total_dirty foldr] in Hz. change (foldr _ 0 ls1) with (total_dirty ls1) in Hz.
        pose proof (dirty_cells_le (pending_frame_cells l1)).
        pose proof (length_layer_ops frame_end 0 ls1). lia.
    + rewrite <-Hnil. split.
      * rewrite Hnil. constructor.
      * rewrite Hnil. constructor.
      * intros k l x y Hl Hin Hrep Hdf.
        destruct (Forall2_lookup_l _ _ _ _ _ HF Hl) as (l1 & Hl1 & (d & cells & -> & _ & _ & _ & Hcov)).
        destruct (Hcov x y Hin Hrep Hdf) as (c & Hc & Hn & Hxy).
        exists (op_of_cell frame_end k c). split_and!; [|done..].
        eapply layer_ops_in; [done|]. rewrite Nat.add_0_l. by eapply cell_ops_in.
  - rewrite convert_layers_ok by (cbn; lia). rewrite run_bind_run. cbn [app length].
    rewrite assert_true by (by rewrite length_layer_ops, Z.eqb_refl). rewrite run_bind_run.
    exists (converted_layers frame_end 0 ls1), (Some (layer_ops frame_end 0 ls1)).
    split; [done|]. pose proof (length_layer_ops frame_end 0 ls1) as Hlo.
    assert (Hd : Forall2 (drafted_layer (length (layer_ops frame_end 0 ls1))) ls (converted_layers frame_end 0 ls1)).
    { apply converted_drafted; [done|]. lia. }
    split_and!; [|done|].
    + intros E'. rewrite E' in Hlo. cbn in Hlo. lia.
    + apply (drafts_ok _ _ _ _ _ Hr HF Hd). apply converted_dirty.
Qed.

(** ** Detached buffers *)

(** A layer whose external buffer has been replaced by [NULL] is meant to be skipped; the loop goes on
    with the same layer for ever. *)

Lemma detached_spins fuel now l ls :
  buffer (pending_frame l) = None → buffer_is_external (pending_frame l) = true →
  PFW_LFR_guac_display_plan_create fuel now (l :: ls) = Spin.
Proof.
  intros Hb He. unfold PFW_LFR_guac_display_plan_create.
  assert (E : refine_layers fuel 0 (l :: ls) 0 = Spin); [|by rewrite E].
  induction fuel as [|fuel IH]; [done|]. cbn [refine_layers lookup list_lookup]. rewrite Hb, He.
  cbn [negb]. rewrite assert_true, run_bind_run by done. exact IH.
Qed.
