(* ===== verification/DisplayRectSpec.v ===== *)
(** * Images of a single colour (specification of DisplayPlan.v, display-plan-rect.c)

    The recursion that halves a buffer decides whether all its words are the same, and the test
    of a rectangle whether all its pixels are. *)

From S2P Require Import Prelude RecordUpdate Mem Run Rect Display DisplayPlan.
Local Open Scope Z_scope.

(** ** Powers of two *)

Lemma round_pot_loop_spec fuel v r :
  0 < v → 0 < r → Z.log2 v < Z.of_nat fuel → r * 2 ^ Z.log2 v < 2 ^ 64 →
  round_pot_loop fuel v r = r * 2 ^ Z.log2 v.
Proof.
  revert v r. induction fuel as [|fuel IH]; intros v r Hv Hr Hf Hlt.
  { pose proof (Z.log2_nonneg v). lia. }
  cbn [round_pot_loop]. rewrite Z.shiftr_div_pow2, Z.pow_1_r by lia.
  destruct (Z.eqb_spec (v / 2) 0) as [E|E].
  - assert (v = 1) as -> by dlia. change (2 ^ Z.log2 1) with 1. lia.
  - assert (Hlog : Z.log2 (v / 2) = Z.log2 v - 1).
    { replace (v / 2) with (Z.shiftr v 1) by (by rewrite Z.shiftr_div_pow2).
      rewrite Z.log2_shiftr by lia. assert (1 ≤ Z.log2 v); [|lia].
      apply Z.log2_le_pow2; dlia. }
    assert (Hpow : 2 ^ Z.log2 v = 2 * 2 ^ (Z.log2 v - 1)).
    { rewrite <-Z.pow_succ_r; [f_equal; lia|]. rewrite <-Hlog. apply Z.log2_nonneg. }
    assert (0 < 2 ^ (Z.log2 v - 1)) by (apply Z.pow_pos_nonneg; [lia|rewrite <-Hlog; apply Z.log2_nonneg]).
    rewrite Z.shiftl_mul_pow2, Z.pow_1_r by lia.
    rewrite u64_small by (unfold is_u64; nia).
    rewrite IH; rewrite ?Hlog; [rewrite Hpow; ring|dlia|lia|lia|nia].
Qed.

(** The power of two that splits a buffer of more than two words. *)

Lemma round_pot_split length :
  8 ≤ length < 2 ^ 60 →
  ∃ k, guac_display_plan_round_pot (length - 1) = 4 * k ∧ 0 < k ∧ 4 * k < length ≤ 8 * k.
Proof.
  intros Hl. unfold guac_display_plan_round_pot. destruct (Z.leb_spec (length - 1) 2); [lia|].
  destruct (Z.log2_spec (length - 1) ltac:(lia)) as [H1 H2].
  assert (Hlog : 2 ≤ Z.log2 (length - 1)) by (apply Z.log2_le_pow2; lia).
  assert (Hlog2 : Z.log2 (length - 1) < 60) by (apply Z.log2_lt_pow2; lia).
  rewrite round_pot_loop_spec; try lia.
  exists (2 ^ (Z.log2 (length - 1) - 2)).
  assert (E : 2 ^ Z.log2 (length - 1) = 4 * 2 ^ (Z.log2 (length - 1) - 2)).
  { change 4 with (2 ^ 2). rewrite <-Z.pow_add_r by lia. f_equal. lia. }
  rewrite Z.pow_succ_r in H2 by lia. lia.
Qed.

(** ** Comparing words *)

(** [n] words from [p] on have the values [f]. *)

Definition holds (b : list Z) (p : Z) (n : Z) (f : Z → Z) : Prop :=
  ∀ k, 0 ≤ k < n → word_at b (p + 4 * k) = Run (f k).

Lemma holds_sub b p n f q m d : holds b p n f → q = p + 4 * d → 0 ≤ d → d + m ≤ n →
  holds b q m (λ k, f (d + k)).
Proof.
  intros H -> Hd Hm k Hk. rewrite <-H by lia. f_equal. lia.
Qed.

Lemma words_equal_spec n a p b q f g :
  holds a p (Z.of_nat n) f → holds b q (Z.of_nat n) g →
  ∃ r, words_equal n a p b q = Run r ∧ (r = true ↔ ∀ k, 0 ≤ k < Z.of_nat n → f k = g k).
Proof.
  revert p q f g. induction n as [|n IH]; intros p q f g Hf Hg; cbn [words_equal].
  { exists true. split; [done|]. split; [lia|done]. }
  pose proof (Hf 0 ltac:(lia)) as Hf0. pose proof (Hg 0 ltac:(lia)) as Hg0.
  rewrite Z.mul_0_r, Z.add_0_r in Hf0, Hg0. rewrite Hf0, Hg0, !run_bind_run.
  destruct (Z.eqb_spec (f 0) (g 0)) as [E|E].
  - destruct (IH (p + 4) (q + 4) (λ k, f (1 + k)) (λ k, g (1 + k))) as (r & -> & Hr).
    { eapply holds_sub; [exact Hf|lia..]. } { eapply holds_sub; [exact Hg|lia..]. }
    exists r. split; [done|]. rewrite Hr. split; intros H k Hk.
    + destruct (decide (k = 0)) as [->|]; [done|]. specialize (H (k - 1) ltac:(lia)).
      by replace (1 + (k - 1)) with k in H by lia.
    + apply H. lia.
  - exists false. split; [done|]. split; [done|]. intros H. destruct E. apply H. lia.
Qed.

Section words.
Context (b : list Z).

(** ** A single colour *)

Definition single (n : Z) (f : Z → Z) (r : option Z) : Prop :=
  ∀ c, r = Some c ↔ ∀ k, 0 ≤ k < n → f k = c.

Lemma single_none n f : 0 < n → (∃ k, 0 ≤ k < n ∧ f k ≠ f 0) → single n f None.
Proof.
  intros Hn (k & Hk & Hne) c. split; [done|]. intros H. destruct Hne. rewrite !H; [done|lia..].
Qed.

Lemma single_some n f c : 0 < n → (∀ k, 0 ≤ k < n → f k = c) → single n f (Some c).
Proof.
  intros Hn H c'. split; [by intros [= <-]|]. intros H'. f_equal. rewrite <-(H 0), <-(H' 0); [done|lia..].
Qed.

Lemma ckd_sub_2 x y : 0 ≤ y ≤ x → x < 2 ^ 60 → PRIV_guac_mem_ckd_sub_or_die [x; y] = Returns (x - y).
Proof.
  intros. unfold PRIV_guac_mem_ckd_sub_or_die. cbn [PRIV_guac_mem_ckd_sub ckd_sub_loop].
  destruct (Z.ltb_spec x y); [lia|]. by rewrite u64_small by (unfold is_u64; lia).
Qed.

(** The recursion finds the colour exactly if there is one. *)

Lemma single_color_ok fuel p n f :
  0 < n < 2 ^ 50 → 4 * n < Z.of_nat fuel → holds b p n f →
  ∃ r, guac_display_plan_is_single_color fuel b p (4 * n) = Run r ∧ single n f r.
Proof.
  revert p n f. induction fuel as [|fuel IH]; intros p n f Hn Hf Hh; [lia|].
  cbn [guac_display_plan_is_single_color].
  pose proof (Hh 0 ltac:(lia)) as H0. rewrite Z.mul_0_r, Z.add_0_r in H0.
  destruct (Z.eqb_spec (4 * n) 0); [lia|].
  destruct (Z.eqb_spec (4 * n) 4) as [E4|E4].
  { assert (n = 1) as -> by lia. rewrite H0, run_bind_run. eexists. split; [done|].
    apply single_some; [lia|]. intros k Hk. by replace k with 0 by lia. }
  assert (Hpair : ∃ r, (if 4 * n =? 8 then
      v ← word_at b p; w ← word_at b (p + 4); Run (if v =? w then Some v else None)
      else Run None) = Run r ∧ match r with
        | Some v => single n f r | None => n = 2 → f 1 ≠ f 0 end).
  { destruct (Z.eqb_spec (4 * n) 8) as [E8|E8].
    - assert (n = 2) as -> by lia. pose proof (Hh 1 ltac:(lia)) as H1. rewrite Z.mul_1_r in H1.
      rewrite H0, run_bind_run, H1, run_bind_run.
      eexists. split; [done|]. destruct (Z.eqb_spec (f 0) (f 1)) as [E|E]; [|by intros _ H; destruct E].
      apply single_some; [lia|]. intros k Hk.
      destruct (decide (k = 0)) as [->|]; [done|]. by replace k with 1 by lia.
    - exists None. split; [done|lia]. }
  destruct Hpair as (pair & -> & Hpair). rewrite run_bind_run.
  destruct pair as [v|]; [by exists (Some v)|].
  rewrite (Z.mul_comm 4 n), Z.mod_mul, Z.eqb_refl by lia. cbn [negb].
  rewrite (Z.mul_comm n 4), ckd_sub_2 by lia. cbn [or_abort]. rewrite run_bind_run.
  destruct (round_pot_split (4 * n) ltac:(lia)) as (k & -> & Hk & Hkn).
  rewrite ckd_sub_2 by lia. cbn [or_abort]. rewrite run_bind_run.
  destruct (Z.eqb_spec (4 * k) (4 * n - 4 * k)) as [Eh|Eh].
  - rewrite (Z.mul_comm 4 k), Z.div_mul by lia.
    destruct (words_equal_spec (Z.to_nat k) b p b (p + k * 4) f (λ j, f (k + j))) as (r & -> & Hr).
    { intros j Hj. apply Hh. lia. } { eapply holds_sub; [exact Hh|lia..]. }
    rewrite run_bind_run. destruct r.
    + destruct (IH p k f ltac:(lia) ltac:(lia)) as (r & E & Hs).
      { intros j Hj. apply Hh. lia. }
      rewrite (Z.mul_comm k 4), E. exists r. split; [done|]. intros c. rewrite (Hs c).
      pose proof (proj1 Hr eq_refl) as Heq. cbn beta in Heq. split; intros H j Hj; [|apply H; lia].
      destruct (decide (j < k)); [apply H; lia|].
      specialize (Heq (j - k) ltac:(lia)). replace (k + (j - k)) with j in Heq by lia.
      rewrite <-Heq. apply H. lia.
    + exists None. split; [done|]. intros c. split; [done|]. intros H.
      assert (E : false = true); [|done]. apply Hr. intros j Hj. rewrite !H; [done|lia..].
  - destruct (IH p k f ltac:(lia) ltac:(lia)) as (ra & Ea & Ha).
    { intros j Hj. apply Hh. lia. }
    rewrite Ea, run_bind_run. destruct ra as [ca|].
    + destruct (IH (p + 4 * k) (n - k) (λ j, f (k + j))) as (rb & Eb & Hb); [lia..| |].
      { eapply holds_sub; [exact Hh|lia..]. }
      rewrite <-Z.mul_sub_distr_l, Eb, run_bind_run.
      pose proof (proj1 (Ha ca) eq_refl) as Hca.
      destruct rb as [cb|].
      * pose proof (proj1 (Hb cb) eq_refl) as Hcb. cbn beta in Hcb. eexists. split; [done|].
        destruct (Z.eqb_spec ca cb) as [->|Hne].
        -- apply single_some; [lia|]. intros j Hj. destruct (decide (j < k)); [apply Hca; lia|].
           specialize (Hcb (j - k) ltac:(lia)). by replace (k + (j - k)) with j in Hcb by lia.
        -- apply single_none; [lia|]. exists k. split; [lia|].
           specialize (Hcb 0 ltac:(lia)). rewrite Z.add_0_r in Hcb. rewrite Hcb, Hca by lia. congruence.
      * exists None. split; [done|]. intros c. split; [done|]. intros H.
        assert (E : None = Some c); [|done]. apply Hb. intros j Hj. apply H. lia.
    + exists None. split; [done|]. intros c. split; [done|]. intros H.
      assert (E : None = Some c); [|done]. apply Ha. intros j Hj. apply H. lia.
Qed.
End words.

(** ** Rectangles of an image *)

Lemma holds_row s b x y w :
  state_ok s → buffer s = Some b → 0 ≤ x → x + w ≤ buffer_width s → 0 ≤ y < buffer_height s →
  holds b (address s x y) w (λ k, pixel s (x + k) y).
Proof.
  intros Hs Hb Hx Hw Hy k Hk. rewrite <-(read_pixel s b (x + k) y Hs Hb) by lia.
  f_equal. unfold address. lia.
Qed.

Section image.
Context (s : guac_display_layer_state) (b : list Z) (Hs : state_ok s) (Hb : buffer s = Some b).

Lemma rows_identical_spec n x y w :
  0 ≤ x → 0 < w → x + w ≤ buffer_width s → 0 ≤ y → y + Z.of_nat n < buffer_height s →
  ∃ r, rows_identical n b (address s x y) (buffer_stride s) (4 * w) = Run r ∧
    (r = true ↔ ∀ j k, 0 ≤ j < Z.of_nat n → 0 ≤ k < w →
       pixel s (x + k) (y + j) = pixel s (x + k) (y + (j + 1))).
Proof using Hs Hb.
  intros Hx Hw Hxw. revert y. induction n as [|n IH]; intros y Hy Hyn; cbn [rows_identical].
  { exists true. split; [done|]. split; [lia|done]. }
  rewrite (Z.mul_comm 4 w), Z.div_mul by lia.
  replace (address s x y + buffer_stride s) with (address s x (y + 1)) by (unfold address; lia).
  destruct (words_equal_spec (Z.to_nat w) b (address s x y) b (address s x (y + 1))
    (λ k, pixel s (x + k) y) (λ k, pixel s (x + k) (y + 1))) as (r & -> & Hr).
  { rewrite Z2Nat.id by lia. apply holds_row; (done || lia). }
  { rewrite Z2Nat.id by lia. apply holds_row; (done || lia). }
  rewrite run_bind_run. rewrite Z2Nat.id in Hr by lia. destruct r.
  - rewrite (Z.mul_comm w 4). destruct (IH (y + 1) ltac:(lia) ltac:(lia)) as (r & -> & Hr').
    exists r. split; [done|]. rewrite Hr'. pose proof (proj1 Hr eq_refl) as H0. cbn beta in H0.
    split; intros H j k Hj Hk.
    + destruct (decide (j = 0)) as [->|].
      * rewrite Z.add_0_r. rewrite Z.add_0_l. by apply H0.
      * specialize (H (j - 1) k ltac:(lia) Hk).
        replace (y + 1 + (j - 1)) with (y + j) in H by lia.
        by replace (y + 1 + (j - 1 + 1)) with (y + (j + 1)) in H by lia.
    + specialize (H (j + 1) k ltac:(lia) Hk). replace (y + 1 + j) with (y + (j + 1)) by lia.
      by replace (y + 1 + (j + 1)) with (y + (j + 1 + 1)) by lia.
  - exists false. split; [done|]. split; [done|]. intros H.
    apply Hr. intros k Hk. specialize (H 0 k ltac:(lia) Hk). by rewrite Z.add_0_r, Z.add_0_l in H.
Qed.

(** The test of a rectangle finds its colour exactly if there is one. *)

Lemma rect_single_color_ok r :
  guac_rect_is_empty r = false → 0 ≤ left r → 0 ≤ top r →
  right r ≤ buffer_width s → bottom r ≤ buffer_height s →
  ∃ c, guac_display_plan_is_rect_single_color b (buffer_stride s) r = Run c ∧
    ∀ v, c = Some v ↔ ∀ x y, in_rect x y r → pixel s x y = v.
Proof using Hs Hb.
  rewrite is_empty_false. intros Hne Hl Ht Hr Hbo. destruct (ok_max _ Hs) as [Hmw Hmh].
  assert (Hw : guac_rect_width r = right r - left r) by (rewrite width_spec; [|unfold rect_ok]; lia).
  unfold guac_display_plan_is_rect_single_color, PRIV_guac_mem_ckd_mul_or_die.
  rewrite Hw, ckd_mul_2 by (unfold GUAC_DISPLAY_LAYER_RAW_BPP; lia). cbn [or_die or_abort].
  rewrite run_bind_run, rect_address, run_bind_run by (done || lia).
  unfold GUAC_DISPLAY_LAYER_RAW_BPP. rewrite (Z.mul_comm _ 4).
  set (w := right r - left r). assert (0 < w ≤ 8192) by lia.
  destruct (single_color_ok b (S (Z.to_nat (4 * w))) (address s (left r) (top r)) w
    (λ k, pixel s (left r + k) (top r))) as (first & -> & Hf); [lia..| |].
  { apply holds_row; (done || lia). }
  rewrite run_bind_run. destruct first as [v0|].
  - destruct (rows_identical_spec (Z.to_nat (bottom r - (top r + 1))) (left r) (top r) w)
      as (same & -> & Hsame); [lia..|].
    rewrite run_bind_run. eexists. split; [done|].
    pose proof (proj1 (Hf v0) eq_refl) as Hv0. cbn beta in Hv0. intros v. destruct same.
    + pose proof (proj1 Hsame eq_refl) as Hrows.
      assert (Hall : ∀ j k, 0 ≤ j → j < bottom r - top r → 0 ≤ k < w →
        pixel s (left r + k) (top r + j) = v0).
      { intros j k Hj. revert j Hj. refine (natlike_ind _ _ _).
        - intros _ Hk. rewrite Z.add_0_r. by apply Hv0.
        - intros j Hj IH Hlt Hk. rewrite <-(IH ltac:(lia) Hk). symmetry. unfold Z.succ. apply Hrows; lia. }
      split.
      * intros [= <-] x y [Hx Hy]. replace x with (left r + (x - left r)) by lia.
        replace y with (top r + (y - top r)) by lia. apply Hall; lia.
      * intros H1. f_equal. rewrite <-(Hall 0 0), <-(H1 (left r + 0) (top r + 0));
          [done|unfold in_rect; lia|lia..].
    + split; [done|]. intros H1. assert (E : false = true); [|done].
      apply Hsame. intros j k Hj Hk. rewrite !H1; [done|unfold in_rect; lia..].
  - eexists. split; [done|]. intros v. split; [done|]. intros H1.
    assert (E : None = Some v); [|done]. apply Hf. intros k Hk. apply H1. unfold in_rect. lia.
Qed.
End image.
