(* ===== verification/DisplayHashSpec.v ===== *)
(** * The rolling hash of 64 by 64 pixels (specification of DisplayPlan.v, display-plan-search.c)

    [guac_hash_foreach_image_rect] keeps one running value for the row and one for each column
    and never takes anything out of them: what is older than 64 pixels has been
    multiplied by 62 to the 64th, a multiple of 2 to the 64th, and is gone.  So the value it hands
    to the callback is the hash of the window alone. *)

From S2P Require Import Prelude RecordUpdate Mem Run Rect Display DisplayPlan.
Local Open Scope Z_scope.

(** ** Polynomials *)

Fixpoint poly (n : nat) (f : Z → Z) : Z :=
  match n with
  | O => 0
  | S n => poly n f * 62 + f (Z.of_nat n)
  end.

(** The hash of the window whose upper left corner is [x], [y]. *)

Definition window_hash (s : guac_display_layer_state) (x y : Z) : Z :=
  u64 (poly 64 (λ j, poly 64 (λ i, pixel s (x + i) (y + j)))).

Lemma poly_app a b f : poly (a + b) f = poly a f * 62 ^ Z.of_nat b + poly b (λ i, f (Z.of_nat a + i)).
Proof.
  induction b as [|b IH].
  - rewrite Nat.add_0_r. cbn [poly]. change (62 ^ Z.of_nat 0) with 1. lia.
  - rewrite Nat.add_succ_r. cbn [poly]. rewrite IH, Nat2Z.inj_succ, Z.pow_succ_r by lia.
    rewrite Nat2Z.inj_add. ring.
Qed.

Lemma u64_eq a b k : a = b + k * 2 ^ 64 → u64 a = u64 b.
Proof. intros ->. unfold u64. by rewrite Z.mod_add. Qed.

Lemma u64_poly n f g : (∀ i, 0 ≤ i < Z.of_nat n → u64 (f i) = u64 (g i)) → u64 (poly n f) = u64 (poly n g).
Proof.
  induction n as [|n IH]; intros H; [done|]. cbn [poly]. unfold u64 in *.
  rewrite Z.add_mod, Z.mul_mod, IH, H by (lia || (intros; apply H; lia)).
  by rewrite <-Z.mul_mod, <-Z.add_mod by lia.
Qed.

Lemma poly_ext n f g : (∀ i, 0 ≤ i < Z.of_nat n → f i = g i) → poly n f = poly n g.
Proof. induction n as [|n IH]; intros H; [done|]. cbn [poly]. rewrite IH, H; [done|lia|intros; apply H; lia]. Qed.

(** Only the last 64 terms are left. *)

Lemma u64_last_terms a f : u64 (poly (a + 64) f) = u64 (poly 64 (λ i, f (Z.of_nat a + i))).
Proof.
  rewrite poly_app. apply (u64_eq _ _ (poly a f * 31 ^ 64)).
  assert (E : 62 ^ Z.of_nat 64 = 31 ^ 64 * 2 ^ 64) by by vm_compute.
  by rewrite E, Z.mul_assoc, Z.add_comm.
Qed.

Lemma u64_add_mod v w : u64 (v + w) = u64 (v mod 2 ^ 64 + w).
Proof. unfold u64. by rewrite Z.add_mod_idemp_l. Qed.

(** One step of the code's hash. *)

Lemma hash_step v w : u64 (u64 (Z.shiftl (u64 (u64 v * 31)) 1) + w) = u64 (v * 62 + w).
Proof.
  rewrite Z.shiftl_mul_pow2, Z.pow_1_r by lia. unfold u64 at 2 3 4. rewrite <-u64_add_mod.
  apply (u64_eq _ _ (- (v / 2 ^ 64) * 62 - 2 * ((v mod 2 ^ 64 * 31) / 2 ^ 64))).
  rewrite !Z.mod_eq by lia. generalize (2 ^ 64) as M. intros M. ring.
Qed.

Lemma u64_idemp v : u64 (u64 v) = u64 v.
Proof. unfold u64. by rewrite Z.mod_mod. Qed.

Lemma u64_add_l v w : u64 (v + u64 w) = u64 (v + w).
Proof. unfold u64. by rewrite Z.add_mod_idemp_r. Qed.

(** ** The loops *)

Section windows.
Context {S : Type} (I : Z → Z → S → Prop) (callback : Z → Z → Z → S → run S).
Context (st : guac_display_layer_state) (b : list Z) (r : guac_rect).
Context (Hst : state_ok st) (Hb : buffer st = Some b).
Context (Hl : 0 ≤ left r < 2 ^ 31) (Ht : 0 ≤ top r < 2 ^ 31)
  (Hr : right r ≤ buffer_width st) (Hbo : bottom r ≤ buffer_height st).
(** [I x y] holds before the window at [x], [y] is visited. *)

Context (Hcall : ∀ x y s, I x y s → left r ≤ x → x + 64 ≤ right r → top r ≤ y → y + 64 ≤ bottom r →
  ∃ s', callback x y (window_hash st x y) s = Run s' ∧ I (x + 1) y s').
Context (Hrow : ∀ y s, top r ≤ y → y + 64 ≤ bottom r → I (Z.max (left r) (right r - 63)) y s → I (left r) (y + 1) s).

(** The same for the pixels above the first window and to its left, which no window begins at. *)

Definition before (x y : Z) (s : S) : Prop :=
  if decide (y < top r) then I (left r) (top r) s else I (Z.max (left r) x) y s.

Local Abbreviation start_x := (left r - GUAC_DISPLAY_CELL_SIZE + 1).
Local Abbreviation start_y := (top r - GUAC_DISPLAY_CELL_SIZE + 1).

(** The row hash of row [j] after [m] pixels, the hash of column [m] after [n] rows. *)

Definition row_poly (j : Z) (m : nat) : Z := poly m (λ i, pixel st (left r + i) (top r + j)).
Definition column_poly (n : nat) (m : nat) : Z := poly n (λ j, row_poly j (Datatypes.S m)).

(** Both frames of a call of the callback: the columns before [m] are a row further. *)

Definition columns_ok (n : nat) (m : Z) (hashes : list Z) : Prop :=
  length hashes = Z.to_nat GUAC_DISPLAY_MAX_WIDTH ∧
  ∀ c : nat, Z.of_nat c < right r - left r →
    hashes !! c = Some (u64 (column_poly (if decide (Z.of_nat c < m) then Datatypes.S n else n) c)).

Lemma column_window n m :
  (63 ≤ n)%nat → (63 ≤ m)%nat →
  u64 (column_poly (Datatypes.S n) m) =
    window_hash st (left r + Z.of_nat m - 63) (top r + Z.of_nat n - 63).
Proof using.
  intros Hn Hm. unfold column_poly, window_hash.
  replace (Datatypes.S n) with (n - 63 + 64)%nat by lia. rewrite u64_last_terms.
  apply u64_poly. intros j Hj. unfold row_poly.
  replace (Datatypes.S m) with (m - 63 + 64)%nat by lia. rewrite u64_last_terms. f_equal.
  apply poly_ext. intros i Hi. f_equal; lia.
Qed.

Lemma hash_pixel_ok n x row_hash hashes s :
  Z.of_nat n < bottom r - top r → start_x ≤ x ≤ right r - GUAC_DISPLAY_CELL_SIZE →
  let m := Z.to_nat (x - start_x) in
  row_hash = u64 (row_poly (Z.of_nat n) m) → columns_ok n (x - start_x) hashes →
  before x (start_y + Z.of_nat n) s →
  ∃ hashes' s', hash_pixel callback r b (address st (left r) (top r + Z.of_nat n)) start_x
      (start_y + Z.of_nat n) x (row_hash, hashes, s)
    = Run (u64 (row_poly (Z.of_nat n) (Datatypes.S m)), hashes', s') ∧
    columns_ok n (x + 1 - start_x) hashes' ∧ before (x + 1) (start_y + Z.of_nat n) s'.
Proof using All.
  intros Hn Hx m -> [Hlen Hcols] Hs. unfold GUAC_DISPLAY_CELL_SIZE in *.
  set (mz := x - (left r - 64 + 1)) in *. assert (Hm : 0 ≤ mz) by lia.
  assert (Hmz : Z.of_nat m = mz) by (subst m; lia).
  destruct (ok_max _ Hst) as [Hmw Hmh].
  unfold hash_pixel.
  replace (address st (left r) (top r + Z.of_nat n) + 4 * (x - (left r - 64 + 1)))
    with (address st (left r + mz) (top r + Z.of_nat n)) by (unfold address; subst mz; lia).
  rewrite (read_pixel st b) by (done || lia). rewrite run_bind_run.
  fold mz. fold m.
  rewrite (Hcols m) by lia. cbn [deref]. rewrite run_bind_run.
  destruct (decide (Z.of_nat m < mz)) as [|_]; [lia|].
  rewrite hash_step.
  assert (Erow : row_poly (Z.of_nat n) m * 62 + pixel st (left r + mz) (top r + Z.of_nat n)
    = row_poly (Z.of_nat n) (Datatypes.S m)).
  { unfold row_poly. cbn [poly]. by rewrite Hmz. }
  rewrite Erow, hash_step, u64_add_l.
  assert (Ecol : column_poly n m * 62 + row_poly (Z.of_nat n) (Datatypes.S m)
    = column_poly (Datatypes.S n) m) by done.
  rewrite Ecol. cbv zeta.
  assert (Hstep : ∃ s', (if (top r <=? top r - 64 + 1 + Z.of_nat n) && (left r <=? x)
    then callback x (top r - 64 + 1 + Z.of_nat n) (u64 (column_poly (Datatypes.S n) m)) s
    else Run s) = Run s' ∧ before (x + 1) (top r - 64 + 1 + Z.of_nat n) s').
  { unfold before in *. destruct (Z.leb_spec (top r) (top r - 64 + 1 + Z.of_nat n)).
    2: { rewrite decide_True in Hs by lia. exists s. by rewrite decide_True by lia. }
    rewrite decide_False in Hs by lia.
    destruct (Z.leb_spec (left r) x); cbn [andb].
    2: { exists s. rewrite decide_False by lia. rewrite Z.max_l in * by lia. done. }
    rewrite Z.max_r in Hs by lia. rewrite column_window by lia.
    replace (left r + Z.of_nat m - 63) with x by (subst mz; lia).
    replace (top r + Z.of_nat n - 63) with (top r - 64 + 1 + Z.of_nat n) by lia.
    destruct (Hcall x (top r - 64 + 1 + Z.of_nat n) s Hs) as (s' & -> & Hs'); [lia..|].
    exists s'. rewrite decide_False, Z.max_r by lia. done. }
  destruct Hstep as (s' & -> & Hs'). rewrite run_bind_run.
  eexists _, s'. split; [done|]. split; [|done]. split; [by rewrite length_insert|].
  intros c Hc. destruct (decide (c = m)) as [->|Hne].
  - rewrite list_lookup_insert_eq by (rewrite Hlen; unfold GUAC_DISPLAY_MAX_WIDTH; lia).
    rewrite decide_True by lia. done.
  - rewrite list_lookup_insert_ne, Hcols by (done || lia). do 2 f_equal.
    destruct (decide (Z.of_nat c < mz)), (decide (Z.of_nat c < x + 1 - (left r - 64 + 1))); (done || lia).
Qed.

Lemma row_ends n s :
  Z.of_nat n < bottom r - top r →
  before (Z.max start_x (right r - GUAC_DISPLAY_CELL_SIZE + 1 - 1 + 1)) (start_y + Z.of_nat n) s →
  before start_x (start_y + Z.of_nat n + 1) s.
Proof using Hrow.
  intros Hn. unfold before, GUAC_DISPLAY_CELL_SIZE. intros Hs.
  destruct (decide (top r - 64 + 1 + Z.of_nat n < top r)).
  - destruct (decide (top r - 64 + 1 + Z.of_nat n + 1 < top r)); [done|].
    rewrite Z.max_l by lia. by replace (top r - 64 + 1 + Z.of_nat n + 1) with (top r) by lia.
  - rewrite decide_False, Z.max_l by lia. apply Hrow; [lia..|].
    by replace (Z.max (left r) (right r - 63))
      with (Z.max (left r) (Z.max (left r - 64 + 1) (right r - 64 + 1 - 1 + 1))) by lia.
Qed.

Lemma hash_row_ok n hashes s :
  Z.of_nat n < bottom r - top r → columns_ok n 0 hashes →
  before start_x (start_y + Z.of_nat n) s →
  ∃ hashes' s', hash_row callback r b (buffer_stride st) (address st (left r) (top r)) start_x
      (right r - GUAC_DISPLAY_CELL_SIZE + 1) start_y (start_y + Z.of_nat n) (hashes, s)
    = Run (hashes', s') ∧ columns_ok (Datatypes.S n) 0 hashes' ∧
      before start_x (start_y + Z.of_nat n + 1) s'.
Proof using All.
  intros Hn Hcols Hs. unfold hash_row.
  replace (address st (left r) (top r) + (start_y + Z.of_nat n - start_y) * buffer_stride st)
    with (address st (left r) (top r + Z.of_nat n)) by (unfold address; lia).
  cbn [fst snd].
  destruct (for_range_inv_max (λ x t, t.1.1 = u64 (row_poly (Z.of_nat n) (Z.to_nat (x - start_x))) ∧
      columns_ok n (x - start_x) t.1.2 ∧ before x (start_y + Z.of_nat n) t.2)
    start_x (right r - GUAC_DISPLAY_CELL_SIZE + 1 - 1)
    (hash_pixel callback r b (address st (left r) (top r + Z.of_nat n)) start_x (start_y + Z.of_nat n))
    (0, hashes, s)) as ([[row_hash hashes'] s'] & E & _ & Hcols' & Hs').
  - cbn [fst snd]. rewrite Z.sub_diag. split_and!; [done..|done].
  - intros x [[row_hash hs] t] Hx (Erow & Hc & Ht'). cbn [fst snd] in *.
    destruct (hash_pixel_ok n x row_hash hs t Hn ltac:(lia) Erow Hc Ht') as (hs' & t' & -> & Hc' & Ht'').
    eexists. split; [done|]. cbn [fst snd]. split_and!; [|done..]. do 2 f_equal. lia.
  - rewrite E, run_bind_run. exists hashes', s'. split; [done|].
    cbn [fst snd] in Hcols', Hs'. split; [|by apply row_ends].
    destruct Hcols' as [Hlen Hc]. split; [done|]. intros c Hcw.
    rewrite Hc by done. do 2 f_equal. unfold GUAC_DISPLAY_CELL_SIZE.
    destruct (decide (Z.of_nat c < 0)); [lia|]. by rewrite decide_True by lia.
Qed.

(** Every window is handed to the callback with its hash, nothing is read outside the rectangle and
    the array of columns is large enough. *)

Lemma hash_foreach_inv s :
  I (left r) (top r) s →
  ∃ s', guac_hash_foreach_image_rect st r callback s = Run s' ∧ I (left r) (Z.max (top r) (bottom r - 63)) s'.
Proof using All.
  intros Hs. unfold guac_hash_foreach_image_rect. rewrite rect_address, run_bind_run by done.
  rewrite Hb. cbn [from_option]. unfold id.
  destruct (for_range_inv_max (λ y t, columns_ok (Z.to_nat (y - start_y)) 0 t.1 ∧ before start_x y t.2)
    start_y (bottom r - GUAC_DISPLAY_CELL_SIZE + 1 - 1)
    (hash_row callback r b (buffer_stride st) (address st (left r) (top r)) start_x
       (right r - GUAC_DISPLAY_CELL_SIZE + 1) start_y)
    (replicate (Z.to_nat GUAC_DISPLAY_MAX_WIDTH) 0, s)) as ([hashes s'] & E & _ & Hs').
  - cbn [fst snd]. split; [|unfold before, GUAC_DISPLAY_CELL_SIZE; by rewrite decide_True by lia].
    rewrite Z.sub_diag. split; [by rewrite length_replicate|].
    intros c Hc. destruct (ok_max _ Hst). apply lookup_replicate.
    split; [|unfold GUAC_DISPLAY_MAX_WIDTH; lia]. by case_decide; [lia|].
  - intros y [hs t] Hy [Hc Ht']. cbn [fst snd] in *. unfold GUAC_DISPLAY_CELL_SIZE in Hy.
    assert (Ey : start_y + Z.of_nat (Z.to_nat (y - start_y)) = y).
    { rewrite Z2Nat.id by (unfold GUAC_DISPLAY_CELL_SIZE; lia). lia. }
    destruct (hash_row_ok (Z.to_nat (y - start_y)) hs t) as (hs' & t' & E & Hc' & Ht''); [|done| |].
    + unfold GUAC_DISPLAY_CELL_SIZE. lia.
    + by rewrite Ey.
    + rewrite Ey in E, Ht''. rewrite E. eexists. split; [done|]. cbn [fst snd]. split; [|done].
      replace (Z.to_nat (y + 1 - start_y)) with (Datatypes.S (Z.to_nat (y - start_y)))
        by (unfold GUAC_DISPLAY_CELL_SIZE; lia). done.
  - rewrite E, run_bind_run. exists s'. split; [done|]. cbn [fst snd] in Hs'.
    unfold before, GUAC_DISPLAY_CELL_SIZE in Hs'. rewrite (Z.max_l (left r) (left r - 64 + 1)) in Hs' by lia.
    case_decide as Hlt.
    + by rewrite Z.max_l by lia.
    + rewrite Z.max_r by lia. by replace (bottom r - 63) with (Z.max (top r - 64 + 1) (bottom r - 64 + 1 - 1 + 1)) by lia.
Qed.
End windows.

(** What every call of the callback keeps, the loops keep. *)

Lemma hash_foreach_ok {S} (I : S → Prop) (callback : Z → Z → Z → S → run S)
    (st : guac_display_layer_state) (b : list Z) (r : guac_rect) :
  state_ok st → buffer st = Some b → 0 ≤ left r < 2 ^ 31 → 0 ≤ top r < 2 ^ 31 →
  right r ≤ buffer_width st → bottom r ≤ buffer_height st →
  (∀ x y s, I s → left r ≤ x → x + 64 ≤ right r → top r ≤ y → y + 64 ≤ bottom r →
     ∃ s', callback x y (window_hash st x y) s = Run s' ∧ I s') →
  ∀ s, I s → ∃ s', guac_hash_foreach_image_rect st r callback s = Run s' ∧ I s'.
Proof.
  intros Hst Hb Hl Ht Hr Hbo Hcall s Hs.
  by apply (hash_foreach_inv (λ _ _, I) callback st b r Hst Hb Hl Ht Hr Hbo Hcall ltac:(done)).
Qed.

(** ** The windows of a rectangle *)

Lemma seqZ_snoc m n : 0 ≤ n → seqZ m (n + 1) = seqZ m n ++ [m + n].
Proof. intros Hn. rewrite seqZ_app by lia. f_equal. Qed.

(** The windows of 64 by 64 pixels that begin in the rows [y0 ..], row by row. *)

Definition window_row (r : guac_rect) (n : Z) (y : Z) : list (Z * Z) := (λ x, (x, y)) <$> seqZ (left r) n.

Lemma window_row_snoc r n y : 0 ≤ n → window_row r (n + 1) y = window_row r n y ++ [(left r + n, y)].
Proof. intros Hn. unfold window_row. by rewrite seqZ_snoc, fmap_app. Qed.

Definition windows (r : guac_rect) : list (Z * Z) :=
  mjoin (window_row r (right r - 63 - left r) <$> seqZ (top r) (bottom r - 63 - top r)).

Definition visit_window {S} (st : guac_display_layer_state) (f : Z → Z → Z → S → S) (s : S) (w : Z * Z) : S :=
  f w.1 w.2 (window_hash st w.1 w.2) s.

(** C21. The callback is called for each window in turn, row by row, with the hash of that window alone;
    nothing outside the rectangle is read and the array of column hashes is large enough. *)

Theorem hash_windows {S} (f : Z → Z → Z → S → S) (st : guac_display_layer_state) (r : guac_rect) (s : S) :
  state_ok st → 0 ≤ left r < 2 ^ 31 → 0 ≤ top r < 2 ^ 31 →
  right r ≤ buffer_width st → bottom r ≤ buffer_height st →
  guac_hash_foreach_image_rect st r (λ x y hash s, Run (f x y hash s)) s =
    Run (foldl (visit_window st f) s (windows r)).
Proof.
  intros Hst Hl Ht Hr Hbo. destruct (ok_buffer _ Hst) as (b & Hb & _).
  destruct (hash_foreach_inv (λ x y t, t = foldl (visit_window st f) s
      (mjoin (window_row r (right r - 63 - left r) <$> seqZ (top r) (y - top r)) ++ window_row r (x - left r) y))
    (λ x y hash s, Run (f x y hash s)) st b r Hst Hb Hl Ht Hr Hbo) with (s := s) as (s' & -> & ->).
  - intros x y t -> Hx _ _ _. eexists. split; [done|].
    replace (x + 1 - left r) with (x - left r + 1) by lia.
    rewrite (window_row_snoc r (x - left r)), app_assoc by lia.
    replace (left r + (x - left r)) with x by lia. by rewrite !foldl_app.
  - intros y t Hy _ ->. replace (y + 1 - top r) with (y - top r + 1) by lia.
    rewrite seqZ_snoc, fmap_app, join_app by lia. cbn [fmap list_fmap mjoin list_join]. rewrite app_nil_r.
    rewrite Z.sub_diag. change (window_row r 0 (y + 1)) with (@nil (Z * Z)). rewrite app_nil_r.
    replace (top r + (y - top r)) with y by lia. f_equal. f_equal. unfold window_row.
    destruct (decide (right r - 63 ≤ left r)).
    + rewrite Z.max_l, Z.sub_diag, !seqZ_nil by lia. done.
    + by rewrite Z.max_r by lia.
  - rewrite !Z.sub_diag. done.
  - rewrite Z.sub_diag. change (window_row r 0 _) with (@nil (Z * Z)). rewrite app_nil_r. do 2 f_equal. unfold windows.
    destruct (decide (bottom r - 63 ≤ top r)).
    + by rewrite Z.max_l, Z.sub_diag, !seqZ_nil by lia.
    + by rewrite Z.max_r by lia.
Qed.

(** Six windows of an image of 66 by 65 pixels, each with the sum of the hash and its place. *)

Definition small_state : guac_display_layer_state :=
  zero_state <| width := 66 |> <| height := 65 |> <| buffer := Some (seqZ 0 4290) |>
    <| buffer_width := 66 |> <| buffer_height := 65 |> <| buffer_stride := 264 |>.

Lemma hash_windows_witness :
  guac_hash_foreach_image_rect small_state (mk_guac_rect 0 0 66 65) (λ x y hash s, Run ((x, y, hash) :: s)) [] =
    Run (foldl (visit_window small_state (λ x y hash s, (x, y, hash) :: s)) [] (windows (mk_guac_rect 0 0 66 65))) ∧
  windows (mk_guac_rect 0 0 66 65) = [(0, 0); (1, 0); (2, 0); (0, 1); (1, 1); (2, 1)].
Proof.
  split; [|by vm_compute].
  apply (hash_windows (λ x y hash s, (x, y, hash) :: s)); [|cbn; lia..].
  split; cbn; try lia.
  - split; [by exists 66|lia].
  - eexists. split; [done|]. rewrite length_seqZ. lia.
Defined.

(** ** Layers that are too wide *)

Lemma for_loop_faults {S} (I : Z → S → Prop) n i j body (s : S) :
  i ≤ j < i + Z.of_nat n → I i s →
  (∀ k t, i ≤ k < j → I k t → ∃ t', body k t = Run t' ∧ I (k + 1) t') →
  (∀ t, I j t → body j t = Fault) →
  for_loop n i body s = Fault.
Proof.
  revert i s. induction n as [|n IH]; intros i s Hj Hi Hstep Hfault; [lia|]. cbn [for_loop].
  destruct (decide (i = j)) as [->|].
  - by rewrite (Hfault s Hi).
  - destruct (Hstep i s ltac:(lia) Hi) as (t & -> & Ht). rewrite run_bind_run.
    apply IH; [lia|done| |done]. intros k u Hk. apply Hstep. lia.
Qed.

(** A rectangle of the buffer that is wider than the array of column hashes. *)

Record too_wide (state : guac_display_layer_state) (b : list Z) (r : guac_rect) : Prop := {
  wide_buffer_is : buffer state = Some b;
  wide_left : 0 ≤ left r < 2 ^ 31;
  wide_top : 0 ≤ top r < 2 ^ 31;
  wide_stride : 0 ≤ buffer_stride state < 2 ^ 32 ∧ (4 | buffer_stride state);
  wide_inside : top r * buffer_stride state + 4 * right r ≤ 4 * Z.of_nat (length b);
  wide_width : GUAC_DISPLAY_MAX_WIDTH < right r - left r;
  wide_height : top r < bottom r;
}.

(** C23. The array has [GUAC_DISPLAY_MAX_WIDTH] entries, and nothing in the loops keeps to them: the loops
    write past its end. *)

Theorem hash_overruns {S} (callback : Z → Z → Z → S → run S) (state : guac_display_layer_state)
    (b : list Z) (r : guac_rect) (s : S) :
  too_wide state b r →
  guac_hash_foreach_image_rect state r callback s = Fault.
Proof.
  intros [Hb Hl Ht [Hs [k Hk]] Hlen Hw Hh]. unfold GUAC_DISPLAY_MAX_WIDTH in Hw.
  unfold guac_hash_foreach_image_rect, GUAC_RECT_BUFFER, PRIV_guac_mem_ckd_mul_or_die.
  rewrite (ckd_mul_2 (top r)) by lia. cbn [or_die or_abort]. rewrite run_bind_run.
  rewrite ckd_mul_2 by (unfold GUAC_DISPLAY_LAYER_RAW_BPP; lia). cbn [or_die or_abort]. rewrite !run_bind_run.
  rewrite Hb. cbn [from_option]. unfold id, GUAC_DISPLAY_CELL_SIZE, GUAC_DISPLAY_LAYER_RAW_BPP.
  unfold for_range. destruct (Z.to_nat (bottom r - 64 + 1 - 1 - (top r - 64 + 1) + 1)) as [|n] eqn:E; [lia|].
  cbn [for_loop]. clear E. unfold hash_row. cbn [fst snd].
  rewrite Z.sub_diag, Z.mul_0_l, Z.add_0_r. unfold for_range.
  rewrite (for_loop_faults (λ _ t, length t.1.2 = Z.to_nat 8192) _ _ (left r - 63 + 8192)); [done|lia|..].
  - cbn [fst snd]. by rewrite length_replicate.
  - intros x [[row_hash hashes] t] Hx Hc. cbn [fst snd] in Hc. unfold hash_pixel.
    replace (top r * buffer_stride state + left r * 4 + 4 * (x - (left r - 64 + 1)))
      with ((top r * k + left r + (x - (left r - 64 + 1))) * 4) by (rewrite Hk; ring).
    unfold word_at. rewrite Z.mod_mul, Z.div_mul by lia. destruct (Z.ltb_spec ((top r * k + left r + (x - (left r - 64 + 1))) * 4) 0); [nia|].
    cbn [orb negb Z.eqb].
    destruct (lookup_lt_is_Some_2 b (Z.to_nat (top r * k + left r + (x - (left r - 64 + 1))))) as [v ->]; [nia|].
    cbn [deref]. rewrite run_bind_run.
    destruct (lookup_lt_is_Some_2 hashes (Z.to_nat (x - (left r - 64 + 1)))) as [c ->]; [lia|].
    cbn [deref]. rewrite run_bind_run. cbv zeta.
    destruct (Z.leb_spec (top r) (top r - 64 + 1)); [lia|]. cbn [andb]. rewrite run_bind_run.
    eexists. split; [done|]. cbn [fst snd]. by rewrite length_insert.
  - intros [[row_hash hashes] t] Hc. cbn [fst snd] in Hc. unfold hash_pixel.
    replace (top r * buffer_stride state + left r * 4 + 4 * (left r - 63 + 8192 - (left r - 64 + 1)))
      with ((top r * k + left r + 8192) * 4) by (rewrite Hk; ring).
    unfold word_at. rewrite Z.mod_mul, Z.div_mul by lia. destruct (Z.ltb_spec ((top r * k + left r + 8192) * 4) 0); [nia|].
    cbn [orb negb Z.eqb].
    destruct (lookup_lt_is_Some_2 b (Z.to_nat (top r * k + left r + 8192))) as [v ->]; [nia|].
    cbn [deref]. rewrite run_bind_run.
    rewrite lookup_ge_None_2 by lia. done.
Qed.

(** A layer as [guac_display_layer_resize] leaves it when it is made 8200 pixels wide. *)

Definition wide_buffer : list Z := replicate (Z.to_nat (64 * 8256)) 0.

Definition wide_state : guac_display_layer_state :=
  zero_state <| width := 8200 |> <| height := 64 |> <| buffer := Some wide_buffer |>
    <| buffer_width := 8256 |> <| buffer_height := 64 |> <| buffer_stride := 33024 |>.

Lemma hash_overruns_witness :
  guac_hash_foreach_image_rect wide_state (mk_guac_rect 0 0 8200 64) (λ _ _ _ n, Run (n + 1)) 0 = Fault.
Proof.
  assert (Hs : buffer_stride wide_state = 33024) by reflexivity.
  apply (hash_overruns (λ _ _ _ n, Run (n + 1)) wide_state wide_buffer (mk_guac_rect 0 0 8200 64) 0).
  split; rewrite ?Hs; cbn [left top right bottom]; [reflexivity|lia|lia| | |unfold GUAC_DISPLAY_MAX_WIDTH; lia|lia].
  - split; [lia|by exists 8256].
  - unfold wide_buffer. rewrite length_replicate. lia.
Defined.
