(* ===== verification/DisplayPassSpec.v ===== *)
(** * The passes that refine a draft (specification of DisplayPlan.v)

    An operation is right when what it draws is the pending frame: a rectangle has the colour of
    its pixels, a copy comes from pixels of the last frame that are the same, an image is sent
    from the frame itself.  Every pass keeps all operations right and still draws whatever was
    drawn before. *)

From stdpp Require Import gmap.
From S2P Require Import Prelude RecordUpdate Mem Run Rect ProtocolTypes Display DisplayPlan.
From S2P Require Import DisplayDraftSpec DisplayCreateSpec DisplayRectSpec.
Local Open Scope Z_scope.

Local Abbreviation len l := (Z.of_nat (List.length l)).

(** ** Right operations *)

(** The colour of a pixel: opaque layers ignore its alpha. *)

Definition shown_color (l : guac_display_layer) (v : Z) : Z :=
  if opaque l then Z.lor v 0xFF000000 else v.

Definition shifted (dx dy : Z) (r : guac_rect) : guac_rect :=
  mk_guac_rect (left r + dx) (top r + dy) (right r + dx) (bottom r + dy).

Definition area (r : guac_rect) : Z := (right r - left r) * (bottom r - top r).

Definition on_grid (r : guac_rect) : Prop :=
  (64 | left r) ∧ (64 | top r) ∧ (64 | right r) ∧ (64 | bottom r).

(** A copy: the source is the destination, moved. *)

Definition right_copy (ls : list guac_display_layer) (l : guac_display_layer)
    (op : guac_display_plan_operation) : Prop :=
  ∃ from dx dy, from ∈ ls ∧
    op_src op = Layer_rect (shifted dx dy (op_dest op)) (last_frame_buffer from) ∧
    contains (bounds_of (last_frame from)) (shifted dx dy (op_dest op)) ∧
    (listed from = true ∧ search_for_copies (pending_frame from) = true) ∧
    (∀ x y, in_rect x y (op_dest op) →
       pixel (pending_frame l) x y = pixel (last_frame from) (x + dx) (y + dy)) ∧
    on_grid (op_dest op) ∧ op_dirty_size op ≤ area (op_dest op) ∧
    right (op_dest op) - left (op_dest op) ≤ 512 ∧ bottom (op_dest op) - top (op_dest op) ≤ 512.

Definition right_as (ls : list guac_display_layer) (l : guac_display_layer)
    (op : guac_display_plan_operation) : Prop :=
  match op_type op with
  | GUAC_DISPLAY_PLAN_OPERATION_NOP | GUAC_DISPLAY_PLAN_OPERATION_IMG => True
  | GUAC_DISPLAY_PLAN_OPERATION_RECT =>
      ∃ c, op_src op = Color c ∧
        ∀ x y, in_rect x y (op_dest op) → shown_color l (pixel (pending_frame l) x y) = c
  | GUAC_DISPLAY_PLAN_OPERATION_COPY => right_copy ls l op
  end.

Definition right_op (ls : list guac_display_layer) (op : guac_display_plan_operation) : Prop :=
  ∃ l, ls !! op_layer op = Some l ∧ guac_rect_is_empty (op_dest op) = false ∧
    contains (bounds_of (pending_frame l)) (op_dest op) ∧ 0 ≤ op_dirty_size op ∧ right_as ls l op.

(** The pixel is drawn by some operation. *)

Definition drawn (ops : list guac_display_plan_operation) (k : nat) (x y : Z) : Prop :=
  ∃ op, op ∈ ops ∧ op_type op ≠ GUAC_DISPLAY_PLAN_OPERATION_NOP ∧ op_layer op = k ∧
    in_rect x y (op_dest op).

Definition is_copy (op : guac_display_plan_operation) : Prop :=
  op_type op = GUAC_DISPLAY_PLAN_OPERATION_COPY.

(** Copies do not overlap. *)

Definition apart (ops : list guac_display_plan_operation) : Prop :=
  ∀ i j a b x y, i ≠ j → ops !! i = Some a → ops !! j = Some b → is_copy a → is_copy b →
    op_layer a = op_layer b → in_rect x y (op_dest a) → ¬ in_rect x y (op_dest b).

(** ** Between the passes: one operation for a cell *)

Record cell_op (ls : list guac_display_layer) (op : guac_display_plan_operation) : Prop := {
  cell_right : right_op ls op;
  cell_own : contains (own_cell op) (op_dest op);
  cell_copy : is_copy op → op_dest op = own_cell op;
  cell_not_nop : op_type op ≠ GUAC_DISPLAY_PLAN_OPERATION_NOP;
  cell_size : op_dirty_size op ≤ 4096;
}.

Definition cell_ops_ok (ls : list guac_display_layer) (ops : list guac_display_plan_operation) : Prop :=
  Forall (cell_op ls) ops ∧ NoDup (op_cell <$> ops).

Lemma draft_cell_op ls op : draft_op ls op → cell_op ls op.
Proof.
  intros [Ht He Hc Hs (l & Hl & Hb & _)]. split.
  - exists l. unfold right_as. rewrite Ht. split_and!; (done || lia).
  - done.
  - unfold is_copy. by rewrite Ht.
  - by rewrite Ht.
  - lia.
Qed.

Lemma own_cell_layer op op' :
  own_cell op = own_cell op' → op_layer op = op_layer op' → op_cell op = op_cell op'.
Proof. unfold own_cell, op_cell. intros [= ? ? _ _] ->. f_equal; [f_equal|]; lia. Qed.

Lemma own_cells_meet op op' x y :
  in_rect x y (own_cell op) → in_rect x y (own_cell op') → own_cell op = own_cell op'.
Proof.
  unfold in_rect, own_cell. cbn [left top right bottom]. intros.
  assert (left (op_dest op) / 64 = left (op_dest op') / 64) as -> by lia.
  assert (top (op_dest op) / 64 = top (op_dest op') / 64) as -> by lia. done.
Qed.

Lemma cell_ops_apart ls ops : cell_ops_ok ls ops → apart ops.
Proof.
  intros [Hf Hnd] i j a b x y Hij Ha Hb Hca Hcb Hl Hxa Hxb.
  apply Hij. eapply (NoDup_lookup (op_cell <$> ops) i j (op_cell a)); [done|by rewrite list_lookup_fmap, Ha|].
  rewrite list_lookup_fmap, Hb. cbn. f_equal.
  pose proof (Forall_lookup_1 _ _ _ _ Hf Ha) as Hoa. pose proof (Forall_lookup_1 _ _ _ _ Hf Hb) as Hob.
  symmetry. apply own_cell_layer; [|done]. apply (own_cells_meet a b x y).
  - by rewrite <-(cell_copy _ _ Hoa).
  - by rewrite <-(cell_copy _ _ Hob).
Qed.

(** ** Rectangles *)

Lemma each_op_ok {A} (f : A → run A) (R : A → A → Prop) ops :
  (∀ op, op ∈ ops → ∃ op', f op = Run op' ∧ R op op') →
  ∃ ops', each_op f ops = Run ops' ∧ Forall2 R ops ops'.
Proof.
  induction ops as [|op ops IH]; intros H; [by exists []; split; [|constructor]|].
  cbn [each_op]. destruct (H op ltac:(left)) as (op' & -> & Hop). rewrite run_bind_run.
  destruct IH as (ops' & -> & HF); [intros; apply H; by right|].
  exists (op' :: ops'). split; [done|by constructor].
Qed.

(** What a pass may do to an operation on its own: change the way it is drawn. *)

Definition redrawn (ls : list guac_display_layer) (op op' : guac_display_plan_operation) : Prop :=
  cell_op ls op' ∧ op_cell op' = op_cell op ∧
  ∀ x y, in_rect x y (op_dest op) → in_rect x y (op_dest op').

Lemma same_length ops ops' : op_layer <$> ops' = op_layer <$> ops → length ops' = length ops.
Proof. intros E. by rewrite <-(length_fmap op_layer ops'), E, length_fmap. Qed.

Lemma redrawn_ok ls ops ops' :
  cell_ops_ok ls ops → Forall2 (redrawn ls) ops ops' →
  cell_ops_ok ls ops' ∧ op_layer <$> ops' = op_layer <$> ops ∧ ∀ k x y, drawn ops k x y → drawn ops' k x y.
Proof.
  intros [Hf Hnd] HF. split_and!.
  - split.
    + eapply Forall2_Forall_r; [exact HF|]. apply list.Forall_forall. intros op _ op' H. apply H.
    + assert (E : op_cell <$> ops' = op_cell <$> ops); [|by rewrite E].
      clear Hf Hnd. induction HF as [|op op' ops ops' (_ & E & _) _ IH]; [done|]. cbn. by rewrite E, IH.
  - clear Hf Hnd. induction HF as [|op op1 ops ops1 (_ & E & _) _ IH]; [done|]. cbn. rewrite IH.
    unfold op_cell in E. injection E as E _ _. by rewrite E.
  - intros k x y (op & Hop & _ & Hk & Hin). apply list_elem_of_lookup in Hop as [i Hi].
    destruct (Forall2_lookup_l _ _ _ _ _ HF Hi) as (op' & Hi' & Hop' & Hcell & Hd).
    exists op'. split_and!; [by eapply list_elem_of_lookup_2|by apply (cell_not_nop ls)| |by apply Hd].
    unfold op_cell in Hcell. by simplify_eq.
Qed.

Lemma rewrite_as_rect_ok ls op :
  Forall layer_ok ls → cell_op ls op →
  ∃ op', rewrite_as_rect ls op = Run op' ∧ redrawn ls op op'.
Proof.
  intros Hls Hop. pose proof Hop as [(l & Hl & He & Hb & Hs & Hr) Ho Hc Hn H4].
  unfold rewrite_as_rect. case_decide as Ht; [|by exists op].
  rewrite Hl. cbn [deref]. rewrite run_bind_run.
  pose proof (Forall_lookup_1 _ _ _ _ Hls Hl) as Hlok.
  destruct (ok_buffer _ (ok_pending _ Hlok)) as (b & Hbuf & _). rewrite Hbuf.
  destruct (ok_pending _ Hlok) as [? ? ? _ _]. unfold contains in Hb. cbn [bounds_of left top right bottom] in Hb.
  destruct (rect_single_color_ok (pending_frame l) b (ok_pending _ Hlok) Hbuf (op_dest op) He)
    as (c & -> & Hcol); [lia..|].
  rewrite run_bind_run. destruct c as [c|]; [|by exists op].
  eexists. split; [done|]. split; [|done]. split; cbn; try done.
  exists l. cbn. split_and!; [done..|]. exists (shown_color l c). split; [done|].
  intros x y Hin. f_equal. by apply Hcol.
Qed.

Lemma rewrite_as_rects_ok ls ops :
  Forall layer_ok ls → cell_ops_ok ls ops →
  ∃ ops', PFR_guac_display_plan_rewrite_as_rects ls ops = Run ops' ∧
    cell_ops_ok ls ops' ∧ op_layer <$> ops' = op_layer <$> ops ∧ ∀ k x y, drawn ops k x y → drawn ops' k x y.
Proof.
  intros Hls Hops. unfold PFR_guac_display_plan_rewrite_as_rects.
  destruct (each_op_ok (rewrite_as_rect ls) (redrawn ls) ops) as (ops' & E & HF).
  - intros op Hop. apply rewrite_as_rect_ok; [done|]. by apply (proj1 (list.Forall_forall _ _) (proj1 Hops)).
  - exists ops'. split; [done|]. by apply redrawn_ok.
Qed.
