(* ===== verification/DisplayCopySpec.v ===== *)
(** * Copies from the last frame (specification of DisplayPlan.v, display-plan-search.c)

    Whatever the hashes say, an operation becomes a copy only after the pixels have been
    compared: the passes that index and search keep every operation right. *)

From stdpp Require Import gmap.
From S2P Require Import Prelude RecordUpdate Mem Run Rect ProtocolTypes Display DisplayPlan.
From S2P Require Import DisplayDraftSpec DisplayCreateSpec DisplayRectSpec DisplayHashSpec DisplayPassSpec.
Local Open Scope Z_scope.

(** ** Comparing images *)

Section images.
Context (s t : guac_display_layer_state) (a b : list Z).
Context (Hs : state_ok s) (Ha : buffer s = Some a) (Ht : state_ok t) (Hb : buffer t = Some b).

Lemma image_rows_equal_ok n w x y x' y' :
  0 ≤ x → 0 ≤ w → x + w ≤ buffer_width s → 0 ≤ y → y + Z.of_nat n ≤ buffer_height s →
  0 ≤ x' → x' + w ≤ buffer_width t → 0 ≤ y' → y' + Z.of_nat n ≤ buffer_height t →
  ∃ r, image_rows_equal n w a (address s x y) (buffer_stride s) b (address t x' y') (buffer_stride t)
    = Run r ∧
    (r = true → ∀ i j, 0 ≤ i < w → 0 ≤ j < Z.of_nat n → pixel s (x + i) (y + j) = pixel t (x' + i) (y' + j)).
Proof using All.
  intros Hx Hw Hxw. revert y y'. induction n as [|n IH]; intros y y' Hy Hyn Hx' Hxw' Hy' Hyn';
    cbn [image_rows_equal].
  { exists true. split; [done|lia]. }
  destruct (words_equal_spec (Z.to_nat w) a (address s x y) b (address t x' y')
    (λ k, pixel s (x + k) y) (λ k, pixel t (x' + k) y')) as (r & -> & Hr).
  { rewrite Z2Nat.id by lia. apply holds_row; (done || lia). }
  { rewrite Z2Nat.id by lia. apply holds_row; (done || lia). }
  rewrite run_bind_run. destruct r; [|by exists false].
  replace (address s x y + buffer_stride s) with (address s x (y + 1)) by (unfold address; lia).
  replace (address t x' y' + buffer_stride t) with (address t x' (y' + 1)) by (unfold address; lia).
  destruct (IH (y + 1) (y' + 1)) as (r & -> & Hrows); [lia..|].
  exists r. split; [done|]. intros -> i j Hi Hj. pose proof (proj1 Hr eq_refl) as H0. cbn beta in H0.
  destruct (decide (j = 0)) as [->|].
  - rewrite !Z.add_0_r. apply H0. lia.
  - specialize (Hrows eq_refl i (j - 1) Hi ltac:(lia)).
    by replace (y + 1 + (j - 1)) with (y + j) in Hrows by lia;
       replace (y' + 1 + (j - 1)) with (y' + j) in Hrows by lia.
Qed.
End images.

(** ** Indexing and searching *)

Section passes.
Context (ls : list guac_display_layer) (Hls : Forall layer_ok ls)
  (Hdirty : Forall (λ l, rect_ok (dirty (pending_frame l))) ls).

(** An operation whose whole cell is inside the frame. *)

Definition indexable (op : guac_display_plan_operation) : Prop :=
  op_type op = GUAC_DISPLAY_PLAN_OPERATION_IMG ∨ is_copy op.

Definition whole_cell (op : guac_display_plan_operation) : Prop :=
  ∃ l, ls !! op_layer op = Some l ∧ contains (bounds_of (pending_frame l)) (own_cell op).

Definition index_ok (ops : list guac_display_plan_operation) (index : hash_index) : Prop :=
  ∀ h hash i, index !! h = Some (hash, i) → ∃ op, ops !! i = Some op ∧ whole_cell op ∧ indexable op.

Lemma own_cell_moved op op' : op_dest op' = own_cell op → own_cell op' = own_cell op.
Proof using.
  clear. intros E. unfold own_cell at 1. rewrite E. unfold own_cell. cbn [left top right bottom].
  f_equal; dlia.
Qed.

Lemma cell_rect op : cell_op ls op →
  guac_display_cell_init_rect (left (op_dest op)) (top (op_dest op)) = own_cell op.
Proof using Hls.
  intros [(l & Hl & He & Hb & _) _ _ _ _]. pose proof (Forall_lookup_1 _ _ _ _ Hls Hl) as Hlok.
  destruct (ok_pending _ Hlok) as [? ? ? _ _]. unfold contains in Hb.
  cbn [bounds_of left top right bottom] in Hb.
  unfold guac_display_cell_init_rect, guac_rect_init, own_cell, GUAC_DISPLAY_CELL_SIZE.
  rewrite !Z.quot_div_nonneg by lia. cbn [Z.ltb Z.compare].
  assert (left (op_dest op) < 8192 ∧ top (op_dest op) < 8192) by (apply is_empty_false in He; lia).
  rewrite !i32_small by (unfold is_i32; dlia). f_equal; lia.
Qed.

Lemma whole_cell_bounds l op :
  cell_op ls op → ls !! op_layer op = Some l →
  let cell := guac_rect_constrain (own_cell op) (guac_display_layer_get_bounds l) in
  guac_rect_width cell = 64 → guac_rect_height cell = 64 →
  cell = own_cell op ∧ contains (bounds_of (pending_frame l)) (own_cell op).
Proof using Hls.
  intros Hop Hl cell. pose proof (Forall_lookup_1 _ _ _ _ Hls Hl) as Hlok.
  destruct (ok_pending _ Hlok) as [? ? ? _ _]. pose proof (cell_own _ _ Hop) as Hown. destruct (cell_right _ _ Hop) as (l' & Hl' & He & Hb & _).
  simplify_eq. apply is_empty_false in He. unfold contains in Hb. cbn [bounds_of left top right bottom] in Hb.
  assert (Hx0 : 0 ≤ left (own_cell op) ≤ left (op_dest op)) by (unfold own_cell; cbn [left]; dlia).
  assert (Hy0 : 0 ≤ top (own_cell op) ≤ top (op_dest op)) by (unfold own_cell; cbn [top]; dlia).
  assert (Hsq : right (own_cell op) = left (own_cell op) + 64 ∧ bottom (own_cell op) = top (own_cell op) + 64)
    by done.
  assert (Hcell : cell = mk_guac_rect (left (own_cell op)) (top (own_cell op))
    (Z.min (right (own_cell op)) (width (pending_frame l)))
    (Z.min (bottom (own_cell op)) (height (pending_frame l)))).
  { subst cell. unfold guac_rect_constrain, guac_display_layer_get_bounds. cbn [left top right bottom].
    f_equal; zif; lia. }
  rewrite Hcell, width_spec, height_spec by (unfold rect_ok; cbn [left top right bottom]; lia).
  cbn [left top right bottom]. intros Hw Hh. unfold contains. cbn [bounds_of left top right bottom].
  split; [|lia]. destruct (own_cell op) as [a b c d]. cbn [left top right bottom] in *. f_equal; lia.
Qed.

Lemma index_ops_ok ops k rest index :
  Forall (cell_op ls) rest → (∀ i op, rest !! i = Some op → ops !! (k + i)%nat = Some op) →
  index_ok ops index →
  ∃ index', index_ops ls k rest index = Run index' ∧ index_ok ops index'.
Proof using All.
  revert k index. induction rest as [|op rest IH]; intros k index Hrest Hat Hi; cbn [index_ops].
  { by exists index. }
  apply Forall_cons_1 in Hrest as [Hop Hrest].
  assert (Hk : ops !! k = Some op) by (rewrite <-(Nat.add_0_r k); by apply Hat).
  assert (Hnext : ∃ index', index_op ls k op index = Run index' ∧ index_ok ops index').
  { unfold index_op. case_decide as Htype; [|by exists index].
    pose proof Hop as [(l & Hl & He & Hb & _) _ _ _ _]. rewrite Hl. cbn [deref]. rewrite run_bind_run.
    rewrite cell_rect by done. unfold GUAC_DISPLAY_CELL_SIZE.
    destruct (Z.eqb_spec (guac_rect_width (guac_rect_constrain (own_cell op) (guac_display_layer_get_bounds l))) 64)
      as [Hw|]; [|by exists index].
    destruct (Z.eqb_spec (guac_rect_height (guac_rect_constrain (own_cell op) (guac_display_layer_get_bounds l))) 64)
      as [Hh|]; [|by exists index].
    cbn [andb]. destruct (whole_cell_bounds l op Hop Hl Hw Hh) as [Hcell Hwhole]. rewrite Hcell.
    pose proof (Forall_lookup_1 _ _ _ _ Hls Hl) as Hlok.
    destruct (ok_buffer _ (ok_pending _ Hlok)) as (b & Hbuf & _).
    pose proof (ok_pending _ Hlok) as [? ? ? _ _].
    pose proof Hwhole as Hwhole'. unfold contains in Hwhole'. cbn [bounds_of left top right bottom] in Hwhole'.
    assert (left (own_cell op) < 2 ^ 31 ∧ top (own_cell op) < 2 ^ 31).
    { unfold own_cell in *. cbn [left top right bottom] in *. lia. }
    eapply (hash_foreach_ok (index_ok ops) (guac_display_plan_index_op_for_cell k) (pending_frame l) b);
      [exact (ok_pending _ Hlok)|done|lia..| |done].
    intros x y s Hs _ _ _ _. eexists. split; [done|].
    unfold guac_display_plan_store_indexed_op.
    destruct (s !! GUAC_DISPLAY_PLAN_OPERATION_HASH (window_hash (pending_frame l) x y)) eqn:Es; [done|].
    intros h hash i Hhi. apply (lookup_insert_Some (M := gmap Z)) in Hhi as [[_ [= _ <-]]|[_ Hold]]; [|by eapply Hs].
    exists op. split_and!; [done| |by left]. by exists l. }
  destruct Hnext as (index' & -> & Hi'). rewrite run_bind_run.
  apply IH; [done| |done]. intros i o Ho. rewrite Nat.add_succ_l, <-Nat.add_succ_r. by apply Hat.
Qed.

Lemma index_dirty_cells_ok ops :
  cell_ops_ok ls ops →
  ∃ index, PFR_guac_display_plan_index_dirty_cells ls ops = Run index ∧ index_ok ops index.
Proof using All.
  intros [Hops _]. apply index_ops_ok; [done|done|]. intros h hash i Hhi. by apply (lookup_empty_Some (M := gmap Z)) in Hhi.
Qed.

(** What searching keeps: the operations are right, and draw what they drew. *)

Definition search_ok (ops : list guac_display_plan_operation) (s : plan_state) : Prop :=
  cell_ops_ok ls s.2 ∧ index_ok s.2 s.1 ∧ op_layer <$> s.2 = op_layer <$> ops ∧
  ∀ k x y, drawn ops k x y → drawn s.2 k x y.

Lemma insert_redrawn ops i op op' :
  cell_ops_ok ls ops → ops !! i = Some op → redrawn ls op op' →
  Forall2 (redrawn ls) ops (<[i := op']> ops).
Proof.
  intros [Hf _] Hi Hr. apply Forall2_same_length_lookup_2; [by rewrite length_insert|].
  intros j o o' Ho Ho'. destruct (decide (i = j)) as [->|].
  - rewrite list_lookup_insert_eq in Ho' by (by eapply lookup_lt_Some). by simplify_eq.
  - rewrite list_lookup_insert_ne in Ho' by done. simplify_eq.
    pose proof (Forall_lookup_1 _ _ _ _ Hf Ho). by split_and!.
Qed.

Lemma find_copies_ok ops from x y hash s :
  from ∈ ls → listed from = true → search_for_copies (pending_frame from) = true →
  0 ≤ x → x + 64 ≤ width (last_frame from) → 0 ≤ y → y + 64 ≤ height (last_frame from) →
  search_ok ops s →
  ∃ s', PFR_LFR_guac_display_plan_find_copies ls from x y hash s = Run s' ∧ search_ok ops s'.
Proof using All.
  intros Hfrom Hlisted Hsearch Hx Hxw Hy Hyh. destruct s as [index cur]. intros (Hc & Hi & Hlen & Hd).
  cbn [fst snd] in *. unfold PFR_LFR_guac_display_plan_find_copies, guac_display_plan_remove_indexed_op.
  destruct (index !! GUAC_DISPLAY_PLAN_OPERATION_HASH hash) as [[stored i]|] eqn:Eh;
    [|by exists (index, cur)].
  destruct (stored =? hash); [|by exists (index, cur)].
  destruct (Hi _ _ _ Eh) as (op & Hop & (to & Hto & Hwhole) & Hindexable).
  rewrite Hop. cbn [deref]. rewrite run_bind_run, Hto. cbn [deref]. rewrite run_bind_run.
  pose proof (Forall_lookup_1 _ _ _ _ (proj1 Hc) Hop) as Hcell.
  pose proof Hcell as [(to' & Hto' & He & Hb & Hs0 & Hr) Hown Hcopy Hnop Hsize].
  simplify_eq. rewrite cell_rect by done. cbv zeta.
  pose proof (Forall_lookup_1 _ _ _ _ Hls Hto) as Htook.
  pose proof (proj1 (list.Forall_forall _ _) Hls from Hfrom) as Hfromok.
  destruct (ok_buffer _ (ok_pending _ Htook)) as (bt & Hbt & _).
  destruct (ok_buffer _ (ok_last _ Hfromok)) as (bf & Hbf & _).
  destruct (ok_last _ Hfromok) as [? ? ? _ _]. destruct (ok_pending _ Htook) as [? ? ? _ _].
  unfold contains in Hwhole. cbn [bounds_of left top right bottom] in Hwhole.
  assert (Hsrc : guac_rect_init x y GUAC_DISPLAY_CELL_SIZE GUAC_DISPLAY_CELL_SIZE
    = mk_guac_rect x y (x + 64) (y + 64)).
  { unfold guac_rect_init, GUAC_DISPLAY_CELL_SIZE. cbn [Z.ltb Z.compare].
    by rewrite !i32_small by (unfold is_i32; lia). }
  rewrite Hsrc. set (src := mk_guac_rect x y (x + 64) (y + 64)).
  assert (Hcell64 : right (own_cell op) = left (own_cell op) + 64 ∧ bottom (own_cell op) = top (own_cell op) + 64)
    by done.
  rewrite (rect_address (last_frame from)), run_bind_run by (cbn [src left top]; try apply Hfromok; lia).
  rewrite (rect_address (pending_frame to)), run_bind_run by (try apply Htook; lia).
  rewrite Hbf, Hbt. cbn [from_option]. unfold id. cbn [src left top].
  destruct (image_rows_equal_ok (last_frame from) (pending_frame to) bf bt (ok_last _ Hfromok) Hbf
    (ok_pending _ Htook) Hbt (Z.to_nat GUAC_DISPLAY_CELL_SIZE) GUAC_DISPLAY_CELL_SIZE x y
    (left (own_cell op)) (top (own_cell op))) as (same & -> & Hsame);
    [unfold GUAC_DISPLAY_CELL_SIZE; lia..|].
  rewrite run_bind_run.
  assert (Hi' : index_ok cur (delete (GUAC_DISPLAY_PLAN_OPERATION_HASH hash) index)).
  { intros h hash' j Hj. apply (lookup_delete_Some (M := gmap Z)) in Hj as [_ H]. by eapply Hi. }
  destruct same; [|by exists (delete (GUAC_DISPLAY_PLAN_OPERATION_HASH hash) index, cur)].
  set (op' := op <| op_type := GUAC_DISPLAY_PLAN_OPERATION_COPY |>
    <| op_src := Layer_rect src (last_frame_buffer from) |> <| op_dest := own_cell op |>).
  eexists. split; [done|].
  assert (Hown' : own_cell op' = own_cell op) by by apply own_cell_moved.
  assert (Hred : redrawn ls op op').
  { split_and!.
    - split; [|by rewrite Hown'; apply contains_refl|by rewrite Hown'|done|done].
      exists to. split_and!; [done| |done..|].
      { apply is_empty_false. cbn [op' op_dest set eta_op]. lia. }
      unfold right_as. cbn [op' op_type set eta_op]. exists from, (x - left (own_cell op)), (y - top (own_cell op)).
      cbn [op' op_dest op_src op_dirty_size set eta_op op_layer op_type op_last_frame op_current_frame].
      split_and!; [done| | |done|done| | | | |].
      + f_equal. subst src. unfold shifted. f_equal; lia.
      + unfold contains, shifted. cbn [bounds_of left top right bottom]. lia.
      + intros u v Huv. unfold in_rect in Huv. specialize (Hsame eq_refl (u - left (own_cell op)) (v - top (own_cell op))).
        unfold GUAC_DISPLAY_CELL_SIZE in Hsame. specialize (Hsame ltac:(lia) ltac:(lia)).
        replace (u + (x - left (own_cell op))) with (x + (u - left (own_cell op))) by lia.
        replace (v + (y - top (own_cell op))) with (y + (v - top (own_cell op))) by lia.
        rewrite Hsame. f_equal; lia.
      + unfold on_grid, own_cell. cbn [left top right bottom].
        split_and!; [apply Z.divide_factor_l..| |];
          (apply Z.divide_add_r; [apply Z.divide_factor_l|done]).
      + unfold area. replace (right (own_cell op)) with (left (own_cell op) + 64) by lia.
        replace (bottom (own_cell op)) with (top (own_cell op) + 64) by lia. nia.
      + lia.
      + lia.
    - by apply own_cell_layer.
    - intros u v Huv. cbn [op' op_dest set eta_op]. by eapply in_contains. }
  destruct (redrawn_ok ls cur (<[i := op']> cur) Hc (insert_redrawn _ _ _ _ Hc Hop Hred)) as (Hc' & Hlen' & Hd').
  split_and!; cbn [fst snd]; [done| |by rewrite Hlen'|by intros; apply Hd', Hd].
  intros h hash' j Hj. destruct (Hi' h hash' j Hj) as (o & Ho & Hw & Hx').
  destruct (decide (i = j)) as [<-|].
  - exists op'. rewrite list_lookup_insert_eq by (by eapply lookup_lt_Some).
    split_and!; [done| |by right]. exists to. split; [done|]. rewrite Hown'.
    unfold contains. cbn [bounds_of left top right bottom]. lia.
  - exists o. by rewrite list_lookup_insert_ne by done.
Qed.

Lemma search_layers_ok ops current s :
  (∀ l, l ∈ current → l ∈ ls) → search_ok ops s →
  ∃ s', search_layers ls current s = Run s' ∧ search_ok ops s'.
Proof using All.
  revert s. induction current as [|from current IH]; intros s Hsub Hs; cbn [search_layers]; [by exists s|].
  pose proof (Hsub from ltac:(left)) as Hfrom.
  assert (Hnext : ∃ s', (if listed from && search_for_copies (pending_frame from) then
      guac_hash_foreach_image_rect (last_frame from)
        (guac_rect_constrain (guac_rect_init 0 0 (width (last_frame from)) (height (last_frame from)))
           (dirty (pending_frame from)))
        (PFR_LFR_guac_display_plan_find_copies ls from) s
      else Run s) = Run s' ∧ search_ok ops s').
  { destruct (listed from) eqn:El; [|by exists s].
    destruct (search_for_copies (pending_frame from)) eqn:Es; [|by exists s]. cbn [andb].
    pose proof (proj1 (list.Forall_forall _ _) Hls from Hfrom) as Hok.
    pose proof (proj1 (list.Forall_forall _ _) Hdirty from Hfrom) as Hd. cbn beta in Hd.
    destruct (ok_buffer _ (ok_last _ Hok)) as (b & Hb & _).
    pose proof (ok_last _ Hok) as [Hw Hh Hm _ _].
    assert (Hinit : guac_rect_init 0 0 (width (last_frame from)) (height (last_frame from))
      = bounds_of (last_frame from)).
    { unfold guac_rect_init, bounds_of. rewrite !Z.add_0_l, !i32_small by (unfold is_i32; lia).
      f_equal; zif; lia. }
    rewrite Hinit. unfold rect_ok in Hd.
    set (region := guac_rect_constrain (bounds_of (last_frame from)) (dirty (pending_frame from))).
    assert (Hreg : 0 ≤ left region < 2 ^ 31 ∧ 0 ≤ top region < 2 ^ 31 ∧
      right region ≤ width (last_frame from) ∧ bottom region ≤ height (last_frame from)).
    { subst region. unfold guac_rect_constrain, bounds_of. cbn [left top right bottom].
      split_and!; zif; lia. }
    clearbody region.
    eapply (hash_foreach_ok (search_ok ops) _ (last_frame from) b);
      [exact (ok_last _ Hok)|done|lia..| |done].
    intros x y t Ht Hx1 Hx2 Hy1 Hy2. apply find_copies_ok; (done || lia). }
  destruct Hnext as (s' & -> & Hs'). rewrite run_bind_run. apply IH; [|done].
  intros l Hl. apply Hsub. by right.
Qed.

Lemma rewrite_as_copies_ok index ops :
  cell_ops_ok ls ops → index_ok ops index →
  ∃ ops', PFR_LFR_guac_display_plan_rewrite_as_copies ls index ops = Run ops' ∧
    cell_ops_ok ls ops' ∧ op_layer <$> ops' = op_layer <$> ops ∧ ∀ k x y, drawn ops k x y → drawn ops' k x y.
Proof using All.
  intros Hc Hi. unfold PFR_LFR_guac_display_plan_rewrite_as_copies.
  destruct (search_layers_ok ops ls (index, ops)) as ([index' ops'] & -> & Hs); [done|by split_and!|].
  rewrite run_bind_run. exists ops'. destruct Hs as (? & _ & ? & ?). done.
Qed.
End passes.
