(* ===== verification/DisplayCombineSpec.v ===== *)
(** * Combining operations (specification of DisplayPlan.v, display-plan-combine.c)

    Operations are combined only where the result is right: two rectangles or two copies that share
    an edge become their union, everything else an image.  A combined operation covers both. *)

From stdpp Require Import gmap.
From S2P Require Import Prelude RecordUpdate Mem Run Rect ProtocolTypes Display DisplayPlan.
From S2P Require Import DisplayDraftSpec DisplayCreateSpec DisplayPassSpec.
Local Open Scope Z_scope.

Local Abbreviation len l := (Z.of_nat (List.length l)).

(** The fields of an operation that has been updated. *)

Local Ltac opcbn :=
  cbn [op_layer op_type op_dest op_dirty_size op_last_frame op_current_frame op_src set eta_op].

(** ** Rectangles *)

Lemma extend_nonempty_eq r m : guac_rect_is_empty r = false →
  guac_rect_extend r m = mk_guac_rect (Z.min (left r) (left m)) (Z.min (top r) (top m))
    (Z.max (right r) (right m)) (Z.max (bottom r) (bottom m)).
Proof. unfold guac_rect_extend. intros ->. f_equal; zif; lia. Qed.

Lemma common_edge a b :
  guac_display_plan_has_common_edge a b = true →
  (top a = top b ∧ bottom a = bottom b ∧ (right a = left b ∨ left a = right b)) ∨
  (left a = left b ∧ right a = right b ∧ (top a = bottom b ∨ bottom a = top b)).
Proof.
  unfold guac_display_plan_has_common_edge. destruct ((top a =? top b) && _) eqn:E.
  - intros H. left. zbool_hyps. apply orb_true_iff in H. rewrite !Z.eqb_eq in H. lia.
  - clear E. destruct ((left a =? left b) && _) eqn:E; [|done].
    intros H. right. zbool_hyps. apply orb_true_iff in H. rewrite !Z.eqb_eq in H. lia.
Qed.

(** Two rectangles that share an edge are what encloses them. *)

Lemma common_edge_union a b :
  guac_rect_is_empty a = false → guac_rect_is_empty b = false →
  guac_display_plan_has_common_edge a b = true →
  (∀ x y, in_rect x y (guac_rect_extend a b) → in_rect x y a ∨ in_rect x y b) ∧
  area (guac_rect_extend a b) = area a + area b.
Proof.
  intros Ha Hb He. rewrite extend_nonempty_eq by done. apply common_edge in He.
  rewrite is_empty_false in *. unfold in_rect, area. cbn [left top right bottom].
  split; [lia|].
  destruct He as [(-> & -> & [E|E])|(-> & -> & [E|E])]; rewrite E in *;
    repeat first [rewrite Z.min_l by lia|rewrite Z.min_r by lia|rewrite Z.max_l by lia|rewrite Z.max_r by lia]; ring.
Qed.

Definition small_rect (r : guac_rect) : Prop :=
  0 ≤ left r ∧ 0 ≤ top r ∧ right r ≤ 8192 ∧ bottom r ≤ 8192.

Lemma crosses_no_boundary r :
  guac_rect_is_empty r = false → small_rect r →
  guac_display_plan_rect_crosses_boundary r = false →
  right r - left r ≤ 512 ∧ bottom r - top r ≤ 512.
Proof.
  unfold small_rect. intros He Hr. apply is_empty_false in He.
  destruct (align_edges 9 ltac:(lia) r) as (Hl & Ht & _ & _ & H1 & H2 & H3 & H4).
  { unfold rect_ok. lia. }
  change (2 ^ 9) with 512 in *. unfold guac_display_plan_rect_crosses_boundary, GUAC_DISPLAY_MAX_COMBINED_SIZE.
  change (Z.shiftl 1 9) with 512. intros Hc. apply orb_false_iff in Hc as [Hw Hh].
  rewrite width_spec in Hw by (unfold rect_ok; lia). rewrite height_spec in Hh by (unfold rect_ok; lia).
  zbool_hyps. lia.
Qed.

Lemma shifted_extend dx dy a b :
  guac_rect_is_empty a = false →
  guac_rect_extend (shifted dx dy a) (shifted dx dy b) = shifted dx dy (guac_rect_extend a b).
Proof.
  intros Ha. rewrite (extend_nonempty_eq a) by done. rewrite extend_nonempty_eq.
  - unfold shifted. cbn [left top right bottom]. f_equal; lia.
  - rewrite is_empty_false in *. unfold shifted. cbn [left top right bottom]. lia.
Qed.

Lemma on_grid_extend a b :
  guac_rect_is_empty a = false → on_grid a → on_grid b → on_grid (guac_rect_extend a b).
Proof.
  intros Ha (? & ? & ? & ?) (? & ? & ? & ?). rewrite extend_nonempty_eq by done.
  unfold on_grid. cbn [left top right bottom].
  split_and!; first [apply Z.min_case|apply Z.max_case]; done.
Qed.

(** ** Copies *)

Section combining.
Context (ls : list guac_display_layer) (Hls : Forall layer_ok ls)
  (Hbuffers : NoDup (last_frame_buffer <$> ls)).

Lemma same_buffer from from' :
  from ∈ ls → from' ∈ ls → last_frame_buffer from = last_frame_buffer from' → from = from'.
Proof using Hbuffers.
  intros Hf Hf' E. apply list_elem_of_lookup in Hf as [i Hi]. apply list_elem_of_lookup in Hf' as [j Hj].
  assert (i = j) as ->; [|congruence].
  eapply NoDup_lookup; [exact Hbuffers|by rewrite list_lookup_fmap, Hi|]. by rewrite list_lookup_fmap, Hj, E.
Qed.

Lemma right_op_small op : right_op ls op → guac_rect_is_empty (op_dest op) = false ∧ small_rect (op_dest op).
Proof using Hls.
  intros (l & Hl & He & Hb & _). split; [done|].
  destruct (ok_pending _ (Forall_lookup_1 _ _ _ _ Hls Hl)) as [? ? ? _ _].
  unfold contains in Hb. cbn [bounds_of left top right bottom] in Hb. unfold small_rect. lia.
Qed.

Lemma extend_small a b : guac_rect_is_empty a = false → small_rect a → small_rect b → small_rect (guac_rect_extend a b).
Proof. intros Ha. rewrite extend_nonempty_eq by done. unfold small_rect. cbn [left top right bottom]. lia. Qed.

(** A copy costs less than what two that share no edge would cost as one. *)

Definition small_copy (op : guac_display_plan_operation) : Prop :=
  is_copy op ∧ guac_rect_is_empty (op_dest op) = false ∧ small_rect (op_dest op) ∧
  on_grid (op_dest op) ∧ 0 ≤ op_dirty_size op ≤ 262144.

Lemma right_copy_small op : right_op ls op → is_copy op → small_copy op.
Proof using Hls.
  intros Hop Hc. destruct (right_op_small op Hop) as [He Hs]. destruct Hop as (l & _ & _ & _ & H0 & Hr).
  unfold right_as in Hr. rewrite Hc in Hr. destruct Hr as (from & dx & dy & _ & _ & _ & _ & _ & Hg & Ha & Hw & Hh).
  split_and!; [done..|]. unfold area in Ha. apply is_empty_false in He. nia.
Qed.

Lemma copy_cost op : small_copy op → 0 ≤ operation_cost op ≤ 2080.
Proof.
  intros (Hc & _ & _ & _ & Hs). unfold operation_cost, GUAC_DISPLAY_BASE_COST, GUAC_DISPLAY_DATA_FACTOR.
  rewrite decide_False by (by rewrite Hc). rewrite i32_small by (unfold is_i32; lia).
  rewrite Z.quot_div_nonneg by lia. dlia.
Qed.

Lemma grid_step a b : (64 | a) → (64 | b) → a < b → a + 64 ≤ b.
Proof. intros [? ->] [? ->]. lia. Qed.

Lemma copies_not_cheap a b :
  small_copy a → small_copy b → (∀ x y, in_rect x y (op_dest a) → ¬ in_rect x y (op_dest b)) →
  small_or_cheap a b (guac_rect_extend (op_dest a) (op_dest b)) = false.
Proof.
  intros Ha Hb Hd. pose proof (copy_cost _ Ha) as Hca. pose proof (copy_cost _ Hb) as Hcb.
  destruct Ha as (_ & Hea & Hsa & (Hga1 & Hga2 & Hga3 & Hga4) & _).
  destruct Hb as (_ & Heb & Hsb & (Hgb1 & Hgb2 & Hgb3 & Hgb4) & _).
  rewrite extend_nonempty_eq by done. rewrite is_empty_false in *. unfold small_rect in *.
  set (r := mk_guac_rect _ _ _ _).
  assert (Hsize : 64 ≤ right r - left r ≤ 8192 ∧ 64 ≤ bottom r - top r ≤ 8192 ∧
    (128 ≤ right r - left r ∨ 128 ≤ bottom r - top r)).
  { subst r. cbn [left top right bottom].
    pose proof (grid_step _ _ Hga1 Hga3). pose proof (grid_step _ _ Hga2 Hga4).
    pose proof (grid_step _ _ Hgb1 Hgb3). pose proof (grid_step _ _ Hgb2 Hgb4).
    split_and!; [lia..|].
    destruct (decide (left (op_dest a) = left (op_dest b) ∧ top (op_dest a) = top (op_dest b))) as [[E1 E2]|Hne].
    - exfalso. apply (Hd (left (op_dest a)) (top (op_dest a))); unfold in_rect; lia.
    - destruct (decide (left (op_dest a) = left (op_dest b))).
      + right. destruct (decide (top (op_dest a) < top (op_dest b))).
        * pose proof (grid_step _ _ Hga2 Hgb2). lia.
        * pose proof (grid_step _ _ Hgb2 Hga2). lia.
      + left. destruct (decide (left (op_dest a) < left (op_dest b))).
        * pose proof (grid_step _ _ Hga1 Hgb1). lia.
        * pose proof (grid_step _ _ Hgb1 Hga1). lia. }
  assert (Hrok : rect_ok r) by (unfold rect_ok; subst r; cbn [left top right bottom]; lia).
  clearbody r. unfold small_or_cheap, GUAC_DISPLAY_BASE_COST, GUAC_DISPLAY_NEGLIGIBLE_WIDTH,
    GUAC_DISPLAY_NEGLIGIBLE_HEIGHT, GUAC_DISPLAY_NEGLIGIBLE_INCREASE.
  rewrite width_spec, height_spec, !Z.max_r by (done || lia).
  set (w := right r - left r) in *. set (h := bottom r - top r) in *. clearbody w h.
  destruct ((w <=? 64) && (h <=? 64)) eqn:E; [zbool_hyps; lia|].
  assert (8192 ≤ w * h ≤ 8192 * 8192) by nia.
  rewrite (i32_small (w * h)), (i32_small (4096 + w * h)) by (unfold is_i32; lia).
  rewrite !i32_small by (unfold is_i32; lia). rewrite !Z.quot_div_nonneg by lia.
  rewrite !orb_false_iff, !Z.leb_gt. dlia.
Qed.

Lemma copy_deltas op src dx dy :
  small_copy op → op_src op = Layer_rect (shifted dx dy (op_dest op)) src →
  - 8192 ≤ dx ≤ 8192 → - 8192 ≤ dy ≤ 8192 → deltas op (shifted dx dy (op_dest op)) = (- dx, - dy).
Proof.
  intros _ _ Hx Hy. unfold deltas, shifted. cbn [left top right bottom].
  rewrite !i32_small by (unfold is_i32; lia). f_equal; lia.
Qed.

Lemma copy_shift l op from dx dy :
  from ∈ ls → small_copy op → contains (bounds_of (last_frame from)) (shifted dx dy (op_dest op)) →
  right_as ls l op → - 8192 ≤ dx ≤ 8192 ∧ - 8192 ≤ dy ≤ 8192.
Proof using Hls.
  intros Hf (_ & He & Hs & _) Hc _. apply is_empty_false in He.
  destruct (ok_last _ (proj1 (list.Forall_forall _ _) Hls from Hf)) as [? ? ? _ _].
  unfold contains in Hc. unfold small_rect in Hs. cbn [bounds_of shifted left top right bottom] in *. lia.
Qed.

(** Two copies that are combined are one. *)

Lemma copies_combined l a b :
  right_op ls a → right_op ls b → ls !! op_layer a = Some l → op_layer a = op_layer b →
  is_copy a → is_copy b → (∀ x y, in_rect x y (op_dest a) → ¬ in_rect x y (op_dest b)) →
  ∃ r, guac_display_plan_should_combine a b = Run r ∧
    (r = true →
     (∀ x y, in_rect x y (guac_rect_extend (op_dest a) (op_dest b)) → in_rect x y (op_dest a) ∨ in_rect x y (op_dest b)) ∧
     ∃ src, combined_src (op_src a) (op_src b) = Run src ∧
       right_copy ls l (a <| op_dest := guac_rect_extend (op_dest a) (op_dest b) |>
         <| op_src := src |> <| op_dirty_size := u64 (op_dirty_size a + op_dirty_size b) |>)).
Proof using Hls Hbuffers.
  intros Hra Hrb Hl Hlayer Hca Hcb Hdisj.
  pose proof (right_copy_small _ Hra Hca) as Hsa. pose proof (right_copy_small _ Hrb Hcb) as Hsb.
  destruct Hra as (la & Hla & Hea & Hba & H0a & Ha). destruct Hrb as (lb & Hlb & Heb & Hbb & H0b & Hb).
  pose proof Ha as Ha'. pose proof Hb as Hb'. unfold right_as in Ha', Hb'. rewrite Hca in Ha'. rewrite Hcb in Hb'.
  destruct Ha' as (fa & dxa & dya & Hfa & Esa & Hina & Hsearch & Hpa & Hga & Hara & _ & _).
  destruct Hb' as (fb & dxb & dyb & Hfb & Esb & Hinb & _ & Hpb & Hgb & Harb & _ & _).
  destruct (copy_shift _ _ _ _ _ Hfa Hsa Hina Ha) as [Hxa Hya].
  destruct (copy_shift _ _ _ _ _ Hfb Hsb Hinb Hb) as [Hxb Hyb].
  pose proof (copy_deltas _ _ _ _ Hsa Esa Hxa Hya) as Hda. pose proof (copy_deltas _ _ _ _ Hsb Esb Hxb Hyb) as Hdb.
  unfold guac_display_plan_should_combine. rewrite Hlayer, Nat.eqb_refl. cbn [negb].
  rewrite decide_True by congruence. rewrite Hca, Esa, Esb, Hda, Hdb.
  destruct ((last_frame_buffer fa =? last_frame_buffer fb) && _) eqn:E; cycle 1.
  { eexists. split; [done|]. by rewrite copies_not_cheap. }
  apply andb_true_iff in E as [Eb Edge]. apply Z.eqb_eq in Eb. apply same_buffer in Eb as <-; [|done..].
  eexists. split; [done|]. intros Hr. apply andb_true_iff in Hr as [Hd Hcross].
  apply bool_decide_eq_true in Hd. assert (dxa = dxb ∧ dya = dyb) as [<- <-] by (simplify_eq; lia).
  apply negb_true_iff in Hcross.
  destruct (common_edge_union _ _ Hea Heb Edge) as [Hunion Harea]. split; [exact Hunion|].
  eexists. split; [done|]. rewrite shifted_extend by done.
  exists fa, dxa, dya. opcbn.
  destruct (crosses_no_boundary (guac_rect_extend (op_dest a) (op_dest b))) as [Hw Hh];
    [by apply extend_nonempty|apply extend_small; [done|apply Hsa|apply Hsb]|done|].
  assert (l = la ∧ l = lb) as [<- <-] by (split; congruence).
  split_and!; [done|done| |apply Hsearch|apply Hsearch| |by apply on_grid_extend| |done|done].
  - rewrite <-shifted_extend by done. by apply extend_within.
  - intros x y Hin. destruct (Hunion x y Hin); auto.
  - destruct Hsa as (_ & _ & _ & _ & ?), Hsb as (_ & _ & _ & _ & ?).
    rewrite u64_small by (unfold is_u64; lia). lia.
Qed.

(** ** Two operations *)

(** What combining [a] and [b] gives. *)

Record combination (a b op : guac_display_plan_operation) : Prop := {
  combination_right : right_op ls op;
  combination_layer : op_layer op = op_layer a;
  combination_dest : op_dest op = guac_rect_extend (op_dest a) (op_dest b);
  combination_nop : op_type op = GUAC_DISPLAY_PLAN_OPERATION_NOP →
    op_type a = GUAC_DISPLAY_PLAN_OPERATION_NOP ∧ op_type b = GUAC_DISPLAY_PLAN_OPERATION_NOP;
  combination_copy : is_copy op → is_copy a ∧ is_copy b ∧
    ∀ x y, in_rect x y (op_dest op) → in_rect x y (op_dest a) ∨ in_rect x y (op_dest b);
}.

Lemma combined_bounds l a b :
  right_op ls a → right_op ls b → ls !! op_layer a = Some l → op_layer a = op_layer b →
  guac_rect_is_empty (guac_rect_extend (op_dest a) (op_dest b)) = false ∧
  contains (bounds_of (pending_frame l)) (guac_rect_extend (op_dest a) (op_dest b)) ∧
  0 ≤ u64 (op_dirty_size a + op_dirty_size b).
Proof using.
  intros (la & Hla & Hea & Hba & _) (lb & Hlb & Heb & Hbb & _) Hl Hlayer.
  assert (la = l ∧ lb = l) as [-> ->] by (split; congruence).
  split_and!; [by apply extend_nonempty|by apply extend_within|apply Z.mod_pos_bound; lia].
Qed.

(** Where neither is a copy of the other's kind, the result is right whatever has been drawn. *)

Lemma combined_other a b :
  right_op ls a → right_op ls b → op_layer a = op_layer b → ¬ (is_copy a ∧ is_copy b) →
  (op_type a = GUAC_DISPLAY_PLAN_OPERATION_RECT → op_type b = GUAC_DISPLAY_PLAN_OPERATION_RECT →
   op_src a = op_src b ∧ guac_display_plan_has_common_edge (op_dest a) (op_dest b) = true) →
  ∃ op, combined_op a b = Run op ∧ combination a b op.
Proof using.
  intros Ha Hb Hlayer Hcopy Hrect. pose proof Ha as (l & Hl & Hea & _ & _ & Hasa).
  pose proof Hb as (lb & Hlb & Heb & _ & _ & Hasb). rewrite <-Hlayer in Hlb. simplify_eq.
  destruct (combined_bounds _ _ _ Ha Hb Hl Hlayer) as (He & Hbd & H0).
  unfold combined_op. rewrite (decide_False (P := _ ∧ _)) by (unfold is_copy in Hcopy; intros [E E']; apply Hcopy; split; congruence).
  rewrite run_bind_run. eexists. split; [done|].
  unfold is_copy in Hcopy. unfold right_as in Hasa, Hasb.
  split; opcbn; try done.
  - exists l. opcbn. split_and!; [done..|].
    unfold right_as. opcbn.
    case_decide as Ht; [|done]. rewrite <-Ht in Hasb. destruct (op_type a) eqn:Et; try done.
    + by destruct Hcopy.
    + destruct Hasa as (c & Ec & Hpa), Hasb as (c' & Ec' & Hpb).
      destruct Hrect as [Es Edge]; [done..|]. rewrite Es in Ec. assert (c = c') as -> by congruence.
      exists c'. split; [by rewrite Es|]. intros x y Hin.
      destruct (proj1 (common_edge_union _ _ Hea Heb Edge) x y Hin); auto.
  - case_decide as Ht; [|done]. intros. by rewrite <-Ht.
  - unfold is_copy. opcbn. case_decide as Ht; [|done]. intros E.
    destruct Hcopy. by rewrite <-Ht.
Qed.

Lemma combine_ok a b :
  right_op ls a → right_op ls b →
  (op_layer a = op_layer b → is_copy a → is_copy b →
    ∀ x y, in_rect x y (op_dest a) → ¬ in_rect x y (op_dest b)) →
  ∃ r, guac_display_plan_should_combine a b = Run r ∧
    (r = true → op_layer a = op_layer b ∧ ∃ op, combined_op a b = Run op ∧ combination a b op).
Proof using Hls Hbuffers.
  intros Ha Hb Hdisj.
  destruct (decide (op_layer a = op_layer b)) as [Hlayer|Hne]; cycle 1.
  { exists false. split; [|done]. unfold guac_display_plan_should_combine. by rewrite (proj2 (Nat.eqb_neq _ _) Hne). }
  destruct (decide (is_copy a ∧ is_copy b)) as [[Hca Hcb]|Hcopy].
  - pose proof Ha as (l & Hl & _ & _ & _ & _).
    destruct (combined_bounds _ _ _ Ha Hb Hl Hlayer) as (He & Hbd & H0).
    destruct (copies_combined l a b Ha Hb Hl Hlayer Hca Hcb (Hdisj Hlayer Hca Hcb)) as (r & -> & Hr).
    exists r. split; [done|]. intros E. destruct (Hr E) as (Hunion & src & Hsrc & Hright).
    split; [done|]. unfold combined_op. unfold is_copy in Hca, Hcb.
    rewrite (decide_True (P := _ ∧ _)) by (split; congruence). rewrite Hsrc, run_bind_run. eexists. split; [done|].
    split; opcbn; try done.
    + exists l. opcbn. split_and!; [done..|].
      unfold right_as. opcbn.
      rewrite decide_True, Hca by congruence. exact Hright.
    + rewrite decide_True by congruence. by rewrite Hca.
  - assert (Hrect : ∀ r, guac_display_plan_should_combine a b = Run r → r = true →
      op_type a = GUAC_DISPLAY_PLAN_OPERATION_RECT → op_type b = GUAC_DISPLAY_PLAN_OPERATION_RECT →
      op_src a = op_src b ∧ guac_display_plan_has_common_edge (op_dest a) (op_dest b) = true).
    { intros r E -> Hta Htb. revert E. unfold guac_display_plan_should_combine.
      rewrite Hlayer, Nat.eqb_refl. cbn [negb]. rewrite decide_True, Hta by congruence.
      destruct (op_src a) as [|ca|], (op_src b) as [|cb|]; try done. intros [= E].
      apply andb_true_iff in E as [E _]. apply andb_true_iff in E as [Ec Ee].
      apply Z.eqb_eq in Ec as ->. done. }
    assert (Hruns : ∃ r, guac_display_plan_should_combine a b = Run r).
    { unfold guac_display_plan_should_combine. rewrite Hlayer, Nat.eqb_refl. cbn [negb].
      case_decide as Ht; [|by eexists]. destruct Ha as (l & _ & _ & _ & _ & Hasa).
      destruct Hb as (l' & _ & _ & _ & _ & Hasb). unfold right_as in Hasa, Hasb. rewrite <-Ht in Hasb.
      unfold is_copy in Hcopy. destruct (op_type a) eqn:Et; try by eexists.
      - by destruct Hcopy.
      - destruct Hasa as (c & -> & _), Hasb as (c' & -> & _). by eexists. }
    destruct Hruns as (r & Hr). exists r. split; [done|]. intros E. split; [done|].
    apply combined_other; [done..|]. by apply (Hrect r).
Qed.

(** ** A pair of the plan *)

Definition ops_ok (ops : list guac_display_plan_operation) : Prop := Forall (right_op ls) ops ∧ apart ops.

Definition refines_ops (ops ops' : list guac_display_plan_operation) : Prop :=
  ops_ok ops' ∧ op_layer <$> ops' = op_layer <$> ops ∧ ∀ k x y, drawn ops k x y → drawn ops' k x y.

Lemma combine_if_improved_ok ops a b op_a op_b :
  ops_ok ops → ops !! a = Some op_a → ops !! b = Some op_b →
  ∃ r ops', guac_display_plan_combine_if_improved a b ops = Run (r, ops') ∧ refines_ops ops ops'.
Proof using Hls Hbuffers.
  intros [Hf Hap] Ha Hb. unfold guac_display_plan_combine_if_improved.
  destruct (Nat.eqb_spec a b) as [|Hne]; [by exists false, ops; split_and!|].
  rewrite Ha, Hb. cbn [deref]. rewrite !run_bind_run.
  destruct (combine_ok op_a op_b) as (r & -> & Hr);
    [by eapply Forall_lookup_1|by eapply Forall_lookup_1|intros; by eapply (Hap a b)|].
  rewrite run_bind_run. destruct r; [|by exists false, ops; split_and!].
  destruct (Hr eq_refl) as (Hlayer & op & -> & [Hright Hol Hod Hnop Hcopy]). rewrite run_bind_run.
  set (nop := op_b <| op_type := GUAC_DISPLAY_PLAN_OPERATION_NOP |>).
  exists true, (<[b := nop]> (<[a := op]> ops)). split; [done|].
  assert (Hat : ∀ i, (<[b := nop]> (<[a := op]> ops)) !! i =
    if decide (i = b) then Some nop else if decide (i = a) then Some op else ops !! i).
  { intros i. pose proof (lookup_lt_Some _ _ _ Ha). pose proof (lookup_lt_Some _ _ _ Hb).
    case_decide as E; [subst; by rewrite list_lookup_insert_eq by (by rewrite length_insert)|].
    rewrite list_lookup_insert_ne by done.
    case_decide; [subst; by rewrite list_lookup_insert_eq by done|by rewrite list_lookup_insert_ne by done]. }
  split_and!; [split| |].
  - apply Forall_insert; [by apply Forall_insert|].
    destruct (Forall_lookup_1 _ _ _ _ Hf Hb) as (l & ? & ? & ? & ? & _). by exists l.
  - assert (Hleft : ∀ i j p q x y, i ≠ j → i ≠ a →
      (<[b := nop]> (<[a := op]> ops)) !! i = Some p → (<[b := nop]> (<[a := op]> ops)) !! j = Some q →
      is_copy p → is_copy q → op_layer p = op_layer q → in_rect x y (op_dest p) → ¬ in_rect x y (op_dest q)).
    { intros i j p q x y Hij Hia. rewrite !Hat.
      case_decide; [intros [= <-] _; by intros ? |]. case_decide; [done|]. intros Hp.
      case_decide; [intros [= <-] _; by intros ? |]. case_decide as E.
      - intros [= <-] Hcp Hco Hl Hin Hin'. destruct (Hcopy Hco) as (Hca & Hcb & Hunion).
        destruct (Hunion x y Hin') as [Hx|Hx].
        + eapply (Hap i a p op_a x y); try done; congruence.
        + eapply (Hap i b p op_b x y); try done; congruence.
      - intros Hq. by apply (Hap i j). }
    intros i j p q x y Hij Hp Hq Hcp Hcq Hl Hin Hin'.
    destruct (decide (i = a)) as [->|]; [|by apply (Hleft i j p q x y)].
    by apply (Hleft j a q p x y).
  - rewrite !list_fmap_insert. rewrite list_insert_id; [|by rewrite list_lookup_insert_ne, list_lookup_fmap, Hb by done].
    apply list_insert_id. by rewrite list_lookup_fmap, Ha, Hol.
  - assert (Ha' : (<[b := nop]> (<[a := op]> ops)) !! a = Some op) by (rewrite Hat; by simpl_decide).
    destruct (right_op_small _ (Forall_lookup_1 _ _ _ _ Hf Ha)) as [Hea _].
    destruct (right_op_small _ (Forall_lookup_1 _ _ _ _ Hf Hb)) as [Heb _].
    assert (Hop : ∀ x y, in_rect x y (op_dest op_a) ∨ in_rect x y (op_dest op_b) → in_rect x y (op_dest op)).
    { intros x y Hx. rewrite Hod. destruct Hx.
      - by apply (in_contains _ (op_dest op_a)), H; apply extend_contains_l.
      - by apply (in_contains _ (op_dest op_b)), H; apply extend_contains_r. }
    intros k x y (o & Ho & Hn & <- & Hin). apply list_elem_of_lookup in Ho as [i Hi].
    destruct (decide (i = a)) as [->|]; [|destruct (decide (i = b)) as [->|]].
    + exists op. simplify_eq. split_and!; [by eapply list_elem_of_lookup_2|intros E; by apply Hn, Hnop|done|auto].
    + exists op. simplify_eq. split_and!; [by eapply list_elem_of_lookup_2|intros E; by apply Hn, Hnop|congruence|auto].
    + exists o. split_and!; [|done..]. eapply (list_elem_of_lookup_2 _ i). rewrite Hat. by rewrite !decide_False.
Qed.

(** ** The cells of a layer *)

Lemma refines_refl ops : ops_ok ops → refines_ops ops ops.
Proof. by split. Qed.

Lemma refines_trans ops ops' ops'' : refines_ops ops ops' → refines_ops ops' ops'' → refines_ops ops ops''.
Proof. intros (_ & Hl & Hd) (Hok & Hl' & Hd'). split; [done|]. split; [congruence|auto]. Qed.

Record combined_cells (ops : list guac_display_plan_operation) (n : Z) (s : combine_state) : Prop := {
  combined_length : len s.1 = n;
  combined_related : Forall (related_below (length ops)) s.1;
  combined_clean : clean s.1;
  combined_refines : refines_ops ops s.2;
}.

Lemma related_lookup ops n s i :
  combined_cells ops n s → 0 ≤ i < n →
  ∃ c, s.1 !! Z.to_nat i = Some c ∧ match related_op c with Some k => ∃ op, s.2 !! k = Some op | None => True end.
Proof.
  intros [Hlen Hrel _ (_ & Hops%same_length & _)] Hi.
  destruct (lookup_lt_is_Some_2 s.1 (Z.to_nat i)) as [c Hc]; [lia|]. exists c. split; [done|].
  pose proof (Forall_lookup_1 _ _ _ _ Hrel Hc) as Hb. unfold related_below in Hb.
  destruct (related_op c) as [k|]; [|done]. destruct (lookup_lt_is_Some_2 s.2 k) as [op Hop]; [lia|].
  by exists op.
Qed.

Lemma combine_cells_ok vertically ops n s previous current :
  combined_cells ops n s → 0 ≤ previous < n → 0 ≤ current < n →
  ∃ s', combine_cells vertically previous current s = Run s' ∧ combined_cells ops n s'.
Proof using Hls Hbuffers.
  intros Hs Hp Hc. destruct (related_lookup _ _ _ _ Hs Hp) as (cell_a & Ha & Hra).
  destruct (related_lookup _ _ _ _ Hs Hc) as (cell_b & Hb & Hrb).
  destruct s as [cells cur]. destruct Hs as [Hlen Hrel Hclean Href]. cbn [fst snd] in *.
  unfold combine_cells. rewrite Ha, Hb. cbn [deref]. rewrite !run_bind_run.
  destruct (related_op cell_a) as [a|] eqn:Ea; [|by exists (cells, cur)].
  destruct (related_op cell_b) as [b|] eqn:Eb; [|by exists (cells, cur)].
  destruct Hra as [op_a Hoa], Hrb as [op_b Hob].
  assert (Hedge : ∃ e, (if vertically then
      op_a ← deref (cur !! a); op_b ← deref (cur !! b);
      Run (guac_display_plan_has_common_edge (op_dest op_a) (op_dest op_b)) else Run true) = Run e).
  { destruct vertically; [|by eexists]. rewrite Hoa, Hob. cbn [deref]. rewrite !run_bind_run. by eexists. }
  destruct Hedge as [e ->]. rewrite run_bind_run. destruct e; [|by exists (cells, cur)].
  destruct (combine_if_improved_ok cur a b op_a op_b) as (r & cur' & -> & Href'); [apply Href|done..|].
  rewrite run_bind_run. eexists. split; [done|].
  pose proof (Forall_lookup_1 _ _ _ _ Hrel Ha) as Hba.
  destruct r; split; cbn [fst snd]; try done.
  - by rewrite length_insert.
  - apply Forall_insert; [done|]. unfold related_below in *. cbn. by rewrite Ea in Hba.
  - apply Forall_insert; [done|]. exact (Forall_lookup_1 _ _ _ _ Hclean Hb).
  - by eapply refines_trans.
  - by eapply refines_trans.
Qed.

Lemma combine_rows_ok ops w h s :
  0 ≤ w → 0 ≤ h → combined_cells ops (w * h) s →
  ∃ s', combine_rows w h s = Run s' ∧ combined_cells ops (w * h) s'.
Proof using Hls Hbuffers.
  intros Hw Hh Hs. unfold combine_rows. apply (for_range_inv_max (λ _, combined_cells ops (w * h))); [done|].
  intros y t Hy Ht. apply (for_range_inv_max (λ _, combined_cells ops (w * h))); [done|].
  intros x u Hx Hu. apply combine_cells_ok; [done|nia|nia].
Qed.

Lemma combine_columns_ok ops w h s :
  0 ≤ w → 0 ≤ h → combined_cells ops (w * h) s →
  ∃ s', combine_columns w h s = Run s' ∧ combined_cells ops (w * h) s'.
Proof using Hls Hbuffers.
  intros Hw Hh Hs. unfold combine_columns. apply (for_range_inv_max (λ _, combined_cells ops (w * h))); [done|].
  intros x t Hx Ht. apply (for_range_inv_max (λ _, combined_cells ops (w * h))); [done|].
  intros y u Hy Hu. apply combine_cells_ok; [done|nia|nia].
Qed.

(** ** All layers *)

Definition cells_ok (n : nat) (l : guac_display_layer) : Prop :=
  0 ≤ pending_frame_cells_width l ∧ 0 ≤ pending_frame_cells_height l ∧
  len (pending_frame_cells l) = pending_frame_cells_width l * pending_frame_cells_height l ∧
  Forall (related_below n) (pending_frame_cells l) ∧ clean (pending_frame_cells l).

(** A layer but for its cells. *)

Definition recelled (l l' : guac_display_layer) : Prop :=
  ∃ cells, l' = l <| pending_frame_cells := cells |>.

Lemma recelled_refl l : recelled l l.
Proof. exists (pending_frame_cells l). by destruct l. Qed.

Lemma combine_layers_ok (combine : Z → Z → combine_state → run combine_state) ls0 ops :
  (∀ ops w h s, 0 ≤ w → 0 ≤ h → combined_cells ops (w * h) s →
     ∃ s', combine w h s = Run s' ∧ combined_cells ops (w * h) s') →
  Forall (cells_ok (length ops)) ls0 → ops_ok ops →
  ∃ ls' ops', combine_layers combine ls0 ops = Run (ls', ops') ∧
    Forall2 recelled ls0 ls' ∧ Forall (cells_ok (length ops)) ls' ∧ refines_ops ops ops'.
Proof using Hls Hbuffers.
  intros Hcombine. revert ops. induction ls0 as [|l ls0 IH]; intros ops Hcells Hops; cbn [combine_layers].
  { exists [], ops. split_and!; [done|constructor|constructor|by apply refines_refl]. }
  apply Forall_cons_1 in Hcells as [(Hw & Hh & Hlen & Hrel & Hclean) Hcells].
  assert (Hone : ∃ l' ops', (if guac_rect_is_empty (dirty (pending_frame l)) then Run (l, ops) else
      '(cells, ops) ← combine (pending_frame_cells_width l) (pending_frame_cells_height l)
                        (pending_frame_cells l, ops);
      Run (l <| pending_frame_cells := cells |>, ops)) = Run (l', ops') ∧
    recelled l l' ∧ cells_ok (length ops) l' ∧ refines_ops ops ops').
  { destruct (guac_rect_is_empty _).
    - exists l, ops. split; [done|]. split; [apply recelled_refl|]. split; [done|by apply refines_refl].
    - destruct (Hcombine ops (pending_frame_cells_width l) (pending_frame_cells_height l)
        (pending_frame_cells l, ops) Hw Hh) as ([cells ops'] & -> & [Hl Hr Hcl Href]).
      { split; [done|done|done|by apply refines_refl]. }
      rewrite run_bind_run. eexists _, ops'. split; [done|]. split; [by exists cells|]. split; [|done].
      by split_and!. }
  destruct Hone as (l' & ops1 & -> & Hl' & Hc' & Href). rewrite run_bind_run.
  destruct (IH ops1) as (ls' & ops2 & -> & HF & Hcs & Href2); [|apply Href|].
  { by rewrite (same_length _ _ (proj1 (proj2 Href))). }
  rewrite run_bind_run. exists (l' :: ls'), ops2. split; [done|].
  rewrite (same_length _ _ (proj1 (proj2 Href))) in Hcs.
  split_and!; [by constructor|by constructor|..]; by eapply refines_trans.
Qed.
End combining.
