(* ===== verification/DisplayOptimiseSpec.v ===== *)
(** * A whole plan (specification of DisplayPlan.v and [optimise] of DisplayFlush.v)

    Every operation of an optimised plan is right, copies do not overlap, and every reported change is
    drawn. *)

From stdpp Require Import gmap.
From S2P Require Import Prelude RecordUpdate Mem Run Rect ProtocolTypes Display DisplayPlan DisplayFlush.
From S2P Require Import DisplayDraftSpec DisplayCreateSpec DisplayPassSpec DisplayCopySpec DisplayCombineSpec.
Local Open Scope Z_scope.

Local Abbreviation len l := (Z.of_nat (List.length l)).

Lemma recelled_trans l l' l'' : recelled l l' → recelled l' l'' → recelled l l''.
Proof. intros [c ->] [c' ->]. by exists c'. Qed.

Lemma Forall2_trans_of {A} (R : A → A → Prop) (l l' l'' : list A) :
  (∀ x y z, R x y → R y z → R x z) → Forall2 R l l' → Forall2 R l' l'' → Forall2 R l l''.
Proof.
  intros HR H. revert l''. induction H as [|x y l l' Hxy _ IH]; intros l'' H'; inversion H'; subst; constructor; eauto.
Qed.

Lemma optimise_ok ls ops :
  Forall layer_ok ls → NoDup (last_frame_buffer <$> ls) →
  Forall (λ l, rect_ok (dirty (pending_frame l))) ls → Forall (cells_ok (length ops)) ls →
  cell_ops_ok ls ops →
  ∃ ls' ops', optimise ls ops = Run (ls', ops') ∧ Forall2 recelled ls ls' ∧
    Forall (cells_ok (length ops)) ls' ∧ ops_ok ls ops' ∧ op_layer <$> ops' = op_layer <$> ops ∧ ∀ k x y, drawn ops k x y → drawn ops' k x y.
Proof.
  intros Hls Hnd Hdirty Hcells Hops. unfold optimise.
  destruct (rewrite_as_rects_ok ls ops Hls Hops) as (ops1 & -> & Hops1 & Hl1 & Hd1). rewrite run_bind_run.
  destruct (index_dirty_cells_ok ls Hls Hdirty ops1 Hops1) as (index & -> & Hindex). rewrite run_bind_run.
  destruct (rewrite_as_copies_ok ls Hls Hdirty index ops1 Hops1 Hindex) as (ops2 & -> & Hops2 & Hl2 & Hd2).
  rewrite run_bind_run.
  assert (Hok2 : ops_ok ls ops2).
  { split; [|by eapply cell_ops_apart]. eapply list.Forall_impl; [apply Hops2|]. intros op Hop. apply Hop. }
  assert (Hlen2 : length ops2 = length ops) by (rewrite (same_length _ _ Hl2); by apply same_length).
  rewrite <-Hlen2 in Hcells.
  destruct (combine_layers_ok ls Hls Hnd combine_rows ls ops2) as (ls3 & ops3 & E3 & HF3 & Hc3 & (Hok3 & Hl3 & Hd3));
    [apply (combine_rows_ok ls Hls Hnd)|done|done|].
  unfold PFW_guac_display_plan_combine_horizontally. rewrite E3, run_bind_run.
  rewrite <-(same_length _ _ Hl3) in Hc3.
  destruct (combine_layers_ok ls Hls Hnd combine_columns ls3 ops3) as (ls4 & ops4 & E4 & HF4 & Hc4 & (Hok4 & Hl4 & Hd4));
    [apply (combine_columns_ok ls Hls Hnd)|done|done|].
  exists ls4, ops4. split; [exact E4|]. split_and!.
  - eapply Forall2_trans_of; [apply recelled_trans|done..].
  - by rewrite (same_length _ _ Hl3), Hlen2 in Hc4.
  - done.
  - by rewrite Hl4, Hl3, Hl2, Hl1.
  - intros k x y H. by apply Hd4, Hd3, Hd2, Hd1.
Qed.

(** ** From the frames to the plan *)

(** Every change of the layer is reported. *)

Definition reported (l : guac_display_layer) : Prop :=
  ∀ x y, inside (pending_frame l) x y → differs l x y → in_rect x y (dirty (pending_frame l)).

(** The layer after planning: only its dirty rectangle, which still holds every reported change, and its
    cells are others. *)

Definition planned_layer (l l' : guac_display_layer) : Prop :=
  ∃ d cells, l' = with_cells l d cells ∧ len cells = len (pending_frame_cells l) ∧ rect_ok d ∧ clean cells ∧
    ∀ x y, inside (pending_frame l) x y → in_rect x y (dirty (pending_frame l)) → differs l x y → in_rect x y d.

Lemma state_ok_dirty s d : state_ok s → state_ok (s <| dirty := d |>).
Proof. by intros [? ? ? ? ?]; split. Qed.

Lemma with_cells_ok l d cells :
  layer_ok l → len cells = len (pending_frame_cells l) → layer_ok (with_cells l d cells).
Proof.
  intros [Hp Hl Hc Ha] Hlen. split; cbn [with_cells pending_frame last_frame pending_frame_cells
    pending_frame_cells_width pending_frame_cells_height set eta_display_layer]; try done.
  - by apply state_ok_dirty.
  - by rewrite Hlen.
Qed.

Lemma planned_ready l l' : ready l → planned_layer l l' → ready l'.
Proof. intros (Hl & _) (d & cells & -> & Hlen & Hd & Hclean & _). split_and!; [by apply with_cells_ok|done..]. Qed.

Record plan_ok (ls ls' : list guac_display_layer) (ops : list guac_display_plan_operation) : Prop := {
  plan_layers : Forall2 planned_layer ls ls';
  plan_right : Forall (right_op ls') ops;
  plan_draws : ∀ k l x y, ls !! k = Some l → inside (pending_frame l) x y →
    in_rect x y (dirty (pending_frame l)) → differs l x y → drawn ops k x y;
  plan_single : ∀ i j a b l, ops !! i = Some a → ops !! j = Some b → op_layer a = op_layer b →
    ls !! op_layer a = Some l → width (pending_frame l) ≤ 64 → height (pending_frame l) ≤ 64 → i = j;
}.

Lemma right_op_recelled ls ls' op : Forall2 recelled ls ls' → right_op ls op → right_op ls' op.
Proof.
  intros HF (l & Hl & He & Hb & H0 & Hr).
  destruct (Forall2_lookup_l _ _ _ _ _ HF Hl) as (l' & Hl' & cells & ->).
  eexists. split_and!; [exact Hl'|done..|]. unfold right_as in *.
  destruct (op_type op); try done.
  destruct Hr as (from & dx & dy & Hfrom & Hsrc & Hin & Hs & Hp & Hrest).
  apply list_elem_of_lookup in Hfrom as [i Hi].
  destruct (Forall2_lookup_l _ _ _ _ _ HF Hi) as (from' & Hi' & cells' & ->).
  eexists _, dx, dy. split; [by eapply list_elem_of_lookup_2|]. done.
Qed.

Lemma planned_recelled l l' l'' : planned_layer l l' → clean (pending_frame_cells l'') →
  len (pending_frame_cells l'') = len (pending_frame_cells l') → recelled l' l'' → planned_layer l l''.
Proof.
  intros (d & cells & -> & Hlen & Hd & Hclean & Hcov) Hc' Hlen' [cells' ->].
  cbn [with_cells pending_frame_cells set eta_display_layer] in *.
  exists d, cells'. split_and!; [done|by rewrite Hlen'|done..].
Qed.

Lemma planned_buffers ls ls' : Forall2 planned_layer ls ls' →
  last_frame_buffer <$> ls' = last_frame_buffer <$> ls.
Proof. induction 1 as [|l l' ls ls' (d & cells & -> & _) _ IH]; [done|]. cbn. by rewrite IH. Qed.

Lemma drafted_planned ls ls' ops :
  Forall2 (λ l l', ∃ d cells, l' = with_cells l d cells ∧ len cells = len (pending_frame_cells l) ∧
    rect_ok d ∧ clean cells) ls ls' →
  drafted_plan ls ls' ops → Forall2 planned_layer ls ls'.
Proof.
  intros HF [Hops _ Hcov]. apply Forall2_same_length_lookup_2; [by eapply Forall2_length|].
  intros k l l' Hl Hl'. destruct (Forall2_lookup_lr _ _ _ _ _ _ HF Hl Hl') as (d & cells & E & Hlen & Hd & Hc).
  exists d, cells. split_and!; [done..|]. intros x y Hin Hrep Hdf.
  destruct (Hcov k l x y Hl Hin Hrep Hdf) as (op & Hop & <- & Hxy).
  pose proof (proj1 (list.Forall_forall _ _) Hops op Hop) as [_ _ _ _ (l2 & Hl2 & _ & Hdirty)].
  rewrite Hl' in Hl2. simplify_eq. exact (in_contains _ _ _ _ Hdirty Hxy).
Qed.

Lemma drafted_single ls ls' ops i j a b l :
  drafted_plan ls ls' ops → Forall2 planned_layer ls ls' →
  ops !! i = Some a → ops !! j = Some b → op_layer a = op_layer b →
  ls !! op_layer a = Some l → width (pending_frame l) ≤ 64 → height (pending_frame l) ≤ 64 → i = j.
Proof.
  intros [Hops Hnd _] HF Ha Hb Hab Hl Hw Hh.
  assert (Hcell : ∀ n op, ops !! n = Some op → op_layer op = op_layer a → op_cell op = (op_layer a, 0, 0)).
  { intros n op Hn Hop. pose proof (Forall_lookup_1 _ _ _ _ Hops Hn) as [_ He _ _ (l' & Hl' & Hin & _)].
    destruct (Forall2_lookup_l _ _ _ _ _ HF Hl) as (l2 & Hl2 & d & cells & -> & _).
    rewrite Hop, Hl2 in Hl'. simplify_eq. apply is_empty_false in He. unfold contains in Hin.
    cbn [with_cells pending_frame bounds_of left top right bottom width height set eta_display_layer eta_layer_state] in Hin.
    unfold op_cell. rewrite Hop. f_equal; [f_equal|]; dlia. }
  apply (NoDup_lookup _ i j (op_layer a, 0, 0) Hnd); rewrite list_lookup_fmap.
  - rewrite Ha. cbn. by rewrite (Hcell i).
  - rewrite Hb. cbn. by rewrite (Hcell j).
Qed.

Lemma plan_is_ok fuel now ls :
  Forall ready ls → NoDup (last_frame_buffer <$> ls) → (length ls ≤ fuel)%nat → len ls < 2 ^ 32 →
  ∃ ls1 plan, PFW_LFR_guac_display_plan_create fuel now ls = Run (ls1, plan) ∧
    match plan with
    | None => plan_ok ls ls1 []
    | Some ops => ∃ ls2 ops2, optimise ls1 ops = Run (ls2, ops2) ∧ plan_ok ls ls2 ops2
    end.
Proof.
  intros Hr Hnd Hf Hlen. destruct (plan_create_ok fuel now ls Hr Hf Hlen) as (ls1 & plan & -> & Hplan).
  exists ls1, plan. split; [done|]. destruct plan as [ops|].
  - destruct Hplan as (_ & HF & Hdraft).
    assert (HF1 : Forall2 planned_layer ls ls1).
    { eapply drafted_planned; [|done]. eapply Forall2_impl; [|exact HF].
      intros l l' (d & cells & -> & ? & ? & ? & _). by exists d, cells. }
    assert (Hls1 : Forall layer_ok ls1).
    { eapply Forall2_Forall_r; [exact HF1|]. eapply list.Forall_impl; [exact Hr|].
      intros l Hl l' Hl'. by apply (planned_ready l l'). }
    destruct (optimise_ok ls1 ops) as (ls2 & ops2 & E & HR & Hcells & [Hright Hap] & Hlay & Hdr).
    + done.
    + by rewrite (planned_buffers _ _ HF1).
    + eapply Forall2_Forall_r; [exact HF1|]. eapply list.Forall_impl; [exact Hr|].
      intros l Hl l' Hl'. by apply (planned_ready l l').
    + apply Forall_lookup. intros k l' Hl'. destruct (Forall2_lookup_r _ _ _ _ _ HF Hl') as (l & Hl & Hll).
      pose proof (Forall_lookup_1 _ _ _ _ Hls1 Hl') as [_ _ (? & ? & _) Harr].
      destruct Hll as (d & cells & -> & _ & _ & Hclean & Hrel). unfold cells_ok. split_and!; (done || lia).
    + split; [|apply Hdraft]. eapply list.Forall_impl; [apply Hdraft|]. intros op. apply draft_cell_op.
    + exists ls2, ops2. split; [done|]. split.
      * apply Forall2_same_length_lookup_2.
        { transitivity (length ls1); by eapply Forall2_length. }
        intros k l l2 Hl Hl2. destruct (Forall2_lookup_l _ _ _ _ _ HF1 Hl) as (l1 & Hl1 & Hp).
        pose proof (Forall2_lookup_lr _ _ _ _ _ _ HR Hl1 Hl2) as Hrec.
        pose proof (Forall_lookup_1 _ _ _ _ Hcells Hl2) as (_ & _ & Harr2 & _ & Hclean2).
        pose proof (Forall_lookup_1 _ _ _ _ Hls1 Hl1) as [_ _ _ Harr1].
        eapply planned_recelled; [exact Hp|done| |done]. destruct Hrec as [cells ->].
        rewrite Harr1. exact Harr2.
      * eapply list.Forall_impl; [exact Hright|]. intros op. by apply right_op_recelled.
      * intros k l x y Hl Hin Hrep Hdf. apply Hdr.
        destruct (plan_covers _ _ _ Hdraft k l x y Hl Hin Hrep Hdf) as (op & Hop & Hk & Hxy).
        exists op. split_and!; [done| |done..].
        by rewrite (draft_type _ _ (proj1 (list.Forall_forall _ _) (plan_ops _ _ _ Hdraft) op Hop)).
      * intros i j a b l Ha Hb Hab Hl Hw Hh.
        assert (Hat : ∀ n op, ops2 !! n = Some op → ∃ op0, ops !! n = Some op0 ∧ op_layer op0 = op_layer op).
        { intros n op Hn. assert (E' : (op_layer <$> ops) !! n = Some (op_layer op)).
          { by rewrite <-Hlay, list_lookup_fmap, Hn. }
          rewrite list_lookup_fmap in E'. destruct (ops !! n) as [op0|]; [|done].
          exists op0. split; [done|]. by injection E'. }
        destruct (Hat i a Ha) as (a0 & Ha0 & Ela), (Hat j b Hb) as (b0 & Hb0 & Elb).
        eapply (drafted_single ls ls1 ops i j a0 b0 l); try done; congruence.
  - destruct Hplan as [HF Hdraft]. split; [|constructor| |done].
    + eapply drafted_planned; [|done]. eapply Forall2_impl; [|exact HF].
      intros l l' (E & ? & ? & ?). by eexists _, _.
    + intros k l x y Hl Hin Hrep Hdf.
      destruct (plan_covers _ _ _ Hdraft k l x y Hl Hin Hrep Hdf) as (op & Hop & _). by apply elem_of_nil in Hop.
Qed.
