(* ===== verification/DisplayCommitSpec.v ===== *)
(** * The last frame becomes the pending frame (specification of DisplayFlush.v, display-flush.c)

    Completing a frame copies every pixel of the pending frame, and its size, position and
    properties, to the last frame, and sends what has changed of them. *)

From stdpp Require Import gmap.
From S2P Require Import Prelude RecordUpdate Mem Run Rect ProtocolTypes Display DisplayPlan DisplayFlush.
From S2P Require Import DisplayDraftSpec DisplayOptimiseSpec.
Local Open Scope Z_scope.

Local Abbreviation len l := (Z.of_nat (List.length l)).

(** ** Copying words *)

Lemma word_at_index b n : 0 ≤ n → word_at b (4 * n) = deref (b !! Z.to_nat n).
Proof.
  intros Hn. unfold word_at. rewrite (Z.mul_comm 4), Z.mod_mul, Z.div_mul by lia.
  destruct (Z.ltb_spec (n * 4) 0); [lia|]. done.
Qed.

Lemma put_word_ok b n v : 0 ≤ n < len b → put_word b (4 * n) v = Run (<[Z.to_nat n := v]> b).
Proof.
  intros Hn. unfold put_word. rewrite word_at_index by lia.
  destruct (lookup_lt_is_Some_2 b (Z.to_nat n)) as [w ->]; [lia|].
  cbn [deref]. rewrite run_bind_run, (Z.mul_comm 4), Z.div_mul by lia. done.
Qed.

Lemma copy_words_ok n dst p src q :
  0 ≤ n → 0 ≤ p → 0 ≤ q → p + n ≤ len dst → q + n ≤ len src →
  ∃ dst', copy_words n dst (4 * p) src (4 * q) = Run dst' ∧ length dst' = length dst ∧
    ∀ i, 0 ≤ i → dst' !! Z.to_nat i =
      if decide (p ≤ i < p + n) then src !! Z.to_nat (q + (i - p)) else dst !! Z.to_nat i.
Proof.
  intros Hn Hp Hq Hd Hs. unfold copy_words.
  destruct (for_range_inv_max (λ j dst', length dst' = length dst ∧ ∀ i, 0 ≤ i → dst' !! Z.to_nat i =
      if decide (p ≤ i < p + j) then src !! Z.to_nat (q + (i - p)) else dst !! Z.to_nat i)
    0 (n - 1) (λ i dst, w ← word_at src (4 * q + 4 * i); put_word dst (4 * p + 4 * i) w) dst)
    as (dst' & E & Hlen & Hi).
  - split; [done|]. intros i _. rewrite decide_False by lia. done.
  - intros j t Hj [Hlen Ht]. rewrite <-!Z.mul_add_distr_l, word_at_index by lia.
    destruct (lookup_lt_is_Some_2 src (Z.to_nat (q + j))) as [w Hw]; [lia|]. rewrite Hw.
    cbn [deref]. rewrite run_bind_run, put_word_ok by lia. eexists. split; [done|].
    split; [by rewrite length_insert|]. intros i Hi. destruct (decide (i = p + j)) as [->|].
    + rewrite list_lookup_insert_eq, decide_True by lia. rewrite <-Hw. do 2 f_equal. lia.
    + rewrite list_lookup_insert_ne, Ht by lia. repeat case_decide; (done || lia).
  - exists dst'. split; [exact E|]. split; [done|]. intros i H0. rewrite Hi by done.
    repeat case_decide; (done || lia).
Qed.

(** Row by row: the rows of the source are [ks] words apart, those of the destination [kd]. *)

Lemma copy_image_ok h w dst kd src ks :
  0 ≤ w ≤ kd → 0 ≤ ks → (∀ y, 0 ≤ y < h → y * kd + w ≤ len dst) →
  (∀ y, 0 ≤ y < h → y * ks + w ≤ len src) →
  ∃ dst', for_range 0 (h - 1) (λ y dst, copy_words w dst (y * (4 * kd)) src (y * (4 * ks))) dst = Run dst' ∧
    length dst' = length dst ∧
    ∀ x y, 0 ≤ x < kd → 0 ≤ y → dst' !! Z.to_nat (y * kd + x) =
      if decide (x < w ∧ y < h) then src !! Z.to_nat (y * ks + x) else dst !! Z.to_nat (y * kd + x).
Proof.
  intros Hw Hks Hd Hs.
  destruct (for_range_inv_max (λ j dst', length dst' = length dst ∧
      ∀ x y, 0 ≤ x < kd → 0 ≤ y → dst' !! Z.to_nat (y * kd + x) =
        if decide (x < w ∧ y < j) then src !! Z.to_nat (y * ks + x) else dst !! Z.to_nat (y * kd + x))
    0 (h - 1) (λ y dst, copy_words w dst (y * (4 * kd)) src (y * (4 * ks))) dst)
    as (dst' & E & Hlen & Hi).
  - split; [done|]. intros x y _ Hy. rewrite decide_False by lia. done.
  - intros j t Hj [Hlen Ht].
    replace (j * (4 * kd)) with (4 * (j * kd)) by ring. replace (j * (4 * ks)) with (4 * (j * ks)) by ring.
    specialize (Hd j ltac:(lia)). specialize (Hs j ltac:(lia)).
    destruct (copy_words_ok w t (j * kd) src (j * ks)) as (t' & -> & Hlen' & Ht'); [lia|nia|nia|lia..|].
    exists t'. split; [done|]. split; [congruence|]. intros x y Hx Hy. rewrite Ht' by nia.
    destruct (decide (y = j)) as [->|].
    + destruct (decide (x < w)).
      * rewrite !decide_True by lia. do 2 f_equal. lia.
      * rewrite !decide_False, Ht, decide_False by lia. done.
    + rewrite decide_False, Ht by nia. repeat case_decide; (done || lia).
  - exists dst'. split; [exact E|]. split; [done|]. intros x y Hx Hy. rewrite Hi by done.
    repeat case_decide; (done || lia).
Qed.

(** ** The buffer of the last frame *)

Definition with_buffer (last pending : guac_display_layer_state) (b : list Z) (d : guac_rect)
    : guac_display_layer_state :=
  last <| buffer := Some b |> <| buffer_stride := buffer_stride pending |>
    <| buffer_width := buffer_width pending |> <| buffer_height := buffer_height pending |> <| dirty := d |>.

Lemma with_buffer_same last pending b d :
  buffer last = Some b → buffer_stride last = buffer_stride pending →
  buffer_width last = buffer_width pending → buffer_height last = buffer_height pending →
  last <| dirty := d |> = with_buffer last pending b d.
Proof. destruct last. cbn. intros -> -> -> ->. done. Qed.

Lemma with_buffer_same' last pending b d :
  buffer_stride last = buffer_stride pending →
  buffer_width last = buffer_width pending → buffer_height last = buffer_height pending →
  last <| buffer := Some b |> <| dirty := d |> = with_buffer last pending b d.
Proof. destruct last. cbn. intros -> -> ->. done. Qed.

Lemma pixel_index s b x y k :
  buffer s = Some b → buffer_stride s = 4 * k → pixel s x y = default 0 (b !! Z.to_nat (y * k + x)).
Proof.
  intros Hb Hk. unfold pixel. rewrite Hb, Hk.
  replace (y * (4 * k) + 4 * x) with ((y * k + x) * 4) by ring. by rewrite Z.div_mul by lia.
Qed.

Lemma commit_buffer_ok last pending b :
  state_ok last → state_ok pending → buffer pending = Some b →
  ∃ b' (copied : bool),
    commit_buffer last pending b =
      Run (with_buffer last pending b' (if copied then dirty pending else no_rect), copied) ∧
    buffer_height pending * buffer_stride pending ≤ 4 * len b' ∧
    (if copied then ∀ x y, inside pending x y →
       pixel (with_buffer last pending b' (dirty pending)) x y = pixel pending x y
     else guac_rect_is_empty (dirty pending) = true ∧ buffer last = Some b' ∧
       buffer_stride last = buffer_stride pending).
Proof.
  intros Hl Hp Hb. pose proof Hp as [Hw Hh Hm [[k Hk] Hs] (b0 & Hb0 & Hsize)]. assert (b0 = b) as -> by congruence.
  rewrite Z.mul_comm in Hk.
  unfold commit_buffer. destruct (negb _) eqn:E.
  - unfold PRIV_guac_mem_ckd_mul_or_die. rewrite ckd_mul_2 by lia. cbn [or_die or_abort]. rewrite run_bind_run.
    set (n := buffer_height pending * buffer_stride pending / 4).
    assert (Hn : n = buffer_height pending * k).
    { subst n. rewrite Hk. replace (buffer_height pending * (4 * k)) with (buffer_height pending * k * 4) by ring.
      by rewrite Z.div_mul by lia. }
    destruct (copy_words_ok n (replicate (Z.to_nat n) 0) 0 b 0) as (b' & Ec & Hlen & Hi);
      [nia|lia..|rewrite length_replicate; lia|nia|].
    rewrite Z.mul_0_r in Ec. rewrite Ec, run_bind_run. exists b', true. split; [done|].
    rewrite length_replicate in Hlen. split; [nia|].
    intros x y Hxy. rewrite !(pixel_index _ b' x y k), (pixel_index pending b x y k) by done.
    unfold inside in Hxy. rewrite Hi, decide_True by nia. do 3 f_equal. lia.
  - apply negb_false_iff in E. zbool_hyps. destruct (guac_rect_is_empty (dirty pending)) eqn:Ed; cbn [negb].
    + destruct Hl as [_ _ _ _ (b' & Hb' & Hsize')]. exists b', false.
      split; [by rewrite (with_buffer_same _ pending b')|]. split; [congruence|]. done.
    + destruct Hl as [_ _ _ _ (b' & Hb' & Hsize')]. rewrite Hb'. cbn [deref]. rewrite run_bind_run.
      replace (buffer_stride last) with (4 * k) by congruence. rewrite Hk.
      destruct (copy_image_ok (height pending) (width pending) b' k b k) as (b'' & -> & Hlen & Hi).
      * lia. * lia.
      * intros y Hy. replace (buffer_stride last) with (4 * k) in Hsize' by congruence.
        replace (buffer_height last) with (buffer_height pending) in Hsize' by congruence. nia.
      * intros y Hy. nia.
      * rewrite run_bind_run. exists b'', true. split; [by rewrite (with_buffer_same' _ pending)|].
        split; [rewrite Hlen; congruence|].
        intros x y Hxy. rewrite !(pixel_index _ b'' x y k), (pixel_index pending b x y k) by done.
        unfold inside in Hxy. rewrite Hi, decide_True by lia. done.
Qed.

(** ** A layer *)

(** The last frame, but for its buffer and what has changed in it. *)

Definition committed (last pending : guac_display_layer_state) : guac_display_layer_state :=
  last <| width := width pending |> <| height := height pending |> <| opacity := opacity pending |>
    <| layer_x := layer_x pending |> <| layer_y := layer_y pending |> <| layer_z := layer_z pending |>
    <| parent := parent pending |> <| touches := touches pending |>
    <| search_for_copies := search_for_copies pending |> <| lossless := lossless pending |>.

Definition completed_with (l : guac_display_layer) (b : list Z) (copied : bool) : guac_display_layer :=
  let pending := pending_frame l in
  l <| last_frame := committed (with_buffer (last_frame l) pending b
         (if copied then dirty pending else no_rect)) pending |>
    <| pending_frame := pending <| search_for_copies := false |>
         <| dirty := if copied then no_rect else dirty pending |> |>
    <| listed := true |>.

(** Sizes are the only thing sent of a layer that changes what is on the screen. *)

Definition harmless (l : guac_display_layer) (i : instruction) : Prop :=
  match i with
  | Size k w h => k = layer_index l ∧ w = width (pending_frame l) ∧ h = height (pending_frame l)
  | Shade _ _ | Move _ _ _ _ _ | Set_multi_touch _ _ => True
  | _ => False
  end.

(** Updating fields with the values they have. *)

Local Ltac same_fields :=
  repeat match goal with H : _ = _ ?last |- context [?f ?pending] =>
    match type of H with f pending = f last => rewrite H; clear H end end;
  match goal with last : guac_display_layer_state |- _ => destruct last; vm_compute; reflexivity end.

Lemma commit_size_ok l last : 
  ∃ sent, commit_size (layer_index l) last (pending_frame l) =
    (last <| width := width (pending_frame l) |> <| height := height (pending_frame l) |>, sent) ∧
    Forall (harmless l) sent.
Proof.
  unfold commit_size. destruct (_ && _) eqn:E; [exists []; split; [|constructor]|eexists; split; [done|by repeat constructor]].
  zbool_hyps. f_equal. by same_fields.
Qed.

Lemma commit_opacity_ok l last :
  ∃ sent, commit_opacity (layer_index l) last (pending_frame l) =
    (last <| opacity := opacity (pending_frame l) |>, sent) ∧ Forall (harmless l) sent.
Proof.
  unfold commit_opacity. destruct (_ =? _) eqn:E; [exists []; split; [|constructor]|eexists; split; [done|by repeat constructor]].
  zbool_hyps. f_equal. by same_fields.
Qed.

Lemma commit_position_ok l last :
  ∃ sent, commit_position (layer_index l) last (pending_frame l) =
    (last <| layer_x := layer_x (pending_frame l) |> <| layer_y := layer_y (pending_frame l) |>
       <| layer_z := layer_z (pending_frame l) |> <| parent := parent (pending_frame l) |>, sent) ∧
    Forall (harmless l) sent.
Proof.
  unfold commit_position. destruct (_ && _) eqn:E; [exists []; split; [|constructor]|eexists; split; [done|by repeat constructor]].
  zbool_hyps. f_equal. by same_fields.
Qed.

Lemma commit_touches_ok l last :
  ∃ sent, commit_touches (layer_index l) last (pending_frame l) =
    (last <| touches := touches (pending_frame l) |>, sent) ∧ Forall (harmless l) sent.
Proof.
  unfold commit_touches. destruct (_ =? _) eqn:E; [exists []; split; [|constructor]|eexists; split; [done|by repeat constructor]].
  zbool_hyps. f_equal. by same_fields.
Qed.

(** The layer after its frame is complete: [b] is the buffer of the last frame. *)

Record completed (l l' : guac_display_layer) (b : list Z) (copied : bool) : Prop := {
  completed_is : l' = completed_with l b copied;
  completed_size : buffer_height (pending_frame l) * buffer_stride (pending_frame l) ≤ 4 * len b;
  completed_pixels : if copied then ∀ x y, inside (pending_frame l) x y →
      pixel (last_frame l') x y = pixel (pending_frame l) x y
    else guac_rect_is_empty (dirty (pending_frame l)) = true ∧ buffer (last_frame l) = Some b ∧
      buffer_stride (last_frame l) = buffer_stride (pending_frame l);
}.

Lemma complete_layer_ok l pb :
  layer_ok l → buffer (pending_frame l) = Some pb →
  ∃ l' b copied changed sent, complete_layer l pb = Run (l', changed, sent) ∧
    completed l l' b copied ∧ Forall (harmless l) sent ∧ (copied = true → changed = true).
Proof.
  intros Hl Hb. destruct (commit_buffer_ok _ _ _ (ok_last _ Hl) (ok_pending _ Hl) Hb)
    as (b & copied & E & Hsize & Hpix).
  unfold complete_layer. rewrite E, run_bind_run.
  destruct (commit_size_ok l (with_buffer (last_frame l) (pending_frame l) b
    (if copied then dirty (pending_frame l) else no_rect))) as (s1 & -> & H1).
  set (t1 := _ <| width := _ |> <| height := _ |>). destruct (commit_opacity_ok l t1) as (s2 & -> & H2).
  set (t2 := t1 <| opacity := _ |>). destruct (commit_position_ok l t2) as (s3 & -> & H3).
  set (t3 := t2 <| layer_x := _ |> <| layer_y := _ |> <| layer_z := _ |> <| parent := _ |>).
  destruct (commit_touches_ok l t3) as (s4 & -> & H4).
  eexists _, b, copied, _, _. split; [done|]. split_and!.
  - split; [|done|].
    + unfold completed_with, committed. subst t3 t2 t1. destruct copied; [done|].
      by destruct l as [? ? ? ? [] ? ? ? ?].
    + destruct copied; [|done]. exact Hpix.
  - rewrite !Forall_app. done.
  - intros ->. done.
Qed.

(** ** All layers *)

Lemma complete_layers_ok fuel pre post changed sent :
  Forall layer_ok post → (length post ≤ fuel)%nat →
  ∃ post' changed' sent', complete_layers fuel (length pre) (pre ++ post) changed sent
      = Run (pre ++ post', changed', sent ++ sent') ∧
    Forall2 (λ l l', ∃ b copied, completed l l' b copied ∧ (copied = true → changed' = true)) post post' ∧
    Forall (λ i, ∃ l, l ∈ post ∧ harmless l i) sent' ∧ (changed = true → changed' = true).
Proof.
  revert pre post changed sent. induction fuel as [|fuel IH]; intros pre post changed sent Hok Hf;
    (destruct post as [|l post];
      [exists [], changed, []; cbn [complete_layers]; rewrite lookup_ge_None_2 by (rewrite length_app; cbn; lia);
       rewrite !app_nil_r; by split_and!|]).
  { cbn in Hf. lia. }
  apply Forall_cons_1 in Hok as [Hl Hok]. cbn [length] in Hf.
  cbn [complete_layers]. rewrite list_lookup_middle by done.
  destruct (ok_buffer _ (ok_pending _ Hl)) as (pb & Hb & _). rewrite Hb.
  destruct (complete_layer_ok l pb Hl Hb) as (l' & b & copied & ch & s & -> & Hc & Hs & Hch).
  rewrite run_bind_run. rewrite insert_app_r_alt, Nat.sub_diag by lia. cbn [insert list_insert].
  destruct (IH (pre ++ [l']) post (changed || ch) (sent ++ s) Hok ltac:(lia)) as (post' & ch' & s' & E & HF & Hs' & Hc').
  rewrite length_app, Nat.add_1_r, <-!app_assoc in E. cbn [length app] in E. rewrite E.
  exists (l' :: post'), ch', (s ++ s'). split; [done|]. split_and!.
  - constructor; [|done]. exists b, copied. split; [done|]. intros Hco. apply Hc'. rewrite Hch by done.
    apply orb_true_r.
  - apply Forall_app. split.
    + eapply list.Forall_impl; [exact Hs|]. intros i Hi. exists l. split; [left|done].
    + eapply list.Forall_impl; [exact Hs'|]. intros i (l0 & Hl0 & Hi). exists l0. split; [by right|done].
  - intros ->. by apply Hc'.
Qed.

Definition is_mouse (i : instruction) : Prop := match i with Mouse _ _ _ _ _ => True | _ => False end.

Lemma commit_cursor_ok users last pending :
  Forall is_mouse (commit_cursor users last pending).2.
Proof.
  unfold commit_cursor. destruct (_ && _); cbn [snd]; [constructor|].
  apply list.Forall_forall. intros i Hi. apply list_elem_of_join in Hi as (row & Hi & Hrow).
  apply list_elem_of_fmap in Hrow as (user & -> & _). unfold LFR_guac_display_broadcast_cursor_state in Hi.
  case_decide; [by apply elem_of_nil in Hi|]. by apply list_elem_of_singleton in Hi as ->.
Qed.

(** What of a frame is neither a size nor a property of a layer does not concern its layers. *)

Definition quiet (ls : list guac_display_layer) (i : instruction) : Prop :=
  (∃ l, l ∈ ls ∧ harmless l i) ∨ is_mouse i.

Lemma frame_complete_ok fuel users d :
  Forall layer_ok (layers d) → (length (layers d) ≤ fuel)%nat →
  ∃ d' changed sent, PFW_LFW_guac_display_frame_complete fuel users d = Run (d', changed, sent) ∧
    Forall2 (λ l l', ∃ b copied, completed l l' b copied ∧ (copied = true → changed = true))
      (layers d) (layers d') ∧
    Forall (quiet (layers d)) sent ∧ busy d' = busy d.
Proof.
  intros Hok Hf. destruct (complete_layers_ok fuel [] (layers d) false [] Hok Hf)
    as (ls' & changed & sent & E & HF & Hs & _).
  cbn [app length] in E. unfold PFW_LFW_guac_display_frame_complete. rewrite E, run_bind_run.
  pose proof (commit_cursor_ok users (last_state d) (pending_state d)) as Hm.
  destruct (commit_cursor users (last_state d) (pending_state d)) as [last mouse]. cbn [snd] in Hm.
  eexists _, changed, _. split; [done|]. split_and!; [done| |done].
  apply Forall_app. split; eapply list.Forall_impl; try done; [|by right]. by left.
Qed.

(** What is true of a completed layer. *)

Lemma completed_layer_ok l l' b copied : layer_ok l → completed l l' b copied → layer_ok l'.
Proof.
  intros [[Hw Hh Hm Hs Hb] _ Hc Ha] [-> Hsize _]. split.
  - split; [done..|]. exact Hb.
  - split; [done..|]. exists b. done.
  - done.
  - done.
Qed.
