(* ===== verification/DisplayResizeSpec.v ===== *)
(** * Resizing layers (specification of Display.v, display-layer.c)

    Resizing a layer keeps the pixels that its old and its new buffer both have, makes all others
    zero, and leaves a layer that can be drawn on and planned. *)

From stdpp Require Import gmap.
From S2P Require Import Prelude RecordUpdate Mem Run Rect Display DisplayPlan.
From S2P Require Import DisplayDraftSpec DisplayOptimiseSpec DisplayCommitSpec.
Local Open Scope Z_scope.

Local Abbreviation len l := (Z.of_nat (List.length l)).

Lemma round_dimension_spec n : 0 ≤ n ≤ 8192 →
  n ≤ round_dimension n ≤ 8192 ∧ (64 | round_dimension n).
Proof.
  intros Hn. unfold round_dimension, GUAC_DISPLAY_RESIZE_FACTOR. rewrite Z.quot_div_nonneg by lia.
  split; [dlia|]. apply Z.divide_factor_r.
Qed.

(** ** The buffer *)

(** The pixel of a buffer that is there, zero elsewhere. *)

Definition pixel_or_zero (s : guac_display_layer_state) (x y : Z) : Z :=
  if decide (x < buffer_width s ∧ y < buffer_height s) then pixel s x y else 0.

Definition resized (s s' : guac_display_layer_state) : Prop :=
  ∀ x y, 0 ≤ x < buffer_width s' → 0 ≤ y < buffer_height s' → pixel s' x y = pixel_or_zero s x y.

Lemma imgcpy_ok dst w h old ow oh os :
  0 ≤ w ≤ 8192 → 0 ≤ h ≤ 8192 → 0 ≤ ow ≤ 8192 → 0 ≤ oh ≤ 8192 → 4 * ow ≤ 4 * os →
  h * w ≤ len dst → oh * os ≤ len old →
  ∃ dst', guac_imgcpy dst (4 * w) w h old (4 * os) ow oh = Run dst' ∧ length dst' = length dst ∧
    ∀ x y, 0 ≤ x < w → 0 ≤ y < h → dst' !! Z.to_nat (y * w + x) =
      if decide (x < ow ∧ y < oh) then old !! Z.to_nat (y * os + x) else dst !! Z.to_nat (y * w + x).
Proof.
  intros Hw Hh How Hoh Hos Hd Ho. unfold guac_imgcpy.
  set (cw := if ow <? w then ow else w). set (ch := if oh <? h then oh else h).
  assert (Hcw : cw = Z.min ow w) by (subst cw; zif; lia).
  assert (Hch : ch = Z.min oh h) by (subst ch; zif; lia). clearbody cw ch. cbv zeta.
  rewrite (assert_leb 0 cw), run_bind_run by lia. rewrite (assert_leb 0 ch), run_bind_run by lia.
  destruct (copy_image_ok ch cw dst w old os) as (dst' & -> & Hlen & Hi); [lia|lia|intros; nia..|].
  exists dst'. split; [done|]. split; [done|]. intros x y Hx Hy. rewrite Hi by lia.
  repeat case_decide; (done || lia).
Qed.

Lemma buffer_resize_ok s w h :
  state_ok s → buffer_is_external s = false → 0 ≤ w ≤ 8192 → 0 ≤ h ≤ 8192 →
  ∃ s', XFW_guac_display_layer_buffer_resize s w h = Run s' ∧ resized s s' ∧
    state_ok (s' <| width := w |> <| height := h |>) ∧ dirty s' = dirty s.
Proof.
  intros [Hw Hh Hm [[k Hk] Hs] (b & Hb & Hsize)] Hext Hw' Hh'. unfold XFW_guac_display_layer_buffer_resize.
  rewrite Hext. cbn [negb]. rewrite assert_true, run_bind_run by done. cbv zeta.
  destruct (round_dimension_spec w Hw') as [Hrw _], (round_dimension_spec h Hh') as [Hrh _].
  rewrite (Z.mul_comm k) in Hk.
  destruct ((round_dimension w =? buffer_width s) && (round_dimension h =? buffer_height s)) eqn:E.
  { zbool_hyps. exists s. split; [done|]. split.
    { intros x y Hx Hy. unfold pixel_or_zero. by rewrite decide_True by lia. }
    split; [|done]. split; cbn; [lia|lia|lia|split; [by exists k; lia|lia]|by exists b]. }
  clear E. set (rw := round_dimension w) in *. set (rh := round_dimension h) in *.
  unfold zalloc_words. rewrite (u64_small (4 * rw)) by (unfold is_u64; lia).
  rewrite (ckd_mul_2 rh) by lia. rewrite run_bind_run, Hb, Hk.
  replace (rh * (4 * rw) / 4) with (rh * rw)
    by (replace (rh * (4 * rw)) with (rh * rw * 4) by ring; by rewrite Z.div_mul by lia).
  destruct (imgcpy_ok (replicate (Z.to_nat (rh * rw)) 0) rw rh b (buffer_width s) (buffer_height s) k)
    as (b' & -> & Hlen & Hi); [lia..|rewrite length_replicate; nia|nia|].
  rewrite length_replicate in Hlen. rewrite run_bind_run. eexists. split; [done|]. split; [|split; [|done]].
  - intros x y Hx Hy. cbn [buffer_width buffer_height set eta_layer_state] in Hx, Hy.
    rewrite (pixel_index _ b' x y rw) by done. rewrite Hi by lia. unfold pixel_or_zero.
    case_decide as Hin; [by rewrite (pixel_index s b x y k)|].
    by rewrite lookup_replicate_2 by nia.
  - split; cbn; [lia|lia|lia|split; [by exists rw; lia|lia]|]. exists b'. split; [done|nia].
Qed.

Lemma buffer_size_ok s w h s' :
  XFW_guac_display_layer_buffer_resize s w h = Run s' →
  (buffer_width s', buffer_height s') = (round_dimension w, round_dimension h).
Proof.
  unfold XFW_guac_display_layer_buffer_resize. intros (_ & _ & E)%run_bind_inv. cbv zeta in E.
  destruct (_ && _) eqn:Hsame; [zbool_hyps; injection E as <-; by f_equal|].
  apply run_bind_inv in E as (? & _ & (? & _ & [= <-])%run_bind_inv). done.
Qed.

(** The buffer of the caller, and the layer's own. *)

Lemma pending_resize_ok s w h :
  state_ok s → 0 ≤ w ≤ 8192 → 0 ≤ h ≤ 8192 →
  (buffer_is_external s = true → w ≤ buffer_width s ∧ h ≤ buffer_height s) →
  ∃ s', (if buffer_is_external s then Run s else XFW_guac_display_layer_buffer_resize s w h) = Run s' ∧
    resized s s' ∧ state_ok (s' <| width := w |> <| height := h |>) ∧ dirty s' = dirty s ∧
    (buffer_width s', buffer_height s') =
      if buffer_is_external s then (buffer_width s, buffer_height s) else (round_dimension w, round_dimension h).
Proof.
  intros Hs Hw Hh Hext. destruct (buffer_is_external s) eqn:E.
  - specialize (Hext eq_refl). exists s. split; [done|]. split_and!; [|destruct Hs; by split; cbn; lia || idtac|done|done].
    intros x y Hx Hy. unfold pixel_or_zero. by rewrite decide_True by lia.
  - destruct (buffer_resize_ok s w h Hs E Hw Hh) as (s' & Es & Hres & Hok & Hd).
    exists s'. split; [done|]. split_and!; [done..|]. by apply buffer_size_ok with s.
Qed.

(** ** The cells *)

Lemma cell_dimension_spec n : 0 ≤ n ≤ 8192 →
  0 ≤ GUAC_DISPLAY_CELL_DIMENSION n ≤ 128 ∧ n ≤ 64 * GUAC_DISPLAY_CELL_DIMENSION n.
Proof.
  intros Hn. unfold GUAC_DISPLAY_CELL_DIMENSION, GUAC_DISPLAY_CELL_SIZE. rewrite Z.quot_div_nonneg by lia. dlia.
Qed.

Lemma copy_cells_ok n dst p src q :
  0 ≤ p → 0 ≤ q → p + n ≤ len dst → q + n ≤ len src → clean dst → clean src →
  ∃ dst', copy_cells n dst p src q = Run dst' ∧ length dst' = length dst ∧ clean dst'.
Proof.
  intros Hp Hq Hd Hs Hcd Hcs. unfold copy_cells.
  destruct (for_range_inv_max (λ _ dst', length dst' = length dst ∧ clean dst') 0 (n - 1) (λ i dst,
    c ← deref (src !! Z.to_nat (q + i));
    _ ← deref (dst !! Z.to_nat (p + i));
    Run (<[Z.to_nat (p + i) := c]> dst)) dst) as (dst' & -> & H); [done| |by exists dst'].
  intros i t Hi [Hlen Hc].
  destruct (lookup_lt_is_Some_2 src (Z.to_nat (q + i))) as [c Hsi]; [lia|]. rewrite Hsi.
  destruct (lookup_lt_is_Some_2 t (Z.to_nat (p + i))) as [c' ->]; [lia|].
  cbn [deref]. rewrite !run_bind_run. eexists. split; [done|]. split; [by rewrite length_insert|].
  apply Forall_insert; [done|]. exact (Forall_lookup_1 _ _ _ _ Hcs Hsi).
Qed.

Lemma cells_resize_ok l w h :
  clean (pending_frame_cells l) → 0 ≤ pending_frame_cells_width l → 0 ≤ pending_frame_cells_height l →
  len (pending_frame_cells l) = pending_frame_cells_width l * pending_frame_cells_height l →
  0 ≤ w ≤ 8192 → 0 ≤ h ≤ 8192 →
  ∃ cells cw ch, PFW_guac_display_layer_pending_frame_cells_resize l w h =
      Run (l <| pending_frame_cells := cells |> <| pending_frame_cells_width := cw |>
             <| pending_frame_cells_height := ch |>) ∧
    clean cells ∧ len cells = cw * ch ∧ 0 ≤ cw ≤ 128 ∧ 0 ≤ ch ≤ 128 ∧ w ≤ 64 * cw ∧ h ≤ 64 * ch.
Proof.
  intros Hc Hcw Hch Hlen Hw Hh. unfold PFW_guac_display_layer_pending_frame_cells_resize. cbv zeta.
  destruct (cell_dimension_spec w Hw) as [Hnw Hww], (cell_dimension_spec h Hh) as [Hnh Hhh].
  set (nw := GUAC_DISPLAY_CELL_DIMENSION w) in *. set (nh := GUAC_DISPLAY_CELL_DIMENSION h) in *. clearbody nw nh.
  destruct ((nw =? pending_frame_cells_width l) && (nh =? pending_frame_cells_height l)) eqn:E.
  { zbool_hyps. exists (pending_frame_cells l), nw, nh. subst. split; [by destruct l|]. split_and!; (done || lia). }
  clear E. set (mw := if pending_frame_cells_width l <? nw then _ else _).
  set (mh := if pending_frame_cells_height l <? nh then _ else _).
  assert (Hmw : mw = Z.min (pending_frame_cells_width l) nw) by (subst mw; zif; lia).
  assert (Hmh : mh = Z.min (pending_frame_cells_height l) nh) by (subst mh; zif; lia). clearbody mw mh.
  rewrite (assert_leb 0 mw), run_bind_run by lia. rewrite (assert_leb 0 mh), run_bind_run by lia.
  destruct (for_range_inv_max (λ _ dst', length dst' = Z.to_nat (nw * nh) ∧ clean dst') 0 (mh - 1)
    (λ i dst, copy_cells mw dst (i * nw) (pending_frame_cells l) (i * pending_frame_cells_width l))
    (replicate (Z.to_nat (nw * nh)) zero_cell)) as (cells & -> & Hcl & Hcc).
  - split; [by rewrite length_replicate|]. by apply Forall_replicate.
  - intros i t Hi [Ht Htc]. destruct (copy_cells_ok mw t (i * nw) (pending_frame_cells l) (i * pending_frame_cells_width l))
      as (t' & -> & Ht' & Hct'); [nia..|done|done|]. exists t'. split; [done|]. split; [congruence|done].
  - rewrite run_bind_run. exists cells, nw, nh. split; [done|]. split_and!; [done|nia|lia..].
Qed.

(** ** The layer *)

(** C22. A layer that is ready for a frame is resized to any size up to the maximum; a buffer that is the
    caller's must hold the new size.  The layer is then ready, of that size, its last frame as it was.
    The caller's buffer stays; the layer's own has its size rounded up, and every pixel of it is the one the
    old buffer had there, shown or not (a layer that shrinks and grows again within its buffer shows what it
    had), and zero where the old buffer had none. *)

Theorem resize_keeps l w h :
  ready l → 0 ≤ w ≤ 8192 → 0 ≤ h ≤ 8192 →
  (buffer_is_external (pending_frame l) = true →
     w ≤ buffer_width (pending_frame l) ∧ h ≤ buffer_height (pending_frame l)) →
  ∃ l', PFW_guac_display_layer_resize l w h = Run l' ∧ ready l' ∧
    width (pending_frame l') = w ∧ height (pending_frame l') = h ∧ last_frame l' = last_frame l ∧
    resized (pending_frame l) (pending_frame l') ∧
    (buffer_width (pending_frame l'), buffer_height (pending_frame l')) =
      if buffer_is_external (pending_frame l)
      then (buffer_width (pending_frame l), buffer_height (pending_frame l))
      else (round_dimension w, round_dimension h).
Proof.
  intros (Hl & Hd & Hc) Hw Hh Hext. unfold PFW_guac_display_layer_resize.
  destruct (pending_resize_ok (pending_frame l) w h (ok_pending _ Hl) Hw Hh Hext)
    as (s & -> & Hres & Hok & Hds & Hsize).
  rewrite run_bind_run. destruct (ok_cells _ Hl) as (Hcw & Hch & _).
  destruct (cells_resize_ok (l <| pending_frame := s |>) w h) as (cells & cw & ch & -> & Hclean & Hlen & Hcw' & Hch' & Hww & Hhh);
    [done|apply Hcw|apply Hch|apply Hl|done|done|].
  rewrite run_bind_run. eexists. split; [done|]. split_and!; try done.
  split; [split; cbn; [exact Hok|apply Hl|done|done]|]. split; [|done]. cbn. by rewrite Hds.
Qed.

(** A layer of 40 by 40 pixels in a buffer of 64 by 64. *)

Definition sevens : guac_display_layer_state :=
  zero_state <| width := 40 |> <| height := 40 |> <| buffer := Some (replicate 4096 7) |>
    <| buffer_width := 64 |> <| buffer_height := 64 |> <| buffer_stride := 256 |>.

Definition layer_of_sevens : guac_display_layer := mk_display_layer 0 true sevens (-1) sevens [zero_cell] 1 1 true.

Lemma resize_keeps_witness :
  ∃ l', PFW_guac_display_layer_resize layer_of_sevens 100 30 = Run l' ∧ ready l' ∧
    width (pending_frame l') = 100 ∧ buffer_width (pending_frame l') = 128 ∧
    pixel (pending_frame l') 50 5 = 7 ∧ pixel (pending_frame l') 70 5 = 0.
Proof.
  assert (Hs : state_ok sevens).
  { split; cbn; try lia; [by split; [exists 64|lia]|]. by exists (replicate 4096 7). }
  destruct (resize_keeps layer_of_sevens 100 30) as (l' & E & Hr & Hw & Hh & _ & Hres & Hsize).
  - split_and!; [split; [exact Hs|exact Hs|cbn; lia|done]|by unfold rect_ok; cbn; lia|by repeat constructor].
  - lia.
  - lia.
  - done.
  - cbn in Hsize. injection Hsize as Hbw Hbh. change (round_dimension 100) with 128 in Hbw.
    change (round_dimension 30) with 64 in Hbh.
    exists l'. split; [exact E|]. split; [exact Hr|]. split; [exact Hw|]. split; [exact Hbw|].
    rewrite !Hres by (rewrite ?Hbw, ?Hbh; lia). split; vm_compute; reflexivity.
Defined.
