(* ===== verification/DisplayScreen.v ===== *)
(** * What the users see (specification of DisplayFlush.v)

    A client keeps a canvas for every layer and every buffer: its pixels and the path that
    rectangles are added to and that fills paint.  How it composes pixels, mixes a colour
    and decodes an image are parameters with the laws of the documented operations; a decoded
    image is near what was encoded, exactly so when the encoding is lossless. *)

From stdpp Require Import gmap.
From S2P Require Import Prelude RecordUpdate Mem Run Rect ProtocolTypes Display DisplayPlan DisplayFlush.
From S2P Require Import DisplayDraftSpec DisplayCreateSpec DisplayPassSpec.
Local Open Scope Z_scope.

Local Abbreviation len l := (Z.of_nat (List.length l)).

(** ** Canvases *)

Record canvas := mk_canvas { points : Z → Z → Z; path : list guac_rect; closed : bool }.

Definition screen : Type := Z → canvas.

Definition inb (x y : Z) (r : guac_rect) : bool :=
  (left r <=? x) && (x <? right r) && (top r <=? y) && (y <? bottom r).

Lemma inb_true x y r : inb x y r = true ↔ in_rect x y r.
Proof. unfold inb, in_rect. rewrite !andb_true_iff, !Z.leb_le, !Z.ltb_lt. lia. Qed.

Lemma inb_false x y r : inb x y r = false ↔ ¬ in_rect x y r.
Proof. rewrite <-inb_true. by destruct (inb x y r). Qed.

Definition on (k : Z) (f : canvas → canvas) (s : screen) : screen :=
  λ j, if decide (j = k) then f (s k) else s j.

Definition repaint (f : Z → Z → Z) (c : canvas) : canvas := mk_canvas f (path c) (closed c).

Definition sized (x y w h : Z) : guac_rect := mk_guac_rect x y (x + w) (y + h).

Definition row_width (rows : list (list Z)) : Z := match rows with row :: _ => len row | [] => 0 end.

Section client.
Context (composite : guac_composite_mode → Z → Z → Z) (paint : Z → Z → Z → Z → Z)
  (decode : image_encoding → bool → list (list Z) → Z → Z → Z).

Definition act (s : screen) (i : instruction) : screen :=
  match i with
  | Size k w h => on k (λ c, repaint (λ x y, if inb x y (sized 0 0 w h) then points c x y else 0) c) s
  | Copy src sx sy w h mode dst dx dy =>
      on dst (λ c, repaint (λ x y,
        if inb x y (sized dx dy w h)
        then composite mode (points (s src) (sx + (x - dx)) (sy + (y - dy))) (points c x y)
        else points c x y) c) s
  | Rectangle k x y w h =>
      on k (λ c, mk_canvas (points c) (if closed c then [sized x y w h] else sized x y w h :: path c) false) s
  | Cfill mode k r g b a =>
      on k (λ c, mk_canvas (λ x y,
        if existsb (inb x y) (path c) then composite mode (paint r g b a) (points c x y) else points c x y)
        (path c) true) s
  | Image e alpha mode k x0 y0 rows =>
      on k (λ c, repaint (λ x y,
        if inb x y (sized x0 y0 (row_width rows) (len rows))
        then composite mode (decode e alpha rows (x - x0) (y - y0)) (points c x y)
        else points c x y) c) s
  | _ => s
  end.

Definition act_all : screen → list instruction → screen := foldl act.

Lemma act_all_app s a b : act_all s (a ++ b) = act_all (act_all s a) b.
Proof. apply foldl_app. Qed.

Lemma on_other k j f s : j ≠ k → on k f s j = s j.
Proof. intros. unfold on. by rewrite decide_False. Qed.

Lemma on_same k f s : on k f s k = f (s k).
Proof. unfold on. by rewrite decide_True. Qed.

(** ** Laws *)

(** [near p v]: the pixel [p] is an acceptable rendition of [v]. *)

Context (near : Z → Z → Prop).

Record client_laws : Prop := {
  over_opaque v w : alpha_of v = 255 → composite GUAC_COMP_OVER v w = v;
  over_blank v : composite GUAC_COMP_OVER v 0 = v;
  rout_clears v w : alpha_of v = 255 → composite GUAC_COMP_ROUT v w = 0;
  ratop_clears w : composite GUAC_COMP_RATOP 0 w = 0;
  paint_opaque c : 0 ≤ c < 2 ^ 32 → alpha_of c = 255 → paint (red_of c) (green_of c) (blue_of c) 255 = c;
  paint_nothing : paint 0 0 0 0 = 0;
  near_refl v : near v v;
  near_opaque p v : near p v → alpha_of v = 255 → alpha_of p = 255;
  decode_near e alpha rows i j row v :
    rows !! Z.to_nat j = Some row → row !! Z.to_nat i = Some v → 0 ≤ i → 0 ≤ j →
    near (decode e alpha rows i j) (if alpha then v else Z.lor v 0xFF000000);
}.
End client.

(** ** Pixels *)

(** The pixels of a frame are 32-bit words; those of a layer that is not opaque, which is smaller than a
    cell, are invisible or fully visible. *)

Definition plain (l : guac_display_layer) (s : guac_display_layer_state) : Prop :=
  (∀ x y, inside s x y → 0 ≤ pixel s x y < 2 ^ 32 ∧
     (opaque l = false → pixel s x y = 0 ∨ alpha_of (pixel s x y) = 255)).

Definition small_state (s : guac_display_layer_state) : Prop := width s < 64 ∧ height s < 64.

Lemma alpha_shown v : alpha_of (Z.lor v 0xFF000000) = 255.
Proof.
  unfold alpha_of. rewrite Z.land_lor_distr_l. change (Z.land 0xFF000000 0xFF000000) with 0xFF000000.
  rewrite Z.shiftr_lor. apply Z.bits_inj'. intros n Hn. rewrite Z.lor_spec, Z.shiftr_spec, Z.land_spec by lia.
  change (Z.shiftr 0xFF000000 24) with 255. destruct (decide (n < 8)).
  - assert (Z.testbit 255 n = true) as ->; [|apply orb_true_r].
    change 255 with (Z.ones 8). by rewrite Z.ones_spec_low by lia.
  - assert (Z.testbit 0xFF000000 (n + 24) = false) as ->; [|by rewrite andb_false_r].
    apply Z.bits_above_log2; [lia|]. change (Z.log2 0xFF000000) with 31. lia.
Qed.

Lemma shown_word v : 0 ≤ v < 2 ^ 32 → 0 ≤ Z.lor v 0xFF000000 < 2 ^ 32.
Proof.
  intros Hv. split; [apply Z.lor_nonneg; lia|].
  destruct (decide (Z.lor v 0xFF000000 = 0)) as [->|Hz]; [lia|].
  apply Z.log2_lt_pow2; [assert (0 ≤ Z.lor v 0xFF000000) by (apply Z.lor_nonneg; lia); lia|].
  rewrite Z.log2_lor by lia. change (Z.log2 0xFF000000) with 31.
  destruct (decide (v = 0)) as [->|]; [done|].
  assert (Z.log2 v < 32) by (apply Z.log2_lt_pow2; lia). lia.
Qed.

