(* ===== verification/DisplayApplySpec.v ===== *)
(** * Applying a plan (specification of DisplayFlush.v, display-plan.c)

    Rectangles and copies are sent at once, in the order of the plan, and every pixel they cover is
    then the one of the pending frame. *)

From stdpp Require Import gmap.
From S2P Require Import Prelude RecordUpdate Mem Run Rect ProtocolTypes Display DisplayPlan DisplayFlush.
From S2P Require Import DisplayDraftSpec DisplayCreateSpec DisplayPassSpec DisplayCombineSpec DisplayScreen.
Local Open Scope Z_scope.

Local Abbreviation len l := (Z.of_nat (List.length l)).

Lemma dest_sized r :
  guac_rect_is_empty r = false → small_rect r →
  sized (left r) (top r) (guac_rect_width r) (guac_rect_height r) = r.
Proof.
  intros He Hs. apply is_empty_false in He. unfold small_rect in Hs.
  rewrite width_spec, height_spec by (unfold rect_ok; lia). unfold sized.
  destruct r as [a b c d]. cbn [left top right bottom] in *. f_equal; lia.
Qed.

(** Layers and buffers have names of their own. *)

Definition named_apart (ls : list guac_display_layer) : Prop :=
  NoDup ((layer_index <$> ls) ++ (last_frame_buffer <$> ls)).

Lemma index_not_buffer ls l from :
  named_apart ls → l ∈ ls → from ∈ ls → layer_index l ≠ last_frame_buffer from.
Proof.
  intros Hn Hl Hf E. apply list.NoDup_app in Hn as (_ & Hn & _). apply (Hn (layer_index l)).
  - by apply list_elem_of_fmap_2.
  - rewrite E. by apply list_elem_of_fmap_2.
Qed.

Lemma index_inj ls i j l l' :
  named_apart ls → ls !! i = Some l → ls !! j = Some l' → layer_index l = layer_index l' → i = j.
Proof.
  intros Hn Hl Hl' E. apply list.NoDup_app in Hn as (Hn & _).
  eapply NoDup_lookup; [exact Hn|by rewrite list_lookup_fmap, Hl|]. by rewrite list_lookup_fmap, Hl', E.
Qed.

(** A layer that is not opaque is smaller than a cell and has plain pixels. *)

Definition drawable (l : guac_display_layer) : Prop :=
  plain l (pending_frame l) ∧
  (opaque l = false → small_state (pending_frame l) ∧ small_state (last_frame l)).

Section applying.
Context (composite : guac_composite_mode → Z → Z → Z) (paint : Z → Z → Z → Z → Z)
  (decode : image_encoding → bool → list (list Z) → Z → Z → Z) (near : Z → Z → Prop)
  (Hlaws : client_laws composite paint decode near).

Local Abbreviation act_all := (act_all composite paint decode).

(** The pixel of the layer on the screen is the one of the pending frame. *)

Definition good (s : screen) (l : guac_display_layer) (x y : Z) : Prop :=
  near (points (s (layer_index l)) x y) (shown_color l (pixel (pending_frame l) x y)).

Record draws (l : guac_display_layer) (r : guac_rect) (s s' : screen) : Prop := {
  draws_only : ∀ j, j ≠ layer_index l → s' j = s j;
  draws_closed : closed (s' (layer_index l)) = true;
  draws_good : ∀ x y, in_rect x y r → good s' l x y;
  draws_within : ∀ x y, ¬ in_rect x y r →
    points (s' (layer_index l)) x y = points (s (layer_index l)) x y;
}.

Lemma rect_draws l dest c s :
  guac_rect_is_empty dest = false → small_rect dest → contains (bounds_of (pending_frame l)) dest →
  drawable l → closed (s (layer_index l)) = true →
  (∀ x y, in_rect x y dest → shown_color l (pixel (pending_frame l) x y) = c) →
  draws l dest s (act_all s (rect_instructions l dest c)).
Proof using Hlaws.
  intros He Hs Hb [Hplain _] Hc Hcol.
  assert (Hin : in_rect (left dest) (top dest) dest) by (apply is_empty_false in He; unfold in_rect; lia).
  assert (Hinside : inside (pending_frame l) (left dest) (top dest)).
  { pose proof (in_contains _ _ _ _ Hb Hin) as H. unfold in_rect, inside in *. exact H. }
  destruct (Hplain _ _ Hinside) as [Hword Hvis]. pose proof (Hcol _ _ Hin) as Hv.
  assert (Hpath : ∀ x y, existsb (inb x y) [sized (left dest) (top dest) (guac_rect_width dest)
    (guac_rect_height dest)] = inb x y dest).
  { intros x y. rewrite dest_sized by done. cbn. by rewrite orb_false_r. }
  assert (Hgood : ∀ s', (∀ x y, in_rect x y dest → points (s' (layer_index l)) x y = c) →
    ∀ x y, in_rect x y dest → good s' l x y).
  { intros s' Hs' x y Hxy. unfold good. rewrite Hs', Hcol by done. by apply (near_refl _ _ _ _ Hlaws). }
  unfold rect_instructions, shown_color in *. destruct (opaque l) eqn:Eo; cbn [app DisplayScreen.act_all foldl act].
  - pose proof (paint_opaque _ _ _ _ Hlaws c) as Hpaint.
    rewrite <-Hv in Hpaint at 1 2 3. specialize (Hpaint (shown_word _ Hword) (alpha_shown _)).
    change 0xFF with 255.
    split.
    + intros j Hj. by rewrite !on_other by done.
    + by rewrite on_same.
    + apply Hgood. intros x y Hxy. rewrite !on_same, Hc. cbn [points path]. rewrite Hpath.
      rewrite (proj2 (inb_true x y dest) Hxy), Hpaint. apply (over_opaque _ _ _ _ Hlaws).
      rewrite <-Hv. apply alpha_shown.
    + intros x y Hxy. rewrite !on_same, Hc. cbn [points path]. rewrite Hpath.
      by rewrite (proj2 (inb_false x y dest) Hxy).
  - assert (Hclear : ∀ w, composite GUAC_COMP_ROUT (paint 0 0 0 255) w = 0).
    { intros w. apply (rout_clears _ _ _ _ Hlaws).
      pose proof (paint_opaque _ _ _ _ Hlaws 0xFF000000 ltac:(lia) ltac:(done)) as E.
      change (red_of 0xFF000000) with 0 in E. change (green_of 0xFF000000) with 0 in E.
      change (blue_of 0xFF000000) with 0 in E. by rewrite E. }
    assert (Hpaint : composite GUAC_COMP_OVER (paint (red_of c) (green_of c) (blue_of c) (alpha_of c)) 0 = c).
    { rewrite (over_blank _ _ _ _ Hlaws). destruct (Hvis eq_refl) as [E|E].
      - rewrite <-Hv, E. apply (paint_nothing _ _ _ _ Hlaws).
      - rewrite Hv in E, Hword. rewrite E. by apply (paint_opaque _ _ _ _ Hlaws). }
    change 0xFF with 255. split.
    + intros j Hj. by rewrite !on_other by done.
    + by rewrite on_same.
    + apply Hgood. intros x y Hxy. rewrite !on_same, Hc. cbn [points path]. rewrite !Hpath.
      by rewrite (proj2 (inb_true x y dest) Hxy), Hclear, Hpaint.
    + intros x y Hxy. rewrite !on_same, Hc. cbn [points path]. rewrite !Hpath.
      by rewrite (proj2 (inb_false x y dest) Hxy).
Qed.

Context (ls : list guac_display_layer) (Hls : Forall layer_ok ls) (Hnames : named_apart ls)
  (Hdraw : Forall drawable ls).

(** The buffers hold the last frame. *)

Definition buffers_show (s : screen) : Prop :=
  ∀ from x y, from ∈ ls → inside (last_frame from) x y →
    near (points (s (last_frame_buffer from)) x y) (shown_color from (pixel (last_frame from) x y)).

Lemma grid_wide r b :
  on_grid r → guac_rect_is_empty r = false → contains b r → 64 ≤ right b - left b ∧ 64 ≤ bottom b - top b.
Proof.
  intros (Hl & Ht & Hr & Hb) He. apply is_empty_false in He. unfold contains.
  pose proof (grid_step _ _ Hl Hr). pose proof (grid_step _ _ Ht Hb). lia.
Qed.

Lemma copy_draws l op s :
  l ∈ ls → right_copy ls l op → guac_rect_is_empty (op_dest op) = false → small_rect (op_dest op) →
  contains (bounds_of (pending_frame l)) (op_dest op) →
  closed (s (layer_index l)) = true → buffers_show s →
  ∃ src layer, op_src op = Layer_rect src layer ∧
    draws l (op_dest op) s (act_all s [Copy layer (left src) (top src) (guac_rect_width src)
      (guac_rect_height src) GUAC_COMP_OVER (layer_index l) (left (op_dest op)) (top (op_dest op))]).
Proof using All.
  intros Hl (from & dx & dy & Hfrom & Hsrc & Hin & _ & Hpix & Hgrid & _) He Hs Hb Hc Hbuf.
  exists (shifted dx dy (op_dest op)), (last_frame_buffer from). split; [done|].
  pose proof (proj1 (list.Forall_forall _ _) Hls from Hfrom) as Hfok.
  destruct (ok_last _ Hfok) as [? ? ? _ _].
  pose proof (proj1 (list.Forall_forall _ _) Hdraw l Hl) as [_ Hlsmall].
  pose proof (proj1 (list.Forall_forall _ _) Hdraw from Hfrom) as [_ Hfsmall].
  destruct (grid_wide _ _ Hgrid He Hb) as [Hw _]. cbn [bounds_of left top right bottom] in Hw.
  assert (Hlo : opaque l = true).
  { destruct (opaque l); [done|]. destruct (Hlsmall eq_refl) as [[? _] _]. lia. }
  assert (Hfo : opaque from = true).
  { destruct (opaque from); [done|]. destruct (Hfsmall eq_refl) as [_ [? _]].
    pose proof (is_empty_false (op_dest op)) as [Hne _]. specialize (Hne He).
    destruct Hgrid as (Hg1 & _ & Hg3 & _). pose proof (grid_step _ _ Hg1 Hg3).
    unfold contains in Hin. cbn [bounds_of shifted left top right bottom] in Hin. lia. }
  assert (Hsize : sized (left (op_dest op)) (top (op_dest op)) (guac_rect_width (shifted dx dy (op_dest op)))
    (guac_rect_height (shifted dx dy (op_dest op))) = op_dest op).
  { apply is_empty_false in He. unfold contains in Hin. unfold small_rect in Hs.
    cbn [bounds_of shifted left top right bottom] in Hin.
    rewrite width_spec, height_spec by (unfold rect_ok; cbn [shifted left top right bottom]; lia).
    unfold sized. cbn [shifted left top right bottom]. destruct (op_dest op) as [a b c d].
    cbn [left top right bottom] in *. f_equal; lia. }
  cbn [DisplayScreen.act_all foldl act]. rewrite Hsize.
  split.
  - intros j Hj. by rewrite on_other by done.
  - rewrite on_same. done.
  - intros x y Hxy. unfold good. rewrite on_same. cbn [repaint points].
    rewrite (proj2 (inb_true _ _ _) Hxy). cbn [shifted left top].
    replace (left (op_dest op) + dx + (x - left (op_dest op))) with (x + dx) by lia.
    replace (top (op_dest op) + dy + (y - top (op_dest op))) with (y + dy) by lia.
    assert (Hsrcin : inside (last_frame from) (x + dx) (y + dy)).
    { unfold contains in Hin. unfold in_rect in Hxy. unfold inside.
      cbn [bounds_of shifted left top right bottom] in Hin. lia. }
    pose proof (Hbuf from _ _ Hfrom Hsrcin) as Hnear. unfold shown_color in *. rewrite Hlo. rewrite Hfo in Hnear.
    rewrite <-(Hpix x y Hxy) in Hnear.
    rewrite (over_opaque _ _ _ _ Hlaws); [done|].
    apply (near_opaque _ _ _ _ Hlaws _ _ Hnear). apply alpha_shown.
  - intros x y Hxy. rewrite on_same. cbn [repaint points]. by rewrite (proj2 (inb_false _ _ _) Hxy).
Qed.

(** ** The whole plan *)

(** [ls'] are the layers once the frame is complete. *)

Definition same_layer (l l' : guac_display_layer) : Prop :=
  layer_index l' = layer_index l ∧ opaque l' = opaque l.

Context (ls' : list guac_display_layer) (Hsame : Forall2 same_layer ls ls').

Definition at_once (op : guac_display_plan_operation) : Prop :=
  op_type op = GUAC_DISPLAY_PLAN_OPERATION_RECT ∨ op_type op = GUAC_DISPLAY_PLAN_OPERATION_COPY.

Definition is_img (op : guac_display_plan_operation) : bool :=
  bool_decide (op_type op = GUAC_DISPLAY_PLAN_OPERATION_IMG).

Lemma apply_op_ok op l :
  right_op ls op → ls !! op_layer op = Some l →
  ∃ sent, apply_op ls' op = Run (sent, is_img op) ∧
    (¬ at_once op → sent = []) ∧
    ∀ s, closed (s (layer_index l)) = true → buffers_show s → at_once op →
      draws l (op_dest op) s (act_all s sent).
Proof using All.
  intros Hop Hl. destruct (right_op_small ls Hls op Hop) as [He Hs].
  destruct Hop as (l0 & Hl0 & _ & Hb & _ & Hr). assert (l0 = l) as -> by congruence. clear Hl0.
  assert (Hin : l ∈ ls) by (by eapply list_elem_of_lookup_2).
  destruct (Forall2_lookup_l _ _ _ _ _ Hsame Hl) as (l' & Hl' & Hidx & Hopq).
  unfold apply_op. rewrite Hl'. cbn [deref]. rewrite run_bind_run. unfold right_as in Hr. unfold is_img, at_once.
  destruct (op_type op).
  - exists []. split_and!; [done..|]. intros s _ _ [?|?]; done.
  - destruct Hr as (from & dx & dy & Hfrom & Hsrc & Hrest). rewrite Hsrc. eexists. split; [done|].
    split; [by intros []; right|]. intros s Hc Hbuf _.
    destruct (copy_draws l op s Hin ltac:(by exists from, dx, dy) He Hs Hb Hc Hbuf) as (src & layer & E & Hd).
    rewrite Hsrc in E. injection E as <- <-. by rewrite Hidx.
  - destruct Hr as (c & -> & Hcol). eexists. split; [done|]. split; [by intros []; left|].
    intros s Hc _ _. unfold rect_instructions. rewrite Hidx, Hopq. apply rect_draws; try done.
    by apply (proj1 (list.Forall_forall _ _) Hdraw l).
  - exists []. split_and!; [done..|]. intros s _ _ [?|?]; done.
Qed.

(** What has been drawn since [s]: a pixel of a layer is the one of the pending frame or as it was, and
    those of [done] are the former. *)

Record progress (drawn : nat → Z → Z → Prop) (s s' : screen) : Prop := {
  progress_others : ∀ j, j ∉ layer_index <$> ls → s' j = s j;
  progress_closed : ∀ j, closed (s' j) = true;
  progress_pixels : ∀ k l x y, ls !! k = Some l →
    good s' l x y ∨ points (s' (layer_index l)) x y = points (s (layer_index l)) x y;
  progress_drawn : ∀ k l x y, ls !! k = Some l → drawn k x y → good s' l x y;
}.

Lemma progress_buffers d s s' : progress d s s' → buffers_show s → buffers_show s'.
Proof using Hnames.
  intros [Ho _ _ _] Hb from x y Hfrom Hin. rewrite Ho; [by apply Hb|].
  intros (l & E & Hl)%list_elem_of_fmap. symmetry in E. by apply (index_not_buffer ls l from) in E.
Qed.

Lemma progress_draws d s s' s'' k l r :
  progress d s s' → ls !! k = Some l → draws l r s' s'' →
  progress (λ k' x y, d k' x y ∨ (k' = k ∧ in_rect x y r)) s s''.
Proof using Hnames.
  intros [Ho Hc Hp Hd] Hl [Honly Hcl Hg Hw].
  assert (Hkeep : ∀ k' l' x y, ls !! k' = Some l' → ¬ (k' = k ∧ in_rect x y r) →
    points (s'' (layer_index l')) x y = points (s' (layer_index l')) x y).
  { intros k' l' x y Hl' Hn. destruct (decide (layer_index l' = layer_index l)) as [E|E].
    - pose proof (index_inj ls _ _ _ _ Hnames Hl' Hl E) as ->. simplify_eq. apply Hw. by intros ?; apply Hn.
    - by rewrite Honly. }
  assert (Hgood : ∀ k' l' x y, ls !! k' = Some l' → good s' l' x y → good s'' l' x y).
  { intros k' l' x y Hl' Hgd. destruct (decide (k' = k)) as [->|]; [destruct (inb x y r) eqn:E|].
    - simplify_eq. apply Hg. by apply inb_true.
    - unfold good. rewrite (Hkeep k l' x y); [done..|]. apply inb_false in E. by intros [_ ?].
    - unfold good. rewrite (Hkeep k' l' x y); [done..|]. by intros [? _]. }
  split.
  - intros j Hj. rewrite Honly; [by apply Ho|]. intros ->. apply Hj. apply list_elem_of_fmap_2.
    by eapply list_elem_of_lookup_2.
  - intros j. destruct (decide (j = layer_index l)) as [->|]; [done|]. by rewrite Honly.
  - intros k' l' x y Hl'. destruct (decide (k' = k)) as [->|]; [destruct (inb x y r) eqn:E|].
    + simplify_eq. left. apply Hg. by apply inb_true.
    + apply inb_false in E. rewrite (Hkeep k l' x y) by (done || by intros [_ ?]).
      destruct (Hp k l' x y Hl'); [left; by eapply Hgood|by right].
    + rewrite (Hkeep k' l' x y) by (done || by intros [? _]).
      destruct (Hp k' l' x y Hl'); [left; by eapply Hgood|by right].
  - intros k' l' x y Hl' [H|[-> H]]; [by eapply Hgood, Hd|]. simplify_eq. by apply Hg.
Qed.

Lemma drawing_weaken (d d' : nat → Z → Z → Prop) s s' :
  progress d s s' → (∀ k x y, d' k x y → d k x y) → progress d' s s'.
Proof. intros [? ? ? Hd] H. split; [done..|]. intros k l x y Hl Hk. by eapply Hd, H. Qed.

Lemma apply_ok ops :
  Forall (right_op ls) ops →
  ∃ sent, guac_display_plan_apply ls' ops = Run (sent, List.filter is_img ops) ∧
    ∀ d s0 s, buffers_show s0 → progress d s0 s →
      progress (λ k x y, d k x y ∨ ∃ op, op ∈ ops ∧ at_once op ∧ op_layer op = k ∧ in_rect x y (op_dest op))
        s0 (act_all s sent).
Proof using All.
  induction ops as [|op ops IH]; intros Hops.
  { exists []. split; [done|]. intros d s0 s _ Hp. eapply drawing_weaken; [exact Hp|].
    intros k x y [?|(op & Hop & _)]; [done|]. by apply elem_of_nil in Hop. }
  apply Forall_cons_1 in Hops as [Hop Hops]. pose proof Hop as (l & Hl & _).
  destruct (apply_op_ok op l Hop Hl) as (sent & E & Hnone & Hdraws).
  destruct (IH Hops) as (rest & E' & Hrest).
  cbn [guac_display_plan_apply]. rewrite E, run_bind_run, E', run_bind_run.
  exists (sent ++ rest). split; [cbn [List.filter]; by destruct (is_img op)|].
  intros d s0 s Hb Hp. rewrite act_all_app.
  assert (Hstep : progress (λ k x y, d k x y ∨ (at_once op ∧ k = op_layer op ∧ in_rect x y (op_dest op)))
    s0 (act_all s sent)).
  { destruct (decide (op_type op = GUAC_DISPLAY_PLAN_OPERATION_RECT ∨
      op_type op = GUAC_DISPLAY_PLAN_OPERATION_COPY)) as [Ha|Ha].
    - eapply drawing_weaken; [eapply progress_draws; [exact Hp|exact Hl|]|].
      + apply Hdraws; [apply Hp|by eapply progress_buffers|done].
      + intros k x y [?|(_ & ? & ?)]; [by left|by right].
    - rewrite (Hnone Ha). eapply drawing_weaken; [exact Hp|]. by intros k x y [?|[? _]]. }
  eapply drawing_weaken; [apply (Hrest _ s0 _ Hb Hstep)|].
  intros k x y [?|(o & Ho & Ha & <- & Hin)]; [by left; left|].
  apply elem_of_cons in Ho as [->|Ho]; [by left; right|]. right. by exists o.
Qed.
End applying.
