(* ===== verification/DisplayWorkerSpec.v ===== *)
(** * Sending the images (specification of DisplayFlush.v, display-worker.c)

    A worker sends the pixels of the last frame, whatever encoding it chooses.  The workers may
    interleave: once all are done, every image is on the screen. *)

From stdpp Require Import gmap.
From S2P Require Import Prelude RecordUpdate Mem Run Rect ProtocolTypes Display DisplayPlan DisplayFlush.
From S2P Require Import DisplayDraftSpec DisplayCreateSpec DisplayRectSpec DisplayPassSpec DisplayCombineSpec.
From S2P Require Import DisplayScreen DisplayApplySpec.
Local Open Scope Z_scope.

Local Abbreviation len l := (Z.of_nat (List.length l)).

(** ** Reading a rectangle *)

Lemma read_words_ok n b p f :
  holds b p (Z.of_nat n) f →
  ∃ row, read_words n b p = Run row ∧ length row = n ∧
    ∀ k, 0 ≤ k < Z.of_nat n → row !! Z.to_nat k = Some (f k).
Proof.
  revert p f. induction n as [|n IH]; intros p f Hf; cbn [read_words].
  { exists []. split_and!; [done..|lia]. }
  pose proof (Hf 0 ltac:(lia)) as H0. rewrite Z.mul_0_r, Z.add_0_r in H0. rewrite H0, run_bind_run.
  destruct (IH (p + 4) (λ k, f (1 + k))) as (row & -> & Hlen & Hrow).
  { eapply holds_sub; [exact Hf|lia..]. }
  rewrite run_bind_run. exists (f 0 :: row). split; [done|]. split; [cbn; lia|].
  intros k Hk. destruct (decide (k = 0)) as [->|]; [done|].
  replace (Z.to_nat k) with (S (Z.to_nat (k - 1))) by lia. cbn [lookup list_lookup].
  rewrite Hrow by lia. do 2 f_equal. lia.
Qed.

Section images.
Context (s : guac_display_layer_state) (b : list Z) (Hs : state_ok s) (Hb : buffer s = Some b).

Lemma read_rows_ok n w x y :
  0 ≤ x → x + Z.of_nat w ≤ buffer_width s → 0 ≤ y → y + Z.of_nat n ≤ buffer_height s →
  ∃ rows, read_rows n w b (address s x y) (buffer_stride s) = Run rows ∧ length rows = n ∧
    ∀ j, 0 ≤ j < Z.of_nat n → ∃ row, rows !! Z.to_nat j = Some row ∧ length row = w ∧
      ∀ i, 0 ≤ i < Z.of_nat w → row !! Z.to_nat i = Some (pixel s (x + i) (y + j)).
Proof using Hs Hb.
  intros Hx Hxw. revert y. induction n as [|n IH]; intros y Hy Hyn; cbn [read_rows].
  { exists []. split_and!; [done..|lia]. }
  destruct (read_words_ok w b (address s x y) (λ k, pixel s (x + k) y)) as (row & -> & Hlen & Hrow).
  { apply holds_row; (done || lia). }
  rewrite run_bind_run. replace (address s x y + buffer_stride s) with (address s x (y + 1)) by (unfold address; lia).
  destruct (IH (y + 1)) as (rows & -> & Hlens & Hrows); [lia..|].
  rewrite run_bind_run. exists (row :: rows). split; [done|]. split; [cbn; lia|].
  intros j Hj. destruct (decide (j = 0)) as [->|].
  - exists row. split_and!; [done..|]. intros i Hi. rewrite Z.add_0_r. by apply Hrow.
  - replace (Z.to_nat j) with (S (Z.to_nat (j - 1))) by lia. cbn [lookup list_lookup].
    destruct (Hrows (j - 1)) as (row' & E & Hl & Hr); [lia|]. exists row'. split_and!; [done..|].
    intros i Hi. rewrite Hr by done. do 2 f_equal. lia.
Qed.
End images.

(** The rows of the rectangle [r] of a frame. *)

Definition rows_of (s : guac_display_layer_state) (r : guac_rect) (rows : list (list Z)) : Prop :=
  len rows = bottom r - top r ∧
  ∀ j, 0 ≤ j < bottom r - top r → ∃ row, rows !! Z.to_nat j = Some row ∧ len row = right r - left r ∧
    ∀ i, 0 ≤ i < right r - left r → row !! Z.to_nat i = Some (pixel s (left r + i) (top r + j)).

Section worker.
Context (l : guac_display_layer) (r : guac_rect) (Hl : state_ok (last_frame l))
  (He : guac_rect_is_empty r = false) (Hr : contains (bounds_of (last_frame l)) r).

Lemma worker_bounds :
  0 ≤ left r < right r ∧ 0 ≤ top r < bottom r ∧ right r ≤ width (last_frame l) ∧
  bottom r ≤ height (last_frame l) ∧ width (last_frame l) ≤ buffer_width (last_frame l) ≤ 8192 ∧
  height (last_frame l) ≤ buffer_height (last_frame l) ≤ 8192.
Proof using All.
  destruct Hl as [? ? ? _ _]. apply is_empty_false in He. unfold contains in Hr.
  cbn [bounds_of left top right bottom] in Hr. lia.
Qed.

Lemma cairo_rect_ok :
  ∃ rows, LFR_guac_display_layer_cairo_rect l r = Run rows ∧ rows_of (last_frame l) r rows.
Proof using All.
  pose proof worker_bounds as Hbd. destruct (ok_buffer _ Hl) as (b & Hb & _).
  unfold LFR_guac_display_layer_cairo_rect. rewrite rect_address, run_bind_run by (done || lia).
  rewrite Hb. cbn [deref]. rewrite run_bind_run.
  rewrite width_spec, height_spec, !Z.max_r by (unfold rect_ok; lia).
  destruct (read_rows_ok (last_frame l) b Hl Hb (Z.to_nat (bottom r - top r)) (Z.to_nat (right r - left r))
    (left r) (top r)) as (rows & -> & Hlen & Hrows); [lia..|].
  exists rows. split; [done|]. split; [lia|]. intros j Hj.
  destruct (Hrows j) as (row & Hrow & Hlr & Hpix); [lia|]. exists row. split_and!; [done|lia|].
  intros i Hi. apply Hpix. lia.
Qed.

Lemma png_optimality_ok : ∃ n, LFR_guac_display_layer_png_optimality l r = Run n.
Proof using All.
  pose proof worker_bounds as Hbd. destruct (ok_buffer _ Hl) as (b & Hb & _).
  unfold LFR_guac_display_layer_png_optimality. rewrite rect_address, run_bind_run by (done || lia).
  destruct (_ || _); [by eexists|]. rewrite Hb. cbn [deref]. rewrite run_bind_run.
  match goal with |- context [for_range _ _ ?body (0, 1)] =>
    destruct (for_range_inv_max (λ _ _, True) (top r) (bottom r - 1) body (0, 1))
      as ([same different] & -> & _); [done| |]
  end.
  - intros y [same different] Hy _. cbn zeta.
    replace (address (last_frame l) (left r) (top r) + (y - top r) * buffer_stride (last_frame l))
      with (address (last_frame l) (left r) y) by (unfold address; lia).
    rewrite (read_pixel _ b), run_bind_run by (done || lia).
    destruct (for_range_inv_max (λ _ _, True) (left r + 1) (right r - 1)
      (λ x, count_pixel b (address (last_frame l) (left r) y) (x - left r))
      (Z.lor (pixel (last_frame l) (left r) y) 0xFF000000, (same, different).1, (same, different).2))
      as ([[? ?] ?] & -> & _); [done| |rewrite run_bind_run; by eexists].
    intros x [[last ?] ?] Hx _. unfold count_pixel.
    replace (address (last_frame l) (left r) y + 4 * (x - left r)) with (address (last_frame l) x y)
      by (unfold address; lia).
    rewrite (read_pixel _ b), run_bind_run by (done || lia). by eexists.
  - rewrite run_bind_run. by eexists.
Qed.

Lemma encoding_ok webp lag framerate : ∃ e, encoding_of webp lag l r framerate = Run e.
Proof using All.
  destruct png_optimality_ok as [n Hn].
  assert (Hw : ∃ w, LFR_guac_display_layer_should_use_webp webp l r framerate = Run w).
  { unfold LFR_guac_display_layer_should_use_webp. repeat case_match; try by eexists. rewrite Hn. by eexists. }
  assert (Hj : ∃ j, LFR_guac_display_layer_should_use_jpeg l r framerate = Run j).
  { unfold LFR_guac_display_layer_should_use_jpeg. repeat case_match; try by eexists. rewrite Hn. by eexists. }
  destruct Hw as [w Hw], Hj as [j Hj]. unfold encoding_of. rewrite Hw, run_bind_run.
  destruct w; [by eexists|]. destruct (opaque l); [rewrite Hj|]; rewrite run_bind_run; by eexists.
Qed.
End worker.

(** What a worker sends for an image. *)

Definition image_of (l : guac_display_layer) (r : guac_rect) (e : image_encoding) (rows : list (list Z))
    : list instruction :=
  guac_display_layer_clear_non_opaque l r ++
    [Image e (negb (opaque l)) GUAC_COMP_OVER (layer_index l) (left r) (top r) rows].

Lemma worker_op_ok webp lag ls op l :
  op_type op = GUAC_DISPLAY_PLAN_OPERATION_IMG → ls !! op_layer op = Some l →
  state_ok (last_frame l) → guac_rect_is_empty (op_dest op) = false →
  contains (bounds_of (last_frame l)) (op_dest op) →
  ∃ e rows, worker_op webp lag ls op = Run (image_of l (op_dest op) e rows) ∧
    rows_of (last_frame l) (op_dest op) rows.
Proof.
  intros Ht Hl Hs He Hb. destruct (cairo_rect_ok l (op_dest op) Hs He Hb) as (rows & Hrows & Hof).
  unfold worker_op. rewrite Ht, Hl. cbn [deref]. rewrite run_bind_run, Hrows, run_bind_run.
  destruct (encoding_ok l (op_dest op) Hs He Hb webp lag
    (if op_last_frame op <? op_current_frame op
     then i32 (Z.quot 1000 (op_current_frame op - op_last_frame op)) else INT_MAX)) as [e ->].
  rewrite run_bind_run. by exists e, rows.
Qed.
