(* ===== verification/DisplayInterleaveSpec.v ===== *)
(** * Workers that interleave (specification of DisplayFlush.v, display-worker.c)

    The workers share the lock of the last frame, so what they send may interleave in any way.
    Images of one layer may be sent in any order; on a layer that is not opaque, where a rectangle is
    cleared first, there is one image at most. *)

From stdpp Require Import gmap.
From S2P Require Import Prelude RecordUpdate Mem Run Rect ProtocolTypes Display DisplayPlan DisplayFlush.
From S2P Require Import DisplayDraftSpec DisplayCreateSpec DisplayPassSpec DisplayCombineSpec.
From S2P Require Import DisplayScreen DisplayApplySpec DisplayWorkerSpec.
Local Open Scope Z_scope.

Local Abbreviation len l := (Z.of_nat (List.length l)).

(** A sequence that holds all elements of the lists, those of each list in order. *)

Inductive interleaving {A} : list (list A) → list A → Prop :=
| interleaving_done rem : Forall (λ r, r = []) rem → interleaving rem []
| interleaving_step rem i x rest tr :
    rem !! i = Some (x :: rest) → interleaving (<[i := rest]> rem) tr → interleaving rem (x :: tr).

Section interleave.
Context (composite : guac_composite_mode → Z → Z → Z) (paint : Z → Z → Z → Z → Z)
  (decode : image_encoding → bool → list (list Z) → Z → Z → Z) (near : Z → Z → Prop)
  (Hlaws : client_laws composite paint decode near).

Local Abbreviation act_all := (act_all composite paint decode).
Local Abbreviation act := (act composite paint decode).
Local Abbreviation good := (good near).

Lemma rout_black w : composite GUAC_COMP_ROUT (paint 0 0 0 0xFF) w = 0.
Proof using Hlaws.
  apply (rout_clears _ _ _ _ Hlaws).
  pose proof (paint_opaque _ _ _ _ Hlaws 0xFF000000 ltac:(lia) ltac:(done)) as E.
  change (red_of 0xFF000000) with 0 in E. change (green_of 0xFF000000) with 0 in E.
  change (blue_of 0xFF000000) with 0 in E. change 0xFF with 255. by rewrite E.
Qed.

(** ** One image *)

Section image.
Context (l : guac_display_layer) (dest : guac_rect) (e : image_encoding) (rows : list (list Z)).
Context (He : guac_rect_is_empty dest = false) (Hsmall : small_rect dest)
  (Hrows : rows_of (pending_frame l) dest rows).

Definition img : instruction :=
  Image e (negb (opaque l)) GUAC_COMP_OVER (layer_index l) (left dest) (top dest) rows.

Definition fill : instruction := Cfill GUAC_COMP_ROUT (layer_index l) 0 0 0 0xFF.

Lemma rows_sized : sized (left dest) (top dest) (row_width rows) (len rows) = dest.
Proof using All.
  destruct Hrows as [Hlen Hrow]. apply is_empty_false in He.
  destruct (Hrow 0 ltac:(lia)) as (row & Hr & Hw & _). unfold sized. rewrite Hlen.
  destruct rows as [|row0 rest]; [done|]. injection Hr as ->. cbn [row_width]. rewrite Hw.
  destruct dest as [a b c d]. cbn [left top right bottom]. f_equal; lia.
Qed.

Lemma img_only s j : j ≠ layer_index l → act s img j = s j.
Proof. intros. cbn [DisplayScreen.act img]. by rewrite on_other. Qed.

Lemma img_keeps s : path (act s img (layer_index l)) = path (s (layer_index l)) ∧
  closed (act s img (layer_index l)) = closed (s (layer_index l)).
Proof. cbn [DisplayScreen.act img]. by rewrite on_same. Qed.

Lemma img_outside s x y : ¬ in_rect x y dest →
  points (act s img (layer_index l)) x y = points (s (layer_index l)) x y.
Proof using All.
  intros Hn. cbn [DisplayScreen.act img]. rewrite on_same. cbn [repaint points]. rewrite rows_sized.
  by rewrite (proj2 (inb_false _ _ _) Hn).
Qed.

Lemma img_good s x y :
  in_rect x y dest → opaque l = true ∨ points (s (layer_index l)) x y = 0 → good (act s img) l x y.
Proof using All.
  intros Hin Hc. unfold DisplayApplySpec.good. cbn [DisplayScreen.act img]. rewrite on_same. cbn [repaint points].
  rewrite rows_sized, (proj2 (inb_true _ _ _) Hin). destruct Hrows as [_ Hrow]. unfold in_rect in Hin.
  destruct (Hrow (y - top dest) ltac:(lia)) as (row & Hr & _ & Hpix).
  specialize (Hpix (x - left dest) ltac:(lia)).
  replace (left dest + (x - left dest)) with x in Hpix by lia.
  replace (top dest + (y - top dest)) with y in Hpix by lia.
  pose proof (decode_near _ _ _ _ Hlaws e (negb (opaque l)) rows (x - left dest) (y - top dest) row _
    Hr Hpix ltac:(lia) ltac:(lia)) as Hnear.
  unfold shown_color. destruct (opaque l); cbn [negb] in Hnear.
  - rewrite (over_opaque _ _ _ _ Hlaws); [done|].
    apply (near_opaque _ _ _ _ Hlaws _ _ Hnear), alpha_shown.
  - destruct Hc as [? | ->]; [done|]. by rewrite (over_blank _ _ _ _ Hlaws).
Qed.

(** How far the worker is: [r] is left to be sent. *)

Inductive status (s : screen) : list instruction → Prop :=
| status_waiting : closed (s (layer_index l)) = true → status s (image_of l dest e rows)
| status_clearing : opaque l = false → closed (s (layer_index l)) = false →
    path (s (layer_index l)) = [dest] → status s [fill; img]
| status_cleared : opaque l = false → closed (s (layer_index l)) = true →
    (∀ x y, in_rect x y dest → points (s (layer_index l)) x y = 0) → status s [img]
| status_sent : closed (s (layer_index l)) = true → (∀ x y, in_rect x y dest → good s l x y) → status s [].

Lemma status_ext s s' r : s' (layer_index l) = s (layer_index l) → status s r → status s' r.
Proof.
  intros E H. destruct H as [?|? ? ?|? ? ?|? Hg]; constructor; rewrite ?E; try done.
  intros x y Hxy. unfold DisplayApplySpec.good. rewrite E. by apply Hg.
Qed.

Lemma status_step s i rest : status s (i :: rest) →
  status (act s i) rest ∧ (∀ j, j ≠ layer_index l → act s i j = s j) ∧
  (∀ x y, ¬ in_rect x y dest → points (act s i (layer_index l)) x y = points (s (layer_index l)) x y) ∧
  (opaque l = true → i = img).
Proof using All.
  intros H. inversion H as [Hc E|Ho Hc Hp E|Ho Hc H0 E|]; subst.
  - unfold image_of, guac_display_layer_clear_non_opaque in E. destruct (opaque l) eqn:Eo; cbn [app] in E; simplify_eq.
    + fold img. replace (Image e (negb true) GUAC_COMP_OVER (layer_index l) (left dest) (top dest) rows) with img
        by (unfold img; by rewrite Eo).
      split_and!; [|intros; by apply img_only|intros; by apply img_outside|done].
      constructor; [by rewrite (proj2 (img_keeps s))|]. intros x y Hxy. apply img_good; auto.
    + split_and!; [| | |done].
      * replace (Image e (negb false) GUAC_COMP_OVER (layer_index l) (left dest) (top dest) rows) with img
          by (unfold img; by rewrite Eo).
        constructor; [done| |]; cbn [DisplayScreen.act]; rewrite on_same; cbn [closed path]; [done|].
        by rewrite Hc, dest_sized.
      * intros j Hj. cbn [DisplayScreen.act]. by rewrite on_other.
      * intros x y _. cbn [DisplayScreen.act]. by rewrite on_same.
  - split_and!; [| | |by rewrite Ho].
    + constructor; [done| |]; cbn [DisplayScreen.act fill]; rewrite on_same; cbn [closed points]; [done|].
      intros x y Hxy. rewrite Hp. cbn [existsb]. rewrite (proj2 (inb_true _ _ _) Hxy). cbn [orb]. apply rout_black.
    + intros j Hj. cbn [DisplayScreen.act fill]. by rewrite on_other.
    + intros x y Hxy. cbn [DisplayScreen.act fill]. rewrite on_same, Hp. cbn [existsb points].
      by rewrite (proj2 (inb_false _ _ _) Hxy).
  - split_and!; [|intros; by apply img_only|intros; by apply img_outside|by rewrite Ho].
    constructor; [by rewrite (proj2 (img_keeps s))|]. intros x y Hxy. apply img_good; auto.
Qed.


(** On an opaque layer other images only add to what is right. *)

Lemma status_mono s s' r :
  opaque l = true → status s r → closed (s' (layer_index l)) = closed (s (layer_index l)) →
  (∀ x y, good s l x y → good s' l x y) → status s' r.
Proof using All.
  intros Ho H Hc Hg. destruct H as [?|? ? ?|? ? ?|? ?]; [|congruence..|]; constructor; rewrite ?Hc; auto.
Qed.
End image.

(** ** All workers *)

Context (ls : list guac_display_layer) (Hls : Forall layer_ok ls) (Hnames : named_apart ls).
Context (queue : list guac_display_plan_operation) (Hqueue : Forall (right_op ls) queue)
  (Hsingle : ∀ i j a b l, queue !! i = Some a → queue !! j = Some b → op_layer a = op_layer b →
     ls !! op_layer a = Some l → opaque l = false → i = j).

(** The worker with the operation [op] has [r] left to send. *)

Definition doing (s : screen) (op : guac_display_plan_operation) (r : list instruction) : Prop :=
  ∃ l e rows, ls !! op_layer op = Some l ∧ rows_of (pending_frame l) (op_dest op) rows ∧
    status l (op_dest op) e rows s r.

Record working (s0 s : screen) (rem : list (list instruction)) : Prop := {
  working_status : Forall2 (doing s) queue rem;
  working_others : ∀ j, (∀ op l, op ∈ queue → ls !! op_layer op = Some l → layer_index l ≠ j) → s j = s0 j;
  working_pixels : ∀ k l x y, ls !! k = Some l →
    good s l x y ∨ points (s (layer_index l)) x y = points (s0 (layer_index l)) x y ∨
    ∃ i op r, queue !! i = Some op ∧ rem !! i = Some r ∧ r ≠ [] ∧ op_layer op = k ∧ in_rect x y (op_dest op);
}.

Lemma working_step s0 s rem i x rest :
  working s0 s rem → rem !! i = Some (x :: rest) → working s0 (act s x) (<[i := rest]> rem).
Proof using All.
  intros [Hst Hoth Hpix] Hi.
  destruct (Forall2_lookup_r _ _ _ _ _ Hst Hi) as (op & Hop & l & e & rows & Hl & Hrows & Hstat).
  destruct (right_op_small ls Hls op (Forall_lookup_1 _ _ _ _ Hqueue Hop)) as [He Hsmall].
  destruct (status_step l _ e rows He Hsmall Hrows _ _ _ Hstat) as (Hnext & Honly & Hout & Himg).
  pose proof (lookup_lt_Some _ _ _ Hi) as Hlt.
  assert (Hmono : opaque l = true → ∀ u v, good s l u v → good (act s x) l u v).
  { intros Ho u v Hg. destruct (inb u v (op_dest op)) eqn:E.
    - rewrite (Himg Ho). apply img_good; try done; [by apply inb_true|by left].
    - unfold DisplayApplySpec.good. rewrite Hout; [done|by apply inb_false]. }
  split.
  - apply Forall2_same_length_lookup_2; [rewrite length_insert; by eapply Forall2_length|].
    intros j op' r Hop' Hr. destruct (decide (j = i)) as [->|Hj].
    { rewrite list_lookup_insert_eq in Hr by done. simplify_eq. by exists l, e, rows. }
    rewrite list_lookup_insert_ne in Hr by done.
    destruct (Forall2_lookup_lr _ _ _ _ _ _ Hst Hop' Hr) as (l' & e' & rows' & Hl' & Hrows' & Hstat').
    exists l', e', rows'. split_and!; [done..|].
    destruct (right_op_small ls Hls op' (Forall_lookup_1 _ _ _ _ Hqueue Hop')) as [He' Hsmall'].
    destruct (decide (layer_index l' = layer_index l)) as [E|E].
    + pose proof (index_inj ls _ _ _ _ Hnames Hl' Hl E) as El. rewrite El, Hl in Hl'. simplify_eq.
      destruct (opaque l') eqn:Ho; [|destruct Hj; apply (Hsingle j i op' op l'); congruence].
      eapply status_mono; try done; [|by apply Hmono].
      rewrite (Himg eq_refl). by apply img_keeps.
    + eapply status_ext; [..|exact Hstat']; try done. by apply Honly.
  - intros j Hj. rewrite Honly; [by apply Hoth|]. intros ->.
    eapply (Hj op l); [by eapply list_elem_of_lookup_2|done..].
  - intros k l' u v Hl'. destruct (decide (k = op_layer op ∧ in_rect u v (op_dest op))) as [[-> Hin]|Hn].
    + simplify_eq. destruct rest as [|y rest].
      * left. inversion Hnext as [? E| | |? Hg].
        -- unfold image_of in E. by destruct (guac_display_layer_clear_non_opaque l (op_dest op)).
        -- by apply Hg.
      * right; right. exists i, op, (y :: rest). rewrite list_lookup_insert_eq by done. done.
    + assert (Hkeep : points (act s x (layer_index l')) u v = points (s (layer_index l')) u v).
      { destruct (decide (layer_index l' = layer_index l)) as [E|E]; [|by rewrite Honly].
        pose proof (index_inj ls _ _ _ _ Hnames Hl' Hl E) as ->. simplify_eq. apply Hout.
        by intros ?; apply Hn. }
      unfold DisplayApplySpec.good. rewrite !Hkeep.
      destruct (Hpix k l' u v Hl') as [?|[?|(i' & op' & r & Hop' & Hr & Hne & Hk & Hin)]]; [by left|by right; left|].
      right; right. exists i', op', r. split_and!; try done.
      rewrite list_lookup_insert_ne; [done|]. intros <-. simplify_eq. by apply Hn.
Qed.

Lemma working_all s0 s rem tr :
  working s0 s rem → interleaving rem tr →
  ∃ done, working s0 (act_all s tr) done ∧ Forall (λ r, r = []) done.
Proof using All.
  intros Hw H. revert s Hw. induction H as [rem Hdone|rem i x rest tr Hi _ IH]; intros s Hw.
  - by exists rem.
  - cbn [DisplayScreen.act_all foldl]. apply IH. by eapply working_step.
Qed.

(** Whatever the order, all images are drawn. *)

Definition sends (op : guac_display_plan_operation) (c : list instruction) : Prop :=
  ∃ l e rows, ls !! op_layer op = Some l ∧ c = image_of l (op_dest op) e rows ∧
    rows_of (pending_frame l) (op_dest op) rows.

Lemma workers_ok s chunks tr :
  Forall2 sends queue chunks → interleaving chunks tr → (∀ j, closed (s j) = true) →
  progress near ls (λ k x y, ∃ op, op ∈ queue ∧ op_layer op = k ∧ in_rect x y (op_dest op)) s (act_all s tr).
Proof using All.
  intros Hch Htr Hc. destruct (working_all s s chunks tr) as (fin & [Hst Hoth Hpix] & Hfin); [|done|].
  { split; [|done|by right; left].
    eapply Forall2_impl; [|exact Hch]. intros op c (l & e & rows & Hl & -> & Hrows).
    exists l, e, rows. split_and!; [done..|]. by constructor. }
  assert (Hsent : ∀ op l, op ∈ queue → ls !! op_layer op = Some l →
    closed (act_all s tr (layer_index l)) = true ∧
    ∀ x y, in_rect x y (op_dest op) → good (act_all s tr) l x y).
  { intros op l Hop Hl. apply list_elem_of_lookup in Hop as [i Hi].
    destruct (Forall2_lookup_l _ _ _ _ _ Hst Hi) as (r & Hr & l' & e & rows & Hl' & _ & Hstat).
    rewrite (Forall_lookup_1 _ _ _ _ Hfin Hr) in Hstat. rewrite Hl in Hl'. simplify_eq.
    inversion Hstat as [? E| | |? Hg]; [|done].
    unfold image_of in E. by destruct (guac_display_layer_clear_non_opaque l' (op_dest op)). }
  split.
  - intros j Hj. apply Hoth. intros op l Hop Hl <-. apply Hj.
    apply list_elem_of_fmap_2. by eapply list_elem_of_lookup_2.
  - intros j.
    destruct (decide (Exists (λ op, layer_index <$> (ls !! op_layer op) = Some j) queue))
      as [H|H].
    + apply list.Exists_exists in H as (op & Hop & H). destruct (ls !! op_layer op) as [l|] eqn:Hl; [|done].
      cbn in H. simplify_eq. by apply (Hsent op l).
    + rewrite Hoth; [done|]. intros op l Hop Hl <-. apply H, list.Exists_exists. exists op. by rewrite Hl.
  - intros k l x y Hl. destruct (Hpix k l x y Hl) as [?|[?|(i & op & r & _ & Hr & Hne & _)]]; [by left|by right|].
    by rewrite (Forall_lookup_1 _ _ _ _ Hfin Hr) in Hne.
  - intros k l x y Hl (op & Hop & <- & Hin). by apply (Hsent op l).
Qed.
End interleave.
