(* ===== verification/DisplayShown.v ===== *)
(** * Users see what has been drawn (specification of DisplayFlush.v)

    The whole of a frame: it is planned, made the last frame and applied, the workers send its images
    and the last of them copies what has changed to the buffers.  Then the screen shows the frame
    that was pending, and everything is as it was required for the next one. *)

From stdpp Require Import gmap.
From S2P Require Import Prelude RecordUpdate Mem Run Rect ProtocolTypes Display DisplayPlan DisplayFlush.
From S2P Require Import DisplayDraftSpec DisplayCreateSpec DisplayPassSpec DisplayCombineSpec DisplayOptimiseSpec.
From S2P Require Import DisplayCommitSpec DisplayScreen DisplayApplySpec DisplayWorkerSpec DisplayInterleaveSpec.
Local Open Scope Z_scope.

Local Abbreviation len l := (Z.of_nat (List.length l)).

(** ** The layers along the way *)

(** A layer once it has been planned and its frame is complete. *)

Definition finished (changed : bool) (l l' : guac_display_layer) : Prop :=
  ∃ l2 b copied, planned_layer l l2 ∧ completed l2 l' b copied ∧ (copied = true → changed = true).

Lemma planned_fields l l2 : planned_layer l l2 →
  layer_index l2 = layer_index l ∧ opaque l2 = opaque l ∧ last_frame_buffer l2 = last_frame_buffer l ∧
  last_frame l2 = last_frame l ∧
  (∀ x y, pixel (pending_frame l2) x y = pixel (pending_frame l) x y) ∧
  width (pending_frame l2) = width (pending_frame l) ∧ height (pending_frame l2) = height (pending_frame l).
Proof. by intros (d & cells & -> & _). Qed.

Lemma completed_fields l l' b copied : completed l l' b copied →
  layer_index l' = layer_index l ∧ opaque l' = opaque l ∧ last_frame_buffer l' = last_frame_buffer l ∧
  listed l' = true ∧
  (∀ x y, pixel (pending_frame l') x y = pixel (pending_frame l) x y) ∧
  width (pending_frame l') = width (pending_frame l) ∧ height (pending_frame l') = height (pending_frame l) ∧
  width (last_frame l') = width (pending_frame l) ∧ height (last_frame l') = height (pending_frame l) ∧
  dirty (last_frame l') = (if copied then dirty (pending_frame l) else no_rect) ∧
  pending_frame_cells l' = pending_frame_cells l.
Proof. by intros [-> _ _]. Qed.

Lemma not_differs l x y : ¬ differs l x y → inside (pending_frame l) x y →
  inside (last_frame l) x y ∧ pixel (pending_frame l) x y = pixel (last_frame l) x y.
Proof.
  unfold differs, inside. intros Hn Hin. split; [lia|].
  destruct (decide (pixel (pending_frame l) x y = pixel (last_frame l) x y)); [done|]. destruct Hn. auto.
Qed.

(** A pixel that is not in what was copied is as it was. *)

Lemma unchanged l l2 l' b copied x y :
  planned_layer l l2 → reported l → completed l2 l' b copied →
  inside (pending_frame l) x y → ¬ in_rect x y (dirty (last_frame l')) →
  inside (last_frame l) x y ∧ pixel (pending_frame l) x y = pixel (last_frame l) x y.
Proof.
  intros (d & cells & -> & _ & _ & _ & Hcov) Hrep [-> _ Hc] Hin Hn. apply not_differs; [|done].
  intros Hd. pose proof (Hcov x y Hin (Hrep x y Hin Hd) Hd) as Hxy.
  cbn [completed_with last_frame committed with_buffer dirty set eta_display_layer eta_layer_state] in Hn.
  destruct copied; [done|]. destruct Hc as [He _].
  by destruct (proj1 (is_empty_spec _) He x y).
Qed.

Lemma completed_pixel l l2 l' b copied x y :
  planned_layer l l2 → reported l → completed l2 l' b copied → inside (pending_frame l) x y →
  pixel (last_frame l') x y = pixel (pending_frame l) x y.
Proof.
  intros Hp Hrep Hc Hin. pose proof Hc as [_ _ Hpix].
  destruct (planned_fields _ _ Hp) as (_ & _ & _ & Hlast & Hpp & Hw & Hh).
  destruct copied.
  - rewrite Hpix, Hpp; [done|]. unfold inside in *. by rewrite Hw, Hh.
  - destruct (unchanged l l2 l' b false x y Hp Hrep Hc Hin) as [_ ->].
    { destruct (completed_fields _ _ _ _ Hc) as (_ & _ & _ & _ & _ & _ & _ & _ & _ & -> & _).
      unfold in_rect, no_rect. cbn [left top right bottom]. lia. }
    destruct Hpix as (_ & Hb & Hs). destruct Hc as [-> _ _]. rewrite Hlast in Hb, Hs.
    unfold pixel at 1. cbn [completed_with last_frame committed with_buffer buffer buffer_stride set
      eta_display_layer eta_layer_state]. rewrite <-Hs. unfold pixel. by rewrite Hb.
Qed.

Lemma finished_ready changed l l' : ready l → finished changed l l' → ready l'.
Proof.
  intros Hl (l2 & b & copied & Hp & Hc & _). destruct (planned_ready _ _ Hl Hp) as (Hok & Hd & Hclean).
  split_and!.
  - by eapply completed_layer_ok.
  - destruct Hc as [-> _ _]. cbn. by destruct copied.
  - destruct (completed_fields _ _ _ _ Hc) as (_ & _ & _ & _ & _ & _ & _ & _ & _ & _ & ->). done.
Qed.

Section shown.
Context (composite : guac_composite_mode → Z → Z → Z) (paint : Z → Z → Z → Z → Z)
  (decode : image_encoding → bool → list (list Z) → Z → Z → Z) (near : Z → Z → Prop)
  (Hlaws : client_laws composite paint decode near).

Local Abbreviation act_all := (act_all composite paint decode).
Local Abbreviation act := (act composite paint decode).
Local Abbreviation good := (good near).

(** ** Sizes *)

Lemma quiet_ok ls sent s :
  named_apart ls → Forall (quiet ls) sent →
  (∀ j, closed (act_all s sent j) = closed (s j)) ∧
  (∀ j, j ∉ layer_index <$> ls → act_all s sent j = s j) ∧
  ∀ l x y, l ∈ ls → inside (pending_frame l) x y →
    points (act_all s sent (layer_index l)) x y = points (s (layer_index l)) x y.
Proof using.
  intros Hn. revert s. induction sent as [|i sent IH]; intros s Hq; [done|].
  apply Forall_cons_1 in Hq as [Hi Hq]. cbn [DisplayScreen.act_all foldl].
  destruct (IH (act s i) Hq) as (Hc & Ho & Hp). clear IH.
  assert (Hstep : (∀ j, closed (act s i j) = closed (s j)) ∧
    (∀ j, j ∉ layer_index <$> ls → act s i j = s j) ∧
    ∀ l x y, l ∈ ls → inside (pending_frame l) x y →
      points (act s i (layer_index l)) x y = points (s (layer_index l)) x y).
  { destruct Hi as [(l & Hl & Hi)|Hi]; [|by destruct i].
    destruct i; try done. destruct Hi as (-> & -> & ->). cbn [DisplayScreen.act]. unfold on. split_and!.
    - intros j. by case_decide as E; [rewrite E|].
    - intros j Hj. rewrite decide_False; [done|]. intros ->. apply Hj. by apply list_elem_of_fmap_2.
    - intros l' x y Hl' Hin. case_decide as E; [|done]. rewrite E. cbn [repaint points].
      apply list_elem_of_lookup in Hl as [i Hl], Hl' as [i' Hl'].
      pose proof (index_inj ls _ _ _ _ Hn Hl' Hl E) as ->. simplify_eq.
      rewrite (proj2 (inb_true _ _ _)); [done|]. exact Hin. }
  destruct Hstep as (Hc1 & Ho1 & Hp1). fold act_all in *. split_and!.
  - intros j. etransitivity; [apply Hc|apply Hc1].
  - intros j Hj. etransitivity; [by apply Ho|by apply Ho1].
  - intros l x y Hl Hin. etransitivity; [by apply Hp|by apply Hp1].
Qed.

(** ** Copies to the buffers *)

Lemma commit_layer_ok l s :
  rect_ok (dirty (last_frame l)) → layer_index l ≠ last_frame_buffer l →
  closed (s (last_frame_buffer l)) = true →
  let s' := act_all s (commit_layer l) in
  (∀ j, j ≠ last_frame_buffer l → s' j = s j) ∧ closed (s' (last_frame_buffer l)) = true ∧
  (∀ x y, in_rect x y (dirty (last_frame l)) →
     (opaque l = true → alpha_of (points (s (layer_index l)) x y) = 255) →
     points (s' (last_frame_buffer l)) x y = points (s (layer_index l)) x y) ∧
  (∀ x y, ¬ in_rect x y (dirty (last_frame l)) →
     points (s' (last_frame_buffer l)) x y = points (s (last_frame_buffer l)) x y).
Proof using Hlaws.
  intros Hd Hne Hc. unfold commit_layer. set (r := dirty (last_frame l)) in *.
  destruct (guac_rect_is_empty r) eqn:He.
  { cbn. split_and!; try done. intros x y Hin. by destruct (proj1 (is_empty_spec r) He x y). }
  assert (Hsized : sized (left r) (top r) (guac_rect_width r) (guac_rect_height r) = r).
  { apply is_empty_false in He. rewrite width_spec, height_spec by done. unfold sized.
    destruct r as [a b c e]. cbn [left top right bottom] in *. f_equal; lia. }
  assert (Hsrc : ∀ x y, (left r + (x - left r) = x) ∧ (top r + (y - top r) = y)) by lia.
  destruct (opaque l) eqn:Eo; cbn [app DisplayScreen.act_all foldl DisplayScreen.act]; rewrite ?Hsized.
  - split_and!.
    + intros j Hj. by rewrite on_other.
    + by rewrite on_same.
    + intros x y Hin Ha. rewrite on_same. cbn [repaint points]. rewrite (proj2 (inb_true _ _ _) Hin).
      destruct (Hsrc x y) as [-> ->]. rewrite (over_opaque _ _ _ _ Hlaws); [done|]. by apply Ha.
    + intros x y Hin. rewrite on_same. cbn [repaint points]. by rewrite (proj2 (inb_false _ _ _) Hin).
  - split_and!.
    + intros j Hj. by rewrite !on_other.
    + by rewrite on_same, on_same.
    + intros x y Hin _. rewrite on_same. cbn [repaint points]. rewrite (proj2 (inb_true _ _ _) Hin).
      destruct (Hsrc x y) as [-> ->]. rewrite !(on_other _ (layer_index l)) by done.
      rewrite !on_same, Hc. cbn [points path existsb]. rewrite (proj2 (inb_true _ _ _) Hin). cbn [orb].
      rewrite (paint_nothing _ _ _ _ Hlaws), (ratop_clears _ _ _ _ Hlaws). apply (over_blank _ _ _ _ Hlaws).
    + intros x y Hin. rewrite on_same. cbn [repaint points]. rewrite (proj2 (inb_false _ _ _) Hin).
      rewrite !on_same, Hc. cbn [points path existsb]. by rewrite (proj2 (inb_false _ _ _) Hin).
Qed.

Lemma commits_ok ls s :
  named_apart ls → Forall (λ l, rect_ok (dirty (last_frame l))) ls → (∀ j, closed (s j) = true) →
  let s' := act_all s (mjoin (commit_layer <$> ls)) in
  (∀ j, j ∉ last_frame_buffer <$> ls → s' j = s j) ∧ (∀ j, closed (s' j) = true) ∧
  ∀ l x y, l ∈ ls →
    (in_rect x y (dirty (last_frame l)) →
     (opaque l = true → alpha_of (points (s (layer_index l)) x y) = 255) →
     points (s' (last_frame_buffer l)) x y = points (s (layer_index l)) x y) ∧
    (¬ in_rect x y (dirty (last_frame l)) →
     points (s' (last_frame_buffer l)) x y = points (s (last_frame_buffer l)) x y).
Proof using Hlaws.
  intros Hn Hd Hc.
  assert (Hgen : ∀ post, (∀ l, l ∈ post → l ∈ ls) → NoDup (last_frame_buffer <$> post) →
    ∀ s, (∀ j, closed (s j) = true) →
    let s' := act_all s (mjoin (commit_layer <$> post)) in
    (∀ j, j ∉ last_frame_buffer <$> post → s' j = s j) ∧ (∀ j, closed (s' j) = true) ∧
    ∀ l x y, l ∈ post →
      (in_rect x y (dirty (last_frame l)) →
       (opaque l = true → alpha_of (points (s (layer_index l)) x y) = 255) →
       points (s' (last_frame_buffer l)) x y = points (s (layer_index l)) x y) ∧
      (¬ in_rect x y (dirty (last_frame l)) →
       points (s' (last_frame_buffer l)) x y = points (s (last_frame_buffer l)) x y)).
  { induction post as [|l0 post IH]; intros Hsub Hnd t Ht.
    { cbn. split_and!; [done..|]. intros l x y Hl. by apply elem_of_nil in Hl. }
    cbn [fmap list_fmap] in Hnd. apply list.NoDup_cons in Hnd as [Hnew Hnd].
    pose proof (Hsub l0 ltac:(left)) as Hl0.
    destruct (commit_layer_ok l0 t) as (Honly & Hcl & Hin & Hout).
    { by apply (proj1 (list.Forall_forall _ _) Hd). }
    { by apply (index_not_buffer ls). }
    { done. }
    cbn [fmap list_fmap mjoin list_join]. rewrite act_all_app.
    set (t1 := act_all t (commit_layer l0)) in *.
    assert (Ht1 : ∀ j, closed (t1 j) = true).
    { intros j. destruct (decide (j = last_frame_buffer l0)) as [->|]; [done|]. by rewrite Honly. }
    destruct (IH ltac:(intros; apply Hsub; by right) Hnd t1 Ht1) as (Ho & Hc' & Hp).
    split_and!; [|exact Hc'|].
    - intros j Hj. cbn [fmap list_fmap] in Hj. rewrite not_elem_of_cons in Hj. destruct Hj as [Hj1 Hj2].
      etransitivity; [by apply Ho|by apply Honly].
    - intros l x y Hl. apply elem_of_cons in Hl as [->|Hl].
      + assert (E : points (act_all t1 (mjoin (commit_layer <$> post)) (last_frame_buffer l0)) x y
          = points (t1 (last_frame_buffer l0)) x y) by (by rewrite Ho).
        split; intros; (etransitivity; [exact E|]); [by apply Hin|by apply Hout].
      + destruct (Hp l x y Hl) as [Hp1 Hp2].
        assert (Hidx : t1 (layer_index l) = t (layer_index l)).
        { apply Honly. apply (index_not_buffer ls); [done| |done]. apply Hsub. by right. }
        assert (Hbuf : t1 (last_frame_buffer l) = t (last_frame_buffer l)).
        { apply Honly. intros E. apply Hnew. rewrite <-E. by apply list_elem_of_fmap_2. }
        rewrite Hidx in Hp1. rewrite Hbuf in Hp2. done. }
  apply Hgen; [done| |done]. by apply list.NoDup_app in Hn as (_ & _ & ?).
Qed.

(** ** A frame on the screen *)

Record shows (s : screen) (ls : list guac_display_layer) : Prop := {
  shows_layers : ∀ l x y, l ∈ ls → inside (last_frame l) x y →
    near (points (s (layer_index l)) x y) (shown_color l (pixel (last_frame l) x y));
  shows_buffers : buffers_show near ls s;
  shows_closed : ∀ j, closed (s j) = true;
}.

(** Copying to the buffers once more changes nothing. *)

Lemma shows_again ls s :
  named_apart ls → Forall (λ l, rect_ok (dirty (last_frame l))) ls → shows s ls →
  shows (act_all s (mjoin (commit_layer <$> ls))) ls.
Proof using Hlaws.
  intros Hn Hd [Hl Hb Hc]. destruct (commits_ok ls s Hn Hd Hc) as (Ho & Hc' & Hbuf).
  split; [| |exact Hc'].
  - intros l x y Hin Hi. rewrite Ho; [by apply Hl|].
    intros (from & E & Hfrom)%list_elem_of_fmap. by apply (index_not_buffer ls l from) in E.
  - intros l x y Hin Hi. destruct (Hbuf l x y Hin) as [Hb1 Hb2]. pose proof (Hl l x y Hin Hi) as Hf.
    destruct (inb x y (dirty (last_frame l))) eqn:E.
    + rewrite Hb1; [done|by apply inb_true|]. intros Hopq.
      apply (near_opaque _ _ _ _ Hlaws _ _ Hf). unfold shown_color. rewrite Hopq. apply alpha_shown.
    + apply inb_false in E. rewrite (Hb2 E). by apply Hb.
Qed.

Lemma interleaving_nil {A} (chunks : list (list A)) tr :
  interleaving (chunks ++ [[]]) tr → interleaving chunks tr.
Proof using.
  intros H. remember (chunks ++ [[]]) as rem eqn:E. revert chunks E.
  induction H as [rem Hdone|rem i x rest tr Hi _ IH]; intros chunks ->.
  - constructor. by apply Forall_app in Hdone as [? _].
  - assert (Hlt : (i < length chunks)%nat).
    { destruct (decide (i < length chunks)%nat) as [|Hge]; [done|].
      rewrite lookup_app_r in Hi by lia. destruct (i - length chunks)%nat as [|[|]]; done. }
    rewrite lookup_app_l in Hi by done. econstructor; [exact Hi|]. apply IH.
    by rewrite insert_app_l.
Qed.

Lemma filter_index {A} (f : A → bool) (ops : list A) i a :
  List.filter f ops !! i = Some a → ∃ j, ops !! j = Some a ∧ (i ≤ j)%nat.
Proof using.
  revert i. induction ops as [|op ops IH]; intros i; [done|]. cbn [List.filter].
  destruct (f op).
  - destruct i as [|i]; [intros [= ->]; exists 0%nat; by split|]. cbn [lookup list_lookup]. intros H.
    destruct (IH i H) as (j & Hj & Hle). exists (S j). split; [done|lia].
  - intros H. destruct (IH i H) as (j & Hj & Hle). exists (S j). split; [done|lia].
Qed.

(** Of the operations that are kept, two that are in some relation are the same. *)

Lemma filter_single {A} (f : A → bool) (R : A → A → Prop) (ops : list A) :
  (∀ i j a b, ops !! i = Some a → ops !! j = Some b → R a b → i = j) →
  ∀ i j a b, List.filter f ops !! i = Some a → List.filter f ops !! j = Some b → R a b → i = j.
Proof using.
  induction ops as [|op ops IH]; intros H i j a b; [done|].
  assert (Hrest : ∀ i j a b, ops !! i = Some a → ops !! j = Some b → R a b → i = j).
  { intros i' j' a' b' Hi Hj HR. specialize (H (S i') (S j') a' b' Hi Hj HR). lia. }
  cbn [List.filter]. destruct (f op); [|by apply IH].
  destruct i as [|i], j as [|j]; cbn [lookup list_lookup]; intros Hi Hj HR.
  - done.
  - destruct (filter_index f ops j b Hj) as (j' & Hj' & _). by specialize (H 0%nat (S j') a b Hi Hj' HR).
  - destruct (filter_index f ops i a Hi) as (i' & Hi' & _). by specialize (H (S i') 0%nat a b Hi' Hj HR).
  - f_equal. by apply (IH Hrest i j a b).
Qed.

Lemma planned_names ls ls2 : Forall2 planned_layer ls ls2 → named_apart ls → named_apart ls2.
Proof using.
  intros HF. unfold named_apart. rewrite (planned_buffers _ _ HF).
  assert (layer_index <$> ls2 = layer_index <$> ls) as ->; [|done].
  induction HF as [|l l2 ls ls2 H _ IH]; [done|]. cbn. rewrite IH. f_equal. apply (planned_fields _ _ H).
Qed.

Lemma planned_drawable l l2 : planned_layer l l2 → drawable l → drawable l2.
Proof using.
  intros H [Hp Hs]. destruct (planned_fields _ _ H) as (_ & Ho & _ & Hl & Hpix & Hw & Hh). split.
  - intros x y Hin. rewrite Ho, Hpix. apply Hp. unfold inside in *. by rewrite <-Hw, <-Hh.
  - rewrite Ho, Hl. unfold small_state in *. rewrite Hw, Hh. done.
Qed.

Lemma completed_names ls2 ls3 :
  Forall2 (λ l l', ∃ b copied, completed l l' b copied) ls2 ls3 → named_apart ls2 → named_apart ls3.
Proof using.
  intros HF. unfold named_apart.
  assert (layer_index <$> ls3 = layer_index <$> ls2 ∧ last_frame_buffer <$> ls3 = last_frame_buffer <$> ls2)
    as [-> ->]; [|done].
  induction HF as [|l l' ls2 ls3 (b & copied & Hc) _ [IH1 IH2]]; [done|]. cbn. rewrite IH1, IH2.
  destruct (completed_fields _ _ _ _ Hc) as (-> & _ & -> & _). done.
Qed.

Section frame.
Context (ls ls2 ls3 : list guac_display_layer) (ops : list guac_display_plan_operation).
Context (Hready : Forall ready ls) (Hrep : Forall reported ls) (Hdraw : Forall drawable ls)
  (Hn : named_apart ls) (Hplan : plan_ok ls ls2 ops)
  (Hdone : Forall2 (λ l l', ∃ b copied, completed l l' b copied) ls2 ls3).

Record along (k : nat) (l l2 l3 : guac_display_layer) (b : list Z) (copied : bool) : Prop := {
  along_first : ls !! k = Some l;
  along_planned : ls2 !! k = Some l2 ∧ planned_layer l l2;
  along_completed : ls3 !! k = Some l3 ∧ completed l2 l3 b copied;
  along_ready : ready l;
  along_reported : reported l;
}.

Lemma along_of k l2 : ls2 !! k = Some l2 → ∃ l l3 b copied, along k l l2 l3 b copied.
Proof using All.
  intros H2. destruct (Forall2_lookup_r _ _ _ _ _ (plan_layers _ _ _ Hplan) H2) as (l & Hl & Hp).
  destruct (Forall2_lookup_l _ _ _ _ _ Hdone H2) as (l3 & H3 & b & copied & Hc).
  exists l, l3, b, copied. split; try done.
  - exact (Forall_lookup_1 _ _ _ _ Hready Hl).
  - exact (Forall_lookup_1 _ _ _ _ Hrep Hl).
Qed.

Lemma along_last k l3 : ls3 !! k = Some l3 → ∃ l l2 b copied, along k l l2 l3 b copied.
Proof using All.
  intros H3. destruct (Forall2_lookup_r _ _ _ _ _ Hdone H3) as (l2 & H2 & _).
  destruct (along_of k l2 H2) as (l & l3' & b & copied & H). exists l, l2, b, copied.
  destruct (along_completed _ _ _ _ _ _ H) as [H3' _]. by simplify_eq.
Qed.

(** Pixels of the frame that is complete. *)

Lemma along_pixel k l l2 l3 b copied x y :
  along k l l2 l3 b copied → inside (pending_frame l2) x y →
  pixel (last_frame l3) x y = pixel (pending_frame l2) x y.
Proof using.
  intros [_ [_ Hp] [_ Hc] _ Hr] Hin. destruct (planned_fields _ _ Hp) as (_ & _ & _ & _ & Hpix & Hw & Hh).
  rewrite Hpix. eapply completed_pixel; try done. unfold inside in *. by rewrite <-Hw, <-Hh.
Qed.

Lemma along_ok k l l2 l3 b copied :
  along k l l2 l3 b copied → layer_ok l2 ∧ layer_ok l3 ∧ rect_ok (dirty (last_frame l3)).
Proof using.
  intros [_ [_ Hp] [_ Hc] Hr _]. destruct (planned_ready _ _ Hr Hp) as (Hok & Hd & _).
  split_and!; [done|by eapply completed_layer_ok|].
  destruct (completed_fields _ _ _ _ Hc) as (_ & _ & _ & _ & _ & _ & _ & _ & _ & -> & _). by destruct copied.
Qed.

Lemma planned_ok_all : Forall layer_ok ls2.
Proof using All.
  apply Forall_lookup. intros k l2 H2. destruct (along_of k l2 H2) as (l & l3 & b & copied & H).
  by apply (along_ok _ _ _ _ _ _ H).
Qed.

Lemma planned_drawable_all : Forall drawable ls2.
Proof using All.
  apply Forall_lookup. intros k l2 H2. destruct (along_of k l2 H2) as (l & l3 & b & copied & [Hl [_ Hp] _ _ _]).
  eapply planned_drawable; [exact Hp|]. exact (Forall_lookup_1 _ _ _ _ Hdraw Hl).
Qed.

Lemma same_layers : Forall2 same_layer ls2 ls3.
Proof using Hdone.
  eapply Forall2_impl; [|exact Hdone]. intros l l' (b & copied & Hc).
  destruct (completed_fields _ _ _ _ Hc) as (? & ? & _). by split.
Qed.

Local Abbreviation queue := (List.filter is_img ops).

Lemma queue_op op : op ∈ queue → right_op ls2 op ∧ op_type op = GUAC_DISPLAY_PLAN_OPERATION_IMG.
Proof using Hplan.
  intros [Hop Himg]%list_elem_of_In%filter_In. split.
  - apply (proj1 (list.Forall_forall _ _) (plan_right _ _ _ Hplan)). by apply list_elem_of_In.
  - by apply bool_decide_eq_true in Himg.
Qed.

(** What a worker sends is the image of the pending frame. *)

Lemma worker_sends webp lag op :
  op ∈ queue → ∃ c, worker_op webp lag ls3 op = Run c ∧ sends ls2 op c.
Proof using All.
  intros Hop. destruct (queue_op op Hop) as [(l2 & H2 & He & Hb & _) Ht].
  destruct (along_of _ _ H2) as (l & l3 & b & copied & H).
  pose proof (along_completed _ _ _ _ _ _ H) as [H3 Hc].
  destruct (completed_fields _ _ _ _ Hc) as (Hidx & Hopq & _ & _ & _ & _ & _ & Hw & Hh & _).
  destruct (along_ok _ _ _ _ _ _ H) as (_ & Hok3 & _).
  destruct (worker_op_ok webp lag ls3 op l3 Ht H3 (ok_last _ Hok3) He) as (e & rows & -> & Hlen & Hrows).
  { unfold contains in *. cbn [bounds_of left top right bottom] in *. by rewrite Hw, Hh. }
  eexists. split; [done|]. exists l2, e, rows. split; [done|]. split.
  - unfold image_of, guac_display_layer_clear_non_opaque. by rewrite Hidx, Hopq.
  - split; [done|]. intros j Hj. destruct (Hrows j Hj) as (row & Hrow & Hrl & Hpix).
    exists row. split_and!; [done..|]. intros i Hi. rewrite (Hpix i Hi). f_equal.
    eapply along_pixel; [exact H|]. unfold contains in Hb. unfold inside.
    cbn [bounds_of left top right bottom] in Hb. lia.
Qed.

Lemma queue_single i j a b l :
  queue !! i = Some a → queue !! j = Some b → op_layer a = op_layer b → ls2 !! op_layer a = Some l →
  opaque l = false → i = j.
Proof using Hplan Hdraw.
  intros Hi Hj Hab Hl Ho.
  apply (filter_single is_img (λ a b, op_layer a = op_layer b ∧ ∃ l, ls2 !! op_layer a = Some l ∧ opaque l = false)
    ops) with a b; [|done|done|by split; [|exists l]].
  clear i j a b l Hi Hj Hab Hl Ho. intros i j a b Ha Hb (Hab & l2 & H2 & Ho).
  destruct (Forall2_lookup_r _ _ _ _ _ (plan_layers _ _ _ Hplan) H2) as (l & Hl & Hp).
  destruct (planned_fields _ _ Hp) as (_ & Ho' & _).
  destruct (Forall_lookup_1 _ _ _ _ Hdraw Hl) as [_ Hsmall]. rewrite Ho' in Ho.
  destruct (Hsmall Ho) as [[Hw Hh] _]. apply (plan_single _ _ _ Hplan i j a b l); (done || lia).
Qed.

Context (s : screen) (Hs : shows s ls).
Context (sent0 sent1 tr : list instruction) (Hquiet : Forall (quiet ls2) sent0)
  (Happly : guac_display_plan_apply ls3 ops = Run (sent1, queue))
  (chunks : list (list instruction))
  (Hchunks : Forall2 (λ op c, ∃ webp lag, worker_op webp lag ls3 op = Run c) queue chunks)
  (Htr : interleaving chunks tr).

Let s0 := act_all s sent0.
Let s1 := act_all s0 sent1.
Let s2 := act_all s1 tr.

Lemma names2 : named_apart ls2.
Proof using Hplan Hn. eapply planned_names; [apply Hplan|done]. Qed.

Lemma first_screen :
  (∀ j, closed (s0 j) = true) ∧ (∀ j, j ∉ layer_index <$> ls2 → s0 j = s j) ∧
  (∀ l x y, l ∈ ls2 → inside (pending_frame l) x y →
     points (s0 (layer_index l)) x y = points (s (layer_index l)) x y).
Proof using Hplan Hn Hquiet Hs.
  destruct (quiet_ok ls2 sent0 s names2 Hquiet) as (Hc & Ho & Hp). split_and!; [|done|done].
  intros j. rewrite Hc. by apply Hs.
Qed.

Lemma buffers_first : buffers_show near ls2 s0.
Proof using All.
  intros from x y Hfrom Hin. destruct first_screen as (_ & Ho & _).
  rewrite Ho; cycle 1.
  { intros (l & E & Hl)%list_elem_of_fmap. symmetry in E. by apply (index_not_buffer ls2 l from names2) in E. }
  apply list_elem_of_lookup in Hfrom as [k H2]. destruct (along_of k from H2) as (l & l3 & b & copied & H).
  pose proof (along_planned _ _ _ _ _ _ H) as [_ Hp]. pose proof (along_first _ _ _ _ _ _ H) as Hl.
  destruct (planned_fields _ _ Hp) as (_ & Ho2 & Hb2 & Hl2 & _). rewrite Hl2 in *. rewrite Hb2.
  unfold shown_color. rewrite Ho2. apply (shows_buffers _ _ Hs); [by eapply list_elem_of_lookup_2|done].
Qed.

Lemma applied : progress near ls2
  (λ k x y, ∃ op, op ∈ ops ∧ at_once op ∧ op_layer op = k ∧ in_rect x y (op_dest op)) s0 s1.
Proof using All.
  destruct (apply_ok composite paint decode near Hlaws ls2 planned_ok_all names2 planned_drawable_all ls3 same_layers ops
    (plan_right _ _ _ Hplan)) as (sent & E & Hp).
  rewrite Happly in E. injection E as <-.
  eapply drawing_weaken; [apply (Hp (λ _ _ _, False) s0 s0 buffers_first)|].
  - destruct first_screen as (Hc & _). split; [done|done|by right|done].
  - intros k x y H. by right.
Qed.

Lemma worked : progress near ls2
  (λ k x y, ∃ op, op ∈ queue ∧ op_layer op = k ∧ in_rect x y (op_dest op)) s1 s2.
Proof using All.
  apply (workers_ok composite paint decode near Hlaws ls2 planned_ok_all names2 queue) with chunks.
  - apply list.Forall_forall. intros op Hop. by apply queue_op.
  - apply queue_single.
  - apply Forall2_same_length_lookup_2; [by eapply Forall2_length|]. intros i op c Hop Hc.
    destruct (Forall2_lookup_lr _ _ _ _ _ _ Hchunks Hop Hc) as (webp & lag & E).
    destruct (worker_sends webp lag op) as (c' & E' & Hsend); [by eapply list_elem_of_lookup_2|]. congruence.
  - exact Htr.
  - apply applied.
Qed.

Lemma all_good k l l2 l3 b copied x y :
  along k l l2 l3 b copied → inside (pending_frame l2) x y → good s2 l2 x y.
Proof using All.
  intros H Hin. destruct H as [Hl [H2 Hp] [H3 Hc] Hr Hrepl].
  destruct (planned_fields _ _ Hp) as (Hidx & Hopq & _ & Hlast & Hpix & Hw & Hh).
  assert (Hin' : inside (pending_frame l) x y) by (unfold inside in *; by rewrite <-Hw, <-Hh).
  pose proof applied as Hap. pose proof worked as Hwk.
  assert (Hnext : good s1 l2 x y → good s2 l2 x y).
  { intros Hg. destruct (progress_pixels _ _ _ _ _ Hwk k l2 x y H2) as [?|E]; [done|].
    unfold DisplayApplySpec.good. by rewrite E. }
  assert (Hdec : differs l x y ∨ ¬ differs l x y).
  { unfold differs. destruct (decide (width (last_frame l) ≤ x)), (decide (height (last_frame l) ≤ y)),
      (decide (pixel (pending_frame l) x y = pixel (last_frame l) x y)); try (left; tauto). right; tauto. }
  destruct Hdec as [Hd|Hd].
  - destruct (plan_draws _ _ _ Hplan k l x y Hl Hin' (Hrepl x y Hin' Hd) Hd) as (op & Hop & Hnop & Hk & Hxy).
    destruct (op_type op) eqn:Ht; [done|..].
    + apply Hnext. apply (progress_drawn _ _ _ _ _ Hap k l2 x y H2). exists op. split_and!; try done. by right.
    + apply Hnext. apply (progress_drawn _ _ _ _ _ Hap k l2 x y H2). exists op. split_and!; try done. by left.
    + apply (progress_drawn _ _ _ _ _ Hwk k l2 x y H2). exists op. split_and!; try done.
      apply list_elem_of_In, filter_In. split; [by apply list_elem_of_In|]. by apply bool_decide_eq_true.
  - apply Hnext. destruct (not_differs l x y Hd Hin') as [Hinl Epix].
    destruct (progress_pixels _ _ _ _ _ Hap k l2 x y H2) as [?|E]; [done|].
    unfold DisplayApplySpec.good. rewrite E.
    destruct first_screen as (_ & _ & Hf). rewrite Hf by (try done; by eapply list_elem_of_lookup_2).
    unfold shown_color. rewrite Hidx, Hopq, Hpix, Epix.
    apply (shows_layers _ _ Hs); [by eapply list_elem_of_lookup_2|done].
Qed.

Lemma frame_screen : shows (act_all s2 (mjoin (commit_layer <$> ls3))) ls3.
Proof using All.
  pose proof (completed_names _ _ Hdone names2) as Hn3.
  destruct (commits_ok ls3 s2 Hn3) as (Ho & Hc & Hb).
  { apply Forall_lookup. intros k l3 H3. destruct (along_last k l3 H3) as (l & l2 & b & copied & H).
    by apply (along_ok _ _ _ _ _ _ H). }
  { apply worked. }
  assert (Hfacts : ∀ l3 x y, l3 ∈ ls3 → inside (last_frame l3) x y →
    near (points (s2 (layer_index l3)) x y) (shown_color l3 (pixel (last_frame l3) x y))).
  { intros l3 x y Hl3 Hin. apply list_elem_of_lookup in Hl3 as [k H3].
    destruct (along_last k l3 H3) as (l & l2 & b & copied & H).
    destruct (completed_fields _ _ _ _ (proj2 (along_completed _ _ _ _ _ _ H)))
      as (Hidx & Hopq & _ & _ & _ & _ & _ & Hw & Hh & _).
    assert (Hin2 : inside (pending_frame l2) x y) by (unfold inside in *; by rewrite <-Hw, <-Hh).
    pose proof (all_good _ _ _ _ _ _ x y H Hin2) as Hg. unfold DisplayApplySpec.good, shown_color in *.
    by rewrite Hidx, Hopq, (along_pixel _ _ _ _ _ _ _ _ H Hin2). }
  split; [| |exact Hc].
  - intros l3 x y Hl3 Hin. rewrite Ho; [by apply Hfacts|].
    intros (from & E & Hfrom)%list_elem_of_fmap. by apply (index_not_buffer ls3 l3 from) in E.
  - intros l3 x y Hl3 Hin. destruct (Hb l3 x y Hl3) as [Hb1 Hb2].
    pose proof (Hfacts l3 x y Hl3 Hin) as Hf.
    destruct (inb x y (dirty (last_frame l3))) eqn:E.
    + rewrite Hb1; [done|by apply inb_true|]. intros Hopq.
      apply (near_opaque _ _ _ _ Hlaws _ _ Hf). unfold shown_color. rewrite Hopq. apply alpha_shown.
    + apply inb_false in E. rewrite (Hb2 E). apply list_elem_of_lookup in Hl3 as [k H3].
      destruct (along_last k l3 H3) as (l & l2 & b & copied & H). pose proof H as [Hl [H2 Hp] [_ Hcm] _ Hrepl].
      destruct (planned_fields _ _ Hp) as (_ & Hopq2 & Hbuf2 & _ & _ & Hw2 & Hh2).
      destruct (completed_fields _ _ _ _ Hcm) as (_ & Hopq & Hbuf & _ & _ & _ & _ & Hw & Hh & _).
      assert (Hin' : inside (pending_frame l) x y) by (unfold inside in *; by rewrite <-Hw2, <-Hh2, <-Hw, <-Hh).
      destruct (unchanged l l2 l3 b copied x y Hp Hrepl Hcm Hin' E) as [Hinl Epix].
      rewrite (completed_pixel l l2 l3 b copied x y Hp Hrepl Hcm Hin'), Epix.
      assert (Hnot : last_frame_buffer l3 ∉ layer_index <$> ls2).
      { rewrite Hbuf. intros (l' & E' & Hl')%list_elem_of_fmap. symmetry in E'.
        apply (index_not_buffer ls2 l' l2 names2) in E'; [done..|by eapply list_elem_of_lookup_2]. }
      rewrite (progress_others _ _ _ _ _ worked _ Hnot), (progress_others _ _ _ _ _ applied _ Hnot).
      destruct first_screen as (_ & Hf0 & _). rewrite (Hf0 _ Hnot), Hbuf, Hbuf2.
      unfold shown_color. rewrite Hopq, Hopq2.
      apply (shows_buffers _ _ Hs); [by eapply list_elem_of_lookup_2|done].
Qed.
End frame.

(** What is required to end a frame.  The limits are those of the code: a layer whose pending buffer is [NULL]
    makes the loops over the layers spin ([DisplayCreateSpec.detached_spins]), a layer that is not opaque is
    drawn wrongly when its pixels are translucent or it is large enough for a copy, and a frame that ends while
    a worker is busy is put off. *)

Record displayable (d : guac_display) : Prop := {
  display_ready : Forall ready (layers d);
  display_reported : Forall reported (layers d);
  display_drawable : Forall drawable (layers d);
  display_names : named_apart (layers d);
  display_idle : busy d = false;
  display_count : len (layers d) < 2 ^ 32;
}.

(** [l'] is [l] with the pending frame as its last. *)

Definition frame_of (l l' : guac_display_layer) : Prop :=
  layer_index l' = layer_index l ∧ width (last_frame l') = width (pending_frame l) ∧
  height (last_frame l') = height (pending_frame l) ∧
  ∀ x y, inside (pending_frame l) x y →
    pixel (last_frame l') x y = pixel (pending_frame l) x y ∧
    pixel (pending_frame l') x y = pixel (pending_frame l) x y.

(** What the workers that end the frame send.  There may be more than one: the operation that only wakes
    the workers is added to the queue once they may have emptied it. *)

Definition endings (n : nat) (cursor : guac_display_layer) (d : guac_display) : list instruction :=
  mjoin (replicate n (worker_end_of_frame cursor d).2).

Lemma act_all_sync cursor d s :
  act_all s (worker_end_of_frame cursor d).2 = act_all s (mjoin (commit_layer <$> List.filter listed (layers d))).
Proof using.
  unfold worker_end_of_frame. cbn [snd]. rewrite !act_all_app. by destruct (guac_rect_is_empty _).
Qed.

Lemma filter_listed ls : (∀ l, l ∈ ls → listed l = true) → List.filter listed ls = ls.
Proof using.
  induction ls as [|l ls IH]; intros H; [done|]. cbn [List.filter]. rewrite (H l) by left.
  f_equal. apply IH. intros l' Hl'. apply H. by right.
Qed.

Lemma nothing_to_commit ls : (∀ l, l ∈ ls → dirty (last_frame l) = no_rect) →
  mjoin (commit_layer <$> ls) = [].
Proof using.
  induction ls as [|l ls IH]; intros H; [done|]. cbn [fmap list_fmap mjoin list_join].
  unfold commit_layer at 1. rewrite (H l) by left. cbn. apply IH. intros l' Hl'. apply H. by right.
Qed.

Lemma end_of_frame_runs fuel now users n d :
  displayable d → (length (layers d) ≤ fuel)%nat →
  ∃ ls2 ops d' sent0 sent1 (changed : bool),
    guac_display_end_multiple_frames fuel now users n d =
      Run (d', sent0 ++ sent1, List.filter is_img ops ++ if changed then [end_frame_op] else []) ∧
    plan_ok (layers d) ls2 ops ∧
    Forall2 (λ l l', ∃ b copied, completed l l' b copied ∧ (copied = true → changed = true)) ls2 (layers d') ∧
    Forall (quiet ls2) sent0 ∧
    guac_display_plan_apply (layers d') ops = Run (sent1, List.filter is_img ops) ∧
    busy d' = is_nonempty (List.filter is_img ops ++ if changed then [end_frame_op] else []).
Proof using Hlaws.
  intros [Hready Hrep Hdraw Hn Hidle Hlen] Hfuel.
  assert (Hnd : NoDup (last_frame_buffer <$> layers d)) by (by apply list.NoDup_app in Hn as (_ & _ & ?)).
  unfold guac_display_end_multiple_frames. rewrite Hidle.
  set (d1 := d <| pending_state := _ |> <| frame_deferred := _ |>).
  change (layers d1) with (layers d). assert (Hb1 : busy d1 = false) by done. rewrite Hb1.
  destruct (plan_is_ok fuel now (layers d) Hready Hnd Hfuel Hlen) as (ls1 & plan & -> & Hplan).
  rewrite run_bind_run.
  assert (Hfinish : ∀ ls2 ops d2, plan_ok (layers d) ls2 ops → layers d2 = ls2 → busy d2 = false →
    ∃ d3 sent0 sent1 (changed : bool),
      PFW_LFW_guac_display_frame_complete fuel users d2 = Run (d3, changed, sent0) ∧
      guac_display_plan_apply (layers d3) ops = Run (sent1, List.filter is_img ops) ∧
      Forall2 (λ l l', ∃ b copied, completed l l' b copied ∧ (copied = true → changed = true)) ls2 (layers d3) ∧
      Forall (quiet ls2) sent0).
  { intros ls2 ops d2 Hok <- Hb2.
    assert (Hok2 : Forall layer_ok (layers d2)).
    { eapply Forall2_Forall_r; [apply Hok|]. eapply list.Forall_impl; [exact Hready|].
      intros l Hl l' Hl'. by apply (planned_ready l l'). }
    destruct (frame_complete_ok fuel users d2 Hok2) as (d3 & changed & sent0 & -> & HF & Hq & _).
    { pose proof (plan_layers _ _ _ Hok) as HF. apply Forall2_length in HF. lia. }
    destruct (apply_ok composite paint decode near Hlaws (layers d2) Hok2) with (ls' := layers d3) (ops := ops)
      as (sent1 & E & _).
    - eapply planned_names; [apply Hok|done].
    - eapply Forall2_Forall_r; [apply Hok|]. eapply list.Forall_impl; [exact Hdraw|].
      intros l Hl l' Hl'. by apply (planned_drawable l l').
    - eapply Forall2_impl; [|exact HF]. intros l l' (b & copied & Hc & _).
      destruct (completed_fields _ _ _ _ Hc) as (? & ? & _). by split.
    - apply Hok.
    - by exists d3, sent0, sent1, changed. }
  destruct plan as [ops|].
  - destruct Hplan as (ls2 & ops2 & -> & Hok). rewrite !run_bind_run.
    destruct (Hfinish ls2 ops2 (d1 <| layers := ls2 |> <| pending_state := (pending_state d1) <| timestamp := now |> |>))
      as (d3 & sent0 & sent1 & changed & -> & E & HF & Hq); [done..|].
    rewrite run_bind_run, E, run_bind_run.
    exists ls2, ops2, (d3 <| busy := is_nonempty (List.filter is_img ops2 ++ if changed then [end_frame_op] else []) |>),
      sent0, sent1, changed. split_and!; try done. destruct changed; [done|]. by rewrite app_nil_r.
  - rewrite run_bind_run. destruct (Hfinish ls1 [] (d1 <| layers := ls1 |>))
      as (d3 & sent0 & sent1 & changed & -> & E & HF & Hq); [done..|].
    rewrite !run_bind_run. cbn in E. injection E as <-.
    exists ls1, [], (d3 <| busy := is_nonempty (if changed then [end_frame_op] else []) |>), sent0, [], changed.
    split_and!; done.
Qed.

(** The operation that wakes the workers sends nothing. *)

Lemma images_only d queue (changed : bool) chunks tr :
  Forall2 (λ op c, ∃ webp lag, worker_op webp lag (layers d) op = Run c)
    (queue ++ if changed then [end_frame_op] else []) chunks →
  interleaving chunks tr →
  ∃ chunks', Forall2 (λ op c, ∃ webp lag, worker_op webp lag (layers d) op = Run c) queue chunks' ∧
    interleaving chunks' tr.
Proof using.
  intros Hchunks Htr. destruct changed; [|rewrite app_nil_r in Hchunks; by exists chunks].
  apply Forall2_app_inv_l in Hchunks as (chunks' & last & Hc' & Hlast & ->).
  exists chunks'. split; [done|]. apply interleaving_nil.
  apply Forall2_cons_inv_l in Hlast as (c & rest & (webp & lag & E) & Hrest & ->).
  apply Forall2_nil_inv_l in Hrest as ->. cbn in E. by injection E as <-.
Qed.

(** Ending the frame once more changes nothing on the screen. *)

Lemma endings_show cursor d :
  named_apart (layers d) → (∀ l, l ∈ layers d → listed l = true ∧ rect_ok (dirty (last_frame l))) →
  (∀ u, act_all u (worker_end_of_frame cursor d).2 = act_all u (mjoin (commit_layer <$> layers d))) ∧
  ∀ n u, shows u (layers d) → shows (act_all u (endings n cursor d)) (layers d).
Proof using Hlaws.
  intros Hn Hl.
  assert (Hend : ∀ u, act_all u (worker_end_of_frame cursor d).2 = act_all u (mjoin (commit_layer <$> layers d))).
  { intros u. rewrite act_all_sync, filter_listed; [done|]. intros l Hin. by apply Hl. }
  split; [done|]. induction n as [|n IH]; intros u Hu; [done|]. unfold endings. cbn [replicate mjoin list_join].
  rewrite act_all_app, Hend. apply IH. apply shows_again; [done| |done].
  apply list.Forall_forall. intros l Hin. by apply Hl.
Qed.

(** C2. Ending a frame of a display that is [displayable]: both buffers of every layer are there and hold it,
    no layer is larger than 8192 by 8192, and no cell of a layer is marked ([ready]); the pixels that have changed
    lie within the dirty rectangle of their layer ([reported]); pixels are words, and a layer that is not
    opaque is smaller than 64 by 64 pixels, each of them either zero or of alpha 255 ([drawable]); names of layers and
    buffers are distinct; no worker is busy; and the screen shows the last frame.  Then it never fails;
    whatever encodings the workers choose and however they interleave, the screen of a client whose
    compositing, colours and decoders obey [client_laws] shows the pending frame, which has become the last one,
    and the layers are ready for the next frame. *)

Theorem frame_shown fuel now users n d s :
  displayable d → shows s (layers d) → (length (layers d) ≤ fuel)%nat →
  ∃ d' sent queue,
    guac_display_end_multiple_frames fuel now users n d = Run (d', sent, queue) ∧
    Forall2 frame_of (layers d) (layers d') ∧ Forall ready (layers d') ∧ named_apart (layers d') ∧
    (∀ op webp lag, op ∈ queue → ∃ c, worker_op webp lag (layers d') op = Run c) ∧
    ∀ chunks tr cursor endings_sent,
      Forall2 (λ op c, ∃ webp lag, worker_op webp lag (layers d') op = Run c) queue chunks →
      interleaving chunks tr → (queue ≠ [] → (0 < endings_sent)%nat) →
      shows (act_all s (sent ++ tr ++ endings endings_sent cursor d')) (layers d').
Proof using Hlaws.
  intros Hd Hs Hfuel.
  destruct (end_of_frame_runs fuel now users n d Hd Hfuel)
    as (ls2 & ops & d' & sent0 & sent1 & changed & Hrun & Hplan & HF & Hquiet & Happly & Hbusy).
  destruct Hd as [Hready Hrep Hdraw Hn Hidle Hlen].
  set (queue := List.filter is_img ops) in *.
  assert (HF' : Forall2 (λ l l', ∃ b copied, completed l l' b copied) ls2 (layers d')).
  { eapply Forall2_impl; [|exact HF]. intros l l' (b & copied & Hc & _). by exists b, copied. }
  exists d', (sent0 ++ sent1), (queue ++ if changed then [end_frame_op] else []).
  split; [done|]. split_and!.
  - apply Forall2_same_length_lookup_2.
    { transitivity (length ls2); [|by eapply Forall2_length]. eapply Forall2_length, Hplan. }
    intros k l l' Hl Hl'.
    destruct (along_last (layers d) ls2 (layers d') ops Hready Hrep Hdraw Hn Hplan HF' k l' Hl')
      as (l0 & l2 & b & copied & H). pose proof H as [Hl0 [_ Hp] [_ Hc] _ Hrl]. simplify_eq.
    destruct (planned_fields _ _ Hp) as (Hi & _ & _ & _ & Hpix & Hw & Hh).
    destruct (completed_fields _ _ _ _ Hc) as (Hi' & _ & _ & _ & Hpix' & _ & _ & Hw' & Hh' & _).
    split_and!; [congruence..|]. intros x y Hin. split; [by eapply completed_pixel|]. by rewrite Hpix', Hpix.
  - apply Forall_lookup. intros k l' Hl'.
    destruct (along_last (layers d) ls2 (layers d') ops Hready Hrep Hdraw Hn Hplan HF' k l' Hl')
      as (l0 & l2 & b & copied & [Hl0 [_ Hp] [_ Hc] Hr _]).
    apply (finished_ready copied l0); [done|]. by exists l2, b, copied.
  - eapply completed_names; [exact HF'|]. eapply planned_names; [apply Hplan|done].
  - intros op webp lag Hop. apply elem_of_app in Hop as [Hop|Hop].
    + destruct (worker_sends (layers d) ls2 (layers d') ops Hready Hrep Hdraw Hn Hplan HF' webp lag op Hop)
        as (c & E & _). by exists c.
    + destruct changed; [|by apply elem_of_nil in Hop]. apply list_elem_of_singleton in Hop as ->. by exists [].
  - intros chunks tr cursor m Hchunks Htr Hm.
    destruct (images_only d' queue changed chunks tr Hchunks Htr) as (chunks' & Hc' & Htr').
    pose proof (frame_screen (layers d) ls2 (layers d') ops Hready Hrep Hdraw Hn Hplan HF' s Hs
      sent0 sent1 tr Hquiet Happly chunks' Hc' Htr') as Hshown.
    rewrite !act_all_app.
    set (t := act_all (act_all (act_all s sent0) sent1) tr) in *.
    assert (Hnames' : named_apart (layers d')).
    { eapply completed_names; [exact HF'|]. eapply planned_names; [apply Hplan|done]. }
    assert (Hlisted : ∀ l, l ∈ layers d' → listed l = true ∧ rect_ok (dirty (last_frame l))).
    { intros l Hl. apply list_elem_of_lookup in Hl as [k Hl].
      destruct (along_last (layers d) ls2 (layers d') ops Hready Hrep Hdraw Hn Hplan HF' k l Hl)
        as (l0 & l2 & b & copied & H). split; [|by apply (along_ok _ _ _ _ _ _ _ _ _ H)].
      by apply (completed_fields _ _ _ _ (proj2 (along_completed _ _ _ _ _ _ _ _ _ H))). }
    destruct (endings_show cursor d' Hnames' Hlisted) as [Hend Hagain].
    destruct m as [|m].
    + apply Hagain. rewrite nothing_to_commit in Hshown; [exact Hshown|].
      intros l Hl. apply list_elem_of_lookup in Hl as [k Hl].
      destruct (Forall2_lookup_r _ _ _ _ _ HF Hl) as (l2 & _ & b & copied & Hc & Hch).
      destruct (completed_fields _ _ _ _ Hc) as (_ & _ & _ & _ & _ & _ & _ & _ & _ & -> & _).
      destruct copied; [|done]. rewrite (Hch eq_refl) in Hm.
      exfalso. assert (0 < 0)%nat; [|lia]. apply Hm. by destruct queue.
    + unfold endings. cbn [replicate mjoin list_join]. rewrite act_all_app, Hend. by apply Hagain.
Qed.
End shown.

(** ** A frame of one pixel *)

(** A client that renders exactly. *)

Definition exact_composite (mode : guac_composite_mode) (v w : Z) : Z :=
  match mode with
  | GUAC_COMP_OVER => if (alpha_of v =? 255) || (w =? 0) then v else w
  | GUAC_COMP_ROUT => if alpha_of v =? 255 then 0 else w
  | GUAC_COMP_RATOP => if v =? 0 then 0 else w
  | _ => v
  end.

Definition exact_paint (r g b a : Z) : Z :=
  if a =? 0 then 0 else a * 2 ^ 24 + r * 2 ^ 16 + g * 2 ^ 8 + b.

Definition exact_decode (e : image_encoding) (alpha : bool) (rows : list (list Z)) (i j : Z) : Z :=
  match rows !! Z.to_nat j ≫= (.!! Z.to_nat i) with
  | Some v => if alpha then v else Z.lor v 0xFF000000
  | None => 0
  end.

Lemma byte_of c k : 0 ≤ k → Z.shiftr (Z.land c (255 * 2 ^ k)) k = (c / 2 ^ k) mod 256.
Proof.
  intros Hk. rewrite Z.shiftr_land, !Z.shiftr_div_pow2, Z.div_mul by lia.
  change 255 with (Z.ones 8). by rewrite Z.land_ones.
Qed.

Lemma exact_laws : client_laws exact_composite exact_paint exact_decode eq.
Proof.
  split; cbn [exact_composite].
  - intros v w Hv. by rewrite Hv.
  - intros v. rewrite orb_true_r. done.
  - intros v w Hv. by rewrite Hv.
  - done.
  - intros c Hc Ha. unfold exact_paint. cbn [Z.eqb].
    unfold alpha_of, red_of, green_of, blue_of in *.
    change 0xFF000000 with (255 * 2 ^ 24) in Ha. change 0x00FF0000 with (255 * 2 ^ 16).
    change 0x0000FF00 with (255 * 2 ^ 8). change 0x000000FF with (Z.ones 8).
    rewrite byte_of in Ha by lia. rewrite !byte_of, Z.land_ones by lia.
    change (2 ^ 24) with 16777216 in *. change (2 ^ 16) with 65536. change (2 ^ 8) with 256.
    change (2 ^ 32) with 4294967296 in Hc.
    change 16777216 with (256 * 256 * 256) in *. change 65536 with (256 * 256).
    rewrite <-!Z.div_div in * by lia. set (q := c / 256) in *. set (q2 := q / 256) in *.
    assert (c = 256 * q + c mod 256) by (apply Z.div_mod; lia).
    assert (q = 256 * q2 + q mod 256) by (apply Z.div_mod; lia).
    assert (q2 = 256 * (q2 / 256) + q2 mod 256) by (apply Z.div_mod; lia).
    assert (0 ≤ q2 / 256 < 256) by (subst q2 q; rewrite !Z.div_div by lia; split; [apply Z.div_pos; lia|apply Z.div_lt_upper_bound; lia]).
    rewrite (Z.mod_small (q2 / 256)) in Ha by lia.
    change (Z.ones 8) with 255. lia.
  - done.
  - done.
  - by intros p v ->.
  - intros e alpha rows i j row v Hrow Hv _ _. unfold exact_decode. rewrite Hrow. cbn. by rewrite Hv.
Qed.

Definition one_pixel (v : Z) (r : guac_rect) : guac_display_layer_state :=
  zero_state <| width := 1 |> <| height := 1 |> <| buffer := Some [v] |> <| buffer_width := 1 |>
    <| buffer_height := 1 |> <| buffer_stride := 4 |> <| dirty := r |>.

Definition one_layer : guac_display_layer :=
  mk_display_layer 0 true (one_pixel 0 no_rect) (-1) (one_pixel 0xFFFFFF (mk_guac_rect 0 0 1 1)) [zero_cell] 1 1 true.

Definition zero_display_state : guac_display_state := mk_display_state 0 0 0 None 0 0 0 0.

Definition one_display : guac_display :=
  mk_display [one_layer] zero_display_state zero_display_state true false false.

Definition black : screen := λ _, mk_canvas (λ _ _, 0xFF000000) [] true.

Lemma one_pixel_ok v r : state_ok (one_pixel v r).
Proof.
  split; cbn; try lia.
  - split; [by exists 1|lia].
  - exists [v]. split; [done|]. cbn. lia.
Qed.

Lemma one_pixel_inside v r x y : inside (one_pixel v r) x y → x = 0 ∧ y = 0.
Proof. unfold inside. cbn. lia. Qed.

Lemma one_displayable : displayable one_display.
Proof.
  split; [apply Forall_singleton..| | |].
  - split_and!; [|by unfold rect_ok; cbn; lia|by repeat constructor].
    split; [apply one_pixel_ok..| |]; cbn; lia.
  - intros x y Hin _. apply one_pixel_inside in Hin as [-> ->]. unfold in_rect. cbn. lia.
  - split; [|done]. intros x y Hin. apply one_pixel_inside in Hin as [-> ->]. split; [|done]. vm_compute. by split.
  - unfold named_apart. cbn. apply (bool_decide_unpack _). vm_compute. done.
  - done.
  - done.
Qed.

Lemma one_shows : shows eq black (layers one_display).
Proof.
  split; [| |done].
  - intros l x y Hl Hin. apply list_elem_of_singleton in Hl as ->. by apply one_pixel_inside in Hin as [-> ->].
  - intros l x y Hl Hin. apply list_elem_of_singleton in Hl as ->. by apply one_pixel_inside in Hin as [-> ->].
Qed.

Lemma frame_shown_witness :
  ∃ d' sent queue,
    guac_display_end_multiple_frames 1 7 [] 0 one_display = Run (d', sent, queue) ∧
    ∀ chunks tr cursor endings_sent,
      Forall2 (λ op c, ∃ webp lag, worker_op webp lag (layers d') op = Run c) queue chunks →
      interleaving chunks tr → (queue ≠ [] → (0 < endings_sent)%nat) →
      shows eq (act_all exact_composite exact_paint exact_decode black
        (sent ++ tr ++ endings endings_sent cursor d')) (layers d').
Proof.
  destruct (frame_shown exact_composite exact_paint exact_decode eq exact_laws 1 7 [] 0 one_display black
    one_displayable one_shows (le_n 1)) as (d' & sent & queue & Hrun & _ & _ & _ & _ & H).
  exists d', sent, queue. split; [exact Hrun|exact H].
Defined.
